(* ===== verification/_CoqProject ===== *)
-Q . S2P
Prelude.v
Json.v
Schema.v
WorkflowTypes.v
EdgeStore.v
Validation.v
ReadyQueue.v
Paths.v
Regex.v
PathPattern.v
ToolTypes.v
Permission.v
Evidence.v
Tracker.v
Obligations.v
ContextPipeline.v
Transcript.v
ModeContract.v
Orchestrator.v
ToolPolicy.v
PolicySpec.v
ToolBatch.v
Hooks.v
Effects.v
Results.v
Agents.v
Ownership.v
Completion.v
WriteLock.v
Scheduler.v
RunScheduler.v
SchedulerSpec.v
GraphCompiler.v
DynamicGraph.v
Ledger.v
Capacity.v
FairQueue.v
Psi.v
Seccomp.v
Environment.v
CellPolicy.v
CellRequest.v
Backends.v
Interrupts.v
Transaction.v
FileState.v
PatchTx.v
MasterPlan.v
PlanRun.v
FileTools.v
ApplyPatch.v
Merge.v
Retry.v
Repair.v
Frame.v
ExecdStore.v
LogStore.v
Cells.v
Recovery.v
Execd.v
EventStream.v
Server.v
HarnessTypes.v
RunBudget.v
Metering.v
Lifecycle.v
RunController.v
Capability.v
Progress.v
Harness.v
