(* ===== verification/Prelude.v ===== *)
(** * Orcana runtime: a verification development

    Orcana runs a coding agent's work as typed execution graphs: a spec of
    nodes with conditional dependencies is validated, scheduled under a
    parallelism bound and a single-writer lock, executed by handlers or by the
    node runtime under ownership enforcement, checkpointed, merged, and finally
    judged by a completion gate.  A harness drives each agent run through its
    lifecycle, under a budget, with interrupts that wait for an answer; within a
    run, every tool call passes hooks, a permission gate and a policy, evidence
    decides what may be claimed, and a supervisor stops a run that makes no
    progress.  Below,
    a Linux runtime accounts for host resources and fairness, and a daemon
    (execd) owns the execution cells of its clients.  This library models that
    core and proves what makes it correct.  Source paths are relative to the
    repository (its files lie under [src/src]).

    ** Conventions

    A definition that models code is preceded by a comment naming the file and
    the symbol.  Pure functions are functions; methods that change an object
    take and return its state; a [throw] is the [Throw] of the [res] monad
    below; promises and interleavings are explicit steps.  A JavaScript [Map]
    whose order is observed is an association list in insertion order ([JMap]
    below), one that is only looked up is a [gmap].  Integers are [Z];
    fractional quantities that matter are rationals.  Strings are sequences of
    8-bit code units, except in [Frame] and [LogStore], where lengths and
    truncation matter and a string is a list of UTF-16 code units; a text of the
    source that is not ASCII is spelled in UTF-8, and where a pattern counts
    characters its units are told apart ([slice120], [end_to_end]).  Time,
    generated ids, file contents, hashes, base64, models and tools are parameters; what is assumed of them is a named
    hypothesis of the section that uses it, and each theorem with a hypothesis
    has a witness on concrete data.

    ** The files

    - [Prelude]: notations, tactics ([cases], [reflect]), the hint database
      [orcana], and the shared lemmas: insertion-ordered sets and maps, stable
      sorting, counting, identifier patterns.
    - [Json]: JSON values and [workflow/results/result-hash.ts], the canonical
      serialization that cache keys are made of; [reducers/dedupe.ts].
    - [Schema]: [harness/capabilities/schema-validator.ts] and the role output
      contracts of [workflow/coordination].
    - [WorkflowTypes]: [workflow/types.ts], [contracts/criteria.ts],
      [interrupts/types.ts].
    - [EdgeStore]: [workflow/results/edge-store.ts]: topology, cycle detection,
      topological order.
    - [Validation]: [workflow/validation].
    - [ReadyQueue]: [workflow/scheduler/ready-queue.ts] and
      [dependency-policy.ts].
    - [Paths], [Ownership]: POSIX path functions, the ownership policy
      ([agents/ownership-policy.ts], [agents/assignment.ts],
      [agents/workspace-context.ts]) and the per-node enforcement of
      [execution/workflow-execution-context.ts].
    - [Results]: [results/result-store.ts] (with its checkpoint file) and
      [results/result-cache.ts].
    - [Agents]: [agents/agent-budget.ts], [agents/agent-pool.ts].
    - [Completion]: [reducers/aggregate-evidence.ts],
      [reducers/criterion-evaluator.ts] and the completion part of
      [scheduler/scheduler.ts].
    - [WriteLock]: [scheduler/concurrency-controller.ts], its waiters, abort
      signals and deadlines as steps.
    - [Scheduler], [RunScheduler]: [scheduler/scheduler.ts].  [Scheduler] holds
      the loop state and one definition per closure of the code: popping and
      launching a node ([fillStep], [launch]), settling its promise
      ([settle]), the two loops ([fill], [mainLoop]); it sees ownership and
      role validation through the class [NodeServices].  [RunScheduler]
      implements that class with [Ownership] and [Schema], adds the preflight
      ([startRun]) and the conclusion ([conclude]), and proves the theorems of
      a whole run.
    - [SchedulerSpec]: an abstract scheduler that knows phases and dependencies
      only, and the simulation of the loop by it.
    - [GraphCompiler], [DynamicGraph]: the compilers of graphs: [compiler],
      [templates] and [dynamic] of [workflow], with the permission gate of graphs
      a model writes.
    - [Interrupts]: [workflow/interrupts]: resume tokens, the record store,
      the resume controller.
    - [Transaction], [Merge]: [tools/transaction.ts]; bundles, conflict sets,
      plans and the transactional integration of [workflow/agents].
    - [Retry], [Repair]: [runtime/retry-ledger.ts],
      [runtime/retry/coordinator.ts]; [workflow/convergence].  The repair loop
      asks its authority through the class [RepairAuthority], implemented by
      the coordinator, by the ledger, and by its absence.
    - [Ledger], [Capacity], [FairQueue], [Psi]: [resource-ledger.ts],
      [host-capacity.ts], [queue.ts], [fairness.ts] and [psi.ts] of
      [runtime/linux/scheduler].
    - [Frame], [ExecdStore], [LogStore], [EventStream]: of [execd], the wire
      format ([protocol]), the tables and their statements ([state/store.ts]),
      the log files ([log-store.ts]) and the bounded subscriptions
      ([event-stream.ts]).
    - [Cells], [Recovery], [Execd]: [cell-manager.ts], [recovery.ts] and
      [handle.ts].  A handler is the sequence of commits it makes, so that
      [Execd] can stop it between any two: its step relation interleaves the
      handlers, the broker's events, crashes and restarts.
    - [Server]: [server.ts] and [approval.ts], the routing of requests behind the
      class [ExecdDeps], which [Cells] implements.
    - [HarnessTypes]: the contracts of [harness/contracts].
    - [RunBudget], [Metering]: [runtime/budget-ledger.ts] and [budget-guard.ts]
      of [harness]; [Metering] puts the guard behind the coordinator of [Retry]
      as the run controller does.
    - [Lifecycle]: [contracts/lifecycle.ts], [runtime/lifecycle-machine.ts],
      [runtime/outcome-mapper.ts].
    - [RunController]: [runtime/run-controller.ts] with the event bridge of
      [legacy-loop-adapter.ts] and [interrupts]; the agent loop is a script of
      attempts, events and aborts, the consumer may close after any event.
    - [Harness]: [runtime/agent-harness.ts], [run-registry.ts] and the
      serialization of runs: answers, restorations, resumption.
    - [Regex], [PathPattern]: a subset of JavaScript's regular expressions with
      their matcher, and the globs [agent/permission-config.ts] compiles to them.
    - [ToolTypes], [Permission], [ToolPolicy], [ToolBatch]: the data of tools;
      the permission gate ([agent/permission.ts], [permission-config.ts],
      [sandbox/forbidden-patterns.ts]); the chain of policy gates
      ([agent/tool-risk.ts], [agent/tool-execution/policy.ts],
      [harness/capabilities/policy]); a round of calls ([batch-executor.ts]).
      Regular expressions outside the subset go through the class [HostRegExp].
      [PolicySpec] says what the policy demands without using its gates.
    - [Evidence], [ModeContract]: [agent/evidence-ledger.ts] and
      [agent/mode-contract.ts].
    - [Hooks]: [hooks/index.ts] and the helpers of [agent/round/pre-loop.ts].
    - [Effects]: the monad of routines that change a state and may throw, with
      the preorders such routines keep.
    - [Capability]: [harness/capabilities]: descriptors, registry, the projection
      of tools, and [executeCapability] as one such routine over the ledger of
      [RunBudget] and the authority of [Retry], through [ToolPolicy] and [Hooks].
    - [Progress]: [agent/state-machine.ts] and, of [agent/kernel], fingerprints,
      commitments, phases, the progress governor and the loop supervisor.
    - [FileState]: [file-state]: the ledger of reads and writes, the freshness
      gate, a run's generations and unmanaged writes, and the approval a tool
      contract collects before its handler runs.
    - [PatchTx]: [agent/patch-transaction.ts] over [Transaction], as an [Effects]
      routine of system calls; between any two of them other processes may do
      anything ([others]).
    - [FileTools]: the writing tools of [tools/file.ts] and
      [tools/path-authority.ts] over [PatchTx] and [FileState].
    - [ApplyPatch]: [tools/apply-patch.ts]: unified diffs, one or a set.
    - [Tracker], [Obligations], [Orchestrator]: of [agent], task packets and the
      tracker of a task; what a run still owes ([ripple/obligations.ts],
      [context/context-debt.ts]); and the decision whether it is done
      ([completion-orchestrator.ts] and the gates it runs).
    - [MasterPlan], [PlanRun]: [agent/master-plan.ts] with its validator, and a
      run's work on its plan: activation, transitions, the task tool, saving and
      restoring.
    - [ContextPipeline]: of [harness/context], duplicates, the coverage gate and
      the budget of a model call's context.
    - [Transcript]: the conversation of a run: its tool chains, its compaction,
      its epochs.
    - [Seccomp], [Environment], [CellPolicy], [CellRequest], [Backends]: of
      [runtime/linux], system call filters and the machine that runs them; the
      environment of a process; cells and the policy they are compiled under;
      from a request to a cell; the choice of a backend and its command line.

    ** What the theorems show

    - A run: the scheduler terminates with enough fuel ([scheduler_terminates]),
      never launches a node before its dependencies are decided
      ([scheduler_launch_safe]), runs as an abstract scheduler does
      ([mainLoop_refines_spec]), and a run reported as done has executed every
      node and met its gates ([runScheduler_done_complete],
      [completeRun_done_sound], [completeRun_node_failures],
      [evaluateCriterion_never_autopasses]).
    - Specs: cycle detection and validation decide what they claim
      ([detectCycle_decides], [validateSpec_ok_iff]); a schema without
      integers accepts exactly the values JSON Schema calls valid
      ([validateJsonSchema_conforms], [validateRole_accepts]).  What is compiled
      is in normal form and valid ([normal_form], [compiled_readers_valid]), and
      the gate hands out a graph only with its writes verified and approved
      ([gate_hands_out]).
    - Results: checkpoints round trip and survive write faults
      ([checkpoint_roundtrip], [persist_atomic]), stale ones are ignored
      ([restore_fresh_only]), the cache replays successes only
      ([cache_replays_done_only]).
    - Writers: nothing unowned is written ([enforcement_no_unowned_write],
      [pool_ownership_disjoint]), writers exclude one another
      ([write_lock_exclusive], [write_lock_handoff]), merging never overwrites
      silently ([integration_plan_sound]) and is all or nothing
      ([integration_atomic], [rollback_restores]), as far as the file system
      lets a rollback write.
    - Interrupts: one resumption at most, and exactly when it is valid
      ([resume_at_most_once], [open_then_resume], [resume_token_roundtrip],
      [spec_digest_iff], and for agent runs [interrupt_answered_once]).
    - Agent runs: whatever the loop and the consumer do, a run settles in a
      stopped status with a fitting outcome over a legal path of events
      ([controlled_run_settles]).
    - Tool calls: a capability's handler is called only through every gate and
      is charged exactly ([capability_calls_governed],
      [capability_settles_budget]); nothing dangerous runs unasked
      ([policy_no_unconfirmed_danger], [policy_allows_iff], [gate_allows_iff],
      [path_pattern_decides]), a node writes inside its run
      ([node_writes_confined]), a round keeps its caps ([round_respects_caps]).
    - Files: a file tool changes all of a file or nothing of it, also when other
      processes interfere in the middle ([patch_all_or_nothing]), and only over
      what was approved ([installed_over_approved]); what was approved is what
      the run last read or wrote whole ([edit_allowed_iff],
      [approval_rests_on_baselines]); an accepted edit is the one replacement it
      says ([edit_replaces_one]); a hunk applies exactly where its lines are, and
      a set of patches to files of their own is all or nothing
      ([hunk_applies_exactly], [transaction_all_or_nothing]); no change leaves old evidence standing
      ([change_outdates_evidence], [covered_iff_verified]).
    - Claims: done is claimed on fresh evidence only, also after a checkpoint
      ([claim_needs_fresh_evidence], [evidence_checkpoint_keeps_verdict]); a task
      is done exactly when its gates, its debts and its verdict say so
      ([done_iff], [context_debts_paid_iff]); a tracker tells what was done
      ([tracker_tracks_exactly]).
    - Plans: the validator decides what it claims ([plan_validator_exact]), no
      done work is undone ([plan_steps_safe]), a plan of text is carried out
      ([plan_runs_to_completion]), saving and restoring keep it
      ([restore_keeps_work]).
    - Context: critical facts survive the budget, which is kept as far as it can
      be ([critical_facts_survive], [context_budget_respected]); the conversation
      stays one a provider accepts, over compactions and rollovers
      ([conversation_answered], [rollover_keeps_chains]).
    - Liveness: a run is stopped exactly when it makes no progress, and reading
      does not keep it alive ([supervisor_stalls_exactly],
      [reading_run_stalls]).
    - Bounded effort: budgets, retries and the repair loop
      ([agent_budget_capped], [retry_budget_bounds], [authorize_provider_exact],
      [repair_loop_converges]); a run's model calls, tool calls and tokens are
      metered exactly ([run_metering], [token_verdict_exact]) and bounded along
      every line of saves and restorations, and in total by the number of
      restorations ([budget_over_a_life]).
    - Host resources: no overcommit and no early release
      ([ledger_never_overcommits], [authority_no_overcommit],
      [authority_unique_active], [claim_freed_only_on_proof],
      [reserve_retry_same_claim]), fair queueing ([fair_queue_fifo],
      [fairness_limits]), backpressure with hysteresis
      ([psi_critical_hysteresis], [psi_gradual_recovery],
      [calibrated_thresholds_sound]).
    - Sandboxes: a filter decides what its profile says
      ([seccomp_filter_decides]); a compiled cell stays within its profile, what
      is asked for within its workspace ([compiled_cell_within_profile],
      [request_confined]); a command line binds nothing else
      ([sandbox_binds_confined]) and runs isolated unless audited execution was
      allowed ([execution_isolated]).
    - Execd: under crashes between any two commits, the log of every cell agrees
      with its state ([cell_log_consistent]), a terminal state is final
      ([terminal_final]), a submission takes effect once ([submit_once]), and
      recovery leaves no cell undecided ([recovery_settles]).  The wire format
      round trips however the bytes are cut ([frame_stream_roundtrip]); a
      watcher sees every event in order ([watch_in_order]); a slow subscriber is
      told what it lost ([event_stream_no_silent_loss]); nothing is done for an
      unauthorized peer ([unauthorized_refused]); logs read back what was
      written ([log_attach_roundtrip]); only expired leases are swept
      ([lease_sweep_exact]).

    Behaviours the model exposes that the code does not intend are lemmas at the
    end of the file of their component, under the heading "Behaviour worth
    knowing" or next to the definition; for instance
    [replay_launches_unsatisfied] in [RunScheduler],
    [resurrected_claim_overcommits] in [Capacity], [refused_rollback_escapes] in
    [Merge], [rejected_submission_unlogged] in [Execd],
    [restorations_exceed_limit] in [Harness], [safe_mode_lifts_denials] in
    [ToolPolicy], [failed_commit_loses_result] in [Capability],
    [thrown_verification_reverts_others] in [PatchTx], [later_hunk_displaced] in
    [ApplyPatch], [open_debt_ignored] in [Orchestrator], [restored_ids_shift] in
    [PlanRun], [dedupe_loses_contribution] in [ContextPipeline],
    [short_rollover_orphans_result] in [Transcript], [shorter_period_widens] in
    [CellPolicy], [x32_alias_passes] in [Seccomp].

    ** Fuel

    Depth-first search gets one unit more than there are nodes ([searchFuel]):
    its stack never holds a node twice.  The loop that fills the slots gets as
    much ([fillFuel]), since a node is popped at most once, and so does the main
    loop ([loopFuel]), since every turn finishes a node; the theorems above show
    the fuel is never exhausted.  The repair loop's fuel is its own bound,
    [maxAttempts]; the frame parser's is the length of its buffer, as every turn
    takes a header off it.  A path pattern is unwrapped of its exclusion marks
    with its length as fuel, and a starred expression is matched with the
    remaining text's length, since a turn that takes no unit stops.  The retries
    of a capability count down from one; the search for an existing ancestor of
    a path has the 256 steps the code gives it.  The machine that runs a filter
    takes one turn per instruction and one more, since jumps go forward only;
    Kahn's algorithm one per node and one more, since a node enters its queue
    once; the search for cycles in a plan a depth of the number of nodes and one
    more.  Everything else is structural.

    ** What is not modelled

    Node executors, providers, tools, terminal interfaces and language servers
    act on the outside; they appear as parameters that may return anything.  In
    the scheduler, reserving host resources around a launch, waiting for the
    write lock and the merge node's integration are not steps of the loop: the
    lock and the integration have models of their own ([WriteLock], [Merge]),
    and a run takes the integration's outcome as a parameter.  SQLite migration,
    sockets, peer credentials and reading [/proc] are left out of the Linux
    scheduler and of execd, whose broker is the environment; so are the
    supervision of a process by the broker and the Linux service, which drive
    the operating system.  Of a harness run, the evidence and artifacts of its
    scope are not represented.  What a tool does when it runs, the texts shown to
    users and models, the prompt of the judge, re-planning by a model, and how a
    commitment is read out of a text are parameters or left out.  Of the file
    tools, reading and the model-driven edit are left out; the ripple engine, the
    workspace authority, the bounded reader and the TypeScript compiler are
    parameters.  Every write and removal of a snapshot transaction may fail, or
    be torn, by an outcome given for it ([IoFaults] of [Transaction]); the patch
    tools of [ApplyPatch] are modelled without such faults.  The context map, the
    memory, the compactor that asks a model, and the skills are not
    modelled. *)
From stdpp Require Export base tactics option list gmap sets strings sorting.
From Stdlib Require Export ZArith Lia.
From Stdlib Require Import Sorting.Sorted Sorting.Permutation.

#[export] Set Warnings "-clear-no-such-hyp,-register-all".

Declare Scope orcana_scope.
Delimit Scope orcana_scope with orcana.
Open Scope orcana_scope.

(** ** Thrown errors

    A method that may [throw] returns a [res]; the monad sequences statements
    and propagates the first throw. *)
Inductive res (E A : Type) : Type :=
| Ok (a : A)
| Throw (e : E).
Arguments Ok {E A} a.
Arguments Throw {E A} e.

#[export] Instance res_ret {E} : MRet (res E) := fun A a => Ok a.
#[export] Instance res_bind {E} : MBind (res E) :=
  fun A B f m => match m with Ok a => f a | Throw e => Throw e end.
#[export] Instance res_fmap {E} : FMap (res E) :=
  fun A B f m => match m with Ok a => Ok (f a) | Throw e => Throw e end.

Lemma res_bind_Ok {E A B} (m : res E A) (f : A -> res E B) b :
  (m ≫= f) = Ok b <-> exists a, m = Ok a /\ f a = Ok b.
Proof. destruct m; naive_solver. Qed.

#[export] Instance res_eq_dec {E A} `{EqDecision E, EqDecision A} :
  EqDecision (res E A).
Proof. solve_decision. Defined.

Lemma imp_iff (P Q R : Prop) : (P -> (Q <-> R)) -> (P -> Q) <-> (P -> R).
Proof. tauto. Qed.

(** ** Equality tests of the source ([===] on strings, ids, enums) *)
Definition same {A} `{EqDecision A} (x y : A) : bool := bool_decide (x = y).
Notation "x === y" := (same x y) (at level 70, no associativity) : orcana_scope.

Lemma same_eq {A} `{EqDecision A} (x y : A) : (x === y) = true <-> x = y.
Proof. unfold same. by rewrite bool_decide_eq_true. Qed.
Lemma same_neq {A} `{EqDecision A} (x y : A) : (x === y) = false <-> x <> y.
Proof. unfold same. by rewrite bool_decide_eq_false. Qed.
Lemma same_true {A} `{EqDecision A} (x y : A) : (x === y) = true -> x = y.
Proof. apply same_eq. Qed.
Lemma same_false {A} `{EqDecision A} (x y : A) : (x === y) = false -> x <> y.
Proof. apply same_neq. Qed.
Lemma same_refl {A} `{EqDecision A} (x : A) : (x === x) = true.
Proof. by apply same_eq. Qed.

(** ** Tactics shared by the development *)

(** Split every [match] of the goal or of the named hypothesis, keeping
    equations, and clean up. *)
Ltac cases :=
  repeat (case_match; simplify_eq/=); try done.
Ltac cases_in H :=
  repeat (let E := fresh "E" in
          match type of H with context [match ?x with _ => _ end] =>
            destruct x eqn:E; simplify_eq/= end); try done.

(** Turn boolean tests of the code into the propositions they decide. *)
Ltac reflect :=
  repeat match goal with
  | H : (_ && _)%bool = true |- _ => apply andb_true_iff in H as [? ?]
  | H : (_ && _)%bool = false |- _ => apply andb_false_iff in H
  | H : (_ || _)%bool = false |- _ => apply orb_false_iff in H as [? ?]
  | H : (_ || _)%bool = true |- _ => apply orb_true_iff in H
  | H : negb _ = true |- _ => apply negb_true_iff in H
  | H : negb _ = false |- _ => apply negb_false_iff in H
  | H : (_ <? _)%Z = true |- _ => apply Z.ltb_lt in H
  | H : (_ <? _)%Z = false |- _ => apply Z.ltb_ge in H
  | H : (_ <=? _)%Z = true |- _ => apply Z.leb_le in H
  | H : (_ <=? _)%Z = false |- _ => apply Z.leb_gt in H
  | H : (_ =? _)%Z = true |- _ => apply Z.eqb_eq in H
  | H : (_ =? _)%Z = false |- _ => apply Z.eqb_neq in H
  | H : (_ <? _)%nat = true |- _ => apply Nat.ltb_lt in H
  | H : (_ <? _)%nat = false |- _ => apply Nat.ltb_ge in H
  | H : (_ <=? _)%nat = true |- _ => apply Nat.leb_le in H
  | H : (_ <=? _)%nat = false |- _ => apply Nat.leb_gt in H
  | H : (_ =? _)%nat = true |- _ => apply Nat.eqb_eq in H
  | H : (_ =? _)%nat = false |- _ => apply Nat.eqb_neq in H
  | H : (_ === _) = true |- _ => apply same_true in H
  | H : (_ === _) = false |- _ => apply same_false in H
  | H : bool_decide _ = true |- _ => apply bool_decide_eq_true in H
  | H : bool_decide _ = false |- _ => apply bool_decide_eq_false in H
  end.

(** [xs.includes(x)], [set.has(x)] on a list-backed set. *)
Definition includes {A} `{EqDecision A} (xs : list A) (x : A) : bool :=
  existsb (fun y => same y x) xs.

Lemma includes_true {A} `{EqDecision A} (xs : list A) x :
  includes xs x = true <-> x ∈ xs.
Proof.
  unfold includes. rewrite existsb_exists. setoid_rewrite same_eq.
  setoid_rewrite <- list_elem_of_In. naive_solver.
Qed.
Lemma includes_false {A} `{EqDecision A} (xs : list A) x :
  includes xs x = false <-> x ∉ xs.
Proof. rewrite <- includes_true. by destruct (includes xs x). Qed.

(** Adding to an insertion-ordered [Set]. *)
Definition set_add {A} `{EqDecision A} (x : A) (xs : list A) : list A :=
  if includes xs x then xs else xs ++ [x].

Lemma elem_of_set_add {A} `{EqDecision A} (x y : A) xs :
  y ∈ set_add x xs <-> y = x \/ y ∈ xs.
Proof.
  unfold set_add. destruct (includes xs x) eqn:E; reflect.
  - apply includes_true in E. naive_solver.
  - set_solver.
Qed.
Lemma NoDup_set_add {A} `{EqDecision A} (x : A) xs :
  NoDup xs -> NoDup (set_add x xs).
Proof.
  unfold set_add. destruct (includes xs x) eqn:E; [done|].
  apply includes_false in E. intros Hnd. apply NoDup_app.
  split_and!; [done| |apply NoDup_singleton]. intros y Hy ->%list_elem_of_singleton. done.
Qed.

(** [new Set(xs)] read back in insertion order ([[...new Set(xs)]]). *)
Definition uniq {A} `{EqDecision A} (xs : list A) : list A :=
  fold_left (fun acc x => set_add x acc) xs [].

Lemma uniq_acc {A} `{EqDecision A} (xs acc : list A) :
  NoDup acc ->
  NoDup (fold_left (fun acc x => set_add x acc) xs acc) /\
  forall y, y ∈ fold_left (fun acc x => set_add x acc) xs acc <-> y ∈ acc \/ y ∈ xs.
Proof.
  revert acc. induction xs as [|x xs IH]; intros acc Hnd; simpl; [set_solver|].
  destruct (IH (set_add x acc)) as [? Hin]; [by apply NoDup_set_add|].
  split; [done|]. intros y. rewrite Hin, elem_of_set_add. set_solver.
Qed.
Lemma NoDup_uniq {A} `{EqDecision A} (xs : list A) : NoDup (uniq xs).
Proof. apply uniq_acc. constructor. Qed.
Lemma elem_of_uniq {A} `{EqDecision A} (xs : list A) y : y ∈ uniq xs <-> y ∈ xs.
Proof. unfold uniq. rewrite (proj2 (uniq_acc xs [] (NoDup_nil_2))). set_solver. Qed.

(** The loop that skips what a [seen] set already holds. *)
Fixpoint dedup_from {A} `{EqDecision A} (seen xs : list A) : list A :=
  match xs with
  | [] => []
  | x :: xs => if includes seen x then dedup_from seen xs
               else x :: dedup_from (seen ++ [x]) xs
  end.

Lemma elem_of_dedup_from {A} `{EqDecision A} (seen xs : list A) y :
  y ∈ dedup_from seen xs <-> y ∈ xs /\ y ∉ seen.
Proof.
  revert seen. induction xs as [|x xs IH]; intros seen; simpl; [set_solver|].
  destruct (includes seen x) eqn:E; rewrite ?elem_of_cons, IH, ?not_elem_of_app.
  - apply includes_true in E. set_solver.
  - apply includes_false in E. destruct (decide (y = x)); set_solver.
Qed.
Lemma NoDup_dedup_from {A} `{EqDecision A} (seen xs : list A) : NoDup (dedup_from seen xs).
Proof.
  revert seen. induction xs as [|x xs IH]; intros seen; simpl; [constructor|].
  case_match; [done|]. constructor; [|done]. rewrite elem_of_dedup_from. set_solver.
Qed.

Lemma filter_none {A} (P : A -> Prop) `{!forall x, Decision (P x)} l : Forall (fun x => ~ P x) l -> filter P l = [].
Proof. induction 1 as [|x l Hx _ IH]; [done|]. by rewrite filter_cons_False. Qed.
Lemma filter_all {A} (P : A -> Prop) `{!forall x, Decision (P x)} (l : list A) :
  (forall x, x ∈ l -> P x) -> filter P l = l.
Proof.
  induction l as [|x l IH]; intros HP; [done|].
  rewrite filter_cons_True by (apply HP; left). by rewrite IH by set_solver.
Qed.

Lemma filter_nil_iff {A} (P : A -> Prop) `{!forall x, Decision (P x)} l :
  filter P l = [] <-> forall x, x ∈ l -> ~ P x.
Proof.
  split.
  - intros E x Hx HP. assert (Hin : x ∈ filter P l) by (by apply list_elem_of_filter). rewrite E in Hin.
    by apply not_elem_of_nil in Hin.
  - intros Hn. apply filter_none. by apply Forall_forall.
Qed.
Lemma forallb_elem {A} (p : A -> bool) l x : forallb p l = true -> x ∈ l -> p x = true.
Proof. rewrite forallb_forall. intros H Hx. by apply H, list_elem_of_In. Qed.
Lemma sublist_filter_mono {A} (P : A -> Prop) `{!forall x, Decision (P x)} l l' :
  sublist l l' -> sublist (filter P l) (filter P l').
Proof.
  induction 1 as [|x l l' _ IH|x l l' _ IH]; rewrite ?filter_cons; [done| |]; case_decide; try done.
  - by apply sublist_skip.
  - by apply sublist_cons.
Qed.
Lemma StronglySorted_sublist {A} (R : relation A) l l' :
  sublist l l' -> StronglySorted R l' -> StronglySorted R l.
Proof.
  induction 1 as [|x l l' Hsub IH|x l l' Hsub IH]; intros Hs; [done| |];
    apply StronglySorted_inv in Hs as [Hs Hall]; auto.
  constructor; [auto|]. rewrite Forall_forall in *. intros y Hy. by eapply Hall, elem_of_sublist.
Qed.

Lemma StronglySorted_weaken {A} (R R' : relation A) l :
  (forall x y, R x y -> R' x y) -> StronglySorted R l -> StronglySorted R' l.
Proof. intros H. induction 1 as [|x l _ IH Hx]; constructor; [done|]. eapply Forall_impl; [exact Hx|]. by intros; apply H. Qed.

(** Counting the elements that pass a test. *)
Definition count_where {A} (p : A -> bool) (l : list A) : nat := length (filter (fun x => p x = true) l).
Lemma count_where_cons {A} (p : A -> bool) x l :
  count_where p (x :: l) = (if p x then 1 else 0) + count_where p l.
Proof. unfold count_where. rewrite filter_cons. by destruct (p x). Qed.
Lemma count_where_app {A} (p : A -> bool) l l' : count_where p (l ++ l') = count_where p l + count_where p l'.
Proof. unfold count_where. by rewrite filter_app, length_app. Qed.
Lemma count_where_le {A} (p q : A -> bool) l : (forall x, p x = true -> q x = true) -> count_where p l <= count_where q l.
Proof.
  intros H. induction l as [|x l IH]; [done|]. rewrite !count_where_cons.
  specialize (H x). destruct (p x), (q x); try (specialize (H eq_refl); done); lia.
Qed.
Lemma count_where_ext {A} (p q : A -> bool) l : (forall x, p x = q x) -> count_where p l = count_where q l.
Proof. intros H. induction l as [|x l IH]; [done|]. by rewrite !count_where_cons, H, IH. Qed.
Lemma sum_cons n l : sum_list (n :: l) = n + sum_list l.
Proof. done. Qed.
(** Counting by key: the elements whose key is in a duplicate-free list are
    counted once each. *)
Lemma count_where_by_key {A K} `{EqDecision K} (key : A -> K) (p : A -> bool) l keys :
  NoDup keys -> (forall x, x ∈ l -> key x ∈ keys) ->
  count_where p l = sum_list ((fun k => count_where (fun x => (key x === k) && p x) l) <$> keys).
Proof.
  intros Hnd. induction l as [|x l IH]; intros Hk.
  { change (count_where p []) with 0. symmetry. clear. induction keys as [|k keys IH]; [done|exact IH]. }
  rewrite count_where_cons, IH by set_solver.
  assert (key x ∈ keys) as Hx by set_solver. clear IH Hk. revert Hnd Hx.
  assert (forall ks, key x ∉ ks ->
    sum_list ((fun k => count_where (fun y => (key y === k) && p y) (x :: l)) <$> ks) =
    sum_list ((fun k => count_where (fun y => (key y === k) && p y) l) <$> ks)) as Hout.
  { induction ks as [|k ks IHk]; intros Hn; [done|]. rewrite !fmap_cons, !sum_cons.
    rewrite (IHk ltac:(set_solver)).
    rewrite count_where_cons, (proj2 (same_neq (key x) k)) by set_solver. done. }
  induction keys as [|k keys IHk]; intros Hnd Hx; [set_solver|].
  apply NoDup_cons in Hnd as [Hk Hnd]. rewrite !fmap_cons, !sum_cons.
  rewrite count_where_cons. destruct (decide (key x = k)) as [<-|Hne].
  - rewrite same_refl, Hout by done. cbn [andb]. destruct (p x); lia.
  - rewrite (proj2 (same_neq _ _) Hne), <- IHk by set_solver. cbn [andb]. lia.
Qed.

(** [x ?? d]. *)
Definition nullish {A} (o : option A) (d : A) : A := default d o.

(** ** [Map]: an insertion-ordered dictionary

    [set] on a present key keeps its position; iteration follows insertion
    order.  Where the code only looks keys up, a [gmap] is used instead. *)
Section JMap.
Context {K V : Type} `{EqDecision K}.

Fixpoint jget (k : K) (m : list (K * V)) : option V :=
  match m with
  | [] => None
  | (k', v) :: m => if k' === k then Some v else jget k m
  end.
Fixpoint jset (k : K) (v : V) (m : list (K * V)) : list (K * V) :=
  match m with
  | [] => [(k, v)]
  | (k', v') :: m => if k' === k then (k', v) :: m else (k', v') :: jset k v m
  end.
Fixpoint jdelete (k : K) (m : list (K * V)) : list (K * V) :=
  match m with
  | [] => []
  | (k', v') :: m => if k' === k then m else (k', v') :: jdelete k m
  end.
Definition jhas (k : K) (m : list (K * V)) : bool :=
  match jget k m with Some _ => true | None => false end.
Definition jkeys (m : list (K * V)) : list K := m.*1.
Definition jvalues (m : list (K * V)) : list V := m.*2.

(** Same lookups: coarser than equality, which also compares the order. *)
Definition jequiv (m1 m2 : list (K * V)) : Prop := forall k, jget k m1 = jget k m2.

#[export] Instance jequiv_equivalence : Equivalence jequiv.
Proof.
  unfold jequiv. split; [done| |]; repeat intro; [done|etrans; eauto].
Qed.

Lemma jget_jset_eq k v m : jget k (jset k v m) = Some v.
Proof.
  induction m as [|[k' v'] m IH]; simpl; [by rewrite same_refl|].
  destruct (k' === k) eqn:E; simpl; rewrite E; done.
Qed.
Lemma jget_jset_ne k k' v m : k <> k' -> jget k' (jset k v m) = jget k' m.
Proof.
  intros Hne. induction m as [|[k0 v0] m IH]; simpl.
  - by rewrite (proj2 (same_neq _ _) Hne).
  - destruct (k0 === k) eqn:E; simpl; [|by rewrite IH].
    apply same_true in E as ->. by rewrite (proj2 (same_neq _ _) Hne).
Qed.
Lemma jget_jset k k' v m :
  jget k' (jset k v m) = if decide (k = k') then Some v else jget k' m.
Proof. case_decide; [subst; apply jget_jset_eq|by apply jget_jset_ne]. Qed.
Lemma jget_elem k v m : jget k m = Some v -> (k, v) ∈ m.
Proof.
  induction m as [|[k' v'] m IH]; simpl; [done|].
  destruct (k' === k) eqn:E; intros; simplify_eq.
  - apply same_true in E as ->. left.
  - right. auto.
Qed.
Lemma jkeys_elem k v m : jget k m = Some v -> k ∈ jkeys m.
Proof. intros H%jget_elem. apply list_elem_of_fmap. by exists (k, v). Qed.
Lemma jget_None k m : jget k m = None <-> k ∉ jkeys m.
Proof.
  unfold jkeys. induction m as [|[k' v'] m IH]; simpl; [set_solver|].
  rewrite not_elem_of_cons. destruct (k' === k) eqn:E.
  - apply same_true in E as ->. naive_solver.
  - apply same_false in E. naive_solver.
Qed.
Lemma jhas_true k m : jhas k m = true <-> k ∈ jkeys m.
Proof.
  unfold jhas. destruct (jget k m) eqn:E.
  - split; [intros _|done]. destruct (decide (k ∈ jkeys m)) as [|Hn]; [done|].
    apply jget_None in Hn. congruence.
  - apply jget_None in E. done.
Qed.
Lemma jget_NoDup k v m : NoDup (jkeys m) -> jget k m = Some v <-> (k, v) ∈ m.
Proof.
  intros Hnd. split; [apply jget_elem|].
  induction m as [|[k' v'] m IH]; simpl; [set_solver|].
  apply NoDup_cons in Hnd as [Hk Hnd]. rewrite elem_of_cons.
  intros [[= -> ->]|Hin]; [by rewrite same_refl|].
  destruct (k' === k) eqn:E; [|auto].
  apply same_true in E as ->. destruct Hk. apply list_elem_of_fmap. by exists (k, v).
Qed.
Lemma jkeys_jset k v m :
  jkeys (jset k v m) = if decide (k ∈ jkeys m) then jkeys m else jkeys m ++ [k].
Proof.
  induction m as [|[k' v'] m IH]; [done|]. simpl.
  destruct (k' === k) eqn:E; simpl.
  - apply same_true in E as ->. rewrite decide_True by left. done.
  - apply same_false in E. unfold jkeys in *. rewrite IH. simpl.
    repeat case_decide; set_solver.
Qed.
Lemma NoDup_jset k v m : NoDup (jkeys m) -> NoDup (jkeys (jset k v m)).
Proof.
  intros. rewrite jkeys_jset. case_decide; [done|].
  apply NoDup_app. split_and!; [done| |apply NoDup_singleton].
  intros y ? ->%list_elem_of_singleton. done.
Qed.
Lemma elem_of_jkeys_jset k k' v m : k' ∈ jkeys (jset k v m) <-> k' = k \/ k' ∈ jkeys m.
Proof. rewrite jkeys_jset. case_decide; set_solver. Qed.
Lemma elem_of_jset k v x m : x ∈ jset k v m -> x = (k, v) \/ x ∈ m.
Proof.
  induction m as [|[k' v'] m IH]; simpl; [set_solver|].
  destruct (k' === k) eqn:E; simpl; [apply same_true in E as ->|]; set_solver.
Qed.
Lemma elem_of_jdelete k x m : x ∈ jdelete k m -> x ∈ m.
Proof. induction m as [|[k' v'] m IH]; simpl; [done|]. case_match; set_solver. Qed.
Lemma jkeys_jdelete k m : NoDup (jkeys m) ->
  NoDup (jkeys (jdelete k m)) /\
  (forall k', k' ∈ jkeys (jdelete k m) <-> k' ∈ jkeys m /\ k' <> k).
Proof.
  unfold jkeys. induction m as [|[k' v'] m IH]; simpl; intros Hnd.
  { split; [constructor|set_solver]. }
  apply NoDup_cons in Hnd as [Hk Hnd]. destruct (IH Hnd) as [IH1 IH2].
  destruct (k' === k) eqn:E; simpl.
  - apply same_true in E as ->. split; [done|]. set_solver.
  - apply same_false in E. split.
    + constructor; [|done]. rewrite IH2. set_solver.
    + intros k0. rewrite !elem_of_cons, IH2. naive_solver.
Qed.
Lemma length_jdelete k m : length (jdelete k m) <= length m.
Proof. induction m as [|[k' v'] m IH]; simpl; [done|]. case_match; simpl; lia. Qed.
Lemma jset_fresh k v m : k ∉ jkeys m -> jset k v m = m ++ [(k, v)].
Proof.
  induction m as [|[k' v'] m IH]; simpl; [done|]. intros Hk.
  destruct (k' === k) eqn:E; reflect; [set_solver|]. rewrite IH; [done|set_solver].
Qed.
Lemma jset_jset k v w m : jset k v (jset k w m) = jset k v m.
Proof.
  induction m as [|[k' v'] m IH]; simpl; [by rewrite same_refl|].
  destruct (k' === k) eqn:E; simpl; rewrite E; [done|by rewrite IH].
Qed.
(** Updating a present key changes its entry in place. *)
Lemma jset_split k v m : jget k m = Some v ->
  exists l1 l2, m = l1 ++ (k, v) :: l2 /\ forall v', jset k v' m = l1 ++ (k, v') :: l2.
Proof.
  induction m as [|[k' v'] m IH]; simpl; [done|]. destruct (k' === k) eqn:E.
  - apply same_true in E as ->. intros [= ->]. by exists [], m.
  - intros (l1 & l2 & -> & H)%IH. exists ((k', v') :: l1), l2. split; [done|].
    intros v0. simpl. by rewrite H.
Qed.
Lemma jget_jdelete_eq k m : NoDup (jkeys m) -> jget k (jdelete k m) = None.
Proof. intros. apply jget_None. rewrite (proj2 (jkeys_jdelete k m H)). naive_solver. Qed.
Lemma jget_jdelete_ne k k' m : k <> k' -> jget k' (jdelete k m) = jget k' m.
Proof.
  intros Hne. induction m as [|[k0 v0] m IH]; simpl; [done|].
  destruct (k0 === k) eqn:E; simpl; [|by rewrite IH].
  apply same_true in E as ->. by rewrite (proj2 (same_neq _ _) Hne).
Qed.
End JMap.

#[export] Instance jget_proper {K V} `{EqDecision K} :
  Proper (eq ==> jequiv ==> eq) (@jget K V _).
Proof. intros k ? <- m1 m2 Hm. apply Hm. Qed.
#[export] Instance jhas_proper {K V} `{EqDecision K} :
  Proper (eq ==> jequiv ==> eq) (@jhas K V _).
Proof. intros k ? <- m1 m2 Hm. unfold jhas. by rewrite Hm. Qed.
#[export] Instance jset_proper {K V} `{EqDecision K} :
  Proper (eq ==> eq ==> jequiv ==> jequiv) (@jset K V _).
Proof. intros k ? <- v ? <- m1 m2 Hm k'. rewrite !jget_jset. by rewrite Hm. Qed.

(** ** [Array.prototype.sort]

    The sort is stable; [before x y] is "[cmp(x, y) < 0]".  Inserting from
    the left after every element that is not behind the new one is the stable
    result (V8's binary insertion makes the same comparisons' decisions). *)
Section Sort.
Context {A : Type} (before : A -> A -> bool).

Fixpoint sort_insert (x : A) (l : list A) : list A :=
  match l with
  | [] => [x]
  | y :: l => if before x y then x :: y :: l else y :: sort_insert x l
  end.
Definition jsort (l : list A) : list A := fold_left (fun acc x => sort_insert x acc) l [].

Lemma sort_insert_perm x l : sort_insert x l ≡ₚ x :: l.
Proof.
  induction l as [|y l IH]; simpl; [done|]. case_match; [done|].
  rewrite IH. apply Permutation_swap.
Qed.
Lemma jsort_perm_acc l acc : fold_left (fun acc x => sort_insert x acc) l acc ≡ₚ acc ++ l.
Proof.
  revert acc. induction l as [|x l IH]; intros acc; simpl; [by rewrite app_nil_r|].
  rewrite IH, sort_insert_perm. simpl. by rewrite Permutation_middle.
Qed.
Lemma jsort_perm l : jsort l ≡ₚ l.
Proof. unfold jsort. by rewrite jsort_perm_acc. Qed.
Lemma jsort_snoc l x : jsort (l ++ [x]) = sort_insert x (jsort l).
Proof. unfold jsort. by rewrite fold_left_app. Qed.
(** An element that goes before none of a list is placed at its end. *)
Lemma sort_insert_last x l : Forall (fun y => before x y = false) l -> sort_insert x l = l ++ [x].
Proof. induction 1 as [|y l Hy _ IH]; simpl; [done|]. by rewrite Hy, IH. Qed.
(** Sorting a sorted list changes nothing. *)
Lemma jsort_sorted_id l : StronglySorted (fun x y => before y x = false) l -> jsort l = l.
Proof.
  intros Hs. assert (forall l', StronglySorted (fun x y => before y x = false) (l' ++ l) ->
    fold_left (fun acc x => sort_insert x acc) l l' = l' ++ l) as H; [|by apply (H [])].
  clear Hs. induction l as [|x l IH]; intros l' Hs; simpl; [by rewrite app_nil_r|].
  rewrite sort_insert_last.
  - rewrite IH; [by rewrite <- app_assoc|]. by rewrite <- app_assoc.
  - clear IH. induction l' as [|y l' IH]; simpl in *; [constructor|].
    apply StronglySorted_inv in Hs as [Hs Hall]. constructor; [|by apply IH].
    rewrite Forall_forall in Hall. apply Hall. apply elem_of_app. right. left.
Qed.

(** Sortedness, for a total preorder [le] whose strict part is [before]. *)
Context (le : relation A) (Hle : forall x y, before x y = false -> le y x)
  (Hlt : forall x y, before x y = true -> le x y) `{!Transitive le}.

Lemma sort_insert_sorted x l : StronglySorted le l -> StronglySorted le (sort_insert x l).
Proof.
  induction 1 as [|y l Hs IH Hall]; simpl; [repeat constructor|].
  destruct (before x y) eqn:E.
  - constructor; [by constructor|]. constructor; [by apply Hlt|].
    eapply Forall_impl; [exact Hall|]. intros z ?. etrans; [by apply Hlt|done].
  - constructor; [done|]. apply Forall_forall. intros z Hz.
    rewrite (sort_insert_perm x l) in Hz. apply elem_of_cons in Hz as [->|Hz]; [by apply Hle|].
    by eapply Forall_forall in Hz.
Qed.
Lemma jsort_sorted l : StronglySorted le (jsort l).
Proof.
  unfold jsort. assert (StronglySorted le []) as H by constructor. revert H.
  generalize (@nil A). induction l as [|x l IH]; simpl; intros acc ?; [done|].
  apply IH. by apply sort_insert_sorted.
Qed.
End Sort.

(** Sorting by a string key, the way the code compares ids
    ([a.id < b.id ? -1 : 1]) and [Object.keys(r).sort()] compares keys. *)
Section SortByKey.
Context {A : Type} (key : A -> string).

Definition key_before (x y : A) : bool := String.ltb (key x) (key y).
Definition key_le (x y : A) : Prop := String.le (key x) (key y).

#[export] Instance key_le_trans : Transitive key_le.
Proof. unfold key_le. intros x y z ??. by etrans. Qed.

Lemma key_before_false x y : key_before x y = false -> key_le y x.
Proof.
  unfold key_before, key_le, String.ltb, String.le, String.leb.
  rewrite String.compare_antisym. destruct (String.compare _ _); simpl; done.
Qed.
Lemma key_before_true x y : key_before x y = true -> key_le x y.
Proof.
  unfold key_before, key_le, String.ltb, String.le, String.leb.
  destruct (String.compare _ _); done.
Qed.
Lemma sort_by_key_sorted l : StronglySorted key_le (jsort key_before l).
Proof. apply jsort_sorted; auto using key_before_false, key_before_true, key_le_trans. Qed.

(** The sorted list does not depend on the order of the input, as long as the
    keys are distinct. *)
Lemma sort_by_key_perm l l' :
  NoDup (key <$> l) -> l ≡ₚ l' -> jsort key_before l = jsort key_before l'.
Proof.
  intros Hnd Hp. apply (StronglySorted_unique_strong key_le).
  - intros x y Hx Hy H1 H2. rewrite (jsort_perm key_before l) in Hx.
    rewrite (jsort_perm key_before l'), <- Hp in Hy.
    assert (key x = key y) as Hk by (by apply (anti_symm String.le)).
    apply list_elem_of_lookup in Hx as [i Hi], Hy as [j Hj].
    assert (i = j) as ->; [|congruence].
    eapply NoDup_lookup; [exact Hnd| |].
    + rewrite list_lookup_fmap, Hi. done.
    + rewrite list_lookup_fmap, Hj. by rewrite Hk.
  - apply sort_by_key_sorted.
  - apply sort_by_key_sorted.
  - by rewrite !jsort_perm.
Qed.
End SortByKey.

(** [xs.join(sep)] *)
Fixpoint js_join (sep : string) (xs : list string) : string :=
  match xs with
  | [] => ""
  | [x] => x
  | x :: xs => x +:+ sep +:+ js_join sep xs
  end.

(** ** Characters and the identifier patterns

    The anchored patterns of the source all read "an alphanumeric character,
    then at most [n] characters of a class". *)
Definition in_range (lo hi : nat) (c : Ascii.ascii) : bool :=
  (lo <=? Ascii.nat_of_ascii c) && (Ascii.nat_of_ascii c <=? hi).
Definition is_alnum (c : Ascii.ascii) : bool :=
  in_range 48 57 c || in_range 65 90 c || in_range 97 122 c.

Fixpoint all_chars (p : Ascii.ascii -> bool) (s : string) : bool :=
  match s with
  | EmptyString => true
  | String c s => p c && all_chars p s
  end.

(** [/^[A-Za-z0-9]<class>{0,n}$/.test(s)] *)
Definition matches_identifier (cls : Ascii.ascii -> bool) (n : nat) (s : string) : bool :=
  match s with
  | EmptyString => false
  | String c s => is_alnum c && all_chars cls s && (String.length s <=? n)%nat
  end.

(** [s.includes(t)] for a one-character [t], and the part of [s] before it. *)
Fixpoint has_char (c : Ascii.ascii) (s : string) : bool :=
  match s with
  | EmptyString => false
  | String d s => (d === c) || has_char c s
  end.

Lemma all_chars_has_char p c s : all_chars p s = true -> p c = false -> has_char c s = false.
Proof.
  induction s as [|d s IH]; simpl; [done|]. intros [Hd Hs]%andb_true_iff Hc.
  rewrite IH by done. destruct (d === c) eqn:E; [|done]. apply same_true in E. congruence.
Qed.

(** An identifier never contains a character outside its class: in particular
    no path separator. *)
Lemma matches_identifier_no_char cls n s c :
  matches_identifier cls n s = true -> cls c = false -> is_alnum c = false -> has_char c s = false.
Proof.
  destruct s as [|d s]; simpl; [done|]. intros H Hc Ha. reflect.
  rewrite (all_chars_has_char cls) by done. destruct (d === c) eqn:E; [|done].
  apply same_true in E. congruence.
Qed.

Lemma str_length_app (s t : string) : String.length (s +:+ t) = String.length s + String.length t.
Proof. induction s as [|c s IH]; simpl; [done|]. by rewrite IH. Qed.

(** ** Splitting on a separator *)

(** [s.includes(t)] on strings *)
Fixpoint str_includes (t s : string) : bool :=
  String.prefix t s || match s with EmptyString => false | String _ s => str_includes t s end.

(** [s.split(c)] *)
Fixpoint split_on (c : Ascii.ascii) (s : string) : list string :=
  match s with
  | EmptyString => [EmptyString]
  | String d s =>
      if d === c then EmptyString :: split_on c s
      else match split_on c s with
      | [] => [String d EmptyString]
      | x :: xs => String d x :: xs
      end
  end.

Lemma split_on_none c s : has_char c s = false -> split_on c s = [s].
Proof.
  induction s as [|d s IH]; simpl; [done|]. intros [Hd Hs]%orb_false_iff. by rewrite Hd, IH.
Qed.
Lemma split_on_app c s t : has_char c s = false -> split_on c (s +:+ String c t) = s :: split_on c t.
Proof.
  induction s as [|d s IH]; simpl; [by rewrite same_refl|].
  intros [Hd Hs]%orb_false_iff. by rewrite Hd, IH.
Qed.

(** ** White space

    [/\s/] on 8-bit code units. *)
Definition is_space (c : Ascii.ascii) : bool :=
  in_range 9 13 c || in_range 32 32 c || in_range 160 160 c.

(** [s.trim()] *)
Fixpoint trim_start (s : string) : string :=
  match s with String c s' => if is_space c then trim_start s' else s | EmptyString => EmptyString end.
Fixpoint trim_end (s : string) : string :=
  match s with
  | EmptyString => EmptyString
  | String c s' =>
      match trim_end s' with
      | EmptyString => if is_space c then EmptyString else String c EmptyString
      | t => String c t
      end
  end.

Definition trim (s : string) : string := trim_end (trim_start s).

(** ** Automation

    [auto with orcana] closes the side conditions on duplicate-free key lists
    and on lookups; [autorewrite with orcana] computes the reads after a
    write. *)
Create HintDb orcana.
Create Rewrite HintDb orcana.
#[export] Hint Resolve NoDup_jset NoDup_set_add NoDup_uniq NoDup_dedup_from jget_jset_eq : orcana.
#[export] Hint Resolve NoDup_nil_2 NoDup_singleton : orcana.
#[export] Hint Extern 1 (_ ∈ jkeys _) => eapply jkeys_elem; eassumption : orcana.
#[export] Hint Extern 1 (NoDup (jkeys (jdelete _ _))) => apply jkeys_jdelete : orcana.
#[export] Hint Rewrite @jget_jset_eq @same_refl @app_nil_r : orcana.
#[export] Hint Rewrite @jget_jset_ne using (first [assumption | congruence]) : orcana.
