(* ===== verification/Json.v ===== *)
(** JSON values and their canonical serialization.

    Models [src/src/workflow/results/result-hash.ts] (the stable serialization
    the result cache and the deduplicating reducer key on) and
    [src/src/workflow/reducers/dedupe.ts].  Numbers are integers; strings are
    sequences of 8-bit code units, on which [<] is the code-unit order. *)
From S2P Require Import Prelude.
From stdpp Require Import pretty.

(** A value of TypeScript's [unknown] as far as the code inspects it.  Fields
    of an object are kept in insertion order. *)
Inductive jsval : Type :=
| JUndef
| JNull
| JBool (b : bool)
| JNum (n : Z)
| JStr (s : string)
| JArr (vs : list jsval)
| JObj (fields : list (string * jsval)).

(** Induction through the arrays and objects. *)
Section jsval_ind'.
Variable P : jsval -> Prop.
Hypotheses (Hundef : P JUndef) (Hnull : P JNull) (Hbool : forall b, P (JBool b))
  (Hnum : forall n, P (JNum n)) (Hstr : forall s, P (JStr s))
  (Harr : forall vs, Forall P vs -> P (JArr vs))
  (Hobj : forall fs, Forall (fun kv => P kv.2) fs -> P (JObj fs)).

Fixpoint jsval_ind' (v : jsval) : P v :=
  match v with
  | JUndef => Hundef
  | JNull => Hnull
  | JBool b => Hbool b
  | JNum n => Hnum n
  | JStr s => Hstr s
  | JArr vs => Harr vs
      ((fix go vs := match vs return Forall P vs with
        | [] => Forall_nil_2 _
        | v :: vs => Forall_cons_2 _ v vs (jsval_ind' v) (go vs) end) vs)
  | JObj fs => Hobj fs
      ((fix go fs := match fs return Forall (fun kv => P kv.2) fs with
        | [] => Forall_nil_2 _
        | kv :: fs => Forall_cons_2 _ kv fs (jsval_ind' kv.2) (go fs) end) fs)
  end.
End jsval_ind'.

(** ** Property access *)

(** [v.k] on an object; [undefined] when the key is absent or [v] is not an
    object ([(v as {k?}).k] on the values the code applies it to). *)
Definition field (k : string) (v : jsval) : jsval :=
  match v with
  | JObj fs => default JUndef (jget k fs)
  | _ => JUndef
  end.

(** [typeof v === "object"] and not null: arrays count. *)
Definition is_object (v : jsval) : bool :=
  match v with JObj _ | JArr _ => true | _ => false end.

(** [a ?? b] on values. *)
Definition jor (a b : jsval) : jsval := match a with JUndef | JNull => b | _ => a end.

(** [String(v)]. *)
Fixpoint to_string (v : jsval) : string :=
  match v with
  | JUndef => "undefined"
  | JNull => "null"
  | JBool b => if b then "true" else "false"
  | JNum n => pretty n
  | JStr s => s
  | JArr vs => js_join "," (map (fun v => match v with JUndef | JNull => "" | _ => to_string v end) vs)
  | JObj _ => "[object Object]"
  end.

(** ** [JSON.stringify] of a string *)

Definition hex_digit (n : nat) : string :=
  default "0" (["0";"1";"2";"3";"4";"5";"6";"7";"8";"9";"a";"b";"c";"d";"e";"f"] !! n).

Definition quote_char (c : Ascii.ascii) : string :=
  let n := Ascii.nat_of_ascii c in
  if (n =? 34)%nat then String (Ascii.ascii_of_nat 92) (String c "")
  else if (n =? 92)%nat then String c (String c "")
  else if (n =? 8)%nat then "\b"
  else if (n =? 9)%nat then "\t"
  else if (n =? 10)%nat then "\n"
  else if (n =? 12)%nat then "\f"
  else if (n =? 13)%nat then "\r"
  else if (n <? 32)%nat then "\u00" +:+ hex_digit (n / 16) +:+ hex_digit (n mod 16)
  else String c "".

Fixpoint quote_body (s : string) : string :=
  match s with
  | EmptyString => ""
  | String c s => quote_char c +:+ quote_body s
  end.

Definition dquote : string := String (Ascii.ascii_of_nat 34) "".
Definition json_quote (s : string) : string := dquote +:+ quote_body s +:+ dquote.

(** ** Stable serialization *)

(** src/src/workflow/results/result-hash.ts # stableStringify

    The keys of a record are distinct, so sorting the rendered fields by key
    is sorting [Object.keys(record)] and rendering [record[k]] in that order. *)
Fixpoint stableStringify (v : jsval) : string :=
  match v with
  | JUndef | JNull => "null"
  | JNum n => pretty n
  | JBool b => if b then "true" else "false"
  | JStr s => json_quote s
  | JArr vs => "[" +:+ js_join "," (map stableStringify vs) +:+ "]"
  | JObj fs =>
      let rendered := map (fun kv => (kv.1, stableStringify kv.2)) fs in
      let parts := map (fun kv => json_quote kv.1 +:+ ":" +:+ kv.2)
                       (jsort (key_before fst) rendered) in
      "{" +:+ js_join "," parts +:+ "}"
  end.

(** [JSON.stringify(v)]: [undefined] has no text, and members that have none are
    left out. *)
Fixpoint json_stringify (v : jsval) : option string :=
  match v with
  | JUndef => None
  | JNull => Some "null"
  | JBool b => Some (if b then "true" else "false")
  | JNum n => Some (pretty n)
  | JStr s => Some (json_quote s)
  | JArr vs => Some ("[" +:+ js_join "," (map (fun v => default "null" (json_stringify v)) vs) +:+ "]")
  | JObj fs =>
      let parts := map (fun kv => match json_stringify kv.2 with
                                  | Some t => [json_quote kv.1 +:+ ":" +:+ t]
                                  | None => []
                                  end) fs in
      Some ("{" +:+ js_join "," (concat parts) +:+ "}")
  end.

(** src/src/workflow/results/result-hash.ts # stableSerialize *)
Definition stableSerialize (v : jsval) : string := stableStringify v.

(** src/src/workflow/reducers/dedupe.ts # dedupeValues *)
Definition dedupeValues (values : list jsval) : list jsval :=
  (fold_left (fun (acc : list string * list jsval) value =>
     let '(seen, out) := acc in
     let key := stableSerialize value in
     if includes seen key then (seen, out)
     else (seen ++ [key], out ++ [value])) values ([], [])).2.

(** ** Logical equality: objects are compared as unordered dictionaries *)
Inductive jeq : jsval -> jsval -> Prop :=
| jeq_refl v : jeq v v
| jeq_arr vs ws : Forall2 jeq vs ws -> jeq (JArr vs) (JArr ws)
| jeq_obj fs gs hs :
    Forall2 (fun f g => f.1 = g.1 /\ jeq f.2 g.2) fs gs -> gs ≡ₚ hs ->
    jeq (JObj fs) (JObj hs).

(** The keys of every object in the value are distinct, as in any JavaScript
    object. *)
Fixpoint jwf (v : jsval) : Prop :=
  match v with
  | JArr vs => (fix go vs := match vs with [] => True | v :: vs => jwf v /\ go vs end) vs
  | JObj fs => NoDup fs.*1 /\
      (fix go fs := match fs with [] => True | kv :: fs => jwf kv.2 /\ go fs end) fs
  | _ => True
  end.

Lemma jwf_arr vs : jwf (JArr vs) <-> Forall jwf vs.
Proof.
  simpl. induction vs as [|v vs IH]; [by rewrite Forall_nil|].
  rewrite Forall_cons. by rewrite IH.
Qed.
Lemma jwf_obj fs : jwf (JObj fs) <-> NoDup fs.*1 /\ Forall (fun kv => jwf kv.2) fs.
Proof.
  simpl. apply and_iff_compat_l. induction fs as [|v fs IH]; [by rewrite Forall_nil|].
  rewrite Forall_cons. by rewrite IH.
Qed.

Lemma stableStringify_jeq v : forall w, jwf v -> jeq v w -> stableStringify v = stableStringify w.
Proof.
  induction v as [| | | | |vs IH|fs IH] using jsval_ind'; intros w Hwf Heq;
    inversion Heq as [|? ws Hall|? gs hs Hall Hp]; subst; try done.
  - apply jwf_arr in Hwf. simpl. do 3 f_equal. clear Heq.
    induction Hall as [|x y xs ys Hxy Hall IHl]; [done|]. simpl.
    apply Forall_cons in IH as [IHx IH], Hwf as [? Hwf].
    rewrite (IHx y) by done. f_equal. by apply IHl.
  - apply jwf_obj in Hwf as [Hnd Hwf]. simpl. do 4 f_equal. clear Heq.
    set (render := fun kv : string * jsval => (kv.1, stableStringify kv.2)).
    assert (map render fs = map render gs) as Hr.
    { clear Hp Hnd. induction Hall as [|x y xs ys [Hk Hxy] Hall IHl]; [done|]. simpl.
      apply Forall_cons in IH as [IHx IH], Hwf as [? Hwf].
      unfold render at 1 3. rewrite (IHx y.2), Hk by done. f_equal. by apply IHl. }
    apply sort_by_key_perm.
    + rewrite <- list_fmap_compose. done.
    + rewrite Hr. by apply Permutation_map.
Qed.
