(* ===== verification/Schema.v ===== *)
(** Structural validation of untrusted values, and of the role outputs.

    Models [src/src/harness/capabilities/schema-validator.ts] over the schema
    type of [src/src/harness/contracts/schema.ts], and
    [src/src/workflow/coordination/role-contracts.ts] with
    [src/src/workflow/coordination/role-output-validator.ts].  Property tests
    with [in] see own properties; no schema of the program names a property of
    [Object.prototype]. *)
From stdpp Require Import pretty.
From S2P Require Import Prelude Json.

(** src/src/harness/contracts/schema.ts # JsonSchemaType *)
Inductive JsonSchemaType :=
| ty_object | ty_array | ty_string | ty_number | ty_integer | ty_boolean | ty_null.

#[export] Instance schema_type_eq_dec : EqDecision JsonSchemaType.
Proof. solve_decision. Defined.

(** src/src/harness/contracts/schema.ts # JsonSchema

    [type] as the list the validator normalizes it to; [additionalProperties],
    [$ref] and [description] are never read. *)
Inductive JsonSchema :=
| mkSchema (types : list JsonSchemaType) (properties : list (string * JsonSchema))
           (items : option JsonSchema) (required : list string) (enum : option (list jsval)).

(** The schema constructors the literals of the program use. *)
Definition tschema (t : JsonSchemaType) : JsonSchema := mkSchema [t] [] None [] None.
Definition array_of (s : JsonSchema) : JsonSchema := mkSchema [ty_array] [] (Some s) [] None.
Definition record_of (props : list (string * JsonSchema)) (required : list string) : JsonSchema :=
  mkSchema [ty_object] props None required None.

(** [Array.isArray(value) ? "array" : typeof value] for a value that is not
    null; [undefined] is no schema type. *)
Definition value_type (v : jsval) : option JsonSchemaType :=
  match v with
  | JUndef => None
  | JNull | JObj _ => Some ty_object
  | JBool _ => Some ty_boolean
  | JNum _ => Some ty_number
  | JStr _ => Some ty_string
  | JArr _ => Some ty_array
  end.
Definition type_name (t : option JsonSchemaType) : string :=
  match t with
  | None => "undefined" | Some ty_object => "object" | Some ty_array => "array"
  | Some ty_string => "string" | Some ty_number => "number" | Some ty_integer => "integer"
  | Some ty_boolean => "boolean" | Some ty_null => "null"
  end.

(** [option === value] against the primitive values an [enum] lists. *)
Definition strict_eq_prim (o v : jsval) : bool :=
  match o, v with
  | JNull, JNull => true
  | JBool a, JBool b => Bool.eqb a b
  | JNum a, JNum b => (a =? b)%Z
  | JStr a, JStr b => a === b
  | _, _ => false
  end.

Definition expected (types : list JsonSchemaType) (path got : string) : string :=
  path +:+ ": expected " +:+ js_join "|" (map (fun t => type_name (Some t)) types) +:+ ", got " +:+ got.

(** A type besides [object] under which a non-object passes. *)
Definition scalar_type (t : JsonSchemaType) : bool :=
  (t === ty_string) || (t === ty_number) || (t === ty_boolean) || (t === ty_array).

(** src/src/harness/capabilities/schema-validator.ts # check

    The errors it pushes, in order. *)
Fixpoint check (schema : JsonSchema) (value : jsval) (path : string) {struct schema} : list string :=
  let '(mkSchema types properties items required enum) := schema in
  match enum with
  | Some es => if existsb (fun o => strict_eq_prim o value) es then [] else [path +:+ ": value not in enum"]
  | None =>
      match value with
      | JNull => if includes types ty_null then [] else [expected types path "null"]
      | _ =>
          if negb (match value_type value with Some t => includes types t | None => false end)
          then [expected types path (type_name (value_type value))]
          else if includes types ty_object then
            match value with
            | JObj record =>
                flat_map (fun r => if jhas r record then []
                                   else [path +:+ "." +:+ r +:+ ": required property missing"]) required ++
                (fix props (ps : list (string * JsonSchema)) :=
                   match ps with
                   | [] => []
                   | (key, propertySchema) :: ps =>
                       (match jget key record with
                        | Some v => check propertySchema v (path +:+ "." +:+ key)
                        | None => []
                        end) ++ props ps
                   end) properties
            | _ => if existsb scalar_type types then [] else [path +:+ ": expected object"]
            end
          else if includes types ty_array then
            match value, items with
            | JArr vs, Some item =>
                (fix elems (i : nat) (vs : list jsval) :=
                   match vs with
                   | [] => []
                   | v :: vs => check item v (path +:+ "[" +:+ pretty (Z.of_nat i) +:+ "]") ++ elems (S i) vs
                   end) 0 vs
            | _, _ => []
            end
          else []
      end
  end.

(** src/src/harness/capabilities/schema-validator.ts # validateJsonSchema *)
Definition validateJsonSchema (value : jsval) (schema : JsonSchema) : list string :=
  check schema value "$".

(** ** What a schema accepts *)

(** What the validator accepts, quirks included. *)
Inductive conforms : JsonSchema -> jsval -> Prop :=
| conf_enum types ps it rq es o v :
    o ∈ es -> strict_eq_prim o v = true -> conforms (mkSchema types ps it rq (Some es)) v
| conf_null types ps it rq :
    ty_null ∈ types -> conforms (mkSchema types ps it rq None) JNull
| conf_object types ps it rq record :
    ty_object ∈ types ->
    (forall r, r ∈ rq -> r ∈ jkeys record) ->
    (forall key s v, (key, s) ∈ ps -> jget key record = Some v -> conforms s v) ->
    conforms (mkSchema types ps it rq None) (JObj record)
| conf_other types ps it rq v t :
    v <> JNull -> value_type v = Some t -> t ∈ types -> t <> ty_object ->
    (t = ty_array -> ty_object ∉ types -> forall item vs, it = Some item -> v = JArr vs ->
       forall x, x ∈ vs -> conforms item x) ->
    conforms (mkSchema types ps it rq None) v.

Lemma flat_map_nil {A B} (f : A -> list B) l : flat_map f l = [] <-> forall x, x ∈ l -> f x = [].
Proof.
  induction l as [|x l IH]; simpl; [set_solver|]. split.
  - intros [H1 H2]%app_eq_nil y [->|Hy]%elem_of_cons; [done|]. by apply IH.
  - intros H. rewrite H by left. simpl. apply IH. intros y Hy. apply H. by right.
Qed.

Fixpoint schema_size (s : JsonSchema) : nat :=
  let '(mkSchema _ ps it _ _) := s in
  S ((fix go (ps : list (string * JsonSchema)) :=
        match ps with [] => 0 | (_, s) :: ps => schema_size s + go ps end) ps +
     match it with Some s => schema_size s | None => 0 end).

Lemma schema_size_prop types ps it rq en key s :
  (key, s) ∈ ps -> schema_size s < schema_size (mkSchema types ps it rq en).
Proof.
  intros Hin. simpl. induction ps as [|[k s'] ps IH]; [set_solver|].
  apply elem_of_cons in Hin as [[= -> ->]|Hin]; [lia|]. specialize (IH Hin). lia.
Qed.

Lemma props_nil record path ps :
  (fix props (ps : list (string * JsonSchema)) :=
     match ps with
     | [] => []
     | (key, propertySchema) :: ps =>
         (match jget key record with
          | Some v => check propertySchema v (path +:+ "." +:+ key)
          | None => []
          end) ++ props ps
     end) ps = [] <->
  forall key s v, (key, s) ∈ ps -> jget key record = Some v -> check s v (path +:+ "." +:+ key) = [].
Proof.
  induction ps as [|[k s] ps IH]; [set_solver|]. split.
  - intros [H1 H2]%app_eq_nil key s' v [[= -> ->]|Hin]%elem_of_cons Hg; [by rewrite Hg in H1|].
    by eapply IH.
  - intros H. destruct (jget k record) as [v|] eqn:E; simpl.
    + rewrite (H k s v) by (by left || done). simpl. apply IH. intros. eapply H; [by right|done].
    + apply IH. intros. eapply H; [by right|done].
Qed.

Lemma elems_nil item path vs : forall i,
  (fix elems (i : nat) (vs : list jsval) :=
     match vs with
     | [] => []
     | v :: vs => check item v (path +:+ "[" +:+ pretty (Z.of_nat i) +:+ "]") ++ elems (S i) vs
     end) i vs = [] <->
  forall j x, vs !! j = Some x -> check item x (path +:+ "[" +:+ pretty (Z.of_nat (i + j)) +:+ "]") = [].
Proof.
  induction vs as [|v vs IH]; intros i; [done|]. split.
  - intros [H1 H2]%app_eq_nil [|j] x; simpl; [intros [= ->]; by rewrite Nat.add_0_r|].
    intros Hx. rewrite Nat.add_succ_r. by apply (proj1 (IH (S i)) H2).
  - intros H. rewrite <- (Nat.add_0_r i) at 1. rewrite (H 0 v) by done. simpl. apply IH.
    intros j x Hx. rewrite Nat.add_succ_l, <- Nat.add_succ_r. by apply H.
Qed.

Lemma existsb_scalar types t :
  t ∈ types -> t <> ty_object -> t <> ty_integer -> t <> ty_null -> existsb scalar_type types = true.
Proof.
  intros Hin ???. apply existsb_exists. exists t. split; [by apply list_elem_of_In|]. by destruct t.
Qed.

Lemma value_type_scalar v t : value_type v = Some t -> t <> ty_integer /\ t <> ty_null.
Proof. destruct v; naive_solver. Qed.

Lemma value_type_object v : value_type v = Some ty_object -> v <> JNull -> exists fs, v = JObj fs.
Proof. destruct v; naive_solver. Qed.

(** The cases of [check_conforms] below a schema without [enum], given the
    statement for its sub-schemas. *)
Section Cases.
Context (types : list JsonSchemaType) (ps : list (string * JsonSchema)) (it : option JsonSchema)
        (rq : list string) (path : string).
Context (IHp : forall key s x p, (key, s) ∈ ps -> check s x p = [] <-> conforms s x)
        (IHi : forall s x p, it = Some s -> check s x p = [] <-> conforms s x).
Abbreviation schema := (mkSchema types ps it rq None).

Lemma check_array vs : check schema (JArr vs) path = [] <-> conforms schema (JArr vs).
Proof.
  simpl. destruct (includes types ty_array) eqn:Ea; simpl.
  2: { apply includes_false in Ea. split; [done|]. inversion 1; naive_solver. }
  apply includes_true in Ea. rewrite (existsb_scalar types ty_array) by done.
  destruct (includes types ty_object) eqn:Eo.
  { apply includes_true in Eo. split; [|done]. intros _. by eapply conf_other. }
  apply includes_false in Eo. destruct it as [item|].
  2: { split; [|done]. intros _. by eapply conf_other. }
  rewrite elems_nil. split.
  - intros H. eapply conf_other; [done..|]. intros _ _ ? ? [= <-] [= <-] x Hx.
    apply list_elem_of_lookup in Hx as [j Hj]. eapply IHi; [done|]. by apply (H j).
  - inversion 1 as [| | |? ? ? ? ? t Hnn Ht Hin Hno Hit]; subst. simpl in Ht. simplify_eq.
    intros j x Hx. eapply IHi; [done|]. eapply Hit; [done..|]. by eapply list_elem_of_lookup_2.
Qed.

Lemma check_object fs : check schema (JObj fs) path = [] <-> conforms schema (JObj fs).
Proof.
  simpl. destruct (includes types ty_object) eqn:Eo; simpl.
  2: { apply includes_false in Eo. split; [done|]. inversion 1; naive_solver. }
  apply includes_true in Eo. split.
  - intros [H1 H2]%app_eq_nil. constructor; [done| |].
    + intros r Hr. apply (proj1 (flat_map_nil _ _) H1) in Hr. destruct (jhas r fs) eqn:E; [|done].
      by apply jhas_true.
    + intros key s v Hin Hg. eapply IHp; [done|]. by eapply (proj1 (props_nil _ _ _) H2).
  - inversion 1 as [| |? ? ? ? ? Hin Hr Hps|]; subst; [|simpl in *; naive_solver].
    replace (flat_map _ rq) with (@nil string).
    + simpl. apply props_nil. intros key s v Hk Hg. eapply IHp; [done|]. by eapply Hps.
    + symmetry. apply flat_map_nil. intros r Hr'. by rewrite (proj2 (jhas_true _ _)) by auto.
Qed.

Lemma check_scalar t v :
  v <> JNull -> value_type v = Some t -> t <> ty_object -> t <> ty_array ->
  ((if negb (includes types t) then [expected types path (type_name (Some t))]
    else if includes types ty_object then
      (if existsb scalar_type types then [] else [path +:+ ": expected object"])
    else if includes types ty_array then [] else []) = [] <-> conforms schema v).
Proof.
  intros Hnn Ht Hno Hna. destruct (value_type_scalar v t Ht).
  destruct (includes types t) eqn:E; simpl.
  - apply includes_true in E. rewrite (existsb_scalar types t) by done.
    split; [intros _|by repeat case_match]. by econstructor.
  - apply includes_false in E. split; [done|]. inversion 1; subst; naive_solver.
Qed.
End Cases.

Lemma check_enum types ps it rq es v path :
  check (mkSchema types ps it rq (Some es)) v path = [] <-> conforms (mkSchema types ps it rq (Some es)) v.
Proof.
  cbn [check]. split.
  - destruct (existsb _ es) eqn:E; [|done]. intros _. apply existsb_exists in E as (o & Ho & E).
    econstructor; [by apply list_elem_of_In|done].
  - inversion 1; subst. replace (existsb _ es) with true; [done|]. symmetry.
    apply existsb_exists. eexists. split; [by apply list_elem_of_In|done].
Qed.

Lemma check_conforms n : forall s v path,
  schema_size s <= n -> check s v path = [] <-> conforms s v.
Proof.
  induction n as [|n IH]; intros [types ps it rq en] v path Hsz; [simpl in Hsz; lia|].
  assert (forall key s x p, (key, s) ∈ ps -> check s x p = [] <-> conforms s x) as IHp.
  { intros key s x p Hin. apply IH.
    pose proof (schema_size_prop types ps it rq en key s Hin). lia. }
  assert (forall s x p, it = Some s -> check s x p = [] <-> conforms s x) as IHi.
  { intros s x p ->. apply IH. simpl in Hsz. lia. }
  clear IH Hsz. destruct en as [es|]; [apply check_enum|].
  destruct v as [| |b|k|str|vs|fs]; [| | | | |by apply check_array|by apply check_object];
    cbn [check]; try (by apply check_scalar).
  - simpl. split; [done|]. by inversion 1.
  - split.
    + destruct (includes types ty_null) eqn:E; [|done]. intros _. constructor. by apply includes_true.
    + inversion 1; subst; [|done]. by rewrite (proj2 (includes_true _ _)).
Qed.

(** *** Against the standard reading

    The meaning JSON Schema gives the keywords: every one that is present
    constrains the values of its own kind, independently of the others. *)
Definition instance_of (t : JsonSchemaType) (v : jsval) : Prop :=
  match t with
  | ty_object => exists fs, v = JObj fs
  | ty_array => exists vs, v = JArr vs
  | ty_string => exists s, v = JStr s
  | ty_number | ty_integer => exists n, v = JNum n
  | ty_boolean => exists b, v = JBool b
  | ty_null => v = JNull
  end.

Inductive valid : JsonSchema -> jsval -> Prop :=
| valid_keywords types ps it rq en v :
    (exists t, t ∈ types /\ instance_of t v) ->
    (forall es, en = Some es -> v ∈ es) ->
    (forall record r, v = JObj record -> r ∈ rq -> r ∈ jkeys record) ->
    (forall record key s x, v = JObj record -> (key, s) ∈ ps -> jget key record = Some x -> valid s x) ->
    (forall vs item x, v = JArr vs -> it = Some item -> x ∈ vs -> valid item x) ->
    valid (mkSchema types ps it rq en) v.

Definition primitive (v : jsval) : Prop :=
  match v with JNull | JBool _ | JNum _ | JStr _ => True | _ => False end.

(** The schemas on which the validator keeps to it: no [integer], no [items]
    where objects are allowed as well, and options of an [enum] that are
    primitive and of a declared type. *)
Inductive plain : JsonSchema -> Prop :=
| plain_schema types ps it rq en :
    ty_integer ∉ types ->
    (ty_object ∈ types -> it = None) ->
    (forall es o, en = Some es -> o ∈ es -> primitive o /\ exists t, t ∈ types /\ instance_of t o) ->
    (forall key s, (key, s) ∈ ps -> plain s) ->
    (forall item, it = Some item -> plain item) ->
    plain (mkSchema types ps it rq en).

Lemma instance_type t v : t <> ty_integer -> v <> JNull -> instance_of t v <-> value_type v = Some t.
Proof. intros Hi Hn. destruct t, v; cbn; naive_solver. Qed.

Lemma strict_eq_same o v : primitive o -> strict_eq_prim o v = true <-> o = v.
Proof.
  destruct o, v; cbn [strict_eq_prim primitive]; try (intros _; split; [done|intros [=]]; done); try done; intros _.
  - rewrite Bool.eqb_true_iff. split; [by intros ->|by intros [=]].
  - rewrite Z.eqb_eq. split; [by intros ->|by intros [=]].
  - rewrite same_eq. split; [by intros ->|by intros [=]].
Qed.

Lemma conforms_valid n : forall s v, schema_size s <= n -> plain s -> conforms s v <-> valid s v.
Proof.
  induction n as [|n IH]; intros [types ps it rq en] v Hsz Hp; [simpl in Hsz; lia|].
  inversion Hp as [? ? ? ? ? Hint Hobj Hen Hps Hit]; subst.
  assert (forall key s x, (key, s) ∈ ps -> conforms s x <-> valid s x) as IHp.
  { intros key s x Hin. apply IH; [|by eapply Hps]. pose proof (schema_size_prop types ps it rq en key s Hin). lia. }
  assert (forall s x, it = Some s -> conforms s x <-> valid s x) as IHi.
  { intros s x ->. apply IH; [simpl in Hsz; lia|by apply Hit]. }
  clear IH Hsz Hps Hit Hp. split.
  - inversion 1 as [? ? ? ? es o ? Ho Heq|? ? ? ? Hn|? ? ? ? record Ho Hrq Hpr|? ? ? ? ? t Hnn Ht Hin Hno Hitems]; subst.
    + destruct (Hen es o eq_refl Ho) as [Hprim Ht]. apply strict_eq_same in Heq as <-; [|done].
      constructor; [done|by intros ? [= <-]|..]; intros; subst; done.
    + constructor; [by exists ty_null| |..]; intros; done.
    + constructor; [exists ty_object; split; [done|by eexists]|done|..]; intros; simplify_eq; [by apply Hrq|].
      eapply IHp; [done|]. by eapply Hpr.
    + constructor; [exists t; split; [done|]; apply instance_type; [by intros ->|done..]|done|..]; intros; subst;
        [by cbn in Ht; simplify_eq|by cbn in Ht; simplify_eq|].
      cbn in Ht. injection Ht as <-. eapply IHi; [done|]. eapply Hitems; try done. intros Ho. by specialize (Hobj Ho).
  - inversion 1 as [? ? ? ? ? ? (t & Ht & Hinst) Hes Hrq Hpr Hitems]; subst.
    destruct en as [es|].
    + specialize (Hes es eq_refl). destruct (Hen es v eq_refl Hes) as [Hprim _]. eapply conf_enum; [exact Hes|].
      by apply strict_eq_same.
    + destruct (decide (t = ty_null)) as [->|Hnull]; [cbn in Hinst; subst; by constructor|].
      assert (v <> JNull) as Hnn by (intros ->; destruct t; naive_solver).
      assert (t <> ty_integer) as Hni by (intros ->; done).
      destruct (decide (t = ty_object)) as [->|Hno].
      * destruct Hinst as [fs ->]. constructor; [done|by eauto|]. intros key s x Hk Hg. eapply IHp; [done|]. by eapply Hpr.
      * eapply conf_other; [done|by apply instance_type|done|done|]. intros _ _ item vs Hi Hv x Hx. eapply IHi; [done|].
        by eapply Hitems.
Qed.

(** C26: The structural validator decides JSON Schema validity on the schemas it
    is meant for: for every schema without the type integer (which it never
    accepts), without items where objects are allowed too (which it then ignores),
    and whose enum options are primitive values of a declared type, and for every
    value, it reports no error exactly when the value is valid: of a declared
    type, among the options if there are any, with every required property, and,
    recursively, with valid values for the declared properties it has and valid
    array elements. *)
Theorem validateJsonSchema_conforms value schema :
  plain schema -> validateJsonSchema value schema = [] <-> valid schema value.
Proof.
  intros Hp. unfold validateJsonSchema. rewrite (check_conforms (schema_size schema)) by done.
  by apply (conforms_valid (schema_size schema)).
Qed.

(** The pseudo-type [integer] accepts no value at all: [typeof] never says it. *)
Theorem integer_schema_rejects_numbers n :
  validateJsonSchema (JNum n) (tschema ty_integer) = ["$: expected integer, got number"].
Proof. reflexivity. Qed.

(** ** Role outputs *)

(** src/src/workflow/coordination/role-contracts.ts # ROLE_OUTPUT_SCHEMAS *)
Definition ROLE_OUTPUT_SCHEMAS (role : string) : option JsonSchema :=
  let str := tschema ty_string in
  let strs := array_of str in
  if role === "planner" then
    Some (record_of
      [("planText", str);
       ("taskAssignments", array_of (record_of [("agentId", str); ("taskIds", strs)] ["agentId"; "taskIds"]));
       ("dependencies", array_of (record_of [("from", str); ("to", str)] ["from"; "to"]));
       ("approvals", strs)]
      ["planText"; "taskAssignments"; "dependencies"; "approvals"])
  else if role === "coder" then
    Some (record_of
      [("changes", array_of (record_of [("file", str); ("summary", str)] ["file"; "summary"]));
       ("deviations", array_of (record_of [("from", str); ("reason", str)] ["from"; "reason"]));
       ("evidenceIds", strs)]
      ["changes"; "evidenceIds"])
  else if role === "reviewer" then
    Some (record_of
      [("verdict", mkSchema [ty_string] [] None []
                     (Some [JStr "approved"; JStr "rejected"; JStr "needs_repair"]));
       ("comments", strs); ("evidenceIds", strs)]
      ["verdict"; "comments"])
  else None.

(** The schemas of the roles are among those the validator decides. *)
Lemma plain_tschema t : t <> ty_integer -> plain (tschema t).
Proof. intros Ht. constructor; try done; [set_solver|]. intros key s []%not_elem_of_nil. Qed.
Lemma plain_array_of s : plain s -> plain (array_of s).
Proof. intros Hs. constructor; try done; [set_solver|set_solver|intros key s' []%not_elem_of_nil|by intros ? [= <-]]. Qed.
Lemma plain_record_of ps rq : (forall key s, (key, s) ∈ ps -> plain s) -> plain (record_of ps rq).
Proof. intros Hs. by constructor; [set_solver|..]. Qed.
Lemma plain_options es : (forall o, o ∈ es -> exists t, o = JStr t) -> plain (mkSchema [ty_string] [] None [] (Some es)).
Proof.
  intros Hs. constructor; try done; [set_solver| |intros key s []%not_elem_of_nil].
  intros es' o [= <-] Ho. destruct (Hs o Ho) as [t ->]. split; [done|]. exists ty_string. split; [left|by exists t].
Qed.
Lemma role_schemas_plain role schema : ROLE_OUTPUT_SCHEMAS role = Some schema -> plain schema.
Proof.
  unfold ROLE_OUTPUT_SCHEMAS. intros H. repeat case_match; simplify_eq;
    repeat first [apply plain_tschema; done|apply plain_array_of|apply plain_options|apply plain_record_of
                 |intros key s Hin; repeat (apply elem_of_cons in Hin as [[= -> ->]|Hin]); [..|by apply not_elem_of_nil in Hin]];
    intros o Ho; repeat (apply elem_of_cons in Ho as [->|Ho]); first [by eexists|by apply not_elem_of_nil in Ho].
Qed.

(** A review with a verdict, and one without. *)
Lemma validateJsonSchema_conforms_witness :
  exists schema, ROLE_OUTPUT_SCHEMAS "reviewer" = Some schema /\
    valid schema (JObj [("verdict", JStr "approved"); ("comments", JArr [JStr "fine"])]) /\
    ~ valid schema (JObj [("verdict", JStr "fine"); ("comments", JArr [])]).
Proof.
  destruct (ROLE_OUTPUT_SCHEMAS "reviewer") as [schema|] eqn:E; [|discriminate E]. exists schema. split; [done|].
  pose proof (role_schemas_plain _ _ E) as Hp. injection E as <-. split.
  - apply (validateJsonSchema_conforms _ _ Hp). reflexivity.
  - intros Hv. apply (validateJsonSchema_conforms _ _ Hp) in Hv. discriminate Hv.
Defined.

(** [!v] on a value read from a record. *)
Definition falsy (v : jsval) : bool :=
  match v with
  | JUndef | JNull => true
  | JBool b => negb b
  | JNum n => (n =? 0)%Z
  | JStr s => s === ""
  | JArr _ | JObj _ => false
  end.

Definition elements_of (v : jsval) : list jsval := match v with JArr vs => vs | _ => [] end.

(** src/src/workflow/coordination/role-output-validator.ts # validateRoleOutput

    [None] accepts; the envelope of an accepted output adds nothing to it. *)
Definition validateRole (role : string) (raw : jsval) : option (string * list string) :=
  match ROLE_OUTPUT_SCHEMAS role with
  | None => None
  | Some schema =>
      match validateJsonSchema raw schema with
      | [] =>
          if (role === "coder") &&
             existsb (fun d => falsy (field "from" d) || falsy (field "reason" d))
                     (elements_of (field "deviations" raw))
          then Some ("invalid_role_output", ["coder output: deviation requires from + reason"])
          else None
      | errors => Some ("invalid_role_output", map (fun e => role +:+ " output: " +:+ e) errors)
      end
  end.

(** Role outputs are validated before use: a declared role's output is accepted
    exactly when it conforms to that role's schema and, for a coder, every
    declared deviation has a non-empty origin and reason. *)
Theorem validateRole_accepts role raw schema :
  ROLE_OUTPUT_SCHEMAS role = Some schema ->
  (validateRole role raw = None <->
   conforms schema raw /\
   (role = "coder" -> forall d, d ∈ elements_of (field "deviations" raw) ->
      falsy (field "from" d) = false /\ falsy (field "reason" d) = false)).
Proof.
  intros Hs. unfold validateRole. rewrite Hs, <- (check_conforms _ _ _ "$" (le_n _)).
  change (check schema raw "$") with (validateJsonSchema raw schema).
  destruct (validateJsonSchema raw schema) as [|e es]; [|naive_solver].
  destruct (role === "coder") eqn:Er; simpl; reflect; [|naive_solver].
  destruct (existsb _ _) eqn:Ex.
  - split; [done|]. intros [_ H]. apply existsb_exists in Ex as (d & Hd%list_elem_of_In & Hb).
    destruct (H Er d Hd) as [H1 H2]. by rewrite H1, H2 in Hb.
  - split; [|done]. intros _. split; [done|]. intros _ d Hd%list_elem_of_In.
    destruct (falsy (field "from" d) || falsy (field "reason" d)) eqn:E; [|by apply orb_false_iff].
    assert (true = false); [|done]. rewrite <- Ex. symmetry. apply existsb_exists. eauto.
Qed.

Lemma validateRole_accepts_witness :
  let raw := JObj [("verdict", JStr "approved"); ("comments", JArr [])] in
  let schema := record_of
      [("verdict", mkSchema [ty_string] [] None []
                     (Some [JStr "approved"; JStr "rejected"; JStr "needs_repair"]));
       ("comments", array_of (tschema ty_string)); ("evidenceIds", array_of (tschema ty_string))]
      ["verdict"; "comments"] in
  validateRole "reviewer" raw = None <->
   conforms schema raw /\
   ("reviewer" = "coder" -> forall d, d ∈ elements_of (field "deviations" raw) ->
      falsy (field "from" d) = false /\ falsy (field "reason" d) = false).
Proof. apply (validateRole_accepts "reviewer"). reflexivity. Defined.
