(* ===== verification/WorkflowTypes.v ===== *)
(** Data model of the typed execution graph.

    Models [src/src/workflow/types.ts], the criterion types of
    [src/src/workflow/contracts/criteria.ts] and the interrupt records of
    [src/src/workflow/interrupts/types.ts].  Fields the modelled code never
    reads ([usage], [diagnostics], [evidence] of a node result, titles and
    descriptions) are carried by the source but not represented. *)
From S2P Require Import Prelude Json Schema.

(** ** Completion criteria *)

(** src/src/workflow/contracts/criteria.ts # CriterionMode *)
Inductive CriterionMode := deterministic | semantic.

(** src/src/workflow/contracts/criteria.ts # CriterionCheck

    [requireBackend] has the single value ["namespace"]: a flag.  Optional
    booleans keep the absent case, which the evaluator distinguishes. *)
Inductive CriterionCheck :=
| CheckCommand (command : string) (verificationKind : option string)
| CheckFileExists (path : string)
| CheckFileContent (path contains : string)
| CheckEvidence (evidenceKind : string) (requirePassed : option bool)
    (requireBackendNamespace requireNoDegradation requireCleanupVerified : bool)
| CheckSemanticReview (reviewer guidance : string).

(** src/src/workflow/contracts/criteria.ts # CompletionCriterion *)
Record CompletionCriterion := mkCriterion {
  cc_id : string;
  cc_hard : bool;
  cc_mode : CriterionMode;
  cc_check : option CriterionCheck;
}.

(** ** Nodes and specs *)

(** src/src/workflow/types.ts # WorkflowDependencyWhen *)
Inductive WorkflowDependencyWhen :=
| when_terminal | when_succeeded | when_failed | when_accepted | when_rejected | when_blocked.

#[export] Instance when_eq_dec : EqDecision WorkflowDependencyWhen.
Proof. solve_decision. Defined.

(** src/src/workflow/types.ts # WorkflowDependency *)
Record WorkflowDependency := mkDep { dep_nodeId : string; dep_when : WorkflowDependencyWhen }.

#[export] Instance dependency_eq_dec : EqDecision WorkflowDependency.
Proof. solve_decision. Defined.

(** The union [string | WorkflowDependency] of [dependsOn]. *)
Inductive DependsEntry :=
| OnId (s : string)
| OnDep (d : WorkflowDependency).

(** [typeof dep === "string" ? dep : dep.nodeId] *)
Definition depId (d : DependsEntry) : string :=
  match d with OnId s => s | OnDep d => dep_nodeId d end.

(** src/src/workflow/types.ts # WorkflowNodeExecution

    The payloads of [llm_agent], [verification] and [human] are handed to the
    node runtime unread; the scheduler only tests the kind and, for [tool],
    the capability id and parameters. *)
Inductive WorkflowNodeExecution :=
| ExecFunction
| ExecTool (capabilityId : string) (params : jsval)
| ExecLlmAgent (prompt : string)
| ExecVerification
| ExecHuman (prompt : string).

(** src/src/workflow/types.ts # WorkflowNodeSpec *)
Record WorkflowNodeSpec := mkNode {
  n_id : string;
  n_handler : string;
  n_input : jsval;
  n_dependsOn : list DependsEntry;
  n_execution : option WorkflowNodeExecution;
  n_assignment : option string;
}.

(** The spec's [schemaVersion] ("0.1" or "0.2"). *)
Inductive SchemaVersion := v0_1 | v0_2.

(** The spec's [mode]. *)
Inductive SpecMode := readonly | read_write.

#[export] Instance mode_eq_dec : EqDecision SpecMode.
Proof. solve_decision. Defined.

(** src/src/workflow/types.ts # WorkflowSpec *)
Record WorkflowSpec := mkSpec {
  s_schemaVersion : SchemaVersion;
  s_specId : string;
  s_nodes : list WorkflowNodeSpec;
  s_maxParallel : option Z;
  s_mode : option SpecMode;
  s_completionCriteria : option (list CompletionCriterion);
}.

(** ** Results *)

(** src/src/workflow/types.ts # WorkflowNodeResultStatus *)
Inductive WorkflowNodeResultStatus := st_done | st_failed | st_blocked.

#[export] Instance node_status_eq_dec : EqDecision WorkflowNodeResultStatus.
Proof. solve_decision. Defined.

(** src/src/workflow/types.ts # WorkflowNodeResult *)
Record WorkflowNodeResult := mkResult {
  r_nodeId : string;
  r_status : WorkflowNodeResultStatus;
  r_output : jsval;
  r_error : option string;
  r_errorKind : option string;
  r_startedAt : Z;
  r_finishedAt : Z;
  r_durationMs : Z;
}.

(** src/src/workflow/types.ts # WorkflowRunResultStatus *)
Inductive WorkflowRunResultStatus :=
| run_done | run_failed | run_blocked | run_blocked_no_evidence | run_write_rejected
| run_waiting_interrupt | run_blocked_conflict.

#[export] Instance run_status_eq_dec : EqDecision WorkflowRunResultStatus.
Proof. solve_decision. Defined.

(** src/src/workflow/types.ts # WorkflowWaitingInterrupt *)
Record WorkflowWaitingInterrupt := mkWaiting {
  wi_interruptId : string;
  wi_resumeToken : string;
  wi_nodeId : string;
  wi_kind : string;
  wi_prompt : string;
  wi_expiresAt : option Z;
}.

(** ** Interrupts *)

(** src/src/workflow/interrupts/types.ts # WorkflowInterruptKind *)
Inductive WorkflowInterruptKind :=
| ik_approval | ik_user_input | ik_conflict_resolution | ik_plan_amendment | ik_external_uncertainty.

(** src/src/workflow/interrupts/types.ts # WorkflowInterruptStatus *)
Inductive WorkflowInterruptStatus := is_waiting | is_resuming | is_resolved | is_cancelled | is_expired.

#[export] Instance interrupt_status_eq_dec : EqDecision WorkflowInterruptStatus.
Proof. solve_decision. Defined.

(** src/src/workflow/interrupts/types.ts # WorkflowInterruptRecord

    [responseSchema] is [unknown]; the only use casts it to a schema when it is
    truthy. *)
Record WorkflowInterruptRecord := mkInterrupt {
  wr_interruptId : string;
  wr_runId : string;
  wr_specId : string;
  wr_specDigest : string;
  wr_nodeId : string;
  wr_nodeRunId : string;
  wr_kind : WorkflowInterruptKind;
  wr_prompt : string;
  wr_responseSchema : option JsonSchema;
  wr_createdAt : Z;
  wr_expiresAt : option Z;
  wr_workspaceHash : string;
  wr_status : WorkflowInterruptStatus;
}.

(** The node ids a spec declares, in order. *)
Definition nodeIds (spec : WorkflowSpec) : list string := n_id <$> s_nodes spec.

(** [spec.nodes.find(n => n.id === id)] *)
Definition nodeById (spec : WorkflowSpec) (id : string) : option WorkflowNodeSpec :=
  find (fun n => n_id n === id) (s_nodes spec).

Lemma nodeById_Some spec id n :
  nodeById spec id = Some n -> n ∈ s_nodes spec /\ n_id n = id.
Proof.
  intros H. apply find_some in H as [Hin Hid].
  split; [by apply list_elem_of_In|by apply same_eq].
Qed.
Lemma nodeById_elem spec n :
  NoDup (nodeIds spec) -> n ∈ s_nodes spec -> nodeById spec (n_id n) = Some n.
Proof.
  unfold nodeById, nodeIds. induction (s_nodes spec) as [|m ns IH]; simpl; [set_solver|].
  rewrite NoDup_cons, elem_of_cons.
  intros [Hm Hnd] [->|Hin]; [by rewrite same_refl|].
  destruct (n_id m === n_id n) eqn:E; [|auto].
  apply same_true in E. destruct Hm. rewrite E. by apply list_elem_of_fmap_2.
Qed.
Lemma nodeById_None spec id : nodeById spec id = None <-> id ∉ nodeIds spec.
Proof.
  unfold nodeById, nodeIds. induction (s_nodes spec) as [|m ns IH]; simpl; [set_solver|].
  rewrite not_elem_of_cons. destruct (n_id m === id) eqn:E.
  - apply same_true in E. naive_solver.
  - apply same_false in E. naive_solver.
Qed.
