(* ===== verification/EdgeStore.v ===== *)
(** Dependency topology and cycle detection.

    Models [src/src/workflow/results/edge-store.ts]: [buildTopology],
    [detectCycle] (a colouring depth-first search) and [topologicalOrder]
    (Kahn's algorithm). *)
From S2P Require Import Prelude Json WorkflowTypes.

(** The one error [buildTopology] throws. *)
Inductive topo_error := UnknownDependency (node dep : string).

(** src/src/workflow/results/edge-store.ts # EdgeTopology *)
Record EdgeTopology := mkTopology {
  indegree : gmap string Z;
  successors : gmap string (list string);
}.

(** The loop over [node.dependsOn] of one node. *)
Fixpoint addDeps (ids : list string) (nid : string) (deps : list DependsEntry)
    (seen : list string) (t : EdgeTopology) : res topo_error EdgeTopology :=
  match deps with
  | [] => Ok t
  | dep :: deps =>
      let d := depId dep in
      if negb (includes ids d) then Throw (UnknownDependency nid d)
      else if includes seen d then addDeps ids nid deps seen t
      else addDeps ids nid deps (seen ++ [d])
             (mkTopology (<[nid := (default 0 (indegree t !! nid) + 1)%Z]> (indegree t))
                         (alter (fun l => l ++ [nid]) d (successors t)))
  end.

(** The loop over [spec.nodes]. *)
Fixpoint addNodes (ids : list string) (nodes : list WorkflowNodeSpec) (t : EdgeTopology)
    : res topo_error EdgeTopology :=
  match nodes with
  | [] => Ok t
  | n :: nodes => t' ← addDeps ids (n_id n) (n_dependsOn n) [] t; addNodes ids nodes t'
  end.

Definition emptyTopology (ids : list string) : EdgeTopology :=
  mkTopology (list_to_map ((fun id => (id, 0%Z)) <$> ids))
             (list_to_map ((fun id => (id, [])) <$> ids)).

(** src/src/workflow/results/edge-store.ts # buildTopology *)
Definition buildTopology (spec : WorkflowSpec) : res topo_error EdgeTopology :=
  addNodes (nodeIds spec) (s_nodes spec) (emptyTopology (nodeIds spec)).

(** ** Depth-first search *)

(** [0 = unvisited] is absence from the colour map. *)
Inductive colour := InStack | Finished.

#[export] Instance colour_eq_dec : EqDecision colour.
Proof. solve_decision. Defined.

(** The search returns a cycle, or the colours after it; [OutOfFuel] is the
    model's, and never returned ([detectCycle_fuel]). *)
Inductive visit_out :=
| Found (path : list string)
| Clear (color : gmap string colour)
| OutOfFuel.

(** [stack.slice(stack.indexOf(next))] *)
Fixpoint slice_from (x : string) (stack : list string) : list string :=
  match stack with
  | [] => []
  | y :: stack' => if y === x then stack else slice_from x stack'
  end.

Definition succs (t : EdgeTopology) (id : string) : list string :=
  default [] (successors t !! id).

(** src/src/workflow/results/edge-store.ts # visit

    [stack] is passed down: a visit that returns [null] has popped what it
    pushed. *)
Fixpoint visit (t : EdgeTopology) (fuel : nat) (id : string)
    (color : gmap string colour) (stack : list string) : visit_out :=
  match fuel with
  | O => OutOfFuel
  | S fuel =>
      let stack := stack ++ [id] in
      (fix loop (nexts : list string) (color : gmap string colour) : visit_out :=
         match nexts with
         | [] => Clear (<[id := Finished]> color)
         | next :: nexts =>
             match color !! next with
             | None =>
                 match visit t fuel next color stack with
                 | Clear color => loop nexts color
                 | out => out
                 end
             | Some InStack => Found (slice_from next stack ++ [next])
             | Some Finished => loop nexts color
             end
         end) (succs t id) (<[id := InStack]> color)
  end.

(** The loop over [spec.nodes] that starts a search from every unvisited node. *)
Fixpoint visitAll (t : EdgeTopology) (fuel : nat) (ids : list string)
    (color : gmap string colour) : visit_out :=
  match ids with
  | [] => Clear color
  | id :: ids =>
      match color !! id with
      | None =>
          match visit t fuel id color [] with
          | Clear color => visitAll t fuel ids color
          | out => out
          end
      | Some _ => visitAll t fuel ids color
      end
  end.

(** A search is at most as deep as there are nodes. *)
Definition searchFuel (spec : WorkflowSpec) : nat := S (length (s_nodes spec)).

(** src/src/workflow/results/edge-store.ts # detectCycle

    [Ok (Some path)] is a cycle, [Ok None] is [null]; [OutOfFuel] would be
    reported as no cycle, so its absence is a lemma. *)
Definition detectCycle (spec : WorkflowSpec) : res topo_error (option (list string)) :=
  t ← buildTopology spec;
  match visitAll t (searchFuel spec) (nodeIds spec) ∅ with
  | Found path => Ok (Some path)
  | _ => Ok None
  end.

(** ** Kahn's algorithm *)

Inductive order_error :=
| OrderTopology (e : topo_error)
| OrderCycle (path : option (list string)).

(** Decrementing the successors of a popped node. *)
Fixpoint relax (nexts : list string) (indeg : gmap string Z) (queue : list string)
    : gmap string Z * list string :=
  match nexts with
  | [] => (indeg, queue)
  | next :: nexts =>
      let deg := (default 0 (indeg !! next) - 1)%Z in
      relax nexts (<[next := deg]> indeg) (if (deg =? 0)%Z then queue ++ [next] else queue)
  end.

(** The [while (queue.length > 0)] loop; [fuel] counts the pops. *)
Fixpoint kahn (t : EdgeTopology) (fuel : nat) (queue : list string)
    (indeg : gmap string Z) (order : list string) : list string :=
  match fuel, queue with
  | S fuel, id :: queue =>
      let '(indeg, queue) := relax (succs t id) indeg queue in
      kahn t fuel queue indeg (order ++ [id])
  | _, _ => order
  end.

(** src/src/workflow/results/edge-store.ts # topologicalOrder *)
Definition topologicalOrder (spec : WorkflowSpec) : res order_error (list string) :=
  match buildTopology spec with
  | Throw e => Throw (OrderTopology e)
  | Ok t =>
      let queue := filter (fun id => default 0%Z (indegree t !! id) = 0%Z) (nodeIds spec) in
      let order := kahn t (S (length (s_nodes spec))) queue (indegree t) [] in
      if (length order =? length (s_nodes spec))%nat then Ok order
      else match detectCycle spec with
           | Ok path => Throw (OrderCycle path)
           | Throw e => Throw (OrderTopology e)
           end
  end.

(** ** What the topology says *)

(** [edge t a b]: [b] is a successor of [a], i.e. depends on it. *)
Definition edge (t : EdgeTopology) (a b : string) : Prop := b ∈ succs t a.

Definition depIds (n : WorkflowNodeSpec) : list string := depId <$> n_dependsOn n.

(** The spec's dependency relation, read off the nodes. *)
Definition depends (spec : WorkflowSpec) (a b : string) : Prop :=
  exists n, n ∈ s_nodes spec /\ n_id n = b /\ a ∈ depIds n.

(** Every dependency names a declared node. *)
Definition closed (spec : WorkflowSpec) : Prop :=
  forall n a, n ∈ s_nodes spec -> a ∈ depIds n -> a ∈ nodeIds spec.

Definition acyclic (R : string -> string -> Prop) : Prop :=
  exists rank : string -> nat, forall a b, R a b -> rank a < rank b.

(** A walk along [R] that comes back to where it started. *)
Fixpoint walk (R : string -> string -> Prop) (x : string) (path : list string) : Prop :=
  match path with
  | [] => True
  | y :: path => R x y /\ walk R y path
  end.
Definition closed_walk (R : string -> string -> Prop) (path : list string) : Prop :=
  exists x rest, path = x :: rest /\ rest <> [] /\ walk R x rest /\ List.last rest x = x.

Lemma last_cons {A} (z d : A) l : List.last (z :: l) d = List.last l z.
Proof. revert z d. induction l as [|v l IH]; intros z d; [done|].
  trans (List.last l v); [apply (IH v d)|symmetry; apply (IH v z)]. Qed.

Lemma walk_app R x l y : walk R x (l ++ [y]) <-> walk R x l /\ R (List.last l x) y.
Proof.
  revert x. induction l as [|z l IH]; intros x; [simpl; naive_solver|].
  rewrite last_cons. simpl. rewrite IH. naive_solver.
Qed.

Lemma walk_rank R (rank : string -> nat) :
  (forall a b, R a b -> rank a < rank b) ->
  forall l x, walk R x l -> rank x <= rank (List.last l x).
Proof.
  intros Hr l. induction l as [|z l IH]; intros x; [done|].
  rewrite last_cons. intros [H1%Hr H2%IH]. lia.
Qed.

Lemma acyclic_no_closed_walk R path : acyclic R -> closed_walk R path -> False.
Proof.
  intros [rank Hr] (x & [|y rest] & -> & Hne & Hw & Hlast); [done|].
  rewrite last_cons in Hlast. destruct Hw as [H1%Hr H2%(walk_rank R rank Hr)].
  rewrite Hlast in H2. lia.
Qed.

(** ** [buildTopology] *)

Section AddDeps.
Context (ids : list string) (nid : string).

Lemma addDeps_spec deps seen t t' :
  addDeps ids nid deps seen t = Ok t' ->
  (forall x, x ∈ ids -> is_Some (successors t !! x)) ->
  (forall k, is_Some (successors t' !! k) <-> is_Some (successors t !! k)) /\
  (forall a b, edge t' a b <->
     edge t a b \/ (b = nid /\ a ∈ dedup_from seen (depId <$> deps))) /\
  (forall k, k <> nid -> indegree t' !! k = indegree t !! k) /\
  default 0%Z (indegree t' !! nid) =
    (default 0%Z (indegree t !! nid) + Z.of_nat (length (dedup_from seen (depId <$> deps))))%Z.
Proof.
  revert seen t. induction deps as [|dep deps IH]; intros seen t; simpl.
  - intros [= ->] _. split_and!; [done|set_solver|done|cbn; lia].
  - destruct (includes ids (depId dep)) eqn:Hin; simpl; [|done].
    apply includes_true in Hin.
    destruct (includes seen (depId dep)) eqn:Hs; [by apply IH|].
    intros Ht Hdom. specialize (IH _ _ Ht) as (H1 & H2 & H3 & H4); simpl in *.
    + intros x Hx. rewrite lookup_alter_is_Some. auto.
    + split_and!.
      * intros k. rewrite H1, lookup_alter_is_Some. done.
      * intros a b. rewrite H2. clear -Hdom Hin. unfold edge, succs. simpl.
        rewrite lookup_alter. case_decide as Hd; [|set_solver].
        subst a. destruct (Hdom _ Hin) as [s ->]. simpl. set_solver.
      * intros k Hk. rewrite H3 by done. by rewrite lookup_insert_ne.
      * rewrite H4, lookup_insert_eq. unfold fmap. cbn. lia.
Qed.

Lemma addDeps_Ok deps seen t :
  (exists t', addDeps ids nid deps seen t = Ok t') <->
  forall d, d ∈ deps -> depId d ∈ ids.
Proof.
  revert seen t. induction deps as [|dep deps IH]; intros seen t; simpl; [set_solver|].
  setoid_rewrite elem_of_cons.
  destruct (includes ids (depId dep)) eqn:Hin; simpl.
  - apply includes_true in Hin. case_match; rewrite IH; naive_solver.
  - apply includes_false in Hin. split; [intros [? [=]]|].
    intros H. destruct Hin. auto.
Qed.
End AddDeps.

Lemma addNodes_spec ids nodes t t' :
  addNodes ids nodes t = Ok t' ->
  (forall x, x ∈ ids -> is_Some (successors t !! x)) ->
  (forall k, is_Some (successors t' !! k) <-> is_Some (successors t !! k)) /\
  (forall a b, edge t' a b <->
     edge t a b \/ exists n, n ∈ nodes /\ n_id n = b /\ a ∈ depIds n) /\
  (forall k, k ∉ n_id <$> nodes -> indegree t' !! k = indegree t !! k) /\
  (NoDup (n_id <$> nodes) -> forall n, n ∈ nodes ->
   default 0%Z (indegree t' !! n_id n) =
    (default 0%Z (indegree t !! n_id n) + Z.of_nat (length (dedup_from [] (depIds n))))%Z).
Proof.
  revert t. induction nodes as [|m nodes IH]; intros t; simpl.
  { intros [= ->] _. split_and!; try done; set_solver. }
  rewrite res_bind_Ok. intros (t1 & Ht1 & Ht') Hdom.
  apply addDeps_spec in Ht1 as (D1 & D2 & D3 & D4); [|done].
  apply IH in Ht' as (N1 & N2 & N3 & N4); [|intros; rewrite D1; auto].
  split_and!.
  - intros k. by rewrite N1, D1.
  - intros a b. rewrite N2, D2, elem_of_dedup_from. setoid_rewrite elem_of_cons. unfold depIds.
    pose proof (not_elem_of_nil a). naive_solver.
  - intros k Hk. rewrite N3, D3 by set_solver. done.
  - intros [Hm Hnd]%NoDup_cons n [->|Hn]%elem_of_cons.
    + rewrite N3 by done. apply D4.
    + rewrite N4 by done. rewrite D3; [done|].
      intros E. destruct Hm. rewrite <- E. by apply list_elem_of_fmap_2.
Qed.

Lemma addNodes_Ok ids nodes t :
  (exists t', addNodes ids nodes t = Ok t') <->
  forall n a, n ∈ nodes -> a ∈ depIds n -> a ∈ ids.
Proof.
  revert t. induction nodes as [|m nodes IH]; intros t; simpl; [set_solver|].
  destruct (addDeps ids (n_id m) (n_dependsOn m) [] t) as [t1|e] eqn:E; simpl.
  - rewrite IH. assert (forall d, d ∈ n_dependsOn m -> depId d ∈ ids) as Hd
      by (rewrite <- (addDeps_Ok _ (n_id m) _ [] t); eauto).
    split; [|set_solver]. intros H n a [->|Hn]%elem_of_cons; [|by eapply H].
    unfold depIds. intros (d & -> & Hdin)%list_elem_of_fmap. auto.
  - split; [intros [? [=]]|]. intros H. exfalso.
    assert (exists t', addDeps ids (n_id m) (n_dependsOn m) [] t = Ok t') as [? ?]; [|congruence].
    apply addDeps_Ok. intros d Hd. apply (H m); [left|]. by apply list_elem_of_fmap_2.
Qed.

Lemma emptyTopology_succ ids k :
  (k ∈ ids -> successors (emptyTopology ids) !! k = Some []) /\
  (k ∉ ids -> successors (emptyTopology ids) !! k = None).
Proof.
  simpl. induction ids as [|i ids [IH1 IH2]]; simpl; [set_solver|]. split.
  - intros Hk. rewrite lookup_insert. case_decide; [done|]. set_solver.
  - intros [? ?]%not_elem_of_cons. rewrite lookup_insert_ne by done. auto.
Qed.
Lemma emptyTopology_indegree ids k : default 0%Z (indegree (emptyTopology ids) !! k) = 0%Z.
Proof.
  simpl. induction ids as [|i ids IH]; simpl; [done|].
  rewrite lookup_insert. by case_decide.
Qed.

(** The built topology is the dependency relation of the spec. *)
Lemma buildTopology_spec spec t :
  buildTopology spec = Ok t ->
  (forall k, is_Some (successors t !! k) <-> k ∈ nodeIds spec) /\
  (forall a b, edge t a b <-> depends spec a b) /\
  (NoDup (nodeIds spec) -> forall n, n ∈ s_nodes spec ->
     default 0%Z (indegree t !! n_id n) = Z.of_nat (length (dedup_from [] (depIds n)))).
Proof.
  intros H. apply addNodes_spec in H as (H1 & H2 & _ & H4).
  - split_and!.
    + intros k. rewrite H1. destruct (emptyTopology_succ (nodeIds spec) k) as [E1 E2].
      destruct (decide (k ∈ nodeIds spec)) as [Hk|Hk].
      * rewrite E1 by done. naive_solver.
      * rewrite E2 by done. split; [by intros []|done].
    + intros a b. rewrite H2. unfold edge, succs.
      destruct (emptyTopology_succ (nodeIds spec) a) as [E1 E2].
      destruct (decide (a ∈ nodeIds spec)) as [Hk|Hk];
        [rewrite E1 by done|rewrite E2 by done]; simpl; set_solver.
    + intros Hnd n Hn. rewrite H4, emptyTopology_indegree by done. lia.
  - intros x Hx. rewrite (proj1 (emptyTopology_succ _ _) Hx). eauto.
Qed.

Lemma buildTopology_Ok spec : (exists t, buildTopology spec = Ok t) <-> closed spec.
Proof. apply addNodes_Ok. Qed.

(** ** The search is correct *)

(** The nodes of [U] without a colour: what bounds the depth of the search. *)
Definition unvisited (U : list string) (c : gmap string colour) : nat :=
  length (filter (fun x => c !! x = None) U).

Lemma unvisited_le U c : unvisited U c <= length U.
Proof. apply length_filter. Qed.
Lemma unvisited_mono U c c' :
  (forall x, c' !! x = None -> c !! x = None) -> unvisited U c' <= unvisited U c.
Proof.
  intros H. unfold unvisited. induction U as [|u U IH]; [done|].
  rewrite !filter_cons. specialize (H u).
  destruct (decide (c' !! u = None)), (decide (c !! u = None)); simpl; try lia. tauto.
Qed.
Lemma unvisited_insert U c id col :
  id ∈ U -> c !! id = None -> unvisited U (<[id := col]> c) < unvisited U c.
Proof.
  intros Hin Hn. unfold unvisited. induction U as [|u U IH]; [set_solver|].
  rewrite !filter_cons. destruct (decide (u = id)) as [->|Hu].
  - rewrite lookup_insert_eq, (decide_False (P := (Some col = None))) by done.
    rewrite (decide_True (P := (c !! id = None))) by done. simpl.
    apply Nat.lt_succ_r, unvisited_mono. intros x. rewrite lookup_insert. by case_decide.
  - rewrite lookup_insert_ne by done. apply elem_of_cons in Hin as [->|Hin]; [done|].
    specialize (IH Hin). case_decide; simpl; lia.
Qed.

(** [U] is the set of nodes; the search never leaves it. *)
Section Search.
Context (t : EdgeTopology) (U : list string) (HU : forall a b, edge t a b -> b ∈ U).

(** Finished nodes in reverse order of finishing: successors come first. *)
Fixpoint ordered (l : list string) : Prop :=
  match l with
  | [] => True
  | x :: l => (x ∉ l) /\ (forall y, edge t x y -> y ∈ l) /\ ordered l
  end.
Definition topo_ok (c : gmap string colour) : Prop :=
  exists order, (forall x, c !! x = Some Finished <-> x ∈ order) /\ ordered order.
Definition in_stack (c : gmap string colour) (stack : list string) : Prop :=
  forall x, c !! x = Some InStack <-> x ∈ stack.
Definition chain (l : list string) : Prop :=
  match l with [] => True | x :: l => walk (edge t) x l end.

(** What a visit that returned [out] guarantees about the colours. *)
Definition visit_post (fuel : nat) (color : gmap string colour) (out : visit_out)
    (target : string -> Prop) : Prop :=
  match out with
  | Found path => closed_walk (edge t) path
  | Clear c =>
      topo_ok c /\ (forall x, c !! x = Some InStack <-> color !! x = Some InStack) /\
      (forall x, color !! x = Some Finished -> c !! x = Some Finished) /\
      (forall x, target x -> c !! x = Some Finished)
  | OutOfFuel => fuel < unvisited U color
  end.

Lemma chain_slice x y stack :
  x ∈ stack -> chain stack -> edge t (List.last stack y) x ->
  closed_walk (edge t) (slice_from x stack ++ [x]).
Proof.
  intros Hin Hc He. induction stack as [|z stack IH]; [set_solver|]. simpl.
  destruct (z === x) eqn:E.
  - apply same_true in E as ->. exists x, (stack ++ [x]). split_and!; [done| | |].
    + by destruct stack.
    + apply walk_app. simpl in Hc. split; [done|]. by rewrite last_cons in He.
    + apply last_last.
  - apply same_false in E. apply elem_of_cons in Hin as [?|Hin]; [done|].
    destruct stack as [|w stack]; [set_solver|].
    apply IH; [done|by destruct Hc|]. rewrite !last_cons in *. done.
Qed.

Lemma topo_ok_finish c id :
  topo_ok c -> c !! id = Some InStack ->
  (forall y, edge t id y -> c !! y = Some Finished) -> topo_ok (<[id := Finished]> c).
Proof.
  intros (order & Ho & Hord) Hid Hs. exists (id :: order). split.
  - intros x. rewrite lookup_insert, elem_of_cons, <- Ho. case_decide; naive_solver.
  - simpl. rewrite <- Ho. split_and!; [congruence| |done]. intros y Hy. apply Ho. auto.
Qed.

Lemma visit_correct fuel : forall id color stack,
  id ∈ U -> color !! id = None -> in_stack color stack -> topo_ok color ->
  chain (stack ++ [id]) ->
  visit_post fuel color (visit t fuel id color stack) (fun x => x = id).
Proof.
  induction fuel as [|fuel IH]; intros id color stack HidU Hid Hst Htopo Hch; simpl.
  { pose proof (unvisited_insert U color id InStack HidU Hid). lia. }
  pose proof (unvisited_insert U color id InStack HidU Hid) as Hdec.
  assert (in_stack (<[id := InStack]> color) (stack ++ [id])) as Hst1.
  { intros x. rewrite lookup_insert, elem_of_app, list_elem_of_singleton, <- (Hst x).
    case_decide; naive_solver. }
  assert (topo_ok (<[id := InStack]> color)) as Htopo1.
  { destruct Htopo as (order & Ho & Hord). exists order. split; [|done].
    intros x. rewrite <- Ho, lookup_insert. case_decide; [|done]. subst. split; congruence. }
  assert (forall y, y ∈ succs t id -> edge t id y) as Hsub by done. revert Hsub.
  assert (forall y, edge t id y -> y ∈ succs t id \/
            <[id := InStack]> color !! y = Some Finished) as Hrest by (by left). revert Hrest.
  assert (forall x, color !! x = Some Finished ->
            <[id := InStack]> color !! x = Some Finished) as Hfin.
  { intros x Hx. rewrite lookup_insert_ne; congruence. }
  assert (unvisited U (<[id := InStack]> color) <= fuel \/ S fuel < unvisited U color) as Hf by lia.
  revert Hst1 Htopo1 Hfin Hf. clear Hdec.
  generalize (<[id := InStack]> color) as c. generalize (succs t id) as nexts.
  induction nexts as [|next nexts IHl]; intros c Hst1 Htopo1 Hfin Hf Hrest Hsub; simpl.
  - assert (c !! id = Some InStack) as Hcid by (apply Hst1; set_solver).
    split_and!.
    + apply topo_ok_finish; [done..|]. intros y Hy. by destruct (Hrest y Hy) as [?%elem_of_nil|].
    + intros x. rewrite lookup_insert. case_decide as Hx; [subst; rewrite Hid; done|].
      rewrite (Hst1 x), (Hst x). set_solver.
    + intros x Hx. rewrite lookup_insert. case_decide; auto.
    + intros x ->. apply lookup_insert_eq.
  - assert (edge t id next) as He by (apply Hsub; left).
    destruct (c !! next) as [[]|] eqn:Hn.
    + eapply (chain_slice next id); [by apply Hst1|done|]. by rewrite last_last.
    + apply IHl; try done; [|set_solver].
      intros y Hy. destruct (Hrest y Hy) as [[->|?]%elem_of_cons|?]; auto.
    + assert (chain ((stack ++ [id]) ++ [next])) as Hch'.
      { clear -Hch He. destruct (stack ++ [id]) as [|z l] eqn:E; [by destruct stack|].
        simpl. apply walk_app. split; [done|]. rewrite <- (last_cons z id), <- E, last_last. done. }
      pose proof (IH next c (stack ++ [id]) (HU _ _ He) Hn Hst1 Htopo1 Hch') as Hv.
      destruct (visit t fuel next c (stack ++ [id])) as [p|c'|]; simpl in Hv |- *; [done| |lia].
      destruct Hv as (V1 & V2 & V3 & V4).
      assert (forall x, c' !! x = None -> c !! x = None) as Hmono.
      { intros x Hx. destruct (c !! x) as [[]|] eqn:E; [|apply V3 in E|done].
        - apply V2 in E. congruence.
        - congruence. }
      apply IHl; try done.
      * intros x. rewrite V2. apply Hst1.
      * intros x Hx. auto.
      * pose proof (unvisited_mono U c c' Hmono). lia.
      * intros y Hy. destruct (Hrest y Hy) as [[->|?]%elem_of_cons|?]; auto.
      * intros y Hy. apply Hsub. by right.
Qed.

Lemma visitAll_correct fuel ids : forall color,
  (forall x, x ∈ ids -> x ∈ U) -> in_stack color [] -> topo_ok color ->
  visit_post fuel color (visitAll t fuel ids color) (fun x => x ∈ ids).
Proof.
  induction ids as [|id ids IH]; intros color HidsU Hst Htopo; simpl.
  { split_and!; [done..|set_solver]. }
  assert (forall x, x ∈ ids -> x ∈ U) as HidsU' by set_solver.
  destruct (color !! id) as [[]|] eqn:Hid.
  - apply Hst in Hid. set_solver.
  - specialize (IH color HidsU' Hst Htopo).
    destruct (visitAll t fuel ids color); simpl in *; [done| |done].
    destruct IH as (V1 & V2 & V3 & V4). split_and!; try done.
    intros x [->|Hx]%elem_of_cons; auto.
  - pose proof (visit_correct fuel id color []) as Hv.
    specialize (Hv ltac:(set_solver) Hid Hst Htopo I).
    destruct (visit t fuel id color []) as [p|c'|]; simpl in Hv |- *; [done| |done].
    destruct Hv as (V1 & V2 & V3 & V4).
    assert (in_stack c' []) as Hst' by (intros x; rewrite V2; apply Hst).
    specialize (IH c' HidsU' Hst' V1).
    destruct (visitAll t fuel ids c') as [p|c2|]; simpl in IH |- *; [done| |].
    + destruct IH as (W1 & W2 & W3 & W4). split_and!; [done| |auto|].
      * intros x. by rewrite W2, V2.
      * intros x [->|Hx]%elem_of_cons; auto.
    + eapply Nat.lt_le_trans; [exact IH|]. apply unvisited_mono.
      intros x Hx. destruct (color !! x) as [[]|] eqn:E; [|apply V3 in E; congruence|done].
      apply V2 in E. congruence.
Qed.

(** Position in the list, as a rank. *)
Fixpoint idx (x : string) (l : list string) : nat :=
  match l with [] => 0 | y :: l => if y === x then 0 else S (idx x l) end.

Lemma ordered_idx order a b :
  ordered order -> a ∈ order -> edge t a b -> idx a order < idx b order.
Proof.
  induction order as [|x l IH]; simpl; [set_solver|].
  intros (Hx & Hs & Hl) Ha He.
  destruct (x === a) eqn:Ea; [apply same_true in Ea as ->|apply same_false in Ea].
  - specialize (Hs b He). destruct (a === b) eqn:Eb; [|lia].
    apply same_true in Eb as ->. done.
  - apply elem_of_cons in Ha as [?|Ha]; [done|]. specialize (IH Hl Ha He).
    destruct (x === b) eqn:Eb; [|lia]. apply same_true in Eb as ->.
    exfalso. destruct Hx. clear -Hl Ha He HU.
    induction l as [|y l IH]; [set_solver|]. destruct Hl as (_ & Hy & Hl).
    apply elem_of_cons in Ha as [->|Ha]; right; auto.
Qed.
End Search.

Lemma walk_iff (R S : string -> string -> Prop) x l :
  (forall a b, R a b <-> S a b) -> walk R x l <-> walk S x l.
Proof. intros H. revert x. induction l as [|y l IH]; intros x; simpl; [done|]. by rewrite H, IH. Qed.

Lemma closed_walk_iff (R S : string -> string -> Prop) p :
  (forall a b, R a b <-> S a b) -> closed_walk R p <-> closed_walk S p.
Proof.
  intros H. unfold closed_walk. repeat (apply exist_proper; intro).
  by rewrite (walk_iff R S).
Qed.

Lemma depends_nodeIds spec a b : closed spec -> depends spec a b -> a ∈ nodeIds spec /\ b ∈ nodeIds spec.
Proof.
  intros Hc (n & Hn & <- & Ha). split; [by eapply Hc|]. by apply list_elem_of_fmap_2.
Qed.

(** The search from every node, on a closed spec, either exhibits a cycle or
    proves there is none; it never runs out of fuel. *)
Lemma search_spec spec t :
  buildTopology spec = Ok t ->
  match visitAll t (searchFuel spec) (nodeIds spec) ∅ with
  | Found p => closed_walk (depends spec) p
  | Clear _ => acyclic (depends spec)
  | OutOfFuel => False
  end.
Proof.
  intros Ht. destruct (buildTopology_spec _ _ Ht) as (Hdom & Hedge & _).
  assert (closed spec) as Hc by (apply buildTopology_Ok; eauto).
  assert (forall a b, edge t a b -> b ∈ nodeIds spec) as HU.
  { intros a b He. apply Hedge in He. by apply (depends_nodeIds spec a b Hc). }
  pose proof (visitAll_correct t (nodeIds spec) HU (searchFuel spec) (nodeIds spec) ∅) as H.
  assert (in_stack (∅ : gmap string colour) []) as Hst by (intros x; rewrite lookup_empty; set_solver).
  assert (topo_ok t (∅ : gmap string colour)) as Htopo
    by (exists []; split; [intros x; rewrite lookup_empty; set_solver|done]).
  specialize (H (fun x Hx => Hx) Hst Htopo).
  destruct (visitAll _ _ _ _) as [p|c|]; simpl in H.
  - by apply (closed_walk_iff _ _ p Hedge).
  - destruct H as ((order & Ho & Hord) & _ & _ & Hall).
    exists (fun x => idx x order). intros a b Hd.
    apply (ordered_idx t (nodeIds spec) HU); [done| |by apply Hedge].
    apply Ho, Hall. by apply (depends_nodeIds spec a b Hc).
  - pose proof (unvisited_le (nodeIds spec) ∅) as Hle. unfold searchFuel in H.
    unfold nodeIds in Hle at 2. rewrite length_fmap in Hle. lia.
Qed.

Lemma detectCycle_fuel spec t :
  buildTopology spec = Ok t -> visitAll t (searchFuel spec) (nodeIds spec) ∅ <> OutOfFuel.
Proof. intros Ht E. pose proof (search_spec spec t Ht) as H. by rewrite E in H. Qed.

Lemma detectCycle_cases spec :
  closed spec ->
  match detectCycle spec with
  | Ok (Some p) => closed_walk (depends spec) p
  | Ok None => acyclic (depends spec)
  | Throw _ => False
  end.
Proof.
  intros [t Ht]%buildTopology_Ok. pose proof (search_spec spec t Ht) as H.
  unfold detectCycle. rewrite Ht. simpl. by destruct (visitAll _ _ _ _).
Qed.

Lemma detectCycle_None spec :
  detectCycle spec = Ok None -> closed spec /\ acyclic (depends spec).
Proof.
  intros H. assert (closed spec) as Hc.
  { apply buildTopology_Ok. unfold detectCycle in H. destruct (buildTopology spec); eauto; done. }
  split; [done|]. pose proof (detectCycle_cases spec Hc) as Hd. by rewrite H in Hd.
Qed.

(** C6: On a spec whose dependencies all name declared nodes, [detectCycle]
    returns [null] exactly when the dependency relation is acyclic (admits a
    rank that grows along every dependency), and a path it returns is a genuine
    closed walk of dependencies. *)
Theorem detectCycle_decides spec (Hclosed : closed spec) :
  (detectCycle spec = Ok None <-> acyclic (depends spec)) /\
  (forall p, detectCycle spec = Ok (Some p) -> closed_walk (depends spec) p).
Proof.
  pose proof (detectCycle_cases spec Hclosed) as H.
  destruct (detectCycle spec) as [[p|]|]; [|split; [done|naive_solver]|done].
  split; [|naive_solver]. split; [done|].
  intros Ha. exfalso. by eapply acyclic_no_closed_walk.
Qed.

Definition node_on (id : string) (deps : list string) : WorkflowNodeSpec :=
  mkNode id "tool.read_file" (JObj []) (OnId <$> deps) None None.
Definition spec_of (nodes : list WorkflowNodeSpec) : WorkflowSpec :=
  mkSpec v0_1 "spec" nodes None None None.
Definition diamond : WorkflowSpec :=
  spec_of [node_on "d" ["b"; "c"]; node_on "b" ["a"]; node_on "c" ["a"; "a"]; node_on "a" []].
Definition ring : WorkflowSpec :=
  spec_of [node_on "r" []; node_on "a" ["r"; "c"]; node_on "b" ["a"]; node_on "c" ["b"]].

Example detectCycle_ring : detectCycle ring = Ok (Some ["a"; "b"; "c"; "a"]).
Proof. vm_compute. reflexivity. Qed.

Lemma ring_closed : closed ring.
Proof. apply buildTopology_Ok. eexists. vm_compute. reflexivity. Qed.

Lemma detectCycle_decides_witness :
  closed ring /\ closed_walk (depends ring) ["a"; "b"; "c"; "a"].
Proof.
  split; [exact ring_closed|].
  apply (proj2 (detectCycle_decides ring ring_closed)). vm_compute. reflexivity.
Defined.
