(* ===== verification/Validation.v ===== *)
(** The validators a spec passes before it is scheduled.

    Models [src/src/workflow/validation/]: [dag-validator], [budget-validator],
    [capability-validator], [side-effect-validator], [schema-validator] and
    their aggregation [validateSpec].  An issue is its [code] together with
    the values its message interpolates. *)
From S2P Require Import Prelude Json WorkflowTypes EdgeStore.

(** src/src/workflow/validation/index.ts # ValidationIssue *)
Inductive ValidationIssue :=
| empty_spec
| duplicate_node_id (id : string)
| unknown_dependency (node dep : string)
| cycle_detected (path : list string)
| too_many_nodes (n : Z)
| invalid_parallel (n : Z)
| unknown_handler (node handler : string)
| write_handler (node handler : string)
| write_node_in_readonly_spec (node handler : string)
| invalid_input_object (node handler : string)
| invalid_input_array (node handler : string).

(** Duplicate ids, in the order of the nodes. *)
Fixpoint duplicateIssues (nodes : list WorkflowNodeSpec) (seen : list string)
    : list ValidationIssue :=
  match nodes with
  | [] => []
  | n :: nodes =>
      (if includes seen (n_id n) then [duplicate_node_id (n_id n)] else []) ++
      duplicateIssues nodes (n_id n :: seen)
  end.

(** Dependencies on undeclared nodes. *)
Definition unknownIssues (spec : WorkflowSpec) : list ValidationIssue :=
  n ← s_nodes spec; dep ← n_dependsOn n;
  if includes (nodeIds spec) (depId dep) then []
  else [unknown_dependency (n_id n) (depId dep)].

(** src/src/workflow/validation/dag-validator.ts # validateDAG *)
Definition validateDAG (spec : WorkflowSpec) : list ValidationIssue :=
  match s_nodes spec with
  | [] => [empty_spec]
  | _ =>
      let issues := duplicateIssues (s_nodes spec) [] ++ unknownIssues spec in
      match unknownIssues spec with
      | _ :: _ => issues
      | [] =>
          match detectCycle spec with
          | Ok (Some path) => issues ++ [cycle_detected path]
          | _ => issues
          end
      end
  end.

(** src/src/workflow/validation/budget-validator.ts # MAX_NODES_PER_SPEC *)
Definition MAX_NODES_PER_SPEC : Z := 200.

(** src/src/workflow/validation/budget-validator.ts # validateBudget *)
Definition validateBudget (nodeCount : Z) (maxParallel : option Z) : list ValidationIssue :=
  (if (MAX_NODES_PER_SPEC <? nodeCount)%Z then [too_many_nodes nodeCount] else []) ++
  match maxParallel with
  | Some p => if (p <? 1)%Z then [invalid_parallel p] else []
  | None => []
  end.

(** src/src/workflow/validation/capability-validator.ts # validateCapabilities *)
Definition validateCapabilities (nodes : list WorkflowNodeSpec)
    (knownHandlers readonlyHandlers : gset string) (mode : option SpecMode)
    : list ValidationIssue :=
  n ← nodes;
  if negb (bool_decide (n_handler n ∈ knownHandlers)) then
    [unknown_handler (n_id n) (n_handler n)]
  else if (default readonly mode === readonly) &&
          negb (bool_decide (n_handler n ∈ readonlyHandlers)) then
    [write_handler (n_id n) (n_handler n)]
  else [].

(** src/src/workflow/validation/side-effect-validator.ts # validateSideEffects *)
Definition validateSideEffects (nodes : list WorkflowNodeSpec)
    (readonlyHandlers : gset string) (mode : SpecMode) : list ValidationIssue :=
  match mode with
  | read_write => []
  | readonly =>
      n ← nodes;
      if negb (bool_decide (n_handler n ∈ readonlyHandlers)) then
        [write_node_in_readonly_spec (n_id n) (n_handler n)]
      else []
  end.

(** src/src/workflow/validation/schema-validator.ts # SchemaContext *)
Inductive InputKind := kind_object | kind_array | kind_any.

(** [Array.isArray] *)
Definition isArray (v : jsval) : bool := match v with JArr _ => true | _ => false end.

(** src/src/workflow/validation/schema-validator.ts # validateSchema *)
Definition validateSchema (nodes : list WorkflowNodeSpec)
    (handlerInputKind : gmap string InputKind) : list ValidationIssue :=
  n ← nodes;
  match default kind_object (handlerInputKind !! n_handler n) with
  | kind_any => []
  | kind_object =>
      if negb (is_object (n_input n)) || isArray (n_input n) then
        [invalid_input_object (n_id n) (n_handler n)] else []
  | kind_array =>
      if negb (isArray (n_input n)) then [invalid_input_array (n_id n) (n_handler n)] else []
  end.

(** src/src/workflow/validation/index.ts # ValidationContext *)
Record ValidationContext := mkValidationContext {
  knownHandlers : gset string;
  readonlyHandlers : gset string;
  handlerInputKind : option (gmap string InputKind);
}.

(** src/src/workflow/validation/index.ts # validateSpec

    The report's [ok] is [issues.length === 0]. *)
Definition validateSpec (spec : WorkflowSpec) (ctx : ValidationContext)
    : bool * list ValidationIssue :=
  let issues :=
    validateDAG spec ++
    validateBudget (Z.of_nat (length (s_nodes spec))) (s_maxParallel spec) ++
    validateCapabilities (s_nodes spec) (knownHandlers ctx) (readonlyHandlers ctx)
      (Some (default readonly (s_mode spec))) ++
    validateSideEffects (s_nodes spec) (readonlyHandlers ctx) (default readonly (s_mode spec)) ++
    validateSchema (s_nodes spec) (default ∅ (handlerInputKind ctx)) in
  (match issues with [] => true | _ => false end, issues).

(** src/src/workflow/validation/index.ts # assertValidSpec *)
Definition assertValidSpec (spec : WorkflowSpec) (ctx : ValidationContext)
    : res (list ValidationIssue) unit :=
  let '(ok, issues) := validateSpec spec ctx in
  if ok then Ok tt else Throw issues.

(** ** What a valid spec is *)

(** A node's input has the shape its handler declares. *)
Definition input_ok (kinds : gmap string InputKind) (n : WorkflowNodeSpec) : Prop :=
  match default kind_object (kinds !! n_handler n) with
  | kind_any => True
  | kind_object => is_object (n_input n) = true /\ isArray (n_input n) = false
  | kind_array => isArray (n_input n) = true
  end.

Definition dag_ok (spec : WorkflowSpec) : Prop :=
  s_nodes spec <> [] /\ NoDup (nodeIds spec) /\ closed spec /\ acyclic (depends spec).

Definition valid_spec (spec : WorkflowSpec) (ctx : ValidationContext) : Prop :=
  dag_ok spec /\
  (length (s_nodes spec) <= 200)%nat /\
  (forall p, s_maxParallel spec = Some p -> (1 <= p)%Z) /\
  (forall n, n ∈ s_nodes spec -> n_handler n ∈ knownHandlers ctx) /\
  (default readonly (s_mode spec) = readonly ->
     forall n, n ∈ s_nodes spec -> n_handler n ∈ readonlyHandlers ctx) /\
  (forall n, n ∈ s_nodes spec -> input_ok (default ∅ (handlerInputKind ctx)) n).

(** A report that is a bind over nodes is empty when every node's part is. *)
Lemma bind_nil {A B} (f : A -> list B) (l : list A) :
  (l ≫= f) = [] <-> forall x, x ∈ l -> f x = [].
Proof.
  induction l as [|x l IH]; simpl; [set_solver|].
  rewrite app_nil, IH. set_solver.
Qed.
Lemma if_nil {A} (b : bool) (x : A) : (if b then [x] else []) = [] <-> b = false.
Proof. by destruct b. Qed.

Lemma duplicateIssues_nil nodes seen :
  duplicateIssues nodes seen = [] <->
  NoDup (n_id <$> nodes) /\ forall x, x ∈ n_id <$> nodes -> x ∉ seen.
Proof.
  revert seen. induction nodes as [|n nodes IH]; intros seen; simpl.
  { split; [intros _; split; [constructor|set_solver]|done]. }
  rewrite app_nil, if_nil, includes_false, IH, NoDup_cons. set_solver.
Qed.

Lemma unknownIssues_nil spec : unknownIssues spec = [] <-> closed spec.
Proof.
  unfold unknownIssues, closed, depIds. rewrite bind_nil.
  setoid_rewrite bind_nil. split.
  - intros H n a Hn (d & -> & Hd)%list_elem_of_fmap. specialize (H n Hn d Hd).
    destruct (includes _ _) eqn:E; [|done]. by apply includes_true in E.
  - intros H n Hn d Hd. specialize (H n _ Hn (list_elem_of_fmap_2 depId _ _ Hd)).
    apply includes_true in H. by rewrite H.
Qed.

Lemma validateDAG_nil spec : validateDAG spec = [] <-> dag_ok spec.
Proof.
  unfold validateDAG, dag_ok. rewrite <- unknownIssues_nil.
  pose proof (duplicateIssues_nil (s_nodes spec) []) as Hdup.
  pose proof (detectCycle_cases spec) as Hcyc. rewrite <- unknownIssues_nil in Hcyc.
  assert (s_nodes spec = [] \/ s_nodes spec <> []) as [Hn|Hn] by (destruct (s_nodes spec); auto).
  { rewrite Hn. naive_solver. }
  destruct (s_nodes spec) as [|n0 ns] eqn:En; [done|]. rewrite <- En in *.
  destruct (unknownIssues spec) as [|i0 iss] eqn:Eu.
  - rewrite app_nil_r. specialize (Hcyc eq_refl).
    assert (NoDup (nodeIds spec) <-> duplicateIssues (s_nodes spec) [] = []) as Hnd
      by (rewrite Hdup; unfold nodeIds; set_solver).
    destruct (detectCycle spec) as [[p|]|]; [|naive_solver|done].
    split; [by intros [_ ?]%app_nil|].
    intros (_ & _ & _ & Ha). by destruct (acyclic_no_closed_walk _ _ Ha Hcyc).
  - split; [by intros [_ ?]%app_nil|]. naive_solver.
Qed.

Lemma validateBudget_nil n p :
  validateBudget n p = [] <-> (n <= 200)%Z /\ forall q, p = Some q -> (1 <= q)%Z.
Proof.
  unfold validateBudget, MAX_NODES_PER_SPEC. rewrite app_nil, if_nil, Z.ltb_ge.
  destruct p as [q|]; [rewrite if_nil, Z.ltb_ge|]; naive_solver.
Qed.

Lemma validateCapabilities_nil nodes known ro mode :
  validateCapabilities nodes known ro mode = [] <->
  forall n, n ∈ nodes -> n_handler n ∈ known /\
    (default readonly mode = readonly -> n_handler n ∈ ro).
Proof.
  unfold validateCapabilities. rewrite bind_nil. apply forall_proper. intros n.
  apply imp_iff; intros _. destruct (default readonly mode);
    repeat case_bool_decide; simpl; naive_solver.
Qed.

Lemma validateSideEffects_nil nodes ro mode :
  validateSideEffects nodes ro mode = [] <->
  (mode = readonly -> forall n, n ∈ nodes -> n_handler n ∈ ro).
Proof.
  unfold validateSideEffects. destruct mode; [|naive_solver].
  rewrite bind_nil. setoid_rewrite if_nil. setoid_rewrite negb_false_iff.
  setoid_rewrite bool_decide_eq_true. naive_solver.
Qed.

Lemma validateSchema_nil nodes kinds :
  validateSchema nodes kinds = [] <-> forall n, n ∈ nodes -> input_ok kinds n.
Proof.
  unfold validateSchema, input_ok. rewrite bind_nil. apply forall_proper. intros n.
  apply imp_iff; intros _.
  destruct (default kind_object _); destruct (n_input n); simpl; naive_solver.
Qed.

Lemma validateSpec_valid spec ctx :
  (validateSpec spec ctx).1 = true <-> valid_spec spec ctx.
Proof.
  assert ((validateSpec spec ctx).1 = true <-> (validateSpec spec ctx).2 = []) as ->
    by (unfold validateSpec; simpl; by case_match).
  unfold validateSpec, valid_spec. simpl.
  rewrite !app_nil, validateDAG_nil, validateBudget_nil, validateCapabilities_nil,
    validateSideEffects_nil, validateSchema_nil. simpl.
  rewrite <- (Nat2Z.inj_le _ 200). naive_solver.
Qed.

(** C7: The aggregated validation report is empty exactly when the spec is
    well formed: it has nodes, distinct ids, known dependencies and no cycle;
    it is within the node and parallelism bounds; every handler is known; in
    read-only mode (the default) every handler is read-only; and every input
    has the shape its handler declares. *)
Theorem validateSpec_ok_iff spec ctx :
  (validateSpec spec ctx).1 = true <-> valid_spec spec ctx.
Proof. apply validateSpec_valid. Qed.

Example validateSpec_diamond :
  (validateSpec diamond (mkValidationContext {["tool.read_file"]} {["tool.read_file"]} None)).1 = true.
Proof. vm_compute. reflexivity. Qed.
Example validateSpec_ring :
  (validateSpec ring (mkValidationContext {["tool.read_file"]} ∅ None)).2 =
  cycle_detected ["a"; "b"; "c"; "a"] ::
    ((fun n => write_handler n "tool.read_file") <$> ["r"; "a"; "b"; "c"]) ++
    ((fun n => write_node_in_readonly_spec n "tool.read_file") <$> ["r"; "a"; "b"; "c"]).
Proof. vm_compute. reflexivity. Qed.
