(* ===== verification/ReadyQueue.v ===== *)
(** Conditional dependencies and the ready queue.

    Models [src/src/workflow/scheduler/dependency-policy.ts] and
    [src/src/workflow/scheduler/ready-queue.ts].  The queue's [Map]s that are
    only looked up are [gmap]s; [byId], which [onDependencyDone] iterates, is
    insertion ordered. *)
From S2P Require Import Prelude Json WorkflowTypes EdgeStore.

(** ** Dependency policy *)

(** src/src/workflow/scheduler/dependency-policy.ts # DEFAULT_DEPENDENCY_WHEN *)
Definition DEFAULT_DEPENDENCY_WHEN : WorkflowDependencyWhen := when_terminal.

Definition legacy (v : SchemaVersion) : bool := match v with v0_2 => false | v0_1 => true end.

(** One entry of [dependsOn], normalized. *)
Definition normalizeEntry (legacy : bool) (dep : DependsEntry) : WorkflowDependency :=
  if legacy then mkDep (depId dep) when_terminal
  else match dep with
       | OnId s => mkDep s DEFAULT_DEPENDENCY_WHEN
       | OnDep d => mkDep (dep_nodeId d) (dep_when d)
       end.

Fixpoint normalizeLoop (legacy : bool) (deps : list DependsEntry) (seen : list string)
    : list WorkflowDependency :=
  match deps with
  | [] => []
  | dep :: deps =>
      let normalized := normalizeEntry legacy dep in
      if includes seen (dep_nodeId normalized) then normalizeLoop legacy deps seen
      else normalized :: normalizeLoop legacy deps (seen ++ [dep_nodeId normalized])
  end.

(** src/src/workflow/scheduler/dependency-policy.ts # normalizeDependencies *)
Definition normalizeDependencies (dependsOn : option (list DependsEntry))
    (schemaVersion : SchemaVersion) : list WorkflowDependency :=
  normalizeLoop (legacy schemaVersion) (default [] dependsOn) [].

(** src/src/workflow/scheduler/dependency-policy.ts # dependencyIds *)
Definition dependencyIds (deps : list WorkflowDependency) : list string := dep_nodeId <$> deps.

(** src/src/workflow/scheduler/dependency-policy.ts # declaredAcceptance *)
Definition declaredAcceptance (result : WorkflowNodeResult) : option string :=
  match field "acceptance" (field "metadata" (r_output result)) with
  | JStr s => Some s
  | _ => None
  end.

(** src/src/workflow/scheduler/dependency-policy.ts # DependencyVerdict *)
Inductive DependencyVerdict := satisfied | pending | unsatisfied.

#[export] Instance verdict_eq_dec : EqDecision DependencyVerdict.
Proof. solve_decision. Defined.

Definition verdict_of (b : bool) : DependencyVerdict := if b then satisfied else unsatisfied.

(** src/src/workflow/scheduler/dependency-policy.ts # dependencySatisfied *)
Definition dependencySatisfied (dep : WorkflowDependency) (result : option WorkflowNodeResult)
    : DependencyVerdict :=
  match result with
  | None => pending
  | Some r =>
      match dep_when dep with
      | when_terminal => satisfied
      | when_succeeded => verdict_of (r_status r === st_done)
      | when_failed => verdict_of (r_status r === st_failed)
      | when_blocked => verdict_of (r_status r === st_blocked)
      | when_accepted =>
          verdict_of ((r_status r === st_done) && (declaredAcceptance r === Some "accepted"))
      | when_rejected =>
          verdict_of ((r_status r === st_done) && (declaredAcceptance r === Some "rejected"))
      end
  end.

(** src/src/workflow/scheduler/dependency-policy.ts # ReadinessEvaluation *)
Inductive ReadinessEvaluation :=
| rd_executable
| rd_blocked (unsatisfied : list WorkflowDependency)
| rd_pending (unsatisfied : list WorkflowDependency).

Fixpoint readinessLoop (deps : list WorkflowDependency)
    (results : string -> option WorkflowNodeResult) (unsat : list WorkflowDependency)
    : ReadinessEvaluation :=
  match deps with
  | [] => match unsat with [] => rd_executable | _ => rd_blocked unsat end
  | dep :: deps =>
      match dependencySatisfied dep (results (dep_nodeId dep)) with
      | pending => rd_pending unsat
      | unsatisfied => readinessLoop deps results (unsat ++ [dep])
      | satisfied => readinessLoop deps results unsat
      end
  end.

(** src/src/workflow/scheduler/dependency-policy.ts # evaluateReadiness *)
Definition evaluateReadiness (deps : list WorkflowDependency)
    (results : string -> option WorkflowNodeResult) : ReadinessEvaluation :=
  readinessLoop deps results [].

(** ** The queue *)

(** src/src/workflow/scheduler/ready-queue.ts # ReadyQueue @19-23 *)
Record ReadyQueue := mkQueue {
  q_remaining : gmap string Z;
  q_byId : list (string * WorkflowNodeSpec);
  q_depsOf : gmap string (list WorkflowDependency);
  q_ready : list string;
}.

(** The first loop of the constructor. *)
Definition registerNode (spec : WorkflowSpec) (t : EdgeTopology) (q : ReadyQueue)
    (node : WorkflowNodeSpec) : ReadyQueue :=
  mkQueue (<[n_id node := default 0%Z (indegree t !! n_id node)]> (q_remaining q))
          (jset (n_id node) node (q_byId q))
          (<[n_id node := normalizeDependencies (Some (n_dependsOn node)) (s_schemaVersion spec)]>
             (q_depsOf q))
          (q_ready q).

(** The second loop: restored nodes are marked, roots are enqueued. *)
Definition enqueueRoot (has : string -> bool) (q : ReadyQueue) (node : WorkflowNodeSpec)
    : ReadyQueue :=
  if has (n_id node) then
    mkQueue (<[n_id node := (-1)%Z]> (q_remaining q)) (q_byId q) (q_depsOf q) (q_ready q)
  else if (default 0 (q_remaining q !! n_id node) =? 0)%Z then
    mkQueue (q_remaining q) (q_byId q) (q_depsOf q) (q_ready q ++ [n_id node])
  else q.

(** src/src/workflow/scheduler/ready-queue.ts # ReadyQueue.constructor

    [has] is [store.has]. *)
Definition newReadyQueue (spec : WorkflowSpec) (has : string -> bool) : res topo_error ReadyQueue :=
  t ← buildTopology spec;
  Ok (fold_left (enqueueRoot has) (s_nodes spec)
        (fold_left (registerNode spec t) (s_nodes spec) (mkQueue ∅ [] ∅ []))).

(** src/src/workflow/scheduler/ready-queue.ts # ReadyQueue.depsOfNode *)
Definition depsOfNode (q : ReadyQueue) (id : string) : list WorkflowDependency :=
  default [] (q_depsOf q !! id).

(** src/src/workflow/scheduler/ready-queue.ts # ReadyQueue.next

    [shift] then look up; the empty string is falsy, so an id that is the empty
    string is dropped and [undefined] returned. *)
Definition next (q : ReadyQueue) : option WorkflowNodeSpec * ReadyQueue :=
  match q_ready q with
  | [] => (None, q)
  | id :: ready =>
      let q := mkQueue (q_remaining q) (q_byId q) (q_depsOf q) ready in
      if id === "" then (None, q) else (jget id (q_byId q), q)
  end.

(** The body of [onDependencyDone]'s loop for one node. *)
Definition relaxNode (depId : string) (q : ReadyQueue) (node : WorkflowNodeSpec) : ReadyQueue :=
  if q_remaining q !! n_id node === Some (-1)%Z then q
  else if existsb (fun d => dep_nodeId d === depId) (default [] (q_depsOf q !! n_id node)) then
    let deg := (default 0 (q_remaining q !! n_id node) - 1)%Z in
    mkQueue (<[n_id node := deg]> (q_remaining q)) (q_byId q) (q_depsOf q)
            (if (deg =? 0)%Z then q_ready q ++ [n_id node] else q_ready q)
  else q.

(** src/src/workflow/scheduler/ready-queue.ts # ReadyQueue.onDependencyDone *)
Definition onDependencyDone (depId : string) (q : ReadyQueue) : ReadyQueue :=
  fold_left (relaxNode depId) (jvalues (q_byId q)) q.

(** src/src/workflow/scheduler/ready-queue.ts # ReadyQueue.hasReady *)
Definition hasReady (q : ReadyQueue) : bool := match q_ready q with [] => false | _ => true end.

(** src/src/workflow/scheduler/ready-queue.ts # ReadyQueue.consumedCount *)
Definition consumedCount (q : ReadyQueue) : nat :=
  length (filter (fun kv => kv.2 = (-1)%Z) (map_to_list (q_remaining q))).

(** ** The queue's invariant

    [D] is the set of nodes whose completion has been announced
    ([onDependencyDone] was called), [popped] what [next] has handed out. *)
Definition openDeps (D : gset string) (n : WorkflowNodeSpec) : list string :=
  filter (fun d => d ∉ D) (dedup_from [] (depIds n)).

Record queue_inv (spec : WorkflowSpec) (D : gset string) (popped : list string) (q : ReadyQueue)
    : Prop := {
  qi_byId : q_byId q = (fun n => (n_id n, n)) <$> s_nodes spec;
  qi_depsOf n : n ∈ s_nodes spec ->
    q_depsOf q !! n_id n = Some (normalizeDependencies (Some (n_dependsOn n)) (s_schemaVersion spec));
  qi_remaining n : n ∈ s_nodes spec ->
    q_remaining q !! n_id n = Some (Z.of_nat (length (openDeps D n)));
  qi_nodup : NoDup (q_ready q ++ popped);
  qi_ready x : x ∈ q_ready q ++ popped <->
    exists n, n ∈ s_nodes spec /\ n_id n = x /\ openDeps D n = [];
}.

Lemma normalizeLoop_ids lg deps seen :
  dependencyIds (normalizeLoop lg deps seen) = dedup_from seen (depId <$> deps).
Proof.
  revert seen. induction deps as [|d deps IH]; intros seen; simpl; [done|].
  assert (dep_nodeId (normalizeEntry lg d) = depId d) as -> by (destruct lg, d; done).
  case_match; [apply IH|]. unfold dependencyIds in *. rewrite fmap_cons, IH.
  f_equal. by destruct lg, d.
Qed.

(** The dependency list the queue keeps names exactly the node's dependencies, each once. *)
Lemma normalize_ids v n :
  dependencyIds (normalizeDependencies (Some (n_dependsOn n)) v) = dedup_from [] (depIds n).
Proof. apply normalizeLoop_ids. Qed.

Lemma openDeps_nil D n : openDeps D n = [] <-> forall d, d ∈ depIds n -> d ∈ D.
Proof.
  unfold openDeps. split.
  - intros H d Hd. destruct (decide (d ∈ D)) as [|Hn]; [done|].
    assert (d ∈ filter (fun d => d ∉ D) (dedup_from [] (depIds n))) as Hin; [|rewrite H in Hin; set_solver].
    apply list_elem_of_filter. split; [done|]. apply elem_of_dedup_from. set_solver.
  - intros H. destruct (filter _ _) as [|d l] eqn:E; [done|].
    assert (d ∈ filter (fun d => d ∉ D) (dedup_from [] (depIds n))) as Hin by (rewrite E; left).
    apply list_elem_of_filter in Hin as [Hd Hin%elem_of_dedup_from]. naive_solver.
Qed.

Lemma openDeps_nonneg D n : Z.of_nat (length (openDeps D n)) <> (-1)%Z.
Proof. lia. Qed.

(** Announcing one more dependency closes at most that one. *)
Lemma openDeps_add D d n :
  d ∉ D ->
  length (openDeps D n) =
  (if decide (d ∈ depIds n) then 1 else 0) + length (openDeps ({[d]} ∪ D) n).
Proof.
  intros HdD. unfold openDeps.
  assert (forall l : list string, NoDup l ->
    length (filter (fun x => x ∉ D) l) =
    (if decide (d ∈ l) then 1 else 0) + length (filter (fun x => x ∉ {[d]} ∪ D) l)) as Hgen.
  { induction 1 as [|x l Hx Hnd IH]; [done|]. rewrite !filter_cons.
    destruct (decide (x = d)) as [->|Hne].
    - rewrite (decide_True (P := d ∉ D)), (decide_False (P := d ∉ {[d]} ∪ D)) by set_solver.
      rewrite (decide_True (P := d ∈ d :: l)) by left. simpl. rewrite IH.
      by rewrite (decide_False (P := d ∈ l)).
    - assert (x ∉ {[d]} ∪ D <-> x ∉ D) as Hx' by set_solver.
      assert (d ∈ x :: l <-> d ∈ l) as Hd' by set_solver.
      rewrite (decide_ext _ _ _ _ Hd'). repeat case_decide; simpl in *; try lia; tauto. }
  rewrite Hgen by apply NoDup_dedup_from. f_equal.
  assert (d ∈ dedup_from [] (depIds n) <-> d ∈ depIds n) as Hd by (rewrite elem_of_dedup_from; set_solver).
  by rewrite (decide_ext _ _ _ _ Hd).
Qed.

(** ** Construction *)

Lemma registerNodes_spec spec t nodes : forall q,
  NoDup (jkeys (q_byId q) ++ (n_id <$> nodes)) ->
  let q' := fold_left (registerNode spec t) nodes q in
  q_byId q' = q_byId q ++ ((fun n => (n_id n, n)) <$> nodes) /\
  q_ready q' = q_ready q /\
  (forall k, k ∉ n_id <$> nodes ->
     q_remaining q' !! k = q_remaining q !! k /\ q_depsOf q' !! k = q_depsOf q !! k) /\
  (forall n, n ∈ nodes ->
     q_depsOf q' !! n_id n = Some (normalizeDependencies (Some (n_dependsOn n)) (s_schemaVersion spec)) /\
     q_remaining q' !! n_id n = Some (default 0%Z (indegree t !! n_id n))).
Proof.
  induction nodes as [|m nodes IH]; intros q Hnd; simpl.
  { rewrite app_nil_r. set_solver. }
  rewrite fmap_cons in Hnd.
  assert (n_id m ∉ jkeys (q_byId q)) as Hm.
  { apply NoDup_app in Hnd as (_ & Hd & _). intros ?. by eapply Hd; [|left]. }
  assert (jset (n_id m) m (q_byId q) = q_byId q ++ [(n_id m, m)]) as Hset.
  { clear -Hm. revert Hm. induction (q_byId q) as [|[k v] l IH]; [done|].
    intros Hm. simpl in *. destruct (k === n_id m) eqn:E; reflect; [set_solver|].
    rewrite IH; [done|set_solver]. }
  destruct (IH (registerNode spec t q m)) as (H1 & H2 & H3 & H4).
  { simpl. rewrite Hset. unfold jkeys. rewrite fmap_app. simpl. by rewrite <- app_assoc. }
  simpl in *. rewrite H1, H2, Hset, <- app_assoc. split_and!; [done..| |].
  - intros k [Hk1 Hk2]%not_elem_of_cons. destruct (H3 k Hk2) as [-> ->].
    by rewrite !lookup_insert_ne.
  - intros n [->|Hn]%elem_of_cons; [|by apply H4].
    destruct (H3 (n_id m)) as [-> ->]; [|by rewrite !lookup_insert_eq].
    apply NoDup_app in Hnd as (_ & _ & Hnd). by apply NoDup_cons in Hnd as [? _].
Qed.

(** A restored store is empty when the queue is built: only roots are enqueued. *)
Lemma enqueueRoots_spec nodes : forall q,
  let q' := fold_left (enqueueRoot (fun _ => false)) nodes q in
  q_byId q' = q_byId q /\ q_depsOf q' = q_depsOf q /\ q_remaining q' = q_remaining q /\
  q_ready q' = q_ready q ++ filter (fun id => default 0%Z (q_remaining q !! id) = 0%Z) (n_id <$> nodes).
Proof.
  induction nodes as [|m nodes IH]; intros q; simpl; [by rewrite app_nil_r|].
  destruct (IH (enqueueRoot (fun _ => false) q m)) as (-> & -> & -> & ->).
  unfold enqueueRoot. simpl. rewrite filter_cons.
  destruct (default 0%Z (q_remaining q !! n_id m) =? 0)%Z eqn:E; reflect; case_decide; try lia; simpl.
  - by rewrite <- app_assoc.
  - done.
Qed.

Lemma newReadyQueue_inv spec q :
  NoDup (nodeIds spec) -> newReadyQueue spec (fun _ => false) = Ok q -> queue_inv spec ∅ [] q.
Proof.
  intros Hnd Hq. apply res_bind_Ok in Hq as (t & Ht & [= <-]).
  destruct (buildTopology_spec spec t Ht) as (_ & _ & Hin). specialize (Hin Hnd).
  destruct (registerNodes_spec spec t (s_nodes spec) (mkQueue ∅ [] ∅ [])) as (H1 & H2 & _ & H4).
  { done. }
  destruct (enqueueRoots_spec (s_nodes spec)
    (fold_left (registerNode spec t) (s_nodes spec) (mkQueue ∅ [] ∅ []))) as (E1 & E2 & E3 & E4).
  assert (forall n, openDeps ∅ n = dedup_from [] (depIds n)) as Hopen.
  { intros n. unfold openDeps. clear. induction (dedup_from [] (depIds n)) as [|x l IH]; [done|].
    rewrite filter_cons_True by set_solver. by rewrite IH. }
  split.
  - by rewrite E1, H1.
  - intros n Hn. rewrite E2. by apply H4.
  - intros n Hn. rewrite E3, (proj2 (H4 n Hn)), Hin, Hopen by done. done.
  - rewrite app_nil_r, E4, H2. simpl. by apply NoDup_filter.
  - intros x. rewrite app_nil_r, E4, H2. simpl. rewrite list_elem_of_filter, list_elem_of_fmap. split.
    + intros [Hx (n & -> & Hn)]. exists n. split_and!; [done..|].
      rewrite (proj2 (H4 n Hn)), Hin in Hx by done. simpl in Hx.
      rewrite Hopen. apply nil_length_inv. lia.
    + intros (n & Hn & <- & Ho). rewrite Hopen in Ho. split; [|eauto].
      rewrite (proj2 (H4 n Hn)), Hin, Ho by done. done.
Qed.

(** ** Operations *)

Lemma next_inv spec D popped q node q' :
  queue_inv spec D popped q -> "" ∉ nodeIds spec -> next q = (node, q') ->
  match node with
  | Some n => n ∈ s_nodes spec /\ queue_inv spec D (n_id n :: popped) q' /\
              (n_id n ∉ popped) /\ openDeps D n = [] /\ q_ready q = n_id n :: q_ready q'
  | None => q_ready q = [] /\ q' = q
  end.
Proof.
  intros [Hb Hd Hr Hnd Hq] Hempty Hn. unfold next in Hn.
  destruct (q_ready q) as [|id ready] eqn:E; simplify_eq/=; [done|].
  assert (exists n, n ∈ s_nodes spec /\ n_id n = id /\ openDeps D n = []) as (n & Hn1 & <- & Ho).
  { apply Hq. left. }
  destruct (n_id n === "") eqn:E0; reflect.
  { destruct Hempty. rewrite <- E0. by apply list_elem_of_fmap_2. }
  simplify_eq/=.
  assert (exists m, jget (n_id n) (q_byId q) = Some m /\ m ∈ s_nodes spec /\ n_id m = n_id n)
    as (m & -> & Hm & Hid).
  { destruct (jget (n_id n) (q_byId q)) as [m|] eqn:Eg.
    - exists m. split; [done|]. apply jget_elem in Eg. rewrite Hb in Eg.
      apply list_elem_of_fmap in Eg as (? & [= ? ->] & ?). done.
    - apply jget_None in Eg. destruct Eg. unfold jkeys. rewrite Hb, <- list_fmap_compose.
      change (n_id n ∈ n_id <$> s_nodes spec). by apply list_elem_of_fmap_2. }
  simpl in *. apply NoDup_cons in Hnd as [Hni Hnd].
  assert (openDeps D m = []) as Ho'.
  { pose proof (Hr m Hm) as Hrm. rewrite Hid, (Hr n Hn1), Ho in Hrm. simplify_eq/=.
    apply nil_length_inv. lia. }
  rewrite Hid. split_and!; [done| |set_solver|done|done].
  split; simpl; [done..| |].
  - rewrite <- Permutation_middle. by constructor.
  - intros x. rewrite <- Hq. set_solver.
Qed.

Section Relax.
Context (spec : WorkflowSpec) (D : gset string) (d : string) (HdD : d ∉ D).

Lemma existsb_depsOf n v :
  existsb (fun x => dep_nodeId x === d) (normalizeDependencies (Some (n_dependsOn n)) v) =
  bool_decide (d ∈ depIds n).
Proof.
  apply eq_bool_prop_intro. rewrite bool_decide_spec.
  rewrite Is_true_true, existsb_exists. setoid_rewrite same_eq.
  setoid_rewrite <- list_elem_of_In.
  trans (d ∈ dependencyIds (normalizeDependencies (Some (n_dependsOn n)) v)).
  - unfold dependencyIds. rewrite list_elem_of_fmap. naive_solver.
  - rewrite normalize_ids, elem_of_dedup_from. set_solver.
Qed.

(** The state of the announcement loop between nodes: the nodes of [todo]
    still have the old in-degrees, the others the new ones. *)
Record relax_inv (q0 : ReadyQueue) (todo : list WorkflowNodeSpec) (q : ReadyQueue) : Prop := {
  ri_byId : q_byId q = q_byId q0;
  ri_depsOf : q_depsOf q = q_depsOf q0;
  ri_todo n : n ∈ s_nodes spec -> n ∈ todo ->
    q_remaining q !! n_id n = Some (Z.of_nat (length (openDeps D n)));
  ri_done n : n ∈ s_nodes spec -> n ∉ todo ->
    q_remaining q !! n_id n = Some (Z.of_nat (length (openDeps ({[d]} ∪ D) n)));
  ri_ready : exists new, q_ready q = q_ready q0 ++ new /\ NoDup new /\
    (forall x, x ∈ new <-> exists n, n ∈ s_nodes spec /\ (n ∉ todo) /\ n_id n = x /\
       d ∈ depIds n /\ openDeps ({[d]} ∪ D) n = []);
}.

Lemma relaxNode_step q0 todo n q :
  NoDup (nodeIds spec) ->
  (forall m, m ∈ s_nodes spec -> q_depsOf q0 !! n_id m =
     Some (normalizeDependencies (Some (n_dependsOn m)) (s_schemaVersion spec))) ->
  n ∈ s_nodes spec -> n ∉ todo ->
  relax_inv q0 (n :: todo) q -> relax_inv q0 todo (relaxNode d q n).
Proof.
  intros Hnd Hdeps Hn Hnt [Hb Hd Ht Hdn (new & Hr & Hnew & Hx)].
  assert (forall m, m ∈ s_nodes spec -> n_id m = n_id n -> m = n) as Hinj.
  { intros m Hm Hid. pose proof (nodeById_elem spec m Hnd Hm) as E1.
    rewrite Hid, nodeById_elem in E1 by done. congruence. }
  pose proof (openDeps_add D d n HdD) as Hlen.
  assert (q_remaining q !! n_id n = Some (Z.of_nat (length (openDeps D n)))) as Hrn
    by (apply Ht; [done|left]).
  unfold relaxNode. rewrite Hrn. unfold same at 1. rewrite bool_decide_false by (intros [=]; lia).
  rewrite Hd, (Hdeps n Hn). simpl. rewrite existsb_depsOf. case_bool_decide as Hdn'.
  - rewrite decide_True in Hlen by done.
    replace (Z.of_nat (length (openDeps D n)) - 1)%Z
      with (Z.of_nat (length (openDeps ({[d]} ∪ D) n))) by lia.
    split; simpl; [done..| | |].
    + intros m Hm Hmt. rewrite lookup_insert_ne; [apply Ht; [done|by right]|].
      intros Heq. apply Hnt. by rewrite <- (Hinj m).
    + intros m Hm Hmt. destruct (decide (n_id m = n_id n)) as [->%(Hinj m Hm)|Hne]; [by rewrite lookup_insert_eq|].
      rewrite lookup_insert_ne by done.
      apply Hdn; [done|]. rewrite elem_of_cons. intros [->|]; done.
    + destruct (Z.of_nat (length (openDeps ({[d]} ∪ D) n)) =? 0)%Z eqn:E0; reflect.
      * exists (new ++ [n_id n]). rewrite Hr, <- app_assoc. split_and!; [done| |].
        -- apply NoDup_app. split_and!; [done| |apply NoDup_singleton].
           intros y (m & Hm & Hmt & <- & _)%Hx Hy%list_elem_of_singleton.
           apply Hmt. rewrite (Hinj m) by done. left.
        -- intros x. rewrite elem_of_app, list_elem_of_singleton, Hx. split.
           ++ intros [(m & ? & Hmt & ?)| ->]; [exists m; set_solver|].
              exists n. split_and!; [done..|]. apply nil_length_inv. lia.
           ++ intros (m & Hm & Hmt & <- & ?). destruct (decide (n_id m = n_id n)) as [->%(Hinj m Hm)|]; [by right|].
              left. exists m. rewrite elem_of_cons. split_and!; naive_solver.
      * exists new. split_and!; [done..|]. intros x. rewrite Hx. split.
        -- intros (m & ? & Hmt & ?). exists m. set_solver.
        -- intros (m & ? & Hmt & <- & ? & Ho). exists m. split_and!; try done.
           apply not_elem_of_cons. split; [intros ->; rewrite Ho in E0; simpl in E0; lia|done].
  - rewrite decide_False in Hlen by done. split; simpl; [done..| | |].
    + intros m Hm Hmt. apply Ht; [done|by right].
    + intros m Hm Hmt. destruct (decide (n_id m = n_id n)) as [->%(Hinj m Hm)|Hne]; [rewrite Hrn, Hlen; done|].
      apply Hdn; [done|]. rewrite elem_of_cons. intros [->|]; done.
    + exists new. split_and!; [done..|]. intros x. rewrite Hx. split.
      * intros (m & ? & Hmt & ?). exists m. set_solver.
      * intros (m & ? & Hmt & <- & ? & Ho). exists m. split_and!; try done.
        apply not_elem_of_cons. split; [intros ->; done|done].
Qed.

Lemma relaxNodes_spec q0 todo : forall q,
  NoDup (nodeIds spec) ->
  (forall m, m ∈ s_nodes spec -> q_depsOf q0 !! n_id m =
     Some (normalizeDependencies (Some (n_dependsOn m)) (s_schemaVersion spec))) ->
  NoDup todo -> (forall n, n ∈ todo -> n ∈ s_nodes spec) ->
  relax_inv q0 todo q -> relax_inv q0 [] (fold_left (relaxNode d) todo q).
Proof.
  induction todo as [|n todo IH]; intros q Hnd Hdeps Hndt Hsub Hinv; [done|].
  apply NoDup_cons in Hndt as [Hnt Hndt]. simpl. apply IH; [done..|set_solver|].
  apply relaxNode_step; try done. apply Hsub. left.
Qed.
End Relax.

Lemma onDependencyDone_inv spec D popped q d :
  NoDup (nodeIds spec) -> d ∉ D ->
  queue_inv spec D popped q -> queue_inv spec ({[d]} ∪ D) popped (onDependencyDone d q).
Proof.
  intros Hnd HdD [Hb Hd Hr Hndr Hq].
  assert (jvalues (q_byId q) = s_nodes spec) as Hv.
  { rewrite Hb. unfold jvalues. rewrite <- list_fmap_compose. apply list_fmap_id. }
  destruct (relaxNodes_spec spec D d HdD q (s_nodes spec) q Hnd Hd) as [H1 H2 _ H4 (new & H5 & H6 & H7)].
  - by eapply NoDup_fmap_1.
  - done.
  - split; [done|done|auto|naive_solver|]. exists []. rewrite app_nil_r.
    split_and!; [done|constructor|set_solver].
  - unfold onDependencyDone. rewrite Hv. split.
    + by rewrite H1.
    + intros n Hn. rewrite H2. auto.
    + intros n Hn. apply H4; set_solver.
    + rewrite H5, <- app_assoc, Permutation_app_swap_app. apply NoDup_app. split_and!; [done| |done].
      intros x (n & Hn & _ & <- & Hdn & _)%H7 (m & Hm & Hid & Ho)%Hq.
      pose proof (nodeById_elem spec m Hnd Hm) as E. rewrite Hid, nodeById_elem in E by done.
      simplify_eq. by apply HdD, (proj1 (openDeps_nil D m) Ho).
    + intros x. rewrite H5, <- app_assoc, Permutation_app_swap_app, elem_of_app, H7, Hq. split.
      * intros [(n & ? & _ & ? & _ & ?)|(n & ? & ? & Ho)]; [by exists n|].
        exists n. split_and!; [done..|]. apply openDeps_nil. intros y Hy.
        apply elem_of_union_r. by apply (proj1 (openDeps_nil D n) Ho).
      * intros (n & Hn & <- & Ho). destruct (decide (d ∈ depIds n)).
        -- left. exists n. split_and!; set_solver.
        -- right. exists n. split_and!; [done..|]. apply openDeps_nil. intros y Hy.
           pose proof (proj1 (openDeps_nil _ n) Ho y Hy). set_solver.
Qed.

(** Nothing ready and everything popped announced: by induction along the
    acyclic dependency relation, every node has been popped. *)
Lemma queue_drained spec D q popped :
  closed spec -> acyclic (depends spec) -> queue_inv spec D popped q ->
  q_ready q = [] -> (forall x, x ∈ popped -> x ∈ D) ->
  forall x, x ∈ nodeIds spec -> x ∈ D.
Proof.
  intros Hc [rank Hrank] Hinv Hready Hpop x Hx.
  remember (rank x) as k eqn:Hk. revert x Hx Hk.
  induction k as [k IH] using lt_wf_ind. intros x Hx ->.
  apply Hpop. unfold nodeIds in Hx. apply list_elem_of_fmap in Hx as (n & -> & Hn).
  change popped with ([] ++ popped). rewrite <- Hready. apply (qi_ready _ _ _ _ Hinv).
  exists n. split_and!; [done..|]. apply openDeps_nil. intros d Hd.
  apply (IH (rank d)); [apply Hrank; by exists n|by eapply Hc|done].
Qed.

(** Under the invariant every popped node finds the results of its
    dependencies present, so readiness is never undecided. *)
Lemma readinessLoop_pending deps results unsat l :
  (forall d, d ∈ dependencyIds deps -> is_Some (results d)) ->
  readinessLoop deps results unsat <> rd_pending l.
Proof.
  revert unsat. induction deps as [|d deps IH]; intros unsat Hres; simpl; [by destruct unsat|].
  unfold dependencyIds in Hres. rewrite fmap_cons in Hres.
  destruct (Hres (dep_nodeId d)) as [r Hr]; [left|]. rewrite Hr. unfold dependencySatisfied.
  destruct (dep_when d); unfold verdict_of; cases; apply IH; set_solver.
Qed.

Lemma readinessLoop_executable deps results unsat :
  readinessLoop deps results unsat = rd_executable ->
  unsat = [] /\ forall d, d ∈ deps -> dependencySatisfied d (results (dep_nodeId d)) = satisfied.
Proof.
  revert unsat. induction deps as [|d deps IH]; intros unsat; simpl.
  - destruct unsat; [set_solver|done].
  - destruct (dependencySatisfied d _) eqn:E; [|done|].
    + intros [-> H]%IH. split; [done|]. intros x [->|?]%elem_of_cons; auto.
    + intros [H _]%IH. by destruct unsat.
Qed.
