(* ===== verification/Paths.v ===== *)
(** POSIX paths ([node:path]) and the ownership policy built on them.

    The first part writes out what the source uses of [node:path] on a POSIX
    host; the second models [src/src/workflow/agents/ownership-policy.ts] and
    the enforcement of [src/src/workflow/execution/workflow-execution-context.ts].
    The file system behind [existsSync] and [realpathSync] is a parameter. *)
From Stdlib Require Import Ascii.
From S2P Require Import Prelude Json WorkflowTypes.

(** ** [node:path] *)

Definition is_sep (c : ascii) : bool := c === "/"%char.

(** [String.prototype.toLowerCase] on ASCII. *)
Definition lower_char (c : ascii) : ascii :=
  if in_range 65 90 c then ascii_of_nat (nat_of_ascii c + 32) else c.
Fixpoint lower (s : string) : string :=
  match s with EmptyString => EmptyString | String c s => String (lower_char c) (lower s) end.

(** [s.startsWith(p)] *)
Fixpoint startsWith (s p : string) : bool :=
  match p, s with
  | EmptyString, _ => true
  | String c p, String d s => (d === c) && startsWith s p
  | String _ _, EmptyString => false
  end.

(** [s.endsWith(p)] *)
Fixpoint endsWith (s p : string) : bool :=
  (s === p) || match s with EmptyString => false | String _ s => endsWith s p end.

(** [k === rootKey || k.startsWith(rootKey + sep)] *)
Definition under (rootKey k : string) : bool := (k === rootKey) || startsWith k (rootKey +:+ "/").

(** The segments between separators, as [split("/")] gives them. *)
Fixpoint split_path (s : string) : list string :=
  match s with
  | EmptyString => [""]
  | String c s =>
      if is_sep c then "" :: split_path s
      else match split_path s with
           | x :: xs => String c x :: xs
           | [] => [String c ""]
           end
  end.

(** [normalizeString]: the kept segments, most recent first. *)
Fixpoint norm_segs (allowAbove : bool) (segs acc : list string) : list string :=
  match segs with
  | [] => rev acc
  | seg :: segs =>
      if (seg === "") || (seg === ".") then norm_segs allowAbove segs acc
      else if seg === ".." then
        match acc with
        | [] => norm_segs allowAbove segs (if allowAbove then [".."] else [])
        | top :: acc' =>
            if top === ".." then norm_segs allowAbove segs (".." :: acc)
            else norm_segs allowAbove segs acc'
        end
      else norm_segs allowAbove segs (seg :: acc)
  end.

Definition isAbsolute (p : string) : bool :=
  match p with String c _ => is_sep c | EmptyString => false end.
Fixpoint ends_with_sep (p : string) : bool :=
  match p with
  | EmptyString => false
  | String c EmptyString => is_sep c
  | String _ p => ends_with_sep p
  end.

Definition path_normalize (p : string) : string :=
  if p === "" then "."
  else
    let body := js_join "/" (norm_segs (negb (isAbsolute p)) (split_path p) []) in
    if body === "" then (if isAbsolute p then "/" else if ends_with_sep p then "./" else ".")
    else (if isAbsolute p then "/" else "") +:+ body +:+ (if ends_with_sep p then "/" else "").

(** The segments of [resolve(cwd, ...parts)] for an absolute [cwd]: from the
    right, up to the first absolute part. *)
Fixpoint resolve_from (cwd : string) (parts : list string) : string :=
  match parts with
  | [] => cwd
  | p :: parts =>
      if p === "" then resolve_from cwd parts
      else if isAbsolute p then p else resolve_from cwd parts +:+ "/" +:+ p
  end.
Definition resolve_segs (cwd : string) (parts : list string) : list string :=
  norm_segs false (split_path (resolve_from cwd (rev parts))) [].
Definition abs_path (segs : list string) : string := "/" +:+ js_join "/" segs.
Definition path_resolve (cwd : string) (parts : list string) : string :=
  abs_path (resolve_segs cwd parts).

Definition path_join (a b : string) : string :=
  if a === "" then (if b === "" then "." else path_normalize b)
  else if b === "" then path_normalize a else path_normalize (a +:+ "/" +:+ b).

Fixpoint strip_common (xs ys : list string) : list string * list string :=
  match xs, ys with
  | x :: xs', y :: ys' => if x === y then strip_common xs' ys' else (xs, ys)
  | _, _ => (xs, ys)
  end.
Definition path_relative (cwd from to : string) : string :=
  let '(up, down) := strip_common (resolve_segs cwd [from]) (resolve_segs cwd [to]) in
  js_join "/" (map (fun _ => "..") up ++ down).

(** The parent of an absolute path given by its segments. *)
Definition parent_segs (segs : list string) : list string := removelast segs.

(** ** Lemmas *)

(** A resolved path holds no empty, dot or dot-dot segment. *)
Definition plain_seg (s : string) : Prop := s <> "" /\ s <> "." /\ s <> "..".

Lemma norm_segs_plain segs : forall acc,
  Forall plain_seg acc -> Forall plain_seg (norm_segs false segs acc).
Proof.
  induction segs as [|seg segs IH]; intros acc Hacc; simpl.
  { rewrite <- (Permutation_rev acc). done. }
  destruct ((seg === "") || (seg === ".")) eqn:E1; [by apply IH|]. reflect.
  destruct (seg === "..") eqn:E2; reflect.
  - destruct acc as [|top acc]; [by apply IH|]. apply Forall_cons in Hacc as [Ht Hacc].
    destruct (top === "..") eqn:E3; reflect; [|by apply IH]. by destruct Ht as (_ & _ & []).
  - apply IH. by constructor.
Qed.

Lemma resolve_plain cwd parts : Forall plain_seg (resolve_segs cwd parts).
Proof. by apply norm_segs_plain. Qed.

Lemma split_path_noslash s : Forall (fun x => has_char "/"%char x = false) (split_path s).
Proof.
  induction s as [|c s IH]; simpl; [by repeat constructor|].
  unfold is_sep. destruct (c === "/"%char) eqn:E; [by constructor|].
  destruct (split_path s) as [|x xs]; [by repeat constructor; simpl; rewrite E|].
  apply Forall_cons in IH as [Hx Hxs]. constructor; [|done]. simpl. by rewrite E.
Qed.

Lemma split_path_app s t : split_path (s +:+ "/" +:+ t) = split_path s ++ split_path t.
Proof.
  induction s as [|c s IH]; [done|]. simpl. rewrite IH.
  destruct (is_sep c); [done|]. destruct (split_path s) eqn:E; [|done].
  by destruct s; simpl in E; [|destruct (is_sep a); [|destruct (split_path s)]].
Qed.

Lemma split_path_single s : has_char "/"%char s = false -> split_path s = [s].
Proof.
  induction s as [|c s IH]; [done|]. simpl. intros [Hc Hs]%orb_false_iff.
  unfold is_sep. rewrite Hc, IH; done.
Qed.

Lemma split_join segs :
  segs <> [] -> Forall (fun x => has_char "/"%char x = false) segs -> split_path (js_join "/" segs) = segs.
Proof.
  induction segs as [|x segs IH]; [done|]. intros _ [Hx Hs]%Forall_cons.
  destruct segs as [|y segs]; [by apply split_path_single|].
  change (js_join "/" (x :: y :: segs)) with (x +:+ "/" +:+ js_join "/" (y :: segs)).
  rewrite split_path_app, split_path_single, IH by done. done.
Qed.

Lemma norm_segs_id segs : forall acc, Forall plain_seg segs -> norm_segs false segs acc = rev acc ++ segs.
Proof.
  induction segs as [|x segs IH]; intros acc; [by rewrite app_nil_r|].
  intros [(H1 & H2 & H3) Hs]%Forall_cons. simpl.
  rewrite !(proj2 (same_neq _ _)) by done. simpl. rewrite IH by done. simpl. by rewrite <- app_assoc.
Qed.

(** Resolving is idempotent: a resolved path resolves to its own segments. *)
Lemma resolve_abs cwd segs :
  Forall plain_seg segs -> Forall (fun x => has_char "/"%char x = false) segs ->
  resolve_segs cwd [abs_path segs] = segs.
Proof.
  intros Hp Hn. unfold abs_path.
  assert (forall t, resolve_segs cwd ["/" +:+ t] = norm_segs false (split_path t) []) as -> by done.
  destruct segs as [|x segs]; [done|].
  by rewrite split_join, norm_segs_id.
Qed.

(** What normalizing keeps comes from the path. *)
Lemma norm_segs_sub (P : string -> Prop) segs : forall acc,
  Forall P acc -> Forall P segs -> Forall P (norm_segs false segs acc).
Proof.
  induction segs as [|seg segs IH]; intros acc Hacc Hsegs; cbn [norm_segs].
  { by rewrite <- (Permutation_rev acc). }
  apply Forall_cons in Hsegs as [Hs Hsegs].
  destruct (_ || _); [by apply IH|]. destruct (seg === "..") eqn:E; [|by apply IH; [constructor|]].
  apply same_eq in E as ->. destruct acc as [|top acc]; [by apply IH|].
  apply Forall_cons in Hacc as [Ht Hacc].
  destruct (top === ".."); [|by apply IH]. by apply IH; [repeat constructor|].
Qed.

Lemma resolve_noslash cwd parts :
  Forall (fun x => has_char "/"%char x = false) (resolve_segs cwd parts).
Proof. apply norm_segs_sub; [constructor|apply split_path_noslash]. Qed.

(** Resolving a resolved path changes nothing. *)
Lemma resolve_again cwd cwd' parts :
  resolve_segs cwd [path_resolve cwd' parts] = resolve_segs cwd' parts.
Proof. apply resolve_abs; [apply resolve_plain|apply resolve_noslash]. Qed.

(** [startsWith] and common prefixes. *)
Lemma startsWith_app s p : startsWith (p +:+ s) p = true.
Proof.
  induction p as [|c p IH]; [by destruct s|]. change ((c === c) && startsWith (p +:+ s) p = true).
  by rewrite same_refl.
Qed.
Lemma startsWith_iff s p : startsWith s p = true <-> exists t, s = p +:+ t.
Proof.
  split.
  - revert s. induction p as [|c p IH]; intros s H; [by exists s|]. destruct s as [|d s]; [done|]. cbn [startsWith] in H. reflect.
    destruct (IH s) as [t ->]; [done|]. exists t. by subst.
  - intros [t ->]. apply startsWith_app.
Qed.

Lemma strip_common_spec xs : forall ys up down,
  strip_common xs ys = (up, down) -> exists common, xs = common ++ up /\ ys = common ++ down.
Proof.
  induction xs as [|x xs IH]; intros [|y ys] up down; cbn [strip_common]; try (intros [= <- <-]; by exists []).
  destruct (x === y) eqn:E; [reflect; subst|intros [= <- <-]; by exists []].
  intros (common & -> & ->)%IH. by exists (y :: common).
Qed.

Lemma strip_common_prefix xs rest : strip_common xs (xs ++ rest) = ([], rest).
Proof. induction xs as [|x xs IH]; [by destruct rest|]. cbn [strip_common app]. by rewrite same_refl. Qed.
