(* ===== verification/Regex.v ===== *)
(** Regular expressions of the language.

    What the source uses of [RegExp]: reading a pattern's source text (the
    grammar of Annex B without the [u] flag), and [test].  The constructs the
    source does not use (look-around, back-references, named groups, [\x],
    [\u], [\c]) are recognized and reported as [Foreign].  A match is a walk
    over positions; the executable matcher lists the end positions in the
    backtracking order of the language and is proved to list exactly the ends
    of the walks. *)
From Stdlib Require Import Ascii String.
Open Scope list_scope.
From S2P Require Import Prelude.

(** ** Abstract syntax *)

Inductive char_class := cl_digit | cl_space | cl_word.
Inductive set_item :=
| IRange (lo hi : ascii)
| IClass (neg : bool) (k : char_class).

Inductive regex :=
| REps
| RSet (neg : bool) (items : list set_item)
| RSeq (r1 r2 : regex)
| RAlt (r1 r2 : regex)
| RStar (greedy : bool) (r : regex)
| RBol
| REol
| RWordB (neg : bool).

(** A compiled [RegExp]: its body and the [i] flag. *)
Record RegExp := mkRegExp { re_body : regex; re_ignoreCase : bool }.

Definition code (c : ascii) : nat := nat_of_ascii c.
Definition chr (n : nat) : ascii := ascii_of_nat n.

Definition digit_char (c : ascii) : bool := in_range 48 57 c.
Definition word_char (c : ascii) : bool :=
  in_range 97 122 c || in_range 65 90 c || in_range 48 57 c || (c === "_"%char).

Definition in_class (k : char_class) (c : ascii) : bool :=
  match k with cl_digit => digit_char c | cl_space => is_space c | cl_word => word_char c end.
Definition in_item (c : ascii) (i : set_item) : bool :=
  match i with
  | IRange lo hi => in_range (code lo) (code hi) c
  | IClass neg k => xorb neg (in_class k c)
  end.

(** The other case of a letter, among 8-bit code units ([÷], [×], [ß], [ÿ] and
    [µ] have no single-unit counterpart there). *)
Definition swap_case (c : ascii) : ascii :=
  if in_range 65 90 c || (in_range 192 222 c && negb (code c =? 215)%nat) then chr (code c + 32)
  else if in_range 97 122 c || (in_range 224 254 c && negb (code c =? 247)%nat) then chr (code c - 32)
  else c.
Definition cases_of (icase : bool) (c : ascii) : list ascii :=
  if icase then [c; swap_case c] else [c].
(** [CharacterSetMatcher]: some member of the set has the canonical form of [c]. *)
Definition in_set (icase neg : bool) (items : list set_item) (c : ascii) : bool :=
  xorb neg (existsb (fun d => existsb (in_item d) items) (cases_of icase c)).

(** ** Matching

    A position: the code unit before it, and the text after it. *)
Definition pos : Type := option ascii * list ascii.

Definition is_word (o : option ascii) : bool :=
  match o with Some c => word_char c | None => false end.
Definition word_boundary (p : pos) : bool := xorb (is_word p.1) (is_word (head p.2)).

(** The end positions of the iterations of a starred matcher, in backtracking
    order; an iteration that consumes nothing is not continued. *)
Section star.
Variable step : pos -> list pos.
Variable greedy : bool.
Fixpoint star_ends (fuel : nat) (p : pos) : list pos :=
  match fuel with
  | O => [p]
  | S fuel =>
      let more := q ← step p;
                  if (length (snd q) <? length (snd p))%nat then star_ends fuel q else [] in
      if greedy then more ++ [p] else p :: more
  end.
End star.

Section ends.
Variable icase : bool.
Fixpoint ends (r : regex) (p : pos) : list pos :=
  match r with
  | REps => [p]
  | RSet neg items =>
      match p.2 with
      | c :: s => if in_set icase neg items c then [(Some c, s)] else []
      | [] => []
      end
  | RSeq r1 r2 => q ← ends r1 p; ends r2 q
  | RAlt r1 r2 => ends r1 p ++ ends r2 p
  | RStar greedy r => star_ends (ends r) greedy (length p.2) p
  | RBol => match p.1 with None => [p] | Some _ => [] end
  | REol => match p.2 with [] => [p] | _ => [] end
  | RWordB neg => if xorb neg (word_boundary p) then [p] else []
  end.

(** What a match is, without reference to an order. *)
Inductive Matches : regex -> pos -> pos -> Prop :=
| m_eps p : Matches REps p p
| m_set neg items b c s : in_set icase neg items c = true ->
    Matches (RSet neg items) (b, c :: s) (Some c, s)
| m_seq r1 r2 p q t : Matches r1 p q -> Matches r2 q t -> Matches (RSeq r1 r2) p t
| m_alt_l r1 r2 p q : Matches r1 p q -> Matches (RAlt r1 r2) p q
| m_alt_r r1 r2 p q : Matches r2 p q -> Matches (RAlt r1 r2) p q
| m_star_nil g r p : Matches (RStar g r) p p
| m_star_cons g r p q t : Matches r p q -> Matches (RStar g r) q t -> Matches (RStar g r) p t
| m_bol s : Matches RBol (None, s) (None, s)
| m_eol b : Matches REol (b, []) (b, [])
| m_word neg p : xorb neg (word_boundary p) = true -> Matches (RWordB neg) p p.
End ends.

(** The positions a search tries, from the left. *)
Fixpoint positions_from (b : option ascii) (s : list ascii) : list pos :=
  (b, s) :: match s with [] => [] | c :: s => positions_from (Some c) s end.
Definition positions (s : string) : list pos := positions_from None (String.list_ascii_of_string s).

(** [re.test(s)]. *)
Definition RegExp_test (re : RegExp) (s : string) : bool :=
  existsb (fun p => match ends (re_ignoreCase re) (re_body re) p with [] => false | _ => true end) (positions s).

(** ** Reading a pattern *)

Inductive parsed (A : Type) :=
| Parsed (a : A)
| BadSyntax
| Foreign.
Arguments Parsed {A} a.
Arguments BadSyntax {A}.
Arguments Foreign {A}.
#[export] Instance parsed_ret : MRet parsed := fun A a => Parsed a.
#[export] Instance parsed_bind : MBind parsed := fun A B f m =>
  match m with Parsed a => f a | BadSyntax => BadSyntax | Foreign => Foreign end.

Inductive token :=
| TAtom (neg : bool) (items : list set_item)
| TAssert (r : regex)
| TOpen | TClose | TBar
| TQuant (lo : nat) (hi : option nat) (greedy : bool).

Definition one (c : ascii) : set_item := IRange c c.
Definition among (cs : string) (c : ascii) : bool := has_char c cs.

(** What follows a backslash, inside or outside of a class. *)
Definition escape (c : ascii) : parsed set_item :=
  if c === "d"%char then Parsed (IClass false cl_digit)
  else if c === "D"%char then Parsed (IClass true cl_digit)
  else if c === "s"%char then Parsed (IClass false cl_space)
  else if c === "S"%char then Parsed (IClass true cl_space)
  else if c === "w"%char then Parsed (IClass false cl_word)
  else if c === "W"%char then Parsed (IClass true cl_word)
  else if c === "t"%char then Parsed (one (chr 9))
  else if c === "n"%char then Parsed (one (chr 10))
  else if c === "v"%char then Parsed (one (chr 11))
  else if c === "f"%char then Parsed (one (chr 12))
  else if c === "r"%char then Parsed (one (chr 13))
  else if digit_char c || among "xuck" c then Foreign
  else Parsed (one c).

(** The atoms of a class up to its bracket, each with a mark on a bare dash,
    and how many units they take, the bracket included. *)
Fixpoint class_atoms (s : list ascii) : parsed (list (set_item * bool) * nat) :=
  match s with
  | [] => BadSyntax
  | c :: s =>
      if c === "]"%char then Parsed ([], 1)
      else if c === "\"%char then
        match s with
        | [] => BadSyntax
        | d :: s =>
            i ← if d === "b"%char then Parsed (one (chr 8)) else escape d;
            rest ← class_atoms s;
            Parsed ((i, false) :: rest.1, S (S rest.2))
        end
      else rest ← class_atoms s; Parsed ((one c, c === "-"%char) :: rest.1, S rest.2)
  end.

(** Ranges: [a-b] between single units, otherwise the dash is itself. *)
Fixpoint class_items (atoms : list (set_item * bool)) : parsed (list set_item) :=
  match atoms with
  | (a, _) :: (d, true) :: (b, _) :: rest =>
      items ← class_items rest;
      match a, b with
      | IRange lo _, IRange hi _ =>
          if (code lo <=? code hi)%nat then Parsed (IRange lo hi :: items) else BadSyntax
      | _, _ => Parsed (a :: d :: b :: items)
      end
  | (a, _) :: rest => items ← class_items rest; Parsed (a :: items)
  | [] => Parsed []
  end.

Definition digit_value (c : ascii) : nat := code c - 48.
Fixpoint read_number (acc : option nat) (s : list ascii) : option nat * nat * list ascii :=
  match s with
  | c :: s' =>
      if digit_char c then
        let '(n, k, rest) := read_number (Some (10 * default 0 acc + digit_value c)) s' in (n, S k, rest)
      else (acc, 0, s)
  | [] => (acc, 0, [])
  end.
(** [{n}], [{n,}] or [{n,m}] after its opening brace, and the units it takes. *)
Definition braces (s : list ascii) : option (nat * option nat * nat) :=
  match read_number None s with
  | (Some lo, k, c :: rest) =>
      if c === "}"%char then Some (lo, Some lo, S k)
      else if c === ","%char then
        match read_number None rest with
        | (hi, k', d :: _) => if d === "}"%char then Some (lo, hi, k + k' + 2) else None
        | _ => None
        end
      else None
  | _ => None
  end.

Definition lazy_mark (s : list ascii) : bool :=
  match s with c :: _ => c === "?"%char | [] => false end.

Definition quantifier (c : ascii) (s : list ascii) : option (nat * option nat * nat) :=
  if c === "*"%char then Some (0, None, 0)
  else if c === "+"%char then Some (1, None, 0)
  else if c === "?"%char then Some (0, Some 1, 0)
  else if c === "{"%char then braces s
  else None.

(** [lex skip s] ignores the next [skip] units, which a construct read before
    has taken. *)
Fixpoint lex (skip : nat) (s : list ascii) : parsed (list token) :=
  match s with
  | [] => Parsed []
  | c :: s =>
      match skip with
      | S k => lex k s
      | O =>
          if c === "\"%char then
            match s with
            | [] => BadSyntax
            | d :: _ =>
                t ← if d === "b"%char then Parsed (TAssert (RWordB false))
                    else if d === "B"%char then Parsed (TAssert (RWordB true))
                    else i ← escape d; Parsed (TAtom false [i]);
                ts ← lex 1 s; Parsed (t :: ts)
            end
          else if c === "["%char then
            let neg := match s with d :: _ => d === "^"%char | [] => false end in
            body ← class_atoms (if neg then tail s else s);
            items ← class_items body.1;
            ts ← lex (if neg then S body.2 else body.2) s; Parsed (TAtom neg items :: ts)
          else if c === "("%char then
            match s with
            | d :: e :: _ =>
                if d === "?"%char then
                  if e === ":"%char then ts ← lex 2 s; Parsed (TOpen :: ts) else Foreign
                else ts ← lex 0 s; Parsed (TOpen :: ts)
            | _ => if lazy_mark s then BadSyntax else ts ← lex 0 s; Parsed (TOpen :: ts)
            end
          else if c === ")"%char then ts ← lex 0 s; Parsed (TClose :: ts)
          else if c === "|"%char then ts ← lex 0 s; Parsed (TBar :: ts)
          else if c === "."%char then ts ← lex 0 s; Parsed (TAtom true [one (chr 10); one (chr 13)] :: ts)
          else if c === "^"%char then ts ← lex 0 s; Parsed (TAssert RBol :: ts)
          else if c === "$"%char then ts ← lex 0 s; Parsed (TAssert REol :: ts)
          else match quantifier c s with
               | Some (lo, hi, k) =>
                   let lz := lazy_mark (drop k s) in
                   ts ← lex (if lz then S k else k) s; Parsed (TQuant lo hi (negb lz) :: ts)
               | None => ts ← lex 0 s; Parsed (TAtom false [one c] :: ts)
               end
      end
  end.

(** An open group: the finished alternatives and the terms of the current one,
    most recent first; a term is marked when a quantifier may apply to it. *)
Record group := mkGroup { g_alts : list regex; g_terms : list (regex * bool) }.
Definition empty_group : group := mkGroup [] [].

Definition seq_of (terms : list (regex * bool)) : regex :=
  fold_left (fun acc t => RSeq t.1 acc) terms REps.
Definition group_regex (g : group) : regex :=
  fold_left (fun acc r => RAlt r acc) (g_alts g) (seq_of (g_terms g)).
Definition add_term (r : regex) (quantifiable : bool) (g : group) : group :=
  mkGroup (g_alts g) ((r, quantifiable) :: g_terms g).

Fixpoint copies (n : nat) (r tl : regex) : regex :=
  match n with O => tl | S n => RSeq r (copies n r tl) end.
Definition optional (greedy : bool) (r : regex) : regex :=
  if greedy then RAlt r REps else RAlt REps r.
Fixpoint options (n : nat) (greedy : bool) (r : regex) : regex :=
  match n with O => REps | S n => optional greedy (RSeq r (options n greedy r)) end.
Definition repeat_regex (lo : nat) (hi : option nat) (greedy : bool) (r : regex) : regex :=
  copies lo r (match hi with None => RStar greedy r | Some h => options (h - lo) greedy r end).

Fixpoint parse_tokens (outer : list group) (g : group) (ts : list token) : parsed regex :=
  match ts with
  | [] => match outer with [] => Parsed (group_regex g) | _ => BadSyntax end
  | t :: ts =>
      match t with
      | TAtom neg items => parse_tokens outer (add_term (RSet neg items) true g) ts
      | TAssert r => parse_tokens outer (add_term r false g) ts
      | TBar => parse_tokens outer (mkGroup (seq_of (g_terms g) :: g_alts g) []) ts
      | TOpen => parse_tokens (g :: outer) empty_group ts
      | TClose =>
          match outer with
          | g' :: outer => parse_tokens outer (add_term (group_regex g) true g') ts
          | [] => BadSyntax
          end
      | TQuant lo hi greedy =>
          match g_terms g with
          | (r, true) :: rest =>
              if match hi with Some h => (h <? lo)%nat | None => false end then BadSyntax
              else parse_tokens outer (mkGroup (g_alts g) ((repeat_regex lo hi greedy r, false) :: rest)) ts
          | _ => BadSyntax
          end
      end
  end.

(** [new RegExp(source, icase ? "i" : "")]; [BadSyntax] is the [SyntaxError]. *)
Definition new_RegExp (source : string) (icase : bool) : parsed RegExp :=
  ts ← lex 0 (String.list_ascii_of_string source);
  r ← parse_tokens [] empty_group ts;
  Parsed (mkRegExp r icase).

(** A regular expression literal of the source. *)
Definition literal (source : string) (icase : bool) : RegExp :=
  match new_RegExp source icase with
  | Parsed re => re
  | _ => mkRegExp (RSet false []) false
  end.

(** ** The matcher lists exactly the ends of the walks *)

(** A walk goes forward, and one that stays in place changes nothing. *)
Lemma Matches_forward icase r p q :
  Matches icase r p q -> q = p \/ length q.2 < length p.2.
Proof.
  induction 1; cbn [fst snd length] in *; try (by left); try (right; lia); try done;
    repeat match goal with H : _ \/ _ |- _ => destruct H as [->|?] end; auto; right; lia.
Qed.

Lemma star_ends_iff icase g r (step : pos -> list pos)
  (Hstep : forall p q, q ∈ step p <-> Matches icase r p q) fuel :
  forall p q, length p.2 <= fuel -> q ∈ star_ends step g fuel p <-> Matches icase (RStar g r) p q.
Proof.
  induction fuel as [|fuel IH]; intros p q Hf.
  - cbn [star_ends]. rewrite list_elem_of_singleton. split; [intros ->; constructor|].
    intros [->|]%Matches_forward; [done|lia].
  - set (more := q ← step p; if (length (snd q) <? length (snd p))%nat then star_ends step g fuel q else []).
    assert (Hmore : q ∈ more <-> exists t, Matches icase r p t /\ length t.2 < length p.2 /\
                                        Matches icase (RStar g r) t q).
    { subst more. rewrite list_elem_of_bind. split.
      - intros (t & Hq & Ht%Hstep). destruct (_ <? _)%nat eqn:E; [reflect|by apply not_elem_of_nil in Hq].
        exists t. split_and!; [done..|]. apply IH; [lia|done].
      - intros (t & Ht & Hlt & Hq). exists t. split; [|by apply Hstep].
        rewrite (proj2 (Nat.ltb_lt _ _) Hlt). apply IH; [lia|done]. }
    assert (Hall : Matches icase (RStar g r) p q <-> q ∈ more \/ q = p).
    { rewrite Hmore. split.
      - intros H. remember (RStar g r) as r' eqn:Er. revert Hf Hmore.
        induction H as [| | | | | |g' r' p q t H1 _ H2 IH2| | |]; intros; simplify_eq; [by right|].
        destruct (Matches_forward _ _ _ _ H1) as [->|]; [by apply IH2|]. left. eauto.
      - intros [(t & H1 & _ & H2)| ->]; [by eapply m_star_cons|constructor]. }
    cbn [star_ends]. fold more. rewrite Hall. destruct g.
    + rewrite elem_of_app, list_elem_of_singleton. done.
    + rewrite elem_of_cons. tauto.
Qed.

Lemma ends_iff icase r : forall p q, q ∈ ends icase r p <-> Matches icase r p q.
Proof.
  induction r as [|neg items|r1 IH1 r2 IH2|r1 IH1 r2 IH2|g r IH| | |neg]; intros [b s] q; cbn [ends fst snd].
  - rewrite list_elem_of_singleton. split; [intros ->; constructor|by inversion 1].
  - destruct s as [|c s]; [split; [by intros ?%not_elem_of_nil|by inversion 1]|].
    destruct (in_set _ _ _ c) eqn:E; rewrite ?list_elem_of_singleton; split; try (by intros ?%not_elem_of_nil).
    + intros ->. by constructor.
    + by inversion 1.
    + inversion 1. congruence.
  - rewrite list_elem_of_bind. setoid_rewrite IH1. setoid_rewrite IH2.
    split; [intros (?&?&?); by eapply m_seq|inversion 1; eauto].
  - rewrite elem_of_app, IH1, IH2. split; [intros [?|?]; [by apply m_alt_l|by apply m_alt_r]|inversion 1; auto].
  - apply star_ends_iff; [exact IH|done].
  - destruct b; [split; [by intros ?%not_elem_of_nil|by inversion 1]|].
    rewrite list_elem_of_singleton. split; [intros ->; constructor|by inversion 1].
  - destruct s; [|split; [by intros ?%not_elem_of_nil|by inversion 1]].
    rewrite list_elem_of_singleton. split; [intros ->; constructor|by inversion 1].
  - destruct (xorb neg _) eqn:E; [|split; [by intros ?%not_elem_of_nil|inversion 1; congruence]].
    rewrite list_elem_of_singleton. split; [intros ->; by constructor|by inversion 1].
Qed.

Lemma RegExp_test_iff re s :
  RegExp_test re s = true <->
  exists p q, p ∈ positions s /\ Matches (re_ignoreCase re) (re_body re) p q.
Proof.
  unfold RegExp_test. rewrite existsb_exists. split.
  - intros (p & Hp & Hq). destruct (ends _ _ p) as [|q qs] eqn:E; [done|].
    exists p, q. split; [by apply list_elem_of_In|]. apply ends_iff. rewrite E. by left.
  - intros (p & q & Hp & Hq%ends_iff). exists p. split; [by apply list_elem_of_In|].
    destruct (ends _ _ p); [by apply not_elem_of_nil in Hq|done].
Qed.

(** A set that holds one unit, and its complement. *)
Lemma in_range_one c d : in_range (code c) (code c) d = true <-> d = c.
Proof.
  unfold in_range, code. split; [|intros ->; rewrite !Nat.leb_refl; done].
  intros H. reflect. rewrite <- (ascii_nat_embedding d), <- (ascii_nat_embedding c). f_equal. lia.
Qed.
Lemma in_set_one neg c d : in_set false neg [one c] d = true <-> xorb neg (d === c) = true.
Proof.
  assert (E : in_range (code c) (code c) d = (d === c)).
  { destruct (d === c) eqn:E; reflect; [by apply in_range_one|].
    apply not_true_iff_false. by rewrite in_range_one. }
  unfold in_set. cbn [existsb cases_of in_item one]. by rewrite E, !orb_false_r.
Qed.

(** The terms of a group, in the order of the pattern. *)
Lemma seq_of_rev ts : seq_of (rev ts) = fold_right (fun t acc => RSeq t.1 acc) REps ts.
Proof. unfold seq_of. by rewrite <- fold_left_rev_right, rev_involutive. Qed.

Lemma parse_tokens_not_foreign ts : forall outer g, parse_tokens outer g ts <> Foreign.
Proof.
  induction ts as [|t ts IH]; intros outer g; cbn [parse_tokens]; [by destruct outer|].
  destruct t; auto; [by destruct outer|].
  destruct (g_terms g) as [|[r []] rest]; try done. by destruct hi as [h|]; [case_match|].
Qed.

Lemma positions_from_later c l s : (None, s) ∉ positions_from (Some c) l.
Proof.
  revert c. induction l as [|d l IH]; intros c; cbn [positions_from];
    rewrite elem_of_cons; [|naive_solver]. by intros [?|?%not_elem_of_nil].
Qed.
Lemma positions_from_first l s : (None, s) ∈ positions_from None l <-> s = l.
Proof.
  destruct l as [|c l]; cbn [positions_from]; rewrite elem_of_cons.
  - split; [intros [?|?%not_elem_of_nil]; naive_solver|intros ->; by left].
  - split; [intros [?|?%positions_from_later]; naive_solver|intros ->; by left].
Qed.

(** A pattern that starts with [^] is matched from the start of the text. *)
Lemma RegExp_test_anchored r s :
  RegExp_test (mkRegExp (RSeq RBol r) false) s = true <->
  exists q, Matches false r (None, String.list_ascii_of_string s) q.
Proof.
  rewrite RegExp_test_iff. cbn [re_ignoreCase re_body]. unfold positions. split.
  - intros (p & q & Hp & Hm). inversion Hm as [| |? ? ? t ? H1 H2| | | | | | |]; subst.
    inversion H1; subst. apply positions_from_first in Hp as ->. by exists q.
  - intros [q Hq]. eexists (None, _), q. split; [by apply positions_from_first|].
    by econstructor; [constructor|].
Qed.
