(* ===== verification/PathPattern.v ===== *)
(** Path patterns of permission rules.

    Models the pattern half of [src/src/agent/permission-config.ts]: the
    segment-wise normalization of paths, [**], [*] and [!], and the regular
    expression each segment is turned into.  A pattern whose regular expression
    does not compile makes the match throw. *)
From Stdlib Require Import Ascii String.
From S2P Require Import Prelude Paths Regex.
Open Scope list_scope.

(** [s.replace(/\\/g, "/")]. *)
Fixpoint slashes (s : string) : string :=
  match s with
  | EmptyString => EmptyString
  | String c s => String (if c === "\"%char then "/"%char else c) (slashes s)
  end.

(** The loop over the segments; [out] holds the kept ones, the last first. *)
Fixpoint kept_segments (segments out : list string) : list string :=
  match segments with
  | [] => rev out
  | seg :: segments =>
      if (seg === "") || (seg === ".") then kept_segments segments out
      else if seg === ".." then kept_segments segments (tail out)
      else kept_segments segments (seg :: out)
  end.

(** src/src/agent/permission-config.ts # normalizePathForPattern *)
Definition normalizePathForPattern (filePath : string) : string :=
  "/" +:+ js_join "/" (kept_segments (split_path (slashes filePath)) []).

(** [pattern.replace(/[.+^${}()|[\]\\]/g, "\\$&")], then [.replace(/\*/g, "[^/]*")]. *)
Definition special (c : ascii) : bool := has_char c ".+^${}()|[]\".
Definition escape_specials (s : list ascii) : list ascii :=
  c ← s; if special c then ["\"%char; c] else [c].
Definition expand_stars (s : list ascii) : list ascii :=
  c ← s; if c === "*"%char then String.list_ascii_of_string "[^/]*" else [c].
Definition segment_source (pattern : string) : string :=
  String.string_of_list_ascii
    ("^"%char :: expand_stars (escape_specials (String.list_ascii_of_string pattern)) ++ ["$"%char]).

(** src/src/agent/permission-config.ts # matchSingle *)
Definition matchSingle (pattern segment : string) : res string bool :=
  if pattern === "*" then Ok (negb (has_char "/"%char segment))
  else match new_RegExp (segment_source pattern) false with
       | Parsed regex => Ok (RegExp_test regex segment)
       | BadSyntax => Throw "SyntaxError"
       | Foreign => Throw "unreachable"
       end.

(** src/src/agent/permission-config.ts # matchSegments

    The arguments are what the indices leave of the two lists. *)
Fixpoint matchSegments (pattern path : list string) {struct pattern} : res string bool :=
  match pattern with
  | [] => Ok (match path with [] => true | _ => false end)
  | p :: pattern =>
      if p === "**" then
        match pattern with
        | [] => Ok true
        | _ =>
            (fix from (path : list string) : res string bool :=
               match path with
               | [] => matchSegments pattern []
               | _ :: rest =>
                   here ← matchSegments pattern path;
                   if (here : bool) then Ok true else from rest
               end) path
        end
      else
        match path with
        | [] => Ok false
        | segment :: path =>
            one ← matchSingle p segment;
            if (one : bool) then matchSegments pattern path else Ok false
        end
  end.

(** [s.startsWith(p)] with [s.slice(p.length)]. *)
Fixpoint after_prefix (p s : string) : option string :=
  match p, s with
  | EmptyString, _ => Some s
  | String a p, String b s => if a === b then after_prefix p s else None
  | String _ _, EmptyString => None
  end.

(** src/src/agent/permission-config.ts # matchPathPattern *)
Fixpoint match_pattern (fuel : nat) (pattern filePath : string) : res string bool :=
  match fuel with
  | O => Throw "unreachable"
  | S fuel =>
      match after_prefix "!" pattern with
      | Some rest => b ← match_pattern fuel rest filePath; Ok (negb b)
      | None =>
          let normalizedPath := normalizePathForPattern filePath in
          let normalizedPattern := normalizePathForPattern pattern in
          match after_prefix "/!" normalizedPattern with
          | Some rest => b ← match_pattern fuel rest normalizedPath; Ok (negb b)
          | None => matchSegments (split_path normalizedPattern) (split_path normalizedPath)
          end
      end
  end.
(** Each turn takes a [!] off the pattern. *)
Definition matchPathPattern (pattern filePath : string) : res string bool :=
  match_pattern (S (String.length pattern)) pattern filePath.

(** ** The language of a segment pattern *)

(** [*] stands for any units but the separator, everything else for itself. *)
Inductive wild : list ascii -> list ascii -> Prop :=
| w_nil : wild [] []
| w_char c p s : c <> "*"%char -> wild p s -> wild (c :: p) (c :: s)
| w_stop p s : wild p s -> wild ("*"%char :: p) s
| w_more c p s : c <> "/"%char -> wild ("*"%char :: p) s -> wild ("*"%char :: p) (c :: s).

(** The term a unit of the pattern becomes. *)
Definition unit_source (c : ascii) : list ascii := expand_stars (escape_specials [c]).
Definition unit_tokens (c : ascii) : list token :=
  if c === "*"%char then [TAtom true [one "/"%char]; TQuant 0 None true] else [TAtom false [one c]].
Definition unit_term (c : ascii) : regex * bool :=
  if c === "*"%char then (RStar true (RSet true [one "/"%char]), false) else (RSet false [one c], true).

Lemma expand_cons c p :
  expand_stars (escape_specials (c :: p)) = unit_source c ++ expand_stars (escape_specials p).
Proof.
  unfold unit_source, escape_specials, expand_stars. cbn [mbind list_bind]. rewrite app_nil_r.
  by rewrite <- bind_app.
Qed.

(** Reading one unit's source; a question mark only matters after a star. *)
Lemma lex_unit c s : c <> "?"%char -> lazy_mark s = false ->
  lex 0 (unit_source c ++ s) = (ts ← lex 0 s; Parsed (unit_tokens c ++ ts)).
Proof.
  intros Hc Hs. destruct (decide (c = "*"%char)) as [->|Hstar].
  - change (lex 0 (unit_source "*"%char ++ s)) with
      (ts ← (let lz := lazy_mark s in
             ts ← lex (if lz then 1 else 0) s; Parsed (TQuant 0 None (negb lz) :: ts));
       Parsed (TAtom true [one "/"%char] :: ts)).
    cbn zeta. rewrite Hs. by destruct (lex 0 s).
  - destruct c as [[] [] [] [] [] [] [] []]; first [reflexivity|done].
Qed.

Definition source_tail (p : list ascii) : list ascii :=
  expand_stars (escape_specials p) ++ ["$"%char].

Lemma source_tail_cons c p : source_tail (c :: p) = unit_source c ++ source_tail p.
Proof. unfold source_tail. by rewrite expand_cons, <- app_assoc. Qed.
Lemma lazy_mark_tail c p : lazy_mark (source_tail (c :: p)) = (c === "?"%char).
Proof.
  rewrite source_tail_cons. generalize (source_tail p). intros s.
  by destruct c as [[] [] [] [] [] [] [] []].
Qed.

Lemma lex_source p : has_char "?"%char (String.string_of_list_ascii p) = false ->
  lex 0 (source_tail p) = Parsed ((p ≫= unit_tokens) ++ [TAssert REol]).
Proof.
  induction p as [|c p IH]; [done|]. cbn [String.string_of_list_ascii has_char]. intros H.
  apply orb_false_iff in H as [Hc Hp]. rewrite source_tail_cons, lex_unit.
  - rewrite (IH Hp). cbn [mbind list_bind parsed_bind]. by rewrite <- app_assoc.
  - reflect. congruence.
  - destruct p as [|d p]; [done|]. rewrite lazy_mark_tail.
    cbn [String.string_of_list_ascii has_char] in Hp. by apply orb_false_iff in Hp as [? _].
Qed.

Definition source_terms (p : list ascii) : list (regex * bool) :=
  (RBol, false) :: map unit_term p ++ [(REol, false)].

Lemma parse_units p acc :
  parse_tokens [] (mkGroup [] acc) ((p ≫= unit_tokens) ++ [TAssert REol]) =
  Parsed (seq_of ((REol, false) :: rev (map unit_term p) ++ acc)).
Proof.
  revert acc. induction p as [|c p IH]; intros acc; [done|].
  cbn [mbind list_bind map rev]. unfold unit_tokens at 1, unit_term at 2.
  rewrite <- (app_assoc _ [_]).
  destruct (c === "*"%char); cbn [app parse_tokens add_term g_terms g_alts repeat_regex copies]; apply IH.
Qed.

Lemma segment_compiles p : has_char "?"%char p = false ->
  new_RegExp (segment_source p) false =
  Parsed (mkRegExp (fold_right (fun t acc => RSeq t.1 acc) REps
                      (source_terms (String.list_ascii_of_string p))) false).
Proof.
  intros Hp. unfold new_RegExp, segment_source.
  rewrite String.list_ascii_of_string_of_list_ascii.
  change (lex 0 ("^"%char :: _)) with
    (ts ← lex 0 (source_tail (String.list_ascii_of_string p)); Parsed (TAssert RBol :: ts)).
  rewrite lex_source by (by rewrite String.string_of_list_ascii_of_string).
  cbn [mbind parsed_bind parse_tokens add_term g_terms g_alts empty_group].
  unfold add_term, empty_group. cbn [g_terms g_alts]. rewrite parse_units.
  cbn [mbind parsed_bind]. do 2 f_equal.
  rewrite <- seq_of_rev. unfold source_terms. cbn [rev]. by rewrite rev_app_distr.
Qed.

(** *** What the compiled segment matches *)

Lemma star_unit_matches b s q :
  Matches false (RStar true (RSet true [one "/"%char])) (b, s) q <->
  exists s1, s = s1 ++ q.2 /\ ("/"%char ∉ s1) /\ q.1 = match last s1 with Some c => Some c | None => b end.
Proof.
  split.
  - intros H. remember (RStar _ _) as r eqn:Er. remember (b, s) as p eqn:Ep. revert b s Ep.
    induction H as [| | | | | |g r p q t H1 _ H2 IH2| | |]; intros bb ss Ep; simplify_eq.
    + exists []. split_and!; [done|apply not_elem_of_nil|done].
    + inversion H1 as [|? ? b' c s' Hc| | | | | | | |]; subst.
      destruct (IH2 eq_refl _ _ eq_refl) as (s1 & -> & Hs & Hq).
      exists (c :: s1). split_and!; [done| |].
      * apply in_set_one in Hc. destruct (c === "/"%char) eqn:E; [done|]. reflect.
        rewrite not_elem_of_cons. by split.
      * rewrite Hq, last_cons. by destruct (last s1).
  - intros (s1 & -> & Hs & Hq). destruct q as [b' s2]. cbn [fst snd] in *. subst b'. revert b.
    induction s1 as [|c s1 IH]; intros b; [constructor|].
    apply not_elem_of_cons in Hs as [Hc Hs]. eapply m_star_cons.
    + cbn [app]. apply m_set. apply in_set_one. by rewrite (proj2 (same_neq _ _) (not_eq_sym Hc)).
    + rewrite last_cons. specialize (IH Hs (Some c)). by destruct (last s1).
Qed.

Lemma wild_star p s :
  wild ("*"%char :: p) s <-> exists s1 s2, s = s1 ++ s2 /\ ("/"%char ∉ s1) /\ wild p s2.
Proof.
  split.
  - intros H. remember ("*"%char :: p) as p' eqn:Ep.
    induction H as [| |p0 s H _|c p0 s Hc H IH]; simplify_eq.
    + exists [], s. split_and!; [done|apply not_elem_of_nil|done].
    + destruct (IH eq_refl) as (s1 & s2 & -> & Hs & Hw).
      exists (c :: s1), s2. rewrite not_elem_of_cons. by split_and!.
  - intros (s1 & s2 & -> & Hs & Hw). induction s1 as [|c s1 IH]; [by apply w_stop|].
    apply not_elem_of_cons in Hs as [Hc Hs]. apply w_more; [done|]. by apply IH.
Qed.

Lemma units_match p : forall b s,
  (exists q, Matches false (fold_right (fun t acc => RSeq t.1 acc) REps
                              (map unit_term p ++ [(REol, false)])) (b, s) q) <-> wild p s.
Proof.
  induction p as [|c p IH]; intros b s; cbn [map app fold_right].
  - split.
    + intros [q H]. inversion H as [| |? ? ? t ? H1 H2| | | | | | |]; subst. inversion H1; subst. constructor.
    + inversion 1; subst. eexists. by econstructor; constructor.
  - unfold unit_term at 1. destruct (c === "*"%char) eqn:E; reflect; cbn [fst].
    + subst c. rewrite wild_star. split.
      * intros [q H]. inversion H as [| |? ? ? t ? H1 H2| | | | | | |]; subst.
        apply star_unit_matches in H1 as (s1 & -> & Hs & _). destruct t as [b' s2].
        exists s1, s2. split_and!; [done..|]. apply (IH b'). by exists q.
      * intros (s1 & s2 & -> & Hs & Hw). apply (IH (match last s1 with Some c => Some c | None => b end)) in Hw as [q Hq].
        exists q. eapply m_seq; [|exact Hq]. apply star_unit_matches. by exists s1.
    + split.
      * intros [q H]. inversion H as [| |? ? ? t ? H1 H2| | | | | | |]; subst.
        inversion H1 as [|? ? b' d s' Hd| | | | | | | |]; subst. apply in_set_one in Hd.
        destruct (d === c) eqn:Ed; [reflect; subst d|done]. apply w_char; [done|]. apply (IH (Some c)). by exists q.
      * inversion 1 as [|? ? s' _ Hw| |]; subst; [|done|done]. apply (IH (Some c)) in Hw as [q Hq].
        exists q. eapply m_seq; [|exact Hq]. apply m_set, in_set_one. by rewrite same_refl.
Qed.

Definition glob_segment (p s : string) : Prop :=
  wild (String.list_ascii_of_string p) (String.list_ascii_of_string s).

Lemma wild_any s : wild ["*"%char] s <-> "/"%char ∉ s.
Proof.
  rewrite wild_star. split.
  - intros (s1 & s2 & -> & Hs & Hw). inversion Hw. by rewrite app_nil_r.
  - intros H. exists s, []. rewrite app_nil_r. split_and!; [done..|constructor].
Qed.
Lemma has_char_elem c s : has_char c s = true <-> c ∈ String.list_ascii_of_string s.
Proof.
  induction s as [|d s IH]; cbn [has_char String.list_ascii_of_string].
  - split; [done|by intros ?%not_elem_of_nil].
  - rewrite orb_true_iff, same_eq, IH, elem_of_cons. naive_solver.
Qed.

Lemma matchSingle_iff p s : has_char "?"%char p = false ->
  exists b, matchSingle p s = Ok b /\ (b = true <-> glob_segment p s).
Proof.
  intros Hp. unfold matchSingle, glob_segment. destruct (p === "*") eqn:E; reflect.
  - subst p. eexists. split; [done|]. change (String.list_ascii_of_string "*") with ["*"%char].
    rewrite wild_any, <- has_char_elem, negb_true_iff. by destruct (has_char _ s).
  - rewrite (segment_compiles _ Hp). eexists. split; [done|].
    unfold source_terms. cbn [fold_right fst]. by rewrite RegExp_test_anchored, units_match.
Qed.

(** ** The language of a pattern *)

(** [**] stands for any segments, any other segment pattern for one segment. *)
Inductive glob_path : list string -> list string -> Prop :=
| gp_nil : glob_path [] []
| gp_one p ps seg segs : p <> "**" -> glob_segment p seg -> glob_path ps segs ->
    glob_path (p :: ps) (seg :: segs)
| gp_any ps skipped segs : glob_path ps segs -> glob_path ("**" :: ps) (skipped ++ segs).

Lemma glob_path_any ps segs :
  glob_path ("**" :: ps) segs <-> exists skipped rest, segs = skipped ++ rest /\ glob_path ps rest.
Proof. split; [inversion 1; naive_solver|intros (? & ? & -> & ?); by apply gp_any]. Qed.

(** The loop behind [**]: some remaining position matches. *)
Definition from_any (matches : list string -> res string bool) : list string -> res string bool :=
  fix from (path : list string) : res string bool :=
    match path with
    | [] => matches []
    | _ :: rest => here ← matches path; if (here : bool) then Ok true else from rest
    end.

Lemma from_any_iff (matches : list string -> res string bool) (R : list string -> Prop) :
  (forall path, exists b, matches path = Ok b /\ (b = true <-> R path)) ->
  forall path, exists b, from_any matches path = Ok b /\
    (b = true <-> exists skipped rest, path = skipped ++ rest /\ R rest).
Proof.
  intros HR. induction path as [|seg path IH]; cbn [from_any].
  - destruct (HR []) as (b & -> & Hb). exists b. split; [done|]. rewrite Hb. split.
    + intros ?. by exists [], [].
    + intros (sk & rest & E & ?). by apply symmetry, app_nil in E as [_ ->].
  - destruct (HR (seg :: path)) as (b & -> & Hb). cbn [mbind res_bind]. destruct b.
    + exists true. split; [done|]. split; [|done]. intros _. exists [], (seg :: path). by rewrite <- Hb.
    + destruct IH as (b & -> & Hb'). exists b. split; [done|]. rewrite Hb'. split.
      * intros (sk & rest & -> & ?). by exists (seg :: sk), rest.
      * intros ([|x sk] & rest & E & Hr); simplify_eq/=; [|by eauto]. by apply Hb in Hr.
Qed.

Lemma matchSegments_iff pattern : Forall (fun p => has_char "?"%char p = false) pattern ->
  forall path, exists b, matchSegments pattern path = Ok b /\ (b = true <-> glob_path pattern path).
Proof.
  induction pattern as [|p pattern IH]; intros Hq path.
  { exists (match path with [] => true | _ => false end). split; [done|].
    destruct path; split; try done; [constructor|by inversion 1]. }
  apply Forall_cons in Hq as [Hp Hq]. specialize (IH Hq). cbn [matchSegments].
  destruct (p === "**") eqn:E; reflect.
  - subst p. setoid_rewrite glob_path_any. destruct pattern as [|p' pattern].
    + exists true. split; [done|]. split; [|done]. intros _. exists path, [].
      rewrite app_nil_r. split; [done|constructor].
    + by apply (from_any_iff (matchSegments (p' :: pattern))).
  - destruct path as [|seg path]; [exists false; split; [done|]; split; [done|by inversion 1]|].
    destruct (matchSingle_iff p seg Hp) as (b & -> & Hb). cbn [mbind res_bind]. destruct b.
    + destruct (IH path) as (b & -> & Hb'). exists b. split; [done|]. rewrite Hb'. split.
      * intros ?. constructor; [done| |done]. by apply Hb.
      * inversion 1; by subst.
    + exists false. split; [done|]. split; [done|]. inversion 1; subst; [|done].
      apply Hb. done.
Qed.

(** ** Normalization *)

Lemma kept_segments_plain segs : forall out, Forall plain_seg out -> Forall plain_seg (kept_segments segs out).
Proof.
  induction segs as [|seg segs IH]; intros out Ho; cbn [kept_segments]; [by apply Forall_rev|].
  destruct (seg === "") eqn:E1, (seg === ".") eqn:E2; cbn [orb]; auto.
  destruct (seg === "..") eqn:E3; apply IH; [by destruct Ho|]. reflect. by constructor.
Qed.
Lemma kept_segments_sub segs (P : string -> Prop) : Forall P segs ->
  forall out, Forall P out -> Forall P (kept_segments segs out).
Proof.
  induction 1 as [|seg segs Hs _ IH]; intros out Ho; cbn [kept_segments]; [by apply Forall_rev|].
  destruct (_ || _); [auto|]. destruct (_ === _); apply IH; [by destruct Ho|by constructor].
Qed.

(** The segments of a normalized path: an empty one before the first slash,
    then what was kept (the root keeps one empty segment). *)
Definition pattern_segments (path : string) : list string :=
  kept_segments (split_path (slashes path)) [].
Definition rooted (segs : list string) : list string := "" :: match segs with [] => [""] | _ => segs end.

Lemma split_normalized path :
  split_path (normalizePathForPattern path) = rooted (pattern_segments path).
Proof.
  unfold normalizePathForPattern, pattern_segments, rooted.
  assert (Hs : Forall (fun x => has_char "/"%char x = false) (kept_segments (split_path (slashes path)) []))
    by (apply kept_segments_sub; [apply split_path_noslash|constructor]).
  revert Hs. generalize (kept_segments (split_path (slashes path)) []). intros segs Hs.
  change (split_path ("/" +:+ js_join "/" segs)) with ("" :: split_path (js_join "/" segs)).
  f_equal. destruct segs as [|s0 segs0]; [done|]. by apply split_join.
Qed.

Lemma segments_no_char c path : c <> "/"%char -> has_char c path = false ->
  Forall (fun x => has_char c x = false) (rooted (pattern_segments path)).
Proof.
  intros Hc Hp. assert (Hs : has_char c (slashes path) = false).
  { induction path as [|d path IH]; [done|]. cbn [has_char slashes] in *.
    apply orb_false_iff in Hp as [Hd Hp]. rewrite (IH Hp), orb_false_r.
    destruct (d === "\"%char); [|done]. apply same_neq. congruence. }
  assert (Forall (fun x => has_char c x = false) (pattern_segments path)).
  { apply kept_segments_sub; [|constructor]. revert Hs. generalize (slashes path). clear.
    induction s as [|d s IH]; cbn [has_char split_path]; [by repeat constructor|].
    intros [Hd Hs]%orb_false_iff. specialize (IH Hs).
    destruct (is_sep d); [by constructor|]. destruct (split_path s) as [|x xs].
    - repeat constructor. cbn [has_char]. by rewrite Hd.
    - apply Forall_cons in IH as [Hx Hxs]. constructor; [|done]. cbn [has_char]. by rewrite Hd. }
  unfold rooted. constructor; [done|]. destruct (pattern_segments path); [by repeat constructor|done].
Qed.

(** The two ways the code recognizes an exclusion. *)
Definition exclusion (pattern : string) : bool :=
  match after_prefix "!" pattern, after_prefix "/!" (normalizePathForPattern pattern) with
  | None, None => false
  | _, _ => true
  end.

Lemma match_pattern_plain fuel pattern filePath : exclusion pattern = false ->
  match_pattern (S fuel) pattern filePath =
  matchSegments (split_path (normalizePathForPattern pattern)) (split_path (normalizePathForPattern filePath)).
Proof.
  unfold exclusion. cbn [match_pattern]. destruct (after_prefix "!" pattern); [done|].
  by destruct (after_prefix "/!" (normalizePathForPattern pattern)).
Qed.

(** *** Termination: a turn takes a [!] off, which normalizing cannot give back *)

Definition total_length : list string -> nat := sum_list_with (fun x => S (String.length x)).

Lemma length_split s : total_length (split_path s) = S (String.length s).
Proof.
  induction s as [|c s IH]; [done|]. cbn [split_path String.length].
  destruct (is_sep c); [unfold total_length in *; cbn; lia|].
  destruct (split_path s) as [|x xs]; unfold total_length in *; cbn in *; lia.
Qed.
Lemma length_kept segs : forall out, total_length (kept_segments segs out) <= total_length segs + total_length out.
Proof.
  unfold total_length. induction segs as [|seg segs IH]; intros out; cbn [kept_segments sum_list_with].
  - rewrite rev_alt. change (rev_append out []) with (reverse out). by rewrite sum_list_with_reverse.
  - destruct (_ || _); [specialize (IH out); lia|].
    destruct (_ === _); [specialize (IH (tail out))|specialize (IH (seg :: out))].
    + destruct out; cbn [tail sum_list_with] in *; lia.
    + cbn [sum_list_with] in *. lia.
Qed.
Lemma length_js_join segs : String.length (js_join "/" segs) <= pred (total_length segs).
Proof.
  unfold total_length. induction segs as [|x [|y segs] IH]; [done|cbn; lia|].
  change (js_join "/" (x :: y :: segs)) with (x +:+ "/" +:+ js_join "/" (y :: segs)).
  rewrite !str_length_app. cbn [sum_list_with String.length] in *. lia.
Qed.
Lemma length_slashes s : String.length (slashes s) = String.length s.
Proof. induction s; cbn; congruence. Qed.
Lemma length_normalized s : String.length (normalizePathForPattern s) <= S (String.length s).
Proof.
  unfold normalizePathForPattern. rewrite str_length_app. cbn [String.length].
  pose proof (length_js_join (kept_segments (split_path (slashes s)) [])).
  pose proof (length_kept (split_path (slashes s)) []).
  rewrite length_split, length_slashes in *. unfold total_length in *. cbn in *. lia.
Qed.
Lemma length_after_prefix p s rest : after_prefix p s = Some rest ->
  String.length s = String.length p + String.length rest.
Proof.
  revert s. induction p as [|a p IH]; intros [|b s]; cbn [after_prefix String.length];
    try (by intros [= <-]).
  destruct (a === b); [|done]. intros H%IH. lia.
Qed.

(** The source a segment is turned into stays inside the modelled grammar. *)
Lemma lex_source_not_foreign p : lex 0 (source_tail p) <> Foreign /\
  (lazy_mark (source_tail p) = true -> lex 1 (source_tail p) <> Foreign).
Proof.
  assert (Hb : forall A B (m : parsed A) (f : A -> parsed B), m <> Foreign ->
    (forall a, f a <> Foreign) -> (a ← m; f a) <> Foreign) by (intros A B [] f Hm Hf; cbn; [apply Hf|done|done]).
  induction p as [|c p [IH0 IH1]]; [done|]. rewrite lazy_mark_tail, source_tail_cons.
  generalize dependent (source_tail p). intros s IH0 IH1.
  destruct (decide (c = "?"%char)) as [->|Hq]; [|destruct (decide (c = "*"%char)) as [->|Hs]].
  - split; [|done]. change (lex 0 (unit_source "?"%char ++ s)) with
      (let lz := lazy_mark s in
       ts ← lex (if lz then 1 else 0) s; Parsed (TQuant 0 (Some 1) (negb lz) :: ts)).
    cbn zeta. apply Hb; [|done]. destruct (lazy_mark s); auto.
  - split; [|done]. change (lex 0 (unit_source "*"%char ++ s)) with
      (ts ← (let lz := lazy_mark s in
             ts ← lex (if lz then 1 else 0) s; Parsed (TQuant 0 None (negb lz) :: ts));
       Parsed (TAtom true [one "/"%char] :: ts)).
    cbn zeta. apply Hb; [|done]. apply Hb; [|done]. destruct (lazy_mark s); auto.
  - split; [|intros H; reflect; by subst].
    replace (lex 0 (unit_source c ++ s)) with (ts ← lex 0 s; Parsed (TAtom false [one c] :: ts));
      [by apply Hb|].
    destruct c as [[] [] [] [] [] [] [] []]; first [reflexivity|by destruct Hq|by destruct Hs].
Qed.

Definition fails_only_on_syntax {A} (r : res string A) : Prop :=
  match r with Ok _ => True | Throw e => e = "SyntaxError" end.
Lemma fails_bind {A B} (m : res string A) (f : A -> res string B) :
  fails_only_on_syntax m -> (forall a, fails_only_on_syntax (f a)) -> fails_only_on_syntax (a ← m; f a).
Proof. destruct m; cbn; auto. Qed.

Lemma matchSingle_fails p s : fails_only_on_syntax (matchSingle p s).
Proof.
  unfold matchSingle. destruct (p === "*"); [done|].
  destruct (new_RegExp (segment_source p) false) eqn:E; [done..|exfalso].
  unfold new_RegExp, segment_source in E. rewrite String.list_ascii_of_string_of_list_ascii in E.
  change (lex 0 ("^"%char :: _)) with
    (ts ← lex 0 (source_tail (String.list_ascii_of_string p)); Parsed (TAssert RBol :: ts)) in E.
  destruct (lex 0 (source_tail _)) eqn:El; cbn [mbind parsed_bind] in E; [|done|exact (proj1 (lex_source_not_foreign _) El)].
  destruct (parse_tokens _ _ _) eqn:Ep; cbn [mbind parsed_bind] in E; try done. exact (parse_tokens_not_foreign _ _ _ Ep).
Qed.
Lemma matchSegments_fails pattern : forall path, fails_only_on_syntax (matchSegments pattern path).
Proof.
  induction pattern as [|p pattern IH]; intros path; [done|]. cbn [matchSegments]. destruct (p === "**").
  - destruct pattern as [|q pattern]; [done|]. change (fails_only_on_syntax (from_any (matchSegments (q :: pattern)) path)).
    induction path as [|seg path IHp]; cbn [from_any]; [apply IH|]. apply fails_bind; [apply IH|].
    by intros [].
  - destruct path as [|seg path]; [done|]. apply fails_bind; [apply matchSingle_fails|]. intros []; [apply IH|done].
Qed.

(** The recursion on exclusions ends: a match answers or throws the
    [SyntaxError] of a segment. *)
Lemma match_pattern_fails fuel : forall pattern filePath,
  String.length pattern < fuel -> fails_only_on_syntax (match_pattern fuel pattern filePath).
Proof.
  induction fuel as [|fuel IH]; intros pattern filePath Hf; [lia|]. cbn [match_pattern].
  destruct (after_prefix "!" pattern) as [rest|] eqn:E1.
  { apply length_after_prefix in E1. cbn in E1. apply fails_bind; [apply IH; lia|done]. }
  destruct (after_prefix "/!" (normalizePathForPattern pattern)) as [rest|] eqn:E2; [|apply matchSegments_fails].
  apply length_after_prefix in E2. pose proof (length_normalized pattern). cbn in E2.
  apply fails_bind; [apply IH; lia|done].
Qed.
Lemma matchPathPattern_total pattern filePath : fails_only_on_syntax (matchPathPattern pattern filePath).
Proof. apply match_pattern_fails. lia. Qed.

(** C23: a path pattern selects what it says: when it holds no question mark and
    is no exclusion, matching returns whether the normalized path is in the
    language of the normalized pattern, where [**] stands for any segments, [*]
    for any units within a segment and everything else for itself; and [!pattern]
    returns the opposite. *)
Theorem path_pattern_decides pattern filePath :
  has_char "?"%char pattern = false -> exclusion pattern = false ->
  (exists b, matchPathPattern pattern filePath = Ok b /\
     (b = true <-> glob_path (rooted (pattern_segments pattern)) (rooted (pattern_segments filePath)))) /\
  matchPathPattern (String "!"%char pattern) filePath = (negb <$> matchPathPattern pattern filePath).
Proof.
  intros Hq Hx. split.
  - unfold matchPathPattern. rewrite match_pattern_plain by done. rewrite !split_normalized.
    apply matchSegments_iff. by apply segments_no_char.
  - unfold matchPathPattern. cbn [String.length]. change (match_pattern (S (S ?n)) (String "!" ?p) ?f)
      with (b ← match_pattern (S n) p f; Ok (negb b)).
    by destruct (match_pattern _ _ _).
Qed.

Lemma path_pattern_decides_witness :
  (exists b, matchPathPattern "src/**/*.ts" "src/./a//b/../c.ts" = Ok b /\
     (b = true <-> glob_path ["";"src";"**";"*.ts"] ["";"src";"a";"c.ts"])) /\
  matchPathPattern "!src/**/*.ts" "src/./a//b/../c.ts" = (negb <$> matchPathPattern "src/**/*.ts" "src/./a//b/../c.ts").
Proof. exact (path_pattern_decides "src/**/*.ts" "src/./a//b/../c.ts" eq_refl eq_refl). Defined.

(** A question mark in a segment is not matched as itself: it makes the unit
    before it optional, and at the start of a segment it throws. *)
Lemma question_mark_is_quantifier :
  matchPathPattern "notes?.md" "notes?.md" = Ok false /\
  matchPathPattern "notes?.md" "note.md" = Ok true /\
  matchPathPattern "?.md" "a.md" = Throw "SyntaxError".
Proof. by vm_compute. Qed.
