(* ===== verification/ToolTypes.v ===== *)
(** Tools and their descriptors.

    Models the data of [src/src/tools/registry.ts] and
    [src/src/tools/tool-contract.ts], with the projection of a tool's contract
    and the category of a tool ([inferToolCategory] of
    [src/src/agent/permission.ts]).  What a tool's handler does is not
    represented. *)
From S2P Require Import Prelude Json.
Open Scope string_scope.
Open Scope list_scope.

(** src/src/agent/permission.ts # PermissionLevel *)
Inductive PermissionLevel := allow | ask | deny.
(** src/src/agent/permission.ts # ToolCategory *)
Inductive ToolCategory := safe | file | network | shell | git.

#[export] Instance permission_level_eq_dec : EqDecision PermissionLevel.
Proof. solve_decision. Defined.
#[export] Instance tool_category_eq_dec : EqDecision ToolCategory.
Proof. solve_decision. Defined.

Definition category_name (c : ToolCategory) : string :=
  match c with safe => "safe" | file => "file" | network => "network" | shell => "shell" | git => "git" end.

(** src/src/tools/tool-contract.ts # ToolSideEffect *)
Inductive ToolSideEffect :=
| eff_none | eff_workspace_write | eff_shell | eff_network | eff_external_process | eff_runtime_state.
(** src/src/tools/tool-contract.ts # ToolProvenance *)
Inductive ToolProvenance := prov_local | prov_mcp.
(** src/src/tools/tool-contract.ts # ToolStateUpdate *)
Inductive ToolStateUpdate := upd_file_state | upd_evidence | upd_checkpoint | upd_runtime_state.

#[export] Instance tool_side_effect_eq_dec : EqDecision ToolSideEffect.
Proof. solve_decision. Defined.
#[export] Instance tool_provenance_eq_dec : EqDecision ToolProvenance.
Proof. solve_decision. Defined.
#[export] Instance tool_state_update_eq_dec : EqDecision ToolStateUpdate.
Proof. solve_decision. Defined.

(** src/src/tools/tool-contract.ts # ToolContractMetadata

    The fields the projection's consumers read. *)
Record ToolContractMetadata := mkMetadata {
  cm_provenance : option ToolProvenance;
  cm_sideEffects : option (list ToolSideEffect);
  cm_stateUpdates : option (list ToolStateUpdate);
  cm_cooperativeCancellation : option bool;
}.
Definition no_metadata : ToolContractMetadata := mkMetadata None None None None.

(** src/src/tools/registry.ts # ToolDef

    Without the handlers, of which only the presence of the streaming one is
    kept, and the texts shown to the model. *)
Record ToolDef := mkTool {
  td_name : string;
  td_isReadonly : bool;
  td_isConcurrencySafe : option bool;
  td_requiresConfirmation : option bool;
  td_category : option ToolCategory;
  td_permission : option PermissionLevel;
  td_contract : ToolContractMetadata;
  td_streaming : bool;
}.

(** src/src/tools/registry.ts # ToolResult

    A content the handler left undefined is [None]; so is an absent error, or
    an absent key [metadata] ([Some JUndef] is a present one). *)
Record ToolResult := mkToolResult {
  tr_success : bool;
  tr_content : option string;
  tr_error : option string;
  tr_metadata : option jsval;
}.

(** The result as the value the schema validator reads. *)
Definition result_value (r : ToolResult) : jsval :=
  JObj ([("success", JBool (tr_success r)); ("content", match tr_content r with Some s => JStr s | None => JUndef end)] ++
        match tr_error r with Some e => [("error", JStr e)] | None => [] end ++
        match tr_metadata r with Some m => [("metadata", m)] | None => [] end).

(** src/src/agent/permission.ts # inferToolCategory *)
Definition inferToolCategory (toolName : string) (tool : option ToolDef) : ToolCategory :=
  match tool ≫= td_category with
  | Some c => c
  | None =>
      if includes ["read_file";"find_symbol";"find_references";"project_structure";"lsp_diagnostics";"lsp_hover";"lsp_definition";"lsp_references";"typescript_no_emit"] toolName then safe
      else if includes ["write_file";"edit_file";"multi_edit";"edit_fim";"rollback_transaction"] toolName then file
      else if includes ["git_status";"git_diff";"git_log";"git_blame"] toolName then git
      else if includes ["web_search";"web_fetch"] toolName then network
      else if includes ["shell";"start_service"] toolName then shell
      else if match tool with Some t => td_isReadonly t | None => false end then safe else shell
  end.
