(* ===== verification/Permission.v ===== *)
(** The permission gate.

    Models [src/src/agent/permission.ts], the rules of
    [src/src/agent/permission-config.ts] and the forbidden paths of
    [src/src/sandbox/forbidden-patterns.ts].  Parameters of a call are a JSON
    object.  The sentences shown to the user are represented by the reason they
    state.  A rule's [paramPattern] is read by [Regex]; the constructs that
    module does not read are evaluated by the host engine, a parameter. *)
From S2P Require Import Prelude Json Schema Paths Regex PathPattern ToolTypes.
Open Scope string_scope.
Open Scope list_scope.

(** ** Forbidden paths *)

Module Forbidden.

(** src/src/sandbox/forbidden-patterns.ts # FORBIDDEN_SECRET_FILES

    Source text and [i] flag. *)
Definition FORBIDDEN_SECRET_FILES : list (string * bool) :=
  [("\.env(\..*)?$", false); ("\.pem$", false); ("id_rsa$", false); ("id_ecdsa$", false);
   ("id_ed25519$", false); ("credentials\.json$", false); ("\.htpasswd$", false); ("secret\.ya?ml$", true)].

(** src/src/sandbox/forbidden-patterns.ts # FORBIDDEN_SECRET_PATH_PATTERN *)
Definition FORBIDDEN_SECRET_PATH_PATTERN : RegExp :=
  literal (js_join "|" (map (fun p => "(?:" +:+ p.1 +:+ ")") FORBIDDEN_SECRET_FILES)) true.

(** src/src/sandbox/forbidden-patterns.ts # isForbiddenSecretPath *)
Definition isForbiddenSecretPath (filePath : string) : bool :=
  RegExp_test FORBIDDEN_SECRET_PATH_PATTERN (slashes filePath).

(** src/src/sandbox/forbidden-patterns.ts # FORBIDDEN_RUNTIME_DIRS *)
Definition FORBIDDEN_RUNTIME_DIRS : list (string * bool) :=
  [("(^|\/)\.orcana\b", false); ("(^|\/)\.codegraph\b", false); ("(^|\/)\.wolf\b", false);
   ("(^|\/)node_modules\b", false)].
(** src/src/sandbox/forbidden-patterns.ts # FORBIDDEN_VCS_DIRS *)
Definition FORBIDDEN_VCS_DIRS : list (string * bool) := [("(^|\/)\.git\b", false)].
(** src/src/sandbox/forbidden-patterns.ts # ALL_FORBIDDEN_PATTERNS *)
Definition ALL_FORBIDDEN_PATTERNS : list (string * bool) :=
  FORBIDDEN_SECRET_FILES ++ FORBIDDEN_RUNTIME_DIRS ++ FORBIDDEN_VCS_DIRS.

(** src/src/sandbox/forbidden-patterns.ts # isForbiddenPath *)
Definition isForbiddenPath (filePath : string) : option string :=
  let normalized := slashes filePath in
  fst <$> List.find (fun p => RegExp_test (literal p.1 p.2) normalized) ALL_FORBIDDEN_PATTERNS.

(** src/src/sandbox/forbidden-patterns.ts # isOutsideProjectRoot

    On a POSIX host, where [resolve] does not throw. *)
Definition isOutsideProjectRoot (cwd filePath projectRoot : string) : bool :=
  let resolved := path_resolve cwd [filePath] in
  let rel := path_relative cwd projectRoot resolved in
  match after_prefix ".." rel with Some _ => true | None => false end.

End Forbidden.
Import Forbidden.

(** ** Rules *)

(** src/src/agent/permission-config.ts # PermissionRule *)
Record PermissionRule := mkRule {
  rl_toolName : string;
  rl_paramKey : option string;
  rl_paramPattern : option string;
  rl_pathPattern : option string;
  rl_level : PermissionLevel;
  rl_reason : string;
}.

(** src/src/agent/permission-config.ts # PermissionConfig *)
Record PermissionConfig := mkConfig {
  cf_rules : list PermissionRule;
  cf_categoryOverrides : jsval;
}.

(** src/src/agent/permission-config.ts # ConfigLoadResult *)
Inductive ConfigLoadResult :=
| cfg_missing
| cfg_valid (config : PermissionConfig)
| cfg_invalid (error : string).

(** What [existsSync], [readFileSync] and [JSON.parse] find. *)
Inductive ConfigFile :=
| no_file
| unreadable (message : string)
| not_json
| json_text (parsed : jsval).

Definition string_member (k : string) (v : jsval) : option string :=
  match field k v with JStr s => Some s | _ => None end.

(** One element of [rules]: the filter's verdict; reading a member of [null]
    or [undefined] throws.  Optional members that are not strings violate the
    declared type and are read as absent. *)
Definition read_rule (r : jsval) : res unit (option PermissionRule) :=
  match r with
  | JUndef | JNull => Throw ()
  | _ =>
      Ok (match field "toolName" r, field "level" r with
          | JStr toolName, JStr level =>
              let rule l := mkRule toolName (string_member "paramKey" r) (string_member "paramPattern" r)
                              (string_member "pathPattern" r) l (default "" (string_member "reason" r)) in
              if level === "allow" then Some (rule allow)
              else if level === "deny" then Some (rule deny) else None
          | _, _ => None
          end)
  end.
Fixpoint read_rules (rs : list jsval) : res unit (list PermissionRule) :=
  match rs with
  | [] => Ok []
  | r :: rs => o ← read_rule r; rest ← read_rules rs;
               Ok (match o with Some rule => rule :: rest | None => rest end)
  end.

(** src/src/agent/permission-config.ts # loadConfigFile *)
Definition loadConfigFile (f : ConfigFile) : ConfigLoadResult :=
  match f with
  | no_file => cfg_missing
  | unreadable message => cfg_invalid ("unreadable: " +:+ message)
  | not_json => cfg_invalid "invalid JSON"
  | json_text v =>
      if falsy v || negb (is_object v) then cfg_invalid "config is not an object"
      else match read_rules (elements_of (field "rules" v)) with
           | Ok rules => cfg_valid (mkConfig rules (field "categoryOverrides" v))
           | Throw _ => cfg_invalid "invalid JSON"
           end
  end.

(** [new RegExp(source, "i").test(value)] on a construct outside [Regex]:
    [None] when the engine rejects the source. *)
Class HostRegExp := foreign_test : string -> string -> option bool.

Definition truthy_string (o : option string) : option string :=
  match o with Some "" => None | _ => o end.
Definition param_text (params : jsval) (key : string) : string := to_string (jor (field key params) (JStr "")).

Inductive rule_match := unmatched | matched (level : PermissionLevel) (reason : string).

Section rules.
Context `{HostRegExp}.

(** The [try] block around the parameter's pattern: a source that does not
    compile does not match. *)
Definition pattern_test (source value : string) : bool :=
  match new_RegExp source true with
  | Parsed re => RegExp_test re value
  | BadSyntax => false
  | Foreign => default false (foreign_test source value)
  end.

(** src/src/agent/permission-config.ts # matchRule *)
Definition matchRule (rule : PermissionRule) (toolName : string) (params : jsval) : res string rule_match :=
  if negb (rl_toolName rule === "*") && negb (rl_toolName rule === toolName) then Ok unmatched
  else
    let key := truthy_string (rl_paramKey rule) in
    let pattern_ok :=
      match key, truthy_string (rl_paramPattern rule) with
      | Some k, Some p => pattern_test p (param_text params k)
      | _, _ => true
      end in
    if negb pattern_ok then Ok unmatched
    else
      path_ok ← match truthy_string (rl_pathPattern rule), key with
                | Some p, Some k => matchPathPattern p (param_text params k)
                | _, _ => Ok true
                end;
      Ok (if (path_ok : bool) then matched (rl_level rule) (rl_reason rule) else unmatched).

(** src/src/agent/permission-config.ts # matchFirstRule *)
Fixpoint matchFirstRule (rules : list PermissionRule) (toolName : string) (params : jsval) :
    res string (option (PermissionLevel * string)) :=
  match rules with
  | [] => Ok None
  | rule :: rules =>
      result ← matchRule rule toolName params;
      match result with
      | matched level reason => Ok (Some (level, reason))
      | unmatched => matchFirstRule rules toolName params
      end
  end.
End rules.

(** ** The gate *)

(** src/src/agent/permission.ts # CATEGORY_DEFAULTS *)
Definition CATEGORY_DEFAULTS (c : ToolCategory) : PermissionLevel :=
  match c with safe => allow | file => ask | network => ask | shell => ask | git => allow end.

(** src/src/agent/permission.ts # extractProcessCommandText *)
Definition extractProcessCommandText (toolName : string) (params : jsval) : option string :=
  if toolName === "shell" then Some (param_text params "command")
  else if toolName === "run_shell_script" then Some (param_text params "script")
  else if toolName === "run_process" then
    let executable := to_string (jor (jor (field "executable" params) (field "command" params)) (JStr "")) in
    let args := match field "args" params with JArr vs => js_join " " (map to_string vs) | _ => "" end in
    Some (trim (executable +:+ " " +:+ args))
  else if toolName === "service" then
    Some (to_string (jor (jor (field "command" params) (field "action" params)) (JStr "")))
  else None.

(** Why a call is allowed, must be confirmed or is denied. *)
Inductive PermissionReason :=
| rs_destructive_command | rs_remote_script | rs_secret_file
| rs_rule (reason : string)
| rs_safe_mode (reason : string)
| rs_session_denied | rs_high_risk (level : Z) | rs_session_allowed
| rs_declared_denied | rs_declared_allowed
| rs_category_denied (c : ToolCategory) | rs_category_allowed (c : ToolCategory) | rs_category_ask (c : ToolCategory).

(** src/src/agent/permission.ts # PermissionResult *)
Record PermissionResult := mkPermission {
  pr_allowed : bool;
  pr_level : PermissionLevel;
  pr_reason : PermissionReason;
}.
Definition denied (r : PermissionReason) : PermissionResult := mkPermission false deny r.
Definition asked (r : PermissionReason) : PermissionResult := mkPermission false ask r.
Definition granted (r : PermissionReason) : PermissionResult := mkPermission true allow r.

(** src/src/agent/permission.ts # DenyRule *)
Record DenyRule := mkDenyRule {
  dr_toolName : string;
  dr_paramKey : option string;
  dr_paramPattern : RegExp;
  dr_processCommand : bool;
  dr_reason : PermissionReason;
}.

(** src/src/agent/permission.ts # GLOBAL_DENY_RULES *)
Definition GLOBAL_DENY_RULES : list DenyRule :=
  [mkDenyRule "shell" None (literal "rm\s+-rf\s+\/|:\s+(){ :\|:&\s*};:|mkfs\.|dd\s+if=" true) true rs_destructive_command;
   mkDenyRule "shell" None (literal "curl.*\|\s*(ba)?sh|wget.*\|\s*(ba)?sh" true) true rs_remote_script;
   mkDenyRule "write_file" (Some "path") FORBIDDEN_SECRET_PATH_PATTERN false rs_secret_file].

Definition deny_rule_matches (rule : DenyRule) (toolName : string) (params : jsval) : bool :=
  if dr_processCommand rule then
    match extractProcessCommandText toolName params with
    | None => false
    | Some command => RegExp_test (dr_paramPattern rule) command
    end
  else if negb (dr_toolName rule === toolName) then false
  else match dr_paramKey rule with
       | Some key => RegExp_test (dr_paramPattern rule) (param_text params key)
       | None => false
       end.

(** src/src/agent/permission.ts # PermissionGate *)
Record PermissionGate := mkGate {
  g_overrides : gmap string PermissionLevel;
  g_userDenyRules : list PermissionRule;
  g_userAllowRules : list PermissionRule;
  g_projectDenyRules : list PermissionRule;
  g_projectAllowRules : list PermissionRule;
  g_safeModeReason : option string;
  g_categoryOverrides : list (string * jsval);
}.
Definition newPermissionGate : PermissionGate := mkGate ∅ [] [] [] [] None [].

(** src/src/agent/permission.ts # PermissionGate.reset *)
Definition gate_reset (g : PermissionGate) : PermissionGate :=
  mkGate ∅ (g_userDenyRules g) (g_userAllowRules g) (g_projectDenyRules g) (g_projectAllowRules g)
    (g_safeModeReason g) (g_categoryOverrides g).
(** src/src/agent/permission.ts # PermissionGate.enterSafeMode *)
Definition enterSafeMode (reason : string) (g : PermissionGate) : PermissionGate :=
  mkGate (g_overrides g) (g_userDenyRules g) (g_userAllowRules g) (g_projectDenyRules g) (g_projectAllowRules g)
    (Some reason) (g_categoryOverrides g).
Definition set_override (toolName : string) (l : PermissionLevel) (g : PermissionGate) : PermissionGate :=
  mkGate (<[toolName := l]> (g_overrides g)) (g_userDenyRules g) (g_userAllowRules g) (g_projectDenyRules g)
    (g_projectAllowRules g) (g_safeModeReason g) (g_categoryOverrides g).
(** src/src/agent/permission.ts # PermissionGate.allow *)
Definition gate_allow (toolName : string) : PermissionGate -> PermissionGate := set_override toolName allow.
(** src/src/agent/permission.ts # PermissionGate.deny *)
Definition gate_deny (toolName : string) : PermissionGate -> PermissionGate := set_override toolName deny.

Definition rules_of_level (l : PermissionLevel) (rules : list PermissionRule) : list PermissionRule :=
  filter (fun r => rl_level r = l) rules.

(** src/src/agent/permission.ts # PermissionGate.loadRules *)
Definition loadRules (userRules projectRules : list PermissionRule) (overrides : option (list (string * jsval)))
    (g : PermissionGate) : PermissionGate :=
  mkGate (g_overrides g) (rules_of_level deny userRules) (rules_of_level allow userRules)
    (rules_of_level deny projectRules) (rules_of_level allow projectRules)
    (g_safeModeReason g) (default (g_categoryOverrides g) overrides).
(** src/src/agent/permission.ts # PermissionGate.unloadRules *)
Definition unloadRules (g : PermissionGate) : PermissionGate :=
  mkGate (g_overrides g) [] [] [] [] (g_safeModeReason g) (g_categoryOverrides g).

(** [this.categoryOverrides[cat] ?? CATEGORY_DEFAULTS[cat]], of which only the
    comparisons with ["deny"] and ["allow"] are read. *)
Definition default_permission (g : PermissionGate) (cat : ToolCategory) : PermissionLevel :=
  match jget (category_name cat) (g_categoryOverrides g) with
  | None | Some JUndef | Some JNull => CATEGORY_DEFAULTS cat
  | Some (JStr l) => if l === "deny" then deny else if l === "allow" then allow else ask
  | Some _ => ask
  end.

Section check.
Context `{HostRegExp}.
Variable g : PermissionGate.
Variable toolName : string.
Variable params : jsval.
Variable tool : option ToolDef.
Variable riskLevel : option Z.

(** Step 1. *)
Definition global_denial : option PermissionResult :=
  denied ∘ dr_reason <$> List.find (fun rule => deny_rule_matches rule toolName params) GLOBAL_DENY_RULES.

(** Steps 2, 3, 6 and 7. *)
Definition rule_verdict (rules : list PermissionRule) (verdict : PermissionReason -> PermissionResult) :
    res string (option PermissionResult) :=
  m ← matchFirstRule rules toolName params;
  Ok (match m with Some (_, reason) => Some (verdict (rs_rule reason)) | None => None end).

(** Step 2.5: only the declared category counts. *)
Definition safe_mode_verdict : option PermissionResult :=
  match truthy_string (g_safeModeReason g), tool ≫= td_category with
  | Some reason, Some (file | network | shell) => Some (asked (rs_safe_mode reason))
  | _, _ => None
  end.

(** Steps 4 and 5. *)
Definition override_verdict : option PermissionResult :=
  match g_overrides g !! toolName with
  | Some deny => Some (denied rs_session_denied)
  | Some allow =>
      match riskLevel with
      | Some r => if (4 <=? r)%Z then Some (asked (rs_high_risk r)) else Some (granted rs_session_allowed)
      | None => Some (granted rs_session_allowed)
      end
  | _ => None
  end.

(** Steps 8 and 9. *)
Definition default_verdict : PermissionResult :=
  match tool ≫= td_permission with
  | Some deny => denied rs_declared_denied
  | Some allow => granted rs_declared_allowed
  | _ =>
      let cat := inferToolCategory toolName tool in
      match default_permission g cat with
      | deny => denied (rs_category_denied cat)
      | allow => granted (rs_category_allowed cat)
      | ask => asked (rs_category_ask cat)
      end
  end.

(** [if (x) return x], on a layer that may throw. *)
Definition or_else (layer : res string (option PermissionResult)) (rest : res string PermissionResult) :
    res string PermissionResult :=
  o ← layer; match o with Some r => Ok r | None => rest end.

(** src/src/agent/permission.ts # PermissionGate.check *)
Definition gate_check : res string PermissionResult :=
  or_else (Ok global_denial) (
  or_else (rule_verdict (g_userDenyRules g) denied) (
  or_else (Ok safe_mode_verdict) (
  or_else (rule_verdict (g_projectDenyRules g) denied) (
  or_else (Ok override_verdict) (
  or_else (rule_verdict (g_projectAllowRules g) granted) (
  or_else (rule_verdict (g_userAllowRules g) granted) (
  Ok default_verdict))))))).
End check.

(** ** Properties *)

Section properties.
Context `{HostRegExp}.
Implicit Types (g : PermissionGate) (tool : option ToolDef) (risk : option Z).

Lemma or_else_Ok layer rest r :
  or_else layer rest = Ok r <-> layer = Ok (Some r) \/ layer = Ok None /\ rest = Ok r.
Proof. unfold or_else. destruct layer as [[x|]|e]; cbn; naive_solver. Qed.

(** Some rule of the list applies to the call. *)
Definition speaks (rules : list PermissionRule) (toolName : string) (params : jsval) : Prop :=
  exists lr, matchFirstRule rules toolName params = Ok (Some lr).

Lemma rule_verdict_Some toolName params rules verdict r :
  rule_verdict toolName params rules verdict = Ok (Some r) ->
  speaks rules toolName params /\ exists reason, r = verdict (rs_rule reason).
Proof.
  unfold rule_verdict, speaks. destruct (matchFirstRule _ _ _) as [[[l reason]|]|]; cbn; naive_solver.
Qed.
Lemma rule_verdict_None toolName params rules verdict :
  rule_verdict toolName params rules verdict = Ok None -> ~ speaks rules toolName params.
Proof.
  unfold rule_verdict, speaks. destruct (matchFirstRule _ _ _) as [[[l reason]|]|]; cbn; naive_solver.
Qed.

(** A layer of the chain that no permission can lift. *)
Definition hard_denied g (toolName : string) (params : jsval) : Prop :=
  (exists rule, rule ∈ GLOBAL_DENY_RULES /\ deny_rule_matches rule toolName params = true) \/
  speaks (g_userDenyRules g) toolName params \/
  speaks (g_projectDenyRules g) toolName params \/
  g_overrides g !! toolName = Some deny.

Definition in_safe_mode g : Prop := truthy_string (g_safeModeReason g) <> None.
Definition safe_mode_covers tool : Prop :=
  exists c, tool ≫= td_category = Some c /\ (c = file \/ c = network \/ c = shell).
Definition high_risk risk : Prop := exists r, risk = Some r /\ (4 <= r)%Z.

(** What lets a call through when nothing forbids it. *)
Definition let_through g (toolName : string) (params : jsval) tool risk : Prop :=
  if decide (g_overrides g !! toolName = Some allow) then ~ high_risk risk
  else speaks (g_projectAllowRules g) toolName params \/ speaks (g_userAllowRules g) toolName params \/
       tool ≫= td_permission = Some allow \/
       (tool ≫= td_permission <> Some deny /\
        default_permission g (inferToolCategory toolName tool) = allow).

Lemma global_denial_iff toolName params :
  (exists rule, rule ∈ GLOBAL_DENY_RULES /\ deny_rule_matches rule toolName params = true) <->
  global_denial toolName params <> None.
Proof.
  unfold global_denial. destruct (List.find _ _) as [rule|] eqn:E; cbn; split; try done.
  - intros _. apply List.find_some in E as [Hin Hm]. exists rule. by rewrite list_elem_of_In.
  - intros (rule & Hin & Hm). eapply List.find_none in E; [|by apply list_elem_of_In]. congruence.
Qed.

Lemma safe_mode_verdict_iff g tool :
  safe_mode_verdict g tool <> None <-> in_safe_mode g /\ safe_mode_covers tool.
Proof.
  unfold safe_mode_verdict, in_safe_mode, safe_mode_covers.
  destruct (truthy_string _); [|naive_solver]. destruct (tool ≫= td_category) as [[]|]; naive_solver.
Qed.

Lemma safe_mode_verdict_asks g tool r : safe_mode_verdict g tool = Some r -> pr_allowed r = false.
Proof. unfold safe_mode_verdict. intros H'. by cases_in H'. Qed.

Lemma override_verdict_spec g toolName risk :
  match override_verdict g toolName risk with
  | Some r => (pr_allowed r = true <-> g_overrides g !! toolName = Some allow /\ ~ high_risk risk) /\
              (g_overrides g !! toolName = Some allow \/ g_overrides g !! toolName = Some deny)
  | None => g_overrides g !! toolName <> Some deny /\ g_overrides g !! toolName <> Some allow
  end.
Proof.
  unfold override_verdict, high_risk. destruct (g_overrides g !! toolName) as [[]|]; cbn; [|naive_solver..].
  destruct risk as [r|]; [destruct (4 <=? r)%Z eqn:E; reflect|]; cbn; [naive_solver| |naive_solver].
  split; [|by left]. split; [|done]. intros _. split; [done|]. intros (? & [= <-] & ?). lia.
Qed.
Lemma default_verdict_spec g toolName tool :
  pr_allowed (default_verdict g toolName tool) = true <->
  tool ≫= td_permission = Some allow \/
  (tool ≫= td_permission <> Some deny /\ default_permission g (inferToolCategory toolName tool) = allow).
Proof.
  unfold default_verdict. destruct (tool ≫= td_permission) as [[]|]; try naive_solver;
    destruct (default_permission _ _); naive_solver.
Qed.

Lemma refused_iff (r : PermissionResult) (A B C : Prop) :
  pr_allowed r = false -> (A -> B -> False) -> pr_allowed r = true <-> A /\ B /\ C.
Proof. intros -> Hn. split; [done|]. intros (HA & HB & _). by destruct (Hn HA HB). Qed.

Lemma gate_allows g toolName params tool risk r :
  gate_check g toolName params tool risk = Ok r ->
  pr_allowed r = true <->
  ~ hard_denied g toolName params /\ ~ (in_safe_mode g /\ safe_mode_covers tool) /\
  let_through g toolName params tool risk.
Proof.
  unfold gate_check, hard_denied, let_through. rewrite global_denial_iff, <- safe_mode_verdict_iff.
  pose proof (override_verdict_spec g toolName risk) as Ho. intros Hc.
  apply or_else_Ok in Hc as [[= E1]|[[= E1] Hc]]; rewrite E1.
  { unfold global_denial in E1. destruct (List.find _ _); [|done]. injection E1 as <-.
    apply refused_iff; [done|]. intros Hn _. apply Hn. by left. }
  apply or_else_Ok in Hc as [[Hs [? ->]]%rule_verdict_Some|[Hu%rule_verdict_None Hc]].
  { apply refused_iff; [done|]. tauto. }
  apply or_else_Ok in Hc as [[= E2]|[[= E2] Hc]]; rewrite E2.
  { apply refused_iff; [by eapply safe_mode_verdict_asks|]. intros _ Hn. by apply Hn. }
  apply or_else_Ok in Hc as [[Hs [? ->]]%rule_verdict_Some|[Hp%rule_verdict_None Hc]].
  { apply refused_iff; [done|]. tauto. }
  apply or_else_Ok in Hc as [[= E3]|[[= E3] Hc]]; rewrite E3 in Ho.
  { destruct Ho as [-> Ho]. case_decide as Ha; [rewrite Ha; intuition congruence|tauto]. }
  destruct Ho as [Hd Ha]. rewrite decide_False by done.
  apply or_else_Ok in Hc as [[Hs [? ->]]%rule_verdict_Some|[Hpa%rule_verdict_None Hc]]; [cbn; tauto|].
  apply or_else_Ok in Hc as [[Hs [? ->]]%rule_verdict_Some|[Hua%rule_verdict_None Hc]]; [cbn; tauto|].
  injection Hc as <-. rewrite default_verdict_spec. tauto.
Qed.
(** A denial that precedes safe mode in the chain. *)
Definition firmly_denied g (toolName : string) (params : jsval) : Prop :=
  (exists rule, rule ∈ GLOBAL_DENY_RULES /\ deny_rule_matches rule toolName params = true) \/
  speaks (g_userDenyRules g) toolName params.

(** A denial is answered as one, unless safe mode asks before it is read. *)
Lemma gate_denies g toolName params tool risk r :
  gate_check g toolName params tool risk = Ok r ->
  firmly_denied g toolName params \/
    hard_denied g toolName params /\ ~ (in_safe_mode g /\ safe_mode_covers tool) ->
  pr_level r = deny.
Proof.
  unfold gate_check, firmly_denied, hard_denied. rewrite global_denial_iff, <- safe_mode_verdict_iff. intros Hc.
  apply or_else_Ok in Hc as [[= E1]|[[= E1] Hc]]; rewrite E1.
  { unfold global_denial in E1. destruct (List.find _ _); [|done]. by injection E1 as <-. }
  apply or_else_Ok in Hc as [[Hs [? ->]]%rule_verdict_Some|[Hu%rule_verdict_None Hc]]; [done|].
  intros Hd. assert (Hd' : (speaks (g_projectDenyRules g) toolName params \/ g_overrides g !! toolName = Some deny) /\
                           safe_mode_verdict g tool = None).
  { destruct (safe_mode_verdict g tool); intuition congruence. }
  clear Hd. destruct Hd' as [Hd E2]. rewrite E2 in Hc.
  apply or_else_Ok in Hc as [[=]|[_ Hc]].
  apply or_else_Ok in Hc as [[Hs [? ->]]%rule_verdict_Some|[Hp%rule_verdict_None Hc]]; [done|].
  assert (Ho : g_overrides g !! toolName = Some deny) by tauto.
  unfold override_verdict in Hc. rewrite Ho in Hc. by apply or_else_Ok in Hc as [[= <-]|[[=] _]].
Qed.

(** deny overrides allow: when the gate answers, it allows a call exactly when no
    global rule, user or project deny rule and no session denial applies, safe
    mode does not cover it, and it is let through: by a session approval of a tool
    that is not high-risk, or, without one, by an allow rule, the tool's
    declaration or the category's default. *)
Theorem gate_allows_iff g toolName params tool risk r :
  gate_check g toolName params tool risk = Ok r ->
  pr_allowed r = true <->
  ~ hard_denied g toolName params /\ ~ (in_safe_mode g /\ safe_mode_covers tool) /\
  let_through g toolName params tool risk.
Proof. apply gate_allows. Qed.
End properties.

Definition plain_tool (name : string) (readonly : bool) (c : option ToolCategory) : ToolDef :=
  mkTool name readonly None None c None no_metadata false.
Definition one_param (k v : string) : jsval := JObj [(k, JStr v)].
Definition no_foreign : HostRegExp := fun _ _ => None.

(** A project rule allows the project's tests to be run; a user rule denies
    scripts that touch a directory. *)
Definition sample_gate : PermissionGate :=
  loadRules [mkRule "run_process" (Some "command") (Some "secrets?/") None deny "no secrets"]
            [mkRule "run_process" (Some "command") (Some "^bun test\b") None allow "tests"] None newPermissionGate.

Lemma gate_allows_iff_witness :
  pr_allowed (granted (rs_rule "tests")) = true <->
  ~ hard_denied (H := no_foreign) sample_gate "run_process" (one_param "command" "bun test src") /\
  ~ (in_safe_mode sample_gate /\ safe_mode_covers (Some (plain_tool "run_process" false (Some shell)))) /\
  let_through (H := no_foreign) sample_gate "run_process" (one_param "command" "bun test src")
    (Some (plain_tool "run_process" false (Some shell))) (Some 4%Z).
Proof.
  apply (gate_allows_iff (H := no_foreign)). vm_compute. reflexivity.
Defined.

(** The first global rule means to stop a fork bomb, but its parentheses are a
    group: it asks for blanks after the first colon and for no parentheses. *)
Lemma fork_bomb_not_denied :
  global_denial "shell" (one_param "command" ":(){ :|:& };:") = None /\
  global_denial "run_shell_script" (one_param "script" ":(){ :|:& };:") = None /\
  global_denial "shell" (one_param "command" ":  { :|:& };:") = Some (denied rs_destructive_command).
Proof. by vm_compute. Qed.

(** The commands of the service tools are not part of the process intent. *)
Lemma service_commands_unchecked :
  global_denial "service_start" (one_param "command" "rm -rf /") = None /\
  global_denial "start_service" (one_param "command" "rm -rf /") = None /\
  global_denial "service" (one_param "command" "rm -rf /") = Some (denied rs_destructive_command).
Proof. by vm_compute. Qed.

(** Safe mode looks at the declared category only: a call without a descriptor
    is let through by a rule, and a commit by its category's default. *)
Lemma safe_mode_lets_through `{HostRegExp} reason :
  reason <> "" ->
  gate_check (enterSafeMode reason (loadRules [mkRule "run_process" None None None allow "ok"] [] None newPermissionGate))
    "run_process" (one_param "command" "make") None None = Ok (granted (rs_rule "ok")) /\
  gate_check (enterSafeMode reason newPermissionGate) "git_commit" (one_param "message" "m")
    (Some (plain_tool "git_commit" false (Some git))) (Some 4%Z) = Ok (granted (rs_category_allowed git)).
Proof. destruct reason as [|c reason]; [done|]. intros _. split; vm_compute; reflexivity. Qed.
