(* ===== verification/Evidence.v ===== *)
(** The evidence ledger of an agent run.

    Models [src/src/agent/evidence-ledger.ts]: what verification, type checks,
    reviewers and sandbox receipts leave behind, the freshness check and the
    hard check [canClaimDone].  Ids, times and the receipt digest are
    parameters; the sentences of [missing] and [blocked] are represented by the
    fact they report. *)
From S2P Require Import Prelude Paths.
Open Scope string_scope.
Open Scope list_scope.

(** src/src/verification/result.ts # VerificationKind *)
Inductive VerificationKind := v_typecheck | v_test | v_build | v_lint | v_smoke | v_unknown.

(** src/src/verification/result.ts # TransactionEvidenceBinding *)
Record TransactionEvidenceBinding := mkBinding {
  tb_stateId : string;
  tb_transactionCount : Z;
  tb_latestTransactionId : string;
}.

(** src/src/verification/result.ts # VerificationResult

    Without the exit code, issue count and duration, which the ledger drops. *)
Record VerificationResult := mkVerification {
  vr_kind : VerificationKind;
  vr_command : string;
  vr_passed : bool;
  vr_summary : string;
  vr_generation : option Z;
  vr_transaction : option TransactionEvidenceBinding;
}.

(** src/src/agent/evidence-ledger.ts # EvidenceKind *)
Inductive EvidenceKind := e_typecheck | e_test | e_build | e_manual | e_sandbox_execution | e_sandbox_cleanup.

#[export] Instance verification_kind_eq_dec : EqDecision VerificationKind.
Proof. solve_decision. Defined.
#[export] Instance evidence_binding_eq_dec : EqDecision TransactionEvidenceBinding.
Proof. solve_decision. Defined.
#[export] Instance evidence_kind_eq_dec : EqDecision EvidenceKind.
Proof. solve_decision. Defined.

(** src/src/agent/evidence-ledger.ts # EvidenceEntry *)
Record EvidenceEntry := mkEntry {
  ev_id : string;
  ev_kind : EvidenceKind;
  ev_command : option string;
  ev_output : string;
  ev_passed : bool;
  ev_status : option string;
  ev_issues : option Z;
  ev_timestamp : Z;
  ev_receiptDigest : option string;
  ev_backend : option string;
  ev_cleanupVerified : option bool;
  ev_networkMode : option string;
  ev_degraded : option bool;
  ev_txId : option string;
  ev_generation : option Z;
  ev_transaction : option TransactionEvidenceBinding;
  ev_artifactId : option string;
  ev_stale : option bool;
}.

(** src/src/agent/evidence-ledger.ts # EvidenceLedger *)
Definition EvidenceLedger : Type := list EvidenceEntry.

(** src/src/agent/evidence-ledger.ts # toEvidenceKind *)
Definition toEvidenceKind (kind : VerificationKind) : option EvidenceKind :=
  match kind with
  | v_typecheck | v_lint => Some e_typecheck
  | v_test | v_smoke => Some e_test
  | v_build => Some e_build
  | v_unknown => None
  end.

(** src/src/agent/evidence-ledger.ts # createEvidenceLedger *)
Definition createEvidenceLedger : EvidenceLedger := [].

(** src/src/agent/evidence-ledger.ts # addEvidence *)
Definition addEvidence (ledger : EvidenceLedger) (entry : EvidenceEntry) : EvidenceLedger := ledger ++ [entry].

Definition set_stale (e : EvidenceEntry) : EvidenceEntry :=
  mkEntry (ev_id e) (ev_kind e) (ev_command e) (ev_output e) (ev_passed e) (ev_status e) (ev_issues e)
    (ev_timestamp e) (ev_receiptDigest e) (ev_backend e) (ev_cleanupVerified e) (ev_networkMode e)
    (ev_degraded e) (ev_txId e) (ev_generation e) (ev_transaction e) (ev_artifactId e) (Some true).

(** src/src/agent/evidence-ledger.ts # markEvidenceStale *)
Definition markEvidenceStale (ledger : EvidenceLedger) (artifactId : string) : EvidenceLedger :=
  map (fun e => if ev_artifactId e === Some artifactId then set_stale e else e) ledger.

(** src/src/agent/evidence-ledger.ts # hasEvidence *)
Definition hasEvidence (ledger : EvidenceLedger) (kind : EvidenceKind) : bool :=
  existsb (fun e => (ev_kind e === kind) && ev_passed e) ledger.

(** src/src/agent/evidence-ledger.ts # getEvidence *)
Definition getEvidence (ledger : EvidenceLedger) (kind : EvidenceKind) : list EvidenceEntry :=
  filter (fun e => ev_kind e = kind) ledger.

(** src/src/agent/evidence-ledger.ts # latestPassedEvidence

    [reduce] starts from the first passed entry. *)
Definition latestPassedEvidence (ledger : EvidenceLedger) (kind : EvidenceKind) : option EvidenceEntry :=
  match filter (fun e => ev_kind e = kind /\ ev_passed e = true) ledger with
  | [] => None
  | e :: passed =>
      Some (fold_left (fun latest e => if (ev_timestamp latest <? ev_timestamp e)%Z then e else latest) passed e)
  end.

(** src/src/agent/evidence-ledger.ts # latestEvidence *)
Definition latestEvidence (ledger : EvidenceLedger) (kind : EvidenceKind) : option EvidenceEntry :=
  List.find (fun e => ev_kind e === kind) (rev ledger).

(** [latest.transaction?.stateId === b.stateId && ...]. *)
Definition transactionMatches (t : option TransactionEvidenceBinding) (b : TransactionEvidenceBinding) : bool :=
  match t with
  | Some t => (tb_stateId t === tb_stateId b) && (tb_transactionCount t =? tb_transactionCount b)%Z &&
              (tb_latestTransactionId t === tb_latestTransactionId b)
  | None => false
  end.

(** src/src/agent/evidence-ledger.ts # hasFreshPassingEvidence *)
Definition hasFreshPassingEvidence (ledger : EvidenceLedger) (kind : EvidenceKind) (currentGeneration : option Z)
    (evidenceBinding : option TransactionEvidenceBinding) (requireEvidenceBinding : bool) : bool :=
  match latestEvidence ledger kind with
  | None => false
  | Some latest =>
      if default false (ev_stale latest) || negb (ev_passed latest) then false
      else if match currentGeneration with
              | Some g => negb (ev_generation latest === Some g)
              | None => false
              end then false
      else match evidenceBinding with
           | None => negb requireEvidenceBinding
           | Some b => transactionMatches (ev_transaction latest) b
           end
  end.

(** ** Ingestion *)

(** An entry without the sandbox members. *)
Definition plain_entry (id : string) (kind : EvidenceKind) (command : option string) (output : string)
    (passed : bool) (now : Z) (txId : option string) (generation : option Z)
    (transaction : option TransactionEvidenceBinding) : EvidenceEntry :=
  mkEntry id kind command output passed None None now None None None None None txId generation transaction None None.

(** src/src/agent/evidence-ledger.ts # ingestVerificationResult *)
Definition ingestVerificationResult (id : string) (now : Z) (ledger : EvidenceLedger) (result : VerificationResult)
    (txId : option string) (generation : option Z) : option EvidenceEntry * EvidenceLedger :=
  match toEvidenceKind (vr_kind result) with
  | None => (None, ledger)
  | Some kind =>
      let entry := plain_entry id kind (Some (vr_command result)) (vr_summary result) (vr_passed result) now txId
                     (match vr_generation result with Some g => Some g | None => generation end)
                     (vr_transaction result) in
      (Some entry, addEvidence ledger entry)
  end.

(** src/src/agent/evidence-ledger.ts # ingestVerificationResults

    Each result with the id and time generated for it. *)
Fixpoint ingestVerificationResults (ledger : EvidenceLedger) (results : list (string * Z * VerificationResult))
    (txId : option string) (generation : option Z) : list EvidenceEntry * EvidenceLedger :=
  match results with
  | [] => ([], ledger)
  | (id, now, r) :: results =>
      let '(entry, ledger) := ingestVerificationResult id now ledger r txId generation in
      let '(entries, ledger) := ingestVerificationResults ledger results txId generation in
      (match entry with Some e => e :: entries | None => entries end, ledger)
  end.

(** src/src/agent/evidence-ledger.ts # ingestTypecheck *)
Definition ingestTypecheck (id : string) (now : Z) (ledger : EvidenceLedger) (passed : bool) (status : option string)
    (issues : Z) (output : string) (command : option string) (generation : option Z) : EvidenceLedger :=
  addEvidence ledger
    (mkEntry id e_typecheck command output passed status (Some issues) now None None None None None None generation
       None None None).

(** src/src/agent/evidence-ledger.ts # deriveLastTypecheck

    Whether it passed, and the number of issues. *)
Definition deriveLastTypecheck (ledger : EvidenceLedger) : option (bool * Z * string) :=
  (fun e => (ev_passed e, default 0%Z (ev_issues e), ev_output e)) <$> latestEvidence ledger e_typecheck.

(** src/src/agent/evidence-ledger.ts # addManualEvidence *)
Definition addManualEvidence (id : string) (now : Z) (ledger : EvidenceLedger) (description : string) (passed : bool)
    (txId : option string) (generation : option Z) (transaction : option TransactionEvidenceBinding) : EvidenceLedger :=
  addEvidence ledger (plain_entry id e_manual None description passed now txId generation transaction).

(** src/src/runtime/linux/contracts.ts # SandboxReceipt @401-460

    The members the ledger reads. *)
Record SandboxReceipt := mkReceipt {
  sr_receiptDigest : string;
  sr_backend : string;
  sr_profile : string;
  sr_cellSpecDigest : string;
  sr_finishedAt : Z;
  sr_exitCode : option Z;
  sr_timedOut : bool;
  sr_cancelled : bool;
  sr_networkMode : string;
  sr_degradationReasons : list string;
  sr_processesRemaining : Z;
  sr_cgroupRemoved : bool;
}.

Section receipts.
Variable computeReceiptDigest : SandboxReceipt -> string.
(** The rendering of [output]. *)
Variable receipt_output : SandboxReceipt -> string.

(** src/src/agent/evidence-ledger.ts # ingestSandboxReceipt *)
Definition ingestSandboxReceipt (id id' : string) (ledger : EvidenceLedger) (r : SandboxReceipt) :
    option EvidenceEntry * EvidenceLedger :=
  if (sr_finishedAt r <=? 0)%Z || (sr_cellSpecDigest r === "") || (sr_backend r === "") then (None, ledger)
  else
    let cleanupVerified := (sr_processesRemaining r =? 0)%Z && sr_cgroupRemoved r in
    let digest := if sr_receiptDigest r === "" then computeReceiptDigest r else sr_receiptDigest r in
    let degraded := match sr_degradationReasons r with [] => false | _ => true end in
    let entry := mkEntry id e_sandbox_execution (Some ("sandbox:" +:+ sr_backend r +:+ ":" +:+ sr_profile r))
                   (receipt_output r)
                   ((sr_exitCode r === Some 0%Z) && negb (sr_timedOut r) && negb (sr_cancelled r))
                   None None (sr_finishedAt r) (Some digest) (Some (sr_backend r)) (Some cleanupVerified)
                   (Some (sr_networkMode r)) (Some degraded) None None None None None in
    let ledger := addEvidence ledger entry in
    (Some entry,
     if cleanupVerified then
       addEvidence ledger
         (mkEntry id' e_sandbox_cleanup (Some "cleanup:verified") "processesRemaining=0 cgroupRemoved=true" true
            None None (sr_finishedAt r) (Some digest) (Some (sr_backend r)) (Some true) None None None None None None None)
     else ledger).
End receipts.

(** ** The hard check *)

(** src/src/agent/task-tracker.ts # TaskStepStatus *)
Inductive TaskStepStatus := ts_pending | ts_running | ts_done | ts_failed | ts_cancelled | ts_superseded.
#[export] Instance task_step_status_eq_dec : EqDecision TaskStepStatus.
Proof. solve_decision. Defined.

(** src/src/agent/task-tracker.ts # TaskStep *)
Record TaskStep := mkStep { sp_id : string; sp_title : string; sp_status : TaskStepStatus }.

(** src/src/agent/task-tracker.ts # TaskTracker

    The members the check reads. *)
Record TaskTracker := mkTracker {
  tt_requiredFiles : list string;
  tt_requiredVerificationKinds : list VerificationKind;
  tt_steps : list TaskStep;
}.

(** What is missing, and the two blockers. *)
Inductive MissingReason :=
| miss_step (title : string)
| miss_file (path : string)
| miss_evidence (kind : EvidenceKind).
Inductive ClaimBlocker :=
| blk_evidence (kinds : list EvidenceKind)
| blk_steps (n : nat).

(** src/src/agent/evidence-ledger.ts # CanClaimDoneResult *)
Record CanClaimDoneResult := mkClaim {
  cc_canClaim : bool;
  cc_missing : list MissingReason;
  cc_blocked : list ClaimBlocker;
  cc_requiredKinds : list EvidenceKind;
  cc_satisfiedKinds : list EvidenceKind;
  cc_unsatisfiedKinds : list EvidenceKind;
}.

(** src/src/agent/evidence-ledger.ts # requiredEvidenceKinds *)
Definition requiredEvidenceKinds (tracker : option TaskTracker) : list EvidenceKind :=
  match tracker with
  | None => []
  | Some t => uniq (omap toEvidenceKind (tt_requiredVerificationKinds t))
  end.

Section claim.
(** [existsSync], on resolved paths. *)
Variable existsSync : string -> bool.

Definition file_found (cwd path : string) : bool :=
  existsb (fun candidate => existsSync (path_resolve cwd [candidate])) [path; "blog/" +:+ path; "client/" +:+ path].

(** src/src/agent/evidence-ledger.ts # canClaimDone *)
Definition canClaimDone (tracker : option TaskTracker) (evidence : EvidenceLedger) (cwd : option string)
    (explicitRequiredKinds : list EvidenceKind) (currentGeneration : option Z)
    (evidenceBinding : option TransactionEvidenceBinding) (requireEvidenceBinding : bool) : CanClaimDoneResult :=
  match tracker, explicitRequiredKinds with
  | None, [] => mkClaim true [] [] [] [] []
  | _, _ =>
      let undoneSteps := match tracker with
                         | Some t => filter (fun s => sp_status s <> ts_done) (tt_steps t)
                         | None => []
                         end in
      let missingFiles := match tracker, cwd with
                          | Some t, Some cwd =>
                              if cwd === "" then []
                              else filter (fun p => file_found cwd p = false) (tt_requiredFiles t)
                          | _, _ => []
                          end in
      let required := uniq (requiredEvidenceKinds tracker ++ explicitRequiredKinds) in
      let fresh k := hasFreshPassingEvidence evidence k currentGeneration evidenceBinding requireEvidenceBinding in
      let satisfied := filter (fun k => fresh k = true) required in
      let unsatisfied := filter (fun k => fresh k = false) required in
      let missing := map (fun s => miss_step (sp_title s)) undoneSteps ++ map miss_file missingFiles ++
                     map miss_evidence unsatisfied in
      let blocked := (match unsatisfied with [] => [] | _ => [blk_evidence unsatisfied] end) ++
                     (match undoneSteps with [] => [] | _ => [blk_steps (length undoneSteps)] end) in
      mkClaim (match missing with [] => true | _ => false end) missing blocked required satisfied unsatisfied
  end.
End claim.

(** ** Serialization *)

(** src/src/agent/evidence-ledger.ts # SerializedEvidenceEntry *)
Record SerializedEvidenceEntry := mkSerialized {
  se_id : string;
  se_kind : EvidenceKind;
  se_command : option string;
  se_output : string;
  se_passed : bool;
  se_timestamp : Z;
  se_txId : option string;
  se_generation : option Z;
  se_transaction : option TransactionEvidenceBinding;
  se_artifactId : option string;
  se_stale : option bool;
}.

(** src/src/agent/evidence-ledger.ts # serializeLedger *)
Definition serializeLedger (ledger : EvidenceLedger) : list SerializedEvidenceEntry :=
  map (fun e => mkSerialized (ev_id e) (ev_kind e) (ev_command e) (ev_output e) (ev_passed e) (ev_timestamp e)
                  (ev_txId e) (ev_generation e) (ev_transaction e) (ev_artifactId e) (ev_stale e)) ledger.

(** src/src/agent/evidence-ledger.ts # deserializeLedger *)
Definition deserializeLedger (data : list SerializedEvidenceEntry) : EvidenceLedger :=
  map (fun e => mkEntry (se_id e) (se_kind e) (se_command e) (se_output e) (se_passed e) None None (se_timestamp e)
                  None None None None None (se_txId e) (se_generation e) (se_transaction e) (se_artifactId e)
                  (se_stale e)) data.

(** ** Properties *)

(** The last entry of a kind, in order of collection. *)
Definition is_latest (ledger : EvidenceLedger) (kind : EvidenceKind) (e : EvidenceEntry) : Prop :=
  exists before after, ledger = before ++ e :: after /\ ev_kind e = kind /\ Forall (fun x => ev_kind x <> kind) after.

Lemma latestEvidence_iff ledger kind e : latestEvidence ledger kind = Some e <-> is_latest ledger kind e.
Proof.
  unfold latestEvidence, is_latest. induction ledger as [|x ledger IH] using rev_ind.
  - split; [done|]. by intros ([] & ? & ? & _).
  - rewrite rev_app_distr. cbn [rev app List.find]. destruct (ev_kind x === kind) eqn:E; reflect.
    + split.
      * intros [= <-]. by exists ledger, [].
      * intros (before & after & Hl & Hk & Ha). destruct after as [|y after _] using rev_ind.
        { by apply app_inj_tail in Hl as [_ ->]. }
        rewrite app_comm_cons, app_assoc in Hl. apply app_inj_tail in Hl as [_ ->].
        apply Forall_app in Ha as [_ Ha]. by apply Forall_inv in Ha.
    + rewrite IH. split.
      * intros (before & after & -> & Hk & Ha). exists before, (after ++ [x]).
        rewrite app_comm_cons, app_assoc. split_and!; [done..|]. apply Forall_app. by split; [|apply Forall_singleton].
      * intros (before & after & Hl & Hk & Ha). destruct after as [|y after _] using rev_ind.
        { apply app_inj_tail in Hl as [_ ->]. done. }
        rewrite app_comm_cons, app_assoc in Hl. apply app_inj_tail in Hl as [-> ->].
        apply Forall_app in Ha as [Ha _]. by exists before, after.
Qed.

(** What the gate may rely on about a kind: the last verification of that kind
    passed, has not been invalidated, and ran on the code as it is now. *)
Definition proves (generation : option Z) (binding : option TransactionEvidenceBinding) (bound : bool)
    (e : EvidenceEntry) : Prop :=
  ev_passed e = true /\ ev_stale e <> Some true /\
  (forall g, generation = Some g -> ev_generation e = Some g) /\
  (bound = true -> binding <> None) /\
  (forall b, binding = Some b -> ev_transaction e = Some b).

Lemma transactionMatches_iff t b : transactionMatches t b = true <-> t = Some b.
Proof.
  destruct t as [[s n l]|], b as [s' n' l']; cbn; [|done].
  rewrite !andb_true_iff, !same_eq, Z.eqb_eq. naive_solver.
Qed.

Lemma not_stale_iff e : default false (ev_stale e) = false <-> ev_stale e <> Some true.
Proof. by destruct (ev_stale e) as [[]|]. Qed.
Lemma generation_iff e generation :
  match generation with Some g => negb (ev_generation e === Some g) | None => false end = false <->
  forall g, generation = Some g -> ev_generation e = Some g.
Proof.
  destruct generation as [g|]; [|done]. rewrite negb_false_iff, same_eq. naive_solver.
Qed.
Lemma binding_iff e binding (bound : bool) :
  match binding with None => negb bound | Some b => transactionMatches (ev_transaction e) b end = true <->
  (bound = true -> binding <> None) /\ (forall b, binding = Some b -> ev_transaction e = Some b).
Proof.
  destruct binding as [b|].
  - rewrite transactionMatches_iff. naive_solver.
  - destruct bound; cbn; naive_solver.
Qed.
Lemma guards_iff (a b c d : bool) :
  (if a || b then false else if c then false else d) = true <-> b = false /\ a = false /\ c = false /\ d = true.
Proof. destruct a, b, c, d; cbn; intuition congruence. Qed.

Lemma hasFresh_iff ledger kind generation binding (bound : bool) :
  hasFreshPassingEvidence ledger kind generation binding bound = true <->
  exists e, is_latest ledger kind e /\ proves generation binding bound e.
Proof.
  unfold hasFreshPassingEvidence. setoid_rewrite <- latestEvidence_iff.
  destruct (latestEvidence ledger kind) as [e|]; [|naive_solver].
  rewrite guards_iff, not_stale_iff, generation_iff, binding_iff, negb_false_iff.
  unfold proves. split; [by eauto|]. by intros (? & [= <-] & ?).
Qed.

(** The kinds a claim must prove. *)
Definition required_kind (tracker : option TaskTracker) (explicit : list EvidenceKind) (kind : EvidenceKind) : Prop :=
  kind ∈ explicit \/
  exists t vk, tracker = Some t /\ vk ∈ tt_requiredVerificationKinds t /\ toEvidenceKind vk = Some kind.

Lemma elem_of_required tracker explicit kind :
  kind ∈ uniq (requiredEvidenceKinds tracker ++ explicit) <-> required_kind tracker explicit kind.
Proof.
  rewrite elem_of_uniq, elem_of_app. unfold requiredEvidenceKinds, required_kind.
  destruct tracker as [t|]; [|set_solver]. rewrite elem_of_uniq, list_elem_of_omap. naive_solver.
Qed.

Lemma maps_nil {A B C D} (f : A -> D) (g : B -> D) (h : C -> D) l m n :
  match map f l ++ map g m ++ map h n with [] => true | _ :: _ => false end = true <-> l = [] /\ m = [] /\ n = [].
Proof. destruct l, m, n; cbn; naive_solver. Qed.

Lemma filter_bool_ext {A} (f g : A -> bool) (b : bool) (l : list A) :
  (forall x, f x = g x) -> filter (fun x => f x = b) l = filter (fun x => g x = b) l.
Proof. intros Hfg. apply list_filter_iff. intros x. by rewrite Hfg. Qed.

Section claim_properties.
Variable existsSync : string -> bool.

Definition steps_done (tracker : option TaskTracker) : Prop :=
  forall t s, tracker = Some t -> s ∈ tt_steps t -> sp_status s = ts_done.
Definition files_present (tracker : option TaskTracker) (cwd : option string) : Prop :=
  forall t c path, tracker = Some t -> cwd = Some c -> c <> "" -> path ∈ tt_requiredFiles t ->
    file_found existsSync c path = true.

(** done can be claimed exactly when every step of the tracker is done, every
    required file is there, and for every required kind the last verification of
    that kind passed, has not been marked stale, carries the current write
    generation and, where commits are to be matched, the current commit history: a
    later failure, a later write or an unbound write all refuse the claim. *)
Theorem claim_needs_fresh_evidence tracker evidence cwd explicit generation binding (bound : bool) :
  cc_canClaim (canClaimDone existsSync tracker evidence cwd explicit generation binding bound) = true <->
  steps_done tracker /\ files_present tracker cwd /\
  forall kind, required_kind tracker explicit kind ->
    exists e, is_latest evidence kind e /\ proves generation binding bound e.
Proof.
  setoid_rewrite <- hasFresh_iff. setoid_rewrite <- elem_of_required.
  assert (Hk : forall l : list EvidenceKind, filter (fun k => hasFreshPassingEvidence evidence k generation binding bound = false) l = [] <->
    forall k, k ∈ l -> hasFreshPassingEvidence evidence k generation binding bound = true).
  { intros l. rewrite filter_nil_iff. setoid_rewrite not_false_iff_true. done. }
  unfold canClaimDone, steps_done, files_present. destruct tracker as [t|].
  - cbn zeta beta iota. cbn [cc_canClaim]. rewrite maps_nil, Hk, filter_nil_iff.
    assert (Hs : (forall x, x ∈ tt_steps t -> ~ sp_status x <> ts_done) <->
                 forall t0 s, Some t = Some t0 -> s ∈ tt_steps t0 -> sp_status s = ts_done).
    { split; [intros Hx ? s [= <-] Hs; apply dec_stable, Hx, Hs|]. intros Hx s Hs Hn. by eapply Hn, Hx. }
    rewrite Hs. destruct cwd as [c|]; [destruct (c === "") eqn:Ec; reflect|]; [naive_solver| |naive_solver].
    rewrite filter_nil_iff. setoid_rewrite not_false_iff_true. naive_solver.
  - destruct explicit as [|k ks]; cbn [cc_canClaim].
    + split; [|done]. intros _. split_and!; [done..|]. intros kind. by rewrite elem_of_nil.
    + cbn zeta beta iota. cbn [cc_canClaim]. rewrite maps_nil, Hk. naive_solver.
Qed.

(** a checkpoint of the ledger keeps what the gate decides: after serializing and
    restoring it, every completion claim gets the same answer with the same
    reasons, whatever is required. *)
Theorem evidence_checkpoint_keeps_verdict tracker evidence cwd explicit generation binding (bound : bool) :
  canClaimDone existsSync tracker (deserializeLedger (serializeLedger evidence)) cwd explicit generation binding bound =
  canClaimDone existsSync tracker evidence cwd explicit generation binding bound.
Proof.
  assert (Hf : forall k, hasFreshPassingEvidence (deserializeLedger (serializeLedger evidence)) k generation binding bound =
                         hasFreshPassingEvidence evidence k generation binding bound).
  { intros k. unfold hasFreshPassingEvidence, latestEvidence, deserializeLedger, serializeLedger.
    rewrite map_map, <- map_rev. induction (rev evidence) as [|e l IH]; [done|]. cbn [map List.find ev_kind se_kind].
    by destruct (ev_kind e === k). }
  unfold canClaimDone. destruct tracker as [t|], explicit as [|k ks]; try done;
    cbn zeta beta iota; by rewrite !(filter_bool_ext _ _ _ _ Hf).
Qed.
End claim_properties.

(** What a checkpoint loses: the issue count of a failed type check comes back
    as zero. *)
Lemma restored_typecheck_loses_issues id now output :
  let ledger := ingestTypecheck id now createEvidenceLedger false (Some "failed") 3 output None None in
  deriveLastTypecheck ledger = Some (false, 3%Z, output) /\
  deriveLastTypecheck (deserializeLedger (serializeLedger ledger)) = Some (false, 0%Z, output).
Proof. done. Qed.

(** A receipt whose cleanup failed records nothing about the cleanup, so the
    verified cleanup of an earlier receipt stays the latest one. *)
Lemma failed_cleanup_keeps_pass digest render (clean dirty : SandboxReceipt) :
  sr_processesRemaining clean = 0%Z -> sr_cgroupRemoved clean = true ->
  (0 < sr_finishedAt clean)%Z -> sr_cellSpecDigest clean <> "" -> sr_backend clean <> "" ->
  sr_cgroupRemoved dirty = false ->
  let once := (ingestSandboxReceipt digest render "a" "b" createEvidenceLedger clean).2 in
  let twice := (ingestSandboxReceipt digest render "c" "d" once dirty).2 in
  hasFreshPassingEvidence twice e_sandbox_cleanup None None false = true.
Proof.
  intros H1 H2 H3 H4 H5 H6 once twice. subst once twice. unfold ingestSandboxReceipt.
  rewrite (proj2 (Z.leb_gt _ _) H3), (proj2 (same_neq _ _) H4), (proj2 (same_neq _ _) H5), H1, H2, H6. cbn [orb andb Z.eqb].
  rewrite andb_false_r. destruct (_ || _); done.
Qed.
