(* ===== verification/Tracker.v ===== *)
(** Task packets and the tracker of a task.

    Models, of [src/src/agent], [task-packet.ts] (what a plan node is to deliver
    and how it is verified), the packet checks of [plan-validator.ts], and
    [task-tracker.ts]: the steps of a task, how tool rounds tick them off, how a
    plan is accepted and revised, and what is still missing.  The pattern that
    finds file paths in a line and the clock are parameters; [Evidence] has the
    part of the tracker that the evidence check reads ([tracker_view]). *)
From Stdlib Require Import Ascii.
From stdpp Require Import pretty.
From S2P Require Import Prelude Json Paths Evidence.
Open Scope Z_scope.
Open Scope list_scope.

(** ** Packets *)

(** src/src/agent/task-tracker.ts # TaskIntent *)
Inductive TaskIntent := ti_readonly | ti_narrow_edit | ti_long_task.
#[export] Instance TaskIntent_eq_dec : EqDecision TaskIntent.
Proof. solve_decision. Defined.

(** src/src/agent/task-packet.ts # VerificationRequirement *)
Record VerificationRequirement := mkVerReq {
  vq_kind : VerificationKind; vq_command : option string; vq_description : string }.

(** src/src/agent/task-packet.ts # RipplePolicy *)
Record RipplePolicy := mkRipple { autoPropagate : bool; requireEvidence : bool; maxRetries : Z }.

(** src/src/agent/task-packet.ts # ContextBudget *)
Record ContextBudget := mkBudget { maxToolsPerNode : Z; maxRoundsPerNode : Z; estimatedTokens : Z }.

(** src/src/agent/task-packet.ts # TaskPacket *)
Record TaskPacket := mkPacket {
  pk_taskId : string; pk_nodeId : string; pk_title : string; pk_goal : string;
  pk_contextMapId : option string; pk_requiredContextEvidence : option (list string);
  pk_scope : list string; pk_doneCriteria : list string;
  pk_verification : list VerificationRequirement;
  pk_ripplePolicy : RipplePolicy; pk_contextBudget : ContextBudget }.

(** src/src/agent/task-packet.ts # DEFAULT_RIPPLE *)
Definition DEFAULT_RIPPLE : RipplePolicy := mkRipple true true 3.
(** src/src/agent/task-packet.ts # DEFAULT_BUDGET *)
Definition DEFAULT_BUDGET : ContextBudget := mkBudget 20 8 50000.

(** src/src/agent/task-tracker.ts # verificationKindLabel *)
Definition kind_name (k : VerificationKind) : string :=
  match k with
  | v_typecheck => "typecheck" | v_test => "test" | v_build => "build"
  | v_lint => "lint" | v_smoke => "smoke" | v_unknown => "unknown"
  end.

(** The checks a packet may fail; the warnings after the errors. *)
Inductive PacketIssue :=
| pi_title | pi_goal | pi_nodeId | pi_scope | pi_verification
| pw_scope_item | pw_doneCriteria | pw_description (kind : VerificationKind)
| pw_maxRetries | pw_maxTools | pw_maxRounds.

Definition is_error (i : PacketIssue) : bool :=
  match i with pi_title | pi_goal | pi_nodeId | pi_scope | pi_verification => true | _ => false end.

Definition blank (s : string) : bool := trim s === "".
Definition issue (b : bool) (i : PacketIssue) : list PacketIssue := if b then [i] else [].

(** src/src/agent/plan-validator.ts # validateTaskPacket

    Kinds, flags and budgets have the types the interface gives them. *)
Definition validateTaskPacket (p : TaskPacket) : list PacketIssue :=
  issue (blank (pk_title p)) pi_title
  ++ issue (blank (pk_goal p)) pi_goal
  ++ issue (blank (pk_nodeId p)) pi_nodeId
  ++ issue (match pk_scope p with [] => true | _ => false end) pi_scope
  ++ (item ← pk_scope p; issue (blank item) pw_scope_item)
  ++ issue (match pk_doneCriteria p with [] => true | _ => false end) pw_doneCriteria
  ++ issue (match pk_verification p with [] => true | _ => false end) pi_verification
  ++ (v ← pk_verification p; issue (blank (vq_description v)) (pw_description (vq_kind v)))
  ++ issue (maxRetries (pk_ripplePolicy p) <? 0) pw_maxRetries
  ++ issue (maxToolsPerNode (pk_contextBudget p) <=? 0) pw_maxTools
  ++ issue (maxRoundsPerNode (pk_contextBudget p) <=? 0) pw_maxRounds.

(** The errors of a report; a report without errors is clean. *)
Definition packet_errors (p : TaskPacket) : list PacketIssue :=
  filter (fun i => is_error i = true) (validateTaskPacket p).

(** ** Trackers *)

(** src/src/agent/task-tracker.ts # TaskStep *)
Record Step := mkTStep { st_id : string; st_title : string; st_status : TaskStepStatus; st_evidence : option string }.

(** src/src/agent/task-tracker.ts # TaskTracker @20-20 *)
Inductive TrackerPhase := ph_planning | ph_building | ph_complete.
#[export] Instance TrackerPhase_eq_dec : EqDecision TrackerPhase.
Proof. solve_decision. Defined.

(** src/src/agent/task-tracker.ts # TaskTracker *)
Record Tracker := mkTaskTracker {
  tk_goal : string; tk_intent : TaskIntent; tk_phase : TrackerPhase;
  tk_requiredFiles : list string; tk_requiredVerificationKinds : list VerificationKind;
  tk_verificationEvidence : list (VerificationKind * string);
  tk_verification : list string; tk_steps : list Step }.

Definition with_steps (steps : list Step) (t : Tracker) : Tracker :=
  mkTaskTracker (tk_goal t) (tk_intent t) (tk_phase t) (tk_requiredFiles t)
    (tk_requiredVerificationKinds t) (tk_verificationEvidence t) (tk_verification t) steps.
Definition with_phase (p : TrackerPhase) (t : Tracker) : Tracker :=
  mkTaskTracker (tk_goal t) (tk_intent t) p (tk_requiredFiles t)
    (tk_requiredVerificationKinds t) (tk_verificationEvidence t) (tk_verification t) (tk_steps t).
Definition with_evidence (e : list (VerificationKind * string)) (t : Tracker) : Tracker :=
  mkTaskTracker (tk_goal t) (tk_intent t) (tk_phase t) (tk_requiredFiles t)
    (tk_requiredVerificationKinds t) e (tk_verification t) (tk_steps t).

(** What the evidence check reads of a tracker. *)
Definition tracker_view (t : Tracker) : TaskTracker :=
  mkTracker (tk_requiredFiles t) (tk_requiredVerificationKinds t)
    (map (fun s => mkStep (st_id s) (st_title s) (st_status s)) (tk_steps t)).

Definition set_status (status : TaskStepStatus) (s : Step) : Step :=
  mkTStep (st_id s) (st_title s) status (st_evidence s).
Definition set_result (status : TaskStepStatus) (evidence : string) (s : Step) : Step :=
  mkTStep (st_id s) (st_title s) status (Some evidence).

(** Changing the first element that satisfies a test: [find] and assignment. *)
Fixpoint update_first {A} (p : A -> bool) (f : A -> A) (l : list A) : list A :=
  match l with [] => [] | x :: l => if p x then f x :: l else x :: update_first p f l end.

Definition has_status (status : TaskStepStatus) (s : Step) : bool := st_status s === status.
Definition has_id (id : string) (s : Step) : bool := st_id s === id.

(** src/src/agent/task-packet.ts # isFilePath @302-302

    The pattern's suffixes, tested case-blind. *)
Definition FILE_SUFFIXES : list string :=
  [".ts"; ".tsx"; ".js"; ".jsx"; ".json"; ".css"; ".scss"; ".html"; ".md"; ".yaml"; ".yml";
   ".toml"; ".env"; ".gitignore"; ".dockerfile"].

(** src/src/agent/task-packet.ts # isFilePath *)
Definition isFilePath (s : string) : bool :=
  existsb (fun suffix => endsWith (lower s) suffix) FILE_SUFFIXES || str_includes "/" s.

Definition slice120 (s : string) : string := String.substring 0 120 s.

(** src/src/agent/task-packet.ts # createTaskTrackerFromPacket @389-401

    The steps of the scope, numbered from one. *)
Definition scope_steps (scope : list string) : list Step :=
  imap (fun i item => mkTStep ("scope-" +:+ pretty (S i)) (if isFilePath item then "创建 " +:+ item else slice120 item)
                        (if (i =? 0)%nat then ts_running else ts_pending) None) scope.
(** src/src/agent/task-packet.ts # createTaskTrackerFromPacket @403-411 *)
Definition verify_steps (vs : list VerificationRequirement) : list Step :=
  map (fun v => mkTStep ("verify-" +:+ kind_name (vq_kind v)) (slice120 (vq_description v)) ts_pending None) vs.

(** src/src/agent/task-packet.ts # createTaskTrackerFromPacket *)
Definition createTaskTrackerFromPacket (packet : TaskPacket) (intent : TaskIntent)
  : res (list PacketIssue) Tracker :=
  match packet_errors packet with
  | (_ :: _) as errors => Throw errors
  | [] =>
      let steps := match scope_steps (pk_scope packet) ++ verify_steps (pk_verification packet) with
                   | [] => [mkTStep "implement" "实现核心逻辑" ts_running None]
                   | steps => steps
                   end in
      Ok {| tk_goal := pk_goal packet +:+ " — " +:+ pk_title packet;
            tk_intent := intent;
            tk_phase := ph_building;
            tk_requiredFiles := filter (fun s => isFilePath s = true) (pk_scope packet);
            tk_requiredVerificationKinds := map vq_kind (pk_verification packet);
            tk_verificationEvidence := [];
            tk_verification := map vq_description (pk_verification packet);
            tk_steps := steps |}
  end.

(** ** Packets from plan lines *)

(** src/src/agent/task-packet.ts # VERIFICATION_DEFAULTS *)
Definition VERIFICATION_DEFAULTS (k : VerificationKind) : string * string :=
  match k with
  | v_typecheck => ("运行类型检查", "tsc --noEmit")
  | v_test => ("运行测试", "bun test")
  | v_build => ("运行构建", "bun run build")
  | v_lint => ("运行 lint", "eslint .")
  | v_smoke => ("运行冒烟测试", "bun run smoke")
  | v_unknown => ("运行验证", "")
  end.

Definition default_requirement (k : VerificationKind) : VerificationRequirement :=
  mkVerReq k (Some (VERIFICATION_DEFAULTS k).2) (VERIFICATION_DEFAULTS k).1.

Definition mentions (words : list string) (text : string) : bool :=
  existsb (fun w => str_includes w (lower text)) words.

(** src/src/agent/task-packet.ts # extractVerificationHints *)
Definition extractVerificationHints (text : string) : list VerificationKind :=
  (if mentions ["typecheck"; "tsc"; "类型检查"] text then [v_typecheck] else [])
  ++ (if mentions ["test"; "测试"] text then [v_test] else [])
  ++ (if mentions ["build"; "构建"; "打包"] text then [v_build] else [])
  ++ (if mentions ["lint"] text then [v_lint] else []).

(** src/src/agent/task-packet.ts # ScopeExtraction *)
Record ScopeExtraction := mkScope { sc_files : list string; sc_hints : list VerificationKind; sc_deliverable : string }.

Fixpoint skip_digits (s : string) : string :=
  match s with String c s' => if in_range 48 57 c then skip_digits s' else s | EmptyString => EmptyString end.

(** src/src/agent/task-packet.ts # extractScopeFromLine @329-330

    [line.replace(/^\d+[\.\)\-、]\s*|^[-*]\s*/, "").trim()]: a number with its
    mark, or a bullet. *)
Definition strip_bullet (line : string) : string :=
  let rest := skip_digits line in
  let numbered := if rest === line then None
                  else if startsWith rest "、" then Some (String.substring 3 (String.length rest) rest)
                  else match rest with
                       | String c rest => if (c === "."%char) || (c === ")"%char) || (c === "-"%char) then Some rest else None
                       | EmptyString => None
                       end in
  match numbered with
  | Some rest => trim rest
  | None =>
      match line with
      | String c rest => if (c === "-"%char) || (c === "*"%char) then trim rest else trim line
      | EmptyString => ""
      end
  end.

(** src/src/agent/task-tracker.ts # createTaskTracker

    The tracker made from the words of a prompt; the files and kinds it adds are
    distinct as they stand. *)
Definition createTaskTracker (prompt : string) (intent : TaskIntent) : option Tracker :=
  if negb (intent === ti_long_task) then None
  else
    let wants words := mentions words prompt in
    let wantsBackend := wants ["全栈"; "后端"; "api"; "backend"; "hono"; "server"] in
    let wantsFrontend := wants ["全栈"; "前端"; "frontend"; "react"; "vite"; "页面"] in
    let wantsBlog := wants ["博客"; "blog"; "post"; "文章"] in
    let wantsTests := wants ["测试"; "test"; "typecheck"; "build"; "验证"] in
    let step id title := mkTStep id title ts_pending None in
    let when {A} (b : bool) (x : A) : list A := if b then [x] else [] in
    let files := ["package.json"; "tsconfig.json"]
      ++ (if wantsBackend then ["server/index.ts"; "server/index.test.ts"] else [])
      ++ (if wantsBlog then ["server/posts.json"] else [])
      ++ (if wantsFrontend then ["client/src/App.tsx"; "client/src/App.css"] else []) in
    let kinds := [v_typecheck] ++ when wantsBackend v_test ++ when wantsFrontend v_build
      ++ when (wants ["smoke"; "browser"; "curl"; "浏览器"]) v_smoke in
    Some {| tk_goal := match slice120 (trim prompt) with EmptyString => "长任务" | goal => goal end;
            tk_intent := intent;
            tk_phase := ph_planning;
            tk_requiredFiles := files;
            tk_requiredVerificationKinds := kinds;
            tk_verificationEvidence := [];
            tk_verification := ["运行类型检查"; "运行测试或构建"];
            tk_steps := [mkTStep "plan" "规划项目结构" ts_running None]
              ++ when wantsBackend (step "backend" "创建后端接口")
              ++ when wantsBlog (step "content" "准备博客内容数据")
              ++ when wantsFrontend (step "frontend" "创建前端页面")
              ++ when (wantsFrontend && wantsBackend) (step "integration" "接入前后端数据流")
              ++ when (wantsTests || wantsFrontend || wantsBackend) (step "verification" "运行验证命令") |}.

Section Extract.
(** The successive matches of [FILE_PATH_RE] in a text. *)
Context (file_path_matches : string -> list string).

(** src/src/agent/task-packet.ts # extractScopeFromLine *)
Definition extractScopeFromLine (line : string) : ScopeExtraction :=
  let clean := strip_bullet line in
  let files := uniq (filter (fun f => negb (startsWith f ".") || (4 <=? String.length f)%nat = true)
                       (file_path_matches clean)) in
  mkScope files (extractVerificationHints clean) (slice120 clean).

(** src/src/agent/task-packet.ts # buildPacketFromLine *)
Definition buildPacketFromLine (title goal nodeId : string) (taskId contextMapId : option string)
    (requiredContextEvidence : option (list string)) : TaskPacket :=
  let scope := extractScopeFromLine title in
  {| pk_taskId := default ("task-" +:+ nodeId) taskId;
     pk_nodeId := nodeId;
     pk_title := title;
     pk_goal := goal;
     pk_contextMapId := contextMapId;
     pk_requiredContextEvidence := requiredContextEvidence;
     pk_scope := match sc_files scope with [] => [sc_deliverable scope] | files => files end;
     pk_doneCriteria :=
       match sc_files scope, sc_hints scope with
       | (_ :: _) as files, _ => map (fun f => "文件 " +:+ f +:+ " 已创建并通过验证") files
       | [], (_ :: _) as hints =>
           map (fun k => match k with
                         | v_typecheck => "类型检查通过" | v_test => "测试全部通过"
                         | v_build => "构建成功" | v_lint => "lint 无错误"
                         | k => kind_name k +:+ " 验证通过"
                         end) hints
       | [], [] => ["核心逻辑已实现并通过验证"]
       end;
     pk_verification := match sc_hints scope with
                        | [] => [default_requirement v_typecheck]
                        | hints => map default_requirement hints
                        end;
     pk_ripplePolicy := DEFAULT_RIPPLE;
     pk_contextBudget := DEFAULT_BUDGET |}.

(** src/src/agent/task-packet.ts # buildTaskTrackerFromPrompt *)
Definition buildTaskTrackerFromPrompt (prompt : string) (intent : TaskIntent)
  : res (list PacketIssue) (option Tracker) :=
  if negb (intent === ti_long_task) then Ok None
  else
    let firstLine := trim (default "" (head (split_on "010"%char prompt))) in
    let title := if (120 <? String.length firstLine)%nat
                 then String.substring 0 117 firstLine +:+ "..." else firstLine in
    t ← createTaskTrackerFromPacket
          (buildPacketFromLine title (String.substring 0 200 prompt) "1" None None None) intent;
    Ok (Some t).

(** src/src/agent/plan-validator.ts # createMinimumViablePacket *)
Definition createMinimumViablePacket (now : Z) (goal planText : string) : TaskPacket :=
  let scope := uniq (file_path_matches planText) in
  {| pk_taskId := "mvp-" +:+ pretty now;
     pk_nodeId := "1";
     pk_title := slice120 goal;
     pk_goal := goal;
     pk_contextMapId := None;
     pk_requiredContextEvidence := None;
     pk_scope := match scope with [] => [String.substring 0 80 goal] | _ => take 8 scope end;
     pk_doneCriteria := match scope with
                        | [] => ["typecheck 通过，核心逻辑可运行"]
                        | _ => map (fun f => "文件 " +:+ f +:+ " 已通过类型检查") (take 4 scope)
                        end;
     pk_verification := [default_requirement v_typecheck];
     pk_ripplePolicy := DEFAULT_RIPPLE;
     pk_contextBudget := DEFAULT_BUDGET |}.

(** src/src/agent/plan-validator.ts # evaluatePlanForcePass *)
Definition evaluatePlanForcePass (now rejections : Z) (maxRounds : option Z) (planText goal : string)
  : option TaskPacket :=
  if rejections <? default 3 maxRounds then None else Some (createMinimumViablePacket now goal planText).
End Extract.

(** ** What happens to a tracker *)

(** src/src/agent/task-tracker.ts # markPlanAccepted *)
Definition markPlanAccepted (t : Tracker) : Tracker :=
  if negb (tk_phase t === ph_planning) then t
  else
    let steps := update_first (has_id "plan") (set_result ts_done "已生成执行计划") (tk_steps t) in
    let steps := update_first (has_id "revise")
                   (fun s => if has_status ts_running s then set_result ts_done "方案已修正" s else s) steps in
    let steps := if existsb (has_status ts_pending) steps
                 then update_first (has_status ts_pending) (set_status ts_running) steps
                 else update_first (has_status ts_cancelled) (set_result ts_running "重新规划后恢复执行") steps in
    with_phase ph_building (with_steps steps t).

(** src/src/agent/task-tracker.ts # revisePlan *)
Definition revisePlan (reason : string) (t : Tracker) : Tracker :=
  let steps := update_first (has_status ts_running) (set_result ts_failed (slice120 reason)) (tk_steps t) in
  let steps := map (fun s => if has_status ts_pending s then set_status ts_cancelled s else s) steps in
  let steps := if existsb (has_id "revise") steps
               then update_first (has_id "revise") (set_status ts_running) steps
               else mkTStep "revise" "修正方案" ts_running None :: steps in
  with_phase ph_planning (with_steps steps t).

(** src/src/agent/task-tracker.ts # updateTaskTrackerAfterTools @189-201

    The input of [updateTaskTrackerAfterTools], without the evidence ledger,
    which is fed first and by itself. *)
Record TrackerUpdate := mkUpdate {
  up_changedFiles : list string; up_typecheckPassed : bool; up_verificationPassed : bool;
  up_verificationResults : list VerificationResult; up_skipLegacyStepIds : bool }.

(** src/src/agent/task-tracker.ts # updateTaskTrackerAfterTools @211-211

    [file.replace(/\\/g, "/")] *)
Fixpoint forward_slashes (s : string) : string :=
  match s with
  | EmptyString => EmptyString
  | String c s => String (if c === "\"%char then "/"%char else c) (forward_slashes s)
  end.

(** src/src/agent/task-tracker.ts # markDone @213-218 *)
Definition markDone (id evidence : string) (steps : list Step) : list Step :=
  update_first (has_id id) (set_result ts_done evidence) steps.

(** src/src/agent/task-tracker.ts # hasChangedFile @219-222 *)
Definition hasChangedFile (files : list string) (requiredFile : string) : bool :=
  let normalized := forward_slashes requiredFile in
  existsb (fun file => (file === normalized) || endsWith file ("/" +:+ normalized)) files.

(** src/src/agent/task-tracker.ts # updateTaskTrackerAfterTools @225-243

    The steps of keyword trackers are known by fixed ids. *)
Definition mark_legacy (files : list string) (verificationPassed : bool) (steps : list Step) : list Step :=
  let some p := existsb p files in
  let steps := if some (fun f => startsWith f "server/" || str_includes "/server/" f)
               then markDone "backend" "已写入后端文件" steps else steps in
  let steps := if some (fun f => str_includes "posts." f || str_includes "/data/" f)
               then markDone "content" "已写入内容数据" steps else steps in
  let client := some (fun f => startsWith f "client/" || str_includes "/client/" f) in
  let steps := if client then markDone "frontend" "已写入前端文件" steps else steps in
  let backend_done := match find (has_id "backend") steps with
                      | Some s => has_status ts_done s | None => false end in
  let steps := if client && (backend_done || some (fun f => startsWith f "server/"))
               then markDone "integration" "已同时具备前端和后端文件" steps else steps in
  if verificationPassed then markDone "verification" "验证命令通过" steps else steps.

(** src/src/agent/task-tracker.ts # updateTaskTrackerAfterTools @244-250

    The steps of packet trackers are known by their place. *)
Definition mark_scope (files requiredFiles : list string) (steps : list Step) : list Step :=
  fold_left (fun steps '(i, file) =>
      if hasChangedFile files file then markDone ("scope-" +:+ pretty (S i)) ("已写入 " +:+ file) steps else steps)
    (zip (seq 0 (length requiredFiles)) requiredFiles) steps.

Definition passed_text (r : VerificationResult) : string :=
  kind_name (vr_kind r) +:+ " passed: " +:+ vr_command r.

(** src/src/agent/task-tracker.ts # updateTaskTrackerAfterTools @258-264

    One passed result: its evidence and, for a packet tracker, its step. *)
Definition mark_result (packet : bool) (state : list (VerificationKind * string) * list Step)
    (r : VerificationResult) : list (VerificationKind * string) * list Step :=
  if vr_passed r then
    (jset (vr_kind r) (passed_text r) state.1,
     if packet then markDone ("verify-" +:+ kind_name (vr_kind r)) (passed_text r) state.2 else state.2)
  else state.

(** src/src/agent/task-tracker.ts # updateTaskTrackerAfterTools *)
Definition updateTaskTrackerAfterTools (u : TrackerUpdate) (t : Tracker) : Tracker :=
  if tk_phase t === ph_complete then t
  else
    let files := map forward_slashes (up_changedFiles u) in
    let packet := up_skipLegacyStepIds u in
    let steps := if packet then mark_scope files (tk_requiredFiles t) (tk_steps t)
                 else mark_legacy files (up_verificationPassed u) (tk_steps t) in
    let evidence := if up_typecheckPassed u
                    then jset v_typecheck "typecheck passed" (tk_verificationEvidence t)
                    else tk_verificationEvidence t in
    let steps := if up_typecheckPassed u && packet
                 then markDone "verify-typecheck" "类型检查通过" steps else steps in
    let '(evidence, steps) := fold_left (mark_result packet) (up_verificationResults u) (evidence, steps) in
    let kinds := tk_requiredVerificationKinds t in
    let evidence := if up_verificationPassed u && match kinds with [] => true | _ => false end
                    then jset v_unknown "verification passed" evidence else evidence in
    let satisfied := forallb (fun k => jhas k evidence) kinds in
    let missing := filter (fun k => jhas k evidence = false) kinds in
    let steps := if match kinds with [] => false | _ => true end && negb satisfied
                 then update_first (has_id "verification")
                        (set_result ts_pending ("missing required verification: "
                                                +:+ js_join ", " (map kind_name missing))) steps
                 else steps in
    let steps := if satisfied
                 then markDone "verification" ("验证命令通过: " +:+ js_join ", " (map kind_name kinds)) steps
                 else steps in
    let steps := if existsb (has_status ts_running) steps then steps
                 else update_first (has_status ts_pending) (set_status ts_running) steps in
    let t := with_evidence evidence (with_steps steps t) in
    if existsb (fun s => has_status ts_pending s || has_status ts_running s) steps then t
    else with_phase ph_complete t.

Inductive Requirement := rq_step (title : string) | rq_file (path : string) | rq_kind (k : VerificationKind).

(** src/src/agent/task-tracker.ts # missingTaskRequirements *)
Definition missingTaskRequirements (existsSync : string -> bool) (cwd : string) (tracker : option Tracker)
  : list Requirement :=
  match tracker with
  | None => []
  | Some t =>
      map (fun s => rq_step (st_title s)) (filter (fun s => has_status ts_done s = false) (tk_steps t))
      ++ map rq_file (filter (fun f => file_found existsSync cwd f = false) (tk_requiredFiles t))
      ++ map rq_kind (filter (fun k => jhas k (tk_verificationEvidence t) = false)
                        (tk_requiredVerificationKinds t))
  end.

(** src/src/agent/task-tracker.ts # taskTrackerComplete *)
Definition taskTrackerComplete (tracker : option Tracker) : bool :=
  match tracker with None => true | Some t => tk_phase t === ph_complete end.

(** src/src/agent/task-tracker.ts # TaskTrackerSnapshot *)
Record TaskTrackerSnapshot := mkTrackerSnapshot {
  ss_goal : string; ss_phase : TrackerPhase; ss_done : nat; ss_total : nat; ss_current : string;
  ss_steps : list Step }.

Definition current_step (t : Tracker) : option Step :=
  match find (has_status ts_running) (tk_steps t) with
  | Some s => Some s | None => find (has_status ts_pending) (tk_steps t) end.

(** src/src/agent/task-tracker.ts # snapshotTaskTracker *)
Definition snapshotTaskTracker (tracker : option Tracker) : option TaskTrackerSnapshot :=
  match tracker with
  | None => None
  | Some t =>
      Some (mkTrackerSnapshot (tk_goal t) (tk_phase t) (count_where (has_status ts_done) (tk_steps t))
              (length (tk_steps t)) (from_option st_title "all done" (current_step t)) (tk_steps t))
  end.

(** ** Marking steps *)

Lemma update_first_none {A} (p : A -> bool) f (l : list A) :
  (forall x, x ∈ l -> p x = false) -> update_first p f l = l.
Proof.
  induction l as [|x l IH]; intros H; [done|]. cbn [update_first].
  rewrite (H x) by left. by rewrite IH by set_solver.
Qed.

(** How a step changes when the ids of [D] are ticked off: it stays the step it
    is, it is done when it was or is ticked off, and it stays open otherwise. *)
Definition live (s : Step) : Prop := st_status s ∈ [ts_pending; ts_running; ts_done].
Definition evolves (D : string -> Prop) (s s' : Step) : Prop :=
  st_id s' = st_id s /\ st_title s' = st_title s /\
  (st_status s' = ts_done <-> st_status s = ts_done \/ D (st_id s)) /\
  (live s -> live s').
Definition nothing (_ : string) : Prop := False.

Lemma evolves_refl l : Forall2 (evolves nothing) l l.
Proof. induction l; constructor; [|done]. unfold evolves, nothing. naive_solver. Qed.

Lemma evolves_trans D D' l1 l2 l3 :
  Forall2 (evolves D) l1 l2 -> Forall2 (evolves D') l2 l3 ->
  Forall2 (evolves (fun id => D id \/ D' id)) l1 l3.
Proof.
  intros H. revert l3. induction H as [|a b l l' Hab _ IH]; intros l3 H2;
    apply Forall2_cons_inv_l in H2 as (c & l3' & Hbc & H2 & ->) || (apply Forall2_nil_inv_l in H2 as ->);
    constructor; [|by apply IH].
  destruct Hab as (E1 & E2 & E3 & E4), Hbc as (F1 & F2 & F3 & F4).
  repeat split; try congruence; [| |auto]; rewrite ?F3, ?E3, ?E1; tauto.
Qed.

Lemma evolves_iff (D D' : string -> Prop) l l' :
  (forall s, s ∈ l -> D (st_id s) <-> D' (st_id s)) ->
  Forall2 (evolves D) l l' -> Forall2 (evolves D') l l'.
Proof.
  intros Hd H. induction H as [|a b l l' Hab _ IH]; constructor.
  - destruct Hab as (E1 & E2 & E3 & E4). repeat split; [done|done| | |done];
      rewrite E3, Hd by left; tauto.
  - apply IH. intros s Hs. apply Hd. by right.
Qed.

Lemma evolves_ids D l l' : Forall2 (evolves D) l l' -> st_id <$> l' = st_id <$> l.
Proof. induction 1 as [|a b l l' (E & _) _ IH]; [done|]. cbn. by rewrite E, IH. Qed.

Lemma markDone_evolves id evidence l :
  NoDup (st_id <$> l) -> Forall2 (evolves (fun x => x = id)) l (markDone id evidence l).
Proof.
  unfold markDone. induction l as [|s l IH]; intros Hnd; [constructor|].
  cbn [fmap list_fmap] in Hnd. apply NoDup_cons in Hnd as [Hs Hnd]. cbn [update_first].
  unfold has_id at 1. destruct (st_id s === id) eqn:E; reflect.
  - constructor; [unfold evolves, live; cbn; split_and!; [done|done|tauto|set_solver]|].
    eapply evolves_iff; [|apply evolves_refl]. unfold nothing. intros s' Hs'. split; [done|].
    intros E'. apply Hs. rewrite E, <- E'. by apply list_elem_of_fmap_2.
  - constructor; [|by apply IH]. unfold evolves. naive_solver.
Qed.

Lemma promote_evolves l :
  Forall2 (evolves nothing) l (update_first (has_status ts_pending) (set_status ts_running) l).
Proof.
  induction l as [|s l IH]; [constructor|]. cbn [update_first].
  unfold has_status at 1. destruct (st_status s === ts_pending) eqn:E; reflect.
  - constructor; [|apply evolves_refl]. unfold evolves, nothing, live. cbn. rewrite E. set_solver.
  - constructor; [|done]. unfold evolves, nothing. naive_solver.
Qed.

Lemma fold_evolves {A} (f : list Step -> A -> list Step) (D : A -> string -> Prop) (xs : list A) :
  (forall l a, NoDup (st_id <$> l) -> Forall2 (evolves (D a)) l (f l a)) ->
  forall l, NoDup (st_id <$> l) ->
  Forall2 (evolves (fun id => exists a, a ∈ xs /\ D a id)) l (fold_left f xs l).
Proof.
  intros Hf. induction xs as [|x xs IH]; intros l Hnd; cbn [fold_left].
  - eapply evolves_iff; [|apply evolves_refl]. unfold nothing. set_solver.
  - pose proof (Hf l x Hnd) as H1. assert (NoDup (st_id <$> f l x)) as Hnd' by by rewrite (evolves_ids _ _ _ H1).
    eapply evolves_iff; [|exact (evolves_trans _ _ _ _ _ H1 (IH _ Hnd'))].
    intros s _. cbn. setoid_rewrite elem_of_cons. naive_solver.
Qed.

Definition scope_id (i : nat) : string := "scope-" +:+ pretty (S i).
Definition verify_id (k : VerificationKind) : string := "verify-" +:+ kind_name k.

Lemma scope_id_inj i j : scope_id i = scope_id j -> i = j.
Proof. unfold scope_id. intros H. apply (inj (String.app "scope-")), (inj pretty) in H. lia. Qed.

Lemma verify_id_inj k k' : verify_id k = verify_id k' -> k = k'.
Proof. by destruct k, k'. Qed.

Lemma scope_verify_ne i k : scope_id i <> verify_id k.
Proof. done. Qed.

Lemma mark_scope_evolves files required l :
  NoDup (st_id <$> l) ->
  Forall2 (evolves (fun id => exists i file, required !! i = Some file /\ hasChangedFile files file = true
                                           /\ id = scope_id i)) l (mark_scope files required l).
Proof.
  intros Hnd. unfold mark_scope. eapply evolves_iff.
  2: { apply (fold_evolves _ (fun a id => hasChangedFile files a.2 = true /\ id = scope_id a.1)); [|exact Hnd].
       intros l' [i file] Hnd'. cbn [fst snd]. destruct (hasChangedFile files file).
       - eapply evolves_iff; [|by apply markDone_evolves]. intros s _. unfold scope_id. naive_solver.
       - eapply evolves_iff; [|apply evolves_refl]. unfold nothing. naive_solver. }
  intros s _. cbn. split.
  - intros ([i file] & Hin & Hc & E). exists i, file. split_and!; [|done|done].
    apply elem_of_lookup_zip_with in Hin as (j & x & y & [= -> ->] & Hj & Hf).
    apply lookup_seq in Hj as [-> _]. done.
  - intros (i & file & Hi & Hc & E). exists (i, file). split; [|done].
    apply elem_of_lookup_zip_with. exists i, i, file. split_and!; [done| |done].
    apply lookup_seq. split; [done|]. by eapply lookup_lt_Some.
Qed.

Lemma exists_cons {A} (P : A -> Prop) x l :
  (exists y, y ∈ x :: l /\ P y) <-> P x \/ exists y, y ∈ l /\ P y.
Proof.
  split.
  - intros (y & [->|Hy]%elem_of_cons & H); [by left|right; eauto].
  - intros [H|(y & Hy & H)]; [exists x; split; [left|done]|exists y; split; [by right|done]].
Qed.

Lemma mark_results_evolves packet results ev l :
  NoDup (st_id <$> l) ->
  Forall2 (evolves (fun id => packet = true /\
             exists r, r ∈ results /\ vr_passed r = true /\ id = verify_id (vr_kind r)))
    l (fold_left (mark_result packet) results (ev, l)).2 /\
  (forall k, jhas k (fold_left (mark_result packet) results (ev, l)).1 = true <->
             jhas k ev = true \/ exists r, r ∈ results /\ vr_passed r = true /\ vr_kind r = k).
Proof.
  revert ev l. induction results as [|r results IH]; intros ev l Hnd; cbn [fold_left].
  - split; [|cbn [fst]; set_solver]. eapply evolves_iff; [|apply evolves_refl]. unfold nothing. set_solver.
  - unfold mark_result at 2 4. destruct (vr_passed r) eqn:Er; cbn [fst snd].
    + set (l1 := if packet then _ else l).
      assert (Forall2 (evolves (fun id => packet = true /\ id = verify_id (vr_kind r))) l l1) as H1.
      { unfold l1. destruct packet.
        - eapply evolves_iff; [|by apply (markDone_evolves (verify_id (vr_kind r)) (passed_text r))]. intros s _. tauto.
        - eapply evolves_iff; [|apply evolves_refl]. unfold nothing. intros s _. naive_solver. }
      assert (NoDup (st_id <$> l1)) as Hnd' by by rewrite (evolves_ids _ _ _ H1).
      destruct (IH (jset (vr_kind r) (passed_text r) ev) _ Hnd') as [H2 H3]. split.
      * eapply evolves_iff; [|exact (evolves_trans _ _ _ _ _ H1 H2)]. intros s _. cbn.
        rewrite exists_cons. clear -Er. tauto.
      * intros k. rewrite (H3 k), !jhas_true, elem_of_jkeys_jset, exists_cons. clear -Er. intuition congruence.
    + destruct (IH ev l Hnd) as [H2 H3]. split.
      * eapply evolves_iff; [|exact H2]. intros s _. rewrite exists_cons. clear -Er. intuition congruence.
      * intros k. rewrite (H3 k), exists_cons. clear -Er. intuition congruence.
Qed.

(** The fixed ids of keyword trackers. *)
Definition legacy_ids : list string := ["backend"; "content"; "frontend"; "integration"; "verification"].
Definition no_legacy (l : list Step) : Prop := Forall (fun id => id ∉ st_id <$> l) legacy_ids.

Lemma no_legacy_update id f l : no_legacy l -> id ∈ legacy_ids -> update_first (has_id id) f l = l.
Proof.
  intros Hl Hid. apply update_first_none. intros s Hin. unfold has_id. apply same_neq. intros E.
  apply (proj1 (Forall_forall _ _) Hl _ Hid). rewrite <- E. by apply list_elem_of_fmap_2.
Qed.

Lemma mark_legacy_nothing files passed l : no_legacy l -> mark_legacy files passed l = l.
Proof.
  intros Hl. unfold mark_legacy, markDone.
  assert (forall b : bool, (if b then l else l) = l) as Hb by by intros [].
  rewrite (no_legacy_update "backend"), Hb by (done || set_solver).
  rewrite (no_legacy_update "content"), Hb by (done || set_solver).
  rewrite (no_legacy_update "frontend"), Hb by (done || set_solver).
  rewrite (no_legacy_update "integration"), Hb by (done || set_solver).
  by rewrite (no_legacy_update "verification"), Hb by (done || set_solver).
Qed.

(** ** A packet tracker *)

(** What a round of tools contributes: a changed file, a kind verified.  A
    reported path is the file of the scope, or lies somewhere above it: the two
    are compared with either kind of slash, and whole names at a time. *)
Definition at_path (reported file : string) : Prop :=
  forward_slashes reported = forward_slashes file \/
  exists dir, forward_slashes reported = dir +:+ "/" +:+ forward_slashes file.
Definition changes (u : TrackerUpdate) (file : string) : Prop :=
  exists reported, reported ∈ up_changedFiles u /\ at_path reported file.
Definition passes (u : TrackerUpdate) (k : VerificationKind) : Prop :=
  (up_typecheckPassed u = true /\ k = v_typecheck) \/
  exists r, r ∈ up_verificationResults u /\ vr_passed r = true /\ vr_kind r = k.

(** Only a round made under a plan ticks the steps of a packet off. *)
Definition planned (u : TrackerUpdate) : Prop := up_skipLegacyStepIds u = true.

Definition ticked (required : list string) (u : TrackerUpdate) (id : string) : Prop :=
  planned u /\
  ((exists i file, required !! i = Some file /\ changes u file /\ id = scope_id i) \/
   (exists k, passes u k /\ id = verify_id k)).

Lemma endsWith_iff s p : endsWith s p = true <-> exists d, s = d +:+ p.
Proof.
  induction s as [|c s IH]; cbn [endsWith]; rewrite orb_true_iff, same_eq.
  - split; [intros [->|?]; [by exists ""|done]|]. intros ([|? ?] & E); [by left|done].
  - rewrite IH. split.
    + intros [->|(d & ->)]; [by exists ""|by exists (String c d)].
    + intros ([|x d] & E); [by left|right]. injection E as _ ->. by exists d.
Qed.

Lemma hasChangedFile_iff u file :
  hasChangedFile (map forward_slashes (up_changedFiles u)) file = true <-> changes u file.
Proof.
  unfold hasChangedFile, changes, at_path. rewrite existsb_exists.
  setoid_rewrite <- list_elem_of_In. setoid_rewrite orb_true_iff. setoid_rewrite endsWith_iff.
  setoid_rewrite same_eq. split.
  - intros (f & (r & -> & Hr)%list_elem_of_fmap & H). by exists r.
  - intros (r & Hr & H). exists (forward_slashes r). split; [|done]. apply list_elem_of_fmap. by exists r.
Qed.

Definition open_step (s : Step) : bool := has_status ts_pending s || has_status ts_running s.

Lemma jhas_jset_typecheck (text : string) (ev : list (VerificationKind * string)) k :
  jhas k (jset v_typecheck text ev) = true <-> jhas k ev = true \/ k = v_typecheck.
Proof. rewrite !jhas_true, elem_of_jkeys_jset. tauto. Qed.

(** The steps and the evidence before the last adjustments. *)
Lemma packet_marks u t evidence steps :
  NoDup (st_id <$> tk_steps t) -> no_legacy (tk_steps t) ->
  let files := map forward_slashes (up_changedFiles u) in
  let packet := up_skipLegacyStepIds u in
  let scoped := if packet then mark_scope files (tk_requiredFiles t) (tk_steps t)
                else mark_legacy files (up_verificationPassed u) (tk_steps t) in
  fold_left (mark_result packet) (up_verificationResults u)
    (if up_typecheckPassed u then jset v_typecheck "typecheck passed" (tk_verificationEvidence t)
     else tk_verificationEvidence t,
     if up_typecheckPassed u && packet then markDone "verify-typecheck" "类型检查通过" scoped else scoped)
  = (evidence, steps) ->
  Forall2 (evolves (ticked (tk_requiredFiles t) u)) (tk_steps t) steps /\
  (forall k, jhas k evidence = true <-> jhas k (tk_verificationEvidence t) = true \/ passes u k).
Proof.
  intros Hnd Hleg files packet scoped Hf.
  assert (Forall2 (evolves (fun id => packet = true /\
            exists i file, tk_requiredFiles t !! i = Some file /\ changes u file /\ id = scope_id i))
            (tk_steps t) scoped) as H1.
  { unfold scoped. destruct packet.
    - eapply evolves_iff; [|by apply mark_scope_evolves]. intros s _. cbn.
      unfold files. setoid_rewrite hasChangedFile_iff. naive_solver.
    - rewrite mark_legacy_nothing by done. eapply evolves_iff; [|apply evolves_refl]. unfold nothing. naive_solver. }
  assert (NoDup (st_id <$> scoped)) as Hnd1 by by rewrite (evolves_ids _ _ _ H1).
  set (checked := if up_typecheckPassed u && packet then _ else scoped) in Hf.
  assert (Forall2 (evolves (fun id => packet = true /\ up_typecheckPassed u = true /\ id = verify_id v_typecheck))
            scoped checked) as H2.
  { unfold checked. destruct (up_typecheckPassed u), packet; cbn [andb];
      [eapply evolves_iff; [|by apply markDone_evolves]; intros s _; unfold verify_id; naive_solver|
       eapply evolves_iff; [|apply evolves_refl]; unfold nothing; naive_solver..]. }
  assert (NoDup (st_id <$> checked)) as Hnd2 by by rewrite (evolves_ids _ _ _ H2).
  set (ev := if up_typecheckPassed u then _ else _) in Hf.
  destruct (mark_results_evolves packet (up_verificationResults u) ev checked Hnd2) as [H3 H4].
  rewrite Hf in H3, H4. cbn [fst snd] in H3, H4. split.
  - eapply evolves_iff; [|exact (evolves_trans _ _ _ _ _ (evolves_trans _ _ _ _ _ H1 H2) H3)].
    intros s _. unfold ticked, passes, planned. fold packet. clear. split.
    + intros [[(Hp & H)|(Hp & Hu & E)]|(Hp & r & Hr & Hq & E)]; (split; [done|]); [by left|right..].
      * exists v_typecheck. split; [by left|done].
      * exists (vr_kind r). split; [right; eauto|done].
    + intros [Hp [H|(k & [[Hu ->]|(r & Hr & Hq & <-)] & E)]]; [by do 2 left|left; by right|right; eauto].
  - intros k. rewrite (H4 k). unfold passes, ev. destruct (up_typecheckPassed u).
    + rewrite jhas_jset_typecheck. clear. intuition congruence.
    + clear. intuition congruence.
Qed.

Lemma update_evolves u t :
  tk_phase t <> ph_complete -> tk_requiredVerificationKinds t <> [] ->
  NoDup (st_id <$> tk_steps t) -> no_legacy (tk_steps t) ->
  let t' := updateTaskTrackerAfterTools u t in
  Forall2 (evolves (ticked (tk_requiredFiles t) u)) (tk_steps t) (tk_steps t') /\
  (forall k, jhas k (tk_verificationEvidence t') = true <->
             jhas k (tk_verificationEvidence t) = true \/ passes u k) /\
  tk_requiredFiles t' = tk_requiredFiles t /\
  tk_requiredVerificationKinds t' = tk_requiredVerificationKinds t /\
  tk_phase t' = (if existsb open_step (tk_steps t') then tk_phase t else ph_complete).
Proof.
  intros Hph Hk Hnd Hleg. cbv zeta. unfold updateTaskTrackerAfterTools.
  rewrite (proj2 (same_neq _ _) Hph). cbv zeta.
  destruct (fold_left _ _ _) as [evidence steps] eqn:Ef.
  apply packet_marks in Ef as [Hs He]; [|done|done].
  assert (no_legacy steps) as Hleg' by by unfold no_legacy; rewrite (evolves_ids _ _ _ Hs).
  assert (forall f, update_first (has_id "verification") f steps = steps) as Hno.
  { intros f. apply no_legacy_update; [done|]. unfold legacy_ids. set_solver. }
  assert ((up_verificationPassed u && match tk_requiredVerificationKinds t with [] => true | _ => false end) = false) as ->.
  { destruct (tk_requiredVerificationKinds t); [done|]. by rewrite andb_false_r. }
  unfold markDone. rewrite !Hno.
  assert (forall b : bool, (if b then steps else steps) = steps) as Hb by by intros [].
  rewrite !Hb, !Hno, !Hb.
  set (final := if existsb (has_status ts_running) steps then steps
                else update_first (has_status ts_pending) (set_status ts_running) steps).
  assert (Forall2 (evolves (ticked (tk_requiredFiles t) u)) (tk_steps t) final) as Hfinal.
  { unfold final. destruct (existsb (has_status ts_running) steps); [done|].
    eapply evolves_iff; [|exact (evolves_trans _ _ _ _ _ Hs (promote_evolves steps))].
    unfold nothing. intros s _. tauto. }
  change (existsb (fun s => has_status ts_pending s || has_status ts_running s) final) with (existsb open_step final).
  destruct (existsb open_step final) eqn:Eo; cbn; by rewrite Eo.
Qed.

Definition run_updates (us : list TrackerUpdate) (t : Tracker) : Tracker :=
  fold_left (fun t u => updateTaskTrackerAfterTools u t) us t.

(** A packet whose steps are told apart: every item of the scope names a file,
    and every kind of verification is asked for once. *)
Record trackable (p : TaskPacket) : Prop := {
  tr_clean : packet_errors p = [];
  tr_files : Forall (fun s => isFilePath s = true) (pk_scope p);
  tr_kinds : NoDup (map vq_kind (pk_verification p)) }.

Lemma packet_error p i : packet_errors p = [] -> is_error i = true -> i ∉ validateTaskPacket p.
Proof.
  intros H Hi Hin. assert (i ∈ packet_errors p) as Hp by by apply list_elem_of_filter.
  rewrite H in Hp. set_solver.
Qed.

Lemma clean_nonempty p : packet_errors p = [] -> pk_scope p <> [] /\ pk_verification p <> [].
Proof.
  intros H. split; intros E.
  - apply (packet_error p pi_scope H eq_refl). unfold validateTaskPacket. rewrite E. cbn [issue]. set_solver.
  - apply (packet_error p pi_verification H eq_refl). unfold validateTaskPacket. rewrite E. cbn [issue]. set_solver.
Qed.

Definition packet_steps (p : TaskPacket) : list Step := scope_steps (pk_scope p) ++ verify_steps (pk_verification p).

Lemma packet_tracker p intent :
  trackable p ->
  exists t, createTaskTrackerFromPacket p intent = Ok t /\ tk_steps t = packet_steps p /\
    tk_phase t = ph_building /\ tk_requiredFiles t = pk_scope p /\
    tk_requiredVerificationKinds t = map vq_kind (pk_verification p) /\ tk_verificationEvidence t = [].
Proof.
  intros [Hc Hf _]. unfold createTaskTrackerFromPacket. rewrite Hc. eexists. split; [done|]. cbn.
  split_and!; [|done| |done|done].
  - fold (packet_steps p). destruct (packet_steps p) eqn:E; [|done]. exfalso.
    unfold packet_steps in E. apply app_eq_nil in E as [E _]. destruct (pk_scope p) eqn:Es; [|discriminate E]. by apply (proj1 (clean_nonempty p Hc)).
  - apply filter_all. by apply Forall_forall.
Qed.

Lemma scope_ids scope : st_id <$> scope_steps scope = imap (fun i _ => scope_id i) scope.
Proof. unfold scope_steps. rewrite fmap_imap. by apply imap_ext. Qed.

Lemma verify_ids vs : st_id <$> verify_steps vs = verify_id <$> (vq_kind <$> vs).
Proof. unfold verify_steps. rewrite <- !list_fmap_compose. by apply list_fmap_ext. Qed.

Lemma elem_of_scope_ids id (scope : list string) : id ∈ imap (fun i _ => scope_id i) scope -> exists i, id = scope_id i.
Proof. intros (i & x & -> & _)%elem_of_lookup_imap. eauto. Qed.

Lemma packet_ids_NoDup p : NoDup (map vq_kind (pk_verification p)) -> NoDup (st_id <$> packet_steps p).
Proof.
  intros Hk. unfold packet_steps. rewrite fmap_app, scope_ids, verify_ids. apply NoDup_app. split_and!.
  - apply NoDup_alt. intros i j id Hi Hj. rewrite !list_lookup_imap in *.
    destruct (pk_scope p !! i); [|done]. destruct (pk_scope p !! j); [|done]. cbn in *.
    apply scope_id_inj. congruence.
  - intros id (i & ->)%elem_of_scope_ids (k & E & _)%list_elem_of_fmap. by apply scope_verify_ne in E.
  - apply NoDup_fmap_2_strong; [|exact Hk]. intros k k' _ _. apply verify_id_inj.
Qed.

Lemma packet_ids_no_legacy p : no_legacy (packet_steps p).
Proof.
  unfold no_legacy. apply Forall_forall. intros id Hid. unfold packet_steps.
  rewrite fmap_app, scope_ids, verify_ids, elem_of_app. intros [H|H].
  - apply elem_of_scope_ids in H as [i ->].
    repeat (apply elem_of_cons in Hid as [E|Hid]; [discriminate E|]). inversion Hid.
  - apply list_elem_of_fmap in H as (k & -> & _). destruct k;
      repeat (apply elem_of_cons in Hid as [E|Hid]; [discriminate E|]); inversion Hid.
Qed.

Lemma verify_step_at vs j v :
  vs !! j = Some v ->
  verify_steps vs !! j = Some (mkTStep (verify_id (vq_kind v)) (slice120 (vq_description v)) ts_pending None).
Proof. intros H. unfold verify_steps. by rewrite list_lookup_fmap, H. Qed.

Lemma scope_step_at scope i file :
  scope !! i = Some file -> exists s, scope_steps scope !! i = Some s /\ st_id s = scope_id i.
Proof. intros H. unfold scope_steps. rewrite list_lookup_imap, H. eexists. by split. Qed.

Lemma packet_steps_open p : packet_errors p = [] -> existsb open_step (packet_steps p) = true.
Proof.
  intros Hc. unfold packet_steps. destruct (pk_scope p) eqn:E; [by destruct (proj1 (clean_nonempty p Hc))|]. done.
Qed.

Lemma packet_steps_fresh p s : s ∈ packet_steps p -> live s /\ st_status s <> ts_done.
Proof.
  unfold packet_steps. rewrite elem_of_app. intros [H|H].
  - apply elem_of_lookup_imap in H as (i & item & -> & _). unfold live. cbn. destruct (i =? 0)%nat; set_solver.
  - apply list_elem_of_fmap in H as (v & -> & _). unfold live. cbn. set_solver.
Qed.

(** The tracker after the updates [us]: what was ticked off, what is proved. *)
Record tracks (p : TaskPacket) (us : list TrackerUpdate) (t : Tracker) : Prop := {
  tk_evolved : Forall2 (evolves (fun id => exists u, u ∈ us /\ ticked (pk_scope p) u id)) (packet_steps p) (tk_steps t);
  tk_proofs : forall k, k ∈ map vq_kind (pk_verification p) ->
    jhas k (tk_verificationEvidence t) = true <-> exists u, u ∈ us /\ passes u k;
  tk_files : tk_requiredFiles t = pk_scope p;
  tk_kinds : tk_requiredVerificationKinds t = map vq_kind (pk_verification p);
  tk_phased : tk_phase t = if existsb open_step (tk_steps t) then ph_building else ph_complete }.

(** A step of the packet and what became of it. *)
Lemma tracked_step p us t i s :
  tracks p us t -> packet_steps p !! i = Some s ->
  exists s', tk_steps t !! i = Some s' /\ live s' /\
    (st_status s' = ts_done <-> exists u, u ∈ us /\ ticked (pk_scope p) u (st_id s)).
Proof.
  intros [He _ _ _ _] Hi.
  destruct (Forall2_lookup_l _ _ _ _ _ He Hi) as (s' & Hi' & _ & _ & Hd & Hl).
  destruct (packet_steps_fresh p s) as [Hlive Hopen]; [by eapply list_elem_of_lookup_2|].
  exists s'. split_and!; [done|by apply Hl|]. rewrite Hd. tauto.
Qed.

Lemma ticked_scope required u i file :
  required !! i = Some file -> ticked required u (scope_id i) <-> planned u /\ changes u file.
Proof.
  intros Hi. split.
  - intros [Hp [(j & f & Hj & Hc & E)|(k & _ & E)]]; [|by apply scope_verify_ne in E].
    apply scope_id_inj in E. split; [done|congruence].
  - intros [Hp Hc]. split; [done|]. left. eauto.
Qed.

Lemma ticked_verify required u k : ticked required u (verify_id k) <-> planned u /\ passes u k.
Proof.
  split.
  - intros [Hu [(i & f & _ & _ & E)|(k' & Hp & E)]]; [by symmetry in E; apply scope_verify_ne in E|].
    by apply verify_id_inj in E as ->.
  - intros [Hu Hp]. split; [done|]. right. eauto.
Qed.

(** Scope steps come first, verification steps after them. *)
Lemma scope_tracked p us t i file :
  tracks p us t -> pk_scope p !! i = Some file ->
  exists s, tk_steps t !! i = Some s /\ (st_status s = ts_done <-> exists u, u ∈ us /\ planned u /\ changes u file).
Proof.
  intros Ht Hi. destruct (scope_step_at _ _ _ Hi) as (s & Hs & Eid).
  destruct (tracked_step p us t i s Ht) as (s' & Hs' & _ & Hd); [by apply lookup_app_l_Some|].
  exists s'. split; [done|]. rewrite Hd, Eid. by setoid_rewrite (ticked_scope _ _ _ _ Hi).
Qed.

Lemma verify_tracked p us t j v :
  tracks p us t -> pk_verification p !! j = Some v ->
  exists s, tk_steps t !! (length (pk_scope p) + j)%nat = Some s /\
    (st_status s = ts_done <-> exists u, u ∈ us /\ planned u /\ passes u (vq_kind v)).
Proof.
  intros Ht Hj.
  assert (packet_steps p !! (length (pk_scope p) + j)%nat
          = Some (mkTStep (verify_id (vq_kind v)) (slice120 (vq_description v)) ts_pending None)) as Hs.
  { unfold packet_steps. rewrite lookup_app_r; unfold scope_steps; rewrite length_imap; [|lia].
    replace (_ + j - _)%nat with j by lia. by apply verify_step_at. }
  destruct (tracked_step _ _ _ _ _ Ht Hs) as (s' & Hs' & _ & Hd).
  exists s'. split; [done|]. rewrite Hd. cbn [st_id]. by setoid_rewrite ticked_verify.
Qed.

(** Every step of the tracker is one of the two. *)
Lemma tracked_cases p us t i s :
  tracks p us t -> tk_steps t !! i = Some s ->
  live s /\
  ((exists file, pk_scope p !! i = Some file) \/
   (exists j v, i = (length (pk_scope p) + j)%nat /\ pk_verification p !! j = Some v)).
Proof.
  intros Ht Hi. pose proof (tk_evolved _ _ _ Ht) as He.
  destruct (Forall2_lookup_r _ _ _ _ _ He Hi) as (s0 & Hs0 & _ & _ & _ & Hl). split.
  - apply Hl. eapply packet_steps_fresh, list_elem_of_lookup_2, Hs0.
  - unfold packet_steps in Hs0. apply lookup_app_Some in Hs0 as [Hs0|[Hle Hs0]].
    + unfold scope_steps in Hs0. rewrite list_lookup_imap in Hs0.
      destruct (pk_scope p !! i); [left; eauto|done].
    + right. unfold scope_steps, verify_steps in *. rewrite length_imap in *. rewrite list_lookup_fmap in Hs0.
      destruct (pk_verification p !! _) as [v|] eqn:Ev; [|done]. exists (i - length (pk_scope p))%nat, v.
      split; [lia|done].
Qed.

Definition all_ticked (p : TaskPacket) (us : list TrackerUpdate) : Prop :=
  (forall file, file ∈ pk_scope p -> exists u, u ∈ us /\ planned u /\ changes u file) /\
  (forall v, v ∈ pk_verification p -> exists u, u ∈ us /\ planned u /\ passes u (vq_kind v)).

Lemma existsb_false_iff {A} (p : A -> bool) (l : list A) :
  existsb p l = false <-> forall x, x ∈ l -> p x = false.
Proof.
  split.
  - intros H x Hx. destruct (p x) eqn:E; [|done]. rewrite <- H. symmetry.
    apply existsb_exists. exists x. split; [by apply list_elem_of_In|done].
  - intros H. destruct (existsb p l) eqn:E; [|done].
    apply existsb_exists in E as (x & Hx%list_elem_of_In & E). by rewrite H in E.
Qed.

Lemma live_closed s : live s -> open_step s = false <-> st_status s = ts_done.
Proof.
  unfold live, open_step, has_status. destruct (st_status s); cbn; split; try done; intros; set_solver.
Qed.

Lemma all_done_iff p us t :
  tracks p us t -> (forall s, s ∈ tk_steps t -> st_status s = ts_done) <-> all_ticked p us.
Proof.
  intros Ht. split.
  - intros Hall. split.
    + intros file [i Hi]%list_elem_of_lookup_1. destruct (scope_tracked p us t i file Ht Hi) as (s & Hs & Hd).
      apply Hd, Hall. by eapply list_elem_of_lookup_2.
    + intros v [j Hj]%list_elem_of_lookup_1. destruct (verify_tracked p us t j v Ht Hj) as (s & Hs & Hd).
      apply Hd, Hall. by eapply list_elem_of_lookup_2.
  - intros [Hf Hv] s [i Hi]%list_elem_of_lookup_1.
    destruct (tracked_cases p us t i s Ht Hi) as [_ [(file & E)|(j & v & -> & E)]].
    + destruct (scope_tracked p us t i file Ht E) as (s' & Hs' & Hd). simplify_eq.
      apply Hd, Hf. by eapply list_elem_of_lookup_2.
    + destruct (verify_tracked p us t j v Ht E) as (s' & Hs' & Hd). simplify_eq.
      apply Hd, Hv. by eapply list_elem_of_lookup_2.
Qed.

Lemma phase_complete_iff p us t :
  tracks p us t -> tk_phase t = ph_complete <-> all_ticked p us.
Proof.
  intros Ht. rewrite (tk_phased _ _ _ Ht), <- (all_done_iff p us t Ht). split.
  - destruct (existsb open_step (tk_steps t)) eqn:E; [done|]. intros _ s Hs.
    pose proof Hs as [i Hi]%list_elem_of_lookup_1. destruct (tracked_cases p us t i s Ht Hi) as [Hl _].
    apply (live_closed s Hl). by apply (proj1 (existsb_false_iff open_step (tk_steps t)) E).
  - intros Hall. rewrite (proj2 (existsb_false_iff open_step (tk_steps t))); [done|]. intros s Hs.
    pose proof Hs as [i Hi]%list_elem_of_lookup_1. destruct (tracked_cases p us t i s Ht Hi) as [Hl _].
    by apply (live_closed s Hl), Hall.
Qed.

Lemma exists_snoc {A} (P : A -> Prop) xs x :
  (exists y, y ∈ xs ++ [x] /\ P y) <-> (exists y, y ∈ xs /\ P y) \/ P x.
Proof.
  split.
  - intros (y & [Hy|Hy]%elem_of_app & H); [left; eauto|right]. by apply list_elem_of_singleton in Hy as ->.
  - intros [(y & Hy & H)|H]; [exists y|exists x]; (split; [apply elem_of_app|done]); [by left|right; set_solver].
Qed.

Lemma tracks_start p t :
  packet_errors p = [] -> tk_steps t = packet_steps p -> tk_phase t = ph_building ->
  tk_requiredFiles t = pk_scope p -> tk_requiredVerificationKinds t = map vq_kind (pk_verification p) ->
  tk_verificationEvidence t = [] -> tracks p [] t.
Proof.
  intros Hc Hs Hp Hf Hk He. split; [|intros k _|done|done|].
  - rewrite Hs. eapply evolves_iff; [|apply evolves_refl]. intros s _. unfold nothing. set_solver.
  - rewrite He. split; [done|]. intros (u & Hu & _). set_solver.
  - by rewrite Hp, Hs, packet_steps_open.
Qed.

(** A completed tracker is closed, and nothing was left to tick off. *)
Lemma tracks_closed p us u t :
  tracks p us t -> tk_phase t = ph_complete -> tracks p (us ++ [u]) t.
Proof.
  intros Ht Hp. pose proof (proj1 (phase_complete_iff p us t Ht) Hp) as [Hf Hv].
  destruct Ht as [He Hk ? ? ?]. split; [| |done|done|done].
  - eapply evolves_iff; [|exact He]. intros s Hs. rewrite exists_snoc. split; [by left|].
    intros [H|H]; [done|]. unfold packet_steps in Hs. apply elem_of_app in Hs as [Hs|Hs].
    + apply elem_of_lookup_imap in Hs as (i & item & -> & Hi). cbn [st_id].
      destruct (Hf item) as (u' & Hu' & Hc); [by eapply list_elem_of_lookup_2|].
      exists u'. split; [done|]. by apply (ticked_scope _ _ _ _ Hi).
    + apply list_elem_of_fmap in Hs as (v & -> & Hin). cbn [st_id].
      destruct (Hv v Hin) as (u' & Hu' & Hc). exists u'. split; [done|]. by apply ticked_verify.
  - intros k Hin. rewrite (Hk k Hin), exists_snoc. split; [by left|]. intros [H|H]; [done|].
    apply list_elem_of_fmap in Hin as (v & -> & Hin). destruct (Hv v Hin) as (u' & Hu' & _ & Hq). eauto.
Qed.

Lemma tracks_update p us u t :
  trackable p ->
  tracks p us t -> tracks p (us ++ [u]) (updateTaskTrackerAfterTools u t).
Proof.
  intros [Hc _ Hn] Ht. destruct (decide (tk_phase t = ph_complete)) as [Hp|Hp].
  { unfold updateTaskTrackerAfterTools. rewrite (proj2 (same_eq _ _) Hp). by apply tracks_closed. }
  pose proof Ht as [He Hk Hf Hks Hph]. pose proof (evolves_ids _ _ _ He) as Hids.
  destruct (update_evolves u t) as (H1 & H2 & H3 & H4 & H5); [done| | | |].
  { rewrite Hks. destruct (pk_verification p) eqn:E; [by destruct (proj2 (clean_nonempty p Hc))|done]. }
  { rewrite Hids. by apply packet_ids_NoDup. }
  { unfold no_legacy. rewrite Hids. apply packet_ids_no_legacy. }
  rewrite Hf in H1. split; [| |congruence|congruence|].
  - eapply evolves_iff; [|exact (evolves_trans _ _ _ _ _ He H1)].
    intros s _. cbn. by rewrite exists_snoc.
  - intros k Hin. by rewrite H2, Hk, exists_snoc.
  - rewrite H5. destruct (existsb open_step _); [|done]. rewrite Hph in Hp |- *.
    by destruct (existsb open_step (tk_steps t)).
Qed.

Lemma tracks_run p us t : trackable p -> tracks p [] t -> tracks p us (run_updates us t).
Proof.
  intros Hp H0. induction us as [|u us IH] using rev_ind; [done|].
  unfold run_updates. rewrite fold_left_app. cbn. by apply tracks_update.
Qed.

(** Nothing is missing once the tracker is complete and the files are there. *)
Lemma nothing_missing_iff p us t existsSync cwd :
  tracks p us t ->
  missingTaskRequirements existsSync cwd (Some t) = [] <->
  all_ticked p us /\ (forall file, file ∈ pk_scope p -> file_found existsSync cwd file = true).
Proof.
  intros Ht. unfold missingTaskRequirements. rewrite <- (all_done_iff p us t Ht), (tk_files _ _ _ Ht), (tk_kinds _ _ _ Ht).
  split.
  - intros [H1 [H2 H3]%app_eq_nil]%app_eq_nil. apply map_eq_nil in H1, H2. split.
    + intros s Hs. pose proof (proj1 (filter_nil_iff _ _) H1 s Hs) as H. apply not_false_is_true, same_true in H. done.
    + intros f Hf. pose proof (proj1 (filter_nil_iff _ _) H2 f Hf) as H. by apply not_false_is_true in H.
  - intros [H1 H2].
    rewrite (proj2 (filter_nil_iff _ _)), (proj2 (filter_nil_iff _ _)), (proj2 (filter_nil_iff _ _)); [done| | |].
    + intros k Hk. rewrite (proj2 (tk_proofs _ _ _ Ht k Hk)); [done|].
      apply list_elem_of_fmap in Hk as (v & -> & Hv).
      destruct (proj2 (proj1 (all_done_iff p us t Ht) H1) v Hv) as (u & Hu & _ & Hp). eauto.
    + intros f Hf. by rewrite (H2 f Hf).
    + intros s Hs. unfold has_status. by rewrite (proj2 (same_eq _ _) (H1 s Hs)).
Qed.

(** C35: A tracker made from a task packet tells exactly what was done, after any
    rounds of tool results, whatever their order and number.  The step of a scope
    file is done iff some round made under a plan (skipLegacyStepIds, which the
    coordinator sets when a plan is current) reported a changed path that is the
    scope's path or ends with "/" and it, slashes of either kind alike; the step
    of a verification requirement is done iff some round made under a plan passed
    that kind; the phase is complete iff all of these hold (never because steps
    were lost, and always when they do hold); and nothing is reported missing iff
    it is complete and the files of the scope exist.  A round made without a plan
    ticks nothing off.  The packet has no errors, names a file in every item of
    its scope and asks for no kind of verification twice; both conditions are
    needed. *)
Theorem tracker_tracks_exactly p intent us existsSync cwd :
  trackable p ->
  exists t0, createTaskTrackerFromPacket p intent = Ok t0 /\
    let t := run_updates us t0 in
    (forall i file, pk_scope p !! i = Some file ->
       exists s, tk_steps t !! i = Some s /\ (st_status s = ts_done <-> exists u, u ∈ us /\ planned u /\ changes u file)) /\
    (forall j v, pk_verification p !! j = Some v ->
       exists s, tk_steps t !! (length (pk_scope p) + j)%nat = Some s /\
         (st_status s = ts_done <-> exists u, u ∈ us /\ planned u /\ passes u (vq_kind v))) /\
    (taskTrackerComplete (Some t) = true <-> all_ticked p us) /\
    (missingTaskRequirements existsSync cwd (Some t) = [] <->
       taskTrackerComplete (Some t) = true /\
       forall file, file ∈ pk_scope p -> file_found existsSync cwd file = true).
Proof.
  intros Hp. destruct (packet_tracker p intent Hp) as (t0 & E & Hs & Hph & Hf & Hk & He).
  exists t0. split; [done|]. cbv zeta.
  assert (tracks p us (run_updates us t0)) as Ht.
  { apply tracks_run; [done|]. apply tracks_start; [apply Hp|done..]. }
  assert (taskTrackerComplete (Some (run_updates us t0)) = true <-> all_ticked p us) as Hcomp.
  { rewrite <- (phase_complete_iff p us _ Ht). cbn [taskTrackerComplete]. by rewrite same_eq. }
  split_and!; [| |exact Hcomp|].
  - intros i file. by apply scope_tracked.
  - intros j v. by apply verify_tracked.
  - rewrite Hcomp. by apply nothing_missing_iff.
Qed.

Definition demo_packet : TaskPacket :=
  mkPacket "task-1" "1" "store" "a store" None None ["src/store.ts"; "src/store.test.ts"] ["tests pass"]
    [default_requirement v_typecheck; default_requirement v_test] DEFAULT_RIPPLE DEFAULT_BUDGET.
Definition demo_result : VerificationResult := mkVerification v_test "bun test" true "" None None.
Definition demo_updates : list TrackerUpdate :=
  [mkUpdate ["src\store.ts"] false false [] true; mkUpdate ["/w/src/store.test.ts"] true false [] true;
   mkUpdate [] false true [demo_result] false].

Lemma tracker_tracks_exactly_witness :
  trackable demo_packet /\
  exists t0, createTaskTrackerFromPacket demo_packet ti_long_task = Ok t0 /\
    missingTaskRequirements (fun _ => true) "/w" (Some (run_updates demo_updates t0)) <> [].
Proof.
  assert (trackable demo_packet) as H1.
  { split; [vm_compute; reflexivity|repeat constructor|]. apply (bool_decide_unpack _). vm_compute. exact I. }
  split; [exact H1|].
  destruct (tracker_tracks_exactly demo_packet ti_long_task demo_updates (fun _ => true) "/w" H1)
    as (t0 & E & _ & _ & Hcomp & Hmiss).
  exists t0. split; [exact E|]. intros Hm. apply Hmiss in Hm as [Hc _]. apply Hcomp in Hc as [_ Hv].
  destruct (Hv (default_requirement v_test)) as (u & Hu & Hpl & Hp); [right; left|].
  repeat (apply elem_of_cons in Hu as [->|Hu]).
  - destruct Hp as [[? ?]|(r & Hr & _)]; [discriminate|inversion Hr].
  - destruct Hp as [[? ?]|(r & Hr & _)]; [discriminate|inversion Hr].
  - discriminate Hpl.
  - inversion Hu.
Defined.

(** ** Behaviour worth knowing *)

(** Scope steps are numbered by the scope, but ticked off by the place among the
    required files: an item that is no file shifts the ticks. *)
Lemma scope_step_mismatch :
  let p := mkPacket "task-1" "1" "store" "a store" None None ["the data model"; "src/store.ts"] ["done"]
             [default_requirement v_typecheck] DEFAULT_RIPPLE DEFAULT_BUDGET in
  from_option (fun t => map (fun s => (st_id s, st_status s))
      (tk_steps (run_updates [mkUpdate ["src/store.ts"] true false [] true] t))) []
    (match createTaskTrackerFromPacket p ti_long_task with Ok t => Some t | Throw _ => None end)
  = [("scope-1", ts_done); ("scope-2", ts_running); ("verify-typecheck", ts_done)].
Proof. vm_compute. reflexivity. Qed.

(** The steps of a packet's tracker are ticked off in the rounds of a plan only:
    a run that works on its packet without a plan never completes it. *)
Lemma unplanned_rounds_tick_nothing p intent us t :
  trackable p -> createTaskTrackerFromPacket p intent = Ok t ->
  Forall (fun u => up_skipLegacyStepIds u = false) us ->
  (forall s, s ∈ tk_steps (run_updates us t) -> st_status s <> ts_done) /\
  taskTrackerComplete (Some (run_updates us t)) = false.
Proof.
  intros Hp E Hus. destruct (packet_tracker p intent Hp) as (t0 & E' & Hs & Hph & Hf & Hk & He).
  rewrite E' in E. injection E as <-.
  assert (tracks p us (run_updates us t0)) as Ht.
  { apply tracks_run; [done|]. apply tracks_start; [apply Hp|done..]. }
  assert (forall u, u ∈ us -> ~ planned u) as Hno.
  { intros u Hu. unfold planned. by rewrite (proj1 (Forall_forall _ _) Hus u Hu). }
  assert (forall s, s ∈ tk_steps (run_updates us t0) -> st_status s <> ts_done) as Hopen.
  { intros s [i Hi]%list_elem_of_lookup_1 Hd. destruct (tracked_cases p us _ i s Ht Hi) as [_ [(f & Ef)|(j & v & -> & Ev)]].
    - destruct (scope_tracked p us _ i f Ht Ef) as (s' & Hs' & Hiff). rewrite Hi in Hs'. injection Hs' as <-.
      destruct (proj1 Hiff Hd) as (u & Hu & Hpl & _). by apply (Hno u Hu).
    - destruct (verify_tracked p us _ j v Ht Ev) as (s' & Hs' & Hiff). rewrite Hi in Hs'. injection Hs' as <-.
      destruct (proj1 Hiff Hd) as (u & Hu & Hpl & _). by apply (Hno u Hu). }
  split; [exact Hopen|]. apply same_neq. intros Hc. apply (phase_complete_iff p us _ Ht) in Hc as [_ Hv].
  destruct (pk_verification p) as [|v vs] eqn:Ev; [by destruct (proj2 (clean_nonempty p (tr_clean _ Hp)))|].
  destruct (Hv v) as (u & Hu & Hpl & _); [left|]. by apply (Hno u Hu).
Qed.

(** A packet made from a line that names no file has a step that nothing ticks
    off: no updates complete its tracker. *)
Record fileless (t : Tracker) : Prop := {
  fl_files : tk_requiredFiles t = [];
  fl_kinds : tk_requiredVerificationKinds t <> [];
  fl_ids : NoDup (st_id <$> tk_steps t);
  fl_plain : no_legacy (tk_steps t);
  fl_phase : tk_phase t <> ph_complete;
  fl_open : exists s, s ∈ tk_steps t /\ st_id s = scope_id 0 /\ live s /\ st_status s <> ts_done }.

Lemma fileless_update u t :
  fileless t -> fileless (updateTaskTrackerAfterTools u t).
Proof.
  intros [Hf Hk Hn Hv Hp (s & Hs & Eid & Hl & Hd)].
  destruct (update_evolves u t) as (H1 & _ & H3 & H4 & H5); [done..|].
  pose proof (evolves_ids _ _ _ H1) as Hids. apply list_elem_of_lookup_1 in Hs as [i Hs].
  destruct (Forall2_lookup_l _ _ _ _ _ H1 Hs) as (s' & Hs' & F1 & _ & F3 & F4).
  apply list_elem_of_lookup_2 in Hs'.
  assert (st_status s' <> ts_done) as Hd'.
  { intros E. apply F3 in E as [E|E]; [done|]. rewrite Hf, Eid in E.
    destruct E as [_ [(j & f & Hj & _)|(k & _ & E)]]; [by destruct j|by apply scope_verify_ne in E]. }
  split; [congruence|congruence|by rewrite Hids|by unfold no_legacy; rewrite Hids| |].
  - rewrite H5. destruct (existsb open_step _) eqn:E; [done|].
    pose proof (proj1 (existsb_false_iff _ _) E s' Hs') as Ho. by apply (live_closed s' (F4 Hl)) in Ho.
  - exists s'. split_and!; [done|congruence|by apply F4|done].
Qed.

Lemma fileless_packet_never_completes us t :
  createTaskTrackerFromPacket
    (buildPacketFromLine (fun _ => []) "wire up the login" "login" "1" None None None) ti_long_task = Ok t ->
  taskTrackerComplete (Some (run_updates us t)) = false.
Proof.
  intros E. assert (fileless (run_updates us t)) as H; [|by apply same_neq, fl_phase].
  assert (fileless t) as H0.
  { vm_compute in E. injection E as <-. split; try done; cbn.
    - apply (bool_decide_unpack _). vm_compute. exact I.
    - unfold no_legacy. apply (bool_decide_unpack _). vm_compute. exact I.
    - eexists. split; [left|]. unfold live. cbn. split_and!; [done|set_solver|done]. }
  clear E. revert t H0. induction us as [|u us IH]; intros t H0; [done|].
  cbn. apply IH. by apply fileless_update.
Qed.

(** A step asked for twice is ticked off once. *)
Lemma repeated_kind_stays_open :
  let p := mkPacket "task-1" "1" "store" "a store" None None ["src/store.ts"] ["done"]
             [default_requirement v_test; default_requirement v_test] DEFAULT_RIPPLE DEFAULT_BUDGET in
  packet_errors p = [] /\
  from_option (fun t => map (fun s => (st_id s, st_status s))
      (tk_steps (run_updates [mkUpdate ["src/store.ts"] false false [demo_result] true] t))) []
    (match createTaskTrackerFromPacket p ti_long_task with Ok t => Some t | Throw _ => None end)
  = [("scope-1", ts_done); ("verify-test", ts_done); ("verify-test", ts_running)].
Proof. vm_compute. done. Qed.

(** After a revision one of the cancelled steps is recovered.  The others stay
    cancelled: once it is done the tracker is complete, and they are missing. *)
Lemma revised_tracker_stuck :
  match createTaskTrackerFromPacket demo_packet ti_long_task with
  | Throw _ => True
  | Ok t =>
      let t := markPlanAccepted (revisePlan "stuck" t) in
      let t := run_updates [mkUpdate ["src/store.ts"; "src/store.test.ts"] true false [] true] t in
      let t := run_updates demo_updates t in
      map (fun s => (st_id s, st_status s)) (tk_steps t)
      = [("revise", ts_done); ("scope-1", ts_done); ("scope-2", ts_done);
         ("verify-typecheck", ts_done); ("verify-test", ts_cancelled)] /\
      taskTrackerComplete (Some t) = true /\
      missingTaskRequirements (fun _ => true) "/w" (Some t) = [rq_step "运行测试"; rq_kind v_test] /\
      run_updates [mkUpdate [] true true [demo_result] true] t = t
  end.
Proof. vm_compute. done. Qed.
