(* ===== verification/Obligations.v ===== *)
(** What a run still owes: ripple obligations and context debts.

    Models [src/src/ripple/obligations.ts] (callers of a changed symbol that have
    not followed the change, and their waivers) and
    [src/src/context/context-debt.ts] (context to be acquired before a task may
    be called done), with the settlement at the end of a round in
    [src/src/agent/kernel/round.ts].  The texts shown to the model are left
    out, as are the reasons and actions of a debt, which its kind determines. *)
From stdpp Require Import pretty.
From S2P Require Import Prelude Paths Evidence.
Open Scope Z_scope.
Open Scope list_scope.

(** ** Ripple obligations *)

(** src/src/ripple/types.ts # RippleCaller *)
Record RippleCaller := mkCaller { rc_file : string; rc_line : Z; rc_symbol : string; rc_text : string }.

(** src/src/ripple/obligations.ts # RippleWaiver *)
Record RippleWaiver := mkWaiver { rw_reason : string; rw_timestamp : Z }.

(** src/src/ripple/obligations.ts # RippleObligation *)
Record RippleObligation := mkObligation {
  ro_targetFile : string; ro_symbol : string; ro_caller : RippleCaller; ro_reason : string;
  ro_waiver : option RippleWaiver }.

(** What obligations read of a ripple report: the file, whether a symbol of it
    changed, and the callers. *)
Record ReportView := mkReport { rp_targetFile : string; rp_changed : bool; rp_callers : list RippleCaller }.

(** [file.replace(/\\/g, "/")] *)
Fixpoint slashes (s : string) : string :=
  match s with
  | EmptyString => EmptyString
  | String c s => String (if c === Ascii.ascii_of_nat 92 then Ascii.ascii_of_nat 47 else c) (slashes s)
  end.

(** src/src/ripple/obligations.ts # normalizeProjectPath *)
Definition normalizeProjectPath (cwd path : string) : string :=
  let normalized := slashes (path_relative cwd cwd (path_resolve cwd [path])) in
  if normalized === "" then slashes path else normalized.

(** src/src/ripple/obligations.ts # obligationsFromReport *)
Definition obligationsFromReport (cwd : string) (report : ReportView) (modifiedFiles : gset string)
  : list RippleObligation :=
  if negb (rp_changed report) then []
  else
    caller ← rp_callers report;
    let callerFile := normalizeProjectPath cwd (rc_file caller) in
    if decide (callerFile ∈ modifiedFiles) then []
    else [mkObligation (rp_targetFile report) (rc_symbol caller)
            (mkCaller callerFile (rc_line caller) (rc_symbol caller) (rc_text caller))
            (rc_file caller +:+ ":" +:+ pretty (rc_line caller) +:+ " still references changed symbol '"
             +:+ rc_symbol caller +:+ "'.") None].

(** src/src/ripple/obligations.ts # resolveObligations *)
Definition resolveObligations (cwd : string) (existing : list RippleObligation) (modifiedFiles : gset string)
  : list RippleObligation :=
  filter (fun o => normalizeProjectPath cwd (rc_file (ro_caller o)) ∉ modifiedFiles) existing.

Definition obligation_key (o : RippleObligation) : string :=
  ro_targetFile o +:+ ":" +:+ ro_symbol o +:+ ":" +:+ rc_file (ro_caller o) +:+ ":" +:+ pretty (rc_line (ro_caller o)).

(** src/src/ripple/obligations.ts # mergeObligations

    A later obligation takes the place of an earlier one of its key. *)
Definition mergeObligations (existing next : list RippleObligation) : list RippleObligation :=
  map snd (fold_left (fun byKey o => jset (obligation_key o) o byKey) (existing ++ next) []).

(** src/src/ripple/obligations.ts # waiveObligation *)
Definition waiveObligation (now : Z) (o : RippleObligation) (reason : string) : RippleObligation :=
  if trim reason === "" then o
  else mkObligation (ro_targetFile o) (ro_symbol o) (ro_caller o) (ro_reason o) (Some (mkWaiver (trim reason) now)).

(** src/src/ripple/obligations.ts # isObligationBlocking *)
Definition isObligationBlocking (o : RippleObligation) : bool := match ro_waiver o with Some _ => false | None => true end.
(** src/src/ripple/obligations.ts # getBlockingObligations *)
Definition getBlockingObligations (obligations : list RippleObligation) : list RippleObligation :=
  filter (fun o => isObligationBlocking o = true) obligations.

(** ** Context debts *)

(** src/src/context/context-debt.ts # ContextDebtKind *)
Inductive ContextDebtKind := cd_locate | cd_source | cd_constitution | cd_verification | cd_confidence.
#[export] Instance ContextDebtKind_eq_dec : EqDecision ContextDebtKind.
Proof. solve_decision. Defined.
(** src/src/context/context-debt.ts # ContextDebtStatus *)
Inductive ContextDebtStatus := ds_open | ds_resolved | ds_unavailable.
#[export] Instance ContextDebtStatus_eq_dec : EqDecision ContextDebtStatus.
Proof. solve_decision. Defined.

(** src/src/context/context-debt.ts # ContextDebt *)
Record ContextDebt := mkDebt { db_kind : ContextDebtKind; db_status : ContextDebtStatus; db_evidence : list string }.

(** src/src/context/context-debt.ts # ContextAcquisitionEvidence

    Its kind is never read. *)
Record Acquisition := mkAcquisition { aq_tool : string; aq_target : option string }.

(** src/src/context/context-debt.ts # ContextDebtInput

    The confidence in hundredths. *)
Record ContextDebtInput := mkDebtInput {
  di_hasLocateResult : bool; di_hasSourceUnderstanding : bool; di_hasProjectConstitution : bool;
  di_hasVerificationPlan : bool; di_confidence : Z; di_highRisk : bool;
  di_constitutionProbeFoundNone : bool; di_hasRuntimeVerificationPlan : bool }.

(** src/src/context/context-debt.ts # CONTEXT_DEBT_ACQUISITION_TOOLS *)
Definition CONTEXT_DEBT_ACQUISITION_TOOLS (k : ContextDebtKind) : list string :=
  match k with
  | cd_locate => ["find_symbol"; "find_references"; "project_structure"]
  | cd_source => ["read_file"; "read_definition"]
  | cd_constitution | cd_verification | cd_confidence => []
  end.

Definition open_debt (k : ContextDebtKind) : ContextDebt := mkDebt k ds_open [].

(** src/src/context/context-debt.ts # createContextDebts *)
Definition createContextDebts (i : ContextDebtInput) : list ContextDebt :=
  (if di_hasLocateResult i then [] else [open_debt cd_locate])
  ++ (if di_hasSourceUnderstanding i then [] else [open_debt cd_source])
  ++ (if di_hasProjectConstitution i then []
      else if di_constitutionProbeFoundNone i
           then [mkDebt cd_constitution ds_unavailable ["bounded constitution probe found none"]]
           else [open_debt cd_constitution])
  ++ (if di_hasVerificationPlan i then []
      else if di_hasRuntimeVerificationPlan i
           then [mkDebt cd_verification ds_resolved ["runtime-owned verification plan (TaskTracker.requiredVerificationKinds)"]]
           else [open_debt cd_verification])
  ++ (if di_highRisk i && (di_confidence i <? 75) then [open_debt cd_confidence] else []).

(** src/src/context/context-debt.ts # debtKindForTool *)
Definition debtKindForTool (tool : string) : option ContextDebtKind :=
  find (fun k => includes (CONTEXT_DEBT_ACQUISITION_TOOLS k) tool)
    [cd_locate; cd_source; cd_constitution; cd_verification; cd_confidence].

Definition acquired (a : Acquisition) : string := default (aq_tool a) (aq_target a).
Definition add_evidence (xs : list string) (x : string) : list string := if includes xs x then xs else xs ++ [x].

(** The open debt of a kind. *)
Definition owes (k : ContextDebtKind) (d : ContextDebt) : bool := (db_kind d === k) && (db_status d === ds_open).
Fixpoint change_first {A} (p : A -> bool) (f : A -> A) (l : list A) : list A :=
  match l with [] => [] | x :: l => if p x then f x :: l else x :: change_first p f l end.

Definition settle_item (debts : list ContextDebt) (a : Acquisition) : list ContextDebt :=
  match debtKindForTool (aq_tool a) with
  | None => debts
  | Some k => change_first (owes k) (fun d => mkDebt (db_kind d) ds_resolved (add_evidence (db_evidence d) (acquired a))) debts
  end.

(** [CONFIDENCE_EVIDENCE_THRESHOLD] *)
Definition settle_confidence (distinct : list string) (d : ContextDebt) : ContextDebt :=
  let evidence := fold_left add_evidence distinct (db_evidence d) in
  mkDebt (db_kind d) (if (2 <=? length evidence)%nat then ds_resolved else db_status d) evidence.

(** src/src/context/context-debt.ts # resolveContextDebts

    The debts it leaves; the flag it returns is never read. *)
Definition resolveContextDebts (debts : list ContextDebt) (evidence : list Acquisition) : list ContextDebt :=
  let distinct := uniq (map acquired (filter (fun a => debtKindForTool (aq_tool a) <> None) evidence)) in
  change_first (owes cd_confidence) (settle_confidence distinct) (fold_left settle_item evidence debts).

(** src/src/agent/kernel/round.ts # runRound @864-887

    The settlement at the end of a round, from the successful calls and the
    verifications of the round. *)
Definition settle_round (debts : list ContextDebt) (calls : list Acquisition) (results : list VerificationResult)
  : list ContextDebt :=
  match debts with
  | [] => []
  | _ =>
      let debts := match calls with [] => debts | _ => resolveContextDebts debts calls end in
      if existsb vr_passed results
      then change_first (owes cd_verification)
             (fun d => mkDebt (db_kind d) ds_resolved (db_evidence d ++ ["trusted verification"])) debts
      else debts
  end.

(** src/src/context/context-debt.ts # openContextDebts *)
Definition openContextDebts (debts : list ContextDebt) : list ContextDebt := filter (fun d => db_status d = ds_open) debts.
(** src/src/context/context-debt.ts # openContextDebtCount *)
Definition openContextDebtCount (debts : list ContextDebt) : nat := length (openContextDebts debts).

(** A series of rounds. *)
Definition settle_rounds (rounds : list (list Acquisition * list VerificationResult)) (debts : list ContextDebt)
  : list ContextDebt := fold_left (fun debts '(calls, results) => settle_round debts calls results) rounds debts.

(** ** Obligations *)

(** Only a reasoned waiver, or an edit of the caller, lifts an obligation. *)
Lemma waiver_lifts now o reason :
  isObligationBlocking o = true -> isObligationBlocking (waiveObligation now o reason) = false <-> trim reason <> "".
Proof.
  intros H. unfold waiveObligation. destruct (trim reason === "") eqn:E; reflect.
  - rewrite H. split; [done|by intros []].
  - by split.
Qed.

Lemma resolve_keeps cwd existing modified o :
  o ∈ resolveObligations cwd existing modified <->
  o ∈ existing /\ normalizeProjectPath cwd (rc_file (ro_caller o)) ∉ modified.
Proof. unfold resolveObligations. rewrite list_elem_of_filter. tauto. Qed.

(** ** Debts, kind by kind *)

Definition debt_of (k : ContextDebtKind) (debts : list ContextDebt) : option ContextDebt :=
  find (fun d => db_kind d === k) debts.
Definition kinds_of (debts : list ContextDebt) : list ContextDebtKind := db_kind <$> debts.
Definition is_open (d : ContextDebt) : bool := db_status d === ds_open.

Definition on_open (f : ContextDebt -> ContextDebt) (d : ContextDebt) : ContextDebt := if is_open d then f d else d.

Lemma debt_of_absent k debts : k ∉ kinds_of debts -> debt_of k debts = None.
Proof.
  unfold debt_of. induction debts as [|d debts IH]; cbn; [done|]. intros [H1 H2]%not_elem_of_cons.
  rewrite (proj2 (same_neq _ _)) by done. by apply IH.
Qed.

Lemma change_first_kinds p f debts :
  (forall d, db_kind (f d) = db_kind d) -> kinds_of (change_first p f debts) = kinds_of debts.
Proof.
  intros Hf. unfold kinds_of. induction debts as [|d debts IH]; cbn; [done|].
  destruct (p d); cbn; [by rewrite Hf|by rewrite IH].
Qed.

(** A change reaches the debt of its kind, when it is open, and no other. *)
Lemma debt_of_change k k' f debts :
  NoDup (kinds_of debts) -> (forall d, db_kind (f d) = db_kind d) ->
  debt_of k' (change_first (owes k) f debts)
  = if k' === k then on_open f <$> debt_of k' debts else debt_of k' debts.
Proof.
  intros Hnd Hf. unfold debt_of. induction debts as [|d debts IH]; [by destruct (k' === k)|].
  apply NoDup_cons in Hnd as [Hd Hnd]. cbn [change_first find]. unfold owes at 1.
  destruct (db_kind d === k) eqn:Ek; reflect; cbn [andb].
  - destruct (db_status d === ds_open) eqn:Es; cbn [find].
    + rewrite Hf. subst k. destruct (k' === db_kind d) eqn:E; reflect.
      * subst k'. rewrite same_refl. cbn. unfold on_open, is_open. by rewrite Es.
      * by rewrite (proj2 (same_neq _ _)) by congruence.
    + cbn [find]. rewrite IH by done. subst k. destruct (db_kind d === k') eqn:E; reflect.
      * subst k'. rewrite same_refl. cbn. unfold on_open, is_open. by rewrite (proj2 (same_neq _ _) Es).
      * done.
  - cbn [find]. rewrite IH by done. destruct (db_kind d === k') eqn:E; reflect; [|done]. subst k'.
    by rewrite (proj2 (same_neq _ _)).
Qed.

(** What a round means for the debt of a kind. *)
Definition pays (k : ContextDebtKind) (a : Acquisition) : bool := includes (CONTEXT_DEBT_ACQUISITION_TOOLS k) (aq_tool a).
Definition distinct_acquired (calls : list Acquisition) : list string :=
  uniq (map acquired (filter (fun a => debtKindForTool (aq_tool a) <> None) calls)).

Lemma debtKind_pays a k : debtKindForTool (aq_tool a) = Some k <-> pays k a = true.
Proof.
  unfold debtKindForTool, pays. split.
  - intros H. by apply find_some in H as [_ H].
  - intros H. apply includes_true in H.
    destruct k; cbn in H; repeat (apply elem_of_cons in H as [H|H]; [rewrite H; reflexivity|]);
      by apply not_elem_of_nil in H.
Qed.

Lemma settle_item_kinds debts a : kinds_of (settle_item debts a) = kinds_of debts.
Proof. unfold settle_item. destruct (debtKindForTool _); [|done]. by apply change_first_kinds. Qed.

Lemma settle_items_kinds calls : forall debts, kinds_of (fold_left settle_item calls debts) = kinds_of debts.
Proof. induction calls as [|a calls IH]; intros debts; cbn; [done|]. by rewrite IH, settle_item_kinds. Qed.

(** Status and evidence of a debt after the calls of a round. *)
Lemma settle_item_debt debts a k : NoDup (kinds_of debts) ->
  is_open <$> debt_of k (settle_item debts a) = (fun d => is_open d && negb (pays k a)) <$> debt_of k debts /\
  (pays k a = false -> debt_of k (settle_item debts a) = debt_of k debts).
Proof.
  intros Hnd. unfold settle_item. destruct (debtKindForTool (aq_tool a)) as [k'|] eqn:E.
  - rewrite debt_of_change by done. destruct (k === k') eqn:Ek; reflect.
    + subst k'. apply debtKind_pays in E. rewrite E. split; [|done].
      destruct (debt_of k debts) as [d|]; [|done]. cbn. unfold on_open. rewrite andb_false_r.
      destruct (is_open d) eqn:Eo; [done|by rewrite Eo].
    + assert (pays k a = false) as Hp.
      { apply not_true_is_false. intros H. apply debtKind_pays in H. congruence. }
      rewrite Hp. split; [|done]. destruct (debt_of k debts); [|done]. cbn. by rewrite andb_true_r.
  - assert (pays k a = false) as Hp.
    { apply not_true_is_false. intros H. apply debtKind_pays in H. congruence. }
    rewrite Hp. split; [|done]. destruct (debt_of k debts); [|done]. cbn. by rewrite andb_true_r.
Qed.

Lemma settle_items_debt k calls : forall debts, NoDup (kinds_of debts) ->
  is_open <$> debt_of k (fold_left settle_item calls debts)
  = (fun d => is_open d && negb (existsb (pays k) calls)) <$> debt_of k debts /\
  (existsb (pays k) calls = false -> debt_of k (fold_left settle_item calls debts) = debt_of k debts).
Proof.
  induction calls as [|a calls IH]; intros debts Hnd; cbn [fold_left existsb].
  { split; [|done]. destruct (debt_of k debts); [|done]. cbn. by rewrite andb_true_r. }
  destruct (settle_item_debt debts a k Hnd) as [H1 H2].
  destruct (IH (settle_item debts a)) as [H3 H4]; [by rewrite settle_item_kinds|]. split.
  - rewrite H3. destruct (debt_of k (settle_item debts a)) as [d'|] eqn:E', (debt_of k debts) as [d|]; cbn in *; try done.
    injection H1 as ->. destruct (pays k a); cbn; [by rewrite !andb_false_r|by rewrite andb_true_r].
  - intros [Ha Hc]%orb_false_iff. by rewrite H4, H2.
Qed.

Lemma add_evidence_elem xs x y : y ∈ add_evidence xs x <-> y ∈ xs \/ y = x.
Proof.
  unfold add_evidence. destruct (includes xs x) eqn:E.
  - apply includes_true in E. naive_solver.
  - rewrite elem_of_app, list_elem_of_singleton. done.
Qed.

Lemma add_evidence_NoDup xs x : NoDup xs -> NoDup (add_evidence xs x).
Proof.
  unfold add_evidence. destruct (includes xs x) eqn:E; [done|]. apply includes_false in E.
  intros H. apply NoDup_app. split_and!; [done|set_solver|apply NoDup_singleton].
Qed.

Lemma collect_evidence ys : forall xs, NoDup xs ->
  NoDup (fold_left add_evidence ys xs) /\ forall y, y ∈ fold_left add_evidence ys xs <-> y ∈ xs \/ y ∈ ys.
Proof.
  induction ys as [|y ys IH]; intros xs Hnd; cbn [fold_left]; [set_solver|].
  destruct (IH (add_evidence xs y)) as [H1 H2]; [by apply add_evidence_NoDup|]. split; [done|].
  intros z. rewrite H2, add_evidence_elem, elem_of_cons. tauto.
Qed.

Definition paid (k : ContextDebtKind) (calls : list Acquisition) (results : list VerificationResult) : bool :=
  existsb (pays k) calls || ((k === cd_verification) && existsb vr_passed results).

Lemma settle_round_kinds debts calls results : kinds_of (settle_round debts calls results) = kinds_of debts.
Proof.
  unfold settle_round. destruct debts as [|d debts]; [done|]. set (ds := d :: debts).
  assert (kinds_of (match calls with [] => ds | _ => resolveContextDebts ds calls end) = kinds_of ds) as E.
  { destruct calls as [|a calls]; [done|]. unfold resolveContextDebts.
    rewrite change_first_kinds by done. apply settle_items_kinds. }
  destruct (existsb _ _); [|done]. by rewrite change_first_kinds.
Qed.

(** The calls of a round, for a debt other than confidence. *)
Lemma resolve_debt k debts calls : NoDup (kinds_of debts) -> k <> cd_confidence ->
  is_open <$> debt_of k (resolveContextDebts debts calls)
  = (fun d => is_open d && negb (existsb (pays k) calls)) <$> debt_of k debts.
Proof.
  intros Hnd Hk. unfold resolveContextDebts. rewrite debt_of_change; [|by rewrite settle_items_kinds|done].
  rewrite (proj2 (same_neq _ _) Hk). by apply settle_items_debt.
Qed.

Lemma settle_round_debt k debts calls results : NoDup (kinds_of debts) -> k <> cd_confidence ->
  is_open <$> debt_of k (settle_round debts calls results)
  = (fun d => is_open d && negb (paid k calls results)) <$> debt_of k debts.
Proof.
  intros Hnd Hk. unfold settle_round, paid. destruct debts as [|d0 debts]; [done|]. set (ds := d0 :: debts) in *.
  set (ds' := match calls with [] => ds | _ => resolveContextDebts ds calls end).
  assert (is_open <$> debt_of k ds' = (fun d => is_open d && negb (existsb (pays k) calls)) <$> debt_of k ds) as H1.
  { subst ds'. destruct calls as [|a calls]; [|by apply resolve_debt].
    cbn [existsb negb]. destruct (debt_of k ds); [|done]. cbn. by rewrite andb_true_r. }
  assert (NoDup (kinds_of ds')) as Hnd'.
  { subst ds'. destruct calls; [done|]. unfold resolveContextDebts. rewrite change_first_kinds by done.
    by rewrite settle_items_kinds. }
  destruct (existsb vr_passed results) eqn:Ep; [rewrite debt_of_change by done; destruct (k === cd_verification) eqn:Ek|].
  - rewrite <- option_fmap_compose. destruct (debt_of k ds') as [d'|], (debt_of k ds) as [d|]; cbn in *; try done.
    unfold on_open. rewrite orb_true_r. cbn [negb]. rewrite andb_false_r.
    by destruct (is_open d') eqn:E; [|rewrite E].
  - rewrite H1. cbn [andb]. by rewrite orb_false_r.
  - rewrite H1, andb_false_r. by rewrite orb_false_r.
Qed.

Lemma settle_rounds_debt k rounds : forall debts, NoDup (kinds_of debts) -> k <> cd_confidence ->
  is_open <$> debt_of k (settle_rounds rounds debts)
  = (fun d => is_open d && negb (existsb (fun r => paid k r.1 r.2) rounds)) <$> debt_of k debts.
Proof.
  induction rounds as [|[calls results] rounds IH]; intros debts Hnd Hk; cbn [settle_rounds fold_left existsb].
  { destruct (debt_of k debts); [|done]. cbn. by rewrite andb_true_r. }
  fold (settle_rounds rounds (settle_round debts calls results)).
  rewrite IH; [|by rewrite settle_round_kinds|done].
  pose proof (settle_round_debt k debts calls results Hnd Hk) as H.
  destruct (debt_of k (settle_round debts calls results)) as [d'|], (debt_of k debts) as [d|]; cbn in *; try done.
  injection H as ->. by destruct (paid k calls results); cbn; rewrite ?andb_false_r, ?andb_true_r.
Qed.

(** *** Confidence *)

Definition acquisitions (calls : list Acquisition) : list string :=
  map acquired (filter (fun a => debtKindForTool (aq_tool a) <> None) calls).
Definition all_equal {A} (xs : list A) : Prop := forall x y, x ∈ xs -> y ∈ xs -> x = y.

(** The confidence debt after acquiring [seen]. *)
Definition confident (seen : list string) (debts : list ContextDebt) : Prop :=
  exists d, debt_of cd_confidence debts = Some d /\ NoDup (db_evidence d) /\
    (is_open d = true -> all_equal seen /\ forall x, x ∈ db_evidence d <-> x ∈ seen) /\
    (is_open d = false -> ~ all_equal seen).

Lemma short_equal {A} (xs : list A) : NoDup xs -> (length xs < 2)%nat <-> all_equal xs.
Proof.
  intros Hnd. split.
  - destruct xs as [|x [|y xs]]; cbn; [| |lia]; intros _ a b Ha Hb.
    + by apply not_elem_of_nil in Ha.
    + apply list_elem_of_singleton in Ha as ->. by apply list_elem_of_singleton in Hb as ->.
  - destruct xs as [|x [|y xs]]; cbn; [lia|lia|]. intros H. exfalso.
    apply NoDup_cons in Hnd as [Hx _]. apply Hx. rewrite (H x y); set_solver.
Qed.

Lemma all_equal_iff {A} (xs ys : list A) : (forall x, x ∈ xs <-> x ∈ ys) -> all_equal xs <-> all_equal ys.
Proof. intros H. unfold all_equal. setoid_rewrite H. done. Qed.

Lemma pays_confidence a : pays cd_confidence a = false.
Proof. done. Qed.

Lemma resolve_confident seen debts calls : NoDup (kinds_of debts) -> confident seen debts ->
  confident (seen ++ acquisitions calls) (resolveContextDebts debts calls).
Proof.
  intros Hnd (d & Hd & Hev & Ho & Hc). unfold confident, resolveContextDebts.
  rewrite debt_of_change; [|by rewrite settle_items_kinds|done]. rewrite same_refl.
  assert (existsb (pays cd_confidence) calls = false) as Hno by (clear; induction calls; done).
  rewrite (proj2 (settle_items_debt cd_confidence calls debts Hnd) Hno), Hd. cbn [fmap option_fmap option_map].
  set (ys := uniq _). eexists. split; [done|]. unfold on_open. destruct (is_open d) eqn:Eo.
  2: { split_and!; [done|congruence|]. intros _ H. apply (Hc eq_refl). intros x y Hx Hy.
       apply H; apply elem_of_app; by left. }
  destruct (Ho eq_refl) as [Heq Hin]. unfold settle_confidence. cbn [db_evidence].
  destruct (collect_evidence ys _ Hev) as [Hnd' Hel].
  assert (forall x, x ∈ fold_left add_evidence ys (db_evidence d) <-> x ∈ seen ++ acquisitions calls) as Hel'.
  { intros x. rewrite Hel, elem_of_app, Hin. subst ys. unfold acquisitions. by rewrite elem_of_uniq. }
  pose proof (short_equal _ Hnd') as Hs. rewrite (all_equal_iff _ _ Hel') in Hs.
  split_and!; [done| |]; unfold is_open; cbn [db_status].
  - destruct (2 <=? _)%nat eqn:E2; [done|]. intros _. apply Nat.leb_gt in E2. split; [by apply Hs|done].
  - destruct (2 <=? _)%nat eqn:E2.
    + intros _ H. apply Hs in H. apply Nat.leb_le in E2. lia.
    + intros H. unfold is_open in Eo. congruence.
Qed.

Lemma settle_round_confident seen debts calls results : NoDup (kinds_of debts) -> confident seen debts ->
  confident (seen ++ acquisitions calls) (settle_round debts calls results).
Proof.
  intros Hnd Hc. unfold settle_round. destruct debts as [|d0 debts]; [by destruct Hc as (d & ? & _)|].
  set (ds := d0 :: debts) in *.
  set (ds' := match calls with [] => ds | _ => resolveContextDebts ds calls end).
  assert (NoDup (kinds_of ds')) as Hnd'.
  { subst ds'. destruct calls; [done|]. unfold resolveContextDebts. rewrite change_first_kinds by done.
    by rewrite settle_items_kinds. }
  assert (confident (seen ++ acquisitions calls) ds') as Hc'.
  { subst ds'. destruct calls as [|a calls]; [|by apply resolve_confident]. by rewrite app_nil_r. }
  destruct (existsb _ _); [|done]. unfold confident. by rewrite debt_of_change.
Qed.

Definition all_calls (rounds : list (list Acquisition * list VerificationResult)) : list Acquisition := rounds ≫= fst.
Definition all_results (rounds : list (list Acquisition * list VerificationResult)) : list VerificationResult := rounds ≫= snd.

Lemma acquisitions_app calls calls' : acquisitions (calls ++ calls') = acquisitions calls ++ acquisitions calls'.
Proof. unfold acquisitions. by rewrite filter_app, map_app. Qed.

Lemma settle_rounds_confident rounds : forall seen debts, NoDup (kinds_of debts) -> confident seen debts ->
  confident (seen ++ acquisitions (all_calls rounds)) (settle_rounds rounds debts).
Proof.
  induction rounds as [|[calls results] rounds IH]; intros seen debts Hnd Hc; cbn [settle_rounds fold_left].
  { cbn. by rewrite app_nil_r. }
  change (all_calls ((calls, results) :: rounds)) with (calls ++ all_calls rounds). rewrite acquisitions_app, app_assoc.
  apply IH; [by rewrite settle_round_kinds|by apply settle_round_confident].
Qed.

(** *** Paying *)

(** The tools that find a symbol or lay out the project, and those that read. *)
Definition lookup_tools : list string := ["find_symbol"; "find_references"; "project_structure"].
Definition reading_tools : list string := ["read_file"; "read_definition"].

(** What leaves a debt of the kind unpaid. *)
Definition unpaid (k : ContextDebtKind) (rounds : list (list Acquisition * list VerificationResult)) : Prop :=
  match k with
  | cd_locate => forall a, a ∈ all_calls rounds -> aq_tool a ∉ lookup_tools
  | cd_source => forall a, a ∈ all_calls rounds -> aq_tool a ∉ reading_tools
  | cd_constitution => True
  | cd_verification => forall v, v ∈ all_results rounds -> vr_passed v = false
  | cd_confidence => forall a b, a ∈ all_calls rounds -> b ∈ all_calls rounds ->
      aq_tool a ∈ lookup_tools ++ reading_tools -> aq_tool b ∈ lookup_tools ++ reading_tools -> acquired a = acquired b
  end.

Lemma debtKind_listed tool : debtKindForTool tool <> None <-> tool ∈ lookup_tools ++ reading_tools.
Proof.
  unfold debtKindForTool, lookup_tools, reading_tools. cbn [find]. unfold CONTEXT_DEBT_ACQUISITION_TOOLS.
  rewrite elem_of_app, <- !includes_true.
  destruct (includes ["find_symbol"; _; _] tool), (includes ["read_file"; _] tool); cbn; naive_solver.
Qed.

Lemma all_equal_listed calls :
  all_equal (acquisitions calls) <->
  forall a b, a ∈ calls -> b ∈ calls -> aq_tool a ∈ lookup_tools ++ reading_tools ->
    aq_tool b ∈ lookup_tools ++ reading_tools -> acquired a = acquired b.
Proof.
  unfold all_equal, acquisitions. setoid_rewrite <- debtKind_listed. split.
  - intros H a b Ha Hb Hta Htb. apply H; apply list_elem_of_fmap_2, list_elem_of_filter; done.
  - intros H x y (a & -> & [Hta Ha]%list_elem_of_filter)%list_elem_of_fmap
      (b & -> & [Htb Hb]%list_elem_of_filter)%list_elem_of_fmap. by apply H.
Qed.

Lemma debt_of_Some k debts d : debt_of k debts = Some d -> d ∈ debts /\ db_kind d = k.
Proof. intros H. apply find_some in H as [H1%list_elem_of_In H2]. split; [done|]. by apply same_eq. Qed.

Lemma debt_of_elem debts d : NoDup (kinds_of debts) -> d ∈ debts -> debt_of (db_kind d) debts = Some d.
Proof.
  unfold debt_of. induction debts as [|d' debts IH]; intros Hnd Hin; [by apply not_elem_of_nil in Hin|].
  apply NoDup_cons in Hnd as [Hd Hnd]. cbn [find]. apply elem_of_cons in Hin as [->|Hin]; [by rewrite same_refl|].
  destruct (db_kind d' === db_kind d) eqn:E; reflect; [|by apply IH].
  destruct Hd. unfold kinds_of in *. rewrite E. by apply list_elem_of_fmap_2.
Qed.

Lemma open_kinds k debts : NoDup (kinds_of debts) ->
  k ∈ kinds_of (openContextDebts debts) <-> is_open <$> debt_of k debts = Some true.
Proof.
  intros Hnd. unfold kinds_of at 1, openContextDebts. rewrite list_elem_of_fmap. split.
  - intros (d & -> & [Hs Hd]%list_elem_of_filter). rewrite debt_of_elem by done. cbn. f_equal. by apply same_eq.
  - intros H. destruct (debt_of k debts) as [d|] eqn:E; [|done]. injection H as H.
    apply debt_of_Some in E as [Hd <-]. exists d. split; [done|]. apply list_elem_of_filter. split; [by apply same_eq|done].
Qed.

Lemma existsb_rounds k rounds : k <> cd_confidence ->
  existsb (fun r => paid k r.1 r.2) rounds = false <-> unpaid k rounds.
Proof.
  intros Hk. induction rounds as [|[calls results] rounds IH]; cbn [existsb].
  - split; [|done]. intros _. destruct k; [..|done]; try done; cbn; intros ? H; by apply not_elem_of_nil in H.
  - rewrite orb_false_iff, IH. unfold paid. cbn [fst snd]. rewrite orb_false_iff.
    assert (forall {A} (p : A -> bool) (l : list A), existsb p l = false <-> forall x, x ∈ l -> p x = false) as Hex.
    { intros A p l. induction l as [|x l IHl]; cbn; [split; [|done]; intros _ ? H; by apply not_elem_of_nil in H|].
      rewrite orb_false_iff, IHl. setoid_rewrite elem_of_cons. naive_solver. }
    assert (all_calls ((calls, results) :: rounds) = calls ++ all_calls rounds) as Ec by done.
    assert (all_results ((calls, results) :: rounds) = results ++ all_results rounds) as Er by done.
    rewrite !Hex. unfold pays. setoid_rewrite includes_false.
    assert (forall k', k' <> cd_verification -> ((k' === cd_verification) && existsb vr_passed results) = false) as Hno.
    { intros k' Hk'. by rewrite (proj2 (same_neq _ _) Hk'). }
    destruct k; [| | | |done]; cbn [unpaid]; rewrite ?Ec, ?Er.
    + rewrite (Hno cd_locate) by done. setoid_rewrite elem_of_app. naive_solver.
    + rewrite (Hno cd_source) by done. setoid_rewrite elem_of_app. naive_solver.
    + rewrite (Hno cd_constitution) by done. split; [done|]. intros _. split; [|done]. split; [|done].
      intros a _. apply not_elem_of_nil.
    + change (cd_verification === cd_verification) with true. cbn [andb]. rewrite Hex. setoid_rewrite elem_of_app.
      split; [naive_solver|]. intros H. split_and!; [|naive_solver|naive_solver]. intros a _. apply not_elem_of_nil.
Qed.

Lemma debts_paid_iff i rounds k :
  k ∈ kinds_of (openContextDebts (settle_rounds rounds (createContextDebts i))) <->
  k ∈ kinds_of (openContextDebts (createContextDebts i)) /\ unpaid k rounds.
Proof.
  set (debts := createContextDebts i).
  assert (NoDup (kinds_of debts)) as Hnd.
  { subst debts. unfold createContextDebts, kinds_of. destruct i as [b1 b2 b3 b4 c b5 b6 b7]. cbn [di_hasLocateResult
      di_hasSourceUnderstanding di_hasProjectConstitution di_hasVerificationPlan di_confidence di_highRisk
      di_constitutionProbeFoundNone di_hasRuntimeVerificationPlan].
    apply (bool_decide_unpack _). destruct b1, b2, b3, b4, b6, b7, (b5 && (c <? 75)); vm_compute; exact I. }
  assert (kinds_of (settle_rounds rounds debts) = kinds_of debts) as Hkinds.
  { generalize debts as ds. induction rounds as [|[calls results] rounds IH]; intros ds; [done|].
    cbn [settle_rounds fold_left]. fold (settle_rounds rounds (settle_round ds calls results)).
    by rewrite IH, settle_round_kinds. }
  rewrite !open_kinds by by rewrite ?Hkinds. destruct (decide (k = cd_confidence)) as [->|Hk].
  - cbn [unpaid]. rewrite <- all_equal_listed. destruct (debt_of cd_confidence debts) as [d|] eqn:Ed.
    + assert (confident [] debts) as Hc.
      { exists d. split; [done|]. assert (d = open_debt cd_confidence) as ->; [|].
        { apply find_some in Ed as [Hin%list_elem_of_In Hkd]. subst debts. unfold createContextDebts in Hin.
          apply same_eq in Hkd. repeat (apply elem_of_app in Hin as [Hin|Hin]); repeat case_match;
            try (by apply not_elem_of_nil in Hin); apply list_elem_of_singleton in Hin as ->; done. }
        split_and!; [constructor| |done]. intros _. split; [|done]. intros x y Hx. by apply not_elem_of_nil in Hx. }
      destruct (settle_rounds_confident rounds [] debts Hnd Hc) as (d' & Ed' & _ & Ho & Hcl). rewrite Ed'. cbn.
      assert (is_open d = true) as ->.
      { destruct Hc as (d1 & E1 & _ & _ & Hcl1). simplify_eq. apply not_false_is_true. intros E.
        apply (Hcl1 E). intros x y Hx. by apply not_elem_of_nil in Hx. }
      destruct (is_open d') eqn:E; [specialize (Ho eq_refl); naive_solver|specialize (Hcl eq_refl); naive_solver].
    + rewrite debt_of_absent; [naive_solver|]. rewrite Hkinds. intros (d & Ek & Hin)%list_elem_of_fmap.
      rewrite Ek, debt_of_elem in Ed by done. done.
  - rewrite settle_rounds_debt by done. rewrite <- existsb_rounds by done.
    destruct (debt_of k debts) as [d|]; cbn; [|naive_solver].
    destruct (is_open d), (existsb _ rounds); cbn; naive_solver.
Qed.


(** The debt of the project's constitution, once open, stays open whatever is
    read. *)
Lemma constitution_never_paid i rounds :
  cd_constitution ∈ kinds_of (openContextDebts (settle_rounds rounds (createContextDebts i))) <->
  cd_constitution ∈ kinds_of (openContextDebts (createContextDebts i)).
Proof. rewrite debts_paid_iff. unfold unpaid. tauto. Qed.

