(* ===== verification/ContextPipeline.v ===== *)
(** The context of a round.

    Models, of [src/src/harness/context], the pipeline that turns the
    contributions of the providers into the context of a model call
    ([pipeline.ts]): removing duplicates ([dedupe.ts]), the gate that protects the
    carriers of critical facts, freshness, order, the allocation of the budget
    ([budget-allocator.ts]) and the assembly of messages ([assemble.ts]).  An
    object's identity is the field [co_ref], its place among the contributions
    collected.  What providers contribute, the comparison of names and the
    compressor are parameters; lengths are those of 8-bit code units.  The check
    of tool chains, which only warns, the trace and the texts of records are left
    out. *)
From S2P Require Import Prelude Obligations.
Open Scope Z_scope.
Open Scope list_scope.

(** src/src/harness/contracts/context.ts # ContextLayer *)
Inductive ContextLayer := ly_stable | ly_plan | ly_node | ly_volatile.
#[export] Instance context_layer_eq_dec : EqDecision ContextLayer.
Proof. solve_decision. Defined.
(** src/src/harness/contracts/context.ts # LAYER_ORDER *)
Definition LAYER_ORDER : list ContextLayer := [ly_stable; ly_plan; ly_node; ly_volatile].
(** [LAYER_ORDER.indexOf(layer)] *)
Definition layer_index (l : ContextLayer) : Z :=
  match l with ly_stable => 0 | ly_plan => 1 | ly_node => 2 | ly_volatile => 3 end.

(** src/src/harness/contracts/context.ts # ContextContribution *)
Record ContextContribution := mkContribution {
  co_ref : nat; co_providerId : string; co_layer : ContextLayer; co_priority : Z; co_content : string;
  co_estimatedTokens : Z; co_sourceRefs : list string; co_cacheKey : option string; co_required : bool;
  co_freshness : option Z; co_group : option string }.
#[export] Instance contribution_eq_dec : EqDecision ContextContribution.
Proof. solve_decision. Defined.

Definition with_ref (i : nat) (c : ContextContribution) : ContextContribution :=
  mkContribution i (co_providerId c) (co_layer c) (co_priority c) (co_content c) (co_estimatedTokens c)
    (co_sourceRefs c) (co_cacheKey c) (co_required c) (co_freshness c) (co_group c).
Definition with_content (content : string) (tokens : Z) (c : ContextContribution) : ContextContribution :=
  mkContribution (co_ref c) (co_providerId c) (co_layer c) (co_priority c) content tokens
    (co_sourceRefs c) (co_cacheKey c) (co_required c) (co_freshness c) (co_group c).

(** src/src/harness/contracts/context.ts # ContextBudgetPolicy *)
Record ContextBudgetPolicy := mkPolicy {
  bp_enabled : bool; bp_maxTokensByLayer : ContextLayer -> option Z; bp_maxTotalTokens : option Z }.

(** src/src/harness/contracts/context.ts # ContextTrimInfo *)
Inductive TrimReason := tr_duplicate | tr_stale | tr_budget.
(** src/src/harness/context/budget-allocator.ts # TrimRecord *)
Record TrimRecord := mkTrim { tr_providerId : string; tr_reason : TrimReason; tr_semantic : bool; tr_revalidated : bool }.

(** ** Duplicates *)

(** src/src/harness/context/dedupe.ts # survivor

    Whether the first survives. *)
Definition survivor_first (a b : ContextContribution) : bool :=
  let byLayer := layer_index (co_layer a) - layer_index (co_layer b) in
  if negb (byLayer =? 0) then byLayer <? 0
  else
    let byPriority := if negb (co_priority a =? co_priority b) then co_priority a <? co_priority b else true in
    match co_freshness a, co_freshness b with
    | Some fa, Some fb => if negb (fa =? fb) then fb <? fa else byPriority
    | _, _ => byPriority
    end.

Abbreviation Table := (gmap string ContextContribution).

(** src/src/harness/context/dedupe.ts # claimRefs *)
Definition claimRefs (claimed : Table) (c : ContextContribution) : Table :=
  fold_left (fun m ref => match m !! ref with None => <[ref := c]> m | Some _ => m end) (co_sourceRefs c) claimed.
Definition is_ref (c : ContextContribution) (o : option ContextContribution) : bool :=
  match o with Some d => (co_ref d =? co_ref c)%nat | None => false end.
(** src/src/harness/context/dedupe.ts # releaseRefs *)
Definition releaseRefs (claimed : Table) (c : ContextContribution) : Table :=
  fold_left (fun m ref => if is_ref c (m !! ref) then delete ref m else m) (co_sourceRefs c) claimed.

(** [kept[kept.indexOf(existing)] = c]: an object that is not there has index
    -1, where an assignment adds no element. *)
Fixpoint replace_object (existing c : ContextContribution) (kept : list ContextContribution) : list ContextContribution :=
  match kept with
  | [] => []
  | k :: kept => if (co_ref k =? co_ref existing)%nat then c :: kept else k :: replace_object existing c kept
  end.

Record Dedupe := mkDedupe {
  dd_kept : list ContextContribution; dd_dropped : list string; dd_byCacheKey : Table; dd_claimedRefs : Table }.

Definition key_of (c : ContextContribution) : option string :=
  match co_cacheKey c with Some (String _ _ as k) => Some k | _ => None end.

(** The owner of the first reference that is claimed; an empty one counts as none. *)
Definition overlapping (claimed : Table) (c : ContextContribution) : option ContextContribution :=
  match find (fun ref => match claimed !! ref with Some _ => true | None => false end) (co_sourceRefs c) with
  | Some (String _ _ as overlap) => claimed !! overlap
  | _ => None
  end.

(** The second channel: overlapping references. *)
Definition dedupe_refs (s : Dedupe) (c : ContextContribution) : Dedupe :=
  match overlapping (dd_claimedRefs s) c with
  | Some existing =>
      if survivor_first existing c
      then mkDedupe (dd_kept s) (dd_dropped s ++ [co_providerId c]) (dd_byCacheKey s) (dd_claimedRefs s)
      else mkDedupe (replace_object existing c (dd_kept s)) (dd_dropped s ++ [co_providerId existing])
             (delete (default "" (co_cacheKey existing)) (dd_byCacheKey s))
             (claimRefs (releaseRefs (dd_claimedRefs s) existing) c)
  | None => mkDedupe (dd_kept s ++ [c]) (dd_dropped s) (dd_byCacheKey s) (claimRefs (dd_claimedRefs s) c)
  end.

(** src/src/harness/context/dedupe.ts # dedupeContributions @45-85

    One contribution. *)
Definition dedupe_one (s : Dedupe) (c : ContextContribution) : Dedupe :=
  match key_of c with
  | None => dedupe_refs s c
  | Some key =>
      match dd_byCacheKey s !! key with
      | Some existing =>
          if survivor_first existing c
          then mkDedupe (dd_kept s) (dd_dropped s ++ [co_providerId c]) (dd_byCacheKey s) (dd_claimedRefs s)
          else mkDedupe (replace_object existing c (dd_kept s)) (dd_dropped s ++ [co_providerId existing])
                 (<[key := c]> (dd_byCacheKey s)) (claimRefs (releaseRefs (dd_claimedRefs s) existing) c)
      | None =>
          dedupe_refs (mkDedupe (dd_kept s) (dd_dropped s) (<[key := c]> (dd_byCacheKey s)) (dd_claimedRefs s)) c
      end
  end.

(** src/src/harness/context/dedupe.ts # dedupeContributions *)
Definition dedupeContributions (contributions : list ContextContribution) : list ContextContribution * list string :=
  let s := fold_left dedupe_one contributions (mkDedupe [] [] ∅ ∅) in (dd_kept s, dd_dropped s).

(** ** The coverage gate *)

(** src/src/harness/context/pipeline.ts # CoverageFact *)
Inductive CoverageFact :=
| cf_goal | cf_required_file (file : string) | cf_obligation (targetFile symbol : string) | cf_research.

(** [coveringProviderId] *)
Definition carrier (f : CoverageFact) : string :=
  match f with cf_research => "research" | _ => "plan-state" end.

(** What the gate reads of a request. *)
Record RequestView := mkRequest {
  rv_userGoal : option string; rv_requiredFiles : list string; rv_rippleObligations : list RippleObligation;
  rv_researchContent : option string }.

Definition nonblank (o : option string) : bool := match o with Some s => negb (trim s === "") | None => false end.

Definition facts_of (request : RequestView) : list CoverageFact :=
  (if nonblank (rv_userGoal request) then [cf_goal] else [])
  ++ map cf_required_file (rv_requiredFiles request)
  ++ map (fun o => cf_obligation (ro_targetFile o) (ro_symbol o)) (getBlockingObligations (rv_rippleObligations request))
  ++ (if nonblank (rv_researchContent request) then [cf_research] else []).

Definition present (contributions : list ContextContribution) (providerId : string) : bool :=
  includes (map co_providerId contributions) providerId.

(** src/src/harness/context/pipeline.ts # CoverageGateResult *)
Record CoverageGateResult := mkGateResult {
  cg_facts : list CoverageFact; cg_protected : gset string; cg_uncovered : list CoverageFact }.

(** src/src/harness/context/pipeline.ts # computeCoverageGate *)
Definition computeCoverageGate (contributions : list ContextContribution) (request : RequestView) : CoverageGateResult :=
  let facts := facts_of request in
  mkGateResult facts
    (list_to_set (map carrier (filter (fun f => present contributions (carrier f) = true) facts)))
    (filter (fun f => present contributions (carrier f) = false) facts).

(** src/src/harness/context/pipeline.ts # verifyCoverageGate *)
Definition verifyCoverageGate (gate : CoverageGateResult) (kept : list ContextContribution) : list CoverageFact :=
  filter (fun f => present kept (carrier f) = false) (cg_facts gate).

(** ** The budget *)

(** src/src/harness/context/budget-allocator.ts # estimatedTokens *)
Definition estimatedTokens (c : ContextContribution) : Z :=
  if 0 <? co_estimatedTokens c then co_estimatedTokens c else (Z.of_nat (String.length (co_content c)) + 2) / 3.
Definition tokens_of (cs : list ContextContribution) : Z := foldr Z.add 0 (map estimatedTokens cs).

(** src/src/harness/context/budget-allocator.ts # BudgetAllocatorOptions *)
Record BudgetAllocatorOptions := mkOptions {
  bo_protected : gset string; bo_revalidateRequired : bool; bo_semanticTrim : option (string -> string -> option string) }.

(** src/src/harness/context/budget-allocator.ts # AllocationResult *)
Record AllocationResult := mkAllocation {
  ar_kept : list ContextContribution; ar_trimmed : list TrimRecord; ar_compressed : list TrimRecord;
  ar_allocatedTokens : ContextLayer -> Z; ar_totalTokens : Z; ar_trimmedTokens : Z; ar_overrun : bool;
  ar_protectedHits : list string }.

(** The records made on the way. *)
Record Records := mkRecords { re_trimmed : list TrimRecord; re_compressed : list TrimRecord; re_hits : list string }.
Definition hit (c : ContextContribution) (r : Records) : Records :=
  mkRecords (re_trimmed r) (re_compressed r) (re_hits r ++ [co_providerId c]).

(** src/src/harness/context/budget-allocator.ts # allocateContextBudget @133-155

    The compressed copy to keep, or nothing. *)
Definition cut (opts : BudgetAllocatorOptions) (c : ContextContribution) (r : Records)
  : option ContextContribution * Records :=
  let record semantic := mkTrim (co_providerId c) tr_budget semantic (co_required c && bo_revalidateRequired opts) in
  let wholesale := (None, mkRecords (re_trimmed r ++ [record false]) (re_compressed r) (re_hits r)) in
  match bo_semanticTrim opts ≫= (fun f => f (co_content c) (co_providerId c)) with
  | Some candidate =>
      if negb (trim candidate === "") && (String.length candidate <? String.length (co_content c))%nat
      then (Some (with_content candidate (Z.max 1 ((Z.of_nat (String.length candidate) + 2) / 3)) c),
            mkRecords (re_trimmed r) (re_compressed r ++ [record true]) (re_hits r))
      else wholesale
  | None => wholesale
  end.

Definition protected_by (opts : BudgetAllocatorOptions) (c : ContextContribution) : bool :=
  bool_decide (co_providerId c ∈ bo_protected opts).
Definition fixed_by (opts : BudgetAllocatorOptions) (c : ContextContribution) : bool :=
  co_required c && negb (bo_revalidateRequired opts).

Definition add_tokens (l : ContextLayer) (n : Z) (allocated : ContextLayer -> Z) : ContextLayer -> Z :=
  fun l' => if l' === l then allocated l' + n else allocated l'.

(** src/src/harness/context/budget-allocator.ts # allocateContextBudget @157-179

    The caps of the layers; what is kept, in the order met. *)
Fixpoint layer_caps (policy : ContextBudgetPolicy) (opts : BudgetAllocatorOptions) (cs : list ContextContribution)
    (allocated : ContextLayer -> Z) (r : Records) : list ContextContribution * (ContextLayer -> Z) * Records :=
  match cs with
  | [] => ([], allocated, r)
  | c :: cs =>
      let tokens := estimatedTokens c in
      let keep c allocated r :=
        let '(kept, allocated, r) := layer_caps policy opts cs (add_tokens (co_layer c) (estimatedTokens c) allocated) r in
        (c :: kept, allocated, r) in
      if match bp_maxTokensByLayer policy (co_layer c) with Some cap => cap <? allocated (co_layer c) + tokens | None => false end
      then
        if protected_by opts c then keep c allocated (hit c r)
        else if negb (fixed_by opts c) then
          match cut opts c r with
          | (Some copy, r) => keep copy allocated r
          | (None, r) => layer_caps policy opts cs allocated r
          end
        else keep c allocated r
      else keep c allocated r
  end.

(** [[...keptByLayer.values()].flat()] *)
Definition by_layers (kept : list ContextContribution) : list ContextContribution :=
  flat_map (fun l => filter (fun c => co_layer c = l) kept) LAYER_ORDER.

(** The volatile layer first, high priorities first within one. *)
Definition trim_before (a b : ContextContribution) : bool :=
  let layerRank := layer_index (co_layer b) - layer_index (co_layer a) in
  if negb (layerRank =? 0) then layerRank <? 0 else co_priority b - co_priority a <? 0.

(** src/src/harness/context/budget-allocator.ts # allocateContextBudget @190-207

    The cap of the total. *)
Fixpoint total_cap (maxTotal : Z) (opts : BudgetAllocatorOptions) (order kept : list ContextContribution) (total : Z)
    (r : Records) : list ContextContribution * Z * Records :=
  match order with
  | [] => (kept, total, r)
  | c :: order =>
      if total <=? maxTotal then (kept, total, r)
      else if protected_by opts c then total_cap maxTotal opts order kept total (hit c r)
      else if fixed_by opts c then total_cap maxTotal opts order kept total r
      else match cut opts c r with
           | (Some copy, r) =>
               let kept := replace_object c copy kept in total_cap maxTotal opts order kept (tokens_of kept) r
           | (None, r) =>
               total_cap maxTotal opts order (filter (fun k => co_ref k <> co_ref c) kept) (total - estimatedTokens c) r
           end
  end.

(** src/src/harness/context/budget-allocator.ts # allocateContextBudget *)
Definition allocateContextBudget (contributions : list ContextContribution) (policy : ContextBudgetPolicy)
    (opts : BudgetAllocatorOptions) : AllocationResult :=
  if negb (bp_enabled policy)
  then mkAllocation contributions [] [] (fun _ => 0) (tokens_of contributions) 0 false []
  else
    let '(kept, allocated, r) := layer_caps policy opts contributions (fun _ => 0) (mkRecords [] [] []) in
    let kept := by_layers kept in
    let total := tokens_of kept in
    let '(kept, total, r) :=
      match bp_maxTotalTokens policy with
      | Some maxTotal => if maxTotal <? total then total_cap maxTotal opts (jsort trim_before kept) kept total r
                         else (kept, total, r)
      | None => (kept, total, r)
      end in
    let requiredTokens := tokens_of (filter (fun c => co_required c = true) kept) in
    mkAllocation kept (re_trimmed r) (re_compressed r) allocated total
      (Z.max 0 (tokens_of contributions - total))
      (match bp_maxTotalTokens policy with Some maxTotal => maxTotal <? requiredTokens | None => false end) (re_hits r).

(** ** The pipeline *)

Section pipeline.
(** [a.localeCompare(b)] *)
Context (localeCompare : string -> string -> Z).

Definition slice_before (a b : ContextContribution) : bool :=
  let byLayer := layer_index (co_layer a) - layer_index (co_layer b) in
  if negb (byLayer =? 0) then byLayer <? 0
  else if negb (co_priority a =? co_priority b) then co_priority a - co_priority b <? 0
  else localeCompare (co_providerId a) (co_providerId b) <? 0.

(** src/src/harness/context/pipeline.ts # runContextPipeline @209-214

    The options; [now] and the greatest age, which may be infinite. *)
Record PipelineOptions := mkPipelineOptions {
  po_budget : option ContextBudgetPolicy; po_budgetMode : option bool; po_now : Z; po_maxAge : option Z;
  po_semanticTrim : string -> string -> option string }.

Definition stale (o : PipelineOptions) (c : ContextContribution) : bool :=
  match co_freshness c, po_maxAge o with Some f, Some maxAge => maxAge <? po_now o - f | _, _ => false end.

(** src/src/harness/context/pipeline.ts # runContextPipeline @247-279 *)
Definition keep_fresh (o : PipelineOptions) (gate : CoverageGateResult) (c : ContextContribution) : bool :=
  if stale o c then co_required c && bool_decide (co_providerId c ∈ cg_protected gate) else true.

(** Where a contribution went. *)
Inductive RetentionReason := rr_duplicate | rr_stale | rr_revalidate | rr_semantic_trim | rr_wholesale_drop.

(** src/src/harness/context/pipeline.ts # RetentionManifest

    The uncovered facts of the final slice with it. *)
Record RetentionManifest := mkManifest {
  rm_retained : list string; rm_compressed : list string; rm_dropped : list (string * RetentionReason);
  rm_gate : CoverageGateResult; rm_intercepted : list string; rm_uncovered : list CoverageFact }.

(** src/src/harness/contracts/context.ts # ContextSlice *)
Record ContextSlice := mkSlice {
  sl_contributions : list ContextContribution; sl_dropped : list TrimRecord; sl_budget : AllocationResult;
  sl_cachePrefixKeys : list string; sl_retention : RetentionManifest }.

(** src/src/harness/context/pipeline.ts # runContextPipeline *)
Definition runContextPipeline (provided : list ContextContribution) (request : RequestView) (o : PipelineOptions)
  : ContextSlice :=
  let budgetMode := default (match po_budget o with Some b => bp_enabled b | None => false end) (po_budgetMode o) in
  let collected := imap with_ref provided in
  let '(deduped, duplicates) := dedupeContributions collected in
  let gate := computeCoverageGate deduped request in
  let fresh := filter (fun c => keep_fresh o gate c = true) deduped in
  let stales := filter (fun c => keep_fresh o gate c = false) deduped in
  let sorted := jsort slice_before fresh in
  let allocation :=
    match po_budget o with
    | Some budget =>
        if budgetMode then allocateContextBudget sorted budget (mkOptions (cg_protected gate) true (Some (po_semanticTrim o)))
        else allocateContextBudget sorted (mkPolicy false (fun _ => None) None) (mkOptions ∅ false None)
    | None => allocateContextBudget sorted (mkPolicy false (fun _ => None) None) (mkOptions ∅ false None)
    end in
  let kept := ar_kept allocation in
  mkSlice kept
    (map (fun p => mkTrim p tr_duplicate false false) duplicates
     ++ map (fun c => mkTrim (co_providerId c) tr_stale false false) stales ++ ar_trimmed allocation)
    allocation
    (omap (fun c => if (co_layer c === ly_stable) then key_of c else None) kept)
    (mkManifest (map co_providerId kept) (map tr_providerId (ar_compressed allocation))
       (map (fun p => (p, rr_duplicate)) duplicates
        ++ map (fun c => (co_providerId c, if co_required c then rr_revalidate else rr_stale)) stales
        ++ map (fun t => (tr_providerId t, if tr_revalidated t then rr_revalidate
                                           else if tr_semantic t then rr_semantic_trim else rr_wholesale_drop))
             (ar_trimmed allocation))
       gate (ar_protectedHits allocation) (verifyCoverageGate gate kept)).
End pipeline.

(** ** Messages *)

Definition newline : Ascii.ascii := Ascii.ascii_of_nat 10.
Definition gap : string := String newline (String newline "").
(** src/src/harness/context/assemble.ts # STABLE_PREFIX_HEADER *)
Definition STABLE_PREFIX_HEADER : string := "## Stable Prefix Context" +:+ String newline "[CACHE_ANCHOR:v3]".
(** src/src/harness/context/assemble.ts # VOLATILE_HEADER *)
Definition VOLATILE_HEADER : string := "## Volatile Round Context".

Definition blank_content (c : ContextContribution) : bool := trim (co_content c) === "".
Definition grouped (header : string) (parts : list string) : option string :=
  match parts with [] => None | _ => Some (header +:+ gap +:+ js_join gap parts) end.

(** src/src/harness/context/assemble.ts # assembleGroup *)
Definition assembleGroup (group : string) (parts : list ContextContribution) : option string :=
  let sorted := jsort (fun a b => co_priority a - co_priority b <? 0) parts in
  let nonEmpty := map co_content (filter (fun c => blank_content c = false) sorted) in
  if group === "stable-prefix" then
    match nonEmpty with
    | [content] => if str_includes "[CACHE_ANCHOR:v3]" content then Some content else grouped STABLE_PREFIX_HEADER nonEmpty
    | _ => grouped STABLE_PREFIX_HEADER nonEmpty
    end
  else if group === "volatile-round" then
    match nonEmpty with
    | [content] => if String.prefix VOLATILE_HEADER content then Some content else grouped VOLATILE_HEADER nonEmpty
    | _ => grouped VOLATILE_HEADER nonEmpty
    end
  else head nonEmpty.

Definition group_of (c : ContextContribution) : option string :=
  match co_group c with Some (String _ _ as g) => Some g | _ => None end.

(** src/src/harness/context/assemble.ts # contextSliceToMessages @38-50 *)
Fixpoint slice_messages (all cs : list ContextContribution) (emitted : list string) : list string :=
  match cs with
  | [] => []
  | c :: cs =>
      match group_of c with
      | Some g =>
          if includes emitted g then slice_messages all cs emitted
          else
            match assembleGroup g (filter (fun d => co_group d = Some g) all) with
            | Some message => message :: slice_messages all cs (g :: emitted)
            | None => slice_messages all cs (g :: emitted)
            end
      | None => if blank_content c then slice_messages all cs emitted else co_content c :: slice_messages all cs emitted
      end
  end.
(** src/src/harness/context/assemble.ts # contextSliceToMessages *)
Definition contextSliceToMessages (slice : ContextSlice) : list string :=
  slice_messages (sl_contributions slice) (sl_contributions slice) [].

(** ** Identity *)

Definition refs (cs : list ContextContribution) : list nat := co_ref <$> cs.

Lemma refs_inj cs c d : NoDup (refs cs) -> c ∈ cs -> d ∈ cs -> co_ref c = co_ref d -> c = d.
Proof.
  intros Hn Hc Hd E. induction cs as [|x cs IH]; [by apply not_elem_of_nil in Hc|].
  apply NoDup_cons in Hn as [Hx Hn]. unfold refs in *.
  apply elem_of_cons in Hc as [->|Hc], Hd as [->|Hd]; [done| | |by apply IH];
    destruct Hx; [rewrite E|rewrite <- E]; apply list_elem_of_fmap; eauto.
Qed.

Lemma replace_refs existing c kept r :
  r ∈ refs (replace_object existing c kept) -> r = co_ref c \/ r ∈ refs kept.
Proof.
  induction kept as [|k kept IH]; cbn; [by right|].
  destruct (co_ref k =? co_ref existing)%nat; cbn; rewrite !elem_of_cons; tauto.
Qed.
Lemma replace_NoDup existing c kept :
  NoDup (refs kept) -> co_ref c ∉ refs kept -> NoDup (refs (replace_object existing c kept)).
Proof.
  induction kept as [|k kept IH]; [done|]. intros [Hk Hn]%NoDup_cons Hc. cbn in Hc. apply not_elem_of_cons in Hc as [Hne Hc].
  cbn [replace_object]. destruct (co_ref k =? co_ref existing)%nat.
  - apply NoDup_cons. by split.
  - apply NoDup_cons. split; [|by apply IH]. intros [E|H]%replace_refs; [by destruct Hne|done].
Qed.

Lemma dedupe_one_kept s c :
  dd_kept (dedupe_one s c) = dd_kept s \/ dd_kept (dedupe_one s c) = dd_kept s ++ [c] \/
  exists existing, dd_kept (dedupe_one s c) = replace_object existing c (dd_kept s).
Proof. unfold dedupe_one, dedupe_refs. repeat case_match; cbn; eauto. Qed.

Lemma dedupe_refs_NoDup cs : forall s, NoDup (refs (dd_kept s)) -> NoDup (refs cs) ->
  (forall c, c ∈ cs -> co_ref c ∉ refs (dd_kept s)) -> NoDup (refs (dd_kept (fold_left dedupe_one cs s))).
Proof.
  induction cs as [|c cs IH]; intros s Hs Hcs Hd; [done|]. apply NoDup_cons in Hcs as [Hc Hcs].
  assert (co_ref c ∉ refs (dd_kept s)) as Hnew by (apply Hd; by left).
  assert (forall c', c' ∈ cs -> co_ref c' <> co_ref c) as Hne.
  { intros c' Hc' E. apply Hc. rewrite <- E. apply list_elem_of_fmap. by exists c'. }
  cbn [fold_left]. destruct (dedupe_one_kept s c) as [E|[E|[existing E]]].
  - apply IH; rewrite ?E; try done. intros c' Hc'. apply Hd. by right.
  - apply IH; [| done |]; rewrite E; unfold refs in *; rewrite fmap_app; cbn.
    + apply NoDup_app. split_and!; [done| |by apply NoDup_singleton]. by intros r Hr ->%list_elem_of_singleton.
    + intros c' Hc'. rewrite elem_of_app, list_elem_of_singleton. intros [H|H]; [|by apply (Hne c')].
      by apply (Hd c'); [right|].
  - apply IH; [|done|]; rewrite E; [by apply replace_NoDup|]. intros c' Hc' [H|H]%replace_refs; [by apply (Hne c')|].
    by apply (Hd c'); [right|].
Qed.

Lemma collected_NoDup provided : NoDup (refs (imap with_ref provided)).
Proof.
  unfold refs. rewrite fmap_imap.
  assert (imap (fun n => co_ref ∘ with_ref n) provided = imap (fun n _ => n) provided) as -> by by apply imap_ext.
  rewrite (imap_seq_0 _ (fun n => n)), list_fmap_id. apply NoDup_seq.
Qed.

Lemma deduped_NoDup provided : NoDup (refs (dedupeContributions (imap with_ref provided)).1).
Proof.
  unfold dedupeContributions. cbn [fst]. apply dedupe_refs_NoDup; [constructor|apply collected_NoDup|].
  intros c _. apply not_elem_of_nil.
Qed.

(** ** The budget *)

Section budget.
Context (opts : BudgetAllocatorOptions).

(** Contributions no cap touches. *)
Definition exempt (c : ContextContribution) : bool := protected_by opts c || fixed_by opts c.

(** [copy] is what a cut left of [c]: shorter, and otherwise the same. *)
Definition cut_of (c copy : ContextContribution) : Prop :=
  exists content tokens, copy = with_content content tokens c /\ (String.length content < String.length (co_content c))%nat.

Lemma cut_spec c r copy r' : cut opts c r = (Some copy, r') -> cut_of c copy.
Proof.
  unfold cut. destruct (bo_semanticTrim opts ≫= _) as [candidate|]; [|done]. destruct (_ && _) eqn:E; [|done].
  intros [= <- _]. apply andb_true_iff in E as [_ E%Nat.ltb_lt]. by eexists _, _.
Qed.
Lemma cut_fields c copy : cut_of c copy -> co_ref copy = co_ref c /\ co_providerId copy = co_providerId c /\ copy <> c.
Proof. intros (content & tokens & -> & Hl). split_and!; [done..|]. intros E. apply (f_equal co_content) in E. cbn in E. subst. lia. Qed.

(** What a pass of cuts does: contributions are kept, cut or dropped, and those
    that are exempt are kept. *)
Record cuts (cs kept : list ContextContribution) : Prop := {
  ct_from : forall k, k ∈ kept -> k ∈ cs \/ exists c, c ∈ cs /\ exempt c = false /\ cut_of c k;
  ct_protected : forall c, c ∈ cs -> exempt c = true -> c ∈ kept }.

Lemma layer_caps_spec policy cs : forall allocated r,
  let kept := (layer_caps policy opts cs allocated r).1.1 in
  refs kept `sublist_of` refs cs /\ cuts cs kept.
Proof.
  induction cs as [|c cs IH]; intros allocated r; cbn [layer_caps].
  { split; [constructor|]. by split; intros ? ?%not_elem_of_nil. }
  assert (forall k allocated r, co_ref k = co_ref c -> k = c \/ exempt c = false /\ cut_of c k ->
    let kept := (let '(kept, allocated, r) := layer_caps policy opts cs (add_tokens (co_layer k) (estimatedTokens k) allocated) r in
                 (k :: kept, allocated, r)).1.1 in
    refs kept `sublist_of` refs (c :: cs) /\ cuts (c :: cs) kept) as Hkeep.
  { intros k al r' Er Hk. specialize (IH (add_tokens (co_layer k) (estimatedTokens k) al) r').
    destruct (layer_caps _ _ _ _ _) as [[kept al'] r'']. cbn [fst] in *. destruct IH as [Hs [Hf Hp]]. split.
    { unfold refs in *. cbn. rewrite Er. by constructor. }
    split.
    - intros d [->|Hd]%elem_of_cons; [destruct Hk as [->|[He Hk]]; [left; by left|right; exists c; split; [by left|done]]|].
      destruct (Hf d Hd) as [?|(c' & ? & ?)]; [left; by right|right; exists c'; split; [by right|done]].
    - intros d [->|Hd]%elem_of_cons He; [destruct Hk as [->|[He' _]]; [by left|congruence]|]. right. by apply Hp. }
  destruct (match bp_maxTokensByLayer policy (co_layer c) with Some _ => _ | None => _ end).
  - destruct (protected_by opts c) eqn:Ep; [by apply Hkeep; auto|].
    destruct (fixed_by opts c) eqn:Ef; cbn [negb]; [by apply Hkeep; auto|].
    assert (exempt c = false) as Ex by (unfold exempt; by rewrite Ep, Ef).
    destruct (cut opts c r) as [[copy|] r'] eqn:Ec.
    + apply cut_spec in Ec. apply Hkeep; [|right; by split]. by apply cut_fields.
    + destruct (IH allocated r') as [Hs [Hf Hp]]. split; [by constructor|]. split.
      * intros d Hd. destruct (Hf d Hd) as [?|(c' & ? & ?)]; [left; by right|right; exists c'; split; [by right|done]].
      * intros d [->|Hd]%elem_of_cons He; [congruence|by apply Hp].
  - by apply Hkeep; auto.
Qed.

Lemma by_layers_perm kept : by_layers kept ≡ₚ kept.
Proof.
  unfold by_layers, LAYER_ORDER. cbn [flat_map]. rewrite app_nil_r.
  induction kept as [|k kept IH]; [done|]. rewrite !filter_cons. etransitivity; [|apply perm_skip, IH].
  destruct (co_layer k); repeat first [rewrite decide_True by done|rewrite decide_False by done];
    cbn [app]; rewrite ?app_assoc, <- ?Permutation_middle; by rewrite <- ?app_assoc.
Qed.

Lemma tokens_perm cs cs' : cs ≡ₚ cs' -> tokens_of cs = tokens_of cs'.
Proof. unfold tokens_of. induction 1; cbn; lia. Qed.

(** Dropping one object takes off its tokens. *)
Lemma tokens_drop c kept :
  NoDup (refs kept) -> c ∈ kept ->
  tokens_of (filter (fun k => co_ref k <> co_ref c) kept) = tokens_of kept - estimatedTokens c.
Proof.
  intros Hn Hc. induction kept as [|k kept IH]; [by apply not_elem_of_nil in Hc|].
  pose proof Hn as [Hk Hn']%NoDup_cons. destruct (decide (co_ref k = co_ref c)) as [E|E].
  - assert (k = c) as -> by (eapply refs_inj; [exact Hn|by left|done|done]).
    rewrite filter_cons_False by naive_solver. rewrite (filter_all _ kept); [unfold tokens_of; cbn; lia|].
    intros d Hd E'. apply Hk. rewrite <- E'. apply list_elem_of_fmap. by exists d.
  - rewrite filter_cons_True by done. apply elem_of_cons in Hc as [->|Hc]; [done|].
    unfold tokens_of in *. cbn. rewrite IH by done. lia.
Qed.

Lemma replace_elem existing c kept k : k ∈ replace_object existing c kept -> k = c \/ k ∈ kept.
Proof.
  induction kept as [|x kept IH]; cbn; [by intros ?%not_elem_of_nil|].
  destruct (co_ref x =? co_ref existing)%nat; rewrite !elem_of_cons; tauto.
Qed.
Lemma replace_other existing c kept k :
  co_ref k <> co_ref existing -> k ∈ kept -> k ∈ replace_object existing c kept.
Proof.
  intros Hne. induction kept as [|x kept IH]; [done|]. intros [->|Hk]%elem_of_cons; cbn.
  - rewrite (proj2 (Nat.eqb_neq _ _) Hne). by left.
  - destruct (co_ref x =? co_ref existing)%nat; right; auto.
Qed.
Lemma replace_same existing c kept : co_ref c = co_ref existing -> refs (replace_object existing c kept) = refs kept.
Proof.
  intros E. induction kept as [|x kept IH]; [done|]. cbn. destruct (co_ref x =? co_ref existing)%nat eqn:Ex; cbn.
  - apply Nat.eqb_eq in Ex. unfold refs. congruence.
  - unfold refs in *. by rewrite IH.
Qed.
Lemma replace_gone existing c kept :
  NoDup (refs kept) -> co_ref c = co_ref existing -> forall k, k ∈ replace_object existing c kept -> co_ref k = co_ref existing ->
  existing ∈ kept -> k = c.
Proof.
  intros Hn E k Hk Ek Hx. assert (c ∈ replace_object existing c kept) as Hc.
  { clear -Hx. induction kept as [|x kept IH]; [by apply not_elem_of_nil in Hx|]. cbn.
    destruct (co_ref x =? co_ref existing)%nat eqn:Ex; [by left|]. right. apply IH.
    apply elem_of_cons in Hx as [->|Hx]; [by rewrite Nat.eqb_refl in Ex|done]. }
  eapply refs_inj; [|exact Hk|exact Hc|congruence]. by rewrite replace_same.
Qed.
(** After the total cap: the total is that of what is kept, and it is within the
    cap unless nothing that is left whole could be cut. *)
Record capped (maxTotal : Z) (order kept kept' : list ContextContribution) (total' : Z) : Prop := {
  cp_total : total' = tokens_of kept';
  cp_refs : NoDup (refs kept');
  cp_from : forall k, k ∈ kept' -> k ∈ kept \/ exists c, c ∈ order /\ exempt c = false /\ cut_of c k;
  cp_exempt : forall c, c ∈ kept -> exempt c = true -> c ∈ kept';
  cp_cap : total' <= maxTotal \/ forall c, c ∈ kept' -> c ∈ order -> exempt c = true }.

Lemma total_cap_spec maxTotal order : forall kept total r,
  NoDup (refs kept) -> NoDup (refs order) -> (forall c, c ∈ order -> c ∈ kept) -> total = tokens_of kept ->
  let '(kept', total', _) := total_cap maxTotal opts order kept total r in capped maxTotal order kept kept' total'.
Proof.
  induction order as [|c order IH]; intros kept total r Hk Ho Hin Et; cbn [total_cap].
  { split; try done; [by left|]. right. by intros c _ ?%not_elem_of_nil. }
  destruct (total <=? maxTotal) eqn:Ele.
  { apply Z.leb_le in Ele. split; try done; by left. }
  apply NoDup_cons in Ho as [Hc Ho].
  assert (forall d, d ∈ order -> co_ref d <> co_ref c) as Hne.
  { intros d Hd E. apply Hc. rewrite <- E. apply list_elem_of_fmap. by exists d. }
  assert (c ∈ kept) as Hck by (apply Hin; by left).
  assert (forall r', exempt c = true ->
    let '(kept', total', _) := total_cap maxTotal opts order kept total r' in capped maxTotal (c :: order) kept kept' total') as Hskip.
  { intros r' Ex. specialize (IH kept total r' Hk Ho (fun d Hd => Hin d (list_elem_of_further _ _ _ Hd)) Et).
    destruct (total_cap _ _ _ _ _ _) as [[kept' total'] r'']. destruct IH as [H1 H2 H3 H4 H5]. split; try done.
    - intros k Hk'. destruct (H3 k Hk') as [?|(d & ? & ?)]; [by left|]. right. exists d. split; [by right|done].
    - destruct H5 as [?|H5]; [by left|]. right. intros d Hd [->|Hd']%elem_of_cons; [done|by apply H5]. }
  unfold exempt in Hskip at 1. destruct (protected_by opts c) eqn:Ep; [by apply Hskip|].
  destruct (fixed_by opts c) eqn:Ef; [by apply Hskip|]. clear Hskip.
  assert (exempt c = false) as Ex by (unfold exempt; by rewrite Ep, Ef).
  (* a cut of [c] leaves [kept1], from which [c] itself is gone *)
  assert (forall kept1 total1 r1, total1 = tokens_of kept1 -> NoDup (refs kept1) ->
    (forall k, k ∈ kept1 -> k ∈ kept \/ cut_of c k) -> (forall k, co_ref k <> co_ref c -> k ∈ kept -> k ∈ kept1) -> c ∉ kept1 ->
    let '(kept', total', _) := total_cap maxTotal opts order kept1 total1 r1 in capped maxTotal (c :: order) kept kept' total') as Hcut.
  { intros kept1 total1 r1 Et1 Hn1 Hfrom Hother Hgone. specialize (IH kept1 total1 r1 Hn1 Ho).
    destruct (total_cap _ _ _ _ _ _) as [[kept' total'] r']. destruct IH as [H1 H2 H3 H4 H5]; [|done|].
    { intros d Hd. apply Hother; [by apply Hne|]. apply Hin. by right. }
    assert (c ∉ kept') as Hc'.
    { intros [?|(d & Hd & _ & Hcut)]%H3; [done|]. apply cut_fields in Hcut as (E & _). by apply (Hne d Hd). }
    split; try done.
    - intros k [Hk'|(d & ? & ?)]%H3; [|right; exists d; split; [by right|done]].
      destruct (Hfrom k Hk') as [?|?]; [by left|]. right. exists c. split_and!; [by left|done|done].
    - intros d Hd He. apply H4; [|done]. apply Hother; [|done]. intros E.
      rewrite (refs_inj kept d c Hk Hd Hck E) in He. congruence.
    - destruct H5 as [?|H5]; [by left|]. right. intros d Hd [->|Hd']%elem_of_cons; [done|by apply H5]. }
  destruct (cut opts c r) as [[copy|] r1] eqn:Ec.
  - apply cut_spec in Ec. pose proof (cut_fields _ _ Ec) as (Er & _ & Hcc). apply Hcut; [done| | | |].
    + by rewrite replace_same.
    + intros k [->|Hk']%replace_elem; [by right|by left].
    + intros k Hk' Hin'. by apply replace_other.
    + intros H. apply Hcc. symmetry. by eapply (replace_gone c copy kept).
  - apply Hcut; [by rewrite tokens_drop, Et| | | |].
    + eapply sublist_NoDup; [exact Hk|]. apply fmap_sublist, sublist_filter.
    + intros k Hk'. apply list_elem_of_filter in Hk'. left. tauto.
    + intros k Hk' Hin'. apply list_elem_of_filter. done.
    + intros H. apply list_elem_of_filter in H. naive_solver.
Qed.

(** The whole allocation: exempt contributions survive as they are, nothing is
    made up, the total is that of what is kept, and it is within the cap unless
    nothing that was left whole could be cut. *)
Record allocated (maxTotal : option Z) (contributions kept : list ContextContribution) (total : Z) : Prop := {
  al_exempt : forall c, c ∈ contributions -> exempt c = true -> c ∈ kept;
  al_from : forall k, k ∈ kept -> exists c, c ∈ contributions /\ co_ref k = co_ref c /\
    co_providerId k = co_providerId c /\ (k = c \/ exempt c = false);
  al_total : total = tokens_of kept;
  al_cap : forall m, maxTotal = Some m -> total <= m \/ forall c, c ∈ kept -> c ∈ contributions -> exempt c = true }.

Lemma allocate_spec contributions policy :
  NoDup (refs contributions) -> bp_enabled policy = true ->
  let a := allocateContextBudget contributions policy opts in
  allocated (bp_maxTotalTokens policy) contributions (ar_kept a) (ar_totalTokens a).
Proof.
  intros Hn He. unfold allocateContextBudget. rewrite He. cbn [negb].
  pose proof (layer_caps_spec policy contributions (fun _ => 0) (mkRecords [] [] [])) as Hl. cbv zeta in Hl.
  destruct (layer_caps _ _ _ _ _) as [[kept0 al] r]. cbn [fst] in Hl. destruct Hl as [Hs [Hf Hx]].
  set (kept := by_layers kept0). pose proof (by_layers_perm kept0) as Hp. fold kept in Hp.
  assert (NoDup (refs kept)) as Hnk. { unfold refs. rewrite Hp. by eapply sublist_NoDup. }
  assert (forall c, c ∈ contributions -> exempt c = true -> c ∈ kept) as Hex by (intros; rewrite Hp; auto).
  assert (forall k, k ∈ kept -> exists c, c ∈ contributions /\ co_ref k = co_ref c /\
    co_providerId k = co_providerId c /\ (k = c \/ exempt c = false)) as Hfrom.
  { intros k Hk. rewrite Hp in Hk. destruct (Hf k Hk) as [?|(c & ? & ? & Hc)]; [by exists k; auto|].
    apply cut_fields in Hc as (? & ? & _). exists c. auto. }
  destruct (bp_maxTotalTokens policy) as [m|] eqn:Em; cbn [ar_kept ar_totalTokens].
  2: { by split. }
  destruct (m <? tokens_of kept) eqn:Elt; cbn [ar_kept ar_totalTokens].
  2: { apply Z.ltb_ge in Elt. split; try done. intros ? [= <-]. by left. }
  set (order := jsort trim_before kept). pose proof (jsort_perm trim_before kept) as Ho. fold order in Ho.
  assert (NoDup (refs order)) as Hno by (unfold refs; by rewrite Ho).
  assert (forall c, c ∈ order -> c ∈ kept) as Hoin by (intros c; by rewrite Ho).
  pose proof (total_cap_spec m order kept (tokens_of kept) r Hnk Hno Hoin eq_refl) as Hc.
  destruct (total_cap _ _ _ _ _ _) as [[kept' total'] r']. destruct Hc as [H1 H2 H3 H4 H5]. cbn [ar_kept ar_totalTokens].
  split; [auto| |done|].
  - intros k [Hk|(c & Hc & Hce & Hcut)]%H3; [by apply Hfrom|].
    destruct (Hfrom c) as (d & Hd & Er & Ed & Hd'); [by apply Hoin|]. exists d.
    apply cut_fields in Hcut as (-> & -> & _). split_and!; [done..|]. right. destruct Hd' as [->|?]; done.
  - intros ? [= <-]. destruct H5 as [?|H5]; [by left|]. right. intros c Hc Hcc.
    destruct (H3 c Hc) as [Hck|(d & Hd & Hde & Hcut)]; [apply H5; [done|by rewrite Ho]|].
    exfalso. apply Hoin in Hd. rewrite Hp in Hd. destruct Hcut as (content & tokens & -> & Hlt).
    destruct (Hf d Hd) as [Hdc|(e & Hec & _ & content' & tokens' & -> & Hlt')].
    + assert (with_content content tokens d = d) as E by exact (refs_inj contributions _ _ Hn Hcc Hdc eq_refl).
      apply (f_equal co_content) in E. cbn in E. subst. lia.
    + assert (with_content content tokens (with_content content' tokens' e) = e) as E by exact (refs_inj contributions _ _ Hn Hcc Hec eq_refl).
      apply (f_equal co_content) in E. cbn in E, Hlt. subst. lia.
Qed.
End budget.

(** ** The slice *)

Section slice.
Context (localeCompare : string -> string -> Z).
Implicit Types (provided : list ContextContribution) (request : RequestView) (o : PipelineOptions).

Definition deduped provided : list ContextContribution := (dedupeContributions (imap with_ref provided)).1.
Definition gate_of provided request : CoverageGateResult := computeCoverageGate (deduped provided) request.

(** What is left after the freshness check. *)
Definition eligible provided request o : list ContextContribution :=
  filter (fun c => keep_fresh o (gate_of provided request) c = true) (deduped provided).

Definition slice_of provided request o : ContextSlice := runContextPipeline localeCompare provided request o.

(** Whether the pipeline runs with a budget, and with which. *)
Definition budget_in_force o : option ContextBudgetPolicy :=
  match po_budget o with
  | Some b => if default (bp_enabled b) (po_budgetMode o) && bp_enabled b then Some b else None
  | None => None
  end.

Lemma slice_budget provided request o :
  let a := sl_budget (slice_of provided request o) in
  let sorted := jsort (slice_before localeCompare) (eligible provided request o) in
  sl_contributions (slice_of provided request o) = ar_kept a /\
  match budget_in_force o with
  | Some b => a = allocateContextBudget sorted b (mkOptions (cg_protected (gate_of provided request)) true (Some (po_semanticTrim o)))
  | None => ar_kept a = sorted /\ ar_totalTokens a = tokens_of sorted
  end.
Proof.
  unfold slice_of, runContextPipeline, eligible, gate_of, deduped, budget_in_force.
  destruct (dedupeContributions _) as [dd dup]. cbn [fst sl_budget sl_contributions]. split; [done|].
  destruct (po_budget o) as [b|]; [|done]. cbn [default].
  destruct (default (bp_enabled b) (po_budgetMode o)); cbn [andb]; [|done].
  destruct (bp_enabled b) eqn:E; [done|]. unfold allocateContextBudget. by rewrite E.
Qed.

Lemma eligible_NoDup provided request o : NoDup (refs (eligible provided request o)).
Proof. eapply sublist_NoDup; [apply deduped_NoDup|]. apply fmap_sublist, sublist_filter. Qed.

(** The slice holds every eligible carrier as it was, and nothing that was not eligible. *)
Lemma slice_allocated provided request o :
  let protect := mkOptions (cg_protected (gate_of provided request)) true (Some (po_semanticTrim o)) in
  allocated protect (b ← budget_in_force o; bp_maxTotalTokens b) (eligible provided request o)
    (sl_contributions (slice_of provided request o)) (ar_totalTokens (sl_budget (slice_of provided request o))).
Proof.
  cbv zeta. destruct (slice_budget provided request o) as [-> Ha]. cbv zeta in Ha.
  pose proof (jsort_perm (slice_before localeCompare) (eligible provided request o)) as Hp.
  destruct (budget_in_force o) as [b|] eqn:Eb.
  - rewrite Ha. set (sorted := jsort _ _) in *.
    destruct (allocate_spec (mkOptions (cg_protected (gate_of provided request)) true (Some (po_semanticTrim o))) sorted b) as [H1 H2 H3 H4].
    + unfold refs. rewrite Hp. apply eligible_NoDup.
    + unfold budget_in_force in Eb. destruct (po_budget o); [|done]. by case_match; simplify_eq; apply andb_true_iff in H as [_ ->].
    + split; cbn [mbind option_bind]; try done; setoid_rewrite <- Hp; done.
  - destruct Ha as [-> ->]. split; [by intros c; rewrite Hp| |done|done].
    intros k Hk. rewrite Hp in Hk. exists k. auto.
Qed.
Lemma present_iff cs p : present cs p = true <-> exists c, c ∈ cs /\ co_providerId c = p.
Proof. unfold present. rewrite includes_true, list_elem_of_In, in_map_iff. setoid_rewrite list_elem_of_In. naive_solver. Qed.

Lemma protected_iff cs request p :
  p ∈ cg_protected (computeCoverageGate cs request) <->
  exists f c, f ∈ facts_of request /\ carrier f = p /\ c ∈ cs /\ co_providerId c = p.
Proof.
  cbn. rewrite elem_of_list_to_set, list_elem_of_In, in_map_iff. setoid_rewrite <- list_elem_of_In.
  setoid_rewrite list_elem_of_filter. setoid_rewrite present_iff. naive_solver.
Qed.

(** Carriers that are fresh, or required, are eligible. *)
Definition lasting o (c : ContextContribution) : Prop := stale o c = false \/ co_required c = true.

Lemma eligible_iff provided request o c f :
  f ∈ facts_of request -> co_providerId c = carrier f ->
  c ∈ eligible provided request o <-> c ∈ deduped provided /\ lasting o c.
Proof.
  intros Hf Hc. unfold eligible, lasting, keep_fresh. rewrite list_elem_of_filter.
  destruct (stale o c); [|naive_solver]. rewrite andb_true_iff, bool_decide_eq_true. unfold gate_of. rewrite protected_iff.
  split; [naive_solver|]. intros (Hd & [?|Hr]); [done|]. split; [|done]. split; [done|].
  exists f, c. done.
Qed.

(** No critical fact of a round (the user's goal, a required file, an
    obligation to a caller, research evidence) loses its carrier to the budget:
    every contribution of the carrier that is still there after duplicates are
    removed, and is fresh or required, is in the slice unchanged, whatever the
    caps, the mode and the compressor; and a fact is reported as uncovered
    exactly when there is no such contribution. *)
Theorem critical_facts_survive provided request o f :
  f ∈ facts_of request ->
  (forall c, c ∈ deduped provided -> co_providerId c = carrier f -> lasting o c ->
     c ∈ sl_contributions (slice_of provided request o)) /\
  (f ∈ rm_uncovered (sl_retention (slice_of provided request o)) <->
   ~ exists c, c ∈ deduped provided /\ co_providerId c = carrier f /\ lasting o c).
Proof.
  intros Hf. pose proof (slice_allocated provided request o) as [Hx Hfrom _ _].
  assert (forall c, c ∈ deduped provided -> co_providerId c = carrier f -> lasting o c ->
            c ∈ sl_contributions (slice_of provided request o)) as Hin.
  { intros c Hc Ec Hl. apply Hx; [by eapply eligible_iff|]. unfold exempt, protected_by. cbn [bo_protected].
    rewrite bool_decide_true; [done|]. unfold gate_of. apply protected_iff. by exists f, c. }
  split; [exact Hin|].
  assert (rm_uncovered (sl_retention (slice_of provided request o)) =
          verifyCoverageGate (gate_of provided request) (sl_contributions (slice_of provided request o))) as ->.
  { unfold slice_of, runContextPipeline, gate_of, deduped. by destruct (dedupeContributions _). }
  unfold verifyCoverageGate. rewrite list_elem_of_filter, <- not_true_iff_false, present_iff. cbn [cg_facts gate_of computeCoverageGate].
  split.
  - intros [H _] (c & Hc & Ec & Hl). apply H. exists c. auto.
  - intros H. split; [|exact Hf]. intros (k & Hk & Ek). apply H.
    destruct (Hfrom k Hk) as (c & Hc & _ & Ec & _). rewrite Ek in Ec. symmetry in Ec.
    exists c. apply (eligible_iff provided request o c f Hf Ec) in Hc as [? ?]. done.
Qed.

(** The budget of a round is kept as far as it can be: the tokens reported are
    those of the contributions in the slice, and with a cap on the total they are
    within it, unless every contribution that is in the slice as a provider made
    it carries a critical fact; what else is there has been compressed. *)
Theorem context_budget_respected provided request o b maxTotal :
  budget_in_force o = Some b -> bp_maxTotalTokens b = Some maxTotal ->
  let total := ar_totalTokens (sl_budget (slice_of provided request o)) in
  total = tokens_of (sl_contributions (slice_of provided request o)) /\
  (total <= maxTotal \/
   forall c, c ∈ sl_contributions (slice_of provided request o) -> c ∈ deduped provided ->
     exists f, f ∈ facts_of request /\ carrier f = co_providerId c).
Proof.
  intros Hb Hm total. pose proof (slice_allocated provided request o) as [_ Hfrom Ht Hcap].
  split; [exact Ht|]. rewrite Hb in Hcap. cbn [mbind option_bind] in Hcap.
  destruct (Hcap maxTotal Hm) as [?|H]; [by left|]. right. intros c Hc Hd.
  assert (c ∈ eligible provided request o) as He.
  { destruct (Hfrom c Hc) as (e & He & Er & _). assert (e ∈ deduped provided) as Hed.
    { unfold eligible in He. apply list_elem_of_filter in He. tauto. }
    by rewrite (refs_inj _ c e (deduped_NoDup provided) Hd Hed Er). }
  specialize (H c Hc He). unfold exempt, protected_by, fixed_by in H. cbn [bo_protected bo_revalidateRequired] in H.
  rewrite andb_false_r, orb_false_r, bool_decide_eq_true in H. unfold gate_of in H.
  apply protected_iff in H as (f & _ & ? & ? & _). by exists f.
Qed.
End slice.

(** ** Witnesses *)

Definition demo (id : string) (layer : ContextLayer) (content : string) (tokens : Z) (required : bool) (freshness : option Z)
  : ContextContribution := mkContribution 0 id layer 10 content tokens [] None required freshness None.
Definition no_compare (_ _ : string) : Z := 0.
Definition no_compression (_ _ : string) : option string := None.
Definition capped_options (maxTotal : Z) (trim : string -> string -> option string) : PipelineOptions :=
  mkPipelineOptions (Some (mkPolicy true (fun _ => None) (Some maxTotal))) None 100 (Some 50) trim.
Definition demo_request : RequestView := mkRequest (Some "ship it") ["src/a.ts"] [] (Some "notes").
Definition demo_provided : list ContextContribution :=
  [demo "plan-state" ly_plan "the plan" 80 true (Some 0); demo "skills" ly_stable "a skill" 50 false None].

Lemma critical_facts_survive_witness :
  cf_required_file "src/a.ts" ∈ facts_of demo_request /\
  present (sl_contributions (slice_of no_compare demo_provided demo_request (capped_options 60 no_compression))) "plan-state" = true.
Proof.
  assert (cf_required_file "src/a.ts" ∈ facts_of demo_request) as Hf by (right; left).
  split; [exact Hf|]. apply (present_iff no_compare).
  destruct (critical_facts_survive no_compare demo_provided demo_request (capped_options 60 no_compression) _ Hf) as [H _].
  exists (demo "plan-state" ly_plan "the plan" 80 true (Some 0)). split; [|reflexivity].
  apply H; [left|reflexivity|right; reflexivity].
Defined.

Lemma context_budget_respected_witness :
  budget_in_force (capped_options 60 no_compression) = Some (mkPolicy true (fun _ => None) (Some 60)) /\
  80 = tokens_of (sl_contributions (slice_of no_compare demo_provided demo_request (capped_options 60 no_compression))).
Proof.
  split; [reflexivity|].
  destruct (context_budget_respected no_compare demo_provided demo_request (capped_options 60 no_compression)
              (mkPolicy true (fun _ => None) (Some 60)) 60 eq_refl eq_refl) as [H _].
  rewrite <- H. vm_compute. reflexivity.
Defined.

(** ** Behaviour worth knowing *)

(** A contribution that lost to another by its references stays the owner of its
    cache key: one that then beats it for the key is put in its place, which it
    does not have, and is lost without a record. *)
Lemma dedupe_loses_contribution :
  let a := mkContribution 0 "a" ly_stable 1 "A" 1 ["file"] None false None None in
  let b := mkContribution 1 "b" ly_volatile 1 "B" 1 ["file"] (Some "k") false None None in
  let c := mkContribution 2 "c" ly_plan 1 "C" 1 ["other"] (Some "k") true None None in
  dedupeContributions [a; b; c] = ([a], ["b"; "b"]).
Proof. by vm_compute. Qed.

(** The winner of a duplicate is not compared with the rest: two contributions
    with a common reference can both be kept. *)
Lemma overlap_kept :
  let a := mkContribution 0 "a" ly_stable 1 "A" 1 ["x"] None false None None in
  let b := mkContribution 1 "b" ly_volatile 1 "B" 1 ["y"] (Some "k") false None None in
  let c := mkContribution 2 "c" ly_plan 1 "C" 1 ["x"] (Some "k") false None None in
  dedupeContributions [a; b; c] = ([a; c], ["b"]).
Proof. by vm_compute. Qed.

(** A stale contribution that is not required is dropped although the gate
    protects its provider. *)
Lemma stale_carrier_dropped :
  let slice := slice_of no_compare [demo "research" ly_volatile "findings" 10 false (Some 0)]
                 (mkRequest None [] [] (Some "notes")) (capped_options 60 no_compression) in
  sl_contributions slice = [] /\ rm_uncovered (sl_retention slice) = [cf_research] /\
  bool_decide ("research" ∈ cg_protected (rm_gate (sl_retention slice))) = true.
Proof. by vm_compute. Qed.

(** Each contribution is compressed once: optional ones can stay beyond the cap. *)
Lemma compressed_over_cap :
  let slice := slice_of no_compare [demo "a" ly_volatile "aaaaaaaaaaaa" 0 false None; demo "b" ly_volatile "bbbbbbbbbbbb" 0 false None]
                 demo_request (capped_options 3 (fun content _ => Some (String.substring 0 11 content))) in
  ar_totalTokens (sl_budget slice) = 8 /\ length (sl_contributions slice) = 2%nat.
Proof. by vm_compute. Qed.

(** Of a group the assembler does not know only the first part becomes a message. *)
Lemma unknown_group_truncated a b :
  blank_content a = false -> blank_content b = false -> co_priority a <= co_priority b ->
  assembleGroup "notes" [a; b] = Some (co_content a).
Proof.
  intros Ha Hb Hp. unfold assembleGroup, jsort. cbn [fold_left sort_insert].
  rewrite (proj2 (Z.ltb_ge _ _)) by lia. rewrite !filter_cons_True by done. done.
Qed.
