(* ===== verification/Transcript.v ===== *)
(** The conversation of a run: its tool chains, its compaction, its epochs.

    Models [src/src/provider/transcript-manager.ts], the messages part of
    [src/src/agent/context-epoch.ts], the two compaction passes of
    [src/src/agent/round/post-loop.ts], [appendUserContext] and the forward pass
    of [src/src/agent/maintenance/coordinator.ts], and the places of
    [src/src/agent/kernel/round.ts] that change the conversation: the messages a
    round pushes, the epoch phase, [applyRollover].

    A block is a [jsval], as the code's [Record<string, unknown>]; lengths and
    slices count 8-bit code units, and the two texts outside them (the heading
    of the clue lines, the heading of the learned prompts) are spelled in UTF-8.
    The density of characters per token is an exact rational.  The plan state
    text, the answers of tools, the artifact store, the hash and the clock are
    parameters. *)
From Stdlib Require Import QArith Qround Ascii.
From S2P Require Import Prelude Json Paths.
From stdpp Require Import pretty.
Open Scope Z_scope.
Open Scope list_scope.

(** ** Messages *)

(** src/src/provider/types.ts # ProviderMessage @8-11 *)
Inductive Role := role_user | role_assistant | role_system.
#[export] Instance Role_eq : EqDecision Role. Proof. solve_decision. Defined.
Inductive Content := ct_text (s : string) | ct_blocks (bs : list jsval).
Record ProviderMessage := mkMessage { pm_role : Role; pm_content : Content }.

(** [Array.isArray(m.content) ? m.content : []]. *)
Definition blocks (m : ProviderMessage) : list jsval :=
  match pm_content m with ct_blocks bs => bs | ct_text _ => [] end.

(** [isRecord(b) && b.type === t]. *)
Definition is_block (t : string) (b : jsval) : bool :=
  match b, field "type" b with JObj _, JStr s => s === t | _, _ => false end.

Definition count_blocks (t : string) (m : ProviderMessage) : nat := count_where (is_block t) (blocks m).

Definition by_role (r : Role) (m : ProviderMessage) : bool := pm_role m === r.
#[local] Abbreviation is_assistant := (by_role role_assistant).
#[local] Abbreviation is_user := (by_role role_user).

(** [String(b.k ?? "")]. *)
Definition text_field (k : string) (b : jsval) : string := to_string (jor (field k b) (JStr "")).

(** ** The transcript manager *)

(** src/src/provider/transcript-manager.ts # hasUnclosedToolChain

    One message of the count. *)
Definition pending_after (pendingToolUses : nat) (m : ProviderMessage) : nat :=
  match pm_role m with
  | role_assistant => pendingToolUses + count_blocks "tool_use" m
  | role_user => pendingToolUses - count_blocks "tool_result" m
  | role_system => pendingToolUses
  end%nat.

(** src/src/provider/transcript-manager.ts # hasUnclosedToolChain *)
Definition hasUnclosedToolChain (messages : list ProviderMessage) : bool :=
  (0 <? fold_left pending_after messages 0)%nat.

(** src/src/provider/transcript-manager.ts # hasAdjacencyViolation *)
Fixpoint hasAdjacencyViolation (messages : list ProviderMessage) : bool :=
  match messages with
  | current :: ((next :: _) as rest) =>
      if is_assistant current && is_user next
         && (0 <? count_blocks "tool_use" current)%nat && (count_blocks "tool_result" next =? 0)%nat
      then true
      else hasAdjacencyViolation rest
  | _ => false
  end.

(** src/src/provider/transcript-manager.ts # countToolsInLastAssistantTurn *)
Definition countToolsInLastAssistantTurn (messages : list ProviderMessage) : nat :=
  match List.find is_assistant (rev messages) with
  | Some m => count_blocks "tool_use" m
  | None => 0%nat
  end.

(** src/src/provider/transcript-manager.ts # TranscriptStats @43-54 *)
Record TranscriptStats := mkStats {
  ts_messageCount : nat; ts_assistantMessages : nat; ts_userMessages : nat; ts_toolUseBlocks : nat;
  ts_toolResultBlocks : nat; ts_thinkingBlocks : nat; ts_textBlocks : nat; ts_totalChars : nat;
  ts_toolsInLastTurn : nat }.

(** src/src/provider/transcript-manager.ts # MAX_TOOLS_PER_TURN @59-59 *)
Definition MAX_TOOLS_PER_TURN : nat := 128.

Definition str_chars (v : jsval) : nat := match v with JStr s => String.length s | _ => 0%nat end.

(** src/src/provider/transcript-manager.ts # computeStats @113-175 *)
Definition computeStats (messages : list ProviderMessage) : TranscriptStats :=
  let count t := sum_list (map (count_blocks t) messages) in
  mkStats (length messages) (count_where is_assistant messages) (count_where is_user messages)
    (count "tool_use") (count "tool_result")
    (count "thinking" + count "thinking_blocks")%nat (count "text" + count "text_delta")%nat
    (sum_list (map (fun m => match pm_content m with
                             | ct_text s => String.length s
                             | ct_blocks bs => sum_list (map (fun b => match b with
                                                                       | JObj _ => str_chars (field "text" b)
                                                                       | _ => 0%nat
                                                                       end) bs)
                             end) messages))
    (countToolsInLastAssistantTurn messages).

(** src/src/provider/transcript-manager.ts # TranscriptValidation @29-41 *)
Record TranscriptValidation := mkTranscriptValidation {
  tv_valid : bool; tv_reason : option string; tv_toolUseCount : nat; tv_toolResultCount : nat;
  tv_unclosedChain : bool; tv_adjacencyViolation : bool }.

(** src/src/provider/transcript-manager.ts # validateTranscript @86-108 *)
Definition validateTranscript (messages : list ProviderMessage) : TranscriptValidation :=
  let stats := computeStats messages in
  let unclosedChain := hasUnclosedToolChain messages in
  let adjacencyViolation := hasAdjacencyViolation messages in
  let issues :=
    (if unclosedChain then ["unclosed tool_use chain detected"] else [])
    ++ (if adjacencyViolation then ["tool_use not immediately followed by tool_result"] else [])
    ++ (if (MAX_TOOLS_PER_TURN <? ts_toolsInLastTurn stats)%nat
        then ["tool count " +:+ pretty (ts_toolsInLastTurn stats) +:+ " exceeds max " +:+ pretty MAX_TOOLS_PER_TURN]
        else []) in
  mkTranscriptValidation (match issues with [] => true | _ => false end)
    (match issues with [] => None | _ => Some (js_join "; " issues) end)
    (ts_toolUseBlocks stats) (ts_toolResultBlocks stats) unclosedChain adjacencyViolation.

(** src/src/provider/transcript-manager.ts # canEpochRollover @70-72 *)
Definition canEpochRollover (messages : list ProviderMessage) : bool := negb (hasUnclosedToolChain messages).

(** src/src/provider/transcript-manager.ts # checkToolLimit @180-183 *)
Definition checkToolLimit (messages : list ProviderMessage) : bool * nat * nat :=
  let count := countToolsInLastAssistantTurn messages in
  ((count <=? MAX_TOOLS_PER_TURN)%nat, count, MAX_TOOLS_PER_TURN).

(** ** Lengths *)

(** src/src/agent/context-epoch.ts # msgCharLen *)
Definition msgCharLen (m : ProviderMessage) : Z :=
  match pm_content m with
  | ct_text s => Z.of_nat (String.length s)
  | ct_blocks bs => Z.of_nat (String.length (default "" (json_stringify (JArr bs))))
  end.

(** src/src/agent/context-epoch.ts # totalMessageChars *)
Definition totalMessageChars (messages : list ProviderMessage) : Z := foldr Z.add 0 (map msgCharLen messages).

(** src/src/agent/kernel/round.ts # epochScopeChars *)
Definition epochScopeChars (contextMessages rawMessages : list ProviderMessage) : Z := totalMessageChars rawMessages.

(** ** Epoch thresholds *)

(** src/src/agent/context-epoch.ts # EpochThresholds @31-38 *)
Record EpochThresholds := mkThresholds { et_compressChars : Z; et_forceCompressChars : Z; et_rolloverChars : Z }.

(** src/src/agent/context-epoch.ts # EpochAction @238-238 *)
Inductive EpochAction := ep_none | ep_compress | ep_forceCompress | ep_rollover.
#[export] Instance EpochAction_eq : EqDecision EpochAction. Proof. solve_decision. Defined.

(** [Math.round]. *)
Definition js_round (q : Q) : Z := Qfloor (q + (1 # 2))%Q.

(** src/src/agent/context-epoch.ts # calibrateEpochThresholds *)
Definition calibrateEpochThresholds (thresholds : EpochThresholds) (charsPerToken : Q) : EpochThresholds :=
  let factor := if Qle_bool charsPerToken 0 then 1%Q else (charsPerToken / 3)%Q in
  let scale n := js_round (inject_Z n * factor) in
  mkThresholds (scale (et_compressChars thresholds)) (scale (et_forceCompressChars thresholds))
    (scale (et_rolloverChars thresholds)).

(** src/src/agent/context-epoch.ts # classifyEpochAction *)
Definition classifyEpochAction (totalChars : Z) (thresholds : EpochThresholds) (charsPerToken : Q) : EpochAction :=
  let effective := calibrateEpochThresholds thresholds charsPerToken in
  if et_rolloverChars effective <=? totalChars then ep_rollover
  else if et_forceCompressChars effective <=? totalChars then ep_forceCompress
  else if et_compressChars effective <=? totalChars then ep_compress
  else ep_none.

(** src/src/agent/context-epoch.ts # EpochSnapshot @66-79 *)
Record EpochSnapshot := mkSnapshot {
  sn_index : Z; sn_startRound : Z; sn_endRound : Z; sn_messageCountBefore : Z; sn_messageCountAfter : Z;
  sn_charsArchived : Z; sn_planStateDigest : string; sn_archiveRef : option string; sn_createdAt : Z }.

(** src/src/agent/context-epoch.ts # EpochState @81-92 *)
Record EpochState := mkEpochState {
  es_thresholds : EpochThresholds; es_currentEpochIndex : Z; es_epochStartRound : Z; es_rolloverCount : Z;
  es_snapshots : list EpochSnapshot; es_totalCharsTrimmed : Z; es_lastMeasuredCharsPerToken : option Q }.

(** src/src/agent/context-epoch.ts # createEpochState *)
Definition createEpochState (thresholds : EpochThresholds) : EpochState :=
  mkEpochState thresholds 0 0 0 [] 0 None.

(** src/src/agent/context-epoch.ts # RolloverResult @274-287 *)
Record RolloverResult := mkRollover {
  ro_messages : list ProviderMessage; ro_archivedCount : Z; ro_archivedMessages : list ProviderMessage;
  ro_charsTrimmed : Z; ro_snapshot : EpochSnapshot }.

(** ** Rollover *)

(** src/src/agent/context-epoch.ts # isToolResultMessage *)
Definition isToolResultMessage (m : ProviderMessage) : bool :=
  match pm_content m with ct_text _ => false | ct_blocks bs => existsb (is_block "tool_result") bs end.

(** src/src/agent/context-epoch.ts # findSafeRolloverBoundary

    [i] is the index of the first message, [boundary] the last one found. *)
Fixpoint boundary_from (messages : list ProviderMessage) (i : nat) (pendingToolUses : nat) (boundary : option nat) : option nat :=
  match messages with
  | [] => boundary
  | m :: rest =>
      boundary_from rest (S i) (pending_after pendingToolUses m)
        (if (pendingToolUses =? 0)%nat && is_user m && negb (isToolResultMessage m) then Some i else boundary)
  end.

(** src/src/agent/context-epoch.ts # findSafeRolloverBoundary *)
Definition findSafeRolloverBoundary (messages : list ProviderMessage) : option nat := boundary_from messages 0 0 None.

(** src/src/agent/context-epoch.ts # epochRollover @342-352

    Walking backwards: the index of the [keepRecent]-th assistant message from
    the end, if there are that many; with [keepRecent] at most 0 the walk stops
    at the last message. *)
Fixpoint nth_assistant_back (back : list ProviderMessage) (assistantCount keepRecent : Z) : option nat :=
  match back with
  | [] => None
  | m :: earlier =>
      let assistantCount := if is_assistant m then assistantCount + 1 else assistantCount in
      if keepRecent <=? assistantCount then Some (length earlier)
      else nth_assistant_back earlier assistantCount keepRecent
  end.

(** src/src/agent/context-epoch.ts # epochRollover @339-361 *)
Definition normal_cut (messages : list ProviderMessage) (keepRecent : Z) : nat :=
  let cutIndex := default (length messages) (nth_assistant_back (rev messages) 0 keepRecent) in
  if (length messages - cutIndex <? 2)%nat then (length messages - 2)%nat else cutIndex.

Definition newline : string := String "010"%char "".
Definition unclosed_reason : string :=
  "Cannot roll over: unclosed tool-use chain detected. Retry after tool results arrive.".
Definition inside_reason : string :=
  "Cannot roll over in fallback mode: the entire history is inside an unclosed tool chain.".
Definition fallback_note : string :=
  "Rollover executed in FALLBACK mode (unclosed tool chain): archived up to the last safe boundary; the pending tool chain is retained in the volatile tail.".

(** src/src/agent/context-epoch.ts # epochRollover @366-379 *)
Definition preamble_of (planStateContext : string) (index : Z) (archived : list ProviderMessage) (fallbackNote : option string) : ProviderMessage :=
  mkMessage role_user (ct_text (js_join newline
    ([ planStateContext; ""; "## Epoch Rollover";
       "Epoch " +:+ pretty index +:+ " archived. " +:+ pretty (Z.of_nat (length archived)) +:+ " messages ("
         +:+ pretty (totalMessageChars archived) +:+ " chars) moved to archive.";
       "Continue from the plan state above. The volatile context has been reset, but all plan state, decisions, and obligations are preserved.";
       ""; "Do NOT re-execute completed steps — check the Plan State for current progress."]
     ++ match fallbackNote with Some n => [n] | None => [] end))).

Section Epoch.
(** [createHash("sha256")] in hex, and the clock. *)
Context (sha256 : string -> string) (now : Z).

(** src/src/agent/context-epoch.ts # epochRollover @363-408 *)
Definition roll_at (messages : list ProviderMessage) (cutIndex : nat) (planStateContext : string) (state : EpochState)
    (round : Z) (fallbackNote : option string) : RolloverResult :=
  let archivedMessages := take cutIndex messages in
  let retainedMessages := drop cutIndex messages in
  let preamble := preamble_of planStateContext (es_currentEpochIndex state) archivedMessages fallbackNote in
  let charsTrimmed := Z.max 0 (totalMessageChars messages - totalMessageChars retainedMessages - msgCharLen preamble) in
  mkRollover (preamble :: retainedMessages) (Z.of_nat (length archivedMessages)) archivedMessages charsTrimmed
    (mkSnapshot (es_currentEpochIndex state) (es_epochStartRound state) round (Z.of_nat (length messages))
       (Z.of_nat (length retainedMessages) + 1) charsTrimmed (sha256 planStateContext) None now).

(** src/src/agent/context-epoch.ts # epochRollover *)
Definition epochRollover (messages : list ProviderMessage) (keepRecent : Z) (planStateContext : string)
    (state : EpochState) (round : Z) (fallback : bool) : string + RolloverResult :=
  let unclosedChain := hasUnclosedToolChain messages in
  if unclosedChain && negb fallback then inl unclosed_reason
  else if unclosedChain then
    match findSafeRolloverBoundary messages with
    | None => inl inside_reason
    | Some boundary => inr (roll_at messages boundary planStateContext state round (Some fallback_note))
    end
  else inr (roll_at messages (normal_cut messages keepRecent) planStateContext state round None).

Definition role_name (r : Role) : string :=
  match r with role_user => "user" | role_assistant => "assistant" | role_system => "system" end.
Definition message_json (m : ProviderMessage) : jsval :=
  JObj [("role", JStr (role_name (pm_role m)));
        ("content", match pm_content m with ct_text s => JStr s | ct_blocks bs => JArr bs end)].
(** [JSON.stringify(messages)]. *)
Definition messages_text (messages : list ProviderMessage) : string :=
  default "" (json_stringify (JArr (map message_json messages))).

(** src/src/agent/context-epoch.ts # archiveContentHash *)
Definition archiveContentHash (archivedMessages : list ProviderMessage) : string := sha256 (messages_text archivedMessages).

(** The artifact store: [None] for an absent one; [storeContent] gives [None]
    when it throws. *)
Context (artifactStore : option (string -> option string)).

(** src/src/agent/context-epoch.ts # persistEpochArchive *)
Definition persistEpochArchive (archivedMessages : list ProviderMessage) : string * bool :=
  let fallbackHash := archiveContentHash archivedMessages in
  match artifactStore with
  | None => (fallbackHash, false)
  | Some storeContent =>
      match storeContent (messages_text archivedMessages) with
      | None | Some "" => (fallbackHash, false)
      | Some ref => (ref, true)
      end
  end.

Definition with_archiveRef (ref : string) (s : EpochSnapshot) : EpochSnapshot :=
  mkSnapshot (sn_index s) (sn_startRound s) (sn_endRound s) (sn_messageCountBefore s) (sn_messageCountAfter s)
    (sn_charsArchived s) (sn_planStateDigest s) (Some ref) (sn_createdAt s).

(** src/src/agent/kernel/round.ts # applyRollover *)
Definition applyRollover (result : RolloverResult) (round : Z) (st : EpochState) : list ProviderMessage * EpochState :=
  let '(ref, _) := persistEpochArchive (ro_archivedMessages result) in
  (ro_messages result,
   mkEpochState (es_thresholds st) (es_currentEpochIndex st + 1) round (es_rolloverCount st + 1)
     (es_snapshots st ++ [with_archiveRef ref (ro_snapshot result)])
     (es_totalCharsTrimmed st + ro_charsTrimmed result) (es_lastMeasuredCharsPerToken st)).

(** src/src/agent/kernel/round.ts # runRound @261-284 *)
Definition rollover_phase (planStateForRollover : string) (round : Z) (rawMessages : list ProviderMessage) (st : EpochState)
    : list ProviderMessage * EpochState :=
  match epochRollover rawMessages 3 planStateForRollover st round false with
  | inr result => applyRollover result round st
  | inl _ =>
      let shouldFallback := (0 <? es_rolloverCount st) || (4 <=? round - es_epochStartRound st) in
      if shouldFallback then
        match epochRollover rawMessages 3 planStateForRollover st round true with
        | inr result => applyRollover result round st
        | inl _ => (rawMessages, st)
        end
      else (rawMessages, st)
  end.
End Epoch.

(** ** Compaction of tool results *)

Section Compaction.
(** The thresholds read from the environment ([0], [3000] and [5000] unless it
    sets them). *)
Context (MC_READFILE_CHARS MC_SHELL_CHARS MC_WEBFETCH_CHARS : Z).

(** src/src/agent/round/post-loop.ts # mcThreshold

    [None] is [Infinity]. *)
Definition mcThreshold (toolName : string) : option Z :=
  if toolName === "read_file" then Some MC_READFILE_CHARS
  else if toolName === "shell" then Some MC_SHELL_CHARS
  else if toolName === "web_fetch" then Some MC_WEBFETCH_CHARS
  else None.

(** [threshold <= 0 || length <= threshold] fails. *)
Definition over_threshold (toolName : string) (length : Z) : bool :=
  match mcThreshold toolName with
  | Some threshold => negb ((threshold <=? 0) || (length <=? threshold))
  | None => false
  end.

(** src/src/agent/round/post-loop.ts # ERROR_LINE_RE @156-156

    Every alternative is a text to look for, whatever the case of its letters;
    [fail] covers its two longer forms. *)
Definition ERROR_TEXTS : list string :=
  ["error"; "fail"; "traceback"; "fatal"; "exception";
   "✗"; "exit code"; "timed out"; "cannot"; "undefined is not"; "panic"].
Definition error_line (t : string) : bool := existsb (fun e => str_includes e (lower t)) ERROR_TEXTS.

(** src/src/agent/round/post-loop.ts # extractErrorLines @163-171

    [seen] and [picked] hold the same lines. *)
Fixpoint pick_lines (lines picked : list string) (maxLines : nat) : list string :=
  match lines with
  | [] => picked
  | line :: rest =>
      let t := trim line in
      let n := String.length t in
      if (n <? 5)%nat || (400 <? n)%nat || negb (error_line t) || includes picked t then pick_lines rest picked maxLines
      else
        let picked := picked ++ [t] in
        if (maxLines <=? length picked)%nat then picked else pick_lines rest picked maxLines
  end.

(** src/src/agent/round/post-loop.ts # extractErrorLines *)
Definition extractErrorLines (content : string) : list string := pick_lines (split_on "010"%char content) [] 3.

(** The heading of the clue lines, in UTF-8. *)
Definition clue_heading : string := "[错误线索]".

(** src/src/agent/round/post-loop.ts # microcompactToolResults @227-229 *)
Definition error_block (content : string) : string :=
  match extractErrorLines content with
  | [] => ""
  | errorLines => newline +:+ newline +:+ clue_heading +:+ newline +:+ js_join newline (map (fun l => "> " +:+ l) errorLines)
  end.

Definition set_field (k : string) (v : jsval) (b : jsval) : jsval :=
  match b with JObj fs => JObj (jset k v fs) | _ => b end.

(** src/src/agent/run/types.ts # RoundToolCall @114-118 *)
Record ToolCall := mkCall { tc_id : string; tc_name : string; tc_input : jsval }.

(** [new Map(completedCalls.map(tc => [tc.id, tc]))], then [get]. *)
Definition call_named (completedCalls : list ToolCall) (id : string) : option ToolCall :=
  List.find (fun tc => tc_id tc === id) (rev completedCalls).

(** [r.is_error === true]. *)
Definition is_error (b : jsval) : bool := match field "is_error" b with JBool true => true | _ => false end.

(** The text a pass may trim: the content of a successful result. *)
Definition result_text (b : jsval) : option string :=
  match is_block "tool_result" b, field "content" b with true, JStr s => Some s | _, _ => None end.

(** src/src/agent/round/post-loop.ts # microcompactToolResults @209-212 *)
Definition path_or_command (tc : ToolCall) : string :=
  if tc_name tc === "read_file" then text_field "path" (tc_input tc)
  else if tc_name tc === "shell" then String.substring 0 80 (text_field "command" (tc_input tc))
  else if tc_name tc === "web_fetch" then text_field "url" (tc_input tc)
  else "".

(** src/src/agent/round/post-loop.ts # microcompactToolResults @202-208

    The call whose result is to be compacted, with the full text. *)
Definition compactable (completedCalls : list ToolCall) (r : jsval) : option (ToolCall * string) :=
  content ← result_text r;
  if (String.length content <? 100)%nat then None
  else
    tc ← call_named completedCalls (text_field "tool_use_id" r);
    if is_error r then None
    else if over_threshold (tc_name tc) (Z.of_nat (String.length content)) then Some (tc, content)
    else None.

(** src/src/agent/round/post-loop.ts # microcompactToolResults @201-234 *)
Definition microcompact_one (completedCalls : list ToolCall) (persist : string -> string -> option string) (r : jsval) : jsval * bool :=
  match compactable completedCalls r with
  | None => (r, false)
  | Some (tc, fullContent) =>
      let pathOrCmd := path_or_command tc in
      let artifactNote := match persist fullContent (text_field "tool_use_id" r) with
                          | None | Some "" => ""
                          | Some contentRef => " [Artifact: " +:+ contentRef +:+ "]"
                          end in
      let placeholder := "[Microcompact: " +:+ tc_name tc +:+ " " +:+ pathOrCmd +:+ " — "
                         +:+ pretty (Z.of_nat (String.length fullContent)) +:+ " chars trimmed" +:+ artifactNote
                         +:+ ". Re-execute " +:+ tc_name tc +:+ "(" +:+ json_quote pathOrCmd
                         +:+ ") to retrieve full content.]" in
      (set_field "content" (JStr (String.substring 0 300 fullContent +:+ error_block fullContent
                                  +:+ newline +:+ newline +:+ placeholder)) r, true)
  end.

(** src/src/agent/round/post-loop.ts # microcompactToolResults *)
Definition microcompactToolResults (results : list jsval) (completedCalls : list ToolCall) (persist : string -> string -> option string)
    : nat * list jsval :=
  let out := map (microcompact_one completedCalls persist) results in
  (count_where snd out, out.*1).

(** src/src/agent/maintenance/coordinator.ts # runForwardMicrocompact @244-259

    The references of the results persisted before the pass. *)
Definition persisted (artifactStore : option (string -> option string)) (results : list jsval) (completedCalls : list ToolCall)
    : list (string * string) :=
  match artifactStore with
  | None => []
  | Some storeContent =>
      fold_left (fun refs r =>
        match compactable completedCalls r with
        | Some (_, content) =>
            match storeContent content with Some ref => jset (text_field "tool_use_id" r) ref refs | None => refs end
        | None => refs
        end) results []
  end.

(** src/src/agent/maintenance/coordinator.ts # runForwardMicrocompact

    [contextBudgetPercent] is compared with 35 by the caller of this model:
    [crowded] says it is reached. *)
Definition runForwardMicrocompact (artifactStore : option (string -> option string)) (crowded : bool) (epochAction : EpochAction)
    (rawMessages : list ProviderMessage) (results : list jsval) (completedCalls : list ToolCall) : nat * list jsval :=
  let should := crowded || (40 <=? length rawMessages)%nat || negb (epochAction === ep_none) in
  if should then
    let refByToolUseId := persisted artifactStore results completedCalls in
    microcompactToolResults results completedCalls (fun _ toolUseId => jget toolUseId refByToolUseId)
  else (0%nat, results).

(** src/src/agent/round/post-loop.ts # compactHistoricalToolResults @254-263 *)
Definition toolNameById (messages : list ProviderMessage) : list (string * string) :=
  fold_left (fun names block =>
      if is_block "tool_use" block then
        let id := text_field "id" block in
        let name := text_field "name" block in
        if (id === "") || (name === "") then names else jset id name names
      else names)
    (messages ≫= fun msg => if is_assistant msg then blocks msg else []) [].

Definition historical_note (block : jsval) : string :=
  newline +:+ newline +:+ "[Microcompact: historical " +:+ String.substring 0 8 (text_field "tool_use_id" block)
  +:+ "… — content trimmed. Re-execute the original tool call to retrieve.]".

(** src/src/agent/round/post-loop.ts # compactHistoricalToolResults @279-296 *)
Definition compact_block (names : list (string * string)) (block : jsval) : jsval * bool :=
  match result_text block with
  | None => (block, false)
  | Some content =>
      if str_includes "[Microcompact:" content || is_error block || (String.length content <? 400)%nat then (block, false)
      else
        match jget (text_field "tool_use_id" block) names with
        | None => (block, false)
        | Some toolName =>
            if over_threshold toolName (Z.of_nat (String.length content)) then
              (set_field "content" (JStr (String.substring 0 300 content +:+ error_block content +:+ historical_note block)) block, true)
            else (block, false)
        end
  end.

(** src/src/agent/round/post-loop.ts # compactHistoricalToolResults @270-298

    [currentAssistantIndex] counts the assistant messages passed (one more than
    the code's index). *)
Fixpoint compact_from (names : list (string * string)) (compactBeforeRound : Z) (passed : Z) (messages : list ProviderMessage)
    : nat * list ProviderMessage :=
  match messages with
  | [] => (0%nat, [])
  | msg :: rest =>
      let passed := if is_assistant msg then passed + 1 else passed in
      let '(n, rest) := compact_from names compactBeforeRound passed rest in
      match pm_role msg, pm_content msg with
      | role_user, ct_blocks bs =>
          if (passed <=? 0) || (compactBeforeRound <? passed) then (n, msg :: rest)
          else
            let out := map (compact_block names) bs in
            ((count_where snd out + n)%nat, mkMessage role_user (ct_blocks out.*1) :: rest)
      | _, _ => (n, msg :: rest)
      end
  end.

(** src/src/agent/round/post-loop.ts # compactHistoricalToolResults *)
Definition compactHistoricalToolResults (messages : list ProviderMessage) (keepRecentRounds : Z) : nat * list ProviderMessage :=
  let totalAssistants := Z.of_nat (count_where is_assistant messages) in
  let compactBeforeRound := totalAssistants - keepRecentRounds in
  if compactBeforeRound <=? 0 then (0%nat, messages)
  else compact_from (toolNameById messages) compactBeforeRound 0 messages.
End Compaction.

(** ** What a round adds *)

(** src/src/agent/maintenance/coordinator.ts # appendUserContext *)
Definition text_block (s : string) : jsval := JObj [("type", JStr "text"); ("text", JStr s)].
Definition appendUserContext (rawMessages : list ProviderMessage) (content : string) : list ProviderMessage :=
  match rev rawMessages with
  | last :: earlier =>
      match pm_role last, pm_content last with
      | role_user, ct_blocks bs => rev earlier ++ [mkMessage role_user (ct_blocks (bs ++ [text_block content]))]
      | role_user, ct_text s => rev earlier ++ [mkMessage role_user (ct_text (s +:+ newline +:+ newline +:+ content))]
      | _, _ => rawMessages ++ [mkMessage role_user (ct_text content)]
      end
  | [] => [mkMessage role_user (ct_text content)]
  end.

(** src/src/agent/run/types.ts # RoundState *)
Record RoundOutput := mkOutput {
  ou_thinking : list (string * string);     (* thinking, signature *)
  ou_finalText : string;
  ou_toolCalls : list ToolCall;
  ou_toolResults : list jsval;              (* what the batch pushed *)
  ou_deferred : list string;                (* deferredGateMessages *)
  ou_evidencePrompt : option string;        (* what the narrow-edit gate asks for *)
  ou_typecheck : option string;             (* diagnostics of the post-round typecheck *)
  ou_learnPrompts : list string;
  ou_requiredFilesPrompt : option string }.

(** src/src/agent/kernel/round.ts # runRound @789-795 *)
Definition assistant_content (o : RoundOutput) : list jsval :=
  map (fun tb => JObj [("type", JStr "thinking"); ("thinking", JStr tb.1); ("signature", JStr tb.2)]) (ou_thinking o)
  ++ (if ou_finalText o === "" then [] else [text_block (ou_finalText o)])
  ++ map (fun tc => JObj [("type", JStr "tool_use"); ("id", JStr (tc_id tc)); ("name", JStr (tc_name tc)); ("input", tc_input tc)])
       (ou_toolCalls o).

(** [lastResult.content = String(lastResult.content) + suffix]: the last entry,
    if there is one. *)
Fixpoint extend_last (suffix : string) (results : list jsval) : list jsval :=
  match results with
  | [] => []
  | [r] => [set_field "content" (JStr (to_string (field "content" r) +:+ suffix)) r]
  | r :: rest => r :: extend_last suffix rest
  end.

Definition answers (id : string) (r : jsval) : bool :=
  is_block "tool_result" r && match field "tool_use_id" r with JStr i => i === id | _ => false end.

(** src/src/agent/kernel/round.ts # runRound @1062-1067 *)
Definition safety_net (calls : list ToolCall) (results : list jsval) : list jsval :=
  fold_left (fun results tc =>
    if existsb (answers (tc_id tc)) results then results
    else results ++ [JObj [("type", JStr "tool_result"); ("tool_use_id", JStr (tc_id tc));
                           ("content", JStr "(skipped)"); ("is_error", JBool true)]]) calls results.

(** The heading of the learned prompts, in UTF-8. *)
Definition learn_heading : string := "## 自我学习建议".

(** The heading of the diagnostics of the post-round typecheck, in UTF-8. *)
Definition typecheck_heading : string := "[post-round typecheck — fix in next round]".

(** src/src/agent/kernel/round.ts # runRound @1036-1067

    [results]: what is left of the batch's results after the forward pass. *)
Definition results_content (o : RoundOutput) (results : list jsval) : list jsval :=
  let results := match ou_typecheck o with
                 | None | Some "" => results
                 | Some diagLines => extend_last (newline +:+ newline +:+ typecheck_heading +:+ newline +:+ diagLines) results
                 end in
  let results := fold_left (fun rs msg => text_block (msg +:+ newline) :: rs) (ou_deferred o) results in
  let results := match ou_learnPrompts o with
                 | [] => results
                 | prompts => extend_last (newline +:+ learn_heading +:+ newline +:+ newline +:+ js_join newline prompts) results
                 end in
  let results := match ou_requiredFilesPrompt o with
                 | None | Some "" => results
                 | Some p => extend_last (newline +:+ p) results
                 end in
  safety_net (ou_toolCalls o) results.

(** ** The conversation of a run *)

Section Run.
Context (MC_READFILE_CHARS MC_SHELL_CHARS MC_WEBFETCH_CHARS : Z) (sha256 : string -> string)
  (artifactStore : option (string -> option string)).
#[local] Abbreviation historical :=
  (compactHistoricalToolResults MC_READFILE_CHARS MC_SHELL_CHARS MC_WEBFETCH_CHARS).
#[local] Abbreviation forward :=
  (runForwardMicrocompact MC_READFILE_CHARS MC_SHELL_CHARS MC_WEBFETCH_CHARS artifactStore).

(** src/src/agent/kernel/types.ts # RunPhaseContext

    The part of it the conversation depends on. *)
Record Conversation := mkConversation {
  cv_rawMessages : list ProviderMessage; cv_epochState : EpochState; cv_microcompactCount : Z }.

(** src/src/agent/kernel/round.ts # runRound @235-243 *)
Definition epoch_action (cv : Conversation) : EpochAction :=
  let st := cv_epochState cv in
  classifyEpochAction (epochScopeChars [] (cv_rawMessages cv)) (es_thresholds st)
    (default (3 # 1)%Q (es_lastMeasuredCharsPerToken st)).

(** src/src/agent/kernel/round.ts # runRound @244-303

    The epoch phase at the start of a round: the action, a rollover, the
    compaction that every action brings. *)
Definition epoch_phase (planStateForRollover : string) (round now : Z) (cv : Conversation) : EpochAction * Conversation :=
  let st := cv_epochState cv in
  let epochAction := epoch_action cv in
  let '(rawMessages, st) :=
    if epochAction === ep_rollover then rollover_phase sha256 now artifactStore planStateForRollover round (cv_rawMessages cv) st
    else (cv_rawMessages cv, st) in
  if epochAction === ep_none then (epochAction, mkConversation rawMessages st (cv_microcompactCount cv))
  else
    let '(compacted, rawMessages) := historical rawMessages 8 in
    (epochAction, mkConversation rawMessages st (cv_microcompactCount cv + Z.of_nat compacted)).

(** src/src/agent/maintenance/coordinator.ts # runHistoricalMicrocompact *)
Definition runHistoricalMicrocompact (round : Z) (epochAction : EpochAction) (cv : Conversation) : Conversation :=
  if ((15 <=? round) && (round mod 10 =? 0)) || (epochAction === ep_forceCompress) || (epochAction === ep_rollover) then
    let '(histCompacted, rawMessages) := historical (cv_rawMessages cv) 8 in
    mkConversation rawMessages (cv_epochState cv) (cv_microcompactCount cv + Z.of_nat histCompacted)
  else cv.

Definition push (m : ProviderMessage) (cv : Conversation) : Conversation :=
  mkConversation (cv_rawMessages cv ++ [m]) (cv_epochState cv) (cv_microcompactCount cv).

(** src/src/agent/kernel/round.ts # runRound @789-795

    The assistant's message, unless it is empty; the prompt of the narrow-edit
    gate, pushed by the ripple phase ([verification/coordinator.ts]) while the
    results are being prepared; the results, compacted forward, completed and
    pushed; the retrospective pass. *)
Definition push_round (o : RoundOutput) (crowded : bool) (epochAction : EpochAction) (round : Z) (cv : Conversation) : Conversation :=
  let content := assistant_content o in
  let cv := match content with [] => cv | _ => push (mkMessage role_assistant (ct_blocks content)) cv end in
  let '(compacted, results) := forward crowded epochAction (cv_rawMessages cv) (ou_toolResults o) (ou_toolCalls o) in
  let cv := mkConversation (cv_rawMessages cv) (cv_epochState cv) (cv_microcompactCount cv + Z.of_nat compacted) in
  let cv := match ou_evidencePrompt o with
            | None | Some "" => cv
            | Some prompt => push (mkMessage role_user (ct_text prompt)) cv
            end in
  runHistoricalMicrocompact round epochAction
    (push (mkMessage role_user (ct_blocks (results_content o results))) cv).

(** What happens to a conversation: the epoch phase, a round with its output,
    a prompt of a gate (a user or system message, or the assistant's own words
    quoted back), a text joined to the last user message. *)
Inductive Event :=
| ev_epoch (planState : string) (round now : Z)
| ev_round (o : RoundOutput) (crowded : bool) (epochAction : EpochAction) (round : Z)
| ev_message (role : Role) (text : string)
| ev_context (text : string).

Definition step (cv : Conversation) (e : Event) : Conversation :=
  match e with
  | ev_epoch planState round now => (epoch_phase planState round now cv).2
  | ev_round o crowded epochAction round => push_round o crowded epochAction round cv
  | ev_message role text => push (mkMessage role (ct_text text)) cv
  | ev_context text =>
      mkConversation (appendUserContext (cv_rawMessages cv) text) (cv_epochState cv) (cv_microcompactCount cv)
  end.
End Run.

(** ** Tool chains *)

(** The ids of the calls a message makes, and of the results it carries. *)
Definition call_ids (bs : list jsval) : list string := text_field "id" <$> filter (fun b => is_block "tool_use" b = true) bs.
Definition res_ids (bs : list jsval) : list string := text_field "tool_use_id" <$> filter (fun b => is_block "tool_result" b = true) bs.
Definition use_ids (m : ProviderMessage) : list string :=
  if is_assistant m then call_ids (blocks m) else [].
Definition result_ids (m : ProviderMessage) : list string :=
  if is_user m then res_ids (blocks m) else [].

(** Every message carries results for exactly the calls of the message before
    it, [open] being those of the message before the first. *)
Fixpoint paired (open : list string) (ms : list ProviderMessage) : Prop :=
  match ms with
  | [] => True
  | m :: rest => (forall i, i ∈ open <-> i ∈ result_ids m) /\ NoDup (use_ids m) /\ paired (use_ids m) rest
  end.

(** The calls the last message leaves unanswered. *)
Definition pending (open : list string) (ms : list ProviderMessage) : list string := default open (use_ids <$> last ms).

(** What a provider accepts: the calls of every message are answered by the
    next one, and nothing else is. *)
Definition answered (ms : list ProviderMessage) : Prop := paired [] ms /\ pending [] ms = [].

Lemma pending_cons open m ms : pending open (m :: ms) = pending (use_ids m) ms.
Proof. unfold pending. rewrite last_cons. by destruct (last ms). Qed.
Lemma pending_app open a b : pending open (a ++ b) = pending (pending open a) b.
Proof. unfold pending. rewrite last_app. by destruct (last b). Qed.
Lemma paired_app open a : forall b, paired open (a ++ b) <-> paired open a /\ paired (pending open a) b.
Proof.
  revert open. induction a as [|m a IH]; intros open b; simpl; [tauto|].
  rewrite IH, pending_cons. tauto.
Qed.

Lemma same_none (open : list string) : (forall i, i ∈ open <-> i ∈ @nil string) -> open = [].
Proof. intros H. destruct open as [|i o]; [done|]. exfalso. apply (not_elem_of_nil i), H. left. Qed.

Lemma paired_at ms i m : paired [] ms -> ms !! i = Some m -> result_ids m = [] ->
  answered (take i ms) /\ paired [] (drop i ms) /\ pending [] (drop i ms) = pending [] ms.
Proof.
  intros Hp Hi Hnone. rewrite <- (take_drop_middle _ _ _ Hi) in Hp.
  apply paired_app in Hp as [Hl Hr]. pose proof Hr as [Hopen _].
  rewrite Hnone in Hopen. apply same_none in Hopen. rewrite Hopen in Hr.
  assert (drop i ms = m :: drop (S i) ms) as Hd by by apply drop_S.
  split; [done|]. split; [by rewrite Hd|].
  rewrite <- (take_drop i ms) at 2. by rewrite pending_app, Hopen.
Qed.

Lemma assistant_results m : is_assistant m = true -> result_ids m = [].
Proof. unfold result_ids, by_role. intros ->%same_true. done. Qed.
Lemma user_uses m : is_assistant m = false -> use_ids m = [].
Proof. unfold use_ids. by intros ->. Qed.

Lemma text_only_results m : isToolResultMessage m = false -> result_ids m = [].
Proof.
  unfold result_ids, isToolResultMessage, blocks, res_ids. destruct (is_user m); [|done].
  destruct (pm_content m) as [s|bs]; [done|]. intros H.
  enough (filter (fun b => is_block "tool_result" b = true) bs = []) as -> by done. apply filter_nil_iff.
  intros b Hb Hr. apply not_true_iff_false in H. apply H.
  apply existsb_exists. exists b. split; [by apply list_elem_of_In|done].
Qed.

(** *** Where a rollover cuts *)

Lemma nth_back_spec back : forall c k, c < k -> k <= c + Z.of_nat (count_where is_assistant back) ->
  exists i m, nth_assistant_back back c k = Some i /\ rev back !! i = Some m /\ is_assistant m = true /\
    k - c <= Z.of_nat (length back) - Z.of_nat i.
Proof.
  induction back as [|m earlier IH]; intros c k Hc Hk; [unfold count_where in Hk; simpl in Hk; lia|].
  rewrite count_where_cons in Hk. simpl.
  assert (length (rev earlier) = length earlier) as Hlen by apply length_rev.
  destruct (is_assistant m) eqn:Hm.
  - destruct (Z.leb_spec k (c + 1)) as [Hle|Hgt].
    + exists (length earlier), m. split; [done|]. split; [|split; [done|lia]].
      rewrite lookup_app_r by lia. by rewrite Hlen, Nat.sub_diag.
    + destruct (IH (c + 1) k) as (i & m' & Hn & Hl & Ha & Hd); [lia|lia|].
      exists i, m'. split; [done|]. split; [|split; [done|lia]]. by apply lookup_app_l_Some.
  - destruct (Z.leb_spec k c) as [Hle|Hgt]; [lia|].
    destruct (IH c k) as (i & m' & Hn & Hl & Ha & Hd); [lia|lia|].
    exists i, m'. split; [done|]. split; [|split; [done|lia]]. by apply lookup_app_l_Some.
Qed.

Lemma count_where_rev {A} (p : A -> bool) l : count_where p (rev l) = count_where p l.
Proof.
  induction l as [|x l IH]; [done|]. simpl. rewrite count_where_app, IH, !count_where_cons.
  unfold count_where at 2. simpl. lia.
Qed.

Lemma normal_cut_spec ms k : 2 <= k -> k <= Z.of_nat (count_where is_assistant ms) ->
  exists m, ms !! normal_cut ms k = Some m /\ is_assistant m = true.
Proof.
  intros Hk Hc. destruct (nth_back_spec (rev ms) 0 k) as (i & m & Hn & Hl & Ha & Hd);
    [lia|rewrite count_where_rev; lia|].
  rewrite rev_involutive in Hl. rewrite length_rev in Hd. exists m. split; [|done].
  unfold normal_cut. rewrite Hn. simpl. by destruct (Nat.ltb_spec (length ms - i) 2); [lia|].
Qed.

Lemma boundary_spec ms : forall i p b j, boundary_from ms i p b = Some j ->
  b = Some j \/ exists m, (i <= j)%nat /\ ms !! (j - i)%nat = Some m /\ isToolResultMessage m = false.
Proof.
  induction ms as [|m rest IH]; intros i p b j; simpl; [by left|].
  intros H. apply IH in H as [H|(m' & Hle & Hl & Hr)].
  - destruct ((p =? 0)%nat && is_user m && negb (isToolResultMessage m)) eqn:Hb; [|by left].
    right. injection H as <-. exists m. rewrite Nat.sub_diag. split; [lia|]. split; [done|].
    apply andb_true_iff in Hb as [_ Hb]. by apply negb_true_iff.
  - right. exists m'. split; [lia|]. split; [|done]. by replace (j - i)%nat with (S (j - S i)) by lia.
Qed.

(** The transcript can be rolled over in the normal way: its last three
    assistant messages leave a tail. *)
Definition long_enough (ms : list ProviderMessage) (keepRecent : Z) : Prop :=
  2 <= keepRecent <= Z.of_nat (count_where is_assistant ms).

Section Rollover.
Context (sha256 : string -> string) (now : Z).

(** What a rollover is: the messages before a cut are archived, a preamble
    stands for them, and no call is separated from its results. *)
Definition safe_cut (ms : list ProviderMessage) (r : RolloverResult) : Prop :=
  exists preamble tail, ro_messages r = preamble :: tail /\ ro_archivedMessages r ++ tail = ms /\
    result_ids preamble = [] /\ use_ids preamble = [] /\
    answered (ro_archivedMessages r) /\ paired [] tail /\ pending [] tail = pending [] ms.

Lemma roll_at_safe ms cut plan st round note m :
  paired [] ms -> ms !! cut = Some m -> result_ids m = [] -> safe_cut ms (roll_at sha256 now ms cut plan st round note).
Proof.
  intros Hp Hl Hn. destruct (paired_at ms cut m Hp Hl Hn) as (Ha & Ht & He).
  exists (preamble_of plan (es_currentEpochIndex st) (take cut ms) note), (drop cut ms). simpl.
  split; [done|]. split; [apply take_drop|]. done.
Qed.

Lemma safe_messages ms r : safe_cut ms r -> paired [] (ro_messages r) /\ pending [] (ro_messages r) = pending [] ms.
Proof.
  intros (p & tail & -> & _ & Hr & Hu & _ & Ht & He). rewrite pending_cons. simpl. rewrite Hr, Hu.
  split; [|done]. split; [done|]. split; [constructor|done].
Qed.

Lemma rollover_safe ms k plan st round fallback r :
  paired [] ms -> hasUnclosedToolChain ms = true \/ long_enough ms k ->
  epochRollover sha256 now ms k plan st round fallback = inr r -> safe_cut ms r.
Proof.
  intros Hp Hc. unfold epochRollover. destruct (hasUnclosedToolChain ms) eqn:Hu; simpl.
  - destruct fallback; simpl; [|done]. destruct (findSafeRolloverBoundary ms) as [b|] eqn:Hb; [|done].
    intros [= <-]. apply boundary_spec in Hb as [?|(m & _ & Hl & Hr)]; [done|].
    rewrite Nat.sub_0_r in Hl. by eapply roll_at_safe, text_only_results.
  - destruct Hc as [?|[? ?]]; [done|]. intros [= <-].
    destruct (normal_cut_spec ms k) as (m & Hl & Ha); [done|done|].
    by eapply roll_at_safe, assistant_results.
Qed.
End Rollover.

(** *** The two checks of the transcript manager on paired transcripts *)

Lemma count_ids t k (m : ProviderMessage) : count_blocks t m = length (text_field k <$> filter (fun b => is_block t b = true) (blocks m)).
Proof. by rewrite length_fmap. Qed.

Lemma covered_length (open results : list string) : NoDup open -> (forall i, i ∈ open <-> i ∈ results) ->
  (length open <= length results)%nat.
Proof. intros Hn H. apply submseteq_length, NoDup_submseteq; [done|]. intros i Hi. by apply H. Qed.

Lemma pending_count ms : forall open, NoDup open -> paired open ms ->
  fold_left pending_after ms (length open) = length (pending open ms).
Proof.
  induction ms as [|m rest IH]; intros open Hn Hp; [done|].
  destruct Hp as (Hopen & Hu & Hp). simpl. rewrite pending_cons, <- IH by done. f_equal.
  unfold pending_after, use_ids, by_role. pose proof Hopen as Hopen'. unfold result_ids, by_role in Hopen.
  destruct (pm_role m) eqn:Hr; simpl in *.
  - pose proof (covered_length _ _ Hn Hopen) as Hl. rewrite (count_ids "tool_result" "tool_use_id").
    unfold res_ids in Hl. lia.
  - apply same_none in Hopen. subst open. by rewrite (count_ids "tool_use" "id").
  - apply same_none in Hopen. by subst open.
Qed.

Lemma paired_closed ms : paired [] ms -> hasUnclosedToolChain ms = false <-> pending [] ms = [].
Proof.
  intros Hp. unfold hasUnclosedToolChain.
  pose proof (pending_count ms [] (NoDup_nil_2) Hp) as Hc. simpl in Hc. rewrite Hc.
  destruct (pending [] ms); simpl; split; done.
Qed.

Lemma paired_adjacent ms : forall open, paired open ms -> hasAdjacencyViolation ms = false.
Proof.
  induction ms as [|m rest IH]; intros open Hp; [done|]. destruct Hp as (_ & _ & Hp). simpl.
  destruct rest as [|m' rest]; [done|].
  destruct (_ && _) eqn:Hb; [|by eapply IH].
  exfalso. rewrite !andb_true_iff in Hb. destruct Hb as [[[Ha Hu] Hc] Hz].
  apply Nat.ltb_lt in Hc. apply Nat.eqb_eq in Hz. destruct Hp as [Hopen _].
  unfold use_ids in Hopen. rewrite Ha in Hopen. unfold result_ids in Hopen. rewrite Hu in Hopen.
  rewrite (count_ids "tool_use" "id") in Hc. rewrite (count_ids "tool_result" "tool_use_id") in Hz.
  unfold res_ids in Hopen. apply nil_length_inv in Hz. rewrite Hz in Hopen. apply same_none in Hopen.
  unfold call_ids in Hopen. rewrite Hopen in Hc. simpl in Hc. lia.
Qed.

(** *** Compaction keeps the chains *)

(** Two blocks that differ in their content at most. *)
Definition same_block (b b' : jsval) : Prop :=
  b' = b \/ exists v, b' = set_field "content" v b.

Lemma set_content_field k v b : k <> "content" -> field k (set_field "content" v b) = field k b.
Proof. destruct b; try done. intros Hk. simpl. by rewrite jget_jset_ne. Qed.

Lemma set_content_block t v b : is_block t (set_field "content" v b) = is_block t b.
Proof.
  destruct b as [| | | | | |fs]; try done. simpl. by rewrite jget_jset_ne.
Qed.

Lemma same_block_view b b' : same_block b b' ->
  (forall t, is_block t b' = is_block t b) /\ (forall k, k <> "content" -> field k b' = field k b).
Proof.
  intros [->|[v ->]]; [done|]. split; [intros t; apply set_content_block|]. intros k Hk. by apply set_content_field.
Qed.

Lemma same_blocks_ids t k bs bs' : k <> "content" -> Forall2 same_block bs bs' ->
  text_field k <$> filter (fun b => is_block t b = true) bs' = text_field k <$> filter (fun b => is_block t b = true) bs.
Proof.
  intros Hk. induction 1 as [|b b' bs bs' Hb _ IH]; [done|]. apply same_block_view in Hb as [Ht Hf].
  rewrite !filter_cons, Ht. destruct (decide _); [|done]. rewrite !fmap_cons, IH. f_equal. unfold text_field. by rewrite Hf.
Qed.

Definition alike (m m' : ProviderMessage) : Prop :=
  pm_role m' = pm_role m /\ use_ids m' = use_ids m /\ result_ids m' = result_ids m.

Lemma alike_blocks r bs bs' : Forall2 same_block bs bs' -> alike (mkMessage r (ct_blocks bs)) (mkMessage r (ct_blocks bs')).
Proof.
  intros H. unfold alike, use_ids, result_ids, call_ids, res_ids, by_role, blocks. simpl.
  by rewrite (same_blocks_ids "tool_use" "id" bs bs'), (same_blocks_ids "tool_result" "tool_use_id" bs bs').
Qed.

Lemma paired_alike ms ms' : Forall2 alike ms ms' -> forall open,
  (paired open ms -> paired open ms') /\ pending open ms' = pending open ms.
Proof.
  induction 1 as [|m m' ms ms' (_ & Hu & Hr) _ IH]; intros open; [done|].
  rewrite !pending_cons, Hu. destruct (IH (use_ids m)) as [Hp He]. split; [|done].
  simpl. rewrite Hr, Hu. intros (? & ? & ?). auto.
Qed.

Section Passes.
Context (MC_READFILE_CHARS MC_SHELL_CHARS MC_WEBFETCH_CHARS : Z).
#[local] Abbreviation historical := (compactHistoricalToolResults MC_READFILE_CHARS MC_SHELL_CHARS MC_WEBFETCH_CHARS).
#[local] Abbreviation block_pass := (compact_block MC_READFILE_CHARS MC_SHELL_CHARS MC_WEBFETCH_CHARS).

Lemma compact_block_same names b : same_block b (block_pass names b).1.
Proof.
  unfold compact_block. repeat case_match; simpl; solve [by left | right; eexists; reflexivity].
Qed.

Lemma compact_from_alike names k ms : forall passed,
  Forall2 alike ms (compact_from MC_READFILE_CHARS MC_SHELL_CHARS MC_WEBFETCH_CHARS names k passed ms).2.
Proof.
  induction ms as [|m ms IH]; intros passed; simpl; [constructor|].
  set (p := if is_assistant m then passed + 1 else passed). specialize (IH p).
  destruct (compact_from _ _ _ names k p ms) as [n rest]. simpl in IH.
  destruct m as [r c]. simpl.
  destruct r, c as [s|bs]; try (constructor; [done|done]).
  destruct (_ || _); constructor; try done. apply alike_blocks.
  rewrite <- list_fmap_compose. apply Forall2_fmap_r, Forall_Forall2_diag, Forall_forall.
  intros b _. apply compact_block_same.
Qed.

Lemma historical_alike ms k : Forall2 alike ms (historical ms k).2.
Proof.
  unfold compactHistoricalToolResults. destruct (_ <=? 0); [|apply compact_from_alike].
  by apply Forall_Forall2_diag, Forall_forall.
Qed.

Lemma historical_answered ms k : answered ms -> answered (historical ms k).2.
Proof.
  intros [Hp He]. destruct (paired_alike _ _ (historical_alike ms k) []) as [Ha Hb].
  split; [auto|by rewrite Hb].
Qed.

Lemma forward_same store crowded action raw results calls :
  Forall2 same_block results
    (runForwardMicrocompact MC_READFILE_CHARS MC_SHELL_CHARS MC_WEBFETCH_CHARS store crowded action raw results calls).2.
Proof.
  unfold runForwardMicrocompact. destruct (_ || _); simpl.
  - rewrite <- list_fmap_compose. apply Forall2_fmap_r, Forall_Forall2_diag, Forall_forall.
    intros b _. unfold microcompact_one. simpl. repeat case_match; simpl; solve [by left | right; eexists; reflexivity].
  - apply Forall_Forall2_diag, Forall_forall. intros b _. by left.
Qed.
End Passes.

(** *** A round answers its calls *)

(** The results of the batch answer calls of the round, whose ids differ, and
    the narrow-edit gate asks for nothing. *)
Definition batch_answers (o : RoundOutput) : Prop :=
  ou_evidencePrompt o = None /\ NoDup (tc_id <$> ou_toolCalls o) /\
  forall r, r ∈ ou_toolResults o -> exists tc, tc ∈ ou_toolCalls o /\ answers (tc_id tc) r = true.

Lemma call_ids_app a b : call_ids (a ++ b) = call_ids a ++ call_ids b.
Proof. unfold call_ids. by rewrite filter_app, fmap_app. Qed.
Lemma res_ids_app a b : res_ids (a ++ b) = res_ids a ++ res_ids b.
Proof. unfold res_ids. by rewrite filter_app, fmap_app. Qed.

Lemma assistant_calls o : call_ids (assistant_content o) = tc_id <$> ou_toolCalls o.
Proof.
  unfold assistant_content. rewrite !call_ids_app.
  assert (forall ts : list (string * string), call_ids (map (fun tb => JObj [("type", JStr "thinking");
    ("thinking", JStr tb.1); ("signature", JStr tb.2)]) ts) = []) as -> by (induction ts; done).
  assert (call_ids (if ou_finalText o === "" then [] else [text_block (ou_finalText o)]) = []) as ->
    by by destruct (_ === _).
  simpl. induction (ou_toolCalls o) as [|tc tcs IH]; [done|].
  exact (f_equal (cons (tc_id tc)) IH).
Qed.

Lemma answers_id id r : answers id r = true -> is_block "tool_result" r = true /\ text_field "tool_use_id" r = id.
Proof.
  unfold answers, text_field. destruct (field "tool_use_id" r); rewrite ?andb_false_r; try done.
  rewrite andb_true_iff. intros [? ->%same_true]. done.
Qed.

Lemma answers_same id r r' : same_block r r' -> answers id r = true -> answers id r' = true.
Proof. intros [Ht Hf]%same_block_view. unfold answers. by rewrite Ht, Hf. Qed.

Lemma res_ids_answering rs (calls : list ToolCall) :
  (forall r, r ∈ rs -> exists tc, tc ∈ calls /\ answers (tc_id tc) r = true) ->
  forall i, i ∈ res_ids rs -> i ∈ tc_id <$> calls.
Proof.
  intros H i (r & -> & [_ Hr]%list_elem_of_filter)%list_elem_of_fmap.
  destruct (H r Hr) as (tc & Htc & Ha). apply answers_id in Ha as [_ ->]. by apply list_elem_of_fmap_2.
Qed.

Lemma text_res_ids msgs : forall rs,
  res_ids (fold_left (fun rs msg => text_block (msg +:+ newline) :: rs) msgs rs) = res_ids rs.
Proof. induction msgs as [|m msgs IH]; intros rs; [done|]. simpl. by rewrite IH. Qed.

Lemma extend_last_same suffix rs : Forall2 same_block rs (extend_last suffix rs).
Proof.
  induction rs as [|r [|r' rs] IH]; [constructor| |].
  - constructor; [|constructor]. right. by eexists.
  - simpl. constructor; [by left|]. exact IH.
Qed.
Lemma extend_last_ids suffix rs : res_ids (extend_last suffix rs) = res_ids rs.
Proof. apply same_blocks_ids; [done|apply extend_last_same]. Qed.

Lemma existsb_answer id rs : existsb (answers id) rs = true -> id ∈ res_ids rs.
Proof.
  intros (r & Hr & Ha)%existsb_exists. apply list_elem_of_In in Hr. apply answers_id in Ha as [Hb <-].
  apply list_elem_of_fmap_2, list_elem_of_filter. done.
Qed.

Lemma safety_net_ids calls : forall rs,
  forall i, i ∈ res_ids (safety_net calls rs) <-> i ∈ res_ids rs \/ i ∈ tc_id <$> calls.
Proof.
  unfold safety_net. induction calls as [|tc calls IH]; intros rs i; simpl.
  - rewrite elem_of_nil. tauto.
  - rewrite IH, elem_of_cons. destruct (existsb (answers (tc_id tc)) rs) eqn:He.
    + apply existsb_answer in He. split; [tauto|]. intros [?|[->|?]]; tauto.
    + rewrite res_ids_app, elem_of_app. unfold res_ids at 2. simpl. rewrite list_elem_of_singleton. tauto.
Qed.

Lemma results_content_ids o rs i :
  i ∈ res_ids (results_content o rs) <-> i ∈ res_ids rs \/ i ∈ tc_id <$> ou_toolCalls o.
Proof.
  unfold results_content. rewrite safety_net_ids.
  destruct (ou_requiredFilesPrompt o) as [[|a p]|], (ou_learnPrompts o), (ou_typecheck o) as [[|b q]|];
    rewrite ?extend_last_ids, text_res_ids, ?extend_last_ids; tauto.
Qed.

Section Events.
Context (MC_READFILE_CHARS MC_SHELL_CHARS MC_WEBFETCH_CHARS : Z) (sha256 : string -> string)
  (artifactStore : option (string -> option string)).
#[local] Abbreviation run_step := (step MC_READFILE_CHARS MC_SHELL_CHARS MC_WEBFETCH_CHARS sha256 artifactStore).
#[local] Abbreviation phase := (epoch_phase MC_READFILE_CHARS MC_SHELL_CHARS MC_WEBFETCH_CHARS sha256 artifactStore).
#[local] Abbreviation after_round := (push_round MC_READFILE_CHARS MC_SHELL_CHARS MC_WEBFETCH_CHARS artifactStore).

Lemma push_plain ms m : answered ms -> result_ids m = [] -> use_ids m = [] -> answered (ms ++ [m]).
Proof.
  intros [Hp He] Hr Hu. unfold answered. rewrite paired_app, pending_app, He. simpl. unfold pending. simpl.
  rewrite Hr, Hu. split; [|done]. split; [done|]. split; [done|]. split; [constructor|done].
Qed.

Lemma historical_pass_answered round action cv : answered (cv_rawMessages cv) ->
  answered (cv_rawMessages (runHistoricalMicrocompact MC_READFILE_CHARS MC_SHELL_CHARS MC_WEBFETCH_CHARS round action cv)).
Proof.
  intros Ha. unfold runHistoricalMicrocompact. destruct (_ || _ || _); [|done].
  pose proof (historical_answered MC_READFILE_CHARS MC_SHELL_CHARS MC_WEBFETCH_CHARS _ 8 Ha) as H.
  by destruct (compactHistoricalToolResults _ _ _ _ _).
Qed.

Lemma round_answered o crowded action round cv : batch_answers o -> answered (cv_rawMessages cv) ->
  answered (cv_rawMessages (after_round o crowded action round cv)).
Proof.
  intros (Hnone & Hnd & Hb) Ha. unfold push_round.
  set (cv1 := match assistant_content o with [] => cv | _ => _ end).
  pose proof (forward_same MC_READFILE_CHARS MC_SHELL_CHARS MC_WEBFETCH_CHARS artifactStore crowded action
    (cv_rawMessages cv1) (ou_toolResults o) (ou_toolCalls o)) as Hf.
  destruct (runForwardMicrocompact _ _ _ _ _ _ _ _ _) as [n rs]. simpl in Hf.
  rewrite Hnone. apply historical_pass_answered. simpl.
  assert (forall i, i ∈ res_ids (results_content o rs) <-> i ∈ tc_id <$> ou_toolCalls o) as Hres.
  { intros i. rewrite results_content_ids. split; [|tauto]. intros [Hi|?]; [|done].
    unfold res_ids in Hi. rewrite (same_blocks_ids "tool_result" "tool_use_id" _ _ ltac:(done) Hf) in Hi.
    by eapply res_ids_answering. }
  assert (paired [] (cv_rawMessages cv1) /\ pending [] (cv_rawMessages cv1) = tc_id <$> ou_toolCalls o) as [Hp He].
  { pose proof (assistant_calls o) as Hc. destruct Ha as [Hp He]. subst cv1.
    destruct (assistant_content o) as [|b bs]; [simpl in Hc; rewrite <- Hc; done|]. simpl.
    rewrite paired_app, pending_app, He. unfold pending. simpl.
    change (use_ids (mkMessage role_assistant (ct_blocks (b :: bs)))) with (call_ids (b :: bs)).
    rewrite Hc. split; [|done]. split; [done|]. split; [done|]. done. }
  unfold answered. rewrite paired_app, pending_app, He. simpl. split; [|done]. split; [done|].
  split; [|split; [constructor|done]]. intros i. symmetry. apply Hres.
Qed.

Lemma context_answered ms text : answered ms -> answered (appendUserContext ms text).
Proof.
  intros Ha. unfold appendUserContext.
  destruct (rev ms) as [|m earlier] eqn:Hrev; [split; [|done]; repeat split; try done; constructor|].
  assert (ms = rev earlier ++ [m]) as -> by by rewrite <- (rev_involutive ms), Hrev.
  assert (forall c, use_ids (mkMessage role_user c) = [] /\ result_ids (mkMessage role_user c) = res_ids (blocks (mkMessage role_user c)))
    as Hv by done.
  assert (forall c c', m = mkMessage role_user c -> res_ids (blocks (mkMessage role_user c')) = res_ids (blocks (mkMessage role_user c)) ->
    answered (rev earlier ++ [mkMessage role_user c'])) as Hk.
  { intros c c' -> Hres. destruct Ha as [Hp He]. unfold answered. rewrite paired_app in Hp |- *. rewrite pending_app.
    destruct Hp as [Hp [Hi _]]. split; [|done]. split; [done|]. split; [|split; [constructor|done]].
    destruct (Hv c') as [_ ->]. rewrite Hres. by destruct (Hv c) as [_ <-]. }
  destruct m as [r c]. destruct r; [destruct c as [s|bs]| |]; simpl.
  - by apply (Hk (ct_text s)).
  - apply (Hk (ct_blocks bs)); [done|]. unfold blocks. cbn [pm_content]. rewrite res_ids_app.
    apply app_nil_r.
  - by apply push_plain.
  - by apply push_plain.
Qed.

Lemma epoch_answered plan round now cv : answered (cv_rawMessages cv) ->
  (epoch_action cv = ep_rollover -> long_enough (cv_rawMessages cv) 3) ->
  answered (cv_rawMessages (phase plan round now cv).2).
Proof.
  intros Ha Hroom. unfold epoch_phase. set (action := epoch_action cv) in *.
  destruct (if action === ep_rollover then _ else _) as [raw st] eqn:Hr.
  assert (answered raw) as Hraw.
  { destruct (action === ep_rollover) eqn:Hact; [|by injection Hr as <- <-].
    apply same_true in Hact. specialize (Hroom Hact). destruct Ha as [Hp He].
    pose proof Hp as Hc. apply paired_closed in Hc. pose proof (proj2 Hc He) as Hu.
    unfold rollover_phase, applyRollover in Hr.
    destruct (epochRollover sha256 now (cv_rawMessages cv) 3 plan _ round false) as [reason|r] eqn:Hro.
    - unfold epochRollover in Hro. rewrite Hu in Hro. simpl in Hro. done.
    - destruct (persistEpochArchive _ _ _). injection Hr as <- <-.
      apply rollover_safe in Hro; [|done|by right]. apply safe_messages in Hro as [? Hq].
      split; [done|]. by rewrite Hq. }
  destruct (action === ep_none); [done|].
  pose proof (historical_answered MC_READFILE_CHARS MC_SHELL_CHARS MC_WEBFETCH_CHARS _ 8 Hraw) as H.
  by destruct (compactHistoricalToolResults _ _ _ _ _).
Qed.

(** What each event needs of the conversation it happens in. *)
Definition admissible (cv : Conversation) (e : Event) : Prop :=
  match e with
  | ev_epoch _ _ _ => epoch_action cv = ep_rollover -> long_enough (cv_rawMessages cv) 3
  | ev_round o _ _ _ => batch_answers o
  | ev_message _ _ | ev_context _ => True
  end.
Fixpoint admissible_run (cv : Conversation) (events : list Event) : Prop :=
  match events with
  | [] => True
  | e :: events => admissible cv e /\ admissible_run (run_step cv e) events
  end.

Lemma step_answered cv e : answered (cv_rawMessages cv) -> admissible cv e -> answered (cv_rawMessages (run_step cv e)).
Proof.
  intros Ha Hok. destruct e as [plan round now|o crowded action round|role text|text]; simpl in *.
  - by apply epoch_answered.
  - by apply round_answered.
  - apply push_plain; [done| |]; by destruct role.
  - by apply context_answered.
Qed.

(** The conversation of a run stays one a provider accepts.  Whatever rounds
    a run makes, with whatever calls (their ids distinct) and results of the
    batch (each for a call of its round), with no prompt of the narrow-edit gate,
    whatever prompts are pushed or joined
    to the last message, and whichever compactions and rollovers its epochs
    bring, every message carries results for exactly the calls of the message
    before it, nothing is left open, and neither check of the transcript manager
    objects; provided that a rollover finds the three assistant messages it
    means to keep. *)
Theorem conversation_answered cv events :
  answered (cv_rawMessages cv) -> admissible_run cv events ->
  let messages := cv_rawMessages (fold_left run_step events cv) in
  answered messages /\ hasUnclosedToolChain messages = false /\ hasAdjacencyViolation messages = false.
Proof.
  intros Ha Hok. enough (answered (cv_rawMessages (fold_left run_step events cv))) as H.
  { split; [done|]. destruct H as [Hp He]. split; [by apply paired_closed|by eapply paired_adjacent]. }
  revert cv Ha Hok. induction events as [|e events IH]; intros cv Ha Hok; [done|].
  destruct Hok as [He Hok]. simpl. apply IH; [by apply step_answered|done].
Qed.

(** A rollover never separates a call from its results and loses no message.
    The result is a preamble followed by a tail of the conversation, the
    messages archived and that tail are the whole conversation in order, the
    archived part is closed, and the tail leaves open what the conversation
    leaves open: nothing on the normal path (with at least the assistant
    messages to keep), the chain in progress on the fallback path. *)
Theorem rollover_keeps_chains now ms k plan st round fallback r :
  paired [] ms -> hasUnclosedToolChain ms = true \/ long_enough ms k ->
  epochRollover sha256 now ms k plan st round fallback = inr r ->
  (exists preamble tail, ro_messages r = preamble :: tail /\ ro_archivedMessages r ++ tail = ms /\
    ro_archivedCount r = Z.of_nat (length (ro_archivedMessages r)) /\ answered (ro_archivedMessages r)) /\
  paired [] (ro_messages r) /\ pending [] (ro_messages r) = pending [] ms.
Proof.
  intros Hp Hc Hr.
  assert (ro_archivedCount r = Z.of_nat (length (ro_archivedMessages r))) as Hn
    by (revert Hr; unfold epochRollover; repeat case_match; by intros [= <-]).
  apply rollover_safe in Hr; [|done|done]. split; [|by apply safe_messages].
  destruct Hr as (p & tail & ? & ? & _ & _ & ? & _). by exists p, tail.
Qed.
End Events.

(** *** A second pass changes nothing *)

Lemma prefix_mono t : forall s b, String.prefix t s = true -> String.prefix t (s +:+ b) = true.
Proof.
  induction t as [|c t IH]; intros s b H; [by destruct (s +:+ b)|].
  destruct s as [|d s]; [done|]. simpl in *. destruct (Ascii.ascii_dec c d); [by apply IH|done].
Qed.
Lemma str_includes_r t s : forall a, str_includes t s = true -> str_includes t (a +:+ s) = true.
Proof. induction a as [|c a IH]; intros H; [done|]. simpl. rewrite IH by done. apply orb_true_r. Qed.
Lemma str_includes_l t b : forall s, str_includes t s = true -> str_includes t (s +:+ b) = true.
Proof.
  induction s as [|c s IH]; intros H; apply orb_true_iff in H as [H|H]; try done.
  - destruct t; [|done]. by destruct b.
  - apply orb_true_iff. left. exact (prefix_mono t (String c s) b H).
  - apply orb_true_iff. right. by apply IH.
Qed.

Lemma historical_note_marked a b x : str_includes "[Microcompact:" (a +:+ b +:+ historical_note x) = true.
Proof. unfold historical_note. do 4 apply str_includes_r. by apply str_includes_l. Qed.

Section Twice.
Context (MC_READFILE_CHARS MC_SHELL_CHARS MC_WEBFETCH_CHARS : Z).
#[local] Abbreviation historical := (compactHistoricalToolResults MC_READFILE_CHARS MC_SHELL_CHARS MC_WEBFETCH_CHARS).
#[local] Abbreviation block_pass := (compact_block MC_READFILE_CHARS MC_SHELL_CHARS MC_WEBFETCH_CHARS).
#[local] Abbreviation pass := (compact_from MC_READFILE_CHARS MC_SHELL_CHARS MC_WEBFETCH_CHARS).

Lemma set_content_text b s s' : result_text b = Some s -> result_text (set_field "content" (JStr s') b) = Some s'.
Proof.
  unfold result_text. rewrite set_content_block. destruct (is_block "tool_result" b) eqn:Hb; [|done]. intros _.
  destruct b as [| | | | | |fs]; try done. simpl. by rewrite jget_jset_eq.
Qed.

Lemma compact_block_twice names b : block_pass names (block_pass names b).1 = ((block_pass names b).1, false).
Proof.
  unfold compact_block at 2 3. destruct (result_text b) as [s|] eqn:Hs; [|cbn [fst]; unfold compact_block; by rewrite Hs].
  destruct (_ || _ || _) eqn:Hskip; [cbn [fst]; unfold compact_block; by rewrite Hs, Hskip|].
  destruct (jget _ names) as [tool|] eqn:Hn; [|cbn [fst]; unfold compact_block; by rewrite Hs, Hskip, Hn].
  destruct (over_threshold _ _ _ _ _) eqn:Ho; [|cbn [fst]; unfold compact_block; by rewrite Hs, Hskip, Hn, Ho].
  cbn [fst]. unfold compact_block. rewrite (set_content_text _ _ _ Hs). by rewrite historical_note_marked.
Qed.

Lemma compact_blocks_twice names bs :
  map (block_pass names) (map (block_pass names) bs).*1 = map (fun b => (b, false)) (map (block_pass names) bs).*1.
Proof. induction bs as [|b bs IH]; [done|]. simpl. rewrite compact_block_twice. f_equal. exact IH. Qed.
Lemma none_counted {A} (l : list A) : count_where snd (map (fun b => (b, false)) l) = 0%nat /\ (map (fun b => (b, false)) l).*1 = l.
Proof. induction l as [|x l [IH1 IH2]]; [done|]. split; [|exact (f_equal (cons x) IH2)].
  cbn [map]. by rewrite count_where_cons, IH1. Qed.

Lemma pass_twice names k ms : forall passed, pass names k passed (pass names k passed ms).2 = (0%nat, (pass names k passed ms).2).
Proof.
  induction ms as [|m ms IH]; intros passed; [done|]. simpl.
  set (p := if is_assistant m then passed + 1 else passed). specialize (IH p).
  destruct (pass names k p ms) as [n rest] eqn:Hrest. cbn [snd] in IH.
  destruct m as [[| |] [s|bs]]; subst p; cbn [pm_role pm_content by_role] in *;
    try (cbn; cbn in IH; rewrite IH; done).
  change (is_assistant (mkMessage role_user (ct_blocks bs))) with false in *. cbv iota in *.
  destruct (_ || _) eqn:Hold; cbn [snd fst compact_from pm_role pm_content].
  - change (is_assistant (mkMessage role_user (ct_blocks bs))) with false. cbv iota. by rewrite IH, Hold.
  - change (is_assistant (mkMessage role_user (ct_blocks _))) with false. cbv iota. rewrite IH, Hold, compact_blocks_twice.
    destruct (none_counted (map (block_pass names) bs).*1) as [H1 H2]. by rewrite H1, H2.
Qed.

(** The assistant messages are left alone. *)
Lemma pass_assistants names k ms : forall passed,
  filter (fun m => is_assistant m = true) (pass names k passed ms).2 = filter (fun m => is_assistant m = true) ms.
Proof.
  induction ms as [|m ms IH]; intros passed; [done|]. simpl.
  set (p := if is_assistant m then passed + 1 else passed). specialize (IH p).
  destruct (pass names k p ms) as [n rest] eqn:Hrest. cbn [snd] in IH.
  destruct m as [[| |] [s|bs]]; cbn [pm_role pm_content]; repeat case_match; cbn [snd];
    rewrite ?filter_cons; cbn; rewrite ?IH; done.
Qed.

Lemma assistant_blocks ms :
  (ms ≫= fun msg => if is_assistant msg then blocks msg else []) = (filter (fun m => is_assistant m = true) ms ≫= blocks).
Proof.
  induction ms as [|m ms IH]; [done|]. rewrite filter_cons. cbn [mbind list_bind].
  rewrite IH. by destruct (is_assistant m).
Qed.

(** Compacting a second time finds nothing left to compact. *)
Theorem compaction_idempotent ms keepRecentRounds :
  historical (historical ms keepRecentRounds).2 keepRecentRounds = (0%nat, (historical ms keepRecentRounds).2).
Proof.
  unfold compactHistoricalToolResults at 2 3. destruct (_ <=? 0) eqn:Hk; cbn [snd].
  - unfold compactHistoricalToolResults. by rewrite Hk.
  - set (names := toolNameById ms). set (k := _ - _).
    pose proof (pass_assistants names k ms 0) as Ha. unfold compactHistoricalToolResults.
    unfold count_where, toolNameById. rewrite assistant_blocks, Ha. fold (count_where is_assistant ms).
    rewrite <- assistant_blocks. fold (toolNameById ms). fold names. fold k. fold k in Hk. rewrite Hk. apply pass_twice.
Qed.
End Twice.

(** ** Witnesses *)

Definition id_hash (s : string) : string := s.
Definition demo_call (id : string) : ToolCall := mkCall id "shell" (JObj [("command", JStr "make")]).
Definition demo_result (id text : string) : jsval :=
  JObj [("type", JStr "tool_result"); ("tool_use_id", JStr id); ("content", JStr text)].
Definition demo_output (id : string) : RoundOutput :=
  mkOutput [] "" [demo_call id] [demo_result id "ok"] ["plan again"] None None ["learn"] None.
(** Thresholds so low that the first epoch phase after three rounds rolls over. *)
Definition demo_epoch : EpochState := createEpochState (mkThresholds 10 20 30).
Definition demo_start : Conversation := mkConversation [mkMessage role_user (ct_text "build it")] demo_epoch 0.
Definition demo_events : list Event :=
  [ev_round (demo_output "a") false ep_none 0; ev_round (demo_output "b") false ep_none 1;
   ev_message role_user "go on"; ev_round (demo_output "c") false ep_none 2; ev_context "and test it";
   ev_epoch "the plan" 3 7].

Lemma demo_batch id : batch_answers (demo_output id).
Proof.
  split; [done|]. split; [apply NoDup_singleton|]. intros r ->%list_elem_of_singleton.
  exists (demo_call id). split; [left|]. unfold answers, same. simpl. by rewrite bool_decide_eq_true_2.
Qed.

Lemma plain_paired (ms : list ProviderMessage) : Forall (fun m => use_ids m = [] /\ result_ids m = []) ms -> answered ms.
Proof.
  intros H. enough (paired [] ms /\ pending [] ms = []) as ? by done.
  induction H as [|m ms [Hu Hr] _ [IH1 IH2]]; [done|]. simpl. rewrite pending_cons, Hu, Hr.
  repeat split; try done; constructor.
Qed.

Lemma conversation_answered_witness :
  let store := Some (fun text : string => Some "ref") in
  let messages := cv_rawMessages (fold_left (step 0 3000 5000 id_hash store) demo_events demo_start) in
  (length messages = 8%nat /\ es_rolloverCount (cv_epochState (fold_left (step 0 3000 5000 id_hash store) demo_events demo_start)) = 1) /\
  answered messages /\ hasUnclosedToolChain messages = false /\ hasAdjacencyViolation messages = false.
Proof.
  split; [split; vm_compute; reflexivity|].
  apply (conversation_answered 0 3000 5000 id_hash (Some (fun text : string => Some "ref")) demo_start demo_events).
  - apply plain_paired. repeat constructor.
  - repeat (split; [first [exact (demo_batch _) | exact I]|]). split; [|exact I].
    intros _. split; vm_compute; discriminate.
Defined.

(** A conversation whose last chain is open. *)
Definition demo_open : list ProviderMessage :=
  [mkMessage role_user (ct_text "one"); mkMessage role_assistant (ct_text "done");
   mkMessage role_user (ct_text "two");
   mkMessage role_assistant (ct_blocks [JObj [("type", JStr "tool_use"); ("id", JStr "a"); ("name", JStr "shell"); ("input", JObj [])]])].

Lemma rollover_keeps_chains_witness :
  exists r, epochRollover id_hash 7 demo_open 3 "the plan" demo_epoch 5 true = inr r /\
  ((exists preamble tail, ro_messages r = preamble :: tail /\ ro_archivedMessages r ++ tail = demo_open /\
     ro_archivedCount r = Z.of_nat (length (ro_archivedMessages r)) /\ answered (ro_archivedMessages r)) /\
   paired [] (ro_messages r) /\ pending [] (ro_messages r) = pending [] demo_open).
Proof.
  eexists. split; [reflexivity|].
  apply (rollover_keeps_chains id_hash 7 demo_open 3 "the plan" demo_epoch 5 true).
  - do 3 (split; [done|]; split; [constructor|]). split; [done|]. split; [|exact I].
    apply NoDup_singleton.
  - left. vm_compute. reflexivity.
  - reflexivity.
Defined.

(** ** Behaviours worth knowing *)

Definition used (ids : list string) : ProviderMessage :=
  mkMessage role_assistant (ct_blocks (map (fun id => JObj [("type", JStr "tool_use"); ("id", JStr id); ("name", JStr "shell")]) ids)).
Definition gave (ids : list string) : ProviderMessage := mkMessage role_user (ct_blocks (map (fun id => demo_result id "ok") ids)).
Definition said (text : string) : ProviderMessage := mkMessage role_user (ct_text text).

(** With fewer assistant messages than it means to keep, a rollover keeps the
    last two messages, whatever they are: a result whose call was archived
    opens the tail. *)
Lemma short_rollover_orphans_result :
  let ms := [said "go"; used ["a"]; gave ["a"]; said "note"] in
  exists r, answered ms /\ epochRollover id_hash 7 ms 3 "plan" demo_epoch 5 false = inr r /\
    drop 1 (ro_messages r) = [gave ["a"]; said "note"] /\ ~ paired [] (ro_messages r).
Proof.
  eexists. split; [|split; [reflexivity|split; [reflexivity|]]].
  - split; [|done]. split; [done|]. split; [constructor|].
    split; [done|]. split; [apply NoDup_singleton|].
    split; [done|]. split; [constructor|]. split; [done|]. split; [constructor|done].
  - intros (_ & _ & Hi & _). apply (not_elem_of_nil "a"), Hi. vm_compute. left.
Qed.

(** The prompt of the narrow-edit gate lands between the calls of a round and
    their results. *)
Lemma narrow_evidence_splits_chain :
  let o := mkOutput [] "" [demo_call "a"] [demo_result "a" "ok"] [] (Some "verify") None [] None in
  let messages := cv_rawMessages (push_round 0 3000 5000 None o false ep_none 0 demo_start) in
  tail messages = [mkMessage role_assistant (ct_blocks (assistant_content o)); said "verify"; gave ["a"]] /\
  hasAdjacencyViolation messages = true /\ hasUnclosedToolChain messages = false.
Proof. vm_compute. done. Qed.

(** A round cut short before any call pushes a user message without content. *)
Lemma truncated_round_pushes_empty :
  let o := mkOutput [("so", "s")] "" [] [] [] None None [] None in
  last (cv_rawMessages (push_round 0 3000 5000 None o false ep_none 0 demo_start)) =
    Some (mkMessage role_user (ct_blocks [])).
Proof. reflexivity. Qed.

(** The checks count: one answer out of two, and an answer to another call, go
    through. *)
Lemma partial_answer_accepted : hasAdjacencyViolation [used ["a"; "b"]; gave ["a"]] = false.
Proof. reflexivity. Qed.
Lemma foreign_answer_accepted : tv_valid (validateTranscript [used ["a"]; gave ["b"]]) = true.
Proof. reflexivity. Qed.

(** The fallback does not wait for several blocked rounds: four rounds into an
    epoch, the first blocked rollover takes it. *)
Lemma fallback_at_first_block :
  let ms := [said "go"; used ["a"]] in
  epochRollover id_hash 7 ms 3 "plan" demo_epoch 4 false = inl unclosed_reason /\
  es_rolloverCount (rollover_phase id_hash 7 None "plan" 4 ms demo_epoch).2 = 1.
Proof. split; reflexivity. Qed.
