(* ===== verification/ModeContract.v ===== *)
(** Modes of the agent.

    Models [src/src/agent/mode-contract.ts]: the five modes, the tools each
    allows, the criteria to leave one at completion and the transitions between
    them.  The prompt texts are left out. *)
From S2P Require Import Prelude Paths PathPattern Evidence.
Open Scope string_scope.
Open Scope Z_scope.
Open Scope list_scope.

(** src/src/agent/mode-contract.ts # ModeName *)
Inductive ModeName := planner | coder | review | mode_repair | report.
#[export] Instance mode_name_eq_dec : EqDecision ModeName.
Proof. solve_decision. Defined.

(** src/src/agent/mode-contract.ts # ModeExitCriterion *)
Inductive ModeExitCriterion :=
| mx_no_tool_errors
| mx_output_not_empty
| mx_has_evidence (evidenceKind : option EvidenceKind).

(** src/src/agent/mode-contract.ts # ModeContract *)
Record ModeContract := mkMode {
  mc_mode : ModeName;
  mc_allowedTools : list string;
  mc_forbiddenTools : list string;
  mc_exitCriteria : list ModeExitCriterion;
}.

(** src/src/agent/mode-contract.ts # READ_TOOLS *)
Definition READ_TOOLS : list string :=
  ["read_file"; "find_symbol"; "find_references"; "project_structure"; "lsp_diagnostics"; "lsp_hover";
   "lsp_definition"; "lsp_references"].
(** src/src/agent/mode-contract.ts # WRITE_TOOLS *)
Definition WRITE_TOOLS : list string :=
  ["write_file"; "edit_file"; "multi_edit"; "edit_fim"; "rollback_transaction"].
(** src/src/agent/mode-contract.ts # GIT_TOOLS *)
Definition GIT_TOOLS : list string := ["git_status"; "git_diff"; "git_log"; "git_blame"].
(** src/src/agent/mode-contract.ts # NETWORK_TOOLS *)
Definition NETWORK_TOOLS : list string := ["web_search"; "web_fetch"].
(** src/src/agent/mode-contract.ts # SHELL_TOOLS *)
Definition SHELL_TOOLS : list string := ["shell"; "start_service"].
(** src/src/agent/mode-contract.ts # CHECK_TOOLS *)
Definition CHECK_TOOLS : list string := ["typecheck"].
(** src/src/agent/mode-contract.ts # META_TOOLS *)
Definition META_TOOLS : list string := ["request_deeper_thinking"].

(** src/src/agent/mode-contract.ts # MODES *)
Definition MODES (m : ModeName) : ModeContract :=
  match m with
  | planner =>
      mkMode planner (READ_TOOLS ++ GIT_TOOLS ++ NETWORK_TOOLS ++ META_TOOLS) (WRITE_TOOLS ++ SHELL_TOOLS)
        [mx_output_not_empty; mx_no_tool_errors]
  | coder => mkMode coder [] [] [mx_output_not_empty; mx_no_tool_errors]
  | review =>
      mkMode review (READ_TOOLS ++ GIT_TOOLS ++ CHECK_TOOLS ++ META_TOOLS) (WRITE_TOOLS ++ SHELL_TOOLS ++ NETWORK_TOOLS)
        [mx_output_not_empty; mx_no_tool_errors]
  | mode_repair =>
      mkMode mode_repair [] [] [mx_output_not_empty; mx_no_tool_errors; mx_has_evidence (Some e_typecheck)]
  | report =>
      mkMode report (READ_TOOLS ++ GIT_TOOLS ++ META_TOOLS)
        (WRITE_TOOLS ++ SHELL_TOOLS ++ NETWORK_TOOLS ++ CHECK_TOOLS)
        [mx_output_not_empty; mx_no_tool_errors]
  end.

(** Why a mode refuses a tool. *)
Inductive ModeRefusal := tool_forbidden | tool_not_listed.

(** [toolName.startsWith("mcp__")]. *)
Definition is_mcp_tool (toolName : string) : bool :=
  match after_prefix "mcp__" toolName with Some _ => true | None => false end.

(** src/src/agent/mode-contract.ts # enforceModeTools

    [None] when the tool is allowed. *)
Definition enforceModeTools (mode : ModeContract) (toolName : string) : option ModeRefusal :=
  if includes (mc_forbiddenTools mode) toolName then Some tool_forbidden
  else if negb (match mc_allowedTools mode with [] => true | _ => false end)
          && negb (includes (mc_allowedTools mode) toolName) && negb (is_mcp_tool toolName)
  then Some tool_not_listed
  else None.

(** src/src/agent/mode-contract.ts # checkModeExitCriteria

    The criteria that are not met. *)
Definition checkModeExitCriteria (mode : ModeContract) (toolErrors : Z) (finalText : string)
    (evidenceLedger : option EvidenceLedger) (currentGeneration : option Z)
    (evidenceBinding : option TransactionEvidenceBinding) (requireEvidenceBinding : bool) : list ModeExitCriterion :=
  filter (fun c => match c with
                   | mx_no_tool_errors => 0 <? toolErrors
                   | mx_output_not_empty => trim finalText === ""
                   | mx_has_evidence (Some kind) =>
                       match evidenceLedger with
                       | Some ledger =>
                           negb (hasFreshPassingEvidence ledger kind currentGeneration evidenceBinding requireEvidenceBinding)
                       | None => true
                       end
                   | mx_has_evidence None => false
                   end = true) (mc_exitCriteria mode).

(** src/src/agent/mode-contract.ts # ModeTransitionContext *)
Inductive NodeStatus := ns_pending | ns_active | ns_blocked | ns_done | ns_skipped.
(** src/src/agent/mode-contract.ts # ModeTransitionContext *)
Record ModeTransitionContext := mkTransition {
  mt_activeNodeStatus : option NodeStatus;
  mt_rippleObligationCount : Z;
  mt_toolErrors : Z;
  mt_planComplete : bool;
}.

(** src/src/agent/mode-contract.ts # NODE_STATUS_MODE_MAP *)
Definition NODE_STATUS_MODE_MAP (s : NodeStatus) : ModeName :=
  match s with ns_pending | ns_blocked => planner | ns_active => coder | ns_done | ns_skipped => review end.

(** src/src/agent/mode-contract.ts # shouldTransitionMode *)
Definition shouldTransitionMode (current : ModeName) (ctx : ModeTransitionContext) : option ModeName :=
  if mt_planComplete ctx && negb (current === report) then Some report
  else if (3 <=? mt_toolErrors ctx) && negb (current === mode_repair) then Some mode_repair
  else if 0 <? mt_rippleObligationCount ctx then None
  else match mt_activeNodeStatus ctx with
       | Some status =>
           if negb (current === mode_repair) && negb (current === report) then
             let targetMode := NODE_STATUS_MODE_MAP status in
             if negb (targetMode === current) then Some targetMode else None
           else None
       | None => None
       end.

(** src/src/agent/kernel/master-plan.ts # syncModeWithMasterPlan *)
Definition syncMode (current : ModeName) (ctx : ModeTransitionContext) : ModeName :=
  default current (shouldTransitionMode current ctx).

(** ** Properties *)

(** A mode that only reads admits, besides the tools it lists, only tools of
    MCP servers. *)
Lemma readonly_mode_admits m toolName :
  m <> coder -> m <> mode_repair ->
  enforceModeTools (MODES m) toolName = None ->
  (toolName ∉ WRITE_TOOLS ++ SHELL_TOOLS) /\ (toolName ∈ mc_allowedTools (MODES m) \/ is_mcp_tool toolName = true).
Proof.
  unfold enforceModeTools. intros Hc Hr.
  destruct (includes (mc_forbiddenTools (MODES m)) toolName) eqn:E1; [done|].
  apply includes_false in E1. intros H.
  assert (Hl : match mc_allowedTools (MODES m) with [] => true | _ => false end = false) by (by destruct m).
  rewrite Hl in H. cbn [negb andb] in H.
  split; [destruct m; try done; cbn [MODES mc_forbiddenTools] in E1; rewrite !not_elem_of_app in *; tauto|].
  destruct (includes (mc_allowedTools (MODES m)) toolName) eqn:E2; [left; by apply includes_true|].
  right. cbn [negb andb] in H. by destruct (is_mcp_tool toolName).
Qed.

(** With the plan complete and three errors on record, the mode is not the
    report mode but alternates between report and repair at every sync. *)
Lemma complete_plan_alternates status ripple errors :
  3 <= errors ->
  let ctx := mkTransition status ripple errors true in
  syncMode report ctx = mode_repair /\ syncMode mode_repair ctx = report.
Proof.
  intros H ctx. unfold syncMode, shouldTransitionMode. cbn [mt_planComplete mt_toolErrors ctx].
  by rewrite (proj2 (Z.leb_le _ _) H).
Qed.
