(* ===== verification/Orchestrator.v ===== *)
(** When a task is done: the final decision of a round without tool calls.

    Models, of [src/src/agent], [completion-orchestrator.ts], the gates it runs
    first ([gates/sync-completion-chain.ts], [gates/chain.ts]), the external gate
    ([external-completion-gate.ts]), when the judge is asked ([flash-judge.ts]),
    the automatic end of a narrow edit, and what the round makes of the decision
    ([kernel/round.ts]).  The decision, the tracker it leaves, what it asks of the
    plan, and whether messages are injected are modelled, not the texts.  The
    judge is a model: its verdict is an input.  Existence of files, the write
    generation and the coverage of unmanaged writes are read from the run
    ([FileState]) and are inputs, as is the active mode ([ModeContract]). *)
From Stdlib Require Import Ascii.
From S2P Require Import Prelude Paths PathPattern Evidence ModeContract Tracker Obligations.
Open Scope Z_scope.
Open Scope list_scope.

(** ** The input *)

(** The verdict of [FlashJudge.evaluate]. *)
Inductive JudgeVerdict := jv_satisfied | jv_not_satisfied | jv_impossible.

(** src/src/agent/completion-orchestrator.ts # CompletionOrchestratorInput

    With the active mode, the write generation, the coverage of unmanaged
    writes, and of the judge whether it may be called and what it would say. *)
Record Input := mkInput {
  oi_round : Z; oi_maxRounds : Z; oi_finalText : string; oi_readonly : bool;
  oi_taskTracker : option Tracker; oi_pendingRippleObligations : list RippleObligation;
  oi_verificationResults : list VerificationResult; oi_changedFiles : list string;
  oi_taskHadWrite : bool; oi_taskToolErrors : Z; oi_taskModifiedFiles : Z;
  oi_planApproved : bool; oi_planningRejections : Z;
  oi_evidenceLedger : option EvidenceLedger; oi_evidenceBinding : option TransactionEvidenceBinding;
  oi_masterPlan : bool; oi_contextDebts : list ContextDebt;
  oi_mode : ModeName; oi_writeGeneration : Z; oi_coveredUnmanaged : bool;
  oi_judgeAvailable : bool; oi_judgeVerdict : JudgeVerdict }.

(** src/src/agent/completion-orchestrator.ts # OrchestratorDecision *)
Inductive OrchestratorDecision := od_done | od_continue | od_break_blocked | od_plan_ready.

(** src/src/agent/completion-orchestrator.ts # CompletionOrchestratorResult

    What is injected, and the texts of events and statuses, are left out. *)
Record Result := mkResult {
  or_decision : OrchestratorDecision; or_tracker : option Tracker; or_injects : bool;
  or_planningRejections : option Z; or_activateMasterPlan : bool; or_tryNodeTransition : bool }.

Definition last_round (i : Input) : bool := oi_maxRounds i <=? oi_round i + 1.

(** src/src/agent/completion-orchestrator.ts # shouldRequireEvidenceBinding *)
Definition shouldRequireEvidenceBinding (i : Input) : bool :=
  if negb (oi_taskHadWrite i) && (oi_writeGeneration i <=? 0) then false
  else negb (oi_coveredUnmanaged i).

(** [deriveLastTypecheck(...)?.passed] *)
Definition lastTypecheck (i : Input) : option bool :=
  match oi_evidenceLedger i with
  | Some ledger => (fun '(passed, _, _) => passed) <$> deriveLastTypecheck ledger
  | None => None
  end.

(** ** The synchronous gates *)

(** src/src/agent/gates/types.ts # GateResult *)
Inductive GateResult := gate_pass | gate_block (reason : string) (incomplete : bool).

(** src/src/agent/gates/contexts.ts # CompletionContext

    What the gates write: the tracker, the messages to inject, and the mark of
    an accepted plan. *)
Record CompletionContext := mkContext { cx_tracker : option Tracker; cx_injects : bool; cx_planningPassed : bool }.

Definition Gate := Input -> list Requirement -> CompletionContext -> CompletionContext * GateResult.

(** src/src/agent/gates/sync-completion-chain.ts # pass *)
Definition pass (c : CompletionContext) : CompletionContext * GateResult :=
  (mkContext (cx_tracker c) false (cx_planningPassed c), gate_pass).
(** src/src/agent/gates/sync-completion-chain.ts # continue_ *)
Definition continue_ (reason : string) (c : CompletionContext) : CompletionContext * GateResult :=
  (mkContext (cx_tracker c) true (cx_planningPassed c), gate_block reason false).

(** src/src/agent/gates/sync-completion-chain.ts # finalRoundNoEvidence *)
Definition finalRoundNoEvidence (i : Input) (c : CompletionContext) : CompletionContext * GateResult :=
  if match lastTypecheck i with Some passed => passed | None => false end || existsb vr_passed (oi_verificationResults i)
  then (c, gate_pass)
  else (mkContext (cx_tracker c) false (cx_planningPassed c), gate_block "budget_exhausted_no_evidence" true).

(** src/src/agent/gates/sync-completion-chain.ts # RippleExitGate *)
Definition RippleExitGate : Gate := fun i _ c =>
  if oi_readonly i then pass c
  else match getBlockingObligations (oi_pendingRippleObligations i) with
       | [] => pass c
       | _ => if last_round i then finalRoundNoEvidence i c else continue_ "semantic:ripple_exit" c
       end.

Definition planning (t : option Tracker) : bool := match t with Some t => tk_phase t === ph_planning | None => false end.
Definition accept_plan (c : CompletionContext) : CompletionContext :=
  mkContext (markPlanAccepted <$> cx_tracker c) (cx_injects c) (cx_planningPassed c).

(** src/src/agent/gates/sync-completion-chain.ts # PlanningArtifactGate

    The score of the plan is advice only. *)
Definition PlanningArtifactGate : Gate := fun i _ c =>
  if negb (planning (cx_tracker c)) then pass c
  else if last_round i then finalRoundNoEvidence i c
  else if oi_planApproved i then continue_ "semantic:planning_accepted" (accept_plan c)
  else (mkContext (markPlanAccepted <$> cx_tracker c) (cx_injects c) true, gate_pass).

(** src/src/agent/gates/sync-completion-chain.ts # ContextDebtCompletionGate *)
Definition ContextDebtCompletionGate : Gate := fun i _ c =>
  match openContextDebts (oi_contextDebts i) with
  | [] => (c, gate_pass)
  | _ => if last_round i then (c, gate_block "semantic:context_debt" true)
         else continue_ "semantic:context_debt" c
  end.

(** src/src/agent/gates/sync-completion-chain.ts # TaskTrackerCompletionGate *)
Definition TaskTrackerCompletionGate : Gate := fun i missing c =>
  if match cx_tracker c with None => true | Some _ => false end
     || taskTrackerComplete (cx_tracker c) || match missing with [] => true | _ => false end
  then pass c
  else if last_round i then finalRoundNoEvidence i c
  else continue_ "semantic:task_tracker" c.

(** src/src/agent/gates/sync-completion-chain.ts # QualityGate

    Confidence and contracts only make a status message. *)
Definition QualityGate : Gate := fun i _ c =>
  if oi_readonly i then pass c
  else if negb (oi_taskHadWrite i) && (oi_taskToolErrors i =? 0) then pass c
  else if last_round i then finalRoundNoEvidence i c
  else pass c.

(** src/src/agent/gates/chain.ts # GateChain.evaluateSync *)
Fixpoint evaluateSync (gates : list Gate) (i : Input) (missing : list Requirement) (c : CompletionContext)
  : CompletionContext * GateResult :=
  match gates with
  | [] => (c, gate_pass)
  | gate :: gates =>
      let '(c, result) := gate i missing c in
      match result with
      | gate_pass => evaluateSync gates i missing c
      | gate_block _ _ => (c, result)
      end
  end.

(** src/src/agent/gates/sync-completion-chain.ts # createCompletionChain *)
Definition completionChain : list Gate :=
  [RippleExitGate; PlanningArtifactGate; TaskTrackerCompletionGate; ContextDebtCompletionGate; QualityGate].

(** src/src/agent/completion-orchestrator.ts # CompletionOrchestrator.evaluateSyncChain

    [inl] is a decision; [inr] goes on to the next phase.  No gate sets a break
    event, so neither the plan_ready decision nor the automatic approval is
    taken. *)
Definition evaluateSyncChain (i : Input) (missing : list Requirement) : Result + Result :=
  let '(c, result) := evaluateSync completionChain i missing (mkContext (oi_taskTracker i) false false) in
  let rejections := if cx_planningPassed c then Some 0 else None in
  let out decision := mkResult decision (cx_tracker c) (cx_injects c) rejections false false in
  match result with
  | gate_pass => inr (out od_done)
  | gate_block reason incomplete =>
      if reason === "semantic:planning_accepted"
      then inl (mkResult od_continue (cx_tracker c) (cx_injects c) (Some 0) true false)
      else if (reason === "semantic:ripple_exit") || (reason === "semantic:task_tracker") || (reason === "semantic:quality")
      then inl (out od_continue)
      else if incomplete then inl (out od_break_blocked)
      else inr (out od_done)
  end.

(** ** The external gate *)

(** What the external gate finds missing. *)
Inductive Missing :=
| ms_requirement (r : Requirement) | ms_ripple (callers : nat) | ms_typecheck | ms_no_evidence
| ms_kind (k : VerificationKind) | ms_mode (c : ModeExitCriterion).

(** src/src/agent/external-completion-gate.ts # needsExternalCompletionGate *)
Definition needsExternalCompletionGate (i : Input) (tracker : option Tracker) : bool :=
  match tracker with Some _ => true | None => false end || oi_taskHadWrite i || (0 <? oi_taskToolErrors i)
  || match mc_exitCriteria (MODES (oi_mode i)) with [] => false | _ => true end.

(** src/src/agent/external-completion-gate.ts # evaluateCompletionGate

    The [missing] of its report, which allows completion when there is none. *)
Definition evaluateCompletionGate (i : Input) (tracker : option Tracker) (missing : list Requirement) : list Missing :=
  map ms_requirement missing
  ++ match getBlockingObligations (oi_pendingRippleObligations i) with
     | [] => [] | blocking => [ms_ripple (length blocking)] end
  ++ match lastTypecheck i with Some false => [ms_typecheck] | _ => [] end
  ++ (if oi_taskHadWrite i && match oi_verificationResults i with [] => true | _ => false end
         && negb (match lastTypecheck i with Some passed => passed | None => false end)
      then [ms_no_evidence] else [])
  ++ match tracker with
     | Some t => map ms_kind (filter (fun k => jhas k (tk_verificationEvidence t) = false) (tk_requiredVerificationKinds t))
     | None => []
     end
  ++ map ms_mode (checkModeExitCriteria (MODES (oi_mode i)) (oi_taskToolErrors i) (oi_finalText i) (oi_evidenceLedger i)
       (Some (oi_writeGeneration i)) (oi_evidenceBinding i) (oi_taskHadWrite i || (0 <? oi_writeGeneration i))).

(** The result so far, with a decision. *)
Definition decide_with (d : OrchestratorDecision) (injects : bool) (out : Result) : Result :=
  mkResult d (or_tracker out) injects (or_planningRejections out) (or_activateMasterPlan out) (or_tryNodeTransition out).
Definition is_nil {A} (l : list A) : bool := match l with [] => true | _ => false end.

(** [continue] while rounds are left, otherwise the end without completion. *)
Definition blocked (i : Input) : OrchestratorDecision := if last_round i then od_break_blocked else od_continue.

(** src/src/agent/completion-orchestrator.ts # CompletionOrchestrator.evaluateExternalGate *)
Definition evaluateExternalGate (i : Input) (out : Result) (missing : list Requirement) : Result + Result :=
  if negb (needsExternalCompletionGate i (or_tracker out)) then inr out
  else if is_nil (evaluateCompletionGate i (or_tracker out) missing) then inr out
  else inl (decide_with (blocked i) (negb (last_round i) || or_injects out) out).

(** ** The judge *)

(** src/src/agent/flash-judge.ts # FlashJudge.shouldEvaluate *)
Definition shouldEvaluate (i : Input) (tracker : option Tracker) : bool :=
  if negb (oi_judgeAvailable i) then false
  else if oi_round i <? 3 then false
  else negb (match tracker with None => true | Some _ => false end && negb (oi_taskHadWrite i) && (oi_taskToolErrors i =? 0)).

Definition try_transition (i : Input) (out : Result) : Result :=
  if oi_masterPlan i
  then mkResult (or_decision out) (or_tracker out) (or_injects out) (or_planningRejections out) (or_activateMasterPlan out) true
  else out.

(** src/src/agent/completion-orchestrator.ts # CompletionOrchestrator.evaluateFlashJudge *)
Definition evaluateFlashJudge (i : Input) (out : Result) (missing : list Requirement) : Result + Result :=
  if negb (is_nil missing) then inr out
  else if negb (shouldEvaluate i (or_tracker out)) then inr (try_transition i out)
  else match oi_judgeVerdict i with
       | jv_satisfied => inr (try_transition i out)
       | jv_impossible => inl (decide_with od_break_blocked (or_injects out) out)
       | jv_not_satisfied => inl (decide_with od_continue true out)
       end.

(** ** Evidence *)

(** src/src/agent/completion-orchestrator.ts # CompletionOrchestrator.evaluateEvidenceGate @387-441 *)
Definition evaluateEvidenceGate (existsSync : string -> bool) (i : Input) (out : Result) : Result + Result :=
  match oi_evidenceLedger i with
  | None => inr out
  | Some ledger =>
      let explicitRequiredKinds :=
        if match or_tracker out with None => true | Some _ => false end && oi_taskHadWrite i then [e_typecheck] else [] in
      if cc_canClaim (canClaimDone existsSync (tracker_view <$> or_tracker out) ledger None explicitRequiredKinds
                        (Some (oi_writeGeneration i)) (oi_evidenceBinding i) (shouldRequireEvidenceBinding i))
      then inr out
      else inl (decide_with (blocked i) (negb (last_round i) || or_injects out) out)
  end.

(** ** Truthfulness

    A regular expression of this gate is a sequence of alternations of literals
    between which white space may, or has to, stand; a final [s?] adds nothing
    to a search.  The text is in UTF-8 and its case is folded first. *)


Fixpoint words_at (parts : list (list string)) (s : string) : bool :=
  match parts with
  | [] => true
  | lits :: parts =>
      existsb (fun lit => match after_prefix lit s with Some rest => words_at parts (trim_start rest) | None => false end) lits
  end.
Fixpoint found (parts : list (list string)) (s : string) : bool :=
  words_at parts s || match s with EmptyString => false | String _ s => found parts s end.

Definition space_head (s : string) : bool := match s with String c _ => is_space c | EmptyString => false end.
Fixpoint spaced_at (words : list string) (s : string) : bool :=
  match words with
  | [] => true
  | [w] => match after_prefix w s with Some _ => true | None => false end
  | w :: words =>
      match after_prefix w s with Some rest => space_head rest && spaced_at words (trim_start rest) | None => false end
  end.
Fixpoint found_spaced (words : list string) (s : string) : bool :=
  spaced_at words s || match s with EmptyString => false | String _ s => found_spaced words s end.

(** src/src/agent/completion-orchestrator.ts # CompletionOrchestrator.FUTURE_PATTERNS *)
Definition FUTURE_WORDS : list string := ["将"; "打算"; "准备"; "需要确保"; "需要保证"; "下一步"; "接下来"].
Definition FUTURE_PHRASES : list (list string) :=
  [["will"; "be"]; ["going"; "to"]; ["need"; "to"; "ensure"]; ["should"; "pass"]; ["must"; "pass"]; ["next"; "step"]].

(** src/src/agent/completion-orchestrator.ts # CompletionOrchestrator.isFutureTense *)
Definition isFutureTense (text : string) : bool :=
  found [FUTURE_WORDS] text || existsb (fun p => found_spaced p (lower text)) FUTURE_PHRASES.

(** src/src/agent/completion-orchestrator.ts # TruthClaim *)
Inductive TruthClaim :=
| tc_typecheck_passed | tc_tests_passed | tc_build_passed | tc_lint_passed | tc_all_verification_passed
| tc_implementation_completed | tc_no_errors.
#[export] Instance TruthClaim_eq_dec : EqDecision TruthClaim.
Proof. solve_decision. Defined.

Definition SENTENCE_ENDS : list string := ["。"; "！"; "？"; "；"; "."; "!"; "?"; ";"].
Fixpoint split_sentences (current s : string) : list string :=
  match s with
  | EmptyString => [current]
  | String c s =>
      if c === "010"%char then current :: split_sentences "" s
      else let current := current +:+ String c "" in
           if existsb (endsWith current) SENTENCE_ENDS then current :: split_sentences "" s
           else split_sentences current s
  end.
Definition sentences (text : string) : list string :=
  filter (fun s => s <> "") (map trim (split_sentences "" text)).

(** [0\s*errors?], [no\s*errors?] after another part. *)
Definition error_count (zero : list string) (before : list (list string)) (s : string) : bool :=
  found (before ++ [zero; ["error"]]) s.

(** src/src/agent/completion-orchestrator.ts # CompletionOrchestrator.extractTruthClaims @501-535 *)
Definition sentence_claims (claims : list TruthClaim) (sentence : string) : list TruthClaim :=
  if isFutureTense sentence then claims
  else
    let s := lower sentence in
    let add (b : bool) (c : TruthClaim) (claims : list TruthClaim) := if b then claims ++ [c] else claims in
    let checks := ["typecheck"; "tsc"; "类型检查"] in
    let lints := ["lint"; "eslint"] in
    let claims := add (found [checks; ["通过"; "passed"; "成功"]] s || error_count ["0"] [checks] s) tc_typecheck_passed claims in
    let tests := ["test"; "测试"] in
    let claims := add (found [tests; ["通过"; "passed"; "成功"; "全部"]] s || found [tests; ["all"]; ["pass"]] s)
                    tc_tests_passed claims in
    let claims := add (found [["build"; "构建"; "打包"]; ["成功"; "通过"; "passed"; "succeeded"]] s) tc_build_passed claims in
    let claims := add (found [lints; ["通过"; "passed"; "无错误"]] s || error_count ["no"; "0"] [lints] s) tc_lint_passed claims in
    let claims := add (found [["所有"; "全部"; "all"]; ["测试"; "验证"; "检查"; "test"; "tests"; "check"; "checks";
                                "verification"; "verifications"]; ["通过"; "passed"; "成功"]] s)
                    tc_all_verification_passed claims in
    let claims := add (found [["已实现"; "实现了"; "已创建"; "已更新"; "已修改"; "已修复"; "implemented"; "created";
                                "updated"; "modified"; "fixed"; "applied"]] s) tc_implementation_completed claims in
    add ((error_count ["no"; "0"] [] s || found [["零错误"; "没有错误"; "无错误"]] s)
         && negb (bool_decide (tc_typecheck_passed ∈ claims))) tc_no_errors claims.

(** src/src/agent/completion-orchestrator.ts # CompletionOrchestrator.extractTruthClaims @488-539 *)
Definition extractTruthClaims (text : string) : list TruthClaim :=
  fold_left sentence_claims (sentences text) [].

Definition vkind_in (ks : list VerificationKind) (r : VerificationResult) : bool :=
  existsb (fun k => vr_kind r === k) ks && vr_passed r.

(** src/src/agent/completion-orchestrator.ts # CompletionOrchestrator.checkClaimEvidenceContradictions @546-602

    Whether there is evidence for a claim. *)
Definition supported (i : Input) (c : TruthClaim) : bool :=
  let evidence (k : EvidenceKind) (ks : list VerificationKind) :=
    match oi_evidenceLedger i with
    | Some ledger => hasFreshPassingEvidence ledger k (Some (oi_writeGeneration i)) (oi_evidenceBinding i)
                       (shouldRequireEvidenceBinding i)
    | None => existsb (vkind_in ks) (oi_verificationResults i)
    end in
  match c with
  | tc_typecheck_passed | tc_no_errors | tc_lint_passed => evidence e_typecheck [v_typecheck; v_lint]
  | tc_tests_passed | tc_all_verification_passed => evidence e_test [v_test; v_smoke]
  | tc_build_passed => evidence e_build [v_build]
  | tc_implementation_completed =>
      oi_taskHadWrite i || (0 <? oi_taskModifiedFiles i) || negb (is_nil (oi_changedFiles i))
  end.
(** src/src/agent/completion-orchestrator.ts # CompletionOrchestrator.checkClaimEvidenceContradictions

    The claims that are contradicted. *)
Definition checkClaimEvidenceContradictions (claims : list TruthClaim) (i : Input) : list TruthClaim :=
  filter (fun c => supported i c = false) claims.

(** src/src/agent/completion-orchestrator.ts # CompletionOrchestrator.evaluateTruthfulnessGate *)
Definition evaluateTruthfulnessGate (i : Input) (out : Result) : Result + Result :=
  let claims := extractTruthClaims (oi_finalText i) in
  if is_nil claims then inr out
  else if is_nil (checkClaimEvidenceContradictions claims i) then inr out
  else inl (decide_with od_break_blocked (or_injects out) out).

(** ** The decision *)

(** Goes on unless a phase has decided. *)
Definition then_ (r : Result + Result) (next : Result -> Result + Result) : Result + Result :=
  match r with inl out => inl out | inr out => next out end.

(** src/src/agent/completion-orchestrator.ts # CompletionOrchestrator.evaluate *)
Definition evaluate (existsSync : string -> bool) (cwd : string) (i : Input) : Result :=
  let obligationSnapshot := missingTaskRequirements existsSync cwd (oi_taskTracker i) in
  match then_ (evaluateSyncChain i obligationSnapshot) (fun out =>
        then_ (evaluateExternalGate i out obligationSnapshot) (fun out =>
        then_ (evaluateFlashJudge i out obligationSnapshot) (fun out =>
        then_ (evaluateEvidenceGate existsSync i out) (evaluateTruthfulnessGate i)))) with
  | inl out => out
  | inr out => decide_with od_done (or_injects out) out
  end.

(** ** Narrow edits *)

(** src/src/agent/completion-orchestrator.ts # NarrowEditCheckInput

    With the write generation. *)
Record NarrowEditCheckInput := mkNarrow {
  ne_autoFinish : bool; ne_narrowIntent : bool; ne_hadTsWrite : bool; ne_blockingObligations : nat;
  ne_missingNarrowFiles : list string; ne_modifiedFiles : gset string; ne_taskTracker : option Tracker;
  ne_evidenceLedger : option EvidenceLedger; ne_evidenceBinding : option TransactionEvidenceBinding;
  ne_requireEvidenceBinding : bool; ne_writeGeneration : Z }.

(** src/src/agent/completion-orchestrator.ts # NarrowEditCheckResult

    Which of the texts is set, with what it lists. *)
Inductive NarrowEditCheckResult :=
| nc_completed (files : gset string) | nc_missing_files (files : list string)
| nc_evidence (missing : list MissingReason) | nc_nothing.

(** src/src/agent/completion-orchestrator.ts # checkNarrowEditCompletion *)
Definition checkNarrowEditCompletion (existsSync : string -> bool) (n : NarrowEditCheckInput) : NarrowEditCheckResult :=
  let lastTypecheckPassed := match ne_evidenceLedger n with
                             | Some ledger => match deriveLastTypecheck ledger with Some (p, _, _) => p | None => false end
                             | None => false
                             end in
  if ne_autoFinish n && ne_narrowIntent n && ne_hadTsWrite n && (ne_blockingObligations n =? 0)%nat
     && lastTypecheckPassed && is_nil (ne_missingNarrowFiles n)
  then match ne_evidenceLedger n with
       | Some ledger =>
           let evidenceResult := canClaimDone existsSync (tracker_view <$> ne_taskTracker n) ledger None [e_typecheck]
                                   (Some (ne_writeGeneration n)) (ne_evidenceBinding n) (ne_requireEvidenceBinding n) in
           if negb (cc_canClaim evidenceResult) then nc_evidence (cc_missing evidenceResult)
           else nc_completed (ne_modifiedFiles n)
       | None => nc_completed (ne_modifiedFiles n)
       end
  else if negb (is_nil (ne_missingNarrowFiles n)) then nc_missing_files (ne_missingNarrowFiles n)
  else nc_nothing.

(** ** The end of the round *)

(** src/src/provider/types.ts # ProviderFinishReason *)
Inductive ProviderFinishReason :=
| fr_complete | fr_tool_action | fr_truncated_before_action | fr_truncated_after_action | fr_truncated_partial_tool
| fr_transport_failure | fr_auth_failure | fr_quota_failure | fr_cancelled | fr_malformed.
#[export] Instance finish_reason_eq_dec : EqDecision ProviderFinishReason.
Proof. solve_decision. Defined.

(** How a round goes on: it ends the run, the next round is supervised, or the
    tool calls of this one are run. *)
Inductive RoundExit := rx_break (reason : string) | rx_next_round | rx_goes_on.

(** src/src/agent/kernel/round.ts # runRound @722-787

    After the provider's failures are dealt with.  [current] is whether there is
    a plan, [transition] what [tryNodeTransition] returns. *)
Definition finish_round (finishReason : ProviderFinishReason) (toolCalls : nat) (finalText : string)
    (result : Result) (current transition : bool) : RoundExit :=
  if (finishReason === fr_complete) && (toolCalls =? 0)%nat && negb (finalText === "") then
    match or_decision result with
    | od_plan_ready => rx_break "orchestrator_plan_ready"
    | od_continue => rx_next_round
    | od_break_blocked => rx_break "orchestrator_blocked"
    | od_done =>
        if or_tryNodeTransition result && current && transition then rx_next_round else rx_break "orchestrator_done"
    end
  else if (toolCalls =? 0)%nat then
    if (finishReason === fr_truncated_before_action) || (finishReason === fr_truncated_partial_tool)
       || (finishReason === fr_truncated_after_action)
    then rx_goes_on else rx_break "empty_round"
  else rx_goes_on.

(** ** The phases *)





(** No phase that stops says done. *)
Definition undone (r : Result + Result) : Prop := match r with inl out => or_decision out <> od_done | inr _ => True end.

Lemma blocked_undone i : blocked i <> od_done.
Proof. unfold blocked. by destruct (last_round i). Qed.
Lemma chain_undone i missing : undone (evaluateSyncChain i missing).
Proof. unfold evaluateSyncChain, undone. by repeat case_match; simplify_eq/=. Qed.
Lemma external_undone i out missing : undone (evaluateExternalGate i out missing).
Proof. unfold evaluateExternalGate. repeat case_match; try done; apply blocked_undone. Qed.

Lemma is_nil_iff {A} (l : list A) : is_nil l = true <-> l = [].
Proof. by destruct l. Qed.

(** Every mode has exit criteria, so the external gate is always consulted. *)
Lemma external_spec i out missing :
  evaluateExternalGate i out missing =
  if is_nil (evaluateCompletionGate i (or_tracker out) missing) then inr out
  else inl (decide_with (blocked i) (negb (last_round i) || or_injects out) out).
Proof.
  unfold evaluateExternalGate, needsExternalCompletionGate.
  assert (match mc_exitCriteria (MODES (oi_mode i)) with [] => false | _ => true end = true) as ->
    by by destruct (oi_mode i).
  by rewrite orb_true_r.
Qed.



(** ** What the external gate asks for *)

(** The exit criteria of the mode. *)
Definition mode_met (i : Input) : Prop :=
  trim (oi_finalText i) <> "" /\ oi_taskToolErrors i <= 0 /\
  (oi_mode i = mode_repair -> exists ledger, oi_evidenceLedger i = Some ledger /\
     hasFreshPassingEvidence ledger e_typecheck (Some (oi_writeGeneration i)) (oi_evidenceBinding i)
       (oi_taskHadWrite i || (0 <? oi_writeGeneration i)) = true).

Lemma mode_met_iff i :
  checkModeExitCriteria (MODES (oi_mode i)) (oi_taskToolErrors i) (oi_finalText i) (oi_evidenceLedger i)
    (Some (oi_writeGeneration i)) (oi_evidenceBinding i) (oi_taskHadWrite i || (0 <? oi_writeGeneration i)) = []
  <-> mode_met i.
Proof.
  unfold checkModeExitCriteria, mode_met. rewrite filter_nil_iff. rewrite <- same_neq, <- Z.ltb_ge.
  split.
  - intros H. split_and!.
    + apply not_true_is_false. apply (H mx_output_not_empty). destruct (oi_mode i); set_solver.
    + apply not_true_is_false. apply (H mx_no_tool_errors). destruct (oi_mode i); set_solver.
    + intros Em. specialize (H (mx_has_evidence (Some e_typecheck))). rewrite Em in H. cbn in H.
      destruct (oi_evidenceLedger i) as [ledger|]; [|by destruct H; [set_solver|]].
      exists ledger. split; [done|]. apply not_false_is_true. intros E. rewrite E in H. by apply H; [set_solver|].
  - intros (H1 & H2 & H3) c Hc. destruct c as [| |[k|]]; [by rewrite H2|by rewrite H1| |done].
    assert (oi_mode i = mode_repair /\ k = e_typecheck) as [Em ->].
    { destruct (oi_mode i); cbn in Hc; repeat (apply elem_of_cons in Hc as [Hc|Hc]; [by simplify_eq|]); by apply not_elem_of_nil in Hc. }
    destruct (H3 Em) as (ledger & -> & ->). done.
Qed.


Lemma filter_false_nil {A} (f : A -> bool) (l : list A) : filter (fun x => f x = false) l = [] <-> forall x, x ∈ l -> f x = true.
Proof. rewrite filter_nil_iff. setoid_rewrite not_false_iff_true. done. Qed.

Lemma app_nil_map {A B} (f : A -> B) (l : list A) m : map f l ++ m = [] <-> l = [] /\ m = [].
Proof. destruct l; naive_solver. Qed.








Lemma gate_missing_iff i tracker missing :
  evaluateCompletionGate i tracker missing = [] <->
  missing = [] /\ getBlockingObligations (oi_pendingRippleObligations i) = [] /\ lastTypecheck i <> Some false /\
  (oi_taskHadWrite i = true -> oi_verificationResults i = [] -> lastTypecheck i = Some true) /\
  (forall t k, tracker = Some t -> k ∈ tk_requiredVerificationKinds t -> jhas k (tk_verificationEvidence t) = true) /\
  mode_met i.
Proof.
  unfold evaluateCompletionGate. rewrite app_nil_map, !app_nil, <- mode_met_iff.
  assert (forall l : list ModeExitCriterion, map ms_mode l = [] <-> l = []) as -> by by intros [].
  assert (match lastTypecheck i with Some false => [ms_typecheck] | _ => [] end = [] <-> lastTypecheck i <> Some false) as ->
    by by destruct (lastTypecheck i) as [[]|].
  assert (forall bs : list RippleObligation, match bs with [] => [] | r :: l => [ms_ripple (length (r :: l))] end = [] <-> bs = []) as -> by by intros [].
  assert ((if oi_taskHadWrite i && match oi_verificationResults i with [] => true | _ :: _ => false end
              && negb match lastTypecheck i with Some passed => passed | None => false end
           then [ms_no_evidence] else []) = [] <->
          (oi_taskHadWrite i = true -> oi_verificationResults i = [] -> lastTypecheck i = Some true)) as ->.
  { destruct (oi_taskHadWrite i), (oi_verificationResults i), (lastTypecheck i) as [[]|]; cbn; naive_solver. }
  assert (match tracker with
          | Some t => map ms_kind (filter (fun k => jhas k (tk_verificationEvidence t) = false) (tk_requiredVerificationKinds t))
          | None => [] end = [] <->
          (forall t k, tracker = Some t -> k ∈ tk_requiredVerificationKinds t -> jhas k (tk_verificationEvidence t) = true)) as ->;
    [|done].
  destruct tracker as [t|]; [|naive_solver]. 
  assert (forall l : list VerificationKind, map ms_kind l = [] <-> l = []) as -> by by intros [].
  rewrite filter_false_nil. naive_solver.
Qed.



(** ** When the task is done *)







Lemma then_stops r next out : r = inl out -> then_ r next = inl out.
Proof. by intros ->. Qed.


(** ** Consequences *)

(** A run ends as done only through these gates. *)
Lemma round_done_iff existsSync cwd i finishReason toolCalls current transition :
  finish_round finishReason toolCalls (oi_finalText i) (evaluate existsSync cwd i) current transition = rx_break "orchestrator_done" <->
  finishReason = fr_complete /\ toolCalls = 0%nat /\ oi_finalText i <> "" /\
  or_decision (evaluate existsSync cwd i) = od_done /\
  or_tryNodeTransition (evaluate existsSync cwd i) && current && transition = false.
Proof.
  generalize (evaluate existsSync cwd i) as r. intros r. unfold finish_round.
  rewrite <- same_neq, <- (same_eq finishReason), <- Nat.eqb_eq.
  destruct (finishReason === fr_complete), (toolCalls =? 0)%nat, (oi_finalText i === "");
    cbn [negb andb]; repeat case_match; intuition congruence.
Qed.

(** Done, on a tracker kept from its packet on, means that the work of the packet
    was observed, step by step. *)
Lemma done_means_tracked existsSync cwd i p us t :
  tracks p us t -> oi_taskTracker i = Some t -> or_decision (evaluate existsSync cwd i) = od_done ->
  all_ticked p us /\ (forall file, file ∈ pk_scope p -> file_found existsSync cwd file = true).
Proof.
  intros Ht Ei Hd. apply (nothing_missing_iff p us t existsSync cwd Ht). rewrite <- Ei. clear Ht.
  unfold evaluate in Hd. set (missing := missingTaskRequirements _ _ _) in *.
  pose proof (chain_undone i missing) as Hu.
  destruct (evaluateSyncChain i missing) as [out|out]; cbn [then_] in Hd; [done|].
  rewrite external_spec in Hd. destruct (is_nil (evaluateCompletionGate i (or_tracker out) missing)) eqn:Ee.
  - by apply is_nil_iff, gate_missing_iff in Ee as [? _].
  - cbn in Hd. by apply blocked_undone in Hd.
Qed.

(** A narrow edit finishes by itself only with a typecheck of the code as it is,
    whatever else is left out. *)
Lemma narrow_edit_typechecked existsSync n files :
  checkNarrowEditCompletion existsSync n = nc_completed files ->
  files = ne_modifiedFiles n /\ ne_missingNarrowFiles n = [] /\ ne_blockingObligations n = 0%nat /\
  steps_done (tracker_view <$> ne_taskTracker n) /\
  exists ledger e, ne_evidenceLedger n = Some ledger /\ is_latest ledger e_typecheck e /\
    proves (Some (ne_writeGeneration n)) (ne_evidenceBinding n) (ne_requireEvidenceBinding n) e.
Proof.
  unfold checkNarrowEditCompletion. destruct (ne_evidenceLedger n) as [ledger|].
  2: { rewrite andb_false_r. cbn. destruct (is_nil _); by intros. }
  destruct (_ && _) eqn:E; [|destruct (is_nil (ne_missingNarrowFiles n)); by intros].
  rewrite !andb_true_iff in E. destruct E as [[[_ Eo] _] Ef]. apply Nat.eqb_eq in Eo. apply is_nil_iff in Ef.
  destruct (cc_canClaim _) eqn:Ec; cbn [negb]; [|by intros]. intros [= <-].
  apply claim_needs_fresh_evidence in Ec as (Hs & _ & Hk). destruct (Hk e_typecheck) as (e & He); [left; set_solver|].
  split_and!; [done..|]. by exists ledger, e.
Qed.

(** ** Behaviour worth knowing *)

(** A plan is never handed back for approval. *)
Lemma never_plan_ready existsSync cwd i : or_decision (evaluate existsSync cwd i) <> od_plan_ready.
Proof.
  unfold evaluate, evaluateSyncChain, evaluateExternalGate, evaluateFlashJudge, evaluateEvidenceGate,
    evaluateTruthfulnessGate, blocked. generalize (missingTaskRequirements existsSync cwd (oi_taskTracker i)) as missing.
  intros missing. destruct (evaluateSync _ _ _ _) as [c r].
  repeat (cbn [then_ decide_with or_decision]; case_match; simplify_eq/=; try done).
Qed.

Definition quiet (round : Z) (mode : ModeName) (wrote : bool) (debts : list ContextDebt) (ledger : option EvidenceLedger) : Input :=
  mkInput round 10 "Finished" false None [] [] [] wrote 0 0 false 0 ledger None false debts mode 1 true false jv_satisfied.


(** An open context debt stops completion in the last round only: before it the
    gate asks for the debt to be paid, and the decision is done all the same. *)
Lemma open_debt_ignored :
  let decision round := evaluate (fun _ => true) "/w" (quiet round coder false [open_debt cd_locate] None) in
  or_decision (decision 4) = od_done /\ or_injects (decision 4) = true /\ or_decision (decision 9) = od_break_blocked.
Proof. by vm_compute. Qed.

(** A verification that covers all unmanaged writes lifts the demand for a
    transaction from the last gate, but not from the repair mode's own criterion:
    a run that only wrote through the shell is done in one mode and blocked in the
    other. *)
Definition covered_typecheck : EvidenceLedger :=
  [plain_entry "e1" e_typecheck (Some "tsc") "ok" true 0 None (Some 1) None].
Lemma repair_keeps_binding :
  let decision mode := or_decision (evaluate (fun _ => true) "/w" (quiet 4 mode true [] (Some covered_typecheck))) in
  decision coder = od_done /\ decision mode_repair = od_continue.
Proof. by vm_compute. Qed.

(** What the final text is taken to claim: ten errors are none, an unmodified file
    is a modified one, and the usual plural claims nothing. *)
Lemma claims_misread :
  extractTruthClaims "Found 10 errors." = [tc_no_errors] /\
  extractTruthClaims "The file is left unmodified." = [tc_implementation_completed] /\
  extractTruthClaims "12 tests passed." = [] /\
  extractTruthClaims "All tests passed. Next step: docs." = [tc_all_verification_passed].
Proof. by vm_compute. Qed.
