(* ===== verification/ToolPolicy.v ===== *)
(** The policy every tool call passes before it runs.

    Models [src/src/agent/tool-risk.ts], the policy modules of
    [src/src/harness/capabilities/policy], [evaluateToolPolicy] of
    [src/src/agent/tool-execution/policy.ts] and its node-mode input
    ([src/src/harness/capabilities/policy-adapter.ts]).  Messages are
    represented by the gate that produces them. *)
From S2P Require Import Prelude Json Paths Regex PathPattern ToolTypes Permission ModeContract.
Open Scope string_scope.
Open Scope Z_scope.
Open Scope list_scope.
Import Forbidden.

(** ** Risk *)

(** src/src/agent/tool-risk.ts # RiskProfile *)
Record RiskProfile := mkRisk {
  rp_level : Z;
  rp_category : ToolCategory;
  rp_requiresConfirmation : bool;
  rp_sessionAllowable : bool;
}.

(** src/src/agent/tool-risk.ts # HIGH_RISK_THRESHOLD *)
Definition HIGH_RISK_THRESHOLD : Z := 4.
(** src/src/agent/tool-risk.ts # isHighRisk *)
Definition isHighRisk (level : Z) : bool := HIGH_RISK_THRESHOLD <=? level.

Definition free (level : Z) (c : ToolCategory) : RiskProfile := mkRisk level c false true.
Definition guarded (level : Z) (c : ToolCategory) : RiskProfile := mkRisk level c true false.

(** src/src/agent/tool-risk.ts # TOOL_RISK_MAP *)
Definition TOOL_RISK_MAP : list (string * RiskProfile) :=
  [("read_file", free 0 safe); ("find_symbol", free 0 safe); ("find_references", free 0 safe);
   ("project_structure", free 0 safe); ("lsp_diagnostics", free 0 safe); ("lsp_hover", free 0 safe);
   ("lsp_definition", free 0 safe); ("lsp_references", free 0 safe); ("typescript_no_emit", free 0 safe);
   ("codegraph_search", free 0 safe);
   ("git_status", free 1 git); ("git_diff", free 1 git); ("git_log", free 1 git); ("git_blame", free 1 git);
   ("task", free 1 safe);
   ("git_add", free 2 git);
   ("write_file", free 2 file); ("edit_file", free 2 file); ("multi_edit", free 2 file); ("edit_fim", free 2 file);
   ("rollback_transaction", free 2 file);
   ("web_search", free 3 network); ("web_fetch", free 3 network);
   ("shell", guarded 4 shell); ("start_service", guarded 4 shell);
   ("git_commit", guarded 4 git); ("git_push", guarded 4 git); ("git_branch", guarded 4 git);
   ("git_merge", guarded 4 git); ("git_rebase", guarded 4 git); ("git_reset", guarded 4 git);
   ("git_stash", guarded 4 git); ("git_tag", guarded 4 git)].

(** src/src/agent/tool-risk.ts # RISK_5_PARAM_PATTERNS

    Tool, parameter, pattern. *)
Definition RISK_5_PARAM_PATTERNS : list (string * string * RegExp) :=
  [("shell", "command", literal "rm\s+-rf\s+\/|:\(\)\s*\{\s*:\|:&\s*\};:|mkfs\.|dd\s+if=\/dev\/zero" true);
   ("shell", "command", literal "curl.*\|\s*(ba)?sh|wget.*\|\s*(ba)?sh" true);
   ("shell", "command", literal ">\s*\/dev\/sda|>\s*\/dev\/nvme" true);
   ("shell", "command", literal "chmod\s+777\s+\/|chown\s+-R\s+\/" true)].

(** src/src/agent/tool-risk.ts # CATEGORY_DEFAULT_RISK *)
Definition CATEGORY_DEFAULT_RISK (c : ToolCategory) : RiskProfile :=
  match c with
  | safe => free 0 safe
  | file => free 2 file
  | network => free 3 network
  | shell => guarded 4 shell
  | git => free 1 git
  end.

Definition risk_5_pattern (toolName : string) (params : jsval) (rule : string * string * RegExp) : bool :=
  let '(tool, key, pattern) := rule in
  (tool === toolName) && RegExp_test pattern (param_text params key).

(** src/src/agent/tool-risk.ts # getToolRisk *)
Definition getToolRisk (toolName : string) (params : jsval) (tool : option ToolDef) : RiskProfile :=
  let secret := match jor (field "path" params) (field "file_path" params) with
                | JStr targetPath => isForbiddenSecretPath targetPath
                | _ => false
                end in
  if (toolName === "write_file") && secret then guarded 5 shell
  else if existsb (risk_5_pattern toolName params) RISK_5_PARAM_PATTERNS then guarded 5 shell
  else match jget toolName TOOL_RISK_MAP with
       | Some profile => profile
       | None =>
           match tool ≫= td_category with
           | Some c => CATEGORY_DEFAULT_RISK c
           | None => if match tool with Some t => td_isReadonly t | None => false end
                     then CATEGORY_DEFAULT_RISK safe else guarded 4 shell
           end
       end.

(** src/src/agent/tool-risk.ts # canAutoAllow *)
Definition canAutoAllow (risk : RiskProfile) : bool := rp_sessionAllowable risk.

(** src/src/agent/tool-risk.ts # isToolRiskInvocationSensitive *)
Definition isToolRiskInvocationSensitive (toolName : string) : bool :=
  (toolName === "write_file") || (toolName === "start_service") ||
  existsb (fun rule : string * string * RegExp => rule.1.1 === toolName) RISK_5_PARAM_PATTERNS.

(** ** The policy modules *)

Inductive PermissionMode := full | strict.
#[export] Instance permission_mode_eq_dec : EqDecision PermissionMode.
Proof. solve_decision. Defined.

(** src/src/harness/capabilities/policy/approval-policy.ts # approvalDecision

    [None] when the call may proceed, otherwise the reason. *)
Definition approvalDecision (gateLevel : PermissionLevel) (permissionMode : PermissionMode) : option string :=
  match gateLevel, permissionMode with
  | allow, _ => None
  | deny, _ => Some "permission:deny"
  | ask, strict => Some "permission:ask:strict"
  | ask, full => None
  end.

(** src/src/harness/capabilities/policy/network-policy.ts # networkToolBlocked *)
Definition networkToolBlocked (toolName : string) (webSearchFailedThisTurn : bool) : bool :=
  (toolName === "web_search") && webSearchFailedThisTurn.

(** src/src/harness/capabilities/policy/writable-root-policy.ts # extractWritePaths *)
Definition extractWritePaths (input : jsval) : list string :=
  omap (fun key => match field key input with JStr "" => None | JStr v => Some v | _ => None end)
    ["path"; "file"; "target"; "destination"].

(** src/src/harness/capabilities/policy/writable-root-policy.ts # isInside *)
Definition isInside (cwd root target : string) : bool :=
  let rel := path_relative cwd root target in
  (rel === "") || (negb (match after_prefix ".." rel with Some _ => true | None => false end) && negb (isAbsolute rel)).

(** src/src/harness/capabilities/policy/writable-root-policy.ts # checkWritablePath *)
Definition checkWritablePath (cwd path projectRoot : string) (writableRoots : option (list string)) : bool :=
  let roots := match writableRoots with Some (r :: rs) => r :: rs | _ => [projectRoot] end in
  let absolute := if isAbsolute path then path else path_resolve cwd [projectRoot; path] in
  existsb (fun root =>
    isInside cwd (if isAbsolute root then root else path_resolve cwd [projectRoot; root]) absolute) roots.

(** src/src/harness/capabilities/policy/writable-root-policy.ts # checkWritePaths *)
Definition checkWritePaths (cwd : string) (input : jsval) (projectRoot : string) (writableRoots : option (list string)) : bool :=
  forallb (fun path => checkWritablePath cwd path projectRoot writableRoots) (extractWritePaths input).

(** src/src/harness/capabilities/policy/risk-policy.ts # highRiskConfirmationGate

    The level that is refused. *)
Definition highRiskConfirmationGate (evalMode : bool) (tool : option ToolDef) (input : jsval)
    (permissionMode : PermissionMode) : option Z :=
  match tool with
  | None => None
  | Some t =>
      if evalMode then None
      else
        let risk := getToolRisk (td_name t) input tool in
        if negb (isHighRisk (rp_level risk)) then None
        else if negb (permissionMode === full) then None
        else Some (rp_level risk)
  end.

(** src/src/harness/capabilities/policy/risk-policy.ts # isSessionAllowableRisk *)
Definition isSessionAllowableRisk (level : Z) : bool := level <? 4.

(** src/src/harness/capabilities/policy/concurrency-policy.ts # SERIAL_GROUPS *)
Definition SERIAL_GROUPS : list string := ["write"; "external"].
(** src/src/harness/capabilities/policy/concurrency-policy.ts # concurrencyPolicyFor *)
Definition concurrencyPolicyFor (group : string) (declaredMax : option Z) : Z :=
  match declaredMax with
  | Some n => n
  | None => if includes SERIAL_GROUPS group then 1 else 9007199254740991
  end.
(** src/src/harness/capabilities/policy/concurrency-policy.ts # checkConcurrency *)
Definition checkConcurrency (group : string) (activeCount : Z) (declaredMax : option Z) : bool :=
  activeCount <? concurrencyPolicyFor group declaredMax.

(** ** The chain of gates *)

(** src/src/agent/tool-execution/policy.ts # ToolPolicyInput

    The members the chain reads; [ti_rateLimits] gives each category's count. *)
Record ToolPolicyInput := mkPolicyInput {
  ti_name : string;
  ti_input : jsval;
  ti_tool : option ToolDef;
  ti_intentMode : string;
  ti_rippleBlockActive : bool;
  ti_permissionGate : PermissionGate;
  ti_permissionMode : PermissionMode;
  ti_rateLimits : ToolCategory -> Z;
  ti_webSearchFailedThisTurn : bool;
  ti_modeContract : option ModeContract;
  ti_projectRoot : option string;
  ti_writableRoots : option (list string);
}.

(** The gate that blocks a call. *)
Inductive PolicyBlock :=
| pb_rate_limit
| pb_permission (level : PermissionLevel) (reason : string)
| pb_writable_root
| pb_readonly_intent
| pb_ripple_block
| pb_web_search_failed
| pb_mode_contract (refusal : ModeRefusal)
| pb_tool_risk (level : Z).

(** The [priority] of the blocking result. *)
Definition block_priority (b : PolicyBlock) : Z :=
  match b with
  | pb_rate_limit => 1
  | pb_permission _ _ | pb_writable_root => 2
  | pb_readonly_intent => 3
  | pb_ripple_block => 4
  | pb_web_search_failed | pb_mode_contract _ => 7
  | pb_tool_risk _ => 8
  end.

(** src/src/agent/tool-execution/policy.ts # ToolPolicyResult *)
Inductive ToolPolicyResult :=
| PolicyAllowed (category : ToolCategory)
| PolicyBlocked (category : ToolCategory) (by_gate : PolicyBlock).

(** [incrementRateLimit]: the call counts whatever the verdict. *)
Definition policy_category (r : ToolPolicyResult) : ToolCategory :=
  match r with PolicyAllowed c | PolicyBlocked c _ => c end.
Definition policy_allowed (r : ToolPolicyResult) : bool :=
  match r with PolicyAllowed _ => true | PolicyBlocked _ _ => false end.

(** src/src/agent/tool-execution/policy.ts # RATE_CAPS

    [None] is [Infinity]. *)
Definition RATE_CAPS (c : ToolCategory) : option Z :=
  match c with safe | git => None | shell => Some 5 | file => Some 10 | network => Some 3 end.

(** Each gate, as the block it raises. *)
Section gates.
Context `{HostRegExp}.
Variable cwd : string.
Variable evalMode : bool.
Variable input : ToolPolicyInput.

Definition input_category : ToolCategory := inferToolCategory (ti_name input) (ti_tool input).
Definition input_risk : option Z :=
  rp_level ∘ getToolRisk (ti_name input) (ti_input input) ∘ Some <$> ti_tool input.
(** A descriptor that is there and not read-only. *)
Definition writes_files : bool := match ti_tool input with Some t => negb (td_isReadonly t) | None => false end.

Definition rate_gate : option PolicyBlock :=
  match RATE_CAPS input_category with
  | Some cap => if cap <=? ti_rateLimits input input_category then Some pb_rate_limit else None
  | None => None
  end.
Definition permission_block (perm : PermissionResult) : option PolicyBlock :=
  if pr_allowed perm then None
  else pb_permission (pr_level perm) <$> approvalDecision (pr_level perm) (ti_permissionMode input).
Definition permission_gate : res string (option PolicyBlock) :=
  match ti_tool input with
  | None => if ti_name input === "unknown" then Ok None
            else perm ← gate_check (ti_permissionGate input) (ti_name input) (ti_input input) None None;
                 Ok (permission_block perm)
  | Some t => perm ← gate_check (ti_permissionGate input) (ti_name input) (ti_input input) (Some t) input_risk;
              Ok (permission_block perm)
  end.
Definition writable_root_gate : option PolicyBlock :=
  match truthy_string (ti_projectRoot input) with
  | Some root =>
      if writes_files && negb (checkWritePaths cwd (ti_input input) root (ti_writableRoots input))
      then Some pb_writable_root else None
  | None => None
  end.
Definition readonly_gate : option PolicyBlock :=
  if writes_files && (ti_intentMode input === "readonly") then Some pb_readonly_intent else None.
Definition ripple_gate : option PolicyBlock :=
  if writes_files && ti_rippleBlockActive input then Some pb_ripple_block else None.
Definition network_gate : option PolicyBlock :=
  if networkToolBlocked (ti_name input) (ti_webSearchFailedThisTurn input) then Some pb_web_search_failed else None.
Definition mode_gate : option PolicyBlock :=
  pb_mode_contract <$> (ti_modeContract input ≫= fun m => enforceModeTools m (ti_name input)).
Definition risk_gate : option PolicyBlock :=
  pb_tool_risk <$> highRiskConfirmationGate evalMode (ti_tool input) (ti_input input) (ti_permissionMode input).

(** The gates after the permission gate, in order. *)
Definition later_gates : list (option PolicyBlock) :=
  [writable_root_gate; readonly_gate; ripple_gate; network_gate; mode_gate; risk_gate].
Fixpoint first_block (gates : list (option PolicyBlock)) : option PolicyBlock :=
  match gates with
  | [] => None
  | Some b :: _ => Some b
  | None :: gates => first_block gates
  end.

(** src/src/agent/tool-execution/policy.ts # evaluateToolPolicy *)
Definition evaluateToolPolicy : res string ToolPolicyResult :=
  match rate_gate with
  | Some b => Ok (PolicyBlocked input_category b)
  | None =>
      permission ← permission_gate;
      Ok (match first_block (permission :: later_gates) with
          | Some b => PolicyBlocked input_category b
          | None => PolicyAllowed input_category
          end)
  end.
End gates.

(** ** Node mode *)

(** src/src/harness/capabilities/policy-adapter.ts # NodePolicyContext *)
Record NodePolicyContext := mkNodePolicy {
  np_permissionGate : PermissionGate;
  np_permissionMode : option PermissionMode;
  np_modeContract : option ModeContract;
  np_tool : option ToolDef;
  np_input : jsval;
  np_name : option string;
  np_projectRoot : option string;
  np_writableRoots : option (list string);
}.

(** src/src/harness/capabilities/policy-adapter.ts # buildNodePolicyInput *)
Definition buildNodePolicyInput (c : NodePolicyContext) : ToolPolicyInput :=
  mkPolicyInput
    (match np_name c with Some n => n | None => default "unknown" (td_name <$> np_tool c) end)
    (np_input c) (np_tool c) "default" false (np_permissionGate c) (default strict (np_permissionMode c))
    (fun _ => 0) false (np_modeContract c) (np_projectRoot c)
    (match np_writableRoots c with
     | Some roots => Some roots
     | None => (fun root => [root]) <$> truthy_string (np_projectRoot c)
     end).

(** src/src/harness/nodes/context.ts # createDefaultNodePolicyContext *)
Definition createDefaultNodePolicyContext (input : jsval) (tool : option ToolDef) (name : option string) : NodePolicyContext :=
  mkNodePolicy newPermissionGate (Some strict) None tool input name None None.

Definition config_of (r : ConfigLoadResult) : option PermissionConfig :=
  match r with cfg_valid c => Some c | _ => None end.
Definition is_invalid (r : ConfigLoadResult) : bool := match r with cfg_invalid _ => true | _ => false end.
(** [{ ...a, ...b }] on category overrides. *)
Definition spread_fields (v : jsval) : list (string * jsval) := match v with JObj fs => fs | _ => [] end.
Definition merge_overrides (a b : option PermissionConfig) : list (string * jsval) :=
  let fields o := match o with Some c => spread_fields (cf_categoryOverrides c) | None => [] end in
  fold_left (fun acc kv => jset kv.1 kv.2 acc) (fields a ++ fields b) [].

(** src/src/harness/nodes/context.ts # createNodePolicyContextFromRunScope

    From the two configuration files, the run's root and its mode. *)
Definition createNodePolicyContextFromRunScope (userFile projectFile : ConfigFile) (projectRoot : string) (mode : ModeName)
    (input : jsval) (tool : option ToolDef) (name : option string) : NodePolicyContext :=
  let userCfg := loadConfigFile userFile in
  let projectCfg := loadConfigFile projectFile in
  let rules r := match config_of r with Some c => cf_rules c | None => [] end in
  let gate := loadRules (rules userCfg) (rules projectCfg)
                (Some (merge_overrides (config_of projectCfg) (config_of userCfg))) newPermissionGate in
  let gate := if is_invalid userCfg || is_invalid projectCfg then enterSafeMode "config" gate else gate in
  mkNodePolicy gate (Some strict) (Some (MODES mode)) tool input name (Some projectRoot) (Some [projectRoot]).

(** ** Properties *)

(** A path that stays under a root, by its segments. *)
Definition under_root (cwd root path : string) : Prop :=
  exists rest, resolve_segs cwd [path] = resolve_segs cwd [root] ++ rest.

Lemma join_starts_up up down : up <> [] ->
  after_prefix ".." (js_join "/" (map (fun _ : string => "..") up ++ down)) <> None.
Proof. destruct up as [|u up]; [done|]. intros _. cbn [map app]. by destruct (map _ up ++ down). Qed.

Lemma isInside_under cwd root target : isInside cwd root target = true -> under_root cwd root target.
Proof.
  unfold isInside, path_relative, under_root.
  destruct (strip_common _ _) as [up down] eqn:E. apply strip_common_spec in E as (common & -> & ->).
  destruct up as [|u up]; [intros _; exists down; by rewrite app_nil_r|].
  pose proof (join_starts_up (u :: up) down ltac:(done)) as Hj.
  destruct (after_prefix ".." _) eqn:Ea; [|done]. cbn [negb andb]. rewrite orb_false_r. intros Hr. reflect.
  rewrite Hr in Ea. done.
Qed.

(** Where the root policy resolves a written path. *)
Definition write_target (cwd projectRoot path : string) : string :=
  if isAbsolute path then path else path_resolve cwd [projectRoot; path].
Definition effective_roots (projectRoot : string) (writableRoots : option (list string)) : list string :=
  match writableRoots with Some (r :: rs) => r :: rs | _ => [projectRoot] end.

Lemma checkWritePaths_under cwd input projectRoot writableRoots :
  checkWritePaths cwd input projectRoot writableRoots = true ->
  forall path, path ∈ extractWritePaths input ->
  exists root, root ∈ effective_roots projectRoot writableRoots /\
    under_root cwd (write_target cwd projectRoot root) (write_target cwd projectRoot path).
Proof.
  unfold checkWritePaths. rewrite forallb_forall. intros H path Hp.
  specialize (H path (proj1 (list_elem_of_In _ _) Hp)). unfold checkWritablePath in H.
  apply existsb_exists in H as (root & Hr & Hi). exists root. split; [by apply list_elem_of_In|].
  by apply isInside_under.
Qed.

Lemma elem_of_write_paths input path :
  path ∈ extractWritePaths input <->
  path <> "" /\ exists key, key ∈ ["path"; "file"; "target"; "destination"] /\ field key input = JStr path.
Proof.
  unfold extractWritePaths. rewrite list_elem_of_omap. split.
  - intros (key & Hk & Hf). destruct (field key input) as [| | | |[|c s]| |] eqn:E; simplify_eq.
    split; [done|]. by exists key.
  - intros (Hne & key & Hk & Hf). exists key. split; [done|]. rewrite Hf. by destruct path.
Qed.

Section chain.
Context `{HostRegExp}.
Implicit Types (input : ToolPolicyInput).

(** A verdict of the gate is allowed exactly when its level says so. *)
Definition leveled (r : PermissionResult) : Prop := pr_allowed r = true <-> pr_level r = allow.

Lemma gate_check_leveled g toolName params tool risk r :
  gate_check g toolName params tool risk = Ok r -> leveled r.
Proof.
  assert (Hd : forall x, leveled (denied x)) by done. assert (Ha : forall x, leveled (asked x)) by done.
  assert (Hg : forall x, leveled (granted x)) by done.
  unfold gate_check. intros Hc.
  apply or_else_Ok in Hc as [[= E1]|[_ Hc]].
  { unfold global_denial in E1. destruct (List.find _ _); [|done]. by injection E1 as <-. }
  apply or_else_Ok in Hc as [[_ [? ->]]%rule_verdict_Some|[_ Hc]]; [done|].
  apply or_else_Ok in Hc as [[= E2]|[_ Hc]].
  { unfold safe_mode_verdict in E2. by cases_in E2. }
  apply or_else_Ok in Hc as [[_ [? ->]]%rule_verdict_Some|[_ Hc]]; [done|].
  apply or_else_Ok in Hc as [[= E3]|[_ Hc]].
  { unfold override_verdict in E3. by cases_in E3. }
  apply or_else_Ok in Hc as [[_ [? ->]]%rule_verdict_Some|[_ Hc]]; [done|].
  apply or_else_Ok in Hc as [[_ [? ->]]%rule_verdict_Some|[_ Hc]]; [done|].
  injection Hc as <-. unfold default_verdict. destruct (tool ≫= td_permission) as [[]|]; try done;
    by destruct (default_permission _ _).
Qed.

(** The permission gate lets the call on: nothing names a tool, the gate allows
    it, or it asks and the mode is full. *)
Definition permission_ok input : Prop :=
  (ti_tool input = None /\ ti_name input = "unknown") \/
  exists perm, gate_check (ti_permissionGate input) (ti_name input) (ti_input input) (ti_tool input) (input_risk input) = Ok perm /\
    (pr_allowed perm = true \/ (pr_level perm = ask /\ ti_permissionMode input = full)).

Lemma permission_block_iff input perm : leveled perm ->
  permission_block input perm = None <->
  pr_allowed perm = true \/ (pr_level perm = ask /\ ti_permissionMode input = full).
Proof.
  unfold permission_block, leveled. intros Hl. destruct (pr_allowed perm); [naive_solver|].
  destruct (pr_level perm), (ti_permissionMode input); cbn; naive_solver.
Qed.

Lemma permission_gate_iff input o : permission_gate input = Ok o -> o = None <-> permission_ok input.
Proof.
  unfold permission_gate, permission_ok.
  destruct (ti_tool input) as [t|] eqn:Et; [|destruct (ti_name input === "unknown") eqn:En; reflect].
  - destruct (gate_check _ _ _ _ _) as [perm|] eqn:E; [|done]. cbn [mbind res_bind]. intros [= <-].
    rewrite permission_block_iff by (by eapply gate_check_leveled). naive_solver.
  - intros [= <-]. split; [|done]. intros _. by left.
  - assert (Hr : input_risk input = None) by (unfold input_risk; by rewrite Et). rewrite Hr.
    destruct (gate_check _ _ _ _ _) as [perm|] eqn:E; [|done]. cbn [mbind res_bind]. intros [= <-].
    rewrite permission_block_iff by (by eapply gate_check_leveled). naive_solver.
Qed.

Lemma first_block_iff gates : first_block gates = None <-> Forall (fun o => o = None) gates.
Proof. induction gates as [|[b|] gates IH]; cbn [first_block]; [done| |]; rewrite Forall_cons; naive_solver. Qed.

(** Everything the chain asks of a call, gate by gate. *)
Record cleared (cwd : string) (evalMode : bool) input : Prop := mkCleared {
  cl_rate : forall cap, RATE_CAPS (input_category input) = Some cap -> ti_rateLimits input (input_category input) < cap;
  cl_permission : permission_ok input;
  cl_root : forall root, truthy_string (ti_projectRoot input) = Some root -> writes_files input = true ->
      checkWritePaths cwd (ti_input input) root (ti_writableRoots input) = true;
  cl_intent : writes_files input = true -> ti_intentMode input <> "readonly";
  cl_ripple : writes_files input = true -> ti_rippleBlockActive input = false;
  cl_network : ti_name input = "web_search" -> ti_webSearchFailedThisTurn input = false;
  cl_mode : forall m, ti_modeContract input = Some m -> enforceModeTools m (ti_name input) = None;
  cl_risk : forall t, ti_tool input = Some t -> ti_permissionMode input = full -> evalMode = false ->
      rp_level (getToolRisk (td_name t) (ti_input input) (Some t)) < 4;
}.

Lemma if_None_iff (b : bool) (x : PolicyBlock) : (if b then Some x else None) = None <-> b = false.
Proof. by destruct b. Qed.

Lemma rate_gate_iff input :
  rate_gate input = None <->
  forall cap, RATE_CAPS (input_category input) = Some cap -> ti_rateLimits input (input_category input) < cap.
Proof.
  unfold rate_gate. destruct (RATE_CAPS _) as [cap|]; [|naive_solver].
  rewrite if_None_iff, Z.leb_gt. naive_solver.
Qed.

Lemma writable_root_gate_iff cwd input :
  writable_root_gate cwd input = None <->
  forall root, truthy_string (ti_projectRoot input) = Some root -> writes_files input = true ->
    checkWritePaths cwd (ti_input input) root (ti_writableRoots input) = true.
Proof.
  unfold writable_root_gate. destruct (truthy_string _) as [root|]; [|naive_solver].
  rewrite if_None_iff, andb_false_iff, negb_false_iff. split; [|intros Hx; destruct (writes_files input); naive_solver].
  intros [?|?] ? [= <-]; congruence.
Qed.

Lemma risk_gate_iff evalMode input :
  risk_gate evalMode input = None <->
  forall t, ti_tool input = Some t -> ti_permissionMode input = full -> evalMode = false ->
    rp_level (getToolRisk (td_name t) (ti_input input) (Some t)) < 4.
Proof.
  unfold risk_gate, highRiskConfirmationGate, isHighRisk, HIGH_RISK_THRESHOLD. rewrite fmap_None.
  destruct (ti_tool input) as [t|]; [|naive_solver]. destruct evalMode; [naive_solver|].
  destruct (4 <=? _) eqn:E; reflect; cbn [negb]; [|naive_solver].
  destruct (ti_permissionMode input); cbn; [|naive_solver]. split; [done|]. intros Hx.
  specialize (Hx t eq_refl eq_refl eq_refl). lia.
Qed.

Lemma evaluate_cleared cwd evalMode input r :
  evaluateToolPolicy cwd evalMode input = Ok r -> policy_allowed r = true <-> cleared cwd evalMode input.
Proof.
  unfold evaluateToolPolicy. destruct (rate_gate input) as [b|] eqn:Er.
  { intros [= <-]. split; [done|]. intros [Hr _ _ _ _ _ _ _]. by rewrite (proj2 (rate_gate_iff input) Hr) in Er. }
  destruct (permission_gate input) as [p|] eqn:Ep; [|done]. cbn [mbind res_bind]. intros Hr.
  transitivity (first_block (p :: later_gates cwd evalMode input) = None).
  { destruct (first_block (p :: later_gates cwd evalMode input)); by simplify_eq. }
  rewrite first_block_iff. unfold later_gates. rewrite !Forall_cons, Forall_nil.
  rewrite (permission_gate_iff _ _ Ep), writable_root_gate_iff, risk_gate_iff.
  assert (Hw : forall b : bool, writes_files input && b = false <-> (writes_files input = true -> b = false))
    by (intros []; destruct (writes_files input); naive_solver).
  unfold readonly_gate, ripple_gate, network_gate, mode_gate, networkToolBlocked.
  rewrite !if_None_iff, !Hw, same_neq, andb_false_iff, same_neq, fmap_None, bind_None.
  split.
  - intros (H1 & H2 & H3 & H4 & H5 & H6 & H7 & _).
    constructor; try done; [by apply rate_gate_iff|by destruct H5|].
    intros m Hm. destruct H6 as [?|(m' & Hm' & He)]; congruence.
  - intros [H1 H2 H3 H4 H5 H6 H7 H8]. split_and!; try done.
    + destruct (ti_webSearchFailedThisTurn input); [left; intros Hn; by specialize (H6 Hn)|by right].
    + destruct (ti_modeContract input) as [m|]; [right; by eauto|by left].
Qed.

Lemma secret_risk t params : td_name t = "write_file" ->
  (exists p, jor (field "path" params) (field "file_path" params) = JStr p /\ isForbiddenSecretPath p = true) ->
  rp_level (getToolRisk (td_name t) params (Some t)) = 5.
Proof. intros -> (p & E & Hp). unfold getToolRisk. by rewrite E, Hp, same_refl. Qed.

Lemma mapped_risk name profile params tool : jget name TOOL_RISK_MAP = Some profile -> rp_level profile <= 5 ->
  rp_level profile <= rp_level (getToolRisk name params tool).
Proof.
  intros Hm H5. unfold getToolRisk. rewrite Hm. destruct (_ && _); [done|].
  by destruct (existsb _ RISK_5_PARAM_PATTERNS).
Qed.

Lemma named_risk name params tool : name = "shell" \/ name = "git_commit" -> 4 <= rp_level (getToolRisk name params tool).
Proof.
  intros Hn. assert (Hm : exists c, jget name TOOL_RISK_MAP = Some (guarded 4 c))
    by (destruct Hn as [-> | ->]; [exists shell|exists git]; vm_compute; reflexivity).
  destruct Hm as [c Hm]. apply (mapped_risk _ _ params tool Hm). done.
Qed.

(** nothing dangerous runs unasked: whatever the approvals, modes and the rest of
    the round, an allowed call is denied by no global or user rule, nor, unless
    safe mode covers it, by a project rule or the session; in strict mode the gate
    itself let it through, so that no confirmation was due; in full mode
    (evaluation runs apart) its risk is at most 3, so that it is no shell command,
    no commit and no write of a secret file. *)
Theorem policy_no_unconfirmed_danger cwd evalMode input t c :
  evaluateToolPolicy cwd evalMode input = Ok (PolicyAllowed c) ->
  ti_tool input = Some t -> td_name t = ti_name input ->
  ~ firmly_denied (ti_permissionGate input) (ti_name input) (ti_input input) /\
  (hard_denied (ti_permissionGate input) (ti_name input) (ti_input input) ->
     in_safe_mode (ti_permissionGate input) /\ safe_mode_covers (Some t) /\ ti_permissionMode input = full) /\
  (ti_permissionMode input = strict ->
     let_through (ti_permissionGate input) (ti_name input) (ti_input input) (Some t) (input_risk input)) /\
  (ti_permissionMode input = full -> evalMode = false ->
     rp_level (getToolRisk (ti_name input) (ti_input input) (Some t)) <= 3 /\
     ti_name input <> "shell" /\ ti_name input <> "git_commit" /\
     forall p, ti_name input = "write_file" ->
       jor (field "path" (ti_input input)) (field "file_path" (ti_input input)) = JStr p ->
       isForbiddenSecretPath p = false).
Proof.
  intros He Ht Hn. apply evaluate_cleared in He as [He' _]. specialize (He' eq_refl).
  destruct He' as [_ [[Hno _]|(perm & Hp & Hok)] _ _ _ _ _ Hrisk]; [congruence|].
  rewrite Ht in Hp. pose proof (gate_allows _ _ _ _ _ _ Hp) as Ha. pose proof (gate_denies _ _ _ _ _ _ Hp) as Hd.
  assert (Hnd : pr_level perm <> deny).
  { destruct Hok as [Hok|[-> _]]; [|done]. apply gate_check_leveled in Hp. apply Hp in Hok. congruence. }
  split_and!.
  - tauto.
  - intros Hh. destruct (ti_permissionMode input) eqn:Em; [|destruct Hok as [Hok|[_ Hok]]; [|done]; tauto].
    assert (Hs : ~ ~ (in_safe_mode (ti_permissionGate input) /\ safe_mode_covers (Some t))) by tauto.
    enough (in_safe_mode (ti_permissionGate input) /\ safe_mode_covers (Some t)) as [? ?] by done.
    rewrite <- safe_mode_verdict_iff in Hs |- *. destruct (safe_mode_verdict _ _); [done|].
    exfalso. apply Hs. intros Hc. by apply Hc.
  - intros Hs. destruct Hok as [Hok|[_ Hm]]; [|congruence]. tauto.
  - intros Hm Hev. specialize (Hrisk t Ht Hm Hev). rewrite Hn in Hrisk.
    split_and!; [lia| | |].
    + intros E. pose proof (named_risk _ (ti_input input) (Some t) (or_introl E)). lia.
    + intros E. pose proof (named_risk _ (ti_input input) (Some t) (or_intror E)). lia.
    + intros p E Hj. apply not_true_iff_false. intros Hf. rewrite <- Hn in Hrisk, E.
      rewrite (secret_risk t) in Hrisk; [lia|done|by exists p].
Qed.
End chain.

(** a node writes inside its run: a tool call that the policy of a run scope
    allows to a node was let through by the permission files without a
    confirmation being due, every path it declares (under the keys the boundary
    reads) resolves under the project root, and when the run is in a mode that
    only reads, the tool is no writer and no shell. *)
Theorem node_writes_confined `{HostRegExp} cwd evalMode userFile projectFile root mode params t name c :
  evaluateToolPolicy cwd evalMode
    (buildNodePolicyInput (createNodePolicyContextFromRunScope userFile projectFile root mode params (Some t) (Some name)))
    = Ok (PolicyAllowed c) ->
  root <> "" -> isAbsolute root = true -> td_isReadonly t = false ->
  let_through (np_permissionGate (createNodePolicyContextFromRunScope userFile projectFile root mode params (Some t) (Some name)))
    name params (Some t) (Some (rp_level (getToolRisk name params (Some t)))) /\
  (forall key path, key ∈ ["path"; "file"; "target"; "destination"] -> field key params = JStr path -> path <> "" ->
     under_root cwd root (write_target cwd root path)) /\
  (mode <> coder -> mode <> mode_repair -> name ∉ WRITE_TOOLS ++ SHELL_TOOLS).
Proof.
  intros He Hr Ha Hro. apply evaluate_cleared in He as [He' _]. specialize (He' eq_refl).
  set (ctx := createNodePolicyContextFromRunScope userFile projectFile root mode params (Some t) (Some name)) in *.
  destruct He' as [_ [[Hno _]|(perm & Hp & Hok)] Hroot _ _ _ Hmode _]; [done|]. split_and!.
  - assert (Hal : pr_allowed perm = true) by (by destruct Hok as [?|[_ ?]]).
    by apply (gate_allows _ _ _ _ _ _ Hp) in Hal as (_ & _ & ?).
  - intros key path Hk Hf Hne.
    assert (Ht : truthy_string (ti_projectRoot (buildNodePolicyInput ctx)) = Some root)
      by (subst ctx; cbn; by destruct root).
    specialize (Hroot root Ht). assert (Hw : writes_files (buildNodePolicyInput ctx) = true)
      by (unfold writes_files; cbn; by rewrite Hro).
    specialize (Hroot Hw). eapply checkWritePaths_under in Hroot as (r & Hin & Hu);
      [|apply elem_of_write_paths; split; [exact Hne|by exists key]].
    cbn in Hin. apply list_elem_of_singleton in Hin as ->. unfold write_target in Hu at 1. by rewrite Ha in Hu.
  - intros H1 H2. specialize (Hmode (MODES mode) eq_refl). by apply (readonly_mode_admits mode name H1 H2) in Hmode as [? _].
Qed.

(** ** Witnesses and what the code does not intend *)

Definition user_config : ConfigFile := no_file.
(** The project lets its formatter write. *)
Definition project_config : ConfigFile :=
  json_text (JObj [("rules", JArr [JObj [("toolName", JStr "write_file"); ("paramKey", JStr "path");
    ("pathPattern", JStr "src/**"); ("level", JStr "allow"); ("reason", JStr "sources")]])]).
Definition writer : ToolDef := plain_tool "write_file" false (Some file).

Lemma node_writes_confined_witness :
  let_through (H := no_foreign)
    (np_permissionGate (createNodePolicyContextFromRunScope user_config project_config "/w" coder
                          (one_param "path" "src/a.ts") (Some writer) (Some "write_file")))
    "write_file" (one_param "path" "src/a.ts") (Some writer)
    (Some (rp_level (getToolRisk "write_file" (one_param "path" "src/a.ts") (Some writer)))) /\
  (forall key path, key ∈ ["path"; "file"; "target"; "destination"] ->
     field key (one_param "path" "src/a.ts") = JStr path -> path <> "" ->
     under_root "/tmp" "/w" (write_target "/tmp" "/w" path)) /\
  (coder <> coder -> coder <> mode_repair -> "write_file" ∉ WRITE_TOOLS ++ SHELL_TOOLS).
Proof.
  apply (node_writes_confined (H := no_foreign) "/tmp" false user_config project_config "/w" coder
           (one_param "path" "src/a.ts") writer "write_file" file); [|done..].
  vm_compute. reflexivity.
Defined.

(** A round in full mode. *)
Definition round_input (name : string) (params : jsval) (t : ToolDef) (g : PermissionGate) (m : PermissionMode)
    (mode : option ModeContract) : ToolPolicyInput :=
  mkPolicyInput name params (Some t) "default" false g m (fun _ => 0) false mode None None.

Definition edit_input : ToolPolicyInput :=
  round_input "edit_file" (one_param "path" "a.ts") (plain_tool "edit_file" false (Some file)) newPermissionGate full
    (Some (MODES coder)).

Lemma policy_no_unconfirmed_danger_witness :
  ~ firmly_denied (H := no_foreign) (ti_permissionGate edit_input) (ti_name edit_input) (ti_input edit_input).
Proof.
  exact (proj1 (policy_no_unconfirmed_danger (H := no_foreign) "/w" false edit_input
                  (plain_tool "edit_file" false (Some file)) file
                  ltac:(vm_compute; reflexivity) eq_refl eq_refl)).
Defined.

(** A project that denies a writer, and a session that denies a tool. *)
Definition project_denies : PermissionGate :=
  gate_deny "web_fetch" (loadRules [] [mkRule "write_file" None None None deny "frozen"] None newPermissionGate).

(** Safe mode, which a damaged user file turns on, asks before project rules
    and session denials are read; in full mode the question is promoted, so
    that a call the project or the session denies is allowed. *)
Lemma safe_mode_lifts_denials `{HostRegExp} cwd :
  let write g := evaluateToolPolicy cwd false (round_input "write_file" (one_param "path" "a.ts") writer g full None) in
  let fetch g := evaluateToolPolicy cwd false
                   (round_input "web_fetch" (one_param "url" "u") (plain_tool "web_fetch" true (Some network)) g full None) in
  write project_denies = Ok (PolicyBlocked file (pb_permission deny "permission:deny")) /\
  write (enterSafeMode "damaged" project_denies) = Ok (PolicyAllowed file) /\
  fetch project_denies = Ok (PolicyBlocked network (pb_permission deny "permission:deny")) /\
  fetch (enterSafeMode "damaged" project_denies) = Ok (PolicyAllowed network).
Proof. by vm_compute. Qed.

(** A commit is of risk 4, yet strict mode allows it with no confirmation: the
    category's default allows it and the risk gate does not apply there. *)
Lemma strict_mode_commits_unconfirmed `{HostRegExp} cwd :
  let t := plain_tool "git_commit" false (Some git) in
  rp_level (getToolRisk "git_commit" (one_param "message" "m") (Some t)) = 4 /\
  evaluateToolPolicy cwd false (buildNodePolicyInput
    (createDefaultNodePolicyContext (one_param "message" "m") (Some t) (Some "git_commit"))) = Ok (PolicyAllowed git).
Proof. by vm_compute. Qed.

(** Paths nested in the parameters are not compared with the roots. *)
Lemma nested_paths_unchecked cwd projectRoot roots path :
  checkWritePaths cwd (JObj [("edits", JArr [JObj [("path", JStr path); ("old_string", JStr "a"); ("new_string", JStr "b")]])])
    projectRoot roots = true.
Proof. done. Qed.

(** A writing tool of an MCP server passes the mode contract of the planner. *)
Lemma planner_admits_mcp_writer `{HostRegExp} cwd :
  let t := plain_tool "mcp__db__drop" false (Some shell) in
  evaluateToolPolicy cwd false
    (round_input "mcp__db__drop" (JObj []) t
       (loadRules [] [mkRule "mcp__db__drop" None None None allow "db"] None newPermissionGate) strict (Some (MODES planner)))
    = Ok (PolicyAllowed shell).
Proof. by vm_compute. Qed.

(** The fork bomb the permission layer misses is of the highest risk under the
    shell's name, and of the ordinary one under the other process tools. *)
Lemma fork_bomb_risk :
  rp_level (getToolRisk "shell" (one_param "command" ":(){ :|:& };:") None) = 5 /\
  rp_level (getToolRisk "run_shell_script" (one_param "script" ":(){ :|:& };:") (Some (plain_tool "run_shell_script" false (Some shell)))) = 4.
Proof. by vm_compute. Qed.
