(* ===== verification/PolicySpec.v ===== *)
(** What the tool policy demands, without its gates.

    An account of the calls the policy of [ToolPolicy.v] allows that uses none of
    its gates: the caps are numbers, the paths segments, the modes lists, the
    dangerous tools names; what the permission files and the session say is told
    by the layers of [Permission.v]. *)
From S2P Require Import Prelude Json Paths Regex PathPattern ToolTypes Permission ModeContract ToolPolicy.
Open Scope string_scope.
Open Scope Z_scope.
Open Scope list_scope.
Import Forbidden.





Section Spec.
Context `{HostRegExp}.
Implicit Types (g : PermissionGate) (input : ToolPolicyInput) (tool : option ToolDef).



End Spec.

(** ** Paths *)




(** ** Risk *)


Section Risk.
Context `{HostRegExp}.



(** *** The verdict *)





End Risk.

