(* ===== verification/ToolBatch.v ===== *)
(** A round of tool calls.

    Models the decisions of [executeToolBatch]
    ([src/src/agent/tool-execution/batch-executor.ts]): the preview of a
    read-only batch, the refusal of call ids already on the run's ledger
    ([src/src/agent/tool-ledger.ts]), the policy of each call and the counters
    of the round.  What executing a call does is the environment: it may change
    the round's conditions before the next call. *)
From S2P Require Import Prelude Json ToolTypes Permission ModeContract ToolPolicy.
Open Scope string_scope.
Open Scope Z_scope.
Open Scope list_scope.

(** src/src/agent/run/types.ts # RoundToolCall *)
Record RoundToolCall := mkCall { tc_id : string; tc_name : string; tc_input : jsval }.

(** The conditions a call is judged under. *)
Record RoundConditions := mkConditions {
  rc_intentMode : string;
  rc_rippleBlockActive : bool;
  rc_permissionGate : PermissionGate;
  rc_webSearchFailedThisTurn : bool;
  rc_activeMode : ModeContract;
}.

(** What becomes of a call. *)
Inductive CallOutcome :=
| co_duplicate
| co_plan_only
| co_blocked (b : PolicyBlock)
| co_unknown_tool
| co_executed (c : ToolCategory).

(** The counters of the round; [safe] and [git] calls are not counted. *)
Record RateCounts := mkCounts { n_shell : Z; n_file : Z; n_network : Z }.
Definition counts_of (n : RateCounts) (c : ToolCategory) : Z :=
  match c with shell => n_shell n | file => n_file n | network => n_network n | safe | git => 0 end.
Definition count_call (c : ToolCategory) (n : RateCounts) : RateCounts :=
  match c with
  | shell => mkCounts (n_shell n + 1) (n_file n) (n_network n)
  | file => mkCounts (n_shell n) (n_file n + 1) (n_network n)
  | network => mkCounts (n_shell n) (n_file n) (n_network n + 1)
  | safe | git => n
  end.
(** The preview's own record counts every category. *)
Definition preview_count (c : ToolCategory) (limits : ToolCategory -> Z) : ToolCategory -> Z :=
  fun c' => if c === c' then limits c + 1 else limits c'.

Section batch.
Context `{HostRegExp}.
Variable cwd : string.
Variable evalMode : bool.
Variable permissionMode : PermissionMode.
Variable tools : list ToolDef.
(** Whether the round is for planning only, and not the first. *)
Variable taskPlanning laterRound : bool.
(** The conditions when the batch starts and at each call. *)
Variable conditions : nat -> RoundConditions.

Definition find_tool (name : string) : option ToolDef := List.find (fun t => td_name t === name) tools.

Definition judge (c : RoundConditions) (tc : RoundToolCall) (limits : ToolCategory -> Z) : res string ToolPolicyResult :=
  evaluateToolPolicy cwd evalMode
    (mkPolicyInput (tc_name tc) (tc_input tc) (find_tool (tc_name tc)) (rc_intentMode c) (rc_rippleBlockActive c)
       (rc_permissionGate c) permissionMode limits (rc_webSearchFailedThisTurn c) (Some (rc_activeMode c)) None None).

(** A batch whose calls may all run side by side. *)
Definition parallelCandidate (calls : list RoundToolCall) : bool :=
  negb taskPlanning && (1 <? Z.of_nat (length calls)) &&
  forallb (fun tc => match find_tool (tc_name tc) with
                     | Some t => negb (tc_name tc === "web_search") && td_isReadonly t && negb (td_streaming t) &&
                                 default true (td_isConcurrencySafe t)
                     | None => false
                     end) calls.

(** The decisions of the preview, by call id. *)
Fixpoint preview (calls : list RoundToolCall) (limits : ToolCategory -> Z) : res string (list (string * ToolPolicyResult)) :=
  match calls with
  | [] => Ok []
  | tc :: calls =>
      decision ← judge (conditions 0) tc limits;
      rest ← preview calls (preview_count (policy_category decision) limits);
      Ok ((tc_id tc, decision) :: rest)
  end.

(** [parallelPolicies.get(id)]: a later decision for an id replaced the former. *)
Definition previewed (decisions : list (string * ToolPolicyResult)) (id : string) : option ToolPolicyResult :=
  snd <$> List.find (fun d => d.1 === id) (rev decisions).

(** The loop over the calls: the outcomes, the counters and the ledger's ids. *)
Fixpoint call_loop (i : nat) (decisions : list (string * ToolPolicyResult)) (calls : list RoundToolCall)
    (n : RateCounts) (ledger : list string) : res string (list (RoundToolCall * CallOutcome) * RateCounts * list string) :=
  match calls with
  | [] => Ok ([], n, ledger)
  | tc :: calls =>
      if includes ledger (tc_id tc) then
        '(out, n, ledger) ← call_loop (S i) decisions calls n ledger; Ok ((tc, co_duplicate) :: out, n, ledger)
      else if taskPlanning && laterRound then
        '(out, n, ledger) ← call_loop (S i) decisions calls n ledger; Ok ((tc, co_plan_only) :: out, n, ledger)
      else
        policy ← match previewed decisions (tc_id tc) with
                 | Some decision => Ok decision
                 | None => judge (conditions i) tc (counts_of n)
                 end;
        let outcome := match policy, find_tool (tc_name tc) with
                       | PolicyBlocked _ b, _ => co_blocked b
                       | PolicyAllowed c, Some _ => co_executed c
                       | PolicyAllowed _, None => co_unknown_tool
                       end in
        '(out, n, ledger) ← call_loop (S i) decisions calls (count_call (policy_category policy) n) (ledger ++ [tc_id tc]);
        Ok ((tc, outcome) :: out, n, ledger)
  end.

(** src/src/agent/tool-execution/batch-executor.ts # executeToolBatch @116-380

    The preview's counters start from the round's, with none for [safe] and
    [git].  A batch that is aborted is a prefix of one that is not. *)
Definition executeToolBatch (calls : list RoundToolCall) (n : RateCounts) (ledger : list string) :
    res string (list (RoundToolCall * CallOutcome) * RateCounts * list string) :=
  decisions ← (if parallelCandidate calls then preview calls (counts_of n) else Ok []);
  call_loop 1 decisions calls n ledger.

(** ** Properties *)

Definition executed_in (c : ToolCategory) (out : list (RoundToolCall * CallOutcome)) : Z :=
  Z.of_nat (count_where (fun o : RoundToolCall * CallOutcome =>
    match o.2 with co_executed c' => c' === c | _ => false end) out).
Definition executed_ids (out : list (RoundToolCall * CallOutcome)) : list string :=
  omap (fun o : RoundToolCall * CallOutcome =>
    match o.2 with co_executed _ => Some (tc_id o.1) | _ => None end) out.

Lemma executed_in_cons c o out :
  executed_in c (o :: out) = (match o.2 with co_executed c' => if c' === c then 1 else 0 | _ => 0 end) + executed_in c out.
Proof. unfold executed_in. rewrite count_where_cons. destruct (o.2); try destruct (_ === _); lia. Qed.

Lemma count_call_le c c' n : counts_of n c <= counts_of (count_call c' n) c.
Proof. destruct c, c'; cbn; lia. Qed.
Lemma count_call_same c n cap : RATE_CAPS c = Some cap -> counts_of (count_call c n) c = counts_of n c + 1.
Proof. by destruct c. Qed.

(** An allowed call was below its cap. *)
Lemma judge_below c tc limits cat cap :
  judge c tc limits = Ok (PolicyAllowed cat) -> RATE_CAPS cat = Some cap -> limits cat < cap.
Proof.
  intros Hj Hc. unfold judge, evaluateToolPolicy in Hj.
  set (input := mkPolicyInput _ _ _ _ _ _ _ _ _ _ _ _) in *.
  destruct (rate_gate input) as [b|] eqn:Er; [done|].
  destruct (permission_gate input) as [p|]; [|done]. cbn [mbind res_bind] in Hj.
  assert (Hcat : input_category input = cat) by (destruct (first_block _); by simplify_eq).
  apply rate_gate_iff with (cap := cap) in Er; by rewrite Hcat in *.
Qed.

(** One turn of the loop. *)
Lemma call_loop_cons i decisions tc calls n ledger out n' l' :
  call_loop i decisions (tc :: calls) n ledger = Ok (out, n', l') ->
  exists outcome rest n1 ledger1,
    out = (tc, outcome) :: rest /\ call_loop (S i) decisions calls n1 ledger1 = Ok (rest, n', l') /\
    ((n1 = n /\ ledger1 = ledger /\ (outcome = co_duplicate \/ outcome = co_plan_only)) \/
     exists policy,
       (tc_id tc ∉ ledger) /\ ledger1 = ledger ++ [tc_id tc] /\ n1 = count_call (policy_category policy) n /\
       match previewed decisions (tc_id tc) with
       | Some d => policy = d
       | None => judge (conditions i) tc (counts_of n) = Ok policy
       end /\
       forall c, outcome = co_executed c -> policy = PolicyAllowed c).
Proof.
  cbn [call_loop]. destruct (includes ledger (tc_id tc)) eqn:El.
  { destruct (call_loop _ _ calls n ledger) as [[[rest n1] l1]|] eqn:E; [|done]. cbn. intros [= <- <- <-].
    eexists _, _, _, _. split_and!; [done|exact E|]. left. naive_solver. }
  apply includes_false in El. destruct (taskPlanning && laterRound).
  { destruct (call_loop _ _ calls n ledger) as [[[rest n1] l1]|] eqn:E; [|done]. cbn. intros [= <- <- <-].
    eexists _, _, _, _. split_and!; [done|exact E|]. left. naive_solver. }
  set (source := match previewed decisions (tc_id tc) with Some d => Ok d | None => judge (conditions i) tc (counts_of n) end).
  destruct source as [policy|] eqn:Ep; [|done]. cbn [mbind res_bind].
  destruct (call_loop _ _ calls _ _) as [[[rest n1] l1]|] eqn:E; [|done]. cbn [mbind res_bind]. intros Hout.
  eexists _, rest, _, _. split_and!; [by simplify_eq|simplify_eq; exact E|]. right. exists policy.
  split_and!; [done..| |].
  - subst source. destruct (previewed decisions (tc_id tc)); [by simplify_eq|done].
  - intros c. destruct policy, (find_tool (tc_name tc)); naive_solver.
Qed.

Lemma call_loop_nil i decisions n ledger out n' l' :
  call_loop i decisions [] n ledger = Ok (out, n', l') -> out = [] /\ l' = ledger.
Proof. by intros [= <- _ <-]. Qed.

Lemma loop_ids decisions calls : forall i n ledger out n' l',
  call_loop i decisions calls n ledger = Ok (out, n', l') ->
  NoDup (executed_ids out) /\ (forall id, id ∈ executed_ids out -> id ∉ ledger) /\
  (forall id, id ∈ ledger \/ id ∈ executed_ids out -> id ∈ l').
Proof.
  induction calls as [|tc calls IH]; intros i n ledger out n' l' Hl.
  { apply call_loop_nil in Hl as [-> ->]. cbn. split; [constructor|set_solver]. }
  apply call_loop_cons in Hl as (o & rest & n1 & l1 & -> & Hl & Ho). apply IH in Hl as (Hnd & Hout & Hin).
  destruct Ho as [(-> & -> & [-> | ->])|(policy & Hid & -> & -> & _ & Hex)]; [done..|].
  unfold executed_ids. cbn [omap list_omap fst snd]. fold (executed_ids rest).
  assert (Hr : forall id, id ∈ executed_ids rest -> id ∉ ledger) by (intros id H1; specialize (Hout id H1); set_solver).
  assert (Hk : forall id, id ∈ ledger \/ id ∈ executed_ids rest -> id ∈ l') by (intros id Hi; apply Hin; set_solver).
  destruct o; try (by split_and!).
  split_and!.
  - apply NoDup_cons. split; [|done]. intros Hi. specialize (Hout _ Hi). set_solver.
  - intros id. rewrite elem_of_cons. intros [->|Hi]; auto.
  - intros id. rewrite elem_of_cons. intros [Hi|[->|Hi]]; auto. apply Hin. set_solver.
Qed.

Lemma loop_serial c cap : RATE_CAPS c = Some cap -> forall calls i n ledger out n' l',
  call_loop i [] calls n ledger = Ok (out, n', l') -> executed_in c out <= Z.max 0 (cap - counts_of n c).
Proof.
  intros Hcap calls. induction calls as [|tc calls IH]; intros i n ledger out n' l' Hl.
  { apply call_loop_nil in Hl as [-> _]. unfold executed_in. cbn. lia. }
  apply call_loop_cons in Hl as (o & rest & n1 & l1 & -> & Hl & Ho). apply IH in Hl.
  rewrite executed_in_cons. cbn [snd].
  destruct Ho as [(-> & -> & [-> | ->])|(policy & _ & _ & -> & Hj & Hex)]; [cbv beta iota; lia..|].
  pose proof (count_call_le c (policy_category policy) n). destruct o as [| | | |c']; try (cbv beta iota; lia).
  specialize (Hex c' eq_refl) as ->. destruct (c' === c) eqn:E; [|lia]. reflect. subst c'.
  cbn [policy_category previewed] in *. apply judge_below with (cap := cap) in Hj; [|done].
  rewrite (count_call_same c n cap) in Hl by done. lia.
Qed.

(** *** The previewed decisions *)

Definition allowed_in (c : ToolCategory) (ds : list (string * ToolPolicyResult)) : Z :=
  Z.of_nat (count_where (fun d : string * ToolPolicyResult =>
    match d.2 with PolicyAllowed c' => c' === c | _ => false end) ds).
Lemma allowed_in_cons c d ds :
  allowed_in c (d :: ds) = (match d.2 with PolicyAllowed c' => if c' === c then 1 else 0 | _ => 0 end) + allowed_in c ds.
Proof. unfold allowed_in. rewrite count_where_cons. destruct (d.2); try destruct (_ === _); lia. Qed.

Lemma preview_spec c cap : RATE_CAPS c = Some cap -> forall calls limits ds,
  preview calls limits = Ok ds -> ds.*1 = map tc_id calls /\ allowed_in c ds <= Z.max 0 (cap - limits c).
Proof.
  intros Hcap calls. induction calls as [|tc calls IH]; intros limits ds; cbn [preview].
  { intros [= <-]. split; [done|]. unfold allowed_in. cbn. lia. }
  destruct (judge _ tc limits) as [d|] eqn:Ej; [|done]. cbn [mbind res_bind].
  destruct (preview calls _) as [rest|] eqn:Ep; [|done]. cbn [mbind res_bind]. intros Hds.
  injection Hds as <-. apply IH in Ep as [Hids Hle]. cbn [fmap list_fmap map fst]. rewrite Hids. split; [done|].
  rewrite allowed_in_cons. cbn [snd]. unfold preview_count in Hle. destruct d as [c'|c' b]; cbn [policy_category] in Hle.
  - destruct (c' === c) eqn:E; reflect; [subst c'|lia]. eapply judge_below in Ej; [|exact Hcap]. lia.
  - destruct (c' === c) eqn:E; reflect; [subst c'|]; lia.
Qed.

Lemma elem_of_rev {A} (x : A) l : x ∈ rev l <-> x ∈ l.
Proof. rewrite !list_elem_of_In. symmetry. apply in_rev. Qed.

Lemma previewed_elem ds id d : NoDup ds.*1 -> (id, d) ∈ ds -> previewed ds id = Some d.
Proof.
  intros Hnd Hin. unfold previewed. destruct (List.find _ (rev ds)) as [[id' d']|] eqn:E.
  - apply List.find_some in E as [Hin' He]. cbn in He. reflect. subst id'. cbn. f_equal.
    rewrite <- list_elem_of_In, elem_of_rev in Hin'.
    apply (jget_NoDup id d' ds Hnd) in Hin'. apply (jget_NoDup id d ds Hnd) in Hin. congruence.
  - eapply List.find_none in E; [|rewrite <- list_elem_of_In, elem_of_rev; exact Hin]. cbn in E. by rewrite same_refl in E.
Qed.

Lemma loop_previewed c ds : NoDup ds.*1 -> forall calls part i n ledger out n' l',
  call_loop i ds calls n ledger = Ok (out, n', l') ->
  part.*1 = map tc_id calls -> (forall d, d ∈ part -> d ∈ ds) -> executed_in c out <= allowed_in c part.
Proof.
  intros Hnd calls. induction calls as [|tc calls IH]; intros [|[id d] part] i n ledger out n' l' Hl Hids Hsub; try done.
  { apply call_loop_nil in Hl as [-> _]. done. }
  cbn [fmap list_fmap map fst] in Hids. injection Hids as -> Hids.
  apply call_loop_cons in Hl as (o & rest & n1 & l1 & -> & Hl & Ho).
  apply (IH part) in Hl; [|done|set_solver]. rewrite executed_in_cons, allowed_in_cons. cbn [snd].
  assert (0 <= match d with PolicyAllowed c' => if c' === c then 1 else 0 | PolicyBlocked _ _ => 0 end)
    by (destruct d; [destruct (_ === _)|]; lia).
  destruct Ho as [(-> & -> & [-> | ->])|(policy & _ & _ & _ & Hj & Hex)]; [cbv beta iota; lia..|].
  rewrite (previewed_elem ds (tc_id tc) d Hnd) in Hj by set_solver. subst policy.
  destruct o as [| | | |c']; try (cbv beta iota; lia). specialize (Hex c' eq_refl) as ->. lia.
Qed.

(** a round respects its caps and runs no call twice: in a batch of calls with
    distinct ids, whether it is previewed to run side by side or judged one by one
    under conditions that executions change, no more shell, file or network calls
    are executed than the round has left of its 5, 10 and 3, and a call is
    executed at most once and never when the run's ledger already has its id. *)
Theorem round_respects_caps calls n ledger out n' ledger' :
  NoDup (map tc_id calls) ->
  executeToolBatch calls n ledger = Ok (out, n', ledger') ->
  (forall c cap, RATE_CAPS c = Some cap -> executed_in c out <= Z.max 0 (cap - counts_of n c)) /\
  NoDup (executed_ids out) /\
  (forall id, id ∈ executed_ids out -> (id ∉ ledger) /\ id ∈ ledger').
Proof.
  intros Hnd. unfold executeToolBatch.
  set (source := if parallelCandidate calls then preview calls (counts_of n) else Ok []).
  destruct source as [ds|] eqn:Es; [|done]. cbn [mbind res_bind]. intros Hl. split.
  - intros c cap Hcap. subst source. destruct (parallelCandidate calls).
    + apply (preview_spec c cap Hcap) in Es as [Hids Hle].
      pose proof (loop_previewed c ds ltac:(by rewrite Hids) calls ds _ _ _ _ _ _ Hl Hids ltac:(done)). lia.
    + injection Es as <-. by eapply loop_serial.
  - apply loop_ids in Hl as (H1 & H2 & H3). split; [done|]. intros id Hid. auto.
Qed.
End batch.

(** ** Witness: four fetches in a round, of which three run *)

Definition fetch_call (id : string) : RoundToolCall := mkCall id "web_fetch" (one_param "url" "u").
Definition four_fetches : list RoundToolCall := [fetch_call "a"; fetch_call "b"; fetch_call "c"; fetch_call "d"].
Definition calm : RoundConditions := mkConditions "default" false newPermissionGate false (MODES coder).
Definition fetch_outcomes : list (RoundToolCall * CallOutcome) :=
  [(fetch_call "a", co_executed network); (fetch_call "b", co_executed network); (fetch_call "c", co_executed network);
   (fetch_call "d", co_blocked pb_rate_limit)].

Lemma round_respects_caps_witness :
  (forall c cap, RATE_CAPS c = Some cap -> executed_in c fetch_outcomes <= Z.max 0 (cap - counts_of (mkCounts 0 0 0) c)) /\
  NoDup (executed_ids fetch_outcomes) /\
  (forall id, id ∈ executed_ids fetch_outcomes -> (id ∉ []) /\ id ∈ ["a"; "b"; "c"; "d"]).
Proof.
  apply (round_respects_caps (H := no_foreign) "/w" false full [plain_tool "web_fetch" true (Some network)] false false
           (fun _ => calm) four_fetches (mkCounts 0 0 0) [] fetch_outcomes (mkCounts 0 0 4) ["a"; "b"; "c"; "d"]).
  - apply (bool_decide_unpack _). vm_compute. exact I.
  - vm_compute. reflexivity.
Defined.
