(* ===== verification/Hooks.v ===== *)
(** Lifecycle hooks.

    Models the dispatchers of [src/src/hooks/index.ts] and the hook helpers of
    [src/src/agent/round/pre-loop.ts].  A registered handler is a function that
    may throw; what a handler remembers between dispatches is not represented. *)
From S2P Require Import Prelude Json ToolTypes.
Open Scope string_scope.
Open Scope list_scope.

(** src/src/hooks/index.ts # HookOutput *)
Record HookOutput := mkHookOutput {
  ho_blocked : bool;
  ho_replace : option jsval;
  ho_result : option (bool * string);
  ho_warn : option string;
  ho_source : option string;
  ho_context : option string;
  ho_replacePrompt : option string;
}.
(** [{}], the output of a handler that returns nothing. *)
Definition no_output : HookOutput := mkHookOutput false None None None None None None.

(** src/src/hooks/index.ts # HookHandler

    [Throw] carries the message of the error. *)
Definition HookHandler (I : Type) : Type := I -> res string HookOutput.

(** src/src/hooks/index.ts # formatHookFailure *)
Definition formatHookFailure (message : string) : string := "Hook anonymous failed: " +:+ message.

Definition source_of (out : HookOutput) : string := nullish (ho_source out) "anonymous".
Definition truthy (o : option string) : option string := match o with Some "" => None | _ => o end.
Definition warning_of (out : HookOutput) : list string :=
  match truthy (ho_warn out) with Some w => [w] | None => [] end.
Definition warn_trace (out : HookOutput) : list string :=
  match truthy (ho_warn out) with Some _ => ["warn by " +:+ source_of out] | None => [] end.

(** ** Session start and prompt submission *)

(** src/src/hooks/index.ts # SessionStartResult *)
Record SessionStartResult := mkSessionStart {
  ss_blocked : bool; ss_blockReason : option string; ss_context : list string;
  ss_warnings : list string; ss_trace : list string;
}.

Definition context_of (out : HookOutput) : list string :=
  match truthy (ho_context out) with Some c => [c] | None => [] end.
Definition context_trace (out : HookOutput) : list string :=
  match truthy (ho_context out) with Some _ => ["context by " +:+ source_of out] | None => [] end.
Definition block_reason (out : HookOutput) : string := nullish (ho_warn out) ("Blocked by " +:+ source_of out).

Section start.
Context {I : Type} (input : I).
Fixpoint session_start (hs : list (HookHandler I)) (context warnings trace : list string) : SessionStartResult :=
  match hs with
  | [] => mkSessionStart false None context warnings trace
  | h :: hs =>
      match h input with
      | Throw e => mkSessionStart true (Some (formatHookFailure e)) context (warnings ++ [formatHookFailure e])
                     (trace ++ ["error by anonymous"])
      | Ok out =>
          if ho_blocked out then
            mkSessionStart true (Some (block_reason out)) context warnings (trace ++ ["blocked by " +:+ source_of out])
          else session_start hs (context ++ context_of out) (warnings ++ warning_of out)
                 (trace ++ context_trace out ++ warn_trace out)
      end
  end.
(** src/src/hooks/index.ts # HookSystem.dispatchSessionStart *)
Definition dispatchSessionStart (hs : list (HookHandler I)) : SessionStartResult := session_start hs [] [] [].

(** src/src/hooks/index.ts # PromptSubmitResult *)
Record PromptSubmitResult := mkPromptSubmit {
  ps_blocked : bool; ps_blockReason : option string; ps_replacePrompt : option string; ps_context : option string;
  ps_warnings : list string; ps_trace : list string;
}.
Definition prompt_trace (out : HookOutput) : list string :=
  match truthy (ho_replacePrompt out) with Some _ => ["replace_prompt by " +:+ source_of out] | None => [] end.
Definition latest (new old : option string) : option string :=
  match truthy new with Some x => Some x | None => old end.

Fixpoint prompt_submit (hs : list (HookHandler I)) (prompt context : option string) (warnings trace : list string)
    : PromptSubmitResult :=
  match hs with
  | [] => mkPromptSubmit false None prompt context warnings trace
  | h :: hs =>
      match h input with
      | Throw e => mkPromptSubmit true (Some (formatHookFailure e)) None None (warnings ++ [formatHookFailure e])
                     (trace ++ ["error by anonymous"])
      | Ok out =>
          if ho_blocked out then
            mkPromptSubmit true (Some (block_reason out)) None None warnings (trace ++ ["blocked by " +:+ source_of out])
          else prompt_submit hs (latest (ho_replacePrompt out) prompt) (latest (ho_context out) context)
                 (warnings ++ warning_of out) (trace ++ prompt_trace out ++ context_trace out ++ warn_trace out)
      end
  end.
(** src/src/hooks/index.ts # HookSystem.dispatchPromptSubmit *)
Definition dispatchPromptSubmit (hs : list (HookHandler I)) : PromptSubmitResult := prompt_submit hs None None [] [].
End start.

(** ** Tool use *)

(** src/src/hooks/index.ts # BeforeHookResult *)
Record BeforeHookResult := mkBefore {
  bh_blocked : bool; bh_replaceParams : option jsval; bh_warnings : list string; bh_trace : list string;
}.
(** src/src/hooks/index.ts # AfterHookResult *)
Record AfterHookResult := mkAfter {
  ah_blocked : bool; ah_replaceResult : option (bool * string); ah_warnings : list string; ah_trace : list string;
}.

Definition PreHandler : Type := HookHandler (string * jsval).
Definition PostHandler : Type := HookHandler (string * jsval * (bool * option string)).

Definition replace_trace {A} (word : string) (o : option A) (out : HookOutput) : list string :=
  match o with Some _ => [word +:+ source_of out] | None => [] end.

Fixpoint run_before (hs : list PreHandler) (tool : string) (current : jsval) (replaced : option jsval)
    (warnings trace : list string) : BeforeHookResult :=
  match hs with
  | [] => mkBefore false replaced warnings trace
  | h :: hs =>
      match h (tool, current) with
      | Throw e => mkBefore true None (warnings ++ [formatHookFailure e]) (trace ++ ["error by anonymous"])
      | Ok out =>
          if ho_blocked out then
            mkBefore true None (warnings ++ warning_of out) (trace ++ ["blocked by " +:+ source_of out])
          else
            run_before hs tool (default current (ho_replace out))
              (match ho_replace out with Some p => Some p | None => replaced end) (warnings ++ warning_of out)
              (trace ++ replace_trace "replace by " (ho_replace out) out ++ warn_trace out)
      end
  end.
(** src/src/hooks/index.ts # HookSystem.runBefore *)
Definition runBefore (hs : list PreHandler) (tool : string) (params : jsval) : BeforeHookResult :=
  run_before hs tool params None [] [].

Fixpoint run_after (hs : list PostHandler) (tool : string) (params : jsval) (current : bool * option string)
    (replaced : option (bool * string)) (warnings trace : list string) : AfterHookResult :=
  match hs with
  | [] => mkAfter false replaced warnings trace
  | h :: hs =>
      match h (tool, params, current) with
      | Throw e => mkAfter true replaced (warnings ++ [formatHookFailure e]) (trace ++ ["error by anonymous"])
      | Ok out =>
          if ho_blocked out then
            mkAfter true None (warnings ++ warning_of out) (trace ++ ["blocked by " +:+ source_of out])
          else
            run_after hs tool params (match ho_result out with Some (ok, content) => (ok, Some content) | None => current end)
              (match ho_result out with Some r => Some r | None => replaced end) (warnings ++ warning_of out)
              (trace ++ replace_trace "replace_result by " (ho_result out) out ++ warn_trace out)
      end
  end.
(** src/src/hooks/index.ts # HookSystem.runAfter *)
Definition runAfter (hs : list PostHandler) (tool : string) (params : jsval) (result : bool * option string) : AfterHookResult :=
  run_after hs tool params result None [] [].

(** src/src/hooks/index.ts # HookSystem

    The handlers of the two events of a tool call. *)
Record HookSystem := mkHooks { hk_before : list PreHandler; hk_after : list PostHandler }.

(** ** Around a tool call *)

Definition content_text (r : ToolResult) : string := default "undefined" (tr_content r).

(** src/src/agent/round/pre-loop.ts # blockedByHookResult *)
Definition blockedByHookResult (tool : string) (reason : string) : ToolResult :=
  let message := if trim reason === "" then "Tool '" +:+ tool +:+ "' blocked by runtime hook" else trim reason in
  mkToolResult false (Some ("[blocked] " +:+ message)) (Some message)
    (Some (JObj [("blocked", JBool true); ("hookBlocked", JBool true)])).

(** src/src/agent/round/pre-loop.ts # normalizeHookResult *)
Definition normalizeHookResult (result : bool * string) (previous : ToolResult) : ToolResult :=
  let metadata := Some (default JUndef (tr_metadata previous)) in
  if result.1 then mkToolResult true (Some result.2) None metadata
  else mkToolResult false (Some result.2) (Some result.2) metadata.

(** src/src/agent/round/pre-loop.ts # runToolBeforeHook

    The result of a blocked call, the warnings, the replaced parameters. *)
Definition runToolBeforeHook (hooks : option HookSystem) (tool : string) (params : jsval)
    : option ToolResult * list string * option jsval :=
  match hooks with
  | None => (None, [], None)
  | Some hk =>
      let output := runBefore (hk_before hk) tool params in
      if bh_blocked output then
        (Some (blockedByHookResult tool (js_join "; " (bh_warnings output))), bh_warnings output, None)
      else (None, bh_warnings output, bh_replaceParams output)
  end.

(** src/src/agent/round/pre-loop.ts # runToolAfterHook *)
Definition runToolAfterHook (hooks : option HookSystem) (tool : string) (params : jsval) (result : ToolResult)
    : ToolResult * list string :=
  match hooks with
  | None => (result, [])
  | Some hk =>
      let output := runAfter (hk_after hk) tool params (tr_success result, tr_content result) in
      if ah_blocked output then
        (blockedByHookResult tool (js_join "; " (ah_warnings output)), ah_warnings output)
      else (match ah_replaceResult output with Some r => normalizeHookResult r result | None => result end,
            ah_warnings output)
  end.

Definition newline : string := String (Ascii.ascii_of_nat 10) "".

(** src/src/agent/round/pre-loop.ts # appendHookWarnings *)
Definition appendHookWarnings (result : ToolResult) (warnings : list string) : ToolResult :=
  match warnings with
  | [] => result
  | _ =>
      let sep := newline +:+ "[hook warning] " in
      mkToolResult (tr_success result)
        (Some (content_text result +:+ newline +:+ sep +:+ js_join sep warnings))
        (tr_error result) (tr_metadata result)
  end.

Section call.
(** What the handler does with the parameters it gets. *)
Variable execute : jsval -> res string ToolResult.

(** src/src/agent/round/pre-loop.ts # executeToolWithHooks *)
Definition executeToolWithHooks (hooks : option HookSystem) (tool : string) (params : jsval) : res string ToolResult :=
  match runToolBeforeHook hooks tool params with
  | (Some blocked, warnings, _) => Ok (appendHookWarnings blocked warnings)
  | (None, warnings, replaceParams) =>
      let effectiveParams := default params replaceParams in
      rawResult ← execute effectiveParams;
      let '(result, warnings') := runToolAfterHook hooks tool effectiveParams rawResult in
      Ok (appendHookWarnings result (warnings ++ warnings'))
  end.
End call.

(** ** What a dispatch means *)

(** The handlers agree to the call, turning the parameters into others. *)
Inductive hooks_agree (tool : string) : list PreHandler -> jsval -> jsval -> Prop :=
| ha_nil p : hooks_agree tool [] p p
| ha_cons h hs out p q : h (tool, p) = Ok out -> ho_blocked out = false ->
    hooks_agree tool hs (default p (ho_replace out)) q -> hooks_agree tool (h :: hs) p q.

Lemma run_before_iff tool hs : forall p replaced warnings trace,
  bh_blocked (run_before hs tool p replaced warnings trace) = false <-> exists q, hooks_agree tool hs p q.
Proof.
  induction hs as [|h hs IH]; intros p replaced warnings trace; cbn [run_before].
  { split; [|done]. intros _. exists p. constructor. }
  destruct (h (tool, p)) as [out|e] eqn:E.
  - destruct (ho_blocked out) eqn:Eb.
    + split; [done|]. intros [q Hq]. inversion Hq; subst. congruence.
    + rewrite IH. split; [intros [q Hq]; exists q; by econstructor|].
      intros [q Hq]. inversion Hq as [|? ? out' ? ? E']; subst. rewrite E in E'. injection E' as <-. by exists q.
  - split; [done|]. intros [q Hq]. inversion Hq; subst. congruence.
Qed.

Lemma run_before_params tool hs : forall p0 replaced warnings trace q,
  hooks_agree tool hs (default p0 replaced) q ->
  default p0 (bh_replaceParams (run_before hs tool (default p0 replaced) replaced warnings trace)) = q.
Proof.
  induction hs as [|h hs IH]; intros p0 replaced warnings trace q Hq;
    inversion Hq as [|? ? out ? ? E Eb Hq']; subst; cbn [run_before]; [done|].
  rewrite E, Eb. destruct (ho_replace out) as [p|] eqn:Er.
  - apply (IH p0 (Some p)). exact Hq'.
  - apply (IH p0 replaced). exact Hq'.
Qed.

(** A call goes on exactly when every handler, in order and on the parameters
    the ones before it left, answers without blocking or failing; it goes on
    with the parameters the last of them left. *)
Lemma runToolBeforeHook_spec hooks tool params :
  match runToolBeforeHook hooks tool params with
  | (None, _, replaceParams) =>
      match hooks with
      | None => default params replaceParams = params
      | Some hk => hooks_agree tool (hk_before hk) params (default params replaceParams)
      end
  | (Some blocked, _, _) => tr_success blocked = false /\
      exists hk, hooks = Some hk /\ ~ exists q, hooks_agree tool (hk_before hk) params q
  end.
Proof.
  unfold runToolBeforeHook, runBefore. destruct hooks as [hk|]; [|done].
  pose proof (run_before_iff tool (hk_before hk) params None [] []) as Hb.
  destruct (bh_blocked _) eqn:E.
  - split; [done|]. exists hk. split; [done|]. intros Hq. by apply Hb in Hq.
  - destruct (proj1 Hb eq_refl) as [q Hq]. pose proof (run_before_params tool _ params None [] [] q Hq) as Hp.
    change (default params None) with params in Hp. by rewrite Hp.
Qed.
