(* ===== verification/Effects.v ===== *)
(** Code that changes a state and may throw.

    The monad of a routine with effects: what a throw leaves behind is the state
    at that moment, and [attempt] is the [try] block whose outcome the code goes
    on with.  [keeps R m] says that [m] moves the state along a preorder [R]
    however it ends; its closure properties are in the hint base [keeps]. *)
From S2P Require Import Prelude.
Open Scope list_scope.

Definition Effect (S E A : Type) : Type := S -> res E A * S.

#[export] Instance effect_ret {S E} : MRet (Effect S E) := fun A a s => (Ok a, s).
#[export] Instance effect_bind {S E} : MBind (Effect S E) :=
  fun A B f m s => match m s with (Ok a, s) => f a s | (Throw e, s) => (Throw e, s) end.

Section operations.
Context {S E : Type}.

Definition read : Effect S E S := fun s => (Ok s, s).
Definition modify (f : S -> S) : Effect S E unit := fun s => (Ok (), f s).
Definition lift {A} (r : res E A) : Effect S E A := fun s => (r, s).
(** [try { .. } catch], with the outcome as a value. *)
Definition attempt {A} (m : Effect S E A) : Effect S E (res E A) := fun s => let '(r, s) := m s in (Ok r, s).
Definition when (b : bool) (m : Effect S E unit) : Effect S E unit := if b then m else mret ().

Lemma bind_Ok {A B} (m : Effect S E A) (f : A -> Effect S E B) s b s' :
  (m ≫= f) s = (Ok b, s') <-> exists a s1, m s = (Ok a, s1) /\ f a s1 = (Ok b, s').
Proof.
  unfold mbind, effect_bind. destruct (m s) as [[a|e] s1]; split; intros H; [by eauto| |done|].
  - destruct H as (? & ? & [= <- <-] & H). done.
  - by destruct H as (? & ? & [=] & _).
Qed.
Lemma bind_run {A B} (m : Effect S E A) (f : A -> Effect S E B) s :
  (m ≫= f) s = match m s with (Ok a, s) => f a s | (Throw e, s) => (Throw e, s) end.
Proof. done. Qed.

(** ** Movement of the state *)
Section keeps.
Context (R : relation S) `{!PreOrder R}.

Definition keeps {A} (m : Effect S E A) : Prop := forall s, R s (m s).2.

Lemma keeps_ret {A} (a : A) : keeps (mret a).
Proof. intros s. cbn. reflexivity. Qed.
Lemma keeps_lift {A} (r : res E A) : keeps (lift r).
Proof. intros s. cbn. reflexivity. Qed.
Lemma keeps_read : keeps read.
Proof. intros s. cbn. reflexivity. Qed.
Lemma keeps_modify (f : S -> S) : (forall s, R s (f s)) -> keeps (modify f).
Proof. intros H s. apply H. Qed.
Lemma keeps_bind {A B} (m : Effect S E A) (f : A -> Effect S E B) :
  keeps m -> (forall a, keeps (f a)) -> keeps (m ≫= f).
Proof.
  intros Hm Hf s. rewrite bind_run. specialize (Hm s). destruct (m s) as [[a|e] s1]; cbn in *; [|done].
  etrans; [exact Hm|apply Hf].
Qed.
Lemma keeps_attempt {A} (m : Effect S E A) : keeps m -> keeps (attempt m).
Proof. intros Hm s. unfold attempt. specialize (Hm s). by destruct (m s). Qed.
Lemma keeps_when b (m : Effect S E unit) : keeps m -> keeps (when b m).
Proof. intros Hm. unfold when. destruct b; [exact Hm|apply keeps_ret]. Qed.
(** A property of every outcome of a sequence whose first part stays within [R]. *)
Lemma keeps_then {A B} (m : Effect S E A) (f : A -> Effect S E B) (P : res E B * S -> Prop) s :
  keeps m -> (forall a s', R s s' -> P (f a s')) -> (forall e s', R s s' -> P (Throw e, s')) -> P ((m ≫= f) s).
Proof. intros Hm Hf He. rewrite bind_run. specialize (Hm s). destruct (m s) as [[a|e] s1]; auto. Qed.
End keeps.
End operations.

Create HintDb keeps.
#[export] Hint Resolve keeps_ret keeps_lift keeps_read keeps_bind keeps_attempt keeps_when : keeps.
