(* ===== verification/Results.v ===== *)
(** Node results: the store with its checkpoints, and the read cache.

    Models [src/src/workflow/results/result-store.ts] and
    [src/src/workflow/results/result-cache.ts].  A checkpoint file is what the
    atomic writer leaves at its path; [JSON.parse] of it either fails or gives
    the fields that [restoreFrom] reads.  The secret redaction of
    [src/src/agent/secret-redactor.ts], applied on write, is a parameter. *)
From Stdlib Require Import Ascii.
From stdpp Require Import pretty.
From S2P Require Import Prelude Json WorkflowTypes.

(** ** Checkpoints *)

(** src/src/workflow/results/result-store.ts # CheckpointData *)
Record CheckpointData := mkCheckpoint {
  cd_specId : string;
  cd_updatedAt : Z;
  cd_specDigest : option string;
  cd_workspaceDigest : option string;
  cd_results : list WorkflowNodeResult;
}.

(** What is on disk at a path: [None] is a missing file; an unparsable file
    makes [JSON.parse] throw. *)
Inductive FileContent := Unparsable | Parsed (data : CheckpointData).
Abbreviation Disk := (gmap string FileContent).

Definition spec_id_char (c : Ascii.ascii) : bool :=
  is_alnum c || (c === "."%char) || (c === "_"%char) || (c === ":"%char) || (c === "-"%char).

(** src/src/workflow/results/result-store.ts # isSafeSpecId *)
Definition isSafeSpecId (specId : string) : bool := matches_identifier spec_id_char 127 specId.

(** src/src/workflow/results/result-store.ts # ResultStore @43-48 *)
Record ResultStore := mkStore {
  rs_results : list (string * WorkflowNodeResult);
  rs_specId : string;
  rs_checkpointFile : option string;
  rs_specDigest : option string;
  rs_workspaceDigest : option string;
}.

Inductive store_error := UnsafeSpecId (specId : string).

(** [join(dir, `${specId}.json`)] for a directory without trailing slash. *)
Definition checkpointPath (dir specId : string) : string := dir +:+ "/" +:+ specId +:+ ".json".

(** src/src/workflow/results/result-store.ts # ResultStore.constructor *)
Definition newResultStore (specId : string) (checkpointDir specDigest workspaceDigest : option string)
    : res store_error ResultStore :=
  if negb (isSafeSpecId specId) then Throw (UnsafeSpecId specId)
  else Ok (mkStore [] specId
             (match checkpointDir with
              | Some d => if d === "" then None else Some (checkpointPath d specId)
              | None => None
              end) specDigest workspaceDigest).

(** src/src/workflow/results/result-store.ts # ResultStore.get *)
Definition store_get (nodeId : string) (s : ResultStore) : option WorkflowNodeResult :=
  jget nodeId (rs_results s).

(** src/src/workflow/results/result-store.ts # ResultStore.has *)
Definition store_has (nodeId : string) (s : ResultStore) : bool := jhas nodeId (rs_results s).

(** src/src/workflow/results/result-store.ts # ResultStore.all *)
Definition store_all (s : ResultStore) : list WorkflowNodeResult := jvalues (rs_results s).

(** The in-memory half of [put]. *)
Definition store_set (r : WorkflowNodeResult) (s : ResultStore) : ResultStore :=
  mkStore (jset (r_nodeId r) r (rs_results s)) (rs_specId s) (rs_checkpointFile s)
          (rs_specDigest s) (rs_workspaceDigest s).

(** Where the atomic writer can fail: making the directory or opening the
    temporary file, writing or syncing it (it is then truncated), renaming. *)
Inductive WriteFault := fault_none | fault_open | fault_write | fault_rename.

Section Persistence.
Variable redactForTrace : CheckpointData -> CheckpointData.

(** src/src/workflow/results/result-store.ts # ResultStore.persist *)
Definition persist (fault : WriteFault) (now : Z) (s : ResultStore) (disk : Disk) : Disk :=
  match rs_checkpointFile s with
  | None => disk
  | Some target =>
      let tmp := target +:+ ".tmp" in
      let data := redactForTrace
        (mkCheckpoint (rs_specId s) now (rs_specDigest s) (rs_workspaceDigest s) (store_all s)) in
      match fault with
      | fault_open => disk
      | fault_write => <[tmp := Unparsable]> disk
      | fault_rename => <[tmp := Parsed data]> disk
      | fault_none => <[target := Parsed data]> (delete tmp disk)
      end
  end.

(** src/src/workflow/results/result-store.ts # ResultStore.put *)
Definition put (fault : WriteFault) (now : Z) (r : WorkflowNodeResult) (s : ResultStore) (disk : Disk)
    : ResultStore * Disk :=
  let s := store_set r s in (s, persist fault now s disk).

(** [this.d !== undefined && parsed.d !== this.d] *)
Definition digest_mismatch (mine theirs : option string) : bool :=
  match mine with Some _ => negb (theirs === mine) | None => false end.

(** src/src/workflow/results/result-store.ts # ResultStore.restoreFrom *)
Definition restoreFrom (file : string) (s : ResultStore) (disk : Disk) : bool * ResultStore :=
  match disk !! file with
  | None => (false, s)
  | Some Unparsable => (false, s)
  | Some (Parsed parsed) =>
      if negb (cd_specId parsed === rs_specId s) then (false, s)
      else if digest_mismatch (rs_specDigest s) (cd_specDigest parsed) then (false, s)
      else if digest_mismatch (rs_workspaceDigest s) (cd_workspaceDigest parsed) then (false, s)
      else
        let s := fold_left (fun s r => store_set r s) (cd_results parsed) s in
        (negb (length (rs_results s) =? 0)%nat, s)
  end.

(** src/src/workflow/results/result-store.ts # ResultStore.restore *)
Definition restore (checkpointDir : string) (s : ResultStore) (disk : Disk) : bool * ResultStore :=
  match rs_checkpointFile s with
  | None => if rs_specId s === "" then (false, s)
            else restoreFrom (checkpointPath checkpointDir (rs_specId s)) s disk
  | Some file => restoreFrom file s disk
  end.

(** ** Theorems about the store *)

(** Entries are filed under their node's id, once. *)
Definition store_wf (s : ResultStore) : Prop :=
  NoDup (jkeys (rs_results s)) /\ Forall (fun kv => kv.1 = r_nodeId kv.2) (rs_results s).

Lemma store_wf_set r s : store_wf s -> store_wf (store_set r s).
Proof.
  intros [Hnd Hid]. split; simpl; [auto with orcana|].
  apply Forall_forall. intros x [->|Hx]%elem_of_jset; [done|]. by eapply Forall_forall in Hid.
Qed.

Lemma store_wf_fold rs : forall s, store_wf s -> store_wf (fold_left (fun s r => store_set r s) rs s).
Proof. induction rs as [|r rs IH]; intros s Hs; simpl; [done|]. by apply IH, store_wf_set. Qed.

Lemma restore_wf dir s disk : store_wf s -> store_wf (restore dir s disk).2.
Proof.
  intros Hs. unfold restore, restoreFrom. repeat case_match; simplify_eq/=; try done; by apply store_wf_fold.
Qed.

Lemma store_refill kvs : forall s,
  NoDup (jkeys (rs_results s) ++ jkeys kvs) -> Forall (fun kv => kv.1 = r_nodeId kv.2) kvs ->
  fold_left (fun s r => store_set r s) (jvalues kvs) s =
  mkStore (rs_results s ++ kvs) (rs_specId s) (rs_checkpointFile s) (rs_specDigest s)
          (rs_workspaceDigest s).
Proof.
  unfold jvalues, jkeys. induction kvs as [|[k r] kvs IH]; intros s Hnd Hall; simpl.
  { rewrite app_nil_r. by destruct s. }
  apply Forall_cons in Hall as [Hk Hall]. simpl in *. subst k.
  assert (rs_results (store_set r s) = rs_results s ++ [(r_nodeId r, r)]) as Hset.
  { simpl. apply jset_fresh. apply NoDup_app in Hnd as (_ & Hd & _).
    intros ?. by eapply Hd; [|left]. }
  rewrite IH; rewrite ?Hset, <- ?app_assoc; [done| |done].
  rewrite fmap_app. simpl. by rewrite <- app_assoc.
Qed.

(** Checkpoint round trip: after a successful incremental checkpoint write, a
    fresh store opened on the same spec id, directory and digests restores exactly
    the results of the store that wrote it, in the same order (for results the
    redaction leaves alone). *)
Theorem checkpoint_roundtrip specId dir sd wd s s0 r now disk :
  newResultStore specId (Some dir) sd wd = Ok s0 -> dir <> "" ->
  store_wf s -> rs_specId s = specId -> rs_checkpointFile s = rs_checkpointFile s0 ->
  rs_specDigest s = sd -> rs_workspaceDigest s = wd ->
  (forall d, cd_results d = store_all (store_set r s) -> redactForTrace d = d) ->
  let '(s1, disk1) := put fault_none now r s disk in
  restore dir s0 disk1 = (true, s1).
Proof.
  unfold newResultStore, put, persist, restore, restoreFrom. intros Hnew Hdir Hwf Hid Hf Hsd Hwd Hred.
  destruct (isSafeSpecId specId); [|done]. rewrite (proj2 (same_neq _ _) Hdir) in Hnew.
  injection Hnew as <-. simpl in *.
  pose proof (store_wf_set r s Hwf) as [Hnd' Hids'].
  rewrite Hf. simpl. rewrite lookup_insert_eq, Hred by done. simpl.
  rewrite Hid, Hsd, Hwd, same_refl. simpl.
  replace (digest_mismatch sd sd) with false by (destruct sd; simpl; by rewrite ?same_refl).
  replace (digest_mismatch wd wd) with false by (destruct wd; simpl; by rewrite ?same_refl).
  unfold store_all. rewrite store_refill by done. simpl in *. f_equal.
  - destruct (rs_results s) as [|[k v] l]; simpl; [done|]. by case_match.
  - unfold store_set. by rewrite Hid, Hf, Hsd, Hwd.
Qed.

(** The checkpoint writer is atomic: whichever step of the temp-write, fsync and
    rename sequence fails, the checkpoint file afterwards holds either its
    previous content untouched or the complete new generation, never a truncated
    one. *)
Theorem persist_atomic fault now s disk target :
  rs_checkpointFile s = Some target ->
  persist fault now s disk !! target = disk !! target \/
  persist fault now s disk !! target =
    Some (Parsed (redactForTrace
      (mkCheckpoint (rs_specId s) now (rs_specDigest s) (rs_workspaceDigest s) (store_all s)))).
Proof.
  intros Ht. unfold persist. rewrite Ht.
  assert (target +:+ ".tmp" <> target) as Hne.
  { intros E%(f_equal String.length). rewrite str_length_app in E. simpl in E. lia. }
  destruct fault; [right|left..]; rewrite ?lookup_insert_eq, ?lookup_insert_ne; done.
Qed.
End Persistence.

(** Stale checkpoints are never replayed: restoring changes the store only when
    the file holds a checkpoint of this very spec id whose graph digest and
    workspace digest agree with every digest the store is bound to; otherwise it
    reports false and leaves the store as it was. *)
Theorem restore_fresh_only dir s disk b s' :
  restore dir s disk = (b, s') ->
  s' = s \/
  exists file data, disk !! file = Some (Parsed data) /\ cd_specId data = rs_specId s /\
    (forall d, rs_specDigest s = Some d -> cd_specDigest data = Some d) /\
    (forall d, rs_workspaceDigest s = Some d -> cd_workspaceDigest data = Some d) /\
    (forall id r, store_get id s' = Some r -> store_get id s = Some r \/ r ∈ cd_results data).
Proof.
  assert (forall file, restoreFrom file s disk = (b, s') -> s' = s \/
    exists data, disk !! file = Some (Parsed data) /\ cd_specId data = rs_specId s /\
    (forall d, rs_specDigest s = Some d -> cd_specDigest data = Some d) /\
    (forall d, rs_workspaceDigest s = Some d -> cd_workspaceDigest data = Some d) /\
    (forall id r, store_get id s' = Some r -> store_get id s = Some r \/ r ∈ cd_results data)) as Hfrom.
  { intros file. unfold restoreFrom. destruct (disk !! file) as [[|data]|] eqn:E; [naive_solver| |naive_solver].
    destruct (cd_specId data === rs_specId s) eqn:E1; simpl; [|naive_solver].
    destruct (digest_mismatch (rs_specDigest s) _) eqn:E2; [naive_solver|].
    destruct (digest_mismatch (rs_workspaceDigest s) _) eqn:E3; [naive_solver|].
    intros [= <- <-]. right. exists data. reflect. split_and!; [done..| | |].
    - intros d Hd. rewrite Hd in E2. simpl in E2. by reflect.
    - intros d Hd. rewrite Hd in E3. simpl in E3. by reflect.
    - clear. revert s. induction (cd_results data) as [|x l IH]; intros s id r; simpl; [naive_solver|].
      intros [H|H]%IH; [|by right; right]. unfold store_get, store_set in *. simpl in H.
      rewrite jget_jset in H. case_decide; simplify_eq; [right; left|by left]. }
  unfold restore. destruct (rs_checkpointFile s) as [f|].
  - intros [|(data & ?)]%Hfrom; [by left|right; eauto].
  - case_match; [naive_solver|]. intros [|(data & ?)]%Hfrom; [by left|right; eauto].
Qed.

(** A spec id that passes the constructor names one file in the directory: it
    has no separator, so the checkpoint path cannot leave it. *)
Lemma safe_spec_id_no_slash specId : isSafeSpecId specId = true -> has_char "/"%char specId = false.
Proof. intros H. by eapply matches_identifier_no_char. Qed.

(** ** The read cache *)

(** src/src/workflow/results/result-cache.ts # CacheEntry *)
Record CacheEntry := mkEntry {
  ce_inputHash : string;
  ce_result : WorkflowNodeResult;
  ce_cachedAt : Z;
}.

Section Cache.
(** SHA-256, hex encoded, of a UTF-8 string ([node:crypto]). *)
Variable sha256 : string -> string.

(** src/src/workflow/results/result-hash.ts # stableHash *)
Definition stableHash (v : jsval) : string := sha256 (stableSerialize v).

(** src/src/workflow/results/result-cache.ts # cacheKeyFor

    An empty workspace hash is falsy: the legacy key. *)
Definition cacheKeyFor (handler : string) (input : jsval) (workspaceHash : option string) : string :=
  let base := [("handler", JStr handler); ("input", input)] in
  match workspaceHash with
  | Some h => if h === "" then stableHash (JObj base)
              else stableHash (JObj (base ++ [("workspaceHash", JStr h)]))
  | None => stableHash (JObj base)
  end.
End Cache.

(** src/src/workflow/results/result-cache.ts # ResultCache @29-33 *)
Record ResultCache := mkCache {
  rc_entries : list (string * CacheEntry);
  rc_hits : Z;
  rc_misses : Z;
  rc_invalidations : Z;
}.

Definition newResultCache : ResultCache := mkCache [] 0 0 0.

(** src/src/workflow/results/result-cache.ts # ResultCache.get *)
Definition cache_get (inputHash : string) (c : ResultCache) : option CacheEntry * ResultCache :=
  match jget inputHash (rc_entries c) with
  | Some entry => (Some entry, mkCache (rc_entries c) (rc_hits c + 1) (rc_misses c) (rc_invalidations c))
  | None => (None, mkCache (rc_entries c) (rc_hits c) (rc_misses c + 1) (rc_invalidations c))
  end.

(** src/src/workflow/results/result-cache.ts # ResultCache.put *)
Definition cache_put (now : Z) (inputHash : string) (result : WorkflowNodeResult) (c : ResultCache)
    : ResultCache :=
  if negb (r_status result === st_done) then c
  else mkCache (jset inputHash (mkEntry inputHash result now) (rc_entries c))
               (rc_hits c) (rc_misses c) (rc_invalidations c).

(** src/src/workflow/results/result-cache.ts # ResultCache.invalidateAll *)
Definition cache_invalidateAll (c : ResultCache) : ResultCache :=
  mkCache [] (rc_hits c) (rc_misses c) (rc_invalidations c + 1).

(** src/src/workflow/results/result-cache.ts # ResultCache.restoreEntries

    Records with a non-string hash or without a node id do not type-check as
    [CacheEntry]; an empty node id is falsy and skipped. *)
Definition cache_restoreEntries (records : list (string * CacheEntry)) (c : ResultCache) : ResultCache :=
  fold_left (fun c (ke : string * CacheEntry) =>
    if r_nodeId (ce_result ke.2) === "" then c
    else mkCache (jset ke.1 ke.2 (rc_entries c)) (rc_hits c) (rc_misses c) (rc_invalidations c))
    records c.

(** Everything the cache can replay is a completed result. *)
Definition cache_wf (c : ResultCache) : Prop :=
  Forall (fun ke => ke.1 = ce_inputHash ke.2 /\ r_status (ce_result ke.2) = st_done) (rc_entries c).

Lemma cache_wf_put now k r c : cache_wf c -> cache_wf (cache_put now k r c).
Proof.
  unfold cache_put, cache_wf. intros Hwf. destruct (r_status r === st_done) eqn:E; [|done]. reflect.
  apply Forall_forall. intros x [->|Hx]%elem_of_jset; [done|]. by eapply Forall_forall in Hwf.
Qed.
Lemma cache_wf_invalidate c : cache_wf (cache_invalidateAll c).
Proof. constructor. Qed.
Lemma cache_get_wf k c e c' :
  cache_wf c -> cache_get k c = (Some e, c') -> r_status (ce_result e) = st_done /\ cache_wf c'.
Proof.
  unfold cache_get. intros Hwf. destruct (jget k (rc_entries c)) eqn:E; [|done].
  intros [= -> <-]. split; [|done]. apply jget_elem in E.
  unfold cache_wf in Hwf. rewrite Forall_forall in Hwf. by apply (Hwf _ E).
Qed.

(** Looking up never changes what is cached. *)
Lemma cache_get_entries k c : rc_entries (cache_get k c).2 = rc_entries c.
Proof. unfold cache_get. by case_match. Qed.

(** ** Replay *)

(** The own enumerable properties [{ ...v }] copies: indices of an array or a
    string, fields of an object, nothing of other primitives. *)
Fixpoint string_chars (s : string) : list string :=
  match s with EmptyString => [] | String c s => String c "" :: string_chars s end.
Definition spread (v : jsval) : list (string * jsval) :=
  match v with
  | JObj fs => fs
  | JArr vs => imap (fun i v => (pretty (Z.of_nat i), v)) vs
  | JStr s => imap (fun i c => (pretty (Z.of_nat i), JStr c)) (string_chars s)
  | _ => []
  end.
(** [v ?? d] *)
Definition js_nullish (v d : jsval) : jsval := match v with JUndef | JNull => d | _ => v end.

(** src/src/workflow/scheduler/scheduler.ts # replayResult *)
Definition replayResult (result : WorkflowNodeResult) : WorkflowNodeResult :=
  let output := r_output result in
  let meta := if is_object output then spread (js_nullish (field "metadata" output) (JObj [])) else [] in
  let meta := jset "replayed" (JBool true) meta in
  mkResult (r_nodeId result) (r_status result)
    (if is_object output then JObj (jset "metadata" (JObj meta) (spread output)) else output)
    (r_error result) (r_errorKind result) (r_startedAt result) (r_finishedAt result) 0.

(** Two node inputs that are logically equal share their cache entry,
    whatever the insertion order of their fields. *)
Lemma cacheKeyFor_jeq sha handler i1 i2 w :
  jwf i1 -> jeq i1 i2 -> cacheKeyFor sha handler i1 w = cacheKeyFor sha handler i2 w.
Proof.
  intros Hwf Heq. unfold cacheKeyFor, stableHash, stableSerialize.
  assert (forall l : list (string * jsval), l = [] \/ (exists h, l = [("workspaceHash", JStr h)]) ->
    stableStringify (JObj ([("handler", JStr handler); ("input", i1)] ++ l)) =
    stableStringify (JObj ([("handler", JStr handler); ("input", i2)] ++ l))) as Hgen.
  { intros l Hl. apply stableStringify_jeq.
    - apply jwf_obj. destruct Hl as [->|[h ->]]; split; simpl.
      1,3: repeat (constructor; [set_solver|]); constructor.
      all: repeat (constructor; [done|]); constructor.
    - apply (jeq_obj _ ([("handler", JStr handler); ("input", i2)] ++ l)); [|done].
      repeat constructor; [done..|]. destruct Hl as [->|[h ->]]; repeat constructor. }
  destruct w as [h|]; [destruct (h === "")|]; f_equal;
    (apply (Hgen []) || apply (Hgen [_])); eauto.
Qed.

(** A write invalidates every cached read, and only completed reads are ever
    replayed: after invalidateAll every lookup misses, and from a cache holding
    completed results any sequence of puts keeps it so, so that a hit is a result
    that was put under that key with status done. *)
Theorem cache_replays_done_only puts k e c' :
  let c := fold_left (fun c (p : Z * string * WorkflowNodeResult) => cache_put p.1.1 p.1.2 p.2 c) puts
             newResultCache in
  (forall h, (cache_get h (cache_invalidateAll c)).1 = None) /\
  (cache_get k c = (Some e, c') ->
     r_status (ce_result e) = st_done /\ exists now, (now, k, ce_result e) ∈ puts).
Proof.
  cbv zeta. split; [done|].
  assert (forall c0, (forall k e, jget k (rc_entries c0) = Some e -> r_status (ce_result e) = st_done) ->
    forall k e, jget k (rc_entries (fold_left (fun c (p : Z * string * WorkflowNodeResult) =>
      cache_put p.1.1 p.1.2 p.2 c) puts c0)) = Some e ->
    r_status (ce_result e) = st_done /\
    (jget k (rc_entries c0) = Some e \/ exists now, (now, k, ce_result e) ∈ puts)) as Hgen.
  { induction puts as [|[[now h] r] puts IH]; intros c0 H0 k0 e0 Hg; simpl in *; [eauto|].
    assert (forall k' e', jget k' (rc_entries (cache_put now h r c0)) = Some e' ->
      r_status (ce_result e') = st_done /\ (jget k' (rc_entries c0) = Some e' \/ (h = k' /\ r = ce_result e'))) as Hstep.
    { intros k' e'. unfold cache_put. destruct (r_status r === st_done) eqn:E; simpl; [|eauto].
      rewrite jget_jset. reflect. case_decide; intros Hk; simplify_eq/=; [auto|eauto]. }
    destruct (IH (cache_put now h r c0) (fun k e H => proj1 (Hstep k e H)) k0 e0 Hg) as [Hs [Hi|[n Hi]]].
    - split; [done|]. apply Hstep in Hi as [_ [Hi|[-> ->]]]; [by left|]. right. exists now. left.
    - split; [done|]. right. exists n. by right. }
  unfold cache_get. destruct (jget k _) as [e1|] eqn:E; intros [= -> <-].
  destruct (Hgen newResultCache ltac:(done) k e E) as [? [?|?]]; done.
Qed.

(** ** Concrete runs *)
Definition sample_result : WorkflowNodeResult := mkResult "a" st_done JNull None None 0 0 0.
Definition sample_store : ResultStore :=
  mkStore [] "spec-1" (Some "/ckpt/spec-1.json") (Some "d1") None.

Lemma checkpoint_roundtrip_witness :
  let '(s1, disk1) := put (fun d => d) fault_none 7 sample_result sample_store ∅ in
  restore "/ckpt" sample_store disk1 = (true, s1).
Proof.
  apply (checkpoint_roundtrip (fun d => d) "spec-1" "/ckpt" (Some "d1") None sample_store sample_store
           sample_result 7 ∅); try reflexivity; [discriminate|].
  split; constructor.
Defined.

Lemma restore_fresh_only_witness :
  let disk : Disk := {[ "/ckpt/spec-1.json" := Parsed (mkCheckpoint "spec-1" 7 (Some "d2") None [sample_result]) ]} in
  sample_store = sample_store \/
  exists file data, disk !! file = Some (Parsed data) /\ cd_specId data = rs_specId sample_store /\
    (forall d, rs_specDigest sample_store = Some d -> cd_specDigest data = Some d) /\
    (forall d, rs_workspaceDigest sample_store = Some d -> cd_workspaceDigest data = Some d) /\
    (forall id r, store_get id sample_store = Some r -> store_get id sample_store = Some r \/ r ∈ cd_results data).
Proof. apply (restore_fresh_only "/ckpt" sample_store _ false sample_store). vm_compute. reflexivity. Defined.

Lemma persist_atomic_witness :
  let disk : Disk := {[ "/ckpt/spec-1.json" := Unparsable ]} in
  persist (fun d => d) fault_write 7 sample_store disk !! "/ckpt/spec-1.json" = disk !! "/ckpt/spec-1.json" \/
  persist (fun d => d) fault_write 7 sample_store disk !! "/ckpt/spec-1.json" =
    Some (Parsed (mkCheckpoint "spec-1" 7 (Some "d1") None [])).
Proof. apply (persist_atomic (fun d => d) fault_write 7 sample_store _ "/ckpt/spec-1.json"). reflexivity. Defined.
