(* ===== verification/Agents.v ===== *)
(** Agents: budgets, the pool with its disjoint file ownership, and the
    resolution of a node to an agent.

    Models [src/src/workflow/agents/agent-budget.ts],
    [src/src/workflow/agents/agent-pool.ts] and
    [src/src/workflow/agents/assignment.ts], with the run cancellation of
    [src/src/harness/runtime/cancellation.ts].  An [Agent] is mutated in place
    through [pool.get(id)]; the pool's map is the store it lives in, so a
    mutation is an update of the entry. *)
From Stdlib Require Import Ascii.
From S2P Require Import Prelude Json WorkflowTypes.

(** ** Budgets *)

(** src/src/workflow/agents/agent-budget.ts # AgentBudgetCaps *)
Record AgentBudgetCaps := mkCaps { maxWrites : option Z; maxNodes : option Z }.

(** src/src/workflow/agents/agent-budget.ts # AgentBudgetState *)
Record AgentBudgetState := mkBudgetState { ab_nodes : Z; ab_writes : Z }.

(** src/src/workflow/agents/agent-budget.ts # BudgetVerdict *)
Inductive BudgetVerdict := bv_ok | bv_nodes_exhausted | bv_writes_exhausted.

#[export] Instance budget_verdict_eq_dec : EqDecision BudgetVerdict.
Proof. solve_decision. Defined.

(** src/src/workflow/agents/agent-budget.ts # AgentBudget @20-26 *)
Record AgentBudget := mkAgentBudget { ab_caps : AgentBudgetCaps; ab_state : AgentBudgetState }.

Definition newAgentBudget (caps : option AgentBudgetCaps) : AgentBudget :=
  mkAgentBudget (default (mkCaps None None) caps) (mkBudgetState 0 0).

(** [cap !== undefined && used >= cap] *)
Definition cap_reached (cap : option Z) (used : Z) : bool :=
  match cap with Some c => (c <=? used)%Z | None => false end.

(** src/src/workflow/agents/agent-budget.ts # AgentBudget.chargeNode *)
Definition chargeNode (b : AgentBudget) : BudgetVerdict * AgentBudget :=
  if cap_reached (maxNodes (ab_caps b)) (ab_nodes (ab_state b)) then (bv_nodes_exhausted, b)
  else (bv_ok, mkAgentBudget (ab_caps b)
                 (mkBudgetState (ab_nodes (ab_state b) + 1) (ab_writes (ab_state b)))).

(** src/src/workflow/agents/agent-budget.ts # AgentBudget.chargeWrite *)
Definition chargeWrite (b : AgentBudget) : BudgetVerdict * AgentBudget :=
  if cap_reached (maxWrites (ab_caps b)) (ab_writes (ab_state b)) then (bv_writes_exhausted, b)
  else (bv_ok, mkAgentBudget (ab_caps b)
                 (mkBudgetState (ab_nodes (ab_state b)) (ab_writes (ab_state b) + 1))).

(** src/src/workflow/agents/agent-budget.ts # AgentBudget.exhaustedVerdict *)
Definition exhaustedVerdict (b : AgentBudget) : option BudgetVerdict :=
  if cap_reached (maxNodes (ab_caps b)) (ab_nodes (ab_state b)) then Some bv_nodes_exhausted
  else if cap_reached (maxWrites (ab_caps b)) (ab_writes (ab_state b)) then Some bv_writes_exhausted
  else None.

(** src/src/workflow/agents/agent-budget.ts # AgentBudget.exhausted *)
Definition exhausted (b : AgentBudget) : bool :=
  match exhaustedVerdict b with Some _ => true | None => false end.

(** ** Cancellation *)

(** src/src/harness/contracts/scope.ts # RunCancellation

    The state behind the object: the controller's reason once aborted. *)
Record RunCancellation := mkCancellation { cn_reason : option string }.

Definition newCancellation : RunCancellation := mkCancellation None.

(** src/src/harness/runtime/cancellation.ts # createRunCancellation

    [cancel]: the first reason sticks. *)
Definition cancel_run (reason : string) (c : RunCancellation) : RunCancellation :=
  match cn_reason c with Some _ => c | None => mkCancellation (Some reason) end.
Definition cancelled_run (c : RunCancellation) : bool :=
  match cn_reason c with Some _ => true | None => false end.

(** ** The pool *)

(** src/src/workflow/agents/agent-pool.ts # AgentSpec *)
Record AgentSpec := mkAgentSpec {
  as_id : string;
  as_ownerFiles : list string;
  as_worktree : string;
  as_writable : option bool;
  as_budget : option AgentBudgetCaps;
}.

(** src/src/workflow/agents/agent-pool.ts # Agent *)
Record Agent := mkAgent {
  ag_id : string;
  ag_ownerFiles : list string;
  ag_worktree : string;
  ag_writable : bool;
  ag_cancelled : bool;
  ag_budget : AgentBudget;
  ag_cancellation : RunCancellation;
}.

(** src/src/workflow/agents/agent-pool.ts # OwnershipViolation *)
Record OwnershipViolation := mkViolation { ov_agentId : string; ov_file : string; ov_owner : string }.

(** src/src/workflow/agents/agent-pool.ts # RegisterResult *)
Inductive RegisterResult :=
| RegOk (agent : Agent)
| RegInvalidId
| RegDuplicate
| RegViolations (violations : list OwnershipViolation).

(** src/src/workflow/agents/agent-pool.ts # AgentPool @62-66 *)
Record AgentPool := mkPool {
  ap_agents : list (string * Agent);
  ap_owners : gmap string string;
}.

Definition newAgentPool : AgentPool := mkPool [] ∅.

Definition agent_id_char (c : ascii) : bool :=
  is_alnum c || (c === "."%char) || (c === "_"%char) || (c === "-"%char).

(** src/src/workflow/agents/worktree.ts # isValidAgentId *)
Definition isValidAgentId (agentId : string) : bool := matches_identifier agent_id_char 63 agentId.

(** The files another agent already owns. *)
Definition ownership_violations (spec : AgentSpec) (p : AgentPool) : list OwnershipViolation :=
  flat_map (fun file =>
    match ap_owners p !! file with
    | Some owner =>
        if negb (owner === "") && negb (owner === as_id spec)
        then [mkViolation (as_id spec) file owner] else []
    | None => []
    end) (as_ownerFiles spec).

(** src/src/workflow/agents/agent-pool.ts # AgentPool.register *)
Definition register (spec : AgentSpec) (p : AgentPool) : RegisterResult * AgentPool :=
  if negb (isValidAgentId (as_id spec)) then (RegInvalidId, p)
  else if jhas (as_id spec) (ap_agents p) then (RegDuplicate, p)
  else match ownership_violations spec p with
  | [] =>
      let owners := fold_left (fun m file => <[file := as_id spec]> m) (as_ownerFiles spec) (ap_owners p) in
      let agent := mkAgent (as_id spec) (as_ownerFiles spec) (as_worktree spec)
                     (default true (as_writable spec)) false (newAgentBudget (as_budget spec))
                     newCancellation in
      (RegOk agent, mkPool (jset (as_id spec) agent (ap_agents p)) owners)
  | vs => (RegViolations vs, p)
  end.

(** src/src/workflow/agents/agent-pool.ts # AgentPool.get *)
Definition pool_get (agentId : string) (p : AgentPool) : option Agent := jget agentId (ap_agents p).

(** src/src/workflow/agents/agent-pool.ts # AgentPool.ownerOf *)
Definition ownerOf (file : string) (p : AgentPool) : option string := ap_owners p !! file.

(** src/src/workflow/agents/agent-pool.ts # AgentPool.canWrite *)
Definition canWrite (agentId file : string) (p : AgentPool) : bool :=
  match ap_owners p !! file with Some owner => owner === agentId | None => false end.

(** src/src/workflow/agents/agent-pool.ts # AgentPool.isCancelled *)
Definition isCancelled (agentId : string) (p : AgentPool) : bool :=
  match pool_get agentId p with Some a => ag_cancelled a | None => false end.

(** Updating the agent object in place. *)
Definition update_agent (agentId : string) (f : Agent -> Agent) (p : AgentPool) : AgentPool :=
  match pool_get agentId p with
  | Some a => mkPool (jset agentId (f a) (ap_agents p)) (ap_owners p)
  | None => p
  end.
Definition set_budget (b : AgentBudget) (a : Agent) : Agent :=
  mkAgent (ag_id a) (ag_ownerFiles a) (ag_worktree a) (ag_writable a) (ag_cancelled a) b
          (ag_cancellation a).

(** src/src/workflow/agents/agent-pool.ts # AgentPool.cancel *)
Definition pool_cancel (agentId : string) (p : AgentPool) : bool * AgentPool :=
  match pool_get agentId p with
  | None => (false, p)
  | Some _ =>
      (true, update_agent agentId (fun a =>
        mkAgent (ag_id a) (ag_ownerFiles a) (ag_worktree a) (ag_writable a) true (ag_budget a)
                (cancel_run "agent_cancelled" (ag_cancellation a))) p)
  end.

(** ** Assignment *)

(** src/src/workflow/agents/assignment.ts # ParticipantAssignment *)
Record ParticipantAssignment := mkAssignment {
  pa_agentId : string;
  pa_canWrite : bool;
  pa_ownerFiles : list string;
  pa_worktree : string;
}.

(** The part of [s] before its first colon, when there is a colon. *)
Fixpoint before_colon (s : string) : option string :=
  match s with
  | EmptyString => None
  | String c s => if c === ":"%char then Some "" else String c <$> before_colon s
  end.

(** src/src/workflow/agents/assignment.ts # agentIdOfNode

    [/^([^:]+):/]: a non-empty prefix without a colon, then a colon. *)
Definition agentIdOfNode (nodeId : string) : option string :=
  match before_colon nodeId with
  | Some p => if p === "" then None else Some p
  | None => None
  end.

(** src/src/workflow/scheduler/scheduler.ts # agentOfNodeId

    The same pattern, declared again in the scheduler. *)
Definition agentOfNodeId (nodeId : string) : option string := agentIdOfNode nodeId.

(** src/src/workflow/agents/assignment.ts # resolveAssignment *)
Definition resolveAssignment (node : WorkflowNodeSpec) (pool : option AgentPool)
    : option ParticipantAssignment :=
  match pool with
  | None => None
  | Some pool =>
      let agentId := match n_assignment node with Some a => Some a | None => agentIdOfNode (n_id node) end in
      match agentId with
      | None => None
      | Some agentId =>
          if agentId === "" then None
          else match pool_get agentId pool with
               | None => None
               | Some agent => Some (mkAssignment agentId (ag_writable agent) (ag_ownerFiles agent)
                                                  (ag_worktree agent))
               end
      end
  end.

(** ** Theorems: budgets *)

Inductive BudgetOp := op_chargeNode | op_chargeWrite.
Definition apply_budget_op (op : BudgetOp) (b : AgentBudget) : BudgetVerdict * AgentBudget :=
  match op with op_chargeNode => chargeNode b | op_chargeWrite => chargeWrite b end.

(** The verdicts of a sequence of charges, and the budget it leaves. *)
Fixpoint run_budget (ops : list BudgetOp) (b : AgentBudget) : list (BudgetOp * BudgetVerdict) * AgentBudget :=
  match ops with
  | [] => ([], b)
  | op :: ops =>
      let '(v, b) := apply_budget_op op b in
      let '(vs, b) := run_budget ops b in ((op, v) :: vs, b)
  end.

Definition granted (o : BudgetOp) (log : list (BudgetOp * BudgetVerdict)) : nat :=
  length (filter (fun e => (match e.1, o with op_chargeNode, op_chargeNode
                                     | op_chargeWrite, op_chargeWrite => true | _, _ => false end) = true
                           /\ e.2 = bv_ok) log).

Definition within (cap : option Z) (n : Z) : Prop := forall c, cap = Some c -> (n <= Z.max 0 c)%Z.

Lemma run_budget_acc ops : forall b log b',
  (0 <= ab_nodes (ab_state b))%Z -> (0 <= ab_writes (ab_state b))%Z ->
  within (maxNodes (ab_caps b)) (ab_nodes (ab_state b)) ->
  within (maxWrites (ab_caps b)) (ab_writes (ab_state b)) ->
  run_budget ops b = (log, b') ->
  ab_caps b' = ab_caps b /\
  ab_nodes (ab_state b') = (ab_nodes (ab_state b) + Z.of_nat (granted op_chargeNode log))%Z /\
  ab_writes (ab_state b') = (ab_writes (ab_state b) + Z.of_nat (granted op_chargeWrite log))%Z /\
  within (maxNodes (ab_caps b)) (ab_nodes (ab_state b')) /\
  within (maxWrites (ab_caps b)) (ab_writes (ab_state b')).
Proof.
  induction ops as [|op ops IH]; intros b log b' Hn Hw Wn Ww Hrun; simpl in Hrun.
  { simplify_eq. unfold granted. simpl. rewrite !Z.add_0_r. done. }
  destruct (apply_budget_op op b) as [v b1] eqn:E1.
  destruct (run_budget ops b1) as [log1 b2] eqn:E2. simplify_eq.
  destruct b as [[cw cn] [n w]]. destruct op; simpl in *; unfold chargeNode, chargeWrite in E1; simpl in E1.
  - destruct (cap_reached cn n) eqn:Ec; simplify_eq/=;
      apply IH in E2 as (? & ? & ? & ? & ?); simpl in *; try done; try lia.
    + unfold granted in *. rewrite filter_cons_True by done.
      rewrite filter_cons_False by (simpl; intuition congruence). simpl. split_and!; try done. lia.
    + intros c ->. simpl in Ec. reflect. specialize (Wn c eq_refl). lia.
  - destruct (cap_reached cw w) eqn:Ec; simplify_eq/=;
      apply IH in E2 as (? & ? & ? & ? & ?); simpl in *; try done; try lia.
    + unfold granted in *. rewrite filter_cons_False by (simpl; intuition congruence).
      rewrite filter_cons_True by done. simpl. split_and!; try done. lia.
    + intros c ->. simpl in Ec. reflect. specialize (Ww c eq_refl). lia.
Qed.

(** ** Theorems: the pool *)

(** The owner table says exactly which registered agent lists the file. *)
Definition pool_wf (p : AgentPool) : Prop :=
  NoDup (jkeys (ap_agents p)) /\
  (forall id a, pool_get id p = Some a -> ag_id a = id /\ isValidAgentId id = true) /\
  (forall file id, ap_owners p !! file = Some id <->
     exists a, pool_get id p = Some a /\ file ∈ ag_ownerFiles a).

Lemma owners_fold id files : forall (m : gmap string string) file,
  fold_left (fun m file => <[file := id]> m) files m !! file =
  if decide (file ∈ files) then Some id else m !! file.
Proof.
  induction files as [|f files IH]; intros m file; cbn [fold_left]; [by rewrite decide_False by set_solver|].
  rewrite IH. destruct (decide (file ∈ files)) as [|Hn].
  { by rewrite (decide_True (P := file ∈ f :: files)) by (right; done). }
  rewrite lookup_insert. destruct (decide (f = file)) as [->|Hne].
  - by rewrite decide_True by left.
  - by rewrite decide_False by set_solver.
Qed.

Lemma newAgentPool_wf : pool_wf newAgentPool.
Proof.
  split_and!; [constructor|done|]. intros file id. simpl. rewrite lookup_empty. naive_solver.
Qed.

Lemma ownership_violations_nil spec p :
  ownership_violations spec p = [] -> forall file owner,
  file ∈ as_ownerFiles spec -> ap_owners p !! file = Some owner -> owner = "" \/ owner = as_id spec.
Proof.
  unfold ownership_violations. induction (as_ownerFiles spec) as [|f fs IH]; simpl; [set_solver|].
  intros [H1 H2]%app_eq_nil file owner [->|Hf]%elem_of_cons Ho; [|eauto].
  rewrite Ho in H1. destruct (owner === "") eqn:E1, (owner === as_id spec) eqn:E2; reflect; simpl in *; auto.
  done.
Qed.

Lemma register_wf spec p : pool_wf p -> pool_wf (register spec p).2.
Proof.
  intros (Hnd & Hid & Hown). unfold register.
  destruct (isValidAgentId (as_id spec)) eqn:Ev; simpl; [|done].
  destruct (jhas (as_id spec) (ap_agents p)) eqn:Eh; [done|].
  destruct (ownership_violations spec p) eqn:Eo; [|done]. simpl.
  assert (jget (as_id spec) (ap_agents p) = None) as Hnone.
  { unfold jhas in Eh. by destruct (jget _ _). }
  unfold pool_get in *. split_and!; unfold pool_get; simpl.
  - auto with orcana.
  - intros id a. rewrite jget_jset. case_decide; [intros [= <-]; subst; done|apply Hid].
  - intros file id. rewrite owners_fold. setoid_rewrite jget_jset.
    destruct (decide (as_id spec = id)) as [<-|Hne].
    + split.
      * case_decide as Hf; [by eauto|]. intros (a & Ha & _)%Hown. congruence.
      * intros (a & [= <-] & Hf). simpl in Hf. by rewrite decide_True.
    + rewrite <- Hown. case_decide as Hf; [|done]. split; [congruence|]. intros Ho.
      destruct (ownership_violations_nil spec p Eo file id Hf Ho) as [->| ->]; [|done].
      apply Hown in Ho as (a & Ha & _). apply Hid in Ha as [_ Hv]. done.
Qed.

Lemma update_agent_wf id f p :
  (forall a, ag_id (f a) = ag_id a /\ ag_ownerFiles (f a) = ag_ownerFiles a) ->
  pool_wf p -> pool_wf (update_agent id f p).
Proof.
  intros Hf (Hnd & Hid & Hown). unfold update_agent.
  destruct (pool_get id p) as [a|] eqn:Ea; [|done]. unfold pool_get in *. split_and!; unfold pool_get; simpl.
  - auto with orcana.
  - intros id' a'. rewrite jget_jset. case_decide; [|apply Hid]. subst. intros [= <-].
    destruct (Hf a) as [-> _]. by apply Hid.
  - intros file id'. rewrite Hown. setoid_rewrite jget_jset. case_decide; [|done]. subst.
    rewrite Ea. destruct (Hf a) as [_ Hfa]. split; intros (a' & [= <-] & ?); eexists; (split; [done|]); congruence.
Qed.

(** What happens to a pool during a run. *)
Inductive PoolOp :=
| po_register (spec : AgentSpec)
| po_cancel (agentId : string)
| po_charge (agentId : string) (op : BudgetOp).
Definition apply_pool_op (p : AgentPool) (op : PoolOp) : AgentPool :=
  match op with
  | po_register spec => (register spec p).2
  | po_cancel id => (pool_cancel id p).2
  | po_charge id op => update_agent id (fun a => set_budget (apply_budget_op op (ag_budget a)).2 a) p
  end.

Lemma apply_pool_op_wf p op : pool_wf p -> pool_wf (apply_pool_op p op).
Proof.
  destruct op; simpl; [apply register_wf| |by apply update_agent_wf].
  unfold pool_cancel. case_match; [|done]. by apply update_agent_wf.
Qed.

(** Ownership is disjoint whatever the sequence of registrations, cancellations
    and budget charges: at any point an agent may write a file exactly when it is
    registered and lists the file, and no two agents may write the same file. *)
Theorem pool_ownership_disjoint ops :
  let p := fold_left apply_pool_op ops newAgentPool in
  (forall id file, canWrite id file p = true <->
     exists a, pool_get id p = Some a /\ file ∈ ag_ownerFiles a) /\
  (forall i j a b file, pool_get i p = Some a -> pool_get j p = Some b ->
     file ∈ ag_ownerFiles a -> file ∈ ag_ownerFiles b -> i = j).
Proof.
  assert (forall p, pool_wf p -> pool_wf (fold_left apply_pool_op ops p)) as Hwf.
  { induction ops as [|op ops IH]; simpl; [done|]. intros p Hp. by apply IH, apply_pool_op_wf. }
  cbv zeta. destruct (Hwf _ newAgentPool_wf) as (_ & _ & Hown).
  revert Hown. generalize (fold_left apply_pool_op ops newAgentPool). clear.
  intros p Hown. split.
  - intros id file. rewrite <- Hown. unfold canWrite. destruct (ap_owners p !! file); [|done].
    rewrite same_eq. split; congruence.
  - intros i j a b file Ha Hb Hfa Hfb.
    assert (ap_owners p !! file = Some i) as Hi by (apply Hown; eauto).
    assert (ap_owners p !! file = Some j) as Hj by (apply Hown; eauto). congruence.
Qed.

(** An agent's budget is a hard cap on any sequence of charges: the counters count
    exactly the granted charges, neither exceeds its cap, and exhaustedVerdict is
    null exactly when the next charge of either kind would be granted. *)
Theorem agent_budget_capped caps ops log b :
  run_budget ops (newAgentBudget caps) = (log, b) ->
  ab_nodes (ab_state b) = Z.of_nat (granted op_chargeNode log) /\
  ab_writes (ab_state b) = Z.of_nat (granted op_chargeWrite log) /\
  within (maxNodes (ab_caps b)) (ab_nodes (ab_state b)) /\
  within (maxWrites (ab_caps b)) (ab_writes (ab_state b)) /\
  (exhaustedVerdict b = None <-> (chargeNode b).1 = bv_ok /\ (chargeWrite b).1 = bv_ok).
Proof.
  intros Hrun.
  apply run_budget_acc in Hrun as (Hc & Hn & Hw & Wn & Ww);
    [|by (simpl; try lia; intros c _; simpl; lia)..].
  rewrite Hc. split_and!; [done..|].
  unfold exhaustedVerdict, chargeNode, chargeWrite. repeat case_match; naive_solver.
Qed.

Lemma agent_budget_capped_witness :
  let b := mkAgentBudget (mkCaps (Some 1%Z) None) (mkBudgetState 1 1) in
  ab_nodes (ab_state b) = 1%Z /\ ab_writes (ab_state b) = 1%Z /\
  within None 1%Z /\ within (Some 1%Z) 1%Z /\
  (exhaustedVerdict b = None <-> (chargeNode b).1 = bv_ok /\ (chargeWrite b).1 = bv_ok).
Proof.
  apply (agent_budget_capped (Some (mkCaps (Some 1%Z) None)) [op_chargeNode; op_chargeWrite; op_chargeWrite]
    [(op_chargeNode, bv_ok); (op_chargeWrite, bv_ok); (op_chargeWrite, bv_writes_exhausted)]).
  reflexivity.
Defined.

Example agent_of_node : agentOfNodeId "a1:w:patch" = Some "a1" /\ agentOfNodeId ":x" = None.
Proof. split; reflexivity. Qed.
