(* ===== verification/Ownership.v ===== *)
(** Ownership of writes and the per-node enforcement.

    Models [src/src/workflow/agents/ownership-policy.ts],
    [src/src/workflow/agents/workspace-context.ts] and
    [src/src/workflow/execution/workflow-execution-context.ts].  The file
    system ([existsSync], [realpathSync]), the working directory and the
    creation of a worktree (git, copies) are parameters. *)
From Stdlib Require Import Ascii.
From S2P Require Import Prelude Json WorkflowTypes Paths Agents.

(** ** Path checks *)

(** src/src/workflow/agents/ownership-policy.ts # caseKey *)
Definition caseKey (path : string) : string := lower (path_normalize path).

(** src/src/workflow/agents/ownership-policy.ts # PathCheck *)
Inductive PathCheck :=
| PathOk (path : string)
| PathBad (reason : string).

(** src/src/workflow/agents/ownership-policy.ts # OwnershipDecision *)
Record OwnershipDecision := mkDecision { od_allowed : bool; od_reason : option string }.

(** src/src/workflow/agents/ownership-policy.ts # ActualWriteViolation *)
Record ActualWriteViolation := mkWriteViolation { aw_actual : string; aw_reason : string }.

(** src/src/workflow/agents/ownership-policy.ts # extractActualWritePaths *)
Definition extractActualWritePaths (output : jsval) : list string :=
  if negb (is_object output) then []
  else let metadata := field "metadata" output in
  if negb (is_object metadata) then []
  else match field "paths" metadata with
       | JStr p => [p]
       | JArr ps => omap (fun p => match p with JStr p => Some p | _ => None end) ps
       | _ => []
       end.

Section Policy.
Context (cwd : string) (existsSync : string -> bool) (realpathSync : string -> option string).

(** The ancestor walk: at most 64 parents, stopping at the root. *)
Fixpoint probeUp (guard : nat) (segs : list string) : list string :=
  match guard with
  | O => segs
  | S guard =>
      if existsSync (abs_path segs) then segs
      else match segs with [] => [] | _ => probeUp guard (parent_segs segs) end
  end.

Arguments probeUp : simpl never.

(** src/src/workflow/agents/ownership-policy.ts # realRootOf *)
Definition realRootOf (root : string) : string := default root (realpathSync root).

(** src/src/workflow/agents/ownership-policy.ts # normalizeProjectPath

    [PathBad] also stands for [realpathSync] throwing on an existing path. *)
Definition normalizeProjectPath (projectRoot raw : string) : PathCheck :=
  if raw === "" then PathBad "empty path"
  else if has_char (ascii_of_nat 0) raw then PathBad "null byte in path"
  else
    let root := path_resolve cwd [projectRoot] in
    let candidate := if isAbsolute raw then path_normalize raw else path_resolve cwd [root; raw] in
    if isAbsolute raw && negb (startsWith (caseKey candidate) (caseKey root +:+ "/")) &&
       negb (caseKey candidate === caseKey root)
    then PathBad ("absolute path escapes project root: " +:+ raw)
    else if negb (under (caseKey root) (caseKey candidate))
    then PathBad ("path escapes project root: " +:+ raw)
    else
      let realRoot := realRootOf root in
      let probe := abs_path (probeUp 64 (resolve_segs cwd [candidate])) in
      match (if existsSync probe then realpathSync probe else Some probe) with
      | None => PathBad "realpath failed"
      | Some realProbe =>
          if negb (under (caseKey realRoot) (caseKey realProbe))
          then PathBad ("symlink escapes project root: " +:+ raw)
          else PathOk candidate
      end.

(** src/src/workflow/agents/ownership-policy.ts # isOwnedFile *)
Definition isOwnedFile (ownerFiles : list string) (root path : string) : bool :=
  let rel := path_relative cwd root path in
  if startsWith rel ".." || isAbsolute rel then false
  else existsb (fun owner => caseKey owner === caseKey rel) ownerFiles.

(** src/src/workflow/agents/ownership-policy.ts # authorizeDeclaredWrite *)
Definition authorizeDeclaredWrite (a : ParticipantAssignment) (projectRoot declaredPath : string)
    : OwnershipDecision :=
  if negb (pa_canWrite a) then
    mkDecision false (Some ("agent " +:+ json_quote (pa_agentId a) +:+ " is not writable (planner/reviewer)"))
  else match normalizeProjectPath projectRoot declaredPath with
  | PathBad reason =>
      mkDecision false (Some ("declared write path invalid: " +:+ declaredPath +:+ " — " +:+ reason))
  | PathOk path =>
      if path === "" then mkDecision false (Some ("declared write path invalid: " +:+ declaredPath +:+ " — unresolvable"))
      else if negb (isOwnedFile (pa_ownerFiles a) projectRoot path) then
        mkDecision false (Some ("agent " +:+ json_quote (pa_agentId a) +:+ " does not own " +:+ json_quote declaredPath))
      else mkDecision true None
  end.

(** src/src/workflow/agents/ownership-policy.ts # verifyActualWrites *)
Definition verifyActualWrites (a : ParticipantAssignment) (projectRoot : string)
    (actualPaths : list string) : bool * list ActualWriteViolation :=
  if negb (pa_canWrite a) then
    (false, map (fun actual => mkWriteViolation actual
                   ("agent " +:+ json_quote (pa_agentId a) +:+ " is not writable")) actualPaths)
  else
    let violations := flat_map (fun actual =>
      match normalizeProjectPath projectRoot actual with
      | PathBad reason => [mkWriteViolation actual ("invalid write path: " +:+ reason)]
      | PathOk path =>
          if path === "" then [mkWriteViolation actual "invalid write path: unresolvable"]
          else if negb (isOwnedFile (pa_ownerFiles a) projectRoot path) then
            [mkWriteViolation actual
               ("agent " +:+ json_quote (pa_agentId a) +:+ " does not own " +:+ json_quote actual)]
          else []
      end) actualPaths in
    (match violations with [] => true | _ => false end, violations).

(** ** The enforcement of one node *)

(** src/src/workflow/execution/workflow-execution-context.ts # declaredWritePath *)
Definition declaredWritePath (node : WorkflowNodeSpec) : option string :=
  let params := match n_execution node with Some (ExecTool _ params) => params | _ => n_input node end in
  match field "path" params with
  | JStr p => Some p
  | JArr ps => head (omap (fun p => match p with JStr p => Some p | _ => None end) ps)
  | _ => None
  end.

(** src/src/workflow/agents/workspace-context.ts # WorktreeRegistry

    The worktree roots of the run, by agent. *)
Definition WorktreeRegistry := list (string * string).

(** [createWorktree]: the root of the created worktree, or why it failed. *)
Variable createWorktree : string -> ParticipantAssignment -> res string string.

(** src/src/workflow/agents/workspace-context.ts # prepareNodeWorkspace

    The project root to run under or the denial, and the registry. *)
Definition prepareNodeWorkspace (projectRoot : string) (a : ParticipantAssignment)
    (registry : WorktreeRegistry) : res string string * WorktreeRegistry :=
  match jget (pa_agentId a) registry with
  | Some root => (Ok root, registry)
  | None =>
      match createWorktree projectRoot a with
      | Ok root => (Ok root, jset (pa_agentId a) root registry)
      | Throw e => (Throw e, registry)
      end
  end.

(** The decision for a node: the assignment, the execution root, and why the
    node may not launch. *)
Record Enforced := mkEnforced {
  en_assignment : option ParticipantAssignment;
  en_root : string;
  en_denied : option string;
}.

(** src/src/workflow/execution/workflow-execution-context.ts # enforceNodeAssignment *)
Definition enforceAssignment (projectRoot : string) (node : WorkflowNodeSpec) (isWrite : bool)
    (pool : option AgentPool) (registry : WorktreeRegistry) : Enforced * WorktreeRegistry :=
  let assignment := resolveAssignment node pool in
  match assignment with
  | None =>
      match n_assignment node, pool with
      | Some name, Some _ =>
          if name === "" then (mkEnforced None projectRoot None, registry)
          else (mkEnforced None projectRoot (Some ("agent " +:+ json_quote name +:+
                  " is not registered in the pool (UNREGISTERED_ASSIGNMENT)")), registry)
      | _, _ => (mkEnforced None projectRoot None, registry)
      end
  | Some a =>
      if isWrite then
        match declaredWritePath node with
        | None => (mkEnforced (Some a) projectRoot (Some ("agent " +:+ json_quote (pa_agentId a) +:+
                     " write node " +:+ json_quote (n_id node) +:+ " declares no path (UNOWNED_WRITE)")), registry)
        | Some declared =>
            if declared === "" then
              (mkEnforced (Some a) projectRoot (Some ("agent " +:+ json_quote (pa_agentId a) +:+
                 " write node " +:+ json_quote (n_id node) +:+ " declares no path (UNOWNED_WRITE)")), registry)
            else
            match prepareNodeWorkspace projectRoot a registry with
            | (Throw e, registry) =>
                (mkEnforced (Some a) projectRoot (Some ("worktree for agent " +:+ json_quote (pa_agentId a) +:+
                   " unavailable: " +:+ e +:+ " (write must not degrade to the shared workspace)")), registry)
            | (Ok root, registry) =>
                let decision := authorizeDeclaredWrite a root declared in
                if od_allowed decision then (mkEnforced (Some a) root None, registry)
                else (mkEnforced (Some a) root (od_reason decision), registry)
            end
        end
      else (mkEnforced (Some a) projectRoot None, registry)
  end.

(** src/src/workflow/execution/workflow-execution-context.ts # enforceActualWrites *)
Definition enforceActual (node : WorkflowNodeSpec) (e : Enforced) (output : jsval) : option string :=
  match en_assignment e with
  | None => None
  | Some a =>
      match extractActualWritePaths output with
      | [] => Some ("agent " +:+ json_quote (pa_agentId a) +:+ " write node " +:+ json_quote (n_id node) +:+
                    " reported no actual write paths (missing metadata.paths)")
      | actual =>
          let '(ok, violations) := verifyActualWrites a (en_root e) actual in
          if ok then None
          else Some ("actual write paths violate ownership: " +:+
                 js_join "; " (map (fun v => aw_actual v +:+ " (" +:+ aw_reason v +:+ ")") violations))
      end
  end.

(** ** Theorems *)

(** The candidate path of a check that passed lies under the root, both as a
    spelled path and after following links, ignoring case. *)
Definition contained (projectRoot path : string) : Prop :=
  let root := path_resolve cwd [projectRoot] in
  under (caseKey root) (caseKey path) = true /\
  exists real, under (caseKey (realRootOf root)) (caseKey real) = true /\
    let probe := abs_path (probeUp 64 (resolve_segs cwd [path])) in
    (if existsSync probe then realpathSync probe else Some probe) = Some real.

(** Owned: the path relative to the root does not climb, and is one of the
    agent's files up to case and spelling. *)
Definition owned (a : ParticipantAssignment) (projectRoot path : string) : Prop :=
  let rel := path_relative cwd projectRoot path in
  startsWith rel ".." = false /\ isAbsolute rel = false /\
  exists owner, owner ∈ pa_ownerFiles a /\ caseKey owner = caseKey rel.

Lemma normalizeProjectPath_ok projectRoot raw path :
  normalizeProjectPath projectRoot raw = PathOk path -> contained projectRoot path.
Proof.
  unfold normalizeProjectPath, contained. intros H.
  destruct (raw === ""); [done|]. destruct (has_char _ raw); [done|].
  set (candidate := if isAbsolute raw then path_normalize raw else _) in *.
  destruct (isAbsolute raw && _ && _); [done|].
  destruct (under _ (caseKey candidate)) eqn:E1; [|done]. cbn [negb] in H.
  destruct (if existsSync _ then _ else _) as [real|] eqn:E2; [|done].
  destruct (under _ (caseKey real)) eqn:E3; [|done]. injection H as <-.
  split; [done|]. exists real. by split.
Qed.

Lemma isOwnedFile_true a root path :
  isOwnedFile (pa_ownerFiles a) root path = true <-> owned a root path.
Proof.
  unfold isOwnedFile, owned. destruct (startsWith _ _) eqn:E1, (isAbsolute _) eqn:E2; simpl;
    try (split; [done|naive_solver]).
  rewrite existsb_exists. setoid_rewrite same_eq. setoid_rewrite <- list_elem_of_In. tauto.
Qed.

(** An authorized path in every sense the policy has. *)
Definition write_ok (a : ParticipantAssignment) (root raw : string) : Prop :=
  pa_canWrite a = true /\ exists path,
  normalizeProjectPath root raw = PathOk path /\ path <> "" /\ contained root path /\ owned a root path.

Lemma authorizeDeclaredWrite_ok a root raw :
  od_allowed (authorizeDeclaredWrite a root raw) = true <-> write_ok a root raw.
Proof.
  unfold authorizeDeclaredWrite, write_ok. destruct (pa_canWrite a); simpl; [|naive_solver].
  destruct (normalizeProjectPath root raw) as [path|reason] eqn:E; simpl; [|naive_solver].
  pose proof (normalizeProjectPath_ok _ _ _ E) as Hc.
  destruct (path === "") eqn:Ep; reflect; simpl; [naive_solver|].
  destruct (isOwnedFile _ _ _) eqn:Eo; simpl.
  - apply isOwnedFile_true in Eo. naive_solver.
  - split; [done|]. intros (_ & p & [= <-] & _ & _ & Ho%isOwnedFile_true). congruence.
Qed.

Lemma verifyActualWrites_ok a root paths :
  pa_canWrite a = true ->
  (verifyActualWrites a root paths).1 = true <-> forall p, p ∈ paths -> write_ok a root p.
Proof.
  intros Hw. unfold verifyActualWrites. rewrite Hw. simpl.
  trans (forall p, p ∈ paths -> od_allowed (authorizeDeclaredWrite a root p) = true);
    [|by setoid_rewrite authorizeDeclaredWrite_ok].
  unfold authorizeDeclaredWrite. rewrite Hw. simpl.
  induction paths as [|p paths IH]; simpl; [set_solver|].
  setoid_rewrite elem_of_cons. destruct (normalizeProjectPath root p) as [q|reason] eqn:E.
  - destruct (q === "") eqn:E1; [simpl; split; [done|]; intros H; specialize (H p (or_introl eq_refl)); rewrite E, E1 in H; done|].
    destruct (isOwnedFile _ _ q) eqn:E2; simpl.
    + rewrite IH. split; [|auto]. intros H x [->|Hx]; [|auto]. by rewrite E, E1, E2.
    + split; [done|]. intros H. specialize (H p (or_introl eq_refl)). by rewrite E, E1, E2 in H.
  - simpl. split; [done|]. intros H. specialize (H p (or_introl eq_refl)). by rewrite E in H.
Qed.

(** C24: No unowned write: an assigned write node that passes the pre-launch
    enforcement belongs to a registered writable agent, runs under that agent's
    worktree and declares a path that stays inside it (spelled and after following
    links) and is one of the agent's owned files; and a write whose reported paths
    pass the post-check touched only such files, and at least one. *)
Theorem enforcement_no_unowned_write projectRoot node pool registry e registry' a output :
  enforceAssignment projectRoot node true pool registry = (e, registry') ->
  en_denied e = None -> en_assignment e = Some a ->
  (exists declared, declaredWritePath node = Some declared /\ write_ok a (en_root e) declared) /\
  jget (pa_agentId a) registry' = Some (en_root e) /\
  (enforceActual node e output = None ->
     extractActualWritePaths output <> [] /\
     forall p, p ∈ extractActualWritePaths output -> write_ok a (en_root e) p).
Proof.
  unfold enforceAssignment. destruct (resolveAssignment node pool) as [a'|].
  2: { repeat case_match; intros; simplify_eq/=. }
  destruct (declaredWritePath node) as [declared|]; [|intros; simplify_eq/=].
  destruct (declared === ""); [intros; simplify_eq/=|].
  destruct (prepareNodeWorkspace projectRoot a' registry) as [[root|err] reg] eqn:Ep; [|intros; simplify_eq/=].
  destruct (od_allowed (authorizeDeclaredWrite a' root declared)) eqn:Ea.
  2: { intros [= <- <-] Hd _. simpl in Hd. unfold authorizeDeclaredWrite in *.
       repeat case_match; simplify_eq/=. }
  intros [= <- <-] _ [= ->]. apply authorizeDeclaredWrite_ok in Ea as Ha. simpl. split_and!.
  - by exists declared.
  - unfold prepareNodeWorkspace in Ep. repeat case_match; simplify_eq/=; [done|]. apply jget_jset_eq.
  - unfold enforceActual. simpl. destruct (extractActualWritePaths output) as [|p ps]; [done|].
    intros H. split; [done|].
    destruct (verifyActualWrites a root (p :: ps)) as [ok vs] eqn:Ev. destruct ok; [|done].
    destruct Ha as [Hw _]. apply (verifyActualWrites_ok a root (p :: ps) Hw). by rewrite Ev.
Qed.
End Policy.

(** ** A concrete enforcement *)
Definition coder_pool : AgentPool :=
  (register (mkAgentSpec "a1" ["src/a.ts"] "/proj/.orcana/worktrees/a1" None None) newAgentPool).2.
Definition patch_node (path : string) : WorkflowNodeSpec :=
  mkNode "a1:w:patch" "tool.apply_patch" (JObj [("path", JStr path)]) [] None None.
Definition a1_assignment : ParticipantAssignment :=
  mkAssignment "a1" true ["src/a.ts"] "/proj/.orcana/worktrees/a1".
Definition enforce_in_proj (path : string) :=
  enforceAssignment "/" (fun _ => true) Some (fun _ a => Ok (pa_worktree a)) "/proj" (patch_node path) true
    (Some coder_pool) [].

Lemma enforcement_no_unowned_write_witness :
  let root := "/proj/.orcana/worktrees/a1" in
  let ok := write_ok "/" (fun _ => true) Some a1_assignment root in
  let output := JObj [("metadata", JObj [("paths", JStr "src/a.ts")])] in
  (exists declared, declaredWritePath (patch_node "src/a.ts") = Some declared /\ ok declared) /\
  jget "a1" [("a1", root)] = Some root /\
  (enforceActual "/" (fun _ => true) Some (patch_node "src/a.ts")
     (mkEnforced (Some a1_assignment) root None) output = None ->
   extractActualWritePaths output <> [] /\ forall p, p ∈ extractActualWritePaths output -> ok p).
Proof.
  apply (enforcement_no_unowned_write "/" (fun _ => true) Some (fun _ a => Ok (pa_worktree a)) "/proj"
    (patch_node "src/a.ts") (Some coder_pool) [] (mkEnforced (Some a1_assignment)
       "/proj/.orcana/worktrees/a1" None)); vm_compute; reflexivity.
Defined.

Example escape_denied :
  en_denied (enforce_in_proj "../../../etc/passwd").1 <> None /\
  en_denied (enforce_in_proj "src/b.ts").1 <> None.
Proof. vm_compute. split; done. Qed.
