(* ===== verification/Completion.v ===== *)
(** The completion gate of a workflow run.

    Models the part of [runScheduler] that follows the main loop
    ([src/src/workflow/scheduler/scheduler.ts]), with
    [src/src/workflow/reducers/aggregate-evidence.ts] and
    [src/src/workflow/reducers/criterion-evaluator.ts]: from the stored
    results to the status the run reports.  The file system and the command
    runner a criterion may consult are parameters. *)
From Stdlib Require Import Ascii.
From S2P Require Import Prelude Json WorkflowTypes Paths.

(** ** Evidence of writes *)

(** src/src/workflow/reducers/aggregate-evidence.ts # EvidenceEntry *)
Record EvidenceEntry := mkEvidence {
  ev_nodeId : string;
  ev_writeNodeIds : list string;
  ev_passed : bool;
  ev_summary : option string;
}.

(** src/src/workflow/reducers/aggregate-evidence.ts # VERIFICATION_HANDLERS *)
Definition VERIFICATION_HANDLERS : list string := ["tool.run_targeted_verification"].

(** src/src/workflow/reducers/aggregate-evidence.ts # WRITE_NODE_HANDLERS *)
Definition WRITE_NODE_HANDLERS : list string := ["tool.apply_patch"; "tool.run_process"].

(** [s.replace(/\s+/g, " ")], knowing whether the previous unit was a space. *)
Fixpoint collapse_ws (prev : bool) (s : string) : string :=
  match s with
  | EmptyString => EmptyString
  | String c s =>
      if is_space c then (if prev then collapse_ws true s else String " "%char (collapse_ws true s))
      else String c (collapse_ws false s)
  end.
(** src/src/workflow/reducers/aggregate-evidence.ts # summarize *)
Definition summarize (result : WorkflowNodeResult) : option string :=
  if r_status result === st_failed then None
  else
    let content := match field "content" (r_output result) with JStr s => s | _ => "" end in
    let head := String.substring 0 120 (trim (collapse_ws false content)) in
    if head === "" then None else Some head.

(** [new Map(results.map(r => [r.nodeId, r]))]: the last entry of an id wins. *)
Definition resultsById (results : list WorkflowNodeResult) : list (string * WorkflowNodeResult) :=
  fold_left (fun m r => jset (r_nodeId r) r m) results [].

Definition isWriteNodeOf (spec : WorkflowSpec) (id : string) : bool :=
  match jget id (fold_left (fun m n => jset (n_id n) n m) (s_nodes spec) []) with
  | None => false
  | Some node =>
      includes WRITE_NODE_HANDLERS (n_handler node) ||
      match n_execution node with Some (ExecTool _ _) => true | _ => false end
  end.

(** src/src/workflow/reducers/aggregate-evidence.ts # aggregateEvidence *)
Definition aggregateEvidence (spec : WorkflowSpec) (results : list WorkflowNodeResult)
    : list EvidenceEntry :=
  flat_map (fun node =>
    if negb (includes VERIFICATION_HANDLERS (n_handler node)) then []
    else match jget (n_id node) (resultsById results) with
    | None => []
    | Some result =>
        match filter (fun id => isWriteNodeOf spec id = true) (map depId (n_dependsOn node)) with
        | [] => []
        | ids => [mkEvidence (n_id node) ids (r_status result === st_done) (summarize result)]
        end
    end) (s_nodes spec).

(** ** Completion criteria *)

(** One entry of [ctx.evidence]. *)
Record CriterionEvidence := mkCriterionEvidence {
  ce_kind : string;
  ce_passed : option bool;
  ce_backend : option string;
  ce_degraded : option bool;
  ce_cleanupVerified : option bool;
}.

(** src/src/workflow/reducers/criterion-evaluator.ts # CriterionContext *)
Record CriterionContext := mkCriterionContext {
  cx_cwd : string;
  cx_readFile : string -> option string;
  cx_exists : string -> bool;
  cx_runCommand : option (string -> bool * string);
  cx_evidence : option (list CriterionEvidence);
}.

(** src/src/workflow/reducers/criterion-evaluator.ts # CriterionVerdict *)
Record CriterionVerdict := mkVerdict {
  cv_criterionId : string;
  cv_hard : bool;
  cv_passed : bool;
  cv_reason : option string;
  cv_requiresReview : bool;
}.

(** src/src/workflow/reducers/criterion-evaluator.ts # resolvePath *)
Definition resolvePath (cwd p : string) : string := if isAbsolute p then p else path_join cwd p.

(** [s.includes(t)] *)
Fixpoint is_prefix (t s : string) : bool :=
  match t, s with
  | EmptyString, _ => true
  | String c t, String d s => (c === d) && is_prefix t s
  | String _ _, EmptyString => false
  end.
Fixpoint contains (s t : string) : bool :=
  is_prefix t s || match s with EmptyString => false | String _ s => contains s t end.

(** Why an evidence entry of the right kind does not satisfy the criterion. *)
Definition evidenceFailure (requirePassed : option bool) (ns noDegradation cleanup : bool)
    (e : CriterionEvidence) : option string :=
  if negb (requirePassed === Some false) && (ce_passed e === Some false) then Some "evidence passed=false"
  else if ns && (ce_backend e === Some "host-audit") then Some "backend is host-audit"
  else if noDegradation && (ce_degraded e === Some true) then Some "evidence degraded"
  else if cleanup && (ce_cleanupVerified e === Some false) then Some "cleanup not verified"
  else None.

Definition is_semantic_check (c : option CriterionCheck) : option string :=
  match c with Some (CheckSemanticReview _ guidance) => Some guidance | _ => None end.

(** src/src/workflow/reducers/criterion-evaluator.ts # evaluateCriterion *)
Definition evaluateCriterion (criterion : CompletionCriterion) (ctx : CriterionContext) : CriterionVerdict :=
  let verdict passed reason := mkVerdict (cc_id criterion) (cc_hard criterion) passed reason false in
  let review reason := mkVerdict (cc_id criterion) (cc_hard criterion) false (Some reason) true in
  match cc_mode criterion, is_semantic_check (cc_check criterion) with
  | _, Some guidance => review ("semantic review required: " +:+ guidance)
  | semantic, None => review "semantic criterion requires human adjudication"
  | deterministic, None =>
      match cc_check criterion with
      | Some (CheckCommand command _) =>
          match cx_runCommand ctx with
          | None => verdict false (Some "no command runner available")
          | Some run =>
              let '(passed, output) := run command in
              verdict passed (if passed then None else Some ("command failed: " +:+ String.substring 0 200 output))
          end
      | Some (CheckFileExists path) =>
          let found := cx_exists ctx (resolvePath (cx_cwd ctx) path) in
          verdict found (if found then None else Some ("file missing: " +:+ path))
      | Some (CheckFileContent path marker) =>
          let ok := match cx_readFile ctx (resolvePath (cx_cwd ctx) path) with
                    | Some content => contains content marker | None => false end in
          verdict ok (if ok then None else Some (path +:+ " does not contain the required marker"))
      | Some (CheckEvidence kind requirePassed ns noDegradation cleanup) =>
          let hits := filter (fun e => ce_kind e = kind) (default [] (cx_evidence ctx)) in
          let failureOf := evidenceFailure requirePassed ns noDegradation cleanup in
          let passed := existsb (fun e => match failureOf e with None => true | Some _ => false end) hits in
          let missing := "no passing evidence of kind " +:+ json_quote kind in
          verdict passed
            (if passed then None
             else match hits with
                  | [] => Some missing
                  | _ => Some (default missing (head (omap failureOf hits)))
                  end)
      | Some (CheckSemanticReview _ _) | None => verdict false (Some "criterion has no check")
      end
  end.

(** ** The gate *)

(** [typeof out.failedCount === "number" && out.failedCount > 0] *)
Definition failedCount (r : WorkflowNodeResult) : option Z :=
  match field "failedCount" (r_output r) with
  | JNum n => if (0 <? n)%Z then Some n else None
  | _ => None
  end.

(** src/src/workflow/scheduler/scheduler.ts # runScheduler @714-725

    M20: a node that ingested failing results is rewritten to failed. *)
Definition rewriteVerification (r : WorkflowNodeResult) : WorkflowNodeResult :=
  match failedCount r with
  | Some _ =>
      if r_status r === st_done then
        mkResult (r_nodeId r) st_failed (r_output r)
          (Some ("verification node " +:+ json_quote (r_nodeId r) +:+ " ingested failing result(s)"))
          (Some "verification_failed") (r_startedAt r) (r_finishedAt r) (r_durationMs r)
      else r
  | None => r
  end.

(** src/src/workflow/types.ts # WorkflowRunResult *)
Record WorkflowRunResult := mkRunResult {
  wrr_specId : string;
  wrr_status : WorkflowRunResultStatus;
  wrr_results : list WorkflowNodeResult;
  wrr_evidence : option (list EvidenceEntry);
  wrr_criteria : option (list CriterionVerdict);
  wrr_interrupt : option WorkflowWaitingInterrupt;
}.

(** [results.find(r => r.nodeId === id)] *)
Definition findResult (id : string) (results : list WorkflowNodeResult) : option WorkflowNodeResult :=
  find (fun r => r_nodeId r === id) results.

(** [meta?.conflicts?.length ?? 0] *)
Definition lengthOf (v : jsval) : Z :=
  match v with
  | JArr vs => Z.of_nat (length vs)
  | JStr s => Z.of_nat (String.length s)
  | JObj _ => match field "length" v with JNum n => n | _ => 0 end
  | _ => 0
  end.

Definition opt_str (v : jsval) : option string := match v with JStr s => Some s | _ => None end.
Definition opt_bool (v : jsval) : option bool := match v with JBool b => Some b | _ => None end.

(** The evidence criteria see: one entry per result that declares a kind. *)
Definition declaredEvidence (results : list WorkflowNodeResult) : list CriterionEvidence :=
  omap (fun r =>
    let meta := field "metadata" (r_output r) in
    match field "evidenceKind" meta with
    | JStr kind => Some (mkCriterionEvidence kind (Some (r_status r === st_done))
        (opt_str (field "backend" meta)) (opt_bool (field "degraded" meta))
        (opt_bool (field "cleanupVerified" meta)))
    | _ => None
    end) results.

Section Gate.
Context (spec : WorkflowSpec) (isWrite : string -> bool).
(** The harness root the criteria resolve paths against, and the disk. *)
Context (cwd : string) (readFile : string -> option string) (exists_ : string -> bool).

Definition MERGE_HANDLER : string := "reduce.merge_agents".
Definition mergeNode : option WorkflowNodeSpec :=
  find (fun n => n_handler n === MERGE_HANDLER) (s_nodes spec).

(** src/src/workflow/scheduler/scheduler.ts # runScheduler @731-744

    M7: a run with writes needs passing evidence and no failed write. *)
Definition evidenceGate (results : list WorkflowNodeResult)
    : option (list EvidenceEntry) * WorkflowRunResultStatus :=
  if existsb (fun n => isWrite (n_id n)) (s_nodes spec) then
    let evidence := aggregateEvidence spec results in
    let writeFailed := existsb (fun n => isWrite (n_id n) &&
      match findResult (n_id n) results with Some r => r_status r === st_failed | None => false end)
      (s_nodes spec) in
    (Some evidence,
     if negb (existsb ev_passed evidence) || writeFailed then run_blocked_no_evidence else run_done)
  else (None, run_done).

(** src/src/workflow/scheduler/scheduler.ts # runScheduler @749-762

    Unresolved conflicts, reported by the merge node or met on integration. *)
Definition conflictGate (results : list WorkflowNodeResult) (integrationBlocked : option string)
    (status : WorkflowRunResultStatus) : WorkflowRunResultStatus :=
  match mergeNode with
  | None => status
  | Some m =>
      let mergeResult := findResult (n_id m) results in
      let conflicted := match mergeResult with
        | Some r =>
            let meta := field "metadata" (r_output r) in
            (r_status r === st_done) &&
            ((0 <? lengthOf (field "conflicts" meta))%Z || (0 <? lengthOf (field "valueConflicts" meta))%Z)
        | None => false
        end in
      if conflicted then run_blocked_conflict
      else match integrationBlocked with
           | Some why => if negb (why === "") && (status === run_done) then run_blocked_conflict else status
           | None => status
           end
  end.

(** src/src/workflow/scheduler/scheduler.ts # runScheduler @763-772

    M6: a failed or blocked node decides the status. *)
Definition nodeGate (results : list WorkflowNodeResult) (status : WorkflowRunResultStatus)
    : WorkflowRunResultStatus :=
  if existsb (fun r => r_status r === st_failed) results then run_failed
  else if existsb (fun r => r_status r === st_blocked) results then run_blocked
  else status.

(** src/src/workflow/scheduler/scheduler.ts # runScheduler @774-805

    M22: the declared criteria. *)
Definition criteriaGate (results : list WorkflowNodeResult) (status : WorkflowRunResultStatus)
    : option (list CriterionVerdict) * WorkflowRunResultStatus :=
  match s_completionCriteria spec with
  | Some ((_ :: _) as criteria) =>
      let ctx := mkCriterionContext cwd readFile exists_ None (Some (declaredEvidence results)) in
      let verdicts := map (fun c => evaluateCriterion c ctx) criteria in
      let hardFailed := existsb (fun v => cv_hard v && negb (cv_passed v)) verdicts in
      (Some verdicts, if hardFailed && (status === run_done) then run_blocked else status)
  | _ => (None, status)
  end.

(** src/src/workflow/scheduler/scheduler.ts # runScheduler @706-807

    The whole gate, on the results of a run whose loop completed. *)
Definition completeRun (stored : list WorkflowNodeResult) (integrationBlocked : option string)
    : WorkflowRunResult :=
  let results := map rewriteVerification stored in
  let '(evidence, status) := evidenceGate results in
  let status := conflictGate results integrationBlocked status in
  let status := nodeGate results status in
  let '(criteria, status) := criteriaGate results status in
  mkRunResult (s_specId spec) status results evidence criteria None.

(** ** What "done" means *)

Lemma evidenceGate_done results ev :
  evidenceGate results = (ev, run_done) ->
  forall w, w ∈ s_nodes spec -> isWrite (n_id w) = true ->
    (exists e, e ∈ aggregateEvidence spec results /\ ev_passed e = true) /\
    forall r, findResult (n_id w) results = Some r -> r_status r <> st_failed.
Proof.
  unfold evidenceGate. intros H w Hw Hiw.
  assert (existsb (fun n => isWrite (n_id n)) (s_nodes spec) = true) as E.
  { apply existsb_exists. exists w. by rewrite <- list_elem_of_In. }
  rewrite E in H. injection H as _ H.
  destruct (negb (existsb ev_passed _) || _) eqn:E2; [done|]. apply orb_false_iff in E2 as [E2 E3].
  apply negb_false_iff, existsb_exists in E2 as (e & He & Hp). split.
  - exists e. by rewrite list_elem_of_In.
  - intros r Hr Hf. assert (true = false); [|done]. rewrite <- E3. symmetry. apply existsb_exists.
    exists w. rewrite <- list_elem_of_In. split; [done|]. rewrite Hiw, Hr, Hf. done.
Qed.

Lemma conflictGate_done results ib st :
  conflictGate results ib st = run_done ->
  st = run_done /\
  forall m, mergeNode = Some m ->
    (ib = None \/ ib = Some "") /\
    forall r, findResult (n_id m) results = Some r -> r_status r = st_done ->
      (lengthOf (field "conflicts" (field "metadata" (r_output r))) <= 0)%Z /\
      (lengthOf (field "valueConflicts" (field "metadata" (r_output r))) <= 0)%Z.
Proof.
  unfold conflictGate. destruct mergeNode as [m|]; [|naive_solver].
  destruct (match findResult (n_id m) results with Some r => _ | None => _ end) eqn:Ec; [done|].
  intros H. assert (st = run_done /\ (ib = None \/ ib = Some "")) as [-> Hib].
  { destruct ib as [why|]; [|auto]. destruct (why === "") eqn:E; reflect; simpl in H; subst; [by auto|].
    destruct (st === run_done) eqn:E1; simpl in H; [done|]. by apply same_false in E1. }
  split; [done|]. intros ? [= <-]. split; [done|]. intros r Hr Hd. rewrite Hr, Hd in Ec. simpl in Ec.
  apply orb_false_iff in Ec as [E1 E2]. reflect. done.
Qed.

Lemma nodeGate_done results st :
  nodeGate results st = run_done -> st = run_done /\ forall r, r ∈ results -> r_status r = st_done.
Proof.
  unfold nodeGate. destruct (existsb _ results) eqn:E1; [done|].
  destruct (existsb (fun r => r_status r === st_blocked) results) eqn:E2; [done|].
  intros ->. split; [done|]. intros r Hr.
  assert (forall st0, existsb (fun r => r_status r === st0) results = false -> r_status r <> st0) as Hne.
  { intros st0 Hf Heq. assert (true = false); [|done]. rewrite <- Hf. symmetry. apply existsb_exists.
    exists r. rewrite <- list_elem_of_In. split; [done|]. by apply same_eq. }
  pose proof (Hne _ E1). pose proof (Hne _ E2). by destruct (r_status r).
Qed.

Lemma criteriaGate_done results st cr :
  criteriaGate results st = (cr, run_done) ->
  st = run_done /\
  forall criteria c, s_completionCriteria spec = Some criteria -> c ∈ criteria -> cc_hard c = true ->
    cv_passed (evaluateCriterion c (mkCriterionContext cwd readFile exists_ None
                                      (Some (declaredEvidence results)))) = true.
Proof.
  unfold criteriaGate. intros H.
  destruct (s_completionCriteria spec) as [[|c0 cs]|] eqn:Ecc; [..|].
  1,3: injection H as _ ->; split; [done|]; intros ? ? [= <-]; set_solver.
  apply (f_equal snd) in H. cbn [snd] in H. set (ctx := mkCriterionContext _ _ _ _ _) in *.
  destruct (existsb _ (map _ _)) eqn:E.
  all: rewrite ?andb_true_l, ?andb_false_l in H.
  { exfalso. revert H. destruct (st === run_done) eqn:E1; [done|]. by apply same_false in E1. }
  split; [done|]. intros criteria c [= <-] Hc Hh. destruct (cv_passed _) eqn:Ep; [done|].
  assert (true = false); [|done]. rewrite <- E. symmetry. apply existsb_exists.
  exists (evaluateCriterion c ctx). split.
  - apply in_map_iff. exists c. by rewrite <- list_elem_of_In.
  - rewrite Ep. cbn [negb]. rewrite andb_true_r, <- Hh. unfold evaluateCriterion. by repeat case_match.
Qed.

(** The results of a run that reports done are all done. *)
Lemma completeRun_results_done stored ib r :
  wrr_status (completeRun stored ib) = run_done ->
  r ∈ map rewriteVerification stored -> r_status r = st_done.
Proof.
  unfold completeRun. destruct (evidenceGate _) as [ev st1].
  destruct (criteriaGate _ _) as [cr st4] eqn:E4. simpl. intros ->.
  apply criteriaGate_done in E4 as [E3 _]. apply nodeGate_done in E3 as [_ Hall]. apply Hall.
Qed.

(** C4: A run reports done only when it is: every stored result is done and
    ingested no failing verification, a run with a write node has a passing
    verification bound to a write and no failed write, the merge node (if there is
    one) lists no conflict and no value conflict and its integration was not
    blocked, and every hard criterion passes. *)
Theorem completeRun_done_sound stored ib :
  wrr_status (completeRun stored ib) = run_done ->
  (forall r, r ∈ stored -> r_status r = st_done /\ failedCount r = None) /\
  (forall w, w ∈ s_nodes spec -> isWrite (n_id w) = true ->
     exists e v, e ∈ aggregateEvidence spec stored /\ ev_writeNodeIds e <> [] /\
       v ∈ s_nodes spec /\ n_id v = ev_nodeId e /\ includes VERIFICATION_HANDLERS (n_handler v) = true /\
       exists r, r ∈ stored /\ r_nodeId r = ev_nodeId e /\ r_status r = st_done) /\
  (forall m, mergeNode = Some m ->
     (ib = None \/ ib = Some "") /\
     forall r vs, findResult (n_id m) stored = Some r ->
       field "conflicts" (field "metadata" (r_output r)) = JArr vs \/
       field "valueConflicts" (field "metadata" (r_output r)) = JArr vs -> vs = []) /\
  (forall criteria c, s_completionCriteria spec = Some criteria -> c ∈ criteria -> cc_hard c = true ->
     cv_passed (evaluateCriterion c (mkCriterionContext cwd readFile exists_ None
                                       (Some (declaredEvidence stored)))) = true).
Proof.
  unfold completeRun. set (results := map rewriteVerification stored).
  destruct (evidenceGate results) as [ev st1] eqn:E1.
  destruct (criteriaGate results _) as [cr st4] eqn:E4. simpl. intros ->.
  apply criteriaGate_done in E4 as [E3 Hcr]. apply nodeGate_done in E3 as [E2 Hall].
  apply conflictGate_done in E2 as [-> Hm].
  assert (results = stored /\ forall r, r ∈ stored -> failedCount r = None) as [Heq Hfc].
  { assert (forall r, r ∈ stored -> rewriteVerification r = r /\ failedCount r = None) as Hr.
    { intros r Hr. assert (r_status (rewriteVerification r) = st_done) as Hd.
      { apply Hall. unfold results. rewrite list_elem_of_In. apply in_map. by apply list_elem_of_In. }
      unfold rewriteVerification in *. destruct (failedCount r); [|done].
      destruct (r_status r === st_done) eqn:Es; [done|]. by apply same_false in Es. }
    split; [|intros r Hin; by destruct (Hr r Hin)]. unfold results. clear -Hr. induction stored as [|r l IH]; [done|].
    simpl. rewrite (proj1 (Hr r ltac:(left))), IH; [done|]. intros x ?. apply Hr. by right. }
  clearbody results. subst results.
  split_and!; [intros r Hr; split; auto| | |done].
  2: { intros m Hmn. destruct (Hm m Hmn) as [Hib Hnone]. split; [done|]. intros r vs Hr Hc.
       assert (r_status r = st_done) as Hd.
       { apply Hall. unfold findResult in Hr. apply find_some in Hr as [Hin _]. by apply list_elem_of_In. }
       destruct (Hnone r Hr Hd) as [H1 H2]. destruct vs; [done|].
       destruct Hc as [Hc|Hc]; [rewrite Hc in H1|rewrite Hc in H2]; simpl in *; lia. }
  intros w Hw Hiw. destruct (evidenceGate_done _ _ E1 w Hw Hiw) as [(e & He & Hp) _].
  unfold aggregateEvidence in He. apply list_elem_of_In, in_flat_map in He as (v & Hv & He).
  destruct (includes VERIFICATION_HANDLERS (n_handler v)) eqn:Eh; [|done]. cbn [negb] in He.
  destruct (jget (n_id v) (resultsById stored)) as [r|] eqn:Er; [|done].
  assert (r ∈ stored /\ r_nodeId r = n_id v) as [Hrs Hrid].
  { clear -Er. unfold resultsById in Er.
    assert (forall m, jget (n_id v) (fold_left (fun m r => jset (r_nodeId r) r m) stored m) = Some r ->
      jget (n_id v) m = Some r \/ (r ∈ stored /\ r_nodeId r = n_id v)) as Hgen.
    { clear Er. induction stored as [|x l IH]; intros m; simpl; [auto|].
      intros [H|[H1 H2]]%IH; [|right; split; [by right|done]].
      rewrite jget_jset in H. case_decide; [|by left]. simplify_eq. right. split; [left|done]. }
    by destruct (Hgen [] Er). }
  destruct (filter _ _) as [|i ids] eqn:Ef; [done|].
  destruct He as [<-|[]]. simpl in Hp. apply same_true in Hp.
  exists (mkEvidence (n_id v) (i :: ids) (r_status r === st_done) (summarize r)), v. split_and!; simpl; try done.
  - unfold aggregateEvidence. apply list_elem_of_In, in_flat_map. exists v. split; [done|].
    rewrite Eh, Er. cbn [negb]. rewrite Ef. by left.
  - by apply list_elem_of_In.
  - exists r. by split_and!.
Qed.

(** A failed or blocked node decides the run: with a failed node (or one that
    ingested failing verification results) the run is reported failed whatever the
    evidence, conflict and criteria gates say, and with a blocked node and no
    failed one it is reported blocked. *)
Theorem completeRun_node_failures stored ib :
  let results := map rewriteVerification stored in
  ((exists r, r ∈ results /\ r_status r = st_failed) ->
     wrr_status (completeRun stored ib) = run_failed) /\
  ((exists r, r ∈ results /\ r_status r = st_blocked) ->
   (forall r, r ∈ results -> r_status r <> st_failed) ->
     wrr_status (completeRun stored ib) = run_blocked).
Proof.
  intros results. unfold completeRun. fold results. destruct (evidenceGate results) as [ev st1].
  assert (forall st, (exists r, r ∈ results /\ r_status r = st) <->
    existsb (fun r => r_status r === st) results = true) as Hex.
  { intros st. rewrite existsb_exists. setoid_rewrite same_eq. by setoid_rewrite list_elem_of_In. }
  assert (forall st, st <> run_done -> (criteriaGate results st).2 = st) as Hcr.
  { intros st Hst. unfold criteriaGate. destruct (s_completionCriteria spec) as [[|c cs]|]; try done.
    cbn [snd]. by rewrite (proj2 (same_neq _ _) Hst), andb_false_r. }
  assert (forall st, wrr_status (let '(criteria, status) := criteriaGate results st in
    mkRunResult (s_specId spec) status results ev criteria None) = (criteriaGate results st).2) as Hwr.
  { intros st. by destruct (criteriaGate results st). }
  rewrite Hwr. unfold nodeGate. split.
  - intros H%Hex. rewrite H. by apply Hcr.
  - intros H%Hex Hnf. destruct (existsb (fun r => r_status r === st_failed) results) eqn:E1.
    + apply Hex in E1 as (r & Hr & Hf). by destruct (Hnf r Hr).
    + rewrite H. by apply Hcr.
Qed.
End Gate.

(** ** Criteria *)

(** Criteria never pass by default: a semantic criterion and a criterion without a
    check always fail (the former asking for review), and an evidence criterion
    passes exactly when some evidence of its kind meets every predicate it
    declares, a failing one only counting when the criterion waives the pass
    requirement. *)
Theorem evaluateCriterion_never_autopasses c ctx :
  (cc_mode c = semantic \/ is_Some (is_semantic_check (cc_check c)) ->
     cv_passed (evaluateCriterion c ctx) = false /\ cv_requiresReview (evaluateCriterion c ctx) = true) /\
  (cc_check c = None -> cv_passed (evaluateCriterion c ctx) = false) /\
  (forall kind rp ns nd cl, cc_mode c = deterministic -> cc_check c = Some (CheckEvidence kind rp ns nd cl) ->
     cv_passed (evaluateCriterion c ctx) = true <->
     exists evs e, cx_evidence ctx = Some evs /\ e ∈ evs /\ ce_kind e = kind /\
       (rp <> Some false -> ce_passed e <> Some false) /\
       (ns = true -> ce_backend e <> Some "host-audit") /\
       (nd = true -> ce_degraded e <> Some true) /\
       (cl = true -> ce_cleanupVerified e <> Some false)).
Proof.
  split_and!.
  - intros H. unfold evaluateCriterion. destruct (cc_mode c), (is_semantic_check (cc_check c)); try done.
    by destruct H as [H|[? H]].
  - intros H. unfold evaluateCriterion. rewrite H. by destruct (cc_mode c).
  - intros kind rp ns nd cl Hm Hc. unfold evaluateCriterion. rewrite Hm, Hc. simpl.
    rewrite existsb_exists. setoid_rewrite <- list_elem_of_In.
    setoid_rewrite list_elem_of_filter.
    assert (forall e, match evidenceFailure rp ns nd cl e with None => true | Some _ => false end = true <->
      (rp <> Some false -> ce_passed e <> Some false) /\ (ns = true -> ce_backend e <> Some "host-audit") /\
      (nd = true -> ce_degraded e <> Some true) /\ (cl = true -> ce_cleanupVerified e <> Some false)) as He.
    { intros e. unfold evidenceFailure.
      destruct (rp === Some false) eqn:E1, (ce_passed e === Some false) eqn:E2,
        ns, nd, cl, (ce_backend e === Some "host-audit") eqn:E3, (ce_degraded e === Some true) eqn:E4,
        (ce_cleanupVerified e === Some false) eqn:E5; reflect; simpl; intuition congruence. }
    setoid_rewrite He. destruct (cx_evidence ctx) as [evs|]; simpl.
    + split; [intros (e & [? ?] & ?); exists evs, e; tauto|].
      intros (evs' & e & [= <-] & ? & ? & ?). exists e. tauto.
    + split; [intros (e & [_ []%elem_of_nil] & _)|intros (? & ? & ? & _); done].
Qed.

(** ** Concrete runs *)
Definition patch_then_verify : WorkflowSpec :=
  mkSpec v0_1 "patch-verify"
    [mkNode "w" "tool.apply_patch" (JObj []) [] None None;
     mkNode "v" "tool.run_targeted_verification" (JObj []) [OnId "w"] None None]
    None (Some read_write)
    (Some [mkCriterion "c1" true deterministic (Some (CheckEvidence "test" None false false false))]).
Definition is_patch (id : string) : bool := id === "w".
Definition done_result (id : string) (output : jsval) : WorkflowNodeResult :=
  mkResult id st_done output None None 0 0 0.
Definition passing_results : list WorkflowNodeResult :=
  [done_result "w" JNull;
   done_result "v" (JObj [("content", JStr "  12 tests   passed ");
                          ("metadata", JObj [("evidenceKind", JStr "test")])])].

Example gate_done :
  wrr_status (completeRun patch_then_verify is_patch "/" (fun _ => None) (fun _ => false)
                passing_results None) = run_done /\
  wrr_evidence (completeRun patch_then_verify is_patch "/" (fun _ => None) (fun _ => false)
                passing_results None) = Some [mkEvidence "v" ["w"] true (Some "12 tests passed")].
Proof. split; vm_compute; reflexivity. Qed.

Lemma completeRun_done_sound_witness :
  let spec := patch_then_verify in
  (forall r, r ∈ passing_results -> r_status r = st_done /\ failedCount r = None) /\
  (forall w, w ∈ s_nodes spec -> is_patch (n_id w) = true ->
     exists e v, e ∈ aggregateEvidence spec passing_results /\ ev_writeNodeIds e <> [] /\
       v ∈ s_nodes spec /\ n_id v = ev_nodeId e /\ includes VERIFICATION_HANDLERS (n_handler v) = true /\
       exists r, r ∈ passing_results /\ r_nodeId r = ev_nodeId e /\ r_status r = st_done) /\
  (forall m, mergeNode spec = Some m ->
     (@None string = None \/ @None string = Some "") /\
     forall r vs, findResult (n_id m) passing_results = Some r ->
       field "conflicts" (field "metadata" (r_output r)) = JArr vs \/
       field "valueConflicts" (field "metadata" (r_output r)) = JArr vs -> vs = []) /\
  (forall criteria c, s_completionCriteria spec = Some criteria -> c ∈ criteria -> cc_hard c = true ->
     cv_passed (evaluateCriterion c (mkCriterionContext "/" (fun _ => None) (fun _ => false) None
                                       (Some (declaredEvidence passing_results)))) = true).
Proof.
  apply (completeRun_done_sound patch_then_verify is_patch "/" (fun _ => None) (fun _ => false)
           passing_results None).
  vm_compute. reflexivity.
Defined.

Lemma completeRun_node_failures_witness :
  let run rs := completeRun patch_then_verify is_patch "/" (fun _ => None) (fun _ => false) rs None in
  wrr_status (run [done_result "v" (JObj [("failedCount", JNum 2)])]) = run_failed /\
  wrr_status (run [mkResult "v" st_blocked JNull None None 0 0 0]) = run_blocked.
Proof.
  split.
  - apply (proj1 (completeRun_node_failures patch_then_verify is_patch "/" (fun _ => None) (fun _ => false)
      [done_result "v" (JObj [("failedCount", JNum 2)])] None)).
    eexists. split; [left|reflexivity].
  - apply (proj2 (completeRun_node_failures patch_then_verify is_patch "/" (fun _ => None) (fun _ => false)
      [mkResult "v" st_blocked JNull None None 0 0 0] None)).
    + eexists. split; [left|reflexivity].
    + intros r Hr. apply list_elem_of_singleton in Hr as ->. discriminate.
Defined.

Lemma evaluateCriterion_never_autopasses_witness :
  let c := mkCriterion "c" true semantic None in
  let ctx := mkCriterionContext "/" (fun _ => None) (fun _ => false) None None in
  cv_passed (evaluateCriterion c ctx) = false /\ cv_requiresReview (evaluateCriterion c ctx) = true.
Proof.
  apply (proj1 (evaluateCriterion_never_autopasses (mkCriterion "c" true semantic None)
    (mkCriterionContext "/" (fun _ => None) (fun _ => false) None None))).
  left. reflexivity.
Defined.
