(* ===== verification/WriteLock.v ===== *)
(** The single-writer lock.

    Models [src/src/workflow/scheduler/concurrency-controller.ts].  The
    controller has one [waiter] field; a waiter object outlives its stay in
    that field (its abort listener and its timer hold it), so waiters live in
    a store indexed by their token.  [cl_log] records what the callers
    observe: the handles resolved, the promises rejected, and the handles
    released. *)
From S2P Require Import Prelude.

(** src/src/workflow/scheduler/concurrency-controller.ts # WriteWaiter *)
Record WriteWaiter := mkWaiter { ww_token : Z; ww_cancelled : bool; ww_settled : bool }.

Inductive LockEvent := ev_granted (token : Z) | ev_cancelled (token : Z) | ev_released (token : Z).

#[export] Instance lock_event_eq_dec : EqDecision LockEvent.
Proof. solve_decision. Defined.

(** src/src/workflow/scheduler/concurrency-controller.ts # ConcurrencyController @38-42 *)
Record ConcurrencyController := mkCC {
  cl_writeHeld : bool;
  cl_writeOwnerToken : Z;
  cl_waiter : option Z;
  cl_nextToken : Z;
  cl_waiters : gmap Z WriteWaiter;
  cl_log : list LockEvent;
}.

Definition newController : ConcurrencyController := mkCC false 0 None 1 ∅ [].

(** Taking the free slot. *)
Definition takeSlot (c : ConcurrencyController) : Z * ConcurrencyController :=
  let token := cl_nextToken c in
  (token, mkCC true token (cl_waiter c) (token + 1) (cl_waiters c) (cl_log c ++ [ev_granted token])).

(** src/src/workflow/scheduler/concurrency-controller.ts # ConcurrencyController.tryAcquireWrite *)
Definition tryAcquireWrite (c : ConcurrencyController) : option Z * ConcurrencyController :=
  if cl_writeHeld c then (None, c)
  else let '(token, c) := takeSlot c in (Some token, c).

(** src/src/workflow/scheduler/concurrency-controller.ts # ConcurrencyController.acquireWrite

    The token of the request, [None] when the signal had already aborted; the
    grant or the rejection is in the log. *)
Definition acquireWrite (aborted : bool) (c : ConcurrencyController) : option Z * ConcurrencyController :=
  if negb (cl_writeHeld c) then let '(token, c) := takeSlot c in (Some token, c)
  else if aborted then (None, c)
  else
    let token := cl_nextToken c in
    (Some token,
     mkCC true (cl_writeOwnerToken c) (Some token) (token + 1)
          (<[token := mkWaiter token false false]> (cl_waiters c)) (cl_log c)).

(** src/src/workflow/scheduler/concurrency-controller.ts # ConcurrencyController.acquireWrite @93-97

    [onSignal], fired by the abort signal or the deadline of a waiter; the
    listener and the timer are removed when the waiter settles. *)
Definition onSignal (token : Z) (c : ConcurrencyController) : ConcurrencyController :=
  match cl_waiters c !! token with
  | None => c
  | Some w =>
      if ww_settled w || ww_cancelled w then c
      else mkCC (cl_writeHeld c) (cl_writeOwnerToken c)
             (if cl_waiter c === Some token then None else cl_waiter c) (cl_nextToken c)
             (<[token := mkWaiter token true true]> (cl_waiters c))
             (cl_log c ++ [ev_cancelled token])
  end.

(** src/src/workflow/scheduler/concurrency-controller.ts # ConcurrencyController.acquireWrite @69-82

    A waiter's [resolve]: the late wake guard, then the handle. *)
Definition resolveWaiter (token : Z) (c : ConcurrencyController) : ConcurrencyController :=
  match cl_waiters c !! token with
  | None => c
  | Some w =>
      if ww_cancelled w then
        mkCC false 0 (cl_waiter c) (cl_nextToken c) (cl_waiters c) (cl_log c)
      else
        mkCC (cl_writeHeld c) (cl_writeOwnerToken c)
          (if cl_waiter c === Some token then None else cl_waiter c) (cl_nextToken c)
          (<[token := mkWaiter token false true]> (cl_waiters c))
          (cl_log c ++ [ev_granted token])
  end.

(** src/src/workflow/scheduler/concurrency-controller.ts # ConcurrencyController.releaseWrite *)
Definition releaseWrite (token : Z) (c : ConcurrencyController) : ConcurrencyController :=
  if negb (cl_writeHeld c) then c
  else if negb (token =? cl_writeOwnerToken c)%Z then c
  else
    let c := mkCC (cl_writeHeld c) (cl_writeOwnerToken c) (cl_waiter c) (cl_nextToken c) (cl_waiters c)
                  (cl_log c ++ [ev_released token]) in
    match cl_waiter c with
    | Some next =>
        resolveWaiter next (mkCC true next None (cl_nextToken c) (cl_waiters c) (cl_log c))
    | None => mkCC false 0 None (cl_nextToken c) (cl_waiters c) (cl_log c)
    end.

(** ** Mutual exclusion *)

Inductive LockOp :=
| lo_try
| lo_acquire (aborted : bool)
| lo_signal (token : Z)
| lo_release (token : Z).

Definition apply_lock_op (c : ConcurrencyController) (op : LockOp) : ConcurrencyController :=
  match op with
  | lo_try => (tryAcquireWrite c).2
  | lo_acquire aborted => (acquireWrite aborted c).2
  | lo_signal token => onSignal token c
  | lo_release token => releaseWrite token c
  end.

(** The handles given out and not given back. *)
Definition holders (log : list LockEvent) : list Z :=
  filter (fun t => ev_released t ∉ log)
    (omap (fun e => match e with ev_granted t => Some t | _ => None end) log).

Definition granted_tokens (log : list LockEvent) : list Z :=
  omap (fun e => match e with ev_granted t => Some t | _ => None end) log.

Record lock_inv (c : ConcurrencyController) : Prop := {
  li_holders : holders (cl_log c) = if cl_writeHeld c then [cl_writeOwnerToken c] else [];
  li_free : cl_writeHeld c = false -> cl_waiter c = None;
  li_granted t : t ∈ granted_tokens (cl_log c) -> (0 < t < cl_nextToken c)%Z;
  li_released t : ev_released t ∈ cl_log c -> t ∈ granted_tokens (cl_log c);
  li_waiter t : cl_waiter c = Some t ->
    cl_waiters c !! t = Some (mkWaiter t false false) /\ t ∉ granted_tokens (cl_log c);
  li_waiters t w : cl_waiters c !! t = Some w -> (0 < t < cl_nextToken c)%Z /\
    (t ∈ granted_tokens (cl_log c) -> ww_settled w = true);
  li_cancelled t : ev_cancelled t ∈ cl_log c ->
    (t ∉ granted_tokens (cl_log c)) /\ exists w, cl_waiters c !! t = Some w /\ ww_cancelled w = true;
  li_next : (0 < cl_nextToken c)%Z;
}.

Lemma granted_app log e :
  granted_tokens (log ++ [e]) =
  granted_tokens log ++ match e with ev_granted t => [t] | _ => [] end.
Proof. unfold granted_tokens. rewrite omap_app. simpl. by destruct e. Qed.

Lemma holders_granted log t :
  ev_released t ∉ log -> holders (log ++ [ev_granted t]) = holders log ++ [t].
Proof.
  intros Ht. unfold holders. rewrite omap_app. simpl. rewrite filter_app. f_equal.
  - apply list_filter_iff. set_solver.
  - rewrite filter_cons_True; [done|]. set_solver.
Qed.
Lemma holders_cancelled log t : holders (log ++ [ev_cancelled t]) = holders log.
Proof.
  unfold holders. rewrite omap_app. simpl. rewrite app_nil_r. apply list_filter_iff. set_solver.
Qed.
Lemma holders_released log t :
  holders (log ++ [ev_released t]) = filter (fun x => x <> t) (holders log).
Proof.
  unfold holders. rewrite omap_app. simpl. rewrite app_nil_r, list_filter_filter.
  apply list_filter_iff. intros x. rewrite elem_of_app, list_elem_of_singleton. naive_solver.
Qed.

Lemma takeSlot_inv c : lock_inv c -> cl_writeHeld c = false -> lock_inv (takeSlot c).2.
Proof.
  intros [H1 H2 H3 H4 H5 H6 Hcan H7] Hh. specialize (H2 Hh). rewrite Hh in H1.
  assert (cl_nextToken c ∉ granted_tokens (cl_log c)) as Hfresh by (intros ?%H3; lia).
  split; simpl; rewrite ?granted_app.
  - rewrite holders_granted, H1; [done|]. intros ?%H4. done.
  - done.
  - intros t [?%H3|Ht]%elem_of_app; [lia|]. set_solver by lia.
  - intros t. rewrite !elem_of_app. intros [?%H4|Ht]; [by left|set_solver].
  - by rewrite H2.
  - intros t w Hw. destruct (H6 t w Hw) as [? Hs]. split; [lia|].
    intros [?|Ht%list_elem_of_singleton]%elem_of_app; [by apply Hs|lia].
  - intros t Ht. assert (ev_cancelled t ∈ cl_log c) as [Hg (w & Hw & ?)]%Hcan by set_solver.
    split; [|eauto]. rewrite not_elem_of_app, list_elem_of_singleton. split; [done|].
    intros ->. destruct (H6 _ _ Hw). lia.
  - lia.
Qed.

Lemma wait_inv c : lock_inv c -> cl_writeHeld c = true -> lock_inv (acquireWrite false c).2.
Proof.
  intros [H1 H2 H3 H4 H5 H6 Hcan H7] Hh. unfold acquireWrite. rewrite Hh. simpl.
  assert (cl_nextToken c ∉ granted_tokens (cl_log c)) as Hfresh by (intros ?%H3; lia).
  split; simpl; try done.
  - by rewrite Hh in H1.
  - intros t Ht%H3. lia.
  - intros t [= <-]. by rewrite lookup_insert_eq.
  - intros t w. rewrite lookup_insert. case_decide; [intros [= <-]; subst; split; [lia|done]|].
    intros [? ?]%H6. split; [lia|done].
  - intros t [Hg (w & Hw & ?)]%Hcan. split; [done|]. exists w.
    rewrite lookup_insert_ne; [done|]. intros <-. destruct (H6 _ _ Hw). lia.
  - lia.
Qed.

Lemma onSignal_inv t c : lock_inv c -> lock_inv (onSignal t c).
Proof.
  intros Hinv. pose proof Hinv as [H1 H2 H3 H4 H5 H6 Hcan H7]. unfold onSignal.
  destruct (cl_waiters c !! t) as [w|] eqn:Ew; [|done].
  destruct (ww_settled w || ww_cancelled w) eqn:Es; [done|]. apply orb_false_iff in Es as [Es Ec].
  destruct (H6 t w Ew) as [Ht Hg].
  assert (t ∉ granted_tokens (cl_log c)) as Htg by (intros ?%Hg; congruence).
  split; simpl; rewrite ?granted_app, ?app_nil_r; try done.
  - by rewrite holders_cancelled.
  - intros Hh. rewrite H2 by done. by case_match.
  - intros t' Ht'. apply H4. set_solver.
  - intros t' Hw. destruct (cl_waiter c === Some t) eqn:Eq; [done|]. apply same_false in Eq.
    rewrite lookup_insert_ne by congruence. by apply H5.
  - intros t' w'. rewrite lookup_insert. case_decide; [intros [= <-]; by subst|by apply H6].
  - intros t'. rewrite lookup_insert. intros [Hc|Hc]%elem_of_app.
    + apply Hcan in Hc as [? (w' & ? & ?)]. split; [done|]. case_decide; eauto.
    + apply list_elem_of_singleton in Hc as [= ->]. split; [done|]. rewrite decide_True by done. eauto.
Qed.

Lemma releaseWrite_inv t c : lock_inv c -> lock_inv (releaseWrite t c).
Proof.
  intros Hinv. pose proof Hinv as [H1 H2 H3 H4 H5 H6 Hcan H7]. unfold releaseWrite.
  destruct (cl_writeHeld c) eqn:Hh; [|done]. cbn [negb].
  destruct (t =? cl_writeOwnerToken c)%Z eqn:Et; [|done]. reflect. subst t. cbn [negb].
  set (owner := cl_writeOwnerToken c) in *.
  assert (owner ∈ granted_tokens (cl_log c)) as Hog.
  { assert (owner ∈ holders (cl_log c)) as Ho by (rewrite H1; left).
    by apply list_elem_of_filter in Ho as [_ ?]. }
  assert (holders (cl_log c ++ [ev_released owner]) = []) as Hrel.
  { rewrite holders_released, H1, filter_cons_False by (intros []; done). done. }
  cbn. destruct (cl_waiter c) as [n|] eqn:En.
  - destruct (H5 n eq_refl) as [Hw Hng]. unfold resolveWaiter. cbn. rewrite Hw. cbn.
    destruct (H6 n _ Hw) as [Hn _].
    split; simpl; rewrite ?granted_app, ?app_nil_r; try done.
    + rewrite holders_granted, Hrel; [done|]. intros Hin. apply Hng.
      apply elem_of_app in Hin as [?|Hin]; [by apply H4|]. by apply list_elem_of_singleton in Hin as [= ->].
    + intros t [?%H3|Ht%list_elem_of_singleton]%elem_of_app; [done|by subst].
    + intros t. rewrite !elem_of_app, !list_elem_of_singleton. intros [[?%H4|[= ->]]|?]; naive_solver.
    + intros t w. rewrite lookup_insert. case_decide; [intros [= <-]; by subst|].
      intros [? Hs]%H6. split; [done|]. intros [?|Ht%list_elem_of_singleton]%elem_of_app; [by apply Hs|done].
    + intros t Ht. assert (ev_cancelled t ∈ cl_log c) as [Hg (w & Hcw & Hc)]%Hcan by set_solver.
      assert (t <> n) by (intros ->; rewrite Hw in Hcw; by injection Hcw as <-).
      split; [set_solver|]. exists w. by rewrite lookup_insert_ne.
  - split; simpl; rewrite ?granted_app, ?app_nil_r; try done.
    + intros t. rewrite elem_of_app, list_elem_of_singleton. intros [?%H4|[= ->]]; done.
    + intros t Ht. apply Hcan. set_solver.
Qed.

Lemma apply_lock_op_inv c op : lock_inv c -> lock_inv (apply_lock_op c op).
Proof.
  intros Hinv. destruct op as [|[]|t|t]; simpl; [| | |by apply onSignal_inv|by apply releaseWrite_inv].
  - unfold tryAcquireWrite. destruct (cl_writeHeld c) eqn:Hh; [done|]. by apply takeSlot_inv.
  - unfold acquireWrite. destruct (cl_writeHeld c) eqn:Hh; [done|]. by apply takeSlot_inv.
  - unfold acquireWrite. destruct (cl_writeHeld c) eqn:Hh; [|by apply takeSlot_inv].
    pose proof (wait_inv c Hinv Hh) as Hw. unfold acquireWrite in Hw. by rewrite Hh in Hw.
Qed.

Lemma newController_inv : lock_inv newController.
Proof. split; simpl; try done; set_solver. Qed.

Definition lock_run (ops : list LockOp) : ConcurrencyController := fold_left apply_lock_op ops newController.

Lemma lock_run_inv ops : lock_inv (lock_run ops).
Proof.
  unfold lock_run. pose proof newController_inv as H. revert H. generalize newController.
  induction ops as [|op ops IH]; intros c Hc; simpl; [done|]. by apply IH, apply_lock_op_inv.
Qed.

(** Single writer: after any sequence of acquisitions, cancellations, deadlines
    and releases (stale or repeated ones included), exactly one handle is out when
    the lock is held and none when it is free, a cancelled waiter has not been and
    is never handed the lock, and releasing with any token but the current
    holder's changes nothing. *)
Theorem write_lock_exclusive ops :
  let c := lock_run ops in
  holders (cl_log c) = (if cl_writeHeld c then [cl_writeOwnerToken c] else []) /\
  (forall t, ev_cancelled t ∈ cl_log c -> ev_granted t ∉ cl_log c) /\
  (forall t, t ∉ holders (cl_log c) -> releaseWrite t c = c).
Proof.
  intros c. pose proof (lock_run_inv ops) as [H1 H2 H3 H4 H5 H6 Hcan H7]. fold c in H1, Hcan. split_and!.
  - done.
  - intros t [Hg _]%Hcan Hin. apply Hg. unfold granted_tokens. apply list_elem_of_omap. by exists (ev_granted t).
  - intros t Ht. unfold releaseWrite. rewrite H1 in Ht. destruct (cl_writeHeld c); [|done]. simpl.
    destruct (t =? _)%Z eqn:E; [|done]. reflect. subst. destruct Ht. left.
Qed.

(** A lock with one writer waiting passes on: when the holder releases, the waiter
    in the slot is granted in the same step, so the lock is never observed free in
    between. *)
Theorem write_lock_handoff ops t :
  let c := lock_run ops in
  cl_waiter c = Some t ->
  cl_writeHeld (releaseWrite (cl_writeOwnerToken c) c) = true /\
  holders (cl_log (releaseWrite (cl_writeOwnerToken c) c)) = [t].
Proof.
  intros c Hw. pose proof (lock_run_inv ops) as Hinv. fold c in Hinv.
  pose proof (releaseWrite_inv (cl_writeOwnerToken c) c Hinv) as [Hr _ _ _ _ _ _ _].
  destruct (li_waiter _ Hinv t Hw) as [Ht _].
  assert (cl_writeHeld c = true) as Hh.
  { destruct (cl_writeHeld c) eqn:E; [done|]. apply (li_free _ Hinv) in E. congruence. }
  assert (cl_writeHeld (releaseWrite (cl_writeOwnerToken c) c) = true /\
          cl_writeOwnerToken (releaseWrite (cl_writeOwnerToken c) c) = t) as [E1 E2].
  { unfold releaseWrite. rewrite Hh, Z.eqb_refl. cbn. rewrite Hw. unfold resolveWaiter. cbn. by rewrite Ht. }
  split; [done|]. by rewrite Hr, E1, E2.
Qed.

Lemma write_lock_handoff_witness :
  holders (cl_log (releaseWrite 1 (lock_run [lo_try; lo_acquire false]))) = [2%Z].
Proof. apply (write_lock_handoff [lo_try; lo_acquire false] 2). reflexivity. Defined.

(** The slot holds one waiter: a third writer displaces the second, which the
    releases then pass over; the lock ends up free while it still waits, and
    only its deadline or its signal ever settles it. *)
Example displaced_waiter :
  let c := lock_run [lo_acquire false; lo_acquire false; lo_acquire false; lo_release 1; lo_release 3] in
  cl_writeHeld c = false /\ cl_waiter c = None /\
  granted_tokens (cl_log c) = [1; 3]%Z /\ cl_waiters c !! 2%Z = Some (mkWaiter 2 false false).
Proof. vm_compute. split_and!; reflexivity. Qed.
