(* ===== verification/Scheduler.v ===== *)
(** The workflow scheduler's main loop.

    Models [runScheduler] of [src/src/workflow/scheduler/scheduler.ts] up to
    the point where every node has finished or the run has paused; the
    completion gate that follows is in [Completion.v].

    JavaScript runs the loop body and every settlement handler to completion,
    so an execution is a sequence of atomic steps: the synchronous [fill] of
    the free slots, and the handlers of the launched promises.  Between two
    [fill]s the loop awaits [Promise.race] of the running promises: at least
    one of them settles, and the handlers of several may run before the loop
    continues.  [race] is that choice, an arbitrary function.

    Not represented: the incremental checkpoint written by each [store.put]
    (it is never read back during a run; see [Results.v]), the legacy resource
    reservation, and the write lock (see [WriteLock.v]), which only delay a
    launched node or make its promise reject, an outcome the model has. *)
From stdpp Require Import pretty.
From S2P Require Import Prelude Json WorkflowTypes EdgeStore ReadyQueue Results Agents.

(** ** What a node run needs from the other components *)

(** src/src/workflow/execution/workflow-execution-context.ts # NodeEnforcement *)
Record NodeEnforcement := mkEnforcement {
  ne_assignment : option ParticipantAssignment;
  ne_projectRoot : string;
  ne_deniedReason : option string;
}.

(** The interface of the enforcement layer, with its private state [W] (the
    worktrees of the run): the pre-launch decision, the check of the paths a
    write reported, and the validation of a declared role's output. *)
Class NodeServices (W : Type) := {
  enforceNodeAssignment : WorkflowNodeSpec -> bool -> option AgentPool -> W -> NodeEnforcement * W;
  enforceActualWrites : WorkflowNodeSpec -> NodeEnforcement -> jsval -> option string;
  validateRoleOutput : string -> jsval -> option (string * list string);
}.

(** src/src/workflow/scheduler/scheduler.ts # SchedulerOptions

    The options the loop reads.  [so_capabilityWrites] is the side effect of
    [capabilities.resolve(id)], [None] when it throws. *)
Record SchedulerOptions := mkOptions {
  so_maxParallel : option Z;
  so_harness : bool;
  so_harnessRoot : string;
  so_workspaceDigest : option string;
  so_isWriteHandler : string -> bool;
  so_capabilityWrites : string -> option bool;
  so_sha256 : string -> string;
  so_jsonParse : string -> option jsval;
  so_clock : nat -> Z;
}.

(** src/src/workflow/harness/workflow-node-adapter.ts # isHarnessNode *)
Definition isHarnessNode (node : WorkflowNodeSpec) : bool :=
  match n_execution node with
  | None | Some ExecFunction => false
  | Some _ => true
  end.

(** What a launched node's executor did: it returned (the fields of the
    result it stored), paused at a human node, or its promise rejected. *)
Inductive NodeOutcome :=
| OutResult (status : WorkflowNodeResultStatus) (output : jsval) (error errorKind : option string)
            (startedAt finishedAt durationMs : Z)
| OutInterrupt (record : WorkflowInterruptRecord)
| OutError (message : string).

(** An entry of [running]: [rn_settled] is the result of a launch that
    returned before awaiting anything. *)
Record Running := mkRunning {
  rn_node : WorkflowNodeSpec;
  rn_enforcement : NodeEnforcement;
  rn_settled : option WorkflowNodeResult;
}.

Section Scheduler.
Context {W : Type} `{!NodeServices W}.
Context (spec : WorkflowSpec) (options : SchedulerOptions).

(** The local variables of [runScheduler] that the loop mutates.
    [ss_reported] is what [onNodeFinished] was called with, [ss_lost] the
    rejections nobody awaited. *)
Record SchedState := mkSched {
  ss_queue : ReadyQueue;
  ss_store : ResultStore;
  ss_cache : option ResultCache;
  ss_pool : option AgentPool;
  ss_worktrees : W;
  ss_running : list (string * Running);
  ss_finished : gset string;
  ss_interrupt : option WorkflowInterruptRecord;
  ss_reported : list WorkflowNodeResult;
  ss_lost : list string;
  ss_ticks : nat;
}.

Definition maxParallel : Z :=
  match so_maxParallel options with
  | Some m => m
  | None => default 4%Z (s_maxParallel spec)
  end.
Definition run_mode : SpecMode := default readonly (s_mode spec).

(** src/src/workflow/scheduler/scheduler.ts # runScheduler @320-335 *)
Definition writeNode (n : WorkflowNodeSpec) : bool :=
  match n_execution n with
  | Some (ExecTool capabilityId _) =>
      if so_harness options then default false (so_capabilityWrites options capabilityId) else false
  | _ => so_isWriteHandler options (n_handler n)
  end.
Definition writeNodeIds : list string := n_id <$> filter (fun n => writeNode n = true) (s_nodes spec).
Definition isWrite (id : string) : bool := includes writeNodeIds id.

(** ** State updates *)

Definition with_queue (q : ReadyQueue) (s : SchedState) : SchedState :=
  mkSched q (ss_store s) (ss_cache s) (ss_pool s) (ss_worktrees s) (ss_running s) (ss_finished s)
          (ss_interrupt s) (ss_reported s) (ss_lost s) (ss_ticks s).
Definition with_cache (c : option ResultCache) (s : SchedState) : SchedState :=
  mkSched (ss_queue s) (ss_store s) c (ss_pool s) (ss_worktrees s) (ss_running s) (ss_finished s)
          (ss_interrupt s) (ss_reported s) (ss_lost s) (ss_ticks s).
Definition with_pool (p : option AgentPool) (s : SchedState) : SchedState :=
  mkSched (ss_queue s) (ss_store s) (ss_cache s) p (ss_worktrees s) (ss_running s) (ss_finished s)
          (ss_interrupt s) (ss_reported s) (ss_lost s) (ss_ticks s).
Definition with_worktrees (w : W) (s : SchedState) : SchedState :=
  mkSched (ss_queue s) (ss_store s) (ss_cache s) (ss_pool s) w (ss_running s) (ss_finished s)
          (ss_interrupt s) (ss_reported s) (ss_lost s) (ss_ticks s).
Definition with_running (r : list (string * Running)) (s : SchedState) : SchedState :=
  mkSched (ss_queue s) (ss_store s) (ss_cache s) (ss_pool s) (ss_worktrees s) r (ss_finished s)
          (ss_interrupt s) (ss_reported s) (ss_lost s) (ss_ticks s).
(** [store.put(result)], one clock reading later. *)
Definition with_result (r : WorkflowNodeResult) (s : SchedState) : SchedState :=
  mkSched (ss_queue s) (store_set r (ss_store s)) (ss_cache s) (ss_pool s) (ss_worktrees s)
          (ss_running s) (ss_finished s) (ss_interrupt s) (ss_reported s) (ss_lost s) (S (ss_ticks s)).
Definition now (s : SchedState) : Z := so_clock options (ss_ticks s).

(** [finished.add(id); queue.onDependencyDone(id)] *)
Definition announce (id : string) (s : SchedState) : SchedState :=
  mkSched (onDependencyDone id (ss_queue s)) (ss_store s) (ss_cache s) (ss_pool s) (ss_worktrees s)
          (ss_running s) ({[id]} ∪ ss_finished s) (ss_interrupt s) (ss_reported s) (ss_lost s) (ss_ticks s).
Definition report (r : WorkflowNodeResult) (s : SchedState) : SchedState :=
  mkSched (ss_queue s) (ss_store s) (ss_cache s) (ss_pool s) (ss_worktrees s) (ss_running s)
          (ss_finished s) (ss_interrupt s) (ss_reported s ++ [r]) (ss_lost s) (ss_ticks s).

(** The literal a failed or blocked result is built from. *)
Definition failure (id : string) (status : WorkflowNodeResultStatus) (msg : string)
    (kind : option string) (at_ : Z) : WorkflowNodeResult :=
  mkResult id status JNull (Some msg) kind at_ at_ 0.

(** ** Launching *)

(** A launch that returns at once: the result is stored, the promise is
    already resolved when it enters [running]. *)
Definition settled (node : WorkflowNodeSpec) (enf : NodeEnforcement) (r : WorkflowNodeResult)
    (s : SchedState) : SchedState :=
  let s := with_result r s in
  with_running (jset (n_id node) (mkRunning node enf (Some r)) (ss_running s)) s.

Definition verdict_name (v : BudgetVerdict) : string :=
  match v with bv_ok => "ok" | bv_nodes_exhausted => "nodes_exhausted"
             | bv_writes_exhausted => "writes_exhausted" end.
(** [JSON.stringify(budget.stateSnapshot())] *)
Definition snapshot_json (b : AgentBudget) : string :=
  "{" +:+ json_quote "nodes" +:+ ":" +:+ pretty (ab_nodes (ab_state b)) +:+ "," +:+
  json_quote "writes" +:+ ":" +:+ pretty (ab_writes (ab_state b)) +:+ "}".

(** src/src/workflow/scheduler/scheduler.ts # runScheduler @373-429

    The agent checks: [inl r] is an early return with [r], [inr pool] goes on
    with the charged pool. *)
Definition agentGate (node : WorkflowNodeSpec) (s : SchedState)
    : WorkflowNodeResult * option AgentPool + option AgentPool :=
  let fail msg := failure (n_id node) st_failed msg None (now s) in
  match ss_pool s with
  | None => inr None
  | Some pool =>
      match agentOfNodeId (n_id node) with
      | None => inr (Some pool)
      | Some agentId =>
          match pool_get agentId pool with
          | None => inr (Some pool)
          | Some agent =>
              let label := "workflow: agent " +:+ json_quote agentId in
              match isCancelled agentId pool, exhaustedVerdict (ag_budget agent) with
              | _, Some v =>
                  inl (fail (label +:+ " budget verdict " +:+ verdict_name v +:+ " (" +:+
                             snapshot_json (ag_budget agent) +:+ ")"), Some pool)
              | true, None => inl (fail (label +:+ " cancelled"), Some pool)
              | false, None =>
                  let '(verdict, budget) := chargeNode (ag_budget agent) in
                  let pool := update_agent agentId (set_budget budget) pool in
                  match verdict with
                  | bv_ok =>
                      if isWrite (n_id node) then
                        let '(writeVerdict, budget) := chargeWrite budget in
                        let pool := update_agent agentId (set_budget budget) pool in
                        match writeVerdict with
                        | bv_ok => inr (Some pool)
                        | v => inl (fail (label +:+ " budget verdict " +:+ verdict_name v), Some pool)
                        end
                      else inr (Some pool)
                  | v => inl (fail (label +:+ " budget verdict " +:+ verdict_name v), Some pool)
                  end
              end
          end
      end
  end.

Definition cacheKey (node : WorkflowNodeSpec) : string :=
  cacheKeyFor (so_sha256 options) (n_handler node) (n_input node) (so_workspaceDigest options).

Definition mode_name (m : SpecMode) : string :=
  match m with readonly => "readonly" | read_write => "read-write" end.

(** src/src/workflow/scheduler/scheduler.ts # runScheduler @356-438

    The synchronous prefix of [launch]: write protection, agent gate, cache. *)
Definition launch (node : WorkflowNodeSpec) (enf : NodeEnforcement) (s : SchedState) : SchedState :=
  if isWrite (n_id node) && negb (run_mode === read_write) then
    settled node enf (failure (n_id node) st_failed
      ("workflow: write handler " +:+ json_quote (n_handler node) +:+ " rejected in " +:+
       mode_name run_mode +:+ " mode") None (now s)) s
  else match agentGate node s with
  | inl (r, pool) => settled node enf r (with_pool pool s)
  | inr pool =>
      let s := with_pool pool s in
      let start s := with_running (jset (n_id node) (mkRunning node enf None) (ss_running s)) s in
      match ss_cache s with
      | Some cache =>
          if negb (isWrite (n_id node)) && negb (isHarnessNode node) then
            let '(hit, cache) := cache_get (cacheKey node) cache in
            let s := with_cache (Some cache) s in
            match hit with
            | Some entry =>
                (* the replayed object keeps the node id it was cached under *)
                settled node enf (replayResult (ce_result entry)) s
            | None => start s
            end
          else start s
      | None => start s
      end
  end.

(** ** Settling *)

Definition is_role (r : string) : bool :=
  (r === "planner") || (r === "coder") || (r === "reviewer").

(** The value the role validator sees: the parsed [text], the text itself
    when it is not JSON, or the whole output; reading [text] off a missing
    output throws. *)
Definition roleRaw (output : jsval) : option jsval :=
  match output with
  | JNull | JUndef => None
  | _ => Some (match field "text" output with
               | JStr text => default (JStr text) (so_jsonParse options text)
               | _ => output
               end)
  end.

(** What follows the executor in the body of [launch]: the ownership check of
    the paths actually written, the validation of a declared role's output,
    the cache.  [None] is a [TypeError]. *)
Definition checkRole (node : WorkflowNodeSpec) (r : WorkflowNodeResult) (at_ : Z)
    : option WorkflowNodeResult :=
  if (r_status r === st_done) && isHarnessNode node && so_harness options then
    match field "role" (n_input node) with
    | JStr role =>
        if is_role role then
          raw ← roleRaw (r_output r);
          match validateRoleOutput role raw with
          | None => Some r
          | Some (kind, errors) =>
              Some (mkResult (r_nodeId r) st_failed (r_output r) (Some (js_join "; " errors))
                             (Some kind) (r_startedAt r) at_ (r_durationMs r))
          end
        else Some r
    | _ => Some r
    end
  else Some r.

Definition checkWrites (node : WorkflowNodeSpec) (enf : NodeEnforcement) (r : WorkflowNodeResult)
    : option string :=
  match ne_assignment enf with
  | Some _ => if (r_status r === st_done) && isWrite (n_id node)
              then enforceActualWrites node enf (r_output r) else None
  | None => None
  end.

Definition updateCache (node : WorkflowNodeSpec) (r : WorkflowNodeResult) (s : SchedState) : SchedState :=
  if r_status r === st_done then
    if isWrite (n_id node) then with_cache (cache_invalidateAll <$> ss_cache s) s
    else if negb (isHarnessNode node) then
      with_cache (cache_put (now s) (cacheKey node) r <$> ss_cache s) s
    else s
  else s.

(** src/src/workflow/scheduler/scheduler.ts # runScheduler @498-564 *)
Definition postExecute (node : WorkflowNodeSpec) (enf : NodeEnforcement) (raw : WorkflowNodeResult)
    (s : SchedState) : option WorkflowNodeResult * SchedState :=
  let s := with_result raw s in
  match checkWrites node enf raw with
  | Some violation =>
      let denied := failure (n_id node) st_failed ("workflow: ownership_denied — " +:+ violation)
                      (Some "ownership_denied") (now s) in
      (Some denied, with_result denied s)
  | None =>
      match checkRole node raw (now s) with
      | None => (None, s)
      | Some r => (Some r, updateCache node r (with_result r s))
      end
  end.

Definition drop_running (id : string) (s : SchedState) : SchedState :=
  with_running (jdelete id (ss_running s)) s.
Definition lose (msg : string) (s : SchedState) : SchedState :=
  mkSched (ss_queue s) (ss_store s) (ss_cache s) (ss_pool s) (ss_worktrees s) (ss_running s)
          (ss_finished s) (ss_interrupt s) (ss_reported s) (ss_lost s ++ [msg]) (ss_ticks s).
Definition interrupt_with (record : WorkflowInterruptRecord) (s : SchedState) : SchedState :=
  mkSched (ss_queue s) (ss_store s) (ss_cache s) (ss_pool s) (ss_worktrees s) (ss_running s)
          (ss_finished s) (match ss_interrupt s with Some r => Some r | None => Some record end)
          (ss_reported s) (ss_lost s) (ss_ticks s).

Definition resultOf (node : WorkflowNodeSpec) (o : NodeOutcome) : option WorkflowNodeResult :=
  match o with
  | OutResult st out err kind a b d => Some (mkResult (n_id node) st out err kind a b d)
  | _ => None
  end.

(** src/src/workflow/scheduler/scheduler.ts # runScheduler @584-602

    The [.then] and [.catch] handlers of one launched promise. *)
Definition settle (id : string) (o : NodeOutcome) (s : SchedState) : SchedState :=
  match jget id (ss_running s) with
  | None => s
  | Some run =>
      let finish r s := report r (announce id (drop_running id s)) in
      match rn_settled run with
      | Some r => finish r s
      | None =>
          match o with
          | OutInterrupt record => interrupt_with record (drop_running id s)
          | OutError msg => lose msg (drop_running id s)
          | OutResult st out err kind a b d =>
              match postExecute (rn_node run) (rn_enforcement run)
                      (mkResult (n_id (rn_node run)) st out err kind a b d) s with
              | (Some r, s) => finish r s
              | (None, s) => lose "TypeError" (drop_running id s)
              end
          end
      end
  end.

(** Whether the promise of [id] rejects with [o] (an interrupt is caught). *)
Definition rejects (id : string) (o : NodeOutcome) (s : SchedState) : option string :=
  match jget id (ss_running s) with
  | Some run =>
      match rn_settled run, o with
      | None, OutError msg => Some msg
      | None, OutResult st out err kind a b d =>
          match postExecute (rn_node run) (rn_enforcement run)
                  (mkResult (n_id (rn_node run)) st out err kind a b d) s with
          | (None, _) => Some "TypeError"
          | _ => None
          end
      | _, _ => None
      end
  | None => None
  end.

(** ** Filling the free slots *)

Inductive FillStep :=
| Continue (s : SchedState)
| Stop (s : SchedState).

Definition when_name (w : WorkflowDependencyWhen) : string :=
  match w with
  | when_terminal => "terminal" | when_succeeded => "succeeded" | when_failed => "failed"
  | when_accepted => "accepted" | when_rejected => "rejected" | when_blocked => "blocked"
  end.
Definition blockedResult (node : WorkflowNodeSpec) (unsat : list WorkflowDependency) (at_ : Z)
    : WorkflowNodeResult :=
  failure (n_id node) st_blocked
    ("workflow: node " +:+ json_quote (n_id node) +:+ " blocked — dependency conditions unsatisfied: " +:+
     js_join ", " ((fun d => dep_nodeId d +:+ ":" +:+ when_name (dep_when d)) <$> unsat)) None at_.

(** src/src/workflow/execution/workflow-execution-context.ts # ownershipDeniedResult *)
Definition ownershipDeniedResult (nodeId reason : string) (at_ : Z) : WorkflowNodeResult :=
  failure nodeId st_failed ("workflow: ownership_denied — " +:+ reason) (Some "ownership_denied") at_.

(** The pre-launch enforcement of one node; without a harness there is none. *)
Definition enforce (node : WorkflowNodeSpec) (s : SchedState) : NodeEnforcement * SchedState :=
  if so_harness options then
    let '(enf, w) := enforceNodeAssignment node (isWrite (n_id node)) (ss_pool s) (ss_worktrees s) in
    (enf, with_worktrees w s)
  else (mkEnforcement None "" None, s).

Definition slots_free (s : SchedState) : bool :=
  (Z.of_nat (length (ss_running s)) <? maxParallel)%Z && hasReady (ss_queue s) &&
  match ss_interrupt s with Some _ => false | None => true end.

(** src/src/workflow/scheduler/scheduler.ts # runScheduler @614-654

    One iteration of the inner loop. *)
Definition fillStep (s : SchedState) : FillStep :=
  if negb (slots_free s) then Stop s
  else match next (ss_queue s) with
  | (None, q) => Stop (with_queue q s)
  | (Some node, q) =>
      let s := with_queue q s in
      if store_has (n_id node) (ss_store s) then
        Continue (with_queue (onDependencyDone (n_id node) (ss_queue s)) s)
      else match evaluateReadiness (depsOfNode (ss_queue s) (n_id node))
                   (fun id => store_get id (ss_store s)) with
      | rd_blocked unsat =>
          Continue (announce (n_id node) (with_result (blockedResult node unsat (now s)) s))
      | _ =>
          let '(enf, s) := enforce node s in
          match ne_deniedReason enf with
          | Some reason =>
              Continue (announce (n_id node) (with_result (ownershipDeniedResult (n_id node) reason (now s)) s))
          | None => Continue (launch node enf s)
          end
      end
  end.

Fixpoint fill (fuel : nat) (s : SchedState) : SchedState :=
  match fuel with
  | O => s
  | S fuel => match fillStep s with Continue s => fill fuel s | Stop s => s end
  end.

(** ** The main loop *)

Inductive LoopOutcome :=
| Completed (s : SchedState)
| Paused (s : SchedState)
| Deadlock (s : SchedState)
| Rejected (message : string) (s : SchedState)
| LoopOutOfFuel.

(** Every node is popped at most once, so the inner loop stops within
    [fillFuel] iterations and the outer one within [S (length nodes)]. *)
Definition fillFuel : nat := S (length (s_nodes spec)).

(** The handlers of the settled promises run in order; the race adopts the
    first, so only its rejection ends the run. *)
Definition settleAll (batch : list (string * NodeOutcome)) (s : SchedState) : SchedState :=
  fold_left (fun s e => settle e.1 e.2 s) batch s.

(** src/src/workflow/scheduler/scheduler.ts # runScheduler @610-662 *)
Fixpoint mainLoop (race : nat -> SchedState -> list (string * NodeOutcome)) (fuel : nat)
    (s : SchedState) : LoopOutcome :=
  match fuel with
  | O => LoopOutOfFuel
  | S fuel =>
      let s := fill fillFuel s in
      if (size (ss_finished s) =? length (s_nodes spec))%nat then Completed s
      else if (match ss_interrupt s with Some _ => true | None => false end)
              && (length (ss_running s) =? 0)%nat then Paused s
      else if (length (ss_running s) =? 0)%nat then Deadlock s
      else
        let batch := race fuel s in
        match batch with
        | (id, o) :: _ =>
            match rejects id o s with
            | Some msg => Rejected msg s
            | None => mainLoop race fuel (settleAll batch s)
            end
        | [] => mainLoop race fuel s
        end
  end.

(** The ids the store already has a result for, when the loop starts. *)
Definition restoredIds (store : ResultStore) : gset string :=
  list_to_set (filter (fun id => store_has id store = true) (nodeIds spec)).

Definition initial (q : ReadyQueue) (store : ResultStore) (cache : option ResultCache)
    (pool : option AgentPool) (w : W) : SchedState :=
  mkSched q store cache pool w [] (restoredIds store) None [] [] 0.

(** ** The invariant

    [D]: the nodes announced to the queue; [stalled]: the nodes whose promise
    rejected or paused; [held]: the node the current step has popped but not
    yet dealt with. *)
Definition cacheable (n : WorkflowNodeSpec) : bool := negb (isWrite (n_id n)) && negb (isHarnessNode n).

(** Replaying from the cache files the cached result under the id it was
    computed for; the loop is right when that is the id of the node replayed.
    With the cache off there is nothing to ask. *)
Definition cache_faithful (c : option ResultCache) : Prop :=
  forall c', c = Some c' ->
    (forall n m, n ∈ s_nodes spec -> m ∈ s_nodes spec -> cacheable n = true -> cacheable m = true ->
       cacheKey n = cacheKey m -> n_id n = n_id m) /\
    (forall n e, n ∈ s_nodes spec -> cacheable n = true ->
       jget (cacheKey n) (rc_entries c') = Some e -> r_nodeId (ce_result e) = n_id n).

Definition depsOf (n : WorkflowNodeSpec) : list WorkflowDependency :=
  normalizeDependencies (Some (n_dependsOn n)) (s_schemaVersion spec).

(** Every condition the node declares is satisfied by the stored results. *)
Definition deps_satisfied (store : ResultStore) (n : WorkflowNodeSpec) : Prop :=
  forall d, d ∈ depsOf n -> dependencySatisfied d (store_get (dep_nodeId d) store) = satisfied.

Record sched_inv (D stalled held : gset string) (s : SchedState) : Prop := {
  si_queue : exists popped, queue_inv spec D popped (ss_queue s) /\
    forall x, x ∈ popped <-> x ∈ D \/ x ∈ stalled \/ x ∈ held \/ x ∈ jkeys (ss_running s);
  si_nodup : NoDup (jkeys (ss_running s));
  si_disjoint : D ## stalled /\ D ## held /\ stalled ## held;
  si_fresh x : x ∈ jkeys (ss_running s) -> x ∉ D ∪ stalled ∪ held;
  si_node id run : jget id (ss_running s) = Some run ->
    rn_node run ∈ s_nodes spec /\ n_id (rn_node run) = id /\ deps_satisfied (ss_store s) (rn_node run);
  si_settled id run r : jget id (ss_running s) = Some run -> rn_settled run = Some r ->
    store_get id (ss_store s) = Some r;
  si_finished : D ⊆ ss_finished s /\ ss_finished s ⊆ list_to_set (nodeIds spec);
  si_active x : x ∈ jkeys (ss_running s) \/ x ∈ stalled -> x ∉ ss_finished s;
  si_stored x : x ∈ ss_finished s -> is_Some (store_get x (ss_store s));
  si_storeids x : is_Some (store_get x (ss_store s)) -> x ∈ nodeIds spec ->
    x ∈ ss_finished s \/ x ∈ jkeys (ss_running s) \/ x ∈ stalled \/ x ∈ held;
  si_cache : cache_faithful (ss_cache s);
  si_stalled : stalled <> ∅ -> is_Some (ss_interrupt s) \/ ss_lost s <> [];
  si_parallel : (Z.of_nat (length (ss_running s)) <= Z.max 0 maxParallel)%Z;
  si_wf : store_wf (ss_store s);
}.

Hypothesis Hnd : NoDup (nodeIds spec).
Hypothesis Hclosed : closed spec.
Hypothesis Hempty : "" ∉ nodeIds spec.

Lemma node_inj n m : n ∈ s_nodes spec -> m ∈ s_nodes spec -> n_id n = n_id m -> n = m.
Proof.
  intros Hn Hm Hid. pose proof (nodeById_elem spec n Hnd Hn) as E.
  rewrite Hid, nodeById_elem in E by done. congruence.
Qed.

Lemma n_id_nodeIds n : n ∈ s_nodes spec -> n_id n ∈ nodeIds spec.
Proof. apply list_elem_of_fmap_2. Qed.

Lemma store_get_set r x s :
  store_get x (store_set r s) = if decide (r_nodeId r = x) then Some r else store_get x s.
Proof. unfold store_get. simpl. by rewrite jget_jset. Qed.

(** A condition on finished nodes survives a result filed under an
    unfinished one. *)
Lemma deps_satisfied_set D r n s :
  deps_satisfied s n -> r_nodeId r ∉ D -> openDeps D n = [] -> deps_satisfied (store_set r s) n.
Proof.
  intros Hs Hr Ho d Hd. rewrite store_get_set, decide_False; [by apply Hs|].
  intros Heq. apply Hr. rewrite Heq. apply (proj1 (openDeps_nil D n) Ho).
  assert (dep_nodeId d ∈ dedup_from [] (depIds n)) as Hin.
  { rewrite <- (normalize_ids (s_schemaVersion spec)). by apply list_elem_of_fmap_2. }
  by apply elem_of_dedup_from in Hin as [? _].
Qed.

Lemma popped_open D popped q x n :
  queue_inv spec D popped q -> x ∈ popped -> n ∈ s_nodes spec -> n_id n = x -> openDeps D n = [].
Proof.
  intros Hq Hx Hn Hid. assert (x ∈ q_ready q ++ popped) as Hin by set_solver.
  apply (qi_ready _ _ _ _ Hq) in Hin as (m & Hm & Hmid & Ho).
  by rewrite (node_inj n m) by congruence.
Qed.

(** Storing a result for an unfinished node. *)
Lemma with_result_inv D S H s r :
  sched_inv D S H s -> r_nodeId r ∉ ss_finished s ->
  (forall id run r', jget id (ss_running s) = Some run -> rn_settled run = Some r' -> id <> r_nodeId r) ->
  (r_nodeId r ∈ jkeys (ss_running s) \/ r_nodeId r ∈ H \/ r_nodeId r ∈ S) ->
  sched_inv D S H (with_result r s).
Proof.
  intros [Hq Hndr Hdis Hfr Hnode Hset Hfin Hact Hst Hids Hc Hstl Hpar Hwf] Hr Hns Hown.
  split; simpl; try done.
  - intros id run Hg. destruct (Hnode id run Hg) as (Hn & Hid & Hs). split_and!; [done..|].
    destruct Hq as (popped & Hq & Hp). eapply (deps_satisfied_set D); [done|set_solver|].
    eapply popped_open; [done| |done|done]. apply Hp. right; right; right. eauto with orcana.
  - intros id run r' Hg Hs. rewrite store_get_set, decide_False; [by eapply Hset|].
    intros <-. by eapply Hns.
  - intros x Hx. rewrite store_get_set. case_decide; [done|]. by apply Hst.
  - intros x Hx Hxid. rewrite store_get_set in Hx. case_decide; [|by apply Hids].
    subst x. naive_solver.
  - by apply store_wf_set.
Qed.

Lemma announce_inv D S id s :
  sched_inv D S {[id]} s -> id ∈ nodeIds spec -> is_Some (store_get id (ss_store s)) ->
  sched_inv ({[id]} ∪ D) S ∅ (announce id s).
Proof.
  intros [(popped & Hq & Hp) Hndr Hdis Hfr Hnode Hset Hfin Hact Hst Hids Hc Hstl Hpar Hwf] Hid Hsome.
  split; simpl; try done.
  - exists popped. split; [apply onDependencyDone_inv; [done|set_solver|done]|].
    intros x. rewrite Hp. set_solver.
  - set_solver.
  - intros x Hx. specialize (Hfr x Hx). set_solver.
  - set_solver.
  - intros x Hx. pose proof (Hact x Hx) as Hx'.
    assert (x <> id); [|set_solver]. intros ->.
    destruct Hx as [Hx|Hx]; [specialize (Hfr _ Hx); set_solver|set_solver].
  - intros x [->%elem_of_singleton|Hx]%elem_of_union; [done|by apply Hst].
  - intros x Hx Hxid. destruct (Hids x Hx Hxid) as [?|[?|[?|?]]]; set_solver.
Qed.

Lemma pop_inv D S s node q :
  sched_inv D S ∅ s -> next (ss_queue s) = (Some node, q) ->
  sched_inv D S {[n_id node]} (with_queue q s) /\ node ∈ s_nodes spec /\
  (n_id node ∉ D ∪ S) /\ (n_id node ∉ jkeys (ss_running s)) /\ openDeps D node = [].
Proof.
  intros [(popped & Hq & Hp) Hndr Hdis Hfr Hnode Hset Hfin Hact Hst Hids Hc Hstl Hpar Hwf] Hn.
  destruct (next_inv _ _ _ _ _ _ Hq Hempty Hn) as (Hin & Hq' & Hnp & Ho & _).
  rewrite Hp in Hnp. split_and!; [|done|set_solver|set_solver|done].
  split; simpl; try done.
  - exists (n_id node :: popped). split; [done|]. intros x. rewrite elem_of_cons, Hp. set_solver.
  - set_solver.
  - intros x Hx. specialize (Hfr x Hx). assert (x <> n_id node) by naive_solver. set_solver.
  - intros x Hx Hxid. destruct (Hids x Hx Hxid) as [?|[?|[?|?]]]; set_solver.
Qed.

(** A restored node is only announced. *)
Lemma skip_inv D S id s :
  sched_inv D S {[id]} s -> id ∈ ss_finished s ->
  sched_inv ({[id]} ∪ D) S ∅ (with_queue (onDependencyDone id (ss_queue s)) s).
Proof.
  intros [(popped & Hq & Hp) Hndr Hdis Hfr Hnode Hset Hfin Hact Hst Hids Hc Hstl Hpar Hwf] Hid.
  split; simpl; try done.
  - exists popped. split; [apply onDependencyDone_inv; [done|set_solver|done]|].
    intros x. rewrite Hp. set_solver.
  - set_solver.
  - intros x Hx. specialize (Hfr x Hx). set_solver.
  - set_solver.
  - intros x Hx Hxid. destruct (Hids x Hx Hxid) as [?|[?|[?|?]]]; set_solver.
Qed.

Lemma start_inv D S s node enf st :
  sched_inv D S {[n_id node]} s -> node ∈ s_nodes spec -> deps_satisfied (ss_store s) node ->
  n_id node ∉ ss_finished s -> (Z.of_nat (length (ss_running s)) < maxParallel)%Z ->
  (forall r, st = Some r -> store_get (n_id node) (ss_store s) = Some r) ->
  sched_inv D S ∅ (with_running (jset (n_id node) (mkRunning node enf st) (ss_running s)) s).
Proof.
  intros [(popped & Hq & Hp) Hndr Hdis Hfr Hnode Hset Hfin Hact Hst Hids Hc Hstl Hpar Hwf]
    Hin Hdeps Hnf Hroom Hst'.
  assert (n_id node ∉ jkeys (ss_running s)) as Hnr by (intros Hx; specialize (Hfr _ Hx); set_solver).
  split; simpl; try done.
  - exists popped. split; [done|]. intros x. rewrite Hp, elem_of_jkeys_jset, elem_of_singleton, elem_of_empty. tauto.
  - auto with orcana.
  - set_solver.
  - intros x [->|Hx]%elem_of_jkeys_jset; [set_solver|]. specialize (Hfr x Hx). set_solver.
  - intros id run. rewrite jget_jset. case_decide; [intros [= <-]; by subst|apply Hnode].
  - intros id run r. rewrite jget_jset. case_decide; [intros [= <-]; subst; apply Hst'|apply Hset].
  - intros x. rewrite elem_of_jkeys_jset. intros [[->|Hx]|Hx]; [done|apply Hact; auto..].
  - intros x Hx Hxid. rewrite elem_of_jkeys_jset, elem_of_empty.
    destruct (Hids x Hx Hxid) as [?|[?|[?|?%elem_of_singleton]]]; tauto.
  - rewrite jset_fresh, length_app by done. simpl. lia.
Qed.

Lemma drop_inv D S id s :
  sched_inv D S ∅ s -> id ∈ jkeys (ss_running s) ->
  sched_inv D S {[id]} (drop_running id s) /\
  (forall x, x ∈ jkeys (ss_running (drop_running id s)) <-> x ∈ jkeys (ss_running s) /\ x <> id).
Proof.
  intros [(popped & Hq & Hp) Hndr Hdis Hfr Hnode Hset Hfin Hact Hst Hids Hc Hstl Hpar Hwf] Hid.
  destruct (jkeys_jdelete id (ss_running s) Hndr) as [Hnd' Hkeys].
  pose proof (Hfr _ Hid). split; [|done].
  assert (forall x run, jget x (jdelete id (ss_running s)) = Some run -> jget x (ss_running s) = Some run)
    as Hget.
  { intros x run Hx. destruct (decide (id = x)) as [->|]; [|by rewrite jget_jdelete_ne in Hx].
    by rewrite jget_jdelete_eq in Hx. }
  split; simpl; try done.
  - exists popped. split; [done|]. intros x. rewrite Hp, Hkeys, elem_of_singleton, elem_of_empty.
    destruct (decide (x = id)) as [->|]; tauto.
  - set_solver.
  - intros x [Hx ?]%Hkeys. specialize (Hfr x Hx). set_solver.
  - intros x run Hx%Hget. by apply Hnode.
  - intros x run r Hx%Hget. by apply Hset.
  - intros x [[Hx _]%Hkeys|Hx]; apply Hact; auto.
  - intros x Hx Hxid. rewrite Hkeys, elem_of_singleton.
    destruct (decide (x = id)) as [->|]; [tauto|].
    destruct (Hids x Hx Hxid) as [?|[?|[?|?%elem_of_empty]]]; tauto.
  - pose proof (length_jdelete id (ss_running s)). lia.
Qed.

Lemma with_pool_inv D S H p s : sched_inv D S H s -> sched_inv D S H (with_pool p s).
Proof. by intros []; split. Qed.
Lemma with_worktrees_inv D S H w s : sched_inv D S H s -> sched_inv D S H (with_worktrees w s).
Proof. by intros []; split. Qed.
Lemma report_inv D S H r s : sched_inv D S H s -> sched_inv D S H (report r s).
Proof. by intros []; split. Qed.
Lemma with_cache_inv D S H c s :
  cache_faithful c -> sched_inv D S H s -> sched_inv D S H (with_cache c s).
Proof. by intros ? []; split. Qed.

Lemma agentGate_id node s r p : agentGate node s = inl (r, p) -> r_nodeId r = n_id node.
Proof. unfold agentGate. repeat case_match; intros; simplify_eq/=; done. Qed.

Lemma cache_get_faithful c k e c' :
  cache_faithful (Some c) -> cache_get k c = (e, c') -> cache_faithful (Some c').
Proof.
  intros Hc Hg c0 [= <-]. pose proof (cache_get_entries k c) as He. rewrite Hg in He. simpl in He.
  rewrite He. by apply Hc.
Qed.

Section Launch.
Context (D S : gset string) (node : WorkflowNodeSpec) (enf : NodeEnforcement).
Hypothesis Hnode : node ∈ s_nodes spec.
Hypothesis Hopen : openDeps D node = [].

Lemma settled_inv s r :
  sched_inv D S {[n_id node]} s -> deps_satisfied (ss_store s) node ->
  n_id node ∉ ss_finished s -> (Z.of_nat (length (ss_running s)) < maxParallel)%Z ->
  r_nodeId r = n_id node -> sched_inv D S ∅ (settled node enf r s).
Proof.
  intros Hinv Hdeps Hnf Hroom Hr. unfold settled.
  assert (n_id node ∉ jkeys (ss_running s)) as Hnr.
  { intros Hx%(si_fresh _ _ _ _ Hinv). set_solver. }
  assert (n_id node ∉ D) by (destruct (si_disjoint _ _ _ _ Hinv) as (_ & ? & _); set_solver).
  apply (start_inv D S (with_result r s)); simpl; [|done| |done|done|].
  - apply with_result_inv; rewrite ?Hr; [done|done| |set_solver].
    intros id run r' Hg _ ->. by apply jkeys_elem in Hg.
  - eapply deps_satisfied_set; [done| |done]. by rewrite Hr.
  - intros r' [= <-]. rewrite store_get_set. by rewrite decide_True.
Qed.

Lemma launch_inv s :
  sched_inv D S {[n_id node]} s -> deps_satisfied (ss_store s) node ->
  n_id node ∉ ss_finished s -> (Z.of_nat (length (ss_running s)) < maxParallel)%Z ->
  sched_inv D S ∅ (launch node enf s).
Proof.
  intros Hinv Hdeps Hnf Hroom. unfold launch.
  destruct (isWrite (n_id node) && negb (run_mode === read_write)); [by apply settled_inv|].
  destruct (agentGate node s) as [[r p]|p] eqn:Eg.
  { apply settled_inv; [by apply with_pool_inv|done..|]. by eapply agentGate_id. }
  assert (forall c, cache_faithful c ->
    sched_inv D S ∅ (with_running (jset (n_id node) (mkRunning node enf None) (ss_running s))
                       (with_cache c (with_pool p s)))) as Hstart.
  { intros c Hc. apply (start_inv D S (with_cache c (with_pool p s))); try done.
    by apply with_cache_inv, with_pool_inv. }
  pose proof (si_cache _ _ _ _ Hinv) as Hc. simpl.
  destruct (ss_cache s) as [cache|] eqn:Ec.
  2: { specialize (Hstart None Hc). unfold with_cache in Hstart. simpl in Hstart.
       unfold with_running, with_pool in *. simpl in *. by rewrite Ec. }
  destruct (negb (isWrite (n_id node)) && negb (isHarnessNode node)) eqn:Eb.
  2: { specialize (Hstart _ Hc). unfold with_cache in Hstart. simpl in Hstart.
       unfold with_running, with_pool in *. simpl in *. by rewrite Ec. }
  destruct (cache_get (cacheKey node) cache) as [[e|] cache'] eqn:Eg';
    pose proof (cache_get_faithful _ _ _ _ Hc Eg') as Hc'; [|by apply Hstart].
  apply settled_inv; [by apply with_cache_inv, with_pool_inv|done..|]. simpl.
  unfold cache_get in Eg'. destruct (jget (cacheKey node) (rc_entries cache)) eqn:Ej; simplify_eq.
  by apply (proj2 (Hc _ eq_refl) node e).
Qed.
End Launch.

(** The readiness check of a popped node: its dependencies all have results,
    so it is decided, and "executable" means every condition holds. *)
Lemma readiness_popped D S H s node :
  sched_inv D S H s -> node ∈ s_nodes spec -> openDeps D node = [] ->
  match evaluateReadiness (depsOfNode (ss_queue s) (n_id node)) (fun id => store_get id (ss_store s)) with
  | rd_executable => deps_satisfied (ss_store s) node
  | rd_blocked _ => True
  | rd_pending _ => False
  end.
Proof.
  intros Hinv Hn Ho. destruct (si_queue _ _ _ _ Hinv) as (popped & Hq & _).
  unfold depsOfNode. rewrite (qi_depsOf _ _ _ _ Hq) by done. simpl.
  destruct (evaluateReadiness _ _) as [|u|u] eqn:E; [|done|].
  - apply readinessLoop_executable in E as [_ Hs]. done.
  - revert E. apply readinessLoop_pending. intros d Hd.
    rewrite normalize_ids, elem_of_dedup_from in Hd. destruct Hd as [Hd _].
    apply (si_stored _ _ _ _ Hinv), (proj1 (si_finished _ _ _ _ Hinv)).
    by apply (proj1 (openDeps_nil D node) Ho).
Qed.

(** How far the run has come: the nodes handed out so far. *)
Definition progress (D S : gset string) (s : SchedState) : nat :=
  size D + size S + length (ss_running s).

Lemma progress_bound D S H s :
  sched_inv D S H s -> progress D S s + size H <= length (s_nodes spec).
Proof.
  intros Hinv. destruct (si_queue _ _ _ _ Hinv) as (popped & Hq & Hp).
  destruct (si_disjoint _ _ _ _ Hinv) as (H1 & H2 & H3). pose proof (si_fresh _ _ _ _ Hinv) as Hf.
  assert (size (D ∪ S ∪ H ∪ list_to_set (jkeys (ss_running s))) <= size (list_to_set (C := gset string) (nodeIds spec))) as Hle.
  { apply subseteq_size. intros x Hx.
    assert (x ∈ popped) as Hxp by (rewrite Hp; set_solver).
    assert (x ∈ q_ready (ss_queue s) ++ popped) as Hx' by set_solver.
    apply (qi_ready _ _ _ _ Hq) in Hx' as (n & Hn & <- & _).
    apply elem_of_list_to_set. by apply n_id_nodeIds. }
  rewrite !size_union, !size_list_to_set in Hle; try done; [|apply (si_nodup _ _ _ _ Hinv)|set_solver..].
  unfold progress. unfold jkeys, nodeIds in Hle. rewrite !length_fmap in Hle. lia.
Qed.

(** Launching touches, of what the invariant counts, only [running]. *)
Lemma launch_frame node enf s :
  (exists run, ss_running (launch node enf s) = jset (n_id node) run (ss_running s)) /\
  ss_interrupt (launch node enf s) = ss_interrupt s /\ ss_lost (launch node enf s) = ss_lost s /\
  ss_finished (launch node enf s) = ss_finished s.
Proof.
  unfold launch, settled. repeat case_match; simpl; split_and!; eauto.
Qed.

Lemma enforce_frame node s enf s' :
  enforce node s = (enf, s') -> exists w, s' = with_worktrees w s.
Proof.
  unfold enforce. repeat case_match; intros; simplify_eq; [by eexists|].
  exists (ss_worktrees s'). by destruct s'.
Qed.

Lemma slots_free_true s : slots_free s = true ->
  (Z.of_nat (length (ss_running s)) < maxParallel)%Z /\ q_ready (ss_queue s) <> [] /\
  ss_interrupt s = None.
Proof.
  unfold slots_free, hasReady. intros H. reflect. split_and!; [done| |].
  - by destruct (q_ready (ss_queue s)).
  - by destruct (ss_interrupt s).
Qed.

Lemma size_add (id : string) (D : gset string) : id ∉ D -> size ({[id]} ∪ D) = S (size D).
Proof. intros. rewrite size_union by set_solver. by rewrite size_singleton. Qed.

Lemma fillStep_inv D S s s' :
  sched_inv D S ∅ s -> fillStep s = Continue s' ->
  exists D', sched_inv D' S ∅ s' /\ size D <= size D' /\
    progress D' S s' = Datatypes.S (progress D S s) /\
    ss_interrupt s' = ss_interrupt s /\ ss_lost s' = ss_lost s /\ ss_finished s ⊆ ss_finished s'.
Proof.
  intros Hinv. unfold fillStep. destruct (slots_free s) eqn:Esf; simpl; [|done].
  apply slots_free_true in Esf as (Hroom & _ & _).
  destruct (next (ss_queue s)) as [[node|] q] eqn:En; [|done].
  destruct (pop_inv _ _ _ _ _ Hinv En) as (Hinv1 & Hin & Hfresh & Hnr & Ho). simpl.
  assert (n_id node ∉ D) as HnD by set_solver.
  destruct (store_has (n_id node) (ss_store s)) eqn:Eh.
  { intros [= <-]. exists ({[n_id node]} ∪ D). split_and!; simpl; try done; [|rewrite size_add by done; lia|by unfold progress; rewrite size_add].
    apply (skip_inv D S (n_id node) (with_queue q s)); [done|]. simpl.
    assert (is_Some (store_get (n_id node) (ss_store s))) as Hs.
    { unfold store_has, jhas in Eh. unfold store_get. by destruct (jget _ _). }
    destruct (si_storeids _ _ _ _ Hinv _ Hs (n_id_nodeIds _ Hin)) as [?|[?|[?|?]]]; set_solver. }
  assert (n_id node ∉ ss_finished s) as Hnf.
  { intros Hf%(si_stored _ _ _ _ Hinv). unfold store_has, jhas in Eh. unfold store_get in Hf.
    destruct (jget _ _); [done|]. by destruct Hf. }
  assert (forall w r, r_nodeId r = n_id node ->
    sched_inv ({[n_id node]} ∪ D) S ∅ (announce (n_id node) (with_result r (with_worktrees w (with_queue q s))))) as Hann.
  { intros w r Hr. apply announce_inv; [|by apply n_id_nodeIds|].
    - apply with_result_inv; rewrite ?Hr; [by apply with_worktrees_inv|done| |set_solver].
      intros id run r' Hg _ ->. simpl in Hg. by apply jkeys_elem in Hg.
    - simpl. rewrite store_get_set, decide_True; done. }
  assert (with_worktrees (ss_worktrees s) (with_queue q s) = with_queue q s) as Hw by done.
  pose proof (readiness_popped _ _ _ _ node Hinv1 Hin Ho) as Hread. simpl in Hread.
  destruct (evaluateReadiness _ _) as [|u|u]; [|intros [= <-]|done].
  - destruct (enforce node (with_queue q s)) as [enf s1] eqn:Ee.
    apply enforce_frame in Ee as [w ->].
    destruct (ne_deniedReason enf) as [reason|]; intros [= <-].
    + exists ({[n_id node]} ∪ D). split_and!; simpl; try done; [|rewrite size_add by done; lia|by unfold progress; rewrite size_add|set_solver].
      by apply Hann.
    + exists D. destruct (launch_frame node enf (with_worktrees w (with_queue q s)))
        as ([run Hrun] & Hi & Hl & Hf). split_and!; simpl; [|done| |done|done|by rewrite Hf].
      * apply launch_inv; try done. by apply with_worktrees_inv.
      * unfold progress. rewrite Hrun. simpl. rewrite jset_fresh, length_app by done. simpl. lia.
  - exists ({[n_id node]} ∪ D). split_and!; simpl; try done; [|rewrite size_add by done; lia|by unfold progress; rewrite size_add|set_solver].
    rewrite <- Hw. by apply Hann.
Qed.

Lemma fill_spec fuel : forall D S s,
  sched_inv D S ∅ s -> length (s_nodes spec) < fuel + progress D S s ->
  exists D', sched_inv D' S ∅ (fill fuel s) /\ size D <= size D' /\ progress D S s <= progress D' S (fill fuel s) /\
    slots_free (fill fuel s) = false /\
    ss_interrupt (fill fuel s) = ss_interrupt s /\ ss_lost (fill fuel s) = ss_lost s.
Proof.
  induction fuel as [|fuel IH]; intros D S s Hinv Hlt; simpl in *.
  { pose proof (progress_bound _ _ _ _ Hinv). lia. }
  destruct (fillStep s) as [s'|s'] eqn:E.
  - destruct (fillStep_inv _ _ _ _ Hinv E) as (D1 & Hinv1 & Hs1 & Hp & Hi & Hl & _).
    destruct (IH D1 S s' Hinv1) as (D2 & ? & ? & ? & ? & Hi2 & Hl2); [lia|].
    exists D2. split_and!; [done|lia|lia|done|congruence|congruence].
  - exists D. revert E. unfold fillStep. destruct (slots_free s) eqn:Esf; simpl.
    2: { intros [= <-]. done. }
    apply slots_free_true in Esf as (_ & Hr & _).
    destruct (next (ss_queue s)) as [[node|] q] eqn:En.
    { repeat case_match; done. }
    destruct (si_queue _ _ _ _ Hinv) as (popped & Hq & _).
    by destruct (next_inv _ _ _ _ _ _ Hq Hempty En).
Qed.

(** ** Settling preserves the invariant *)

Lemma cache_put_faithful c node at_ r :
  cache_faithful (Some c) -> node ∈ s_nodes spec -> cacheable node = true ->
  r_nodeId r = n_id node -> cache_faithful (Some (cache_put at_ (cacheKey node) r c)).
Proof.
  intros Hc Hn Hcn Hr c0 [= <-]. destruct (Hc c eq_refl) as [Hinj Hf]. split; [done|].
  intros m e Hm Hcm. unfold cache_put. case_match; [by apply Hf|]. simpl. rewrite jget_jset.
  case_decide as Hk; [|by apply Hf]. intros [= <-]. simpl. rewrite Hr. by apply Hinj.
Qed.

Lemma updateCache_inv D S H node r s :
  sched_inv D S H s -> node ∈ s_nodes spec -> r_nodeId r = n_id node ->
  sched_inv D S H (updateCache node r s).
Proof.
  intros Hinv Hn Hr. pose proof (si_cache _ _ _ _ Hinv) as Hc. unfold updateCache.
  case_match; [|done]. destruct (isWrite (n_id node)) eqn:Ew.
  - apply with_cache_inv; [|done]. destruct (ss_cache s); [|done].
    intros c' [= <-]. by split; [apply (Hc _ eq_refl)|].
  - destruct (isHarnessNode node) eqn:Eh; simpl; [done|].
    apply with_cache_inv; [|done]. destruct (ss_cache s); [|done]. simpl.
    apply cache_put_faithful; [done..| |done]. unfold cacheable. by rewrite Ew, Eh.
Qed.

Lemma updateCache_frame node r s :
  ss_running (updateCache node r s) = ss_running s /\ ss_store (updateCache node r s) = ss_store s /\
  ss_interrupt (updateCache node r s) = ss_interrupt s /\ ss_lost (updateCache node r s) = ss_lost s /\
  ss_finished (updateCache node r s) = ss_finished s.
Proof. unfold updateCache. repeat case_match; done. Qed.

Lemma postExecute_spec D S s run raw o s1 :
  let id := n_id (rn_node run) in
  sched_inv D S ∅ s -> jget id (ss_running s) = Some run -> rn_settled run = None ->
  r_nodeId raw = id ->
  postExecute (rn_node run) (rn_enforcement run) raw s = (o, s1) ->
  sched_inv D S ∅ s1 /\ ss_running s1 = ss_running s /\ ss_interrupt s1 = ss_interrupt s /\
  ss_lost s1 = ss_lost s /\ ss_finished s1 = ss_finished s /\
  (forall r, o = Some r -> r_nodeId r = id /\ store_get id (ss_store s1) = Some r).
Proof.
  intros id Hinv Hg Hs Hraw. unfold postExecute.
  destruct (si_node _ _ _ _ Hinv _ _ Hg) as (Hn & _ & _).
  assert (id ∈ jkeys (ss_running s)) as Hrun by (eauto with orcana).
  assert (forall r s, r_nodeId r = id -> sched_inv D S ∅ s -> jget id (ss_running s) = Some run ->
    sched_inv D S ∅ (with_result r s)) as Hput.
  { intros r s0 Hr Hinv0 Hg0. apply with_result_inv; rewrite ?Hr; [done| | |].
    - apply (si_active _ _ _ _ Hinv0). left. eauto with orcana.
    - intros id' run' r' Hg' Hs' ->. congruence.
    - left. eauto with orcana. }
  destruct (checkWrites _ _ _) as [v|].
  - intros [= <- <-]. split_and!; simpl; try done; [by apply Hput; [|apply Hput|]|].
    intros r [= <-]. by rewrite store_get_set, decide_True.
  - destruct (checkRole _ _ _) as [r|] eqn:Er.
    + intros [= <- <-].
      assert (r_nodeId r = id) as Hr.
      { unfold checkRole in Er. revert Er. repeat case_match; intros; simplify_eq/=; try done.
        apply bind_Some in Er as (? & _ & Er). repeat case_match; by simplify_eq/=. }
      destruct (updateCache_frame (rn_node run) r (with_result r (with_result raw s)))
        as (-> & -> & -> & -> & ->).
      split_and!; simpl; try done; [by apply updateCache_inv; [apply Hput; [|apply Hput|]| |]|].
      intros r' [= <-]. by rewrite store_get_set, decide_True.
    + intros [= <- <-]. split_and!; simpl; try done. by apply Hput.
Qed.

Lemma stall_inv D S id s s' :
  sched_inv D S {[id]} s -> id ∉ ss_finished s ->
  (is_Some (ss_interrupt s') \/ ss_lost s' <> []) ->
  ss_queue s' = ss_queue s -> ss_store s' = ss_store s -> ss_running s' = ss_running s ->
  ss_finished s' = ss_finished s -> ss_cache s' = ss_cache s ->
  sched_inv D ({[id]} ∪ S) ∅ s'.
Proof.
  intros [(popped & Hq & Hp) Hndr Hdis Hfr Hnode Hset Hfin Hact Hst Hids Hc Hstl Hpar Hwf] Hid Hwhy E1 E2 E3 E4 E5.
  destruct Hdis as (H1 & H2 & H3).
  split; rewrite ?E1, ?E2, ?E3, ?E4, ?E5; try done.
  - exists popped. split; [done|]. intros x.
    rewrite Hp, elem_of_union, elem_of_empty. tauto.
  - split_and!; set_solver.
  - intros x Hx. specialize (Hfr x Hx). set_solver.
  - intros x. rewrite elem_of_union, elem_of_singleton. intros [Hx|[->|Hx]]; [|done|]; apply Hact; auto.
  - intros x Hx Hxid. destruct (Hids x Hx Hxid) as [?|[?|[?|?]]]; set_solver.
Qed.

(** One settled promise: it leaves [running], and either finished or stalled. *)
(** A settled node that has a result finishes. *)
Lemma finish_settled D S id s s1 r :
  sched_inv D S ∅ s1 -> ss_running s1 = ss_running s -> ss_lost s1 = ss_lost s -> id ∈ jkeys (ss_running s) ->
  id ∈ nodeIds spec -> (id ∉ D) /\ (id ∉ S) -> is_Some (store_get id (ss_store s1)) ->
  let s2 := report r (announce id (drop_running id s1)) in
  exists D' S', sched_inv D' S' ∅ s2 /\ size D' + size S' = Datatypes.S (size D + size S) /\
    (forall x, x ∈ jkeys (ss_running s2) <-> x ∈ jkeys (ss_running s) /\ x <> id) /\
    ss_lost s2 = ss_lost s /\ S' = S.
Proof.
  intros Hinv1 Hr1 Hl1 Hid Hidn [HnD HnS] Hs1. destruct (drop_inv _ _ id _ Hinv1) as [Hd Hk]; [by rewrite Hr1|].
  exists ({[id]} ∪ D), S. simpl in *. rewrite Hr1 in Hk. split_and!; [|rewrite size_add by done; lia| |done|done].
  - apply report_inv. by apply announce_inv.
  - by rewrite Hr1.
Qed.

(** A settled node without a result stalls the run, which must have a reason
    to stop. *)
Lemma stall_settled D S id s s1 s2 :
  sched_inv D S ∅ s1 -> ss_running s1 = ss_running s -> ss_finished s1 = ss_finished s ->
  id ∈ jkeys (ss_running s) -> id ∈ nodeIds spec -> id ∉ ss_finished s -> (id ∉ D) /\ (id ∉ S) ->
  (is_Some (ss_interrupt s2) \/ ss_lost s2 <> []) ->
  ss_queue s2 = ss_queue s1 -> ss_store s2 = ss_store s1 ->
  ss_running s2 = jdelete id (ss_running s1) -> ss_finished s2 = ss_finished s1 ->
  ss_cache s2 = ss_cache s1 ->
  exists D' S', sched_inv D' S' ∅ s2 /\ size D' + size S' = Datatypes.S (size D + size S) /\
    (forall x, x ∈ jkeys (ss_running s2) <-> x ∈ jkeys (ss_running s) /\ x <> id) /\ S' = {[id]} ∪ S.
Proof.
  intros Hinv1 Hr1 Hf1 Hid Hidn Hnf [HnD HnS] Hwhy E1 E2 E3 E4 E5.
  destruct (drop_inv _ _ id _ Hinv1) as [Hd Hk]; [by rewrite Hr1|].
  exists D, ({[id]} ∪ S). split_and!; [|rewrite size_add by done; lia| |done].
  - apply (stall_inv D S id (drop_running id s1)); simpl; try done. by rewrite Hf1.
  - intros x. simpl in Hk. by rewrite E3, Hk, Hr1.
Qed.

Lemma settle_inv D S id o s :
  sched_inv D S ∅ s -> id ∈ jkeys (ss_running s) ->
  exists D' S', sched_inv D' S' ∅ (settle id o s) /\
    size D' + size S' = Datatypes.S (size D + size S) /\
    (forall x, x ∈ jkeys (ss_running (settle id o s)) <-> x ∈ jkeys (ss_running s) /\ x <> id) /\
    (rejects id o s = None -> ss_lost (settle id o s) = ss_lost s) /\
    (S' = S /\ ss_finished (settle id o s) = {[id]} ∪ ss_finished s \/
     S' = {[id]} ∪ S /\ ss_finished (settle id o s) = ss_finished s).
Proof.
  intros Hinv Hid. unfold settle, rejects.
  destruct (jget id (ss_running s)) as [run|] eqn:Hg; [|by apply jget_None in Hg].
  destruct (si_node _ _ _ _ Hinv _ _ Hg) as (Hn & Hnid & _).
  assert (id ∈ nodeIds spec) as Hidn by (rewrite <- Hnid; by apply n_id_nodeIds).
  assert (id ∉ ss_finished s) as Hnf by (apply (si_active _ _ _ _ Hinv); auto).
  assert ((id ∉ D) /\ (id ∉ S)) as Hnew by (pose proof (si_fresh _ _ _ _ Hinv _ Hid); set_solver).
  destruct (rn_settled run) as [r|] eqn:Es.
  { destruct (finish_settled D S id s s r) as (D' & S' & ? & ? & ? & ? & ->); try done; [|exists D', S; split_and!; try done; by left].
    by rewrite (si_settled _ _ _ _ Hinv _ _ _ Hg Es). }
  destruct o as [st out err kind a b d|record|msg].
  - destruct (postExecute _ _ _ _) as [[r|] s1] eqn:Ep;
      (eapply (postExecute_spec D S) in Ep as (Hinv1 & Hr1 & Hi1 & Hl1 & Hf1 & Hr);
        [|done|by rewrite Hnid|done|done]).
    + destruct (Hr r eq_refl) as [_ Hs]. rewrite Hnid in Hs.
      destruct (finish_settled D S id s s1 r) as (D' & S' & ? & ? & ? & ? & ->); try done.
      exists D', S. split_and!; try done. left. split; [done|]. simpl. by rewrite Hf1.
    + destruct (stall_settled D S id s s1 (lose "TypeError" (drop_running id s1))) as (D' & S' & ? & ? & ? & ->); try done.
      { right. simpl. intros []%app_nil. done. }
      exists D', ({[id]} ∪ S). split_and!; try done. by right.
  - destruct (stall_settled D S id s s (interrupt_with record (drop_running id s))) as (D' & S' & ? & ? & ? & ->); try done.
    { left. simpl. by destruct (ss_interrupt s). }
    exists D', ({[id]} ∪ S). split_and!; try done. by right.
  - destruct (stall_settled D S id s s (lose msg (drop_running id s))) as (D' & S' & ? & ? & ? & ->); try done.
    { right. simpl. intros []%app_nil. done. }
    exists D', ({[id]} ∪ S). split_and!; try done. by right.
Qed.

(** The choice of [Promise.race]: at least one promise of the running ones,
    each at most once. *)
Definition fair_race (race : nat -> SchedState -> list (string * NodeOutcome)) : Prop :=
  forall k s, ss_running s <> [] ->
    race k s <> [] /\ NoDup (race k s).*1 /\ forall e, e ∈ race k s -> e.1 ∈ jkeys (ss_running s).

Lemma settleAll_inv batch : forall D S s,
  sched_inv D S ∅ s -> NoDup batch.*1 -> (forall e, e ∈ batch -> e.1 ∈ jkeys (ss_running s)) ->
  exists D' S', sched_inv D' S' ∅ (settleAll batch s) /\
    size D' + size S' = length batch + (size D + size S).
Proof.
  induction batch as [|[id o] batch IH]; intros D S s Hinv Hb Hin; [by exists D, S|].
  apply NoDup_cons in Hb as [Hid Hb].
  destruct (settle_inv D S id o s Hinv) as (D1 & S1 & Hinv1 & Hsz & Hk & _); [apply (Hin (id, o)); left|].
  destruct (IH D1 S1 _ Hinv1 Hb) as (D2 & S2 & ? & ?).
  - intros e He. apply Hk. split; [apply Hin; by right|]. intros <-. apply Hid.
    apply list_elem_of_fmap. by exists e.
  - exists D2, S2. simpl. split; [done|]. lia.
Qed.

(** What each way the loop can end means. *)
Definition loop_end_ok (out : LoopOutcome) : Prop :=
  match out with
  | Completed s =>
      ss_running s = [] /\
      forall n, n ∈ s_nodes spec -> n_id n ∈ ss_finished s /\ is_Some (store_get (n_id n) (ss_store s))
  | Paused s => is_Some (ss_interrupt s) /\ ss_running s = []
  | Deadlock s => ss_lost s <> []
  | Rejected msg s => True
  | LoopOutOfFuel => False
  end.

Lemma size_nodeIds : length (s_nodes spec) = size (list_to_set (C := gset string) (nodeIds spec)).
Proof. rewrite size_list_to_set by done. unfold nodeIds. by rewrite length_fmap. Qed.

(** When as many nodes have finished as there are, the run is complete. *)
Lemma all_finished_completed D S s :
  sched_inv D S ∅ s -> size (ss_finished s) = length (s_nodes spec) -> loop_end_ok (Completed s).
Proof.
  intros Hinv Hsz. destruct (si_finished _ _ _ _ Hinv) as [_ Hfin].
  assert (ss_finished s ≡ list_to_set (nodeIds spec)) as Heq.
  { apply set_subseteq_size_equiv; [done|]. rewrite Hsz. by rewrite size_nodeIds. }
  assert (forall n, n ∈ s_nodes spec -> n_id n ∈ ss_finished s) as Hall.
  { intros n Hin. rewrite Heq. apply elem_of_list_to_set. by apply n_id_nodeIds. }
  split.
  - destruct (ss_running s) as [|[id run] l] eqn:Er; [done|].
    destruct (si_node _ _ _ _ Hinv id run) as (Hin & Hid & _).
    { rewrite Er. simpl. by rewrite same_refl. }
    exfalso. apply (si_active _ _ _ _ Hinv id); [left; rewrite Er; left|].
    rewrite <- Hid. by apply Hall.
  - intros n Hin. split; [by apply Hall|]. by apply (si_stored _ _ _ _ Hinv), Hall.
Qed.

(** When nothing runs, nothing can be launched, and the run was neither
    interrupted nor lost a node, every node has finished. *)
Lemma idle_all_finished D S s :
  (1 <= maxParallel)%Z -> acyclic (depends spec) -> sched_inv D S ∅ s -> ss_running s = [] ->
  slots_free s = false -> ss_interrupt s = None -> ss_lost s = [] -> size (ss_finished s) = length (s_nodes spec).
Proof.
  intros Hmp Hac Hinv Er Hsf Ei Hlost. destruct (si_finished _ _ _ _ Hinv) as [HD Hfin].
  assert (S = ∅) as ->.
  { destruct (decide (S = ∅)) as [|HS]; [done|].
    destruct (si_stalled _ _ _ _ Hinv HS) as [Hs|Hs]; [|done]. rewrite Ei in Hs. by destruct Hs. }
  destruct (si_queue _ _ _ _ Hinv) as (popped & Hq & Hpop).
  assert (q_ready (ss_queue s) = []) as Hready.
  { unfold slots_free in Hsf. rewrite Er, Ei in Hsf. simpl in Hsf. rewrite andb_true_r in Hsf.
    apply andb_false_iff in Hsf as [Hsf|Hsf]; reflect; [lia|].
    unfold hasReady in Hsf. by destruct (q_ready _). }
  rewrite size_nodeIds. apply set_size_proper. intros x. split.
  - intros Hx. by apply Hfin.
  - intros Hx%elem_of_list_to_set. apply HD.
    eapply queue_drained; [exact Hclosed|exact Hac|exact Hq|exact Hready| |exact Hx].
    intros y [Hy|[Hy|[Hy|Hy]]]%Hpop; [done|set_solver..|]. rewrite Er in Hy. set_solver.
Qed.

Lemma mainLoop_ends race fuel : forall D S s,
  (1 <= maxParallel)%Z -> acyclic (depends spec) -> fair_race race ->
  sched_inv D S ∅ s -> length (s_nodes spec) < fuel + (size D + size S) ->
  loop_end_ok (mainLoop race fuel s).
Proof.
  intros D S s Hmp Hac Hrace. revert D S s.
  induction fuel as [|fuel IH]; intros D S s Hinv Hfuel; cbn [mainLoop].
  { pose proof (progress_bound _ _ _ _ Hinv). unfold progress in *. lia. }
  destruct (fill_spec fillFuel D S s Hinv) as (D1 & Hinv1 & HDle & Hp & Hsf & Hi & Hl).
  { unfold fillFuel. lia. }
  set (s1 := fill fillFuel s) in *. clearbody s1.
  destruct (size (ss_finished s1) =? length (s_nodes spec))%nat eqn:Ec; reflect.
  { by eapply all_finished_completed. }
  destruct (length (ss_running s1) =? 0)%nat eqn:Er; reflect.
  - apply nil_length_inv in Er. rewrite andb_true_r.
    destruct (ss_interrupt s1) as [rec|] eqn:Ei; simpl; [by rewrite Ei|]. intros Hlost.
    by eapply Ec, idle_all_finished.
  - rewrite andb_false_r. assert (ss_running s1 <> []) as Hr by (intros H; rewrite H in Er; done).
    destruct (Hrace fuel s1 Hr) as (Hne & Hndb & Hb).
    destruct (race fuel s1) as [|[id o] batch] eqn:Erace; [done|].
    destruct (rejects id o s1); [done|].
    destruct (settleAll_inv _ D1 S s1 Hinv1 Hndb Hb) as (D2 & S2 & Hinv2 & Hsz).
    eapply IH; [exact Hinv2|]. rewrite Hsz. simpl. lia.
Qed.
End Scheduler.
