(* ===== verification/RunScheduler.v ===== *)
(** A whole workflow run: preflight, main loop, completion gate; and the
    theorems about it.

    Models [runScheduler] of [src/src/workflow/scheduler/scheduler.ts] around
    the loop of [Scheduler.v] and the gate of [Completion.v], and instantiates
    the loop's node services with [Ownership.v] and [Schema.v].  The digest of
    the spec, the merge integration (which works on the agents' worktrees) and
    the choice of the race are parameters. *)
From stdpp Require Import relations.
From S2P Require Import Prelude Json WorkflowTypes EdgeStore ReadyQueue Results Agents Paths Ownership.
From S2P Require Import Schema Completion Scheduler.

(** ** The services the run uses *)

(** The implementation of the loop's interface by the enforcement layer. *)
Section Services.
Context (cwd projectRoot : string) (existsSync : string -> bool) (realpathSync : string -> option string).
Context (createWorktree : string -> ParticipantAssignment -> res string string).

Definition enforcement_of (e : Enforced) : NodeEnforcement :=
  mkEnforcement (en_assignment e) (en_root e) (en_denied e).
Definition enforced_of (e : NodeEnforcement) : Enforced :=
  mkEnforced (ne_assignment e) (ne_projectRoot e) (ne_deniedReason e).

Definition node_services : NodeServices WorktreeRegistry := {|
  enforceNodeAssignment node isWrite pool registry :=
    let '(e, registry) := enforceAssignment cwd existsSync realpathSync createWorktree projectRoot node
                            isWrite pool registry in
    (enforcement_of e, registry);
  enforceActualWrites node e output :=
    enforceActual cwd existsSync realpathSync node (enforced_of e) output;
  validateRoleOutput := validateRole;
|}.
End Services.

(** ** Preflight *)

Inductive StartError :=
| E_maxParallel
| E_duplicate (id : string)
| E_topology (e : topo_error)
| E_cycle (path : list string)
| E_specId (e : store_error)
| E_noHarness (count : nat).

(** src/src/workflow/scheduler/scheduler.ts # runScheduler @283-291

    M8: the first id met twice. *)
Fixpoint duplicateId (ids seen : list string) : option string :=
  match ids with
  | [] => None
  | id :: ids => if includes seen id then Some id else duplicateId ids (seen ++ [id])
  end.

Section Run.
Context {W : Type} `{!NodeServices W}.
Context (spec : WorkflowSpec) (options : SchedulerOptions) (specDigest : string).

(** src/src/workflow/scheduler/scheduler.ts # runScheduler @337-350

    G5: restored read results refill the cache, replayed. *)
Definition refillCache (now : Z) (cache : ResultCache) (store : ResultStore) : ResultCache * ResultStore :=
  let handlerOf := fold_left (fun m n => jset (n_id n) (n_handler n) m) (s_nodes spec) [] in
  fold_left (fun (acc : ResultCache * ResultStore) result =>
    let '(cache, store) := acc in
    match jget (r_nodeId result) handlerOf with
    | None => (cache, store)
    | Some handler =>
        if (handler === "") || so_isWriteHandler options handler then (cache, store)
        else match nodeById spec (r_nodeId result) with
        | None => (cache, store)
        | Some node =>
            let replayed := replayResult result in
            (cache_put now (cacheKeyFor (so_sha256 options) handler (n_input node)
                              (so_workspaceDigest options)) replayed cache,
             store_set replayed store)
        end
    end) (store_all store) (cache, store).

(** src/src/workflow/scheduler/scheduler.ts # runScheduler @275-354 *)
Definition startRun (checkpointDir : option string) (disk : Disk) (cache : option ResultCache)
    (pool : option AgentPool) (w : W) : res StartError (SchedState (W := W)) :=
  if (maxParallel spec options <? 1)%Z then Throw E_maxParallel
  else match duplicateId (nodeIds spec) [] with
  | Some id => Throw (E_duplicate id)
  | None =>
  match detectCycle spec with
  | Throw e => Throw (E_topology e)
  | Ok (Some path) => Throw (E_cycle path)
  | Ok None =>
  match newResultStore (s_specId spec) checkpointDir (Some specDigest) (so_workspaceDigest options) with
  | Throw e => Throw (E_specId e)
  | Ok store =>
  match newReadyQueue spec (fun id => store_has id store) with
  | Throw e => Throw (E_topology e)
  | Ok queue =>
      let harnessNodes := filter (fun n => isHarnessNode n = true) (s_nodes spec) in
      if negb (length harnessNodes =? 0)%nat && negb (so_harness options)
      then Throw (E_noHarness (length harnessNodes))
      else
        let '(restored, store) :=
          match checkpointDir with
          | Some dir => if dir === "" then (false, store) else restore dir store disk
          | None => (false, store)
          end in
        let '(cache, store) := match cache with
                               | Some c => if restored then
                                   let '(c, store) := refillCache (so_clock options 0) c store in (Some c, store)
                                   else (Some c, store)
                               | None => (None, store)
                               end in
        Ok (initial spec queue store cache pool w)
  end end end end.

(** ** The whole run *)

Inductive RunOutcome :=
| RunThrows (e : StartError)
| RunRejects (message : string)
| RunDeadlock (pending : list string)
| RunReturns (result : WorkflowRunResult)
| RunOutOfFuel.

(** [createResumeToken] and the merge integration, whose outcome is the store
    it leaves and the conflict it met. *)
Context (resumeToken : WorkflowInterruptRecord -> string).
Context (integrate : SchedState (W := W) -> ResultStore * option string).
Context (readFile : string -> option string) (exists_ : string -> bool).

Definition kind_name (k : WorkflowInterruptKind) : string :=
  match k with
  | ik_approval => "approval" | ik_user_input => "user_input" | ik_conflict_resolution => "conflict_resolution"
  | ik_plan_amendment => "plan_amendment" | ik_external_uncertainty => "external_uncertainty"
  end.

(** src/src/workflow/scheduler/scheduler.ts # runScheduler @663-712

    What the loop's end turns into. *)
Definition conclude (out : LoopOutcome (W := W)) : RunOutcome :=
  match out with
  | LoopOutOfFuel => RunOutOfFuel
  | Rejected msg _ => RunRejects msg
  | Deadlock s => RunDeadlock (filter (fun id => id ∉ ss_finished s) (nodeIds spec))
  | Paused s =>
      match ss_interrupt s with
      | Some r =>
          RunReturns (mkRunResult (s_specId spec) run_waiting_interrupt (store_all (ss_store s)) None None
            (Some (mkWaiting (wr_interruptId r) (resumeToken r) (wr_nodeId r) (kind_name (wr_kind r))
                             (wr_prompt r) (wr_expiresAt r))))
      | None => RunOutOfFuel
      end
  | Completed s =>
      match ss_interrupt s with
      | Some r =>
          RunReturns (mkRunResult (s_specId spec) run_waiting_interrupt (store_all (ss_store s)) None None
            (Some (mkWaiting (wr_interruptId r) (resumeToken r) (wr_nodeId r) (kind_name (wr_kind r))
                             (wr_prompt r) (wr_expiresAt r))))
      | None =>
          let '(store, blocked) := match mergeNode spec with
                                   | Some _ => integrate s
                                   | None => (ss_store s, None)
                                   end in
          RunReturns (completeRun spec (isWrite spec options) (so_harnessRoot options) readFile exists_
                        (store_all store) blocked)
      end
  end.

(** Enough fuel for the loop: each pass settles at least one node. *)
Definition loopFuel : nat := S (length (s_nodes spec)).

(** src/src/workflow/scheduler/scheduler.ts # runScheduler @275-354 *)
Definition runScheduler (race : nat -> SchedState (W := W) -> list (string * NodeOutcome))
    (checkpointDir : option string) (disk : Disk) (cache : option ResultCache) (pool : option AgentPool)
    (w : W) : RunOutcome :=
  match startRun checkpointDir disk cache pool w with
  | Throw e => RunThrows e
  | Ok s => conclude (mainLoop spec options race loopFuel s)
  end.
End Run.

(** ** Reachable states

    The steps of a run, for the safety statements: one iteration of the inner
    loop, or the handlers of one settled promise. *)
Section Reach.
Context {W : Type} `{!NodeServices W}.
Context (spec : WorkflowSpec) (options : SchedulerOptions) (specDigest : string).

Inductive sched_step : SchedState (W := W) -> SchedState (W := W) -> Prop :=
| step_fill s s' : fillStep spec options s = Continue s' -> sched_step s s'
| step_settle s id o :
    id ∈ jkeys (ss_running s) -> sched_step s (settle spec options id o s).

Abbreviation start := (startRun spec options specDigest).

Lemma duplicateId_None ids : forall seen,
  duplicateId ids seen = None <-> NoDup ids /\ forall x, x ∈ ids -> x ∉ seen.
Proof.
  induction ids as [|id ids IH]; intros seen; simpl; [by split; [repeat constructor; set_solver|]|].
  rewrite NoDup_cons. destruct (includes seen id) eqn:E.
  - apply includes_true in E. split; [done|]. intros [_ H]. destruct (H id); [left|done].
  - apply includes_false in E. rewrite IH. setoid_rewrite elem_of_cons.
    setoid_rewrite elem_of_app. setoid_rewrite list_elem_of_singleton. naive_solver.
Qed.

Lemma initial_inv q store cache pool (w : W) :
  NoDup (nodeIds spec) -> newReadyQueue spec (fun _ => false) = Ok q ->
  cache_faithful spec options cache -> store_wf store ->
  sched_inv spec options ∅ ∅ ∅ (initial spec q store cache pool w).
Proof.
  intros Hnd Hq Hc Hwf. assert (forall x, x ∈ restoredIds spec store <->
    x ∈ nodeIds spec /\ is_Some (store_get x store)) as Hr.
  { intros x. unfold restoredIds. rewrite elem_of_list_to_set, list_elem_of_filter.
    unfold store_has, jhas, store_get. destruct (jget x _); naive_solver. }
  split; simpl; try done; try set_solver.
  - exists []. split; [by apply newReadyQueue_inv|]. set_solver.
  - constructor.
  - lia.
Qed.

Lemma refillCache_wf now c store :
  store_wf store -> store_wf (refillCache spec options now c store).2.
Proof.
  unfold refillCache. generalize (store_all store). intros l. revert c store.
  induction l as [|r l IH]; intros c store Hs; cbn [fold_left]; [done|].
  repeat case_match; try by apply IH. by apply IH, store_wf_set.
Qed.

(** A run that starts satisfies every premise of the loop's invariant. *)
Lemma startRun_ok dir disk cache pool (w : W) s :
  start dir disk cache pool w = Ok s -> cache_faithful spec options (ss_cache s) ->
  NoDup (nodeIds spec) /\ closed spec /\ acyclic (depends spec) /\
  (1 <= maxParallel spec options)%Z /\ sched_inv spec options ∅ ∅ ∅ s.
Proof.
  unfold startRun. destruct (maxParallel spec options <? 1)%Z eqn:Em; [done|]. reflect.
  destruct (duplicateId _ _) eqn:Ed; [done|]. apply duplicateId_None in Ed as [Hnd _].
  destruct (detectCycle spec) as [[p|]|] eqn:Ec; [done| |done].
  apply detectCycle_None in Ec as [Hcl Hac].
  destruct (newResultStore _ _ _ _) as [store|] eqn:Es; [|done].
  assert (forall id, store_has id store = false) as Hempty.
  { unfold newResultStore in Es. by destruct (negb _); simplify_eq. }
  destruct (newReadyQueue _ _) as [q|] eqn:Eq; [|done].
  assert (newReadyQueue spec (fun _ => false) = Ok q) as Hq.
  { rewrite <- Eq. unfold newResultStore in Es. by destruct (negb _); simplify_eq. }
  intros H Hc. destruct (_ && _); [done|].
  assert (store_wf store) as Hwf.
  { unfold newResultStore in Es. destruct (negb _); simplify_eq. split; constructor. }
  assert (exists store' cache', s = initial spec q store' cache' pool w /\ store_wf store')
    as (store' & cache' & -> & Hwf').
  { destruct (match dir with Some d => if d === "" then (false, store) else restore d store disk
              | None => (false, store) end) as [restored store1] eqn:Er.
    assert (store_wf store1) as Hwf1.
    { destruct dir as [d|]; [destruct (d === "")|]; simplify_eq; try done.
      pose proof (restore_wf d store disk Hwf) as H1. by rewrite Er in H1. }
    destruct cache as [c|]; [destruct restored|]; [|simplify_eq; eauto..].
    destruct (refillCache _ _ _ _ _) as [c1 store2] eqn:Ef. simplify_eq. eexists _, _. split; [done|].
    pose proof (refillCache_wf (so_clock options 0) c store1 Hwf1) as H2. by rewrite Ef in H2. }
  split_and!; [done..|]. by apply initial_inv.
Qed.

Lemma reachable_inv s s' :
  NoDup (nodeIds spec) -> closed spec -> "" ∉ nodeIds spec ->
  (exists D S, sched_inv spec options D S ∅ s) -> rtc sched_step s s' ->
  exists D S, sched_inv spec options D S ∅ s'.
Proof.
  intros Hnd Hcl He Hinv Hr. induction Hr as [|s1 s2 s3 Hstep _ IH]; [done|].
  apply IH. destruct Hinv as (D & S & Hinv). destruct Hstep as [s1 s2 Hf|s id o Hid].
  - eapply fillStep_inv in Hf as (D' & ? & _); eauto.
  - eapply (settle_inv spec options) with (o := o) in Hid as (D' & S' & ? & _); eauto.
Qed.

Definition end_state (out : LoopOutcome (W := W)) : option (SchedState (W := W)) :=
  match out with
  | Completed s | Paused s | Deadlock s | Rejected _ s => Some s
  | LoopOutOfFuel => None
  end.

Lemma fill_steps fuel : NoDup (nodeIds spec) -> closed spec -> "" ∉ nodeIds spec -> forall D S s,
  sched_inv spec options D S ∅ s -> rtc sched_step s (fill spec options fuel s).
Proof.
  intros Hnd Hcl He. induction fuel as [|fuel IH]; intros D S s Hinv; cbn [fill]; [done|].
  destruct (fillStep spec options s) as [s1|s1] eqn:E.
  - pose proof E as E'. eapply fillStep_inv in E' as (D' & Hinv' & _); eauto.
    eapply rtc_l; [by constructor|]. by eapply IH.
  - unfold fillStep in E. destruct (slots_free spec options s) eqn:Esf; simpl in E; [|by injection E as ->].
    apply slots_free_true in Esf as (_ & Hr & _).
    destruct (next (ss_queue s)) as [[node|] q] eqn:En; [by repeat case_match|].
    destruct (si_queue _ _ _ _ _ _ Hinv) as (popped & Hq & _).
    by destruct (next_inv _ _ _ _ _ _ Hq He En).
Qed.

Lemma settle_steps batch : forall s, rtc sched_step s (settleAll spec options batch s).
Proof.
  induction batch as [|[id o] batch IH]; intros s; cbn; [done|].
  destruct (decide (id ∈ jkeys (ss_running s))) as [Hid|Hid].
  - eapply rtc_l; [by apply (step_settle s id o)|]. apply IH.
  - assert (settle spec options id o s = s) as ->; [|apply IH].
    unfold settle. by rewrite (proj2 (jget_None _ _)).
Qed.

(** The loop only takes steps of the relation. *)
Lemma mainLoop_reaches dir disk cache pool (w : W) s race fuel s' :
  start dir disk cache pool w = Ok s ->
  "" ∉ nodeIds spec -> cache_faithful spec options (ss_cache s) ->
  end_state (mainLoop spec options race fuel s) = Some s' -> rtc sched_step s s'.
Proof.
  intros Hs He Hc. destruct (startRun_ok _ _ _ _ _ _ Hs Hc) as (Hnd & Hcl & _ & _ & Hinv).
  assert (exists D S, sched_inv spec options D S ∅ s) as Hinv' by eauto. clear -Hnd Hcl He Hinv'.
  revert s Hinv'. induction fuel as [|fuel IH]; intros s (D & S & Hinv); cbn [mainLoop]; [done|].
  pose proof (fill_steps (fillFuel spec) Hnd Hcl He D S s Hinv) as Hfill.
  set (s1 := fill spec options (fillFuel spec) s) in *. clearbody s1.
  pose proof (reachable_inv s s1 Hnd Hcl He (ex_intro _ D (ex_intro _ S Hinv)) Hfill) as Hinv1.
  destruct (_ =? _)%nat; [by intros [= <-]|]. destruct (_ && _); [by intros [= <-]|].
  destruct (_ =? _)%nat; [by intros [= <-]|].
  destruct (race fuel s1) as [|[id o] batch].
  { intros H. etrans; [exact Hfill|]. by apply IH. }
  destruct (rejects _ _ _ _ _); [by intros [= <-]|]. intros H.
  pose proof (settle_steps ((id, o) :: batch) s1) as Hb.
  etrans; [exact Hfill|]. etrans; [exact Hb|]. apply IH; [|done].
  eapply reachable_inv; eauto.
Qed.

(** C1: Liveness of the scheduler: once preflight has accepted a spec (no empty
    id), under any completion order of the running nodes the main loop ends; it
    ends with every node of the spec finished and its result stored, or paused at
    a human node with nothing left running, or rejected because a node's promise
    rejected. It never reports a deadlock unless a rejection went unobserved, and
    never runs forever. (Where the result cache is on, it must file replays under
    the id of the replayed node.) *)
Theorem scheduler_terminates dir disk cache pool (w : W) s race :
  start dir disk cache pool w = Ok s ->
  "" ∉ nodeIds spec -> cache_faithful spec options (ss_cache s) -> fair_race race ->
  loop_end_ok spec (mainLoop spec options race (loopFuel spec) s).
Proof.
  intros Hs He Hc Hr. destruct (startRun_ok _ _ _ _ _ _ Hs Hc) as (Hnd & Hcl & Hac & Hmp & Hinv).
  eapply mainLoop_ends; eauto. unfold loopFuel. lia.
Qed.


(** End to end, a run that returns done has executed the whole spec: every
    declared node has a result in the returned list, filed under its id, with
    status done; provided the merge integration loses no stored result. *)
Theorem runScheduler_done_complete resumeToken integrate readFile exists_ race dir disk cache pool (w : W) s res :
  start dir disk cache pool w = Ok s ->
  "" ∉ nodeIds spec -> cache_faithful spec options (ss_cache s) -> fair_race race ->
  (forall s' id, is_Some (store_get id (ss_store s')) -> is_Some (store_get id (integrate s').1)) ->
  (forall s', store_wf (ss_store s') -> store_wf (integrate s').1) ->
  runScheduler spec options specDigest resumeToken integrate readFile exists_ race dir disk cache pool w =
    RunReturns res ->
  wrr_status res = run_done ->
  forall n, n ∈ s_nodes spec -> exists r, r ∈ wrr_results res /\ r_nodeId r = n_id n /\ r_status r = st_done.
Proof.
  intros Hs He Hc Hrace Hkeep Hkwf Hrun Hdone n Hn.
  destruct (startRun_ok _ _ _ _ _ _ Hs Hc) as (Hnd & Hcl & Hac & Hmp & Hinv).
  unfold runScheduler in Hrun. rewrite Hs in Hrun.
  pose proof (mainLoop_ends spec options Hnd Hcl He race (loopFuel spec) ∅ ∅ s Hmp Hac Hrace Hinv
    ltac:(unfold loopFuel; lia)) as Hend.
  assert (forall s', end_state (mainLoop spec options race (loopFuel spec) s) = Some s' ->
    rtc sched_step s s') as Hreach by (intros; by eapply mainLoop_reaches).
  destruct (mainLoop _ _ _ _ _) as [s'|s'|s'|msg s'|] eqn:Em; simpl in Hrun; try done.
  2: { destruct (ss_interrupt s'); simplify_eq/=. }
  destruct (ss_interrupt s'); [simplify_eq/=|].
  destruct Hend as [_ Hall]. destruct (Hall n Hn) as [_ Hst].
  destruct (reachable_inv s s') as (D & S & Hinv'); [done..|by eauto|by apply Hreach|].
  pose proof (si_wf _ _ _ _ _ _ Hinv') as Hwf.
  destruct (match mergeNode spec with Some _ => integrate s' | None => _ end) as [store ib] eqn:Ei.
  injection Hrun as <-.
  assert (is_Some (store_get (n_id n) store) /\ store_wf store) as [[r Hr] [Hnd' Hwf']].
  { destruct (mergeNode spec); simplify_eq; [|done]. specialize (Hkeep s' _ Hst). specialize (Hkwf s' Hwf).
    by rewrite Ei in Hkeep, Hkwf. }
  assert (r ∈ store_all store /\ r_nodeId r = n_id n) as [Hin Hid].
  { unfold store_get in Hr. apply jget_elem in Hr. rewrite Forall_forall in Hwf'. split.
    - unfold store_all, jvalues. apply list_elem_of_fmap. by exists (n_id n, r).
    - symmetry. exact (Hwf' _ Hr). }
  exists (rewriteVerification r). assert (rewriteVerification r ∈ map rewriteVerification (store_all store)) as Hin'.
  { rewrite list_elem_of_In. apply in_map. by apply list_elem_of_In. }
  split_and!.
  - unfold completeRun. repeat case_match; done.
  - rewrite <- Hid. unfold rewriteVerification. by repeat case_match.
  - by eapply completeRun_results_done.
Qed.
End Reach.

(** ** Concrete runs *)

(** Services that deny nothing, for runs without a harness. *)
#[local] Instance plain_services : NodeServices unit := {|
  enforceNodeAssignment _ _ _ w := (mkEnforcement None "" None, w);
  enforceActualWrites _ _ _ := None;
  validateRoleOutput := validateRole;
|}.
Definition plain_options : SchedulerOptions :=
  mkOptions (Some 2%Z) false "" None (fun _ => false) (fun _ => None) (fun s => s) (fun _ => None)
            (fun _ => 0%Z).

(** Every running node finishes, oldest first, one at a time. *)
Definition oldest_done (_ : nat) (s : SchedState (W := unit)) : list (string * NodeOutcome) :=
  match ss_running s with
  | (id, _) :: _ => [(id, OutResult st_done JNull None None 0 0 0)]
  | [] => []
  end.

Lemma oldest_done_fair : fair_race oldest_done.
Proof.
  intros k s Hr. unfold oldest_done. destruct (ss_running s) as [|[id run] l]; [done|].
  split_and!; [done|repeat constructor; set_solver|]. intros e ->%list_elem_of_singleton. left.
Qed.

Lemma no_cache_faithful spec options : cache_faithful spec options None.
Proof. by intros ? [=]. Qed.

Definition run_start (spec : WorkflowSpec) (cache : option ResultCache) : SchedState (W := unit) :=
  match startRun spec plain_options "digest" None ∅ cache None tt with
  | Ok s => s
  | Throw _ => mkSched (mkQueue ∅ [] ∅ []) (mkStore [] "" None None None) None None tt [] ∅ None [] [] 0
  end.

Definition finished_ids (out : LoopOutcome (W := unit)) : option (list string) :=
  match out with Completed s => Some (r_nodeId <$> ss_reported s) | _ => None end.

(** The diamond [d <- b, c <- a] runs in dependency order. *)
Example diamond_order :
  finished_ids (mainLoop diamond plain_options oldest_done (loopFuel diamond) (run_start diamond None)) =
  Some ["a"; "b"; "c"; "d"].
Proof. vm_compute. reflexivity. Qed.

Lemma scheduler_terminates_witness :
  loop_end_ok diamond (mainLoop diamond plain_options oldest_done (loopFuel diamond) (run_start diamond None)).
Proof.
  apply (scheduler_terminates diamond plain_options "digest" None ∅ None None tt).
  - vm_compute. reflexivity.
  - apply (bool_decide_unpack _). vm_compute. exact I.
  - apply no_cache_faithful.
  - apply oldest_done_fair.
Defined.


Definition end_of (out : LoopOutcome (W := unit)) : SchedState (W := unit) :=
  match out with
  | Completed s | Paused s | Deadlock s | Rejected _ s => s
  | LoopOutOfFuel => run_start diamond None
  end.

Definition diamond_run : RunOutcome :=
  runScheduler diamond plain_options "digest" (fun _ => "") (fun s => (ss_store s, None)) (fun _ => None)
    (fun _ => false) oldest_done None ∅ None None tt.

Lemma runScheduler_done_complete_witness :
  match diamond_run with
  | RunReturns res => forall n, n ∈ s_nodes diamond ->
      exists r, r ∈ wrr_results res /\ r_nodeId r = n_id n /\ r_status r = st_done
  | _ => False
  end.
Proof.
  destruct diamond_run as [| | |res|] eqn:E; try (vm_compute in E; discriminate E).
  apply (runScheduler_done_complete diamond plain_options "digest" (fun _ => "") (fun s => (ss_store s, None))
    (fun _ => None) (fun _ => false) oldest_done None ∅ None None tt (run_start diamond None)).
  - vm_compute. reflexivity.
  - apply (bool_decide_unpack _). vm_compute. exact I.
  - apply no_cache_faithful.
  - apply oldest_done_fair.
  - intros s' id H. exact H.
  - intros s' H. exact H.
  - exact E.
  - vm_compute in E. injection E as <-. reflexivity.
Defined.

(** ** What a replay does to a node that is not its own

    [replayResult] keeps the [nodeId] of the cached result, so the store never
    learns the id of the node that was replayed. *)

(** [b] is the same read as [a]; [c] must run only if [b] failed. *)
Definition shared_read : WorkflowSpec :=
  mkSpec v0_2 "shared-read"
    [mkNode "a" "tool.read_file" (JObj []) [] None None;
     mkNode "b" "tool.read_file" (JObj []) [OnId "a"] None None;
     mkNode "c" "tool.list" (JObj []) [OnDep (mkDep "b" when_failed)] None None]
    None None None.

(** The states after [a] finished, then after [b] was replayed. *)
Definition after_replay : SchedState (W := unit) :=
  let s := fill shared_read plain_options 4 (run_start shared_read (Some newResultCache)) in
  let s := settle shared_read plain_options "a" (OutResult st_done JNull None None 0 0 0) s in
  let s := fill shared_read plain_options 4 s in
  let s := settle shared_read plain_options "b" (OutResult st_done JNull None None 0 0 0) s in
  fill shared_read plain_options 4 s.

(** With the cache on, [b] finishes without a stored result and [c] is
    launched although the node it waits for did not fail. *)
Lemma replay_launches_unsatisfied :
  jkeys (ss_running after_replay) = ["c"] /\
  bool_decide ("b" ∈ ss_finished after_replay) = true /\
  store_get "b" (ss_store after_replay) = None /\
  dependencySatisfied (mkDep "b" when_failed) (store_get "b" (ss_store after_replay)) = pending.
Proof. vm_compute. split_and!; reflexivity. Qed.

(** A cache kept from another spec files its result under that spec's id: the
    node of that name is then taken for restored but never counted finished,
    and the run reports a deadlock. *)
Definition two_reads : WorkflowSpec :=
  spec_of [mkNode "a" "tool.read_file" (JObj []) [] None None;
           mkNode "b" "tool.list" (JObj []) [] None None].
Definition foreign_cache : ResultCache :=
  cache_put 0 (cacheKeyFor (fun s => s) "tool.read_file" (JObj []) None)
    (mkResult "b" st_done JNull None None 0 0 0) newResultCache.

Lemma foreign_cache_deadlocks :
  match mainLoop two_reads plain_options oldest_done (loopFuel two_reads)
          (run_start two_reads (Some foreign_cache)) with
  | Deadlock s => ss_lost s = [] /\ elements (ss_finished s) = ["a"]
  | _ => False
  end.
Proof. vm_compute. split; reflexivity. Qed.
