(* ===== verification/SchedulerSpec.v ===== *)
(** The scheduler against an abstract scheduler.

    The abstract scheduler knows nothing of queues, stores, caches, pools or
    promises: each node of the spec is waiting, active, finished with a result
    or stalled, and a step changes the phase of one node under the conditions of
    its dependencies.  The loop of [Scheduler.v], as [RunScheduler.v] starts it,
    is shown to be one of its runs. *)
From S2P Require Import Prelude Json WorkflowTypes EdgeStore ReadyQueue Results Agents Scheduler RunScheduler.
Open Scope list_scope.

(** ** The abstract scheduler *)



Section Abstract.
Context (spec : WorkflowSpec) (bound : Z).







End Abstract.





(** ** The simulation *)

Section Simulation.
Context {W : Type} `{!NodeServices W}.
Context (spec : WorkflowSpec) (options : SchedulerOptions).
Hypothesis Hnd : NoDup (nodeIds spec).
Hypothesis Hclosed : closed spec.
Hypothesis Hempty : "" ∉ nodeIds spec.
#[local] Abbreviation State := (SchedState (W := W)).









#[local] Abbreviation bound := (maxParallel spec options).









End Simulation.




#[local] Existing Instance plain_services.

