(* ===== verification/GraphCompiler.v ===== *)
(** Compilers of execution graphs: normal form, snapshots, plans, templates.

    Models, of [src/src/workflow], [compiler/graph-normalizer.ts],
    [compiler/snapshot-compiler.ts], [compiler/master-plan-adapter.ts],
    [templates/registry.ts] and [templates/write-templates.ts], and proves
    Kahn's algorithm ([results/edge-store.ts]) correct, on which the normal form
    rests.  SHA-256 is a parameter; a regular expression that is an alternative
    of literals is a list of texts to look for (UTF-8 for those that are not
    ASCII). *)
From stdpp Require Import pretty.
From S2P Require Import Prelude Json WorkflowTypes EdgeStore Paths Validation Results.

(** ** The normal form *)

(** What [normalizeSpec] and the compilers throw. *)
Inductive CompileGraphError :=
| duplicate_node (id : string)
| order_failed (e : order_error)
| not_readonly_tool (name : string)
| no_handler (id title : string)
| unknown_template (id : string).

(** The inner loop: dependencies without repetition. *)
Fixpoint dedup_deps (seen : list string) (deps : list DependsEntry) : list DependsEntry :=
  match deps with
  | [] => []
  | dep :: deps => if includes seen (depId dep) then dedup_deps seen deps
                   else dep :: dedup_deps (seen ++ [depId dep]) deps
  end.

Definition with_deps (deps : list DependsEntry) (n : WorkflowNodeSpec) : WorkflowNodeSpec :=
  mkNode (n_id n) (n_handler n) (n_input n) deps (n_execution n) (n_assignment n).

(** The first loop: the map of nodes by id, in insertion order. *)
Fixpoint collect_nodes (seenIds : list string) (nodes : list WorkflowNodeSpec)
  : res CompileGraphError (list WorkflowNodeSpec) :=
  match nodes with
  | [] => Ok []
  | n :: nodes =>
      if includes seenIds (n_id n) then Throw (duplicate_node (n_id n))
      else rest ← collect_nodes (n_id n :: seenIds) nodes;
           Ok (with_deps (dedup_deps [] (n_dependsOn n)) n :: rest)
  end.

(** [new Map(ordered.map((id, i) => [id, i])).get(id) ?? 0]: of equal ids the
    last index counts. *)
Definition order_index (ordered : list string) (id : string) : Z :=
  default 0%Z (jget id (fold_left (fun m '(i, x) => jset x (Z.of_nat i) m)
                          (zip (seq 0 (length ordered)) ordered) [])).

Definition with_nodes (nodes : list WorkflowNodeSpec) (s : WorkflowSpec) : WorkflowSpec :=
  mkSpec (s_schemaVersion s) (s_specId s) nodes (s_maxParallel s) (s_mode s) (s_completionCriteria s).

(** src/src/workflow/compiler/graph-normalizer.ts # normalizeSpec *)
Definition normalizeSpec (spec : WorkflowSpec) : res CompileGraphError WorkflowSpec :=
  byId ← collect_nodes [] (s_nodes spec);
  match topologicalOrder (with_nodes byId spec) with
  | Throw e => Throw (order_failed e)
  | Ok ordered =>
      let index := fun n => order_index ordered (n_id n) in
      Ok (with_nodes (jsort (fun a b => (index a <? index b)%Z) byId) spec)
  end.

(** ** Snapshots *)

(** src/src/workflow/types.ts # WorkflowNodeKind *)
Inductive WorkflowNodeKind := k_root | k_round | k_tool | k_gate | k_verification | k_plan.

#[export] Instance WorkflowNodeKind_eq_dec : EqDecision WorkflowNodeKind.
Proof. solve_decision. Defined.

(** The members of a snapshot's node the compiler reads. *)
Record SnapshotNode := mkSnapNode { sn_id : string; sn_kind : WorkflowNodeKind; sn_name : string }.

(** src/src/workflow/compiler/snapshot-compiler.ts # READONLY_HANDLERS *)
Definition READONLY_HANDLERS : list (string * string) :=
  [("read_file", "tool.read_file"); ("find_symbol", "tool.find_symbol");
   ("find_references", "tool.find_references"); ("project_structure", "tool.project_structure");
   ("git_diff", "tool.git_diff"); ("git_status", "tool.git_status")].

(** A node without execution and assignment. *)
Definition plain_node (id handler : string) (input : jsval) (deps : list string) : WorkflowNodeSpec :=
  mkNode id handler input (map OnId deps) None None.
Definition plain_spec (specId : string) (mode : option SpecMode) (nodes : list WorkflowNodeSpec) : WorkflowSpec :=
  mkSpec v0_1 specId nodes None mode None.

(** The loop over the nodes of a snapshot. *)
Fixpoint snapshot_nodes (nodes : list SnapshotNode) : res CompileGraphError (list WorkflowNodeSpec) :=
  match nodes with
  | [] => Ok []
  | n :: nodes =>
      if negb (sn_kind n === k_tool) then snapshot_nodes nodes
      else match jget (sn_name n) READONLY_HANDLERS with
           | None => Throw (not_readonly_tool (sn_name n))
           | Some handler =>
               rest ← snapshot_nodes nodes;
               Ok (plain_node (sn_id n) handler (JObj []) [] :: rest)
           end
  end.

(** src/src/workflow/compiler/snapshot-compiler.ts # compileFromSnapshot

    No tool is named like a member of [Object.prototype]. *)
Definition compileFromSnapshot (nodes : list SnapshotNode) (specId : string)
  : res CompileGraphError WorkflowSpec :=
  nodes ← snapshot_nodes nodes; Ok (plain_spec specId None nodes).

(** ** Plans *)

(** src/src/workflow/compiler/master-plan-adapter.ts # PlanLikeNode *)
Record PlanPacket := mkPacket { pk_goal : option string; pk_scope : option (list string) }.
Record PlanLikeNode := mkPlanNode {
  pn_id : string; pn_title : string; pn_dependsOn : list string;
  pn_blockedBy : option (list string); pn_packet : option PlanPacket }.

(** src/src/workflow/compiler/master-plan-adapter.ts # PlanLike *)
Record PlanLike := mkPlan { pl_goal : string; pl_intent : option string; pl_nodes : list PlanLikeNode }.

(** The test of an alternative of literals. *)
Definition any_of (alternatives : list string) (text : string) : bool :=
  existsb (fun a => str_includes a text) alternatives.

(** src/src/workflow/compiler/master-plan-adapter.ts # inferHandler *)
Definition inferHandler (intent : option string) (title : string) : option string :=
  let t := lower title in
  if any_of ["状态"; "变更"; "历史"; "差异"; "提交"; "git"; "status"; "changes"; "history"; "diff"] t
  then Some "tool.git_status"
  else if any_of ["结构"; "目录"; "概览"; "树"; "structure"; "tree"; "overview"] t
  then Some "tool.project_structure"
  else if any_of ["符号"; "引用"; "解释"; "理解"; "symbol"; "reference"; "explain"] t
  then Some "tool.find_symbol"
  else
    let i := lower (default "" intent) in
    if any_of ["explain"; "解释"; "理解"] i then Some "tool.find_symbol"
    else if any_of ["structure"; "结构"; "概览"] i then Some "tool.project_structure"
    else None.

Definition j_strings (xs : list string) : jsval := JArr (map JStr xs).
Definition j_text (o : option string) : jsval := from_option JStr JUndef o.

(** The branches on the packet: handler and input. *)
Definition packet_handler (packet : PlanPacket) (title : string) : string * jsval :=
  let text := lower (default "" (pk_goal packet) +:+ " " +:+ title) in
  let scope := j_strings (default [] (pk_scope packet)) in
  if any_of ["read"; "explain"; "analyze"; "research"; "inspect"; "audit"] text
  then ("tool.read_file", JObj [("scope", scope)])
  else if any_of ["symbol"; "find"; "reference"] text
  then ("tool.find_symbol", JObj [("query", JStr title)])
  else if any_of ["structure"; "overview"] text
  then ("tool.project_structure", JObj [("scope", scope)])
  else ("tool.read_file", JObj [("scope", scope); ("goal", j_text (pk_goal packet))]).

Definition plan_id (dep : string) : string := if startsWith dep "plan:" then dep else "plan:" +:+ dep.

(** The body of the loop over the plan's nodes. *)
Definition compile_plan_node (intent : option string) (node : PlanLikeNode)
  : res CompileGraphError WorkflowNodeSpec :=
  '(handler, input) ← match pn_packet node with
                      | Some packet => Ok (packet_handler packet (pn_title node))
                      | None => match inferHandler intent (pn_title node) with
                                | Some h => Ok (h, JObj [])
                                | None => Throw (no_handler (pn_id node) (pn_title node))
                                end
                      end;
  let deps := map plan_id (uniq (pn_dependsOn node ++ default [] (pn_blockedBy node))) in
  Ok (plain_node ("plan:" +:+ pn_id node) handler input deps).

Fixpoint compile_plan_nodes (intent : option string) (nodes : list PlanLikeNode)
  : res CompileGraphError (list WorkflowNodeSpec) :=
  match nodes with
  | [] => Ok []
  | n :: nodes => n ← compile_plan_node intent n; rest ← compile_plan_nodes intent nodes; Ok (n :: rest)
  end.

Section Hash.
Context (sha256 : string -> string).

Definition short_hash (n : nat) (v : jsval) : string := String.substring 0 n (stableHash sha256 v).

(** src/src/workflow/compiler/master-plan-adapter.ts # compileMasterPlan *)
Definition compileMasterPlan (plan : PlanLike) : res CompileGraphError WorkflowSpec :=
  nodes ← compile_plan_nodes (pl_intent plan) (pl_nodes plan);
  let identity := JObj
    [("goal", JStr (pl_goal plan));
     ("nodes", JArr (map (fun n => JObj [("id", JStr (n_id n)); ("handler", JStr (n_handler n));
                                         ("deps", j_strings (map depId (n_dependsOn n)))]) nodes))] in
  normalizeSpec (plain_spec ("plan-" +:+ short_hash 12 identity) None nodes).

(** ** Templates *)

(** src/src/workflow/templates/registry.ts # TemplateInput *)
Record TemplateInput := mkTemplateInput {
  ti_path : option string; ti_query : option string; ti_fileCount : option Z;
  ti_files : option (list string) }.

(** src/src/workflow/templates/registry.ts # MAX_FANOUT *)
Definition MAX_FANOUT : nat := 8.

Definition input_path (i : TemplateInput) : jsval := JObj [("path", JStr (default "" (ti_path i)))].
Definition input_query (i : TemplateInput) : jsval :=
  JObj [("query", JStr (default "" (ti_query i))); ("path", j_text (ti_path i))].
Definition file_nodes (dep : string) (files : list string) : list WorkflowNodeSpec :=
  map (fun file => plain_node ("t:read:" +:+ short_hash 8 (JStr file)) "tool.read_file"
                     (JObj [("path", JStr file)]) [dep]) files.

Inductive TemplateId := code_explain | security_audit | research_report.
Definition template_name (t : TemplateId) : string :=
  match t with
  | code_explain => "code_explain" | security_audit => "security_audit"
  | research_report => "research_report"
  end.

(** src/src/workflow/templates/registry.ts # TEMPLATES *)
Definition template_build (t : TemplateId) (i : TemplateInput) : list WorkflowNodeSpec :=
  let files := take MAX_FANOUT (default [] (ti_files i)) in
  match t with
  | code_explain =>
      [plain_node "t:find" "tool.find_symbol" (input_query i) [];
       plain_node "t:refs" "tool.find_references" (input_query i) ["t:find"];
       plain_node "t:read" "tool.read_file" (input_path i) ["t:find"; "t:refs"]]
  | security_audit =>
      [plain_node "t:struct" "tool.project_structure" (input_path i) []]
      ++ match files with
         | [] => map (fun k => plain_node ("t:read" +:+ pretty (k : Z)) "tool.read_file" (JObj [("path", JStr "")]) ["t:struct"])
                   (seqZ 0 (Z.min (default 3%Z (ti_fileCount i)) (Z.of_nat MAX_FANOUT)))
         | _ => file_nodes "t:struct" files
         end
      ++ [plain_node "t:merge" "reduce.merge_diagnostics" (JObj [("groups", JArr [])]) ["t:struct"]]
  | research_report =>
      [plain_node "t:status" "tool.git_status" (input_path i) [];
       plain_node "t:diff" "tool.git_diff" (input_path i) ["t:status"]]
      ++ match ti_query i with
         | Some q => if q === "" then [] else
                     [plain_node "t:sym" "tool.find_symbol" (JObj [("query", JStr q); ("path", j_text (ti_path i))]) []]
         | None => []
         end
      ++ file_nodes "t:diff" files
  end.

Definition template_input_json (i : TemplateInput) : jsval :=
  JObj [("path", j_text (ti_path i)); ("query", j_text (ti_query i));
        ("fileCount", from_option JNum JUndef (ti_fileCount i));
        ("files", from_option j_strings JUndef (ti_files i))].

(** src/src/workflow/templates/registry.ts # buildTemplate *)
Definition buildTemplate (templateId : string) (i : TemplateInput) : res CompileGraphError WorkflowSpec :=
  match find (fun t => template_name t === templateId) [code_explain; security_audit; research_report] with
  | None => Throw (unknown_template templateId)
  | Some t =>
      normalizeSpec (plain_spec ("template-" +:+ templateId +:+ "-" +:+ short_hash 8 (template_input_json i))
                       None (template_build t i))
  end.

(** src/src/workflow/templates/write-templates.ts # WriteTemplateInput *)
Record WriteTemplateInput := mkWriteInput {
  wt_path : option string; wt_query : option string; wt_files : option (list string);
  wt_diff : option string; wt_baseHash : option string }.

(** src/src/workflow/templates/write-templates.ts # verifyNode *)
Definition verifyNode (id writeNodeId : string) (files : list string) : WorkflowNodeSpec :=
  plain_node id "tool.run_targeted_verification" (JObj [("files", j_strings files)]) [writeNodeId].

Definition patch_input (i : WriteTemplateInput) : jsval :=
  JObj [("patches", JArr [JObj [("diff", JStr (default "" (wt_diff i))); ("baseHash", j_text (wt_baseHash i))]])].

(** A query or path that is not the empty string. *)
Definition given (o : option string) : option string :=
  match o with Some s => if s === "" then None else Some s | None => None end.

(** src/src/workflow/templates/write-templates.ts # buildNarrowFix *)
Definition buildNarrowFix (i : WriteTemplateInput) : WorkflowSpec :=
  let files := default [] (wt_files i) in
  let after_find := match given (wt_query i) with Some _ => ["w:find"] | None => [] end in
  let nodes :=
    match given (wt_query i) with
    | Some q => [plain_node "w:find" "tool.find_symbol" (JObj [("query", JStr q); ("path", j_text (wt_path i))]) []]
    | None => []
    end
    ++ match files with
       | file :: _ => [plain_node "w:read" "tool.read_file" (JObj [("path", JStr file)]) after_find]
       | [] => []
       end
    ++ [plain_node "w:patch" "tool.apply_patch" (patch_input i)
          match files with _ :: _ => ["w:read"] | [] => after_find end;
        verifyNode "w:verify" "w:patch" files] in
  plain_spec ("narrow-fix-" +:+ short_hash 8 (JObj [("diff", JStr (default "" (wt_diff i))); ("query", j_text (wt_query i))]))
    (Some read_write) nodes.

(** src/src/workflow/templates/write-templates.ts # buildTestRepair *)
Definition buildTestRepair (i : WriteTemplateInput) : WorkflowSpec :=
  let files := default [] (wt_files i) in
  let nodes :=
    [plain_node "t:run" "tool.run_process"
       (JObj [("command", JStr "bun"); ("args", j_strings ["test"]); ("cwd", j_text (wt_path i))]) []]
    ++ match files with
       | file :: _ => [plain_node "t:read" "tool.read_file" (JObj [("path", JStr file)]) ["t:run"]]
       | [] => []
       end
    ++ [plain_node "t:patch" "tool.apply_patch" (patch_input i)
          match files with _ :: _ => ["t:read"] | [] => ["t:run"] end;
        verifyNode "t:verify" "t:patch" files] in
  plain_spec ("test-repair-" +:+ short_hash 8 (JObj [("diff", j_text (wt_diff i))])) (Some read_write) nodes.
End Hash.

(** ** Kahn's algorithm *)

Lemma list_filter_iff_in {A} (P Q : A -> Prop) `{!forall x, Decision (P x), !forall x, Decision (Q x)} (l : list A) :
  (forall x, x ∈ l -> P x <-> Q x) -> filter P l = filter Q l.
Proof.
  induction l as [|x l IH]; intros HPQ; [done|]. rewrite !filter_cons, IH by set_solver.
  assert (P x <-> Q x) as Hx by (apply HPQ; left). destruct (decide (P x)), (decide (Q x)); naive_solver.
Qed.

Section Kahn.
Context (t : EdgeTopology) (ids : list string) (P : string -> list string).
Context (Hids : NoDup ids) (HP : forall k, NoDup (P k))
  (Hsucc : forall a, NoDup (succs t a))
  (Hedge : forall a b, b ∈ succs t a <-> b ∈ ids /\ a ∈ P b).

Lemma relax_spec nexts : forall indeg queue indeg' queue',
  NoDup nexts -> relax nexts indeg queue = (indeg', queue') ->
  (forall k, default 0%Z (indeg' !! k)
             = (default 0%Z (indeg !! k) - if bool_decide (k ∈ nexts) then 1 else 0)%Z) /\
  queue' = queue ++ filter (fun k => default 0%Z (indeg !! k) = 1%Z) nexts.
Proof.
  induction nexts as [|x nexts IH]; intros indeg queue indeg' queue' Hnd; cbn [relax].
  { intros [= <- <-]. split; [|by rewrite app_nil_r]. intros k. simpl. lia. }
  apply NoDup_cons in Hnd as [Hx Hnd]. intros H. apply IH in H as [H1 H2]; [|done].
  assert (forall k, k <> x -> default 0%Z (<[x:=(default 0%Z (indeg !! x) - 1)%Z]> indeg !! k)
                              = default 0%Z (indeg !! k)) as Hne
    by (intros k Hk; by rewrite lookup_insert_ne).
  split.
  - intros k. rewrite H1. destruct (decide (k = x)) as [->|Hk].
    + rewrite lookup_insert_eq, (bool_decide_eq_false_2 (x ∈ nexts)) by done.
      rewrite bool_decide_eq_true_2 by set_solver. simpl. lia.
    + rewrite Hne by done.
      replace (bool_decide (k ∈ x :: nexts)) with (bool_decide (k ∈ nexts)); [done|].
      apply bool_decide_ext. set_solver.
  - rewrite H2, filter_cons. rewrite (list_filter_iff_in _ (fun k => default 0%Z (indeg !! k) = 1%Z)).
    2: { intros k Hk. rewrite Hne; [done|]. by intros ->. }
    destruct (Z.eqb_spec (default 0%Z (indeg !! x) - 1) 0) as [E|E];
      destruct (decide (default 0%Z (indeg !! x) = 1%Z)); try lia; [by rewrite <- app_assoc|done].
Qed.

(** What is still missing of a node's dependencies. *)
Definition missing (order : list string) (k : string) : list string := filter (fun a => a ∉ order) (P k).

Definition topological (order : list string) : Prop :=
  forall before k after, order = before ++ k :: after -> forall a, a ∈ P k -> a ∈ before.

Record kahn_inv (order queue : list string) (indeg : gmap string Z) : Prop := {
  ki_NoDup : NoDup (order ++ queue);
  ki_ids : forall k, k ∈ order ++ queue -> k ∈ ids;
  ki_indeg : forall k, k ∈ ids -> default 0%Z (indeg !! k) = Z.of_nat (length (missing order k));
  ki_ready : forall k, k ∈ ids -> k ∈ order ++ queue <-> missing order k = [];
  ki_topological : topological order }.

Lemma missing_snoc order x k :
  x ∉ order ->
  Z.of_nat (length (missing (order ++ [x]) k))
  = (Z.of_nat (length (missing order k)) - if bool_decide (x ∈ P k) then 1 else 0)%Z.
Proof.
  intros Hx. unfold missing. pose proof (HP k) as Hnd. induction (P k) as [|a l IH]; [done|].
  apply NoDup_cons in Hnd as [Ha Hnd]. specialize (IH Hnd). rewrite !filter_cons.
  destruct (decide (a = x)) as [->|Hax].
  - rewrite (bool_decide_eq_false_2 (x ∈ l)) in IH by done. rewrite (bool_decide_eq_true_2 (x ∈ x :: l)) by set_solver.
    rewrite decide_False by set_solver. rewrite decide_True by done. simpl. lia.
  - replace (bool_decide (x ∈ a :: l)) with (bool_decide (x ∈ l)) by (apply bool_decide_ext; set_solver).
    destruct (decide (a ∉ order)) as [Hao|Hao].
    + rewrite decide_True by set_solver. simpl. lia.
    + rewrite decide_False by set_solver. done.
Qed.

Lemma topological_snoc order x :
  topological order -> (forall a, a ∈ P x -> a ∈ order) -> topological (order ++ [x]).
Proof.
  intros Ht Hx before k after E a Ha. destruct (decide (after = [])) as [->|Hne].
  - apply app_inj_tail in E as [<- <-]. by apply Hx.
  - destruct (exists_last Hne) as (after' & y & ->). rewrite app_comm_cons, app_assoc in E.
    apply app_inj_tail in E as [-> _]. by eapply Ht.
Qed.

Lemma missing_nil order k : missing order k = [] <-> forall a, a ∈ P k -> a ∈ order.
Proof.
  unfold missing. rewrite filter_nil_iff. split; intros H a Ha; specialize (H a Ha).
  - by destruct (decide (a ∈ order)).
  - tauto.
Qed.

Lemma length_zero_nil {A} (l : list A) : Z.of_nat (length l) = 0%Z <-> l = [].
Proof. destruct l; simpl; [done|]. split; [lia|done]. Qed.

Lemma kahn_step order x queue indeg indeg' queue' :
  kahn_inv order (x :: queue) indeg -> relax (succs t x) indeg queue = (indeg', queue') ->
  kahn_inv (order ++ [x]) queue' indeg'.
Proof.
  intros [Hnd Hin Hdeg Hready Htop] Hr. apply relax_spec in Hr as [Hd ->]; [|apply Hsucc].
  set (new := filter _ (succs t x)) in *.
  assert (x ∉ order) as Hx by (apply NoDup_app in Hnd as (_ & Hno & _); intros Hx; apply (Hno x Hx); left).
  assert (forall k, k ∈ new <-> k ∈ ids /\ x ∈ P k /\ length (missing order k) = 1%nat) as Hnew.
  { intros k. unfold new. rewrite list_elem_of_filter, Hedge. split.
    - intros (E & Hk & HxP). rewrite Hdeg in E by done. split_and!; [done|done|lia].
    - intros (Hk & HxP & E). rewrite Hdeg by done. split_and!; [lia|done|done]. }
  assert ((order ++ [x]) ++ queue ++ new = (order ++ x :: queue) ++ new) as Eq by by rewrite <- !app_assoc.
  assert (forall k, k ∈ ids -> missing (order ++ [x]) k = [] <->
            missing order k = [] \/ (x ∈ P k /\ length (missing order k) = 1%nat)) as Hmiss.
  { intros k _. rewrite <- !length_zero_nil, missing_snoc by done.
    destruct (bool_decide_reflect (x ∈ P k)) as [E|E];
      [|split; [intros; left; lia|intros [?|[? _]]; [lia|done]]].
    assert (missing order k <> []) as Hne by (rewrite missing_nil; auto).
    rewrite <- length_zero_nil in Hne. split; [intros; right; split; [done|lia]|intros [?|[_ ?]]; lia]. }
  constructor.
  - rewrite Eq. apply NoDup_app. split_and!; [done| |by apply NoDup_filter, Hsucc].
    intros k Hk (Hki & _ & E)%Hnew. apply Hready in Hk; [|done]. by rewrite Hk in E.
  - intros k. rewrite Eq. intros [Hk|Hk]%elem_of_app; [by apply Hin|by apply Hnew in Hk as [? _]].
  - intros k Hk. rewrite Hd, Hdeg, missing_snoc by done. f_equal.
    replace (bool_decide (k ∈ succs t x)) with (bool_decide (x ∈ P k)); [done|].
    apply bool_decide_ext. rewrite Hedge. tauto.
  - intros k Hk. rewrite Eq, elem_of_app, Hready, Hnew, Hmiss by done. tauto.
  - apply topological_snoc; [done|]. apply missing_nil, Hready; [apply Hin; set_solver|set_solver].
Qed.

Lemma inv_length order queue indeg : kahn_inv order queue indeg -> length (order ++ queue) <= length ids.
Proof. intros [Hnd Hin _ _ _]. apply submseteq_length, NoDup_submseteq; [done|]. exact Hin. Qed.

Lemma kahn_run fuel : forall order queue indeg,
  kahn_inv order queue indeg -> length ids < fuel + length order ->
  exists indeg', kahn_inv (kahn t fuel queue indeg order) [] indeg'.
Proof.
  induction fuel as [|fuel IH]; intros order queue indeg Hinv Hf; cbn [kahn].
  - apply inv_length in Hinv. rewrite length_app in Hinv. lia.
  - destruct queue as [|x queue]; [eauto|].
    destruct (relax (succs t x) indeg queue) as [indeg' queue'] eqn:Er.
    eapply IH; [by eapply kahn_step|]. rewrite length_app. simpl. lia.
Qed.

(** With nothing left to pop, all is ordered unless there is a cycle. *)
Lemma kahn_complete order indeg :
  kahn_inv order [] indeg -> (forall a k, k ∈ ids -> a ∈ P k -> a ∈ ids) ->
  acyclic (fun a b => b ∈ ids /\ a ∈ P b) -> order ≡ₚ ids.
Proof.
  intros [Hnd Hin _ Hready _] Hcl [rank Hrank]. setoid_rewrite app_nil_r in Hready.
  rewrite app_nil_r in Hnd. setoid_rewrite app_nil_r in Hin.
  apply NoDup_Permutation; [done|done|]. intros k. split; [by apply Hin|].
  induction k as [k IH] using (well_founded_induction (Wf_nat.well_founded_ltof _ rank)).
  intros Hk. apply Hready, missing_nil; [done|]. intros a Ha.
  apply IH; [by apply Hrank|by eapply Hcl].
Qed.
End Kahn.

(** ** The order of a spec *)

Lemma succs_alter d f t ind a :
  succs (mkTopology ind (alter f d (successors t))) a
  = if bool_decide (a = d) then default [] (f <$> successors t !! d) else succs t a.
Proof.
  unfold succs. cbn [successors]. destruct (bool_decide_reflect (a = d)) as [->|Hne].
  - by rewrite lookup_alter_eq.
  - by rewrite lookup_alter_ne.
Qed.

Lemma addDeps_NoDup ids nid deps : forall seen t t',
  addDeps ids nid deps seen t = Ok t' ->
  (forall a, NoDup (succs t a)) -> (forall a, nid ∈ succs t a -> a ∈ seen) ->
  (forall a, NoDup (succs t' a)) /\ (forall a b, b <> nid -> b ∈ succs t' a <-> b ∈ succs t a).
Proof.
  induction deps as [|dep deps IH]; intros seen t t'; cbn [addDeps]; [by intros [= <-]|].
  destruct (includes ids (depId dep)); [|done]. cbn [negb].
  destruct (includes seen (depId dep)) eqn:Hs; [by apply IH|]. apply includes_false in Hs.
  intros Ht' Hnd Hseen. specialize (IH _ _ _ Ht') as [IH1 IH2].
  - intros a. rewrite succs_alter. destruct (bool_decide_reflect (a = depId dep)) as [->|]; [|done].
    specialize (Hnd (depId dep)). unfold succs in Hnd, Hseen.
    destruct (successors t !! depId dep) as [l|] eqn:El; simpl in *; [|constructor].
    apply NoDup_app. split_and!; [done| |apply NoDup_singleton].
    intros b Hb ->%list_elem_of_singleton. apply Hs, Hseen. by rewrite El.
  - intros a. rewrite succs_alter. destruct (bool_decide_reflect (a = depId dep)) as [->|]; [set_solver|].
    intros H%Hseen. set_solver.
  - split; [done|]. intros a b Hb. rewrite IH2, succs_alter by done.
    destruct (bool_decide_reflect (a = depId dep)) as [->|]; [|done]. unfold succs.
    destruct (successors t !! depId dep); simpl; set_solver.
Qed.

Lemma addNodes_NoDup ids nodes : forall t t',
  addNodes ids nodes t = Ok t' -> NoDup (n_id <$> nodes) ->
  (forall a, NoDup (succs t a)) -> (forall a b, b ∈ n_id <$> nodes -> b ∉ succs t a) ->
  forall a, NoDup (succs t' a).
Proof.
  induction nodes as [|n nodes IH]; intros t t'; cbn [addNodes]; [by intros [= <-]|].
  rewrite res_bind_Ok. intros (t1 & Ht1 & Ht') [Hn Hnd]%NoDup_cons Hs Hfresh.
  apply addDeps_NoDup in Ht1 as [H1 H2]; [|done|].
  - eapply IH; [done|done|done|]. intros a b Hb. rewrite H2; [apply Hfresh; set_solver|].
    intros ->. done.
  - intros a H. destruct (Hfresh a (n_id n)); [set_solver|done].
Qed.

Lemma buildTopology_NoDup spec t :
  buildTopology spec = Ok t -> NoDup (nodeIds spec) -> forall a, NoDup (succs t a).
Proof.
  intros H Hnd. assert (forall a, succs (emptyTopology (nodeIds spec)) a = []) as He.
  { intros a. unfold succs. destruct (emptyTopology_succ (nodeIds spec) a) as [E1 E2].
    destruct (decide (a ∈ nodeIds spec)); [by rewrite E1|by rewrite E2]. }
  eapply addNodes_NoDup; [done|done| |]; intros a; rewrite He; [constructor|]. set_solver.
Qed.

(** What a node depends on, each once. *)
Definition preds (spec : WorkflowSpec) (k : string) : list string :=
  match nodeById spec k with Some n => dedup_from [] (depIds n) | None => [] end.

Lemma elem_of_preds spec a k :
  NoDup (nodeIds spec) -> a ∈ preds spec k <-> depends spec a k.
Proof.
  intros Hnd. unfold preds, depends. destruct (nodeById spec k) as [n|] eqn:En.
  - rewrite elem_of_dedup_from. split.
    + intros [Ha _]. apply nodeById_Some in En as [Hn <-]. eauto.
    + intros (m & Hm & <- & Ha). rewrite nodeById_elem in En by done. injection En as ->.
      split; [done|apply not_elem_of_nil].
  - apply nodeById_None in En. split; [set_solver|]. intros (n & Hn & <- & _).
    destruct En. by apply list_elem_of_fmap_2.
Qed.

Lemma kahn_start spec t :
  buildTopology spec = Ok t -> NoDup (nodeIds spec) ->
  kahn_inv (nodeIds spec) (preds spec) [] (filter (fun id => default 0%Z (indegree t !! id) = 0%Z) (nodeIds spec))
    (indegree t).
Proof.
  intros Ht Hnd. pose proof (buildTopology_spec _ _ Ht) as (_ & _ & Hdeg).
  assert (forall k, k ∈ nodeIds spec ->
            default 0%Z (indegree t !! k) = Z.of_nat (length (missing (preds spec) [] k))) as Hk.
  { intros k (n & -> & Hn)%list_elem_of_fmap. rewrite Hdeg by done. unfold missing, preds.
    rewrite nodeById_elem by done. f_equal. f_equal. symmetry. apply filter_all.
    intros a _. apply not_elem_of_nil. }
  constructor; [by apply NoDup_filter|intros k [_ Hin]%list_elem_of_filter; done|done| |].
  - intros k Hin. cbn [app]. rewrite list_elem_of_filter, Hk, length_zero_nil by done. tauto.
  - intros before k after E. by destruct before.
Qed.

Lemma preds_NoDup spec k : NoDup (preds spec k).
Proof. unfold preds. destruct (nodeById spec k); [apply NoDup_dedup_from|constructor]. Qed.

Lemma topology_edges spec t :
  buildTopology spec = Ok t -> NoDup (nodeIds spec) ->
  forall a b, b ∈ succs t a <-> b ∈ nodeIds spec /\ a ∈ preds spec b.
Proof.
  intros Ht Hnd a b. pose proof (buildTopology_spec _ _ Ht) as (_ & Hedge & _). unfold edge in Hedge.
  assert (closed spec) as Hcl by (apply buildTopology_Ok; eauto).
  rewrite elem_of_preds, Hedge by done. split; [|tauto]. intros Hd. split; [by eapply depends_nodeIds|done].
Qed.

Lemma run_to_end spec t :
  buildTopology spec = Ok t -> NoDup (nodeIds spec) ->
  exists indeg', kahn_inv (nodeIds spec) (preds spec)
    (kahn t (S (length (s_nodes spec)))
       (filter (fun id => default 0%Z (indegree t !! id) = 0%Z) (nodeIds spec)) (indegree t) []) [] indeg'.
Proof.
  intros Ht Hnd. pose proof (preds_NoDup spec). pose proof (buildTopology_NoDup _ _ Ht Hnd).
  pose proof (topology_edges _ _ Ht Hnd). eapply kahn_run; try done; [by apply kahn_start|].
  unfold nodeIds. rewrite length_fmap. simpl. lia.
Qed.

(** The order exists exactly when the dependencies are known and acyclic; it
    has every node once, each after what it depends on. *)
Lemma topologicalOrder_Ok spec order :
  NoDup (nodeIds spec) -> topologicalOrder spec = Ok order ->
  closed spec /\ order ≡ₚ nodeIds spec /\ topological (preds spec) order.
Proof.
  intros Hnd. unfold topologicalOrder. destruct (buildTopology spec) as [t|] eqn:Et; [|done].
  assert (closed spec) as Hcl by (apply buildTopology_Ok; eauto).
  destruct (run_to_end spec t Et Hnd) as (indeg' & Hinv). revert Hinv.
  generalize (kahn t (S (length (s_nodes spec)))
    (filter (fun id => default 0%Z (indegree t !! id) = 0%Z) (nodeIds spec)) (indegree t) []).
  intros o [Hnd' Hin _ _ Htop]. rewrite app_nil_r in Hnd', Hin.
  destruct (length o =? _)%nat eqn:El; [|by destruct (detectCycle spec)]. intros [= <-].
  apply Nat.eqb_eq in El. split_and!; [done| |done].
  apply submseteq_length_Permutation; [by apply NoDup_submseteq|].
  unfold nodeIds. rewrite length_fmap. lia.
Qed.

Lemma topologicalOrder_total spec :
  NoDup (nodeIds spec) -> closed spec -> acyclic (depends spec) ->
  exists order, topologicalOrder spec = Ok order.
Proof.
  intros Hnd Hcl [rank Hrank]. unfold topologicalOrder.
  destruct (buildTopology spec) as [t|e] eqn:Et.
  2: { apply buildTopology_Ok in Hcl as [t Ht]. congruence. }
  destruct (run_to_end spec t Et Hnd) as (indeg' & Hinv).
  apply kahn_complete in Hinv; [|done|..].
  - apply Permutation_length in Hinv. unfold nodeIds in Hinv at 2. rewrite length_fmap in Hinv.
    rewrite Hinv, Nat.eqb_refl. eauto.
  - intros a k Hk Ha. rewrite elem_of_preds in Ha by done. exact (proj1 (depends_nodeIds _ _ _ Hcl Ha)).
  - exists rank. intros a b [_ Ha]. rewrite elem_of_preds in Ha by done. by apply Hrank.
Qed.

Lemma idx_before a l l' : a ∈ l -> idx a (l ++ l') < length l.
Proof.
  induction l as [|y l IH]; [set_solver|]. intros Ha. cbn [app idx length].
  destruct (y === a) eqn:E; [lia|]. apply same_false in E.
  assert (a ∈ l) as Hin by set_solver. specialize (IH Hin). lia.
Qed.

Lemma idx_mid b l l' : b ∉ l -> idx b (l ++ b :: l') = length l.
Proof.
  induction l as [|y l IH]; intros Hb; cbn [app idx length]; [by rewrite same_refl|].
  destruct (y === b) eqn:E; [apply same_true in E; set_solver|]. rewrite IH; [done|set_solver].
Qed.

(** An order in which everything follows what it depends on is a rank. *)
Lemma topological_acyclic spec order :
  NoDup (nodeIds spec) -> closed spec -> order ≡ₚ nodeIds spec -> topological (preds spec) order ->
  acyclic (depends spec).
Proof.
  intros Hnd Hcl Hp Ht. exists (fun x => idx x order). intros a b Hd.
  assert (b ∈ order) as Hb by (rewrite Hp; by eapply depends_nodeIds).
  apply list_elem_of_split in Hb as (before & after & E).
  assert (a ∈ before) as Ha by (eapply Ht; [done|by apply elem_of_preds]).
  assert (NoDup order) as Hno by by rewrite Hp.
  rewrite E in Hno |- *. apply NoDup_app in Hno as (_ & Hdis & _).
  rewrite idx_mid by (intros Hb; apply (Hdis b Hb); left). by apply idx_before.
Qed.

(** ** Normal forms *)

Lemma dedup_deps_ids seen deps : depId <$> dedup_deps seen deps = dedup_from seen (depId <$> deps).
Proof.
  revert seen. induction deps as [|d deps IH]; intros seen; [done|].
  cbn [dedup_deps fmap list_fmap dedup_from]. fold (depId <$> deps).
  destruct (includes seen (depId d)); [by rewrite <- IH|]. cbn [fmap list_fmap]. f_equal. by rewrite <- IH.
Qed.

Definition normal_node (n : WorkflowNodeSpec) : WorkflowNodeSpec := with_deps (dedup_deps [] (n_dependsOn n)) n.

Lemma collect_nodes_spec nodes : forall seen,
  (NoDup (n_id <$> nodes) /\ (forall x, x ∈ seen -> x ∉ n_id <$> nodes) /\
   collect_nodes seen nodes = Ok (map normal_node nodes)) \/
  ((~ NoDup (n_id <$> nodes) \/ exists x, x ∈ seen /\ x ∈ n_id <$> nodes) /\
   exists id, collect_nodes seen nodes = Throw (duplicate_node id)).
Proof.
  induction nodes as [|n nodes IH]; intros seen; cbn [collect_nodes fmap list_fmap].
  { left. split_and!; [constructor|set_solver|done]. }
  destruct (includes seen (n_id n)) eqn:E.
  { apply includes_true in E. right. split; [right; exists (n_id n); set_solver|eauto]. }
  apply includes_false in E. destruct (IH (n_id n :: seen)) as [(H1 & H2 & ->)|(H & id & ->)].
  - left. split_and!; [|set_solver|done]. constructor; [apply H2; left|done].
  - right. split; [|by exists id]. destruct H as [H|(x & Hx & Hin)].
    + left. by intros [_ ?]%NoDup_cons.
    + apply elem_of_cons in Hx as [->|Hx]; [left; by intros [? _]%NoDup_cons|right; exists x; set_solver].
Qed.

Lemma normal_ids nodes : n_id <$> map normal_node nodes = n_id <$> nodes.
Proof. induction nodes as [|n nodes IH]; [done|]. cbn. by f_equal. Qed.

Lemma normal_depIds n : depIds (normal_node n) = dedup_from [] (depIds n).
Proof. unfold depIds, normal_node. cbn. apply dedup_deps_ids. Qed.

Lemma normal_depends spec a b :
  depends (with_nodes (map normal_node (s_nodes spec)) spec) a b <-> depends spec a b.
Proof.
  unfold depends. cbn [with_nodes s_nodes]. split.
  - intros (n & (m & -> & Hm)%list_elem_of_fmap & <- & Ha). exists m. split_and!; [done|done|].
    rewrite normal_depIds in Ha. by apply elem_of_dedup_from in Ha as [? _].
  - intros (m & Hm & <- & Ha). exists (normal_node m). split_and!; [by apply list_elem_of_fmap_2|done|].
    rewrite normal_depIds. apply elem_of_dedup_from. split; [done|apply not_elem_of_nil].
Qed.

Lemma index_fold id l : forall k m,
  NoDup l ->
  jget id (fold_left (fun m '(i, x) => jset x (Z.of_nat i) m) (zip (seq k (length l)) l) m)
  = if bool_decide (id ∈ l) then Some (Z.of_nat (k + idx id l)) else jget id m.
Proof.
  induction l as [|y l IH]; intros k m Hnd; [done|]. apply NoDup_cons in Hnd as [Hy Hnd].
  cbn [length seq zip zip_with fold_left]. rewrite IH by done. cbn [idx].
  destruct (decide (id = y)) as [->|Hne].
  - rewrite bool_decide_eq_false_2, bool_decide_eq_true_2, same_refl, jget_jset_eq by set_solver.
    by rewrite Nat.add_0_r.
  - rewrite (proj2 (same_neq y id)) by congruence.
    replace (bool_decide (id ∈ y :: l)) with (bool_decide (id ∈ l)) by (apply bool_decide_ext; set_solver).
    rewrite jget_jset_ne by congruence. by rewrite Nat.add_succ_comm.
Qed.

Lemma order_index_idx ordered id :
  NoDup ordered -> id ∈ ordered -> order_index ordered id = Z.of_nat (idx id ordered).
Proof. intros Hnd Hin. unfold order_index. rewrite index_fold by done. by rewrite bool_decide_eq_true_2. Qed.

(** Every node comes after the nodes it depends on. *)
Definition in_order (nodes : list WorkflowNodeSpec) : Prop :=
  forall before n after, nodes = before ++ n :: after ->
  forall a, a ∈ depIds n -> a ∈ n_id <$> before.

Lemma sorted_in_order spec ordered :
  NoDup (nodeIds spec) -> closed spec -> ordered ≡ₚ nodeIds spec -> topological (preds spec) ordered ->
  in_order (jsort (fun a b => (order_index ordered (n_id a) <? order_index ordered (n_id b))%Z) (s_nodes spec)).
Proof.
  intros Hnd Hcl Hp Ht before n after E a Ha.
  set (before_ := fun a b : WorkflowNodeSpec => _) in E.
  assert (StronglySorted (fun x y => (order_index ordered (n_id x) <= order_index ordered (n_id y))%Z)
            (jsort before_ (s_nodes spec))) as Hs.
  { apply jsort_sorted; unfold before_; [lia..|]. intros x y z ? ?. lia. }
  pose proof (jsort_perm before_ (s_nodes spec)) as Hperm. rewrite E in Hs, Hperm.
  assert (n ∈ s_nodes spec) as Hn by (rewrite <- Hperm; set_solver).
  assert (depends spec a (n_id n)) as Hd by (exists n; done).
  destruct (depends_nodeIds _ _ _ Hcl Hd) as [Ha' Hb'].
  assert (NoDup ordered) as Hno by by rewrite Hp.
  assert (order_index ordered a < order_index ordered (n_id n))%Z as Hlt.
  { rewrite !order_index_idx by (done || by rewrite Hp).
    assert (n_id n ∈ ordered) as Hbo by by rewrite Hp.
    apply list_elem_of_split in Hbo as (b1 & b2 & Eo).
    assert (a ∈ b1) as Ha1 by (eapply Ht; [done|by apply elem_of_preds]).
    rewrite Eo in Hno |- *. apply NoDup_app in Hno as (_ & Hdis & _).
    rewrite idx_mid by (intros Hb; apply (Hdis _ Hb); left). pose proof (idx_before a b1 (n_id n :: b2) Ha1). lia. }
  apply list_elem_of_fmap in Ha' as (m & -> & Hm).
  rewrite <- Hperm in Hm. apply elem_of_app in Hm as [Hm|Hm]; [by apply list_elem_of_fmap_2|].
  exfalso. assert (Forall (fun y => (order_index ordered (n_id n) <= order_index ordered (n_id y))%Z) (n :: after)) as Hall.
  { clear -Hs. induction before as [|x l IH]; simpl in Hs; apply StronglySorted_inv in Hs as [Hs Hf].
    - constructor; [lia|done].
    - by apply IH. }
  rewrite Forall_forall in Hall. specialize (Hall m Hm). lia.
Qed.

Lemma normal_form_holds spec :
  match normalizeSpec spec with
  | Ok spec' =>
      NoDup (nodeIds spec) /\ closed spec /\ acyclic (depends spec) /\
      s_nodes spec' ≡ₚ map (fun n => with_deps (dedup_deps [] (n_dependsOn n)) n) (s_nodes spec) /\
      (forall n, n ∈ s_nodes spec' -> NoDup (depIds n)) /\
      in_order (s_nodes spec') /\
      spec' = with_nodes (s_nodes spec') spec
  | Throw _ => ~ (NoDup (nodeIds spec) /\ closed spec /\ acyclic (depends spec))
  end.
Proof.
  unfold normalizeSpec. destruct (collect_nodes_spec (s_nodes spec) []) as [(Hnd & _ & ->)|(Hbad & id & ->)].
  2: { cbn. intros (Hnd & _). destruct Hbad as [Hbad|(x & Hx & _)]; [done|set_solver]. }
  cbn [mbind res_bind]. set (nspec := with_nodes (map normal_node (s_nodes spec)) spec).
  assert (nodeIds nspec = nodeIds spec) as Hids by apply normal_ids.
  assert (NoDup (nodeIds nspec)) as Hnd' by by rewrite Hids.
  assert (closed nspec <-> closed spec) as Hcl.
  { unfold closed. rewrite Hids. split; intros H n a Hn Ha.
    - apply (H (normal_node n)); [by apply list_elem_of_fmap_2|].
      rewrite normal_depIds. apply elem_of_dedup_from. split; [done|apply not_elem_of_nil].
    - apply list_elem_of_fmap in Hn as (m & -> & Hm). rewrite normal_depIds in Ha.
      apply elem_of_dedup_from in Ha as [Ha _]. by eapply H. }
  assert (acyclic (depends nspec) <-> acyclic (depends spec)) as Hac.
  { unfold acyclic, nspec. by setoid_rewrite normal_depends. }
  destruct (topologicalOrder nspec) as [ordered|e] eqn:Eo.
  - apply topologicalOrder_Ok in Eo as (Hc & Hp & Ht); [|done].
    split_and!; [done|by apply Hcl| | | | |done].
    + apply Hac. by eapply topological_acyclic.
    + apply jsort_perm.
    + intros n Hn. cbn [with_nodes s_nodes] in Hn. rewrite (jsort_perm _ _) in Hn.
      apply list_elem_of_fmap in Hn as (m & -> & Hm). rewrite normal_depIds. apply NoDup_dedup_from.
    + by apply (sorted_in_order nspec).
  - intros (_ & Hc & Ha). destruct (topologicalOrder_total nspec) as [o Ho]; [done|by apply Hcl|by apply Hac|].
    congruence.
Qed.

(** C38: The normal form of a graph: it exists exactly when node ids are
    distinct, dependencies are known and there is no cycle; it has the nodes of
    the graph, each dependency kept once, in an order in which every node comes
    after all it depends on; nothing else changes. *)
Theorem normal_form spec :
  match normalizeSpec spec with
  | Ok spec' =>
      NoDup (nodeIds spec) /\ closed spec /\ acyclic (depends spec) /\
      s_nodes spec' ≡ₚ map (fun n => with_deps (dedup_deps [] (n_dependsOn n)) n) (s_nodes spec) /\
      (forall n, n ∈ s_nodes spec' -> NoDup (depIds n)) /\
      in_order (s_nodes spec') /\
      spec' = with_nodes (s_nodes spec') spec
  | Throw _ => ~ (NoDup (nodeIds spec) /\ closed spec /\ acyclic (depends spec))
  end.
Proof. apply normal_form_holds. Qed.

(** ** What the read-only compilers emit *)

(** The handlers plans, templates and snapshots are compiled to. *)
Definition READERS : list string :=
  ["tool.read_file"; "tool.find_symbol"; "tool.find_references"; "tool.project_structure";
   "tool.git_diff"; "tool.git_status"; "reduce.merge_diagnostics"].

Definition reader_node (n : WorkflowNodeSpec) : Prop :=
  n_handler n ∈ READERS /\ exists fields, n_input n = JObj fields.

Ltac reader := split; [cbn; repeat ((left; done) || right)|cbn; eauto].
Ltac readers := repeat (apply Forall_cons_2; [reader|]); try apply Forall_nil_2.

Lemma snapshot_nodes_Ok nodes : forall out,
  snapshot_nodes nodes = Ok out ->
  Forall reader_node out /\ Forall (fun n => n_dependsOn n = []) out /\
  n_id <$> out = sn_id <$> filter (fun n => sn_kind n = k_tool) nodes.
Proof.
  induction nodes as [|n nodes IH]; intros out; cbn [snapshot_nodes]; [by intros [= <-]|].
  destruct (sn_kind n === k_tool) eqn:Ek; reflect; cbn [negb].
  - rewrite filter_cons_True by done. destruct (jget (sn_name n) READONLY_HANDLERS) as [h|] eqn:Eh; [|done].
    rewrite res_bind_Ok. intros (rest & Hrest & [= <-]). apply IH in Hrest as (H1 & H2 & H3).
    split_and!; [|by constructor|by cbn; f_equal]. constructor; [|done]. split; [|cbn; eauto].
    apply jget_elem in Eh. cbn. unfold READONLY_HANDLERS in Eh. rewrite !elem_of_cons in Eh.
    unfold READERS. set_solver.
  - rewrite filter_cons_False by done. apply IH.
Qed.

Lemma inferHandler_reader intent title h : inferHandler intent title = Some h -> h ∈ READERS.
Proof.
  unfold inferHandler. cbv zeta.
  repeat match goal with |- context [if ?b then _ else _] => destruct b end; intros [= <-];
    cbn; repeat ((left; done) || right).
Qed.

Lemma packet_handler_reader packet title :
  (packet_handler packet title).1 ∈ READERS /\ exists fs, (packet_handler packet title).2 = JObj fs.
Proof.
  unfold packet_handler. cbv zeta.
  repeat match goal with |- context [if ?b then _ else _] => destruct b end; reader.
Qed.

Lemma compile_plan_nodes_Ok intent nodes : forall out,
  compile_plan_nodes intent nodes = Ok out ->
  Forall reader_node out /\ length out = length nodes.
Proof.
  induction nodes as [|n nodes IH]; intros out; cbn [compile_plan_nodes]; [by intros [= <-]|].
  rewrite res_bind_Ok. intros (m & Hm & (rest & Hrest & [= <-])%res_bind_Ok).
  apply IH in Hrest as [H1 H2]. split; [|cbn; by rewrite H2]. constructor; [|done].
  unfold compile_plan_node in Hm. apply res_bind_Ok in Hm as ([h i] & Hh & [= <-]).
  destruct (pn_packet n) as [packet|].
  - injection Hh as Hh. pose proof (packet_handler_reader packet (pn_title n)) as [? ?].
    rewrite Hh in *. done.
  - destruct (inferHandler intent (pn_title n)) eqn:E; [|done]. injection Hh as <- <-.
    split; [by eapply inferHandler_reader|cbn; eauto].
Qed.

Lemma file_nodes_readers sha256 dep files : Forall reader_node (file_nodes sha256 dep files).
Proof. unfold file_nodes. apply Forall_fmap, Forall_true. intros file. reader. Qed.

Lemma length_file_nodes sha256 dep files : length (file_nodes sha256 dep files) = length files.
Proof. apply length_map. Qed.

Lemma template_readers sha256 t i :
  Forall reader_node (template_build sha256 t i) /\ 1 <= length (template_build sha256 t i) <= 11.
Proof.
  set (files := take MAX_FANOUT (default [] (ti_files i))).
  assert (length files <= 8) as Hf by (unfold files; rewrite length_take; unfold MAX_FANOUT; lia).
  destruct t; unfold template_build; fold files; cbv zeta; clearbody files.
  - split; [readers|cbn; lia].
  - rewrite !length_app, !Forall_app. destruct files as [|f files'] eqn:Ef.
    + rewrite length_map, length_seqZ. split; [|unfold MAX_FANOUT; cbn [length]; lia].
      split_and!; [readers| |readers].
      apply Forall_fmap, Forall_true. intros k. reader.
    + rewrite length_file_nodes. subst; split; [|cbn [length] in *; lia].
      split_and!; [readers|apply file_nodes_readers|readers].
  - rewrite !length_app, !Forall_app, length_file_nodes.
    assert (Forall reader_node match ti_query i with
      | Some q => if q === "" then [] else
          [plain_node "t:sym" "tool.find_symbol" (JObj [("query", JStr q); ("path", j_text (ti_path i))]) []]
      | None => [] end /\
      length match ti_query i with
      | Some q => if q === "" then [] else
          [plain_node "t:sym" "tool.find_symbol" (JObj [("query", JStr q); ("path", j_text (ti_path i))]) []]
      | None => [] end <= 1) as [Hq Hl].
    { destruct (ti_query i) as [q|]; [|cbn; split; [constructor|lia]].
      destruct (q === ""); cbn; split; try lia; [constructor|]. readers. }
    split; [|cbn [length]; lia].
    split_and!; [readers|done|apply file_nodes_readers].
Qed.

Definition readers_known (ctx : ValidationContext) : Prop :=
  (forall h, h ∈ READERS -> h ∈ knownHandlers ctx /\ h ∈ readonlyHandlers ctx) /\ handlerInputKind ctx = None.

Lemma reader_spec_valid ctx spec :
  readers_known ctx -> Forall reader_node (s_nodes spec) -> dag_ok spec ->
  length (s_nodes spec) <= 200 -> s_maxParallel spec = None -> valid_spec spec ctx.
Proof.
  intros [Hctx Hk] Hr Hdag Hlen Hp. rewrite Forall_forall in Hr. split_and!; [done|done|by rewrite Hp| | |].
  - intros n Hn. apply Hctx, Hr, Hn.
  - intros _ n Hn. apply Hctx, Hr, Hn.
  - intros n Hn. rewrite Hk. destruct (Hr n Hn) as [_ [fs E]]. unfold input_ok.
    rewrite E. cbn [default from_option id]. by rewrite lookup_empty.
Qed.

Lemma normalized_readers id nodes spec :
  normalizeSpec (plain_spec id None nodes) = Ok spec ->
  Forall reader_node nodes -> 1 <= length nodes ->
  Forall reader_node (s_nodes spec) /\ dag_ok spec /\ length (s_nodes spec) = length nodes /\
  s_maxParallel spec = None.
Proof.
  intros H Hr Hlen. pose proof (normal_form_holds (plain_spec id None nodes)) as Hn. rewrite H in Hn.
  destruct Hn as (Hnd & Hcl & Hac & Hp & _ & _ & ->). cbn [with_nodes s_nodes s_maxParallel plain_spec] in *.
  set (out := s_nodes spec) in *. clearbody out.
  assert (length out = length nodes) as Hl by by rewrite Hp, length_map.
  assert (Forall reader_node out) as Hro.
  { rewrite Hp. apply Forall_fmap. eapply Forall_impl; [exact Hr|]. by intros n [? ?]. }
  split_and!; [done| |done|done]. unfold dag_ok.
  assert (n_id <$> out ≡ₚ n_id <$> nodes) as Hids.
  { etrans; [exact (fmap_Permutation n_id _ _ Hp)|]. by rewrite <- (normal_ids nodes). }
  assert (forall a b, depends (with_nodes out (plain_spec id None nodes)) a b
                      -> depends (plain_spec id None nodes) a b) as Hdep.
  { intros a b (n & Hn & <- & Ha). cbn [with_nodes s_nodes] in Hn. rewrite Hp in Hn.
    apply normal_depends. exists n. done. }
  split_and!.
  - cbn. destruct out; [cbn in Hl; lia|done].
  - unfold nodeIds in *. cbn [with_nodes s_nodes plain_spec] in *. by rewrite Hids.
  - intros n a Hn Ha. unfold nodeIds. cbn [with_nodes s_nodes] in *. rewrite Hids.
    destruct (depends_nodeIds (plain_spec id None nodes) a (n_id n)) as [? _]; [done| |done].
    apply Hdep. exists n. done.
  - destruct Hac as [rank Hrank]. exists rank. intros a b Hd. by apply Hrank, Hdep.
Qed.

(** The tool nodes of a snapshot. *)
Definition tool_nodes (nodes : list SnapshotNode) : list SnapshotNode :=
  filter (fun n => sn_kind n = k_tool) nodes.

(** C39: What is compiled for the read-only scheduler only reads: every graph
    compiled from a plan, a template or a snapshot passes the spec validation of
    any registry that knows the seven reading handlers as readers; a plan needs
    at most two hundred nodes and one, a snapshot distinct ids besides. *)
Theorem compiled_readers_valid sha256 ctx spec
    (Hctx : readers_known ctx)
    (Hcompiled :
       (exists id input, buildTemplate sha256 id input = Ok spec) \/
       (exists plan, compileMasterPlan sha256 plan = Ok spec /\ 1 <= length (pl_nodes plan) <= 200) \/
       (exists nodes id, compileFromSnapshot nodes id = Ok spec /\
          NoDup (sn_id <$> tool_nodes nodes) /\ 1 <= length (tool_nodes nodes) <= 200)) :
  (validateSpec spec ctx).1 = true /\ Forall (fun n => n_handler n ∈ READERS) (s_nodes spec).
Proof.
  assert (Forall reader_node (s_nodes spec) /\ dag_ok spec /\ length (s_nodes spec) <= 200 /\
          s_maxParallel spec = None) as (Hr & Hdag & Hlen & Hp).
  { destruct Hcompiled as [(id & i & H)|[(plan & H & Hl)|(nodes & id & H & Hnd & Hl)]].
    - unfold buildTemplate in H. destruct (find _ _) as [t|]; [|done].
      pose proof (template_readers sha256 t i) as [Hr Hl].
      apply normalized_readers in H as (? & ? & El & ?); [|done|lia]. split_and!; try done. lia.
    - unfold compileMasterPlan in H. apply res_bind_Ok in H as (nodes & Hn & H).
      apply compile_plan_nodes_Ok in Hn as [Hr Hl'].
      apply normalized_readers in H as (? & ? & El & ?); [|done|lia]. split_and!; try done. lia.
    - unfold compileFromSnapshot in H. apply res_bind_Ok in H as (out & Ho & [= <-]).
      apply snapshot_nodes_Ok in Ho as (Hr & Hdeps & Hids). cbn [plain_spec s_nodes s_maxParallel].
      assert (length out = length (tool_nodes nodes)) as El
        by (rewrite <- (length_fmap n_id out), Hids, length_fmap; done).
      rewrite Forall_forall in Hdeps.
      assert (forall n a, n ∈ out -> a ∉ depIds n) as Hno
        by (intros n a Hn; unfold depIds; rewrite (Hdeps n Hn); apply not_elem_of_nil).
      split_and!; [done| |lia|done]. split_and!.
      + cbn. destruct out; [cbn in El; lia|done].
      + unfold nodeIds. cbn. rewrite Hids. done.
      + intros n a Hn Ha. by destruct (Hno n a Hn).
      + exists (fun _ => 0). intros a b (n & Hn & _ & Ha). by destruct (Hno n a Hn). }
  split; [by apply validateSpec_valid, reader_spec_valid|].
  eapply Forall_impl; [exact Hr|]. by intros n [? _].
Qed.

(** ** Graphs compiled *)

Definition demo_context : ValidationContext :=
  mkValidationContext (list_to_set READERS) (list_to_set READERS) None.
Definition demo_input (files : list string) : TemplateInput :=
  mkTemplateInput (Some "src") (Some "main") None (Some files).
Definition demo_template (id : string) (files : list string) : res CompileGraphError WorkflowSpec :=
  buildTemplate (fun t => t) id (demo_input files).
Definition ids_of (r : res CompileGraphError WorkflowSpec) : option (list (string * list string)) :=
  match r with Ok s => Some (map (fun n => (n_id n, depIds n)) (s_nodes s)) | Throw _ => None end.

Lemma demo_context_known : readers_known demo_context.
Proof. split; [|done]. intros h Hh. unfold READERS in Hh. cbn. set_solver. Qed.

Lemma compiled_readers_valid_witness :
  exists spec, demo_template "code_explain" [] = Ok spec /\ (validateSpec spec demo_context).1 = true.
Proof.
  destruct (demo_template "code_explain" []) as [spec|e] eqn:E; [|exfalso; vm_compute in E; discriminate E].
  exists spec. split; [reflexivity|].
  refine (proj1 (compiled_readers_valid (fun t => t) demo_context spec demo_context_known _)).
  left. exists "code_explain", (demo_input []). exact E.
Defined.

(** A file listed twice gives two nodes the same id, and the template is
    refused. *)
Lemma same_file_twice_refused :
  demo_template "research_report" ["a.ts"; "a.ts"]
  = Throw (duplicate_node ("t:read:" +:+ short_hash (fun t => t) 8 (JStr "a.ts"))).
Proof. vm_compute. reflexivity. Qed.

(** The audit merges diagnostics without waiting for the files it reads: the
    merge node depends on the overview only. *)
Lemma merge_does_not_wait :
  ids_of (demo_template "security_audit" ["a.ts"])
  = Some [("t:struct", []); ("t:read:" +:+ short_hash (fun t => t) 8 (JStr "a.ts"), ["t:struct"]);
          ("t:merge", ["t:struct"])].
Proof. vm_compute. reflexivity. Qed.

(** A plan node whose own id starts with the prefix cannot be depended on: its
    dependants keep the id they name, the node gets the prefix once more. *)
Lemma prefixed_plan_id_unknown :
  compileMasterPlan (fun t => t)
    (mkPlan "g" None [mkPlanNode "plan:a" "git status" [] None None; mkPlanNode "b" "git diff" ["plan:a"] None None])
  = Throw (order_failed (OrderTopology (UnknownDependency "plan:b" "plan:a"))).
Proof. vm_compute. reflexivity. Qed.
