(* ===== verification/DynamicGraph.v ===== *)
(** Dynamic graphs: what a model writes, compiled and gated.

    Models, of [src/src/workflow], [dynamic/dynamic-schema.ts],
    [dynamic/dynamic-compiler.ts] and [dynamic/permission-gate.ts], and the
    registration of handlers ([execution/handler-registry.ts]).  [JSON.parse] is
    a parameter; the texts of issues are represented by their parts. *)
From S2P Require Import Prelude Json WorkflowTypes EdgeStore Validation GraphCompiler.

(** ** The handler registry *)

(** src/src/workflow/execution/transaction-executor.ts # WRITE_HANDLERS *)
Definition WRITE_HANDLERS : list string :=
  ["tool.apply_patch"; "tool.run_process"; "tool.run_targeted_verification"].

(** src/src/workflow/execution/handler-registry.ts # HandlerDef

    Of a handler, whether it writes; what it runs is the tool's. *)
Record HandlerDef := mkHandler { h_isWrite : bool }.

(** src/src/workflow/execution/handler-registry.ts # HandlerRegistry @29-30

    The registry's map, in insertion order. *)
Definition HandlerRegistry : Type := list (string * HandlerDef).

Inductive RegistryError := re_write_tool (tool : string) | re_not_whitelisted (handler : string) | re_readonly_tool (tool : string).

(** src/src/workflow/execution/handler-registry.ts # HandlerRegistry.registerTool *)
Definition registerTool (handlerId tool : string) (isReadonly : bool) (r : HandlerRegistry)
  : res RegistryError HandlerRegistry :=
  if negb isReadonly then Throw (re_write_tool tool) else Ok (jset handlerId (mkHandler false) r).

(** src/src/workflow/execution/handler-registry.ts # HandlerRegistry.registerWriteTool *)
Definition registerWriteTool (handlerId tool : string) (isReadonly : bool) (r : HandlerRegistry)
  : res RegistryError HandlerRegistry :=
  if negb (includes WRITE_HANDLERS handlerId) then Throw (re_not_whitelisted handlerId)
  else if isReadonly then Throw (re_readonly_tool tool)
  else Ok (jset handlerId (mkHandler true) r).

(** src/src/workflow/execution/handler-registry.ts # HandlerRegistry.register *)
Definition register_reducer (handlerId : string) (r : HandlerRegistry) : HandlerRegistry :=
  jset handlerId (mkHandler false) r.

(** src/src/workflow/execution/handler-registry.ts # HandlerRegistry.isWriteHandler *)
Definition isWriteHandler (r : HandlerRegistry) (handlerId : string) : bool :=
  match jget handlerId r with Some h => h_isWrite h | None => false end.

(** src/src/workflow/execution/handler-registry.ts # HandlerRegistry.list *)
Definition registry_list (r : HandlerRegistry) : list string := jkeys r.

(** ** What a model may write *)

(** src/src/workflow/dynamic/dynamic-schema.ts # DYNAMIC_NODE_TYPES *)
Definition DYNAMIC_NODE_TYPES : list string := ["read"; "write"; "verify"; "reduce"].

(** src/src/workflow/dynamic/dynamic-schema.ts # DynamicNodePayload *)
Record DynamicNodePayload := mkPayloadNode {
  dn_id : string; dn_type : option string; dn_handler : string; dn_input : jsval;
  dn_dependsOn : option (list string) }.

(** src/src/workflow/dynamic/dynamic-schema.ts # DynamicGraphPayload

    Its schema version is always ["0.1"]. *)
Record DynamicGraphPayload := mkPayload {
  dg_specId : string; dg_mode : option SpecMode; dg_maxParallel : option Z;
  dg_nodes : list DynamicNodePayload }.

(** The reasons for which [parseDynamicSpec] refuses. *)
Inductive ParseReason :=
| pe_json | pe_object | pe_version | pe_specId | pe_mode | pe_maxParallel | pe_nodes | pe_no_node.

(** src/src/workflow/dynamic/dynamic-schema.ts # isPlainObject *)
Definition isPlainObject (v : jsval) : bool := match v with JObj _ => true | _ => false end.

Definition as_string (v : jsval) : option string := match v with JStr s => Some s | _ => None end.

(** The body of the loop of [parseNodes]. *)
Definition parse_node (item : jsval) : option DynamicNodePayload :=
  if negb (isPlainObject item) then None
  else match field "id" item, field "handler" item with
  | JStr id, JStr handler =>
      let type := field "type" item in
      if negb (match type with JUndef => true | JStr t => includes DYNAMIC_NODE_TYPES t | _ => false end)
      then None
      else if negb (isPlainObject (field "input" item)) then None
      else match field "dependsOn" item with
           | JUndef => Some (mkPayloadNode id (as_string type) handler (field "input" item) None)
           | JArr ds => Some (mkPayloadNode id (as_string type) handler (field "input" item) (Some (omap as_string ds)))
           | _ => None
           end
  | _, _ => None
  end.

(** src/src/workflow/dynamic/dynamic-schema.ts # parseNodes *)
Definition parseNodes (value : jsval) : option (list DynamicNodePayload) :=
  match value with JArr items => mapM parse_node items | _ => None end.

Section Parse.
Context (parseJson : string -> option jsval).

(** src/src/workflow/dynamic/dynamic-schema.ts # parseDynamicSpec *)
Definition parseDynamicSpec (raw : jsval) : res ParseReason DynamicGraphPayload :=
  match match raw with JStr text => parseJson text | _ => Some raw end with
  | None => Throw pe_json
  | Some raw =>
      if negb (isPlainObject raw) then Throw pe_object
      else if negb (includes ["0.1"; "0.2"] (default "" (as_string (field "schemaVersion" raw))))
      then Throw pe_version
      else match field "specId" raw with
      | JStr specId =>
          match match field "mode" raw with
                | JUndef => Some None
                | JStr m => if m === "readonly" then Some (Some readonly)
                            else if m === "read-write" then Some (Some read_write) else None
                | _ => None
                end with
          | None => Throw pe_mode
          | Some mode =>
              match match field "maxParallel" raw with
                    | JUndef => Some None
                    | JNum n => if (n <? 1)%Z then None else Some (Some n)
                    | _ => None
                    end with
              | None => Throw pe_maxParallel
              | Some maxParallel =>
                  match parseNodes (field "nodes" raw) with
                  | None => Throw pe_nodes
                  | Some [] => Throw pe_no_node
                  | Some nodes => Ok (mkPayload specId mode maxParallel nodes)
                  end
              end
          end
      | _ => Throw pe_specId
      end
  end.

(** src/src/workflow/dynamic/dynamic-schema.ts # payloadToSpec *)
Definition payloadToSpec (p : DynamicGraphPayload) : WorkflowSpec :=
  mkSpec v0_1 (dg_specId p)
    (map (fun n => plain_node (dn_id n) (dn_handler n) (dn_input n) (default [] (dn_dependsOn n))) (dg_nodes p))
    (dg_maxParallel p) (Some (default readonly (dg_mode p))) None.

(** ** The compiler *)

(** The families of handlers by node type. *)
Definition NodeTypes : Type := list (string * list string).

(** src/src/workflow/dynamic/dynamic-compiler.ts # DEFAULT_NODE_TYPES *)
Definition DEFAULT_NODE_TYPES : NodeTypes :=
  [("read", ["tool.read_file"; "tool.find_symbol"; "tool.find_references"; "tool.project_structure";
             "tool.git_diff"; "tool.git_status"]);
   ("write", ["tool.apply_patch"; "tool.run_process"]);
   ("verify", ["tool.run_targeted_verification"]);
   ("reduce", ["reduce.noop"; "reduce.dedupe"; "reduce.merge_diagnostics"])].

(** src/src/workflow/dynamic/dynamic-compiler.ts # DynamicCompilerOptions *)
Record DynamicCompilerOptions := mkOptions {
  do_registry : HandlerRegistry; do_knownNodeTypes : option NodeTypes;
  do_maxWrites : option Z; do_autoAppendVerification : bool }.

(** src/src/workflow/dynamic/dynamic-compiler.ts # DynamicCompileIssue *)
Inductive DynamicCompileIssue :=
| di_validation (i : ValidationIssue)
| type_mismatch (node type handler : string)
| unknown_node_type (node type : string)
| too_many_writes (n limit : Z)
| missing_verification (node : string)
| parse_error (reason : ParseReason).

(** src/src/workflow/dynamic/dynamic-compiler.ts # DynamicCompileResult *)
Inductive DynamicCompileResult :=
| Compiled (spec : WorkflowSpec) (appended : list string)
| Rejected (issues : list DynamicCompileIssue).

(** src/src/workflow/dynamic/dynamic-compiler.ts # checkNodeTypes *)
Definition checkNodeTypes (p : DynamicGraphPayload) (types : NodeTypes) : list DynamicCompileIssue :=
  n ← dg_nodes p;
  match dn_type n with
  | None => []
  | Some type =>
      match jget type types with
      | None => [unknown_node_type (dn_id n) type]
      | Some family => if includes family (dn_handler n) then [] else [type_mismatch (dn_id n) type (dn_handler n)]
      end
  end.

(** [nodeTypes[type]?.includes(handler) ?? false] *)
Definition in_family (types : NodeTypes) (type handler : string) : bool :=
  match jget type types with Some family => includes family handler | None => false end.

(** src/src/workflow/dynamic/dynamic-compiler.ts # isWriteLike

    Families are compared as arrays are: a type other than [read] is another
    array, unless it is unknown. *)
Definition isWriteLike (n : DynamicNodePayload) (types : NodeTypes) : bool :=
  match dn_type n with
  | Some type => (jhas type types && negb (type === "read")) || in_family types "write" (dn_handler n)
  | None => in_family types "write" (dn_handler n)
  end.

(** src/src/workflow/dynamic/dynamic-compiler.ts # findUnverifiedWrites *)
Definition findUnverifiedWrites (spec : WorkflowSpec) (types : NodeTypes) : list string :=
  let writeIds := uniq (n_id <$> filter (fun n => in_family types "write" (n_handler n) = true) (s_nodes spec)) in
  let verified := n ← s_nodes spec;
                  if in_family types "verify" (n_handler n)
                  then filter (fun d => d ∈ writeIds) (depIds n) else [] in
  filter (fun id => id ∉ verified) writeIds.

(** src/src/workflow/dynamic/dynamic-compiler.ts # appendVerification *)
Definition appendVerification (spec : WorkflowSpec) (writeIds : list string) : WorkflowSpec :=
  with_nodes (s_nodes spec ++ [plain_node "v:verify" "tool.run_targeted_verification"
                                 (JObj [("files", JArr [])]) writeIds]) spec.

(** src/src/workflow/dynamic/dynamic-compiler.ts # validationContext *)
Definition validationContext (r : HandlerRegistry) : ValidationContext :=
  mkValidationContext (list_to_set (registry_list r))
    (list_to_set (filter (fun h => isWriteHandler r h = false) (registry_list r))) None.

(** src/src/workflow/dynamic/dynamic-compiler.ts # compileDynamicSpec *)
Definition compileDynamicSpec (raw : jsval) (options : DynamicCompilerOptions) : DynamicCompileResult :=
  match parseDynamicSpec raw with
  | Throw reason => Rejected [parse_error reason]
  | Ok payload =>
      let types := default DEFAULT_NODE_TYPES (do_knownNodeTypes options) in
      match checkNodeTypes payload types with
      | (_ :: _) as issues => Rejected issues
      | [] =>
          let writeCount := Z.of_nat (length (filter (fun n => isWriteLike n types = true) (dg_nodes payload))) in
          if match do_maxWrites options with Some limit => (limit <? writeCount)%Z | None => false end
          then Rejected [too_many_writes writeCount (default 0%Z (do_maxWrites options))]
          else
            let spec := payloadToSpec payload in
            let missingVerify := findUnverifiedWrites spec types in
            let finish := fun spec appended =>
              let '(ok, issues) := validateSpec spec (validationContext (do_registry options)) in
              if ok then Compiled spec appended else Rejected (map di_validation issues) in
            match missingVerify with
            | [] => finish spec []
            | _ =>
                if do_autoAppendVerification options then finish (appendVerification spec missingVerify) missingVerify
                else Rejected (map missing_verification missingVerify)
            end
      end
  end.
End Parse.

(** ** The gate *)

(** src/src/workflow/dynamic/permission-gate.ts # GateDecision *)
Inductive GateDecision := approved | needs_approval | rejected.

(** src/src/workflow/dynamic/permission-gate.ts # GateResult

    The rationale names the writing nodes. *)
Record GateResult := mkGateResult {
  gr_decision : GateDecision; gr_spec : option WorkflowSpec; gr_rationale : list string;
  gr_issues : list DynamicCompileIssue }.

(** src/src/workflow/dynamic/permission-gate.ts # PermissionGate @29-32 *)
Record PermissionGate := mkGate { pg_approved : bool; pg_pending : option WorkflowSpec }.
Definition newPermissionGate : PermissionGate := mkGate false None.

Section Gate.
Context (parseJson : string -> option jsval) (registry : HandlerRegistry).

(** src/src/workflow/dynamic/permission-gate.ts # PermissionGate.compile *)
Definition gate_compile (raw : jsval) : DynamicCompileResult :=
  compileDynamicSpec parseJson raw (mkOptions registry (Some DEFAULT_NODE_TYPES) None false).

Definition write_nodes (spec : WorkflowSpec) : list string :=
  n_id <$> filter (fun n => isWriteHandler registry (n_handler n) = true) (s_nodes spec).

(** src/src/workflow/dynamic/permission-gate.ts # PermissionGate.evaluate *)
Definition gate_evaluate (raw : jsval) (_ : PermissionGate) : PermissionGate * GateResult :=
  match gate_compile raw with
  | Rejected issues => (mkGate false None, mkGateResult rejected None [] issues)
  | Compiled spec _ =>
      match write_nodes spec with
      | [] => (mkGate false None, mkGateResult approved (Some spec) [] [])
      | nodes => (mkGate false (Some spec), mkGateResult needs_approval None nodes [])
      end
  end.

(** src/src/workflow/dynamic/permission-gate.ts # PermissionGate.approve *)
Definition gate_approve (g : PermissionGate) : PermissionGate * option WorkflowSpec :=
  match pg_pending g with
  | None => (g, None)
  | Some spec => (mkGate true None, Some spec)
  end.

(** The calls a gate receives, and the graph each hands out. *)
Inductive GateCall := call_evaluate (raw : jsval) | call_approve.

Definition gate_call (c : GateCall) (g : PermissionGate) : PermissionGate * option WorkflowSpec :=
  match c with
  | call_evaluate raw => let '(g, r) := gate_evaluate raw g in (g, gr_spec r)
  | call_approve => gate_approve g
  end.

Definition gate_run (calls : list GateCall) : PermissionGate :=
  fold_left (fun g c => (gate_call c g).1) calls newPermissionGate.
End Gate.

(** ** What the gate hands out *)

Section Facts.
Context (parseJson : string -> option jsval) (registry : HandlerRegistry).

(** A graph the compiler may produce: valid for the registry, and each node that
    writes is verified by another that depends on it. *)
Definition verified_writes (spec : WorkflowSpec) : Prop :=
  forall n, n ∈ s_nodes spec -> n_handler n ∈ ["tool.apply_patch"; "tool.run_process"] ->
  exists v, v ∈ s_nodes spec /\ n_handler v = "tool.run_targeted_verification" /\ n_id n ∈ depIds v.

Lemma in_family_write h :
  in_family DEFAULT_NODE_TYPES "write" h = true <-> h ∈ ["tool.apply_patch"; "tool.run_process"].
Proof. apply (includes_true ["tool.apply_patch"; "tool.run_process"]). Qed.

Lemma in_family_verify h :
  in_family DEFAULT_NODE_TYPES "verify" h = true <-> h = "tool.run_targeted_verification".
Proof. etrans; [apply (includes_true ["tool.run_targeted_verification"])|apply list_elem_of_singleton]. Qed.

Lemma no_unverified spec :
  findUnverifiedWrites spec DEFAULT_NODE_TYPES = [] <-> verified_writes spec.
Proof.
  unfold findUnverifiedWrites, verified_writes. cbv zeta. rewrite filter_nil_iff. set (ids := uniq _).
  assert (forall x, x ∈ ids <-> exists n, n ∈ s_nodes spec /\
            n_handler n ∈ ["tool.apply_patch"; "tool.run_process"] /\ n_id n = x) as Hids.
  { intros x. unfold ids. rewrite elem_of_uniq, list_elem_of_fmap. setoid_rewrite list_elem_of_filter.
    setoid_rewrite in_family_write. naive_solver. }
  clearbody ids.
  assert (forall x, x ∈ ids ->
            x ∈ (n ← s_nodes spec; if in_family DEFAULT_NODE_TYPES "verify" (n_handler n)
                                   then filter (fun d => d ∈ ids) (depIds n) else []) <->
            exists v, v ∈ s_nodes spec /\ n_handler v = "tool.run_targeted_verification" /\ x ∈ depIds v) as Hv.
  { intros x Hx. rewrite list_elem_of_bind. split.
    - intros (v & Hin & Hv). destruct (in_family _ "verify" (n_handler v)) eqn:E; [|set_solver].
      apply in_family_verify in E. apply list_elem_of_filter in Hin as [_ Hin]. eauto.
    - intros (v & Hv & E & Hd). exists v. split; [|done]. apply in_family_verify in E. rewrite E.
      by apply list_elem_of_filter. }
  split.
  - intros H n Hn Hw. assert (n_id n ∈ ids) as Hin by (apply Hids; eauto).
    apply Hv; [done|]. specialize (H _ Hin). by apply dec_stable.
  - intros H x Hx Hno. apply Hno, Hv; [done|]. apply Hids in Hx as (n & Hn & Hw & <-). by apply H.
Qed.

Lemma gate_compile_Ok raw spec appended :
  gate_compile parseJson registry raw = Compiled spec appended ->
  valid_spec spec (validationContext registry) /\ verified_writes spec.
Proof.
  unfold gate_compile, compileDynamicSpec. destruct (parseDynamicSpec parseJson raw) as [p|]; [|done].
  cbn [do_knownNodeTypes default from_option id do_maxWrites do_autoAppendVerification do_registry].
  destruct (checkNodeTypes p _); [|done].
  destruct (findUnverifiedWrites (payloadToSpec p) DEFAULT_NODE_TYPES) eqn:Ev; [|done].
  destruct (validateSpec _ _) as [ok issues] eqn:E. destruct ok; [|done]. intros [= <- <-].
  split; [|by apply no_unverified]. apply validateSpec_valid. by rewrite E.
Qed.

(** The graph a gate keeps is the one its last call compiled. *)
Lemma gate_pending calls spec :
  pg_pending (gate_run parseJson registry calls) = Some spec ->
  exists earlier raw appended, calls = earlier ++ [call_evaluate raw] /\
    gate_compile parseJson registry raw = Compiled spec appended /\ write_nodes registry spec <> [].
Proof.
  destruct (decide (calls = [])) as [->|Hne]; [done|].
  destruct (exists_last Hne) as (earlier & c & ->). unfold gate_run. rewrite fold_left_app. cbn [fold_left].
  set (g := fold_left _ earlier _). destruct c as [raw|]; cbn [gate_call].
  - unfold gate_evaluate. destruct (gate_compile parseJson registry raw) as [s a|] eqn:E; [|done].
    destruct (write_nodes registry s) eqn:Ew; [done|]. cbn. intros [= <-].
    exists earlier, raw, a. split_and!; [done|done|]. by rewrite Ew.
  - unfold gate_approve. destruct (pg_pending g) eqn:Eg; [done|]. cbn. by rewrite Eg.
Qed.

(** C40: No graph of a model's reaches the scheduler undecided: whatever was asked
    of a permission gate before, the graph a call hands out is valid for the
    registry, and each of its patches and processes is verified by a node that
    depends on it; if one of its nodes writes, the call is an approval and the
    call just before it the evaluation that compiled this very graph. *)
Theorem gate_hands_out calls call spec
    (Hout : (gate_call parseJson registry call (gate_run parseJson registry calls)).2 = Some spec) :
  valid_spec spec (validationContext registry) /\
  (forall n, n ∈ s_nodes spec -> n_handler n ∈ ["tool.apply_patch"; "tool.run_process"] ->
   exists v, v ∈ s_nodes spec /\ n_handler v = "tool.run_targeted_verification" /\ n_id n ∈ depIds v) /\
  ((exists n, n ∈ s_nodes spec /\ isWriteHandler registry (n_handler n) = true) ->
   call = call_approve /\
   exists earlier raw appended, calls = earlier ++ [call_evaluate raw] /\
     compileDynamicSpec parseJson raw (mkOptions registry (Some DEFAULT_NODE_TYPES) None false)
     = Compiled spec appended).
Proof.
  destruct call as [raw|]; cbn [gate_call] in Hout.
  - unfold gate_evaluate in Hout. destruct (gate_compile parseJson registry raw) as [s a|] eqn:E; [|done].
    destruct (write_nodes registry s) eqn:Ew; [|done]. cbn in Hout. injection Hout as <-.
    apply gate_compile_Ok in E as [Hval Hver]. split_and!; [done|done|].
    intros (n & Hn & Hw). exfalso. unfold write_nodes in Ew. apply fmap_nil_inv in Ew.
    rewrite filter_nil_iff in Ew. by apply (Ew n).
  - unfold gate_approve in Hout.
    destruct (pg_pending (gate_run parseJson registry calls)) as [s|] eqn:Eg; [|done]. injection Hout as <-.
    apply gate_pending in Eg as (earlier & raw & a & -> & E & _).
    pose proof (gate_compile_Ok _ _ _ E) as [Hval Hver]. split_and!; [done|done|].
    intros _. split; [done|]. by exists earlier, raw, a.
Qed.
End Facts.

(** ** A graph gated *)

Definition demo_registry : HandlerRegistry :=
  [("tool.read_file", mkHandler false); ("tool.apply_patch", mkHandler true);
   ("tool.run_targeted_verification", mkHandler true); ("reduce.noop", mkHandler false)].
Definition j_node (id type handler : string) (deps : list string) : jsval :=
  JObj [("id", JStr id); ("type", JStr type); ("handler", JStr handler); ("input", JObj []);
        ("dependsOn", JArr (map JStr deps))].
Definition j_graph (mode : string) (nodes : list jsval) : jsval :=
  JObj [("schemaVersion", JStr "0.2"); ("specId", JStr "g"); ("mode", JStr mode); ("nodes", JArr nodes)].
Definition demo_write : jsval :=
  j_graph "read-write" [j_node "r" "read" "tool.read_file" []; j_node "w" "write" "tool.apply_patch" ["r"];
                        j_node "v" "verify" "tool.run_targeted_verification" ["w"]].
Definition demo_read : jsval := j_graph "readonly" [j_node "r" "read" "tool.read_file" []].

Lemma gate_hands_out_witness :
  exists spec,
    (gate_call (fun _ => None) demo_registry call_approve
       (gate_run (fun _ => None) demo_registry [call_evaluate demo_read; call_evaluate demo_write])).2 = Some spec /\
    valid_spec spec (validationContext demo_registry).
Proof.
  destruct ((gate_call (fun _ => None) demo_registry call_approve
    (gate_run (fun _ => None) demo_registry [call_evaluate demo_read; call_evaluate demo_write])).2) as [spec|] eqn:E.
  2: { exfalso. vm_compute in E. discriminate E. }
  exists spec. split; [reflexivity|]. exact (proj1 (gate_hands_out (fun _ => None) demo_registry _ _ _ E)).
Defined.

(** A writing graph is not handed out by its evaluation, and once only. *)
Example write_needs_approval :
  (gate_evaluate (fun _ => None) demo_registry demo_write newPermissionGate).2
  = mkGateResult needs_approval None ["w"; "v"] [].
Proof. vm_compute. reflexivity. Qed.
Example approved_once :
  (gate_call (fun _ => None) demo_registry call_approve
     (gate_run (fun _ => None) demo_registry [call_evaluate demo_write; call_approve])).2 = None.
Proof. vm_compute. reflexivity. Qed.

(** ** Behaviours worth knowing *)

(** Reducers and verifications count as writes when they declare their type, and
    do not when they leave it out. *)
Lemma reducer_counts_as_write :
  isWriteLike (mkPayloadNode "x" (Some "reduce") "reduce.noop" (JObj []) None) DEFAULT_NODE_TYPES = true /\
  isWriteLike (mkPayloadNode "x" None "reduce.noop" (JObj []) None) DEFAULT_NODE_TYPES = false.
Proof. done. Qed.

(** A graph of version 0.2 is compiled as one of version 0.1. *)
Lemma version_downgraded raw options spec appended parseJson :
  compileDynamicSpec parseJson raw options = Compiled spec appended -> s_schemaVersion spec = v0_1.
Proof.
  unfold compileDynamicSpec. cbv zeta. intros H. repeat (case_match; try done); by simplify_eq.
Qed.

(** The verification appended has a fixed id: a graph that uses it itself is
    refused for a duplicate id it does not contain. *)
Lemma appended_id_collides :
  compileDynamicSpec (fun _ => None)
    (j_graph "read-write" [j_node "v:verify" "write" "tool.apply_patch" []])
    (mkOptions demo_registry None None true)
  = Rejected [di_validation (duplicate_node_id "v:verify");
              di_validation (cycle_detected ["v:verify"; "v:verify"])].
Proof. vm_compute. reflexivity. Qed.

(** The test-repair template leaves its first node, which runs a process,
    without verification, where the templates promise one for every writing
    node; the narrow fix keeps the promise. *)
Lemma test_repair_unverified sha256 i :
  findUnverifiedWrites (buildTestRepair sha256 i) DEFAULT_NODE_TYPES = ["t:run"] /\
  findUnverifiedWrites (buildNarrowFix sha256 i) DEFAULT_NODE_TYPES = [].
Proof.
  split.
  - unfold buildTestRepair. cbv zeta. by destruct (default [] (wt_files i)).
  - unfold buildNarrowFix. cbv zeta. by destruct (default [] (wt_files i)), (given (wt_query i)).
Qed.
