(* ===== verification/Ledger.v ===== *)
(** Resource requests and the in-process ledger.

    Models [src/src/runtime/linux/scheduler/resource-ledger.ts] over the
    request type of [src/src/runtime/linux/contracts.ts].  The capacity is
    computed from the host's processors and memory, which are parameters, and
    overridden field by field.  Amounts are integers: the authority rejects
    anything else ([Capacity.v]) and the ledger's callers pass integers. *)
From S2P Require Import Prelude.

(** src/src/runtime/linux/contracts.ts # ResourceRequest *)
Record ResourceRequest := mkRequest {
  cpuQuota : Z;
  memoryBytes : Z;
  pids : Z;
  ioWeight : Z;
  networkSlots : Z;
  tempBytes : Z;
}.

#[export] Instance request_eq_dec : EqDecision ResourceRequest.
Proof. solve_decision. Defined.

Definition zero_request : ResourceRequest := mkRequest 0 0 0 0 0 0.
(** Pointwise sum over the accounted dimensions; [ioWeight] is not accounted. *)
Definition add_request (a b : ResourceRequest) : ResourceRequest :=
  mkRequest (cpuQuota a + cpuQuota b) (memoryBytes a + memoryBytes b) (pids a + pids b) 0
            (networkSlots a + networkSlots b) (tempBytes a + tempBytes b).
Definition sub_request (a b : ResourceRequest) : ResourceRequest :=
  mkRequest (cpuQuota a - cpuQuota b) (memoryBytes a - memoryBytes b) (pids a - pids b) 0
            (networkSlots a - networkSlots b) (tempBytes a - tempBytes b).
Definition sum_requests (rs : list ResourceRequest) : ResourceRequest :=
  fold_left add_request rs zero_request.

(** The accounted dimensions of [a] are within those of [b]. *)
Definition request_le (a b : ResourceRequest) : Prop :=
  (cpuQuota a <= cpuQuota b /\ memoryBytes a <= memoryBytes b /\ pids a <= pids b /\
   networkSlots a <= networkSlots b /\ tempBytes a <= tempBytes b)%Z.
Definition request_nonneg (r : ResourceRequest) : Prop := request_le zero_request r.

(** The [over] list of a request against what is available, and of the count
    of cells against its bound. *)
Definition overruns (r avail : ResourceRequest) (cells maxCells : Z) : list string :=
  (if (cpuQuota avail <? cpuQuota r)%Z then ["cpu"] else []) ++
  (if (memoryBytes avail <? memoryBytes r)%Z then ["memory"] else []) ++
  (if (pids avail <? pids r)%Z then ["pids"] else []) ++
  (if (networkSlots avail <? networkSlots r)%Z then ["network"] else []) ++
  (if (tempBytes avail <? tempBytes r)%Z then ["temp"] else []) ++
  (if (maxCells <=? cells)%Z then ["cells"] else []).

Lemma overruns_nil r avail cells maxCells :
  overruns r avail cells maxCells = [] <-> request_le r avail /\ (cells < maxCells)%Z.
Proof.
  unfold overruns, request_le.
  destruct (cpuQuota avail <? _)%Z eqn:E1, (memoryBytes avail <? _)%Z eqn:E2, (pids avail <? _)%Z eqn:E3,
    (networkSlots avail <? _)%Z eqn:E4, (tempBytes avail <? _)%Z eqn:E5, (maxCells <=? cells)%Z eqn:E6;
    reflect; simpl; (split; [done|lia]) || (split; [lia|done]).
Qed.

Lemma add_request_assoc a b c : add_request (add_request a b) c = add_request a (add_request b c).
Proof. unfold add_request; simpl. f_equal; lia. Qed.
Lemma add_request_comm a b : add_request a b = add_request b a.
Proof. unfold add_request; simpl. f_equal; lia. Qed.

Lemma sum_requests_acc rs a :
  fold_left add_request rs (add_request a zero_request) = add_request a (sum_requests rs).
Proof.
  unfold sum_requests. revert a. induction rs as [|r rs IH]; intros a; simpl; [done|].
  replace (add_request (add_request a zero_request) r)
    with (add_request (add_request a r) zero_request) by (unfold add_request; simpl; f_equal; lia).
  rewrite IH. replace (add_request zero_request r) with (add_request r zero_request) by apply add_request_comm.
  by rewrite IH, add_request_assoc.
Qed.
Lemma sum_requests_cons r rs : sum_requests (r :: rs) = add_request r (sum_requests rs).
Proof. unfold sum_requests at 1. simpl. rewrite (add_request_comm zero_request r). apply sum_requests_acc. Qed.
Lemma sum_requests_app rs rs' :
  sum_requests (rs ++ rs') = add_request (sum_requests rs) (sum_requests rs').
Proof.
  induction rs as [|r rs IH]; cbn [app].
  - destruct rs' as [|r' rs']; [done|]. rewrite sum_requests_cons.
    unfold add_request. simpl. f_equal; lia.
  - by rewrite !sum_requests_cons, IH, add_request_assoc.
Qed.
#[export] Instance sum_requests_proper : Proper ((≡ₚ) ==> eq) sum_requests.
Proof.
  induction 1 as [|r rs rs' _ IH|r r' rs|rs1 rs2 rs3 _ IH1 _ IH2]; rewrite ?sum_requests_cons; [done| | |].
  - by rewrite IH.
  - by rewrite <- !add_request_assoc, (add_request_comm r').
  - by rewrite IH1.
Qed.
Lemma sum_requests_nonneg rs : Forall request_nonneg rs -> request_nonneg (sum_requests rs).
Proof.
  induction 1 as [|r rs Hr _ IH]; [done|]. rewrite sum_requests_cons.
  unfold request_nonneg, request_le in *. simpl in *. lia.
Qed.
(** Dropping requests cannot raise the sum. *)
Lemma sum_requests_sublist rs rs' :
  sublist rs rs' -> Forall request_nonneg rs' -> request_le (sum_requests rs) (sum_requests rs').
Proof.
  induction 1 as [|r rs rs' _ IH|r rs rs' _ IH]; intros Hn; [done| |].
  - apply Forall_cons in Hn as [Hr Hn]. rewrite !sum_requests_cons. specialize (IH Hn).
    unfold request_le in *. simpl in *. lia.
  - apply Forall_cons in Hn as [Hr Hn]. rewrite !sum_requests_cons. specialize (IH Hn).
    unfold request_nonneg, request_le in *. simpl in *. lia.
Qed.

(** ** The ledger *)

(** src/src/runtime/linux/contracts.ts # ResourceReservation *)
Record ResourceReservation := mkReservation {
  rv_reservationId : string;
  rv_runId : string;
  rv_agentId : option string;
  rv_cellId : string;
  rv_requested : ResourceRequest;
  rv_granted : ResourceRequest;
  rv_createdAt : Z;
}.

(** src/src/runtime/linux/scheduler/resource-ledger.ts # HostReserve *)
Record HostReserve := mkHostReserve { hr_cpuQuota : Z; hr_memoryBytes : Z }.

(** src/src/runtime/linux/scheduler/resource-ledger.ts # defaultHostReserve

    [Math.floor(x * 0.15)] and [Math.floor(x * 0.2)] of the exact product. *)
Definition defaultHostReserve (cpuCount totalmem : Z) : HostReserve :=
  mkHostReserve (Z.max 1 (Z.max 1 cpuCount * 15 / 100))
                (Z.max (1024 * 1024 * 1024) (Z.max 1 totalmem * 20 / 100)).

(** src/src/runtime/linux/scheduler/resource-ledger.ts # cpuQuotaFromCores *)
Definition cpuQuotaFromCores (cores : Z) : Z := (cores * 1000)%Z.

(** src/src/runtime/linux/scheduler/resource-ledger.ts # LedgerCapacity

    The capacity vector and the bound on concurrent cells. *)
Record LedgerCapacity := mkCapacity { lc_amounts : ResourceRequest; lc_concurrentCells : Z }.

(** src/src/runtime/linux/scheduler/resource-ledger.ts # ResourceLedger @47-50 *)
Record ResourceLedger := mkLedger {
  rl_capacity : LedgerCapacity;
  rl_reserved : list (string * ResourceReservation);
}.

(** src/src/runtime/linux/scheduler/resource-ledger.ts # ResourceLedger.constructor

    Without overrides. *)
Definition newResourceLedger (cpuCount totalmem : Z) (maxConcurrentCells : option Z) : ResourceLedger :=
  let reserve := defaultHostReserve cpuCount totalmem in
  mkLedger (mkCapacity
    (mkRequest (cpuQuotaFromCores (Z.max 1 (Z.max 1 cpuCount - hr_cpuQuota reserve)))
               (Z.max 0 (Z.max 1 totalmem - hr_memoryBytes reserve)) 32768 0 4 (10 * 1024 * 1024 * 1024))
    (default 6%Z maxConcurrentCells)) [].

(** src/src/runtime/linux/scheduler/resource-ledger.ts # ResourceLedger.used *)
Definition ledger_used (l : ResourceLedger) : ResourceRequest :=
  sum_requests (rv_granted <$> jvalues (rl_reserved l)).

(** src/src/runtime/linux/scheduler/resource-ledger.ts # ResourceLedger.available *)
Definition ledger_available (l : ResourceLedger) : ResourceRequest :=
  sub_request (lc_amounts (rl_capacity l)) (ledger_used l).

(** src/src/runtime/linux/scheduler/resource-ledger.ts # ResourceLedger.reserve

    [fresh] is the generated reservation id. *)
Definition ledger_reserve (fresh : string) (now : Z) (request : ResourceRequest) (runId cellId : string)
    (agentId : option string) (l : ResourceLedger) : (list string + ResourceReservation) * ResourceLedger :=
  match overruns request (ledger_available l) (Z.of_nat (length (rl_reserved l)))
          (lc_concurrentCells (rl_capacity l)) with
  | [] =>
      let reservation := mkReservation fresh runId agentId cellId request request now in
      (inr reservation, mkLedger (rl_capacity l) (jset fresh reservation (rl_reserved l)))
  | over => (inl over, l)
  end.

(** src/src/runtime/linux/scheduler/resource-ledger.ts # ResourceLedger.release *)
Definition ledger_release (reservationId : string) (l : ResourceLedger) : bool * ResourceLedger :=
  (jhas reservationId (rl_reserved l), mkLedger (rl_capacity l) (jdelete reservationId (rl_reserved l))).

Definition drop_where (p : ResourceReservation -> bool) (l : ResourceLedger) : Z * ResourceLedger :=
  let kept := filter (fun kv => p kv.2 = false) (rl_reserved l) in
  (Z.of_nat (length (rl_reserved l) - length kept), mkLedger (rl_capacity l) kept).

(** src/src/runtime/linux/scheduler/resource-ledger.ts # ResourceLedger.releaseRun *)
Definition ledger_releaseRun (runId : string) (l : ResourceLedger) : Z * ResourceLedger :=
  drop_where (fun r => rv_runId r === runId) l.

(** src/src/runtime/linux/scheduler/resource-ledger.ts # ResourceLedger.releaseAgent *)
Definition ledger_releaseAgent (agentId : string) (l : ResourceLedger) : Z * ResourceLedger :=
  drop_where (fun r => rv_agentId r === Some agentId) l.

Inductive LedgerOp :=
| lg_reserve (fresh : string) (now : Z) (request : ResourceRequest) (runId cellId : string) (agentId : option string)
| lg_release (reservationId : string)
| lg_releaseRun (runId : string)
| lg_releaseAgent (agentId : string).

Definition apply_ledger_op (l : ResourceLedger) (op : LedgerOp) : ResourceLedger :=
  match op with
  | lg_reserve f n r run cell agent => (ledger_reserve f n r run cell agent l).2
  | lg_release id => (ledger_release id l).2
  | lg_releaseRun run => (ledger_releaseRun run l).2
  | lg_releaseAgent agent => (ledger_releaseAgent agent l).2
  end.

(** Requests with non-negative amounts, under ids not in use. *)
Definition ledger_op_ok (l : ResourceLedger) (op : LedgerOp) : Prop :=
  match op with
  | lg_reserve f _ r _ _ _ => request_nonneg r /\ f ∉ jkeys (rl_reserved l)
  | _ => True
  end.

Definition ledger_inv (l : ResourceLedger) : Prop :=
  Forall (fun kv => request_nonneg (rv_granted kv.2)) (rl_reserved l) /\
  request_le (ledger_used l) (lc_amounts (rl_capacity l)) /\
  (Z.of_nat (length (rl_reserved l)) <= lc_concurrentCells (rl_capacity l))%Z.

Lemma request_le_trans a b c : request_le a b -> request_le b c -> request_le a c.
Proof. unfold request_le. lia. Qed.

(** Keeping a sublist of the reservations keeps the invariant. *)
Lemma ledger_inv_sublist l kept :
  ledger_inv l -> sublist kept (rl_reserved l) -> ledger_inv (mkLedger (rl_capacity l) kept).
Proof.
  intros (Hn & Hu & Hc) Hs. assert (Forall (fun kv => request_nonneg (rv_granted kv.2)) kept) as Hk.
  { apply Forall_forall. intros x Hx. rewrite Forall_forall in Hn. apply Hn.
    by eapply elem_of_sublist. }
  split_and!; simpl; [done| |].
  - eapply request_le_trans; [|exact Hu]. apply sum_requests_sublist.
    + unfold jvalues. by apply fmap_sublist, fmap_sublist.
    + unfold jvalues. rewrite !Forall_fmap. exact Hn.
  - apply sublist_length in Hs. lia.
Qed.

Lemma jdelete_sublist {K V} `{EqDecision K} (k : K) (m : list (K * V)) : sublist (jdelete k m) m.
Proof.
  induction m as [|[k' v] m IH]; simpl; [done|].
  case_match; [by apply sublist_cons|by apply sublist_skip].
Qed.

Lemma apply_ledger_op_inv l op : ledger_inv l -> ledger_op_ok l op -> ledger_inv (apply_ledger_op l op).
Proof.
  intros Hinv Hok. destruct op as [f n r run cell agent|id|run|agent]; simpl in *.
  - destruct Hok as [Hr Hf]. unfold ledger_reserve.
    destruct (overruns _ _ _ _) eqn:E; [|done]. apply overruns_nil in E as [Hle Hcells].
    destruct Hinv as (Hn & Hu & Hc). simpl. rewrite jset_fresh by done. split_and!; simpl.
    + apply Forall_app. split; [done|]. constructor; [exact Hr|constructor].
    + unfold ledger_used in *. simpl. unfold jvalues. rewrite !fmap_app, sum_requests_app.
      change (sum_requests (rv_granted <$> [(f, mkReservation f run agent cell r r n)].*2))
        with (sum_requests [r]). rewrite sum_requests_cons.
      unfold ledger_available, ledger_used, jvalues, request_le in *. simpl in *. lia.
    + rewrite length_app. simpl. lia.
  - apply ledger_inv_sublist; [done|]. apply jdelete_sublist.
  - apply ledger_inv_sublist; [done|]. apply sublist_filter.
  - apply ledger_inv_sublist; [done|]. apply sublist_filter.
Qed.

(** A run of operations, each acceptable where it is applied. *)
Inductive ledger_run (l : ResourceLedger) : ResourceLedger -> Prop :=
| ledger_run_refl : ledger_run l l
| ledger_run_step l' op : ledger_run l l' -> ledger_op_ok l' op -> ledger_run l (apply_ledger_op l' op).

(** No overcommit: along any sequence of reservations and releases (of one, of a
    run, of an agent) from an empty ledger, the granted amounts never exceed the
    capacity in any dimension nor the reservations the number of concurrent cells;
    and a reservation is granted, in full, exactly when it fits what is left. *)
Theorem ledger_never_overcommits cap l :
  request_nonneg (lc_amounts cap) -> (0 <= lc_concurrentCells cap)%Z ->
  ledger_run (mkLedger cap []) l ->
  request_le (ledger_used l) (lc_amounts cap) /\
  (Z.of_nat (length (rl_reserved l)) <= lc_concurrentCells cap)%Z /\
  (forall f n r run cell agent,
     (exists rv, (ledger_reserve f n r run cell agent l).1 = inr rv /\ rv_granted rv = r) <->
     request_le (add_request (ledger_used l) r) (lc_amounts cap) /\
     (Z.of_nat (length (rl_reserved l)) < lc_concurrentCells cap)%Z).
Proof.
  intros Hcap Hcells Hrun.
  assert (rl_capacity l = cap /\ ledger_inv l) as [Hc (Hn & Hu & Hlen)].
  { induction Hrun as [|l' op Hrun [Hc IH] Hok].
    - split; [done|]. split_and!; [by constructor|done|done].
    - split; [|by apply apply_ledger_op_inv].
      destruct op; simpl; unfold ledger_reserve; repeat case_match; done. }
  rewrite Hc in *. split_and!; [done..|]. intros f n r run cell agent. unfold ledger_reserve. rewrite Hc.
  destruct (overruns _ _ _ _) eqn:E.
  - apply overruns_nil in E as [Hle ?]. split; [intros _|by eauto]. split; [|done].
    unfold ledger_available, request_le in *. rewrite Hc in Hle. simpl in *. lia.
  - split; [naive_solver|]. intros [Hle Hlt]. exfalso.
    assert (overruns r (ledger_available l) (Z.of_nat (length (rl_reserved l))) (lc_concurrentCells cap) = []) as E'.
    { apply overruns_nil. split; [|done]. unfold ledger_available, request_le in *. rewrite Hc. simpl in *. lia. }
    by rewrite E' in E.
Qed.

(** Releasing a reservation gives back exactly what it took. *)
Lemma ledger_reserve_release f n r run cell agent l rv l' :
  ledger_reserve f n r run cell agent l = (inr rv, l') -> f ∉ jkeys (rl_reserved l) ->
  (ledger_release f l').2 = l.
Proof.
  unfold ledger_reserve. destruct (overruns _ _ _ _); [|done]. intros [= <- <-] Hf. unfold ledger_release.
  simpl. rewrite jset_fresh by done. destruct l as [cap res]. simpl in *. f_equal.
  induction res as [|[k v] res IH]; simpl; [by rewrite same_refl|].
  simpl in Hf. destruct (k === f) eqn:E; reflect; [set_solver|]. rewrite IH; [done|set_solver].
Qed.

Definition small_capacity : LedgerCapacity := mkCapacity (mkRequest 2000 100 10 0 1 0) 2.
Definition small_request : ResourceRequest := mkRequest 1500 60 4 0 1 0.
Lemma ledger_never_overcommits_witness :
  let l := apply_ledger_op (mkLedger small_capacity [])
             (lg_reserve "res_1" 0 small_request "run" "cell" None) in
  request_le (ledger_used l) (lc_amounts small_capacity) /\
  (Z.of_nat (length (rl_reserved l)) <= 2)%Z /\
  (forall f n r run cell agent,
     (exists rv, (ledger_reserve f n r run cell agent l).1 = inr rv /\ rv_granted rv = r) <->
     request_le (add_request (ledger_used l) r) (lc_amounts small_capacity) /\
     (Z.of_nat (length (rl_reserved l)) < 2)%Z).
Proof.
  apply (ledger_never_overcommits small_capacity).
  - unfold request_nonneg, request_le. simpl. lia.
  - simpl. lia.
  - apply ledger_run_step; [constructor|]. simpl. split; [|apply not_elem_of_nil].
    unfold request_nonneg, request_le. simpl. lia.
Defined.
