(* ===== verification/Capacity.v ===== *)
(** The host capacity authority.

    Models [HostCapacityAuthority] of
    [src/src/runtime/linux/scheduler/host-capacity.ts]: durable claims, owner
    tokens, idempotent reservation, release on proof, reconciliation.

    The two SQLite tables are a table keyed by claim id and a map keyed by
    (principal, key); the partial unique index on (run, cell) is the check
    every write of a row makes, and a write that violates it throws and
    changes nothing.  Timestamps are not represented.  An [await] of the
    reality provider splits [releaseRequested] and each row of [reconcile] in
    two: what runs before, on the row as read, and what runs after, when other
    requests may have changed the tables. *)
From S2P Require Import Prelude Ledger.
From stdpp Require Import pretty.

(** ** Rows *)

(** src/src/runtime/linux/scheduler/host-capacity.ts # ClaimPhase *)
Inductive ClaimPhase :=
| RESERVED | PRE_SPAWN | SPAWN_ATTEMPTING | SPAWN_IDENTITY_COMMITTED | EXECUTING
| QUARANTINED | SUSPECT | TERMINATION_PROVEN | RELEASED.

#[export] Instance phase_eq_dec : EqDecision ClaimPhase.
Proof. solve_decision. Defined.

(** src/src/runtime/linux/scheduler/host-capacity.ts # ClaimRow *)
Record ClaimRow := mkClaim {
  cr_run_id : string;
  cr_cell_id : string;
  cr_agent_id : option string;
  cr_backend_id : option string;
  cr_phase : ClaimPhase;
  cr_requested : ResourceRequest;
  cr_owner_token_hash : string;
  cr_principal : string;
  cr_idempotency_key : string;
  cr_request_digest : string;
  cr_spawned_pid : option Z;
  cr_spawn_startticks : option Z;
  cr_cgroup_path : option string;
}.

(** [phase NOT IN ('RELEASED')] *)
Definition active (row : ClaimRow) : bool := negb (cr_phase row === RELEASED).

Definition set_phase (p : ClaimPhase) (row : ClaimRow) : ClaimRow :=
  mkClaim (cr_run_id row) (cr_cell_id row) (cr_agent_id row) (cr_backend_id row) p (cr_requested row)
    (cr_owner_token_hash row) (cr_principal row) (cr_idempotency_key row) (cr_request_digest row)
    (cr_spawned_pid row) (cr_spawn_startticks row) (cr_cgroup_path row).

(** src/src/runtime/linux/scheduler/host-capacity.ts # ClaimReality

    The state; the evidence is only logged. *)
Inductive ClaimReality := proven | live | unknown.

#[export] Instance reality_eq_dec : EqDecision ClaimReality.
Proof. solve_decision. Defined.

(** src/src/runtime/linux/scheduler/host-capacity.ts # HostCapacityAuthority @265-271 *)
Record Authority := mkAuthority {
  ha_capacity : ResourceRequest;
  ha_maxConcurrentCells : Z;
  ha_claims : list (string * ClaimRow);
  ha_idempotency : gmap (string * string) (string * string);
  ha_tokens : gmap string string;
}.

(** ** The request at the boundary *)

(** A JSON number as the validation sees it. *)
Inductive jnum := NInt (z : Z) | NFraction | NNotFinite | NNotNumber.

(** The six fields of the wire request, in the order they are checked. *)
Definition RawRequest := list (string * jnum).

Definition field_error (name : string) (v : jnum) : option string :=
  match v with
  | NNotNumber | NNotFinite => Some ("INVALID_RESOURCE_REQUEST: " +:+ name +:+ " must be finite")
  | NFraction => Some ("INVALID_RESOURCE_REQUEST: " +:+ name +:+ " must be an integer")
  | NInt z => if (z <? 0)%Z then Some ("INVALID_RESOURCE_REQUEST: " +:+ name +:+ " must be >= 0") else None
  end.

(** src/src/runtime/linux/scheduler/host-capacity.ts # HostCapacityAuthority.validateRequest *)
Definition validateRequest (c m p i n t : jnum) : option string :=
  head (omap (fun kv => field_error kv.1 kv.2)
    [("cpuQuota", c); ("memoryBytes", m); ("pids", p); ("ioWeight", i); ("networkSlots", n); ("tempBytes", t)]).

Definition int_of (v : jnum) : Z := match v with NInt z => z | _ => 0 end.
Definition request_of (c m p i n t : jnum) : ResourceRequest :=
  mkRequest (int_of c) (int_of m) (int_of p) (int_of i) (int_of n) (int_of t).

Lemma validateRequest_nonneg c m p i n t :
  validateRequest c m p i n t = None -> request_nonneg (request_of c m p i n t).
Proof.
  unfold validateRequest. simpl.
  destruct (field_error "cpuQuota" c) eqn:E1; [done|]. destruct (field_error "memoryBytes" m) eqn:E2; [done|].
  destruct (field_error "pids" p) eqn:E3; [done|]. destruct (field_error "ioWeight" i) eqn:E4; [done|].
  destruct (field_error "networkSlots" n) eqn:E5; [done|]. destruct (field_error "tempBytes" t) eqn:E6; [done|].
  intros _. assert (forall name v, field_error name v = None -> (0 <= int_of v)%Z) as H.
  { intros name v Hv. destruct v; simpl in *; try done. destruct (z <? 0)%Z eqn:E; [done|]. by reflect. }
  unfold request_nonneg, request_le. simpl. split_and!; eauto.
Qed.

(** ** Reading the tables *)

Definition active_rows (a : Authority) : list ClaimRow :=
  filter (fun r => active r = true) (jvalues (ha_claims a)).

(** src/src/runtime/linux/scheduler/host-capacity.ts # HostCapacityAuthority.chargedBytes *)
Definition charged (a : Authority) : ResourceRequest := sum_requests (cr_requested <$> active_rows a).

(** src/src/runtime/linux/scheduler/host-capacity.ts # HostCapacityAuthority.available *)
Definition authority_available (a : Authority) : ResourceRequest := sub_request (ha_capacity a) (charged a).

Definition claims_cell (run cell : string) (row : ClaimRow) : bool :=
  active row && (cr_run_id row === run) && (cr_cell_id row === cell).

(** The id of the active claim of a run and cell, if any. *)
Definition activeClaimFor (run cell : string) (a : Authority) : option string :=
  fst <$> find (fun kv => claims_cell run cell kv.2) (ha_claims a).

(** src/src/runtime/linux/scheduler/host-capacity.ts # HostCapacityAuthority.hasActiveClaimFor *)
Definition hasActiveClaimFor (run cell : string) (a : Authority) : bool :=
  match activeClaimFor run cell a with Some _ => true | None => false end.

(** ** Writing a row *)

(** The partial unique index: no other active row of the same run and cell. *)
Definition index_allows (id : string) (row : ClaimRow) (claims : list (string * ClaimRow)) : bool :=
  negb (active row) ||
  forallb (fun kv => (kv.1 === id) || negb (claims_cell (cr_run_id row) (cr_cell_id row) kv.2)) claims.

(** Inserting or updating the row of an id; [None] is a constraint error. *)
Definition write_row (id : string) (row : ClaimRow) (a : Authority) : option Authority :=
  if index_allows id row (ha_claims a)
  then Some (mkAuthority (ha_capacity a) (ha_maxConcurrentCells a) (jset id row (ha_claims a))
               (ha_idempotency a) (ha_tokens a))
  else None.
Definition with_idempotency (m : gmap (string * string) (string * string)) (a : Authority) : Authority :=
  mkAuthority (ha_capacity a) (ha_maxConcurrentCells a) (ha_claims a) m (ha_tokens a).
Definition with_tokens (m : gmap string string) (a : Authority) : Authority :=
  mkAuthority (ha_capacity a) (ha_maxConcurrentCells a) (ha_claims a) (ha_idempotency a) m.

Inductive ReserveOutcome :=
| ReserveOk (claimId ownerToken : string)
| ReserveFail (reason : string).

Inductive ReleaseRequestState := rs_RELEASED | rs_QUARANTINED | rs_SUSPECT | rs_REJECTED.

Section Authority.
(** [sha256(token)] and [sha256(JSON.stringify(request))]. *)
Context (tokenHash : string -> string) (digestOf : ResourceRequest -> string).

(** The ids a request generates. *)
Record Fresh := mkFresh { fr_claimId : string; fr_token : string }.

Record CapacityReserveRequest := mkReserveReq {
  rq_request : ResourceRequest;
  rq_runId : string;
  rq_cellId : string;
  rq_agentId : option string;
  rq_backendId : option string;
}.

(** src/src/runtime/linux/scheduler/host-capacity.ts # HostCapacityAuthority.reserveFresh *)
Definition reserveFresh (fresh : Fresh) (req : CapacityReserveRequest) (pkey digest key : string)
    (a : Authority) : ReserveOutcome * Authority :=
  match overruns (rq_request req) (authority_available a) (Z.of_nat (length (active_rows a)))
          (ha_maxConcurrentCells a) with
  | [] =>
      let id := fr_claimId fresh in
      let row := mkClaim (rq_runId req) (rq_cellId req) (rq_agentId req) (rq_backendId req) RESERVED
                   (rq_request req) (tokenHash (fr_token fresh)) pkey key digest None None None in
      let duplicate := ReserveFail "RESOURCE_DOUBLE_ACQUIRE: active claim already exists for this run/cell" in
      if jhas id (ha_claims a) then (duplicate, a)
      else match ha_idempotency a !! (pkey, key) with
      | Some _ => (duplicate, a)
      | None =>
          match write_row id row a with
          | None => (duplicate, a)
          | Some a => (ReserveOk id (fr_token fresh),
                       with_tokens (<[id := fr_token fresh]> (ha_tokens a))
                         (with_idempotency (<[(pkey, key) := (digest, id)]> (ha_idempotency a)) a))
          end
      end
  | over => (ReserveFail ("insufficient resources: " +:+ js_join ", " over), a)
  end.

Definition terminal (row : ClaimRow) : bool :=
  (cr_phase row === RELEASED) || (cr_phase row === TERMINATION_PROVEN).

(** src/src/runtime/linux/scheduler/host-capacity.ts # HostCapacityAuthority.reserve

    On a request that passed [validateRequest]. *)
Definition reserve (fresh : Fresh) (req : CapacityReserveRequest) (key pkey : string) (a : Authority)
    : ReserveOutcome * Authority :=
  let digest := digestOf (rq_request req) in
  let hit := ha_idempotency a !! (pkey, key) in
  let foreign :=
    match activeClaimFor (rq_runId req) (rq_cellId req) a with
    | None => false
    | Some id => negb (Some id === (snd <$> hit))
    end in
  if foreign then (ReserveFail "RESOURCE_DOUBLE_ACQUIRE: active claim already exists for this run/cell", a)
  else match hit with
  | None => reserveFresh fresh req pkey digest key a
  | Some (hitDigest, id) =>
      if negb (hitDigest === digest)
      then (ReserveFail "IDEMPOTENCY_MISMATCH: same idempotency key with different ResourceRequest", a)
      else match jget id (ha_claims a) with
      | None => reserveFresh fresh req pkey digest key
                  (with_idempotency (delete (pkey, key) (ha_idempotency a)) a)
      | Some row =>
          if terminal row then
            reserveFresh fresh req pkey digest key
              (with_idempotency (delete (pkey, key) (ha_idempotency a)) a)
          else
            let row := mkClaim (cr_run_id row) (cr_cell_id row) (cr_agent_id row) (cr_backend_id row)
                         (cr_phase row) (cr_requested row) (tokenHash (fr_token fresh)) (cr_principal row)
                         (cr_idempotency_key row) (cr_request_digest row) (cr_spawned_pid row)
                         (cr_spawn_startticks row) (cr_cgroup_path row) in
            (ReserveOk id (fr_token fresh),
             with_tokens (<[id := fr_token fresh]> (ha_tokens a))
               (mkAuthority (ha_capacity a) (ha_maxConcurrentCells a) (jset id row (ha_claims a))
                  (ha_idempotency a) (ha_tokens a)))
      end
  end.

(** src/src/runtime/linux/scheduler/host-capacity.ts # HostCapacityAuthority.settle

    [None] is the constraint error of reactivating a row whose run and cell
    have a new claim. *)
Definition settle (id : string) (to : ClaimPhase) (a : Authority) : option Authority :=
  match jget id (ha_claims a) with
  | None => Some a
  | Some row =>
      a ← write_row id (set_phase to row) a;
      Some (if to === RELEASED then with_tokens (delete id (ha_tokens a)) a else a)
  end.

(** What [releaseRequested] decides on the row as read: an answer, a phase to
    settle on, or a question to the reality provider. *)
Inductive ReleaseStart :=
| RelRejected (phase : ClaimPhase)
| RelSettle (to : ClaimPhase)
| RelAskReality (row : ClaimRow).

(** [!claim.spawnedPid]: a pid of 0 counts as none. *)
Definition no_pid (row : ClaimRow) : bool :=
  match cr_spawned_pid row with None => true | Some p => (p =? 0)%Z end.

(** src/src/runtime/linux/scheduler/host-capacity.ts # HostCapacityAuthority.releaseRequested @547-562 *)
Definition releaseStart (id ownerToken : string) (a : Authority) : ReleaseStart :=
  match jget id (ha_claims a) with
  | None => RelRejected RELEASED
  | Some row =>
      if negb (cr_owner_token_hash row === tokenHash ownerToken) then RelRejected (cr_phase row)
      else if no_pid row && ((cr_phase row === RESERVED) || (cr_phase row === PRE_SPAWN))
      then RelSettle RELEASED
      else if no_pid row && ((cr_phase row === SPAWN_ATTEMPTING) || (cr_phase row === SPAWN_IDENTITY_COMMITTED))
      then RelSettle SUSPECT
      else RelAskReality row
  end.

Definition phase_for (r : ClaimReality) : ClaimPhase :=
  match r with proven => RELEASED | live => QUARANTINED | unknown => SUSPECT end.

(** src/src/runtime/linux/scheduler/host-capacity.ts # HostCapacityAuthority.releaseRequested @563-571 *)
Definition releaseFinish (id : string) (r : ClaimReality) (a : Authority) : option Authority :=
  settle id (phase_for r) a.

(** The phases a client may report. *)
Definition reportable (p : ClaimPhase) : bool :=
  negb ((p === TERMINATION_PROVEN) || (p === RELEASED)).

Definition coalesce {A} (new old : option A) : option A := match new with Some x => Some x | None => old end.

(** src/src/runtime/linux/scheduler/host-capacity.ts # HostCapacityAuthority.updatePhase *)
Definition updatePhase (id ownerToken : string) (phase : ClaimPhase)
    (spawn : option (Z * Z * option string)) (a : Authority) : option Authority :=
  match jget id (ha_claims a) with
  | None => None
  | Some row =>
      if negb (cr_owner_token_hash row === tokenHash ownerToken) then None
      else write_row id
        (mkClaim (cr_run_id row) (cr_cell_id row) (cr_agent_id row) (cr_backend_id row) phase
           (cr_requested row) (cr_owner_token_hash row) (cr_principal row) (cr_idempotency_key row)
           (cr_request_digest row)
           (coalesce (fst ∘ fst <$> spawn) (cr_spawned_pid row))
           (coalesce (snd ∘ fst <$> spawn) (cr_spawn_startticks row))
           (coalesce (spawn ≫= snd) (cr_cgroup_path row))) a
  end.

(** src/src/runtime/linux/scheduler/host-capacity.ts # HostCapacityAuthority.quarantine *)
Definition quarantine (id : string) (a : Authority) : option Authority :=
  match jget id (ha_claims a) with
  | None => Some a
  | Some row => write_row id (set_phase QUARANTINED row) a
  end.

(** src/src/runtime/linux/scheduler/host-capacity.ts # HostCapacityAuthority.adopt *)
Definition adopt (id targetRun targetCell : string) (a : Authority) : option Authority :=
  match jget id (ha_claims a) with
  | None => Some a
  | Some row =>
      write_row id (mkClaim targetRun targetCell (cr_agent_id row) (cr_backend_id row) (cr_phase row)
        (cr_requested row) (cr_owner_token_hash row) (cr_principal row) (cr_idempotency_key row)
        (cr_request_digest row) (cr_spawned_pid row) (cr_spawn_startticks row) (cr_cgroup_path row)) a
  end.

(** src/src/runtime/linux/scheduler/host-capacity.ts # HostCapacityAuthority.chargeRecoveredCell

    [memoryMax] and [pidsMax] are the positive limits read from the cell's
    cgroup, when they were readable and set. *)
Definition chargeRecoveredCell (fresh : Fresh) (run cell : string) (agentId cgroupPath : option string)
    (memoryMax pidsMax : option Z) (a : Authority) : (string * bool) * option Authority :=
  match activeClaimFor run cell a with
  | Some id => ((id, true), Some a)
  | None =>
      let request := mkRequest 1
        (match memoryMax with Some m => Z.min m (memoryBytes (ha_capacity a)) | None => 1024 * 1024 * 1024 end)
        (match pidsMax with Some p => Z.min p (pids (ha_capacity a)) | None => 256 end) 0 0 0 in
      let id := fr_claimId fresh in
      ((id, false),
       if jhas id (ha_claims a) then None
       else write_row id
         (mkClaim run cell agentId None QUARANTINED request (tokenHash (fr_token fresh)) "recovery"
            ("recovered-" +:+ run +:+ "-" +:+ cell) (digestOf request) None None cgroupPath) a)
  end.

(** src/src/runtime/linux/scheduler/host-capacity.ts # HostCapacityAuthority.reconcile @648-678

    One row of the loop, on the row as it was read when the loop started; the
    phase it is set to, if any. *)
Definition reconcileTo (row : ClaimRow) (r : ClaimReality) : option ClaimPhase :=
  if no_pid row then
    if (cr_phase row === RESERVED) || (cr_phase row === PRE_SPAWN) then Some RELEASED
    else if negb (cr_phase row === SUSPECT) then Some SUSPECT else None
  else Some (phase_for r).

Definition reconcileRow (id : string) (row : ClaimRow) (r : ClaimReality) (a : Authority) : option Authority :=
  match reconcileTo row r with
  | None => Some a
  | Some to => settle id to a
  end.

(** The rows [reconcile] reads. *)
Definition reconcileRows (a : Authority) : list (string * ClaimRow) :=
  filter (fun kv => terminal kv.2 = false) (ha_claims a).

(** src/src/runtime/linux/scheduler/host-capacity.ts # HostCapacityAuthority.reconcile

    The whole pass when no other request runs in between. *)
Definition reconcile (reality : string -> ClaimRow -> ClaimReality) (a : Authority) : option Authority :=
  fold_left (fun acc kv => a ← acc; reconcileRow kv.1 kv.2 (reality kv.1 kv.2) a) (reconcileRows a) (Some a).

(** ** The operations as steps *)

Inductive AuthorityOp :=
| ao_reserve (fresh : Fresh) (req : CapacityReserveRequest) (key pkey : string)
| ao_releaseStart (id ownerToken : string)
| ao_releaseFinish (id : string) (r : ClaimReality)
| ao_updatePhase (id ownerToken : string) (phase : ClaimPhase) (spawn : option (Z * Z * option string))
| ao_quarantine (id : string)
| ao_adopt (id run cell : string)
| ao_charge (fresh : Fresh) (run cell : string) (agentId cgroupPath : option string) (memoryMax pidsMax : option Z)
| ao_reconcileRow (id : string) (row : ClaimRow) (r : ClaimReality).

(** A throw changes nothing. *)
Definition or_else (o : option Authority) (a : Authority) : Authority := default a o.

Definition apply_op (a : Authority) (op : AuthorityOp) : Authority :=
  match op with
  | ao_reserve fresh req key pkey => (reserve fresh req key pkey a).2
  | ao_releaseStart id tok =>
      match releaseStart id tok a with RelSettle to => or_else (settle id to a) a | _ => a end
  | ao_releaseFinish id r => or_else (releaseFinish id r a) a
  | ao_updatePhase id tok phase spawn => or_else (updatePhase id tok phase spawn a) a
  | ao_quarantine id => or_else (quarantine id a) a
  | ao_adopt id run cell => or_else (adopt id run cell a) a
  | ao_charge fresh run cell agent cg m p => or_else (chargeRecoveredCell fresh run cell agent cg m p a).2 a
  | ao_reconcileRow id row r => or_else (reconcileRow id row r a) a
  end.

(** ** Writing a row: the tables and the charge *)

Definition same_run_cell (r1 r2 : ClaimRow) : Prop :=
  cr_run_id r1 = cr_run_id r2 /\ cr_cell_id r1 = cr_cell_id r2.

(** Claim ids are unique, and so is the active claim of a run and cell. *)
Definition tables_ok (a : Authority) : Prop :=
  NoDup (jkeys (ha_claims a)) /\
  forall i r j s, jget i (ha_claims a) = Some r -> jget j (ha_claims a) = Some s ->
    active r = true -> active s = true -> same_run_cell r s -> i = j.

Lemma write_row_tables id row a a' : tables_ok a -> write_row id row a = Some a' -> tables_ok a'.
Proof.
  unfold write_row. intros [Hnd Hu]. destruct (index_allows _ _ _) eqn:Ei; [|done]. intros [= <-].
  split; simpl; [auto with orcana|].
  assert (forall j s, id <> j -> jget j (ha_claims a) = Some s -> active row = true -> active s = true ->
    same_run_cell row s -> False) as Hidx.
  { intros j s Hj Hs Har Has [H1 H2]. unfold index_allows in Ei. rewrite Har in Ei. simpl in Ei.
    rewrite forallb_forall in Ei. apply jget_elem, list_elem_of_In in Hs.
    specialize (Ei _ Hs). simpl in Ei. rewrite (proj2 (same_neq j id)) in Ei by done.
    unfold claims_cell in Ei. by rewrite Has, H1, H2, !same_refl in Ei. }
  intros i r j s. rewrite !jget_jset. repeat case_decide; intros Hr Hs Har Has Hsame; simplify_eq; try done.
  - exfalso. by eapply Hidx.
  - exfalso. eapply (Hidx i r); try done. by destruct Hsame.
  - by eapply Hu.
Qed.

Lemma active_rows_split (claims : list (string * ClaimRow)) id row0 row :
  jget id claims = Some row0 ->
  exists rest, filter (fun r => active r = true) (jvalues claims) ≡ₚ
                 (if active row0 then [row0] else []) ++ rest /\
    filter (fun r => active r = true) (jvalues (jset id row claims)) ≡ₚ
                 (if active row then [row] else []) ++ rest.
Proof.
  intros (l1 & l2 & -> & Hset)%jset_split. rewrite Hset. unfold jvalues. rewrite !fmap_app, !filter_app.
  exists (filter (fun r => active r = true) l1.*2 ++ filter (fun r => active r = true) l2.*2).
  rewrite !fmap_cons, !filter_cons. simpl. split.
  - destruct (active row0); simpl; [|done]. by rewrite Permutation_middle.
  - destruct (active row); simpl; [|done]. by rewrite Permutation_middle.
Qed.

Definition if_active (row : ClaimRow) : ResourceRequest :=
  if active row then cr_requested row else zero_request.
Definition count_active (row : ClaimRow) : nat := if active row then 1 else 0.

(** A written row changes the charge by the difference between its new and
    old contribution. *)
Lemma write_row_charge id row row0 a a' :
  jget id (ha_claims a) = Some row0 -> write_row id row a = Some a' ->
  add_request (charged a') (if_active row0) = add_request (charged a) (if_active row) /\
  length (active_rows a') + count_active row0 = length (active_rows a) + count_active row /\
  ha_capacity a' = ha_capacity a /\ ha_maxConcurrentCells a' = ha_maxConcurrentCells a.
Proof.
  unfold write_row. intros Hg. destruct (index_allows _ _ _); [|done]. intros [= <-].
  destruct (active_rows_split (ha_claims a) id row0 row Hg) as (rest & H1 & H2).
  split_and!; [| |done|done].
  - unfold charged, active_rows. simpl. rewrite H1, H2, !fmap_app, !sum_requests_app.
    unfold if_active. destruct (active row0), (active row); cbn [fmap list_fmap]; rewrite ?sum_requests_cons;
      unfold add_request, sum_requests, zero_request; simpl; f_equal; lia.
  - unfold active_rows. simpl. rewrite H1, H2, !length_app. unfold count_active.
    destruct (active row0), (active row); simpl; lia.
Qed.

(** Inserting a row under a fresh id adds its contribution. *)
Lemma write_row_insert id row a a' :
  id ∉ jkeys (ha_claims a) -> write_row id row a = Some a' ->
  charged a' = add_request (charged a) (if_active row) /\
  length (active_rows a') = length (active_rows a) + count_active row /\
  ha_capacity a' = ha_capacity a /\ ha_maxConcurrentCells a' = ha_maxConcurrentCells a.
Proof.
  unfold write_row. intros Hk. destruct (index_allows _ _ _); [|done]. intros [= <-].
  unfold charged, active_rows. simpl. rewrite jset_fresh by done. unfold jvalues.
  rewrite fmap_app, filter_app. simpl. split_and!; [| |done|done].
  - rewrite fmap_app, sum_requests_app. unfold if_active. rewrite filter_cons. simpl.
    destruct (active row); simpl; [|done]. change ([cr_requested row]) with (cr_requested row :: []).
    rewrite sum_requests_cons. unfold add_request. simpl. f_equal; lia.
  - rewrite length_app, filter_cons. simpl. unfold count_active. by destruct (active row).
Qed.

Lemma jset_rekey_tables id row row0 a :
  jget id (ha_claims a) = Some row0 -> cr_phase row = cr_phase row0 -> same_run_cell row row0 ->
  tables_ok a -> NoDup (jkeys (jset id row (ha_claims a))) /\
  (forall i r j s, jget i (jset id row (ha_claims a)) = Some r -> jget j (jset id row (ha_claims a)) = Some s ->
    active r = true -> active s = true -> same_run_cell r s -> i = j).
Proof.
  intros Hg Hp [Hs1 Hs2] [Hnd Hu]. split; [auto with orcana|].
  assert (active row = active row0) as Ha by (unfold active; by rewrite Hp).
  intros i r j s. rewrite !jget_jset. repeat case_decide; intros Hr Hs Har Has [E1 E2]; simplify_eq; try done.
  - eapply Hu; [exact Hg|exact Hs|congruence|done|split; congruence].
  - eapply Hu; [exact Hr|exact Hg|done|congruence|split; congruence].
  - by eapply Hu; [exact Hr|exact Hs|..].
Qed.

(** ** The tables stay consistent under every operation *)

Lemma or_else_tables o a : tables_ok a -> (forall a', o = Some a' -> tables_ok a') -> tables_ok (or_else o a).
Proof. destruct o; simpl; auto. Qed.

Lemma reserveFresh_tables fresh req pkey digest key a :
  tables_ok a -> tables_ok (reserveFresh fresh req pkey digest key a).2.
Proof.
  intros Ht. unfold reserveFresh. destruct (overruns _ _ _ _); [|done].
  destruct (jhas _ _); [done|]. destruct (ha_idempotency a !! _); [done|].
  destruct (write_row _ _ a) eqn:E; [|done]. by eapply write_row_tables in E.
Qed.

Lemma settle_tables id to a a' : tables_ok a -> settle id to a = Some a' -> tables_ok a'.
Proof.
  intros Ht. unfold settle. destruct (jget id (ha_claims a)) as [row|]; [|by intros [= <-]].
  intros (a1 & Hw & [= <-])%bind_Some. eapply write_row_tables in Hw; [|done]. by destruct (to === RELEASED).
Qed.

Lemma apply_op_tables a op : tables_ok a -> tables_ok (apply_op a op).
Proof.
  intros Ht. destruct op as [fresh req key pkey|id tok|id r|id tok phase spawn|id|id run cell|
    fresh run cell agent cg m p|id row r]; simpl.
  - unfold reserve. destruct (match activeClaimFor _ _ _ with Some _ => _ | None => _ end); [done|].
    destruct (ha_idempotency a !! (pkey, key)) as [[d id]|]; [|by apply reserveFresh_tables].
    destruct (negb _); [done|]. destruct (jget id (ha_claims a)) as [row|] eqn:Eg; [|by apply reserveFresh_tables].
    destruct (terminal row); [by apply reserveFresh_tables|]. simpl.
    by apply (jset_rekey_tables id _ row).
  - destruct (releaseStart id tok a); [done| |done]. apply or_else_tables; [done|].
    intros a'. by apply settle_tables.
  - apply or_else_tables; [done|]. intros a'. by apply settle_tables.
  - apply or_else_tables; [done|]. intros a'. unfold updatePhase.
    destruct (jget id _); [|done]. destruct (negb _); [done|]. by apply write_row_tables.
  - apply or_else_tables; [done|]. intros a'. unfold quarantine.
    destruct (jget id _); [|by intros [= <-]]. by apply write_row_tables.
  - apply or_else_tables; [done|]. intros a'. unfold adopt.
    destruct (jget id _); [|by intros [= <-]]. by apply write_row_tables.
  - apply or_else_tables; [done|]. intros a'. unfold chargeRecoveredCell.
    destruct (activeClaimFor _ _ _); [by intros [= <-]|]. simpl.
    destruct (jhas _ _); [done|]. by apply write_row_tables.
  - apply or_else_tables; [done|]. intros a'. unfold reconcileRow.
    destruct (reconcileTo row r); [|by intros [= <-]]. by apply settle_tables.
Qed.

Definition empty_authority (cap : ResourceRequest) (maxCells : Z) : Authority := mkAuthority cap maxCells [] ∅ ∅.

(** One active claim per run and cell, whatever requests the authority serves and
    however their awaits interleave: claim ids are unique and no two claims that
    still charge capacity name the same run and cell, so a cell is never accounted
    twice. *)
Theorem authority_unique_active cap maxCells ops :
  let a := fold_left apply_op ops (empty_authority cap maxCells) in
  NoDup (jkeys (ha_claims a)) /\
  (forall i r j s, jget i (ha_claims a) = Some r -> jget j (ha_claims a) = Some s ->
     active r = true -> active s = true -> cr_run_id r = cr_run_id s -> cr_cell_id r = cr_cell_id s -> i = j).
Proof.
  assert (forall a, tables_ok a -> tables_ok (fold_left apply_op ops a)) as H.
  { induction ops as [|op ops IH]; simpl; [done|]. intros a Ha. by apply IH, apply_op_tables. }
  destruct (H (empty_authority cap maxCells)) as [Hnd Hu]; [split; [constructor|done]|].
  split; [done|]. intros i r j s Hr Hs Har Has H1 H2. by eapply (Hu i r j s).
Qed.

(** ** Capacity *)

Definition capacity_inv (a : Authority) : Prop :=
  Forall (fun r => request_nonneg (cr_requested r)) (jvalues (ha_claims a)) /\
  request_le (charged a) (ha_capacity a) /\
  (Z.of_nat (length (active_rows a)) <= ha_maxConcurrentCells a)%Z.

Lemma jvalues_jset_forall (P : ClaimRow -> Prop) id row claims :
  Forall P (jvalues claims) -> P row -> Forall P (jvalues (jset (K := string) id row claims)).
Proof.
  rewrite !Forall_forall. intros H Hp r (kv & -> & Hin)%list_elem_of_fmap.
  apply elem_of_jset in Hin as [->|Hin]; [done|]. apply H, list_elem_of_fmap. by exists kv.
Qed.
Lemma jget_forall (P : ClaimRow -> Prop) id row claims :
  Forall P (jvalues claims) -> jget (K := string) id claims = Some row -> P row.
Proof.
  rewrite Forall_forall. intros H Hg. apply H, list_elem_of_fmap. exists (id, row).
  split; [done|]. by apply jget_elem.
Qed.

(** Rewriting a row with the same request keeps the invariant, unless it
    brings a released claim back. *)
Lemma write_row_capacity id row row0 a a' :
  capacity_inv a -> jget id (ha_claims a) = Some row0 -> cr_requested row = cr_requested row0 ->
  (active row = true -> active row0 = true) -> write_row id row a = Some a' -> capacity_inv a'.
Proof.
  intros (Hn & Hu & Hc) Hg Hr Hact Hw.
  destruct (write_row_charge _ _ _ _ _ Hg Hw) as (Hch & Hlen & Hcap & Hmax).
  pose proof (jget_forall _ _ _ _ Hn Hg) as Hpos.
  split_and!.
  - unfold write_row in Hw. destruct (index_allows _ _ _); [|done]. injection Hw as <-. simpl.
    apply jvalues_jset_forall; [done|]. by rewrite Hr.
  - rewrite Hcap. unfold if_active in Hch. rewrite Hr in Hch.
    unfold request_nonneg, request_le, add_request, zero_request in *. simpl in *.
    destruct (active row), (active row0); try (specialize (Hact eq_refl); done);
      injection Hch; intros; lia.
  - rewrite Hmax. unfold count_active in Hlen.
    destruct (active row), (active row0); try (specialize (Hact eq_refl); done); lia.
Qed.

Lemma reserveFresh_capacity fresh req pkey digest key a :
  capacity_inv a -> request_nonneg (rq_request req) ->
  capacity_inv (reserveFresh fresh req pkey digest key a).2.
Proof.
  intros Hinv Hr. unfold reserveFresh.
  destruct (overruns _ _ _ _) eqn:Eo; [|done]. destruct (jhas _ _) eqn:Eh; [done|].
  destruct (ha_idempotency a !! _); [done|]. destruct (write_row _ _ a) as [a'|] eqn:E; [|done].
  apply overruns_nil in Eo as [Hle Hlt]. destruct Hinv as (Hn & Hu & Hc).
  assert (fr_claimId fresh ∉ jkeys (ha_claims a)) as Hk by (intros Hk%jhas_true; congruence).
  destruct (write_row_insert _ _ _ _ Hk E) as (Hch & Hlen & Hcap & Hmax). simpl in *.
  change (capacity_inv a'). split_and!.
  - unfold write_row in E. destruct (index_allows _ _ _); [|done]. injection E as <-. simpl.
    by apply jvalues_jset_forall.
  - rewrite Hcap, Hch. unfold authority_available, request_le, if_active in *. simpl in *. lia.
  - rewrite Hmax, Hlen. unfold count_active. simpl. lia.
Qed.

Definition claim_active (id : string) (a : Authority) : Prop :=
  match jget id (ha_claims a) with Some row => active row = true | None => True end.

(** What capacity safety needs of an operation: valid amounts, and no write
    that brings back a claim released in the meantime.  A recovered cell is
    charged unconditionally, so it is not among them. *)
Definition op_guarded (a : Authority) (op : AuthorityOp) : Prop :=
  match op with
  | ao_reserve _ req _ _ => request_nonneg (rq_request req)
  | ao_releaseFinish id _ | ao_updatePhase id _ _ _ | ao_quarantine id | ao_reconcileRow id _ _ => claim_active id a
  | ao_charge _ _ _ _ _ _ _ => False
  | ao_releaseStart _ _ | ao_adopt _ _ _ => True
  end.

Lemma or_else_capacity o a :
  capacity_inv a -> (forall a', o = Some a' -> capacity_inv a') -> capacity_inv (or_else o a).
Proof. destruct o; simpl; auto. Qed.

Lemma settle_capacity id to a a' :
  capacity_inv a -> claim_active id a -> settle id to a = Some a' -> capacity_inv a'.
Proof.
  unfold settle, claim_active. intros Hinv Ha.
  destruct (jget id (ha_claims a)) as [row|] eqn:Eg; [|by intros [= <-]].
  intros (a1 & Hw & [= <-])%bind_Some.
  eapply write_row_capacity in Hw; [|done..]. by destruct (to === RELEASED).
Qed.

Lemma reserve_capacity fresh req key pkey a :
  capacity_inv a -> request_nonneg (rq_request req) -> capacity_inv (reserve fresh req key pkey a).2.
Proof.
  intros Hinv Hr. unfold reserve. destruct (match activeClaimFor _ _ _ with Some _ => _ | None => _ end); [done|].
  destruct (ha_idempotency a !! (pkey, key)) as [[d id]|]; [|by apply reserveFresh_capacity].
  destruct (negb _); [done|].
  destruct (jget id (ha_claims a)) as [row|] eqn:Eg; [|by apply reserveFresh_capacity].
  destruct (terminal row); [by apply reserveFresh_capacity|]. simpl.
  destruct (active_rows_split _ _ _ (mkClaim (cr_run_id row) (cr_cell_id row) (cr_agent_id row)
    (cr_backend_id row) (cr_phase row) (cr_requested row) (tokenHash (fr_token fresh)) (cr_principal row)
    (cr_idempotency_key row) (cr_request_digest row) (cr_spawned_pid row) (cr_spawn_startticks row)
    (cr_cgroup_path row)) Eg) as (rest & H1 & H2).
  destruct Hinv as (Hn & Hu & Hc). unfold capacity_inv, charged, active_rows in *. simpl in *.
  split_and!; [apply jvalues_jset_forall; [done|]; by apply (jget_forall _ _ _ _ Hn Eg)| |];
    rewrite H2; rewrite H1 in Hu, Hc; unfold active in *; simpl in *; by destruct (negb (cr_phase row === RELEASED)).
Qed.

Lemma in_phase_active row p q :
  p <> RELEASED -> q <> RELEASED -> ((cr_phase row === p) || (cr_phase row === q)) = true -> active row = true.
Proof. intros Hp Hq H. unfold active. reflect. by destruct H; reflect; rewrite H; apply negb_true_iff, same_neq. Qed.

Lemma apply_op_capacity a op : capacity_inv a -> op_guarded a op -> capacity_inv (apply_op a op).
Proof.
  intros Hinv Hg. destruct op as [fresh req key pkey|id tok|id r|id tok phase spawn|id|id run cell|
    fresh run cell agent cg m p|id row r]; simpl in *; [by apply reserve_capacity| | | | | |done|].
  - unfold releaseStart. destruct (jget id (ha_claims a)) as [row|] eqn:Eg; [|done].
    destruct (negb _); [done|]. destruct (_ && _) eqn:E1.
    + apply or_else_capacity; [done|]. intros a'. apply settle_capacity; [done|].
      unfold claim_active. rewrite Eg. apply andb_true_iff in E1 as [_ E1]. by eapply in_phase_active in E1.
    + destruct (no_pid row && ((cr_phase row === SPAWN_ATTEMPTING) || _)) eqn:E2; [|done].
      apply or_else_capacity; [done|]. intros a'. apply settle_capacity; [done|].
      unfold claim_active. rewrite Eg. apply andb_true_iff in E2 as [_ E2]. by eapply in_phase_active in E2.
  - apply or_else_capacity; [done|]. intros a'. by apply settle_capacity.
  - apply or_else_capacity; [done|]. intros a'. unfold updatePhase, claim_active in *.
    destruct (jget id _) eqn:Eg; [|done]. destruct (negb _); [done|]. by eapply write_row_capacity.
  - apply or_else_capacity; [done|]. intros a'. unfold quarantine, claim_active in *.
    destruct (jget id _) eqn:Eg; [|by intros [= <-]]. by eapply write_row_capacity.
  - apply or_else_capacity; [done|]. intros a'. unfold adopt.
    destruct (jget id _) eqn:Eg; [|by intros [= <-]]. by eapply write_row_capacity.
  - apply or_else_capacity; [done|]. intros a'. unfold reconcileRow.
    destruct (reconcileTo row r); [|by intros [= <-]]. by apply settle_capacity.
Qed.

Inductive authority_run (a : Authority) : Authority -> Prop :=
| authority_run_refl : authority_run a a
| authority_run_step a' op : authority_run a a' -> op_guarded a' op -> authority_run a (apply_op a' op).

Lemma write_row_limits id row a a' :
  write_row id row a = Some a' -> ha_capacity a' = ha_capacity a /\ ha_maxConcurrentCells a' = ha_maxConcurrentCells a.
Proof. unfold write_row. destruct (index_allows _ _ _); [|done]. by intros [= <-]. Qed.
Lemma settle_limits id to a a' :
  settle id to a = Some a' -> ha_capacity a' = ha_capacity a /\ ha_maxConcurrentCells a' = ha_maxConcurrentCells a.
Proof.
  unfold settle. destruct (jget _ _); [|by intros [= <-]]. intros (a1 & Hw & [= <-])%bind_Some.
  apply write_row_limits in Hw. by destruct (to === RELEASED).
Qed.
Lemma or_else_limits o a :
  (forall a', o = Some a' -> ha_capacity a' = ha_capacity a /\ ha_maxConcurrentCells a' = ha_maxConcurrentCells a) ->
  ha_capacity (or_else o a) = ha_capacity a /\ ha_maxConcurrentCells (or_else o a) = ha_maxConcurrentCells a.
Proof. destruct o; simpl; auto. Qed.
Lemma reserveFresh_limits fresh req pkey digest key a :
  ha_capacity (reserveFresh fresh req pkey digest key a).2 = ha_capacity a /\
  ha_maxConcurrentCells (reserveFresh fresh req pkey digest key a).2 = ha_maxConcurrentCells a.
Proof.
  unfold reserveFresh. destruct (overruns _ _ _ _); [|done]. destruct (jhas _ _); [done|].
  destruct (ha_idempotency a !! _); [done|]. destruct (write_row _ _ a) eqn:E; [|done].
  by apply write_row_limits in E.
Qed.

(** No operation changes the limits. *)
Lemma apply_op_limits a op :
  ha_capacity (apply_op a op) = ha_capacity a /\ ha_maxConcurrentCells (apply_op a op) = ha_maxConcurrentCells a.
Proof.
  destruct op as [fresh req key pkey|id tok|id r|id tok phase spawn|id|id run cell|
    fresh run cell agent cg m p|id row r]; simpl.
  - unfold reserve. destruct (match activeClaimFor _ _ _ with Some _ => _ | None => _ end); [done|].
    destruct (ha_idempotency a !! (pkey, key)) as [[d id]|]; [|apply reserveFresh_limits].
    destruct (negb _); [done|]. destruct (jget id (ha_claims a)) as [row|]; [destruct (terminal row)|];
      [|done|]; apply (reserveFresh_limits _ _ _ _ _ (with_idempotency _ a)).
  - destruct (releaseStart _ _ _); [done| |done]. apply or_else_limits. intros a'. apply settle_limits.
  - apply or_else_limits. intros a'. apply settle_limits.
  - apply or_else_limits. intros a'. unfold updatePhase. destruct (jget _ _); [|done].
    destruct (negb _); [done|]. apply write_row_limits.
  - apply or_else_limits. intros a'. unfold quarantine. destruct (jget _ _); [|by intros [= <-]]. apply write_row_limits.
  - apply or_else_limits. intros a'. unfold adopt. destruct (jget _ _); [|by intros [= <-]]. apply write_row_limits.
  - apply or_else_limits. intros a'. unfold chargeRecoveredCell.
    destruct (activeClaimFor _ _ _); [by intros [= <-]|]. simpl. destruct (jhas _ _); [done|]. apply write_row_limits.
  - apply or_else_limits. intros a'. unfold reconcileRow. destruct (reconcileTo _ _); [|by intros [= <-]].
    apply settle_limits.
Qed.

(** C10: The host is not overcommitted: from an empty authority, under any
    interleaving of valid reservations, releases, phase reports and reconciliation
    rows that do not write to a claim released in the meantime, the active claims
    together stay within the capacity in every dimension and within the number of
    concurrent cells. *)
Theorem authority_no_overcommit cap maxCells a :
  request_nonneg cap -> (0 <= maxCells)%Z -> authority_run (empty_authority cap maxCells) a ->
  request_le (charged a) cap /\ (Z.of_nat (length (active_rows a)) <= maxCells)%Z.
Proof.
  intros Hcap Hmax Hrun.
  assert (capacity_inv a /\ ha_capacity a = cap /\ ha_maxConcurrentCells a = maxCells) as [(_ & Hu & Hc) [<- <-]];
    [|done].
  induction Hrun as [|a' op Hrun (IH & H1 & H2) Hg].
  - split_and!; [|done|done]. split_and!; [constructor|exact Hcap|simpl; lia].
  - destruct (apply_op_limits a' op) as [-> ->]. split_and!; [by apply apply_op_capacity|done|done].
Qed.

(** ** Who can free a claim *)

Lemma write_row_get id row a a' j :
  write_row id row a = Some a' ->
  jget j (ha_claims a') = if decide (id = j) then Some row else jget j (ha_claims a).
Proof. unfold write_row. destruct (index_allows _ _ _); [|done]. intros [= <-]. apply jget_jset. Qed.
Lemma settle_get id to a a' j row' :
  settle id to a = Some a' -> jget j (ha_claims a') = Some row' ->
  jget j (ha_claims a) = Some row' \/ (id = j /\ cr_phase row' = to).
Proof.
  unfold settle. destruct (jget id (ha_claims a)) as [row|] eqn:E; [|intros [= <-]; auto].
  intros (a1 & Hw & [= <-])%bind_Some Hg.
  assert (jget j (ha_claims a1) = Some row') as Hj by (by destruct (to === RELEASED)).
  rewrite (write_row_get _ _ _ _ _ Hw) in Hj. case_decide; [|auto]. injection Hj as <-. by right.
Qed.
Lemma write_row_back id row a a' j row' :
  write_row id row a = Some a' -> jget j (ha_claims a') = Some row' ->
  jget j (ha_claims a) = Some row' \/ (id = j /\ row' = row).
Proof. intros H. rewrite (write_row_get _ _ _ _ _ H). case_decide; naive_solver. Qed.

Lemma reserveFresh_back fresh req pkey digest key a j row' :
  jget j (ha_claims (reserveFresh fresh req pkey digest key a).2) = Some row' ->
  jget j (ha_claims a) = Some row' \/ active row' = true.
Proof.
  unfold reserveFresh. destruct (overruns _ _ _ _); [|by left]. destruct (jhas _ _); [by left|].
  destruct (ha_idempotency a !! _); [by left|]. destruct (write_row _ _ a) eqn:E; [|by left].
  simpl. intros Hg. destruct (write_row_back _ _ _ _ _ _ E Hg) as [?|[_ ->]]; [by left|by right].
Qed.

(** A reservation keeps the phase of every claim it finds. *)
Lemma reserve_back fresh req key pkey a j row' :
  jget j (ha_claims (reserve fresh req key pkey a).2) = Some row' ->
  (exists row, jget j (ha_claims a) = Some row /\ cr_phase row' = cr_phase row) \/ active row' = true.
Proof.
  unfold reserve. destruct (match activeClaimFor _ _ _ with Some _ => _ | None => _ end); [by eauto|].
  destruct (ha_idempotency a !! (pkey, key)) as [[d i]|].
  2:{ intros [?|?]%reserveFresh_back; eauto. }
  destruct (negb _); [by eauto|]. destruct (jget i (ha_claims a)) as [rw|] eqn:Ei.
  2:{ intros [?|?]%reserveFresh_back; eauto. }
  destruct (terminal rw); [intros [?|?]%reserveFresh_back; eauto|].
  simpl. rewrite jget_jset. case_decide; [|by eauto]. intros [= <-]. subst. left. by exists rw.
Qed.

(** What justifies that an operation turned an active claim into a released one. *)
Definition freed_by (a : Authority) (id : string) (row : ClaimRow) (op : AuthorityOp) : Prop :=
  match op with
  | ao_releaseStart id' tok =>
      id' = id /\ cr_owner_token_hash row = tokenHash tok /\ no_pid row = true /\
      (cr_phase row = RESERVED \/ cr_phase row = PRE_SPAWN)
  | ao_releaseFinish id' r => id' = id /\ r = proven
  | ao_reconcileRow id' row' r =>
      id' = id /\ ((no_pid row' = false /\ r = proven) \/
                    (no_pid row' = true /\ (cr_phase row' = RESERVED \/ cr_phase row' = PRE_SPAWN)))
  | ao_updatePhase id' tok phase _ =>
      id' = id /\ cr_owner_token_hash row = tokenHash tok /\ reportable phase = false
  | _ => False
  end.

Lemma or_else_get (P : Authority -> Prop) o a : P a -> (forall a', o = Some a' -> P a') -> P (or_else o a).
Proof. destruct o; simpl; auto. Qed.

Lemma released_inactive row : active row = false -> cr_phase row = RELEASED.
Proof. unfold active. intros H. reflect. done. Qed.

Lemma in_phases row p q : ((cr_phase row === p) || (cr_phase row === q)) = true -> cr_phase row = p \/ cr_phase row = q.
Proof. intros H. reflect. destruct H; reflect; auto. Qed.

(** C11: Capacity is freed on proof only: when any operation turns an active claim
    into a released one, either its owner asked while the claim's durable phase
    shows that nothing was spawned, or the reality provider proved termination, or
    reconciliation read a row in which nothing was spawned, or a client reported
    the phase directly, which the report's type excludes; quarantine, adoption,
    reservation and recovery never free. *)
Theorem claim_freed_only_on_proof a op id row row' :
  jget id (ha_claims a) = Some row -> active row = true ->
  jget id (ha_claims (apply_op a op)) = Some row' -> cr_phase row' = RELEASED -> freed_by a id row op.
Proof.
  intros Hg Hact. assert (forall r, active r = true -> cr_phase r = RELEASED -> False) as Habs.
  { intros r Hr Hp. unfold active in Hr. by rewrite Hp in Hr. }
  destruct op as [fresh req key pkey|i tok|i r|i tok phase spawn|i|i run cell|
    fresh run cell agent cg m p|i rw r]; simpl; [| | | | | | |].
  - intros [(row0 & Hg0 & Hph)|Ha]%reserve_back Hp; [|by eapply Habs].
    rewrite Hg in Hg0. injection Hg0 as <-. eapply Habs; [done|congruence].
  - destruct (releaseStart i tok a) as [|to|] eqn:Es; [naive_solver| |naive_solver].
    intros Hg' Hp. revert Hg'. apply or_else_get; [naive_solver|].
    intros a' Hset [?|[-> Hto]]%(settle_get _ _ _ _ _ _ Hset); [naive_solver|].
    unfold releaseStart in Es. rewrite Hg in Es. destruct (negb _) eqn:Et; [done|].
    destruct (no_pid row && _) eqn:E1; 
      [|destruct (no_pid row && ((cr_phase row === SPAWN_ATTEMPTING) || _)); [|done];
        injection Es as <-; congruence].
    apply andb_true_iff in E1 as [En E1]. split_and!; [done|by reflect|done|by apply in_phases].
  - intros Hg' Hp. revert Hg'. apply or_else_get; [naive_solver|].
    intros a' Hset [?|[-> Hto]]%(settle_get _ _ _ _ _ _ Hset); [naive_solver|].
    split; [done|]. destruct r; simpl in Hto; congruence.
  - intros Hg' Hp. revert Hg'. apply or_else_get; [naive_solver|]. unfold updatePhase.
    destruct (jget i (ha_claims a)) as [rw|] eqn:Ei; [|done]. destruct (negb _) eqn:Et; [done|].
    intros a' Hw [?|[-> ->]]%(write_row_back _ _ _ _ _ _ Hw); [naive_solver|].
    simpl in Hp. subst. reflect. split_and!; [done|congruence|done].
  - intros Hg' Hp. exfalso. revert Hg'. apply or_else_get; [naive_solver|]. unfold quarantine.
    destruct (jget i (ha_claims a)) as [rw|] eqn:Ei; [|naive_solver].
    intros a' Hw [?|[-> ->]]%(write_row_back _ _ _ _ _ _ Hw); [naive_solver|done].
  - intros Hg' Hp. exfalso. revert Hg'. apply or_else_get; [naive_solver|]. unfold adopt.
    destruct (jget i (ha_claims a)) as [rw|] eqn:Ei; [|naive_solver].
    intros a' Hw [?|[-> ->]]%(write_row_back _ _ _ _ _ _ Hw); [naive_solver|]. simpl in Hp. naive_solver.
  - intros Hg' Hp. exfalso. revert Hg'. apply or_else_get; [naive_solver|]. unfold chargeRecoveredCell.
    destruct (activeClaimFor _ _ _); [naive_solver|]. simpl. destruct (jhas _ _); [done|].
    intros a' Hw [?|[_ ->]]%(write_row_back _ _ _ _ _ _ Hw); [naive_solver|done].
  - intros Hg' Hp. revert Hg'. apply or_else_get; [naive_solver|]. unfold reconcileRow, reconcileTo.
    destruct (no_pid rw) eqn:En.
    + destruct ((cr_phase rw === RESERVED) || _) eqn:E1.
      * intros a' Hset [?|[-> Hto]]%(settle_get _ _ _ _ _ _ Hset); [naive_solver|].
        split; [done|]. right. split; [done|]. by apply in_phases.
      * destruct (negb _); [|naive_solver].
        intros a' Hset [?|[-> Hto]]%(settle_get _ _ _ _ _ _ Hset); [naive_solver|congruence].
    + intros a' Hset [?|[-> Hto]]%(settle_get _ _ _ _ _ _ Hset); [naive_solver|].
      split; [done|]. left. split; [done|]. destruct r; simpl in Hto; congruence.
Qed.

(** ** Retrying a reservation *)

Lemma activeClaimFor_unique a id row run cell :
  tables_ok a -> jget id (ha_claims a) = Some row -> claims_cell run cell row = true ->
  activeClaimFor run cell a = Some id.
Proof.
  intros [Hnd Hu] Hg Hc. unfold activeClaimFor.
  destruct (find (fun kv => claims_cell run cell kv.2) (ha_claims a)) as [[j s]|] eqn:E; simpl.
  - apply find_some in E as [Hin Hs]. simpl in Hs. f_equal.
    apply list_elem_of_In, jget_NoDup in Hin; [|done]. unfold claims_cell in *. reflect.
    eapply (Hu j s id row); try done. split; congruence.
  - apply jget_elem, list_elem_of_In in Hg. eapply find_none in E; [|exact Hg]. simpl in E. congruence.
Qed.

Lemma find_jset_same (p : ClaimRow -> bool) id row row0 claims :
  jget id claims = Some row0 -> p row = p row0 ->
  fst <$> find (fun kv : string * ClaimRow => p kv.2) (jset id row claims) =
  fst <$> find (fun kv => p kv.2) claims.
Proof.
  intros (l1 & l2 & -> & Hset)%jset_split Hp. rewrite Hset. clear Hset.
  induction l1 as [|[k v] l1 IH]; simpl; [rewrite Hp; by destruct (p row0)|]. by destruct (p v).
Qed.

(** What a successful reservation leaves behind. *)
Definition reserved_under (a : Authority) (req : CapacityReserveRequest) (key pkey id tok : string) : Prop :=
  exists row, jget id (ha_claims a) = Some row /\ terminal row = false /\
    cr_owner_token_hash row = tokenHash tok /\
    ha_idempotency a !! (pkey, key) = Some (digestOf (rq_request req), id) /\
    (activeClaimFor (rq_runId req) (rq_cellId req) a = None \/
     activeClaimFor (rq_runId req) (rq_cellId req) a = Some id).

Lemma reserveFresh_reserved fresh req key pkey a id tok a' :
  tables_ok a -> reserveFresh fresh req pkey (digestOf (rq_request req)) key a = (ReserveOk id tok, a') ->
  reserved_under a' req key pkey id tok /\ tok = fr_token fresh.
Proof.
  intros Ht. unfold reserveFresh. destruct (overruns _ _ _ _); [|done].
  destruct (jhas _ _); [done|]. destruct (ha_idempotency a !! _); [done|].
  destruct (write_row _ _ a) as [a1|] eqn:E; [|done]. intros [= <- <- <-]. split; [|done].
  pose proof (write_row_tables _ _ _ _ Ht E) as Ht1.
  pose proof (write_row_get _ _ _ _ (fr_claimId fresh) E) as Hg. rewrite decide_True in Hg by done.
  eexists. simpl. rewrite lookup_insert_eq. split_and!; [exact Hg|done..|].
  right. eapply (activeClaimFor_unique a1); [done|exact Hg|]. unfold claims_cell. simpl. by rewrite !same_refl.
Qed.

Lemma reserve_reserved fresh req key pkey a id tok a' :
  tables_ok a -> reserve fresh req key pkey a = (ReserveOk id tok, a') ->
  reserved_under a' req key pkey id tok /\ tok = fr_token fresh.
Proof.
  intros Ht. unfold reserve. destruct (match activeClaimFor _ _ _ with Some _ => _ | None => _ end) eqn:Ef; [done|].
  destruct (ha_idempotency a !! (pkey, key)) as [[d i]|] eqn:Ei; [|by apply reserveFresh_reserved].
  destruct (negb _) eqn:Ed; [done|]. destruct (jget i (ha_claims a)) as [row|] eqn:Eg; [|by apply reserveFresh_reserved].
  destruct (terminal row) eqn:Et; [by apply reserveFresh_reserved|].
  intros [= <- <- <-]. split; [|done]. eexists. simpl.
  rewrite jget_jset_eq. split_and!; [done|exact Et|done|by reflect; subst|].
  unfold activeClaimFor in *. simpl.
  rewrite (find_jset_same _ _ _ row) by (done || by unfold claims_cell, active).
  destruct (fst <$> find _ _) as [j|]; [|by left]. right. simpl in Ef. by reflect.
Qed.

Lemma reserve_again fresh req key pkey a id tok :
  reserved_under a req key pkey id tok ->
  exists row, jget id (ha_claims a) = Some row /\
  let row' := mkClaim (cr_run_id row) (cr_cell_id row) (cr_agent_id row) (cr_backend_id row)
                (cr_phase row) (cr_requested row) (tokenHash (fr_token fresh)) (cr_principal row)
                (cr_idempotency_key row) (cr_request_digest row) (cr_spawned_pid row)
                (cr_spawn_startticks row) (cr_cgroup_path row) in
  reserve fresh req key pkey a =
    (ReserveOk id (fr_token fresh),
     with_tokens (<[id := fr_token fresh]> (ha_tokens a))
       (mkAuthority (ha_capacity a) (ha_maxConcurrentCells a) (jset id row' (ha_claims a))
          (ha_idempotency a) (ha_tokens a))).
Proof.
  intros (row & Hg & Ht & Hh & Hi & Ha). exists row. split; [done|]. simpl. unfold reserve. rewrite Hi. simpl.
  rewrite same_refl, Hg, Ht. simpl. destruct Ha as [->| ->]; [done|]. by rewrite same_refl.
Qed.

(** Retrying a granted reservation (same principal, key and request, for instance
    after a lost reply) returns the same claim under a new token, charges nothing
    more, and takes the claim away from the holder of the old token: a release or
    phase report with it is refused. *)
Theorem reserve_retry_same_claim fresh1 fresh2 req key pkey a id tok a1 :
  tables_ok a -> tokenHash (fr_token fresh1) <> tokenHash (fr_token fresh2) ->
  reserve fresh1 req key pkey a = (ReserveOk id tok, a1) ->
  exists a2, reserve fresh2 req key pkey a1 = (ReserveOk id (fr_token fresh2), a2) /\
    charged a2 = charged a1 /\ jkeys (ha_claims a2) = jkeys (ha_claims a1) /\
    (exists phase, releaseStart id tok a2 = RelRejected phase) /\
    (forall phase spawn, updatePhase id tok phase spawn a2 = None).
Proof.
  intros Ht Hne [Hr ->]%reserve_reserved; [|done].
  destruct (reserve_again fresh2 _ _ _ _ _ _ Hr) as (row & Hg & ->). eexists. split; [done|].
  split_and!.
  - unfold charged, active_rows. simpl.
    match goal with |- context [jset id ?r' _] => destruct (active_rows_split _ _ _ r' Hg) as (rest & H1 & H2) end.
    rewrite H1, H2. unfold active. simpl. by destruct (negb _).
  - simpl. rewrite jkeys_jset. rewrite decide_True; [done|]. eauto with orcana.
  - exists (cr_phase row). unfold releaseStart. simpl. rewrite jget_jset_eq. simpl.
    by rewrite (proj2 (same_neq _ _)).
  - intros phase spawn. unfold updatePhase. simpl. rewrite jget_jset_eq. simpl.
    by rewrite (proj2 (same_neq _ _)).
Qed.
End Authority.

(** ** Concrete runs *)

Definition sample_hash (t : string) : string := "sha256:" +:+ t.
Definition sample_digest (r : ResourceRequest) : string :=
  js_join "," ((fun z => pretty z) <$> [cpuQuota r; memoryBytes r; pids r; ioWeight r; networkSlots r; tempBytes r]).
Definition sample_capacity : ResourceRequest := mkRequest 1000 100 10 0 1 0.
Definition sample_reserve (cell : string) : CapacityReserveRequest :=
  mkReserveReq (mkRequest 600 60 4 0 0 0) "run" cell None None.
Definition sample_fresh (n : string) : Fresh := mkFresh ("claim_" +:+ n) ("tok_" +:+ n).
Abbreviation sample_op := (apply_op sample_hash sample_digest).
Abbreviation sample_empty := (empty_authority sample_capacity 2).

Lemma authority_no_overcommit_witness :
  let a := sample_op (sample_op sample_empty (ao_reserve (sample_fresh "1") (sample_reserve "c1") "k1" "p"))
             (ao_updatePhase "claim_1" "tok_1" EXECUTING (Some (42%Z, 7%Z, None))) in
  request_le (charged a) sample_capacity /\ (Z.of_nat (length (active_rows a)) <= 2)%Z.
Proof.
  apply (authority_no_overcommit sample_hash sample_digest).
  - unfold request_nonneg, request_le. simpl. lia.
  - lia.
  - apply authority_run_step; [apply authority_run_step; [apply authority_run_refl|]|].
    + unfold op_guarded, request_nonneg, request_le. simpl. lia.
    + vm_compute. reflexivity.
Defined.

Lemma reserve_retry_same_claim_witness :
  let a1 := (reserve sample_hash sample_digest (sample_fresh "1") (sample_reserve "c1") "k1" "p" sample_empty).2 in
  exists a2, reserve sample_hash sample_digest (sample_fresh "2") (sample_reserve "c1") "k1" "p" a1 =
    (ReserveOk "claim_1" "tok_2", a2) /\
    charged a2 = charged a1 /\ jkeys (ha_claims a2) = jkeys (ha_claims a1) /\
    (exists phase, releaseStart sample_hash "claim_1" "tok_1" a2 = RelRejected phase) /\
    (forall phase spawn, updatePhase sample_hash "claim_1" "tok_1" phase spawn a2 = None).
Proof.
  apply (reserve_retry_same_claim sample_hash sample_digest (sample_fresh "1") (sample_fresh "2")
           (sample_reserve "c1") "k1" "p" sample_empty "claim_1" "tok_1").
  - split; [constructor|done].
  - vm_compute. discriminate.
  - vm_compute. reflexivity.
Defined.

Definition sample_claim : ClaimRow :=
  mkClaim "run" "c1" None None EXECUTING (mkRequest 600 60 4 0 0 0) (sample_hash "tok_1") "p" "k1"
    (sample_digest (mkRequest 600 60 4 0 0 0)) (Some 42%Z) (Some 7%Z) None.
Lemma claim_freed_only_on_proof_witness :
  freed_by sample_hash (mkAuthority sample_capacity 2 [("claim_1", sample_claim)] ∅ ∅) "claim_1" sample_claim
    (ao_reconcileRow "claim_1" sample_claim proven).
Proof.
  eapply (claim_freed_only_on_proof sample_hash sample_digest _ _ _ _ (set_phase RELEASED sample_claim)).
  - reflexivity.
  - reflexivity.
  - vm_compute. reflexivity.
  - reflexivity.
Defined.

(** Reconciliation frees a claim that is only [RESERVED], although its owner
    may be about to spawn: the capacity is granted again, the owner's token
    still matches the released row, and its next phase report makes the row
    active without looking at the capacity. *)
Lemma resurrected_claim_overcommits :
  let a := fold_left sample_op
    [ao_reserve (sample_fresh "1") (sample_reserve "c1") "k1" "p";
     ao_reconcileRow "claim_1" (mkClaim "run" "c1" None None RESERVED (mkRequest 600 60 4 0 0 0)
        (sample_hash "tok_1") "p" "k1" (sample_digest (mkRequest 600 60 4 0 0 0)) None None None) unknown;
     ao_reserve (sample_fresh "2") (sample_reserve "c2") "k2" "p";
     ao_updatePhase "claim_1" "tok_1" EXECUTING (Some (42%Z, 7%Z, None))] sample_empty in
  length (active_rows a) = 2 /\ cpuQuota (charged a) = 1200%Z /\ cpuQuota (ha_capacity a) = 1000%Z.
Proof. vm_compute. auto. Qed.
