(* ===== verification/FairQueue.v ===== *)
(** The fair queue and the run-level fairness gates.

    Models [src/src/runtime/linux/scheduler/queue.ts] ([FairQueue]) and
    [src/src/runtime/linux/scheduler/fairness.ts] ([RunFairnessScheduler]).
    [Date.now()] is an argument; the share of a run, a JavaScript number, is a
    rational, so the share cap is the floor of the exact product. *)
From S2P Require Import Prelude.
From Stdlib Require Import QArith Qround.
Open Scope nat_scope.

(** ** The queue *)

(** src/src/runtime/linux/scheduler/queue.ts # QueuePriority *)
Inductive QueuePriority := interactive | normal | analysis | verification | evolution | low.

#[export] Instance priority_eq_dec : EqDecision QueuePriority.
Proof. solve_decision. Defined.

(** src/src/runtime/linux/scheduler/queue.ts # PRIORITY_WEIGHT *)
Definition PRIORITY_WEIGHT (p : QueuePriority) : Z :=
  match p with
  | interactive => 100 | verification => 80 | normal => 50
  | analysis => 30 | low => 20 | evolution => 10
  end.

(** src/src/runtime/linux/scheduler/queue.ts # QueueItem *)
Record QueueItem := mkItem {
  qi_id : string;
  qi_runId : string;
  qi_agentId : option string;
  qi_priority : QueuePriority;
  qi_weight : Z;
  qi_enqueuedAt : Z;
}.

(** src/src/runtime/linux/scheduler/queue.ts # FairQueue @30-32 *)
Record FairQueue := mkQueue {
  fq_items : list QueueItem;
  fq_running : gmap string Z;
}.
Definition newFairQueue : FairQueue := mkQueue [] ∅.
Definition with_items (l : list QueueItem) (q : FairQueue) : FairQueue := mkQueue l (fq_running q).

(** The comparator: [cmp(a, b) < 0]. *)
Definition item_before (a b : QueueItem) : bool :=
  let wa := PRIORITY_WEIGHT (qi_priority a) in
  let wb := PRIORITY_WEIGHT (qi_priority b) in
  if negb (wa =? wb)%Z then (wb - wa <? 0)%Z else (qi_enqueuedAt a - qi_enqueuedAt b <? 0)%Z.

(** src/src/runtime/linux/scheduler/queue.ts # FairQueue.enqueue

    The item as stored, with its time of arrival. *)
Definition enqueue (item : QueueItem) (q : FairQueue) : FairQueue :=
  with_items (jsort item_before (fq_items q ++ [item])) q.

(** src/src/runtime/linux/scheduler/queue.ts # FairQueue.peek *)
Definition peek (q : FairQueue) : option QueueItem := head (fq_items q).

(** src/src/runtime/linux/scheduler/queue.ts # FairQueue.dequeue *)
Definition dequeue (q : FairQueue) : option QueueItem * FairQueue :=
  (head (fq_items q), with_items (tail (fq_items q)) q).

Fixpoint remove_first (id : string) (items : list QueueItem) : list QueueItem :=
  match items with
  | [] => []
  | i :: items => if qi_id i === id then items else i :: remove_first id items
  end.

(** src/src/runtime/linux/scheduler/queue.ts # FairQueue.remove *)
Definition remove (id : string) (q : FairQueue) : bool * FairQueue :=
  (existsb (fun i => qi_id i === id) (fq_items q), with_items (remove_first id (fq_items q)) q).

(** src/src/runtime/linux/scheduler/queue.ts # FairQueue.countForAgent *)
Definition countForAgent (agentId : string) (q : FairQueue) : nat :=
  count_where (fun i => qi_agentId i === Some agentId) (fq_items q).

(** src/src/runtime/linux/scheduler/queue.ts # FairQueue.countForRun *)
Definition countForRun (runId : string) (q : FairQueue) : nat :=
  count_where (fun i => qi_runId i === runId) (fq_items q).

(** src/src/runtime/linux/scheduler/queue.ts # FairQueue.removeRun *)
Definition removeRun (runId : string) (q : FairQueue) : nat * FairQueue :=
  let kept := filter (fun i => (qi_runId i === runId) = false) (fq_items q) in
  (length (fq_items q) - length kept, with_items kept q).

(** The map's key for an item without an agent is the empty string. *)
Definition agent_key (i : QueueItem) : string := default "" (qi_agentId i).
Definition running_of (i : QueueItem) (q : FairQueue) : Z := default 0%Z (fq_running q !! agent_key i).

(** src/src/runtime/linux/scheduler/queue.ts # FairQueue.begin *)
Definition begin (i : QueueItem) (q : FairQueue) : FairQueue :=
  mkQueue (fq_items q) (<[agent_key i := (running_of i q + 1)%Z]> (fq_running q)).

(** src/src/runtime/linux/scheduler/queue.ts # FairQueue.finish *)
Definition finish (i : QueueItem) (q : FairQueue) : FairQueue :=
  let current := (running_of i q - 1)%Z in
  mkQueue (fq_items q)
    (if (current <=? 0)%Z then delete (agent_key i) (fq_running q) else <[agent_key i := current]> (fq_running q)).

(** src/src/runtime/linux/scheduler/queue.ts # FairQueue.nextWithinAgentLimit *)
Definition nextWithinAgentLimit (maxPerAgent : Z) (q : FairQueue) : option QueueItem :=
  match find (fun i => (running_of i q <? maxPerAgent)%Z) (fq_items q) with
  | Some i => Some i
  | None => head (fq_items q)
  end.

(** src/src/runtime/linux/scheduler/queue.ts # FairQueue.takeWithinAgentLimit *)
Definition takeWithinAgentLimit (maxPerAgent : Z) (q : FairQueue) : option QueueItem * FairQueue :=
  match nextWithinAgentLimit maxPerAgent q with
  | None => (None, q)
  | Some i => (Some i, (remove (qi_id i) q).2)
  end.

(** src/src/runtime/linux/scheduler/queue.ts # FairQueue.resetRunning *)
Definition resetRunning (q : FairQueue) : FairQueue := mkQueue (fq_items q) ∅.

(** ** The order of the queue *)

Definition item_le (a b : QueueItem) : Prop := item_before b a = false.

Lemma item_before_spec a b :
  item_before a b = true <->
  (PRIORITY_WEIGHT (qi_priority b) < PRIORITY_WEIGHT (qi_priority a) \/
   PRIORITY_WEIGHT (qi_priority a) = PRIORITY_WEIGHT (qi_priority b) /\ qi_enqueuedAt a < qi_enqueuedAt b)%Z.
Proof.
  unfold item_before. destruct (_ =? _)%Z eqn:E; simpl; rewrite Z.ltb_lt; reflect; lia.
Qed.
Lemma item_le_spec a b :
  item_le a b <->
  (PRIORITY_WEIGHT (qi_priority b) < PRIORITY_WEIGHT (qi_priority a) \/
   PRIORITY_WEIGHT (qi_priority a) = PRIORITY_WEIGHT (qi_priority b) /\ qi_enqueuedAt a <= qi_enqueuedAt b)%Z.
Proof.
  unfold item_le. destruct (item_before b a) eqn:E.
  - split; [done|]. apply item_before_spec in E. lia.
  - split; [intros _|done]. destruct (decide (item_before b a = true)) as [|Hn]; [congruence|].
    rewrite item_before_spec in Hn. lia.
Qed.
#[export] Instance item_le_trans : Transitive item_le.
Proof. intros a b c. rewrite !item_le_spec. lia. Qed.
Lemma item_before_le a b : item_before a b = true -> item_le a b.
Proof. rewrite item_before_spec, item_le_spec. lia. Qed.

Lemma PRIORITY_WEIGHT_inj p q : PRIORITY_WEIGHT p = PRIORITY_WEIGHT q -> p = q.
Proof. by destruct p, q. Qed.

(** On a sorted queue the sort only places the new item. *)
Lemma enqueue_sorted item q :
  StronglySorted item_le (fq_items q) -> fq_items (enqueue item q) = sort_insert item_before item (fq_items q).
Proof. intros Hs. simpl. by rewrite jsort_snoc, (jsort_sorted_id item_before). Qed.

Lemma with_priority_insert p item items :
  StronglySorted item_le items -> Forall (fun y => (qi_enqueuedAt y <= qi_enqueuedAt item)%Z) items ->
  filter (fun i => qi_priority i = p) (sort_insert item_before item items) =
  filter (fun i => qi_priority i = p) items ++ (if decide (qi_priority item = p) then [item] else []).
Proof.
  intros Hs Ht. induction items as [|y items IH]; simpl; [by rewrite filter_cons, filter_nil|].
  apply StronglySorted_inv in Hs as [Hs Hall]. apply Forall_cons in Ht as [Hy Ht].
  destruct (item_before item y) eqn:E.
  - apply item_before_spec in E. rewrite (filter_cons _ item).
    destruct (decide (qi_priority item = p)) as [<-|]; [|by rewrite app_nil_r].
    rewrite (filter_none _ (y :: items)); [done|].
    constructor; [intros Heq; rewrite Heq in E; lia|].
    eapply Forall_impl; [exact Hall|]. intros z Hz Heq. apply item_le_spec in Hz. rewrite Heq in Hz. lia.
  - rewrite !filter_cons, IH by done. by destruct (decide (qi_priority y = p)).
Qed.

(** A history of the queue: what was enqueued, in order, at non-decreasing
    times, with removals in between. *)
Inductive queue_run : list QueueItem -> FairQueue -> Prop :=
| qr_empty r : queue_run [] (mkQueue [] r)
| qr_enqueue hist item q : queue_run hist q ->
    Forall (fun y => (qi_enqueuedAt y <= qi_enqueuedAt item)%Z) hist ->
    queue_run (hist ++ [item]) (enqueue item q)
| qr_dequeue hist q : queue_run hist q -> queue_run hist (dequeue q).2
| qr_remove hist id q : queue_run hist q -> queue_run hist (remove id q).2
| qr_removeRun hist run q : queue_run hist q -> queue_run hist (removeRun run q).2
| qr_running hist r q : queue_run hist q -> queue_run hist (mkQueue (fq_items q) r).

Lemma remove_first_sublist id items : sublist (remove_first id items) items.
Proof.
  induction items as [|i items IH]; simpl; [done|].
  case_match; [by apply sublist_cons|by apply sublist_skip].
Qed.
Definition order_inv (hist : list QueueItem) (q : FairQueue) : Prop :=
  StronglySorted item_le (fq_items q) /\ fq_items q ⊆ hist /\
  forall p, sublist (filter (fun i => qi_priority i = p) (fq_items q)) (filter (fun i => qi_priority i = p) hist).

Lemma order_inv_sublist hist q items :
  order_inv hist q -> sublist items (fq_items q) -> order_inv hist (with_items items q).
Proof.
  intros (Hs & Hin & Hp) Hsub. split_and!; simpl.
  - by eapply StronglySorted_sublist.
  - intros x Hx. by eapply Hin, elem_of_sublist.
  - intros p. etrans; [|apply Hp]. by apply sublist_filter_mono.
Qed.

Lemma queue_run_inv hist q : queue_run hist q -> order_inv hist q.
Proof.
  induction 1 as [r|hist item q _ IH Ht|hist q _ IH|hist id q _ IH|hist run q _ IH|hist r q _ IH].
  - split_and!; [constructor|done|done].
  - destruct IH as (Hs & Hin & Hp).
    assert (Forall (fun y => (qi_enqueuedAt y <= qi_enqueuedAt item)%Z) (fq_items q)) as Ht'.
    { rewrite Forall_forall in *. intros y Hy. by apply Ht, Hin. }
    unfold order_inv. rewrite enqueue_sorted by done. split_and!.
    + apply sort_insert_sorted; [by intros|apply item_before_le|apply item_le_trans|done].
    + intros x. rewrite sort_insert_perm, elem_of_app, elem_of_cons, list_elem_of_singleton.
      intros [?|?]; [by right|left; by apply Hin].
    + intros p. rewrite with_priority_insert, filter_app by done. apply sublist_app; [done|].
      by rewrite filter_cons, filter_nil.
  - apply order_inv_sublist; [done|]. destruct (fq_items q); simpl; [done|by apply sublist_cons].
  - apply order_inv_sublist; [done|]. apply remove_first_sublist.
  - apply order_inv_sublist; [done|]. apply sublist_filter.
  - done.
Qed.

(** Priority order, FIFO within a priority: whatever was enqueued (at
    non-decreasing times), dequeued, removed or dropped with its run, the queue
    holds items of higher weight first and the items of one priority in the order
    they arrived; so what [dequeue] takes is never behind an item of higher weight
    or an earlier one of its own priority. *)
Theorem fair_queue_fifo hist q :
  queue_run hist q ->
  StronglySorted (fun a b => (PRIORITY_WEIGHT (qi_priority b) <= PRIORITY_WEIGHT (qi_priority a))%Z) (fq_items q) /\
  (forall p, sublist (filter (fun i => qi_priority i = p) (fq_items q)) (filter (fun i => qi_priority i = p) hist)) /\
  (forall i j, (dequeue q).1 = Some i -> j ∈ fq_items (dequeue q).2 ->
     (PRIORITY_WEIGHT (qi_priority j) < PRIORITY_WEIGHT (qi_priority i))%Z \/
     (qi_priority j = qi_priority i /\ (qi_enqueuedAt i <= qi_enqueuedAt j)%Z)).
Proof.
  intros (Hs & Hin & Hp)%queue_run_inv. split_and!; [|done|].
  - eapply StronglySorted_weaken; [|exact Hs]. intros a b Hab%item_le_spec. lia.
  - unfold dequeue. destruct (fq_items q) as [|x items]; simpl; [done|]. intros i j [= ->] Hj.
    apply StronglySorted_inv in Hs as [_ Hall]. rewrite Forall_forall in Hall.
    apply Hall, item_le_spec in Hj as [?|[E ?]]; [by left|right].
    split; [|done]. symmetry. by apply PRIORITY_WEIGHT_inj.
Qed.

(** ** The run-level gates *)

(** src/src/runtime/linux/scheduler/fairness.ts # FairnessConfig *)
Record FairnessConfig := mkFairness {
  fc_totalSlots : Z;
  fc_maxRunShare : Q;
  fc_evolutionQuota : Z;
  fc_interactiveReserved : Z;
}.

(** src/src/runtime/linux/scheduler/fairness.ts # DEFAULT_FAIRNESS *)
Definition DEFAULT_FAIRNESS : FairnessConfig := mkFairness 6 (1 # 2) 1 1.

Record RunEntry := mkEntry { re_count : Z; re_evolution : Z; re_interactive : Z }.

(** src/src/runtime/linux/scheduler/fairness.ts # RunFairnessScheduler @38-43 *)
Record RunFairness := mkRunFairness {
  rf_queue : FairQueue;
  rf_running : list (string * RunEntry);
}.

(** src/src/runtime/linux/scheduler/fairness.ts # FairnessDecision *)
Record FairnessDecision := mkDecision {
  fd_allowed : option QueueItem;
  fd_denied : option QueueItem;
}.

Definition sum_entries (f : RunEntry -> Z) (entries : list (string * RunEntry)) : Z :=
  fold_left (fun a e => a + f e)%Z (jvalues entries) 0%Z.

(** src/src/runtime/linux/scheduler/fairness.ts # RunFairnessScheduler.enqueue *)
Definition fair_enqueue (item : QueueItem) (s : RunFairness) : RunFairness :=
  mkRunFairness (enqueue item (rf_queue s)) (rf_running s).

Definition bump_entry (p : QueuePriority) (e : RunEntry) : RunEntry :=
  mkEntry (re_count e + 1) (if p === evolution then re_evolution e + 1 else re_evolution e)
          (if p === interactive then re_interactive e + 1 else re_interactive e).

(** src/src/runtime/linux/scheduler/fairness.ts # RunFairnessScheduler.markRunning *)
Definition markRunning (item : QueueItem) (s : RunFairness) : RunFairness :=
  let entry := default (mkEntry 0 0 0) (jget (qi_runId item) (rf_running s)) in
  mkRunFairness (remove (qi_id item) (rf_queue s)).2
    (jset (qi_runId item) (bump_entry (qi_priority item) entry) (rf_running s)).

(** src/src/runtime/linux/scheduler/fairness.ts # RunFairnessScheduler.markFinished *)
Definition markFinished (runId : string) (s : RunFairness) : RunFairness :=
  match jget runId (rf_running s) with
  | None => s
  | Some e =>
      let e := mkEntry (re_count e - 1) (re_evolution e) (re_interactive e) in
      mkRunFairness (rf_queue s)
        (if (re_count e <=? 0)%Z then jdelete runId (rf_running s) else jset runId e (rf_running s))
  end.

(** src/src/runtime/linux/scheduler/fairness.ts # RunFairnessScheduler.runningCount *)
Definition runningCount (s : RunFairness) : Z := sum_entries re_count (rf_running s).

Definition evolutionRunning (s : RunFairness) : Z := sum_entries re_evolution (rf_running s).

Section Gates.
Context (cfg : FairnessConfig).

Definition shareCap : Z := Z.max 1 (Qfloor (inject_Z (fc_totalSlots cfg) * fc_maxRunShare cfg)).

(** src/src/runtime/linux/scheduler/fairness.ts # RunFairnessScheduler.next @82-102

    The three gates of a candidate. *)
Definition gates (s : RunFairness) (c : QueueItem) : bool :=
  negb ((fc_totalSlots cfg - runningCount s <=? fc_interactiveReserved cfg)%Z && negb (qi_priority c === interactive)) &&
  negb ((qi_priority c === evolution) && (fc_evolutionQuota cfg <=? evolutionRunning s)%Z) &&
  match jget (qi_runId c) (rf_running s) with
  | Some e => negb (shareCap <=? re_count e)%Z
  | None => true
  end.

(** The scan of the queue: the first candidate that passes and is removed. *)
Fixpoint scan (s : RunFairness) (candidates : list QueueItem) : option (QueueItem * FairQueue) :=
  match candidates with
  | [] => None
  | c :: rest =>
      if gates s c then
        match remove (qi_id c) (rf_queue s) with
        | (true, q) => Some (c, q)
        | (false, _) => scan s rest
        end
      else scan s rest
  end.

(** src/src/runtime/linux/scheduler/fairness.ts # RunFairnessScheduler.next *)
Definition next (s : RunFairness) : FairnessDecision * RunFairness :=
  if (fc_totalSlots cfg <=? runningCount s)%Z then (mkDecision None (peek (rf_queue s)), s)
  else match scan s (fq_items (rf_queue s)) with
  | Some (c, q) => (mkDecision (Some c) None, mkRunFairness q (rf_running s))
  | None => (mkDecision None (peek (rf_queue s)), s)
  end.

(** A present candidate is always removed, so the scan is a search. *)
Lemma scan_find s candidates :
  candidates ⊆ fq_items (rf_queue s) ->
  scan s candidates = (fun c => (c, (remove (qi_id c) (rf_queue s)).2)) <$> find (gates s) candidates.
Proof.
  induction candidates as [|c rest IH]; intros Hin; [done|]. cbn [scan find].
  destruct (gates s c); [|apply IH; set_solver]. unfold remove.
  assert (existsb (fun i => qi_id i === qi_id c) (fq_items (rf_queue s)) = true) as ->; [|done].
  apply existsb_exists. exists c. split; [apply list_elem_of_In; set_solver|apply same_refl].
Qed.

(** The scheduler in use: [next], then [markRunning] of what it allowed, and
    [markFinished] of the run of a cell that ended.  [cells] is what runs. *)
Inductive fair_run : list QueueItem -> RunFairness -> Prop :=
| fr_new : fair_run [] (mkRunFairness newFairQueue [])
| fr_enqueue cells item s : fair_run cells s -> fair_run cells (fair_enqueue item s)
| fr_start cells s c s' : fair_run cells s -> next s = (mkDecision (Some c) None, s') ->
    fair_run (c :: cells) (markRunning c s')
| fr_denied cells s : fair_run cells s -> fd_allowed (next s).1 = None -> fair_run cells (next s).2
| fr_finish l c l' s : fair_run (l ++ c :: l') s -> fair_run (l ++ l') (markFinished (qi_runId c) s).

Definition cells_of (run : string) (cells : list QueueItem) : Z :=
  Z.of_nat (count_where (fun c => qi_runId c === run) cells).
Definition evolution_of (run : string) (cells : list QueueItem) : Z :=
  Z.of_nat (count_where (fun c => (qi_runId c === run) && (qi_priority c === evolution)) cells).

(** The counters of a run against the cells of that run. *)
Definition entry_ok (cells : list QueueItem) (run : string) (e : option RunEntry) : Prop :=
  match e with
  | Some e => re_count e = cells_of run cells /\ (0 < re_count e)%Z /\ (evolution_of run cells <= re_evolution e)%Z
  | None => cells_of run cells = 0%Z
  end.
Definition running_ok (cells : list QueueItem) (s : RunFairness) : Prop :=
  NoDup (jkeys (rf_running s)) /\ forall run, entry_ok cells run (jget run (rf_running s)).

Lemma cells_of_cons run c cells :
  cells_of run (c :: cells) = ((if qi_runId c === run then 1 else 0) + cells_of run cells)%Z.
Proof. unfold cells_of. rewrite count_where_cons. destruct (qi_runId c === run); lia. Qed.
Lemma evolution_of_cons run c cells :
  evolution_of run (c :: cells) =
  ((if (qi_runId c === run) && (qi_priority c === evolution) then 1 else 0) + evolution_of run cells)%Z.
Proof. unfold evolution_of. rewrite count_where_cons. destruct (_ && _); lia. Qed.
Lemma evolution_of_le run cells : (evolution_of run cells <= cells_of run cells)%Z.
Proof.
  unfold evolution_of, cells_of. apply Nat2Z.inj_le, count_where_le.
  intros c H. by apply andb_true_iff in H as [? _].
Qed.
Lemma cells_of_perm run l l' : l ≡ₚ l' -> cells_of run l = cells_of run l' /\ evolution_of run l = evolution_of run l'.
Proof. intros H. unfold cells_of, evolution_of, count_where. by rewrite H. Qed.
Lemma running_ok_perm l l' s : l ≡ₚ l' -> running_ok l s -> running_ok l' s.
Proof.
  intros Hp [Hnd H]. split; [done|]. intros run. specialize (H run). unfold entry_ok in *.
  destruct (cells_of_perm run _ _ Hp) as [<- <-]. done.
Qed.

Lemma markRunning_ok cells c s : running_ok cells s -> running_ok (c :: cells) (markRunning c s).
Proof.
  intros [Hnd H]. split; [simpl; auto with orcana|]. intros run. simpl. rewrite jget_jset.
  unfold entry_ok. rewrite !cells_of_cons, !evolution_of_cons. specialize (H run). case_decide as Hr.
  - subst run. rewrite same_refl. simpl. pose proof (evolution_of_le (qi_runId c) cells).
    destruct (jget _ _) as [e|]; simpl in *; destruct (qi_priority c === evolution); simpl; unfold evolution_of in *; lia.
  - rewrite (proj2 (same_neq _ _) Hr). simpl. by destruct (jget run (rf_running s)).
Qed.

Lemma markFinished_ok cells c s : running_ok (c :: cells) s -> running_ok cells (markFinished (qi_runId c) s).
Proof.
  intros [Hnd H]. unfold markFinished. pose proof (H (qi_runId c)) as Hc. unfold entry_ok in Hc.
  rewrite cells_of_cons, evolution_of_cons, same_refl in Hc.
  destruct (jget (qi_runId c) (rf_running s)) as [e|] eqn:Eg; [|unfold cells_of in Hc; lia].
  assert (forall run, qi_runId c <> run -> entry_ok cells run (jget run (rf_running s))) as Hother.
  { intros run Hr. specialize (H run). unfold entry_ok in *.
    rewrite cells_of_cons, evolution_of_cons, (proj2 (same_neq _ _) Hr) in H. by destruct (jget run _). }
  simpl. destruct (_ <=? 0)%Z eqn:E; reflect; (split; [simpl; auto with orcana|]);
    intros run; simpl; destruct (decide (qi_runId c = run)) as [<-|Hr].
  - rewrite jget_jdelete_eq by done. simpl. lia.
  - rewrite jget_jdelete_ne by done. by apply Hother.
  - rewrite jget_jset_eq. simpl. destruct (qi_priority c === evolution); simpl in *; lia.
  - rewrite jget_jset_ne by done. by apply Hother.
Qed.

Lemma sum_entries_acc f (entries : list (string * RunEntry)) a :
  fold_left (fun a e => a + f e)%Z (jvalues entries) a = (a + sum_entries f entries)%Z.
Proof.
  unfold sum_entries. revert a. induction entries as [|[k e] entries IH]; intros a; simpl; [lia|].
  rewrite IH, (IH (0 + f e)%Z). lia.
Qed.
Lemma sum_entries_cons f k e entries : sum_entries f ((k, e) :: entries) = (f e + sum_entries f entries)%Z.
Proof. unfold sum_entries at 1. simpl. apply sum_entries_acc. Qed.
(** Comparing a sum over the entries with a count over their keys. *)
Lemma sum_entries_count f (g : string -> nat) (R : Z -> Z -> Prop) entries :
  (forall a b c d, R a b -> R c d -> R (a + c) (b + d))%Z -> R 0%Z 0%Z ->
  (forall k e, (k, e) ∈ entries -> R (Z.of_nat (g k)) (f e)) ->
  R (Z.of_nat (sum_list (g <$> jkeys entries))) (sum_entries f entries).
Proof.
  intros Hadd H0. induction entries as [|[k e] entries IH]; intros H; [done|].
  rewrite sum_entries_cons. cbn [jkeys fmap list_fmap sum_list fst]. rewrite Nat2Z.inj_add.
  apply Hadd; [apply H; left|]. apply IH. intros k' e' Hin. apply H. by right.
Qed.

Lemma running_keys cells s c : running_ok cells s -> c ∈ cells -> qi_runId c ∈ jkeys (rf_running s).
Proof.
  intros [_ H] Hc. specialize (H (qi_runId c)). destruct (jget _ _) as [e|] eqn:E; [eauto with orcana|].
  exfalso. simpl in H. clear E. induction cells as [|d cells IH]; [by apply not_elem_of_nil in Hc|].
  rewrite cells_of_cons in H. apply elem_of_cons in Hc as [->|Hc].
  - rewrite same_refl in H. unfold cells_of in H. lia.
  - apply IH; [|done]. unfold cells_of in *. destruct (qi_runId d === qi_runId c); lia.
Qed.

Lemma runningCount_cells cells s : running_ok cells s -> runningCount s = Z.of_nat (length cells).
Proof.
  intros Hok. pose proof (fun c => running_keys cells s c Hok) as Hk. destruct Hok as [Hnd H]. symmetry.
  replace (length cells) with (count_where (fun _ : QueueItem => true) cells).
  2:{ clear. induction cells; [done|]. rewrite count_where_cons. simpl. by f_equal. }
  rewrite (count_where_by_key qi_runId _ _ (jkeys (rf_running s))) by done.
  apply (sum_entries_count re_count _ eq); [lia|done|].
  intros k e Hin. apply jget_NoDup in Hin; [|done]. specialize (H k). rewrite Hin in H. destruct H as (-> & _ & _).
  unfold cells_of. f_equal. apply count_where_ext. intros c. by rewrite andb_true_r.
Qed.
Lemma evolutionRunning_cells cells s : running_ok cells s ->
  (Z.of_nat (count_where (fun c => qi_priority c === evolution) cells) <= evolutionRunning s)%Z.
Proof.
  intros Hok. pose proof (fun c => running_keys cells s c Hok) as Hk. destruct Hok as [Hnd H].
  rewrite (count_where_by_key qi_runId _ _ (jkeys (rf_running s))) by done.
  apply (sum_entries_count re_evolution _ Z.le); [lia|done|].
  intros k e Hin. apply jget_NoDup in Hin; [|done]. specialize (H k). rewrite Hin in H. apply H.
Qed.

(** What the gates keep of the running cells. *)
Definition within_limits (cells : list QueueItem) : Prop :=
  (Z.of_nat (length cells) <= Z.max 0 (fc_totalSlots cfg))%Z /\
  (Z.of_nat (count_where (fun c => negb (qi_priority c === interactive)) cells)
     <= Z.max 0 (fc_totalSlots cfg - fc_interactiveReserved cfg))%Z /\
  (Z.of_nat (count_where (fun c => qi_priority c === evolution) cells) <= Z.max 0 (fc_evolutionQuota cfg))%Z /\
  (forall run, cells_of run cells <= shareCap)%Z.

Lemma within_limits_start cells s c s' :
  running_ok cells s -> within_limits cells -> next s = (mkDecision (Some c) None, s') ->
  within_limits (c :: cells) /\ rf_running s' = rf_running s.
Proof.
  intros Hok (H1 & H2 & H3 & H4). unfold next.
  destruct (fc_totalSlots cfg <=? runningCount s)%Z eqn:Et; [done|].
  rewrite scan_find by done. destruct (find (gates s) _) as [d|] eqn:Ef; simpl; [|done]. intros [= -> <-].
  apply find_some in Ef as [_ Hg]. unfold gates in Hg. apply andb_true_iff in Hg as [Hg Hg3].
  apply andb_true_iff in Hg as [Hg1 Hg2]. split; [|done].
  rewrite (runningCount_cells cells) in * by done. pose proof (evolutionRunning_cells _ _ Hok) as Hev.
  assert (Z.of_nat (count_where (fun c => negb (qi_priority c === interactive)) cells) <= Z.of_nat (length cells))%Z
    as Hni by (apply Nat2Z.inj_le, length_filter).
  reflect. unfold within_limits. rewrite !count_where_cons. split_and!.
  - simpl. lia.
  - destruct (negb (qi_priority c === interactive)) eqn:Ei; [|simpl; lia]. destruct Hg1 as [Hg1|Hg1]; reflect; [lia|].
    done.
  - destruct (qi_priority c === evolution) eqn:Ei; [|simpl; lia]. destruct Hg2 as [Hg2|Hg2]; reflect; [done|lia].
  - intros run. rewrite cells_of_cons. destruct (qi_runId c === run) eqn:Er; [|by apply H4]. reflect. subst run.
    destruct Hok as [_ Hok]. specialize (Hok (qi_runId c)). destruct (jget _ _) as [e|]; simpl in Hok.
    + reflect. lia.
    + rewrite Hok. unfold shareCap. lia.
Qed.

Lemma within_limits_finish l c l' : within_limits (l ++ c :: l') -> within_limits (l ++ l').
Proof.
  unfold within_limits. rewrite !length_app, !count_where_app, !count_where_cons. simpl.
  intros (H1 & H2 & H3 & H4). split_and!; [lia..|]. intros run. specialize (H4 run).
  unfold cells_of in *. rewrite count_where_app in *. rewrite count_where_cons in H4. lia.
Qed.

Lemma fair_run_inv cells s : fair_run cells s -> running_ok cells s /\ within_limits cells.
Proof.
  induction 1 as [|cells item s _ [IH1 IH2]|cells s c s' _ [IH1 IH2] Hn|cells s _ [IH1 IH2] Hn|l c l' s _ [IH1 IH2]].
  - split; [split; [constructor|done]|]. unfold within_limits, cells_of, shareCap. simpl. assert (forall p, count_where (A := QueueItem) p [] = 0) as Hz by done.
    split_and!; intros; rewrite ?Hz; lia.
  - done.
  - destruct (within_limits_start _ _ _ _ IH1 IH2 Hn) as [? Hr]. split; [|done].
    apply markRunning_ok. unfold running_ok. by rewrite Hr.
  - split; [|done]. unfold next in *. destruct (_ <=? _)%Z; [done|].
    by destruct (scan s _) as [[d q]|].
  - split; [|by eapply within_limits_finish]. apply markFinished_ok. eapply running_ok_perm; [|done].
    by rewrite Permutation_middle.
Qed.

(** No starvation by a run and no quota overrun: however cells are queued, started
    and finished through [next], [markRunning] and [markFinished], the running
    cells never exceed the total slots, cells that are not interactive leave the
    reserved slots free, evolution cells stay within their quota and no run holds
    more than its share of slots; and [next] skips a refused head: it starts the
    first queued item that passes every gate, and nothing only when none does or
    no slot is left. *)
Theorem fairness_limits cells s :
  fair_run cells s ->
  (Z.of_nat (length cells) <= Z.max 0 (fc_totalSlots cfg))%Z /\
  (Z.of_nat (count_where (fun c => negb (qi_priority c === interactive)) cells)
     <= Z.max 0 (fc_totalSlots cfg - fc_interactiveReserved cfg))%Z /\
  (Z.of_nat (count_where (fun c => qi_priority c === evolution) cells) <= Z.max 0 (fc_evolutionQuota cfg))%Z /\
  (forall run, cells_of run cells <= shareCap)%Z /\
  fd_allowed (next s).1 =
    (if (Z.of_nat (length cells) <? fc_totalSlots cfg)%Z then find (gates s) (fq_items (rf_queue s)) else None).
Proof.
  intros [Hok (H1 & H2 & H3 & H4)]%fair_run_inv. split_and!; [done..|]. unfold next.
  rewrite (runningCount_cells cells) by done. rewrite scan_find by done.
  destruct (_ <=? _)%Z eqn:E1, (_ <? _)%Z eqn:E2; reflect; try lia; [done|].
  by destruct (find _ _).
Qed.
End Gates.

Definition sample_item (id run : string) (p : QueuePriority) : QueueItem := mkItem id run None p 1 0.

Lemma fair_queue_fifo_witness :
  let q := enqueue (mkItem "b" "r" None interactive 1 2) (enqueue (mkItem "a" "r" None low 1 1) newFairQueue) in
  let hist := [mkItem "a" "r" None low 1 1; mkItem "b" "r" None interactive 1 2] in
  StronglySorted (fun a b => (PRIORITY_WEIGHT (qi_priority b) <= PRIORITY_WEIGHT (qi_priority a))%Z) (fq_items q) /\
  (forall p, sublist (filter (fun i => qi_priority i = p) (fq_items q)) (filter (fun i => qi_priority i = p) hist)) /\
  (forall i j, (dequeue q).1 = Some i -> j ∈ fq_items (dequeue q).2 ->
     (PRIORITY_WEIGHT (qi_priority j) < PRIORITY_WEIGHT (qi_priority i))%Z \/
     (qi_priority j = qi_priority i /\ (qi_enqueuedAt i <= qi_enqueuedAt j)%Z)).
Proof.
  apply fair_queue_fifo. apply (qr_enqueue [mkItem "a" "r" None low 1 1]).
  - apply (qr_enqueue []); [apply qr_empty|constructor].
  - repeat constructor. simpl. lia.
Defined.

(** Two evolution cells of one run, one started: the quota holds the other. *)
Definition two_evolutions : RunFairness :=
  fair_enqueue (sample_item "e2" "run" evolution)
    (fair_enqueue (sample_item "e1" "run" evolution) (mkRunFairness newFairQueue [])).
Definition started (s : RunFairness) : RunFairness :=
  match fd_allowed (next DEFAULT_FAIRNESS s).1 with
  | Some c => markRunning c (next DEFAULT_FAIRNESS s).2
  | None => s
  end.
Lemma fairness_limits_witness :
  let s := started two_evolutions in
  let cells := [sample_item "e1" "run" evolution] in
  (Z.of_nat (length cells) <= 6)%Z /\
  (Z.of_nat (count_where (fun c => negb (qi_priority c === interactive)) cells) <= 5)%Z /\
  (Z.of_nat (count_where (fun c => qi_priority c === evolution) cells) <= 1)%Z /\
  (forall run, cells_of run cells <= 3)%Z /\
  fd_allowed (next DEFAULT_FAIRNESS s).1 = find (gates DEFAULT_FAIRNESS s) (fq_items (rf_queue s)).
Proof.
  apply (fairness_limits DEFAULT_FAIRNESS). apply (fr_start _ [] two_evolutions).
  - do 2 apply fr_enqueue. apply fr_new.
  - vm_compute. reflexivity.
Defined.

(** [markFinished] only lowers the total of a run: as long as the run keeps a
    cell, a finished evolution cell still counts against the quota. *)
Lemma finished_evolution_still_counted :
  let busy := markRunning (sample_item "n" "run" normal) (started two_evolutions) in
  let s := markFinished "run" busy in
  evolutionRunning s = 1%Z /\ runningCount s = 1%Z /\ fd_allowed (next DEFAULT_FAIRNESS s).1 = None.
Proof. vm_compute. auto. Qed.
