(* ===== verification/Psi.v ===== *)
(** Pressure backpressure.

    Models [PsiBackpressure] and [calibratePsiThresholds] of
    [src/src/runtime/linux/scheduler/psi.ts].  Pressures and thresholds are
    exact rationals; a reading that is not a finite number is kept as such.
    Parsing [/proc/pressure] is not modelled: [tick] takes what was read. *)
From S2P Require Import Prelude.
From Stdlib Require Import QArith Qminmax Lqa.
Open Scope Q_scope.

(** src/src/runtime/linux/scheduler/psi.ts # PressureState *)
Inductive PressureState := NORMAL | CONSTRAINED | CRITICAL | RECOVERY.

#[export] Instance pressure_eq_dec : EqDecision PressureState.
Proof. solve_decision. Defined.

(** A [number] of a reading. *)
Inductive jsnum := Finite (q : Q) | NotFinite.

(** src/src/runtime/linux/scheduler/psi.ts # PsiReading

    [some.avg10], the only field the policy uses. *)
Record PsiReading := mkReading { some_avg10 : jsnum }.

(** src/src/runtime/linux/scheduler/psi.ts # PsiThresholds *)
Record PsiThresholds := mkThresholds { constrainedEnter : Q; criticalEnter : Q; criticalExit : Q }.

(** src/src/runtime/linux/scheduler/psi.ts # DEFAULT_PSI_THRESHOLDS *)
Definition DEFAULT_PSI_THRESHOLDS : PsiThresholds := mkThresholds 10 40 15.

Definition qlt (a b : Q) : bool := negb (Qle_bool b a).

(** src/src/runtime/linux/scheduler/psi.ts # calibratePsiThresholds *)
Definition calibratePsiThresholds (samples : list Q) : PsiThresholds :=
  let sorted := jsort qlt samples in
  let baseline := match sorted with
    | [] => 0
    | _ => default 0 (sorted !! Nat.div2 (length sorted))
    end in
  let constrained := Qmin 100 (Qmax 10 (baseline * 20)) in
  let critical := Qmin 100 (Qmax (Qmax 40 (baseline * 50)) constrained) in
  mkThresholds constrained critical (Qmin critical (critical * (2 # 5))).

(** src/src/runtime/linux/scheduler/psi.ts # SchedulerDecision *)
Record SchedulerDecision := mkPsiDecision {
  sd_state : PressureState;
  sd_pauseNewBuilds : bool;
  sd_stopLowPriorityPrefetch : bool;
  sd_gradualRecovery : bool;
  sd_concurrencyCap : Z;
}.

(** src/src/runtime/linux/scheduler/psi.ts # PsiBackpressure @101-104 *)
Record PsiBackpressure := mkPsi { ps_state : PressureState; ps_recoveryLevel : Z }.
Definition newPsiBackpressure : PsiBackpressure := mkPsi NORMAL 0.

(** src/src/runtime/linux/scheduler/psi.ts # PsiBackpressure.decision *)
Definition decision (p : PsiBackpressure) : SchedulerDecision :=
  match ps_state p with
  | NORMAL => mkPsiDecision NORMAL false false false 0
  | CONSTRAINED => mkPsiDecision CONSTRAINED false true false 0
  | CRITICAL => mkPsiDecision CRITICAL true true false 0
  | RECOVERY => mkPsiDecision RECOVERY false true true (2 + ps_recoveryLevel p)
  end.

(** What [readPsi] gives for memory, cpu and io. *)
Record Pressures := mkPressures {
  pr_memory : option PsiReading;
  pr_cpu : option PsiReading;
  pr_io : option PsiReading;
}.

Definition finite (r : option PsiReading) : Q :=
  match r with Some (mkReading (Finite q)) => q | _ => 0 end.
Definition peak (p : Pressures) : Q :=
  Qmax (Qmax (finite (pr_memory p)) (finite (pr_cpu p))) (finite (pr_io p)).

Section Psi.
Context (th : PsiThresholds).

(** src/src/runtime/linux/scheduler/psi.ts # PsiBackpressure.tick *)
Definition tick_state (r : Pressures) (p : PsiBackpressure) : PsiBackpressure :=
  let peak := peak r in
  match ps_state p with
  | NORMAL =>
      if Qle_bool (criticalEnter th) peak then mkPsi CRITICAL (ps_recoveryLevel p)
      else if Qle_bool (constrainedEnter th) peak then mkPsi CONSTRAINED (ps_recoveryLevel p)
      else p
  | CONSTRAINED =>
      if Qle_bool (criticalEnter th) peak then mkPsi CRITICAL (ps_recoveryLevel p)
      else if qlt peak (constrainedEnter th) then mkPsi NORMAL (ps_recoveryLevel p)
      else p
  | CRITICAL => if Qle_bool peak (criticalExit th) then mkPsi RECOVERY 0 else p
  | RECOVERY =>
      if Qle_bool (criticalEnter th) peak then mkPsi CRITICAL 0
      else if qlt peak (constrainedEnter th) then mkPsi NORMAL 0
      else mkPsi RECOVERY (Z.min (ps_recoveryLevel p + 1) 4)
  end.

Definition tick (r : Pressures) (p : PsiBackpressure) : SchedulerDecision * PsiBackpressure :=
  (decision (tick_state r p), tick_state r p).

(** The state after a sequence of ticks. *)
Definition after (rs : list Pressures) : PsiBackpressure :=
  fold_left (fun p r => (tick r p).2) rs newPsiBackpressure.

Lemma after_snoc rs r : after (rs ++ [r]) = (tick r (after rs)).2.
Proof. unfold after. by rewrite fold_left_app. Qed.

Lemma qle_true a b : Qle_bool a b = true <-> a <= b.
Proof. apply Qle_bool_iff. Qed.
Lemma qle_false a b : Qle_bool a b = false <-> b < a.
Proof.
  split; intros H.
  - apply Qnot_le_lt. intros Hle%qle_true. congruence.
  - destruct (Qle_bool a b) eqn:E; [|done]. apply qle_true in E. lra.
Qed.

(** One tick: who enters and leaves [CRITICAL]. *)
Lemma tick_critical r p :
  criticalExit th < criticalEnter th ->
  ps_state (tick_state r p) = CRITICAL <->
  criticalEnter th <= peak r \/ (ps_state p = CRITICAL /\ criticalExit th < peak r).
Proof.
  intros Hgap. unfold tick_state, qlt.
  destruct (ps_state p) eqn:Ep, (Qle_bool (criticalEnter th) (peak r)) eqn:E1,
    (Qle_bool (constrainedEnter th) (peak r)) eqn:E2, (Qle_bool (peak r) (criticalExit th)) eqn:E3;
    simpl; rewrite ?Ep; rewrite ?qle_true, ?qle_false in *;
    (split; [intros Hc|intros [Hc|[Hc1 Hc2]]]); try done; try lra; auto.
Qed.

(** Hysteresis: after any sequence of readings builds are paused exactly when some
    reading reached the critical threshold and every reading since stayed above
    the lower exit threshold; readings that are missing or not finite count as no
    pressure. *)
Theorem psi_critical_hysteresis rs :
  criticalExit th < criticalEnter th ->
  sd_pauseNewBuilds (decision (after rs)) = true <->
  exists l1 r l2, rs = l1 ++ r :: l2 /\ criticalEnter th <= peak r /\
    Forall (fun r' => criticalExit th < peak r') l2.
Proof.
  intros Hgap. assert (sd_pauseNewBuilds (decision (after rs)) = true <-> ps_state (after rs) = CRITICAL) as ->.
  { unfold decision. by destruct (ps_state (after rs)). }
  induction rs as [|r rs IH] using rev_ind.
  { split; [done|]. intros (l1 & r & l2 & Heq & _). by destruct l1. }
  rewrite after_snoc. cbn [tick snd]. rewrite tick_critical, IH by done. split.
  - intros [Hr|[(l1 & r' & l2 & -> & Hr' & Hl) Hr]].
    + by exists rs, r, [].
    + exists l1, r', (l2 ++ [r]). rewrite <- app_assoc. split_and!; [done..|].
      apply Forall_app. split; [done|]. by constructor.
  - intros (l1 & r' & l2 & Heq & Hr' & Hl). destruct l2 as [|x l2 _] using rev_ind.
    + apply app_inj_2 in Heq as [_ [= ->]]; [by left|done].
    + rewrite app_comm_cons, app_assoc in Heq. apply app_inj_2 in Heq as [-> [= ->]]; [|done].
      apply Forall_app in Hl as [Hl Hx]. apply Forall_cons in Hx as [Hx _].
      right. split; [|done]. by exists l1, r', l2.
Qed.

(** The recovery level stays in its range. *)
Lemma after_level rs : (0 <= ps_recoveryLevel (after rs) <= 4)%Z.
Proof.
  induction rs as [|r rs IH] using rev_ind; [done|]. rewrite after_snoc. cbn [tick snd]. unfold tick_state.
  destruct (ps_state (after rs)); repeat case_match; simpl; lia.
Qed.

(** Gradual recovery: the suggested concurrency cap is absent (0) or between 2 and
    6; the first decision after leaving the critical state caps at 2, and each
    further tick in recovery raises the cap by one until 6; and from every state
    two readings below both thresholds bring the policy back to normal. *)
Theorem psi_gradual_recovery rs r :
  let p := after rs in
  let d := (tick r p).1 in
  (sd_concurrencyCap d = 0 \/ 2 <= sd_concurrencyCap d <= 6)%Z /\
  (sd_gradualRecovery d = true <-> sd_state d = RECOVERY) /\
  (ps_state p = CRITICAL -> sd_state d <> CRITICAL -> sd_state d = RECOVERY /\ sd_concurrencyCap d = 2%Z) /\
  (ps_state p = RECOVERY -> sd_state d = RECOVERY ->
   sd_concurrencyCap d = Z.min (sd_concurrencyCap (decision p) + 1) 6) /\
  (forall r', peak r < constrainedEnter th -> peak r <= criticalExit th -> peak r < criticalEnter th ->
     peak r' < constrainedEnter th -> peak r' < criticalEnter th -> ps_state (after (rs ++ [r; r'])) = NORMAL).
Proof.
  intros p d. pose proof (after_level rs) as Hl. fold p in Hl. subst d. cbn [tick fst].
  assert (sd_state (decision (tick_state r p)) = ps_state (tick_state r p)) as Hs.
  { unfold decision. by destruct (ps_state (tick_state r p)). }
  split_and!.
  - unfold decision. destruct (ps_state (tick_state r p)) eqn:E; simpl; [lia..|].
    unfold tick_state in *. right. destruct (ps_state p) eqn:Ep; repeat case_match; simpl in *; try done; try lia; congruence.
  - unfold decision. by destruct (ps_state (tick_state r p)).
  - rewrite Hs. intros Hp Hne. unfold decision, tick_state in *. rewrite Hp in *.
    by destruct (Qle_bool (peak r) (criticalExit th)).
  - rewrite Hs. intros Hp Hr. unfold decision. rewrite Hp, Hr. unfold tick_state in *. rewrite Hp in *.
    repeat case_match; simpl in *; try done. lia.
  - intros r' H1 H2 H3 H4 H5.
    replace (rs ++ [r; r']) with ((rs ++ [r]) ++ [r']) by (by rewrite <- app_assoc).
    rewrite !after_snoc. fold p. cbn [tick snd].
    assert (forall x q, peak x < constrainedEnter th -> peak x < criticalEnter th -> ps_state q <> CRITICAL ->
      ps_state (tick_state x q) = NORMAL) as Hnorm.
    { intros x q Hx1 Hx2 Hq. unfold tick_state, qlt.
      apply qle_false in Hx1, Hx2. rewrite Hx1, Hx2. simpl. by destruct (ps_state q) eqn:Eq. }
    apply Hnorm; [done..|]. destruct (ps_state p) eqn:Ep; try (rewrite Hnorm; [done|done|done|by rewrite Ep]).
    unfold tick_state. rewrite Ep. apply qle_true in H2. by rewrite H2.
Qed.
End Psi.

(** Calibrated thresholds are reachable and leave a gap: whatever idle samples a
    host gives, all thresholds are within the percentage range a pressure can
    take, the constrained threshold is at least 10 and not above the critical one,
    the critical one is at least 40, and the exit threshold is strictly below it. *)
Theorem calibrated_thresholds_sound samples :
  let th := calibratePsiThresholds samples in
  10 <= constrainedEnter th /\ constrainedEnter th <= criticalEnter th /\
  40 <= criticalEnter th /\ criticalEnter th <= 100 /\
  0 <= criticalExit th /\ criticalExit th < criticalEnter th.
Proof.
  unfold calibratePsiThresholds. cbn [constrainedEnter criticalEnter criticalExit].
  generalize (match jsort qlt samples with
    | [] => 0 | _ => default 0 (jsort qlt samples !! Nat.div2 (length (jsort qlt samples))) end) as b.
  intros b. set (c := Qmin 100 (Qmax 10 (b * 20))).
  set (k := Qmin 100 (Qmax (Qmax 40 (b * 50)) c)).
  assert (10 <= c /\ c <= 100) as [Hc1 Hc2].
  { subst c. split; [|apply Q.le_min_l]. apply Q.min_glb; [lra|apply Q.le_max_l]. }
  assert (40 <= k /\ k <= 100 /\ c <= k) as (Hk1 & Hk2 & Hk3).
  { subst k. split_and!; [|apply Q.le_min_l|].
    - apply Q.min_glb; [lra|]. eapply Qle_trans; [|apply Q.le_max_l]. apply Q.le_max_l.
    - apply Q.min_glb; [done|apply Q.le_max_r]. }
  clearbody c k. split_and!; try lra.
  - apply Q.min_glb; lra.
  - eapply Qle_lt_trans; [apply Q.le_min_r|]. lra.
Qed.

Definition memory_pressure (q : Q) : Pressures := mkPressures (Some (mkReading (Finite q))) None None.

Lemma psi_critical_hysteresis_witness :
  sd_pauseNewBuilds (decision (after DEFAULT_PSI_THRESHOLDS [memory_pressure 50; memory_pressure 20])) = true <->
  exists l1 r l2, [memory_pressure 50; memory_pressure 20] = l1 ++ r :: l2 /\
    criticalEnter DEFAULT_PSI_THRESHOLDS <= peak r /\
    Forall (fun r' => criticalExit DEFAULT_PSI_THRESHOLDS < peak r') l2.
Proof. apply (psi_critical_hysteresis DEFAULT_PSI_THRESHOLDS). reflexivity. Defined.

Lemma psi_gradual_recovery_witness :
  ps_state (after DEFAULT_PSI_THRESHOLDS ([memory_pressure 50] ++ [memory_pressure 3; memory_pressure 3])) = NORMAL.
Proof.
  apply (psi_gradual_recovery DEFAULT_PSI_THRESHOLDS [memory_pressure 50] (memory_pressure 3));
    vm_compute; (reflexivity || discriminate).
Defined.
