(* ===== verification/Seccomp.v ===== *)
(** Seccomp profiles and the filters compiled from them.

    Models, of [src/src/runtime/linux], [landlock-seccomp.ts] (rule sets and
    profiles), [seccomp/profiles.ts] (the profile table and its promotion
    stages), [seccomp-bpf.ts] (the assembler of classic BPF filters, their byte
    encoding included) and [seccomp-oci.ts].  The machine that runs a filter is
    the one the repository's own test interprets filters with
    ([src/tests/runtime/linux/seccomp-bpf.test.ts]).  Writing the files is left
    out. *)
From S2P Require Import Prelude.
Open Scope Z_scope.
Open Scope list_scope.

(** ** Profiles *)

Inductive SeccompAction := SCMP_ACT_ERRNO | SCMP_ACT_ALLOW.
#[export] Instance SeccompAction_eq_dec : EqDecision SeccompAction.
Proof. solve_decision. Defined.

(** src/src/runtime/linux/landlock-seccomp.ts # SeccompProfile *)
Record SeccompProfile := mkSeccomp {
  defaultAction : SeccompAction;
  allowSyscalls : list string;
  denySyscalls : list string;
  seccomp_target : option string
}.

(** src/src/runtime/linux/landlock-seccomp.ts # BASE_SYSCALLS *)
Definition BASE_SYSCALLS : list string :=
  ["read"; "write"; "close"; "fstat"; "lseek"; "mmap"; "mprotect"; "munmap";
   "brk"; "access"; "openat"; "readlink"; "readlinkat"; "exit"; "exit_group";
   "getpid"; "gettid"; "getuid"; "getgid"; "geteuid"; "getegid"; "arch_prctl";
   "rt_sigaction"; "rt_sigprocmask"; "rt_sigreturn"; "clock_gettime";
   "getrandom"; "clone"; "execve"; "wait4"; "futex"; "pipe"; "pipe2";
   "dup"; "dup2"; "dup3"; "fcntl"; "ioctl"; "stat"; "lstat"; "newfstatat";
   "getdents64"; "readv"; "writev"; "pread64"; "pwrite64"; "sendfile"].

(** src/src/runtime/linux/landlock-seccomp.ts # DENY_SYSCALLS *)
Definition DENY_SYSCALLS : list string :=
  ["ptrace"; "kexec_load"; "reboot"; "mount"; "umount2"; "pivot_root";
   "setns"; "unshare"; "bpf"; "perf_event_open"; "userfaultfd"].

Inductive SeccompTarget := tg_inspect | tg_untrusted | tg_node | tg_bun | tg_generic.
Definition target_name (t : SeccompTarget) : string :=
  match t with
  | tg_inspect => "inspect" | tg_untrusted => "untrusted" | tg_node => "node"
  | tg_bun => "bun" | tg_generic => "generic"
  end.

(** src/src/runtime/linux/landlock-seccomp.ts # compileSeccompProfile *)
Definition compileSeccompProfile (target : SeccompTarget) : SeccompProfile :=
  let base := uniq BASE_SYSCALLS in
  let base :=
    match target with
    | tg_node | tg_bun =>
        fold_left (fun acc s => set_add s acc)
          ["socket"; "connect"; "bind"; "listen"; "accept4"; "epoll_create1"; "epoll_ctl";
           "epoll_wait"; "eventfd2"; "timerfd_create"; "timerfd_settime"; "getsockname";
           "getsockopt"; "setsockopt"; "shutdown"; "writefile"; "readfile"] base
    | _ => base
    end in
  {| defaultAction := SCMP_ACT_ERRNO;
     allowSyscalls := filter (fun s => s <> "writefile" /\ s <> "readfile") base;
     denySyscalls := DENY_SYSCALLS;
     seccomp_target := Some (target_name target) |}.

(** src/src/runtime/linux/landlock-seccomp.ts # seccompBackwardCompatible *)
Definition seccompBackwardCompatible (oldProfile newProfile : SeccompProfile) : bool :=
  let removed := filter (fun s => includes (allowSyscalls newProfile) s = false)
                        (allowSyscalls oldProfile) in
  match removed with
  | [] => true
  | _ => forallb (fun s => includes (denySyscalls newProfile) s) removed
  end.

(** ** Landlock rule sets *)

(** The [landlock] member of [LinuxCapabilities]. *)
Record LandlockCaps := mkLandlockCaps {
  ll_available : bool; ll_abi : option Z; ll_filesystemRules : bool }.

Record LandlockFs := mkLandlockFs {
  readable : list string; writable : list string; noExec : list string }.
Record LandlockNet := mkLandlockNet { tcpConnect : list string; udpConnect : list string }.

(** src/src/runtime/linux/landlock-seccomp.ts # LandlockRuleset *)
Record LandlockRuleset := mkRuleset {
  abi : Z; ll_filesystem : option LandlockFs; ll_network : option LandlockNet }.

(** src/src/runtime/linux/landlock-seccomp.ts # compileLandlockRuleset *)
Definition compileLandlockRuleset (caps : LandlockCaps) (profile : string) : LandlockRuleset :=
  let abi := default 0 (ll_abi caps) in
  {| abi := abi;
     ll_filesystem :=
       if 1 <=? abi then
         Some {| readable := ["/usr"; "/bin"; "/lib"; "/lib64"; "/etc/ssl/certs"; "/workspace"; "/tmp"];
                 writable := if profile === "inspect" then [] else ["/workspace"; "/tmp"];
                 noExec := ["/home"] |}
       else None;
     ll_network := if 4 <=? abi then Some {| tcpConnect := []; udpConnect := [] |} else None |}.

(** src/src/runtime/linux/landlock-seccomp.ts # landlockUsable *)
Definition landlockUsable (caps : LandlockCaps) : option string :=
  if negb (ll_available caps) then Some "Landlock LSM not enabled"
  else if negb (ll_filesystemRules caps) then Some "Landlock ABI has no filesystem rules"
  else None.

(** ** The profile table *)

Inductive RuntimeFamily := rf_node_bun | rf_python | rf_generic.
Inductive ToolKind := tk_readonly | tk_build | tk_test | tk_git | tk_compiler | tk_unknown.
Inductive SandboxProfile := sp_strict | sp_standard.
Inductive Architecture := ar_x86_64 | ar_aarch64.
#[export] Instance RuntimeFamily_eq_dec : EqDecision RuntimeFamily.
Proof. solve_decision. Defined.
#[export] Instance ToolKind_eq_dec : EqDecision ToolKind.
Proof. solve_decision. Defined.
#[export] Instance SandboxProfile_eq_dec : EqDecision SandboxProfile.
Proof. solve_decision. Defined.
#[export] Instance Architecture_eq_dec : EqDecision Architecture.
Proof. solve_decision. Defined.

(** src/src/runtime/linux/seccomp/profiles.ts # SeccompProfileKey *)
Record SeccompProfileKey := mkProfileKey {
  runtimeFamily : RuntimeFamily; toolKind : ToolKind;
  sandboxProfile : SandboxProfile; architecture : Architecture }.

(** src/src/runtime/linux/seccomp/profiles.ts # SeccompEvolutionStage *)
Inductive EvolutionStage :=
| ev_observe | ev_candidate | ev_compatibility_replay | ev_security_replay | ev_canary | ev_enforce.
#[export] Instance EvolutionStage_eq_dec : EqDecision EvolutionStage.
Proof. solve_decision. Defined.

(** src/src/runtime/linux/seccomp/profiles.ts # EVOLUTION_ORDER *)
Definition EVOLUTION_ORDER : list EvolutionStage :=
  [ev_observe; ev_candidate; ev_compatibility_replay; ev_security_replay; ev_canary; ev_enforce].

(** [xs.indexOf(x)] *)
Fixpoint indexOf {A} `{EqDecision A} (x : A) (xs : list A) : Z :=
  match xs with
  | [] => -1
  | y :: ys => if y === x then 0 else let i := indexOf x ys in if i <? 0 then -1 else i + 1
  end.

(** src/src/runtime/linux/seccomp/profiles.ts # canAdvanceStage *)
Definition canAdvanceStage (from to : EvolutionStage) : bool :=
  let fromIdx := indexOf from EVOLUTION_ORDER in
  let toIdx := indexOf to EVOLUTION_ORDER in
  (0 <=? fromIdx) && (toIdx =? fromIdx + 1).

Definition READONLY_SYSCALLS : list string :=
  ["rt_sigreturn"; "clone"; "getcwd"; "chdir"; "faccessat"; "faccessat2"; "readlinkat"; "read";
   "write"; "openat"; "close"; "fstat"; "lseek"; "readlink"; "getdents64"; "mmap"; "munmap";
   "mprotect"; "brk"; "access"; "newfstatat"; "exit"; "exit_group"; "rt_sigaction";
   "rt_sigprocmask"; "ioctl"; "writev"; "readv"; "pread64"; "pwrite64"; "futex"; "clock_gettime";
   "getrandom"; "prlimit64"; "rseq"; "sched_getaffinity"; "getpid"; "gettid"; "tgkill";
   "arch_prctl"; "set_tid_address"; "set_robust_list"; "execve"; "execveat"].

Definition strict_key (f : RuntimeFamily) (t : ToolKind) : SeccompProfileKey :=
  mkProfileKey f t sp_strict ar_x86_64.
Definition deny_by_default (allow : list string) : SeccompProfile :=
  mkSeccomp SCMP_ACT_ERRNO allow [] None.

(** src/src/runtime/linux/seccomp/profiles.ts # FIRST_BATCH_PROFILES *)
Definition FIRST_BATCH_PROFILES : list (SeccompProfileKey * SeccompProfile) :=
  [(strict_key rf_node_bun tk_readonly, deny_by_default READONLY_SYSCALLS);
   (strict_key rf_node_bun tk_build, deny_by_default (READONLY_SYSCALLS ++
    ["clone3"; "wait4"; "waitid"; "kill"; "dup"; "dup2"; "dup3"; "pipe"; "pipe2"; "fcntl";
     "statfs"; "fstatfs"; "mkdir"; "mkdirat"; "unlink"; "unlinkat"; "rename"; "renameat";
     "renameat2"; "chmod"; "fchmod"; "fchmodat"; "utimensat"; "truncate"; "ftruncate"; "linkat";
     "symlinkat"; "socket"; "connect"; "sendto"; "recvfrom"; "sendmsg"; "recvmsg"; "bind";
     "getsockname"; "getpeername"; "setsockopt"; "getsockopt"; "poll"; "ppoll"; "epoll_create1";
     "epoll_ctl"; "epoll_wait"; "eventfd2"; "timerfd_create"; "timerfd_settime";
     "clock_nanosleep"; "nanosleep"; "sched_yield"]));
   (strict_key rf_python tk_readonly, deny_by_default READONLY_SYSCALLS);
   (strict_key rf_generic tk_git, deny_by_default (READONLY_SYSCALLS ++
    ["clone3"; "wait4"; "dup"; "dup2"; "dup3"; "pipe"; "pipe2"; "fcntl"; "statfs"; "fstatfs";
     "mkdir"; "mkdirat"; "unlink"; "unlinkat"; "rename"; "renameat"; "renameat2"; "chmod";
     "fchmod"; "fchmodat"; "utimensat"; "truncate"; "ftruncate"; "linkat"; "symlinkat"; "socket";
     "connect"; "sendto"; "recvfrom"; "poll"; "ppoll"; "epoll_create1"; "epoll_ctl";
     "epoll_wait"; "eventfd2"; "clock_nanosleep"; "nanosleep"; "sched_yield"]));
   (strict_key rf_generic tk_compiler, deny_by_default (READONLY_SYSCALLS ++
    ["clone3"; "wait4"; "dup"; "dup2"; "dup3"; "pipe"; "pipe2"; "fcntl"; "statfs"; "fstatfs";
     "mkdir"; "mkdirat"; "unlink"; "unlinkat"; "rename"; "renameat"; "renameat2"; "chmod";
     "fchmod"; "fchmodat"; "utimensat"; "truncate"; "ftruncate"; "linkat"; "symlinkat"]));
   (strict_key rf_generic tk_unknown, deny_by_default 
    ["exit"; "exit_group"; "rt_sigreturn"; "read"; "write"; "close"; "fstat"])].

(** src/src/runtime/linux/seccomp/profiles.ts # resolveSeccompProfile *)
Definition resolveSeccompProfile (key : SeccompProfileKey) : SeccompProfile :=
  match find (fun p : SeccompProfileKey * SeccompProfile =>
          (runtimeFamily p.1 === runtimeFamily key) && (toolKind p.1 === toolKind key)
          && (sandboxProfile p.1 === sandboxProfile key)
          && (architecture p.1 === architecture key)) FIRST_BATCH_PROFILES with
  | Some (_, profile) => profile
  | None => deny_by_default ["exit"; "exit_group"; "rt_sigreturn"]
  end.

(** ** The assembler *)

(** src/src/runtime/linux/seccomp-bpf.ts # X86_64_SYSCALLS *)
Definition X86_64_SYSCALLS : list (string * Z) :=
  [("ptrace", 101); ("mount", 165); ("umount2", 166); ("reboot", 169); ("pivot_root", 155);
   ("setns", 308); ("unshare", 272); ("kexec_load", 246); ("bpf", 321); ("perf_event_open", 298);
   ("userfaultfd", 323); ("read", 0); ("write", 1); ("open", 2); ("close", 3); ("stat", 4);
   ("fstat", 5); ("lstat", 6); ("lseek", 8); ("mmap", 9); ("mprotect", 10); ("munmap", 11);
   ("brk", 12); ("rt_sigaction", 13); ("rt_sigprocmask", 14); ("rt_sigreturn", 15);
   ("ioctl", 16); ("pread64", 17); ("pwrite64", 18); ("readv", 19); ("writev", 20);
   ("access", 21); ("pipe", 22); ("dup", 32); ("dup2", 33); ("sendfile", 40); ("socket", 41);
   ("connect", 42); ("shutdown", 48); ("bind", 49); ("listen", 50); ("getsockname", 51);
   ("getpeername", 52); ("socketpair", 53); ("setsockopt", 54); ("getsockopt", 55);
   ("clone", 56); ("execve", 59); ("exit", 60); ("wait4", 61); ("fcntl", 72);
   ("getdents64", 217); ("openat", 257); ("newfstatat", 262); ("readlinkat", 267);
   ("readlink", 89); ("getpid", 39); ("gettid", 186); ("getuid", 102); ("getgid", 104);
   ("geteuid", 107); ("getegid", 108); ("arch_prctl", 158); ("clock_gettime", 228);
   ("getrandom", 318); ("futex", 202); ("pipe2", 293); ("exit_group", 231);
   ("sched_getaffinity", 204); ("kill", 62); ("sched_yield", 124); ("epoll_create1", 291);
   ("epoll_ctl", 233); ("epoll_wait", 232); ("eventfd2", 290); ("timerfd_create", 283);
   ("timerfd_settime", 286); ("accept4", 288); ("dup3", 292); ("poll", 7); ("nanosleep", 35);
   ("sendto", 44); ("recvfrom", 45); ("sendmsg", 46); ("recvmsg", 47); ("truncate", 76);
   ("ftruncate", 77); ("getcwd", 79); ("chdir", 80); ("fchdir", 81); ("rename", 82);
   ("mkdir", 83); ("unlink", 87); ("chmod", 90); ("fchmod", 91); ("tgkill", 234);
   ("waitid", 247); ("mkdirat", 258); ("unlinkat", 263); ("renameat", 264); ("linkat", 265);
   ("symlinkat", 266); ("fchmodat", 268); ("faccessat", 269); ("ppoll", 271); ("utimensat", 280);
   ("execveat", 281); ("clock_nanosleep", 230); ("statfs", 137); ("fstatfs", 138);
   ("renameat2", 316); ("prlimit64", 302); ("rseq", 334); ("set_tid_address", 218);
   ("set_robust_list", 273); ("clone3", 435); ("faccessat2", 439); ("openat2", 437)].

(** The names every object inherits, which [X86_64_SYSCALLS[name]] finds too. *)
Definition OBJECT_PROTOTYPE : list string :=
  ["constructor"; "toString"; "toLocaleString"; "valueOf"; "hasOwnProperty"; "isPrototypeOf";
   "propertyIsEnumerable"; "__proto__"; "__defineGetter__"; "__defineSetter__";
   "__lookupGetter__"; "__lookupSetter__"].

(** [X86_64_SYSCALLS[name]] as [setUint32] writes it: an inherited member is not
    a number, and is written as zero. *)
Definition syscall_nr (name : string) : option Z :=
  match jget name X86_64_SYSCALLS with
  | Some nr => Some nr
  | None => if includes OBJECT_PROTOTYPE name then Some 0 else None
  end.

Definition BPF_LD : Z := 0x00.
Definition BPF_W : Z := 0x00.
Definition BPF_ABS : Z := 0x20.
Definition BPF_JMP : Z := 0x05.
Definition BPF_JEQ : Z := 0x10.
Definition BPF_K : Z := 0x00.
Definition BPF_RET : Z := 0x06.
Definition AUDIT_ARCH_X86_64 : Z := 0xc000003e.
Definition RET_ERRNO_EPERM : Z := 0x00050001.
Definition RET_ALLOW : Z := 0x7fff0000.
Definition RET_KILL : Z := 0x00000000.

(** src/src/runtime/linux/seccomp-bpf.ts # BpfInsn *)
Record BpfInsn := insn { code : Z; jt : Z; jf : Z; k : Z }.

(** The bytes of [setUint16], [setUint8] and [setUint32], little endian: a value
    is taken modulo its width. *)
Definition byte_of (v : Z) (i : Z) : Z := Z.land (Z.shiftr v (8 * i)) 255.
Definition encode_insn (i : BpfInsn) : list Z :=
  [byte_of (code i) 0; byte_of (code i) 1; byte_of (jt i) 0; byte_of (jf i) 0;
   byte_of (k i) 0; byte_of (k i) 1; byte_of (k i) 2; byte_of (k i) 3].

(** src/src/runtime/linux/seccomp-bpf.ts # encode *)
Definition encode (insns : list BpfInsn) : list Z := mbind encode_insn insns.

Inductive seccomp_error :=
| platform_required (arch : string)
| unknown_denied (name : string)
| unknown_allowed (name : string).

Definition load (offset : Z) : BpfInsn := insn (Z.lor BPF_LD (Z.lor BPF_W BPF_ABS)) 0 0 offset.
Definition jeq (jt jf k : Z) : BpfInsn := insn (Z.lor BPF_JMP (Z.lor BPF_JEQ BPF_K)) jt jf k.
Definition ret (k : Z) : BpfInsn := insn (Z.lor BPF_RET BPF_K) 0 0 k.

(** One turn of the loops over the lists: load the number, compare, return.
    [jf] is set to one after the test was pushed. *)
Definition test_insns (nr action : Z) : list BpfInsn := [load 0; jeq 0 1 nr; ret action].

(** The two loops of [compileSeccompBpf], which throw at the first name they do
    not know. *)
Fixpoint push_tests (unknown : string -> seccomp_error) (action : Z) (names : list string)
    (insns : list BpfInsn) : res seccomp_error (list BpfInsn) :=
  match names with
  | [] => Ok insns
  | name :: names =>
      match syscall_nr name with
      | None => Throw (unknown name)
      | Some nr => push_tests unknown action names (insns ++ test_insns nr action)
      end
  end.

(** src/src/runtime/linux/seccomp-bpf.ts # compileSeccompBpf *)
Definition compileSeccompBpf (arch : string) (profile : SeccompProfile)
  : res seccomp_error (list Z) :=
  if negb (arch === "x64") then Throw (platform_required arch)
  else
    let insns := [load 4; jeq 1 0 AUDIT_ARCH_X86_64; ret RET_KILL] in
    insns ← push_tests unknown_denied RET_ERRNO_EPERM (denySyscalls profile) insns;
    insns ← (if defaultAction profile === SCMP_ACT_ERRNO then
               insns ← push_tests unknown_allowed RET_ALLOW (allowSyscalls profile) insns;
               Ok (insns ++ [ret RET_ERRNO_EPERM])
             else Ok (insns ++ [ret RET_ALLOW]));
    Ok (encode insns).

(** ** The machine *)

(** src/tests/runtime/linux/seccomp-bpf.test.ts # decode

    Reading past the end throws: the length is a multiple of eight. *)
Fixpoint decode (filter : list Z) : option (list BpfInsn) :=
  match filter with
  | [] => Some []
  | c0 :: c1 :: t :: f :: k0 :: k1 :: k2 :: k3 :: rest =>
      insns ← decode rest;
      Some (insn (c0 + Z.shiftl c1 8) t f
                 (k0 + Z.shiftl k1 8 + Z.shiftl k2 16 + Z.shiftl k3 24) :: insns)
  | _ => None
  end.

Record seccomp_data := mkData { sd_arch : Z; sd_nr : Z }.

(** The loop of [simulate]: [None] when the fuel runs out before it ends. *)
Fixpoint run_filter (fuel : nat) (insns : list BpfInsn) (data : seccomp_data) (pc : Z) (A : Z)
  : option Z :=
  match fuel with
  | O => None
  | S fuel =>
      match insns !! Z.to_nat pc with
      | None => Some 0
      | Some ins =>
          let kind := Z.land (code ins) 0x07 in
          if kind =? BPF_LD then
            run_filter fuel insns data (pc + 1)
              (if k ins =? 0 then sd_nr data else if k ins =? 4 then sd_arch data else 0)
          else if kind =? BPF_JMP then
            let op := Z.land (code ins) 0xf0 in
            let cond := if op =? BPF_JEQ then A =? k ins else false in
            run_filter fuel insns data (pc + (1 + (if cond then jt ins else jf ins))) A
          else if kind =? BPF_RET then Some (k ins)
          else run_filter fuel insns data (pc + 1) A
      end
  end.

(** src/tests/runtime/linux/seccomp-bpf.test.ts # simulate

    A jump only goes forward, so a turn per instruction and one more suffice. *)
Definition simulate (filter : list Z) (data : seccomp_data) : option Z :=
  insns ← decode filter; run_filter (S (length insns)) insns data 0 0.

(** ** OCI profiles *)

(** src/src/runtime/linux/seccomp-oci.ts # OciSeccompSyscall *)
Record OciSeccompSyscall := mkOciSyscall { oci_names : list string; oci_action : SeccompAction; errnoRet : option Z }.

(** src/src/runtime/linux/seccomp-oci.ts # OciSeccompProfile *)
Record OciSeccompProfile := mkOci {
  oci_defaultAction : SeccompAction;
  archMap : list (string * list string);
  oci_syscalls : list OciSeccompSyscall }.

(** src/src/runtime/linux/seccomp-oci.ts # compileOciSeccomp *)
Definition compileOciSeccomp (profile : SeccompProfile) : OciSeccompProfile :=
  {| oci_defaultAction := SCMP_ACT_ALLOW;
     archMap := [("SCMP_ARCH_X86_64", ["SCMP_ARCH_X86"])];
     oci_syscalls :=
       match denySyscalls profile with
       | [] => []
       | denied => [mkOciSyscall denied SCMP_ACT_ERRNO (Some 1)]
       end |}.

(** ** The encoding *)

Definition encodable (i : BpfInsn) : Prop :=
  0 <= code i < 2 ^ 16 /\ 0 <= jt i < 2 ^ 8 /\ 0 <= jf i < 2 ^ 8 /\ 0 <= k i < 2 ^ 32.

Lemma byte_of_div v i : 0 <= i -> byte_of v i = v / 2 ^ (8 * i) mod 2 ^ 8.
Proof.
  intros Hi. unfold byte_of. change 255 with (Z.ones 8).
  by rewrite Z.land_ones, Z.shiftr_div_pow2 by lia.
Qed.

(** The bytes of a value, put together again. *)
Lemma bytes_compose v :
  (0 <= v < 2 ^ 8 -> byte_of v 0 = v) /\
  (0 <= v < 2 ^ 16 -> byte_of v 0 + Z.shiftl (byte_of v 1) 8 = v) /\
  (0 <= v < 2 ^ 32 ->
   byte_of v 0 + Z.shiftl (byte_of v 1) 8 + Z.shiftl (byte_of v 2) 16
   + Z.shiftl (byte_of v 3) 24 = v).
Proof.
  rewrite !byte_of_div, !Z.shiftl_mul_pow2 by lia.
  change (2 ^ (8 * 0)) with 1. change (2 ^ (8 * 1)) with 256. change (2 ^ (8 * 2)) with 65536.
  change (2 ^ (8 * 3)) with 16777216. change (2 ^ 8) with 256. change (2 ^ 16) with 65536.
  change (2 ^ 24) with 16777216. change (2 ^ 32) with 4294967296.
  split_and!; intros Hv; Z.div_mod_to_equations; lia.
Qed.

Lemma decode_encode insns : Forall encodable insns -> decode (encode insns) = Some insns.
Proof.
  induction insns as [|i insns IH]; [done|]. intros [(Hc & Ht & Hf & Hk) Hi]%Forall_cons.
  unfold encode in *. rewrite bind_cons. cbn [encode_insn app decode].
  rewrite (IH Hi). simpl.
  rewrite (proj1 (proj2 (bytes_compose (code i)))) by done.
  rewrite (proj1 (bytes_compose (jt i))), (proj1 (bytes_compose (jf i))) by done.
  rewrite (proj2 (proj2 (bytes_compose (k i)))) by done. by destruct i.
Qed.

(** ** Running a filter *)

Lemma run_more fuel n insns data pc A r :
  run_filter fuel insns data pc A = Some r -> run_filter (fuel + n) insns data pc A = Some r.
Proof.
  revert pc A. induction fuel as [|fuel IH]; intros pc A; [done|]. cbn [run_filter Nat.add].
  destruct (insns !! Z.to_nat pc) as [ins|]; [|done].
  repeat case_match; by auto.
Qed.

Lemma run_within fuel fuel' insns data pc A r :
  (fuel <= fuel')%nat -> run_filter fuel insns data pc A = Some r ->
  run_filter fuel' insns data pc A = Some r.
Proof.
  intros Hle H. replace fuel' with (fuel + (fuel' - fuel))%nat by lia. by apply run_more.
Qed.

Definition tests (action : Z) (nrs : list Z) : list BpfInsn := nrs ≫= (fun nr => test_insns nr action).

Lemma length_tests action nrs : length (tests action nrs) = (3 * length nrs)%nat.
Proof.
  unfold tests. induction nrs as [|nr nrs IH]; [done|].
  rewrite bind_cons, length_app, IH. simpl. lia.
Qed.

Lemma at_offset (pre post : list BpfInsn) (i : nat) :
  (pre ++ post) !! Z.to_nat (Z.of_nat (length pre) + Z.of_nat i) = post !! i.
Proof.
  rewrite <- Nat2Z.inj_add, Nat2Z.id, lookup_app_r by lia. f_equal. lia.
Qed.

(** One test: the load, the comparison, and the return when they agree. *)
Lemma run_test fuel pre nr action post data A :
  run_filter (S (S fuel)) (pre ++ test_insns nr action ++ post) data (Z.of_nat (length pre)) A
  = run_filter fuel (pre ++ test_insns nr action ++ post) data
      (Z.of_nat (length pre) + (if sd_nr data =? nr then 2 else 3)) (sd_nr data).
Proof.
  set (prog := pre ++ test_insns nr action ++ post).
  assert (prog !! Z.to_nat (Z.of_nat (length pre)) = Some (load 0)) as H0.
  { pose proof (at_offset pre (test_insns nr action ++ post) 0) as H. by rewrite Z.add_0_r in H. }
  assert (prog !! Z.to_nat (Z.of_nat (length pre) + 1) = Some (jeq 0 1 nr)) as H1.
  { apply (at_offset pre (test_insns nr action ++ post) 1). }
  cbn [run_filter]. rewrite H0. cbn [load code k jt jf]. simpl (Z.land _ _). simpl (_ =? _).
  cbn [run_filter]. rewrite H1. cbn [jeq code k jt jf]. simpl (Z.land _ _). simpl (_ =? BPF_LD).
  cbn iota. simpl (_ =? BPF_JEQ). f_equal. destruct (sd_nr data =? nr); lia.
Qed.

Lemma run_ret fuel pre post data A r :
  run_filter (S fuel) (pre ++ ret r :: post) data (Z.of_nat (length pre)) A = Some r.
Proof.
  pose proof (at_offset pre (ret r :: post) 0) as H. rewrite Z.add_0_r in H.
  cbn [run_filter]. by rewrite H.
Qed.

Lemma run_tests action nrs : forall pre post data A,
  (sd_nr data ∈ nrs ->
   run_filter (3 * length nrs) (pre ++ tests action nrs ++ post) data (Z.of_nat (length pre)) A
   = Some action) /\
  (sd_nr data ∉ nrs -> forall fuel r,
   (forall A', run_filter fuel (pre ++ tests action nrs ++ post) data
      (Z.of_nat (length (pre ++ tests action nrs))) A' = Some r) ->
   run_filter (3 * length nrs + fuel) (pre ++ tests action nrs ++ post) data
     (Z.of_nat (length pre)) A = Some r).
Proof.
  induction nrs as [|nr nrs IH]; intros pre post data A.
  { split; [set_solver|]. intros _ fuel r H. simpl in *. rewrite app_nil_r in H. apply H. }
  assert (forall q, pre ++ tests action (nr :: nrs) ++ q
                    = (pre ++ test_insns nr action) ++ tests action nrs ++ q) as Hprog.
  { intros q. unfold tests. by rewrite bind_cons, <- !app_assoc. }
  assert (forall q, pre ++ tests action (nr :: nrs) ++ q
                    = pre ++ test_insns nr action ++ (tests action nrs ++ q)) as Hprog'.
  { intros q. unfold tests. by rewrite bind_cons, <- !app_assoc. }
  assert (forall fuel, sd_nr data <> nr ->
    run_filter (S (S fuel)) (pre ++ tests action (nr :: nrs) ++ post) data (Z.of_nat (length pre)) A
    = run_filter fuel ((pre ++ test_insns nr action) ++ tests action nrs ++ post) data
        (Z.of_nat (length (pre ++ test_insns nr action))) (sd_nr data)) as Hskip.
  { intros fuel Hne. rewrite Hprog', run_test, <- Hprog', Hprog.
    rewrite (proj2 (Z.eqb_neq _ _) Hne), length_app. f_equal. simpl. lia. }
  destruct (IH (pre ++ test_insns nr action) post data (sd_nr data)) as [IH1 IH2]. split.
  - intros Hin. destruct (decide (sd_nr data = nr)) as [<-|Hne].
    + replace (3 * length (sd_nr data :: nrs))%nat with (S (S (S (3 * length nrs)))) by (simpl; lia).
      rewrite Hprog', run_test, Z.eqb_refl.
      replace (pre ++ test_insns (sd_nr data) action ++ tests action nrs ++ post)
        with ((pre ++ [load 0; jeq 0 1 (sd_nr data)]) ++ ret action :: tests action nrs ++ post)
        by (by rewrite <- app_assoc).
      replace (Z.of_nat (length pre) + 2)
        with (Z.of_nat (length (pre ++ [load 0; jeq 0 1 (sd_nr data)])))
        by (rewrite length_app; simpl; lia).
      apply run_ret.
    + apply elem_of_cons in Hin as [?|Hin]; [done|].
      apply (run_within (S (S (3 * length nrs)))); [simpl; lia|]. rewrite Hskip by done. by apply IH1.
  - intros [Hne Hnin]%not_elem_of_cons fuel r H.
    apply (run_within (S (S (3 * length nrs + fuel)))); [simpl; lia|].
    rewrite Hskip by done. apply IH2; [done|]. intros A'.
    pose proof (Hprog []) as Hlen. rewrite !app_nil_r in Hlen.
    specialize (H A'). by rewrite Hlen, Hprog in H.
Qed.

(** ** A compiled filter decides what its profile says *)

Definition known (names : list string) : Prop := Forall (fun name => is_Some (syscall_nr name)) names.
Definition numbers (names : list string) : list Z := omap syscall_nr names.

Lemma push_tests_spec unknown action names : forall insns,
  match push_tests unknown action names insns with
  | Ok insns' => known names /\ insns' = insns ++ tests action (numbers names)
  | Throw _ => ~ known names
  end.
Proof.
  induction names as [|name names IH]; intros insns; cbn [push_tests].
  { split; [constructor|by rewrite app_nil_r]. }
  destruct (syscall_nr name) as [nr|] eqn:E.
  - specialize (IH (insns ++ test_insns nr action)). case_match.
    + destruct IH as [Hk ->]. split; [by constructor|].
      unfold numbers, tests. cbn [omap list_omap]. by rewrite E, bind_cons, <- !app_assoc.
    + intros [_ Hk]%Forall_cons. done.
  - intros [[nr Hn] _]%Forall_cons. congruence.
Qed.

Lemma syscall_nr_range name nr : syscall_nr name = Some nr -> 0 <= nr < 2 ^ 32.
Proof.
  assert (forall p, p ∈ X86_64_SYSCALLS -> 0 <= p.2 < 2 ^ 32) as Htab.
  { intros p Hp. assert (forallb (fun p => (0 <=? p.2) && (p.2 <? 2 ^ 32)) X86_64_SYSCALLS = true)
      as Hall by (vm_compute; reflexivity).
    apply (forallb_elem _ _ _ Hall) in Hp. reflect. lia. }
  unfold syscall_nr. destruct (jget name X86_64_SYSCALLS) as [n|] eqn:E.
  - intros [= ->]. by apply jget_elem, Htab in E.
  - destruct (includes OBJECT_PROTOTYPE name); [|done]. intros [= <-]. done.
Qed.

Lemma numbers_range names : Forall (fun nr => 0 <= nr < 2 ^ 32) (numbers names).
Proof.
  apply Forall_forall. intros nr (name & _ & Hn)%list_elem_of_omap. by eapply syscall_nr_range.
Qed.

Lemma tests_encodable action nrs :
  0 <= action < 2 ^ 32 -> Forall (fun nr => 0 <= nr < 2 ^ 32) nrs -> Forall encodable (tests action nrs).
Proof.
  intros Ha Hn. apply Forall_bind. eapply Forall_impl; [exact Hn|]. intros nr Hnr.
  simpl in Hnr. repeat apply Forall_cons_2; [| | |apply Forall_nil_2];
    unfold encodable; cbn [code jt jf k load jeq ret]; split_and!; first [done | lia].
Qed.

(** The program of a profile: the architecture check, the tests of the denied
    and of the allowed numbers, and what happens to the rest. *)
Definition program (denied allowed : list Z) (otherwise : Z) : list BpfInsn :=
  [load 4; jeq 1 0 AUDIT_ARCH_X86_64; ret RET_KILL]
  ++ tests RET_ERRNO_EPERM denied ++ tests RET_ALLOW allowed ++ [ret otherwise].

Lemma program_runs denied allowed otherwise data :
  let insns := program denied allowed otherwise in
  run_filter (S (length insns)) insns data 0 0 =
  Some (if sd_arch data =? AUDIT_ARCH_X86_64 then
          if bool_decide (sd_nr data ∈ denied) then RET_ERRNO_EPERM
          else if bool_decide (sd_nr data ∈ allowed) then RET_ALLOW else otherwise
        else RET_KILL).
Proof.
  cbv zeta. set (insns := program denied allowed otherwise).
  assert (length insns = 4 + 3 * length denied + 3 * length allowed)%nat as ->.
  { unfold insns, program. rewrite !length_app, !length_tests. simpl. lia. }
  set (rest := (3 * length denied + (3 * length allowed + 3))%nat).
  apply (run_within (S (S rest))); [lia|].
  assert (run_filter (S (S rest)) insns data 0 0
          = run_filter rest insns data (if sd_arch data =? AUDIT_ARCH_X86_64 then 3 else 2)
              (sd_arch data)) as ->.
  { assert (insns !! 0%nat = Some (load 4)) as H0 by done.
    assert (insns !! 1%nat = Some (jeq 1 0 AUDIT_ARCH_X86_64)) as H1 by done.
    cbn [run_filter]. change (Z.to_nat 0) with 0%nat. rewrite H0. cbn [load code k jt jf].
    simpl (Z.land _ _). simpl (_ =? BPF_LD). change (Z.to_nat (0 + 1)) with 1%nat.
    rewrite H1. cbn [jeq code k jt jf]. simpl (Z.land _ _). simpl (_ =? BPF_LD). cbn iota.
    simpl (_ =? BPF_JEQ). change (4 =? 0) with false. change (4 =? 4) with true. cbn iota.
    by destruct (sd_arch data =? AUDIT_ARCH_X86_64). }
  destruct (sd_arch data =? AUDIT_ARCH_X86_64).
  2: { apply (run_within 1); [lia|].
       apply (run_ret 0 [load 4; jeq 1 0 AUDIT_ARCH_X86_64]). }
  destruct (run_tests RET_ERRNO_EPERM denied [load 4; jeq 1 0 AUDIT_ARCH_X86_64; ret RET_KILL]
              (tests RET_ALLOW allowed ++ [ret otherwise]) data (sd_arch data)) as [Hin Hout].
  destruct (bool_decide_reflect (sd_nr data ∈ denied)) as [Hd|Hd].
  { eapply run_within, Hin, Hd. unfold rest. lia. }
  apply (Hout Hd). intros A'. unfold program.
  rewrite (app_assoc _ (tests RET_ERRNO_EPERM denied)).
  destruct (run_tests RET_ALLOW allowed
              ([load 4; jeq 1 0 AUDIT_ARCH_X86_64; ret RET_KILL] ++ tests RET_ERRNO_EPERM denied)
              [ret otherwise] data A') as [Hin' Hout'].
  destruct (bool_decide_reflect (sd_nr data ∈ allowed)) as [Ha|Ha].
  { eapply run_within, Hin', Ha. lia. }
  apply (Hout' Ha). intros A''. rewrite app_assoc. apply run_ret.
Qed.

Lemma simulate_program denied allowed otherwise data :
  Forall (fun nr => 0 <= nr < 2 ^ 32) denied -> Forall (fun nr => 0 <= nr < 2 ^ 32) allowed ->
  0 <= otherwise < 2 ^ 32 ->
  simulate (encode (program denied allowed otherwise)) data =
  Some (if sd_arch data =? AUDIT_ARCH_X86_64 then
          if bool_decide (sd_nr data ∈ denied) then RET_ERRNO_EPERM
          else if bool_decide (sd_nr data ∈ allowed) then RET_ALLOW else otherwise
        else RET_KILL).
Proof.
  intros Hd Ha Ho. unfold simulate. rewrite decode_encode; [apply program_runs|].
  unfold program. rewrite !Forall_app. split_and!.
  - repeat apply Forall_cons_2; try apply Forall_nil_2; repeat split; done.
  - by apply tests_encodable.
  - by apply tests_encodable.
  - apply Forall_singleton. repeat split; try done; apply Ho.
Qed.

Lemma unknown_name names : ~ known names -> exists name, name ∈ names /\ syscall_nr name = None.
Proof.
  intros H. apply not_Forall_Exists in H; [|intros ?; apply _].
  apply Exists_exists in H as (name & Hn & H). exists name.
  split; [done|]. by apply eq_None_not_Some.
Qed.

(** C31: A compiled seccomp filter decides exactly what its profile says: the
    compiler accepts the profiles all of whose relevant names it knows, and the
    bytes it writes, decoded and run by the filter machine on the architecture
    and number of any system call, kill a foreign architecture, refuse a denied
    number even when it is also allowed, let an allowed number pass and treat
    the rest by the profile's default action; the run always ends. *)
Theorem seccomp_filter_decides profile :
  let relevant := denySyscalls profile
                  ++ (if defaultAction profile === SCMP_ACT_ERRNO then allowSyscalls profile else []) in
  match compileSeccompBpf "x64" profile with
  | Throw _ => exists name, name ∈ relevant /\ syscall_nr name = None
  | Ok filter =>
      known relevant /\
      forall data, simulate filter data =
        Some (if sd_arch data =? AUDIT_ARCH_X86_64 then
                if bool_decide (sd_nr data ∈ numbers (denySyscalls profile)) then RET_ERRNO_EPERM
                else if defaultAction profile === SCMP_ACT_ERRNO then
                  if bool_decide (sd_nr data ∈ numbers (allowSyscalls profile)) then RET_ALLOW
                  else RET_ERRNO_EPERM
                else RET_ALLOW
              else RET_KILL)
  end.
Proof.
  cbv zeta. unfold compileSeccompBpf. cbn [same negb]. rewrite (same_refl "x64"). cbn [negb].
  set (start := [load 4; _; _]).
  pose proof (push_tests_spec unknown_denied RET_ERRNO_EPERM (denySyscalls profile) start) as Hd.
  destruct (push_tests unknown_denied RET_ERRNO_EPERM (denySyscalls profile) start) as [ins|e].
  2: { apply unknown_name. unfold known. rewrite Forall_app. intros [? _]. done. }
  destruct Hd as [Hkd ->]. cbn [mbind res_bind].
  destruct (defaultAction profile === SCMP_ACT_ERRNO).
  - pose proof (push_tests_spec unknown_allowed RET_ALLOW (allowSyscalls profile)
      (start ++ tests RET_ERRNO_EPERM (numbers (denySyscalls profile)))) as Ha.
    destruct (push_tests unknown_allowed RET_ALLOW (allowSyscalls profile) _) as [ins|e].
    2: { apply unknown_name. unfold known. rewrite Forall_app. intros [_ ?]. done. }
    destruct Ha as [Hka ->]. split; [by apply Forall_app|]. intros data.
    rewrite <- !app_assoc. by apply simulate_program; try apply numbers_range.
  - split; [by rewrite app_nil_r|]. intros data. pose proof (simulate_program (numbers (denySyscalls profile)) [] RET_ALLOW data) as H.
    rewrite <- app_assoc. unfold start.
    etrans; [apply H; [apply numbers_range|apply Forall_nil_2|done]|]. done.
Qed.

(** Every profile the repository ships compiles, within the 4096 instructions a
    kernel takes. *)
Lemma shipped_profiles_compile :
  Forall (fun profile => exists filter, compileSeccompBpf "x64" profile = Ok filter
                                        /\ (length filter <= 8 * 4096)%nat)
    (map compileSeccompProfile [tg_inspect; tg_untrusted; tg_node; tg_bun; tg_generic]
     ++ map snd FIRST_BATCH_PROFILES).
Proof.
  assert (forallb (fun profile => match compileSeccompBpf "x64" profile with
                                  | Ok f => (length f <=? 8 * 4096)%nat
                                  | Throw _ => false end)
    (map compileSeccompProfile [tg_inspect; tg_untrusted; tg_node; tg_bun; tg_generic]
     ++ map snd FIRST_BATCH_PROFILES) = true) as H by (vm_compute; reflexivity).
  apply Forall_forall. intros profile Hp. apply (forallb_elem _ _ _ H) in Hp.
  destruct (compileSeccompBpf "x64" profile) as [f|]; [|done]. exists f.
  split; [done|]. by apply Nat.leb_le.
Qed.

(** ** Changing a profile *)

Lemma forallb_forall_includes (xs ys : list string) :
  forallb (fun s => includes ys s) xs = true <-> forall x, x ∈ xs -> x ∈ ys.
Proof.
  rewrite forallb_forall. setoid_rewrite includes_true. by setoid_rewrite <- list_elem_of_In.
Qed.

(** What the compatibility test accepts: nothing that was allowed is lost unless
    the new profile denies it by name. *)
Lemma compatible_iff old new :
  seccompBackwardCompatible old new = true <->
  forall name, name ∈ allowSyscalls old -> name ∈ allowSyscalls new \/ name ∈ denySyscalls new.
Proof.
  unfold seccompBackwardCompatible.
  set (removed := filter _ (allowSyscalls old)).
  trans (forall name, name ∈ removed -> name ∈ denySyscalls new).
  - rewrite <- (forallb_forall_includes removed). destruct removed; simpl; [|done]. done.
  - unfold removed. setoid_rewrite list_elem_of_filter. setoid_rewrite includes_false.
    split; intros H name; [|naive_solver].
    intros Hn. destruct (decide (name ∈ allowSyscalls new)); [by left|]. right. by apply H.
Qed.

(** A profile reaches enforcement one stage at a time. *)
Inductive promoted : nat -> EvolutionStage -> EvolutionStage -> Prop :=
| promoted_none s : promoted 0 s s
| promoted_step n s1 s2 s3 :
    promoted n s1 s2 -> canAdvanceStage s2 s3 = true -> promoted (S n) s1 s3.

Lemma promotions_counted n s1 s2 :
  promoted n s1 s2 -> indexOf s2 EVOLUTION_ORDER = indexOf s1 EVOLUTION_ORDER + Z.of_nat n.
Proof.
  induction 1 as [s|n s1 s2 s3 _ IH Hadv]; [lia|]. unfold canAdvanceStage in Hadv. cbv zeta in Hadv.
  reflect. lia.
Qed.

Lemma enforcement_takes_five n : promoted n ev_observe ev_enforce -> n = 5%nat.
Proof.
  intros H%promotions_counted. change (5 = 0 + Z.of_nat n) in H. lia.
Qed.

(** ** What the compiled filters do not keep *)

(** The table gives [execveat] the number 281 (the kernel's [epoll_pwait]; its
    [execveat] is 322): a profile that allows [execveat] by name lets 281 pass and
    refuses 322. *)
Lemma execveat_number :
  match compileSeccompBpf "x64" (deny_by_default ["execveat"]) with
  | Ok f => simulate f (mkData AUDIT_ARCH_X86_64 281) = Some RET_ALLOW /\
            simulate f (mkData AUDIT_ARCH_X86_64 322) = Some RET_ERRNO_EPERM
  | Throw _ => False
  end.
Proof. vm_compute. done. Qed.

(** A name inherited from [Object.prototype] passes for a known one, and stands
    for system call zero: denying [constructor] denies [read]. *)
Lemma inherited_name_denies_read :
  match compileSeccompBpf "x64" (mkSeccomp SCMP_ACT_ALLOW [] ["constructor"] None) with
  | Ok f => simulate f (mkData AUDIT_ARCH_X86_64 0) = Some RET_ERRNO_EPERM
  | Throw _ => False
  end.
Proof. vm_compute. done. Qed.

(** Numbers of the x32 interface carry bit 30 under the same architecture: where
    the default is to allow, the alias of a denied call passes. *)
Lemma x32_alias_passes :
  match compileSeccompBpf "x64" (mkSeccomp SCMP_ACT_ALLOW [] DENY_SYSCALLS None) with
  | Ok f => simulate f (mkData AUDIT_ARCH_X86_64 101) = Some RET_ERRNO_EPERM /\
            simulate f (mkData AUDIT_ARCH_X86_64 (Z.lor 101 0x40000000)) = Some RET_ALLOW
  | Throw _ => False
  end.
Proof. vm_compute. done. Qed.

(** The profile for Podman keeps neither the default action nor the list of
    allowed calls, so the [untrusted] profile, which denies by default, becomes
    one that allows by default. *)
Lemma oci_drops_default profile action allowed :
  compileOciSeccomp profile
  = compileOciSeccomp (mkSeccomp action allowed (denySyscalls profile) (seccomp_target profile)) /\
  oci_defaultAction (compileOciSeccomp profile) = SCMP_ACT_ALLOW.
Proof. done. Qed.
