(* ===== verification/Environment.v ===== *)
(** The environment of a sandboxed process.

    Models [src/src/runtime/linux/environment.ts] and [secrets.ts]: which host
    variables may be inherited, how the variables of a child process are put
    together, and how secrets are bound to it.  The host's variables, its
    directories and the clock are parameters. *)
From Stdlib Require Import Ascii.
From S2P Require Import Prelude Paths.
Open Scope list_scope.

Definition vars : Type := list (string * string).

(** ** Denied and reserved names *)

(** src/src/runtime/linux/environment.ts # DEFAULT_ENV_VARS *)
Definition DEFAULT_ENV_VARS : vars :=
  [("HOME", "/home/orcana"); ("TMPDIR", "/tmp"); ("LANG", "C.UTF-8"); ("LC_ALL", "C.UTF-8");
   ("NODE_ENV", "production"); ("ORCANA_SANDBOX", "1")].

(** src/src/runtime/linux/environment.ts # DEFAULT_DENIED_KEYS *)
Definition DEFAULT_DENIED_KEYS : list string :=
  ["*_API_KEY"; "*_TOKEN"; "*_SECRET"; "*_PASSWORD"; "PGPASSWORD"; "*_PWD"; "*_KEY";
   "*_CREDENTIALS"; "AWS_*"; "GITHUB_TOKEN"; "SSH_AUTH_SOCK"; "DOCKER_HOST"; "KUBECONFIG";
   "DATABASE_URL"; "HTTP_PROXY"; "HTTPS_PROXY"; "http_proxy"; "https_proxy"; "all_proxy";
   "ALL_PROXY"].

(** src/src/runtime/linux/environment.ts # RUNTIME_RESERVED_ENV_KEYS *)
Definition RUNTIME_RESERVED_ENV_KEYS : list string :=
  ["PATH"; "HOME"; "TMPDIR"; "ORCANA_RUN_ID"; "ORCANA_NODE_RUN_ID"; "ORCANA_AGENT_ID";
   "ORCANA_CELL_ID"; "ORCANA_SANDBOX"; "ORCANA_WORKSPACE_ID"; "ORCANA_CLAIM_ID"].

(** [s.slice(0, -1)] *)
Definition but_last (s : string) : string := String.substring 0 (String.length s - 1) s.
(** [s.slice(1)] *)
Definition but_first (s : string) : string :=
  match s with EmptyString => EmptyString | String _ s => s end.

(** src/src/runtime/linux/environment.ts # matchesPattern *)
Definition matchesPattern (key pattern : string) : bool :=
  if endsWith pattern "*" then startsWith key (but_last pattern)
  else if startsWith pattern "*_" then endsWith key (but_first pattern)
  else key === pattern.

(** src/src/runtime/linux/environment.ts # hostKeyDenied *)
Definition hostKeyDenied (key : string) (extraDenied : list string) : bool :=
  existsb (matchesPattern key) (DEFAULT_DENIED_KEYS ++ extraDenied).

(** src/src/runtime/linux/environment.ts # isRuntimeReservedKey *)
Definition isRuntimeReservedKey (key : string) : bool := includes RUNTIME_RESERVED_ENV_KEYS key.

(** src/src/runtime/linux/environment.ts # environmentLeaksHostSecrets *)
Definition environmentLeaksHostSecrets (env : vars) (allowed : list string) : list string :=
  filter (fun key => hostKeyDenied key [] = true /\ includes allowed key = false) (jkeys env).

(** [env[key] = value] on a plain object: [__proto__] is its prototype, and a
    string is no prototype. *)
Definition env_set (key value : string) (env : vars) : vars :=
  if key === "__proto__" then env else jset key value env.

(** src/src/runtime/linux/environment.ts # MINIMAL_HOST_ENV_KEYS *)
Definition MINIMAL_HOST_ENV_KEYS : list string :=
  ["PATH"; "HOME"; "TMPDIR"; "LANG"; "LANGUAGE"; "LC_ALL"; "LC_CTYPE";
   "TERM"; "USER"; "LOGNAME"; "CI"; "EDITOR"; "VISUAL"; "SHELL"].

(** ** Policies *)

Inductive BaseProfile := bp_minimal | bp_node | bp_build | bp_service.
#[export] Instance BaseProfile_eq_dec : EqDecision BaseProfile.
Proof. solve_decision. Defined.

(** src/src/runtime/linux/contracts.ts # EnvironmentPolicy *)
Record EnvironmentPolicy := mkEnvPolicy {
  baseProfile : BaseProfile;
  ep_allowedHostKeys : list string;
  fixedValues : vars;
  requestedValues : vars;
  deniedKeys : list string
}.

(** src/src/runtime/linux/environment.ts # BuildEnvironmentInput *)
Record BuildEnvironmentInput := mkBuildEnv {
  be_policy : EnvironmentPolicy;
  be_runId : string;
  be_nodeRunId : string;
  be_pathEntries : list string;
  be_secrets : vars;
  be_extraDenied : list string
}.

(** src/src/runtime/linux/environment.ts # EnvironmentBuildResult *)
Record EnvironmentBuildResult := mkEnvResult {
  er_ok : bool; er_env : vars; rejectedHostKeys : list string }.

Section Host.
Context (hostEnv : string -> option string) (existsSync : string -> bool).

(** src/src/runtime/linux/environment.ts # minimalHostEnv *)
Definition minimalHostEnv (extra : vars) : vars :=
  let env := fold_left (fun env key =>
               match hostEnv key with Some value => env_set key value env | None => env end)
               MINIMAL_HOST_ENV_KEYS [] in
  fold_left (fun env '(key, value) =>
    if hostKeyDenied key [] then env else env_set key value env) extra env.

(** The closure [push] of [appendSafeHostPathEntries]; [seen] holds what [parts]
    holds. *)
Definition push_entry (requireExists : bool) (parts : list string) (p : string) : list string :=
  if (p === "") || (p === ".") || startsWith p "./" || startsWith p "/tmp" then parts
  else if requireExists && negb (existsSync p) then parts
  else if includes parts p then parts
  else parts ++ [p].

(** The loop over the host's entries, which stops at sixteen. *)
Fixpoint push_host (entries parts : list string) : list string :=
  match entries with
  | [] => parts
  | p :: entries =>
      if (16 <=? length parts)%nat then parts else push_host entries (push_entry true parts p)
  end.

(** src/src/runtime/linux/environment.ts # appendSafeHostPathEntries *)
Definition appendSafeHostPathEntries (runtimePath : string) (hostPath : option string)
    (extra : list string) : string :=
  let parts := fold_left (push_entry false) (split_on ":"%char runtimePath) [] in
  let parts := fold_left (push_entry false) extra parts in
  js_join ":" (push_host (split_on ":"%char (default "" hostPath)) parts).

(** ** Building an environment *)

(** The loops of steps two, four and five: every variable is set or its name
    recorded as rejected. *)
Definition admit_vars (refused : string -> bool) (values : vars) (acc : vars * list string)
  : vars * list string :=
  fold_left (fun '(env, rejected) '(key, value) =>
    if refused key then (env, rejected ++ [key]) else (env_set key value env, rejected)) values acc.

(** Step three: the host's variables under the allowed names. *)
Definition admit_host (refused : string -> bool) (keys : list string) (acc : vars * list string)
  : vars * list string :=
  fold_left (fun '(env, rejected) key =>
    if refused key then (env, rejected ++ [key])
    else match hostEnv key with
         | Some value => (env_set key value env, rejected)
         | None => (env, rejected)
         end) keys acc.

(** Step six: what is denied and still there is taken out. *)
Definition purge (denied : string -> bool) (acc : vars * list string) : vars * list string :=
  fold_left (fun '(env, rejected) key =>
    if denied key then (jdelete key env, rejected ++ [key]) else (env, rejected)) (jkeys acc.1) acc.

Definition runtime_path (input : BuildEnvironmentInput) : string :=
  appendSafeHostPathEntries
    (if baseProfile (be_policy input) === bp_minimal then "/usr/bin:/bin"
     else "/usr/local/bin:/usr/bin:/bin")
    (hostEnv "PATH") (be_pathEntries input).

(** Steps one to five: the runtime's variables and the layers over them. *)
Definition layers (input : BuildEnvironmentInput) : vars * list string :=
  let policy := be_policy input in
  let extraDenied := be_extraDenied input ++ deniedKeys policy in
  let env := DEFAULT_ENV_VARS in
  let env := env_set "ORCANA_RUN_ID" (be_runId input) env in
  let env := env_set "ORCANA_NODE_RUN_ID" (be_nodeRunId input) env in
  let env := env_set "PATH" (runtime_path input) env in
  let env := if baseProfile policy === bp_service then env_set "TERM" "xterm" env else env in
  let refused := fun key => hostKeyDenied key extraDenied || isRuntimeReservedKey key in
  let refusedHost := fun key => hostKeyDenied key (be_extraDenied input) || isRuntimeReservedKey key in
  let acc := admit_vars refused (fixedValues policy) (env, []) in
  let acc := admit_host refusedHost (ep_allowedHostKeys policy) acc in
  let acc := admit_vars refused (requestedValues policy) acc in
  admit_vars isRuntimeReservedKey (be_secrets input) acc.

(** src/src/runtime/linux/environment.ts # buildExplicitEnvironment *)
Definition buildExplicitEnvironment (input : BuildEnvironmentInput) : EnvironmentBuildResult :=
  let extraDenied := be_extraDenied input ++ deniedKeys (be_policy input) in
  let '(env, rejected) := purge (fun key => hostKeyDenied key extraDenied) (layers input) in
  let env := env_set "ORCANA_RUN_ID" (be_runId input) env in
  let env := env_set "ORCANA_NODE_RUN_ID" (be_nodeRunId input) env in
  let env := env_set "PATH" (runtime_path input) env in
  let env := match jget "ORCANA_SANDBOX" env with
             | None => env_set "ORCANA_SANDBOX" "1" env
             | Some _ => env
             end in
  mkEnvResult true env rejected.
End Host.

(** ** Lookups *)

Lemma env_set_get k key value env :
  jget k (env_set key value env) =
  if bool_decide (k = key) && negb (k === "__proto__") then Some value else jget k env.
Proof.
  unfold env_set. destruct (key === "__proto__") eqn:E; reflect.
  - subst. destruct (bool_decide_reflect (k = "__proto__")); [|done]. subst. by rewrite same_refl.
  - destruct (bool_decide_reflect (k = key)) as [->|Hne]; simpl.
    + rewrite (proj2 (same_neq _ _)) by done. by rewrite jget_jset_eq.
    + by rewrite jget_jset_ne.
Qed.

Lemma env_set_NoDup key value env : NoDup (jkeys env) -> NoDup (jkeys (env_set key value env)).
Proof. unfold env_set. destruct (key === "__proto__"); [done|]. apply NoDup_jset. Qed.

Lemma admit_NoDup refused values : forall acc,
  NoDup (jkeys acc.1) -> NoDup (jkeys (admit_vars refused values acc).1).
Proof.
  induction values as [|[key value] values IH]; intros [env rejected] H; [done|].
  unfold admit_vars. cbn [fold_left]. destruct (refused key); apply IH; [done|]. by apply env_set_NoDup.
Qed.

Lemma admit_get refused k values : forall acc,
  NoDup (jkeys values) ->
  jget k (admit_vars refused values acc).1 =
  if refused k || (k === "__proto__") then jget k acc.1
  else match jget k values with Some v => Some v | None => jget k acc.1 end.
Proof.
  induction values as [|[key value] values IH]; intros [env rejected] H.
  { simpl. by case_match. }
  cbn [jkeys fmap list_fmap fst] in H. apply NoDup_cons in H as [Hk H].
  unfold admit_vars. cbn [fold_left]. change (fold_left _ values ?acc) with (admit_vars refused values acc).
  rewrite IH by done. cbn [jget].
  destruct (bool_decide_reflect (k = key)) as [->|Hne].
  - assert (jget key values = None) as -> by by apply jget_None.
    rewrite same_refl.
    destruct (refused key); [done|]. cbn [fst orb].
    rewrite env_set_get, bool_decide_eq_true_2 by done. by destruct (key === "__proto__").
  - rewrite (proj2 (same_neq key k)) by congruence. destruct (refused key); [done|]. cbn [fst].
    by rewrite env_set_get, bool_decide_eq_false_2.
Qed.

Section HostLemmas.
Context (hostEnv : string -> option string) (existsSync : string -> bool).

Lemma admit_host_NoDup refused keys : forall acc,
  NoDup (jkeys acc.1) -> NoDup (jkeys (admit_host hostEnv refused keys acc).1).
Proof.
  induction keys as [|key keys IH]; intros [env rejected] H; [done|].
  unfold admit_host. cbn [fold_left]. apply IH.
  destruct (refused key); [done|]. destruct (hostEnv key); [|done]. by apply env_set_NoDup.
Qed.

Lemma admit_host_get refused k keys : forall acc,
  jget k (admit_host hostEnv refused keys acc).1 =
  if refused k || (k === "__proto__") then jget k acc.1
  else if bool_decide (k ∈ keys) then
    match hostEnv k with Some v => Some v | None => jget k acc.1 end
  else jget k acc.1.
Proof.
  induction keys as [|key keys IH]; intros [env rejected]; [by destruct (_ || _)|].
  unfold admit_host. cbn [fold_left].
  change (fold_left _ keys ?acc) with (admit_host hostEnv refused keys acc). rewrite IH.
  destruct (bool_decide_reflect (k = key)) as [->|Hne].
  - rewrite (bool_decide_eq_true_2 (key ∈ key :: keys)) by set_solver.
    destruct (refused key); [done|]. cbn [orb].
    destruct (key === "__proto__") eqn:Ep.
    + destruct (hostEnv key); [|done]. cbn [fst].
      by rewrite env_set_get, Ep, andb_false_r.
    + destruct (hostEnv key) as [v|]; [|by destruct (bool_decide _)]. cbn [fst].
      rewrite env_set_get, (bool_decide_eq_true_2 (key = key)), Ep by done.
      by destruct (bool_decide (key ∈ keys)).
  - rewrite (bool_decide_ext (k ∈ key :: keys) (k ∈ keys)) by set_solver.
    assert (jget k (if refused key then (env, rejected ++ [key])
                    else match hostEnv key with
                         | Some value => (env_set key value env, rejected)
                         | None => (env, rejected) end).1 = jget k env) as ->; [|done].
    destruct (refused key); [done|]. destruct (hostEnv key); [|done]. cbn [fst].
    by rewrite env_set_get, bool_decide_eq_false_2.
Qed.
End HostLemmas.

Lemma purge_from (denied : string -> bool) (keys : list string) : forall (acc : vars * list string) k,
  NoDup (jkeys acc.1) ->
  let out := fold_left (fun '(env, rejected) (key : string) =>
    if denied key then (jdelete key env, rejected ++ [key]) else (env, rejected)) keys acc in
  jget k out.1 = if denied k && bool_decide (k ∈ keys) then None else jget k acc.1.
Proof.
  induction keys as [|key keys IH]; intros [env rejected] k H; cbv zeta; cbn [fold_left].
  { destruct (bool_decide_reflect (k ∈ @nil string)) as [Hin|]; [by apply not_elem_of_nil in Hin|].
    by rewrite andb_false_r. }
  destruct (denied key) eqn:Ed.
  - rewrite IH by (by apply (jkeys_jdelete key env)). cbn [fst] in *.
    destruct (bool_decide_reflect (k = key)) as [->|Hne].
    + rewrite Ed, jget_jdelete_eq, (bool_decide_eq_true_2 (key ∈ key :: keys)) by set_solver.
      by case_match.
    + rewrite jget_jdelete_ne by congruence.
      by rewrite (bool_decide_ext (k ∈ key :: keys) (k ∈ keys)) by set_solver.
  - rewrite IH by done. cbn [fst] in *.
    destruct (bool_decide_reflect (k = key)) as [->|Hne]; [by rewrite Ed|].
    by rewrite (bool_decide_ext (k ∈ key :: keys) (k ∈ keys)) by set_solver.
Qed.

Lemma purge_get denied acc k :
  NoDup (jkeys acc.1) ->
  jget k (purge denied acc).1 = if denied k then None else jget k acc.1.
Proof.
  intros H. unfold purge. rewrite purge_from by done. destruct (denied k); [|done]. cbn [andb].
  case_bool_decide as Hn; [done|]. by apply jget_None in Hn.
Qed.

(** ** The whole environment *)

Definition all_denied (input : BuildEnvironmentInput) : list string :=
  be_extraDenied input ++ deniedKeys (be_policy input).

Lemma hostKeyDenied_more key xs ys :
  hostKeyDenied key xs = true -> hostKeyDenied key (xs ++ ys) = true.
Proof.
  unfold hostKeyDenied. rewrite !existsb_exists. setoid_rewrite <- list_elem_of_In.
  intros (p & Hp & Hm). exists p. split; [set_solver|done].
Qed.
Lemma hostKeyDenied_default key xs : hostKeyDenied key [] = true -> hostKeyDenied key xs = true.
Proof. apply (hostKeyDenied_more key [] xs). Qed.

Lemma elem_of_list_keys {A} k (l : list (string * A)) :
  k ∈ jkeys l -> exists v, jget k l = Some v.
Proof.
  intros Hk. destruct (jget k l) eqn:E; [eauto|]. by apply jget_None in E.
Qed.

Section Exact.
Context (hostEnv : string -> option string) (existsSync : string -> bool).

Lemma layers_NoDup input : NoDup (jkeys (layers hostEnv existsSync input).1).
Proof.
  unfold layers. cbv zeta. repeat (apply admit_NoDup || apply admit_host_NoDup). cbn [fst].
  assert (NoDup (jkeys DEFAULT_ENV_VARS)) as Hd by (apply (bool_decide_unpack _); vm_compute; done).
  destruct (_ === bp_service); by repeat apply env_set_NoDup.
Qed.

Lemma base_get k service run node path :
  k <> "ORCANA_RUN_ID" -> k <> "ORCANA_NODE_RUN_ID" -> k <> "PATH" ->
  let env := env_set "PATH" path
    (env_set "ORCANA_NODE_RUN_ID" node (env_set "ORCANA_RUN_ID" run DEFAULT_ENV_VARS)) in
  jget k (if service : bool then env_set "TERM" "xterm" env else env) =
  if service && (k === "TERM") then Some "xterm" else jget k DEFAULT_ENV_VARS.
Proof.
  intros H1 H2 H3. cbv zeta.
  assert (forall v e, jget k (env_set "TERM" v e) = if k === "TERM" then Some v else jget k e) as Ht.
  { intros v e. rewrite env_set_get. destruct (k === "TERM") eqn:E; reflect.
    - by subst.
    - by rewrite bool_decide_eq_false_2. }
  destruct service; [rewrite Ht; cbn [andb]; destruct (k === "TERM"); [done|]|cbn [andb]];
    by rewrite !env_set_get, !bool_decide_eq_false_2.
Qed.

(** The value the layers give to a name that is not reserved. *)
Definition granted (input : BuildEnvironmentInput) (k : string) : option string :=
  let policy := be_policy input in
  match jget k (be_secrets input) with
  | Some v => Some v
  | None => match jget k (requestedValues policy) with
  | Some v => Some v
  | None => match (if bool_decide (k ∈ ep_allowedHostKeys policy) then hostEnv k else None) with
  | Some v => Some v
  | None => match jget k (fixedValues policy) with
  | Some v => Some v
  | None => if (baseProfile policy === bp_service) && (k === "TERM") then Some "xterm"
            else jget k DEFAULT_ENV_VARS
  end end end end.

Lemma term_not_reserved k : (k === "TERM") = true -> isRuntimeReservedKey k = false.
Proof. intros ->%same_eq. reflexivity. Qed.

Section Layers.
Context (input : BuildEnvironmentInput)
  (Hfixed : NoDup (jkeys (fixedValues (be_policy input))))
  (Hrequested : NoDup (jkeys (requestedValues (be_policy input))))
  (Hsecrets : NoDup (jkeys (be_secrets input))).

Lemma layers_get k :
  k <> "ORCANA_RUN_ID" -> k <> "ORCANA_NODE_RUN_ID" -> k <> "PATH" ->
  hostKeyDenied k (all_denied input) = false ->
  jget k (layers hostEnv existsSync input).1 =
  if isRuntimeReservedKey k then jget k DEFAULT_ENV_VARS
  else if k === "__proto__" then None else granted input k.
Proof.
  intros H1 H2 H3 Hd. unfold all_denied in Hd. unfold layers. cbv zeta.
  assert (hostKeyDenied k (be_extraDenied input) = false) as Hd'.
  { destruct (hostKeyDenied k (be_extraDenied input)) eqn:E; [|done].
    by apply (hostKeyDenied_more _ _ (deniedKeys (be_policy input))) in E; rewrite E in Hd. }
  rewrite admit_get, admit_get, admit_host_get, admit_get by done. cbn [fst].
  rewrite base_get, Hd, Hd' by done. cbn [orb].
  destruct (isRuntimeReservedKey k) eqn:Er; cbn [orb].
  - destruct (k === "TERM") eqn:Et; [by rewrite (term_not_reserved _ Et) in Er|].
    by rewrite andb_false_r.
  - destruct (k === "__proto__") eqn:Ep; [apply same_eq in Ep as ->; by rewrite andb_false_r|].
    unfold granted. repeat case_match; congruence.
Qed.

Lemma purged_get k :
  k <> "ORCANA_RUN_ID" -> k <> "ORCANA_NODE_RUN_ID" -> k <> "PATH" ->
  jget k (purge (fun key => hostKeyDenied key (all_denied input)) (layers hostEnv existsSync input)).1 =
  if hostKeyDenied k (all_denied input) then None
  else if isRuntimeReservedKey k then jget k DEFAULT_ENV_VARS
  else if k === "__proto__" then None else granted input k.
Proof.
  intros H1 H2 H3. rewrite purge_get by apply layers_NoDup.
  destruct (hostKeyDenied k (all_denied input)) eqn:E; [done|]. by apply layers_get.
Qed.

Lemma built_get k :
  jget k (er_env (buildExplicitEnvironment hostEnv existsSync input)) =
  if k === "ORCANA_RUN_ID" then Some (be_runId input)
  else if k === "ORCANA_NODE_RUN_ID" then Some (be_nodeRunId input)
  else if k === "PATH" then Some (runtime_path hostEnv existsSync input)
  else if k === "ORCANA_SANDBOX" then Some "1"
  else if hostKeyDenied k (all_denied input) then None
  else if isRuntimeReservedKey k then jget k DEFAULT_ENV_VARS
  else if k === "__proto__" then None else granted input k.
Proof.
  pose proof purged_get as Hp. unfold buildExplicitEnvironment.
  change (be_extraDenied input ++ deniedKeys (be_policy input)) with (all_denied input).
  destruct (purge _ _) as [env rejected]. cbn [fst] in Hp. cbn [er_env].
  set (path := runtime_path hostEnv existsSync input).
  set (env3 := env_set "PATH" path _).
  assert (forall j, jget j env3 =
    if j === "ORCANA_RUN_ID" then Some (be_runId input)
    else if j === "ORCANA_NODE_RUN_ID" then Some (be_nodeRunId input)
    else if j === "PATH" then Some path else jget j env) as H3.
  { intros j. unfold env3. rewrite !env_set_get. unfold same.
    repeat case_bool_decide; by subst. }
  assert (jget "ORCANA_SANDBOX" env3 = None \/ jget "ORCANA_SANDBOX" env3 = Some "1") as Hs.
  { rewrite H3, Hp by done. destruct (hostKeyDenied _ _); [by left|by right]. }
  assert (jget k (match jget "ORCANA_SANDBOX" env3 with
                  | Some _ => env3 | None => env_set "ORCANA_SANDBOX" "1" env3 end)
          = if k === "ORCANA_SANDBOX" then Some "1" else jget k env3) as Hk.
  { destruct Hs as [Hs|Hs]; rewrite Hs.
    - rewrite env_set_get. unfold same. repeat case_bool_decide; by subst.
    - destruct (k === "ORCANA_SANDBOX") eqn:E; [|done]. by apply same_eq in E as ->. }
  etrans; [exact Hk|]. rewrite H3.
  destruct (k === "ORCANA_RUN_ID") eqn:E1; [by apply same_eq in E1 as ->|].
  destruct (k === "ORCANA_NODE_RUN_ID") eqn:E2; [by apply same_eq in E2 as ->|].
  destruct (k === "PATH") eqn:E3; [by apply same_eq in E3 as ->|]. reflect.
  destruct (k === "ORCANA_SANDBOX"); [done|]. by apply Hp.
Qed.
End Layers.

(** The environment of a sandboxed process is exactly what was granted:
    the run's identity, the search path and the sandbox mark are the runtime's
    own whatever was asked; of all other names a denied one is absent, a reserved
    one has its default value or none, and the rest have the value of the last
    layer that sets them: secrets over requested values over allowed host
    variables over fixed values over defaults.  In particular nothing of the
    host comes in under a name that was not allowed, and no name that stands for
    a credential is left. *)
Theorem environment_exact input
    (Hfixed : NoDup (jkeys (fixedValues (be_policy input))))
    (Hrequested : NoDup (jkeys (requestedValues (be_policy input))))
    (Hsecrets : NoDup (jkeys (be_secrets input))) :
  let policy := be_policy input in
  let env := er_env (buildExplicitEnvironment hostEnv existsSync input) in
  environmentLeaksHostSecrets env [] = [] /\
  forall k, jget k env =
    if k === "ORCANA_RUN_ID" then Some (be_runId input)
    else if k === "ORCANA_NODE_RUN_ID" then Some (be_nodeRunId input)
    else if k === "PATH" then Some (runtime_path hostEnv existsSync input)
    else if k === "ORCANA_SANDBOX" then Some "1"
    else if hostKeyDenied k (all_denied input) then None
    else if isRuntimeReservedKey k then jget k DEFAULT_ENV_VARS
    else if k === "__proto__" then None
    else match jget k (be_secrets input) with
         | Some v => Some v
         | None => match jget k (requestedValues policy) with
         | Some v => Some v
         | None => match (if bool_decide (k ∈ ep_allowedHostKeys policy) then hostEnv k else None) with
         | Some v => Some v
         | None => match jget k (fixedValues policy) with
         | Some v => Some v
         | None => if (baseProfile policy === bp_service) && (k === "TERM") then Some "xterm"
                   else jget k DEFAULT_ENV_VARS
         end end end end.
Proof.
  cbv zeta. split; [|by apply built_get].
  apply filter_nil_iff. intros k Hk [Hden _].
  apply elem_of_list_keys in Hk as [v Hv]. rewrite built_get in Hv by done.
  repeat match type of Hv with
  | (if ?k === ?s then _ else _) = _ =>
      destruct (k === s) eqn:E in Hv; [apply same_eq in E as ->; by vm_compute in Hden|clear E]
  end.
  by rewrite (hostKeyDenied_default _ _ Hden) in Hv.
Qed.
End Exact.

Lemma environment_exact_witness :
  let input := mkBuildEnv
    (mkEnvPolicy bp_build ["LANGUAGE"; "SSH_AUTH_SOCK"; "PATH"] [("NODE_ENV", "test")]
       [("NODE_ENV", "ci"); ("PATH", "/evil"); ("DB_PASSWORD", "x")] [])
    "run_1" "node_1" ["/opt/bin"] [("DEPLOY", "s3cret")] [] in
  let hostEnv := fun k => Some ("host " +:+ k) in
  let env := er_env (buildExplicitEnvironment hostEnv (fun _ => false) input) in
  environmentLeaksHostSecrets env [] = [] /\
  jget "NODE_ENV" env = Some "ci" /\ jget "LANGUAGE" env = Some "host LANGUAGE" /\
  jget "SSH_AUTH_SOCK" env = None /\ jget "DB_PASSWORD" env = None /\
  jget "PATH" env = Some "/usr/local/bin:/usr/bin:/bin:/opt/bin" /\ jget "DEPLOY" env = Some "s3cret".
Proof.
  intros input hostEnv env.
  assert (forall vs : vars, bool_decide (NoDup (jkeys vs)) = true -> NoDup (jkeys vs)) as Hnd
    by (intros vs; apply bool_decide_eq_true).
  destruct (environment_exact hostEnv (fun _ => false) input) as [Hl Hk];
    [apply Hnd; vm_compute; reflexivity..|].
  split; [exact Hl|]. unfold env.
  repeat split; (etrans; [apply Hk|vm_compute; reflexivity]).
Defined.

(** ** Minimal environments *)

Lemma env_set_keys key value env k :
  k ∈ jkeys (env_set key value env) -> k = key \/ k ∈ jkeys env.
Proof. unfold env_set. destruct (key === "__proto__"); [by right|]. apply elem_of_jkeys_jset. Qed.

(** A long-lived process started with the minimal environment sees no name that
    stands for a credential, whatever else it is given. *)
Lemma minimal_env_no_leak hostEnv extra :
  environmentLeaksHostSecrets (minimalHostEnv hostEnv extra) [] = [].
Proof.
  set (clean := fun env : vars => forall k, k ∈ jkeys env -> hostKeyDenied k [] = false).
  assert (clean (minimalHostEnv hostEnv extra)) as Hc.
  { unfold minimalHostEnv.
    match goal with |- clean (fold_left _ _ ?e) => set (start := e) end.
    assert (clean start) as Hs.
    { unfold start. assert (forall key, key ∈ MINIMAL_HOST_ENV_KEYS -> hostKeyDenied key [] = false) as Hm.
      { intros key Hkey. apply negb_true_iff.
        eapply (forallb_elem (fun key => negb (hostKeyDenied key []))); [|exact Hkey].
        vm_compute; reflexivity. }
      assert (clean []) as H0 by (intros k Hk; by apply not_elem_of_nil in Hk).
      revert Hm H0. generalize MINIMAL_HOST_ENV_KEYS (@nil (string * string)).
      intros keys. induction keys as [|key keys IH]; intros env Hm H0; [done|]. cbn [fold_left].
      apply IH; [intros ? ?; apply Hm; set_solver|]. destruct (hostEnv key); [|done].
      intros k [->|Hk]%env_set_keys; [apply Hm; set_solver|by apply H0]. }
    revert Hs. generalize start. induction extra as [|[key value] extra IH]; intros env Hs; [done|].
    cbn [fold_left]. apply IH. destruct (hostKeyDenied key []) eqn:E; [done|].
    intros k [->|Hk]%env_set_keys; [done|by apply Hs]. }
  apply filter_nil_iff. intros k Hk [Hd _]. apply Hc in Hk. by rewrite Hk in Hd.
Qed.

(** ** Secrets *)

Inductive SecretDelivery := sd_sealed_file | sd_file_descriptor | sd_environment.

(** src/src/runtime/linux/contracts.ts # SecretBinding *)
Record SecretBinding := mkSecretBinding {
  sb_id : string; sb_purpose : string; sb_delivery : SecretDelivery;
  sb_target : option string; sb_allowedExecutable : option string; sb_expiresAt : Z }.

(** src/src/runtime/linux/secrets.ts # BoundSecret *)
Record BoundSecret := mkBoundSecret {
  bs_binding : SecretBinding; bs_deliveryTarget : option string; bs_envKey : option string }.

Inductive secret_error := no_value (id : string) | expired (id : string).

(** src/src/runtime/linux/secrets.ts # BindSecretsResult

    [br_files] is the file system after the writes, [br_created] the list the
    cleanup closes over. *)
Record BindSecretsResult := mkBindResult {
  br_bound : list BoundSecret; br_envInjections : vars; br_errors : list secret_error;
  br_created : list string; br_files : gmap string string }.

(** [s.toUpperCase()] on ASCII. *)
Definition upper_char (c : ascii) : ascii :=
  if in_range 97 122 c then ascii_of_nat (nat_of_ascii c - 32) else c.
Fixpoint upper (s : string) : string :=
  match s with EmptyString => EmptyString | String c s => String (upper_char c) (upper s) end.

Definition bind_error (e : secret_error) (r : BindSecretsResult) : BindSecretsResult :=
  mkBindResult (br_bound r) (br_envInjections r) (br_errors r ++ [e]) (br_created r) (br_files r).
Definition bind_file (b : SecretBinding) (file value : string) (r : BindSecretsResult) : BindSecretsResult :=
  mkBindResult (br_bound r ++ [mkBoundSecret b (Some file) None]) (br_envInjections r) (br_errors r)
    (br_created r ++ [file]) (<[file := value]> (br_files r)).
Definition bind_env (b : SecretBinding) (key value : string) (r : BindSecretsResult) : BindSecretsResult :=
  mkBindResult (br_bound r ++ [mkBoundSecret b None (Some key)]) (env_set key value (br_envInjections r))
    (br_errors r) (br_created r) (br_files r).

Definition bind_one (root : string) (values : vars) (now : Z) (r : BindSecretsResult)
    (binding : SecretBinding) : BindSecretsResult :=
  match jget (sb_id binding) values with
  | None => bind_error (no_value (sb_id binding)) r
  | Some value =>
      if (sb_expiresAt binding <? now)%Z then bind_error (expired (sb_id binding)) r
      else match sb_delivery binding with
           | sd_environment =>
               bind_env binding
                 (default ("ORCANA_SECRET_" +:+ upper (sb_id binding)) (sb_target binding)) value r
           | sd_sealed_file => bind_file binding (path_join root (sb_id binding +:+ ".secret")) value r
           | sd_file_descriptor => bind_file binding (path_join root (sb_id binding +:+ ".fd")) value r
           end
  end.

(** src/src/runtime/linux/secrets.ts # bindSecrets

    The clock is read once; making the directory is left out. *)
Definition bindSecrets (root : string) (values : vars) (now : Z) (fs : gmap string string)
    (bindings : list SecretBinding) : BindSecretsResult :=
  fold_left (bind_one root values now) bindings (mkBindResult [] [] [] [] fs).

(** The closure [cleanup] of [bindSecrets], without the directory: [failing] are
    the removals that throw. *)
Definition cleanup_secrets (failing : string -> bool) (r : BindSecretsResult) : gmap string string :=
  fold_left (fun fs file => if failing file then fs else delete file fs) (br_created r) (br_files r).

(** Cleaning up takes back every file a binding wrote, also when another binding
    failed, and nothing else. *)
Lemma bound_files root values now fs bindings file :
  let r := bindSecrets root values now fs bindings in
  file ∉ br_created r -> br_files r !! file = fs !! file.
Proof.
  cbv zeta. unfold bindSecrets. set (r0 := mkBindResult [] [] [] [] fs).
  assert (file ∉ br_created r0 -> br_files r0 !! file = fs !! file) as H0 by done.
  revert H0. generalize r0. clear r0. induction bindings as [|b bindings IH]; intros r Hr; [done|].
  cbn [fold_left]. apply IH. unfold bind_one.
  destruct (jget (sb_id b) values); [|done]. destruct (_ <? _)%Z; [done|].
  destruct (sb_delivery b); try done; cbn [br_created br_files bind_file];
    intros Hn; rewrite lookup_insert_ne by set_solver; apply Hr; set_solver.
Qed.

Lemma secrets_cleaned root values now fs bindings file :
  let r := bindSecrets root values now fs bindings in
  cleanup_secrets (fun _ => false) r !! file
  = if bool_decide (file ∈ br_created r) then None else fs !! file.
Proof.
  cbv zeta. set (r := bindSecrets _ _ _ _ _).
  assert (forall created (m : gmap string string),
    fold_left (fun fs f => delete f fs) created m !! file
    = if bool_decide (file ∈ created) then None else m !! file) as Hdel.
  { induction created as [|f created IH]; intros m; cbn [fold_left].
    { case_bool_decide as H; [by apply not_elem_of_nil in H|done]. }
    rewrite IH. repeat case_bool_decide; try set_solver.
    - assert (file = f) as -> by set_solver. apply lookup_delete_eq.
    - by rewrite lookup_delete_ne by set_solver. }
  unfold cleanup_secrets. rewrite Hdel. case_bool_decide; [done|]. by apply bound_files.
Qed.

(** ** Behaviours worth knowing *)

(** A secret bound to a variable whose name stands for a credential is taken out
    of the environment again by the last step, although it was bound. *)
Lemma credential_secret_dropped :
  let r := bindSecrets "/run/s" [("sb_1", "tok")] 5 ∅
             [mkSecretBinding "sb_1" "deploy" sd_environment (Some "GITHUB_TOKEN") None 10] in
  br_errors r = [] /\ jget "GITHUB_TOKEN" (br_envInjections r) = Some "tok" /\
  let result := buildExplicitEnvironment (fun _ => None) (fun _ => false)
    (mkBuildEnv (mkEnvPolicy bp_minimal [] [] [] []) "r" "n" [] (br_envInjections r) []) in
  er_ok result = true /\ jget "GITHUB_TOKEN" (er_env result) = None.
Proof. vm_compute. done. Qed.

(** A relative directory of the host's search path is kept when it exists. *)
Lemma relative_entry_kept :
  appendSafeHostPathEntries (fun p => p === "node_modules/.bin") "/usr/bin"
    (Some "./x:/tmp/y:node_modules/.bin:/evil") [] = "/usr/bin:node_modules/.bin".
Proof. vm_compute. done. Qed.
