(* ===== verification/CellPolicy.v ===== *)
(** Execution cells and the policy they are compiled under.

    Models, of [src/src/runtime/linux], the cell specification of [contracts.ts],
    [profiles.ts], the digests of [receipt.ts] and, of [policy-compiler.ts], the
    validation of mounts and specifications, the clamping of resources and
    [compileCellSpec].  The file system ([existsSync], [realpathSync]) and
    SHA-256 are parameters; byte counts and times are integers. *)
From Stdlib Require Import Ascii.
From S2P Require Import Prelude Json Paths Environment.
Open Scope Z_scope.
Open Scope list_scope.

(** ** The specification of a cell *)

(** src/src/runtime/linux/contracts.ts # ExecutionProfile *)
Inductive ExecutionProfile :=
| pr_inspect | pr_build | pr_test | pr_dependency | pr_service | pr_untrusted | pr_evolution.
(** src/src/runtime/linux/contracts.ts # IsolationMinimum *)
Inductive IsolationMinimum := im_audit | im_namespace | im_container.
(** src/src/runtime/linux/contracts.ts # BackendId *)
Inductive BackendId := bk_host_audit | bk_bubblewrap | bk_rootless_podman.
(** src/src/runtime/linux/contracts.ts # NetworkMode *)
Inductive NetworkMode := nm_none | nm_loopback | nm_proxy_allowlist | nm_full_approved.
Inductive PreferredBackend := pb_auto | pb_bubblewrap | pb_podman | pb_host_audit.
Inductive MountMode := mm_ro | mm_rw.
Inductive CacheMode := cm_ro | cm_rw_locked.
Inductive CacheKind := ck_bun | ck_npm | ck_pnpm | ck_typescript | ck_repo_map | ck_custom.
Inductive Stdin := in_closed | in_pipe.

#[export] Instance ExecutionProfile_eq_dec : EqDecision ExecutionProfile.
Proof. solve_decision. Defined.
#[export] Instance IsolationMinimum_eq_dec : EqDecision IsolationMinimum.
Proof. solve_decision. Defined.
#[export] Instance BackendId_eq_dec : EqDecision BackendId.
Proof. solve_decision. Defined.
#[export] Instance NetworkMode_eq_dec : EqDecision NetworkMode.
Proof. solve_decision. Defined.
#[export] Instance PreferredBackend_eq_dec : EqDecision PreferredBackend.
Proof. solve_decision. Defined.
#[export] Instance MountMode_eq_dec : EqDecision MountMode.
Proof. solve_decision. Defined.
#[export] Instance CacheMode_eq_dec : EqDecision CacheMode.
Proof. solve_decision. Defined.

(** src/src/runtime/linux/contracts.ts # MountRule *)
Record MountRule := mkMount {
  m_source : string; m_target : string; m_mode : MountMode; m_required : bool;
  m_recursive : bool; m_noExec : option bool; m_noDev : option bool; m_noSuid : option bool }.

(** src/src/runtime/linux/contracts.ts # TmpfsRule *)
Record TmpfsRule := mkTmpfs { t_target : string; t_sizeBytes : Z; t_mode : option Z }.

(** src/src/runtime/linux/contracts.ts # CacheMountRequest *)
Record CacheMountRequest := mkCacheMount {
  c_cacheId : string; c_kind : CacheKind; c_key : string; c_mode : CacheMode; c_target : string }.

Record CellIdentity := mkIdentity {
  cellId : string; runId : string; nodeRunId : string; attempt : Z;
  agentId : option string; assignmentId : option string }.
Record CellCommand := mkCommand {
  executable : string; args : list string; cwd : string; stdin : Stdin }.
Record Isolation := mkIsolation {
  minimum : IsolationMinimum; preferredBackend : PreferredBackend; allowDegradation : bool }.
Record CellFilesystem := mkFilesystem {
  readonlyMounts : list MountRule; writableMounts : list MountRule; tmpfsMounts : list TmpfsRule;
  hiddenPaths : list string; emptyHome : bool; worktreeRoot : option string;
  ownerFiles : option (list string) }.
Record CellNetwork := mkNetwork {
  net_mode : NetworkMode; allowedHosts : option (list string); allowedPorts : option (list Z) }.
Record CellEnvironment := mkEnvironment {
  variables : vars; allowedHostKeys : option (list string); inheritHost : bool;
  locale : string; pathEntries : list string }.
Record CellResources := mkResources {
  cpuMillis : option Z; cpuQuotaMicros : option Z; cpuPeriodMicros : option Z; cpuWeight : option Z;
  memoryHighBytes : option Z; memoryMaxBytes : Z; swapMaxBytes : option Z; ioWeight : option Z;
  readBpsMax : option Z; writeBpsMax : option Z; wallTimeMs : Z; stdoutMaxBytes : Z;
  stderrMaxBytes : Z; tmpfsMaxBytes : Z; maxOpenFiles : option Z; pidsMax : Z }.
Record CellLifecycle := mkLifecycle {
  killOnParentExit : bool; cleanupOnExit : bool; retainOnFailure : bool; serviceMode : bool }.

(** src/src/runtime/linux/contracts.ts # ExecutionCellSpec *)
Record ExecutionCellSpec := mkCellSpec {
  schemaVersion : string; identity : CellIdentity; command : CellCommand;
  profile : ExecutionProfile; isolation : Isolation; filesystem : CellFilesystem;
  network : CellNetwork; environment : CellEnvironment; secrets : list SecretBinding;
  resources : CellResources; cache : list CacheMountRequest; lifecycle : CellLifecycle;
  policyDigest : string }.

Definition with_resources (r : CellResources) (s : ExecutionCellSpec) : ExecutionCellSpec :=
  mkCellSpec (schemaVersion s) (identity s) (command s) (profile s) (isolation s) (filesystem s)
    (network s) (environment s) (secrets s) r (cache s) (lifecycle s) (policyDigest s).
Definition with_digest (d : string) (s : ExecutionCellSpec) : ExecutionCellSpec :=
  mkCellSpec (schemaVersion s) (identity s) (command s) (profile s) (isolation s) (filesystem s)
    (network s) (environment s) (secrets s) (resources s) (cache s) (lifecycle s) d.

(** ** Profiles *)

Definition MB : Z := 1024 * 1024.
Definition GB : Z := 1024 * MB.

(** src/src/runtime/linux/profiles.ts # ProfileDefaults *)
Record ProfileDefaults := mkDefaults {
  pd_profile : ExecutionProfile; pd_backend : BackendId; pd_minimum : IsolationMinimum;
  pd_network : NetworkMode; pd_allowDegradation : bool; pd_memoryMaxBytes : Z;
  pd_memoryHighBytes : Z; pd_pidsMax : Z; pd_emptyHome : bool; pd_cpuMillis : Z;
  pd_cpuQuotaMicros : Z; pd_cpuPeriodMicros : Z }.

(** src/src/runtime/linux/profiles.ts # PROFILE_DEFAULTS *)
Definition PROFILE_DEFAULTS (p : ExecutionProfile) : ProfileDefaults :=
  match p with
  | pr_inspect => mkDefaults pr_inspect bk_bubblewrap im_namespace nm_none true
      (512 * MB) (256 * MB) 32 true 1000 100000 100000
  | pr_build => mkDefaults pr_build bk_bubblewrap im_namespace nm_none true
      (2 * GB) GB 128 true 1000 100000 100000
  | pr_test => mkDefaults pr_test bk_bubblewrap im_namespace nm_none false
      (2 * GB) GB 256 true 1000 100000 100000
  | pr_dependency => mkDefaults pr_dependency bk_rootless_podman im_container nm_proxy_allowlist false
      (2 * GB) GB 256 true 1000 100000 100000
  | pr_service => mkDefaults pr_service bk_bubblewrap im_namespace nm_loopback false
      (2 * GB) GB 128 true 1000 100000 100000
  | pr_untrusted => mkDefaults pr_untrusted bk_rootless_podman im_container nm_none false
      GB (512 * MB) 64 true 1000 100000 100000
  | pr_evolution => mkDefaults pr_evolution bk_rootless_podman im_container nm_none false
      GB (512 * MB) 64 true 1000 100000 100000
  end.

(** src/src/runtime/linux/profiles.ts # profileDefaults *)
Definition profileDefaults (p : ExecutionProfile) : ProfileDefaults := PROFILE_DEFAULTS p.

(** src/src/runtime/linux/profiles.ts # isStrictProfile *)
Definition isStrictProfile (p : ExecutionProfile) : bool := negb (pd_allowDegradation (PROFILE_DEFAULTS p)).

(** The [Partial<ExecutionCellSpec>] that the repository passes: without identity,
    command, profile and version, which no caller overrides. *)
Record SpecOverrides := mkOverrides {
  ov_isolation : option Isolation; ov_filesystem : option CellFilesystem;
  ov_network : option CellNetwork; ov_environment : option CellEnvironment;
  ov_secrets : option (list SecretBinding); ov_resources : option CellResources;
  ov_cache : option (list CacheMountRequest); ov_lifecycle : option CellLifecycle;
  ov_policyDigest : option string }.
Definition no_overrides : SpecOverrides := mkOverrides None None None None None None None None None.

(** src/src/runtime/linux/profiles.ts # applyProfileDefaults *)
Definition applyProfileDefaults (id : CellIdentity) (cmd : CellCommand) (p : ExecutionProfile)
    (overrides : SpecOverrides) : ExecutionCellSpec :=
  let defaults := PROFILE_DEFAULTS p in
  {| schemaVersion := "1.0";
     identity := id;
     command := cmd;
     profile := p;
     isolation := default
       {| minimum := pd_minimum defaults;
          preferredBackend := match pd_backend defaults with
                              | bk_rootless_podman => pb_podman
                              | bk_bubblewrap => pb_bubblewrap
                              | _ => pb_auto
                              end;
          allowDegradation := pd_allowDegradation defaults |} (ov_isolation overrides);
     filesystem := default
       {| readonlyMounts := []; writableMounts := [];
          tmpfsMounts := [mkTmpfs "/tmp" (from_option tmpfsMaxBytes (512 * MB) (ov_resources overrides)) None];
          hiddenPaths := []; emptyHome := pd_emptyHome defaults;
          worktreeRoot := None; ownerFiles := None |} (ov_filesystem overrides);
     network := default (mkNetwork (pd_network defaults) None None) (ov_network overrides);
     environment := default (mkEnvironment [] None false "C.UTF-8" []) (ov_environment overrides);
     secrets := default [] (ov_secrets overrides);
     resources := default
       {| cpuMillis := Some (pd_cpuMillis defaults); cpuQuotaMicros := Some (pd_cpuQuotaMicros defaults);
          cpuPeriodMicros := Some (pd_cpuPeriodMicros defaults); cpuWeight := None;
          memoryHighBytes := Some (pd_memoryHighBytes defaults);
          memoryMaxBytes := pd_memoryMaxBytes defaults; swapMaxBytes := None; ioWeight := None;
          readBpsMax := None; writeBpsMax := None; wallTimeMs := 60000; stdoutMaxBytes := 16 * MB;
          stderrMaxBytes := 16 * MB; tmpfsMaxBytes := 512 * MB; maxOpenFiles := None;
          pidsMax := pd_pidsMax defaults |} (ov_resources overrides);
     cache := default [] (ov_cache overrides);
     lifecycle := default (mkLifecycle true true false (p === pr_service)) (ov_lifecycle overrides);
     policyDigest := default "" (ov_policyDigest overrides) |}.

(** ** Digests *)

(** src/src/runtime/linux/receipt.ts # canonicalStringify

    Object keys are sorted and [undefined] members dropped; [undefined] itself is
    rendered as [null]. *)
Fixpoint canonicalStringify (v : jsval) : string :=
  match v with
  | JUndef | JNull => "null"
  | JNum n => pretty.pretty n
  | JBool b => if b then "true" else "false"
  | JStr s => json_quote s
  | JArr vs => "[" +:+ js_join "," (map canonicalStringify vs) +:+ "]"
  | JObj fs =>
      let rendered := map (fun kv => (kv.1, kv.2, canonicalStringify kv.2)) fs in
      let present := List.filter (fun kv => match kv.1.2 with JUndef => false | _ => true end) rendered in
      let parts := map (fun kv => json_quote kv.1.1 +:+ ":" +:+ kv.2)
                       (jsort (key_before (fun kv => kv.1.1)) present) in
      "{" +:+ js_join "," parts +:+ "}"
  end.

(** src/src/runtime/linux/receipt.ts # canonicalJson *)
Definition canonicalJson (value : jsval) : string := canonicalStringify value.

(** src/src/runtime/linux/receipt.ts # CANONICALIZATION_VERSION *)
Definition CANONICALIZATION_VERSION : string := "1.0".

(** The parts of a specification as JavaScript objects. *)
Definition j_opt {A} (f : A -> jsval) (o : option A) : jsval := from_option f JUndef o.
Definition j_strs (xs : list string) : jsval := JArr (map JStr xs).
Definition profile_name (p : ExecutionProfile) : string :=
  match p with
  | pr_inspect => "inspect" | pr_build => "build" | pr_test => "test"
  | pr_dependency => "dependency" | pr_service => "service" | pr_untrusted => "untrusted"
  | pr_evolution => "evolution"
  end.
Definition minimum_name (m : IsolationMinimum) : string :=
  match m with im_audit => "audit" | im_namespace => "namespace" | im_container => "container" end.
Definition preferred_name (b : PreferredBackend) : string :=
  match b with
  | pb_auto => "auto" | pb_bubblewrap => "bubblewrap" | pb_podman => "podman"
  | pb_host_audit => "host-audit"
  end.
Definition network_name (m : NetworkMode) : string :=
  match m with
  | nm_none => "none" | nm_loopback => "loopback" | nm_proxy_allowlist => "proxy-allowlist"
  | nm_full_approved => "full-approved"
  end.
Definition cache_kind_name (k : CacheKind) : string :=
  match k with
  | ck_bun => "bun" | ck_npm => "npm" | ck_pnpm => "pnpm" | ck_typescript => "typescript"
  | ck_repo_map => "repo-map" | ck_custom => "custom"
  end.
Definition delivery_name (d : SecretDelivery) : string :=
  match d with
  | sd_sealed_file => "sealed-file" | sd_file_descriptor => "file-descriptor"
  | sd_environment => "environment"
  end.
Definition mount_json (m : MountRule) : jsval :=
  JObj [("source", JStr (m_source m)); ("target", JStr (m_target m));
        ("mode", JStr (match m_mode m with mm_ro => "ro" | mm_rw => "rw" end));
        ("required", JBool (m_required m)); ("recursive", JBool (m_recursive m));
        ("noExec", j_opt JBool (m_noExec m)); ("noDev", j_opt JBool (m_noDev m));
        ("noSuid", j_opt JBool (m_noSuid m))].
Definition isolation_json (i : Isolation) : jsval :=
  JObj [("minimum", JStr (minimum_name (minimum i)));
        ("preferredBackend", JStr (preferred_name (preferredBackend i)));
        ("allowDegradation", JBool (allowDegradation i))].
Definition filesystem_json (f : CellFilesystem) : jsval :=
  JObj [("readonlyMounts", JArr (map mount_json (readonlyMounts f)));
        ("writableMounts", JArr (map mount_json (writableMounts f)));
        ("tmpfsMounts", JArr (map (fun t => JObj [("target", JStr (t_target t));
            ("sizeBytes", JNum (t_sizeBytes t)); ("mode", j_opt JNum (t_mode t))]) (tmpfsMounts f)));
        ("hiddenPaths", j_strs (hiddenPaths f)); ("emptyHome", JBool (emptyHome f));
        ("worktreeRoot", j_opt JStr (worktreeRoot f)); ("ownerFiles", j_opt j_strs (ownerFiles f))].
Definition network_json (n : CellNetwork) : jsval :=
  JObj [("mode", JStr (network_name (net_mode n))); ("allowedHosts", j_opt j_strs (allowedHosts n));
        ("allowedPorts", j_opt (fun ps => JArr (map JNum ps)) (allowedPorts n))].
Definition environment_json (e : CellEnvironment) : jsval :=
  JObj [("variables", JObj (map (fun kv => (kv.1, JStr kv.2)) (variables e)));
        ("allowedHostKeys", j_opt j_strs (allowedHostKeys e)); ("inheritHost", JBool (inheritHost e));
        ("locale", JStr (locale e)); ("pathEntries", j_strs (pathEntries e))].
Definition resources_json (r : CellResources) : jsval :=
  JObj [("cpuMillis", j_opt JNum (cpuMillis r)); ("cpuQuotaMicros", j_opt JNum (cpuQuotaMicros r));
        ("cpuPeriodMicros", j_opt JNum (cpuPeriodMicros r)); ("cpuWeight", j_opt JNum (cpuWeight r));
        ("memoryHighBytes", j_opt JNum (memoryHighBytes r)); ("memoryMaxBytes", JNum (memoryMaxBytes r));
        ("swapMaxBytes", j_opt JNum (swapMaxBytes r)); ("ioWeight", j_opt JNum (ioWeight r));
        ("readBpsMax", j_opt JNum (readBpsMax r)); ("writeBpsMax", j_opt JNum (writeBpsMax r));
        ("wallTimeMs", JNum (wallTimeMs r)); ("stdoutMaxBytes", JNum (stdoutMaxBytes r));
        ("stderrMaxBytes", JNum (stderrMaxBytes r)); ("tmpfsMaxBytes", JNum (tmpfsMaxBytes r));
        ("maxOpenFiles", j_opt JNum (maxOpenFiles r)); ("pidsMax", JNum (pidsMax r))].
Definition cache_json (c : CacheMountRequest) : jsval :=
  JObj [("cacheId", JStr (c_cacheId c)); ("kind", JStr (cache_kind_name (c_kind c)));
        ("key", JStr (c_key c)); ("mode", JStr (match c_mode c with cm_ro => "ro" | cm_rw_locked => "rw-locked" end));
        ("target", JStr (c_target c))].

(** The value [computePolicyDigest] takes the digest of. *)
Definition policy_json (s : ExecutionCellSpec) : jsval :=
  JObj [("schemaVersion", JStr (schemaVersion s));
        ("canonicalizationVersion", JStr CANONICALIZATION_VERSION);
        ("isolation", isolation_json (isolation s));
        ("filesystem", filesystem_json (filesystem s));
        ("network", network_json (network s));
        ("resources", resources_json (resources s));
        ("environment", environment_json (environment s));
        ("secrets", JArr (map (fun b => JObj [("id", JStr (sb_id b)); ("purpose", JStr (sb_purpose b));
            ("delivery", JStr (delivery_name (sb_delivery b)))]) (secrets s)));
        ("cache", JArr (map cache_json (cache s)))].

(** ** Mount rules *)

(** src/src/runtime/linux/policy-compiler.ts # ISOLATION_LEVEL *)
Definition ISOLATION_LEVEL (m : IsolationMinimum) : Z :=
  match m with im_audit => 0 | im_namespace => 1 | im_container => 2 end.

(** src/src/runtime/linux/policy-compiler.ts # NETWORK_LEVEL *)
Definition NETWORK_LEVEL (m : NetworkMode) : Z :=
  match m with nm_none => 0 | nm_loopback => 1 | nm_proxy_allowlist => 2 | nm_full_approved => 3 end.

(** src/src/runtime/linux/policy-compiler.ts # SYSTEM_READONLY_PATHS *)
Definition SYSTEM_READONLY_PATHS : list string :=
  ["/usr"; "/bin"; "/lib"; "/lib64"; "/etc/ssl/certs"; "/etc/alternatives"].

(** src/src/runtime/linux/policy-compiler.ts # FORBIDDEN_MOUNT_PATHS *)
Definition FORBIDDEN_MOUNT_PATHS : list string := ["/root"; "/home"; "/run/user"].

(** src/src/runtime/linux/policy-compiler.ts # FORBIDDEN_MOUNT_SUFFIXES *)
Definition FORBIDDEN_MOUNT_SUFFIXES : list string :=
  ["/.ssh"; "/.gnupg"; "/.aws"; "/.config/gcloud"; "/.kube"].

(** src/src/runtime/linux/policy-compiler.ts # FORBIDDEN_SOCKET_PATHS *)
Definition FORBIDDEN_SOCKET_PATHS : list string :=
  ["/run/docker.sock"; "/var/run/docker.sock"; "/run/user"; "/run/podman"; "/run/systemd"].

(** src/src/runtime/linux/policy-compiler.ts # isSystemPath *)
Definition isSystemPath (real : string) : bool := existsb (fun p => under p real) SYSTEM_READONLY_PATHS.

Inductive MountError :=
| me_incomplete
| me_relative_source (source : string)
| me_relative_target (target : string)
| me_escape (source : string)
| me_escape_no_context (source : string)
| me_missing (source : string)
| me_forbidden (source : string)
| me_credential (source : string)
| me_socket (source : string)
| me_duplicate (target : string)
| me_nested (target other : string).

(** The file system the compiler looks at: [existsSync], and [realpathSync],
    which may throw. *)
Record HostFs := mkHostFs { existsSync : string -> bool; realpathSync : string -> option string }.

Section Compiler.
Context (fs : HostFs) (processCwd : string) (sha256 : string -> string).

(** src/src/runtime/linux/policy-compiler.ts # realpathSafe *)
Definition realpathSafe (p : string) : string := default (path_resolve processCwd [p]) (realpathSync fs p).

(** The symbolic-link check of [validateMountRule]; [None] lets the rule pass. *)
Definition link_error (rule : MountRule) (source : string) (projectRoot : option string)
  : option MountError :=
  if existsSync fs source then
    match realpathSync fs source with
    | None => if m_required rule then Some (me_missing (m_source rule)) else None
    | Some real =>
        match projectRoot with
        | Some root =>
            if negb (root === "") then
              if negb (under (realpathSafe root) real) && negb (isSystemPath real)
              then Some (me_escape (m_source rule)) else None
            else if negb (real === source) && negb (isSystemPath real)
                 then Some (me_escape_no_context (m_source rule)) else None
        | None => if negb (real === source) && negb (isSystemPath real)
                  then Some (me_escape_no_context (m_source rule)) else None
        end
    end
  else if m_required rule then Some (me_missing (m_source rule)) else None.

Definition with_paths (source target : string) (m : MountRule) : MountRule :=
  mkMount source target (m_mode m) (m_required m) (m_recursive m) (m_noExec m) (m_noDev m) (m_noSuid m).

(** src/src/runtime/linux/policy-compiler.ts # validateMountRule *)
Definition validateMountRule (rule : MountRule) (projectRoot : option string) : res MountError MountRule :=
  if (m_source rule === "") || (m_target rule === "") then Throw me_incomplete
  else if negb (isAbsolute (m_source rule)) then Throw (me_relative_source (m_source rule))
  else if negb (isAbsolute (m_target rule)) then Throw (me_relative_target (m_target rule))
  else
    let source := path_normalize (m_source rule) in
    let target := path_normalize (m_target rule) in
    match link_error rule source projectRoot with
    | Some e => Throw e
    | None =>
        if existsb (fun forbidden => under forbidden source) FORBIDDEN_MOUNT_PATHS
        then Throw (me_forbidden (m_source rule))
        else if existsb (endsWith source) FORBIDDEN_MOUNT_SUFFIXES
        then Throw (me_credential (m_source rule))
        else if existsb (fun socket => under socket source) FORBIDDEN_SOCKET_PATHS
        then Throw (me_socket (m_source rule))
        else Ok (with_paths source target rule)
    end.

(** [a.startsWith(b + sep) || b.startsWith(a + sep)] *)
Definition nested (a b : string) : bool := startsWith b (a +:+ "/") || startsWith a (b +:+ "/").

(** The loop of [validateMountSet]; [targets] is the insertion-ordered map, of
    which only the keys are read. *)
Fixpoint validate_mounts (projectRoot : option string) (rules : list MountRule)
    (targets : list string) (errors : list MountError) (normalized : list MountRule)
  : list MountError * list MountRule :=
  match rules with
  | [] => (errors, normalized)
  | rule :: rules =>
      match validateMountRule rule projectRoot with
      | Throw e => validate_mounts projectRoot rules targets (errors ++ [e]) normalized
      | Ok m =>
          if includes targets (m_target m) then
            validate_mounts projectRoot rules targets (errors ++ [me_duplicate (m_target m)]) normalized
          else
            let errors :=
              match find (fun other => nested (m_target m) other) targets with
              | Some other => errors ++ [me_nested (m_target m) other]
              | None => errors
              end in
            validate_mounts projectRoot rules (targets ++ [m_target m]) errors (normalized ++ [m])
      end
  end.

(** src/src/runtime/linux/policy-compiler.ts # validateMountSet *)
Definition validateMountSet (rules : list MountRule) (projectRoot : option string)
  : list MountError * list MountRule := validate_mounts projectRoot rules [] [] [].

(** ** Validating a specification *)

Inductive SpecError :=
| se_schema | se_identity | se_no_executable | se_executable (e : string) | se_cwd | se_inherit
| se_denied_variables (keys : list string) | se_denied_host_keys (keys : list string)
| se_memory | se_pids | se_wall_time
| se_read_bps | se_write_bps | se_open_files | se_io_weight | se_allowlist
| se_audit_not_allowed (p : ExecutionProfile) | se_audit_needs_degradation
| se_below_minimum (p : ExecutionProfile) | se_degradation (p : ExecutionProfile)
| se_network (p : ExecutionProfile)
| se_mount (e : MountError)
| se_digest.

(** src/src/runtime/linux/receipt.ts # digestOf *)
Definition digestOf (value : jsval) : string := sha256 (canonicalJson value).

(** src/src/runtime/linux/receipt.ts # computePolicyDigest *)
Definition computePolicyDigest (s : ExecutionCellSpec) : string := digestOf (policy_json s).

Definition check (b : bool) (e : SpecError) : list SpecError := if b then [e] else [].

Definition is_declared {A} (o : option A) : bool := match o with Some _ => true | None => false end.

(** The isolation part of [validateCellSpec]. *)
Definition isolation_errors (s : ExecutionCellSpec) : list SpecError :=
  let pdefaults := profileDefaults (profile s) in
  (if minimum (isolation s) === im_audit then
     if negb (pd_allowDegradation pdefaults) then [se_audit_not_allowed (profile s)]
     else if negb (allowDegradation (isolation s)) then [se_audit_needs_degradation] else []
   else check (ISOLATION_LEVEL (minimum (isolation s)) <? ISOLATION_LEVEL (pd_minimum pdefaults))
              (se_below_minimum (profile s)))
  ++ check (allowDegradation (isolation s) && negb (pd_allowDegradation pdefaults)) (se_degradation (profile s))
  ++ check (NETWORK_LEVEL (pd_network pdefaults) <? NETWORK_LEVEL (net_mode (network s))) (se_network (profile s)).

(** src/src/runtime/linux/policy-compiler.ts # validateCellSpec *)
Definition validateCellSpec (s : ExecutionCellSpec) : list SpecError :=
  let cmd := command s in
  let r := resources s in
  let deniedDeclared := filter (fun k => hostKeyDenied k [] = true) (jkeys (variables (environment s))) in
  let deniedAllowed := filter (fun k => hostKeyDenied k [] = true) (default [] (allowedHostKeys (environment s))) in
  check (negb (schemaVersion s === "1.0")) se_schema
  ++ check ((cellId (identity s) === "") || (runId (identity s) === "") || (nodeRunId (identity s) === "")) se_identity
  ++ check (executable cmd === "") se_no_executable
  ++ check (negb (isAbsolute (executable cmd)) && (1 <? length (split_path (executable cmd)))%nat
            && negb (startsWith (executable cmd) "./")) (se_executable (executable cmd))
  ++ check ((cwd cmd === "") || negb (isAbsolute (cwd cmd))) se_cwd
  ++ check (inheritHost (environment s)) se_inherit
  ++ check (negb (deniedDeclared === [])) (se_denied_variables deniedDeclared)
  ++ check (negb (deniedAllowed === [])) (se_denied_host_keys deniedAllowed)
  ++ check (memoryMaxBytes r <=? 0) se_memory
  ++ check (pidsMax r <=? 0) se_pids
  ++ check (wallTimeMs r <=? 0) se_wall_time
  ++ check (is_declared (readBpsMax r)) se_read_bps
  ++ check (is_declared (writeBpsMax r)) se_write_bps
  ++ check (is_declared (maxOpenFiles r)) se_open_files
  ++ check (match ioWeight r with Some w => negb (w =? 0) | None => false end) se_io_weight
  ++ check ((net_mode (network s) === nm_proxy_allowlist)
            && (default [] (allowedHosts (network s)) === [])) se_allowlist
  ++ isolation_errors s
  ++ map se_mount (validateMountSet (readonlyMounts (filesystem s) ++ writableMounts (filesystem s))
                                    (worktreeRoot (filesystem s))).1
  ++ check (negb (policyDigest s === "") && negb (policyDigest s === computePolicyDigest s)) se_digest.

(** ** Compiling a specification *)

(** src/src/runtime/linux/policy-compiler.ts # clampResources *)
Definition clampResources (s : ExecutionCellSpec) : ExecutionCellSpec :=
  let p := PROFILE_DEFAULTS (profile s) in
  let r := resources s in
  with_resources
    {| cpuMillis := Some (match cpuMillis r with
                          | None => pd_cpuMillis p | Some v => Z.min v (pd_cpuMillis p) end);
       cpuQuotaMicros := Some (match cpuQuotaMicros r with
                               | None => pd_cpuQuotaMicros p | Some v => Z.min v (pd_cpuQuotaMicros p) end);
       cpuPeriodMicros := Some (match cpuPeriodMicros r with
                                | None => pd_cpuPeriodMicros p | Some v => v end);
       cpuWeight := cpuWeight r;
       memoryHighBytes := match memoryHighBytes r with
                          | None => None | Some v => Some (Z.min v (pd_memoryHighBytes p)) end;
       memoryMaxBytes := Z.min (memoryMaxBytes r) (pd_memoryMaxBytes p);
       swapMaxBytes := swapMaxBytes r; ioWeight := ioWeight r; readBpsMax := readBpsMax r;
       writeBpsMax := writeBpsMax r; wallTimeMs := wallTimeMs r; stdoutMaxBytes := stdoutMaxBytes r;
       stderrMaxBytes := stderrMaxBytes r; tmpfsMaxBytes := tmpfsMaxBytes r;
       maxOpenFiles := maxOpenFiles r; pidsMax := Z.min (pidsMax r) (pd_pidsMax p) |} s.

(** src/src/runtime/linux/policy-compiler.ts # compileCellSpec

    Freezing the result is left out: values are not mutable here. *)
Definition compileCellSpec (s : ExecutionCellSpec) : list SpecError + ExecutionCellSpec :=
  let clamped := clampResources s in
  match validateCellSpec clamped with
  | [] => inr (with_digest (computePolicyDigest clamped) clamped)
  | errors => inl errors
  end.
End Compiler.

(** ** What a valid set of mounts is *)

Definition apart (a b : string) : Prop := a <> b /\ nested a b = false.

Lemma nested_sym a b : nested a b = nested b a.
Proof. unfold nested. apply orb_comm. Qed.
Lemma apart_sym a b : apart a b -> apart b a.
Proof. unfold apart. rewrite nested_sym. intros [? ?]. split; [congruence|done]. Qed.

Lemma existsb_none {A} (p : A -> bool) l x : existsb p l = false -> x ∈ l -> p x = false.
Proof.
  intros H Hx. destruct (p x) eqn:E; [|done]. rewrite <- H. symmetry.
  apply existsb_exists. exists x. split; [by apply list_elem_of_In|done].
Qed.

Section Mounts.
Context (fs : HostFs) (processCwd : string) (projectRoot : option string).

(** A rule as it is accepted, and what accepting it means. *)
Definition accepted (rule m : MountRule) : Prop := validateMountRule fs processCwd rule projectRoot = Ok m.

Definition confined (source : string) : Prop :=
  existsSync fs source = true -> forall real, realpathSync fs source = Some real ->
  isSystemPath real = true \/
  match projectRoot with
  | Some root => if root === "" then real = source else under (realpathSafe fs processCwd root) real = true
  | None => real = source
  end.

Lemma link_error_None rule source :
  link_error fs processCwd rule source projectRoot = None ->
  confined source /\
  (m_required rule = true -> existsSync fs source = true /\ is_Some (realpathSync fs source)).
Proof.
  unfold link_error, confined. destruct (existsSync fs source).
  - destruct (realpathSync fs source) as [real|].
    2: { destruct (m_required rule); [done|]. intros _. split; [|done]. intros _ real [=]. }
    intros H. split; [|intros _; split; [done|eauto]]. intros _ ? [= <-].
    destruct projectRoot as [root|]; [destruct (root === "") eqn:Er; cbn [negb] in H|];
      repeat (match type of H with (if ?b then _ else _) = _ => destruct b eqn:?; [done|] end);
      reflect; match goal with H : _ \/ _ |- _ => destruct H as [H|H]; reflect; auto end.
  - destruct (m_required rule); [done|]. intros _. split; [intros [=]|intros [=]].
Qed.

Lemma accepted_safe rule m :
  accepted rule m ->
  m = with_paths (path_normalize (m_source rule)) (path_normalize (m_target rule)) rule /\
  isAbsolute (m_source rule) = true /\ isAbsolute (m_target rule) = true /\
  confined (m_source m) /\
  (forall p, p ∈ FORBIDDEN_MOUNT_PATHS ++ FORBIDDEN_SOCKET_PATHS -> under p (m_source m) = false) /\
  (forall suffix, suffix ∈ FORBIDDEN_MOUNT_SUFFIXES -> endsWith (m_source m) suffix = false).
Proof.
  unfold accepted, validateMountRule.
  destruct ((m_source rule === "") || (m_target rule === "")); [done|].
  destruct (isAbsolute (m_source rule)) eqn:Es; [|done].
  destruct (isAbsolute (m_target rule)) eqn:Et; [|done]. cbn [negb].
  destruct (link_error _ _ _ _ _) eqn:El; [done|]. apply link_error_None in El as [Hc _].
  destruct (existsb _ FORBIDDEN_MOUNT_PATHS) eqn:Ef; [done|].
  destruct (existsb _ FORBIDDEN_MOUNT_SUFFIXES) eqn:Ex; [done|].
  destruct (existsb _ FORBIDDEN_SOCKET_PATHS) eqn:Ek; [done|].
  intros [= <-]. cbn [with_paths m_source m_target]. split_and!; try done.
  - intros p [Hp|Hp]%elem_of_app; [exact (existsb_none _ _ _ Ef Hp)|exact (existsb_none _ _ _ Ek Hp)].
  - intros s Hs. exact (existsb_none _ _ _ Ex Hs).
Qed.

Lemma validate_mounts_spec rules : forall targets errors normalized,
  (validate_mounts fs processCwd projectRoot rules targets errors normalized).1 = [] <->
  errors = [] /\ exists ms, Forall2 accepted rules ms /\
    (forall m t, m ∈ ms -> t ∈ targets -> apart (m_target m) t) /\
    ForallOrdPairs apart (map m_target ms).
Proof.
  induction rules as [|rule rules IH]; intros targets errors normalized; cbn [validate_mounts].
  { cbn [fst]. split; [|by intros [H _]]. intros H. split; [done|]. exists [].
    split_and!; [constructor|set_solver|constructor]. }
  destruct (validateMountRule fs processCwd rule projectRoot) as [m|e] eqn:Ev.
  2: { rewrite IH. split; [intros [[? ?]%app_eq_nil _]; done|].
       intros (_ & ms & HF & _). inversion HF as [|? m ? ? Hm]; subst.
       unfold accepted in Hm. congruence. }
  assert (forall P : list MountRule -> Prop,
    (exists ms, Forall2 accepted (rule :: rules) ms /\ P ms) <->
    (exists ms, Forall2 accepted rules ms /\ P (m :: ms))) as Hcons.
  { intros P. split.
    - intros (ms & HF & HP). inversion HF as [|? m' ? ms' Hm HF']; subst.
      unfold accepted in Hm. assert (m' = m) as -> by congruence. eauto.
    - intros (ms & HF & HP). exists (m :: ms). split; [by constructor|done]. }
  rewrite (Hcons (fun ms => (forall m t, m ∈ ms -> t ∈ targets -> apart (m_target m) t) /\
    ForallOrdPairs apart (map m_target ms))). clear Hcons.
  destruct (includes targets (m_target m)) eqn:Ei.
  { apply includes_true in Ei. rewrite IH. split; [intros [[? ?]%app_eq_nil _]; done|].
    intros (_ & ms & _ & Hap & _). by destruct (Hap m (m_target m)) as [[] _]; [set_solver..|]. }
  apply includes_false in Ei. rewrite IH.
  assert (match find (fun other => nested (m_target m) other) targets with
          | Some other => errors ++ [me_nested (m_target m) other] | None => errors end = [] <->
          errors = [] /\ forall t, t ∈ targets -> apart (m_target m) t) as ->.
  { destruct (find _ targets) as [other|] eqn:Ef.
    - apply find_some in Ef as [Hin Hn]. split; [intros [_ ?]%app_eq_nil; done|].
      intros [_ Hap]. apply list_elem_of_In in Hin. destruct (Hap _ Hin) as [_ Hf]. congruence.
    - split; [|by intros [? _]]. intros ->. split; [done|]. intros t Ht. split; [congruence|].
      apply list_elem_of_In in Ht. exact (find_none _ _ Ef _ Ht). }
  split.
  - intros ([-> Ht] & ms & HF & Hap & Hord). split; [done|]. exists ms. split_and!; [done| |].
    + intros m' t [->|Hm']%elem_of_cons Hin; [by apply Ht|]. apply Hap; set_solver.
    + cbn [map]. constructor; [|done]. apply Forall_map, Forall_forall. intros m' Hm'.
      apply apart_sym, Hap; set_solver.
  - intros (-> & ms & HF & Hap & Hord). cbn [map] in Hord.
    inversion Hord as [|? ? Hhd Htl]; subst. split; [split; [done|]|].
    + intros t Ht. apply Hap; [set_solver|done].
    + exists ms. split_and!; [done| |done]. intros m' t Hm' [Ht| ->%list_elem_of_singleton]%elem_of_app.
      * apply Hap; [set_solver|done].
      * apply apart_sym. rewrite Forall_map, Forall_forall in Hhd. by apply Hhd.
Qed.
End Mounts.

(** ** What a valid specification is *)

Lemma check_nil b e : check b e = [] <-> b = false.
Proof. by destruct b. Qed.

Lemma filter_denied_nil (keys : list string) (e : list string -> SpecError) :
  check (negb (filter (fun k => hostKeyDenied k [] = true) keys === [])) (e (filter (fun k => hostKeyDenied k [] = true) keys)) = []
  <-> forall k, k ∈ keys -> hostKeyDenied k [] = false.
Proof.
  rewrite check_nil, negb_false_iff, same_eq, filter_nil_iff.
  split; intros H k Hk; specialize (H k Hk); by destruct (hostKeyDenied k []).
Qed.

Section Valid.
Context (fs : HostFs) (processCwd : string) (sha256 : string -> string).

(** The isolation and network a profile allows. *)
Definition isolation_ok (s : ExecutionCellSpec) : Prop :=
  let p := PROFILE_DEFAULTS (profile s) in
  (minimum (isolation s) = im_audit -> pd_allowDegradation p = true /\ allowDegradation (isolation s) = true) /\
  (minimum (isolation s) <> im_audit -> ISOLATION_LEVEL (pd_minimum p) <= ISOLATION_LEVEL (minimum (isolation s))) /\
  (allowDegradation (isolation s) = true -> pd_allowDegradation p = true) /\
  NETWORK_LEVEL (net_mode (network s)) <= NETWORK_LEVEL (pd_network p).

(** Mounts that are safe one by one and do not overlap. *)
Definition mounts_ok (s : ExecutionCellSpec) : Prop :=
  exists ms, Forall2 (accepted fs processCwd (worktreeRoot (filesystem s)))
               (readonlyMounts (filesystem s) ++ writableMounts (filesystem s)) ms /\
             ForallOrdPairs apart (map m_target ms).

Record acceptable (s : ExecutionCellSpec) : Prop := {
  ac_schema : schemaVersion s = "1.0";
  ac_identity : cellId (identity s) <> "" /\ runId (identity s) <> "" /\ nodeRunId (identity s) <> "";
  ac_executable : executable (command s) <> "" /\
    (isAbsolute (executable (command s)) = true \/ startsWith (executable (command s)) "./" = true \/
     (length (split_path (executable (command s))) <= 1)%nat);
  ac_cwd : isAbsolute (cwd (command s)) = true;
  ac_inherit : inheritHost (environment s) = false;
  ac_variables : forall k, k ∈ jkeys (variables (environment s)) -> hostKeyDenied k [] = false;
  ac_host_keys : forall k, k ∈ default [] (allowedHostKeys (environment s)) -> hostKeyDenied k [] = false;
  ac_positive : 0 < memoryMaxBytes (resources s) /\ 0 < pidsMax (resources s) /\ 0 < wallTimeMs (resources s);
  ac_enforced : readBpsMax (resources s) = None /\ writeBpsMax (resources s) = None /\
    maxOpenFiles (resources s) = None /\ default 0 (ioWeight (resources s)) = 0;
  ac_allowlist : net_mode (network s) = nm_proxy_allowlist -> default [] (allowedHosts (network s)) <> [];
  ac_isolation : isolation_ok s;
  ac_mounts : mounts_ok s;
  ac_digest : policyDigest s = "" \/ policyDigest s = computePolicyDigest sha256 s }.

Lemma isolation_errors_nil s : isolation_errors s = [] <-> isolation_ok s.
Proof.
  unfold isolation_errors, isolation_ok, profileDefaults. set (p := PROFILE_DEFAULTS (profile s)).
  rewrite !app_nil, !check_nil, Z.ltb_ge, andb_false_iff, negb_false_iff.
  destruct (minimum (isolation s) === im_audit) eqn:Em; reflect; rewrite ?check_nil, ?Z.ltb_ge.
  - destruct (pd_allowDegradation p); [|naive_solver]. destruct (allowDegradation (isolation s)); naive_solver.
  - destruct (pd_allowDegradation p), (allowDegradation (isolation s)); naive_solver.
Qed.

Lemma mount_errors_nil s :
  map se_mount (validateMountSet fs processCwd (readonlyMounts (filesystem s) ++ writableMounts (filesystem s))
                 (worktreeRoot (filesystem s))).1 = [] <-> mounts_ok s.
Proof.
  unfold validateMountSet, mounts_ok. trans ((validate_mounts fs processCwd (worktreeRoot (filesystem s))
    (readonlyMounts (filesystem s) ++ writableMounts (filesystem s)) [] [] []).1 = []).
  { destruct (validate_mounts _ _ _ _ _ _ _).1; done. }
  rewrite validate_mounts_spec. split.
  - intros (_ & ms & HF & _ & Hord). eauto.
  - intros (ms & HF & Hord). split; [done|]. exists ms. split_and!; [done|set_solver|done].
Qed.

Lemma or_false_iff (b c : bool) : (b || c) = false <-> b = false /\ c = false.
Proof. apply orb_false_iff. Qed.

Lemma executable_ok e :
  negb (isAbsolute e) && (1 <? length (split_path e))%nat && negb (startsWith e "./") = false <->
  isAbsolute e = true \/ startsWith e "./" = true \/ (length (split_path e) <= 1)%nat.
Proof.
  rewrite !andb_false_iff, !negb_false_iff, Nat.ltb_ge. naive_solver.
Qed.

Lemma io_weight_ok w :
  match w with Some w => negb (w =? 0) | None => false end = false <-> default 0 w = 0.
Proof. destruct w as [w|]; [|done]. by rewrite negb_false_iff, Z.eqb_eq. Qed.

Lemma undeclared {A} (o : option A) : is_declared o = false <-> o = None.
Proof. by destruct o. Qed.

Lemma absolute_nonempty p : (p === "") || negb (isAbsolute p) = false <-> isAbsolute p = true.
Proof. destruct p; [done|]. simpl. by rewrite negb_false_iff. Qed.

Lemma validate_nil_iff s : validateCellSpec fs processCwd sha256 s = [] <-> acceptable s.
Proof.
  unfold validateCellSpec.
  rewrite !app_nil, !filter_denied_nil, isolation_errors_nil, mount_errors_nil, !check_nil.
  rewrite executable_ok, io_weight_ok, absolute_nonempty, !undeclared, !or_false_iff, !same_neq,
    negb_false_iff, same_eq, !Z.leb_gt, !andb_false_iff, !negb_false_iff, !same_eq, !same_neq.
  split.
  - intros (H1 & (H2 & H3) & H4 & H5 & H6 & H7 & H8 & H9 & H10 & H11 & H12 & H13 & H14 & H15 & H16 & H17 & H18 & H19 & H20).
    by constructor; try tauto.
  - intros [H1 (H2 & H3 & H4) [H5 H6] H7 H8 H9 H10 (H11 & H12 & H13) (H14 & H15 & H16 & H17) H18 H19 H20 H21].
    split_and!; try assumption.
    destruct (decide (net_mode (network s) = nm_proxy_allowlist)) as [E|E]; [right; by apply H18|by left].
Qed.

(** ** What compiling guarantees *)

Lemma clamp_fields s :
  schemaVersion (clampResources s) = schemaVersion s /\ identity (clampResources s) = identity s /\
  command (clampResources s) = command s /\ profile (clampResources s) = profile s /\
  isolation (clampResources s) = isolation s /\ filesystem (clampResources s) = filesystem s /\
  network (clampResources s) = network s /\ environment (clampResources s) = environment s /\
  secrets (clampResources s) = secrets s /\ cache (clampResources s) = cache s /\
  lifecycle (clampResources s) = lifecycle s /\ policyDigest (clampResources s) = policyDigest s.
Proof. done. Qed.

Lemma clamp_idem s : clampResources (clampResources s) = clampResources s.
Proof.
  destruct s as [? ? ? p ? ? ? ? ? [cm cq cp cw mh mm sw iw rb wb wt so se tm mo pm] ? ? ?].
  unfold clampResources, with_resources. destruct cm, cq, cp, mh;
    cbn -[Z.min PROFILE_DEFAULTS]; by rewrite <- ?Z.min_assoc, ?Z.min_id.
Qed.

Lemma clamp_with_digest d s : clampResources (with_digest d s) = with_digest d (clampResources s).
Proof. done. Qed.

Lemma compile_Ok s s' :
  compileCellSpec fs processCwd sha256 s = inr s' <->
  s' = with_digest (computePolicyDigest sha256 (clampResources s)) (clampResources s) /\
  acceptable (clampResources s).
Proof.
  unfold compileCellSpec. rewrite <- validate_nil_iff.
  destruct (validateCellSpec _ _ _ (clampResources s)); naive_solver.
Qed.

Lemma acceptable_with_digest s :
  acceptable s -> acceptable (with_digest (computePolicyDigest sha256 s) s).
Proof. intros []. constructor; try assumption. by right. Qed.

(** Compiling is authoritative: what it accepts is exactly the declared
    cell with its resources clamped and the digest of its policy filled in, and
    only where that is valid; and a compiled cell compiles to itself, so the
    broker, which compiles again before it runs a cell, neither refuses nor
    alters one. *)
Theorem compile_authoritative s s' :
  (compileCellSpec fs processCwd sha256 s = inr s' <->
   s' = with_digest (computePolicyDigest sha256 (clampResources s)) (clampResources s) /\
   acceptable (clampResources s)) /\
  (compileCellSpec fs processCwd sha256 s = inr s' -> compileCellSpec fs processCwd sha256 s' = inr s').
Proof.
  split; [apply compile_Ok|]. intros [-> Ha]%compile_Ok. apply compile_Ok.
  rewrite clamp_with_digest, clamp_idem. split; [done|]. by apply acceptable_with_digest.
Qed.

Lemma profile_share_positive p : 0 < pd_cpuQuotaMicros (PROFILE_DEFAULTS p) /\ 0 < pd_cpuPeriodMicros (PROFILE_DEFAULTS p).
Proof. by destruct p. Qed.

(** C30: A compiled cell stays within its profile in what compiling clamps: its
    isolation is no weaker than the profile's minimum (or it is the audit mode,
    degradation being allowed by the profile and by the cell), its network no more
    open, its memory and process limits positive and no larger, its processor
    quota no larger, and so its share of the processor where its period is not
    shorter than the profile's, as it is when it asks for none (a shorter period
    is not clamped and widens the share). It inherits nothing from the host under
    a credential's name, and its digest is that of its policy. No mount's source
    is a forbidden or socket path or lies below one, ends like a credential
    directory (files in one are not refused), or is a link out of the workspace
    and the system paths; no two targets are equal or, the root directory apart,
    one inside the other. *)
Theorem compiled_cell_within_profile s s'
    (Hcompiled : compileCellSpec fs processCwd sha256 s = inr s') :
  let p := PROFILE_DEFAULTS (profile s) in
  let r := resources s' in
  profile s' = profile s /\ identity s' = identity s /\ command s' = command s /\
  (ISOLATION_LEVEL (pd_minimum p) <= ISOLATION_LEVEL (minimum (isolation s')) \/
   (minimum (isolation s') = im_audit /\ pd_allowDegradation p = true
    /\ allowDegradation (isolation s') = true)) /\
  NETWORK_LEVEL (net_mode (network s')) <= NETWORK_LEVEL (pd_network p) /\
  0 < memoryMaxBytes r <= pd_memoryMaxBytes p /\ 0 < pidsMax r <= pd_pidsMax p /\
  (exists c, cpuMillis r = Some c /\ c <= pd_cpuMillis p) /\
  (exists q t, cpuQuotaMicros r = Some q /\ cpuPeriodMicros r = Some t /\ q <= pd_cpuQuotaMicros p /\
    (cpuPeriodMicros (resources s) = None -> t = pd_cpuPeriodMicros p) /\
    (pd_cpuPeriodMicros p <= t -> q * pd_cpuPeriodMicros p <= pd_cpuQuotaMicros p * t)) /\
  (forall h, memoryHighBytes r = Some h -> h <= pd_memoryHighBytes p) /\
  inheritHost (environment s') = false /\
  (forall k, k ∈ jkeys (variables (environment s')) ++ default [] (allowedHostKeys (environment s')) ->
   hostKeyDenied k [] = false) /\
  policyDigest s' = computePolicyDigest sha256 s' /\
  exists ms, ForallOrdPairs apart (map m_target ms) /\
    Forall2 (fun rule m =>
        m_source m = path_normalize (m_source rule) /\ m_target m = path_normalize (m_target rule) /\
        isAbsolute (m_source rule) = true /\ isAbsolute (m_target rule) = true /\
        confined fs processCwd (worktreeRoot (filesystem s')) (m_source m) /\
        (forall p, p ∈ FORBIDDEN_MOUNT_PATHS ++ FORBIDDEN_SOCKET_PATHS -> under p (m_source m) = false) /\
        (forall suffix, suffix ∈ FORBIDDEN_MOUNT_SUFFIXES -> endsWith (m_source m) suffix = false))
      (readonlyMounts (filesystem s') ++ writableMounts (filesystem s')) ms.
Proof.
  apply compile_Ok in Hcompiled as [-> Ha]. cbv zeta.
  destruct Ha as [_ _ _ _ Hi Hv Hk (Hmem & Hpid & Hw) _ _ Hiso (ms & HF & Hord) _].
  cbn [with_digest clampResources with_resources profile identity command isolation network environment
       filesystem policyDigest resources memoryMaxBytes pidsMax cpuMillis cpuQuotaMicros memoryHighBytes] in *.
  destruct Hiso as (Haudit & Hmin & _ & Hnet). cbn [profile isolation network] in *.
  split_and!; try done; try lia.
  - destruct (decide (minimum (isolation s) = im_audit)) as [E|E]; [right|left; by apply Hmin].
    split; [done|]. by apply Haudit.
  - eexists. split; [done|]. destruct (cpuMillis (resources s)); lia.
  - destruct (profile_share_positive (profile s)) as [HQ HP]. eexists _, _. split; [done|]. split; [done|].
    assert (match cpuQuotaMicros (resources s) with None => pd_cpuQuotaMicros (PROFILE_DEFAULTS (profile s))
      | Some v => Z.min v (pd_cpuQuotaMicros (PROFILE_DEFAULTS (profile s))) end <= pd_cpuQuotaMicros (PROFILE_DEFAULTS (profile s)))
      as Hq by (destruct (cpuQuotaMicros (resources s)); lia).
    split; [exact Hq|]. split; [by intros ->|]. intros Ht. nia.
  - intros h. destruct (memoryHighBytes (resources s)); [|done]. intros [= <-]. lia.
  - intros k [?|?]%elem_of_app; by auto.
  - exists ms. split; [done|]. eapply Forall2_impl; [exact HF|].
    intros rule m (-> & ? & ? & ? & ? & ?)%accepted_safe. done.
Qed.
End Valid.

(** ** A cell compiled *)

Definition demo_fs : HostFs :=
  mkHostFs (fun p => includes ["/srv/p"; "/srv/p/src"; "/srv/p/link"; "/srv/p/.ssh/id"] p)
           (fun p => Some (if p === "/srv/p/link" then "/etc" else p)).
Definition demo_mount (source target : string) : MountRule :=
  mkMount source target mm_ro true true None None None.
Definition demo_cell (mounts : list MountRule) : ExecutionCellSpec :=
  let s := applyProfileDefaults (mkIdentity "cell-1" "run-1" "node-1" 1 None None)
             (mkCommand "/usr/bin/node" ["x.js"] "/srv/p" in_closed) pr_build no_overrides in
  mkCellSpec (schemaVersion s) (identity s) (command s) (profile s) (isolation s)
    (mkFilesystem mounts [] [] [] true (Some "/srv/p") None) (network s) (environment s) (secrets s)
    (mkResources (cpuMillis (resources s)) (cpuQuotaMicros (resources s)) (Some 10000) None None
       (4 * GB) None None None None 1000 1 1 1 None 16) (cache s) (lifecycle s) (policyDigest s).
Definition demo_compiled : ExecutionCellSpec :=
  let s := clampResources (demo_cell [demo_mount "/srv/p//src" "/workspace/src"]) in
  with_digest (computePolicyDigest (fun t => t) s) s.

Lemma compiled_cell_within_profile_witness :
  0 < memoryMaxBytes (resources demo_compiled) <= 2 * GB /\ pidsMax (resources demo_compiled) = 16.
Proof.
  assert (compileCellSpec demo_fs "/" (fun t => t) (demo_cell [demo_mount "/srv/p//src" "/workspace/src"])
          = inr demo_compiled) as H by (vm_compute; reflexivity).
  pose proof (compiled_cell_within_profile demo_fs "/" (fun t => t) _ _ H)
    as (_ & _ & _ & _ & _ & Hmem & _).
  split; [exact Hmem|vm_compute; reflexivity].
Defined.

Lemma compile_authoritative_witness :
  compileCellSpec demo_fs "/" (fun t => t) demo_compiled = inr demo_compiled.
Proof.
  assert (compileCellSpec demo_fs "/" (fun t => t) (demo_cell [demo_mount "/srv/p//src" "/workspace/src"])
          = inr demo_compiled) as H by (vm_compute; reflexivity).
  exact (proj2 (compile_authoritative demo_fs "/" (fun t => t) _ _) H).
Defined.

(** ** Behaviours worth knowing *)

(** A link out of the workspace is refused. *)
Lemma link_out_refused :
  validateMountRule demo_fs "/" (demo_mount "/srv/p/link" "/x") (Some "/srv/p")
  = Throw (me_escape "/srv/p/link").
Proof. reflexivity. Qed.

(** The quota is clamped but the period is not, so a shorter period buys more
    processor time than the profile has: here ten times as much. *)
Lemma shorter_period_widens :
  cpuQuotaMicros (resources demo_compiled) = Some 100000 /\
  cpuPeriodMicros (resources demo_compiled) = Some 10000 /\
  pd_cpuQuotaMicros (PROFILE_DEFAULTS pr_build) = 100000 /\
  pd_cpuPeriodMicros (PROFILE_DEFAULTS pr_build) = 100000.
Proof. vm_compute. done. Qed.

(** The credential check looks at the end of the path: the directory with a
    trailing slash and the files in it are accepted. *)
Lemma credential_file_mountable :
  validateMountRule demo_fs "/" (demo_mount "/srv/p/.ssh/id" "/cache/k") (Some "/srv/p")
  = Ok (demo_mount "/srv/p/.ssh/id" "/cache/k") /\
  validateMountRule demo_fs "/" (mkMount "/srv/p/.ssh/" "/cache/k" mm_ro false true None None None) (Some "/srv/p")
  = Ok (mkMount "/srv/p/.ssh/" "/cache/k" mm_ro false true None None None).
Proof. by vm_compute. Qed.

(** A mount over the root is not seen to contain the others. *)
Lemma root_target_overlaps :
  (validateMountSet demo_fs "/" [demo_mount "/srv/p" "/"; demo_mount "/srv/p/src" "/workspace"]
     (Some "/srv/p")).1 = [].
Proof. by vm_compute. Qed.

(** Where a secret is put in the sandbox is not part of the digest. *)
Lemma digest_misses_secret_target sha256 s target target' :
  let secret := fun t => mkSecretBinding "sb_1" "deploy" sd_sealed_file t None 9 in
  let with_secrets := fun b => mkCellSpec (schemaVersion s) (identity s) (command s) (profile s)
    (isolation s) (filesystem s) (network s) (environment s) [b] (resources s) (cache s)
    (lifecycle s) (policyDigest s) in
  computePolicyDigest sha256 (with_secrets (secret target))
  = computePolicyDigest sha256 (with_secrets (secret target')).
Proof. done. Qed.
