(* ===== verification/CellRequest.v ===== *)
(** From a capability request to a cell: workspaces, mounts and the plan cache.

    Models, of [src/src/runtime/linux], [workspace/workspace-authority.ts] (which
    directories may be worked in, and where in them a command may run), the rest
    of [policy-compiler.ts] (a request that says what it needs is compiled into a
    cell whose identity and paths are the runtime's) and [cache/plan-cache.ts].
    The file system, the home directory, generated ids and SHA-256 are
    parameters. *)
From Stdlib Require Import Ascii.
From S2P Require Import Prelude Json Paths Environment CellPolicy.
Open Scope Z_scope.
Open Scope list_scope.

(** ** Workspaces *)

Inductive WorkspaceKind := wk_main | wk_worktree | wk_system.
Inductive WorkspaceAccess := wa_readonly | wa_readwrite.

(** src/src/runtime/linux/contracts.ts # AuthorizedWorkspace *)
Record AuthorizedWorkspace := mkWorkspace {
  workspaceId : string; physicalWorkspaceKey : string; projectId : string; hostRoot : string;
  ws_kind : WorkspaceKind; ws_access : WorkspaceAccess; ws_ownerFiles : list string }.

(** src/src/runtime/linux/contracts.ts # TrustedExecutionIdentity *)
Record TrustedExecutionIdentity := mkTrusted {
  ti_runId : string; ti_nodeRunId : string; ti_attempt : Z;
  ti_agentId : option string; ti_assignmentId : option string }.

(** src/src/runtime/linux/contracts.ts # TrustedExecutionAuthority *)
Record TrustedExecutionAuthority := mkAuthority {
  ta_identity : TrustedExecutionIdentity; ta_workspace : AuthorizedWorkspace;
  ta_domainId : option string }.

Inductive WorkspaceError :=
| we_root_missing (root : string)
| we_root_unresolvable (root : string)
| we_root_is_slash
| we_root_is_home
| we_root_credential (segment : string)
| we_root_runtime (root : string)
| we_unknown (id : string)
| we_cwd_nul
| we_cwd_absolute (relative : string)
| we_cwd_parent (relative : string)
| we_cwd_escape (relative : string)
| we_cwd_link (candidate : string)
| we_cwd_unresolvable (candidate : string)
| we_cwd_missing (candidate : string)
| we_readonly (id : string)
| we_owner_file (file : string).

(** src/src/runtime/linux/workspace/workspace-authority.ts # FORBIDDEN_SEGMENTS *)
Definition FORBIDDEN_SEGMENTS : list string :=
  [".ssh"; ".gnupg"; ".aws"; ".kube"; ".config/gcloud"; ".config/git"].

(** src/src/runtime/linux/workspace/workspace-authority.ts # FORBIDDEN_ROOT_PREFIXES *)
Definition FORBIDDEN_ROOT_PREFIXES : list string :=
  ["/run/podman"; "/run/systemd"; "/run/user"; "/var/run/docker.sock"].

(** Whether the segments of [seg] occur next to each other among [segments]. *)
Fixpoint has_window (seg : list string) (segments : list string) : bool :=
  (take (length seg) segments === seg) ||
  match segments with [] => false | _ :: segments => has_window seg segments end.

Section Host.
Context (fs : HostFs) (statSync : string -> option (Z * Z)) (processCwd : string) (homedir : string)
  (sha256 : string -> string).

(** src/src/runtime/linux/workspace/workspace-authority.ts # canonicalHostRoot

    The segments of a real path are those between its separators. *)
Definition canonicalHostRoot (root : string) : res WorkspaceError string :=
  if negb (existsSync fs root) then Throw (we_root_missing root)
  else match realpathSync fs root with
  | None => Throw (we_root_unresolvable root)
  | Some real =>
      if real === "/" then Throw we_root_is_slash
      else if negb (homedir === "") && (real === path_resolve processCwd [homedir])
      then Throw we_root_is_home
      else
        let segments := filter (fun s => s <> "") (split_path (path_normalize real)) in
        match find (fun seg => str_includes seg (abs_path segments)
                               && has_window (split_path seg) segments) FORBIDDEN_SEGMENTS with
        | Some seg => Throw (we_root_credential seg)
        | None =>
            if existsb (fun prefix => under prefix real) FORBIDDEN_ROOT_PREFIXES
            then Throw (we_root_runtime real) else Ok real
        end
  end.

Definition kind_name (k : WorkspaceKind) : string :=
  match k with wk_main => "main" | wk_worktree => "worktree" | wk_system => "system" end.

(** src/src/runtime/linux/workspace/workspace-authority.ts # workspaceIdOf *)
Definition workspaceIdOf (project root : string) (kind : WorkspaceKind) : string :=
  "ws_" +:+ String.substring 0 16 (sha256 (default "" (json_stringify
    (JObj [("projectId", JStr project); ("hostRoot", JStr root); ("kind", JStr (kind_name kind))])))).

(** src/src/runtime/linux/workspace/workspace-authority.ts # physicalWorkspaceKeyOf *)
Definition physicalWorkspaceKeyOf (root : string) : string :=
  let '(dev, ino) := default (0, 0) (statSync root) in
  "wp_" +:+ String.substring 0 24
    (sha256 (root +:+ ":" +:+ pretty.pretty dev +:+ ":" +:+ pretty.pretty ino)).

(** src/src/runtime/linux/workspace/workspace-authority.ts # RegisterWorkspaceInput *)
Record RegisterWorkspaceInput := mkRegister {
  rw_projectId : string; rw_hostRoot : string; rw_kind : option WorkspaceKind;
  rw_access : WorkspaceAccess; rw_ownerFiles : option (list string) }.

(** The registry's map, in insertion order. *)
Definition Registry : Type := list (string * AuthorizedWorkspace).

(** src/src/runtime/linux/workspace/workspace-authority.ts # WorkspaceAuthorityRegistry.register *)
Definition register (input : RegisterWorkspaceInput) (reg : Registry)
  : res WorkspaceError (AuthorizedWorkspace * Registry) :=
  root ← canonicalHostRoot (rw_hostRoot input);
  let kind := default wk_system (rw_kind input) in
  let id := workspaceIdOf (rw_projectId input) root kind in
  let workspace :=
    {| workspaceId := id; physicalWorkspaceKey := physicalWorkspaceKeyOf root;
       projectId := rw_projectId input; hostRoot := root; ws_kind := kind;
       ws_access := rw_access input; ws_ownerFiles := default [] (rw_ownerFiles input) |} in
  Ok (workspace, jset id workspace reg).

(** src/src/runtime/linux/workspace/workspace-authority.ts # WorkspaceAuthorityRegistry.require *)
Definition require_workspace (id : string) (reg : Registry) : res WorkspaceError AuthorizedWorkspace :=
  match jget id reg with Some w => Ok w | None => Throw (we_unknown id) end.

(** src/src/runtime/linux/workspace/workspace-authority.ts # WorkspaceAuthorityRegistry.verifyReadonly *)
Definition verifyReadonly (w : AuthorizedWorkspace) : res WorkspaceError unit :=
  match ws_access w with wa_readonly => Throw (we_readonly (workspaceId w)) | _ => Ok tt end.

(** src/src/runtime/linux/workspace/workspace-authority.ts # WorkspaceAuthorityRegistry.verifyOwnerFiles *)
Definition verifyOwnerFiles (w : AuthorizedWorkspace) (files : list string) : res WorkspaceError unit :=
  match find (fun f => negb (includes (ws_ownerFiles w) f)) files with
  | Some f => Throw (we_owner_file f)
  | None => Ok tt
  end.

(** ** The working directory *)

Definition NUL : ascii := ascii_of_nat 0.

(** The checks both resolvers begin with: the candidate, lexically. *)
Definition cwd_candidate (w : AuthorizedWorkspace) (requestedRelativeCwd : option string)
  : res WorkspaceError string :=
  let relative := default "." requestedRelativeCwd in
  if has_char NUL relative then Throw we_cwd_nul
  else if isAbsolute relative then Throw (we_cwd_absolute relative)
  else if includes (split_path relative) ".." then Throw (we_cwd_parent relative)
  else
    let candidate := path_resolve processCwd [hostRoot w; path_normalize relative] in
    if under (hostRoot w) candidate then Ok candidate else Throw (we_cwd_escape relative).

(** The loop of the registry: the nearest existing ancestor, or the root; the
    segments come last first. *)
Fixpoint probe_existing (rsegs : list string) : list string :=
  match rsegs with
  | [] => []
  | _ :: parents => if existsSync fs (abs_path (rev rsegs)) then rsegs else probe_existing parents
  end.

(** src/src/runtime/linux/workspace/workspace-authority.ts # WorkspaceAuthorityRegistry.resolveCwd

    The candidate is a resolved path, so its segments determine it. *)
Definition resolveCwd (w : AuthorizedWorkspace) (requestedRelativeCwd : option string)
  : res WorkspaceError string :=
  candidate ← cwd_candidate w requestedRelativeCwd;
  let segs := resolve_segs processCwd [candidate] in
  let probe := rev (probe_existing (rev segs)) in
  if negb (existsSync fs (abs_path probe)) then Throw (we_cwd_missing candidate)
  else match realpathSync fs (abs_path probe) with
  | None => Throw (we_cwd_unresolvable candidate)
  | Some realProbe =>
      if negb (under (hostRoot w) realProbe) then Throw (we_cwd_link candidate)
      else
        let canonical := path_join realProbe
          (String.substring (String.length (abs_path probe))
             (String.length candidate - String.length (abs_path probe)) candidate) in
        if existsSync fs canonical then Ok canonical else Throw (we_cwd_missing candidate)
  end.

(** src/src/runtime/linux/policy-compiler.ts # realpathOfNearestExisting

    On a resolved path, by its segments, last first: cutting at the last
    separator leaves the empty string above the first segment, where the search
    ends. *)
Fixpoint realpathOfNearestExisting (rsegs : list string) : option string :=
  if existsSync fs (abs_path (rev rsegs)) then realpathSync fs (abs_path (rev rsegs))
  else match rsegs with
       | _ :: (_ :: _) as parents => realpathOfNearestExisting parents
       | _ => None
       end.

(** src/src/runtime/linux/policy-compiler.ts # resolveAuthorizedCwd *)
Definition resolveAuthorizedCwd (w : AuthorizedWorkspace) (requestedRelativeCwd : option string)
  : res WorkspaceError string :=
  candidate ← cwd_candidate w requestedRelativeCwd;
  let realProbe := default (path_resolve processCwd [hostRoot w])
                     (realpathOfNearestExisting (rev (resolve_segs processCwd [candidate]))) in
  if negb (under (hostRoot w) realProbe) then Throw (we_cwd_link candidate)
  else if negb (existsSync fs candidate) then Throw (we_cwd_missing candidate)
  else Ok candidate.

(** ** Requests *)

(** src/src/runtime/linux/contracts.ts # RequestedMount *)
Inductive MountSource := workspace_relative (path : string) | runtime_grant (grantId : string).
Record RequestedMount := mkRequested { rm_source : MountSource; rm_target : string; rm_mode : MountMode }.

(** src/src/runtime/linux/contracts.ts # UntrustedCapabilityRequest *)
Record UntrustedCapabilityRequest := mkRequest {
  rq_executable : string; rq_args : list string; rq_relativeCwd : option string;
  rq_stdin : option Stdin; rq_profile : ExecutionProfile; rq_network : option CellNetwork;
  rq_env : option vars; rq_allowedHostKeys : option (list string); rq_timeoutMs : option Z;
  rq_stdoutMaxBytes : option Z; rq_stderrMaxBytes : option Z; rq_memoryMaxBytes : option Z;
  rq_pidsMax : option Z; rq_writableMounts : option (list RequestedMount);
  rq_readonlyMounts : option (list RequestedMount); rq_cache : option (list CacheMountRequest) }.

(** src/src/runtime/linux/policy-compiler.ts # SAFE_SANDBOX_HOST_KEYS *)
Definition SAFE_SANDBOX_HOST_KEYS : list string :=
  ["PATH"; "HOME"; "TMPDIR"; "LANG"; "LANGUAGE"; "LC_ALL"; "LC_CTYPE";
   "TERM"; "CI"; "USER"; "LOGNAME"].

(** src/src/runtime/linux/policy-compiler.ts # RESERVED_MOUNT_TARGETS *)
Definition RESERVED_MOUNT_TARGETS : list string :=
  ["/proc"; "/dev"; "/sys"; "/usr"; "/bin"; "/lib"; "/lib64"; "/etc"; "/run"; "/var"; "/tmp"].

(** src/src/runtime/linux/policy-compiler.ts # ALLOWED_MOUNT_TARGET_PREFIXES *)
Definition ALLOWED_MOUNT_TARGET_PREFIXES : list string := ["/workspace"; "/cache"; "/run/secrets"].

Inductive RequestError :=
| re_target_relative (target : string)
| re_target_reserved (target : string)
| re_grant (grantId : string)
| re_mount_nul
| re_mount_absolute (path : string)
| re_mount_parent (path : string)
| re_mount_escape (path : string)
| re_cwd (e : WorkspaceError)
| re_spec (e : SpecError).

(** src/src/runtime/linux/policy-compiler.ts # reservedMountTargetViolation *)
Definition reservedMountTargetViolation (target : string) : option RequestError :=
  let t := path_normalize target in
  if negb (isAbsolute t) then Some (re_target_relative target)
  else if existsb (fun p => under p t) ALLOWED_MOUNT_TARGET_PREFIXES then None
  else if t === "/" then Some (re_target_reserved target)
  else if existsb (fun r => under r t) RESERVED_MOUNT_TARGETS then Some (re_target_reserved target)
  else None.

(** src/src/runtime/linux/policy-compiler.ts # resolveRequestedMount *)
Definition resolveRequestedMount (mount : RequestedMount) (w : AuthorizedWorkspace)
    (modeForced : MountMode) : res RequestError MountRule :=
  match reservedMountTargetViolation (rm_target mount) with
  | Some e => Throw e
  | None =>
      match rm_source mount with
      | runtime_grant grantId => Throw (re_grant grantId)
      | workspace_relative requested =>
          if has_char NUL requested then Throw re_mount_nul
          else if isAbsolute requested then Throw (re_mount_absolute requested)
          else if includes (split_path requested) ".." then Throw (re_mount_parent requested)
          else
            let source := path_resolve processCwd [hostRoot w; path_normalize requested] in
            if negb (under (hostRoot w) source) then Throw (re_mount_escape requested)
            else Ok (mkMount source (path_normalize (rm_target mount)) modeForced true true None None None)
      end
  end.

(** The loops over the requested mounts. *)
Fixpoint resolve_mounts (w : AuthorizedWorkspace) (mode : MountMode) (ms : list RequestedMount)
  : list MountRule * list RequestError :=
  match ms with
  | [] => ([], [])
  | m :: ms =>
      let '(rules, errors) := resolve_mounts w mode ms in
      match resolveRequestedMount m w mode with
      | Ok rule => (rule :: rules, errors)
      | Throw e => (rules, e :: errors)
      end
  end.

(** The identity of a new cell. *)
Definition cell_identity (uuid : string) (id : TrustedExecutionIdentity) : CellIdentity :=
  mkIdentity ("cell-" +:+ String.substring 0 8 uuid) (ti_runId id) (ti_nodeRunId id) (ti_attempt id)
    (ti_agentId id) (ti_assignmentId id).

(** The overrides [compileCapabilityRequest] puts over the profile's defaults. *)
Definition request_overrides (request : UntrustedCapabilityRequest) (w : AuthorizedWorkspace)
    (ro rw : list MountRule) : SpecOverrides :=
  let p := PROFILE_DEFAULTS (rq_profile request) in
  let hostKeys := default [] (rq_allowedHostKeys request) in
  {| ov_isolation := Some (mkIsolation (pd_minimum p) pb_auto (pd_allowDegradation p));
     ov_filesystem := Some (mkFilesystem ro rw [] [] (pd_emptyHome p) (Some (hostRoot w))
                              (Some (ws_ownerFiles w)));
     ov_network := Some (mkNetwork (from_option net_mode (pd_network p) (rq_network request))
                           (rq_network request ≫= allowedHosts) (rq_network request ≫= allowedPorts));
     ov_environment := Some (mkEnvironment (default [] (rq_env request))
                               (Some (if pd_minimum p === im_audit then hostKeys
                                      else filter (fun k => includes SAFE_SANDBOX_HOST_KEYS k = true) hostKeys))
                               false "C.UTF-8" ["/usr/local/bin"]);
     ov_secrets := Some [];
     ov_resources := Some
       {| cpuMillis := Some (pd_cpuMillis p); cpuQuotaMicros := Some (pd_cpuQuotaMicros p);
          cpuPeriodMicros := Some (pd_cpuPeriodMicros p); cpuWeight := None;
          memoryHighBytes := Some (pd_memoryHighBytes p);
          memoryMaxBytes := default (pd_memoryMaxBytes p) (rq_memoryMaxBytes request);
          swapMaxBytes := None; ioWeight := None; readBpsMax := None; writeBpsMax := None;
          wallTimeMs := default 120000 (rq_timeoutMs request);
          stdoutMaxBytes := default (4 * 1024 * 1024) (rq_stdoutMaxBytes request);
          stderrMaxBytes := default (4 * 1024 * 1024) (rq_stderrMaxBytes request);
          tmpfsMaxBytes := 1024 * 1024 * 1024; maxOpenFiles := None;
          pidsMax := default (pd_pidsMax p) (rq_pidsMax request) |};
     ov_cache := Some (default [] (rq_cache request));
     ov_lifecycle := Some (mkLifecycle true true false (rq_profile request === pr_service));
     ov_policyDigest := Some "" |}.

(** src/src/runtime/linux/policy-compiler.ts # compileCapabilityRequest

    [useRegistry]: whether the caller passes a registry, whose resolver is then
    used for the working directory. *)
Definition compileCapabilityRequest (useRegistry : bool) (uuid : string)
    (request : UntrustedCapabilityRequest) (authority : TrustedExecutionAuthority)
  : list RequestError + ExecutionCellSpec :=
  let w := ta_workspace authority in
  match (if useRegistry then resolveCwd w (rq_relativeCwd request)
         else resolveAuthorizedCwd w (rq_relativeCwd request)) with
  | Throw e => inl [re_cwd e]
  | Ok canonicalCwd =>
      let '(ro, roErrors) := resolve_mounts w mm_ro (default [] (rq_readonlyMounts request)) in
      let '(rw, rwErrors) := resolve_mounts w mm_rw (default [] (rq_writableMounts request)) in
      match roErrors ++ rwErrors with
      | [] =>
          let cmd := mkCommand (rq_executable request) (rq_args request) canonicalCwd
                       (default in_closed (rq_stdin request)) in
          let spec := applyProfileDefaults (cell_identity uuid (ta_identity authority)) cmd
                        (rq_profile request) (request_overrides request w ro rw) in
          match compileCellSpec fs processCwd sha256 spec with
          | inl errors => inl (map re_spec errors)
          | inr spec => inr spec
          end
      | errors => inl errors
      end
  end.

(** ** The plan cache *)

(** src/src/runtime/linux/cache/plan-cache.ts # PlanCacheKey *)
Record PlanCacheKey := mkPlanKey {
  pk_profileDigest : string; pk_toolContractDigest : string; pk_runtimeVersion : string;
  pk_platform : string; pk_backendVersion : string; pk_policyDigest : string }.

(** src/src/runtime/linux/cache/plan-cache.ts # planKeyString *)
Definition planKeyString (key : PlanCacheKey) : string :=
  sha256 (js_join "|" [pk_profileDigest key; pk_toolContractDigest key; pk_runtimeVersion key;
                       pk_platform key; pk_backendVersion key; pk_policyDigest key]).

(** src/src/runtime/linux/cache/plan-cache.ts # CompiledSandboxPlan

    [mountTemplate] is the serialization of a specification; here it is the
    specification, which parsing gives back.  The other templates are empty
    wherever a plan is made. *)
Record CompiledSandboxPlan := mkPlan {
  plan_key : PlanCacheKey; mountTemplate : ExecutionCellSpec; plan_createdAt : Z }.

(** The forbidden shapes of [templateIsClean]. *)
Definition LEAKY : list string :=
  ["cell-"; "run-"; "/workspace"; "/tmp/orcana-"; "token"; "Bearer "; "bearer";
   "api_key"; "sk-"; "secret"; ":8080"; ":3000"].

Fixpoint json_strings (v : jsval) : list string :=
  match v with
  | JStr s => [s]
  | JArr vs => concat (map json_strings vs)
  | JObj fs => concat (map (fun kv => json_strings kv.2) fs)
  | _ => []
  end.

(** A whole specification as a JavaScript object. *)
Definition spec_json (s : ExecutionCellSpec) : jsval :=
  JObj [("schemaVersion", JStr (schemaVersion s));
        ("identity", JObj [("cellId", JStr (cellId (identity s))); ("runId", JStr (runId (identity s)));
           ("nodeRunId", JStr (nodeRunId (identity s))); ("attempt", JNum (attempt (identity s)));
           ("agentId", j_opt JStr (agentId (identity s)));
           ("assignmentId", j_opt JStr (assignmentId (identity s)))]);
        ("command", JObj [("executable", JStr (executable (command s))); ("args", j_strs (args (command s)));
           ("cwd", JStr (cwd (command s)));
           ("stdin", JStr (match stdin (command s) with in_closed => "closed" | in_pipe => "pipe" end))]);
        ("profile", JStr (profile_name (profile s))); ("isolation", isolation_json (isolation s));
        ("filesystem", filesystem_json (filesystem s)); ("network", network_json (network s));
        ("environment", environment_json (environment s));
        ("secrets", JArr (map (fun b => JObj [("id", JStr (sb_id b)); ("purpose", JStr (sb_purpose b));
            ("delivery", JStr (delivery_name (sb_delivery b))); ("target", j_opt JStr (sb_target b));
            ("allowedExecutable", j_opt JStr (sb_allowedExecutable b));
            ("expiresAt", JNum (sb_expiresAt b)); ("redactFromTrace", JBool true)]) (secrets s)));
        ("resources", resources_json (resources s)); ("cache", JArr (map cache_json (cache s)));
        ("lifecycle", JObj [("killOnParentExit", JBool (killOnParentExit (lifecycle s)));
           ("cleanupOnExit", JBool (cleanupOnExit (lifecycle s)));
           ("retainOnFailure", JBool (retainOnFailure (lifecycle s)));
           ("serviceMode", JBool (serviceMode (lifecycle s)))]);
        ("policyDigest", JStr (policyDigest s))].

(** src/src/runtime/linux/cache/plan-cache.ts # templateIsClean

    Values only: the names of fields may be anything. *)
Definition templateIsClean (plan : CompiledSandboxPlan) : bool :=
  forallb (fun value => negb (existsb (fun f => str_includes f value) LEAKY))
    (json_strings (spec_json (mountTemplate plan))).

Definition MAX_PLANS : nat := 256.
Definition PlanCache : Type := list (string * CompiledSandboxPlan).

(** src/src/runtime/linux/cache/plan-cache.ts # PlanCache.get *)
Definition plan_get (key : PlanCacheKey) (cache : PlanCache) : option CompiledSandboxPlan * PlanCache :=
  let id := planKeyString key in
  match jget id cache with
  | Some plan => (Some plan, jdelete id cache ++ [(id, plan)])
  | None => (None, cache)
  end.

(** src/src/runtime/linux/cache/plan-cache.ts # PlanCache.put *)
Definition plan_put (plan : CompiledSandboxPlan) (cache : PlanCache) : bool * PlanCache :=
  if negb (templateIsClean plan) then (false, cache)
  else
    let id := planKeyString (plan_key plan) in
    let plans := jdelete id cache ++ [(id, plan)] in
    (true, if (MAX_PLANS <? length plans)%nat then
             match plans with (oldest, _) :: _ => jdelete oldest plans | [] => plans end
           else plans).

Definition requested_mount_json (m : RequestedMount) : jsval :=
  JObj [("source", match rm_source m with
                   | workspace_relative p => JObj [("type", JStr "workspace-relative"); ("path", JStr p)]
                   | runtime_grant g => JObj [("type", JStr "runtime-grant"); ("grantId", JStr g)]
                   end);
        ("target", JStr (rm_target m));
        ("mode", JStr (match rm_mode m with mm_ro => "ro" | mm_rw => "rw" end))].

(** src/src/runtime/linux/policy-compiler.ts # policyRequestDigest *)
Definition policyRequestDigest (rq : UntrustedCapabilityRequest) : string :=
  digestOf sha256 (JObj
    [("executable", JStr (rq_executable rq)); ("args", j_strs (rq_args rq));
     ("relativeCwd", j_opt JStr (rq_relativeCwd rq));
     ("stdin", j_opt (fun i => JStr (match i with in_closed => "closed" | in_pipe => "pipe" end)) (rq_stdin rq));
     ("profile", JStr (profile_name (rq_profile rq)));
     ("network", j_opt network_json (rq_network rq));
     ("env", JObj (map (fun kv => (kv.1, JStr kv.2)) (default [] (rq_env rq))));
     ("allowedHostKeys", j_strs (default [] (rq_allowedHostKeys rq)));
     ("timeoutMs", j_opt JNum (rq_timeoutMs rq)); ("memoryMaxBytes", j_opt JNum (rq_memoryMaxBytes rq));
     ("pidsMax", j_opt JNum (rq_pidsMax rq)); ("stdoutMaxBytes", j_opt JNum (rq_stdoutMaxBytes rq));
     ("stderrMaxBytes", j_opt JNum (rq_stderrMaxBytes rq));
     ("readonlyMounts", JArr (map requested_mount_json (default [] (rq_readonlyMounts rq))));
     ("writableMounts", JArr (map requested_mount_json (default [] (rq_writableMounts rq))));
     ("cache", JArr (map cache_json (default [] (rq_cache rq))))]).

(** src/src/runtime/linux/policy-compiler.ts # planCacheKeyFor

    [runtimeVersion] and [platform] are those of the process. *)
Definition planCacheKeyFor (runtimeVersion platform : string) (rq : UntrustedCapabilityRequest)
    (workspaceIdentity : string) : PlanCacheKey :=
  mkPlanKey (profile_name (rq_profile rq)) (policyRequestDigest rq) runtimeVersion platform ""
    workspaceIdentity.

Definition with_identity (id : CellIdentity) (s : ExecutionCellSpec) : ExecutionCellSpec :=
  mkCellSpec (schemaVersion s) id (command s) (profile s) (isolation s) (filesystem s)
    (network s) (environment s) (secrets s) (resources s) (cache s) (lifecycle s) (policyDigest s).

(** What a hit writes into the template. *)
Definition inject (id : CellIdentity) (canonicalCwd : string) (w : AuthorizedWorkspace)
    (s : ExecutionCellSpec) : ExecutionCellSpec :=
  let f := filesystem s in
  mkCellSpec (schemaVersion s) id
    (mkCommand (executable (command s)) (args (command s)) canonicalCwd (stdin (command s)))
    (profile s) (isolation s)
    (mkFilesystem (readonlyMounts f) (writableMounts f) (tmpfsMounts f) (hiddenPaths f) (emptyHome f)
       (Some (hostRoot w)) (Some (ws_ownerFiles w)))
    (network s) (environment s) (secrets s) (resources s) (cache s) (lifecycle s) (policyDigest s).

(** src/src/runtime/linux/policy-compiler.ts # compileCapabilityRequestCached

    With a cache and a workspace identity, as the broker calls it. *)
Definition compileCapabilityRequestCached (runtimeVersion platform uuid : string) (now : Z)
    (request : UntrustedCapabilityRequest) (authority : TrustedExecutionAuthority)
    (plans : PlanCache) (workspaceIdentity : string)
  : (list RequestError + ExecutionCellSpec) * PlanCache :=
  let key := planCacheKeyFor runtimeVersion platform request workspaceIdentity in
  let w := ta_workspace authority in
  match plan_get key plans with
  | (Some hit, plans) =>
      match resolveAuthorizedCwd w (rq_relativeCwd request) with
      | Throw e => (inl [re_cwd e], plans)
      | Ok canonicalCwd =>
          let spec := inject (cell_identity uuid (ta_identity authority)) canonicalCwd w
                        (mountTemplate hit) in
          match validateCellSpec fs processCwd sha256 spec with
          | [] => (inr spec, plans)
          | errors => (inl (map re_spec errors), plans)
          end
      end
  | (None, plans) =>
      match compileCapabilityRequest false uuid request authority with
      | inr spec =>
          let template := with_identity (mkIdentity "" "" "" 0 None None) spec in
          (inr spec, (plan_put (mkPlan key template now) plans).2)
      | inl errors => (inl errors, plans)
      end
  end.
End Host.

(** ** Workspaces that may be registered *)

Section Facts.
Context (fs : HostFs) (statSync : string -> option (Z * Z)) (processCwd homedir : string)
  (sha256 : string -> string).

Lemma canonicalHostRoot_Ok root real :
  canonicalHostRoot fs processCwd homedir root = Ok real ->
  realpathSync fs root = Some real /\ real <> "/" /\
  (homedir <> "" -> real <> path_resolve processCwd [homedir]) /\
  (forall prefix, prefix ∈ FORBIDDEN_ROOT_PREFIXES -> under prefix real = false).
Proof.
  unfold canonicalHostRoot. destruct (existsSync fs root); [|done]. cbn [negb].
  destruct (realpathSync fs root) as [r|]; [|done].
  destruct (r === "/") eqn:E1; [done|]. destruct (_ && _) eqn:E2; [done|].
  cbv zeta. destruct (find _ FORBIDDEN_SEGMENTS); [done|].
  destruct (existsb _ FORBIDDEN_ROOT_PREFIXES) eqn:E3; [done|]. intros [= <-]. reflect.
  split_and!; [done|done| |].
  - intros Hh ->. destruct E2 as [E2|E2]; reflect; done.
  - intros p Hp. exact (existsb_none _ _ _ E3 Hp).
Qed.

(** Every workspace of a registry was given a root that may be worked in. *)
Lemma registered_roots ops : forall reg,
  (forall id w, jget id reg = Some w -> exists root, canonicalHostRoot fs processCwd homedir root = Ok (hostRoot w)) ->
  forall reg', fold_left (fun reg input =>
      match register fs statSync processCwd homedir sha256 input reg with
      | Ok (_, reg) => reg | Throw _ => reg end) ops reg = reg' ->
  forall id w, jget id reg' = Some w -> exists root, canonicalHostRoot fs processCwd homedir root = Ok (hostRoot w).
Proof.
  induction ops as [|input ops IH]; intros reg Hreg reg' <-; [done|]. cbn [fold_left].
  eapply IH; [|done]. unfold register.
  destruct (canonicalHostRoot fs processCwd homedir (rw_hostRoot input)) as [root|e] eqn:Er; [|done].
  cbn [mbind res_bind]. intros id w. rewrite jget_jset. case_decide; [intros [= <-]|apply Hreg].
  exists (rw_hostRoot input). by rewrite Er.
Qed.

(** ** Where a command runs *)

Lemma cwd_candidate_Ok w rel c :
  cwd_candidate processCwd w rel = Ok c ->
  under (hostRoot w) c = true /\ exists parts, c = path_resolve processCwd parts.
Proof.
  unfold cwd_candidate. cbv zeta.
  destruct (has_char _ _); [done|]. destruct (isAbsolute _); [done|]. destruct (includes _ _); [done|].
  destruct (under _ _) eqn:E; [|done]. intros [= <-]. eauto.
Qed.

(** The directory of a command lies in the workspace, by its name and after
    following links, and exists. *)
Definition cwd_inside (w : AuthorizedWorkspace) (c : string) : Prop :=
  under (hostRoot w) c = true /\ existsSync fs c = true /\
  forall real, realpathSync fs c = Some real -> under (hostRoot w) real = true.

Lemma resolveAuthorizedCwd_inside w rel c :
  resolveAuthorizedCwd fs processCwd w rel = Ok c -> cwd_inside w c.
Proof.
  unfold resolveAuthorizedCwd. intros (c' & Hc & H)%res_bind_Ok.
  apply cwd_candidate_Ok in Hc as [Hu [parts ->]].
  rewrite resolve_again in H. set (c' := path_resolve processCwd parts) in *.
  destruct (under (hostRoot w) (default _ _)) eqn:El; [|done]. cbn [negb] in H.
  destruct (existsSync fs c') eqn:Ee; [|done]. injection H as <-.
  split_and!; [done|done|]. intros real Hr.
  assert (realpathOfNearestExisting fs (rev (resolve_segs processCwd parts)) = Some real) as Hn.
  { assert (abs_path (rev (rev (resolve_segs processCwd parts))) = c') as Ha by by rewrite rev_involutive.
    destruct (rev (resolve_segs processCwd parts)) as [|x l] eqn:Eq; cbn [realpathOfNearestExisting];
      by rewrite Ha, Ee. }
  by rewrite Hn in El.
Qed.

(** ** Requested mounts *)

(** A rule a request may give rise to: from inside the workspace, in the mode of
    its channel, to a target that is not reserved. *)
Definition requested_rule (w : AuthorizedWorkspace) (mode : MountMode) (rule : MountRule) : Prop :=
  under (hostRoot w) (m_source rule) = true /\ m_mode rule = mode /\ m_required rule = true /\
  isAbsolute (m_target rule) = true /\ m_target rule <> "/" /\
  (existsb (fun p => under p (m_target rule)) ALLOWED_MOUNT_TARGET_PREFIXES = true \/
   forall r, r ∈ RESERVED_MOUNT_TARGETS -> under r (m_target rule) = false).

Lemma reserved_None target :
  reservedMountTargetViolation target = None ->
  let t := path_normalize target in
  isAbsolute t = true /\ t <> "/" /\
  (existsb (fun p => under p t) ALLOWED_MOUNT_TARGET_PREFIXES = true \/
   forall r, r ∈ RESERVED_MOUNT_TARGETS -> under r t = false).
Proof.
  unfold reservedMountTargetViolation. cbv zeta. set (t := path_normalize target).
  destruct (isAbsolute t); [|done]. cbn [negb].
  destruct (existsb (fun p => under p t) ALLOWED_MOUNT_TARGET_PREFIXES) eqn:E1.
  - intros _. split_and!; [done| |by left]. intros Ht. rewrite Ht in E1. by vm_compute in E1.
  - destruct (t === "/") eqn:E2; [done|]. destruct (existsb _ RESERVED_MOUNT_TARGETS) eqn:E3; [done|].
    intros _. reflect. split_and!; [done|done|]. right. intros r Hr. exact (existsb_none _ _ _ E3 Hr).
Qed.

Lemma resolveRequestedMount_Ok m w mode rule :
  resolveRequestedMount processCwd m w mode = Ok rule -> requested_rule w mode rule.
Proof.
  unfold resolveRequestedMount.
  destruct (reservedMountTargetViolation (rm_target m)) eqn:Ev; [done|].
  apply reserved_None in Ev as (Ha & Hslash & Hres).
  destruct (rm_source m) as [requested|]; [|done].
  destruct (has_char _ _); [done|]. destruct (isAbsolute requested); [done|].
  destruct (includes _ _); [done|]. cbv zeta. destruct (under _ _) eqn:Eu; [|done].
  intros [= <-]. repeat split; done.
Qed.

Lemma resolve_mounts_Ok w mode ms : forall rules,
  resolve_mounts processCwd w mode ms = (rules, []) -> Forall (requested_rule w mode) rules.
Proof.
  induction ms as [|m ms IH]; intros rules; cbn [resolve_mounts]; [by intros [= <-]|].
  destruct (resolve_mounts processCwd w mode ms) as [rules' errors] eqn:Em.
  destruct (resolveRequestedMount processCwd m w mode) as [rule|e] eqn:Er; intros [= <- ->].
  constructor; [by eapply resolveRequestedMount_Ok|by apply IH].
Qed.

(** What a request becomes: a valid cell of the authority's run, in its
    workspace. *)
Definition authoritative (uuid : string) (authority : TrustedExecutionAuthority)
    (spec : ExecutionCellSpec) : Prop :=
  let w := ta_workspace authority in
  identity spec = cell_identity uuid (ta_identity authority) /\
  worktreeRoot (filesystem spec) = Some (hostRoot w) /\
  ownerFiles (filesystem spec) = Some (ws_ownerFiles w) /\
  cwd_inside w (cwd (command spec)) /\
  acceptable fs processCwd sha256 spec.

Lemma request_compiled uuid request authority spec :
  compileCapabilityRequest fs processCwd sha256 false uuid request authority = inr spec ->
  authoritative uuid authority spec /\
  Forall (requested_rule (ta_workspace authority) mm_ro) (readonlyMounts (filesystem spec)) /\
  Forall (requested_rule (ta_workspace authority) mm_rw) (writableMounts (filesystem spec)) /\
  (forall k, k ∈ default [] (allowedHostKeys (environment spec)) -> k ∈ SAFE_SANDBOX_HOST_KEYS).
Proof.
  unfold compileCapabilityRequest. set (w := ta_workspace authority).
  destruct (resolveAuthorizedCwd fs processCwd w (rq_relativeCwd request)) as [c|e] eqn:Ec; [|done].
  destruct (resolve_mounts processCwd w mm_ro _) as [ro roErrors] eqn:Ero.
  destruct (resolve_mounts processCwd w mm_rw _) as [rw rwErrors] eqn:Erw.
  destruct (roErrors ++ rwErrors) eqn:Ee; [|done]. apply app_eq_nil in Ee as [-> ->].
  set (spec0 := applyProfileDefaults _ _ _ _).
  destruct (compileCellSpec fs processCwd sha256 spec0) as [|spec'] eqn:Es; [done|]. intros [= <-].
  apply compile_Ok in Es as [-> Ha]. split_and!.
  - unfold authoritative. cbv zeta.
    split_and!; [done|done|done|exact (resolveAuthorizedCwd_inside _ _ _ Ec)|by apply acceptable_with_digest].
  - by eapply resolve_mounts_Ok.
  - by eapply resolve_mounts_Ok.
  - cbn [with_digest clampResources with_resources environment spec0 applyProfileDefaults
         request_overrides ov_environment default allowedHostKeys].
    assert ((pd_minimum (PROFILE_DEFAULTS (rq_profile request)) === im_audit) = false) as ->
      by by destruct (rq_profile request).
    intros k [Hk _]%list_elem_of_filter. by apply includes_true.
Qed.

(** C29: A request cannot leave its workspace or choose who it is: whatever a
    model asks for and whatever the plan cache holds, a compiled cell carries the
    authority's identity and owner files, runs in a directory that lies in the
    authority's workspace by name and after following links, and is a valid cell
    of its profile; and when the plan is not replayed from the cache, each of its
    mounts comes from inside the workspace, in the mode of the channel it was
    asked on, to a target that is not reserved, and only harmless host variables
    are inherited. *)
Theorem request_confined runtimeVersion platform uuid now request authority plans wsId spec plans'
    (Hcompiled : compileCapabilityRequestCached fs processCwd sha256 runtimeVersion platform uuid now
       request authority plans wsId = (inr spec, plans')) :
  let w := ta_workspace authority in
  (identity spec = cell_identity uuid (ta_identity authority) /\
   worktreeRoot (filesystem spec) = Some (hostRoot w) /\
   ownerFiles (filesystem spec) = Some (ws_ownerFiles w) /\
   (under (hostRoot w) (cwd (command spec)) = true /\ existsSync fs (cwd (command spec)) = true /\
    forall real, realpathSync fs (cwd (command spec)) = Some real -> under (hostRoot w) real = true) /\
   acceptable fs processCwd sha256 spec) /\
  (jget (planKeyString sha256 (planCacheKeyFor sha256 runtimeVersion platform request wsId)) plans = None ->
   (forall rule, rule ∈ readonlyMounts (filesystem spec) -> requested_rule w mm_ro rule) /\
   (forall rule, rule ∈ writableMounts (filesystem spec) -> requested_rule w mm_rw rule) /\
   (forall k, k ∈ default [] (allowedHostKeys (environment spec)) -> k ∈ SAFE_SANDBOX_HOST_KEYS)).
Proof.
  cbv zeta. unfold compileCapabilityRequestCached, plan_get in Hcompiled.
  destruct (jget _ plans) as [hit|].
  - destruct (resolveAuthorizedCwd fs processCwd _ _) as [c|e] eqn:Ec; [|done].
    destruct (validateCellSpec fs processCwd sha256 _) eqn:Ev; [|done].
    injection Hcompiled as <- <-. split; [|done].
    do 3 (split; [done|]). split; [exact (resolveAuthorizedCwd_inside _ _ _ Ec)|by apply validate_nil_iff].
  - destruct (compileCapabilityRequest _ _ _ _ _ _ _) as [|s] eqn:Es; [done|].
    injection Hcompiled as <- <-.
    apply request_compiled in Es as (Hauth & Hro & Hrw & Hkeys). split; [exact Hauth|]. intros _.
    rewrite Forall_forall in Hro, Hrw. done.
Qed.
End Facts.

(** ** A request compiled *)

Definition demo_workspace (owners : list string) : AuthorizedWorkspace :=
  mkWorkspace "ws_1" "wp_1" "proj" "/srv/p" wk_main wa_readonly owners.
Definition demo_authority (owners : list string) : TrustedExecutionAuthority :=
  mkAuthority (mkTrusted "r1" "n1" 1 (Some "a1") None) (demo_workspace owners) None.
Definition demo_request (rel : string) (ro rw : list RequestedMount) : UntrustedCapabilityRequest :=
  mkRequest "/usr/bin/node" ["x.js"] (Some rel) None pr_build None None
    (Some ["LANG"; "NPM_CONFIG_REGISTRY"]) None None None None None (Some rw) (Some ro) None.
Definition demo_root_fs : HostFs :=
  mkHostFs (fun p => includes ["/srv/p"; "/srv/p/src"; "/srv/p/link"] p)
           (fun p => Some (if p === "/srv/p/link" then "/etc" else p)).
(** A stand-in for the hash. *)
Fixpoint poly_hash (t : string) (acc : Z) : Z :=
  match t with
  | EmptyString => acc
  | String c t => poly_hash t ((acc * 257 + Z.of_nat (nat_of_ascii c)) mod (2 ^ 61 - 1))
  end.
Definition demo_hash (t : string) : string := pretty.pretty (poly_hash t 7).
Definition demo_compile (plans : PlanCache) (owners : list string) (request : UntrustedCapabilityRequest) :=
  compileCapabilityRequestCached demo_root_fs "/" demo_hash "1.1" "linux-x64" "0123456789" 0 request
    (demo_authority owners) plans "wid".

Lemma request_confined_witness :
  exists spec plans,
    demo_compile [] ["a.ts"] (demo_request "src" [mkRequested (workspace_relative "src") "/cache/src" mm_rw] [])
      = (inr spec, plans) /\
    cwd (command spec) = "/srv/p/src" /\ allowedHostKeys (environment spec) = Some ["LANG"] /\
    under "/srv/p" (cwd (command spec)) = true.
Proof.
  destruct (demo_compile [] ["a.ts"]
    (demo_request "src" [mkRequested (workspace_relative "src") "/cache/src" mm_rw] [])) as [[e|spec] plans] eqn:E.
  { exfalso. vm_compute in E. discriminate E. }
  exists spec, plans. split; [reflexivity|].
  pose proof (request_confined demo_root_fs "/" demo_hash _ _ _ _ _ _ _ _ _ _ E)
    as [(_ & _ & _ & (Hu & _) & _) _].
  split_and!; [| |exact Hu]; (vm_compute in E; injection E as <- _; reflexivity).
Defined.

(** ** Behaviours worth knowing *)

(** A link out of the workspace is no working directory, also as the parent of
    one that does not exist. *)
Lemma linked_cwd_refused :
  (demo_compile [] [] (demo_request "link/x" [] [])).1 = inl [re_cwd (we_cwd_link "/srv/p/link/x")].
Proof. vm_compute. reflexivity. Qed.

(** The access of the workspace is never looked at: in a read-only workspace a
    request gets its writable mounts. *)
Lemma readonly_workspace_mounts_writable :
  ws_access (demo_workspace []) = wa_readonly /\
  match (demo_compile [] [] (demo_request "src" [] [mkRequested (workspace_relative "src") "/cache/src" mm_rw])).1 with
  | inr spec => map m_mode (writableMounts (filesystem spec)) = [mm_rw]
  | inl _ => False
  end.
Proof. split; vm_compute; reflexivity. Qed.

(** Only what is listed as reserved is refused: a mount may land on the home
    directory or anywhere else outside the workspace and the caches. *)
Lemma unlisted_target_accepted :
  reservedMountTargetViolation "/home/orcana/.profile" = None /\
  reservedMountTargetViolation "/opt/../root" = None /\
  reservedMountTargetViolation "/workspace/../etc/passwd" = Some (re_target_reserved "/workspace/../etc/passwd").
Proof. vm_compute. done. Qed.

(** A plan replayed under other owner files is refused: the template's digest
    covers the owner files it was made with, and only the files are replaced. *)
Lemma replay_refused_for_new_owner :
  let request := demo_request "src" [] [] in
  let '(first, plans) := demo_compile [] ["a.ts"] request in
  (match first with inr _ => True | inl _ => False end) /\ length plans = 1%nat /\
  (match (demo_compile plans ["a.ts"] request).1 with inr _ => True | inl _ => False end) /\
  (demo_compile plans ["b.ts"] request).1 = inl [re_spec se_digest] /\
  (match (demo_compile [] ["b.ts"] request).1 with inr _ => True | inl _ => False end).
Proof. vm_compute. done. Qed.
