(* ===== verification/Backends.v ===== *)
(** Backends: choosing one and compiling a cell into its command line.

    Models, of [src/src/runtime/linux], [backend-router.ts], the argument
    compilers of [backends/bubblewrap.ts], [backends/podman.ts] and
    [backends/host-audit.ts], and what [execute] of [broker.ts] does before a
    cell acquires resources: compile, check the image and the network approval,
    choose a backend, degrade where that is allowed.  Supervising the process
    and building the receipt are left out. *)
From Stdlib Require Import Ascii.
From S2P Require Import Prelude Json Paths Environment CellPolicy CellRequest.
Open Scope Z_scope.
Open Scope list_scope.

(** ** Choosing a backend *)

(** The members of [LinuxCapabilities] the router and the compilers read. *)
Record BackendCaps := mkCaps {
  bwrap_available : bool; bwrap_path : option string; bwrap_usable : bool;
  podman_available : bool; podman_path : option string; podman_ready : bool }.

(** src/src/runtime/linux/backend-router.ts # backendAvailability *)
Definition backendAvailable (caps : BackendCaps) (b : BackendId) : bool :=
  match b with
  | bk_host_audit => true
  | bk_bubblewrap => bwrap_available caps && bwrap_usable caps
  | bk_rootless_podman => podman_available caps && podman_ready caps
  end.

Inductive SelectError := degradation_not_allowed (required : BackendId) | isolation_unmet.

(** The closure [canUse] of [selectBackend]. *)
Definition canUse (spec : ExecutionCellSpec) (caps : BackendCaps) (hardAuthority : bool) (b : BackendId) : bool :=
  if negb (backendAvailable caps b) then false
  else if (b === bk_host_audit) &&
          (hardAuthority || negb (minimum (isolation spec) === im_audit)
           || (negb (allowDegradation (isolation spec))
               && negb (pd_allowDegradation (profileDefaults (profile spec)))))
  then false
  else if (b === bk_bubblewrap) && (minimum (isolation spec) === im_container) then false
  else true.

(** src/src/runtime/linux/backend-router.ts # selectBackend

    The flag says whether a degradation reason is recorded. *)
Definition selectBackend (spec : ExecutionCellSpec) (caps : BackendCaps) (hardAuthority : bool)
  : res SelectError (BackendId * bool) :=
  let preferred := match preferredBackend (isolation spec) with
                   | pb_auto => pd_backend (profileDefaults (profile spec))
                   | pb_podman => bk_rootless_podman
                   | pb_bubblewrap => bk_bubblewrap
                   | pb_host_audit => bk_host_audit
                   end in
  let canUse := canUse spec caps hardAuthority in
  if canUse preferred then Ok (preferred, false)
  else if (preferred === bk_bubblewrap) && canUse bk_host_audit then Ok (bk_host_audit, true)
  else if (preferred === bk_bubblewrap) && canUse bk_rootless_podman then Ok (bk_rootless_podman, true)
  else if negb (allowDegradation (isolation spec)) then Throw (degradation_not_allowed preferred)
  else Throw isolation_unmet.

(** The isolation a backend gives. *)
Definition backend_level (b : BackendId) : Z :=
  match b with bk_host_audit => 0 | bk_bubblewrap => 1 | bk_rootless_podman => 2 end.

Lemma canUse_level spec caps hard b :
  canUse spec caps hard b = true ->
  backendAvailable caps b = true /\ ISOLATION_LEVEL (minimum (isolation spec)) <= backend_level b /\
  (b = bk_host_audit -> hard = false /\ minimum (isolation spec) = im_audit /\
     (allowDegradation (isolation spec) = true \/ pd_allowDegradation (PROFILE_DEFAULTS (profile spec)) = true)).
Proof.
  unfold canUse, profileDefaults. destruct (backendAvailable caps b); [|done]. cbn [negb].
  destruct b; cbn [same bool_decide decide_rel BackendId_eq_dec].
  - rewrite same_refl. cbn [andb]. destruct (_ || _) eqn:E; [done|]. reflect.
    intros _. subst. match goal with H : minimum _ = _ |- _ => rewrite H end. split_and!; [done|done|].
    intros _. split_and!; [done|done|].
    match goal with H : _ \/ _ |- _ => destruct H; reflect; tauto end.
  - change (bk_bubblewrap === bk_host_audit) with false. rewrite same_refl. cbn [andb].
    destruct (minimum (isolation spec) === im_container) eqn:E; [done|]. reflect. intros _.
    split_and!; [done| |done]. destruct (minimum (isolation spec)); [done|done|congruence].
  - change (bk_rootless_podman === bk_host_audit) with false.
    change (bk_rootless_podman === bk_bubblewrap) with false. intros _.
    split_and!; [done| |done]. by destruct (minimum (isolation spec)).
Qed.

Lemma selectBackend_Ok spec caps hard b degraded :
  selectBackend spec caps hard = Ok (b, degraded) -> canUse spec caps hard b = true.
Proof.
  unfold selectBackend. cbv zeta. set (preferred := match preferredBackend _ with pb_auto => _ | _ => _ end).
  destruct (canUse spec caps hard preferred) eqn:E1; [by intros [= <- _]|].
  destruct ((preferred === bk_bubblewrap) && canUse spec caps hard bk_host_audit) eqn:E2;
    [by intros [= <- _]; reflect|].
  destruct ((preferred === bk_bubblewrap) && canUse spec caps hard bk_rootless_podman) eqn:E3;
    [by intros [= <- _]; reflect|].
  by destruct (negb _).
Qed.

(** ** Guest paths *)

(** src/src/runtime/linux/backends/bubblewrap.ts # guestWorkspacePath *)
Definition guestWorkspacePath (processCwd hostPath root : string) : option string :=
  if negb (isAbsolute hostPath) || negb (isAbsolute root) then None
  else
    let rel := path_relative processCwd (path_resolve processCwd [root]) (path_resolve processCwd [hostPath]) in
    if rel === "" then Some "/workspace"
    else if (rel === "..") || startsWith rel "../" || isAbsolute rel then None
    else Some (path_join "/workspace" rel).

(** ** Command lines *)

(** One argument group of [bwrap]: [argv.push] always appends a whole one. *)
Inductive BwrapOp :=
| op_flag (name : string)
| op_one (name value : string)
| op_tmpfs (sizeBytes : Z) (target : string)
| op_bind (writable : bool) (source target : string)
| op_setenv (key value : string).

Definition render_op (op : BwrapOp) : list string :=
  match op with
  | op_flag name => [name]
  | op_one name value => [name; value]
  | op_tmpfs size target => ["--size"; pretty.pretty size; "--tmpfs"; target]
  | op_bind true source target => ["--bind"; source; target]
  | op_bind false source target => ["--ro-bind"; source; target]
  | op_setenv key value => ["--setenv"; key; value]
  end.

(** src/src/runtime/linux/backends/bubblewrap.ts # DEFAULT_ROOT_LAYOUT *)
Definition DEFAULT_ROOT_LAYOUT : list MountRule :=
  map (fun source => mkMount source source mm_ro true true (Some false) (Some true) (Some true))
    SYSTEM_READONLY_PATHS.

(** src/src/runtime/linux/backends/bubblewrap.ts # BWRAP_FORBIDDEN_MOUNTS *)
Definition BWRAP_FORBIDDEN_MOUNTS : list string :=
  ["/root"; "/home"; "/run/user"; "/run/docker.sock"; "/var/run/docker.sock"; "/run/podman"; "/run/systemd"].

(** src/src/runtime/linux/backends/bubblewrap.ts # defaultTmpfs *)
Definition defaultTmpfs : list TmpfsRule :=
  [mkTmpfs "/tmp" (512 * 1024 * 1024) None; mkTmpfs "/run" (64 * 1024 * 1024) None].

(** src/src/runtime/linux/backends/bubblewrap.ts # BwrapCompileOptions

    As the backend passes them; the hidden paths and the loopback flag are not
    read by the compiler. *)
Record BwrapCompileOptions := mkBwrapOpts {
  bo_worktreeRoot : option string; bo_extraReadonly : list MountRule; bo_extraWritable : list MountRule;
  bo_tmpfs : list TmpfsRule; bo_cacheMounts : list (string * string);
  bo_cacheMountsRw : list (string * string); bo_setenv : vars; bo_seccompFile : option string }.

Inductive CompileError :=
| ce_host_cwd_missing (cwd : string)
| ce_cwd_outside (cwd : string)
| ce_image (image : string)
| ce_select (e : SelectError)
| ce_spec (errors : list SpecError)
| ce_image_not_approved (image : string)
| ce_network_approval
| ce_backend (b : BackendId).

(** [truthy] of an optional string. *)
Definition nonempty (o : option string) : option string :=
  match o with Some s => if s === "" then None else Some s | None => None end.

(** src/src/runtime/linux/backends/bubblewrap.ts # compileBwrapArgv *)
Definition compileBwrapOps (processCwd : string) (spec : ExecutionCellSpec) (opts : BwrapCompileOptions)
  : res CompileError (list BwrapOp) :=
  let worktree := match bo_worktreeRoot opts with
                  | Some w => Some w | None => worktreeRoot (filesystem spec) end in
  let argv :=
    [op_flag "--unshare-user"; op_flag "--unshare-pid"; op_flag "--unshare-ipc"; op_flag "--unshare-uts";
     op_flag "--unshare-net"; op_flag "--die-with-parent"; op_flag "--new-session"; op_flag "--clearenv";
     op_one "--proc" "/proc"; op_one "--dev" "/dev"]
    ++ map (fun t => op_tmpfs (t_sizeBytes t) (t_target t)) (bo_tmpfs opts)
    ++ map (fun m => op_bind (m_mode m === mm_rw) (m_source m) (m_target m))
         (DEFAULT_ROOT_LAYOUT ++ bo_extraReadonly opts)
    ++ [op_one "--dir" "/home/orcana"]
    ++ match nonempty worktree with Some w => [op_bind true w "/workspace"] | None => [] end
    ++ map (fun m => op_bind true (m_source m) (m_target m)) (bo_extraWritable opts)
    ++ map (fun '(target, source) => op_bind false source target) (bo_cacheMounts opts)
    ++ map (fun '(target, source) => op_bind true source target) (bo_cacheMountsRw opts)
    ++ map (fun '(key, value) => op_setenv key value) (bo_setenv opts)
    ++ match nonempty (bo_seccompFile opts) with Some _ => [op_one "--seccomp" "3"] | None => [] end in
  match (w ← nonempty worktree; guestWorkspacePath processCwd (cwd (command spec)) w) with
  | Some guestCwd => Ok (argv ++ [op_one "--chdir" guestCwd])
  | None => Throw (ce_cwd_outside (cwd (command spec)))
  end.

(** src/src/runtime/linux/backends/bubblewrap.ts # loopbackWrapper *)
Definition loopbackWrapper (target : string) (args : list string) : string * list string :=
  ("/bin/sh", ["-c"; "ip link set lo up 2>/dev/null; exec " +:+ dquote +:+ "$@" +:+ dquote; "sh"; target] ++ args).

(** src/src/runtime/linux/contracts.ts # ExecutionMaterialization

    The members the argument compilers read. *)
Record ExecutionMaterialization := mkMaterialization {
  seccompFile : option string; secretEnv : vars; secretFiles : vars; cacheHostPaths : vars }.

(** src/src/runtime/linux/contracts.ts # CompiledExecution *)
Record CompiledExecution := mkCompiled {
  ce_backend_id : BackendId; ce_argv : list string; ce_env : vars; ce_cwd : string;
  ce_seccompFdPath : option string }.

Definition cacheSource (m : ExecutionMaterialization) (c : CacheMountRequest) : string :=
  default ("/cache/" +:+ cache_kind_name (c_kind c) +:+ "/" +:+ c_key c) (jget (c_target c) (cacheHostPaths m)).

(** The environment all three backends build for a cell. *)
Definition cell_environment (hostEnv : string -> option string) (exists_ : string -> bool)
    (base : BaseProfile) (pathEntries : list string) (secretEnv : vars) (spec : ExecutionCellSpec) : vars :=
  er_env (buildExplicitEnvironment hostEnv exists_
    (mkBuildEnv (mkEnvPolicy base (default [] (allowedHostKeys (environment spec))) []
                   (variables (environment spec)) [])
       (runId (identity spec)) (nodeRunId (identity spec)) pathEntries secretEnv [])).

(** The options the backend compiles its arguments with. *)
Definition bwrap_options (spec : ExecutionCellSpec) (m : ExecutionMaterialization) (env : vars)
  : BwrapCompileOptions :=
  {| bo_worktreeRoot := worktreeRoot (filesystem spec);
     bo_extraReadonly := readonlyMounts (filesystem spec)
       ++ map (fun '(target, source) => mkMount source target mm_ro true false None None None) (secretFiles m);
     bo_extraWritable := writableMounts (filesystem spec);
     bo_tmpfs := defaultTmpfs ++ map (fun t => mkTmpfs (t_target t) (t_sizeBytes t) None) (tmpfsMounts (filesystem spec));
     bo_cacheMounts := map (fun c => (c_target c, cacheSource m c))
       (filter (fun c => c_mode c = cm_ro) (cache spec));
     bo_cacheMountsRw := map (fun c => (c_target c, cacheSource m c))
       (filter (fun c => c_mode c = cm_rw_locked) (cache spec));
     bo_setenv := env;
     bo_seccompFile := seccompFile m |}.

Section Host.
Context (hostEnv : string -> option string) (fs : HostFs) (processCwd : string).

(** src/src/runtime/linux/backends/bubblewrap.ts # createBubblewrapBackend.compile @219-281 *)
Definition bwrap_compile (spec : ExecutionCellSpec) (caps : BackendCaps) (m : ExecutionMaterialization)
    (claimId : option string) : res CompileError CompiledExecution :=
  if negb (existsSync fs (cwd (command spec))) then Throw (ce_host_cwd_missing (cwd (command spec)))
  else match (w ← nonempty (worktreeRoot (filesystem spec));
              _ ← guestWorkspacePath processCwd (cwd (command spec)) w; Some w) with
  | None => Throw (ce_cwd_outside (cwd (command spec)))
  | Some root =>
      let env := cell_environment hostEnv (existsSync fs) bp_minimal ["/usr/local/bin"] (secretEnv m) spec in
      let sandboxEnv := match nonempty claimId with
                        | Some c => jset "ORCANA_CLAIM_ID" c env | None => env end in
      ops ← compileBwrapOps processCwd spec (bwrap_options spec m sandboxEnv);
      let guest := fun p => default p (guestWorkspacePath processCwd p root) in
      let targetExec := guest (executable (command spec)) in
      let targetArgs := map guest (args (command spec)) in
      let entry := if net_mode (network spec) === nm_loopback then loopbackWrapper targetExec targetArgs
                   else (targetExec, targetArgs) in
      Ok (mkCompiled bk_bubblewrap
            ([default "bwrap" (bwrap_path caps)] ++ (ops ≫= render_op) ++ [entry.1] ++ entry.2)
            env (cwd (command spec)) (seccompFile m))
  end.

(** ** Podman *)

(** A hexadecimal digit as the image pattern has it. *)
Definition is_hex (c : ascii) : bool := in_range 48 57 c || in_range 97 102 c.

(** src/src/runtime/linux/backends/podman.ts # validateImageRef

    The digest pattern is [@sha256:] and 64 hexadecimal digits at the end. *)
Definition validateImageRef (image : string) : bool :=
  let n := String.length image in
  (72 <=? n)%nat && (String.substring (n - 72) 8 image === "@sha256:")
  && all_chars is_hex (String.substring (n - 64) 64 image).

(** [String(micros / 1_000_000)] for an integral number of microseconds of at
    least a tenth of a second: the integral part and, unless zero, the six
    decimals without trailing zeros. *)
Fixpoint drop_zeros (s : string) : string :=
  match s with
  | EmptyString => EmptyString
  | String c s => let s := drop_zeros s in
                  if (c === "0"%char) && (s === "") then "" else String c s
  end.
Definition seconds_text (micros : Z) : string :=
  let frac := drop_zeros (String.substring 1 6 (pretty.pretty (1000000 + micros mod 1000000))) in
  pretty.pretty (micros / 1000000) +:+ (if frac === "" then "" else "." +:+ frac).

(** [Math.max(0.1, (spec.resources.cpuQuotaMicros ?? 100_000) / 1_000_000)], in
    microseconds. *)
Definition podman_cpus (spec : ExecutionCellSpec) : Z :=
  Z.max 100000 (default 100000 (cpuQuotaMicros (resources spec))).

Definition podman_memory (spec : ExecutionCellSpec) : Z :=
  Z.max 4 (memoryMaxBytes (resources spec) / (1024 * 1024)).

(** src/src/runtime/linux/backends/podman.ts # volumeOf *)
Definition volumeOf (rule : MountRule) : string :=
  let opts := [match m_mode rule with mm_ro => "ro" | mm_rw => "rw" end; "Z"]
    ++ (if default false (m_noExec rule) then ["noexec"] else [])
    ++ (if default false (m_noSuid rule) then ["nosuid"] else [])
    ++ (if default false (m_noDev rule) then ["nodev"] else []) in
  m_source rule +:+ ":" +:+ m_target rule +:+ ":" +:+ js_join "," opts.

(** src/src/runtime/linux/backends/podman.ts # compilePodmanArgv *)
Definition compilePodmanArgv (spec : ExecutionCellSpec) (image : string) (volumes : list string)
    (seccompProfile : option string) (env : vars) (cidfile : string) : list string :=
  let s := spec in
  ["run"; "--rm"; "--detach=false"; "--network=none"; "--read-only"; "--pull"; "never";
   "--userns=keep-id"; "--cap-drop=ALL"; "--security-opt"; "no-new-privileges";
   "--tmpfs"; "/tmp"; "--tmpfs"; "/run";
   "--memory"; pretty.pretty (podman_memory s) +:+ "m"; "--cpus"; seconds_text (podman_cpus s);
   "--pids-limit"; pretty.pretty (pidsMax (resources s));
   "--label"; "io.orcana.run=" +:+ runId (identity s); "--label"; "io.orcana.cell=" +:+ cellId (identity s)]
  ++ (if cidfile === "" then [] else ["--cidfile"; cidfile])
  ++ match nonempty (agentId (identity s)) with
     | Some a => ["--label"; "io.orcana.agent=" +:+ a] | None => [] end
  ++ match nonempty (worktreeRoot (filesystem s)) with
     | Some w => ["--volume"; w +:+ ":/workspace:rw,Z"] | None => [] end
  ++ (volumes ≫= fun v => ["--volume"; v])
  ++ match nonempty seccompProfile with
     | Some f => ["--security-opt"; "seccomp=" +:+ f] | None => [] end
  ++ (env ≫= fun '(key, value) => ["--env"; key +:+ "=" +:+ value])
  ++ ["--workdir"; "/workspace"; image; executable (command s)] ++ args (command s).

(** src/src/runtime/linux/backends/podman.ts # createPodmanBackend.compile @135-187 *)
Definition podman_compile (spec : ExecutionCellSpec) (caps : BackendCaps) (m : ExecutionMaterialization)
  : res CompileError CompiledExecution :=
  let image := default "" (jget "ORCANA_IMAGE" (variables (environment spec))) in
  if negb (validateImageRef image) then Throw (ce_image image)
  else
    let env := cell_environment hostEnv (existsSync fs) bp_minimal ["/usr/local/bin"] (secretEnv m) spec in
    let cidfile := "/tmp/orcana-" +:+ runId (identity spec) +:+ "-" +:+ cellId (identity spec) +:+ ".cid" in
    let volumes :=
      map volumeOf (readonlyMounts (filesystem spec)) ++ map volumeOf (writableMounts (filesystem spec))
      ++ map (fun c => cacheSource m c +:+ ":" +:+ c_target c +:+ ":"
                       +:+ (match c_mode c with cm_ro => "ro" | cm_rw_locked => "rw" end) +:+ ",Z") (cache spec)
      ++ map (fun '(target, source) => source +:+ ":" +:+ target +:+ ":ro,Z") (secretFiles m) in
    Ok (mkCompiled bk_rootless_podman
          (default "podman" (podman_path caps)
           :: compilePodmanArgv spec image volumes (seccompFile m) env cidfile)
          env "/workspace" None).

(** ** Host audit *)

(** src/src/runtime/linux/backends/host-audit.ts # createHostAuditBackend.compile @52-71 *)
Definition host_audit_compile (spec : ExecutionCellSpec) : CompiledExecution :=
  let base := if (profile spec === pr_inspect) || (profile spec === pr_untrusted)
              then bp_minimal else bp_build in
  let env := cell_environment hostEnv (existsSync fs) base (pathEntries (environment spec)) [] spec in
  mkCompiled bk_host_audit (executable (command spec) :: args (command spec)) env (cwd (command spec)) None.

(** ** What a backend refuses *)

Inductive BackendError :=
| be_spec (e : SpecError)
| be_isolation
| be_network (m : NetworkMode)
| be_worktree
| be_mount (source : string)
| be_home (source : string)
| be_socket (source : string)
| be_semantics (source : string)
| be_degradation (p : ExecutionProfile).

Definition bcheck (b : bool) (e : BackendError) : list BackendError := if b then [e] else [].

Definition restricted (m : MountRule) : bool :=
  default false (m_noExec m) || default false (m_noSuid m) || default false (m_noDev m).

Definition all_mounts (spec : ExecutionCellSpec) : list MountRule :=
  readonlyMounts (filesystem spec) ++ writableMounts (filesystem spec).

Definition local_network (m : NetworkMode) : bool := (m === nm_none) || (m === nm_loopback).

Context (sha256 : string -> string).

(** src/src/runtime/linux/backends/bubblewrap.ts # createBubblewrapBackend.validateSpec @189-217 *)
Definition bwrap_validate (spec : ExecutionCellSpec) : list BackendError :=
  map be_spec (validateCellSpec fs processCwd sha256 spec)
  ++ bcheck (minimum (isolation spec) === im_container) be_isolation
  ++ bcheck (negb (local_network (net_mode (network spec)))) (be_network (net_mode (network spec)))
  ++ bcheck (match nonempty (worktreeRoot (filesystem spec)) with None => true | Some _ => false end) be_worktree
  ++ (all_mounts spec ≫= fun rule =>
        bcheck (existsb (fun p => under p (m_source rule)) BWRAP_FORBIDDEN_MOUNTS) (be_mount (m_source rule))
        ++ bcheck (under "/home" (m_source rule)) (be_home (m_source rule))
        ++ bcheck (restricted rule) (be_semantics (m_source rule))).

(** src/src/runtime/linux/backends/podman.ts # createPodmanBackend.validateSpec @111-133 *)
Definition podman_validate (spec : ExecutionCellSpec) : list BackendError :=
  map be_spec (validateCellSpec fs processCwd sha256 spec)
  ++ bcheck (negb (minimum (isolation spec) === im_container)) be_isolation
  ++ bcheck (negb (local_network (net_mode (network spec)))) (be_network (net_mode (network spec)))
  ++ (all_mounts spec ≫= fun rule =>
        bcheck (under "/home" (m_source rule) || (m_source rule === "/root")) (be_home (m_source rule))
        ++ bcheck (str_includes "docker.sock" (m_source rule) || str_includes "podman.sock" (m_source rule))
             (be_socket (m_source rule))).

(** src/src/runtime/linux/backends/host-audit.ts # createHostAuditBackend.validateSpec @33-50 *)
Definition host_audit_validate (spec : ExecutionCellSpec) : list BackendError :=
  map be_spec (validateCellSpec fs processCwd sha256 spec)
  ++ bcheck (negb (minimum (isolation spec) === im_audit)) be_isolation
  ++ bcheck (negb (allowDegradation (isolation spec)) && negb (profile spec === pr_inspect)
             && negb (profile spec === pr_build)) (be_degradation (profile spec))
  ++ (all_mounts spec ≫= fun rule => bcheck (restricted rule) (be_semantics (m_source rule))).

Definition backend_validate (b : BackendId) (spec : ExecutionCellSpec) : list BackendError :=
  match b with
  | bk_host_audit => host_audit_validate spec
  | bk_bubblewrap => bwrap_validate spec
  | bk_rootless_podman => podman_validate spec
  end.

(** ** Before a cell runs *)

(** src/src/runtime/linux/broker.ts # approvedImage *)
Definition approvedImage (policy : list string) (image : string) : bool :=
  existsb (fun entry => (image === entry) || startsWith image entry) policy.

Definition with_isolation (i : Isolation) (s : ExecutionCellSpec) : ExecutionCellSpec :=
  mkCellSpec (schemaVersion s) (identity s) (command s) (profile s) i (filesystem s)
    (network s) (environment s) (secrets s) (resources s) (cache s) (lifecycle s) (policyDigest s).

(** The cell compiled again at the audit level. *)
Definition downgrade (s : ExecutionCellSpec) : ExecutionCellSpec :=
  with_digest "" (with_isolation
    (mkIsolation im_audit (preferredBackend (isolation s)) (allowDegradation (isolation s))) s).

Definition select_res (spec : ExecutionCellSpec) (caps : BackendCaps) (hard : bool)
  : res CompileError BackendId :=
  match selectBackend spec caps hard with Ok (b, _) => Ok b | Throw e => Throw (ce_select e) end.

Definition compileOrThrow (spec : ExecutionCellSpec) : res CompileError ExecutionCellSpec :=
  match compileCellSpec fs processCwd sha256 spec with
  | inr s => Ok s | inl errors => Throw (ce_spec errors) end.

(** The degradation of [execute]: the cell that is run. *)
Definition degrade (compiled : ExecutionCellSpec) (caps : BackendCaps) (hard : bool)
  : res CompileError ExecutionCellSpec :=
  match select_res compiled caps hard with
  | Ok _ => Ok compiled
  | Throw e =>
      if negb (allowDegradation (isolation compiled)) then Throw e
      else match compileCellSpec fs processCwd sha256 (downgrade compiled) with
           | inl _ => Throw e
           | inr downgraded => _ ← select_res downgraded caps hard; Ok downgraded
           end
  end.

(** src/src/runtime/linux/broker.ts # execute @770-809

    From the specification to the backend that is given the cell. *)
Definition prepare (spec : ExecutionCellSpec) (caps : BackendCaps) (hard : bool)
    (approvedImages : list string) (approvedNetwork : bool)
  : res CompileError (ExecutionCellSpec * BackendId) :=
  compiled ← compileOrThrow spec;
  let image := default "" (jget "ORCANA_IMAGE" (variables (environment compiled))) in
  if negb (image === "") && negb (approvedImage approvedImages image)
  then Throw (ce_image_not_approved image)
  else if (net_mode (network compiled) === nm_full_approved) && negb approvedNetwork
  then Throw ce_network_approval
  else
    compiled ← degrade compiled caps hard;
    b ← select_res compiled caps hard;
    match backend_validate b compiled with
    | [] => Ok (compiled, b)
    | _ => Throw (ce_backend b)
    end.
End Host.

(** ** Isolation *)

Section Facts.
Context (hostEnv : string -> option string) (fs : HostFs) (processCwd : string)
  (sha256 : string -> string).

Lemma compileOrThrow_Ok spec compiled :
  compileOrThrow fs processCwd sha256 spec = Ok compiled ->
  acceptable fs processCwd sha256 compiled /\ profile compiled = profile spec
  /\ identity compiled = identity spec.
Proof.
  unfold compileOrThrow. destruct (compileCellSpec _ _ _ spec) as [|s] eqn:E; [done|]. intros [= <-].
  apply compile_Ok in E as [-> Ha]. split_and!; [by apply acceptable_with_digest|done|done].
Qed.

Lemma degrade_Ok compiled caps hard compiled' :
  degrade fs processCwd sha256 compiled caps hard = Ok compiled' ->
  acceptable fs processCwd sha256 compiled ->
  acceptable fs processCwd sha256 compiled' /\ profile compiled' = profile compiled /\
  identity compiled' = identity compiled /\ environment compiled' = environment compiled /\
  (compiled' = compiled \/
   (allowDegradation (isolation compiled) = true /\ pd_allowDegradation (PROFILE_DEFAULTS (profile compiled)) = true)).
Proof.
  unfold degrade. intros H Ha. destruct (select_res compiled caps hard); [injection H as <-; by auto 6|].
  destruct (allowDegradation (isolation compiled)) eqn:Ed; [|done]. cbn [negb] in H.
  destruct (compileCellSpec _ _ _ (downgrade compiled)) as [|s] eqn:Es; [done|].
  apply res_bind_Ok in H as (b & _ & [= <-]). apply compile_Ok in Es as [-> Hs].
  split_and!; [by apply acceptable_with_digest|done|done|done|]. right. split; [done|].
  destruct (ac_isolation _ _ _ _ Ha) as (_ & _ & Hd & _). by apply Hd.
Qed.

Lemma select_res_Ok spec caps hard b :
  select_res spec caps hard = Ok b -> canUse spec caps hard b = true.
Proof.
  unfold select_res. destruct (selectBackend spec caps hard) as [[b' d]|] eqn:E; [|done].
  intros [= <-]. by eapply selectBackend_Ok.
Qed.

(** The isolation a valid cell is entitled to. *)
Lemma acceptable_level spec :
  acceptable fs processCwd sha256 spec ->
  ISOLATION_LEVEL (pd_minimum (PROFILE_DEFAULTS (profile spec))) <= ISOLATION_LEVEL (minimum (isolation spec)) \/
  (pd_allowDegradation (PROFILE_DEFAULTS (profile spec)) = true /\ allowDegradation (isolation spec) = true).
Proof.
  intros [_ _ _ _ _ _ _ _ _ _ (Haudit & Hmin & _) _ _].
  destruct (decide (minimum (isolation spec) = im_audit)) as [E|E]; [right; by apply Haudit|left; by apply Hmin].
Qed.

(** C27: A cell runs isolated as its profile demands, or not at all: what the
    broker hands to a backend is a valid cell of the same identity and profile,
    the backend is available and accepts it, and isolates at least as strongly
    as the cell's minimum; below the profile's own minimum only when both the
    profile and the cell allow degradation, and on the bare host in no other
    case and never under the hard resource authority.  An image in the
    environment is on the approved list, and the network is no more open than
    the profile's. *)
Theorem execution_isolated spec caps hard approvedImages approvedNetwork compiled b
    (Hprepared : prepare fs processCwd sha256 spec caps hard approvedImages approvedNetwork
                 = Ok (compiled, b)) :
  let p := PROFILE_DEFAULTS (profile spec) in
  identity compiled = identity spec /\ profile compiled = profile spec /\
  acceptable fs processCwd sha256 compiled /\
  backendAvailable caps b = true /\ backend_validate fs processCwd sha256 b compiled = [] /\
  ISOLATION_LEVEL (minimum (isolation compiled)) <= backend_level b /\
  (ISOLATION_LEVEL (pd_minimum p) <= backend_level b \/
   (pd_allowDegradation p = true /\ allowDegradation (isolation compiled) = true)) /\
  (b = bk_host_audit -> hard = false /\ pd_allowDegradation p = true
                        /\ allowDegradation (isolation compiled) = true) /\
  NETWORK_LEVEL (net_mode (network compiled)) <= NETWORK_LEVEL (pd_network p) /\
  (forall image, jget "ORCANA_IMAGE" (variables (environment compiled)) = Some image -> image <> "" ->
   exists entry, entry ∈ approvedImages /\ (image = entry \/ startsWith image entry = true)).
Proof.
  unfold prepare in Hprepared. apply res_bind_Ok in Hprepared as (c0 & Hc0 & H).
  apply compileOrThrow_Ok in Hc0 as (Ha0 & Hp0 & Hi0). cbv zeta in H.
  destruct (negb _ && negb (approvedImage _ _)) eqn:Eimg; [done|].
  destruct (_ && negb approvedNetwork); [done|].
  apply res_bind_Ok in H as (c1 & Hc1 & H). apply res_bind_Ok in H as (b' & Hb & H).
  destruct (backend_validate _ _ _ b' c1) eqn:Ev; [|done]. injection H as -> ->.
  apply degrade_Ok in Hc1 as (Ha & Hp & Hi & Henv & _); [|done].
  apply select_res_Ok, canUse_level in Hb as (Hav & Hlev & Hhost).
  pose proof (acceptable_level _ Ha) as Hmin. rewrite Hp, Hp0 in Hmin.
  assert (profile compiled = profile spec) as Hprof by congruence.
  pose proof (ac_isolation _ _ _ _ Ha) as (Haudit & _ & _ & Hnet). rewrite Hprof in Haudit, Hnet.
  cbv zeta. split_and!; try done; try congruence.
  - destruct Hmin as [?|?]; [left; lia|by right].
  - intros ->. destruct (Hhost eq_refl) as (-> & Hm & _). split; [done|]. by apply Haudit.
  - intros image Himg Hne. rewrite Henv in Himg. rewrite Himg in Eimg. cbn [default] in Eimg.
    apply andb_false_iff in Eimg as [E|E]; reflect; [done|]. unfold approvedImage in E.
    apply existsb_exists in E as (entry & Hin & E). exists entry.
    split; [by apply list_elem_of_In|]. reflect. destruct E as [E|E]; reflect; auto.
Qed.

(** ** Guest paths *)

Lemma js_join_cons x xs : js_join "/" (x :: xs) = match xs with [] => x | _ => x +:+ "/" +:+ js_join "/" xs end.
Proof. by destruct xs. Qed.

(** A relative path that goes up is not taken for one inside, and conversely. *)
Definition goes_up (rel : string) : bool := (rel === "..") || startsWith rel "../" || isAbsolute rel.

Lemma goes_up_true up down :
  up <> [] -> goes_up (js_join "/" (map (fun _ : string => "..") up ++ down)) = true.
Proof.
  destruct up as [|u up]; [done|]. intros _. unfold goes_up. cbn [map app]. rewrite js_join_cons.
  destruct (map _ up ++ down) as [|x xs]; [done|].
  change ("../" +:+ js_join "/" (x :: xs)) with (("../" : string) +:+ js_join "/" (x :: xs)).
  assert (startsWith (".." +:+ "/" +:+ js_join "/" (x :: xs)) "../" = true) as ->
    by exact (startsWith_app (js_join "/" (x :: xs)) "../"). by rewrite orb_true_r.
Qed.

Lemma goes_up_false x xs :
  Forall plain_seg (x :: xs) -> Forall (fun s => has_char "/"%char s = false) (x :: xs) ->
  goes_up (js_join "/" (x :: xs)) = false /\ js_join "/" (x :: xs) <> "".
Proof.
  intros Hp Hn. pose proof (split_join (x :: xs) ltac:(done) Hn) as Hs.
  apply Forall_cons in Hp as [(Hx1 & Hx2 & Hx3) Hp]. set (rel := js_join "/" (x :: xs)) in *.
  split; [|intros E; rewrite E in Hs; by injection Hs as <- _].
  unfold goes_up. rewrite !orb_false_iff. split_and!.
  - apply same_neq. intros E. rewrite E in Hs. by injection Hs as <- _.
  - destruct (startsWith rel "../") eqn:E; [|done]. apply startsWith_iff in E as [t E].
    rewrite E in Hs. change ("../" +:+ t) with (".." +:+ "/" +:+ t) in Hs.
    rewrite split_path_app in Hs. by injection Hs as <- _.
  - unfold isAbsolute. destruct rel as [|c r] eqn:E; [done|]. simpl in Hs.
    destruct (is_sep c); [|done]. by injection Hs as <- _.
Qed.

Lemma ends_with_sep_app s t : t <> "" -> ends_with_sep (s +:+ t) = ends_with_sep t.
Proof.
  intros Ht. induction s as [|c s IH]; [done|]. change (String c s +:+ t) with (String c (s +:+ t)).
  rewrite <- IH. cbn [ends_with_sep]. destruct (s +:+ t) eqn:E; [|done]. by destruct s, t.
Qed.

Lemma str_app_empty (s : string) : s +:+ "" = s.
Proof. induction s as [|c s IH]; [done|]. change (String c (s +:+ "") = String c s). by rewrite IH. Qed.

Lemma ends_noslash s : has_char "/"%char s = false -> ends_with_sep s = false.
Proof.
  induction s as [|c s IH]; [done|]. cbn [has_char ends_with_sep]. intros [Hc Hs]%orb_false_iff.
  destruct s; [by unfold is_sep; rewrite Hc|by apply IH].
Qed.

Lemma ends_join x xs :
  Forall plain_seg (x :: xs) -> Forall (fun s => has_char "/"%char s = false) (x :: xs) ->
  ends_with_sep (js_join "/" (x :: xs)) = false.
Proof.
  revert x. induction xs as [|y ys IH]; intros x Hp Hn.
  - apply Forall_cons in Hn as [Hn _]. by apply ends_noslash.
  - apply Forall_cons in Hp as [_ Hp]. apply Forall_cons in Hn as [_ Hn].
    destruct (goes_up_false y ys Hp Hn) as [_ Hne].
    rewrite js_join_cons, ends_with_sep_app by done.
    rewrite (ends_with_sep_app "/") by done. by apply IH.
Qed.

Lemma guest_join x xs :
  Forall plain_seg (x :: xs) -> Forall (fun s => has_char "/"%char s = false) (x :: xs) ->
  path_join "/workspace" (js_join "/" (x :: xs)) = abs_path ("workspace" :: x :: xs).
Proof.
  intros Hp Hn. destruct (goes_up_false x xs Hp Hn) as [_ Hne]. pose proof (ends_join x xs Hp Hn) as He.
  pose proof (split_join (x :: xs) ltac:(done) Hn) as Hsplit. set (rel := js_join "/" (x :: xs)) in *.
  unfold path_join. change ("/workspace" === "") with false. cbn iota.
  rewrite (proj2 (same_neq _ _) Hne). unfold path_normalize.
  set (p := "/workspace" +:+ "/" +:+ rel).
  assert (ends_with_sep p = false) as ->.
  { unfold p. by rewrite !ends_with_sep_app. }
  assert (split_path p = "" :: "workspace" :: x :: xs) as ->.
  { unfold p. by rewrite split_path_app, Hsplit. }
  change (p === "") with false. change (isAbsolute p) with true. cbn [negb]. cbn iota.
  assert (norm_segs false ("" :: "workspace" :: x :: xs) [] = "workspace" :: x :: xs) as ->.
  { change (norm_segs false ("workspace" :: x :: xs) [] = "workspace" :: x :: xs).
    rewrite norm_segs_id; [done|]. constructor; [done|done]. }
  assert (js_join "/" ("workspace" :: x :: xs) = "workspace" +:+ "/" +:+ rel) as -> by done.
  change ("workspace" +:+ "/" +:+ rel === "") with false. cbn iota.
  unfold abs_path. rewrite js_join_cons. by rewrite str_app_empty.
Qed.

Lemma guest_path hostPath root guest :
  guestWorkspacePath processCwd hostPath root = Some guest <->
  isAbsolute hostPath = true /\ isAbsolute root = true /\
  exists rest, resolve_segs processCwd [hostPath] = resolve_segs processCwd [root] ++ rest /\
               guest = abs_path ("workspace" :: rest).
Proof.
  unfold guestWorkspacePath, path_relative. rewrite !resolve_again.
  pose proof (resolve_plain processCwd [hostPath]) as Hp.
  pose proof (resolve_noslash processCwd [hostPath]) as Hn.
  set (hs := resolve_segs processCwd [hostPath]) in *. set (rs := resolve_segs processCwd [root]).
  destruct (isAbsolute hostPath); [|naive_solver]. destruct (isAbsolute root); [|naive_solver].
  cbn [negb orb]. destruct (strip_common rs hs) as [up down] eqn:E.
  assert (forall rest, hs = rs ++ rest -> up = [] /\ down = rest) as Hpre.
  { intros rest ->. rewrite strip_common_prefix in E. by injection E as <- <-. }
  apply strip_common_spec in E as (common & Hrs & Hhs).
  destruct (decide (up = [])) as [->|Hup].
  2: { pose proof (goes_up_true up down Hup) as Hg. unfold goes_up in Hg. rewrite Hg.
       split; [|intros (_ & _ & rest & Hr & _); by destruct (Hpre rest Hr)].
       destruct (js_join _ _ === "") eqn:E0; [|done]. apply same_true in E0. by rewrite E0 in Hg. }
  rewrite app_nil_r in Hrs. subst common. cbn [map app].
  trans (guest = abs_path ("workspace" :: down)).
  2: { split; [intros ->; naive_solver|]. intros (_ & _ & rest & Hr & ->). by destruct (Hpre rest Hr) as [_ ->]. }
  destruct down as [|x xs]; [simpl; naive_solver|].
  assert (Forall plain_seg (x :: xs)) as Hpd by (rewrite Hhs in Hp; by apply Forall_app in Hp as [_ ?]).
  assert (Forall (fun s => has_char "/"%char s = false) (x :: xs)) as Hnd
    by (rewrite Hhs in Hn; by apply Forall_app in Hn as [_ ?]).
  destruct (goes_up_false x xs Hpd Hnd) as [Hg Hne]. unfold goes_up in Hg.
  rewrite (proj2 (same_neq _ _) Hne), Hg, guest_join by done. naive_solver.
Qed.

(** Guest paths are host paths seen from inside: a path is translated
    exactly when both it and the worktree are absolute and it lies in the
    worktree segment by segment once dots are resolved, and then to the same
    path below [/workspace]. *)
Theorem guest_path_iff hostPath root guest :
  guestWorkspacePath processCwd hostPath root = Some guest <->
  isAbsolute hostPath = true /\ isAbsolute root = true /\
  exists rest, resolve_segs processCwd [hostPath] = resolve_segs processCwd [root] ++ rest /\
               guest = abs_path ("workspace" :: rest).
Proof. apply guest_path. Qed.

(** ** What a sandbox may write *)

Lemma elem_of_bwrap_ops spec opts ops w src tgt :
  compileBwrapOps processCwd spec opts = Ok ops -> op_bind w src tgt ∈ ops ->
  (exists m, m ∈ DEFAULT_ROOT_LAYOUT ++ bo_extraReadonly opts /\ w = (m_mode m === mm_rw)
             /\ src = m_source m /\ tgt = m_target m) \/
  (w = true /\ tgt = "/workspace" /\
   nonempty (match bo_worktreeRoot opts with Some w => Some w | None => worktreeRoot (filesystem spec) end) = Some src) \/
  (w = true /\ exists m, m ∈ bo_extraWritable opts /\ src = m_source m /\ tgt = m_target m) \/
  (w = false /\ (tgt, src) ∈ bo_cacheMounts opts) \/
  (w = true /\ (tgt, src) ∈ bo_cacheMountsRw opts).
Proof.
  unfold compileBwrapOps. cbv zeta. destruct (_ ≫= _) as [g|]; [|done]. intros Heq.
  match type of Heq with Ok ?l = Ok _ => assert (ops = l) as -> by congruence end. clear Heq.
  rewrite !elem_of_app. intros H.
  destruct H as [[H|[H|[H|[H|[H|[H|[H|[H|[H|H]]]]]]]]]|H];
    try (by rewrite !elem_of_cons in H; repeat (destruct H as [H|H]; [done|]); apply not_elem_of_nil in H);
    try (by apply list_elem_of_fmap in H as ([] & [=] & _)).
  - apply list_elem_of_fmap in H as (m & [= -> -> ->] & Hm). left. exists m. done.
  - destruct (nonempty _) as [r|] eqn:E; [|by apply not_elem_of_nil in H].
    apply list_elem_of_singleton in H as [= -> -> ->]. right; left. done.
  - apply list_elem_of_fmap in H as (m & [= -> -> ->] & Hm). right; right; left. split; [done|eauto].
  - apply list_elem_of_fmap in H as ([t s] & [= -> -> ->] & Hm). right; right; right; left. done.
  - apply list_elem_of_fmap in H as ([t s] & [= -> -> ->] & Hm). right; right; right; right. done.
  - destruct (nonempty _); [apply list_elem_of_singleton in H as [=]|by apply not_elem_of_nil in H].
Qed.

Lemma under_refl p : under p p = true.
Proof. unfold under. by rewrite same_refl. Qed.

Lemma nonempty_Some o s : nonempty o = Some s -> o = Some s.
Proof. destruct o as [t|]; [|done]. simpl. by destruct (t === ""). Qed.

Section Binds.
Context (spec : ExecutionCellSpec) (m : ExecutionMaterialization) (env : vars) (ops : list BwrapOp) (w : AuthorizedWorkspace).
Context (Hops : compileBwrapOps processCwd spec (bwrap_options spec m env) = Ok ops)
  (Hroot : worktreeRoot (filesystem spec) = Some (hostRoot w))
  (Hro : forall rule, rule ∈ readonlyMounts (filesystem spec) -> requested_rule w mm_ro rule)
  (Hrw : forall rule, rule ∈ writableMounts (filesystem spec) -> requested_rule w mm_rw rule).

Lemma readonly_binds rule :
  rule ∈ DEFAULT_ROOT_LAYOUT ++ bo_extraReadonly (bwrap_options spec m env) ->
  (m_mode rule === mm_rw) = false /\
  ((m_source rule ∈ SYSTEM_READONLY_PATHS /\ m_target rule = m_source rule) \/
   under (hostRoot w) (m_source rule) = true \/ (m_target rule, m_source rule) ∈ secretFiles m).
Proof.
  cbn [bwrap_options bo_extraReadonly]. intros [H|[H|H]%elem_of_app]%elem_of_app.
  - apply list_elem_of_fmap in H as (p & -> & Hp). split; [done|]. by left.
  - apply Hro in H as (Hu & Hm & _). rewrite Hm. by auto.
  - apply list_elem_of_fmap in H as ([t s] & -> & Hp). split; [done|]. by auto.
Qed.

Lemma writable_bind source target :
  op_bind true source target ∈ ops ->
  under (hostRoot w) source = true \/
  exists c, c ∈ cache spec /\ c_mode c = cm_rw_locked /\ target = c_target c /\ source = cacheSource m c.
Proof.
  intros H. destruct (elem_of_bwrap_ops _ _ _ _ _ _ Hops H) as
    [(r & Hr & Hm & _)|[(_ & _ & Hw)|[(_ & r & Hr & -> & _)|[([=] & _)|(_ & Hc)]]]].
  - apply readonly_binds in Hr as [Hr _]. congruence.
  - cbn [bwrap_options bo_worktreeRoot] in Hw. rewrite Hroot in Hw. apply nonempty_Some in Hw as [= <-].
    left. apply under_refl.
  - left. by apply Hrw in Hr as [Hu _].
  - right. apply list_elem_of_fmap in Hc as (c & [= -> ->] & [Hm Hc]%list_elem_of_filter). eauto.
Qed.

Lemma readonly_bind source target :
  op_bind false source target ∈ ops ->
  (source ∈ SYSTEM_READONLY_PATHS /\ target = source) \/ under (hostRoot w) source = true \/
  (target, source) ∈ secretFiles m \/
  exists c, c ∈ cache spec /\ c_mode c = cm_ro /\ target = c_target c /\ source = cacheSource m c.
Proof.
  intros H. destruct (elem_of_bwrap_ops _ _ _ _ _ _ Hops H) as
    [(r & Hr & Hm & -> & ->)|[([=] & _)|[([=] & _)|[(_ & Hc)|([=] & _)]]]].
  - apply readonly_binds in Hr as [_ Hr]. tauto.
  - right; right; right. apply list_elem_of_fmap in Hc as (c & [= -> ->] & [Hm Hc]%list_elem_of_filter). eauto.
Qed.

Lemma sandbox_flags flag :
  flag ∈ ["--unshare-user"; "--unshare-pid"; "--unshare-ipc"; "--unshare-uts";
          "--unshare-net"; "--die-with-parent"; "--new-session"; "--clearenv"] ->
  op_flag flag ∈ ops.
Proof.
  intros Hf. unfold compileBwrapOps in Hops. cbv zeta in Hops.
  destruct (_ ≫= _) as [g|] in Hops; [|done].
  match type of Hops with Ok ?l = Ok _ => assert (ops = l) as -> by congruence end.
  rewrite !elem_of_app. left; left. rewrite !elem_of_cons in Hf. set_solver.
Qed.

Lemma sandbox_chdir :
  exists rest, resolve_segs processCwd [cwd (command spec)] = resolve_segs processCwd [hostRoot w] ++ rest /\
               op_one "--chdir" (abs_path ("workspace" :: rest)) ∈ ops.
Proof.
  unfold compileBwrapOps in Hops. cbv zeta in Hops. cbn [bwrap_options bo_worktreeRoot] in Hops.
  rewrite Hroot in Hops. destruct (nonempty (Some (hostRoot w))) as [r|] eqn:Er in Hops; [|done].
  apply nonempty_Some in Er as [= <-]. cbn [mbind option_bind] in Hops.
  destruct (guestWorkspacePath _ _ _) as [g|] eqn:Eg in Hops; [|done].
  apply guest_path in Eg as (_ & _ & rest & Hseg & ->). exists rest. split; [done|].
  match type of Hops with Ok ?l = Ok _ => assert (ops = l) as -> by congruence end.
  rewrite elem_of_app. right. by apply elem_of_cons; left.
Qed.
End Binds.

(** C28: A sandbox writes only in its workspace: the command line compiled for a
    requested cell unshares every namespace and clears the environment; each of
    its writable binds comes from inside the authorized workspace, or is a cache
    the cell locked for writing; each read-only bind is a system path in its own
    place, comes from inside the workspace, or is a secret or cache of the
    cell; and the command starts at the place of its directory below
    [/workspace]. *)
Theorem sandbox_binds_confined uuid request authority spec caps m claimId compiled
    (Hrequest : compileCapabilityRequest fs processCwd sha256 false uuid request authority = inr spec)
    (Hcompiled : bwrap_compile hostEnv fs processCwd spec caps m claimId = Ok compiled) :
  let root := hostRoot (ta_workspace authority) in
  exists ops tail,
    ce_argv compiled = [default "bwrap" (bwrap_path caps)] ++ (ops ≫= render_op) ++ tail /\
    (forall flag, flag ∈ ["--unshare-user"; "--unshare-pid"; "--unshare-ipc"; "--unshare-uts";
                          "--unshare-net"; "--die-with-parent"; "--new-session"; "--clearenv"] ->
     op_flag flag ∈ ops) /\
    (forall source target, op_bind true source target ∈ ops ->
     under root source = true \/
     exists c, c ∈ cache spec /\ c_mode c = cm_rw_locked /\ target = c_target c /\ source = cacheSource m c) /\
    (forall source target, op_bind false source target ∈ ops ->
     (source ∈ SYSTEM_READONLY_PATHS /\ target = source) \/ under root source = true \/
     (target, source) ∈ secretFiles m \/
     exists c, c ∈ cache spec /\ c_mode c = cm_ro /\ target = c_target c /\ source = cacheSource m c) /\
    exists rest,
      resolve_segs processCwd [cwd (command spec)] = resolve_segs processCwd [root] ++ rest /\
      op_one "--chdir" (abs_path ("workspace" :: rest)) ∈ ops.
Proof.
  cbv zeta. apply request_compiled in Hrequest as ((_ & Hroot & _) & Hro & Hrw & _).
  rewrite Forall_forall in Hro, Hrw. unfold bwrap_compile in Hcompiled.
  destruct (negb _); [done|].
  destruct (_ ≫= _) as [r|]; [|done]. apply res_bind_Ok in Hcompiled as (ops & Hops & [= <-]).
  exists ops. eexists. split; [reflexivity|].
  split; [intros flag; by eapply sandbox_flags|]. split; [intros source target; by eapply writable_bind|].
  split; [intros source target; by eapply readonly_bind|]. by eapply sandbox_chdir.
Qed.
End Facts.

(** ** A cell prepared *)

Definition demo_caps (bwrap podman : bool) : BackendCaps :=
  mkCaps bwrap (Some "/usr/bin/bwrap") bwrap podman (Some "/usr/bin/podman") podman.
#[local] Abbreviation demo_prepare spec caps hard :=
  (prepare demo_fs "/" (fun t : string => t) spec caps hard [] false).
Definition no_materialization : ExecutionMaterialization := mkMaterialization None [] [] [].

(** The outcome of [prepare], in brief. *)
Definition prepared_as {E} (r : res E (ExecutionCellSpec * BackendId)) : option (BackendId * IsolationMinimum) :=
  match r with Ok (s, b) => Some (b, minimum (isolation s)) | Throw _ => None end.

Lemma execution_isolated_witness :
  demo_prepare demo_compiled (demo_caps true false) true = Ok (demo_compiled, bk_bubblewrap) /\
  ISOLATION_LEVEL (minimum (isolation demo_compiled)) <= backend_level bk_bubblewrap.
Proof.
  assert (demo_prepare demo_compiled (demo_caps true false) true = Ok (demo_compiled, bk_bubblewrap)) as E
    by (vm_compute; reflexivity).
  split; [exact E|].
  destruct (execution_isolated demo_fs "/" (fun t => t) demo_compiled (demo_caps true false) true [] false
              demo_compiled bk_bubblewrap E) as (_ & _ & _ & _ & _ & Hl & _).
  exact Hl.
Defined.

Definition demo_requested : UntrustedCapabilityRequest :=
  demo_request "src" [] [mkRequested (workspace_relative "src") "/cache/src" mm_rw].

Definition demo_requested_cell : ExecutionCellSpec :=
  match compileCapabilityRequest demo_root_fs "/" demo_hash false "0123456789" demo_requested
          (demo_authority []) with inr spec => spec | inl _ => demo_compiled end.
Definition demo_sandbox : CompiledExecution :=
  match bwrap_compile (fun _ => None) demo_root_fs "/" demo_requested_cell (demo_caps true false)
          no_materialization None with
  | Ok c => c | Throw _ => mkCompiled bk_host_audit [] [] "" None end.

Lemma sandbox_binds_confined_witness :
  exists ops tail,
    ce_argv demo_sandbox = ["/usr/bin/bwrap"] ++ (ops ≫= render_op) ++ tail /\
    op_flag "--unshare-net" ∈ ops.
Proof.
  assert (compileCapabilityRequest demo_root_fs "/" demo_hash false "0123456789" demo_requested
            (demo_authority []) = inr demo_requested_cell) as E by (vm_compute; reflexivity).
  assert (bwrap_compile (fun _ => None) demo_root_fs "/" demo_requested_cell (demo_caps true false)
            no_materialization None = Ok demo_sandbox) as Ec by (vm_compute; reflexivity).
  destruct (sandbox_binds_confined (fun _ => None) demo_root_fs "/" demo_hash _ _ _ _ _ _ _ _ E Ec)
    as (ops & tail & Hargv & Hflags & _).
  exists ops, tail. split; [exact Hargv|]. apply Hflags. do 4 right. left.
Defined.

(** ** Behaviours worth knowing *)

(** The example is a cell of the profile given, its other fields unchanged. *)
Definition demo_profiled (p : ExecutionProfile) : ExecutionCellSpec :=
  applyProfileDefaults (mkIdentity "cell-1" "run-1" "node-1" 1 None None)
    (mkCommand "/usr/bin/node" ["x.js"] "/srv/p" in_closed) p
    (mkOverrides None None None None None None None None None).
Definition demo_dependency : ExecutionCellSpec :=
  let s := demo_profiled pr_dependency in
  mkCellSpec (schemaVersion s) (identity s) (command s) (profile s) (isolation s) (filesystem s)
    (mkNetwork nm_proxy_allowlist (Some ["registry.npmjs.org"]) None) (environment s) (secrets s)
    (resources s) (cache s) (lifecycle s) (policyDigest s).

(** The network mode of the dependency profile is one that no isolating backend
    accepts, and the profile takes no other backend: such a cell never runs. *)
Lemma dependency_cell_never_runs fs processCwd sha256 caps hard images net spec compiled b :
  profile spec = pr_dependency ->
  prepare fs processCwd sha256 spec caps hard images net = Ok (compiled, b) ->
  net_mode (network compiled) <> nm_proxy_allowlist.
Proof.
  intros Hp H Hn. unfold prepare in H.
  apply res_bind_Ok in H as (c0 & Hc0 & H). cbv zeta in H.
  apply compileOrThrow_Ok in Hc0 as (Ha0 & Hp0 & _).
  destruct (negb _ && negb (approvedImage _ _)); [done|]. destruct (_ && negb net); [done|].
  apply res_bind_Ok in H as (c1 & Hc1 & H). apply res_bind_Ok in H as (b' & Hb & H).
  destruct (backend_validate _ _ _ b' c1) eqn:Ev; [|done]. injection H as -> ->.
  apply degrade_Ok in Hc1 as (Ha & Hp1 & _); [|done].
  pose proof (ac_isolation _ _ _ _ Ha) as (_ & _ & Hd & _). rewrite Hp1, Hp0, Hp in Hd.
  apply select_res_Ok, canUse_level in Hb as (_ & _ & Hhost).
  destruct b; cbn [backend_validate] in Ev.
  - destruct (Hhost eq_refl) as (_ & Hm & _). pose proof (ac_isolation _ _ _ _ Ha) as (Haudit & _ & _).
    destruct (Haudit Hm) as [E _]. rewrite Hp1, Hp0, Hp in E. done.
  - unfold bwrap_validate in Ev. rewrite !app_nil in Ev. destruct Ev as (_ & _ & Ev & _).
    by rewrite Hn in Ev.
  - unfold podman_validate in Ev. rewrite !app_nil in Ev. destruct Ev as (_ & _ & Ev & _).
    by rewrite Hn in Ev.
Qed.

Lemma dependency_cell_compiles :
  match compileCellSpec demo_fs "/" (fun t => t) demo_dependency with
  | inr s => net_mode (network s) = nm_proxy_allowlist
  | inl _ => False
  end /\
  demo_prepare demo_dependency (demo_caps true true) false = Throw (ce_backend bk_rootless_podman).
Proof. split; vm_compute; reflexivity. Qed.

(** No profile allows the fully approved network, so no cell with it compiles and
    the broker's approval of it is never asked for. *)
Lemma full_approved_never_compiles fs processCwd sha256 spec :
  acceptable fs processCwd sha256 spec -> net_mode (network spec) <> nm_full_approved.
Proof.
  intros Ha E. pose proof (ac_isolation _ _ _ _ Ha) as (_ & _ & _ & Hn). rewrite E in Hn.
  by destruct (profile spec).
Qed.

(** Where bubblewrap is missing and podman is ready, podman is chosen for a
    build cell as an upgrade, refuses it for not asking for a container, and the
    degradation that works without podman is not tried. *)
Lemma upgrade_rejected :
  prepared_as (demo_prepare demo_compiled (demo_caps false false) false) = Some (bk_host_audit, im_audit) /\
  demo_prepare demo_compiled (demo_caps false true) false = Throw (ce_backend bk_rootless_podman).
Proof. split; by vm_compute. Qed.

(** Podman is given the quota as if its period were a second: a compiled cell,
    whose quota is at most the profile's tenth of a second in each tenth, gets a
    tenth of a processor. *)
Lemma podman_tenth_of_a_cpu fs processCwd sha256 s spec :
  compileCellSpec fs processCwd sha256 s = inr spec ->
  seconds_text (podman_cpus spec) = "0.1" /\
  pd_cpuQuotaMicros (PROFILE_DEFAULTS (profile spec)) = pd_cpuPeriodMicros (PROFILE_DEFAULTS (profile spec)).
Proof.
  intros [-> _]%compile_Ok. split.
  2: { change (profile (with_digest _ _)) with (profile s). by destruct (profile s). }
  assert (podman_cpus (with_digest (computePolicyDigest sha256 (clampResources s)) (clampResources s)) = 100000)
    as ->; [|done].
  unfold podman_cpus. cbn [with_digest resources clampResources with_resources cpuQuotaMicros].
  assert (pd_cpuQuotaMicros (PROFILE_DEFAULTS (profile s)) = 100000) as Hq by by destruct (profile s).
  unfold profileDefaults. destruct (cpuQuotaMicros (resources s)); cbn; rewrite ?Hq; lia.
Qed.

(** A read-only mount below the workspace is bound before the worktree is bound
    over it, and so is not seen in the sandbox. *)
Lemma readonly_mount_shadowed :
  match compileBwrapOps "/" demo_compiled (bwrap_options demo_compiled no_materialization []) with
  | Ok ops => drop 18 ops = [op_bind false "/srv/p//src" "/workspace/src"; op_one "--dir" "/home/orcana";
                             op_bind true "/srv/p" "/workspace"; op_one "--chdir" "/workspace"]
  | Throw _ => False
  end.
Proof. vm_compute. reflexivity. Qed.

(** An approved image approves every reference it is a prefix of. *)
Lemma prefix_approves : approvedImage ["registry/node"] "registry/node-of-someone-else@sha256:0" = true.
Proof. done. Qed.
