(* ===== verification/Interrupts.v ===== *)
(** Persistent interrupts: tokens, the record store and resumption.

    Models [src/src/workflow/interrupts/resume-token.ts],
    [interrupt-store.ts] and [resume-controller.ts].  The store's directory
    maps an interrupt id to the record in its file, or to nothing readable when
    the file does not parse.  Every operation is one synchronous section of the
    process.  Base64 ([Buffer]), [Number] on a string, sha256 over the
    serialized graph and the workspace hash are parameters. *)
From S2P Require Import Prelude Json Schema WorkflowTypes.
From stdpp Require Import pretty.
From Stdlib Require Import Ascii.
Open Scope string_scope.

(** ** Printed integers *)

(** Printed integers hold no dot. *)
Lemma pretty_N_char_no_dot n : (pretty_N_char n === "."%char) = false.
Proof. by destruct n as [|p]; [|do 4 (destruct p as [p|p|]; try done)]. Qed.
Lemma pretty_N_go_no_dot x : forall s, has_char "." s = false -> has_char "." (pretty_N_go x s) = false.
Proof.
  induction (N.lt_wf_0 x) as [x _ IH]. intros s Hs. destruct (decide (0 < x)%N) as [Hx|Hx].
  - rewrite pretty_N_go_step by done. apply IH; [by apply N.div_lt|]. simpl.
    by rewrite pretty_N_char_no_dot, Hs.
  - assert (x = 0%N) as -> by lia. by rewrite pretty_N_go_0.
Qed.
Lemma pretty_Z_no_dot (z : Z) : has_char "." (pretty z) = false.
Proof.
  assert (forall n : N, has_char "." (pretty n) = false) as H.
  { intros n. unfold pretty, pretty_N. case_decide; [done|]. by apply pretty_N_go_no_dot. }
  destruct z; unfold pretty, pretty_Z; [done|apply H|]. simpl. apply H.
Qed.
Lemma pretty_nonempty (z : Z) : pretty z <> "".
Proof.
  assert (forall x s, s <> "" -> pretty_N_go x s <> "") as Hgo.
  { intros x. induction (N.lt_wf_0 x) as [x _ IH]. intros s Hs. destruct (decide (0 < x)%N) as [Hx|Hx].
    - rewrite pretty_N_go_step by done. apply IH; [by apply N.div_lt|done].
    - assert (x = 0%N) as -> by lia. by rewrite pretty_N_go_0. }
  destruct z as [|p|p]; [done| |done]. change (pretty (N.pos p) <> ""). unfold pretty, pretty_N.
  case_decide; [done|]. rewrite pretty_N_go_step by lia. by apply Hgo.
Qed.

(** ** Tokens *)

(** src/src/workflow/interrupts/resume-token.ts # ResumeTokenPayload

    A finite [expiresAt] is kept as its floor, which compares with an integer
    time the way the number does. *)
Record ResumeTokenPayload := mkPayload {
  rp_specDigest : string;
  rp_expiresAt : Z;
  rp_interruptId : string;
}.

Section Interrupts.
(** [Buffer.from(raw, "utf8").toString("base64url")], its inverse, and the
    finite values of [Number]. *)
Context (encode decode : string -> string) (Number : string -> option Z).

(** src/src/workflow/interrupts/resume-token.ts # createResumeToken *)
Definition createResumeToken (p : ResumeTokenPayload) : string :=
  encode ("v1" +:+ "." +:+ rp_specDigest p +:+ "." +:+ pretty (rp_expiresAt p) +:+ "." +:+ rp_interruptId p).

Definition nonempty (s : string) : bool := negb (s === "").

(** src/src/workflow/interrupts/resume-token.ts # parseResumeToken *)
Definition parseResumeToken (token : string) : option ResumeTokenPayload :=
  match split_on "." (decode token) with
  | version :: specDigest :: expiresAt :: interruptId :: _ =>
      if (version === "v1") && nonempty specDigest && nonempty expiresAt && nonempty interruptId
      then (fun e => mkPayload specDigest e interruptId) <$> Number expiresAt
      else None
  | _ => None
  end.

(** ** The store *)

Abbreviation InterruptFiles := (gmap string (option WorkflowInterruptRecord)).

(** src/src/workflow/interrupts/interrupt-store.ts # InterruptStore.put *)
Definition store_put (r : WorkflowInterruptRecord) (st : InterruptFiles) : InterruptFiles :=
  <[wr_interruptId r := Some r]> st.

(** src/src/workflow/interrupts/interrupt-store.ts # InterruptStore.get *)
Definition store_get (id : string) (st : InterruptFiles) : option WorkflowInterruptRecord :=
  match st !! id with Some (Some r) => Some r | _ => None end.

(** src/src/workflow/interrupts/interrupt-store.ts # InterruptStore.list

    In the order of the directory, which is not specified. *)
Definition store_list (status : option WorkflowInterruptStatus) (st : InterruptFiles)
    : list WorkflowInterruptRecord :=
  filter (fun r => match status with None => true | Some s => wr_status r === s end = true)
    (omap snd (map_to_list st)).

Definition with_status (s : WorkflowInterruptStatus) (r : WorkflowInterruptRecord) : WorkflowInterruptRecord :=
  mkInterrupt (wr_interruptId r) (wr_runId r) (wr_specId r) (wr_specDigest r) (wr_nodeId r) (wr_nodeRunId r)
    (wr_kind r) (wr_prompt r) (wr_responseSchema r) (wr_createdAt r) (wr_expiresAt r) (wr_workspaceHash r) s.

(** src/src/workflow/interrupts/interrupt-store.ts # InterruptStore.consume *)
Definition store_consume (id : string) (st : InterruptFiles) : option WorkflowInterruptRecord * InterruptFiles :=
  match store_get id st with
  | None => (None, st)
  | Some r =>
      if wr_status r === is_waiting
      then let next := with_status is_resuming r in (Some next, store_put next st)
      else (None, st)
  end.

(** src/src/workflow/interrupts/interrupt-store.ts # InterruptStore.update

    With a patch of the status, the only one used. *)
Definition store_update (id : string) (s : WorkflowInterruptStatus) (st : InterruptFiles)
    : option WorkflowInterruptRecord * InterruptFiles :=
  match store_get id st with
  | None => (None, st)
  | Some r => let next := with_status s r in (Some next, store_put next st)
  end.

(** src/src/workflow/interrupts/interrupt-store.ts # InterruptStore.remove *)
Definition store_remove (id : string) (st : InterruptFiles) : InterruptFiles := delete id st.

(** ** The graph digest *)

(** The projection of a node that [computeSpecDigest] serializes. *)
Record CanonicalNode := mkCanonical {
  cn_id : string;
  cn_handler : string;
  cn_input : jsval;
  cn_dependsOn : list DependsEntry;
  cn_assignment : option string;
  cn_execution : option WorkflowNodeExecution;
}.
Definition canonical_node (n : WorkflowNodeSpec) : CanonicalNode :=
  mkCanonical (n_id n) (n_handler n) (n_input n) (n_dependsOn n) (n_assignment n) (n_execution n).

(** [sha256(JSON.stringify(nodes)).hex.slice(0, 16)] *)
Context (hashNodes : list CanonicalNode -> string).

(** src/src/workflow/interrupts/resume-controller.ts # computeSpecDigest *)
Definition computeSpecDigest (spec : WorkflowSpec) : string :=
  hashNodes (jsort (key_before cn_id) (canonical_node <$> s_nodes spec)).

(** ** The controller *)

(** src/src/workflow/interrupts/resume-controller.ts # ResumeController.openInterrupt @52-62 *)
Record OpenInput := mkOpen {
  oi_runId : string;
  oi_specId : string;
  oi_specDigest : string;
  oi_nodeId : string;
  oi_nodeRunId : string;
  oi_kind : WorkflowInterruptKind;
  oi_prompt : string;
  oi_responseSchema : option JsonSchema;
  oi_expiresInMs : option Z;
}.

Definition MAX_SAFE_INTEGER : Z := 9007199254740991.

(** src/src/workflow/interrupts/resume-controller.ts # ResumeController.openInterrupt

    [id] is the generated id, [now] the time, [ws] the workspace hash. *)
Definition openInterrupt (id : string) (now : Z) (ws : string) (i : OpenInput) (st : InterruptFiles)
    : (WorkflowInterruptRecord * string) * InterruptFiles :=
  let expiresAt := match oi_expiresInMs i with
    | Some ms => if (ms =? 0)%Z then None else Some (now + ms)%Z
    | None => None
    end in
  let record := mkInterrupt id (oi_runId i) (oi_specId i) (oi_specDigest i) (oi_nodeId i) (oi_nodeRunId i)
    (oi_kind i) (oi_prompt i) (oi_responseSchema i) now expiresAt ws is_waiting in
  ((record, createResumeToken (mkPayload (wr_specDigest record) (nullish expiresAt MAX_SAFE_INTEGER) id)),
   store_put record st).

Definition status_name (s : WorkflowInterruptStatus) : string :=
  match s with
  | is_waiting => "waiting" | is_resuming => "resuming" | is_resolved => "resolved"
  | is_cancelled => "cancelled" | is_expired => "expired"
  end.

(** src/src/workflow/interrupts/resume-controller.ts # ResumeAttempt

    A reason, or the consumed record (the answer is handed back as given). *)
Definition ResumeAttempt : Type := string + WorkflowInterruptRecord.

Definition schema_errors (answer : jsval) (s : option JsonSchema) : list string :=
  match s with None => [] | Some s => validateJsonSchema answer s end.

(** src/src/workflow/interrupts/resume-controller.ts # ResumeController.resume

    [now1] and [now2] are the two readings of the clock. *)
Definition resume (token currentSpecDigest : string) (answer : jsval) (now1 now2 : Z) (ws : string)
    (st : InterruptFiles) : ResumeAttempt * InterruptFiles :=
  match parseResumeToken token with
  | None => (inl "invalid resume token", st)
  | Some p =>
      if (rp_expiresAt p <? now1)%Z then (inl "resume token expired", st)
      else match store_get (rp_interruptId p) st with
      | None => (inl ("no interrupt record for " +:+ rp_interruptId p), st)
      | Some r =>
          if negb (rp_specDigest p === wr_specDigest r) || negb (rp_specDigest p === currentSpecDigest)
          then (inl "workflow graph version changed — resume token stale", st)
          else if negb (wr_status r === is_waiting)
          then (inl ("interrupt already " +:+ status_name (wr_status r) +:+ " (resume not repeatable)"), st)
          else if match wr_expiresAt r with Some e => (e <? now2)%Z | None => false end
          then (inl "interrupt expired", st)
          else if negb (wr_workspaceHash r === ws)
          then (inl "workspace changed since interrupt — re-verification required", st)
          else match schema_errors answer (wr_responseSchema r) with
          | _ :: _ => (inl ("response schema rejected: " +:+ js_join "; " (schema_errors answer (wr_responseSchema r))), st)
          | [] =>
              match store_consume (wr_interruptId r) st with
              | (Some consumed, st) => (inr consumed, st)
              | (None, st) =>
                  (inl match store_get (wr_interruptId r) st with
                   | Some latest => "interrupt already " +:+ status_name (wr_status latest) +:+ " (resume not repeatable)"
                   | None => "no interrupt record for " +:+ wr_interruptId r
                   end, st)
              end
          end
      end
  end.

(** src/src/workflow/interrupts/resume-controller.ts # ResumeController.resolve *)
Definition resolve (id : string) (st : InterruptFiles) : InterruptFiles := (store_update id is_resolved st).2.

(** src/src/workflow/interrupts/resume-controller.ts # ResumeController.cancel *)
Definition cancel (id : string) (st : InterruptFiles) : InterruptFiles := (store_update id is_cancelled st).2.

(** ** Resuming *)

(** What an accepted resumption means, independently of the order of the
    checks. *)
Definition resumable (token digest : string) (answer : jsval) (now1 now2 : Z) (ws : string)
    (st : InterruptFiles) (r : WorkflowInterruptRecord) : Prop :=
  exists p, parseResumeToken token = Some p /\ (now1 <= rp_expiresAt p)%Z /\
    store_get (rp_interruptId p) st = Some r /\
    rp_specDigest p = wr_specDigest r /\ wr_specDigest r = digest /\
    wr_status r = is_waiting /\
    (forall e, wr_expiresAt r = Some e -> (now2 <= e)%Z) /\
    wr_workspaceHash r = ws /\
    (forall s, wr_responseSchema r = Some s -> conforms s answer).

Lemma schema_errors_conforms answer s :
  schema_errors answer s = [] <-> forall s', s = Some s' -> conforms s' answer.
Proof.
  destruct s as [s|]; simpl; [|naive_solver]. unfold validateJsonSchema.
  rewrite (check_conforms _ _ _ "$" (le_n _)). naive_solver.
Qed.

(** Every record is filed under its own id. *)
Definition files_ok (st : InterruptFiles) : Prop :=
  forall id r, store_get id st = Some r -> wr_interruptId r = id.

Lemma store_get_put id r st :
  store_get id (store_put r st) = if decide (id = wr_interruptId r) then Some r else store_get id st.
Proof.
  unfold store_get, store_put. case_decide; [subst; by rewrite lookup_insert_eq|by rewrite lookup_insert_ne].
Qed.
Lemma files_ok_put r st : files_ok st -> files_ok (store_put r st).
Proof. intros H id r'. rewrite store_get_put. case_decide; naive_solver. Qed.

Lemma resume_cases token digest answer now1 now2 ws st :
  files_ok st ->
  (exists r, resumable token digest answer now1 now2 ws st r /\
     resume token digest answer now1 now2 ws st =
       (inr (with_status is_resuming r), store_put (with_status is_resuming r) st)) \/
  ((forall r, ~ resumable token digest answer now1 now2 ws st r) /\
   exists reason, resume token digest answer now1 now2 ws st = (inl reason, st)).
Proof.
  intros Hok. unfold resume. destruct (parseResumeToken token) as [p|] eqn:Ep.
  2:{ right. split; [|eauto]. intros r (p & ? & _). congruence. }
  assert (forall r, resumable token digest answer now1 now2 ws st r ->
    (now1 <= rp_expiresAt p)%Z /\ store_get (rp_interruptId p) st = Some r /\
    rp_specDigest p = wr_specDigest r /\ wr_specDigest r = digest /\ wr_status r = is_waiting /\
    (forall e, wr_expiresAt r = Some e -> (now2 <= e)%Z) /\ wr_workspaceHash r = ws /\
    (forall s, wr_responseSchema r = Some s -> conforms s answer)) as Hres.
  { intros r (p' & Hp' & H). rewrite Ep in Hp'. injection Hp' as <-. exact H. }
  destruct (_ <? now1)%Z eqn:E1. { right. split; [|eauto]. intros r Hr%Hres. reflect. lia. }
  destruct (store_get (rp_interruptId p) st) as [r|] eqn:Eg.
  2:{ right. split; [|eauto]. intros r Hr%Hres. naive_solver. }
  destruct (_ || _) eqn:E2.
  { right. split; [|eauto]. intros r' (_ & [= <-] & H3 & H4 & _)%Hres.
    rewrite H3, H4, !same_refl in E2. done. }
  destruct (negb (wr_status r === is_waiting)) eqn:E3.
  { right. split; [|eauto]. intros r' (_ & [= <-] & _ & _ & H5 & _)%Hres. by rewrite H5 in E3. }
  destruct (match wr_expiresAt r with Some e => _ | None => _ end) eqn:E4.
  { right. split; [|eauto]. intros r' (_ & [= <-] & _ & _ & _ & H6 & _)%Hres.
    destruct (wr_expiresAt r) as [e|]; [|done]. specialize (H6 e eq_refl). reflect. lia. }
  destruct (negb (wr_workspaceHash r === ws)) eqn:E5.
  { right. split; [|eauto]. intros r' (_ & [= <-] & _ & _ & _ & _ & H7 & _)%Hres.
    by rewrite H7, same_refl in E5. }
  destruct (schema_errors answer (wr_responseSchema r)) as [|e es] eqn:E6.
  2:{ right. split; [|eauto]. intros r' (_ & [= <-] & _ & _ & _ & _ & _ & H8)%Hres.
      apply schema_errors_conforms in H8. congruence. }
  left. exists r. reflect. split.
  - exists p. split_and!; try done; [congruence| |by apply schema_errors_conforms].
    intros e He. rewrite He in E4. by reflect.
  - unfold store_consume. rewrite (Hok _ _ Eg), Eg, E3. done.
Qed.

(** ** Histories *)

(** A history: the store, the ids opened and the ids of accepted resumptions.
    Ids are generated fresh; a file may become unreadable at any time. *)
Inductive interrupt_run : InterruptFiles -> list string -> list string -> Prop :=
| ir_empty : interrupt_run ∅ [] []
| ir_open st opened acc id now ws i : interrupt_run st opened acc -> id ∉ opened ->
    interrupt_run (openInterrupt id now ws i st).2 (id :: opened) acc
| ir_accept st opened acc token digest answer now1 now2 ws r : interrupt_run st opened acc ->
    (resume token digest answer now1 now2 ws st).1 = inr r ->
    interrupt_run (resume token digest answer now1 now2 ws st).2 opened (wr_interruptId r :: acc)
| ir_refuse st opened acc token digest answer now1 now2 ws reason : interrupt_run st opened acc ->
    (resume token digest answer now1 now2 ws st).1 = inl reason ->
    interrupt_run (resume token digest answer now1 now2 ws st).2 opened acc
| ir_resolve st opened acc id : interrupt_run st opened acc -> interrupt_run (resolve id st) opened acc
| ir_cancel st opened acc id : interrupt_run st opened acc -> interrupt_run (cancel id st) opened acc
| ir_remove st opened acc id : interrupt_run st opened acc -> interrupt_run (store_remove id st) opened acc
| ir_corrupt st opened acc id : interrupt_run st opened acc -> interrupt_run (<[id := None]> st) opened acc.

(** Records are opened ones, and none that waits was accepted. *)
Definition history_inv (st : InterruptFiles) (opened acc : list string) : Prop :=
  files_ok st /\ NoDup acc /\ acc ⊆ opened /\
  (forall id r, store_get id st = Some r -> id ∈ opened) /\
  (forall id r, store_get id st = Some r -> wr_status r = is_waiting -> id ∉ acc).

Lemma history_put st opened acc r :
  history_inv st opened acc -> wr_interruptId r ∈ opened -> wr_status r <> is_waiting ->
  history_inv (store_put r st) opened acc.
Proof.
  intros (H1 & H2 & H3 & H4 & H5) Hin Hs. split_and!; [by apply files_ok_put|done|done| |];
    intros id r'; rewrite store_get_put; case_decide; naive_solver.
Qed.
Lemma history_drop st st' opened acc :
  history_inv st opened acc -> (forall id r, store_get id st' = Some r -> store_get id st = Some r) ->
  history_inv st' opened acc.
Proof. intros (H1 & H2 & H3 & H4 & H5) Hsub. split_and!; try done; repeat intro; naive_solver. Qed.
Lemma history_update st opened acc id s :
  s <> is_waiting -> history_inv st opened acc -> history_inv (store_update id s st).2 opened acc.
Proof.
  intros Hs Hinv. unfold store_update. destruct (store_get id st) as [r|] eqn:E; [|done].
  apply history_put; [done| |done]. destruct Hinv as (H1 & _ & _ & H4 & _). simpl. rewrite (H1 _ _ E). by eapply H4.
Qed.

Lemma interrupt_run_inv st opened acc : interrupt_run st opened acc -> history_inv st opened acc.
Proof.
  induction 1 as [|st opened acc id now ws i _ IH Hid|st opened acc token digest answer now1 now2 ws r _ IH Hr|
    st opened acc token digest answer now1 now2 ws reason _ IH Hr|st opened acc id _ IH|st opened acc id _ IH|
    st opened acc id _ IH|st opened acc id _ IH].
  - split_and!; [by intros ??| constructor|done|by intros ??|by intros ??].
  - destruct IH as (H1 & H2 & H3 & H4 & H5). simpl. split_and!; [by apply files_ok_put|done|set_solver| |];
      intros id' r; rewrite store_get_put; simpl; case_decide; set_solver.
  - assert (files_ok st) as Hok by apply IH.
    destruct (resume_cases token digest answer now1 now2 ws st Hok) as [(r0 & Hres & E)|[_ [reason E]]];
      rewrite E in Hr |- *; [|done]. injection Hr as <-. simpl.
    destruct Hres as (p & _ & _ & Hg & _ & _ & Hw & _).
    pose proof (Hok _ _ Hg) as Hid. pose proof IH as (_ & H2 & H3 & H4 & H5).
    rewrite Hid. rewrite <- Hid in Hg.
    apply (history_put st opened acc (with_status is_resuming r0)) in IH; [|simpl; by eapply H4|done].
    destruct IH as (I1 & _ & _ & I4 & I5). rewrite <- Hid.
    split_and!; [done|by constructor; [eapply H5|]|intros x [->|?]%elem_of_cons; [by eapply H4|by apply H3]|done|].
    intros id' r' Hg' Hw'. rewrite not_elem_of_cons. split; [|by eapply I5].
    intros ->. rewrite store_get_put in Hg'. rewrite decide_True in Hg' by done. by injection Hg' as <-.
  - assert (files_ok st) as Hok by apply IH.
    destruct (resume_cases token digest answer now1 now2 ws st Hok) as [(r0 & _ & E)|[_ [reason' E]]];
      by rewrite E in Hr |- *.
  - by apply history_update.
  - by apply history_update.
  - eapply history_drop; [done|]. intros id' r. unfold store_get, store_remove.
    destruct (decide (id = id')) as [<-|]; [by rewrite lookup_delete_eq|by rewrite lookup_delete_ne].
  - eapply history_drop; [done|]. intros id' r. unfold store_get.
    destruct (decide (id = id')) as [<-|]; [by rewrite lookup_insert_eq|by rewrite lookup_insert_ne].
Qed.

(** C8: No double resume: along any history of opening interrupts under fresh ids,
    resuming, resolving, cancelling, removing and losing records, each interrupt
    is resumed at most once and only after it was opened; and an attempt is
    accepted exactly when the token is readable and not expired, its record waits
    and is not expired, token, record and current graph have the same digest, the
    workspace is unchanged and the answer conforms to the recorded schema; every
    other attempt changes nothing. *)
Theorem resume_at_most_once st opened acc :
  interrupt_run st opened acc ->
  NoDup acc /\ acc ⊆ opened /\
  (forall token digest answer now1 now2 ws,
     match resume token digest answer now1 now2 ws st with
     | (inr r, st') => exists r0, resumable token digest answer now1 now2 ws st r0 /\
         r = with_status is_resuming r0 /\ store_get (wr_interruptId r0) st' = Some r /\ wr_interruptId r0 ∉ acc
     | (inl _, st') => st' = st /\ forall r, ~ resumable token digest answer now1 now2 ws st r
     end).
Proof.
  intros (H1 & H2 & H3 & H4 & H5)%interrupt_run_inv. split_and!; [done..|].
  intros token digest answer now1 now2 ws.
  destruct (resume_cases token digest answer now1 now2 ws st H1) as [(r0 & Hres & ->)|[Hno [reason ->]]]; [|done].
  exists r0. split_and!; [done|done|by rewrite store_get_put, decide_True|].
  destruct Hres as (p & _ & _ & Hg & _ & _ & Hw & _). rewrite (H1 _ _ Hg). by eapply H5.
Qed.

(** ** The digest of a graph *)

(** The graph digest is a version check: two specs with distinct node ids have the
    same digest exactly when they have the same nodes, in any order (same id,
    handler, input, dependencies, assignment and execution), unless the truncated
    hash collides on them. *)
Theorem spec_digest_iff spec1 spec2 :
  NoDup (nodeIds spec1) ->
  (let l1 := jsort (key_before cn_id) (canonical_node <$> s_nodes spec1) in
   let l2 := jsort (key_before cn_id) (canonical_node <$> s_nodes spec2) in
   hashNodes l1 = hashNodes l2 -> l1 = l2) ->
  computeSpecDigest spec1 = computeSpecDigest spec2 <->
  canonical_node <$> s_nodes spec1 ≡ₚ canonical_node <$> s_nodes spec2.
Proof.
  intros Hnd Hinj. unfold computeSpecDigest. split.
  - intros H%Hinj. by rewrite <- (jsort_perm (key_before cn_id)), H, jsort_perm.
  - intros H. f_equal. apply (sort_by_key_perm cn_id); [|done]. rewrite <- list_fmap_compose. exact Hnd.
Qed.

(** ** A token brings its holder back to its interrupt *)

Context (decode_encode : forall s, decode (encode s) = s)
        (Number_pretty : forall z : Z, Number (pretty z) = Some z).

Definition segment (s : string) : Prop := s <> "" /\ has_char "." s = false.

Lemma parse_create p :
  segment (rp_specDigest p) -> segment (rp_interruptId p) -> parseResumeToken (createResumeToken p) = Some p.
Proof.
  intros [Hd1 Hd2] [Hi1 Hi2]. unfold parseResumeToken, createResumeToken. rewrite decode_encode.
  change ("v1" +:+ "." +:+ rp_specDigest p +:+ "." +:+ pretty (rp_expiresAt p) +:+ "." +:+ rp_interruptId p)
    with ("v1" +:+ String "." (rp_specDigest p +:+ String "." (pretty (rp_expiresAt p) +:+ String "." (rp_interruptId p)))).
  rewrite !split_on_app, split_on_none by (done || apply pretty_Z_no_dot).
  unfold nonempty. rewrite same_refl, !(proj2 (same_neq _ "")) by (done || apply pretty_nonempty). simpl.
  rewrite Number_pretty. by destruct p.
Qed.

(** Tokens round trip: parsing a created token gives back the digest, the expiry
    and the interrupt id, whatever they are, as long as digest and id are
    non-empty and hold no dot (a hexadecimal digest and a generated id do not); so
    a token reaches its own interrupt. *)
Theorem resume_token_roundtrip p :
  segment (rp_specDigest p) -> segment (rp_interruptId p) -> parseResumeToken (createResumeToken p) = Some p.
Proof. apply parse_create. Qed.

(** Pause and resume: right after an interrupt is opened, answering with its own
    token is accepted exactly when the graph digest is the one it was opened for,
    the interrupt has not expired, the workspace has not changed and the answer
    conforms to the response schema; the consumed record is the opened one marked
    as resuming, and the same token is refused from then on, even with the same
    answer. *)
Theorem open_then_resume id now ws i st digest answer now' ws' :
  files_ok st -> segment (oi_specDigest i) -> segment id -> (now <= now' <= MAX_SAFE_INTEGER)%Z ->
  let '((r, token), st1) := openInterrupt id now ws i st in
  let '(out, st2) := resume token digest answer now' now' ws' st1 in
  (out = inr (with_status is_resuming r) <->
     digest = oi_specDigest i /\ (forall e, wr_expiresAt r = Some e -> (now' <= e)%Z) /\ ws' = ws /\
     (forall s, oi_responseSchema i = Some s -> conforms s answer)) /\
  (out = inr (with_status is_resuming r) ->
     forall digest' answer' t1 t2 w, exists reason, (resume token digest' answer' t1 t2 w st2).1 = inl reason).
Proof.
  intros Hok Hd Hi Hnow. destruct (openInterrupt id now ws i st) as [[r token] st1] eqn:Eo.
  assert (wr_interruptId r = id /\ wr_specDigest r = oi_specDigest i /\ wr_status r = is_waiting /\
    wr_workspaceHash r = ws /\ wr_responseSchema r = oi_responseSchema i /\ st1 = store_put r st /\
    token = createResumeToken (mkPayload (wr_specDigest r) (nullish (wr_expiresAt r) MAX_SAFE_INTEGER) id))
    as (Hid & Hdg & Hst & Hws & Hsc & -> & ->) by (by unfold openInterrupt in Eo; injection Eo as <- <- <-).
  clear Eo. set (p := mkPayload (wr_specDigest r) (nullish (wr_expiresAt r) MAX_SAFE_INTEGER) id).
  assert (parseResumeToken (createResumeToken p) = Some p) as Hp by (apply parse_create; simpl; by rewrite ?Hdg).
  set (tok := createResumeToken p) in *. clearbody tok.
  assert (files_ok (store_put r st)) as Hok1 by (by apply files_ok_put).
  assert (store_get id (store_put r st) = Some r) as Hg by (by rewrite store_get_put, decide_True).
  assert (forall r', resumable tok digest answer now' now' ws' (store_put r st) r' <->
    r' = r /\ digest = oi_specDigest i /\ (forall e, wr_expiresAt r = Some e -> (now' <= e)%Z) /\ ws' = ws /\
    (forall s, oi_responseSchema i = Some s -> conforms s answer)) as Hiff.
  { intros r'. split.
    - intros (p' & Hp' & H1 & H2 & H3 & H4 & H5 & H6 & H7 & H8). rewrite Hp in Hp'. injection Hp' as <-.
      simpl in H2. rewrite Hg in H2. injection H2 as <-. rewrite Hsc in H8. split_and!; congruence || done.
    - intros (-> & -> & He & -> & Hs). exists p. rewrite Hsc. split_and!; try done. simpl.
      destruct (wr_expiresAt r) as [e|]; simpl; [by apply He|lia]. }
  destruct (resume_cases tok digest answer now' now' ws' _ Hok1) as [(r' & Hr' & ->)|[Hno [reason ->]]].
  - apply Hiff in Hr' as [-> Hr']. split; [done|]. intros _ digest' answer' t1 t2 w.
    destruct (resume_cases tok digest' answer' t1 t2 w _ (files_ok_put (with_status is_resuming r) _ Hok1))
      as [(r2 & Hr2 & _)|[_ [reason ->]]]; [|by eexists].
    exfalso. destruct Hr2 as (p' & Hp' & _ & Hg2 & _ & _ & Hw & _). rewrite Hp in Hp'. injection Hp' as <-.
    rewrite store_get_put in Hg2. simpl in Hg2. rewrite decide_True in Hg2 by done. by injection Hg2 as <-.
  - split; [|done]. split; [done|]. intros H. exfalso. apply (Hno r), Hiff. auto.
Qed.
End Interrupts.

(** ** Instances *)

Definition read_digit (c : ascii) : option N :=
  if in_range 48 57 c then Some (N.of_nat (Ascii.nat_of_ascii c - 48)) else None.
Fixpoint read_digits (acc : N) (s : string) : option N :=
  match s with
  | EmptyString => Some acc
  | String c s => d ← read_digit c; read_digits (10 * acc + d)%N s
  end.
(** Decimal integers. *)
Definition read_number (s : string) : option Z :=
  match s with
  | EmptyString => None
  | String "-" s => Z.opp ∘ Z.of_N <$> read_digits 0 s
  | _ => Z.of_N <$> read_digits 0 s
  end.

Lemma read_pretty_digit d : (d < 10)%N -> read_digit (pretty_N_char d) = Some d.
Proof.
  intros H. destruct d as [|p]; [done|]. do 4 (destruct p as [p|p|]; try done); lia.
Qed.
Lemma read_pretty_N_go x : forall s, read_digits 0 (pretty_N_go x s) = read_digits x s.
Proof.
  induction (N.lt_wf_0 x) as [x _ IH]. intros s. destruct (decide (0 < x)%N) as [Hx|Hx].
  - rewrite pretty_N_go_step, IH by (done || by apply N.div_lt). simpl.
    rewrite read_pretty_digit by (apply N.mod_lt; lia). simpl. f_equal.
    rewrite N.mul_comm. pose proof (N.div_mod x 10). lia.
  - assert (x = 0%N) as -> by lia. by rewrite pretty_N_go_0.
Qed.
Lemma read_pretty_N (n : N) : read_digits 0 (pretty n) = Some n.
Proof. unfold pretty, pretty_N. case_decide; [by subst|]. by rewrite read_pretty_N_go. Qed.

Lemma read_number_digits s n : s <> "" -> read_digits 0 s = Some n -> read_number s = Some (Z.of_N n).
Proof.
  destruct s as [|c s]; [done|]. intros _ H. destruct (decide (c = "-"%char)) as [->|Hc]; [done|].
  unfold read_number. rewrite H. destruct c as [[] [] [] [] [] [] [] []]; done.
Qed.
Lemma read_pretty_Z (z : Z) : read_number (pretty z) = Some z.
Proof.
  destruct z as [|p|p]; [done| |].
  - change (pretty (Z.pos p)) with (pretty (N.pos p)).
    apply (read_number_digits _ (N.pos p)); [apply (pretty_nonempty (Z.pos p))|apply read_pretty_N].
  - change (pretty (Z.neg p)) with (String "-" (pretty (N.pos p))). simpl. by rewrite read_pretty_N.
Qed.

Definition no_hash : list CanonicalNode -> string := fun _ => "digest".

Lemma resume_token_roundtrip_witness :
  parseResumeToken (fun s => s) read_number (createResumeToken (fun s => s) (mkPayload "0123abcd" 1700000000000 "wfi_1")) =
  Some (mkPayload "0123abcd" 1700000000000 "wfi_1").
Proof.
  apply (resume_token_roundtrip (fun s => s) (fun s => s) read_number (fun s => eq_refl) read_pretty_Z).
  - split; [discriminate|reflexivity].
  - split; [discriminate|reflexivity].
Defined.

Definition sample_open : OpenInput :=
  mkOpen "run" "spec" "0123abcd" "ask" "ask:1" ik_approval "Apply?" (Some (tschema ty_boolean)) (Some 1000%Z).

Lemma open_then_resume_witness :
  let '((r, token), st1) := openInterrupt (fun s => s) "wfi_1" 5000 "ws" sample_open ∅ in
  let '(out, st2) := resume (fun s => s) read_number token "0123abcd" (JBool true) 5500 5500 "ws" st1 in
  (out = inr (with_status is_resuming r) <->
     "0123abcd" = "0123abcd" /\ (forall e, wr_expiresAt r = Some e -> (5500 <= e)%Z) /\ "ws" = "ws" /\
     (forall s, Some (tschema ty_boolean) = Some s -> conforms s (JBool true))) /\
  (out = inr (with_status is_resuming r) ->
     forall digest' answer' t1 t2 w, exists reason,
       (resume (fun s => s) read_number token digest' answer' t1 t2 w st2).1 = inl reason).
Proof.
  apply (open_then_resume (fun s => s) (fun s => s) read_number (fun s => eq_refl) read_pretty_Z
           "wfi_1" 5000 "ws" sample_open ∅).
  - intros id r. discriminate.
  - split; [discriminate|reflexivity].
  - split; [discriminate|reflexivity].
  - unfold MAX_SAFE_INTEGER. lia.
Defined.

(** One interrupt, opened and resumed. *)
Lemma resume_at_most_once_witness :
  let '((_, token), st1) := openInterrupt (fun s => s) "wfi_1" 5000 "ws" sample_open ∅ in
  let out := resume (fun s => s) read_number token "0123abcd" (JBool true) 5500 5500 "ws" st1 in
  NoDup ["wfi_1"] /\ ["wfi_1"] ⊆ ["wfi_1"] /\
  (forall token digest answer now1 now2 ws,
     match resume (fun s => s) read_number token digest answer now1 now2 ws out.2 with
     | (inr r, st') => exists r0,
         resumable (fun s => s) read_number token digest answer now1 now2 ws out.2 r0 /\
         r = with_status is_resuming r0 /\ store_get (wr_interruptId r0) st' = Some r /\ wr_interruptId r0 ∉ ["wfi_1"]
     | (inl _, st') => st' = out.2 /\
         forall r, ~ resumable (fun s => s) read_number token digest answer now1 now2 ws out.2 r
     end).
Proof.
  apply (resume_at_most_once (fun s => s) (fun s => s) read_number).
  apply (ir_accept (fun s => s) (fun s => s) read_number _ ["wfi_1"] [] _ _ _ _ _ _
    (with_status is_resuming (openInterrupt (fun s => s) "wfi_1" 5000 "ws" sample_open ∅).1.1)).
  - apply ir_open; [apply ir_empty|apply not_elem_of_nil].
  - vm_compute. reflexivity.
Defined.

Definition node_a : WorkflowNodeSpec := mkNode "a" "tool.read_file" JNull [] None None.
Definition node_b : WorkflowNodeSpec := mkNode "b" "tool.read_file" JNull [OnId "a"] None None.
Definition spec_of (nodes : list WorkflowNodeSpec) : WorkflowSpec := mkSpec v0_1 "spec" nodes None None None.
Definition hash_ids (l : list CanonicalNode) : string := js_join "," (cn_id <$> l).
Lemma spec_digest_iff_witness :
  computeSpecDigest hash_ids (spec_of [node_a; node_b]) = computeSpecDigest hash_ids (spec_of [node_b; node_a]) <->
  canonical_node <$> [node_a; node_b] ≡ₚ canonical_node <$> [node_b; node_a].
Proof.
  apply (spec_digest_iff hash_ids (spec_of [node_a; node_b]) (spec_of [node_b; node_a])).
  - apply (bool_decide_unpack _). vm_compute. exact I.
  - cbv zeta. intros _. vm_compute. reflexivity.
Defined.
