(* ===== verification/Transaction.v ===== *)
(** File transactions: snapshot and rollback.

    Models [src/src/tools/transaction.ts].  The workspace maps a path to the
    content of its file; a path stands for what [resolve] makes of it, so
    [relative] followed by [resolve] gives it back.  Reading as UTF-8 and
    writing back replaces invalid sequences: that is the parameter [utf8].
    Directories are created as needed and not represented.  Any operation may
    throw where its [IoFaults] say so, and a write that throws may have touched
    the file. *)
From S2P Require Import Prelude.

Abbreviation Files := (gmap string string).

(** src/src/tools/transaction.ts # TransactionSnapshot *)
Record TransactionSnapshot := mkSnapshot {
  sn_path : string;
  sn_existedBefore : bool;
  sn_content : option string;
}.

(** src/src/tools/transaction.ts # FileTransaction *)
Record FileTransaction := mkTransaction {
  tx_id : string;
  tx_tool : string;
  tx_snapshots : list TransactionSnapshot;
}.

(** The workspace and the transaction directory. *)
Record Disk := mkDisk {
  dk_files : Files;
  dk_transactions : gmap string FileTransaction;
}.

(** Where the file system throws during one operation: on reading a file, on
    writing it (and what it then holds, if the write had begun), on removing
    it, and on writing or reading the record of a transaction. *)
Record IoFaults := mkFaults {
  io_unreadable : string -> bool;
  io_unwritable : string -> option (option string);
  io_undeletable : string -> bool;
  io_no_record : bool;
}.
Definition no_faults : IoFaults := mkFaults (fun _ => false) (fun _ => None) (fun _ => false) false.

(** A write to [path]: the files after it, and whether it went through. *)
Definition put_file (io : IoFaults) (path content : string) (files : Files) : bool * Files :=
  match io_unwritable io path with
  | None => (true, <[path := content]> files)
  | Some None => (false, files)
  | Some (Some torn) => (false, <[path := torn]> files)
  end.

Section Transaction.
Context (utf8 : string -> string).

(** One snapshot; [None] when reading the file throws. *)
Definition snapshot_of (io : IoFaults) (preloaded : list (string * option string)) (files : Files) (path : string)
    : option TransactionSnapshot :=
  match jget path preloaded with
  | Some content => Some (mkSnapshot path (match content with Some _ => true | None => false end) content)
  | None =>
      match files !! path with
      | Some content => if io_unreadable io path then None else Some (mkSnapshot path true (Some (utf8 content)))
      | None => Some (mkSnapshot path false None)
      end
  end.

(** src/src/tools/transaction.ts # createTransaction

    [preloaded] is the map built from [preloadedSnapshots].  Nobody has the id
    of a record whose write throws. *)
Definition createTransaction (io : IoFaults) (id tool : string) (paths : list string)
    (preloaded : list (string * option string)) (d : Disk) : res string FileTransaction * Disk :=
  match mapM (snapshot_of io preloaded (dk_files d)) (uniq paths) with
  | None => (Throw "a file cannot be read", d)
  | Some snapshots =>
      if io_no_record io then (Throw "the transaction cannot be recorded", d)
      else
        let tx := mkTransaction id tool snapshots in
        (Ok tx, mkDisk (dk_files d) (<[id := tx]> (dk_transactions d)))
  end.

(** src/src/tools/transaction.ts # loadTransaction *)
Definition loadTransaction (io : IoFaults) (id : string) (d : Disk) : res string (option FileTransaction) :=
  match dk_transactions d !! id with
  | None => Ok None
  | Some tx => if io_no_record io then Throw "the record cannot be read" else Ok (Some tx)
  end.

Record RollbackResult := mkRollback { rb_restored : list string; rb_deleted : list string }.

(** src/src/tools/transaction.ts # rollbackSnapshots @100-107

    One snapshot: whether it went through, and the files after it. *)
Definition restore (io : IoFaults) (s : TransactionSnapshot) (r : RollbackResult) (files : Files)
    : option RollbackResult * Files :=
  if sn_existedBefore s then
    let '(ok, files) := put_file io (sn_path s) (default "" (sn_content s)) files in
    (if ok then Some (mkRollback (rb_restored r ++ [sn_path s]) (rb_deleted r)) else None, files)
  else match files !! sn_path s with
  | Some _ =>
      if io_undeletable io (sn_path s) then (None, files)
      else (Some (mkRollback (rb_restored r) (rb_deleted r ++ [sn_path s])), delete (sn_path s) files)
  | None => (Some r, files)
  end.

Definition skipped (selected : option (list string)) (s : TransactionSnapshot) : bool :=
  match selected with Some sel => negb (includes sel (sn_path s)) | None => false end.

(** src/src/tools/transaction.ts # rollbackSnapshots

    [None]: it threw, the files being what the snapshots before made of them. *)
Fixpoint rollback_loop (io : IoFaults) (selected : option (list string)) (snapshots : list TransactionSnapshot)
    (r : RollbackResult) (files : Files) : option RollbackResult * Files :=
  match snapshots with
  | [] => (Some r, files)
  | s :: snapshots =>
      if skipped selected s then rollback_loop io selected snapshots r files
      else match restore io s r files with
           | (Some r, files) => rollback_loop io selected snapshots r files
           | (None, files) => (None, files)
           end
  end.
Definition rollbackSnapshots (io : IoFaults) (tx : FileTransaction) (selected : option (list string)) (files : Files)
    : option RollbackResult * Files := rollback_loop io selected (tx_snapshots tx) (mkRollback [] []) files.

(** The result of a rollback and the disk it leaves, by the record it finds. *)
Definition rollback_of (io : IoFaults) (id : string) (selected : option (list string)) (d : Disk)
    : res string RollbackResult * Disk :=
  match loadTransaction io id d with
  | Throw e => (Throw e, d)
  | Ok None => (Throw ("Transaction not found: " +:+ id), d)
  | Ok (Some tx) =>
      let '(o, files) := rollbackSnapshots io tx selected (dk_files d) in
      (match o with Some r => Ok r | None => Throw "a file cannot be restored" end, mkDisk files (dk_transactions d))
  end.

(** src/src/tools/transaction.ts # rollbackTransaction *)
Definition rollbackTransaction (io : IoFaults) (id : string) (d : Disk) : res string RollbackResult * Disk :=
  rollback_of io id None d.

(** src/src/tools/transaction.ts # rollbackTransactionPaths *)
Definition rollbackTransactionPaths (io : IoFaults) (id : string) (paths : list string) (d : Disk)
    : res string RollbackResult * Disk :=
  rollback_of io id (Some (uniq paths)) d.

(** ** What a rollback restores *)

(** What a snapshot says of its path. *)
Definition snapshot_value (s : TransactionSnapshot) : option string :=
  if sn_existedBefore s then Some (default "" (sn_content s)) else None.

Lemma restore_lookup io s r files r' files' p :
  restore io s r files = (Some r', files') ->
  files' !! p = if decide (p = sn_path s) then snapshot_value s else files !! p.
Proof.
  unfold restore, snapshot_value, put_file. destruct (sn_existedBefore s).
  - destruct (io_unwritable io (sn_path s)) as [[]|]; [done|done|]. intros [= _ <-].
    case_decide; [subst; by rewrite lookup_insert_eq|by rewrite lookup_insert_ne].
  - destruct (files !! sn_path s) eqn:E; [destruct (io_undeletable _ _); [done|]|]; intros [= _ <-];
      case_decide; subst; try done; [by rewrite lookup_delete_eq|by rewrite lookup_delete_ne].
Qed.

(** A path that a step which throws can change is its own. *)
Lemma restore_other io s r files p : p <> sn_path s -> (restore io s r files).2 !! p = files !! p.
Proof.
  intros Hp. unfold restore, put_file. repeat case_match; simplify_eq/=;
    by rewrite ?lookup_insert_ne, ?lookup_delete_ne by congruence.
Qed.

Definition chosen (selected : option (list string)) (p : string) : bool :=
  match selected with Some sel => includes sel p | None => true end.
Lemma skipped_chosen selected s : skipped selected s = negb (chosen selected (sn_path s)).
Proof. by destruct selected. Qed.

(** Without a fault no step throws. *)
Lemma rollback_no_faults selected ss : forall r files, is_Some (rollback_loop no_faults selected ss r files).1.
Proof.
  induction ss as [|s ss IH]; intros r files; cbn [rollback_loop]; [by eexists|].
  destruct (skipped selected s); [apply IH|]. unfold restore, put_file. cbn.
  destruct (sn_existedBefore s); [apply IH|]. destruct (files !! sn_path s); apply IH.
Qed.

Lemma rollback_untouched io selected p ss : forall r files,
  (forall s, s ∈ ss -> skipped selected s = false -> sn_path s <> p) ->
  (rollback_loop io selected ss r files).2 !! p = files !! p.
Proof.
  induction ss as [|s ss IH]; intros r files Hp; cbn [rollback_loop]; [done|].
  destruct (skipped selected s) eqn:Es; [apply IH; intros s' Hs'; apply Hp; by right|].
  pose proof (restore_other io s r files p) as Ho.
  destruct (restore io s r files) as [[r'|] files']; cbn in Ho |- *.
  - rewrite IH; [apply Ho|]; [|intros s' Hs'; apply Hp; by right]. intros ->. by apply (Hp s); [left|..].
  - apply Ho. intros ->. by apply (Hp s); [left|..].
Qed.

Lemma rollback_lookup io selected ss p : NoDup (sn_path <$> ss) -> forall r files r' files',
  rollback_loop io selected ss r files = (Some r', files') ->
  files' !! p =
  match find (fun s => sn_path s === p) ss with
  | Some s => if chosen selected p then snapshot_value s else files !! p
  | None => files !! p
  end.
Proof.
  induction ss as [|s ss IH]; intros Hnd r files r' files'; cbn [rollback_loop find]; [by intros [= _ <-]|].
  apply NoDup_cons in Hnd as [Hs Hnd]. rewrite skipped_chosen.
  destruct (chosen selected (sn_path s)) eqn:Ec; cbn [negb].
  - destruct (restore io s r files) as [[r1|] files1] eqn:Er; [|done]. intros H%IH; [|done].
    pose proof (restore_lookup _ _ _ _ _ _ p Er) as Hl. rewrite H.
    destruct (sn_path s === p) eqn:E; reflect.
    + subst p. rewrite decide_True in Hl by done. rewrite Ec.
      destruct (find (fun s' => sn_path s' === sn_path s) ss) as [s'|] eqn:Ef; [|done].
      apply find_some in Ef as [Hin%list_elem_of_In Heq]. reflect. destruct Hs.
      apply list_elem_of_fmap. by exists s'.
    + rewrite decide_False in Hl by congruence. by rewrite Hl.
  - intros ->%IH; [|done]. destruct (sn_path s === p) eqn:E; [|done]. reflect. subst p. rewrite Ec.
    by destruct (find _ ss).
Qed.

Lemma snapshot_path io preloaded files p s : snapshot_of io preloaded files p = Some s -> sn_path s = p.
Proof. unfold snapshot_of. intros H. by repeat case_match; simplify_eq/=. Qed.

Lemma snapshot_paths io preloaded files (paths : list string) ss :
  mapM (snapshot_of io preloaded files) paths = Some ss -> sn_path <$> ss = paths.
Proof.
  intros H%mapM_Some. induction H as [|p s paths ss Hs _ IH]; [done|].
  rewrite fmap_cons, IH. f_equal. by eapply snapshot_path.
Qed.
Lemma find_snapshot io preloaded files (paths : list string) ss p :
  mapM (snapshot_of io preloaded files) paths = Some ss ->
  find (fun s => sn_path s === p) ss = if includes paths p then snapshot_of io preloaded files p else None.
Proof.
  intros H%mapM_Some. induction H as [|q s paths ss Hs _ IH]; [done|].
  cbn [find]. rewrite (snapshot_path _ _ _ _ _ Hs).
  unfold includes in *. cbn [existsb]. destruct (q === p) eqn:E; [|by rewrite IH].
  apply same_true in E as ->. by rewrite Hs.
Qed.

(** A transaction leaves the workspace alone, and is refused only by a fault. *)
Lemma create_files io id tool paths preloaded d o d' :
  createTransaction io id tool paths preloaded d = (o, d') -> dk_files d' = dk_files d.
Proof. unfold createTransaction. repeat case_match; by intros [= <- <-]. Qed.
Lemma create_refused io id tool paths preloaded d e d' :
  createTransaction io id tool paths preloaded d = (Throw e, d') -> io <> no_faults /\ d' = d.
Proof.
  unfold createTransaction. destruct (mapM _ _) eqn:E.
  - destruct (io_no_record io) eqn:En; [|done]. intros [= <- <-]. split; [|done]. by intros ->.
  - intros [= <- <-]. split; [|done]. intros ->. apply mapM_None in E as [p H]%Exists_exists.
    destruct H as [_ H]. revert H. unfold snapshot_of. by repeat case_match.
Qed.

(** The snapshots of a transaction made on [d], rolled back on a disk whose
    files are [files] by then. *)
Lemma rollback_created io io' id tool paths d tx d' selected files r' files' p :
  createTransaction io id tool paths [] d = (Ok tx, d') ->
  rollbackSnapshots io' tx selected files = (Some r', files') ->
  (forall c, p ∈ paths -> dk_files d !! p = Some c -> utf8 c = c) ->
  files' !! p = if includes paths p && chosen selected p then dk_files d !! p else files !! p.
Proof.
  unfold createTransaction. destruct (mapM _ _) as [ss|] eqn:Em; [|done]. destruct (io_no_record io); [done|].
  intros [= <- _] Hr Hutf. unfold rollbackSnapshots in Hr. cbn [tx_snapshots] in Hr.
  apply (rollback_lookup _ _ _ p) in Hr; [|rewrite (snapshot_paths _ _ _ _ _ Em); apply NoDup_uniq].
  rewrite Hr, (find_snapshot _ _ _ _ _ p Em).
  assert (includes (uniq paths) p = includes paths p) as ->.
  { apply eq_true_iff_eq. by rewrite !includes_true, elem_of_uniq. }
  destruct (includes paths p) eqn:Ep; [|done]. pose proof Ep as Hp. apply includes_true in Hp. cbn [andb].
  assert (is_Some (snapshot_of io [] (dk_files d) p)) as [s Es].
  { apply mapM_Some in Em. assert (p ∈ uniq paths) as Hu by by apply elem_of_uniq.
    apply list_elem_of_lookup in Hu as [i Hi]. by destruct (Forall2_lookup_l _ _ _ _ _ Em Hi) as (s & _ & ?); exists s. }
  rewrite Es. destruct (chosen selected p); [|done]. revert Es. unfold snapshot_of, snapshot_value. cbn.
  destruct (dk_files d !! p) as [c|] eqn:E; [|by intros [= <-]].
  destruct (io_unreadable io p); [done|]. intros [= <-]. cbn. by rewrite Hutf.
Qed.

Lemma rollback_created_other io io' id tool paths d tx d' selected files p :
  createTransaction io id tool paths [] d = (Ok tx, d') -> p ∉ paths ->
  (rollbackSnapshots io' tx selected files).2 !! p = files !! p.
Proof.
  unfold createTransaction. destruct (mapM _ _) as [ss|] eqn:Em; [|done]. destruct (io_no_record io); [done|].
  intros [= <- _] Hp. apply rollback_untouched. cbn [tx_snapshots]. intros s Hs _ E. apply Hp.
  rewrite <- elem_of_uniq, <- (snapshot_paths _ _ _ _ _ Em), <- E. by apply list_elem_of_fmap_2.
Qed.

(** Rollback undoes everything it covers: whatever happens to the workspace
    after a transaction over some paths is created, rolling the transaction back
    either throws or gives each of those paths its earlier content, or removes
    the file where there was none; in both cases it touches no other path, and it
    does not throw where nothing is refused.  Rolling back a selection restores
    exactly the selected ones among them.  Contents that are not valid UTF-8 are
    excepted. *)
Theorem rollback_restores io io' id tool paths d tx d1 files later selected :
  createTransaction io id tool paths [] d = (Ok tx, d1) -> later !! id = Some tx ->
  (forall p c, p ∈ paths -> dk_files d !! p = Some c -> utf8 c = c) ->
  let '(o, d') := rollback_of io' id selected (mkDisk files later) in
  (forall p, p ∉ paths -> dk_files d' !! p = files !! p) /\
  (forall r, o = Ok r -> forall p, p ∈ paths ->
     dk_files d' !! p = if chosen selected p then dk_files d !! p else files !! p) /\
  (io' = no_faults -> exists r, o = Ok r).
Proof.
  intros Hc Hl Hutf. unfold rollback_of, loadTransaction. cbn [dk_transactions dk_files]. rewrite Hl.
  destruct (io_no_record io') eqn:En.
  { split; [done|]. split; [done|]. intros ->. done. }
  pose proof (fun p => rollback_created_other io io' id tool paths d tx d1 selected files p Hc) as Hother.
  pose proof (rollback_no_faults selected (tx_snapshots tx) (mkRollback [] []) files) as Hnf.
  destruct (rollbackSnapshots io' tx selected files) as [[r|] files'] eqn:Er; cbn [dk_files snd] in *.
  - split; [exact Hother|]. split; [|by eexists]. intros r' [= <-] p Hp.
    rewrite (rollback_created _ _ _ _ _ _ _ _ _ _ _ _ p Hc Er (fun c => Hutf p c)).
    by rewrite (proj2 (includes_true _ _) Hp).
  - split; [exact Hother|]. split; [done|]. intros ->. unfold rollbackSnapshots in Er. rewrite Er in Hnf. by destruct Hnf.
Qed.
End Transaction.

Lemma rollback_restores_witness :
  let d := mkDisk {["a.ts" := "old"]} ∅ in
  let later := (createTransaction (fun s => s) no_faults "txn" "edit" ["a.ts"; "b.ts"] [] d).2 in
  let files := {["a.ts" := "new"; "b.ts" := "made"; "c.ts" := "other"]} in
  let '(o, d') := rollback_of no_faults "txn" None (mkDisk files (dk_transactions later)) in
  (forall p, p ∉ ["a.ts"; "b.ts"] -> dk_files d' !! p = (files : Files) !! p) /\
  (forall r, o = Ok r -> forall p, p ∈ ["a.ts"; "b.ts"] -> dk_files d' !! p = dk_files d !! p) /\
  (no_faults = no_faults -> exists r, o = Ok r).
Proof.
  exact (rollback_restores (fun s => s) no_faults no_faults "txn" "edit" ["a.ts"; "b.ts"] (mkDisk {["a.ts" := "old"]} ∅)
    (mkTransaction "txn" "edit" [mkSnapshot "a.ts" true (Some "old"); mkSnapshot "b.ts" false None])
    (mkDisk {["a.ts" := "old"]} {["txn" := mkTransaction "txn" "edit" [mkSnapshot "a.ts" true (Some "old"); mkSnapshot "b.ts" false None]]})
    {["a.ts" := "new"; "b.ts" := "made"; "c.ts" := "other"]}
    {["txn" := mkTransaction "txn" "edit" [mkSnapshot "a.ts" true (Some "old"); mkSnapshot "b.ts" false None]]} None
    eq_refl eq_refl (fun _ _ _ _ => eq_refl)).
Defined.

(** A write that is refused leaves the paths after it as they were. *)
Lemma refused_rollback_stops :
  let tx := mkTransaction "txn" "edit" [mkSnapshot "a" true (Some "old a"); mkSnapshot "b" true (Some "old b")] in
  let io := mkFaults (fun _ => false) (fun p => if p === "a" then Some None else None) (fun _ => false) false in
  rollbackTransaction io "txn" (mkDisk {["a" := "new a"; "b" := "new b"]} {["txn" := tx]}) =
    (Throw "a file cannot be restored", mkDisk {["a" := "new a"; "b" := "new b"]} {["txn" := tx]}).
Proof. vm_compute. reflexivity. Qed.
