(* ===== verification/FileState.v ===== *)
(** What an agent run knows of the files it edits.

    Models [src/src/file-state/]: the ledger of what was read or written, the
    freshness gate that an edit passes, the run's write generation and its
    unmanaged writes, the bounded snapshot of a file, and the approval that a
    tool contract with a freshness requirement collects before its handler runs.

    Text is represented by its UTF-8 bytes; [utf8] is what decoding makes of a
    byte sequence and [sha256] the digest, both parameters.  The answers of the
    file system are arguments; cancellation is not represented, and the eight
    concurrent snapshot readers run one after the other. *)
From Stdlib Require Import Ascii.
From S2P Require Import Prelude Json Paths PathPattern.
From stdpp Require Import pretty.
Open Scope string_scope.
Open Scope list_scope.

(** ** The ledger *)

(** src/src/file-state/file-fingerprint.ts # FileFingerprint *)
Record FileFingerprint := mkFingerprint { fp_sha256 : string; fp_mtimeMs : Z; fp_size : Z }.

(** src/src/file-state/file-state-ledger.ts # FileReadRange

    The selector reads of [src/src/tools/file.ts] record a third kind. *)
Inductive FileReadRange :=
| range_full
| range_lines (startLine endLine : Z)
| range_selector.

(** src/src/file-state/file-state-ledger.ts # FileStateSource *)
Inductive FileStateSource := src_read_file | src_agent_write | src_external_change | src_session_restore.

(** src/src/file-state/file-state-ledger.ts # FileStateStatus *)
Inductive FileStateStatus :=
  fs_fresh | fs_changed | fs_stale | fs_partial | fs_truncated | fs_deleted | fs_missing.

#[export] Instance read_range_eq_dec : EqDecision FileReadRange.
Proof. solve_decision. Defined.
#[export] Instance file_status_eq_dec : EqDecision FileStateStatus.
Proof. solve_decision. Defined.

(** src/src/file-state/file-state-ledger.ts # FileStateRecord *)
Record FileStateRecord := mkFileState {
  fr_path : string;
  fr_readRange : FileReadRange;
  fr_totalLines : option Z;
  fr_baseline : FileFingerprint;
  fr_baselinePreview : string;
  fr_source : FileStateSource;
  fr_status : FileStateStatus;
  fr_lastCheckedAt : Z;
  fr_createdAt : Z;
}.

(** src/src/file-state/file-state-ledger.ts # FreshnessCheckResult *)
Record FreshnessCheckResult := mkFreshness {
  fc_ok : bool;
  fc_status : FileStateStatus;
  fc_reason : option string;
  fc_current : option FileFingerprint;
  fc_record : option FileStateRecord;
}.

(** The [records] of a [FileStateLedger]. *)
Abbreviation FileStateLedger := (gmap string FileStateRecord).

(** src/src/file-state/file-state-ledger.ts # preview *)
Definition preview (content : string) : string := String.substring 0 240 content.

(** src/src/file-state/file-state-ledger.ts # statusForRead *)
Definition statusForRead (range : FileReadRange) (truncated : bool) : FileStateStatus :=
  if truncated then fs_truncated
  else match range with range_lines _ _ => fs_partial | _ => fs_fresh end.

Definition created_at (existing : option FileStateRecord) (now : Z) : Z :=
  match existing with Some r => fr_createdAt r | None => now end.

(** src/src/file-state/file-state-ledger.ts # FileStateLedger.recordRead *)
Definition recordRead (now : Z) (path : string) (range : FileReadRange) (content : string)
    (totalLines : option Z) (fingerprint : FileFingerprint) (truncated : bool) (l : FileStateLedger)
    : FileStateRecord * FileStateLedger :=
  let record := mkFileState path range totalLines fingerprint (preview content) src_read_file
                  (statusForRead range truncated) now (created_at (l !! path) now) in
  (record, <[path := record]> l).

(** src/src/file-state/file-state-ledger.ts # FileStateLedger.recordAgentWrite *)
Definition recordAgentWrite (now : Z) (path content : string) (fingerprint : FileFingerprint)
    (l : FileStateLedger) : FileStateRecord * FileStateLedger :=
  let record := mkFileState path range_full None fingerprint (preview content) src_agent_write
                  fs_fresh now (created_at (l !! path) now) in
  (record, <[path := record]> l).

(** [{ ...record, source, status, lastCheckedAt }]. *)
Definition restated (record : FileStateRecord) (source : FileStateSource) (status : FileStateStatus) (now : Z)
    : FileStateRecord :=
  mkFileState (fr_path record) (fr_readRange record) (fr_totalLines record) (fr_baseline record)
    (fr_baselinePreview record) source status now (fr_createdAt record).

(** src/src/file-state/file-state-ledger.ts # FileStateLedger.checkFresh *)
Definition checkFresh (now : Z) (path : string) (current : option FileFingerprint) (l : FileStateLedger)
    : FreshnessCheckResult * FileStateLedger :=
  match l !! path with
  | None => (mkFreshness false fs_missing (Some "no file state baseline") current None, l)
  | Some record =>
      match current with
      | None =>
          let deleted := restated record (fr_source record) fs_deleted now in
          (mkFreshness false fs_deleted (Some "file is missing on disk") None (Some deleted), <[path := deleted]> l)
      | Some c =>
          if negb (fp_sha256 (fr_baseline record) === fp_sha256 c) then
            let stale := restated record src_external_change fs_stale now in
            (mkFreshness false fs_stale (Some "disk content changed since baseline") (Some c) (Some stale),
             <[path := stale]> l)
          else
            let fresh := restated record (fr_source record)
                           (statusForRead (fr_readRange record) (fr_status record === fs_truncated)) now in
            (mkFreshness true (fr_status fresh) None (Some c) (Some fresh), <[path := fresh]> l)
      end
  end.

(** src/src/file-state/file-state-ledger.ts # FileStateLedger.markExternalChange *)
Definition markExternalChange (now : Z) (path : string) (l : FileStateLedger)
    : option FileStateRecord * FileStateLedger :=
  match l !! path with
  | None => (None, l)
  | Some record =>
      let next := restated record src_external_change fs_stale now in
      (Some next, <[path := next]> l)
  end.

(** ** The gate *)

Inductive EditOperation := op_patch | op_overwrite | op_create.
(** src/src/file-state/freshness-gate.ts # EditFreshnessRequirement *)
Record EditFreshnessRequirement := mkEditRequirement {
  er_path : string;
  er_operation : EditOperation;
  er_requiresFullBaseline : bool;
  er_allowsPartialBaseline : bool;
}.

#[export] Instance edit_operation_eq_dec : EqDecision EditOperation.
Proof. solve_decision. Defined.

(** src/src/file-state/freshness-gate.ts # blocked *)
Definition edit_blocked (status : FileStateStatus) (reason : string) (base : option FreshnessCheckResult)
    : FreshnessCheckResult :=
  mkFreshness false status (Some reason) (base ≫= fc_current) (base ≫= fc_record).

(** src/src/file-state/freshness-gate.ts # validateFreshnessForEdit *)
Definition validateFreshnessForEdit (now : Z) (requirement : EditFreshnessRequirement)
    (currentFingerprint : option FileFingerprint) (ledger : FileStateLedger)
    : FreshnessCheckResult * FileStateLedger :=
  if er_operation requirement === op_create then
    (match currentFingerprint with
     | Some _ => edit_blocked fs_changed "create operation targets an existing file" None
     | None => mkFreshness true fs_missing (Some "new file has no prior baseline") None None
     end, ledger)
  else
    let '(result, ledger) := checkFresh now (er_path requirement) currentFingerprint ledger in
    (if negb (fc_ok result) then result
     else match fc_record result with
     | None => edit_blocked fs_missing "no file state baseline" (Some result)
     | Some record =>
         let notFull := negb (fr_readRange record === range_full) in
         if fr_status record === fs_truncated then
           edit_blocked fs_truncated "truncated baseline cannot authorize edits" (Some result)
         else if er_requiresFullBaseline requirement && notFull then
           edit_blocked fs_partial "full-file baseline is required" (Some result)
         else if negb (er_allowsPartialBaseline requirement) && notFull then
           edit_blocked fs_partial "partial baseline is not allowed for this edit" (Some result)
         else if (er_operation requirement === op_overwrite) && notFull then
           edit_blocked fs_partial "overwrite requires a fresh full baseline" (Some result)
         else result
     end, ledger).

(** ** What the gate decides, over a whole history

    The calls that reach a ledger. *)
Inductive LedgerEvent :=
| ev_read (now : Z) (path : string) (range : FileReadRange) (content : string) (totalLines : option Z)
    (fingerprint : FileFingerprint) (truncated : bool)
| ev_write (now : Z) (path content : string) (fingerprint : FileFingerprint)
| ev_check (now : Z) (path : string) (current : option FileFingerprint)
| ev_external (now : Z) (path : string).

Definition ledger_step (l : FileStateLedger) (e : LedgerEvent) : FileStateLedger :=
  match e with
  | ev_read now path range content total fp truncated => (recordRead now path range content total fp truncated l).2
  | ev_write now path content fp => (recordAgentWrite now path content fp l).2
  | ev_check now path current => (checkFresh now path current l).2
  | ev_external now path => (markExternalChange now path l).2
  end.
Definition ledger_after (events : list LedgerEvent) : FileStateLedger := fold_left ledger_step events ∅.

(** What an edit may rely on: the digest of the last read or write of the
    path, how much of the file it covered, and whether its text was cut. *)
Record Baseline := mkBaseline { bl_sha256 : string; bl_range : FileReadRange; bl_cut : bool }.

(** A check that fails, or an external change, forgets the cut. *)
Definition baseline_step (path : string) (b : option Baseline) (e : LedgerEvent) : option Baseline :=
  match e with
  | ev_read _ p range _ _ fp truncated =>
      if p === path then Some (mkBaseline (fp_sha256 fp) range truncated) else b
  | ev_write _ p _ fp => if p === path then Some (mkBaseline (fp_sha256 fp) range_full false) else b
  | ev_check _ p current =>
      if p === path then
        b ← b;
        Some (mkBaseline (bl_sha256 b) (bl_range b)
                (bl_cut b && match current with Some c => bl_sha256 b === fp_sha256 c | None => false end))
      else b
  | ev_external _ p =>
      if p === path then b ← b; Some (mkBaseline (bl_sha256 b) (bl_range b) false) else b
  end.
Definition baseline_of (path : string) (events : list LedgerEvent) : option Baseline :=
  fold_left (baseline_step path) events None.

(** The record the ledger keeps for a baseline. *)
Definition record_baseline (r : FileStateRecord) : Baseline :=
  mkBaseline (fp_sha256 (fr_baseline r)) (fr_readRange r) (fr_status r === fs_truncated).

Lemma statusForRead_cut range truncated : (statusForRead range truncated === fs_truncated) = truncated.
Proof. by destruct truncated, range. Qed.

Lemma ledger_step_baseline path l e :
  record_baseline <$> ledger_step l e !! path = baseline_step path (record_baseline <$> l !! path) e.
Proof.
  destruct e as [now p range content total fp truncated|now p content fp|now p current|now p];
    cbn [ledger_step baseline_step recordRead recordAgentWrite snd].
  - destruct (p === path) eqn:E; reflect; [subst p; rewrite lookup_insert_eq|by rewrite lookup_insert_ne].
    cbn [fmap option_fmap option_map]. unfold record_baseline. cbn [fr_baseline fr_readRange fr_status].
    by rewrite statusForRead_cut.
  - destruct (p === path) eqn:E; reflect; [subst p; by rewrite lookup_insert_eq|by rewrite lookup_insert_ne].
  - unfold checkFresh. destruct (p === path) eqn:E; reflect.
    + subst p. destruct (l !! path) as [r|] eqn:El; [|cbn [snd]; by rewrite El].
      cbn [fmap option_fmap option_map mbind option_bind].
      destruct current as [c|]; [|cbn [snd]; rewrite lookup_insert_eq; cbn; by rewrite andb_false_r].
      cbn [record_baseline bl_sha256 bl_range bl_cut].
      destruct (fp_sha256 (fr_baseline r) === fp_sha256 c) eqn:Es; cbn [negb snd]; rewrite lookup_insert_eq;
        cbn [fmap option_fmap option_map]; unfold record_baseline; cbn [fr_baseline fr_readRange fr_status restated];
        rewrite ?statusForRead_cut, ?andb_true_r, ?andb_false_r; done.
    + destruct (l !! p) as [r|]; [|done].
      by destruct current as [c|]; [destruct (negb _)|]; cbn [snd]; rewrite lookup_insert_ne.
  - unfold markExternalChange. destruct (p === path) eqn:E; reflect.
    + subst p. destruct (l !! path) as [r|] eqn:El; [|cbn [snd]; by rewrite El]. cbn [snd]. by rewrite lookup_insert_eq.
    + destruct (l !! p) as [r|]; [|done]. cbn [snd]. by rewrite lookup_insert_ne.
Qed.

Lemma ledger_after_baseline path events :
  record_baseline <$> ledger_after events !! path = baseline_of path events.
Proof.
  unfold ledger_after, baseline_of.
  assert (record_baseline <$> (∅ : FileStateLedger) !! path = None) as H0 by by rewrite lookup_empty.
  revert H0. generalize (∅ : FileStateLedger), (None : option Baseline).
  induction events as [|e events IH]; intros l b Hb; [done|]. cbn [fold_left].
  apply IH. by rewrite ledger_step_baseline, Hb.
Qed.

(** Whether a baseline authorizes an edit of a file with this digest. *)
Definition authorizes (requirement : EditFreshnessRequirement) (c : FileFingerprint) (b : Baseline) : bool :=
  (bl_sha256 b === fp_sha256 c) && negb (bl_cut b) &&
  ((bl_range b === range_full) ||
   (negb (er_requiresFullBaseline requirement) && er_allowsPartialBaseline requirement &&
    (er_operation requirement === op_patch))).

Lemma validate_edit_ok now requirement current l :
  er_operation requirement <> op_create ->
  fc_ok (validateFreshnessForEdit now requirement current l).1 =
  match record_baseline <$> l !! er_path requirement, current with
  | Some b, Some c => authorizes requirement c b
  | _, _ => false
  end.
Proof.
  intros Hop. unfold validateFreshnessForEdit. rewrite (proj2 (same_neq _ _) Hop). unfold checkFresh.
  destruct (l !! er_path requirement) as [r|]; [|done]. cbn [fmap option_fmap option_map].
  destruct current as [c|]; [|done]. unfold authorizes, record_baseline. cbn [bl_sha256 bl_range bl_cut].
  destruct (fp_sha256 (fr_baseline r) === fp_sha256 c); [|done].
  cbn [negb andb fst fc_ok fc_record fr_readRange fr_status restated]. rewrite statusForRead_cut.
  destruct (fr_status r === fs_truncated); [done|]. cbn [negb andb].
  destruct (fr_readRange r === range_full); cbn [negb andb orb]; rewrite ?andb_false_r; [done|].
  rewrite !andb_true_r. destruct (er_requiresFullBaseline requirement), (er_allowsPartialBaseline requirement); try done.
  by destruct (er_operation requirement).
Qed.

(** The freshness gate over a whole run: after any history of reads, writes,
    checks and external changes, a patch or overwrite of a path is allowed exactly
    when the path has a baseline, the file on disk has the digest of the last read
    or write of that path, the text of that read was not cut off, and the read
    covered the whole file or the edit accepts a partial one; a creation is
    allowed exactly when there is no file. *)
Theorem edit_allowed_iff now requirement current events :
  fc_ok (validateFreshnessForEdit now requirement current (ledger_after events)).1 = true <->
  if decide (er_operation requirement = op_create) then current = None
  else exists b c, baseline_of (er_path requirement) events = Some b /\ current = Some c /\
       bl_sha256 b = fp_sha256 c /\ bl_cut b = false /\
       (bl_range b = range_full \/
        er_requiresFullBaseline requirement = false /\ er_allowsPartialBaseline requirement = true /\
        er_operation requirement = op_patch).
Proof.
  case_decide as Hop.
  { unfold validateFreshnessForEdit. rewrite Hop, same_refl. by destruct current. }
  rewrite validate_edit_ok, ledger_after_baseline by done. unfold authorizes.
  split.
  - destruct (baseline_of _ _) as [b|]; [|done]. destruct current as [c|]; [|done]. intros H. reflect.
    exists b, c. repeat split; try done. destruct H0 as [H0|H0]; reflect; [by left|right]. by repeat split.
  - intros (b & c & -> & -> & Hs & Hcut & Hr). rewrite Hs, same_refl, Hcut. cbn [negb andb].
    destruct Hr as [->|(-> & -> & ->)]; [by rewrite same_refl|]. by rewrite same_refl, orb_true_r.
Qed.

(** A read whose text was cut does not authorize an edit, until a check fails:
    once the file has been seen changed (or absent) and is back to what it was,
    the same read does. *)
Lemma cut_read_authorizes_after_failed_check now path content fp other :
  fp_sha256 fp <> fp_sha256 other ->
  let read := [ev_read now path range_full content None fp true] in
  let edit := mkEditRequirement path op_patch true false in
  fc_ok (validateFreshnessForEdit now edit (Some fp) (ledger_after read)).1 = false /\
  fc_ok (validateFreshnessForEdit now edit (Some fp) (ledger_after (read ++ [ev_check now path (Some other)]))).1 = true.
Proof.
  intros Hne read edit. rewrite !validate_edit_ok, !ledger_after_baseline by done.
  unfold baseline_of, authorizes, read. cbn [app fold_left baseline_step er_path edit].
  rewrite same_refl. cbn [mbind option_bind bl_cut bl_sha256 bl_range].
  rewrite (proj2 (same_neq _ _) Hne). cbn. by rewrite !same_refl.
Qed.

(** A file the run knows and that is gone is never authorized, neither for an
    overwrite nor for a patch: nothing but another read or write of the path
    changes that. *)
Lemma gone_file_never_authorized now requirement l :
  er_operation requirement <> op_create ->
  fc_ok (validateFreshnessForEdit now requirement None l).1 = false.
Proof. intros Hop. rewrite validate_edit_ok by done. by destruct (record_baseline <$> _). Qed.

(** ** Fingerprints and snapshots *)
Section FileState.
Context (sha256 : string -> string) (utf8 : string -> string).

(** src/src/file-state/file-fingerprint.ts # fingerprintContent

    A text is its UTF-8 bytes. *)
Definition fingerprintContent (content : string) (mtimeMs : Z) : FileFingerprint :=
  mkFingerprint (sha256 content) mtimeMs (Z.of_nat (String.length content)).

(** What [stat] says of an open handle or a path. *)
Record FileStat := mkStat { fst_isFile : bool; fst_size : Z; fst_mtimeMs : Z; fst_dev : Z; fst_ino : Z }.
(** The [code] of a system error. *)
Inductive FsError := ENOENT | other_error.

#[local] Instance fs_error_eq_dec : EqDecision FsError.
Proof. solve_decision. Defined.

(** src/src/file-state/file-fingerprint.ts # FileTargetInfo *)
Inductive FileTargetInfo := tgt_absent | tgt_unreadable | tgt_non_file | tgt_file (size : Z).

(** src/src/file-state/file-fingerprint.ts # inspectFileTarget *)
Definition inspectFileTarget (lstat : res FsError FileStat) : FileTargetInfo :=
  match lstat with
  | Ok stat => if fst_isFile stat then tgt_file (fst_size stat) else tgt_non_file
  | Throw ENOENT => tgt_absent
  | Throw other_error => tgt_unreadable
  end.

(** src/src/file-state/file-fingerprint.ts # FileSnapshotResult *)
Inductive FileSnapshotResult :=
| snap_absent | snap_unreadable | snap_non_file | snap_changed | snap_too_large | snap_budget_exceeded
| snap_file (content : string) (fingerprint : FileFingerprint).

(** The answers of the file system to one [readFileSnapshot]: what the handle
    says before the read, the bytes the read loop gets (at most the size),
    what the handle says after it and what the path then is. *)
Record FileAnswers := mkAnswers {
  an_open : res FsError FileStat;
  an_data : res FsError string;
  an_after : res FsError FileStat;
  an_pathAfter : res FsError FileStat;
}.

(** src/src/file-state/file-fingerprint.ts # readFileSnapshot

    [reserve] and the returned reservation are the byte budget's. *)
Definition readFileSnapshot (maxBytes : Z) (tryReserve : Z -> bool) (a : FileAnswers)
    : FileSnapshotResult * Z :=
  let failed (e : FsError) := (match e with ENOENT => snap_absent | other_error => snap_unreadable end, 0%Z) in
  match an_open a with
  | Throw e => failed e
  | Ok before =>
      if negb (fst_isFile before) then (snap_non_file, 0%Z)
      else if (maxBytes <? fst_size before)%Z then (snap_too_large, 0%Z)
      else if negb (tryReserve (fst_size before)) then (snap_budget_exceeded, 0%Z)
      else match an_data a with
      | Throw e => failed e
      | Ok buffer =>
          match an_after a, an_pathAfter a with
          | Throw e, _ | Ok _, Throw e => failed e
          | Ok after, Ok pathAfter =>
              if negb (fst_isFile pathAfter) then (snap_non_file, 0%Z)
              else if (maxBytes <? fst_size after)%Z then (snap_too_large, 0%Z)
              else if negb (Z.of_nat (String.length buffer) =? fst_size before)%Z
                   || negb (fst_size after =? fst_size before)%Z
                   || negb (fst_mtimeMs after =? fst_mtimeMs before)%Z
                   || negb (fst_dev pathAfter =? fst_dev after)%Z
                   || negb (fst_ino pathAfter =? fst_ino after)%Z
              then (snap_changed, 0%Z)
              else (snap_file (utf8 buffer) (fingerprintContent buffer (fst_mtimeMs after)), fst_size before)
          end
      end
  end.

(** ** The approval of a tool call *)

(** src/src/tools/tool-contract.ts # ToolStateRequirement *)
Inductive ToolStateRequirement := sr_none | sr_fresh_full_baseline | sr_fresh_full_baseline_if_existing.

(** src/src/file-state/contract-freshness.ts # ToolFreshnessApproval *)
Record ToolFreshnessApproval := mkApproval {
  ap_expectedBaseHashes : list (string * option string);
  ap_approvedContents : list (string * option string);
}.

(** src/src/file-state/contract-freshness.ts # ToolContractFreshnessResult *)
Inductive ToolContractFreshnessResult :=
| approved (approval : ToolFreshnessApproval)
| refused (path : string) (status : FileStateStatus) (reason : string).

(** A refusal on its way out. *)
Record Refusal := mkRefusal { rj_path : string; rj_status : FileStateStatus; rj_reason : string }.

(** src/src/file-state/contract-freshness.ts # MAX_FRESHNESS_TARGETS @24-24 *)
Definition MAX_FRESHNESS_TARGETS : nat := 128.
(** src/src/file-state/contract-freshness.ts # MAX_APPROVED_FILE_BYTES @25-25 *)
Definition MAX_APPROVED_FILE_BYTES : Z := 16 * 1024 * 1024.
(** src/src/file-state/contract-freshness.ts # MAX_APPROVED_TOTAL_BYTES @26-26 *)
Definition MAX_APPROVED_TOTAL_BYTES : Z := 32 * 1024 * 1024.

(** [segment.endsWith("[]")] and what is before it. *)
Definition array_key (segment : string) : option string :=
  let n := String.length segment in
  if (2 <=? n)%nat && (String.substring (n - 2) 2 segment === "[]")
  then Some (String.substring 0 (n - 2) segment) else None.

(** src/src/file-state/contract-freshness.ts # visitValuesAtParameterPath

    The values in the order of the visits; [found] is that there is one. *)
Fixpoint values_at (segments : list string) (value : jsval) : list jsval :=
  match segments with
  | [] => [value]
  | segment :: segments =>
      if negb (is_object value) then []
      else match array_key segment with
      | Some key =>
          match field key value with JArr items => flat_map (values_at segments) items | _ => [] end
      | None =>
          match field segment value with JUndef => [] | child => values_at segments child end
      end
  end.

(** src/src/file-state/contract-freshness.ts # safeDisplayPath *)
Definition safeDisplayPath (cwd parameterPath value canonicalPath base : string) : string :=
  if negb (isAbsolute value) && negb (String.prefix "../" (slashes value)) then value
  else
    let workspaceRelative := path_relative cwd base canonicalPath in
    if negb (workspaceRelative === "") && negb (String.prefix ".." workspaceRelative)
       && negb (isAbsolute workspaceRelative)
    then slashes workspaceRelative else parameterPath.

Section approval.
Context (cwd base : string).

Definition canonical_target (value : string) : string :=
  if isAbsolute value then path_resolve cwd [value] else path_resolve cwd [base; value].

(** One visit: the target of a value, added to the targets. *)
Definition add_target (firstParameter parameter : string) (targets : list (string * string)) (value : jsval)
    : res Refusal (list (string * string)) :=
  let invalid := mkRefusal parameter fs_missing ("path parameter " +:+ parameter +:+ " must be a non-empty string") in
  match value with
  | JStr value =>
      if trim value === "" then Throw invalid
      else
        let canonicalPath := canonical_target value in
        let targets := jset canonicalPath (safeDisplayPath cwd parameter value canonicalPath base) targets in
        if (MAX_FRESHNESS_TARGETS <? length targets)%nat then
          Throw (mkRefusal firstParameter fs_changed
            ("freshness target limit exceeded (" +:+ pretty (Z.of_nat (length targets)) +:+ "/128); split the operation"))
        else Ok targets
  | _ => Throw invalid
  end.

Fixpoint add_targets (firstParameter parameter : string) (values : list jsval) (targets : list (string * string))
    : res Refusal (list (string * string)) :=
  match values with
  | [] => Ok targets
  | value :: values =>
      targets ← add_target firstParameter parameter targets value;
      add_targets firstParameter parameter values targets
  end.

(** The loop over the contract's path parameters. *)
Fixpoint collect_targets (firstParameter : string) (parameters : list string) (params : jsval)
    (targets : list (string * string)) : res Refusal (list (string * string)) :=
  match parameters with
  | [] => Ok targets
  | parameter :: parameters =>
      let values := values_at (split_on "."%char parameter) params in
      targets ← add_targets firstParameter parameter values targets;
      if (length values =? 0)%nat
      then Throw (mkRefusal parameter fs_missing ("path parameter " +:+ parameter +:+ " is required"))
      else collect_targets firstParameter parameters params targets
  end.

(** The size inspection that precedes any allocation. *)
Fixpoint inspect_targets (lstat : string -> res FsError FileStat) (targets : list (string * string)) (totalBytes : Z)
    : res Refusal unit :=
  match targets with
  | [] => Ok tt
  | (canonicalPath, displayPath) :: targets =>
      match inspectFileTarget (lstat canonicalPath) with
      | tgt_non_file => Throw (mkRefusal displayPath fs_changed "target is not a regular file")
      | tgt_unreadable => Throw (mkRefusal displayPath fs_changed "target exists but cannot be read safely")
      | tgt_absent => inspect_targets lstat targets totalBytes
      | tgt_file size =>
          if (MAX_APPROVED_FILE_BYTES <? size)%Z then
            Throw (mkRefusal displayPath fs_changed
              ("freshness snapshot exceeds per-file byte budget (" +:+ pretty size +:+ "/"
               +:+ pretty MAX_APPROVED_FILE_BYTES +:+ "); split or narrow the operation"))
          else if (MAX_APPROVED_TOTAL_BYTES <? totalBytes + size)%Z then
            Throw (mkRefusal displayPath fs_changed
              ("freshness snapshots exceed total byte budget (" +:+ pretty (totalBytes + size)%Z +:+ "/"
               +:+ pretty MAX_APPROVED_TOTAL_BYTES +:+ "); split the operation"))
          else inspect_targets lstat targets (totalBytes + size)%Z
      end
  end.

(** The snapshots, with the bytes that the budget holds for the ones kept. *)
Fixpoint take_snapshots (answers : string -> FileAnswers) (targets : list (string * string)) (reserved : Z)
    : list (string * string * FileSnapshotResult) :=
  match targets with
  | [] => []
  | (canonicalPath, displayPath) :: targets =>
      let tryReserve (bytes : Z) := negb (MAX_APPROVED_TOTAL_BYTES <? reserved + bytes)%Z in
      let '(snapshot, kept) := readFileSnapshot MAX_APPROVED_FILE_BYTES tryReserve (answers canonicalPath) in
      (canonicalPath, displayPath, snapshot) :: take_snapshots answers targets (reserved + kept)%Z
  end.

Definition snapshot_refusal (snapshot : FileSnapshotResult) : option string :=
  match snapshot with
  | snap_file _ _ | snap_absent => None
  | snap_non_file => Some "target is not a regular file"
  | snap_changed => Some "target changed while collecting the freshness snapshot"
  | snap_too_large => Some "target exceeded the freshness snapshot byte budget while being read"
  | snap_budget_exceeded => Some "freshness snapshots exceeded the total byte budget while being read"
  | snap_unreadable => Some "target exists but cannot be read safely"
  end.
Definition snapshot_fingerprint (snapshot : FileSnapshotResult) : option FileFingerprint :=
  match snapshot with snap_file _ fingerprint => Some fingerprint | _ => None end.
Definition snapshot_content (snapshot : FileSnapshotResult) : option string :=
  match snapshot with snap_file content _ => Some content | _ => None end.

(** The operation the gate is asked about. *)
Definition edit_of (requirement : ToolStateRequirement) (canonicalPath : string)
    (current : option FileFingerprint) (ledger : FileStateLedger) : EditFreshnessRequirement :=
  mkEditRequirement canonicalPath
    (match requirement with
     | sr_fresh_full_baseline_if_existing =>
         match current, ledger !! canonicalPath with None, None => op_create | _, _ => op_overwrite end
     | _ => op_patch
     end) true false.

(** The loop over the snapshots. *)
Fixpoint approve_targets (now : Z) (requirement : ToolStateRequirement)
    (snapshots : list (string * string * FileSnapshotResult)) (approval : ToolFreshnessApproval)
    (ledger : FileStateLedger) : ToolContractFreshnessResult * FileStateLedger :=
  match snapshots with
  | [] => (approved approval, ledger)
  | (canonicalPath, displayPath, snapshot) :: snapshots =>
      match snapshot_refusal snapshot with
      | Some reason => (refused displayPath fs_changed reason, ledger)
      | None =>
          let current := snapshot_fingerprint snapshot in
          let '(result, ledger) :=
            validateFreshnessForEdit now (edit_of requirement canonicalPath current ledger) current ledger in
          if negb (fc_ok result) then
            (refused displayPath (fc_status result)
               (nullish (fc_reason result) "fresh full-file baseline is required"), ledger)
          else
            approve_targets now requirement snapshots
              (mkApproval
                 (jset canonicalPath (String.substring 0 16 ∘ fp_sha256 <$> current) (ap_expectedBaseHashes approval))
                 (jset canonicalPath (snapshot_content snapshot) (ap_approvedContents approval))) ledger
      end
  end.

(** src/src/file-state/contract-freshness.ts # validateToolContractFreshness

    [lstat] and [answers] are what the file system says while the targets are
    inspected, then read. *)
Definition validateToolContractFreshness (now : Z) (requirement : ToolStateRequirement) (parameters : list string)
    (lstat : string -> res FsError FileStat) (answers : string -> FileAnswers) (params : jsval)
    (ledger : FileStateLedger) : ToolContractFreshnessResult * FileStateLedger :=
  match requirement, parameters with
  | sr_none, _ => (approved (mkApproval [] []), ledger)
  | _, [] => (refused "path" fs_missing "freshness requirement declares no path parameters", ledger)
  | _, firstParameter :: _ =>
      match
        targets ← collect_targets firstParameter parameters params [];
        _ ← inspect_targets lstat targets 0;
        Ok targets
      with
      | Throw r => (refused (rj_path r) (rj_status r) (rj_reason r), ledger)
      | Ok targets =>
          approve_targets now requirement (take_snapshots answers targets 0) (mkApproval [] []) ledger
      end
  end.

(** *** What an approval rests on *)

Lemma add_target_Ok first parameter targets value targets' :
  add_target first parameter targets value = Ok targets' ->
  exists s d, value = JStr s /\ targets' = jset (canonical_target s) d targets.
Proof.
  unfold add_target. destruct value as [| | | |s| |]; try done.
  destruct (trim s === ""); [done|]. case_match; [done|]. intros [= <-]. by eexists s, _.
Qed.
Lemma add_targets_Ok first parameter values targets targets' :
  add_targets first parameter values targets = Ok targets' ->
  (forall v, v ∈ values -> exists s, v = JStr s /\ canonical_target s ∈ jkeys targets') /\
  (forall k, k ∈ jkeys targets -> k ∈ jkeys targets') /\
  (NoDup (jkeys targets) -> NoDup (jkeys targets')).
Proof.
  revert targets. induction values as [|v values IH]; intros targets H.
  { cbn in H. injection H as <-. split; [set_solver|done]. }
  cbn [add_targets] in H. apply res_bind_Ok in H as (t1 & (s & d & -> & ->)%add_target_Ok & H).
  apply IH in H as (H1 & H2 & H3). split_and!.
  - intros v [->|Hv]%elem_of_cons; [|by apply H1]. exists s. split; [done|].
    apply H2, elem_of_jkeys_jset. by left.
  - intros k Hk. apply H2, elem_of_jkeys_jset. by right.
  - intros Hnd. by apply H3, NoDup_jset.
Qed.
Lemma collect_targets_Ok first parameters params targets targets' :
  collect_targets first parameters params targets = Ok targets' ->
  (forall parameter v, parameter ∈ parameters -> v ∈ values_at (split_on "."%char parameter) params ->
     exists s, v = JStr s /\ canonical_target s ∈ jkeys targets') /\
  (forall k, k ∈ jkeys targets -> k ∈ jkeys targets') /\
  (NoDup (jkeys targets) -> NoDup (jkeys targets')).
Proof.
  revert targets. induction parameters as [|parameter parameters IH]; intros targets H.
  { cbn in H. injection H as <-. split; [set_solver|done]. }
  cbn [collect_targets] in H. apply res_bind_Ok in H as (t1 & (A1 & A2 & A3)%add_targets_Ok & H).
  case_match; [done|]. apply IH in H as (H1 & H2 & H3). split_and!; [|by auto|by auto].
  intros q v [->|Hq]%elem_of_cons Hv; [|by eapply H1]. destruct (A1 v Hv) as (s & -> & Hs). eauto.
Qed.

Lemma take_snapshots_elem answers targets reserved k :
  k ∈ jkeys targets -> exists d r, (k, d, (readFileSnapshot MAX_APPROVED_FILE_BYTES r (answers k)).1)
                                    ∈ take_snapshots answers targets reserved.
Proof.
  revert reserved. induction targets as [|[k' d] targets IH]; intros reserved Hk; [set_solver|].
  cbn [take_snapshots]. destruct (readFileSnapshot _ _ (answers k')) as [snapshot kept] eqn:E.
  apply elem_of_cons in Hk as [Hk|Hk].
  - cbn in Hk. subst k'. eexists d, _. rewrite E. left.
  - destruct (IH (reserved + kept)%Z Hk) as (d' & r & H). exists d', r. by right.
Qed.
Lemma take_snapshots_keys answers targets reserved :
  ((fun x => x.1.1) <$> take_snapshots answers targets reserved) = jkeys targets.
Proof.
  revert reserved. induction targets as [|[k d] targets IH]; intros reserved; [done|].
  cbn [take_snapshots]. destruct (readFileSnapshot _ _ _). rewrite fmap_cons, IH. done.
Qed.

(** What an approval states of a target. *)
Definition approved_target (requirement : ToolStateRequirement) (ledger : FileStateLedger) (path : string)
    (snapshot : FileSnapshotResult) (hash content : option string) : Prop :=
  match snapshot with
  | snap_absent => requirement = sr_fresh_full_baseline_if_existing /\ ledger !! path = None /\
                   hash = None /\ content = None
  | snap_file text fp =>
      hash = Some (String.substring 0 16 (fp_sha256 fp)) /\ content = Some text /\
      exists r, ledger !! path = Some r /\ record_baseline r = mkBaseline (fp_sha256 fp) range_full false
  | _ => False
  end.

Lemma validate_edit_other now requirement current l path :
  path <> er_path requirement -> (validateFreshnessForEdit now requirement current l).2 !! path = l !! path.
Proof.
  intros Hne. unfold validateFreshnessForEdit, checkFresh. cases; by rewrite lookup_insert_ne.
Qed.

Lemma evidence_admits now requirement path snapshot l :
  requirement <> sr_none -> snapshot_refusal snapshot = None ->
  fc_ok (validateFreshnessForEdit now (edit_of requirement path (snapshot_fingerprint snapshot) l)
           (snapshot_fingerprint snapshot) l).1 = true ->
  approved_target requirement l path snapshot
    (String.substring 0 16 ∘ fp_sha256 <$> snapshot_fingerprint snapshot) (snapshot_content snapshot).
Proof.
  intros Hreq Hsnap. destruct (decide (er_operation (edit_of requirement path (snapshot_fingerprint snapshot) l) = op_create)) as [Hop|Hop].
  - intros _. unfold edit_of in Hop. cbn [er_operation] in Hop. destruct requirement; try done.
    destruct snapshot; try done; cbn [snapshot_fingerprint] in Hop; destruct (l !! path) eqn:E; try done.
  - rewrite validate_edit_ok by done. cbn [er_path edit_of].
    destruct snapshot as [| | | | | |text fp]; try done; cbn [snapshot_fingerprint snapshot_content]; [by destruct (record_baseline <$> _)|].
    destruct (l !! path) as [r|] eqn:E; [|done]. cbn [fmap option_fmap option_map]. unfold authorizes.
    cbn [er_requiresFullBaseline negb andb]. rewrite orb_false_r. intros H. reflect.
    repeat split. exists r. split; [done|]. by destruct (record_baseline r); cbn in *; subst.
Qed.

Lemma approve_targets_Ok now requirement snapshots approval l approval' l' :
  requirement <> sr_none -> NoDup ((fun x => x.1.1) <$> snapshots) ->
  approve_targets now requirement snapshots approval l = (approved approval', l') ->
  (forall path d snapshot, (path, d, snapshot) ∈ snapshots ->
     exists hash content, jget path (ap_expectedBaseHashes approval') = Some hash /\
       jget path (ap_approvedContents approval') = Some content /\
       approved_target requirement l path snapshot hash content) /\
  (forall path, path ∉ ((fun x => x.1.1) <$> snapshots) ->
     jget path (ap_expectedBaseHashes approval') = jget path (ap_expectedBaseHashes approval) /\
     jget path (ap_approvedContents approval') = jget path (ap_approvedContents approval)).
Proof.
  intros Hreq. revert approval l. induction snapshots as [|[[path d] snapshot] snapshots IH]; intros approval l Hnd H.
  { cbn in H. injection H as <- <-. split; [set_solver|done]. }
  cbn [approve_targets] in H. destruct (snapshot_refusal snapshot) eqn:Hsnap; [done|].
  destruct (validateFreshnessForEdit _ _ _ _) as [result l1] eqn:Ev. destruct (fc_ok result) eqn:Ek; [|done].
  cbn [negb] in H. rewrite fmap_cons in Hnd. apply NoDup_cons in Hnd as [Hp Hnd]. cbn [fst] in Hp.
  destruct (IH _ _ Hnd H) as [H1 H2]. clear IH H. cbn [ap_expectedBaseHashes ap_approvedContents] in H2. split.
  - intros q e s [[= -> -> ->]|Hq]%elem_of_cons.
    + destruct (H2 path Hp) as [-> ->]. rewrite !jget_jset_eq. eexists _, _. split_and!; [done..|].
      eapply evidence_admits; [done|done|]. by rewrite Ev.
    + destruct (H1 q e s Hq) as (h & c & Hh & Hc & Ha). exists h, c. split_and!; [done..|].
      assert (l1 !! q = l !! q) as Hl.
      { change l1 with (result, l1).2. rewrite <- Ev. apply validate_edit_other. cbn. intros ->. apply Hp.
        apply list_elem_of_fmap. by exists (path, e, s). }
      destruct s; try done; cbn in Ha |- *; by rewrite <- Hl.
  - intros q Hq. rewrite fmap_cons in Hq. cbn [fst] in Hq. apply not_elem_of_cons in Hq as [Hq Hq'].
    destruct (H2 q Hq') as [-> ->]. by rewrite !jget_jset_ne.
Qed.
End approval.
End FileState.

(** A tool with a freshness requirement reaches its handler only over files it has
    the whole of: when the approval is granted, every value at the contract's path
    parameters is a path, and its target either does not exist, was never read or
    written in this run and may be created, or was last read or written whole and
    uncut with exactly the digest of the snapshot just taken; the approval binds
    that snapshot's text and the first sixteen digits of that digest, and nothing
    else, to the target. *)
Theorem approval_rests_on_baselines sha256 utf8 cwd base now requirement parameters lstat answers params events approval l' :
  requirement <> sr_none ->
  validateToolContractFreshness sha256 utf8 cwd base now requirement parameters lstat answers params
    (ledger_after events) = (approved approval, l') ->
  forall parameter v, parameter ∈ parameters -> v ∈ values_at (split_on "."%char parameter) params ->
  exists s hash content tryReserve, v = JStr s /\
    let path := canonical_target cwd base s in
    jget path (ap_expectedBaseHashes approval) = Some hash /\
    jget path (ap_approvedContents approval) = Some content /\
    match (readFileSnapshot sha256 utf8 MAX_APPROVED_FILE_BYTES tryReserve (answers path)).1 with
    | snap_absent => requirement = sr_fresh_full_baseline_if_existing /\ baseline_of path events = None /\
                     hash = None /\ content = None
    | snap_file text fp => baseline_of path events = Some (mkBaseline (fp_sha256 fp) range_full false) /\
                           hash = Some (String.substring 0 16 (fp_sha256 fp)) /\ content = Some text
    | _ => False
    end.
Proof.
  intros Hreq H parameter v Hp Hv. unfold validateToolContractFreshness in H.
  destruct requirement; try done; (destruct parameters as [|first parameters]; [by apply not_elem_of_nil in Hp|]);
  (destruct (collect_targets _ _ _ _ _ _) as [targets|] eqn:Et; [|done]);
  apply collect_targets_Ok in Et as (H1 & _ & H3); destruct (H1 _ _ Hp Hv) as (s & -> & Hs);
  cbn [mbind res_bind] in H; (destruct (inspect_targets _ _ _); [|done]);
  (apply approve_targets_Ok in H as [H _]; [|done|rewrite take_snapshots_keys; by apply H3, NoDup_nil_2]);
  destruct (take_snapshots_elem sha256 utf8 answers targets 0%Z _ Hs) as (d & r & Hin);
  destruct (H _ _ _ Hin) as (hash & content & Hh & Hc & Ha);
  exists s, hash, content, r; (split; [done|]); (split; [exact Hh|]); (split; [exact Hc|]);
  (destruct (readFileSnapshot _ _ _ _ _) as [snapshot kept]); cbn [fst] in *; unfold approved_target in Ha;
  rewrite <- ledger_after_baseline;
  (destruct snapshot as [| | | | | |text fp]; try done;
   [destruct Ha as (? & Hl & -> & ->); by rewrite Hl
   |destruct Ha as (-> & -> & rec & Hl & Hb); rewrite Hl; cbn [fmap option_fmap option_map]; by rewrite Hb]).
Qed.

(** A run that read [src/a.ts] whole, with the file still as read, and a tool
    call that also creates [b.ts]. *)
Definition stat_of (size : Z) : FileStat := mkStat true size 0 1 7.
Definition two_files (path : string) : FileAnswers :=
  if path === "/p/src/a.ts" then mkAnswers (Ok (stat_of 3)) (Ok "abc") (Ok (stat_of 3)) (Ok (stat_of 3))
  else mkAnswers (Throw ENOENT) (Throw ENOENT) (Throw ENOENT) (Throw ENOENT).

Lemma approval_rests_on_baselines_witness :
  let params := JObj [("path", JStr "src/a.ts"); ("edits", JArr [JObj [("path", JStr "b.ts")]])] in
  let events := [ev_read 1 "/p/src/a.ts" range_full "abc" None (mkFingerprint "abc" 0 3) false] in
  let check := validateToolContractFreshness (fun s => s) (fun s => s) "/" "/p" 2
    sr_fresh_full_baseline_if_existing ["path"; "edits[].path"]
    (fun path => an_open (two_files path)) two_files params (ledger_after events) in
  exists approval, check.1 = approved approval /\
  forall parameter v, parameter ∈ ["path"; "edits[].path"] -> v ∈ values_at (split_on "."%char parameter) params ->
  exists s hash content tryReserve, v = JStr s /\
    let path := canonical_target "/" "/p" s in
    jget path (ap_expectedBaseHashes approval) = Some hash /\
    jget path (ap_approvedContents approval) = Some content /\
    match (readFileSnapshot (fun s => s) (fun s => s) MAX_APPROVED_FILE_BYTES tryReserve (two_files path)).1 with
    | snap_absent => sr_fresh_full_baseline_if_existing = sr_fresh_full_baseline_if_existing /\
                     baseline_of path events = None /\ hash = None /\ content = None
    | snap_file text fp => baseline_of path events = Some (mkBaseline (fp_sha256 fp) range_full false) /\
                           hash = Some (String.substring 0 16 (fp_sha256 fp)) /\ content = Some text
    | _ => False
    end.
Proof.
  intros params events check.
  exists (mkApproval [("/p/src/a.ts", Some "abc"); ("/p/b.ts", None)] [("/p/src/a.ts", Some "abc"); ("/p/b.ts", None)]).
  assert (check.1 = approved (mkApproval [("/p/src/a.ts", Some "abc"); ("/p/b.ts", None)]
    [("/p/src/a.ts", Some "abc"); ("/p/b.ts", None)])) as Hc by (vm_compute; reflexivity).
  split; [exact Hc|].
  refine (approval_rests_on_baselines _ _ _ _ 2 _ _ _ _ _ _ _ check.2 _ _); [done|].
  rewrite <- Hc. apply surjective_pairing.
Defined.

(** ** The run's writes *)

(** src/src/file-state/runtime-file-state.ts # RuntimeFileStateContext *)
Record RuntimeFileStateContext := mkFileContext {
  rf_ledger : FileStateLedger;
  rf_writeGeneration : Z;
  rf_unmanagedWriteObserved : bool;
  rf_unmanagedWritePaths : gset string;
  rf_unmanagedWritesCovered : bool;
}.

(** src/src/file-state/runtime-file-state.ts # createRuntimeFileStateContext *)
Definition createRuntimeFileStateContext (ledger : FileStateLedger) : RuntimeFileStateContext :=
  mkFileContext ledger 0 false ∅ false.

(** src/src/file-state/runtime-file-state.ts # resetRuntimeFileStateLedger

    In place or anew, the state is the one of a new context. *)
Definition resetRuntimeFileStateLedger (ledger : FileStateLedger) (_ : RuntimeFileStateContext)
    : RuntimeFileStateContext := createRuntimeFileStateContext ledger.

(** src/src/file-state/runtime-file-state.ts # hasRuntimeUnmanagedWrites *)
Definition hasRuntimeUnmanagedWrites (context : RuntimeFileStateContext) : bool :=
  rf_unmanagedWriteObserved context.

(** src/src/file-state/runtime-file-state.ts # hasCoveredUnmanagedWrites *)
Definition hasCoveredUnmanagedWrites (context : RuntimeFileStateContext) : bool :=
  rf_unmanagedWritesCovered context && bool_decide (rf_unmanagedWritePaths context = ∅).

Section runtime.
Context (sha256 : string -> string) (cwd : string).

(** src/src/file-state/runtime-file-state.ts # recordVerificationCoverage *)
Definition recordVerificationCoverage (files : list string) (c : RuntimeFileStateContext) : RuntimeFileStateContext :=
  if bool_decide (files = []) || bool_decide (rf_unmanagedWritePaths c = ∅) then c
  else
    let left_over := fold_left (fun paths file =>
      if file === "" then paths else paths ∖ {[path_resolve cwd [file]]}) files (rf_unmanagedWritePaths c) in
    mkFileContext (rf_ledger c) (rf_writeGeneration c) (rf_unmanagedWriteObserved c) left_over
      (if bool_decide (left_over = ∅) then true else rf_unmanagedWritesCovered c).

(** src/src/file-state/runtime-file-state.ts # recordRuntimeUnmanagedWrite *)
Definition recordRuntimeUnmanagedWrite (c : RuntimeFileStateContext) : RuntimeFileStateContext :=
  mkFileContext (rf_ledger c) (rf_writeGeneration c + 1) true (rf_unmanagedWritePaths c) (rf_unmanagedWritesCovered c).

(** src/src/file-state/runtime-file-state.ts # recordRuntimeObservedWrites *)
Definition recordRuntimeObservedWrites (paths : list string) (c : RuntimeFileStateContext) : RuntimeFileStateContext :=
  let changed : gset string := list_to_set (map (fun path => path_resolve cwd [path]) paths) in
  if bool_decide (changed = ∅) then c
  else recordRuntimeUnmanagedWrite
         (mkFileContext (rf_ledger c) (rf_writeGeneration c) (rf_unmanagedWriteObserved c)
            (rf_unmanagedWritePaths c ∪ changed) false).

(** src/src/file-state/runtime-file-state.ts # recordRuntimeRollback *)
Definition recordRuntimeRollback (_ : list string) (c : RuntimeFileStateContext) : RuntimeFileStateContext :=
  mkFileContext (rf_ledger c) (rf_writeGeneration c + 1) (rf_unmanagedWriteObserved c) (rf_unmanagedWritePaths c)
    (rf_unmanagedWritesCovered c).

(** src/src/file-state/runtime-file-state.ts # recordRuntimeFileRead *)
Definition recordRuntimeFileRead (now : Z) (path : string) (range : FileReadRange) (content : string)
    (totalLines : option Z) (fingerprint : FileFingerprint) (truncated : bool) (c : RuntimeFileStateContext)
    : FileStateRecord * RuntimeFileStateContext :=
  let '(record, ledger) :=
    recordRead now (path_resolve cwd [path]) range content totalLines fingerprint truncated (rf_ledger c) in
  (record, mkFileContext ledger (rf_writeGeneration c) (rf_unmanagedWriteObserved c) (rf_unmanagedWritePaths c)
             (rf_unmanagedWritesCovered c)).

(** src/src/file-state/runtime-file-state.ts # recordRuntimeFileWrite *)
Definition recordRuntimeFileWrite (now : Z) (path content : string) (c : RuntimeFileStateContext)
    : FileStateRecord * RuntimeFileStateContext :=
  let '(record, ledger) :=
    recordAgentWrite now (path_resolve cwd [path]) content (fingerprintContent sha256 content 0) (rf_ledger c) in
  (record, mkFileContext ledger (rf_writeGeneration c + 1) (rf_unmanagedWriteObserved c) (rf_unmanagedWritePaths c)
             (rf_unmanagedWritesCovered c)).

(** The calls that reach the context of a run. *)
Inductive RuntimeEvent :=
| re_read (now : Z) (path : string) (range : FileReadRange) (content : string) (totalLines : option Z)
    (fingerprint : FileFingerprint) (truncated : bool)
| re_write (now : Z) (path content : string)
| re_observed (paths : list string)
| re_unmanaged
| re_rollback (paths : list string)
| re_covered (files : list string).

Definition runtime_step (c : RuntimeFileStateContext) (e : RuntimeEvent) : RuntimeFileStateContext :=
  match e with
  | re_read now path range content total fp truncated =>
      (recordRuntimeFileRead now path range content total fp truncated c).2
  | re_write now path content => (recordRuntimeFileWrite now path content c).2
  | re_observed paths => recordRuntimeObservedWrites paths c
  | re_unmanaged => recordRuntimeUnmanagedWrite c
  | re_rollback paths => recordRuntimeRollback paths c
  | re_covered files => recordVerificationCoverage files c
  end.
Definition runtime_after (events : list RuntimeEvent) (c : RuntimeFileStateContext) : RuntimeFileStateContext :=
  fold_left runtime_step events c.

(** Whether a write of [path] that the run observed still waits for a
    verification over it, and whether any such write was observed at all. *)
Definition awaits (path : string) (events : list RuntimeEvent) : bool :=
  fold_left (fun waiting e =>
    match e with
    | re_observed paths => waiting || bool_decide (path ∈ map (fun p => path_resolve cwd [p]) paths)
    | re_covered files =>
        waiting && negb (existsb (fun f => negb (f === "") && (path_resolve cwd [f] === path)) files)
    | _ => waiting
    end) events false.
Definition observes (events : list RuntimeEvent) : bool :=
  existsb (fun e => match e with re_observed (_ :: _) => true | _ => false end) events.

Lemma covered_paths files (paths : gset string) p :
  p ∈ fold_left (fun paths file => if file === "" then paths else paths ∖ {[path_resolve cwd [file]]}) files paths <->
  p ∈ paths /\ existsb (fun f => negb (f === "") && (path_resolve cwd [f] === p)) files = false.
Proof.
  revert paths. induction files as [|f files IH]; intros paths; cbn [fold_left existsb].
  { split; [by split|by intros [? _]]. }
  rewrite IH. destruct (f === ""); cbn [negb andb orb]; [done|].
  destruct (path_resolve cwd [f] === p) eqn:E; reflect; cbn [orb].
  - subst p. split; [intros [Hp _]|by intros [_ ?]]. apply elem_of_difference in Hp as [_ []]. by apply elem_of_singleton.
  - rewrite elem_of_difference, elem_of_singleton. naive_solver.
Qed.

Lemma observed_empty (paths : list string) :
  (list_to_set (map (fun p => path_resolve cwd [p]) paths) : gset string) = ∅ <-> paths = [].
Proof. destruct paths as [|p paths]; [done|]. split; [|done]. cbn. set_solver. Qed.

(** The two facts that a context keeps about the writes observed. *)
Definition tracks (c : RuntimeFileStateContext) (waiting : string -> bool) (any : bool) : Prop :=
  (forall p, p ∈ rf_unmanagedWritePaths c <-> waiting p = true) /\
  rf_unmanagedWritesCovered c = any && bool_decide (rf_unmanagedWritePaths c = ∅) /\
  (any = false -> rf_unmanagedWritePaths c = ∅).

Lemma tracks_step c waiting any e :
  tracks c waiting any ->
  tracks (runtime_step c e)
    (fun p => match e with
              | re_observed paths => waiting p || bool_decide (p ∈ map (fun p => path_resolve cwd [p]) paths)
              | re_covered files =>
                  waiting p && negb (existsb (fun f => negb (f === "") && (path_resolve cwd [f] === p)) files)
              | _ => waiting p
              end)
    (any || match e with re_observed (_ :: _) => true | _ => false end).
Proof.
  intros (Hw & Hc & Hany).
  destruct e as [now path range content total fp truncated|now path content|paths| |paths|files];
    try (unfold tracks; rewrite orb_false_r; exact (conj Hw (conj Hc Hany))).
  - cbn [runtime_step]. unfold recordRuntimeObservedWrites.
    destruct paths as [|q paths].
    { rewrite bool_decide_eq_true_2 by done. unfold tracks. cbn [map]. rewrite orb_false_r. split_and!; [|done..].
      intros p. rewrite Hw, bool_decide_eq_false_2 by apply not_elem_of_nil. by rewrite orb_false_r. }
    rewrite bool_decide_eq_false_2 by (rewrite observed_empty; done).
    unfold tracks, recordRuntimeUnmanagedWrite. cbn [rf_unmanagedWritePaths rf_unmanagedWritesCovered].
    rewrite orb_true_r. split_and!; [| |done].
    + intros p. rewrite elem_of_union, Hw, elem_of_list_to_set, orb_true_iff, bool_decide_eq_true. done.
    + rewrite bool_decide_eq_false_2; [done|]. cbn [map list_to_set]. set_solver.
  - cbn [runtime_step]. unfold recordVerificationCoverage. rewrite orb_false_r.
    destruct (bool_decide_reflect (files = [])) as [Hf|_]; cbn [orb].
    { rewrite Hf. unfold tracks. split_and!; [|exact Hc|exact Hany]. intros p. cbn [existsb]. by rewrite Hw, andb_true_r. }
    destruct (bool_decide_reflect (rf_unmanagedWritePaths c = ∅)) as [He|He].
    { unfold tracks. split_and!; [|by rewrite bool_decide_eq_true_2|exact Hany].
      intros p. rewrite Hw, andb_true_iff. split; [|by intros [? _]].
      intros Hp. apply Hw in Hp. rewrite He in Hp. by apply not_elem_of_empty in Hp. }
    unfold tracks. cbn [rf_unmanagedWritePaths rf_unmanagedWritesCovered]. split_and!.
    + intros p. rewrite covered_paths, Hw, andb_true_iff, negb_true_iff. done.
    + rewrite Hc, andb_false_r.
      assert (any = true) as -> by (destruct any; [done|by destruct He; apply Hany]).
      by case_bool_decide.
    + intros ->. by destruct He, Hany.
Qed.

Lemma runtime_after_tracks events l :
  tracks (runtime_after events (createRuntimeFileStateContext l)) (fun p => awaits p events) (observes events).
Proof.
  cut (forall c waiting any, tracks c waiting any ->
    tracks (runtime_after events c) (fun p => fold_left (fun waiting e =>
      match e with
      | re_observed paths => waiting || bool_decide (p ∈ map (fun p => path_resolve cwd [p]) paths)
      | re_covered files =>
          waiting && negb (existsb (fun f => negb (f === "") && (path_resolve cwd [f] === p)) files)
      | _ => waiting
      end) events (waiting p)) (any || observes events)).
  { intros H. apply (H _ (fun _ => false) false). unfold tracks. cbn. by split_and!. }
  induction events as [|e events IH]; intros c waiting any H; [by rewrite orb_false_r|].
  specialize (IH _ _ _ (tracks_step _ _ _ e H)). rewrite <- orb_assoc in IH. exact IH.
Qed.

Lemma has_covered_iff c waiting any :
  tracks c waiting any -> hasCoveredUnmanagedWrites c = true <-> any = true /\ forall p, waiting p = false.
Proof.
  intros (Hw & Hc & Hany). unfold hasCoveredUnmanagedWrites. rewrite Hc, !andb_true_iff, bool_decide_eq_true.
  split.
  - intros [[-> He] _]. split; [done|]. intros p. destruct (waiting p) eqn:E; [|done].
    apply Hw in E. rewrite He in E. by apply not_elem_of_empty in E.
  - intros [-> H]. assert (rf_unmanagedWritePaths c = ∅) as He; [|done].
    apply leibniz_equiv, set_equiv. intros p. rewrite Hw, H. split; [done|by intros ?%not_elem_of_empty].
Qed.
End runtime.

(** The completion gate may drop the transaction binding exactly when the writes
    seen outside the managed tools were verified: over any history of a run, its
    unmanaged writes count as covered if and only if some write was observed at a
    known path and every path so observed was among the files of a passing
    verification that came after its last observation. *)
Theorem covered_iff_verified sha256 cwd ledger events :
  hasCoveredUnmanagedWrites (runtime_after sha256 cwd events (createRuntimeFileStateContext ledger)) = true <->
  observes events = true /\ forall path, awaits cwd path events = false.
Proof. eapply has_covered_iff, runtime_after_tracks. Qed.

(** Generations: every write, observed or managed, and every rollback makes a
    new one, and none is ever reused. *)
Definition makes_generation (e : RuntimeEvent) : bool :=
  match e with
  | re_write _ _ _ | re_observed (_ :: _) | re_unmanaged | re_rollback _ => true
  | _ => false
  end.
Lemma generation_counts sha256 cwd events c :
  rf_writeGeneration (runtime_after sha256 cwd events c) =
  (rf_writeGeneration c + Z.of_nat (count_where makes_generation events))%Z.
Proof.
  revert c. induction events as [|e events IH]; intros c; [cbn; lia|].
  unfold runtime_after in *. cbn [fold_left]. rewrite IH, count_where_cons.
  assert (rf_writeGeneration (runtime_step sha256 cwd c e) =
          (rf_writeGeneration c + if makes_generation e then 1 else 0)%Z) as ->.
  { destruct e as [| |paths| | |files]; cbn [runtime_step makes_generation]; try done.
    - symmetry. apply Z.add_0_r.
    - unfold recordRuntimeObservedWrites. destruct paths as [|p paths].
      + rewrite bool_decide_eq_true_2 by done. by rewrite Z.add_0_r.
      + by rewrite bool_decide_eq_false_2 by (rewrite observed_empty; done).
    - unfold recordVerificationCoverage. rewrite Z.add_0_r. by destruct (_ || _). }
  destruct (makes_generation e); lia.
Qed.

(** A write whose paths are not known makes a new generation, yet leaves the
    earlier coverage standing. *)
Lemma unknown_write_stays_covered c :
  hasCoveredUnmanagedWrites (recordRuntimeUnmanagedWrite c) = hasCoveredUnmanagedWrites c /\
  rf_writeGeneration (recordRuntimeUnmanagedWrite c) = (rf_writeGeneration c + 1)%Z.
Proof. done. Qed.
