(* ===== verification/PatchTx.v ===== *)
(** Patch transactions: how a file tool changes the workspace.

    Models [src/src/agent/patch-transaction.ts] over [Transaction.v]: the
    forbidden and boundary checks, the state machine of a managed transaction
    (propose, write to temporary files, verify, move into place, roll back), its
    registry, and the commit history that verification evidence is bound to.

    Other processes are part of the model: [others n] is what they do to the
    file system before the [n]-th system call of the run, and it may be
    anything.  [wd_refuses] is where the kernel refuses a new directory or the
    move of a file, and [wd_io] where reading, writing and removing files fail,
    a write possibly half-way ([Transaction.v]); directories are created as
    needed.  A rollback of snapshots takes a system call per step as well and
    stops at the first that fails.  Paths relative to the
    root of a transaction are represented by the absolute paths they resolve
    to, as there.  Sentences of errors are represented by what they report, time
    stamps are left out, and the verification callback keeps its contract: it
    does not change the transaction. *)
From Stdlib Require Import Ascii.
From S2P Require Import Prelude Paths Regex PathPattern Permission Effects Transaction Evidence FileState.
From stdpp Require Import pretty.
Open Scope string_scope.
Open Scope list_scope.

(** ** The file system *)

Inductive PathKind := pk_file | pk_directory | pk_symlink | pk_special.

Record World := mkWorld {
  wd_disk : Disk;
  wd_kind : string -> res FsError PathKind;      (* a path that is no regular file *)
  wd_real : string -> res FsError string;        (* [realpathSync] *)
  wd_io : IoFaults;
  wd_refuses : string -> bool;
}.
Definition wd_unreadable (w : World) : string -> bool := io_unreadable (wd_io w).

Definition files_of (w : World) : Files := dk_files (wd_disk w).
Definition with_files (files : Files) (w : World) : World :=
  mkWorld (mkDisk files (dk_transactions (wd_disk w))) (wd_kind w) (wd_real w) (wd_io w) (wd_refuses w).
Lemma with_files_id w : with_files (files_of w) w = w.
Proof. by destruct w as [[]]. Qed.
Definition without_special (p : string) (w : World) : World :=
  mkWorld (wd_disk w) (fun q => if q === p then Throw ENOENT else wd_kind w q) (wd_real w) (wd_io w) (wd_refuses w).
Definition with_disk (d : Disk) (w : World) : World :=
  mkWorld d (wd_kind w) (wd_real w) (wd_io w) (wd_refuses w).

(** ** Data *)

(** src/src/agent/patch-transaction.ts # PatchState *)
Inductive PatchStatus := ps_proposed | ps_applied_to_temp | ps_verified | ps_committed | ps_rolled_back.

(** The states of [FileHashProbe]. *)
Inductive HashState := hs_absent | hs_unreadable | hs_non_file | hs_file.

#[export] Instance path_kind_eq_dec : EqDecision PathKind.
Proof. solve_decision. Defined.
#[export] Instance patch_status_eq_dec : EqDecision PatchStatus.
Proof. solve_decision. Defined.
#[export] Instance hash_state_eq_dec : EqDecision HashState.
Proof. solve_decision. Defined.

(** src/src/agent/patch-transaction.ts # VALID_TRANSITIONS *)
Definition VALID_TRANSITIONS (s : PatchStatus) : list PatchStatus :=
  match s with
  | ps_proposed => [ps_applied_to_temp; ps_rolled_back]
  | ps_applied_to_temp => [ps_verified; ps_rolled_back]
  | ps_verified => [ps_committed; ps_rolled_back]
  | ps_committed => [ps_rolled_back]
  | ps_rolled_back => []
  end.

(** Why a path may not be written. *)
Inductive ForbiddenReason :=
| fb_no_root
| fb_symlink (rel : string)
| fb_resolves_outside
| fb_unresolvable
| fb_not_under_root
| fb_outside (path : string)
| fb_runtime (rel : string)
| fb_secret (rel : string).

(** src/src/agent/patch-transaction.ts # HashCheckResult *)
Record HashCheckResult := mkHashCheck {
  hc_match : bool; hc_expected : option string; hc_actual : option string; hc_actualState : HashState }.

(** The errors of the file, [PatchFreshnessConflictError] and
    [PatchPathConflictError] among them. *)
Inductive PatchError :=
| PatchFreshnessConflictError (path : string) (expected actual : option string) (actualState : HashState)
    (committedCount totalCount : nat)
| PatchPathConflictError (path : string) (reason : ForbiddenReason) (committedCount totalCount : nat)
| e_transition (current next : PatchStatus)
| e_no_files
| e_forbidden (path : string) (reason : ForbiddenReason)
| e_temp_missing (path : string)
| e_system (code : FsError)
| e_commit (cause : PatchError) (committedCount totalCount : nat)
| e_verify (message : string)
| e_gone.

(** src/src/agent/patch-transaction.ts # PatchTransaction *)
Record PatchTransaction := mkPatch {
  pa_txId : string;
  pa_baseHash : option string;
  pa_diff : string;
  pa_scope : list string;
  pa_verification : list VerificationKind;
  pa_forbiddenCheck : option ForbiddenReason;
  pa_fileTransaction : FileTransaction;
}.

(** src/src/agent/patch-transaction.ts # ManagedFileEntry *)
Record ManagedFileEntry := mkEntryFile {
  me_relativePath : string;
  me_absolutePath : string;
  me_oldContent : option string;
  me_newContent : string;
  me_expectedBaseHash : option string;
  me_tempPath : option string;
}.

(** Why a transaction was rolled back. *)
Inductive RollbackReason := rr_text (s : string) | rr_error (e : PatchError).

(** src/src/agent/patch-transaction.ts # ManagedPatchTransaction *)
Record ManagedPatchTransaction := mkManaged {
  mp_txId : string;
  mp_state : PatchStatus;
  mp_patch : PatchTransaction;
  mp_files : list ManagedFileEntry;
  mp_cwd : string;
  mp_rollbackReason : option RollbackReason;
}.

(** src/src/agent/patch-transaction.ts # ActivePatchContext *)
Record ActivePatchContext := mkActivePatch {
  ax_scope : list string; ax_verification : list VerificationKind; ax_nodeId : string }.

(** src/src/agent/patch-transaction.ts # CommittedTransactionEvidenceState *)
Record CommittedTransactionEvidenceState := mkCommitHistory {
  ch_stateId : string; ch_transactionCount : Z; ch_latestTransactionId : option string }.

(** src/src/agent/patch-transaction.ts # emptyCommittedTransactionEvidenceState *)
Definition emptyCommittedTransactionEvidenceState : CommittedTransactionEvidenceState :=
  mkCommitHistory "txstate_empty" 0 None.

(** A run: the file system, how many system calls it made, the transaction
    objects and which of them are registered, the commit history, the file state
    of the run and its active patch context. *)
Record Run := mkRun {
  rn_world : World;
  rn_calls : nat;
  rn_objects : gmap string ManagedPatchTransaction;
  rn_registry : list string;
  rn_evidence : CommittedTransactionEvidenceState;
  rn_fileState : RuntimeFileStateContext;
  rn_active : option ActivePatchContext;
}.

Definition with_world (w : World) (n : nat) (r : Run) : Run :=
  mkRun w n (rn_objects r) (rn_registry r) (rn_evidence r) (rn_fileState r) (rn_active r).
Definition with_object (txId : string) (m : ManagedPatchTransaction) (r : Run) : Run :=
  mkRun (rn_world r) (rn_calls r) (<[txId := m]> (rn_objects r)) (rn_registry r) (rn_evidence r)
    (rn_fileState r) (rn_active r).
Definition with_registry (ids : list string) (r : Run) : Run :=
  mkRun (rn_world r) (rn_calls r) (rn_objects r) ids (rn_evidence r) (rn_fileState r) (rn_active r).
Definition with_evidence (e : CommittedTransactionEvidenceState) (r : Run) : Run :=
  mkRun (rn_world r) (rn_calls r) (rn_objects r) (rn_registry r) e (rn_fileState r) (rn_active r).
Definition with_fileState (c : RuntimeFileStateContext) (r : Run) : Run :=
  mkRun (rn_world r) (rn_calls r) (rn_objects r) (rn_registry r) (rn_evidence r) c (rn_active r).
Definition with_active (a : option ActivePatchContext) (r : Run) : Run :=
  mkRun (rn_world r) (rn_calls r) (rn_objects r) (rn_registry r) (rn_evidence r) (rn_fileState r) a.

Definition run_files (r : Run) : Files := files_of (rn_world r).

#[local] Abbreviation Run_ := (Effect Run PatchError).

(** src/src/agent/patch-transaction.ts # setActivePatchContext *)
Definition setActivePatchContext (opts : ActivePatchContext) : Run_ unit := modify (with_active (Some opts)).
(** src/src/agent/patch-transaction.ts # getActivePatchContext *)
Definition getActivePatchContext : Run_ (option ActivePatchContext) := r ← read; mret (rn_active r).
(** src/src/agent/patch-transaction.ts # clearActivePatchContext *)
Definition clearActivePatchContext : Run_ unit := modify (with_active None).

(** src/src/agent/patch-transaction.ts # getManagedTransaction *)
Definition getManagedTransaction (txId : string) (r : Run) : option ManagedPatchTransaction :=
  if includes (rn_registry r) txId then rn_objects r !! txId else None.
(** src/src/agent/patch-transaction.ts # getAllManagedTransactions *)
Definition getAllManagedTransactions (r : Run) : list ManagedPatchTransaction :=
  omap (fun txId => rn_objects r !! txId) (rn_registry r).
(** src/src/agent/patch-transaction.ts # clearTransactionRegistry *)
Definition clearTransactionRegistry : Run_ unit :=
  modify (with_registry [] ∘ with_evidence emptyCommittedTransactionEvidenceState).

(** ** Forbidden files *)

(** src/src/agent/patch-transaction.ts # FORBIDDEN_PREFIXES @48-54 *)
Definition FORBIDDEN_PREFIXES : list string := [".git/"; ".orcana/"; "node_modules/"; ".codegraph/"; ".wolf/"].
(** src/src/agent/patch-transaction.ts # FORBIDDEN_EXACT @56-60 *)
Definition FORBIDDEN_EXACT : list string := [".gitignore"; ".gitattributes"; ".gitmodules"].

Definition drop_dot_slash (s : string) : string :=
  if startsWith s "./" then String.substring 2 (String.length s - 2) s else s.

(** src/src/agent/patch-transaction.ts # isRuntimeInternal *)
Definition isRuntimeInternal (path : string) : bool :=
  let normalized := lower (drop_dot_slash (slashes path)) in
  includes FORBIDDEN_EXACT normalized || existsb (startsWith normalized) FORBIDDEN_PREFIXES.

(** [/^[A-Za-z]:/.test(rel)] *)
Definition drive_path (rel : string) : bool :=
  match rel with
  | String c (String d _) => (in_range 65 90 c || in_range 97 122 c) && (d === ":"%char)
  | _ => false
  end.

Section PatchTx.
Context (sha256 utf8 : string -> string) (process_cwd : string) (others : nat -> World -> World).

(** src/src/agent/patch-transaction.ts # isOutsideRoot *)
Definition isOutsideRoot (absolutePath cwd : string) : bool :=
  let rel := path_relative process_cwd cwd absolutePath in
  if rel === "" then false else startsWith rel ".." || startsWith rel "/" || drive_path rel.

(** *** System calls *)

Definition sys {A} (f : World -> A * World) : Run_ A := fun r =>
  let '(a, w) := f (others (rn_calls r) (rn_world r)) in
  (Ok a, with_world w (S (rn_calls r)) r).

Definition lstatSync (p : string) : Run_ (res FsError PathKind) :=
  sys (fun w => (match files_of w !! p with Some _ => Ok pk_file | None => wd_kind w p end, w)).
Definition realpathSync (p : string) : Run_ (res FsError string) := sys (fun w => (wd_real w p, w)).
Definition readFileSync (p : string) : Run_ (res FsError string) :=
  sys (fun w => (match files_of w !! p with
                 | Some c => if wd_unreadable w p then Throw other_error else Ok (utf8 c)
                 | None => match wd_kind w p with Throw e => Throw e | Ok _ => Throw other_error end
                 end, w)).
Definition existsSync (p : string) : Run_ bool :=
  sys (fun w => (match files_of w !! p with
                 | Some _ => true
                 | None => match wd_kind w p with Ok _ => true | Throw _ => false end
                 end, w)).
(** [undefined], or the error that is thrown. *)
Definition mkdirSync (p : string) : Run_ (option FsError) :=
  sys (fun w => (if wd_refuses w p then Some other_error else None, w)).
Definition writeFileSync (p content : string) : Run_ (option FsError) :=
  sys (fun w => let '(ok, files) := put_file (wd_io w) p content (files_of w) in
                (if ok then None else Some other_error, with_files files w)).
Definition renameSync (from to : string) : Run_ (option FsError) :=
  sys (fun w => match files_of w !! from with
                | None => (Some ENOENT, w)
                | Some c => if wd_refuses w to then (Some other_error, w)
                            else (None, with_files (<[to := c]> (delete from (files_of w))) w)
                end).
(** [rmSync(path, { force })], which does not remove directories. *)
Definition rmSync (p : string) : Run_ (option FsError) :=
  sys (fun w => match files_of w !! p, wd_kind w p with
                | Some _, _ => if io_undeletable (wd_io w) p then (Some other_error, w)
                               else (None, with_files (delete p (files_of w)) w)
                | None, Throw _ => (None, w)
                | None, Ok kind => if (kind === pk_directory) || io_undeletable (wd_io w) p then (Some other_error, w)
                                   else (None, without_special p w)
                end).
Definition below (dir p : string) : bool := startsWith p (dir +:+ "/").
(** [rmSync(dir, { recursive, force })], which does nothing to a missing one. *)
Definition rmTree (dir : string) : Run_ (option FsError) :=
  sys (fun w => if wd_refuses w dir then (Some other_error, w)
                else (None, with_files (filter (fun kv => below dir kv.1 = false) (files_of w)) w)).

(** [existsSync] of a directory. *)
Definition existsTree (dir : string) : Run_ bool :=
  sys (fun w => (existsb (fun kv => below dir kv.1) (map_to_list (files_of w))
                 || match wd_kind w dir with Ok _ => true | Throw _ => false end, w)).

(** An uncaught system error. *)
Definition or_throw (m : Run_ (option FsError)) : Run_ unit :=
  e ← m; match e with Some e => lift (Throw (e_system e)) | None => mret tt end.

(** *** Base hashes *)

(** src/src/agent/patch-transaction.ts # computeBaseHash *)
Definition computeBaseHash (content : string) : string := String.substring 0 16 (sha256 content).

(** src/src/agent/patch-transaction.ts # probeFileHash *)
Definition probeFileHash (path : string) : Run_ (HashState * option string) :=
  stat ← lstatSync path;
  match stat with
  | Throw ENOENT => mret (hs_absent, None)
  | Throw other_error => mret (hs_unreadable, None)
  | Ok kind =>
      if negb (kind === pk_file) then mret (hs_non_file, None)
      else
        content ← readFileSync path;
        match content with
        | Ok content => mret (hs_file, Some (computeBaseHash content))
        | Throw ENOENT => mret (hs_absent, None)
        | Throw other_error => mret (hs_unreadable, None)
        end
  end.

(** src/src/agent/patch-transaction.ts # readFileHash *)
Definition readFileHash (path : string) : Run_ (option string) :=
  probe ← probeFileHash path;
  mret (match probe with (hs_file, hash) => hash | _ => None end).

(** src/src/agent/patch-transaction.ts # checkBaseHash *)
Definition checkBaseHash (path : string) (expectedHash : option string) : Run_ HashCheckResult :=
  probe ← probeFileHash path;
  let '(state, actual) := probe in
  mret (match expectedHash with
        | None => mkHashCheck (state === hs_absent) None actual state
        | Some expected =>
            if negb (state === hs_file) then mkHashCheck false (Some expected) None state
            else mkHashCheck (actual === Some expected) (Some expected) actual state
        end).

(** *** The resolved boundary *)

(** src/src/agent/patch-transaction.ts # ResolvedBoundaryCache *)
Record ResolvedBoundaryCache := mkBoundary {
  bc_root : string; bc_rootReal : string; bc_safeExistingPaths : gset string }.

(** src/src/agent/patch-transaction.ts # createResolvedBoundaryCache *)
Definition createResolvedBoundaryCache (cwd : string) : Run_ (option ResolvedBoundaryCache) :=
  let root := path_resolve process_cwd [cwd] in
  real ← realpathSync root;
  mret (match real with Ok real => Some (mkBoundary root real {[root]}) | Throw _ => None end).

(** The walk from the target to the root; [up] are the segments of the cursor,
    the last first. *)
Fixpoint walk_up (cache : ResolvedBoundaryCache) (cwd : string) (up : list string) (depth : nat)
    (verifiedExisting : list string) : Run_ (option ForbiddenReason * list string) :=
  let cursor := abs_path (rev up) in
  let wasCached := bool_decide (cursor ∈ bc_safeExistingPaths cache) in
  let go_on (verified : list string) : Run_ (option ForbiddenReason * list string) :=
    if cursor === cwd then mret (None, verified)
    else match up with
         | [] => mret (Some fb_not_under_root, verified)
         | _ :: up => walk_up cache cwd up (S depth) verified
         end in
  stat ← lstatSync cursor;
  match stat with
  | Throw ENOENT => go_on verifiedExisting
  | Throw other_error => mret (Some fb_unresolvable, verifiedExisting)
  | Ok kind =>
      if negb (cursor === cwd) && (kind === pk_symlink) then
        mret (Some (fb_symlink (slashes (path_relative process_cwd cwd cursor))), verifiedExisting)
      else
        real ← realpathSync cursor;
        match real with
        | Throw ENOENT => go_on verifiedExisting
        | Throw other_error => mret (Some fb_unresolvable, verifiedExisting)
        | Ok real =>
            if isOutsideRoot real (bc_rootReal cache) then mret (Some fb_resolves_outside, verifiedExisting)
            else if wasCached && (1 <=? depth)%nat then mret (None, verifiedExisting ++ [cursor])
            else go_on (verifiedExisting ++ [cursor])
        end
  end.

(** src/src/agent/patch-transaction.ts # checkResolvedBoundary

    The target is given by its segments.  With the answer comes the cache
    supplied, updated. *)
Definition checkResolvedBoundary (absolute : list string) (cwd : string)
    (suppliedCache : option ResolvedBoundaryCache) : Run_ (option ForbiddenReason * option ResolvedBoundaryCache) :=
  let supplied := match suppliedCache with Some c => bc_root c === cwd | None => false end in
  cache ← match suppliedCache with
          | Some c => if bc_root c === cwd then mret (Some c) else createResolvedBoundaryCache cwd
          | None => createResolvedBoundaryCache cwd
          end;
  match cache with
  | None => mret (Some fb_no_root, suppliedCache)
  | Some cache =>
      answer ← walk_up cache cwd (rev absolute) 0 [];
      mret (answer.1,
            match answer.1 with
            | None =>
                if supplied then
                  Some (mkBoundary (bc_root cache) (bc_rootReal cache)
                          (bc_safeExistingPaths cache ∪ list_to_set answer.2))
                else suppliedCache
            | Some _ => suppliedCache
            end)
  end.

(** src/src/agent/patch-transaction.ts # checkForbiddenFileWithCache *)
Definition checkForbiddenFileWithCache (path cwd : string) (boundaryCache : option ResolvedBoundaryCache)
    : Run_ (option ForbiddenReason * option ResolvedBoundaryCache) :=
  let absolute := path_resolve process_cwd [cwd; path] in
  let root := path_resolve process_cwd [cwd] in
  if isOutsideRoot absolute root then mret (Some (fb_outside path), boundaryCache)
  else
    boundary ← checkResolvedBoundary (resolve_segs process_cwd [cwd; path]) root boundaryCache;
    mret (match boundary.1 with
          | Some reason => (Some reason, boundary.2)
          | None =>
              let rel := slashes (path_relative process_cwd root absolute) in
              if isRuntimeInternal rel then (Some (fb_runtime rel), boundary.2)
              else if existsb (fun p => RegExp_test (literal p.1 p.2) (lower rel)) Forbidden.FORBIDDEN_SECRET_FILES
              then (Some (fb_secret rel), boundary.2)
              else (None, boundary.2)
          end).

(** src/src/agent/patch-transaction.ts # checkForbiddenFile *)
Definition checkForbiddenFile (path cwd : string) : Run_ (option ForbiddenReason) :=
  answer ← checkForbiddenFileWithCache path cwd None; mret answer.1.

(** ** Diffs *)

(** src/src/agent/patch-transaction.ts # SimpleDiff *)
Record SimpleDiff := mkDiff {
  df_header : string; df_added : Z; df_removed : Z; df_unchanged : Z; df_hunks : list string }.

Definition newline : string := String (ascii_of_nat 10) "".

(** [splitLines]: the lines, without the empty one after a final newline. *)
Definition splitLines (s : string) : list string :=
  let lines := split_on (ascii_of_nat 10) s in
  if last lines === Some "" then removelast lines else lines.

Definition count_lines (p : string -> bool) (lines : list string) : Z := Z.of_nat (count_where p lines).

(** src/src/agent/patch-transaction.ts # generateLineDiff *)
Definition generateLineDiff (oldContent : option string) (newContent path : string) : SimpleDiff :=
  let oldLines := match oldContent with None => [] | Some c => splitLines c end in
  let newLines := splitLines newContent in
  let added := count_lines (fun l => negb (includes oldLines l)) newLines in
  let unchanged := count_lines (fun l => includes oldLines l) newLines in
  let removed := count_lines (fun l => negb (includes newLines l)) oldLines in
  let len (s : string) := Z.of_nat (String.length s) in
  let show (n : Z) : string := pretty n in
  let action :=
    match oldContent with
    | None => "创建"
    | Some old =>
        let d := (len newContent - len old)%Z in
        if (len old <? len newContent)%Z then "修改 (+" +:+ show d +:+ " chars)"
        else "修改 (" +:+ show d +:+ " chars)"
    end in
  mkDiff
    (match oldContent with
     | None => "--- /dev/null" +:+ newline +:+ "+++ " +:+ path +:+ newline
     | Some _ => "--- " +:+ path +:+ " (base)" +:+ newline +:+ "+++ " +:+ path +:+ " (patch)" +:+ newline
     end)
    added removed unchanged
    ["@@ " +:+ action +:+ ": +" +:+ show added +:+ " -" +:+ show removed +:+ " (" +:+ show unchanged +:+ " unchanged) @@";
     match oldContent with
     | None => "新建文件, " +:+ show (Z.of_nat (length newLines)) +:+ " 行"
     | Some _ => show (Z.of_nat (length oldLines)) +:+ " → " +:+ show (Z.of_nat (length newLines)) +:+ " 行"
     end].

(** src/src/agent/patch-transaction.ts # formatDiff *)
Definition formatDiff (diff : SimpleDiff) : string :=
  let show (n : Z) : string := pretty n in
  js_join newline
    (df_header diff ::
     ("@@ 统计: +" +:+ show (df_added diff) +:+ " -" +:+ show (df_removed diff) +:+ " (" +:+ show (df_unchanged diff) +:+ ") @@")
     :: df_hunks diff).

(** ** Creating a patch *)

(** src/src/agent/patch-transaction.ts # createPatchTransaction *)
Definition createPatchTransaction (txId path : string) (oldContent : option string) (newContent : string)
    (fileTransaction : FileTransaction) (scope : option (list string)) (verification : option (list VerificationKind))
    (cwd0 : string) : Run_ PatchTransaction :=
  let cwd := path_resolve process_cwd [cwd0] in
  let absolutePath := path_resolve process_cwd [cwd; path] in
  let relPath := slashes (path_relative process_cwd cwd absolutePath) in
  forbiddenCheck ← checkForbiddenFile relPath cwd;
  ctx ← getActivePatchContext;
  mret (mkPatch txId (computeBaseHash <$> oldContent)
          (formatDiff (generateLineDiff oldContent newContent relPath))
          (match scope, ctx with Some s, _ => s | None, Some ctx => ax_scope ctx | None, None => [relPath] end)
          (match verification, ctx with
           | Some v, _ => v | None, Some ctx => ax_verification ctx | None, None => [v_typecheck] end)
          forbiddenCheck fileTransaction).

(** src/src/agent/patch-transaction.ts # PreWriteCheck *)
Inductive PreWriteCheck :=
| pw_forbidden (reason : ForbiddenReason)
| pw_mismatch (check : HashCheckResult)
| pw_allowed (patch : PatchTransaction).

(** src/src/agent/patch-transaction.ts # preWriteCheck

    [expectedBaseHash] is absent, or null, or a hash. *)
Definition preWriteCheck (txId path : string) (oldContent : option string) (newContent : string)
    (expectedBaseHash : option (option string)) (fileTransaction : FileTransaction) (scope : option (list string))
    (verification : option (list VerificationKind)) (cwd0 : string) : Run_ PreWriteCheck :=
  let cwd := path_resolve process_cwd [cwd0] in
  let absolutePath := path_resolve process_cwd [cwd; path] in
  forbidden ← checkForbiddenFile path cwd;
  match forbidden with
  | Some reason => mret (pw_forbidden reason)
  | None =>
      check ← match expectedBaseHash with
              | Some expected => check ← checkBaseHash absolutePath expected; mret (Some check)
              | None => mret None
              end;
      match check with
      | Some (mkHashCheck false expected actual state) => mret (pw_mismatch (mkHashCheck false expected actual state))
      | _ =>
          patch ← createPatchTransaction txId path oldContent newContent fileTransaction scope verification cwd;
          mret (pw_allowed patch)
      end
  end.

(** ** The commit history *)

Definition nul : string := String (ascii_of_nat 0) "".

(** [txstate_] and the first 32 digits of a digest. *)
Definition state_digest (s : string) : string := "txstate_" +:+ String.substring 0 32 (sha256 s).

Definition advance (marker txId : string) (e : CommittedTransactionEvidenceState) : CommittedTransactionEvidenceState :=
  mkCommitHistory (state_digest (ch_stateId e +:+ nul +:+ marker +:+ txId)) (ch_transactionCount e + 1) (Some txId).

(** src/src/agent/patch-transaction.ts # currentTransactionEvidenceBinding *)
Definition currentTransactionEvidenceBinding (r : Run) : option TransactionEvidenceBinding :=
  if hasRuntimeUnmanagedWrites (rn_fileState r) then None
  else
    let state := rn_evidence r in
    match ch_latestTransactionId state with
    | Some latest =>
        if (ch_transactionCount state =? 0)%Z || (latest === "") then None
        else Some (mkBinding (ch_stateId state) (ch_transactionCount state) latest)
    | None => None
    end.

(** src/src/agent/patch-transaction.ts # recordRollbackInEvidenceState *)
Definition recordRollbackInEvidenceState (txId : string) : Run_ unit :=
  modify (fun r => with_evidence (advance ("rb" +:+ nul) txId (rn_evidence r)) r).

(** The parent directory of a path. *)
Definition path_dirname (p : string) : string := abs_path (parent_segs (resolve_segs process_cwd [p])).

(** src/src/tools/transaction.ts # rollbackSnapshots @100-107

    One snapshot, a system call at a time. *)
Definition restore_one (s : TransactionSnapshot) (r : RollbackResult) : Run_ RollbackResult :=
  if sn_existedBefore s then
    _ ← or_throw (mkdirSync (path_dirname (sn_path s)));
    _ ← or_throw (writeFileSync (sn_path s) (default "" (sn_content s)));
    mret (mkRollback (rb_restored r ++ [sn_path s]) (rb_deleted r))
  else
    present ← existsSync (sn_path s);
    match present with
    | true => _ ← or_throw (rmSync (sn_path s)); mret (mkRollback (rb_restored r) (rb_deleted r ++ [sn_path s]))
    | false => mret r
    end.

(** src/src/tools/transaction.ts # rollbackSnapshots *)
Fixpoint restore_all (selected : option (list string)) (snapshots : list TransactionSnapshot) (r : RollbackResult)
    : Run_ RollbackResult :=
  match snapshots with
  | [] => mret r
  | s :: snapshots =>
      if skipped selected s then restore_all selected snapshots r
      else r ← restore_one s r; restore_all selected snapshots r
  end.

(** src/src/tools/transaction.ts # rollbackTransaction

    And [rollbackTransactionPaths]: the record is read, then its snapshots are
    restored. *)
Definition restoring (selected : option (list string)) (txId : string) : Run_ RollbackResult :=
  record ← sys (fun w => (loadTransaction (wd_io w) txId (wd_disk w), w));
  match record with
  | Throw _ => lift (Throw (e_system other_error))
  | Ok None => lift (Throw e_gone)
  | Ok (Some tx) => restore_all selected (tx_snapshots tx) (mkRollback [] [])
  end.

Definition after_rollback (txId : string) (result : RollbackResult) : Run_ RollbackResult :=
  _ ← recordRollbackInEvidenceState txId;
  _ ← modify (fun r => with_fileState (recordRuntimeRollback (rb_restored result ++ rb_deleted result) (rn_fileState r)) r);
  mret result.

(** src/src/agent/patch-transaction.ts # rollbackCommittedTransaction *)
Definition rollbackCommittedTransaction (txId : string) : Run_ RollbackResult :=
  result ← restoring None txId; after_rollback txId result.
(** src/src/agent/patch-transaction.ts # rollbackCommittedTransactionPaths *)
Definition rollbackCommittedTransactionPaths (txId : string) (paths : list string) : Run_ RollbackResult :=
  result ← restoring (Some (uniq paths)) txId; after_rollback txId result.

(** ** The state machine *)

(** src/src/agent/patch-transaction.ts # patchesRoot *)
Definition patchesRoot (cwd : string) : string := path_resolve process_cwd [cwd; ".orcana"; "patches"].
(** src/src/agent/patch-transaction.ts # txTempDir *)
Definition txTempDir (txId cwd : string) : string := path_join (patchesRoot cwd) txId.
(** src/src/agent/patch-transaction.ts # txTempPath *)
Definition txTempPath (txId relativePath cwd : string) : string := path_join (txTempDir txId cwd) relativePath.

(** src/src/agent/patch-transaction.ts # assertTransition *)
Definition assertTransition (current next : PatchStatus) : Run_ unit :=
  if includes (VALID_TRANSITIONS current) next then mret tt else lift (Throw (e_transition current next)).

(** src/src/agent/patch-transaction.ts # InitManagedTxInput

    Each file with its path, contents and, when given, its expected hash. *)
Record InitFile := mkInitFile {
  if_relativePath : string;
  if_oldContent : option string;
  if_newContent : string;
  if_expectedBaseHash : option (option string);
}.
Record InitManagedTxInput := mkInit {
  in_tool : string;
  in_files : list InitFile;
  in_scope : option (list string);
  in_verification : option (list VerificationKind);
  in_cwd : string;
}.

Definition entry_of (cwd : string) (f : InitFile) : ManagedFileEntry :=
  mkEntryFile (slashes (if_relativePath f)) (path_resolve process_cwd [cwd; if_relativePath f])
    (if_oldContent f) (if_newContent f)
    (match if_expectedBaseHash f with
     | Some expected => expected
     | None => computeBaseHash <$> if_oldContent f
     end) None.

(** The gate over the entries, before anything is created. *)
Fixpoint forbid_files (cwd : string) (cache : option ResolvedBoundaryCache) (entries : list ManagedFileEntry)
    : Run_ unit :=
  match entries with
  | [] => mret tt
  | entry :: entries =>
      answer ← checkForbiddenFileWithCache (me_relativePath entry) cwd cache;
      match answer.1 with
      | Some reason => lift (Throw (e_forbidden (me_relativePath entry) reason))
      | None => forbid_files cwd answer.2 entries
      end
  end.

(** The snapshots of the entries, with the contents that were approved. *)
Definition record_files (ftId tool : string) (entries : list ManagedFileEntry) : Run_ FileTransaction :=
  ft ← sys (fun w =>
    let '(ft, d) := createTransaction utf8 (wd_io w) ftId tool (map me_absolutePath entries)
      (fold_left (fun m e => jset (me_absolutePath e) (me_oldContent e) m) entries []) (wd_disk w) in
    (ft, with_disk d w));
  match ft with Ok ft => mret ft | Throw _ => lift (Throw (e_system other_error)) end.

(** src/src/agent/patch-transaction.ts # initManagedTransaction

    [ftId] and [txId] are the ids drawn. *)
Definition initManagedTransaction (ftId txId : string) (input : InitManagedTxInput) : Run_ ManagedPatchTransaction :=
  let cwd := path_resolve process_cwd [in_cwd input] in
  match in_files input with
  | [] => lift (Throw e_no_files)
  | firstFile :: _ =>
      let entries := map (entry_of cwd) (in_files input) in
      cache ← createResolvedBoundaryCache cwd;
      _ ← forbid_files cwd cache entries;
      ft ← record_files ftId (in_tool input) entries;
      patch ← createPatchTransaction txId (if_relativePath firstFile) (if_oldContent firstFile)
                (if_newContent firstFile) ft (in_scope input) (in_verification input) cwd;
      let mpt := mkManaged txId ps_proposed patch entries cwd None in
      _ ← modify (fun r => with_registry (set_add txId (rn_registry r)) (with_object txId mpt r));
      mret mpt
  end.

(** The object behind an id. *)
Definition object (txId : string) : Run_ ManagedPatchTransaction :=
  r ← read; match rn_objects r !! txId with Some m => mret m | None => lift (Throw e_gone) end.
Definition change (txId : string) (f : ManagedPatchTransaction -> ManagedPatchTransaction) : Run_ unit :=
  m ← object txId; modify (with_object txId (f m)).

Definition set_state (s : PatchStatus) (m : ManagedPatchTransaction) : ManagedPatchTransaction :=
  mkManaged (mp_txId m) s (mp_patch m) (mp_files m) (mp_cwd m) (mp_rollbackReason m).
Definition set_files (files : list ManagedFileEntry) (m : ManagedPatchTransaction) : ManagedPatchTransaction :=
  mkManaged (mp_txId m) (mp_state m) (mp_patch m) files (mp_cwd m) (mp_rollbackReason m).
Definition set_reason (reason : RollbackReason) (m : ManagedPatchTransaction) : ManagedPatchTransaction :=
  mkManaged (mp_txId m) (mp_state m) (mp_patch m) (mp_files m) (mp_cwd m) (Some reason).
Definition set_temp (temp : option string) (e : ManagedFileEntry) : ManagedFileEntry :=
  mkEntryFile (me_relativePath e) (me_absolutePath e) (me_oldContent e) (me_newContent e) (me_expectedBaseHash e) temp.

Fixpoint write_temps (txId cwd : string) (written todo : list ManagedFileEntry) : Run_ unit :=
  match todo with
  | [] => mret tt
  | entry :: todo =>
      let tempPath := txTempPath txId (me_relativePath entry) cwd in
      _ ← or_throw (mkdirSync (path_dirname tempPath));
      _ ← or_throw (writeFileSync tempPath (me_newContent entry));
      let written := written ++ [set_temp (Some tempPath) entry] in
      _ ← change txId (set_files (written ++ todo));
      write_temps txId cwd written todo
  end.

(** src/src/agent/patch-transaction.ts # applyToTemp *)
Definition applyToTemp (txId : string) : Run_ unit :=
  m ← object txId;
  _ ← assertTransition (mp_state m) ps_applied_to_temp;
  present ← existsTree (txTempDir txId (mp_cwd m));
  _ ← when present (or_throw (rmTree (txTempDir txId (mp_cwd m))));
  _ ← write_temps txId (mp_cwd m) [] (mp_files m);
  change txId (set_state ps_applied_to_temp).

(** src/src/agent/patch-transaction.ts # verifyManagedTransaction *)
Definition verifyManagedTransaction (txId : string) : Run_ unit :=
  m ← object txId;
  _ ← assertTransition (mp_state m) ps_verified;
  change txId (set_state ps_verified).

(** The checks of one file of the commit: its temporary file, the boundary
    before and after its directory exists, and the base hash last. *)
Definition commit_checks (cwd tempPath : string) (cache : option ResolvedBoundaryCache) (entry : ManagedFileEntry)
    : Run_ (option ResolvedBoundaryCache) :=
  let path := me_relativePath entry in
  present ← existsSync tempPath;
  match present with
  | false => lift (Throw (e_temp_missing path))
  | true =>
      before ← checkForbiddenFileWithCache path cwd cache;
      match before.1 with
      | Some reason => lift (Throw (PatchPathConflictError path reason 0 1))
      | None =>
          _ ← or_throw (mkdirSync (path_dirname (me_absolutePath entry)));
          after ← checkForbiddenFileWithCache path cwd before.2;
          match after.1 with
          | Some reason => lift (Throw (PatchPathConflictError path reason 0 1))
          | None =>
              hashCheck ← checkBaseHash (me_absolutePath entry) (me_expectedBaseHash entry);
              if hc_match hashCheck then mret after.2
              else lift (Throw (PatchFreshnessConflictError path (hc_expected hashCheck) (hc_actual hashCheck)
                                  (hc_actualState hashCheck) 0 1))
          end
      end
  end.

(** One file of the commit. *)
Definition commit_file (cwd : string) (cache : option ResolvedBoundaryCache) (entry : ManagedFileEntry)
    : Run_ (option ResolvedBoundaryCache) :=
  match me_tempPath entry with
  | None => lift (Throw (e_temp_missing (me_relativePath entry)))
  | Some tempPath =>
      cache ← commit_checks cwd tempPath cache entry;
      _ ← or_throw (renameSync tempPath (me_absolutePath entry));
      mret cache
  end.

(** The [catch] of the commit loop. *)
Definition at_commit (e : PatchError) (committed total : nat) : PatchError :=
  match e with
  | PatchFreshnessConflictError path expected actual state _ _ =>
      PatchFreshnessConflictError path expected actual state committed total
  | PatchPathConflictError path reason _ _ => PatchPathConflictError path reason committed total
  | e => e_commit e committed total
  end.

Fixpoint commit_files (cwd : string) (cache : option ResolvedBoundaryCache) (entries : list ManagedFileEntry)
    (committed total : nat) : Run_ unit :=
  match entries with
  | [] => mret tt
  | entry :: entries =>
      r ← attempt (commit_file cwd cache entry);
      match r with
      | Throw e => lift (Throw (at_commit e committed total))
      | Ok cache => commit_files cwd cache entries (S committed) total
      end
  end.

Definition unregister (txId : string) : Run_ unit :=
  modify (fun r => with_registry (List.filter (fun id => negb (id === txId)) (rn_registry r)) r).

(** src/src/agent/patch-transaction.ts # commitManagedTransaction *)
Definition commitManagedTransaction (txId : string) : Run_ unit :=
  m ← object txId;
  _ ← assertTransition (mp_state m) ps_committed;
  cache ← createResolvedBoundaryCache (mp_cwd m);
  _ ← commit_files (mp_cwd m) cache (mp_files m) 0 (length (mp_files m));
  _ ← rmTree (txTempDir txId (mp_cwd m));
  _ ← change txId (set_state ps_committed);
  _ ← modify (fun r => with_evidence (advance "" txId (rn_evidence r)) r);
  unregister txId.

(** src/src/agent/patch-transaction.ts # rollbackManagedTransaction *)
Definition rollbackManagedTransaction (txId : string) (reason : option RollbackReason) : Run_ unit :=
  m ← object txId;
  if mp_state m === ps_rolled_back then mret tt
  else
    _ ← change txId (set_reason (default (rr_text "manual rollback") reason));
    present ← existsTree (txTempDir txId (mp_cwd m));
    _ ← when present (_ ← rmTree (txTempDir txId (mp_cwd m)); mret tt);
    _ ← change txId (fun m => set_files (map (set_temp None) (mp_files m)) m);
    _ ← unregister txId;
    change txId (set_state ps_rolled_back).

(** src/src/agent/patch-transaction.ts # applyAndCommit @1062-1077

    What the error path restores: whatever a restoration throws is swallowed. *)
Definition revert (m : ManagedPatchTransaction) (e : PatchError) : Run_ unit :=
  let ftId := tx_id (pa_fileTransaction (mp_patch m)) in
  let of_prefix (committedCount : nat) : Run_ unit :=
    let committedPaths := map me_absolutePath (take committedCount (mp_files m)) in
    when (negb (bool_decide (committedPaths = [])))
      (_ ← attempt (rollbackCommittedTransactionPaths ftId committedPaths); mret tt) in
  match e with
  | PatchFreshnessConflictError _ _ _ _ committedCount _ => of_prefix committedCount
  | PatchPathConflictError _ _ committedCount _ => of_prefix committedCount
  | _ => _ ← attempt (rollbackCommittedTransaction ftId); mret tt
  end.

(** The [try] block of [applyAndCommit]. *)
Definition apply_verify_commit (txId : string) (verify : Run -> ManagedPatchTransaction -> res string bool)
    : Run_ unit :=
  _ ← applyToTemp txId;
  r ← read;
  m ← object txId;
  match verify r m with
  | Throw e => lift (Throw (e_verify e))
  | Ok false => rollbackManagedTransaction txId (Some (rr_text "verification failed"))
  | Ok true => _ ← verifyManagedTransaction txId; commitManagedTransaction txId
  end.

(** src/src/agent/patch-transaction.ts # applyAndCommit

    [verify] sees the run and the transaction. *)
Definition applyAndCommit (ftId txId : string) (input : InitManagedTxInput)
    (verify : Run -> ManagedPatchTransaction -> res string bool) : Run_ ManagedPatchTransaction :=
  _ ← initManagedTransaction ftId txId input;
  outcome ← attempt (apply_verify_commit txId verify);
  match outcome with
  | Ok _ => object txId
  | Throw e =>
      m ← object txId;
      _ ← when (negb (mp_state m === ps_committed) && negb (mp_state m === ps_rolled_back))
            (_ ← revert m e; rollbackManagedTransaction txId (Some (rr_error e)));
      lift (Throw e)
  end.

(** ** What a run leaves alone *)

(** The part of a transaction that no operation after its creation changes. *)
Definition core (m : ManagedPatchTransaction) : PatchTransaction * string * list ManagedFileEntry :=
  (mp_patch m, mp_cwd m, map (set_temp None) (mp_files m)).

(** What only looks at the file system moves a run along any preorder that
    allows other processes their steps. *)
Section looking.
Context (R : relation Run) `{!PreOrder R}.
Hypothesis Hlook : forall A (f : World -> A * World), (forall w, (f w).2 = w) -> keeps (E:=PatchError) R (sys f).

Lemma keeps_lstat p : keeps R (lstatSync p). Proof. by apply Hlook. Qed.
Lemma keeps_realpath p : keeps R (realpathSync p). Proof. by apply Hlook. Qed.
Lemma keeps_readFile p : keeps R (readFileSync p). Proof. by apply Hlook. Qed.
Lemma keeps_exists p : keeps R (existsSync p). Proof. by apply Hlook. Qed.
Lemma keeps_existsTree p : keeps R (existsTree p). Proof. by apply Hlook. Qed.
Lemma keeps_mkdir p : keeps R (mkdirSync p). Proof. by apply Hlook. Qed.
#[local] Hint Resolve keeps_lstat keeps_realpath keeps_readFile keeps_exists keeps_existsTree keeps_mkdir : keeps.

Lemma keeps_or_throw m : keeps R m -> keeps R (or_throw m).
Proof. intros Hm. apply keeps_bind; [exact _|done|]. intros [e|]; [apply keeps_lift|apply keeps_ret]; exact _. Qed.
Lemma keeps_object id : keeps R (object id).
Proof. apply keeps_bind; [exact _|apply keeps_read; exact _|]. intros r. destruct (_ !! _); [apply keeps_ret|apply keeps_lift]; exact _. Qed.

Ltac keep := repeat (first
  [ apply keeps_ret; exact _ | apply keeps_lift; exact _ | apply keeps_read; exact _
  | apply keeps_bind; [exact _|..] | progress intros | apply keeps_or_throw | apply keeps_object
  | apply keeps_attempt; [exact _|..] | apply keeps_when; [exact _|..]
  | progress (auto with keeps) | case_match ]).

Lemma keeps_probe p : keeps R (probeFileHash p).
Proof. unfold probeFileHash. keep. Qed.
#[local] Hint Resolve keeps_probe : keeps.
Lemma keeps_checkBaseHash p h : keeps R (checkBaseHash p h).
Proof. unfold checkBaseHash. keep. Qed.
Lemma keeps_createCache cwd : keeps R (createResolvedBoundaryCache cwd).
Proof. unfold createResolvedBoundaryCache. keep. Qed.
Lemma keeps_walk_up cache cwd up depth verified : keeps R (walk_up cache cwd up depth verified).
Proof. revert depth verified. induction up as [|s up IH]; intros depth verified; cbn [walk_up]; keep. Qed.
#[local] Hint Resolve keeps_checkBaseHash keeps_createCache keeps_walk_up : keeps.
Lemma keeps_boundary absolute cwd cache : keeps R (checkResolvedBoundary absolute cwd cache).
Proof. unfold checkResolvedBoundary. keep. Qed.
#[local] Hint Resolve keeps_boundary : keeps.
Lemma keeps_forbidden path cwd cache : keeps R (checkForbiddenFileWithCache path cwd cache).
Proof. unfold checkForbiddenFileWithCache. keep. Qed.
#[local] Hint Resolve keeps_forbidden : keeps.
Lemma keeps_forbid_files cwd cache entries : keeps R (forbid_files cwd cache entries).
Proof. revert cache. induction entries as [|e entries IH]; intros cache; cbn [forbid_files]; keep. Qed.
Lemma keeps_createPatch txId path old new ft scope verification cwd :
  keeps R (createPatchTransaction txId path old new ft scope verification cwd).
Proof. unfold createPatchTransaction, checkForbiddenFile, getActivePatchContext. keep. Qed.

Lemma keeps_commit_checks cwd temp cache entry : keeps R (commit_checks cwd temp cache entry).
Proof. unfold commit_checks. keep. Qed.
(** A commit moves along [R] what its moves do. *)
Lemma keeps_commit_file cwd cache entry :
  (forall temp, me_tempPath entry = Some temp -> keeps R (renameSync temp (me_absolutePath entry))) ->
  keeps R (commit_file cwd cache entry).
Proof.
  intros Hren. unfold commit_file. destruct (me_tempPath entry) as [temp|] eqn:E; [|keep].
  specialize (Hren temp eq_refl). pose proof (keeps_commit_checks cwd temp cache entry). keep.
Qed.
Lemma keeps_commit_files cwd cache entries committed total :
  (forall entry temp, entry ∈ entries -> me_tempPath entry = Some temp ->
     keeps R (renameSync temp (me_absolutePath entry))) ->
  keeps R (commit_files cwd cache entries committed total).
Proof.
  intros Hren. revert cache committed. induction entries as [|e entries IH]; intros cache committed; cbn [commit_files]; [keep|].
  pose proof (keeps_commit_file cwd cache e (fun t => Hren e t ltac:(left))).
  assert (forall cache committed, keeps R (commit_files cwd cache entries committed total)) as IH'.
  { apply IH. intros entry temp He. apply Hren. by right. }
  keep.
Qed.
End looking.

(** Only the file system and the count of calls move. *)
Definition quiet : relation Run := fun r r' =>
  rn_objects r = rn_objects r' /\ rn_registry r = rn_registry r' /\ rn_evidence r = rn_evidence r' /\
  rn_fileState r = rn_fileState r' /\ rn_active r = rn_active r'.
#[local] Instance quiet_preorder : PreOrder quiet.
Proof. split; [by intros r|]. intros r1 r2 r3 (?&?&?&?&?) (?&?&?&?&?). repeat split; congruence. Qed.
Lemma quiet_sys {A} (f : World -> A * World) : keeps (E:=PatchError) quiet (sys f).
Proof. intros r. unfold sys. by destruct (f _). Qed.

(** A view of the file system that other processes leave alone. *)
Section keeping.
Context {X : Type} (v : World -> X) (Hv : forall n w, v (others n w) = v w).

Definition same : relation Run := fun r r' => v (rn_world r) = v (rn_world r').
#[global] Instance same_preorder : PreOrder same.
Proof. split; [by intros r|]. intros r1 r2 r3 H1 H2. by unfold same in *; etrans. Qed.

Lemma same_sys {A} (f : World -> A * World) :
  (forall w, v (f w).2 = v w) -> keeps (E:=PatchError) same (sys f).
Proof.
  intros Hf r. unfold sys. destruct (f _) as [a w] eqn:E. unfold same. cbn [snd rn_world with_world].
  specialize (Hf (others (rn_calls r) (rn_world r))). rewrite E in Hf. cbn [snd] in Hf. by rewrite Hf, Hv.
Qed.
Lemma same_look {A} (f : World -> A * World) : (forall w, (f w).2 = w) -> keeps (E:=PatchError) same (sys f).
Proof. intros Hf. apply same_sys. intros w. by rewrite Hf. Qed.
Lemma same_update (f : Run -> Run) : (forall r, rn_world (f r) = rn_world r) -> keeps (E:=PatchError) same (modify f).
Proof. intros H. apply keeps_modify. intros r. unfold same. by rewrite H. Qed.
Lemma same_change tx f : keeps same (change tx f).
Proof. apply keeps_bind; [exact _|apply keeps_object; exact _|]. intros m. by apply same_update. Qed.

Lemma same_write p c :
  (forall w c, v (with_files (<[p := c]> (files_of w)) w) = v w) -> keeps same (writeFileSync p c).
Proof.
  intros H. apply same_sys. intros w. unfold put_file.
  destruct (io_unwritable (wd_io w) p) as [[torn|]|]; cbn [snd]; [apply H|by rewrite with_files_id|apply H].
Qed.
Lemma same_rm p :
  (forall w, v (with_files (delete p (files_of w)) w) = v w) -> (forall w, v (without_special p w) = v w) ->
  keeps same (rmSync p).
Proof. intros H1 H2. apply same_sys. intros w. repeat case_match; cbn [snd]; done || apply H1 || apply H2. Qed.
Lemma same_rename a b :
  (forall w c, v (with_files (<[b := c]> (delete a (files_of w))) w) = v w) -> keeps same (renameSync a b).
Proof. intros H. apply same_sys. intros w. destruct (files_of w !! a); [|done]. destruct (wd_refuses w b); [done|apply H]. Qed.
Lemma same_rmTree dir :
  (forall w, v (with_files (filter (fun kv => below dir kv.1 = false) (files_of w)) w) = v w) ->
  keeps same (rmTree dir).
Proof. intros H. apply same_sys. intros w. destruct (wd_refuses w dir); [done|apply H]. Qed.
Lemma same_restoring selected id :
  (forall p w c, v (with_files (<[p := c]> (files_of w)) w) = v w) ->
  (forall p w, v (with_files (delete p (files_of w)) w) = v w) -> (forall p w, v (without_special p w) = v w) ->
  keeps same (restoring selected id).
Proof.
  intros H1 H2 H3. apply keeps_bind; [exact _|by apply same_look|].
  intros [[tx|]|e]; [|apply keeps_lift; exact _..]. generalize (mkRollback [] []).
  induction (tx_snapshots tx) as [|s ss IH]; intros res; cbn [restore_all]; [apply keeps_ret; exact _|].
  destruct (skipped selected s); [apply IH|]. apply keeps_bind; [exact _| |apply IH]. unfold restore_one.
  destruct (sn_existedBefore s).
  - apply keeps_bind; [exact _|apply keeps_or_throw; [exact _|]; by apply same_look|]. intros _.
    apply keeps_bind; [exact _|apply keeps_or_throw; [exact _|]; by apply same_write|]. intros _. apply keeps_ret; exact _.
  - apply keeps_bind; [exact _|by apply same_look|]. intros []; [|apply keeps_ret; exact _].
    apply keeps_bind; [exact _|apply keeps_or_throw; [exact _|]; by apply same_rm|]. intros _. apply keeps_ret; exact _.
Qed.
End keeping.

(** ** The moves *)

Definition at_path (x : string) (w : World) : option string := files_of w !! x.
(** Other processes leave the file at [x] alone. *)
Definition left_alone (x : string) : Prop := forall n w, at_path x (others n w) = at_path x w.

Lemma sys_run {A} (f : World -> A * World) r :
  sys f r = (Ok (f (others (rn_calls r) (rn_world r))).1,
             with_world (f (others (rn_calls r) (rn_world r))).2 (S (rn_calls r)) r).
Proof. unfold sys. by destruct (f _). Qed.

(** A move that succeeds puts what was at [a] into [b]; one that fails changes
    nothing. *)
Lemma rename_run a b r :
  let w := others (rn_calls r) (rn_world r) in
  match or_throw (renameSync a b) r with
  | (Throw _, r') => files_of (rn_world r') = files_of w
  | (Ok _, r') => exists c, files_of w !! a = Some c /\ files_of (rn_world r') = <[b := c]> (delete a (files_of w))
  end.
Proof.
  intros w. unfold or_throw, renameSync. rewrite bind_run, sys_run. fold w.
  destruct (files_of w !! a) as [c|] eqn:Ea; [|done]. destruct (wd_refuses w b); [done|]. cbn. by exists c.
Qed.

Lemma look_at x : left_alone x -> forall A (f : World -> A * World),
  (forall w, (f w).2 = w) -> keeps (E:=PatchError) (same (at_path x)) (sys f).
Proof. intros Hx A f. by apply same_look. Qed.

(** A file's commit, seen from a path that other processes leave alone. *)
Lemma commit_file_other cwd cache entry x :
  left_alone x -> me_tempPath entry <> Some x -> me_absolutePath entry <> x ->
  keeps (same (at_path x)) (commit_file cwd cache entry).
Proof.
  intros Hx Ht Ha. apply keeps_commit_file; [exact _|by apply look_at|]. intros temp Htemp.
  apply same_rename; [done|]. intros w c. unfold at_path, files_of. cbn [with_files wd_disk dk_files].
  rewrite lookup_insert_ne, lookup_delete_ne by congruence. done.
Qed.
Lemma commit_file_at cwd cache entry temp x r :
  me_tempPath entry = Some temp -> left_alone x -> temp <> x -> me_absolutePath entry = x ->
  match commit_file cwd cache entry r with
  | (Throw _, r') => at_path x (rn_world r') = at_path x (rn_world r)
  | (Ok _, r') => left_alone temp -> at_path x (rn_world r') = at_path temp (rn_world r)
  end.
Proof.
  intros Htemp Hx Hne Ha. unfold commit_file. rewrite Htemp, bind_run.
  pose proof (keeps_commit_checks _ (look_at x Hx) cwd temp cache entry r) as Kx.
  assert (left_alone temp -> same (at_path temp) r (commit_checks cwd temp cache entry r).2) as Kt.
  { intros Ht. by apply (keeps_commit_checks _ (look_at temp Ht)). }
  unfold same in Kx, Kt. destruct (commit_checks _ _ _ _ r) as [[cache1|e] r1]; cbn [snd] in *; [|done].
  rewrite bind_run. pose proof (rename_run temp (me_absolutePath entry) r1) as Hr. cbn zeta in Hr.
  destruct (or_throw _ r1) as [[[]|e] r2].
  - intros Ht. destruct Hr as (c & Hc & Hf). cbn [mret effect_ret]. unfold at_path at 1. rewrite Hf, <- Ha, lookup_insert_eq.
    rewrite (Kt Ht), <- (Ht (rn_calls r1)). by symmetry.
  - unfold at_path at 1. rewrite Hr. rewrite Kx. apply Hx.
Qed.

(** The temporary files of the entries hold their new contents, out of reach of
    other processes. *)
Definition staged (w : World) (entries : list ManagedFileEntry) : Prop :=
  forall e, e ∈ entries -> exists temp, me_tempPath e = Some temp /\ left_alone temp /\
    at_path temp w = Some (me_newContent e).
(** The temporary files are apart from each other, the targets and [x]. *)
Record apart (x : string) (entries : list ManagedFileEntry) : Prop := {
  ap_temps : NoDup (map me_tempPath entries);
  ap_targets : NoDup (map me_absolutePath entries);
  ap_x : Some x ∉ map me_tempPath entries;
  ap_cross : forall e e', e ∈ entries -> e' ∈ entries -> me_tempPath e <> Some (me_absolutePath e');
}.

Lemma apart_tail x e entries : apart x (e :: entries) -> apart x entries.
Proof.
  intros [H1 H2 H3 H4]. cbn [map] in *. apply NoDup_cons in H1 as [_ H1]. apply NoDup_cons in H2 as [_ H2].
  split; [done|done|by apply not_elem_of_cons in H3 as [_ H3]|]. intros; apply H4; by right.
Qed.
Lemma map_elem {A B} (f : A -> B) (l : list A) (x : A) : x ∈ l -> f x ∈ map f l.
Proof. rewrite !list_elem_of_In. apply in_map. Qed.

Lemma staged_tail cwd cache x e entries r :
  staged (rn_world r) (e :: entries) -> apart x (e :: entries) ->
  staged (rn_world (commit_file cwd cache e r).2) entries.
Proof.
  intros Hst [H1 _ _ H4] e' He'. destruct (Hst e' ltac:(by right)) as (t & Ht & Hl & Hc).
  exists t. split_and!; [done..|]. rewrite <- Hc. symmetry.
  apply (commit_file_other cwd cache e t Hl).
  - cbn [map] in H1. apply NoDup_cons in H1 as [H1 _]. intros E. apply H1. rewrite E, <- Ht. by apply map_elem.
  - intros E. apply (H4 e' e); [by right|by left|congruence].
Qed.

(** What the entries make of the path [x]. *)
Definition new_at (x : string) (entries : list ManagedFileEntry) (before : option string) : option string :=
  match find (fun e => me_absolutePath e === x) entries with Some e => Some (me_newContent e) | None => before end.

Lemma find_target_None x entries :
  find (fun e => me_absolutePath e === x) entries = None <-> x ∉ map me_absolutePath entries.
Proof.
  induction entries as [|e entries IH]; cbn [find map]; [split; [intros _; apply not_elem_of_nil|done]|].
  rewrite not_elem_of_cons, <- IH. destruct (me_absolutePath e === x) eqn:E; reflect; naive_solver.
Qed.

Lemma commit_files_at x cwd total entries : forall cache committed r,
  left_alone x -> staged (rn_world r) entries -> apart x entries ->
  match commit_files cwd cache entries committed total r with
  | (Ok _, r') => at_path x (rn_world r') = new_at x entries (at_path x (rn_world r))
  | (Throw e, r') => exists j e0, e = at_commit e0 (committed + j) total /\
      (x ∈ map me_absolutePath (take j entries) \/ at_path x (rn_world r') = at_path x (rn_world r))
  end.
Proof.
  intros cache committed r Hx. revert cache committed r.
  induction entries as [|e entries IH]; intros cache committed r Hst Hap; [done|].
  cbn [commit_files]. rewrite bind_run. unfold attempt.
  destruct (Hst e ltac:(left)) as (t & Ht & Htl & Htc).
  assert (t <> x) as Htx.
  { destruct Hap as [_ _ H3 _]. cbn [map] in H3. apply not_elem_of_cons in H3 as [H3 _]. congruence. }
  pose proof (staged_tail cwd cache x e entries r Hst Hap) as Hst'.
  pose proof (commit_file_other cwd cache e x Hx) as Hother. pose proof (commit_file_at cwd cache e t x r Ht Hx Htx) as Hat.
  specialize (Hother ltac:(congruence)). unfold new_at. cbn [find].
  destruct (me_absolutePath e === x) eqn:Ex; reflect.
  - specialize (Hat Ex). clear Hother. destruct (commit_file cwd cache e r) as [[cache1|err] r1]; cbn [snd] in Hst'.
    2:{ exists 0, err. split; [by rewrite Nat.add_0_r|by right]. }
    specialize (IH cache1 (S committed) r1 Hst' (apart_tail _ _ _ Hap)).
    assert (find (fun e => me_absolutePath e === x) entries = None) as Hno.
    { apply find_target_None. destruct Hap as [_ H2 _ _]. cbn [map] in H2. apply NoDup_cons in H2 as [H2 _]. by rewrite <- Ex. }
    unfold new_at in IH. rewrite Hno in IH.
    destruct (commit_files _ _ entries _ _ r1) as [[[]|err] r2]; [by rewrite IH, (Hat Htl)|].
    destruct IH as (j & e0 & -> & _). exists (S j), e0. split; [by rewrite <- Nat.add_succ_comm|].
    left. cbn [take map]. rewrite Ex. left.
  - specialize (Hother Ex r). clear Hat. unfold same in Hother.
    destruct (commit_file cwd cache e r) as [[cache1|err] r1]; cbn [snd] in *.
    2:{ exists 0, err. split; [by rewrite Nat.add_0_r|by right]. }
    specialize (IH cache1 (S committed) r1 Hst' (apart_tail _ _ _ Hap)). unfold new_at in IH. rewrite Hother.
    destruct (commit_files _ _ entries _ _ r1) as [[[]|err] r2]; [exact IH|].
    destruct IH as (j & e0 & -> & Hj). exists (S j), e0. split; [by rewrite <- Nat.add_succ_comm|].
    destruct Hj as [Hj|Hj]; [left; cbn [take map]; by right|by right].
Qed.

(** A view that no change of files touches: the transaction store. *)
Definition record_of (id : string) (w : World) : option FileTransaction := dk_transactions (wd_disk w) !! id.
Definition record_kept (id : string) : Prop := forall n w, record_of id (others n w) = record_of id w.

Lemma look_record id : record_kept id -> forall A (f : World -> A * World),
  (forall w, (f w).2 = w) -> keeps (E:=PatchError) (same (record_of id)) (sys f).
Proof. intros Hid A f. by apply same_look. Qed.

(** *** The temporary files *)

Definition with_temp (txId cwd : string) (e : ManagedFileEntry) : ManagedFileEntry :=
  set_temp (Some (txTempPath txId (me_relativePath e) cwd)) e.

Lemma object_run txId r m : rn_objects r !! txId = Some m -> object txId r = (Ok m, r).
Proof. intros H. unfold object. rewrite bind_run. cbn [read]. by rewrite H. Qed.
Lemma change_run txId f r m :
  rn_objects r !! txId = Some m -> change txId f r = (Ok tt, with_object txId (f m) r).
Proof. intros H. unfold change. by rewrite bind_run, (object_run _ _ _ H). Qed.
Lemma or_throw_quiet (f : World -> option FsError * World) (r : Run) : quiet r (or_throw (sys f) r).2.
Proof. apply keeps_or_throw; [exact _|apply quiet_sys]. Qed.

Lemma write_temps_object txId cwd todo : forall written r m,
  rn_objects r !! txId = Some m -> mp_files m = written ++ todo ->
  let '(out, r') := write_temps txId cwd written todo r in
  exists m', rn_objects r' !! txId = Some m' /\ core m' = core m /\ mp_state m' = mp_state m /\
    (out = Ok tt -> mp_files m' = written ++ map (with_temp txId cwd) todo).
Proof.
  induction todo as [|e todo IH]; intros written r m Hm Hf; cbn [write_temps]; [by exists m|].
  rewrite bind_run. pose proof (or_throw_quiet _ r : quiet r (or_throw (mkdirSync (path_dirname (txTempPath txId (me_relativePath e) cwd))) r).2) as [Q1 _].
  destruct (or_throw (mkdirSync _) r) as [[[]|err] r1]; cbn [snd] in Q1; [|by exists m; rewrite <- Q1].
  rewrite bind_run. pose proof (or_throw_quiet _ r1 : quiet r1 (or_throw (writeFileSync (txTempPath txId (me_relativePath e) cwd) (me_newContent e)) r1).2) as [Q2 _].
  destruct (or_throw (writeFileSync _ _) r1) as [[[]|err] r2]; cbn [snd] in Q2; [|by exists m; rewrite <- Q2, <- Q1].
  assert (rn_objects r2 !! txId = Some m) as Hm2 by by rewrite <- Q2, <- Q1.
  rewrite bind_run, (change_run _ _ _ _ Hm2). fold (with_temp txId cwd e).
  set (m2 := set_files ((written ++ [with_temp txId cwd e]) ++ todo) m).
  specialize (IH (written ++ [with_temp txId cwd e]) (with_object txId m2 r2) m2).
  cbn [with_object rn_objects] in IH. rewrite lookup_insert_eq in IH. specialize (IH eq_refl eq_refl).
  destruct (write_temps _ _ _ todo _) as [out r']. destruct IH as (m' & H1 & H2 & H3 & H4). exists m'.
  split_and!; [done| |done|].
  - rewrite H2. unfold core, m2. cbn [set_files mp_patch mp_cwd mp_files]. rewrite Hf, !map_app. cbn [map].
    rewrite <- app_assoc. done.
  - intros Hout. rewrite H4, <- app_assoc by done. done.
Qed.

Lemma write_temps_other x txId cwd todo : forall written,
  left_alone x -> x ∉ map (fun e => txTempPath txId (me_relativePath e) cwd) todo ->
  keeps (same (at_path x)) (write_temps txId cwd written todo).
Proof.
  induction todo as [|e todo IH]; intros written Hx Hn; cbn [write_temps]; [apply keeps_ret; exact _|].
  cbn [map] in Hn. apply not_elem_of_cons in Hn as [Hne Hn].
  apply keeps_bind; [exact _| |intros _].
  { apply keeps_or_throw; [exact _|]. by apply look_at. }
  apply keeps_bind; [exact _| |intros _].
  { apply keeps_or_throw; [exact _|]. apply same_write; [done|]. intros w c. unfold at_path, files_of.
    cbn [with_files wd_disk dk_files]. by rewrite lookup_insert_ne. }
  apply keeps_bind; [exact _|apply same_change|]. intros _. by apply IH.
Qed.
Lemma write_temps_record id txId cwd todo : forall written,
  record_kept id -> keeps (same (record_of id)) (write_temps txId cwd written todo).
Proof.
  induction todo as [|e todo IH]; intros written Hid; cbn [write_temps]; [apply keeps_ret; exact _|].
  apply keeps_bind; [exact _| |intros _]; [apply keeps_or_throw; [exact _|]; by apply look_record|].
  apply keeps_bind; [exact _| |intros _]; [apply keeps_or_throw; [exact _|]; by apply same_write|].
  apply keeps_bind; [exact _|apply same_change|]. intros _. by apply IH.
Qed.

Lemma write_run p c r r' :
  or_throw (writeFileSync p c) r = (Ok tt, r') -> at_path p (rn_world r') = Some c.
Proof.
  unfold or_throw, writeFileSync, put_file. rewrite bind_run, sys_run.
  destruct (io_unwritable _ p) as [[torn|]|]; [done|done|].
  intros [= <-]. cbn. unfold at_path, files_of. cbn. apply lookup_insert_eq.
Qed.

(** The temporary files hold the new contents when they have all been written. *)
Lemma write_temps_staged txId cwd todo : forall written r r',
  let temp e := txTempPath txId (me_relativePath e) cwd in
  NoDup (map temp todo) -> (forall e, e ∈ todo -> left_alone (temp e)) ->
  write_temps txId cwd written todo r = (Ok tt, r') ->
  forall e, e ∈ todo -> at_path (temp e) (rn_world r') = Some (me_newContent e).
Proof.
  induction todo as [|e todo IH]; intros written r r' temp Hnd Hl H e' He'; [by apply not_elem_of_nil in He'|].
  cbn [map] in Hnd. apply NoDup_cons in Hnd as [Hn Hnd]. cbn [write_temps] in H.
  apply bind_Ok in H as ([] & r1 & _ & H). apply bind_Ok in H as ([] & r2 & Hw & H).
  apply bind_Ok in H as ([] & r3 & Hc & H). apply elem_of_cons in He' as [->|He'].
  - apply write_run in Hw. rewrite <- Hw.
    assert (same (at_path (temp e)) r2 r3) as K2 by (change r3 with (Ok (E:=PatchError) tt, r3).2; rewrite <- Hc; apply same_change).
    assert (same (at_path (temp e)) r3 r') as K1.
    { change r' with (Ok (E:=PatchError) tt, r').2. rewrite <- H. apply write_temps_other; [apply Hl; left|done]. }
    unfold same in K1, K2. by rewrite <- K1, <- K2.
  - eapply IH; [done| |exact H|done]. intros e'' He''. apply Hl. by right.
Qed.

(** ** The outcome of a transaction *)

Lemma jget_fold_set {A V} (key : A -> string) (val : A -> V) (l : list A) : forall (m : list (string * V)) k,
  NoDup (map key l) ->
  jget k (fold_left (fun m a => jset (key a) (val a) m) l m) =
  match find (fun a => key a === k) l with Some a => Some (val a) | None => jget k m end.
Proof.
  induction l as [|a l IH]; intros m k Hnd; [done|]. cbn [map fold_left find] in *.
  apply NoDup_cons in Hnd as [Ha Hnd]. rewrite IH by done. destruct (key a === k) eqn:E; reflect.
  - destruct (find (fun a => key a === k) l) as [b|] eqn:Ef; [|by rewrite E, jget_jset_eq].
    apply find_some in Ef as [Hb Hk]. reflect. destruct Ha. rewrite E, <- Hk. apply map_elem. by apply list_elem_of_In.
  - destruct (find (fun a => key a === k) l); [done|]. by rewrite jget_jset_ne.
Qed.

(** The entries of a request. *)
Definition cwd_of (input : InitManagedTxInput) : string := path_resolve process_cwd [in_cwd input].
Definition entries_of (input : InitManagedTxInput) : list ManagedFileEntry :=
  map (entry_of (cwd_of input)) (in_files input).
Definition temp_of (txId : string) (input : InitManagedTxInput) (e : ManagedFileEntry) : string :=
  txTempPath txId (me_relativePath e) (cwd_of input).

(** A record of the entries' targets, each with the content that was approved. *)
Record restores (entries : list ManagedFileEntry) (tx : FileTransaction) : Prop := {
  rs_targets : forall y, y ∈ map me_absolutePath entries -> y ∈ map sn_path (tx_snapshots tx);
  rs_snapshots : forall s, s ∈ tx_snapshots tx -> exists e, e ∈ entries /\ sn_path s = me_absolutePath e /\
    snapshot_value s = me_oldContent e;
}.

Lemma created_restores io id tool entries d tx d' :
  NoDup (map me_absolutePath entries) ->
  createTransaction utf8 io id tool (map me_absolutePath entries)
    (fold_left (fun m e => jset (me_absolutePath e) (me_oldContent e) m) entries []) d = (Ok tx, d') ->
  restores entries tx /\ dk_transactions d' !! id = Some tx.
Proof.
  intros Hnd. unfold createTransaction. destruct (mapM _ _) as [ss|] eqn:Em; [|done]. destruct (io_no_record io); [done|].
  intros [= <- <-]. split; [|apply lookup_insert_eq]. pose proof (snapshot_paths _ _ _ _ _ _ Em) as Hpaths.
  split; cbn [tx_snapshots].
  - intros y Hy. change (map sn_path ss) with (sn_path <$> ss). rewrite Hpaths. by apply elem_of_uniq.
  - intros s Hs. apply mapM_Some in Em. apply list_elem_of_lookup in Hs as [i Hi].
    destruct (Forall2_lookup_r _ _ _ _ _ Em Hi) as (p & Hp & Hsnap).
    apply list_elem_of_lookup_2, (proj1 (elem_of_uniq _ _)) in Hp. pose proof (snapshot_path _ _ _ _ _ _ Hsnap) as Hpath.
    revert Hsnap. unfold snapshot_of. rewrite (jget_fold_set me_absolutePath me_oldContent) by done.
    destruct (find (fun e => me_absolutePath e === p) entries) as [e|] eqn:Ef; [|by apply find_target_None in Ef].
    apply find_some in Ef as [He%list_elem_of_In Hk]. reflect. intros [= <-]. exists e. split; [done|]. split; [done|].
    unfold snapshot_value. cbn. by destruct (me_oldContent e).
Qed.

Lemma record_files_run id tool entries x r :
  left_alone x -> NoDup (map me_absolutePath entries) ->
  match record_files id tool entries r with
  | (out, r') => at_path x (rn_world r') = at_path x (rn_world r) /\ quiet r r' /\
      forall tx, out = Ok tx -> record_of id (rn_world r') = Some tx /\ tx_id tx = id /\ restores entries tx
  end.
Proof.
  intros Hx Hnd. unfold record_files. rewrite bind_run, sys_run.
  set (w := others (rn_calls r) (rn_world r)). destruct (createTransaction _ _ _ _ _ _ _) as [out d] eqn:Ec. cbn [fst snd].
  assert (at_path x (with_disk d w) = at_path x (rn_world r)) as Hat.
  { unfold at_path, files_of. cbn. rewrite (create_files _ _ _ _ _ _ _ _ _ Ec). apply Hx. }
  destruct out as [ft|e].
  - pose proof (created_restores _ _ _ _ _ _ _ Hnd Ec) as [Hre Hrec]. cbn.
    split; [exact Hat|]. split; [done|]. intros tx [= <-]. split; [done|]. split; [|done].
    revert Ec. unfold createTransaction. by repeat case_match; intros [= <- <-].
  - split; [exact Hat|]. split; [done|]. done.
Qed.

Lemma createPatch_transaction txId path old new ft scope verification cwd r patch r' :
  createPatchTransaction txId path old new ft scope verification cwd r = (Ok patch, r') ->
  pa_fileTransaction patch = ft.
Proof.
  unfold createPatchTransaction. intros (? & ? & _ & H)%bind_Ok. apply bind_Ok in H as (? & ? & _ & H).
  by injection H as <- <-.
Qed.

Section outcome.
Context (ftId txId : string) (input : InitManagedTxInput) (verify : Run -> ManagedPatchTransaction -> res string bool)
  (x : string) (r0 : Run).
#[local] Abbreviation cwd := (cwd_of input).
#[local] Abbreviation entries := (entries_of input).
#[local] Abbreviation staged_entries := (map (with_temp txId cwd) entries).
#[local] Abbreviation start := (at_path x (rn_world r0)).
Context (Hx : left_alone x) (Htemps : forall e, e ∈ entries -> left_alone (temp_of txId input e))
  (Hrec : record_kept ftId) (Hap : apart x staged_entries) (Hbelow : below (txTempDir txId cwd) x = false)
  (Hfresh : forall e, e ∈ entries -> me_absolutePath e = x -> me_oldContent e = start).

(** The transaction object and the record that a run of it keeps. *)
Record underway (m0 : ManagedPatchTransaction) (r : Run) : Prop := {
  uw_object : exists m, rn_objects r !! txId = Some m /\ core m = core m0;
  uw_record : exists tx, record_of ftId (rn_world r) = Some tx /\ restores entries tx;
}.

Lemma map_target l : map me_absolutePath (map (with_temp txId cwd) l) = map me_absolutePath l.
Proof. rewrite map_map. done. Qed.
Lemma targets_NoDup : NoDup (map me_absolutePath entries).
Proof. rewrite <- map_target. apply Hap. Qed.

Lemma init_outcome :
  match initManagedTransaction ftId txId input r0 with
  | (Throw _, r1) => at_path x (rn_world r1) = start
  | (Ok m, r1) => at_path x (rn_world r1) = start /\ rn_objects r1 !! txId = Some m /\ underway m r1 /\
      mp_state m = ps_proposed /\ mp_files m = entries /\ mp_cwd m = cwd /\
      tx_id (pa_fileTransaction (mp_patch m)) = ftId
  end.
Proof.
  unfold initManagedTransaction. destruct (in_files input) as [|f fs] eqn:Efiles; [done|].
  fold (cwd_of input). rewrite <- Efiles. fold (entries_of input). pose proof (look_at x Hx) as Lx.
  rewrite bind_run. pose proof (keeps_createCache _ Lx cwd r0) as K1.
  destruct (createResolvedBoundaryCache cwd r0) as [[cache|e] r1]; cbn [snd] in K1; unfold same in K1; [|done].
  rewrite bind_run. pose proof (keeps_forbid_files _ Lx cwd cache entries r1) as K2.
  destruct (forbid_files cwd cache entries r1) as [[[]|e] r2]; cbn [snd] in K2; unfold same in K2; [|by rewrite <- K2, <- K1].
  rewrite bind_run. pose proof (record_files_run ftId (in_tool input) entries x r2 Hx targets_NoDup) as Hrun.
  destruct (record_files ftId (in_tool input) entries r2) as [[tx|e] r3]; destruct Hrun as (K3 & Q & Hrun);
    [|by rewrite K3, <- K2, <- K1].
  destruct (Hrun tx eq_refl) as (Htx & Hid & Hre). rewrite bind_run.
  pose proof (fun a b c d e f g => keeps_createPatch _ Lx a b c d tx e f g r3) as K4.
  pose proof (fun a b c d e f g => keeps_createPatch _ (look_record ftId Hrec) a b c d tx e f g r3) as R4.
  specialize (K4 txId (if_relativePath f) (if_oldContent f) (if_newContent f) (in_scope input) (in_verification input) cwd).
  specialize (R4 txId (if_relativePath f) (if_oldContent f) (if_newContent f) (in_scope input) (in_verification input) cwd).
  destruct (createPatchTransaction _ _ _ _ _ _ _ _ r3) as [[patch|e] r4] eqn:Ep; cbn [snd] in K4, R4; unfold same in K4, R4;
    [|by rewrite <- K4, K3, <- K2, <- K1].
  rewrite bind_run. cbn [modify mret effect_ret rn_world with_registry with_object rn_objects].
  split_and!; [by rewrite <- K4, K3, <- K2, <- K1|apply lookup_insert_eq| |done..|].
  - split; cbn [rn_objects rn_world with_registry with_object].
    + eexists. split; [apply lookup_insert_eq|done].
    + exists tx. by rewrite <- R4.
  - cbn [mp_patch]. apply createPatch_transaction in Ep. by rewrite Ep.
Qed.

(** The file at [x] and the record, together. *)
Definition watched (w : World) : option string * option FileTransaction := (at_path x w, record_of ftId w).
Lemma watched_alone n w : watched (others n w) = watched w.
Proof. unfold watched. by rewrite Hx, Hrec. Qed.
Lemma look_watched A (f : World -> A * World) : (forall w, (f w).2 = w) -> keeps (E:=PatchError) (same watched) (sys f).
Proof. intros Hf. apply same_look; [exact watched_alone|done]. Qed.
Lemma keeps_watched {A} (m : Run_ A) :
  keeps (same (at_path x)) m -> keeps (same (record_of ftId)) m -> keeps (same watched) m.
Proof. intros H1 H2 r. specialize (H1 r). specialize (H2 r). unfold same, watched in *. by rewrite H1, H2. Qed.
Lemma watched_rmTree : keeps (same watched) (rmTree (txTempDir txId cwd)).
Proof.
  apply same_rmTree; [exact watched_alone|]. intros w. unfold watched, at_path, files_of. cbn [with_files wd_disk dk_files].
  f_equal. destruct (dk_files (wd_disk w) !! x) as [c|] eqn:E.
  - by apply map_lookup_filter_Some_2.
  - by apply map_lookup_filter_None_2; left.
Qed.

Lemma temp_x e : e ∈ entries -> temp_of txId input e <> x.
Proof.
  intros He E. destruct Hap as [_ _ H3 _]. apply H3. rewrite map_map.
  rewrite <- E. by apply (map_elem (fun e => Some (temp_of txId input e))).
Qed.
Lemma watched_write_temps written todo : (forall e, e ∈ todo -> e ∈ entries) ->
  keeps (same watched) (write_temps txId cwd written todo).
Proof.
  intros Hin. apply keeps_watched; [apply write_temps_other; [done|]|by apply write_temps_record].
  intros Hm. apply list_elem_of_In, in_map_iff in Hm as (e & He & Hin'). apply (temp_x e); [|done].
  apply Hin. by apply list_elem_of_In.
Qed.

Lemma assert_run a b r : includes (VALID_TRANSITIONS a) b = true -> assertTransition a b r = (Ok tt, r).
Proof. intros H. unfold assertTransition. by rewrite H. Qed.

Lemma underway_step m0 m r r' :
  underway m0 r -> rn_objects r' !! txId = Some m -> core m = core m0 -> same watched r r' -> underway m0 r'.
Proof.
  intros [_ (tx & Htx & Hre)] Hm Hc Hs. injection Hs as _ Hs. split; [by exists m|]. exists tx. by rewrite <- Hs.
Qed.

Lemma apply_outcome r m :
  rn_objects r !! txId = Some m -> mp_state m = ps_proposed -> mp_files m = entries -> mp_cwd m = cwd ->
  match applyToTemp txId r with
  | (out, r') => same watched r r' /\ exists m', rn_objects r' !! txId = Some m' /\ core m' = core m /\
      match out with
      | Ok _ => mp_state m' = ps_applied_to_temp /\ mp_files m' = staged_entries /\ staged (rn_world r') staged_entries
      | Throw _ => mp_state m' = ps_proposed
      end
  end.
Proof.
  intros Hm Hst Hf Hc. unfold applyToTemp. rewrite bind_run, (object_run _ _ _ Hm), bind_run, Hst, Hc, Hf, assert_run by done.
  rewrite bind_run. pose proof (keeps_existsTree _ look_watched (txTempDir txId cwd) r) as K1.
  pose proof (quiet_sys _ r : quiet r (existsTree (txTempDir txId cwd) r).2) as [Q1 _].
  destruct (existsTree _ r) as [[present|e] r1]; cbn [snd] in K1, Q1;
    [|split; [done|exists m; by rewrite <- Q1]].
  rewrite bind_run.
  assert (same watched r1 (when present (or_throw (rmTree (txTempDir txId cwd))) r1).2) as K2.
  { apply keeps_when; [exact _|]. apply keeps_or_throw; [exact _|]. apply watched_rmTree. }
  assert (quiet r1 (when present (or_throw (rmTree (txTempDir txId cwd))) r1).2) as [Q2 _].
  { apply keeps_when; [exact _|]. intros r'. apply or_throw_quiet. }
  destruct (when present _ r1) as [[[]|e] r2]; cbn [snd] in K2, Q2;
    (assert (rn_objects r2 !! txId = Some m) as Hm2 by by rewrite <- Q2, <- Q1);
    [|split; [by etrans|by exists m]].
  rewrite bind_run. pose proof (watched_write_temps [] entries (fun e H => H) r2) as K3.
  pose proof (write_temps_object txId cwd entries [] r2 m Hm2 Hf) as Ho.
  destruct (write_temps txId cwd [] entries r2) as [[[]|e] r3] eqn:Ew; cbn [snd] in K3;
    destruct Ho as (m' & Hm' & Hcore & Hs' & Hfiles).
  2:{ split; [etrans; [exact K1|]; by etrans|]. exists m'. split_and!; [done..|congruence]. }
  rewrite (change_run _ _ _ _ Hm'). split; [etrans; [exact K1|]; by etrans|].
  exists (set_state ps_applied_to_temp m'). cbn [rn_objects with_object rn_world set_state mp_state mp_files].
  split_and!; [apply lookup_insert_eq|by rewrite <- Hcore|done|by apply Hfiles|].
  intros e He. apply list_elem_of_In, in_map_iff in He as (e0 & <- & He0). apply list_elem_of_In in He0.
  exists (temp_of txId input e0). split_and!; [done|by apply Htemps|].
  change (me_newContent (with_temp txId cwd e0)) with (me_newContent e0).
  refine (write_temps_staged txId cwd entries [] r2 r3 _ Htemps Ew e0 He0).
  destruct Hap as [H1 _ _ _]. rewrite map_map in H1.
  assert (map (fun e => me_tempPath (with_temp txId cwd e)) entries = map Some (map (temp_of txId input) entries)) as E
    by (rewrite map_map; done).
  rewrite E in H1. apply NoDup_ListNoDup, NoDup_map_inv in H1. by apply NoDup_ListNoDup.
Qed.

Lemma new_at_staged before : new_at x staged_entries before = new_at x entries before.
Proof.
  unfold new_at. generalize entries. intros l. induction l as [|e l IH]; [done|]. cbn [map find].
  change (me_absolutePath (with_temp txId cwd e)) with (me_absolutePath e).
  by destruct (me_absolutePath e === x).
Qed.

Lemma createCache_run c r : exists cache,
  createResolvedBoundaryCache c r = (Ok cache, with_world (others (rn_calls r) (rn_world r)) (S (rn_calls r)) r).
Proof. unfold createResolvedBoundaryCache, realpathSync. rewrite bind_run, sys_run. by eexists. Qed.

Lemma commit_files_quiet cache es k n r : quiet r (commit_files cwd cache es k n r).2.
Proof. apply keeps_commit_files; [exact _|intros; apply quiet_sys|intros; apply quiet_sys]. Qed.
Lemma commit_files_record cache es k n r : same (record_of ftId) r (commit_files cwd cache es k n r).2.
Proof. apply keeps_commit_files; [exact _|by apply look_record|]. intros. by apply same_rename. Qed.

Lemma commit_outcome r m :
  rn_objects r !! txId = Some m -> mp_state m = ps_verified -> mp_files m = staged_entries -> mp_cwd m = cwd ->
  staged (rn_world r) staged_entries ->
  match commitManagedTransaction txId r with
  | (Ok _, r') => at_path x (rn_world r') = new_at x entries (at_path x (rn_world r)) /\
      exists m', rn_objects r' !! txId = Some m' /\ mp_state m' = ps_committed
  | (Throw e, r') => rn_objects r' = rn_objects r /\ record_of ftId (rn_world r') = record_of ftId (rn_world r) /\
      exists j e0, e = at_commit e0 j (length staged_entries) /\
        (x ∈ map me_absolutePath (take j entries) \/ at_path x (rn_world r') = at_path x (rn_world r))
  end.
Proof.
  intros Hm Hst Hf Hc Hstaged. unfold commitManagedTransaction.
  rewrite bind_run, (object_run _ _ _ Hm), bind_run, Hst, Hc, Hf, assert_run by done. rewrite bind_run.
  destruct (createCache_run cwd r) as [cache ->].
  set (r1 := with_world (others (rn_calls r) (rn_world r)) (S (rn_calls r)) r).
  assert (staged (rn_world r1) staged_entries) as Hstaged1.
  { intros e He. destruct (Hstaged e He) as (t & Ht & Hl & Hcontent). exists t. split_and!; [done..|].
    rewrite <- Hcontent. apply Hl. }
  rewrite bind_run. pose proof (commit_files_at x cwd (length staged_entries) staged_entries cache 0 r1 Hx Hstaged1 Hap) as Hfiles.
  pose proof (commit_files_quiet cache staged_entries 0 (length staged_entries) r1) as [Q _].
  pose proof (commit_files_record cache staged_entries 0 (length staged_entries) r1) as Hr.
  unfold same in Hr. assert (at_path x (rn_world r1) = at_path x (rn_world r)) as Hx1 by apply Hx.
  assert (record_of ftId (rn_world r1) = record_of ftId (rn_world r)) as Hr1 by apply Hrec.
  destruct (commit_files cwd cache staged_entries 0 _ r1) as [[[]|e] r2]; cbn [snd] in Q, Hr.
  - rewrite bind_run. pose proof (watched_rmTree r2) as Hw. pose proof (quiet_sys _ r2 : quiet r2 (rmTree (txTempDir txId cwd) r2).2) as [Q2 _].
    unfold same, watched in Hw. destruct (rmTree (txTempDir txId cwd) r2) as [[o|e] r3] eqn:Erm; cbn [snd] in Hw, Q2;
      [|unfold rmTree in Erm; by rewrite sys_run in Erm]. injection Hw as Hw _.
    assert (rn_objects r3 !! txId = Some m) as Hm3 by by rewrite <- Q2, <- Q.
    rewrite bind_run, (change_run _ _ _ _ Hm3). cbn [mbind effect_bind modify unregister].
    split; [|exists (set_state ps_committed m); split; [apply lookup_insert_eq|done]].
    change (at_path x (rn_world r3) = new_at x entries (at_path x (rn_world r))).
    by rewrite <- Hw, Hfiles, new_at_staged, Hx1.
  - split; [by rewrite <- Q|]. split; [by rewrite <- Hr|].
    destruct Hfiles as (j & e0 & -> & Hj). exists j, e0. split; [done|]. rewrite <- Hx1.
    destruct Hj as [Hj|Hj]; [left|by right]. by rewrite <- map_target, <- firstn_map.
Qed.

Lemma rolled_back_outcome r m reason :
  rn_objects r !! txId = Some m -> mp_state m <> ps_rolled_back -> mp_cwd m = cwd ->
  exists r' m', rollbackManagedTransaction txId reason r = (Ok tt, r') /\ same watched r r' /\
    rn_objects r' !! txId = Some m' /\ mp_state m' = ps_rolled_back.
Proof.
  intros Hm Hst Hc. unfold rollbackManagedTransaction. rewrite bind_run, (object_run _ _ _ Hm), (proj2 (same_neq _ _) Hst).
  rewrite bind_run, (change_run _ _ _ _ Hm), Hc.
  set (m1 := set_reason _ m). set (r1 := with_object txId m1 r).
  assert (rn_objects r1 !! txId = Some m1) as Hm1 by apply lookup_insert_eq.
  rewrite bind_run. pose proof (keeps_existsTree _ look_watched (txTempDir txId cwd) r1) as K1.
  pose proof (quiet_sys _ r1 : quiet r1 (existsTree (txTempDir txId cwd) r1).2) as [Q1 _].
  destruct (existsTree _ r1) as [[present|e] r2] eqn:Ee; cbn [snd] in K1, Q1; [|unfold existsTree in Ee; by rewrite sys_run in Ee].
  rewrite bind_run.
  assert (exists r3, when present (_ ← rmTree (txTempDir txId cwd); mret tt) r2 = (Ok tt, r3) /\ same watched r2 r3 /\
    rn_objects r2 = rn_objects r3) as (r3 & -> & K2 & Q2).
  { unfold when. destruct present; [|by exists r2]. rewrite bind_run.
    pose proof (watched_rmTree r2) as Hw. pose proof (quiet_sys _ r2 : quiet r2 (rmTree (txTempDir txId cwd) r2).2) as [Q2 _].
    unfold rmTree in *. rewrite sys_run in *. by eexists. }
  assert (rn_objects r3 !! txId = Some m1) as Hm3 by by rewrite <- Q2, <- Q1.
  rewrite bind_run, (change_run _ _ _ _ Hm3), bind_run. cbn [unregister modify].
  eexists _, _. rewrite (change_run _ _ (with_registry _ _) (set_files (map (set_temp None) (mp_files m1)) m1)) by apply lookup_insert_eq.
  split; [done|]. split; [|split; [apply lookup_insert_eq|done]]. exact (eq_trans K1 K2).
Qed.

(** *** The reversion *)

(** Nothing refuses to undo: the record can be read, the files that existed can
    be written, in directories that can be made, and the new ones removed. *)
Definition undo_granted (w : World) : bool :=
  negb (io_no_record (wd_io w)) &&
  forallb (fun e =>
    let p := me_absolutePath e in
    match me_oldContent e with
    | Some _ => negb (wd_refuses w (path_dirname p)) && bool_decide (io_unwritable (wd_io w) p = None)
    | None => negb (io_undeletable (wd_io w) p) && match wd_kind w p with Ok k => negb (k === pk_directory) | Throw _ => true end
    end) entries.
Definition undo_left_alone : Prop := forall n w, undo_granted (others n w) = undo_granted w.

Lemma granted_entry w e : undo_granted w = true -> e ∈ entries ->
  match me_oldContent e with
  | Some _ => wd_refuses w (path_dirname (me_absolutePath e)) = false /\ io_unwritable (wd_io w) (me_absolutePath e) = None
  | None => io_undeletable (wd_io w) (me_absolutePath e) = false /\ wd_kind w (me_absolutePath e) <> Ok pk_directory
  end.
Proof.
  unfold undo_granted. rewrite andb_true_iff, forallb_forall. intros [_ H] He. specialize (H e (proj1 (list_elem_of_In _ _) He)).
  cbn in H. destruct (me_oldContent e); apply andb_true_iff in H as [H1%negb_true_iff H2]; split; try done.
  - by apply bool_decide_eq_true in H2.
  - intros E. by rewrite E in H2.
Qed.
Lemma granted_special p w : undo_granted w = true -> undo_granted (without_special p w) = true.
Proof.
  unfold undo_granted. cbn. rewrite !andb_true_iff, !forallb_forall. intros [H1 H2]. split; [done|]. intros e He.
  specialize (H2 e He). destruct (me_oldContent e); [done|]. destruct (me_absolutePath e === p); [|done].
  rewrite andb_true_r. by apply andb_true_iff in H2 as [? _].
Qed.

(** Where nothing refuses, restoring a snapshot goes through. *)
Lemma restore_one_run s res r :
  undo_left_alone -> undo_granted (rn_world r) = true ->
  (exists e, e ∈ entries /\ sn_path s = me_absolutePath e /\ snapshot_value s = me_oldContent e) ->
  exists res' r', restore_one s res r = (Ok res', r') /\ rn_objects r' = rn_objects r /\
    undo_granted (rn_world r') = true /\
    at_path x (rn_world r') = if sn_path s === x then start else at_path x (rn_world r).
Proof.
  intros Hundo Hu (e & He & Hp & Hv). pose proof (fun w H => granted_entry w e H He) as Hg.
  assert (sn_path s = x -> snapshot_value s = start) as Hstart by (intros E; rewrite Hv; apply Hfresh; congruence).
  rewrite <- Hv, <- Hp in Hg. clear e He Hp Hv. revert Hg Hstart. unfold restore_one, snapshot_value.
  destruct (sn_existedBefore s); intros Hg Hstart.
  - set (w1 := others (rn_calls r) (rn_world r)). assert (undo_granted w1 = true) as H1 by (unfold w1; by rewrite Hundo).
    assert (or_throw (mkdirSync (path_dirname (sn_path s))) r = (Ok tt, with_world w1 (S (rn_calls r)) r)) as Hmk.
    { unfold or_throw, mkdirSync. rewrite bind_run, sys_run. fold w1. cbn [fst snd]. by rewrite (proj1 (Hg w1 H1)). }
    set (r1 := with_world w1 (S (rn_calls r)) r) in *. set (w2 := others (S (rn_calls r)) w1).
    assert (undo_granted w2 = true) as H2 by (unfold w2; by rewrite Hundo).
    rewrite bind_run, Hmk, bind_run. unfold or_throw, writeFileSync, put_file. rewrite bind_run, sys_run.
    change (others (rn_calls r1) (rn_world r1)) with w2. rewrite (proj2 (Hg w2 H2)). cbn [fst snd].
    eexists _, _. split; [done|]. split; [done|]. split; [done|]. unfold at_path, files_of. cbn.
    destruct (sn_path s === x) eqn:E; reflect.
    + rewrite E, lookup_insert_eq. by apply Hstart.
    + rewrite lookup_insert_ne by done. change (at_path x w2 = at_path x (rn_world r)). unfold w2, w1. by rewrite !Hx.
  - set (w1 := others (rn_calls r) (rn_world r)). assert (undo_granted w1 = true) as H1 by (unfold w1; by rewrite Hundo).
    set (w2 := others (S (rn_calls r)) w1). assert (undo_granted w2 = true) as H2 by (unfold w2; by rewrite Hundo).
    assert (at_path x w2 = at_path x (rn_world r)) as Hx2 by (unfold w2, w1; by rewrite !Hx).
    assert (at_path x w1 = at_path x (rn_world r)) as Hx1 by (unfold w1; by rewrite !Hx).
    rewrite bind_run. unfold existsSync. rewrite sys_run. fold w1. cbn [fst snd].
    set (r1 := with_world w1 (S (rn_calls r)) r).
    destruct (match files_of w1 !! sn_path s with Some _ => _ | None => _ end) eqn:Epresent.
    + rewrite bind_run. unfold or_throw, rmSync. rewrite bind_run, sys_run.
      change (others (rn_calls r1) (rn_world r1)) with w2. destruct (Hg w2 H2) as [Hdel Hdir]. rewrite Hdel.
      destruct (files_of w2 !! sn_path s) as [c|] eqn:Ec2.
      * eexists _, _. split; [done|]. split; [done|]. split; [done|]. unfold at_path, files_of. cbn.
        destruct (sn_path s === x) eqn:E; reflect.
        -- rewrite E, lookup_delete_eq. by apply Hstart.
        -- by rewrite lookup_delete_ne.
      * assert (sn_path s = x -> at_path x (rn_world r) = start) as Hnone.
        { intros E. rewrite <- Hx2, <- Hstart by done. unfold at_path. by rewrite <- E. }
        destruct (wd_kind w2 (sn_path s)) as [k|err] eqn:Ek.
        -- assert ((k === pk_directory) = false) as -> by (apply same_neq; congruence). cbn [orb].
           eexists _, _. split; [done|]. split; [done|]. split; [by apply granted_special|].
           change (at_path x w2 = if sn_path s === x then start else at_path x (rn_world r)). rewrite Hx2.
           destruct (sn_path s === x) eqn:E; reflect; [by apply Hnone|done].
        -- eexists _, _. split; [done|]. split; [done|]. split; [done|].
           change (at_path x w2 = if sn_path s === x then start else at_path x (rn_world r)). rewrite Hx2.
           destruct (sn_path s === x) eqn:E; reflect; [by apply Hnone|done].
    + eexists _, _. split; [done|]. split; [done|]. split; [done|].
      change (at_path x w1 = if sn_path s === x then start else at_path x (rn_world r)). rewrite Hx1.
      destruct (sn_path s === x) eqn:E; reflect; [|done]. rewrite <- Hx1, <- Hstart by done. unfold at_path. rewrite <- E.
      by destruct (files_of w1 !! sn_path s).
Qed.

Lemma restore_all_run selected ss : forall res r,
  undo_left_alone -> undo_granted (rn_world r) = true ->
  (forall s, s ∈ ss -> exists e, e ∈ entries /\ sn_path s = me_absolutePath e /\ snapshot_value s = me_oldContent e) ->
  exists res' r', restore_all selected ss res r = (Ok res', r') /\ rn_objects r' = rn_objects r /\
    at_path x (rn_world r') =
      if includes (map sn_path ss) x && chosen selected x then start else at_path x (rn_world r).
Proof.
  induction ss as [|s ss IH]; intros res r Hundo Hu Hss; cbn [restore_all]; [by exists res, r|].
  assert (includes (map sn_path (s :: ss)) x = (sn_path s === x) || includes (map sn_path ss) x) as -> by done.
  destruct (skipped selected s) eqn:Es; rewrite skipped_chosen in Es.
  - destruct (IH res r Hundo Hu) as (res' & r' & -> & Ho & Hx'); [intros s' Hs'; apply Hss; by right|].
    exists res', r'. split; [done|]. split; [done|]. rewrite Hx'. destruct (sn_path s === x) eqn:E; [|done].
    apply same_true in E. rewrite <- E. apply negb_true_iff in Es. by rewrite Es, !andb_false_r.
  - destruct (restore_one_run s res r Hundo Hu) as (res1 & r1 & Hrun & Ho1 & Hu1 & Hx1); [apply Hss; left|].
    destruct (IH res1 r1 Hundo Hu1) as (res' & r' & Hrun' & Ho & Hx'); [intros s' Hs'; apply Hss; by right|].
    exists res', r'. rewrite bind_run, Hrun. split; [done|]. split; [congruence|]. rewrite Hx', Hx1.
    destruct (sn_path s === x) eqn:E; [|done]. apply same_true in E. rewrite <- E. apply negb_false_iff in Es. rewrite Es, !andb_true_r.
    by destruct (includes (map sn_path ss) (sn_path s)).
Qed.

Lemma restoring_run selected r tx :
  undo_left_alone -> undo_granted (rn_world r) = true ->
  record_of ftId (rn_world r) = Some tx -> restores entries tx ->
  exists result r', (result ← restoring (uniq <$> selected) ftId; after_rollback ftId result) r = (Ok result, r') /\
    rn_objects r' = rn_objects r /\
    at_path x (rn_world r') =
      if includes (map me_absolutePath entries) x && match selected with Some s => includes s x | None => true end
      then start else at_path x (rn_world r).
Proof.
  intros Hundo Hu Htx [Htargets Hss]. set (w := others (rn_calls r) (rn_world r)).
  assert (record_of ftId w = Some tx) as Hw by by rewrite <- Htx; apply Hrec.
  assert (undo_granted w = true) as Huw by (unfold w; by rewrite Hundo).
  assert (loadTransaction (wd_io w) ftId (wd_disk w) = Ok (Some tx)) as Hload.
  { unfold loadTransaction. unfold record_of in Hw. rewrite Hw. unfold undo_granted in Huw.
    by destruct (io_no_record (wd_io w)). }
  set (r1 := with_world w (S (rn_calls r)) r).
  destruct (restore_all_run (uniq <$> selected) (tx_snapshots tx) (mkRollback [] []) r1 Hundo Huw Hss) as (res & r2 & Hrun & Ho & Hx2).
  eexists _, _. rewrite bind_run. unfold restoring. rewrite bind_run, sys_run. fold w. cbn [fst snd]. rewrite Hload.
  fold r1. rewrite Hrun. split; [done|]. split; [exact Ho|].
  change (at_path x (rn_world r2) = if includes (map me_absolutePath entries) x && match selected with Some s => includes s x | None => true end
    then start else at_path x (rn_world r)). rewrite Hx2.
  assert (includes (map sn_path (tx_snapshots tx)) x = includes (map me_absolutePath entries) x) as ->.
  { apply eq_true_iff_eq. rewrite !includes_true. split; [|apply Htargets].
    intros (s & Hs & Hin)%list_elem_of_In%in_map_iff. apply list_elem_of_In in Hin. destruct (Hss s Hin) as (e & He & Hp & _).
    rewrite <- Hs, Hp. by apply map_elem. }
  assert (chosen (uniq <$> selected) x = match selected with Some s => includes s x | None => true end) as ->.
  { destruct selected as [s|]; [|done]. cbn. apply eq_true_iff_eq. by rewrite !includes_true, elem_of_uniq. }
  assert (at_path x (rn_world r1) = at_path x (rn_world r)) as -> by apply Hx. done.
Qed.

Lemma in_prefix {A} (f : A -> string) (l : list A) j y : y ∈ map f (take j l) -> y ∈ map f l.
Proof. intros H. rewrite <- (take_drop j l), map_app, elem_of_app. by left. Qed.

Lemma revert_all r tx :
  undo_left_alone -> undo_granted (rn_world r) = true ->
  record_of ftId (rn_world r) = Some tx -> restores entries tx ->
  (at_path x (rn_world r) = start \/ x ∈ map me_absolutePath entries) ->
  exists r', (_ ← attempt (rollbackCommittedTransaction ftId); mret tt) r = (Ok (E:=PatchError) tt, r') /\
    at_path x (rn_world r') = start /\ rn_objects r' = rn_objects r.
Proof.
  intros Hundo Hu Htx Hre Hat. destruct (restoring_run None r tx Hundo Hu Htx Hre) as (result & r' & Hrun & Ho & Hx'). exists r'.
  rewrite bind_run. unfold attempt, rollbackCommittedTransaction. cbn [fmap option_fmap option_map] in Hrun. rewrite Hrun. split; [done|]. split; [|done].
  rewrite Hx', andb_true_r. destruct (includes _ x) eqn:Ei; [done|]. apply includes_false in Ei. by destruct Hat.
Qed.
Lemma revert_prefix paths r tx :
  undo_left_alone -> undo_granted (rn_world r) = true ->
  record_of ftId (rn_world r) = Some tx -> restores entries tx ->
  (forall y, y ∈ paths -> y ∈ map me_absolutePath entries) ->
  (at_path x (rn_world r) = start \/ x ∈ paths) ->
  exists r', when (negb (bool_decide (paths = [])))
      (_ ← attempt (rollbackCommittedTransactionPaths ftId paths); mret tt) r = (Ok tt, r') /\
    at_path x (rn_world r') = start /\ rn_objects r' = rn_objects r.
Proof.
  intros Hundo Hu Htx Hre Hsub Hat. case_bool_decide as Hnil; cbn [negb when].
  { exists r. split; [done|]. split; [|done]. destruct Hat as [?|Hin]; [done|]. rewrite Hnil in Hin. by apply not_elem_of_nil in Hin. }
  destruct (restoring_run (Some paths) r tx Hundo Hu Htx Hre) as (result & r' & Hrun & Ho & Hx'). exists r'.
  rewrite bind_run. unfold attempt, rollbackCommittedTransactionPaths. cbn [fmap option_fmap option_map] in Hrun. rewrite Hrun. split; [done|]. split; [|done].
  rewrite Hx'. destruct (includes paths x) eqn:Ei.
  - apply includes_true, Hsub, includes_true in Ei. by rewrite Ei.
  - rewrite andb_false_r. apply includes_false in Ei. by destruct Hat.
Qed.

Lemma revert_outcome m e r tx :
  undo_left_alone -> undo_granted (rn_world r) = true ->
  tx_id (pa_fileTransaction (mp_patch m)) = ftId -> map me_absolutePath (mp_files m) = map me_absolutePath entries ->
  record_of ftId (rn_world r) = Some tx -> restores entries tx ->
  (at_path x (rn_world r) = start \/
   exists j e0 n, e = at_commit e0 j n /\ x ∈ map me_absolutePath (take j entries)) ->
  exists r', revert m e r = (Ok tt, r') /\ at_path x (rn_world r') = start /\ rn_objects r' = rn_objects r.
Proof.
  intros Hundo Hu Hid Hfiles Htx Hre Hat. unfold revert. rewrite Hid.
  assert (forall j, map me_absolutePath (take j (mp_files m)) = map me_absolutePath (take j entries)) as Htake
    by (intros j; by rewrite <- !firstn_map, Hfiles).
  assert (forall j y, y ∈ map me_absolutePath (take j (mp_files m)) -> y ∈ map me_absolutePath entries) as Hsub.
  { intros j y. rewrite Htake. apply in_prefix. }
  assert (at_path x (rn_world r) = start \/ x ∈ map me_absolutePath entries) as Hany.
  { destruct Hat as [?|(j & e0 & n & _ & Hj)]; [by left|right; by eapply in_prefix]. }
  destruct e; try (by apply (revert_all r tx)); apply (revert_prefix _ r tx Hundo Hu Htx Hre (Hsub _));
    (destruct Hat as [?|(j & e0 & n & He & Hj)]; [by left|right]); rewrite Htake;
    destruct e0; cbn in He; try done; by injection He as _ _ _ _ -> _ || injection He as _ _ -> _.
Qed.

Lemma try_outcome r m :
  rn_objects r !! txId = Some m -> mp_state m = ps_proposed -> mp_files m = entries -> mp_cwd m = cwd ->
  match apply_verify_commit txId verify r with
  | (Ok _, r') => exists m', rn_objects r' !! txId = Some m' /\
      (mp_state m' = ps_committed /\ at_path x (rn_world r') = new_at x entries (at_path x (rn_world r)) \/
       mp_state m' = ps_rolled_back /\ (exists r1 m1, verify r1 m1 = Ok false) /\
       at_path x (rn_world r') = at_path x (rn_world r))
  | (Throw e, r') => exists m', rn_objects r' !! txId = Some m' /\ core m' = core m /\
      mp_state m' <> ps_committed /\ mp_state m' <> ps_rolled_back /\
      record_of ftId (rn_world r') = record_of ftId (rn_world r) /\
      (at_path x (rn_world r') = at_path x (rn_world r) \/
       exists j e0 n, e = at_commit e0 j n /\ x ∈ map me_absolutePath (take j entries))
  end.
Proof.
  intros Hm Hst Hf Hc. unfold apply_verify_commit. rewrite bind_run. pose proof (apply_outcome r m Hm Hst Hf Hc) as Happ.
  destruct (applyToTemp txId r) as [[[]|e] r1]; destruct Happ as (Hw & m1 & Hm1 & Hcore & Hrest); injection Hw as Hwx Hwr.
  2:{ exists m1. rewrite Hrest. split_and!; try done. by left. }
  destruct Hrest as (Hst1 & Hf1 & Hstaged). assert (mp_cwd m1 = cwd) as Hc1 by (injection Hcore; congruence).
  rewrite bind_run. cbn [read]. rewrite bind_run, (object_run _ _ _ Hm1). destruct (verify r1 m1) as [[]|e] eqn:Everify.
  - rewrite bind_run. unfold verifyManagedTransaction. rewrite bind_run, (object_run _ _ _ Hm1), bind_run, Hst1, assert_run by done.
    rewrite (change_run _ _ _ _ Hm1). set (m2 := set_state ps_verified m1). set (r2 := with_object txId m2 r1).
    pose proof (commit_outcome r2 m2 ltac:(apply lookup_insert_eq) eq_refl Hf1 Hc1 Hstaged) as Hcom.
    destruct (commitManagedTransaction txId r2) as [[[]|e] r3].
    + destruct Hcom as (Hx3 & m3 & Hm3 & Hst3). exists m3. split; [done|]. left. split; [done|]. by rewrite Hx3, Hwx.
    + destruct Hcom as (Ho & Hr & j & e0 & -> & Hj). exists m2. rewrite Ho, Hwr. split_and!; try done; [apply lookup_insert_eq|].
      destruct Hj as [Hj|Hj]; [right; by eexists j, e0, _|left]. rewrite Hj. by symmetry.
  - destruct (rolled_back_outcome r1 m1 (Some (rr_text "verification failed")) Hm1 ltac:(by rewrite Hst1) Hc1)
      as (r2 & m2 & -> & Hw2 & Hm2 & Hst2). injection Hw2 as Hw2 _. exists m2. split; [done|].
    right. split; [done|]. split; [by exists r1, m1|]. congruence.
  - exists m1. rewrite Hst1. split_and!; try done. by left.
Qed.

(** No step of a transaction takes away what may be undone. *)
Lemma granted_try r : undo_left_alone ->
  undo_granted (rn_world (apply_verify_commit txId verify r).2) = undo_granted (rn_world r).
Proof.
  intros Hundo. symmetry. revert r. change (keeps (same undo_granted) (apply_verify_commit txId verify)).
  assert (forall A (f : World -> A * World), (forall w, (f w).2 = w) -> keeps (E:=PatchError) (same undo_granted) (sys f)) as Hlook
    by (intros A f; by apply same_look).
  assert (forall dir, keeps (same undo_granted) (rmTree dir)) as Hrm by (intros dir; by apply same_rmTree).
  assert (forall txId f, keeps (same undo_granted) (change txId f)) as Hch by (intros; apply same_change).
  assert (forall id, keeps (same undo_granted) (object id)) as Hob by (intros; apply keeps_object; exact _).
  assert (forall f : Run -> Run, (forall r, rn_world (f r) = rn_world r) -> keeps (E:=PatchError) (same undo_granted) (modify f)) as Hmod
    by (intros f; apply same_update).
  assert (forall c todo written, keeps (same undo_granted) (write_temps txId c written todo)) as Hwrite.
  { intros c todo. induction todo as [|e todo IH]; intros written; cbn [write_temps]; [apply keeps_ret; exact _|].
    apply keeps_bind; [exact _|apply keeps_or_throw; [exact _|]; by apply Hlook|intros _].
    apply keeps_bind; [exact _|apply keeps_or_throw; [exact _|]; by apply same_write|intros _].
    apply keeps_bind; [exact _|done|intros _; apply IH]. }
  assert (forall a b, keeps (same undo_granted) (assertTransition a b)) as Has
    by (intros a b; unfold assertTransition; destruct (includes _ _); [apply keeps_ret|apply keeps_lift]; exact _).
  unfold apply_verify_commit. apply keeps_bind; [exact _| |intros _].
  { unfold applyToTemp. apply keeps_bind; [exact _|done|intros m]. apply keeps_bind; [exact _|done|intros _].
    apply keeps_bind; [exact _|by apply Hlook|intros present].
    apply keeps_bind; [exact _|apply keeps_when; [exact _|]; apply keeps_or_throw; [exact _|done]|intros _].
    apply keeps_bind; [exact _|done|done]. }
  apply keeps_bind; [exact _|apply keeps_read; exact _|intros r1]. apply keeps_bind; [exact _|done|intros m].
  destruct (verify r1 m) as [[]|e]; [| |apply keeps_lift; exact _].
  - apply keeps_bind; [exact _| |intros _].
    { unfold verifyManagedTransaction. apply keeps_bind; [exact _|done|intros m']. apply keeps_bind; [exact _|done|done]. }
    unfold commitManagedTransaction. apply keeps_bind; [exact _|done|intros m']. apply keeps_bind; [exact _|done|intros _].
    apply keeps_bind; [exact _|apply (keeps_createCache _ Hlook)|intros cache].
    apply keeps_bind; [exact _|apply keeps_commit_files; [exact _|done|]; intros; by apply same_rename|intros _].
    apply keeps_bind; [exact _|done|intros _]. apply keeps_bind; [exact _|done|intros _].
    apply keeps_bind; [exact _|by apply Hmod|intros _]. by apply Hmod.
  - unfold rollbackManagedTransaction. apply keeps_bind; [exact _|done|intros m']. case_match; [apply keeps_ret; exact _|].
    apply keeps_bind; [exact _|done|intros _]. apply keeps_bind; [exact _|by apply Hlook|intros present].
    apply keeps_bind; [exact _|apply keeps_when; [exact _|]; apply keeps_bind; [exact _|done|intros _; apply keeps_ret; exact _]|intros _].
    apply keeps_bind; [exact _|done|intros _]. apply keeps_bind; [exact _|by apply Hmod|intros _]. done.
Qed.
Lemma granted_init r : undo_left_alone ->
  undo_granted (rn_world (initManagedTransaction ftId txId input r).2) = undo_granted (rn_world r).
Proof.
  intros Hundo. symmetry. revert r. change (keeps (same undo_granted) (initManagedTransaction ftId txId input)).
  assert (forall A (f : World -> A * World), (forall w, (f w).2 = w) -> keeps (E:=PatchError) (same undo_granted) (sys f)) as Hlook
    by (intros A f; by apply same_look).
  unfold initManagedTransaction. destruct (in_files input); [apply keeps_lift; exact _|].
  apply keeps_bind; [exact _|apply (keeps_createCache _ Hlook)|intros cache].
  apply keeps_bind; [exact _|apply (keeps_forbid_files _ Hlook)|intros _]. apply keeps_bind; [exact _| |intros ft].
  { unfold record_files. apply keeps_bind; [exact _| |intros [ft|e]; [apply keeps_ret|apply keeps_lift]; exact _].
    apply same_sys; [exact Hundo|]. intros w. by destruct (createTransaction _ _ _ _ _ _ _). }
  apply keeps_bind; [exact _|apply (keeps_createPatch _ Hlook)|intros patch].
  apply keeps_bind; [exact _|by apply same_update|intros _; apply keeps_ret; exact _].
Qed.

Lemma applyAndCommit_outcome :
  match applyAndCommit ftId txId input verify r0 with
  | (Ok m, r') => mp_state m = ps_committed /\ at_path x (rn_world r') = new_at x entries start \/
                  mp_state m = ps_rolled_back /\ (exists r1 m1, verify r1 m1 = Ok false) /\
                  at_path x (rn_world r') = start
  | (Throw _, r') => undo_left_alone -> undo_granted (rn_world r0) = true -> at_path x (rn_world r') = start
  end.
Proof.
  unfold applyAndCommit. rewrite bind_run. pose proof init_outcome as Hinit. pose proof (granted_init r0) as Hu1.
  destruct (initManagedTransaction ftId txId input r0) as [[m|e] r1]; [|done].
  destruct Hinit as (Hx1 & Hm & [_ (tx & Htx & Hre)] & Hst & Hf & Hc & Hid).
  rewrite bind_run. unfold attempt. pose proof (try_outcome r1 m Hm Hst Hf Hc) as Htry. pose proof (granted_try r1) as Hu2.
  destruct (apply_verify_commit txId verify r1) as [[[]|e] r2].
  - destruct Htry as (m2 & Hm2 & Hcases). rewrite (object_run _ _ _ Hm2). by rewrite Hx1 in Hcases.
  - destruct Htry as (m2 & Hm2 & Hcore & Hs1 & Hs2 & Hr & Hat). rewrite bind_run, (object_run _ _ _ Hm2), bind_run.
    rewrite (proj2 (same_neq _ _) Hs1), (proj2 (same_neq _ _) Hs2). cbn [negb andb when].
    set (tail := _ ← revert m2 e; rollbackManagedTransaction txId (Some (rr_error e))).
    assert (undo_left_alone -> undo_granted (rn_world r0) = true -> at_path x (rn_world (tail r2).2) = start) as Htail.
    2: { by destruct (tail r2) as [[[]|e'] r3]. }
    intros Hundo Hu. unfold tail. rewrite bind_run. cbn [snd] in Hu1, Hu2.
    assert (undo_granted (rn_world r2) = true) as Hu3 by by rewrite (Hu2 Hundo), (Hu1 Hundo).
    injection Hcore as Hpatch Hcwd Hfiles.
    assert (map me_absolutePath (mp_files m2) = map me_absolutePath entries) as Hf2.
    { rewrite <- Hf. assert (forall l, map me_absolutePath (map (set_temp None) l) = map me_absolutePath l) as E
        by (intros l; by rewrite map_map). by rewrite <- E, Hfiles, E. }
    destruct (revert_outcome m2 e r2 tx) as (r3 & Hrun & Hx3 & Ho3); [done|done|by rewrite Hpatch|done|by rewrite Hr|done| |].
    { by rewrite Hx1 in Hat. }
    rewrite Hrun.
    destruct (rolled_back_outcome r3 m2 (Some (rr_error e))) as (r4 & m4 & Hrun4 & Hw4 & _); [by rewrite Ho3|done|by rewrite Hcwd|].
    rewrite Hrun4. injection Hw4 as Hw4 _. cbn [snd]. by rewrite <- Hw4.
Qed.
End outcome.

(** C17: A file tool changes all of a file or nothing of it: take any path that
    other processes leave alone during the call, together with the transaction's
    temporary files and its record, whatever they do elsewhere; if the file is one
    the transaction targets, it starts with the content that was approved. Then,
    when the transaction ends committed, the path has the new content of its
    entry, or is unchanged if it has none; when it ends rolled back, which takes a
    verification that answers no, it has exactly what it had at the start; and so
    it has with any error, a conflict on another file in the middle of the commit
    or a write that fails half-way included, as long as nothing refuses to undo
    what was done to the targets: the record can be read, the files that existed
    written and the new ones removed. Without that the reversion is the best
    effort of its catch, a system call per step up to the first that fails. *)
Theorem patch_all_or_nothing ftId txId input verify x r0 :
  left_alone x -> (forall e, e ∈ entries_of input -> left_alone (temp_of txId input e)) -> record_kept ftId ->
  apart x (map (with_temp txId (cwd_of input)) (entries_of input)) ->
  below (txTempDir txId (cwd_of input)) x = false ->
  (forall e, e ∈ entries_of input -> me_absolutePath e = x -> me_oldContent e = run_files r0 !! x) ->
  match applyAndCommit ftId txId input verify r0 with
  | (Ok m, r') =>
      mp_state m = ps_committed /\
      run_files r' !! x = match find (fun e => me_absolutePath e === x) (entries_of input) with
                          | Some e => Some (me_newContent e)
                          | None => run_files r0 !! x
                          end \/
      mp_state m = ps_rolled_back /\ (exists r1 m1, verify r1 m1 = Ok false) /\ run_files r' !! x = run_files r0 !! x
  | (Throw _, r') =>
      undo_left_alone input -> undo_granted input (rn_world r0) = true -> run_files r' !! x = run_files r0 !! x
  end.
Proof. apply applyAndCommit_outcome. Qed.

(** ** What is replaced was approved *)

(** The content an entry may replace: none, or one with the approved hash. *)
Definition approved_in (w : World) (e : ManagedFileEntry) : Prop :=
  match me_expectedBaseHash e with
  | None => files_of w !! me_absolutePath e = None /\ wd_kind w (me_absolutePath e) = Throw ENOENT
  | Some hash => exists c, files_of w !! me_absolutePath e = Some c /\ String.substring 0 16 (sha256 (utf8 c)) = hash
  end.

(** A check that matches saw such a content in its last look. *)
Lemma check_approved e r check r' :
  checkBaseHash (me_absolutePath e) (me_expectedBaseHash e) r = (Ok check, r') -> hc_match check = true ->
  approved_in (rn_world r') e.
Proof.
  unfold checkBaseHash, probeFileHash, lstatSync, readFileSync, approved_in. intros H Hmatch.
  rewrite !bind_run, sys_run in H. set (w := others (rn_calls r) (rn_world r)) in *. cbn [fst snd] in H.
  destruct (files_of w !! me_absolutePath e) as [c|] eqn:Ef.
  - cbn [negb] in H. rewrite same_refl in H. cbn [negb] in H. rewrite bind_run, sys_run in H.
    set (w2 := others _ _) in H. cbn [fst snd] in H.
    destruct (files_of w2 !! me_absolutePath e) as [c2|] eqn:Ef2.
    + destruct (wd_unreadable w2 (me_absolutePath e)); cbn [mret effect_ret] in H; injection H as <- <-.
      * destruct (me_expectedBaseHash e); cbn in Hmatch; done.
      * destruct (me_expectedBaseHash e) as [h|]; cbn in Hmatch; [|done]. reflect. injection Hmatch as <-. by exists c2.
    + destruct (wd_kind w2 (me_absolutePath e)) as [k|[]] eqn:Ek; cbn [mret effect_ret] in H; injection H as <- <-;
        destruct (me_expectedBaseHash e); cbn in Hmatch; done.
  - destruct (wd_kind w (me_absolutePath e)) as [k|[]] eqn:Ek; cbn [mret effect_ret] in H.
    + destruct (k === pk_file); cbn [negb] in H; [|by injection H as <- <-; destruct (me_expectedBaseHash e)].
      rewrite bind_run, sys_run in H. set (w2 := others _ _) in H. cbn [fst snd] in H.
      destruct (files_of w2 !! me_absolutePath e) as [c2|] eqn:Ef2.
      * destruct (wd_unreadable w2 (me_absolutePath e)); cbn [mret effect_ret] in H; injection H as <- <-;
          (destruct (me_expectedBaseHash e) as [h|]; cbn in Hmatch; [|done]); try done.
        reflect. injection Hmatch as <-. by exists c2.
      * destruct (wd_kind w2 (me_absolutePath e)) as [k2|[]] eqn:Ek2; cbn [mret effect_ret] in H; injection H as <- <-;
          destruct (me_expectedBaseHash e); cbn in Hmatch; done.
    + injection H as <- <-. by destruct (me_expectedBaseHash e).
    + injection H as <- <-. by destruct (me_expectedBaseHash e).
Qed.

Lemma checks_approved cwd temp cache e r cache' r' :
  commit_checks cwd temp cache e r = (Ok cache', r') -> approved_in (rn_world r') e.
Proof.
  unfold commit_checks. intros (present & r1 & _ & H)%bind_Ok. destruct present; [|done].
  apply bind_Ok in H as (before & r2 & _ & H). destruct before.1; [done|].
  apply bind_Ok in H as ([] & r3 & _ & H). apply bind_Ok in H as (after & r4 & _ & H). destruct after.1; [done|].
  apply bind_Ok in H as (check & r5 & Hcheck & H). destruct (hc_match check) eqn:Hm; [|done].
  injection H as <- <-. by eapply check_approved.
Qed.

(** What [k] steps of other processes from the [n]-th on make of a world. *)
Fixpoint steps (n k : nat) (w : World) : World :=
  match k with 0 => w | S k => others (n + k) (steps n k w) end.
Lemma steps_add n a b w : steps n (a + b) w = steps (n + a) b (steps n a w).
Proof.
  induction b as [|b IH]; [by rewrite Nat.add_0_r|]. rewrite Nat.add_succ_r. cbn [steps]. by rewrite IH, Nat.add_assoc.
Qed.

(** A run that only looks: every change of its world is one of the others. *)
Definition looked : relation Run := fun r r' =>
  exists k, rn_calls r' = rn_calls r + k /\ rn_world r' = steps (rn_calls r) k (rn_world r).
#[local] Instance looked_preorder : PreOrder looked.
Proof.
  split; [intros r; exists 0; by rewrite Nat.add_0_r|]. intros r1 r2 r3 (a & Ha & Hwa) (b & Hb & Hwb). exists (a + b).
  rewrite Hb, Ha, Nat.add_assoc. split; [done|]. by rewrite Hwb, Hwa, Ha, steps_add.
Qed.
Lemma looked_sys A (f : World -> A * World) : (forall w, (f w).2 = w) -> keeps (E:=PatchError) looked (sys f).
Proof.
  intros Hf r. rewrite sys_run. cbn [snd]. exists 1. cbn [with_world rn_calls rn_world steps].
  rewrite Hf, Nat.add_0_r. split; [lia|done].
Qed.

(** C18: A file moves into place only over what was approved: when one file of a
    commit succeeds, whatever other processes do at any moment, the checks of the
    run were k system calls, at least one, that changed nothing, and the world of
    the last of them, which is the world the run started in after the first k
    steps of the other processes, has at the target a content with the expected
    hash (or, for a new file, nothing). The move is the very next call, so that
    one step of other processes lies between that look and the move, which takes
    the whole temporary file to the target and touches nothing else. *)
Theorem installed_over_approved cwd cache e r cache' r' :
  commit_file cwd cache e r = (Ok cache', r') ->
  exists k temp content,
    let seen := steps (rn_calls r) k (rn_world r) in
    let met := files_of (others (rn_calls r + k) seen) in
    0 < k /\ rn_calls r' = S (rn_calls r + k) /\ me_tempPath e = Some temp /\
    match me_expectedBaseHash e with
    | None => files_of seen !! me_absolutePath e = None /\ wd_kind seen (me_absolutePath e) = Throw ENOENT
    | Some hash => exists c, files_of seen !! me_absolutePath e = Some c /\ String.substring 0 16 (sha256 (utf8 c)) = hash
    end /\
    met !! temp = Some content /\ run_files r' = <[me_absolutePath e := content]> (delete temp met).
Proof.
  unfold commit_file. destruct (me_tempPath e) as [temp|]; [|done].
  intros (cache1 & r1 & Hchecks & H)%bind_Ok. pose proof (checks_approved _ _ _ _ _ _ _ Hchecks) as Happ.
  assert (exists k, 0 < k /\ rn_calls r1 = rn_calls r + k /\ rn_world r1 = steps (rn_calls r) k (rn_world r))
    as (k & Hk & Hcalls & Hworld).
  { revert Hchecks. unfold commit_checks. intros (present & r2 & Hp & Hrest)%bind_Ok.
    match type of Hrest with ?m r2 = _ => assert (keeps looked m) as Hkeep end.
    { pose proof looked_sys as Hlook. destruct present; [|apply keeps_lift; exact _].
      apply keeps_bind; [exact _|apply (keeps_forbidden _ Hlook)|intros before].
      destruct before.1; [apply keeps_lift; exact _|].
      apply keeps_bind; [exact _|apply keeps_or_throw; [exact _|]; by apply Hlook|intros _].
      apply keeps_bind; [exact _|apply (keeps_forbidden _ Hlook)|intros after].
      destruct after.1; [apply keeps_lift; exact _|].
      apply keeps_bind; [exact _|apply (keeps_checkBaseHash _ Hlook)|intros check].
      destruct (hc_match check); [apply keeps_ret|apply keeps_lift]; exact _. }
    specialize (Hkeep r2). rewrite Hrest in Hkeep. destruct Hkeep as (k & Hc & Hw). cbn [snd] in Hc, Hw.
    unfold existsSync in Hp. rewrite sys_run in Hp. cbn [fst snd] in Hp. injection Hp as _ <-. cbn in Hc, Hw.
    exists (1 + k). split; [lia|]. split; [rewrite Hc; lia|]. rewrite Hw, steps_add, Nat.add_1_r. cbn [steps]. by rewrite Nat.add_0_r. }
  apply bind_Ok in H as ([] & r2 & Hr & [= <- <-]). pose proof (rename_run temp (me_absolutePath e) r1) as Hrun.
  rewrite Hr in Hrun. destruct Hrun as (content & Hc & Hf). exists k, temp, content. cbn zeta.
  rewrite <- Hworld, <- Hcalls. split; [done|]. split; [|by split_and!].
  unfold or_throw, renameSync in Hr. rewrite bind_run, sys_run in Hr. cbn [fst snd] in Hr.
  repeat case_match; try done; by injection Hr as <-.
Qed.

(** ** Evidence and the commit history *)

(** The operations that change the workspace under a transaction. *)
Inductive HistoryStep : Run -> Run -> Prop :=
| hs_commit txId r r' : commitManagedTransaction txId r = (Ok tt, r') -> HistoryStep r r'
| hs_rollback id r result r' : rollbackCommittedTransaction id r = (Ok result, r') -> HistoryStep r r'
| hs_rollback_paths id paths r result r' : rollbackCommittedTransactionPaths id paths r = (Ok result, r') -> HistoryStep r r'.

Lemma commit_files_history cwd cache es k n r : quiet r (commit_files cwd cache es k n r).2.
Proof. apply keeps_commit_files; [exact _|intros; apply quiet_sys|intros; apply quiet_sys]. Qed.

Lemma restoring_quiet selected id : keeps quiet (restoring selected id).
Proof.
  apply keeps_bind; [exact _|apply quiet_sys|]. intros [[tx|]|e]; [|apply keeps_lift; exact _..].
  generalize (mkRollback [] []). induction (tx_snapshots tx) as [|s ss IH]; intros res; cbn [restore_all]; [apply keeps_ret; exact _|].
  destruct (skipped selected s); [apply IH|]. apply keeps_bind; [exact _| |apply IH]. unfold restore_one.
  destruct (sn_existedBefore s).
  - apply keeps_bind; [exact _|apply keeps_or_throw; [exact _|]; apply quiet_sys|]. intros _.
    apply keeps_bind; [exact _|apply keeps_or_throw; [exact _|]; apply quiet_sys|]. intros _. apply keeps_ret; exact _.
  - apply keeps_bind; [exact _|apply quiet_sys|]. intros []; [|apply keeps_ret; exact _].
    apply keeps_bind; [exact _|apply keeps_or_throw; [exact _|]; apply quiet_sys|]. intros _. apply keeps_ret; exact _.
Qed.

Lemma restoring_history selected id r result r' :
  (result ← restoring selected id; after_rollback id result) r = (Ok result, r') ->
  rn_evidence r' = advance ("rb" +:+ nul) id (rn_evidence r) /\
  rf_writeGeneration (rn_fileState r') = (rf_writeGeneration (rn_fileState r) + 1)%Z.
Proof.
  intros (res1 & r1 & H1 & H)%bind_Ok. pose proof (restoring_quiet selected id r) as (_ & _ & He & Hf & _).
  rewrite H1 in He, Hf. cbn [snd] in He, Hf. rewrite He, Hf. injection H as <- <-. done.
Qed.

Lemma commit_history txId r r' :
  commitManagedTransaction txId r = (Ok tt, r') -> rn_evidence r' = advance "" txId (rn_evidence r).
Proof.
  unfold commitManagedTransaction. intros (m & r1 & Ho & H)%bind_Ok.
  assert (r1 = r) as ->.
  { unfold object in Ho. rewrite bind_run in Ho. cbn [read] in Ho. destruct (rn_objects r !! txId); [by injection Ho|done]. }
  apply bind_Ok in H as ([] & r2 & Ha & H). unfold assertTransition in Ha. destruct (includes _ _); [injection Ha as <-|done].
  apply bind_Ok in H as (cache & r3 & Hc & H). destruct (createCache_run (mp_cwd m) r) as [cache1 Hc1]. rewrite Hc1 in Hc.
  injection Hc as <- <-. apply bind_Ok in H as ([] & r4 & Hf & H).
  pose proof (commit_files_history (mp_cwd m) cache1 (mp_files m) 0 (length (mp_files m))
    (with_world (others (rn_calls r) (rn_world r)) (S (rn_calls r)) r)) as (_ & _ & Q & _). rewrite Hf in Q.
  apply bind_Ok in H as (o & r5 & Hrm & H). unfold rmTree in Hrm. rewrite sys_run in Hrm. injection Hrm as _ <-.
  apply bind_Ok in H as ([] & r6 & Hch & H). apply bind_Ok in H as ([] & r7 & [= <-] & [= <-]).
  assert (rn_evidence r6 = rn_evidence r4) as E6.
  { unfold change in Hch. apply bind_Ok in Hch as (m' & r8 & Ho' & [= <-]). unfold object in Ho'. rewrite bind_run in Ho'.
    cbn [read] in Ho'. destruct (_ !! _); [by injection Ho' as _ <-|done]. }
  cbn [snd] in Q. cbn. rewrite E6. cbn. by rewrite <- Q.
Qed.

Lemma latest_in ledger kind e : latestEvidence ledger kind = Some e -> e ∈ ledger.
Proof. unfold latestEvidence. intros [He _]%find_some. apply in_rev in He. by apply list_elem_of_In. Qed.

(** No change of the workspace leaves old evidence standing: after a commit, or
    after a rollback of a whole transaction or of some of its paths, evidence that
    was bound to the commit history at any earlier point is no longer fresh for
    the binding of the run, whatever its kind and generation, even when the
    rollback brings back the very files it was collected on. *)
Theorem change_outdates_evidence r r' ledger kind generation required binding :
  HistoryStep r r' ->
  (forall e b, e ∈ ledger -> ev_transaction e = Some b -> (tb_transactionCount b <= ch_transactionCount (rn_evidence r))%Z) ->
  currentTransactionEvidenceBinding r' = Some binding ->
  hasFreshPassingEvidence ledger kind generation (Some binding) required = false.
Proof.
  intros Hstep Hledger Hb.
  assert (ch_transactionCount (rn_evidence r') = ch_transactionCount (rn_evidence r) + 1)%Z as Hcount.
  { destruct Hstep as [txId r r' H|id r result r' H|id paths r result r' H];
      [apply commit_history in H|apply restoring_history in H as [H _]..]; by rewrite H. }
  unfold currentTransactionEvidenceBinding in Hb. destruct (hasRuntimeUnmanagedWrites _); [done|].
  destruct (ch_latestTransactionId _) as [latest|]; [|done]. destruct (_ || _); [done|]. injection Hb as <-.
  unfold hasFreshPassingEvidence. destruct (latestEvidence ledger kind) as [e|] eqn:El; [|done].
  destruct (default false (ev_stale e) || negb (ev_passed e)); [done|].
  destruct (match generation with Some g => _ | None => _ end); [done|]. unfold transactionMatches. cbn [tb_stateId tb_transactionCount].
  destruct (ev_transaction e) as [b|] eqn:Eb; [|done]. apply latest_in in El. pose proof (Hledger e b El Eb) as Hle.
  rewrite Hcount. destruct (tb_transactionCount b =? _)%Z eqn:Ez; reflect; [lia|]. by rewrite andb_false_r.
Qed.

(** A commit is refused in every state but [verified], before it has looked at
    a file. *)
Lemma commit_needs_verified txId r m :
  rn_objects r !! txId = Some m -> mp_state m <> ps_verified ->
  commitManagedTransaction txId r = (Throw (e_transition (mp_state m) ps_committed), r).
Proof.
  intros Hm Hst. unfold commitManagedTransaction. rewrite bind_run, (object_run _ _ _ Hm), bind_run.
  unfold assertTransition. by destruct (mp_state m).
Qed.

(** Each new line is counted once, as added or as unchanged. *)
Lemma diff_counts old new path :
  (df_added (generateLineDiff old new path) + df_unchanged (generateLineDiff old new path))%Z =
  Z.of_nat (length (splitLines new)).
Proof.
  cbn [generateLineDiff df_added df_unchanged]. unfold count_lines. rewrite <- Nat2Z.inj_add. f_equal.
  induction (splitLines new) as [|l ls IH]; [done|]. rewrite !count_where_cons. destruct (includes _ l); cbn [negb length]; lia.
Qed.
End PatchTx.

(** ** Concrete runs *)

Definition small_world (files : list (string * string)) : World :=
  mkWorld (mkDisk (list_to_map files) ∅)
    (fun p => if includes ["/"; "/p"] p then Ok pk_directory else Throw ENOENT)
    (fun p => Ok p) no_faults (fun _ => false).
Definition small_run (files : list (string * string)) : Run :=
  mkRun (small_world files) 0 ∅ [] emptyCommittedTransactionEvidenceState (createRuntimeFileStateContext ∅) None.
(** Another process that writes one file, before the [k]-th system call. *)
Definition writes_at (k : nat) (p content : string) (n : nat) (w : World) : World :=
  if (n =? k)%nat then with_files (<[p := content]> (files_of w)) w else w.
Definition two_edits : InitManagedTxInput :=
  mkInit "multi_edit" [mkInitFile "a.ts" (Some "old a") "new a" None; mkInitFile "b.ts" (Some "old b") "new b" None]
    None None "/p".
Definition id_hash (s : string) : string := s.
Definition run_two (others : nat -> World -> World) (verify : Run -> ManagedPatchTransaction -> res string bool) :=
  applyAndCommit id_hash id_hash "/" others "txn_1" "ptxn_1" two_edits verify
    (small_run [("/p/a.ts", "old a"); ("/p/b.ts", "old b")]).

Lemma writes_at_elsewhere k p content x n w : p <> x -> at_path x (writes_at k p content n w) = at_path x w.
Proof.
  intros Hne. unfold writes_at. destruct (n =? k)%nat; [|done]. unfold at_path, files_of. cbn. by rewrite lookup_insert_ne.
Qed.

(** Another process changes [b.ts] after [a.ts] has moved into place: [a.ts] is
    brought back. *)
Lemma patch_all_or_nothing_witness :
  exists e r', run_two (writes_at 40 "/p/b.ts" "theirs") (fun _ _ => Ok true) = (Throw e, r') /\
    run_files r' !! "/p/a.ts" = Some "old a".
Proof.
  pose proof (patch_all_or_nothing id_hash id_hash "/" (writes_at 40 "/p/b.ts" "theirs") "txn_1" "ptxn_1" two_edits
    (fun _ _ => Ok true) "/p/a.ts" (small_run [("/p/a.ts", "old a"); ("/p/b.ts", "old b")])) as H.
  fold (run_two (writes_at 40 "/p/b.ts" "theirs") (fun _ _ => Ok true)) in H.
  assert (match (run_two (writes_at 40 "/p/b.ts" "theirs") (fun _ _ => Ok true)).1 with Ok _ => False | Throw _ => True end) as Ht
    by (vm_compute; exact I).
  destruct (run_two (writes_at 40 "/p/b.ts" "theirs") (fun _ _ => Ok true)) as [[m|e] r']; cbn [fst] in Ht; [done|].
  exists e, r'. split; [done|]. apply H; clear H Ht e r'.
  - intros n w. by apply writes_at_elsewhere.
  - intros e He n w. apply writes_at_elsewhere. intros E.
    assert (includes (map (temp_of "/" "ptxn_1" two_edits) (entries_of id_hash "/" two_edits)) "/p/b.ts" = false) as Hno
      by (vm_compute; reflexivity).
    apply includes_false in Hno. apply Hno. rewrite E. by apply map_elem.
  - intros n w. unfold writes_at. by destruct (n =? 40)%nat.
  - split.
    + apply (bool_decide_eq_true_1 (NoDup _)). vm_compute. reflexivity.
    + apply (bool_decide_eq_true_1 (NoDup _)). vm_compute. reflexivity.
    + apply includes_false. vm_compute. reflexivity.
    + intros e e' He He' E.
      assert (forallb (fun e => forallb (fun e' => negb (me_tempPath e === Some (me_absolutePath e')))
        (map (with_temp "/" "ptxn_1" (cwd_of "/" two_edits)) (entries_of id_hash "/" two_edits)))
        (map (with_temp "/" "ptxn_1" (cwd_of "/" two_edits)) (entries_of id_hash "/" two_edits)) = true) as Hall
        by (vm_compute; reflexivity).
      rewrite forallb_forall in Hall. specialize (Hall e (proj1 (list_elem_of_In _ _) He)).
      rewrite forallb_forall in Hall. specialize (Hall e' (proj1 (list_elem_of_In _ _) He')).
      rewrite E, same_refl in Hall. done.
  - vm_compute. reflexivity.
  - intros e He. assert (forallb (fun e => negb (me_absolutePath e === "/p/a.ts") || (me_oldContent e === Some "old a"))
      (entries_of id_hash "/" two_edits) = true) as Hall by (vm_compute; reflexivity).
    rewrite forallb_forall in Hall. specialize (Hall e (proj1 (list_elem_of_In _ _) He)). intros Ex.
    rewrite Ex, same_refl in Hall. cbn in Hall. by apply same_true in Hall.
  - intros n w. unfold writes_at. by destruct (n =? 40)%nat.
  - vm_compute. reflexivity.
Defined.

Lemma installed_over_approved_witness :
  let e := mkEntryFile "a.ts" "/p/a.ts" (Some "old a") "new a" (Some "old a") (Some "/p/.orcana/t/a.ts") in
  let o := commit_file id_hash id_hash "/" (fun _ w => w) "/p" None e
             (small_run [("/p/a.ts", "old a"); ("/p/.orcana/t/a.ts", "new a")]) in
  o.1 = Ok None /\
  exists k temp content,
    let seen := steps (fun _ w => w) 0 k (small_world [("/p/a.ts", "old a"); ("/p/.orcana/t/a.ts", "new a")]) in
    0 < k /\ rn_calls o.2 = S k /\ me_tempPath e = Some temp /\
    (exists c, files_of seen !! "/p/a.ts" = Some c /\ String.substring 0 16 (id_hash (id_hash c)) = "old a") /\
    files_of seen !! temp = Some content /\ run_files o.2 = <["/p/a.ts" := content]> (delete temp (files_of seen)).
Proof.
  intros e o. assert (o.1 = Ok None) as Ho by (vm_compute; reflexivity). split; [exact Ho|].
  apply (installed_over_approved id_hash id_hash "/" (fun _ w => w) "/p" None e
    (small_run [("/p/a.ts", "old a"); ("/p/.orcana/t/a.ts", "new a")]) None).
  rewrite <- Ho. apply surjective_pairing.
Defined.

(** Evidence collected before a file was created, and the rollback of the
    creation. *)
Lemma change_outdates_evidence_witness :
  let tx := mkTransaction "txn_1" "write_file" [mkSnapshot "/p/a.ts" false None] in
  let r := mkRun (mkWorld (mkDisk {["/p/a.ts" := "new"]} {["txn_1" := tx]}) (fun _ => Throw ENOENT) (fun p => Ok p)
                    no_faults (fun _ => false)) 0 ∅ []
                 (mkCommitHistory "txstate_1" 1 (Some "ptxn_1")) (createRuntimeFileStateContext ∅) None in
  let o := rollbackCommittedTransaction id_hash "/" (fun _ w => w) "txn_1" r in
  let evidence := plain_entry "e" e_test None "" true 0 None None (Some (mkBinding "txstate_1" 1 "ptxn_1")) in
  exists result binding, o.1 = Ok result /\ currentTransactionEvidenceBinding o.2 = Some binding /\
    hasFreshPassingEvidence [evidence] e_test None (Some binding) true = false.
Proof.
  intros tx r o evidence. eexists _, _. split; [vm_compute; reflexivity|]. split; [vm_compute; reflexivity|].
  apply (change_outdates_evidence id_hash id_hash "/" (fun _ w => w) r o.2).
  - eapply (hs_rollback _ _ _ _ "txn_1" r _ o.2). vm_compute. reflexivity.
  - intros e b He Hb. apply list_elem_of_singleton in He as ->. injection Hb as <-. done.
  - vm_compute. reflexivity.
Defined.

(** A verification that throws rolls back every snapshot, although nothing was
    moved: what another process wrote to a target meanwhile is overwritten with
    the approved content, and the commit history counts a rollback.  When the
    verification answers false, the same write is kept. *)
Lemma thrown_verification_reverts_others :
  run_files (run_two (writes_at 17 "/p/b.ts" "theirs") (fun _ _ => Throw "tsc crashed")).2 !! "/p/b.ts" = Some "old b" /\
  ch_transactionCount (rn_evidence (run_two (writes_at 17 "/p/b.ts" "theirs") (fun _ _ => Throw "tsc crashed")).2) = 1%Z /\
  run_files (run_two (writes_at 17 "/p/b.ts" "theirs") (fun _ _ => Ok false)).2 !! "/p/b.ts" = Some "theirs".
Proof. split_and!; vm_compute; reflexivity. Qed.

(** The step of other processes between the last look and the move: what they
    write in it is lost. *)
Lemma write_before_move_lost :
  run_files (run_two (writes_at 46 "/p/b.ts" "theirs") (fun _ _ => Ok true)).2 !! "/p/b.ts" = Some "new b".
Proof. vm_compute. reflexivity. Qed.

(** A reversion that is refused: [a.ts] has moved into place, another process
    changes [b.ts] and makes [a.ts] read-only.  The call throws the conflict and
    the transaction ends rolled back, but [a.ts] keeps the new content. *)
Definition seals_at (k : nat) (n : nat) (w : World) : World :=
  if (n =? k)%nat then
    let w := with_files (<["/p/b.ts" := "theirs"]> (files_of w)) w in
    mkWorld (wd_disk w) (wd_kind w) (wd_real w)
      (mkFaults (fun _ => false) (fun p => if p === "/p/a.ts" then Some None else None) (fun _ => false) false) (wd_refuses w)
  else w.
Lemma refused_reversion_keeps_new :
  let r := (run_two (seals_at 40) (fun _ _ => Ok true)).2 in
  run_files r !! "/p/a.ts" = Some "new a" /\ mp_state <$> rn_objects r !! "ptxn_1" = Some ps_rolled_back.
Proof. split; vm_compute; reflexivity. Qed.
