(* ===== verification/MasterPlan.v ===== *)
(** The master plan: the nodes of a long task and how work moves along them.

    Models, of [src/src/agent], [master-plan.ts] (the plan and its operations),
    the plan checks of [plan-validator.ts], [kernel/master-plan.ts] (activation
    of a plan and transition to its next node), [run/plan-store.ts]; the task
    tool of [src/src/tools/meta.ts]; and the plan state of
    [src/src/harness/persistence/serialization.ts].  Times, and the pattern that
    finds file paths in a line, are parameters; prompts to the model are left
    out.  Re-planning by the model ([revisePlan], [parsePlanWithFlash]) is not
    modelled: the first has no caller, the second is not called by the kernel. *)
From Stdlib Require Import Ascii.
From stdpp Require Import pretty relations.
From S2P Require Import Prelude Paths Evidence ModeContract Tracker.
From S2P Require Interrupts.
Open Scope Z_scope.
Open Scope list_scope.

(** ** Plans *)

(** src/src/agent/master-plan.ts # PlanNode *)
Record PlanNode := mkNode {
  pn_id : string; pn_title : string; pn_status : NodeStatus; pn_tracker : Tracker;
  pn_dependsOn : list string; pn_blockedBy : list string; pn_evidence : option string;
  pn_reactCount : Z; pn_packet : option TaskPacket }.

#[export] Instance NodeStatus_eq_dec : EqDecision NodeStatus.
Proof. solve_decision. Defined.

(** The checks a plan may fail; a cycle names its nodes. *)
Inductive PlanCheck :=
| ck_nonEmpty | ck_uniqueness | ck_cycle (path : list string) | ck_dependency (dep : string)
| ck_tracker | ck_doneCriteria | ck_verification | ck_scope | ck_titleQuality | ck_existence.

(** src/src/agent/plan-validator.ts # ValidationIssue *)
Record ValidationIssue := mkIssue { vi_error : bool; vi_nodeId : option string; vi_check : PlanCheck }.

(** src/src/agent/master-plan.ts # MasterPlan *)
Record MasterPlan := mkPlan {
  mp_goal : string; mp_intent : TaskIntent; mp_nodes : list PlanNode; mp_current : string;
  mp_createdAt : Z; mp_updatedAt : Z; mp_validation : list ValidationIssue }.

(** src/src/agent/master-plan.ts # PlanContextAttachment *)
Record PlanContextAttachment := mkAttachment {
  pa_contextMapId : option string; pa_requiredContextEvidence : option (list string) }.

Definition with_nodes (nodes : list PlanNode) (p : MasterPlan) : MasterPlan :=
  mkPlan (mp_goal p) (mp_intent p) nodes (mp_current p) (mp_createdAt p) (mp_updatedAt p) (mp_validation p).
Definition with_current (id : string) (p : MasterPlan) : MasterPlan :=
  mkPlan (mp_goal p) (mp_intent p) (mp_nodes p) id (mp_createdAt p) (mp_updatedAt p) (mp_validation p).
Definition touched (now : Z) (p : MasterPlan) : MasterPlan :=
  mkPlan (mp_goal p) (mp_intent p) (mp_nodes p) (mp_current p) (mp_createdAt p) now (mp_validation p).
Definition with_validation (v : list ValidationIssue) (p : MasterPlan) : MasterPlan :=
  mkPlan (mp_goal p) (mp_intent p) (mp_nodes p) (mp_current p) (mp_createdAt p) (mp_updatedAt p) v.

Definition is_node (id : string) (n : PlanNode) : bool := pn_id n === id.
Definition in_status (s : NodeStatus) (n : PlanNode) : bool := pn_status n === s.
(** [status === "done" || status === "skipped"] *)
Definition closed (n : PlanNode) : bool := in_status ns_done n || in_status ns_skipped n.

Definition set_node_status (s : NodeStatus) (n : PlanNode) : PlanNode :=
  mkNode (pn_id n) (pn_title n) s (pn_tracker n) (pn_dependsOn n) (pn_blockedBy n) (pn_evidence n)
    (pn_reactCount n) (pn_packet n).
Definition set_outcome (s : NodeStatus) (evidence : option string) (n : PlanNode) : PlanNode :=
  mkNode (pn_id n) (pn_title n) s (pn_tracker n) (pn_dependsOn n) (pn_blockedBy n) evidence
    (pn_reactCount n) (pn_packet n).
Definition set_edges (deps blocked : list string) (n : PlanNode) : PlanNode :=
  mkNode (pn_id n) (pn_title n) (pn_status n) (pn_tracker n) deps blocked (pn_evidence n)
    (pn_reactCount n) (pn_packet n).

Definition node_of (id : string) (nodes : list PlanNode) : option PlanNode := find (is_node id) nodes.
Definition on_node (id : string) (f : PlanNode -> PlanNode) (nodes : list PlanNode) : list PlanNode :=
  update_first (is_node id) f nodes.
(** [splice(idx, 1)] at the first node with the id. *)
Fixpoint remove_first (id : string) (nodes : list PlanNode) : list PlanNode :=
  match nodes with [] => [] | n :: nodes => if is_node id n then nodes else n :: remove_first id nodes end.
Definition ids_of (nodes : list PlanNode) : list string := pn_id <$> nodes.

(** ** The validator *)

Definition issue_at (error : bool) (n : PlanNode) (c : PlanCheck) : ValidationIssue := mkIssue error (Some (pn_id n)) c.
Definition empty {A} (l : list A) : bool := match l with [] => true | _ => false end.

Inductive node_colour := white | gray | black.
#[export] Instance node_colour_eq_dec : EqDecision node_colour.
Proof. solve_decision. Defined.

(** [path.slice(path.indexOf(id))] *)
Fixpoint from_first (id : string) (path : list string) : list string :=
  match path with [] => [] | x :: path' => if x === id then path else from_first id path' end.

Section Cycles.
Context (nodes : list PlanNode).

Definition depsOf (id : string) : list string := from_option pn_dependsOn [] (node_of id nodes).

(** src/src/agent/plan-validator.ts # dfs

    The state is the colours and the issues found so far. *)
Fixpoint dfs (fuel : nat) (path : list string) (st : gmap string node_colour * list ValidationIssue) (id : string)
  : gmap string node_colour * list ValidationIssue :=
  match fuel with
  | O => st
  | S fuel =>
      match st.1 !! id with
      | Some black => st
      | Some gray => (st.1, st.2 ++ [mkIssue true (Some id) (ck_cycle (from_first id path ++ [id]))])
      | _ =>
          let st' := fold_left (fun st dep => match st.1 !! dep with
                                              | Some _ => dfs fuel (path ++ [id]) st dep
                                              | None => st
                                              end) (depsOf id) (<[id := gray]> st.1, st.2) in
          (<[id := black]> st'.1, st'.2)
      end
  end.

(** src/src/agent/plan-validator.ts # checkCycles *)
Definition checkCycles : list ValidationIssue :=
  let ids := ids_of nodes in
  (fold_left (fun st id => match st.1 !! id with
                           | Some white => dfs (S (length nodes)) [] st id
                           | _ => st
                           end) ids (list_to_map (map (fun id => (id, white)) ids), [])).2.
End Cycles.

(** src/src/agent/plan-validator.ts # checkUniqueness *)
Fixpoint checkUniqueness (seen : list string) (nodes : list PlanNode) : list ValidationIssue :=
  match nodes with
  | [] => []
  | n :: nodes => (if includes seen (pn_id n) then [issue_at true n ck_uniqueness] else [])
                  ++ checkUniqueness (pn_id n :: seen) nodes
  end.

(** src/src/agent/plan-validator.ts # checkTrackerExistence *)
Definition checkTrackerExistence (nodes : list PlanNode) : list ValidationIssue :=
  n ← nodes; if empty (tk_steps (pn_tracker n)) then [issue_at true n ck_tracker] else [].
(** src/src/agent/plan-validator.ts # checkDoneCriteria *)
Definition checkDoneCriteria (nodes : list PlanNode) : list ValidationIssue :=
  n ← nodes; match pn_packet n with
             | None => [issue_at false n ck_doneCriteria]
             | Some p => if empty (pk_doneCriteria p) then [issue_at false n ck_doneCriteria] else []
             end.
(** src/src/agent/plan-validator.ts # checkVerification *)
Definition checkVerification (nodes : list PlanNode) : list ValidationIssue :=
  n ← nodes; match pn_packet n with
             | None => []
             | Some p => if empty (pk_verification p) then [issue_at true n ck_verification] else []
             end.
(** src/src/agent/plan-validator.ts # checkScope *)
Definition checkScope (nodes : list PlanNode) : list ValidationIssue :=
  n ← nodes; match pn_packet n with
             | None => []
             | Some p => if empty (pk_scope p) then [issue_at false n ck_scope] else []
             end.
(** src/src/agent/plan-validator.ts # checkTitleQuality *)
Definition checkTitleQuality (nodes : list PlanNode) : list ValidationIssue :=
  n ← nodes; if (String.length (pn_title n) <? 5)%nat then [issue_at false n ck_titleQuality] else [].
(** src/src/agent/plan-validator.ts # checkDependencyValidity *)
Definition checkDependencyValidity (nodes : list PlanNode) : list ValidationIssue :=
  n ← nodes; dep ← pn_dependsOn n;
  if includes (ids_of nodes) dep then [] else [issue_at true n (ck_dependency dep)].
(** src/src/agent/plan-validator.ts # checkNonEmpty *)
Definition checkNonEmpty (nodes : list PlanNode) : list ValidationIssue :=
  if empty nodes then [mkIssue true None ck_nonEmpty] else [].

(** src/src/agent/plan-validator.ts # validatePlan *)
Definition validatePlan (plan : MasterPlan) : list ValidationIssue :=
  let nodes := mp_nodes plan in
  checkNonEmpty nodes ++ checkUniqueness [] nodes ++ checkCycles nodes ++ checkDependencyValidity nodes
  ++ checkTrackerExistence nodes ++ checkDoneCriteria nodes ++ checkVerification nodes
  ++ checkScope nodes ++ checkTitleQuality nodes.

(** src/src/agent/plan-validator.ts # makeReport

    The errors and the warnings of a report, and whether it is clean. *)
Definition plan_errors (issues : list ValidationIssue) : list ValidationIssue := filter (fun i => vi_error i = true) issues.
Definition isClean (issues : list ValidationIssue) : bool := empty (plan_errors issues).

(** src/src/agent/plan-validator.ts # validateNode *)
Definition validateNode (plan : MasterPlan) (nodeId : string) : list ValidationIssue :=
  match node_of nodeId (mp_nodes plan) with
  | None => [mkIssue true (Some nodeId) ck_existence]
  | Some n =>
      (if empty (tk_steps (pn_tracker n)) then [issue_at true n ck_tracker] else [])
      ++ match pn_packet n with
         | None => []
         | Some p => (if empty (pk_doneCriteria p) then [issue_at false n ck_doneCriteria] else [])
                     ++ (if empty (pk_verification p) then [issue_at true n ck_verification] else [])
         end
  end.

(** ** Operations *)

Section Operations.
(** The file paths a text names, and the clock. *)
Context (file_path_matches : string -> list string) (now : Z).

(** src/src/agent/master-plan.ts # refreshPlanValidation *)
Definition refreshPlanValidation (plan : MasterPlan) : MasterPlan := with_validation (validatePlan plan) plan.

(** src/src/agent/master-plan.ts # contextAttachmentFromPlan *)
Definition contextAttachmentFromPlan (plan : MasterPlan) : option PlanContextAttachment :=
  let attached n := match pn_packet n with
                    | None => false
                    | Some p => match pk_contextMapId p with Some id => negb (id === "") | None => false end
                                || negb (empty (default [] (pk_requiredContextEvidence p)))
                    end in
  n ← find attached (mp_nodes plan);
  packet ← pn_packet n;
  Some (mkAttachment (pk_contextMapId packet) (pk_requiredContextEvidence packet)).

(** src/src/agent/master-plan.ts # createPlanNodeFromTitle *)
Definition createPlanNodeFromTitle (id title goal : string) (intent : TaskIntent) (status : NodeStatus)
    (dependsOn : list string) (context : option PlanContextAttachment) : res (list PacketIssue) PlanNode :=
  let packet := buildPacketFromLine file_path_matches title goal id None
                  (context ≫= pa_contextMapId) (context ≫= pa_requiredContextEvidence) in
  tracker ← createTaskTrackerFromPacket packet intent;
  Ok (mkNode id title status tracker dependsOn [] None 0 (Some packet)).

(** src/src/agent/master-plan.ts # createMasterPlan @126-133

    The node made from the [i]th title. *)
Definition titled_node (goal : string) (intent : TaskIntent) (context : option PlanContextAttachment)
    (i : nat) (title : string) : res (list PacketIssue) PlanNode :=
  createPlanNodeFromTitle (pretty (S i)) title goal intent (if (i =? 0)%nat then ns_active else ns_pending) [] context.

Fixpoint titled_nodes (goal : string) (intent : TaskIntent) (context : option PlanContextAttachment)
    (i : nat) (titles : list string) : res (list PacketIssue) (list PlanNode) :=
  match titles with
  | [] => Ok []
  | title :: titles =>
      n ← titled_node goal intent context i title;
      ns ← titled_nodes goal intent context (S i) titles;
      Ok (n :: ns)
  end.

(** src/src/agent/master-plan.ts # createMasterPlan *)
Definition createMasterPlan (goal : string) (intent : TaskIntent) (nodeTitles : list string)
    (context : option PlanContextAttachment) : res (list PacketIssue) MasterPlan :=
  nodes ← titled_nodes goal intent context 0 nodeTitles;
  Ok (refreshPlanValidation (mkPlan goal intent nodes "1" now now [])).

(** src/src/agent/master-plan.ts # createMasterPlanFromPacket *)
Definition createMasterPlanFromPacket (packet : TaskPacket) (intent : TaskIntent) : res (list PacketIssue) MasterPlan :=
  tracker ← createTaskTrackerFromPacket packet intent;
  let id := if pk_nodeId packet === "" then "1" else pk_nodeId packet in
  let goal := if pk_goal packet === "" then pk_title packet else pk_goal packet in
  let node := mkNode id (pk_title packet) ns_active tracker [] [] None 0 (Some packet) in
  Ok (refreshPlanValidation (mkPlan goal intent [node] id now now [])).

(** [parseInt(id, 10)]: spaces, a sign, and the digits that follow. *)
Fixpoint digits_prefix (acc : option N) (s : string) : option N :=
  match s with
  | String c s' => match Interrupts.read_digit c with
                   | Some d => digits_prefix (Some (10 * default 0 acc + d)%N) s'
                   | None => acc
                   end
  | EmptyString => acc
  end.
Fixpoint skip_spaces (s : string) : string :=
  match s with String c s' => if is_space c then skip_spaces s' else s | EmptyString => EmptyString end.
Definition parseInt (s : string) : option Z :=
  match skip_spaces s with
  | String "-"%char s => Z.opp ∘ Z.of_N <$> digits_prefix None s
  | String "+"%char s => Z.of_N <$> digits_prefix None s
  | s => Z.of_N <$> digits_prefix None s
  end.

(** src/src/agent/master-plan.ts # nextNodeId *)
Definition nextNodeId (plan : MasterPlan) : string :=
  match omap parseInt (ids_of (mp_nodes plan)) with
  | [] => pretty 1
  | x :: used => pretty (foldr Z.max x used + 1)
  end.

(** [splice(idx + 1, 0, node)] after the node [afterId] unless it is the last
    one, [push(node)] otherwise. *)
Fixpoint insert_after (afterId : string) (node : PlanNode) (nodes : list PlanNode) : list PlanNode :=
  match nodes with
  | [] => [node]
  | n :: nodes => if is_node afterId n then n :: node :: nodes else n :: insert_after afterId node nodes
  end.

(** src/src/agent/master-plan.ts # addNode *)
Definition addNode (plan : MasterPlan) (title : string) (dependsOn : list string) (afterId : option string)
  : res (list PacketIssue) (MasterPlan * PlanNode) :=
  node ← createPlanNodeFromTitle (nextNodeId plan) title (mp_goal plan) (mp_intent plan) ns_pending dependsOn
           (contextAttachmentFromPlan plan);
  let nodes := match afterId with
               | Some id => if id === "" then mp_nodes plan ++ [node] else insert_after id node (mp_nodes plan)
               | None => mp_nodes plan ++ [node]
               end in
  Ok (refreshPlanValidation (touched now (with_nodes nodes plan)), node).

(** A dependency is no obstacle when its node is closed, or unknown. *)
Definition dep_satisfied (nodes : list PlanNode) (dep : string) : bool :=
  match node_of dep nodes with Some d => closed d | None => true end.

(** src/src/agent/master-plan.ts # activateNode

    [None] where the code returns [null], with the plan as it was. *)
Definition activateNode (plan : MasterPlan) (nodeId : string) : option MasterPlan :=
  match node_of nodeId (mp_nodes plan) with
  | None => None
  | Some node =>
      if closed node then None
      else if forallb (dep_satisfied (mp_nodes plan)) (pn_dependsOn node) then
        let nodes := match node_of (mp_current plan) (mp_nodes plan) with
                     | Some prev =>
                         if negb (pn_id prev === nodeId) && in_status ns_active prev
                         then on_node (mp_current plan) (set_node_status ns_pending) (mp_nodes plan)
                         else mp_nodes plan
                     | None => mp_nodes plan
                     end in
        Some (touched now (with_current nodeId (with_nodes (on_node nodeId (set_node_status ns_active) nodes) plan)))
      else None
  end.

(** The next node when the current one is given up: the first pending one, if
    it can be activated. *)
Definition activate_first_pending (plan : MasterPlan) : MasterPlan :=
  match find (in_status ns_pending) (mp_nodes plan) with
  | Some next => default plan (activateNode plan (pn_id next))
  | None => with_current "" plan
  end.

(** src/src/agent/master-plan.ts # removeNode

    [None] where the code returns [false]. *)
Definition removeNode (plan : MasterPlan) (nodeId : string) : option MasterPlan :=
  match node_of nodeId (mp_nodes plan) with
  | None => None
  | Some node =>
      if in_status ns_done node then None
      else
        let plan := with_nodes (remove_first nodeId (mp_nodes plan)) plan in
        let plan := if mp_current plan === nodeId then activate_first_pending plan else plan in
        Some (refreshPlanValidation (touched now plan))
  end.

(** src/src/agent/master-plan.ts # skipNode *)
Definition skipNode (plan : MasterPlan) (nodeId reason : string) : option MasterPlan :=
  match node_of nodeId (mp_nodes plan) with
  | None => None
  | Some node =>
      if in_status ns_done node then None
      else
        let plan := with_nodes (on_node nodeId (set_outcome ns_skipped (Some reason)) (mp_nodes plan)) plan in
        let plan := if mp_current plan === nodeId then activate_first_pending plan else plan in
        Some (refreshPlanValidation (touched now plan))
  end.

(** src/src/agent/master-plan.ts # markNodeDone *)
Definition markNodeDone (plan : MasterPlan) (nodeId : string) (evidence : option string) : MasterPlan :=
  match node_of nodeId (mp_nodes plan) with
  | None => plan
  | Some _ => touched now (with_nodes (on_node nodeId (set_outcome ns_done evidence) (mp_nodes plan)) plan)
  end.

(** src/src/agent/master-plan.ts # markNodeBlocked *)
Definition markNodeBlocked (plan : MasterPlan) (nodeId reason : string) : MasterPlan :=
  match node_of nodeId (mp_nodes plan) with
  | None => plan
  | Some _ => touched now (with_nodes (on_node nodeId (set_outcome ns_blocked (Some reason)) (mp_nodes plan)) plan)
  end.

(** src/src/agent/master-plan.ts # currentNode *)
Definition currentNode (plan : MasterPlan) : option PlanNode := node_of (mp_current plan) (mp_nodes plan).

(** src/src/agent/master-plan.ts # planComplete *)
Definition planComplete (plan : MasterPlan) : bool := forallb closed (mp_nodes plan).

(** src/src/agent/master-plan.ts # planProgress *)
Definition planProgress (plan : MasterPlan) : nat * nat :=
  (count_where closed (mp_nodes plan), length (mp_nodes plan)).

(** src/src/agent/master-plan.ts # PlanReview

    Without the prompt text. *)
Record PlanReview := mkReview { rv_resume : bool; rv_remaining : nat }.

(** src/src/agent/master-plan.ts # buildNodeReviewGate *)
Definition buildNodeReviewGate (plan : MasterPlan) : MasterPlan * PlanReview :=
  let remaining := filter (fun n => (in_status ns_pending n || in_status ns_blocked n) = true) (mp_nodes plan) in
  if planComplete plan then (plan, mkReview true 0)
  else match find (in_status ns_pending) remaining with
       | Some next => (default plan (activateNode plan (pn_id next)), mkReview true (length remaining))
       | None => (plan, mkReview false (length remaining))
       end.

Definition add_missing (xs : list string) (x : string) : list string := if includes xs x then xs else xs ++ [x].

(** src/src/agent/master-plan.ts # blockTask *)
Definition blockTask (plan : MasterPlan) (fromId toId : string) : MasterPlan :=
  match node_of fromId (mp_nodes plan), node_of toId (mp_nodes plan) with
  | Some _, Some _ =>
      let nodes := on_node fromId (fun n => set_edges (pn_dependsOn n) (add_missing (pn_blockedBy n) toId) n) (mp_nodes plan) in
      let nodes := on_node toId (fun n => set_edges (add_missing (pn_dependsOn n) fromId) (pn_blockedBy n) n) nodes in
      refreshPlanValidation (touched now (with_nodes nodes plan))
  | _, _ => plan
  end.

(** src/src/agent/master-plan.ts # findUnblockedNodes *)
Definition unblocked (nodes : list PlanNode) (n : PlanNode) : bool :=
  in_status ns_blocked n && forallb (fun dep => includes (ids_of (filter (fun n => closed n = true) nodes)) dep) (pn_dependsOn n).

(** src/src/agent/master-plan.ts # autoUnblockByRipple *)
Definition autoUnblockByRipple (plan : MasterPlan) : MasterPlan * nat :=
  let reopen n := mkNode (pn_id n) (pn_title n) ns_pending (pn_tracker n) (pn_dependsOn n) (pn_blockedBy n)
                    (Some "Upllstream dependency completed") 0 (pn_packet n) in
  let nodes := mp_nodes plan in
  match count_where (unblocked nodes) nodes with
  | O => (plan, O)
  | k => (touched now (with_nodes (map (fun n => if unblocked nodes n then reopen n else n) nodes) plan), k)
  end.

(** ** Plans from text *)

(** [/^(?:\d+[\.\)\-、]|[-*]\s+)\s*/]: what follows a number and its mark, or a
    bullet and a space. *)
Definition item_text (line : string) : option string :=
  let rest := skip_digits line in
  if negb (rest === line) then
    if startsWith rest "、" then Some (skip_spaces (String.substring 3 (String.length rest) rest))
    else match rest with
         | String c rest => if includes ["."%char; ")"%char; "-"%char] c then Some (skip_spaces rest) else None
         | EmptyString => None
         end
  else match line with
       | String c (String c' rest) =>
           if includes ["-"%char; "*"%char] c && is_space c' then Some (skip_spaces rest) else None
       | _ => None
       end.

(** What is left after a [.] of a pattern without the [u] flag, which matches one
    UTF-16 unit other than a line terminator: in UTF-8 a character of one to
    three bytes.  A character of four bytes is two units. *)
Definition after_unit (s : string) : option string :=
  match s with
  | EmptyString => None
  | String c rest =>
      let n := Ascii.N_of_ascii c in
      if (n <? 128)%N then if includes ["010"%char; "013"%char] c then None else Some rest
      else if (n <? 224)%N then match rest with String _ rest => Some rest | _ => None end
      else if (n <? 240)%N then
        match rest with
        | String c1 (String c2 rest) =>
            if (n =? 226)%N && (Ascii.N_of_ascii c1 =? 128)%N && includes ["168"%char; "169"%char] c2
            then None else Some rest
        | _ => None
        end
      else None
  end.
Fixpoint after (word s : string) : option string :=
  match word, s with
  | EmptyString, _ => Some s
  | String w word, String c s => if w === c then after word s else None
  | _, EmptyString => None
  end.
Definition end_to_end_here (s : string) : bool :=
  match
    s ← after "end" s; s ← after_unit s; s ← after "to" s; s ← after_unit s; after "end" s
  with Some _ => true | None => false end.
(** [/联调|集成|...|end.to.end/i.test(title)] *)
Fixpoint end_to_end (s : string) : bool :=
  end_to_end_here s || match s with EmptyString => false | String _ s => end_to_end s end.
Definition is_integration (title : string) : bool :=
  existsb (fun w => str_includes w title) ["联调"; "集成"; "接入"; "连接"; "组合"; "合并"]
  || end_to_end (lower title).

(** src/src/agent/master-plan.ts # nodesFromPlanText @179-193 *)
Fixpoint nodes_of_lines (idx : nat) (lines : list string) : list (string * list nat) :=
  match lines with
  | [] => []
  | raw :: lines =>
      match item_text (trim raw) with
      | None => nodes_of_lines idx lines
      | Some text =>
          let title := slice120 (trim text) in
          if title === "" then nodes_of_lines idx lines
          else (pretty (S idx) +:+ ". " +:+ title, if is_integration title then seq 1 idx else [])
               :: nodes_of_lines (S idx) lines
      end
  end.
(** src/src/agent/master-plan.ts # nodesFromPlanText *)
Definition nodesFromPlanText (planText : string) : list (string * list nat) :=
  nodes_of_lines 0 (split_on "010"%char planText).
End Operations.

(** ** What the cycle check decides *)

Section Acyclic.
Context (nodes : list PlanNode).

(** A dependency on a node of the plan. *)
Definition edge (a b : string) : Prop := b ∈ depsOf nodes a /\ b ∈ ids_of nodes.
Definition cyclic : Prop := exists x, tc edge x x.

Definition chain (path : list string) : Prop :=
  forall i a b, path !! i = Some a -> path !! S i = Some b -> edge a b.

Lemma chain_reaches path : chain path -> forall i j a b,
  path !! i = Some a -> path !! (i + j)%nat = Some b -> rtc edge a b.
Proof.
  intros Hc i j. revert i. induction j as [|j IH]; intros i a b Ha Hb.
  - rewrite Nat.add_0_r in Hb. simplify_eq. constructor.
  - destruct (path !! S i) as [c|] eqn:Hc'.
    + eapply rtc_l; [by eapply Hc|]. apply (IH (S i)); [done|]. by rewrite <- Nat.add_succ_comm in Hb.
    + apply lookup_ge_None in Hc'. apply lookup_lt_Some in Hb. lia.
Qed.

Lemma path_snoc path id :
  chain path -> (forall z, last path = Some z -> edge z id) -> chain (path ++ [id]).
Proof.
  intros Hc Hl i a b Ha Hb. apply lookup_app_Some in Hb as [Hb|[Hge Hb]].
  - rewrite lookup_app_l in Ha by (apply lookup_lt_Some in Hb; lia). by eapply Hc.
  - apply list_lookup_singleton_Some in Hb as [Hb <-].
    rewrite lookup_app_l in Ha by lia. apply Hl. rewrite last_lookup. by replace (pred (length path)) with i by lia.
Qed.

(** A node on the path that the last node of the path depends on. *)
Lemma chain_cycle path id : chain path -> id ∈ path -> (forall z, last path = Some z -> edge z id) -> cyclic.
Proof.
  intros Hc [i Hi]%list_elem_of_lookup_1 Hl.
  destruct (last path) as [z|] eqn:Ez; [|by apply last_None in Ez as ->].
  exists id. pose proof Ez as Hz. rewrite last_lookup in Hz. pose proof (lookup_lt_Some _ _ _ Hi).
  eapply tc_rtc_l; [|apply tc_once, Hl, eq_refl].
  apply (chain_reaches path Hc i (pred (length path) - i) id z Hi). by replace (_ + _)%nat with (pred (length path)) by lia.
Qed.

(** The state of a search along [path]. *)
Record searching (color : gmap string node_colour) (path : list string) : Prop := {
  sg_dom : forall x, is_Some (color !! x) <-> x ∈ ids_of nodes;
  sg_gray : forall x, color !! x = Some gray <-> x ∈ path;
  sg_chain : chain path;
  sg_nodup : NoDup path }.

(** The finished nodes are those no cycle can be reached from. *)
Definition settled (color : gmap string node_colour) : Prop :=
  forall x, color !! x = Some black -> Acc (flip edge) x.

(** What a search does to the state: [done] are the nodes it finishes. *)
Record searched (done : list string) (st st' : gmap string node_colour * list ValidationIssue) : Prop := {
  sd_dom : forall x, is_Some (st'.1 !! x) <-> is_Some (st.1 !! x);
  sd_gray : forall x, st'.1 !! x = Some gray <-> st.1 !! x = Some gray;
  sd_black : forall x, st.1 !! x = Some black -> st'.1 !! x = Some black;
  sd_out : exists found, st'.2 = st.2 ++ found /\ Forall (fun i => vi_error i = true) found /\ (found <> [] -> cyclic) /\
    (found = [] -> settled st.1 -> settled st'.1 /\ forall x, x ∈ done -> st'.1 !! x = Some black) }.

Lemma searched_refl st : searched [] st st.
Proof. split; [done|done|done|]. exists []. rewrite app_nil_r. split_and!; [done|constructor|done|set_solver]. Qed.

Lemma searched_trans d1 d2 st1 st2 st3 :
  searched d1 st1 st2 -> searched d2 st2 st3 -> searched (d1 ++ d2) st1 st3.
Proof.
  intros [D1 G1 B1 (f1 & E1 & F1 & C1 & S1)] [D2 G2 B2 (f2 & E2 & F2 & C2 & S2)]. split.
  - intros x. by rewrite D2.
  - intros x. by rewrite G2.
  - auto.
  - exists (f1 ++ f2). rewrite E2, E1, app_assoc. split_and!; [done|by apply Forall_app| |].
    + destruct f1; [by apply C2|intros _; by apply C1].
    + intros [-> ->]%app_eq_nil Hs. destruct (S1 eq_refl Hs) as [Hs2 Hb1]. destruct (S2 eq_refl Hs2) as [Hs3 Hb2].
      split; [done|]. intros x [Hx|Hx]%elem_of_app; [by apply B2, Hb1|by apply Hb2].
Qed.

Lemma searching_keep d st st' path : searching st.1 path -> searched d st st' -> searching st'.1 path.
Proof.
  intros [Sd Sg Sc Sn] [D G _ _]. split; [|by intros x; rewrite G|done|done]. intros x. by rewrite D.
Qed.

(** The path of a search never repeats a node, so the fuel lasts. *)
Lemma path_short color path id :
  searching color path -> id ∈ ids_of nodes -> id ∉ path -> (length path < length nodes)%nat.
Proof.
  intros [Sd Sg _ Sn] Hid Hp. rewrite <- (length_fmap pn_id nodes).
  apply (submseteq_length (id :: path)). apply NoDup_submseteq; [by constructor|].
  intros x [->|Hx]%elem_of_cons; [done|]. apply Sd. apply Sg in Hx. by rewrite Hx.
Qed.

Definition dfs_spec (fuel : nat) : Prop := forall path st id,
  searching st.1 path -> id ∈ ids_of nodes -> (forall z, last path = Some z -> edge z id) ->
  (length nodes < fuel + length path)%nat -> searched [id] st (dfs nodes fuel path st id).

(** The dependencies of a node, one after the other. *)
Lemma dfs_deps fuel path id deps : dfs_spec fuel ->
  last path = Some id -> deps ⊆ depsOf nodes id -> (length nodes < fuel + length path)%nat ->
  forall st, searching st.1 path ->
  searched (filter (fun dep => dep ∈ ids_of nodes) deps) st
    (fold_left (fun st dep => match st.1 !! dep with Some _ => dfs nodes fuel path st dep | None => st end) deps st).
Proof.
  intros Hdfs Hlast. induction deps as [|dep deps IH]; intros Hsub Hf st Hs; cbn [fold_left]; [apply searched_refl|].
  destruct (st.1 !! dep) as [c|] eqn:Ed.
  - assert (dep ∈ ids_of nodes) as Hin by by apply (sg_dom _ _ Hs); rewrite Ed.
    rewrite filter_cons_True by done.
    assert (searched [dep] st (dfs nodes fuel path st dep)) as H1.
    { apply Hdfs; [done|done| |done]. intros z Hz. split; [|done]. rewrite Hlast in Hz. injection Hz as <-. set_solver. }
    apply (searched_trans [dep] _ _ _ _ H1). apply IH; [set_solver|done|]. by eapply searching_keep.
  - assert (dep ∉ ids_of nodes) as Hout.
    { intros Hin. apply (sg_dom _ _ Hs) in Hin as [? E]. by rewrite Ed in E. }
    rewrite filter_cons_False by done. apply IH; [set_solver|done|done].
Qed.

(** Entering a node puts it on the path, leaving it takes it off. *)
Lemma enter color path id :
  searching color path -> color !! id = Some white -> (forall z, last path = Some z -> edge z id) ->
  searching (<[id := gray]> color) (path ++ [id]).
Proof.
  intros Hs Hw Hl. pose proof Hs as [Sd Sg Sc Sn]. assert (id ∉ path) as Hp by by rewrite <- Sg, Hw. split.
  - intros x. rewrite lookup_insert_is_Some, Sd. split; [|by destruct (decide (id = x)); auto].
    intros [<-|[_ H]]; [apply Sd; by rewrite Hw|done].
  - intros x. rewrite elem_of_app, list_elem_of_singleton, lookup_insert. case_decide as E; [subst; tauto|].
    rewrite Sg. intuition congruence.
  - by apply path_snoc.
  - apply NoDup_app. split_and!; [done|set_solver|apply NoDup_singleton].
Qed.

Lemma leave done color st' id :
  color.1 !! id = Some white -> searched done (<[id := gray]> color.1, color.2) st' ->
  (forall y, edge id y -> y ∈ done) -> searched [id] color (<[id := black]> st'.1, st'.2).
Proof.
  intros Hw [D G B (found & E & F & C & S)] Hd. cbn [fst snd] in *. split; cbn [fst snd].
  - intros x. rewrite !lookup_insert_is_Some, D, lookup_insert_is_Some.
    destruct (decide (id = x)) as [<-|Hne]; [rewrite Hw|]; naive_solver.
  - intros x. specialize (G x). rewrite lookup_insert. rewrite lookup_insert in G. case_decide; [subst|done].
    by rewrite Hw.
  - intros x Hx. specialize (B x). rewrite lookup_insert. rewrite lookup_insert in B. case_decide; [done|auto].
  - exists found. split_and!; [done|done|done|]. intros Hf Hs.
    destruct (S Hf) as [Hs' Hb].
    { intros x. rewrite lookup_insert. case_decide; [done|apply Hs]. }
    split; [|intros x ->%list_elem_of_singleton; by rewrite lookup_insert_eq].
    intros x. rewrite lookup_insert. case_decide as Ex; [subst x|apply Hs'].
    intros _. constructor. intros y Hy. by apply Hs', Hb, Hd.
Qed.

Lemma dfs_searched fuel : dfs_spec fuel.
Proof.
  induction fuel as [|fuel IH]; intros path st id Hs Hid Hl Hf.
  { destruct (decide (id ∈ path)) as [Hp|Hp].
    - pose proof (sg_nodup _ _ Hs). cbn in Hf. exfalso.
      assert (length path <= length nodes)%nat; [|lia]. rewrite <- (length_fmap pn_id nodes).
      apply submseteq_length, NoDup_submseteq; [done|]. intros x Hx.
      apply (sg_dom _ _ Hs). apply (sg_gray _ _ Hs) in Hx. by rewrite Hx.
    - pose proof (path_short _ _ _ Hs Hid Hp). lia. }
  cbn [dfs]. pose proof (proj2 (sg_dom _ _ Hs id) Hid) as [c Hc]. rewrite Hc. destruct c.
  - apply (leave (filter (fun dep => dep ∈ ids_of nodes) (depsOf nodes id))); [done| |].
    + apply (dfs_deps fuel (path ++ [id]) id); [done|by rewrite last_snoc|done|rewrite length_app; cbn; lia|by apply enter].
    + intros y [H1 H2]. by apply list_elem_of_filter.
  - split; cbn [fst snd]; [done|done|done|]. eexists. split_and!; [done|by repeat constructor| |done].
    intros _. apply (chain_cycle path id); [apply Hs|by apply (sg_gray _ _ Hs)|done].
  - split; [done|done|done|]. exists []. rewrite app_nil_r. split_and!; [done|constructor|done|].
    intros _ Hset. split; [done|]. by intros x ->%list_elem_of_singleton.
Qed.

Lemma searching_start :
  searching (list_to_map (map (fun id => (id, white)) (ids_of nodes))) [].
Proof.
  assert (forall x c, (list_to_map (map (fun id => (id, white)) (ids_of nodes)) : gmap string node_colour) !! x = Some c ->
            x ∈ ids_of nodes /\ c = white) as Hin.
  { intros x c H. apply elem_of_list_to_map_2, list_elem_of_fmap in H as (y & [= -> ->] & Hy). done. }
  split.
  - intros x. split; [intros [c H]; by apply (Hin x c)|]. intros Hx.
    rewrite <- elem_of_dom, dom_list_to_map_L, elem_of_list_to_set.
    apply list_elem_of_fmap. exists (x, white). split; [done|]. apply list_elem_of_fmap. eauto.
  - intros x. split; [intros H; by apply Hin in H as [_ ?]|set_solver].
  - intros i a b H. done.
  - constructor.
Qed.

(** The loop over the nodes that starts a search from every unvisited one. *)
Lemma searches ids : ids ⊆ ids_of nodes -> forall st, searching st.1 [] ->
  searched ids st (fold_left (fun st id => match st.1 !! id with
                     | Some white => dfs nodes (S (length nodes)) [] st id | _ => st end) ids st).
Proof.
  induction ids as [|id ids IH]; intros Hsub st Hs; cbn [fold_left]; [apply searched_refl|].
  assert (id ∈ ids_of nodes) as Hid by set_solver.
  assert (searched [id] st (match st.1 !! id with Some white => dfs nodes (S (length nodes)) [] st id | _ => st end)) as H1.
  { pose proof (proj2 (sg_dom _ _ Hs id) Hid) as [c Hc]. rewrite Hc. destruct c.
    - apply dfs_searched; [done|done|done|cbn; lia].
    - apply (sg_gray _ _ Hs) in Hc. set_solver.
    - split; [done|done|done|]. exists []. rewrite app_nil_r. split_and!; [done|constructor|done|].
      intros _ Hset. split; [done|]. by intros x ->%list_elem_of_singleton. }
  apply (searched_trans [id] _ _ _ _ H1). apply IH; [set_solver|]. by eapply searching_keep.
Qed.

Lemma acc_no_cycle x : Acc (flip edge) x -> tc edge x x -> False.
Proof.
  induction 1 as [x _ IH]. intros H. assert (exists y, edge x y /\ tc edge y y) as (y & Hy & Hc).
  { inversion H as [? ? Hx|? y ? Hx Hr]; subst; [by exists x|]. exists y. split; [done|]. by eapply tc_r. }
  by apply (IH y).
Qed.

Lemma checkCycles_nil_iff : checkCycles nodes = [] <-> ~ cyclic.
Proof.
  unfold checkCycles. set (start := list_to_map _).
  destruct (searches (ids_of nodes) (reflexivity _) (start, []) searching_start) as [_ _ _ (found & E & _ & C & S)].
  rewrite E. cbn [snd app] in *. split.
  - intros -> [x Hx]. destruct (S eq_refl) as [Hset Hb].
    { intros y Hy.
      apply elem_of_list_to_map_2, list_elem_of_fmap in Hy as (z & [= _] & _). }
    assert (x ∈ ids_of nodes) as Hid.
    { clear -Hx. by induction Hx as [? ? [_ H]|]. }
    by apply (acc_no_cycle x); [apply Hset, Hb|].
  - intros Hn. destruct found; [done|]. by destruct Hn; apply C.
Qed.

Lemma checkCycles_errors : Forall (fun i => vi_error i = true) (checkCycles nodes).
Proof.
  unfold checkCycles. set (start := list_to_map _).
  destruct (searches (ids_of nodes) (reflexivity _) (start, []) searching_start) as [_ _ _ (found & E & F & _)].
  by rewrite E.
Qed.
End Acyclic.

(** ** The validator's verdict *)

(** A plan without structural faults. *)
Record well_formed (nodes : list PlanNode) : Prop := {
  wf_nonempty : nodes <> [];
  wf_unique : NoDup (ids_of nodes);
  wf_acyclic : ~ cyclic nodes;
  wf_known : forall n dep, n ∈ nodes -> dep ∈ pn_dependsOn n -> dep ∈ ids_of nodes;
  wf_steps : forall n, n ∈ nodes -> tk_steps (pn_tracker n) <> [];
  wf_verified : forall n p, n ∈ nodes -> pn_packet n = Some p -> pk_verification p <> [] }.

Lemma empty_true {A} (l : list A) : empty l = true <-> l = [].
Proof. by destruct l. Qed.

Lemma bind_nil_iff {A B} (f : A -> list B) (l : list A) : (l ≫= f) = [] <-> forall x, x ∈ l -> f x = [].
Proof.
  induction l as [|x l IH]; [set_solver|]. change ((x :: l) ≫= f) with (f x ++ (l ≫= f)); rewrite app_nil, IH. split.
  - intros [H1 H2] y [->|Hy]%elem_of_cons; auto.
  - intros H. split; [apply H; left|]. intros y Hy. apply H. by right.
Qed.

Lemma bind_errors {A} (f : A -> list ValidationIssue) (b : bool) (l : list A) :
  (forall x, x ∈ l -> Forall (fun i => vi_error i = b) (f x)) -> Forall (fun i => vi_error i = b) (l ≫= f).
Proof.
  intros H. apply Forall_forall. intros i Hi. apply list_elem_of_bind in Hi as (x & Hi & Hx).
  by apply (proj1 (Forall_forall _ _) (H x Hx)).
Qed.

Lemma plan_errors_app i j : plan_errors (i ++ j) = plan_errors i ++ plan_errors j.
Proof. apply filter_app. Qed.
Lemma plan_errors_all i : Forall (fun i => vi_error i = true) i -> plan_errors i = i.
Proof. intros H. apply filter_all. by apply Forall_forall. Qed.
Lemma plan_errors_none i : Forall (fun i => vi_error i = false) i -> plan_errors i = [].
Proof. intros H. apply filter_nil_iff. intros x Hx. by rewrite (proj1 (Forall_forall _ _) H x Hx). Qed.

Ltac issues := intros; repeat match goal with
  | |- Forall _ (if ?b then _ else _) => destruct b
  | |- Forall _ (match ?x with _ => _ end) => destruct x
  end; repeat constructor.

Lemma checkUniqueness_nil seen nodes :
  checkUniqueness seen nodes = [] <-> NoDup (ids_of nodes) /\ forall n, n ∈ nodes -> pn_id n ∉ seen.
Proof.
  revert seen. induction nodes as [|n nodes IH]; intros seen; cbn [checkUniqueness ids_of fmap list_fmap].
  { split; [|done]. split; [constructor|set_solver]. }
  rewrite app_nil, IH, NoDup_cons. destruct (includes seen (pn_id n)) eqn:E.
  - apply includes_true in E. split; [by intros []|]. intros [_ H]. destruct (H n); [left|done].
  - assert (pn_id n ∉ seen) as E' by by rewrite <- includes_true, E. split.
    + intros (_ & Hn & Hs). split_and!; [|done|].
      * intros (m & Em & Hm)%list_elem_of_fmap. apply (Hs m Hm). rewrite <- Em. left.
      * intros m [->|Hm]%elem_of_cons; [done|]. intros Hin. apply (Hs m Hm). by right.
    + intros ((Hx & Hn) & Hs). split_and!; [done|done|]. intros m Hm [E2|Hin]%elem_of_cons.
      * apply Hx. unfold ids_of. rewrite <- E2. by apply list_elem_of_fmap_2.
      * apply (Hs m); [by right|done].
Qed.

Lemma checkUniqueness_errors seen nodes : Forall (fun i => vi_error i = true) (checkUniqueness seen nodes).
Proof.
  revert seen. induction nodes as [|n nodes IH]; intros seen; cbn [checkUniqueness]; [constructor|].
  apply Forall_app. split; [issues|apply IH].
Qed.

(** What the error checks report, check by check. *)
Lemma validatePlan_errors plan :
  plan_errors (validatePlan plan) =
  let nodes := mp_nodes plan in
  checkNonEmpty nodes ++ checkUniqueness [] nodes ++ checkCycles nodes ++ checkDependencyValidity nodes
  ++ checkTrackerExistence nodes ++ checkVerification nodes.
Proof.
  unfold validatePlan. cbv zeta. set (nodes := mp_nodes plan).
  rewrite !plan_errors_app.
  rewrite (plan_errors_all (checkNonEmpty nodes)) by (unfold checkNonEmpty; issues).
  rewrite (plan_errors_all (checkUniqueness [] nodes)) by apply checkUniqueness_errors.
  rewrite (plan_errors_all (checkCycles nodes)) by apply checkCycles_errors.
  rewrite (plan_errors_all (checkDependencyValidity nodes)) by (apply bind_errors; intros; apply bind_errors; issues).
  rewrite (plan_errors_all (checkTrackerExistence nodes)) by (apply bind_errors; issues).
  rewrite (plan_errors_all (checkVerification nodes)) by (apply bind_errors; issues).
  rewrite (plan_errors_none (checkDoneCriteria nodes)) by (apply bind_errors; issues).
  rewrite (plan_errors_none (checkScope nodes)) by (apply bind_errors; issues).
  rewrite (plan_errors_none (checkTitleQuality nodes)) by (apply bind_errors; issues).
  by rewrite !app_nil_r.
Qed.

(** C34: The plan validator is exact: it reports no error for a plan iff the plan
    has a node, its node ids are distinct, no node depends on itself through any
    chain of dependencies, every dependency names a node of the plan, every node
    has a tracker with steps, and every packet asks for a verification.  The
    depth-first search behind the cycle check always has the fuel it needs, and
    a warning never turns into an error. *)
Theorem plan_validator_exact plan :
  isClean (validatePlan plan) = true <-> well_formed (mp_nodes plan).
Proof.
  unfold isClean. rewrite empty_true, validatePlan_errors. cbv zeta. set (nodes := mp_nodes plan).
  rewrite !app_nil, checkUniqueness_nil, checkCycles_nil_iff.
  unfold checkNonEmpty, checkDependencyValidity, checkTrackerExistence, checkVerification. rewrite !bind_nil_iff. split.
  - intros (H1 & [H2 _] & H3 & H4 & H5 & H6). split; [|done|done| | |].
    + by intros ->.
    + intros n dep Hn Hd. pose proof (proj1 (bind_nil_iff _ _) (H4 n Hn) dep Hd) as H. cbn in H.
      destruct (includes _ dep) eqn:E; [by apply includes_true|done].
    + intros n Hn E. specialize (H5 n Hn). by rewrite E in H5.
    + intros n p Hn Ep E. specialize (H6 n Hn). by rewrite Ep, E in H6.
  - intros [W1 W2 W3 W4 W5 W6]. split_and!; [by destruct nodes|done|set_solver|done| | |].
    + intros n Hn. apply bind_nil_iff. intros dep Hd. by rewrite (proj2 (includes_true _ _) (W4 n dep Hn Hd)).
    + intros n Hn. specialize (W5 n Hn). by destruct (tk_steps _).
    + intros n Hn. destruct (pn_packet n) as [p|] eqn:E; [|done]. specialize (W6 n p Hn E). by destruct (pk_verification p).
Qed.

(** ** Ids and nodes *)

Lemma read_digits_prefix s : forall a n, Interrupts.read_digits a s = Some n -> digits_prefix (Some a) s = Some n.
Proof.
  induction s as [|c s IH]; intros a n H; cbn in *; [done|].
  destruct (Interrupts.read_digit c) as [d|]; [|done]. by apply IH.
Qed.

Lemma digit_plain c d :
  Interrupts.read_digit c = Some d -> is_space c = false /\ c <> "-"%char /\ c <> "+"%char.
Proof. destruct c as [[] [] [] [] [] [] [] []]; vm_compute; intros H; try discriminate H; done. Qed.

Lemma digits_none s n : s <> "" -> Interrupts.read_digits 0 s = Some n ->
  digits_prefix None s = Some n /\ skip_spaces s = s /\
  match s with String c _ => c <> "-"%char /\ c <> "+"%char | EmptyString => True end.
Proof.
  destruct s as [|c s]; [done|]. intros _ H. cbn in H |- *.
  destruct (Interrupts.read_digit c) as [d|] eqn:E; [|done]. destruct (digit_plain c d E) as (-> & H1 & H2).
  split_and!; [|done|done|done]. by apply read_digits_prefix.
Qed.

Lemma parseInt_digits s n : s <> "" -> Interrupts.read_digits 0 s = Some n -> parseInt s = Some (Z.of_N n).
Proof.
  intros Hs Hd. destruct (digits_none s n Hs Hd) as (H1 & H2 & H3). unfold parseInt. rewrite H2.
  destruct s as [|c s]; [by rewrite H1|]. destruct H3 as [N1 N2].
  destruct c as [[] [] [] [] [] [] [] []]; try (by rewrite H1); [by destruct N2|by destruct N1].
Qed.

Lemma parseInt_pretty (z : Z) : parseInt (pretty z) = Some z.
Proof.
  destruct z as [|p|p]; [done| |].
  - apply (parseInt_digits (pretty (Z.pos p)) (N.pos p)); [apply Interrupts.pretty_nonempty|apply Interrupts.read_pretty_N].
  - change (pretty (Z.neg p)) with (String "-" (pretty (N.pos p))).
    transitivity (Z.opp ∘ Z.of_N <$> digits_prefix None (pretty (N.pos p))); [done|].
    pose proof (Interrupts.pretty_nonempty (Z.pos p)) as Hne. change (pretty (Z.pos p)) with (pretty (N.pos p)) in Hne.
    by rewrite (proj1 (digits_none _ (N.pos p) Hne (Interrupts.read_pretty_N _))).
Qed.

(** The next id is taken by no node. *)
Lemma nextNodeId_fresh plan : nextNodeId plan ∉ ids_of (mp_nodes plan).
Proof.
  unfold nextNodeId. intros Hin.
  destruct (omap parseInt _) as [|x used] eqn:E.
  - assert (1 ∈ omap parseInt (ids_of (mp_nodes plan))) as H; [|rewrite E in H; set_solver].
    apply list_elem_of_omap. exists (pretty 1). split; [done|]. apply parseInt_pretty.
  - set (m := foldr Z.max x used) in *.
    assert (m + 1 ∈ x :: used) as H.
    { rewrite <- E. apply list_elem_of_omap. exists (pretty (m + 1)). split; [done|]. apply parseInt_pretty. }
    assert (forall y, y ∈ x :: used -> y <= m) as Hmax.
    { clear. subst m. induction used as [|u used IH]; cbn; intros y Hy.
      - apply list_elem_of_singleton in Hy as ->. lia.
      - apply elem_of_cons in Hy as [->|[->|Hy]%elem_of_cons]; [|lia|].
        + pose proof (IH x (list_elem_of_here _ _)). lia.
        + pose proof (IH y (list_elem_of_further _ _ _ Hy)). lia. }
    pose proof (Hmax _ H). lia.
Qed.

Section Nodes.
Context (nodes : list PlanNode) (Hnd : NoDup (ids_of nodes)).

Lemma same_id n m : n ∈ nodes -> m ∈ nodes -> pn_id n = pn_id m -> n = m.
Proof.
  intros [i Hi]%list_elem_of_lookup_1 [j Hj]%list_elem_of_lookup_1 E.
  assert (i = j) as ->; [|congruence].
  eapply (NoDup_lookup (ids_of nodes)); [done| |]; unfold ids_of; rewrite list_lookup_fmap; [by rewrite Hi|].
  rewrite Hj. cbn. by rewrite E.
Qed.

Lemma is_node_true id n : is_node id n = true <-> pn_id n = id.
Proof. apply same_eq. Qed.

Lemma on_node_ids id f (ns : list PlanNode) : (forall n, pn_id (f n) = pn_id n) -> ids_of (on_node id f ns) = ids_of ns.
Proof.
  intros Hf. unfold on_node, ids_of. induction ns as [|n ns IH]; [done|]. cbn [update_first].
  destruct (is_node id n); cbn; [by rewrite Hf|by rewrite IH].
Qed.
End Nodes.

Lemma node_of_Some nodes id n : node_of id nodes = Some n -> n ∈ nodes /\ pn_id n = id.
Proof.
  intros H. apply find_some in H as [H1%list_elem_of_In H2]. split; [done|]. by apply is_node_true.
Qed.

Lemma node_of_None nodes id : node_of id nodes = None <-> id ∉ ids_of nodes.
Proof.
  unfold node_of, ids_of. induction nodes as [|n nodes IH]; cbn; [set_solver|].
  destruct (is_node id n) eqn:E.
  - apply is_node_true in E. set_solver.
  - assert (pn_id n <> id) as Hn by by rewrite <- is_node_true, E. rewrite IH, not_elem_of_cons. naive_solver.
Qed.

Lemma node_of_elem nodes n : NoDup (ids_of nodes) -> n ∈ nodes -> node_of (pn_id n) nodes = Some n.
Proof.
  intros Hnd Hn. destruct (node_of (pn_id n) nodes) as [m|] eqn:E.
  - apply node_of_Some in E as [Hm E]. by rewrite (same_id nodes Hnd m n).
  - apply node_of_None in E. destruct E. by apply list_elem_of_fmap_2.
Qed.

Lemma on_node_map nodes id f : NoDup (ids_of nodes) ->
  on_node id f nodes = map (fun n => if is_node id n then f n else n) nodes.
Proof.
  unfold on_node. induction nodes as [|n nodes IH]; [done|]. cbn. intros [Hn Hnd]%NoDup_cons.
  destruct (is_node id n) eqn:E.
  - f_equal. apply is_node_true in E. symmetry. rewrite <- (map_id nodes) at 2. apply map_ext_in.
    intros m Hm%list_elem_of_In. destruct (is_node id m) eqn:Em; [|done]. apply is_node_true in Em.
    destruct Hn. rewrite E, <- Em. by apply list_elem_of_fmap_2.
  - by rewrite IH.
Qed.

Lemma remove_first_filter nodes id : NoDup (ids_of nodes) ->
  remove_first id nodes = filter (fun n => pn_id n <> id) nodes.
Proof.
  induction nodes as [|n nodes IH]; [done|]. cbn [remove_first]. intros [Hn Hnd]%NoDup_cons.
  destruct (is_node id n) eqn:E.
  - apply is_node_true in E. rewrite filter_cons_False by naive_solver. symmetry. apply filter_all.
    intros m Hm Em. destruct Hn. rewrite E, <- Em. by apply list_elem_of_fmap_2.
  - assert (pn_id n <> id) as H by by rewrite <- is_node_true, E. by rewrite filter_cons_True, IH.
Qed.

(** ** What the operations keep *)

(** Ids are distinct, and no node but the current one is active. *)
Record sound (p : MasterPlan) : Prop := {
  so_ids : NoDup (ids_of (mp_nodes p));
  so_active : forall n, n ∈ mp_nodes p -> pn_status n = ns_active -> pn_id n = mp_current p }.

(** Work that is done stays in the plan, and done. *)
Definition keeps (p p' : MasterPlan) : Prop :=
  forall n, n ∈ mp_nodes p -> pn_status n = ns_done ->
  exists n', n' ∈ mp_nodes p' /\ pn_id n' = pn_id n /\ pn_title n' = pn_title n /\ pn_status n' = ns_done.

Definition safely (p p' : MasterPlan) : Prop := sound p' /\ keeps p p'.

Lemma keeps_refl p : keeps p p.
Proof. intros n Hn Hd. eauto. Qed.
Lemma keeps_trans p q r : keeps p q -> keeps q r -> keeps p r.
Proof.
  intros H1 H2 n Hn Hd. destruct (H1 n Hn Hd) as (n1 & Hn1 & E1 & T1 & D1).
  destruct (H2 n1 Hn1 D1) as (n2 & Hn2 & E2 & T2 & D2). exists n2. split_and!; [done|congruence|congruence|done].
Qed.
Lemma safely_refl p : sound p -> safely p p.
Proof. intros H. split; [done|apply keeps_refl]. Qed.
Lemma safely_trans p q r : safely p q -> safely q r -> safely p r.
Proof. intros [_ H1] [H2 H3]. split; [done|by eapply keeps_trans]. Qed.

(** A change of the nodes one by one. *)
Lemma map_safely p p' g :
  sound p -> mp_nodes p' = map g (mp_nodes p) ->
  (forall n, n ∈ mp_nodes p -> pn_id (g n) = pn_id n /\ pn_title (g n) = pn_title n) ->
  (forall n, n ∈ mp_nodes p -> pn_status (g n) = ns_active -> pn_id n = mp_current p') ->
  (forall n, n ∈ mp_nodes p -> pn_status n = ns_done -> pn_status (g n) = ns_done) ->
  safely p p'.
Proof.
  intros [Hi Ha] Hn Hid Hact Hdone. split; [split|].
  - rewrite Hn. unfold ids_of. rewrite <- list_fmap_compose. rewrite (list_fmap_ext _ pn_id); [done|].
    intros i n E. cbn. by apply Hid, (list_elem_of_lookup_2 _ i).
  - intros n' Hn'. rewrite Hn in Hn'. apply list_elem_of_fmap in Hn' as (n & -> & Hin). intros Hs.
    rewrite (proj1 (Hid n Hin)). by apply Hact.
  - intros n Hin Hd. exists (g n). destruct (Hid n Hin). rewrite Hn.
    split_and!; [by apply list_elem_of_fmap_2|done|done|by apply Hdone].
Qed.

(** Only the nodes and the current id matter. *)
Lemma stamped_safely now p q : safely p q -> safely p (refreshPlanValidation (touched now q)).
Proof. intros [[Hi Ha] Hk]. by split. Qed.

Definition activation (current nodeId : string) (n : PlanNode) : PlanNode :=
  if is_node nodeId n then set_node_status ns_active n
  else if is_node current n && in_status ns_active n then set_node_status ns_pending n else n.

(** An activation: the node was open, its known dependencies are closed. *)
Lemma activateNode_spec now p nodeId p' :
  NoDup (ids_of (mp_nodes p)) -> activateNode now p nodeId = Some p' ->
  exists node, node_of nodeId (mp_nodes p) = Some node /\ closed node = false /\
    (forall dep d, dep ∈ pn_dependsOn node -> node_of dep (mp_nodes p) = Some d -> closed d = true) /\
    mp_current p' = nodeId /\ mp_nodes p' = map (activation (mp_current p) nodeId) (mp_nodes p).
Proof.
  intros Hnd H. unfold activateNode in H. destruct (node_of nodeId (mp_nodes p)) as [node|] eqn:En; [|done].
  destruct (closed node) eqn:Ec; [done|]. destruct (forallb _ _) eqn:Ed; [|done]. injection H as <-.
  exists node. split_and!; [done|done| |done|].
  { intros dep d Hd E. pose proof (forallb_elem _ _ _ Ed Hd) as H. unfold dep_satisfied in H. by rewrite E in H. }
  cbn. destruct (node_of (mp_current p) (mp_nodes p)) as [prev|] eqn:Ep.
  - destruct (node_of_Some _ _ _ Ep) as [Hprev Eprev].
    destruct (negb (pn_id prev === nodeId) && in_status ns_active prev) eqn:E.
    + rewrite !on_node_map; [|done|by rewrite on_node_ids]. rewrite map_map. apply map_ext_in.
      intros n Hn%list_elem_of_In. unfold activation. apply andb_true_iff in E as [E1 E2].
      destruct (is_node (mp_current p) n) eqn:Ecur; [|by rewrite andb_false_l].
      apply is_node_true in Ecur. assert (n = prev) as -> by (apply (same_id _ Hnd); congruence).
      rewrite E2. cbn [andb]. assert (is_node nodeId prev = false) as -> by by apply negb_true_iff in E1.
      by unfold is_node in *; cbn; rewrite (proj1 (negb_true_iff _) E1).
    + rewrite on_node_map by done. apply map_ext_in. intros n Hn%list_elem_of_In. unfold activation.
      destruct (is_node nodeId n) eqn:E1; [done|]. destruct (is_node (mp_current p) n) eqn:Ecur; [|done].
      apply is_node_true in Ecur. assert (n = prev) as -> by (apply (same_id _ Hnd); congruence).
      unfold is_node in E1. rewrite E1 in E. cbn in E. by rewrite E.
  - apply node_of_None in Ep. rewrite on_node_map by done. apply map_ext_in. intros n Hn%list_elem_of_In.
    unfold activation. destruct (is_node (mp_current p) n) eqn:Ecur; [|done].
    apply is_node_true in Ecur. destruct Ep. rewrite <- Ecur. by apply list_elem_of_fmap_2.
Qed.

Lemma closed_done n : pn_status n = ns_done -> closed n = true.
Proof. intros H. unfold closed, in_status. rewrite H. done. Qed.

Lemma activateNode_safely now p nodeId p' : sound p -> activateNode now p nodeId = Some p' -> safely p p'.
Proof.
  intros Hs H. pose proof Hs as [Hnd Hact].
  destruct (activateNode_spec now p nodeId p' Hnd H) as (node & En & Ec & _ & Hc & Hn).
  apply (map_safely p p' _ Hs Hn); unfold activation.
  - intros n _. destruct (is_node nodeId n); [done|]. by destruct (_ && _).
  - intros n Hin. rewrite Hc. destruct (is_node nodeId n) eqn:E; [by apply is_node_true in E|].
    destruct (is_node (mp_current p) n && in_status ns_active n) eqn:E2; [done|]. intros Ha.
    rewrite (proj2 (is_node_true _ _) (Hact n Hin Ha)) in E2. unfold in_status in E2. cbn [andb] in E2.
    by rewrite (proj2 (same_eq _ _) Ha) in E2.
  - intros n Hin Hd. destruct (is_node nodeId n) eqn:E.
    + apply is_node_true in E. rewrite <- E, node_of_elem in En by done. simplify_eq.
      by rewrite closed_done in Ec.
    + unfold in_status. rewrite Hd. by rewrite andb_false_r.
Qed.

Lemma activate_first_pending_safely now p :
  NoDup (ids_of (mp_nodes p)) -> (forall n, n ∈ mp_nodes p -> pn_status n <> ns_active) ->
  safely p (activate_first_pending now p).
Proof.
  intros Hnd Hno. assert (sound p) as Hs by (split; [done|]; intros n Hn Ha; by apply Hno in Hn).
  unfold activate_first_pending. destruct (find _ _) as [next|].
  - destruct (activateNode now p (pn_id next)) as [p'|] eqn:E; [by apply (activateNode_safely now p (pn_id next))|].
    by apply safely_refl.
  - split; [split; [done|]|exact (keeps_refl p)]. intros n Hn Ha. by apply Hno in Hn.
Qed.

Lemma removeNode_safely now p id p' : sound p -> removeNode now p id = Some p' -> safely p p'.
Proof.
  intros Hs H. pose proof Hs as [Hnd Hact]. unfold removeNode in H.
  destruct (node_of id (mp_nodes p)) as [node|] eqn:En; [|done].
  destruct (in_status ns_done node) eqn:Ed; [done|]. injection H as <-.
  apply stamped_safely.
  set (q := with_nodes (remove_first id (mp_nodes p)) p).
  assert (forall n, n ∈ mp_nodes q <-> pn_id n <> id /\ n ∈ mp_nodes p) as Hin.
  { intros n. cbn. rewrite remove_first_filter by done. by rewrite list_elem_of_filter. }
  assert (NoDup (ids_of (mp_nodes q))) as Hq.
  { cbn. rewrite remove_first_filter by done. unfold ids_of.
    eapply sublist_NoDup; [exact Hnd|]. apply fmap_sublist, sublist_filter. }
  assert (keeps p q) as Hk.
  { intros n Hn Hdn. exists n. split_and!; [|done..]. apply Hin. split; [|done]. intros E.
    rewrite <- E, node_of_elem in En by done. simplify_eq. unfold in_status in Ed. by rewrite Hdn in Ed. }
  change (mp_current p) with (mp_current q) in *. destruct (mp_current q === id) eqn:Ec; reflect.
  - assert (safely q (activate_first_pending now q)) as [H1 H2]; [|split; [done|by eapply keeps_trans]].
    apply activate_first_pending_safely; [done|]. intros n [Hne Hn]%Hin Ha. apply Hne. by rewrite <- Ec, Hact.
  - split; [split; [done|]|done]. intros n [_ Hn]%Hin. apply Hact, Hn.
Qed.

Lemma outcome_safely p p' id status evidence :
  sound p -> status <> ns_active -> mp_current p' = mp_current p ->
  mp_nodes p' = on_node id (set_outcome status evidence) (mp_nodes p) ->
  (forall n, node_of id (mp_nodes p) = Some n -> pn_status n = ns_done -> status = ns_done) ->
  safely p p'.
Proof.
  intros Hs Hst Hc Hn Hd. pose proof Hs as [Hnd Hact]. rewrite on_node_map in Hn by done.
  apply (map_safely p p' _ Hs Hn).
  - intros n _. by destruct (is_node id n).
  - intros n Hin. rewrite Hc. destruct (is_node id n); [done|by apply Hact].
  - intros n Hin Hdn. destruct (is_node id n) eqn:E; [|done]. apply is_node_true in E. cbn.
    apply (Hd n); [|done]. rewrite <- E. by apply node_of_elem.
Qed.

Lemma markNodeDone_safely now p id evidence : sound p -> safely p (markNodeDone now p id evidence).
Proof.
  intros Hs. unfold markNodeDone. destruct (node_of id _); [|by apply safely_refl].
  by eapply (outcome_safely p _ id ns_done evidence).
Qed.

Lemma skipNode_safely now p id reason p' : sound p -> skipNode now p id reason = Some p' -> safely p p'.
Proof.
  intros Hs H. pose proof Hs as [Hnd Hact]. unfold skipNode in H.
  destruct (node_of id (mp_nodes p)) as [node|] eqn:En; [|done].
  destruct (in_status ns_done node) eqn:Ed; [done|]. injection H as <-.
  apply stamped_safely.
  set (q := with_nodes (on_node id (set_outcome ns_skipped (Some reason)) (mp_nodes p)) p).
  assert (safely p q) as [Hq Hk].
  { apply (outcome_safely p q id ns_skipped (Some reason)); [done|done|done|done|].
    intros n E Hdn. rewrite En in E. injection E as <-. unfold in_status in Ed. by rewrite Hdn in Ed. }
  change (mp_current p) with (mp_current q) in *. destruct (mp_current q === id) eqn:Ec; reflect; [|done].
  assert (safely q (activate_first_pending now q)) as [H1 H2]; [|split; [done|by eapply keeps_trans]].
  apply activate_first_pending_safely; [apply Hq|]. intros n Hn Ha. pose proof (so_active q Hq n Hn Ha) as E.
  subst q. cbn [mp_nodes with_nodes mp_current] in *. rewrite on_node_map in Hn by done.
  apply list_elem_of_fmap in Hn as (m & -> & Hm).
  destruct (is_node id m) eqn:Em; [done|]. assert (pn_id m = id) as Emid by congruence.
  by rewrite (proj2 (is_node_true _ _) Emid) in Em.
Qed.

Lemma insert_after_split after node nodes :
  exists l1 l2, nodes = l1 ++ l2 /\ insert_after after node nodes = l1 ++ node :: l2.
Proof.
  induction nodes as [|n nodes (l1 & l2 & E1 & E2)]; [by exists [], []|]. cbn.
  destruct (is_node after n); [by exists [n], nodes|]. exists (n :: l1), l2. cbn. split; [by rewrite E1 at 1|by rewrite E2].
Qed.

Lemma addNode_safely fpm now p title deps after p' node :
  sound p -> addNode fpm now p title deps after = Ok (p', node) ->
  safely p p' /\ pn_status node = ns_pending /\ pn_id node = nextNodeId p /\ node ∈ mp_nodes p'.
Proof.
  intros Hs H. pose proof Hs as [Hnd Hact]. unfold addNode in H. apply res_bind_Ok in H as (n & En & H).
  injection H as <- <-. apply res_bind_Ok in En as (tr & _ & En). injection En as <-. set (n := mkNode _ _ _ _ _ _ _ _ _) in *.
  set (nodes := match after with Some _ => _ | None => _ end).
  assert (exists l1 l2, mp_nodes p = l1 ++ l2 /\ nodes = l1 ++ n :: l2) as (l1 & l2 & E1 & E2).
  { subst nodes. destruct after as [id|]; [destruct (id === "")|]; [|apply insert_after_split|];
      exists (mp_nodes p), []; by rewrite app_nil_r. }
  cbn [touched with_nodes mp_nodes with_validation refreshPlanValidation].
  assert (nodes ≡ₚ n :: mp_nodes p) as Hp by (rewrite E1, E2; by rewrite Permutation_middle).
  split_and!; [|done|done|by rewrite Hp; left]. split; [split|]; cbn.
  - unfold ids_of. rewrite Hp. cbn. constructor; [apply nextNodeId_fresh|done].
  - intros m Hm Ha. rewrite Hp in Hm. apply elem_of_cons in Hm as [->|Hm]; [done|]. by apply Hact.
  - intros m Hm Hd. exists m. cbn. rewrite Hp. split_and!; [by right|done..].
Qed.

Lemma review_safely now p : sound p -> safely p (buildNodeReviewGate now p).1.
Proof.
  intros Hs. unfold buildNodeReviewGate. destruct (planComplete p); [by apply safely_refl|].
  destruct (find _ _) as [next|]; [|by apply safely_refl]. cbn.
  destruct (activateNode now p (pn_id next)) as [p'|] eqn:E; [by eapply activateNode_safely|by apply safely_refl].
Qed.

(** Between the words of "end to end" there is one character, whatever it is in
    UTF-8, unless it takes two units of JavaScript. *)
Lemma end_to_end_units :
  map end_to_end ["run end-to-end"; "end—to–end"; "end" +:+ "é" +:+ "to end"; "endtoend"; "end😀to end"; "end to  end"]
  = [true; true; true; false; false; false].
Proof. vm_compute. reflexivity. Qed.
