(* ===== verification/PlanRun.v ===== *)
(** A run's work on its master plan.

    Models [src/src/agent/kernel/master-plan.ts] (activation of a plan,
    transition to its next node, the mode that follows it),
    [src/src/agent/run/plan-store.ts], the task tool of [src/src/tools/meta.ts],
    and the plan state of [src/src/harness/persistence/serialization.ts], over
    the plans of [MasterPlan].  The tracker a run works on is the tracker object
    of a node of its plan, or one of its own: [TrackerRef] says which. *)
From Stdlib Require Import Ascii.
From stdpp Require Import pretty.
From S2P Require Import Prelude Paths Evidence ModeContract Tracker MasterPlan.
From S2P Require PatchTx EdgeStore GraphCompiler.
Open Scope Z_scope.
Open Scope list_scope.

(** ** The run *)

(** [planning.taskTracker]: none, that of a node of the plan, or its own. *)
Inductive TrackerRef := tr_none | tr_node (id : string) | tr_own (t : Tracker).

(** src/src/agent/run/plan-store.ts # PlanStore

    With the parts of the run that follow the plan: the tracker worked on, the
    patch context and the mode. *)
Record PlanRun := mkPlanRun {
  pr_plan : option MasterPlan; pr_revision : Z; pr_tracker : TrackerRef;
  pr_patch : option PatchTx.ActivePatchContext; pr_mode : ModeName }.

Definition with_plan (plan : MasterPlan) (r : PlanRun) : PlanRun :=
  mkPlanRun (Some plan) (pr_revision r) (pr_tracker r) (pr_patch r) (pr_mode r).
Definition with_tracker (t : TrackerRef) (r : PlanRun) : PlanRun :=
  mkPlanRun (pr_plan r) (pr_revision r) t (pr_patch r) (pr_mode r).
Definition with_patch (a : option PatchTx.ActivePatchContext) (r : PlanRun) : PlanRun :=
  mkPlanRun (pr_plan r) (pr_revision r) (pr_tracker r) a (pr_mode r).
Definition with_mode (m : ModeName) (r : PlanRun) : PlanRun :=
  mkPlanRun (pr_plan r) (pr_revision r) (pr_tracker r) (pr_patch r) m.

(** src/src/agent/run/plan-store.ts # createPlanStore *)
Definition createPlanStore (initial : option MasterPlan) (t : TrackerRef) (m : ModeName) : PlanRun :=
  mkPlanRun initial (if initial is Some _ then 1 else 0) t None m.
(** src/src/agent/run/plan-store.ts # setCurrentPlan

    A plan just made is another object than the one in the store. *)
Definition setCurrentPlan (plan : MasterPlan) (r : PlanRun) : PlanRun :=
  mkPlanRun (Some plan) (pr_revision r + 1) (pr_tracker r) (pr_patch r) (pr_mode r).
(** src/src/agent/run/plan-store.ts # clearPlanStore *)
Definition clearPlanStore (r : PlanRun) : PlanRun :=
  match pr_plan r with
  | None => r
  | Some _ => mkPlanRun None (pr_revision r + 1) (pr_tracker r) (pr_patch r) (pr_mode r)
  end.

(** The tracker the run works on. *)
Definition taskTracker (r : PlanRun) : option Tracker :=
  match pr_tracker r with
  | tr_none => None
  | tr_own t => Some t
  | tr_node id => plan ← pr_plan r; pn_tracker <$> node_of id (mp_nodes plan)
  end.

(** A round's tool results reach the tracker through either reference. *)
Definition set_tracker (t : Tracker) (n : PlanNode) : PlanNode :=
  mkNode (pn_id n) (pn_title n) (pn_status n) t (pn_dependsOn n) (pn_blockedBy n) (pn_evidence n)
    (pn_reactCount n) (pn_packet n).
Definition track_update (u : TrackerUpdate) (r : PlanRun) : PlanRun :=
  match pr_tracker r, pr_plan r with
  | tr_own t, _ => with_tracker (tr_own (updateTaskTrackerAfterTools u t)) r
  | tr_node id, Some plan =>
      with_plan (with_nodes (on_node id (fun n => set_tracker (updateTaskTrackerAfterTools u (pn_tracker n)) n)
                               (mp_nodes plan)) plan) r
  | _, _ => r
  end.

Section Kernel.
Context (file_path_matches : string -> list string) (now : Z).
(** What the mode transition reads of the run besides the plan. *)
Context (rippleObligations toolErrors : Z).

(** src/src/agent/kernel/master-plan.ts # syncModeWithMasterPlan *)
Definition syncModeWithMasterPlan (r : PlanRun) : PlanRun :=
  match pr_plan r with
  | None => r
  | Some plan =>
      with_mode (syncMode (pr_mode r)
        (mkTransition (pn_status <$> currentNode plan) rippleObligations toolErrors (planComplete plan))) r
  end.

(** The node's tracker and packet become the run's. *)
Definition work_on (n : PlanNode) (r : PlanRun) : PlanRun :=
  let r := with_tracker (tr_node (pn_id n)) r in
  match pn_packet n with
  | Some p => with_patch (Some (PatchTx.mkActivePatch (pk_scope p) (map vq_kind (pk_verification p)) (pn_id n))) r
  | None => r
  end.

(** One parsed dependency: the [d]th node becomes a dependency of the [i]th. *)
Definition transfer_dep (i : nat) (nodes : list PlanNode) (d : nat) : list PlanNode :=
  match nodes !! (d - 1)%nat, nodes !! i with
  | Some dep, Some cur =>
      if (d =? 0)%nat || includes (pn_dependsOn cur) (pn_id dep) then nodes
      else alter (fun n => set_edges (pn_dependsOn n) (pn_blockedBy n ++ [pn_id cur]) n) (d - 1)%nat
             (alter (fun n => set_edges (pn_dependsOn n ++ [pn_id dep]) (pn_blockedBy n) n) i nodes)
  | _, _ => nodes
  end.
Definition transfer_deps (parsed : list (list nat)) (nodes : list PlanNode) : list PlanNode :=
  fold_left (fun nodes '(i, deps) => fold_left (transfer_dep i) deps nodes)
    (zip (seq 0 (length parsed)) parsed) nodes.

(** The packet of a forced pass, with the context of the run. *)
Definition attach_context (a : option PlanContextAttachment) (p : TaskPacket) : TaskPacket :=
  match a with
  | None => p
  | Some a =>
      mkPacket (pk_taskId p) (pk_nodeId p) (pk_title p) (pk_goal p)
        (match pk_contextMapId p with Some id => Some id | None => pa_contextMapId a end)
        (if empty (default [] (pk_requiredContextEvidence p)) then pa_requiredContextEvidence a
         else pk_requiredContextEvidence p)
        (pk_scope p) (pk_doneCriteria p) (pk_verification p) (pk_ripplePolicy p) (pk_contextBudget p)
  end.

(** The plan a planning text asks for. *)
Definition planned (planText goal : string) (context : option PlanContextAttachment)
  : res (list PacketIssue) MasterPlan :=
  let nodes := nodesFromPlanText planText in
  let titles := match nodes with
                | [] => [if slice120 goal === "" then "主要任务" else slice120 goal]
                | _ => map fst nodes
                end in
  plan ← createMasterPlan file_path_matches now goal ti_long_task titles context;
  Ok (with_nodes (transfer_deps (map snd nodes) (mp_nodes plan)) plan).

(** src/src/agent/kernel/master-plan.ts # activateMasterPlan *)
Definition activateMasterPlan (planText goal : string) (forcePassPacket : option TaskPacket)
    (context : option PlanContextAttachment) (r : PlanRun) : res (list PacketIssue) (PlanRun * bool) :=
  match forcePassPacket with
  | Some packet =>
      plan ← createMasterPlanFromPacket now (attach_context context packet) ti_long_task;
      let r := setCurrentPlan plan r in
      match currentNode plan with
      | None => Ok (r, false)
      | Some cur => Ok (syncModeWithMasterPlan (work_on cur r), true)
      end
  | None =>
      plan ← planned planText goal context;
      let plan := refreshPlanValidation plan in
      let r := setCurrentPlan plan r in
      match currentNode plan with
      | None => Ok (r, false)
      | Some cur => Ok (syncModeWithMasterPlan (work_on cur r), true)
      end
  end.

(** src/src/agent/kernel/master-plan.ts # tryNodeTransition

    Without the review prompt it adds to the conversation. *)
Definition tryNodeTransition (r : PlanRun) : PlanRun * bool :=
  match pr_plan r, taskTracker r with
  | Some plan, Some _ =>
      let plan := match currentNode plan with
                  | Some cur => markNodeDone now plan (pn_id cur) (Some "验证通过")
                  | None => plan
                  end in
      let '(plan, rv) := buildNodeReviewGate now plan in
      let plan := refreshPlanValidation plan in
      let r := syncModeWithMasterPlan (with_plan plan r) in
      if planComplete plan then (r, false)
      else if (rv_remaining rv =? 0)%nat then (r, false)
      else
        let r := match currentNode plan with
                 | Some next => if rv_resume rv then work_on next r else r
                 | None => r
                 end in
        (syncModeWithMasterPlan r, true)
  | _, _ => (r, false)
  end.

(** ** The task tool *)

Inductive TaskOp :=
| op_list | op_add (title depends_on : string) | op_done (id reason : string)
| op_remove (id reason : string) | op_skip (id reason : string) | op_unknown.

Inductive TaskReply :=
| re_listed (nodes : list PlanNode) | re_added (id : string) | re_done (id : string)
| re_removed (id : string) | re_skipped (id : string)
| re_no_plan | re_missing_title | re_missing_id | re_not_found | re_cannot_remove | re_cannot_skip | re_unknown
| re_throws (issues : list PacketIssue).

(** A node that leaves the plan stays the run's as an object of its own. *)
Definition keep_tracker (id : string) (r : PlanRun) : PlanRun :=
  match pr_tracker r with
  | tr_node id' => if id' === id then match taskTracker r with Some t => with_tracker (tr_own t) r | None => r end else r
  | _ => r
  end.

(** src/src/tools/meta.ts # execute @72-121

    The task tool's handler, on arguments turned to strings. *)
Definition task_tool (op : TaskOp) (r : PlanRun) : PlanRun * TaskReply :=
  match pr_plan r with
  | None => (r, re_no_plan)
  | Some plan =>
      match op with
      | op_list => (r, re_listed (mp_nodes plan))
      | op_add title depends_on =>
          let title := trim title in
          if title === "" then (r, re_missing_title)
          else
            let deps := filter (fun d => d <> "") (map trim (split_on ","%char depends_on)) in
            match addNode file_path_matches now plan title deps None with
            | Throw issues => (r, re_throws issues)
            | Ok (plan, node) => (with_plan plan r, re_added (pn_id node))
            end
      | op_done id reason =>
          if id === "" then (r, re_missing_id)
          else match node_of id (mp_nodes plan) with
               | None => (r, re_not_found)
               | Some _ => (with_plan (markNodeDone now plan id (Some reason)) r, re_done id)
               end
      | op_remove id reason =>
          match removeNode now plan id with
          | None => (r, re_cannot_remove)
          | Some plan => (with_plan plan (keep_tracker id r), re_removed id)
          end
      | op_skip id reason =>
          match skipNode now plan id reason with
          | None => (r, re_cannot_skip)
          | Some plan => (with_plan plan r, re_skipped id)
          end
      | op_unknown => (r, re_unknown)
      end
  end.

End Kernel.

(** What a run does with its plan, each at a moment of its own. *)
Inductive PlanAct := act_tool (op : TaskOp) | act_transition | act_update (u : TrackerUpdate).
Record Moment := mkMoment { mo_now : Z; mo_rippleObligations : Z; mo_toolErrors : Z }.

Definition act (fpm : string -> list string) (m : Moment) (a : PlanAct) (r : PlanRun) : PlanRun :=
  match a with
  | act_tool op => (task_tool fpm (mo_now m) op r).1
  | act_transition => (tryNodeTransition (mo_now m) (mo_rippleObligations m) (mo_toolErrors m) r).1
  | act_update u => track_update u r
  end.
Definition acts (fpm : string -> list string) (l : list (Moment * PlanAct)) (r : PlanRun) : PlanRun :=
  fold_left (fun r a => act fpm a.1 a.2 r) l r.

(** ** Persistence *)

Record SerializedNode := mkSerializedNode {
  sn_id : string; sn_title : string; sn_status : NodeStatus; sn_dependsOn : list string;
  sn_blockedBy : list string; sn_evidence : option string; sn_reactCount : Z }.

(** src/src/harness/persistence/harness-store.ts # SerializablePlanState

    A run without a plan has a state with an empty goal and no nodes. *)
Record SerializablePlanState := mkPlanState {
  sp_goal : string; sp_intent : TaskIntent; sp_current : string; sp_nodes : list SerializedNode }.

(** src/src/harness/persistence/serialization.ts # serializePlanState *)
Definition serializePlanState (plan : option MasterPlan) : SerializablePlanState :=
  match plan with
  | None => mkPlanState "" ti_readonly "" []
  | Some p =>
      mkPlanState (mp_goal p) (mp_intent p) (mp_current p)
        (map (fun n => mkSerializedNode (pn_id n) (pn_title n) (pn_status n) (pn_dependsOn n) (pn_blockedBy n)
                         (pn_evidence n) (pn_reactCount n)) (mp_nodes p))
  end.

(** The state laid over a node made afresh. *)
Definition restore_node (intent : TaskIntent) (s : SerializedNode) (n : PlanNode) : PlanNode :=
  mkNode (pn_id n) (pn_title n) (sn_status s) (default (pn_tracker n) (createTaskTracker (sn_title s) intent))
    (sn_dependsOn s) (sn_blockedBy s) (sn_evidence s) (sn_reactCount s) (pn_packet n).

(** src/src/harness/persistence/serialization.ts # deserializePlanState *)
Definition deserializePlanState (file_path_matches : string -> list string) (now : Z) (state : SerializablePlanState)
  : res (list PacketIssue) (option MasterPlan) :=
  if (sp_goal state === "") || empty (sp_nodes state) then Ok None
  else
    plan ← createMasterPlan file_path_matches now (sp_goal state) (sp_intent state) (map sn_title (sp_nodes state)) None;
    let nodes := zip_with (restore_node (sp_intent state)) (sp_nodes state) (mp_nodes plan) in
    let current := if sp_current state === "" then from_option pn_id "" (head (mp_nodes plan)) else sp_current state in
    Ok (Some (with_current current (with_nodes nodes plan))).

(** ** Steps of a run *)

Lemma sync_plan ro te r : pr_plan (syncModeWithMasterPlan ro te r) = pr_plan r.
Proof. unfold syncModeWithMasterPlan. destruct (pr_plan r) eqn:E; [|done]. by cbn. Qed.

Lemma work_on_plan n r : pr_plan (work_on n r) = pr_plan r.
Proof. unfold work_on. by destruct (pn_packet n). Qed.

(** A transition: the current node done, then the review. *)
Definition finish_current (now : Z) (plan : MasterPlan) : MasterPlan :=
  match currentNode plan with
  | Some cur => markNodeDone now plan (pn_id cur) (Some "验证通过")
  | None => plan
  end.
Definition moved (now : Z) (plan : MasterPlan) : MasterPlan :=
  refreshPlanValidation (buildNodeReviewGate now (finish_current now plan)).1.

Lemma sync_work_on ro te n r : pr_tracker (syncModeWithMasterPlan ro te (work_on n r)) = tr_node (pn_id n).
Proof. unfold syncModeWithMasterPlan, work_on. destruct (pn_packet n); cbn; by destruct (pr_plan r). Qed.

(** The review holds the run back only with the plan as it was. *)
Lemma review_stuck now p : rv_resume (buildNodeReviewGate now p).2 = false -> (buildNodeReviewGate now p).1 = p.
Proof. unfold buildNodeReviewGate. destruct (planComplete p); [done|]. by destruct (find _ _). Qed.

Lemma transition_plan now ro te r p :
  pr_plan r = Some p -> taskTracker r <> None -> pr_plan (tryNodeTransition now ro te r).1 = Some (moved now p).
Proof.
  intros Hp Ht. unfold tryNodeTransition, moved. rewrite Hp. destruct (taskTracker r); [|done].
  fold (finish_current now p). destruct (buildNodeReviewGate now (finish_current now p)) as [q rv]. cbn [fst].
  destruct (planComplete _); cbn [fst]; [by rewrite sync_plan|].
  destruct (rv_remaining rv =? 0)%nat; cbn [fst]; [by rewrite sync_plan|].
  rewrite sync_plan. destruct (currentNode _); [|by rewrite sync_plan].
  destruct (rv_resume rv); [rewrite work_on_plan|]; by rewrite sync_plan.
Qed.

Lemma transition_idle now ro te r :
  pr_plan r = None \/ taskTracker r = None -> tryNodeTransition now ro te r = (r, false).
Proof. unfold tryNodeTransition. intros [->| ->]; [done|]. by destruct (pr_plan r). Qed.

Lemma moved_safely now p : sound p -> safely p (moved now p).
Proof.
  intros Hs. assert (safely p (finish_current now p)) as H1.
  { unfold finish_current. destruct (currentNode p); [by apply markNodeDone_safely|by apply safely_refl]. }
  eapply safely_trans; [exact H1|]. destruct (review_safely now _ (proj1 H1)) as [[Hi Ha] Hk]. by split.
Qed.

Lemma task_tool_safely fpm now op r p :
  pr_plan r = Some p -> sound p -> exists p', pr_plan (task_tool fpm now op r).1 = Some p' /\ safely p p'.
Proof.
  intros Hp Hs. assert (exists p', pr_plan r = Some p' /\ safely p p') as Hno by (exists p; by split; [|apply safely_refl]).
  unfold task_tool. rewrite Hp. destruct op as [|title deps|id reason|id reason|id reason|]; try done.
  - destruct (trim title === ""); [done|]. destruct (addNode _ _ _ _ _ _) as [[p' n]|] eqn:E; [|done].
    exists p'. split; [done|]. by eapply (addNode_safely fpm now p).
  - destruct (id === ""); [done|]. destruct (node_of id (mp_nodes p)); [|done].
    eexists. split; [done|]. by apply markNodeDone_safely.
  - destruct (removeNode now p id) as [p'|] eqn:E; [|done]. exists p'. split; [done|]. by eapply removeNode_safely.
  - destruct (skipNode now p id reason) as [p'|] eqn:E; [|done]. exists p'. split; [done|]. by eapply skipNode_safely.
Qed.

Lemma track_update_safely u r p :
  pr_plan r = Some p -> sound p -> exists p', pr_plan (track_update u r) = Some p' /\ safely p p'.
Proof.
  intros Hp Hs. unfold track_update. rewrite Hp. destruct (pr_tracker r) as [|id|t];
    [exists p; by split; [|apply safely_refl]| |exists p; by split; [|apply safely_refl]].
  eexists. split; [done|]. pose proof Hs as [Hnd Ha].
  apply (map_safely p _ (fun n => if is_node id n then set_tracker (updateTaskTrackerAfterTools u (pn_tracker n)) n else n) Hs).
  - cbn. by apply on_node_map.
  - intros n _. by destruct (is_node id n).
  - intros n Hn. cbn. destruct (is_node id n); cbn; by apply Ha.
  - intros n _. by destruct (is_node id n).
Qed.

Lemma act_safely fpm m a r p :
  pr_plan r = Some p -> sound p -> exists p', pr_plan (act fpm m a r) = Some p' /\ safely p p'.
Proof.
  intros Hp Hs. destruct a as [op| |u]; cbn [act].
  - by apply task_tool_safely.
  - destruct (taskTracker r) eqn:Et.
    + exists (moved (mo_now m) p). split; [|by apply moved_safely].
      apply transition_plan; [done|congruence].
    + rewrite transition_idle by by right. exists p. by split; [|apply safely_refl].
  - by apply track_update_safely.
Qed.

Lemma acts_safely fpm l : forall r p,
  pr_plan r = Some p -> sound p -> exists p', pr_plan (acts fpm l r) = Some p' /\ safely p p'.
Proof.
  induction l as [|[m a] l IH]; intros r p Hp Hs; cbn [acts fold_left]; [exists p; by split; [|apply safely_refl]|].
  destruct (act_safely fpm m a r p Hp Hs) as (p1 & Hp1 & H1).
  destruct (IH _ p1 Hp1 (proj1 H1)) as (p2 & Hp2 & H2). exists p2. split; [done|by eapply safely_trans].
Qed.

(** What is neither closed nor waiting is active. *)
Lemma status_cases n :
  closed n = true \/ (in_status ns_pending n || in_status ns_blocked n) = true \/ pn_status n = ns_active.
Proof. unfold closed, in_status. destruct (pn_status n); cbn; auto. Qed.

Lemma finish_current_sound now p : sound p ->
  forall n, n ∈ mp_nodes (finish_current now p) -> pn_status n <> ns_active.
Proof.
  intros [Hnd Hact] n Hn Ha. unfold finish_current, markNodeDone in Hn.
  destruct (currentNode p) as [cur|] eqn:Ec.
  - pose proof (node_of_Some _ _ _ Ec) as [Hin Eid]. rewrite node_of_elem in Hn by done.
    cbn [mp_nodes touched with_nodes] in Hn. rewrite on_node_map in Hn by done.
    apply list_elem_of_fmap in Hn as (m & -> & Hm). destruct (is_node (pn_id cur) m) eqn:E; [done|].
    apply Hact in Ha; [|done]. rewrite Eid in E. by rewrite (proj2 (is_node_true _ _) Ha) in E.
  - apply node_of_None in Ec. destruct Ec. rewrite <- (Hact n Hn Ha). by apply list_elem_of_fmap_2.
Qed.

Lemma review_none_left now p :
  (forall n, n ∈ mp_nodes p -> pn_status n <> ns_active) ->
  rv_remaining (buildNodeReviewGate now p).2 = 0%nat -> planComplete (buildNodeReviewGate now p).1 = true.
Proof.
  intros Hno. unfold buildNodeReviewGate. destruct (planComplete p) eqn:Ep; [done|].
  set (rest := filter _ (mp_nodes p)). intros Hz. assert (rest = []) as Hr.
  { destruct (find (in_status ns_pending) rest); cbn in Hz; by destruct rest. }
  rewrite Hr. cbn. unfold planComplete. apply forallb_forall. intros n Hn%list_elem_of_In.
  destruct (status_cases n) as [H|[H|H]]; [done| |by apply Hno in Hn].
  assert (n ∈ rest) as H' by by apply list_elem_of_filter. rewrite Hr in H'. set_solver.
Qed.

Lemma transition_false_complete now ro te r p r' :
  pr_plan r = Some p -> sound p -> taskTracker r <> None -> tryNodeTransition now ro te r = (r', false) ->
  exists p', pr_plan r' = Some p' /\ planComplete p' = true.
Proof.
  intros Hp Hs Ht H. pose proof (transition_plan now ro te r p Hp Ht) as Hp'. rewrite H in Hp'. cbn in Hp'.
  exists (moved now p). split; [done|]. revert H. unfold tryNodeTransition, moved. rewrite Hp.
  destruct (taskTracker r); [|done]. fold (finish_current now p).
  pose proof (review_none_left now (finish_current now p) (finish_current_sound now p Hs)) as Hz.
  destruct (buildNodeReviewGate now (finish_current now p)) as [q rv]. cbn [fst snd] in *.
  change (planComplete (refreshPlanValidation q)) with (planComplete q).
  destruct (planComplete q); [done|]. destruct (rv_remaining rv =? 0)%nat eqn:E; [|done].
  intros _. apply Hz. by apply Nat.eqb_eq.
Qed.

(** C32: Whatever a run does with its plan, task-tool calls, transitions and
    tracker updates in any order and at any times, the node ids stay distinct,
    no node but the current one is active, and a node that is done stays in the
    plan under its id and title, done.  When a transition then reports that
    there is no next node although a tracker is at work, every node of the plan
    is done or skipped: a run never ends on an unfinished plan this way. *)
Theorem plan_steps_safe fpm l r p :
  pr_plan r = Some p -> sound p ->
  exists p', pr_plan (acts fpm l r) = Some p' /\ sound p' /\ keeps p p' /\
    forall m r', taskTracker (acts fpm l r) <> None ->
      tryNodeTransition (mo_now m) (mo_rippleObligations m) (mo_toolErrors m) (acts fpm l r) = (r', false) ->
      exists p'', pr_plan r' = Some p'' /\ planComplete p'' = true.
Proof.
  intros Hp Hs. destruct (acts_safely fpm l r p Hp Hs) as (p' & Hp' & Hs' & Hk).
  exists p'. split_and!; [done|done|done|]. intros m r' Ht H. by eapply transition_false_complete.
Qed.

(** ** A plan carried out *)

(** Dependencies point back: on earlier nodes of the plan, or on no node. *)
Definition ordered (nodes : list PlanNode) : Prop :=
  forall i j n m, nodes !! i = Some n -> nodes !! j = Some m -> pn_id m ∈ pn_dependsOn n -> (j < i)%nat.

(** The plan with [k] nodes done and the next one at work. *)
Record standing (k : nat) (p : MasterPlan) : Prop := {
  sg_ids : NoDup (ids_of (mp_nodes p));
  sg_ordered : ordered (mp_nodes p);
  sg_status : forall i n, mp_nodes p !! i = Some n ->
    pn_status n = if (i <? k)%nat then ns_done else if (i =? k)%nat then ns_active else ns_pending;
  sg_current : forall n, mp_nodes p !! k = Some n -> mp_current p = pn_id n }.

Lemma find_at {A} (p : A -> bool) (l : list A) j x :
  l !! j = Some x -> p x = true -> (forall i y, (i < j)%nat -> l !! i = Some y -> p y = false) -> find p l = Some x.
Proof.
  revert j. induction l as [|y l IH]; intros [|j] Hx Hp Hlt; cbn in *; [done|done| |].
  - injection Hx as ->. by rewrite Hp.
  - rewrite (Hlt 0%nat y) by (done || lia). apply (IH j); [done|done|].
    intros i z Hi Hz. apply (Hlt (S i) z); [lia|done].
Qed.

Lemma find_filter {A} (p q : A -> bool) (l : list A) :
  (forall x, p x = true -> q x = true) -> find p (filter (fun x => q x = true) l) = find p l.
Proof.
  intros Hpq. induction l as [|x l IH]; [done|]. cbn [find]. destruct (q x) eqn:Eq.
  - rewrite filter_cons_True by done. cbn [find]. by rewrite IH.
  - rewrite filter_cons_False by by rewrite Eq. rewrite IH. destruct (p x) eqn:Ep; [|done].
    by rewrite (Hpq x Ep) in Eq.
Qed.

(** In a plan with distinct ids a node is known by its place. *)
Lemma is_node_at nodes i k n m : NoDup (ids_of nodes) ->
  nodes !! i = Some n -> nodes !! k = Some m -> is_node (pn_id m) n = (i =? k)%nat.
Proof.
  intros Hnd Hi Hk. destruct (is_node (pn_id m) n) eqn:E.
  - apply is_node_true in E. symmetry. apply Nat.eqb_eq.
    eapply (NoDup_lookup (ids_of nodes)); [done| |]; unfold ids_of; rewrite list_lookup_fmap; [by rewrite Hi|].
    rewrite Hk. cbn. by rewrite E.
  - symmetry. apply Nat.eqb_neq. intros ->. simplify_eq. unfold is_node in E. by rewrite same_refl in E.
Qed.

(** Once the current node is done, the rest is pending. *)
Lemma finish_standing now k p n :
  standing k p -> mp_nodes p !! k = Some n ->
  ids_of (mp_nodes (finish_current now p)) = ids_of (mp_nodes p) /\
  mp_current (finish_current now p) = pn_id n /\
  forall i x, mp_nodes (finish_current now p) !! i = Some x ->
    (exists y, mp_nodes p !! i = Some y /\ pn_id x = pn_id y /\ pn_dependsOn x = pn_dependsOn y) /\
    pn_status x = if (i <? S k)%nat then ns_done else ns_pending.
Proof.
  intros [Hnd _ Hst Hc] Hk. unfold finish_current, currentNode. rewrite (Hc n Hk).
  rewrite node_of_elem; [|done|by eapply list_elem_of_lookup_2].
  unfold markNodeDone. rewrite node_of_elem; [|done|by eapply list_elem_of_lookup_2].
  cbn [mp_nodes mp_current touched with_nodes]. split_and!; [by apply on_node_ids|by apply Hc|].
  intros i x Hi. rewrite on_node_map, list_lookup_fmap in Hi by done.
  destruct (mp_nodes p !! i) as [y|] eqn:Ey; [|done]. injection Hi as <-.
  rewrite (is_node_at _ i k y n Hnd Ey Hk). split.
  - exists y. by destruct (i =? k)%nat.
  - destruct (Nat.eqb_spec i k) as [->|Hne]; [by rewrite (proj2 (Nat.ltb_lt k (S k))) by lia|].
    rewrite (Hst i y Ey), (proj2 (Nat.eqb_neq i k) Hne).
    destruct (Nat.ltb_spec i k), (Nat.ltb_spec i (S k)); done || lia.
Qed.

Lemma activateNode_ok now p node :
  NoDup (ids_of (mp_nodes p)) -> node ∈ mp_nodes p -> closed node = false ->
  (forall dep d, dep ∈ pn_dependsOn node -> node_of dep (mp_nodes p) = Some d -> closed d = true) ->
  exists p', activateNode now p (pn_id node) = Some p' /\
    mp_current p' = pn_id node /\ mp_nodes p' = map (activation (mp_current p) (pn_id node)) (mp_nodes p).
Proof.
  intros Hnd Hn Hc Hd. destruct (activateNode now p (pn_id node)) as [p'|] eqn:E.
  - exists p'. split; [done|]. by destruct (activateNode_spec now p _ p' Hnd E) as (? & _ & _ & _ & ? & ?).
  - unfold activateNode in E. rewrite node_of_elem, Hc in E by done.
    rewrite (proj2 (forallb_forall _ _)) in E; [done|]. intros dep Hdep%list_elem_of_In.
    unfold dep_satisfied. destruct (node_of dep _) as [d|] eqn:Ed; [|done]. by eapply Hd.
Qed.

Lemma standing_nodes k p q :
  mp_nodes q = mp_nodes p -> mp_current q = mp_current p -> standing k p -> standing k q.
Proof. intros Hn Hc [H1 H2 H3 H4]. split; rewrite ?Hn, ?Hc; done. Qed.

(** Nodes that keep their ids and dependencies keep the order. *)
Lemma ordered_map nodes g :
  (forall n, pn_id (g n) = pn_id n /\ pn_dependsOn (g n) = pn_dependsOn n) -> ordered nodes -> ordered (map g nodes).
Proof.
  intros Hg Ho i j n m Hi Hj. rewrite list_lookup_fmap in Hi, Hj.
  destruct (nodes !! i) as [x|] eqn:Ei; [|done]. destruct (nodes !! j) as [y|] eqn:Ej; [|done].
  injection Hi as <-. injection Hj as <-. rewrite (proj1 (Hg y)), (proj2 (Hg x)). by eapply Ho.
Qed.

Lemma activation_keeps cur id n :
  pn_id (activation cur id n) = pn_id n /\ pn_dependsOn (activation cur id n) = pn_dependsOn n.
Proof. unfold activation. destruct (is_node id n); [done|]. by destruct (_ && _). Qed.

(** With the first [S k] nodes done, starting the next one. *)
Lemma standing_activated k q q' m :
  NoDup (ids_of (mp_nodes q)) -> ordered (mp_nodes q) -> mp_nodes q !! S k = Some m ->
  (forall i x, mp_nodes q !! i = Some x -> pn_status x = if (i <? S k)%nat then ns_done else ns_pending) ->
  mp_current q' = pn_id m -> mp_nodes q' = map (activation (mp_current q) (pn_id m)) (mp_nodes q) ->
  standing (S k) q'.
Proof.
  intros Hnd Hord Hm Hst Hc Hn.
  assert (ids_of (mp_nodes q') = ids_of (mp_nodes q)) as Hids.
  { rewrite Hn. unfold ids_of. rewrite <- list_fmap_compose. apply list_fmap_ext. intros i x _. apply activation_keeps. }
  split.
  - by rewrite Hids.
  - rewrite Hn. apply ordered_map; [apply activation_keeps|done].
  - intros i x Hi. rewrite Hn, list_lookup_fmap in Hi. destruct (mp_nodes q !! i) as [y|] eqn:Ey; [|done].
    injection Hi as <-. unfold activation. rewrite (is_node_at _ i (S k) y m Hnd Ey Hm).
    specialize (Hst i y Ey). destruct (Nat.eqb_spec i (S k)) as [->|Hne].
    { by rewrite Nat.ltb_irrefl. }
    assert (in_status ns_active y = false) as ->.
    { unfold in_status. rewrite Hst. by destruct (i <? S k)%nat. }
    rewrite andb_false_r. by rewrite Hst.
  - intros x Hx. rewrite Hn, list_lookup_fmap, Hm in Hx. injection Hx as <-.
    by rewrite (proj1 (activation_keeps _ _ _)).
Qed.

(** One transition completes the node at work and starts the next one. *)
Lemma standing_moved now k p n :
  standing k p -> mp_nodes p !! k = Some n ->
  standing (S k) (moved now p) /\ length (mp_nodes (moved now p)) = length (mp_nodes p).
Proof.
  intros Hs Hk. destruct (finish_standing now k p n Hs Hk) as (Hids & Hcur & Hst).
  pose proof Hs as [Hnd Hord _ _]. unfold moved. set (q := finish_current now p) in *.
  assert (length (mp_nodes q) = length (mp_nodes p)) as Hlen.
  { rewrite <- (length_fmap pn_id (mp_nodes q)), <- (length_fmap pn_id (mp_nodes p)). by f_equal. }
  assert (NoDup (ids_of (mp_nodes q))) as Hnq by by rewrite Hids.
  assert (ordered (mp_nodes q)) as Hoq.
  { intros i j x y Hi Hj Hdep. destruct (Hst i x Hi) as [(x' & Hx' & _ & Ed) _].
    destruct (Hst j y Hj) as [(y' & Hy' & Ei & _) _]. rewrite Ed, Ei in Hdep. by eapply Hord. }
  assert (forall i x, mp_nodes q !! i = Some x -> pn_status x = if (i <? S k)%nat then ns_done else ns_pending) as Hsq
    by (intros i x Hi; by apply Hst).
  clearbody q. unfold buildNodeReviewGate. destruct (mp_nodes q !! S k) as [m|] eqn:Em.
  - pose proof (Hsq (S k) m Em) as Hm. rewrite Nat.ltb_irrefl in Hm.
    assert (planComplete q = false) as ->.
    { apply not_true_is_false. intros H. unfold planComplete in H.
      pose proof (forallb_elem _ _ _ H (list_elem_of_lookup_2 _ _ _ Em)) as H'. unfold closed, in_status in H'. by rewrite Hm in H'. }
    rewrite find_filter by (intros x ->; done).
    rewrite (find_at (in_status ns_pending) _ (S k) m Em); [|unfold in_status; by rewrite Hm|].
    2: { intros i y Hi Hy. unfold in_status. rewrite (Hsq i y Hy). by rewrite (proj2 (Nat.ltb_lt i (S k)) Hi). }
    destruct (activateNode_ok now q m Hnq) as (q' & Eq & Hc' & Hn').
    { by eapply list_elem_of_lookup_2. } { unfold closed, in_status. by rewrite Hm. }
    { intros dep d Hdep [Hd Eid]%node_of_Some. apply list_elem_of_lookup_1 in Hd as [j Hj].
      rewrite <- Eid in Hdep. pose proof (Hoq (S k) j m d Em Hj Hdep) as Hlt.
      apply closed_done. rewrite (Hsq j d Hj). by rewrite (proj2 (Nat.ltb_lt j (S k)) Hlt). }
    cbn [fst]. rewrite Eq. change (default q (Some q')) with q'. split.
    + apply (standing_nodes (S k) q'); [done|done|]. by apply (standing_activated k q q' m).
    + cbn [refreshPlanValidation with_validation mp_nodes]. by rewrite Hn', length_map.
  - apply lookup_ge_None in Em. pose proof (lookup_lt_Some _ _ _ Hk) as Hl.
    assert (planComplete q = true) as ->.
    { unfold planComplete. apply forallb_forall. intros x Hx%list_elem_of_In.
      apply list_elem_of_lookup_1 in Hx as [i Hi]. apply closed_done. rewrite (Hsq i x Hi).
      apply lookup_lt_Some in Hi. by rewrite (proj2 (Nat.ltb_lt i (S k))) by lia. }
    split; [|done]. apply (standing_nodes (S k) q); [done|done|]. split; [done|done| |].
    + intros i x Hi. rewrite (Hsq i x Hi). apply lookup_lt_Some in Hi. by rewrite (proj2 (Nat.ltb_lt i (S k))) by lia.
    + intros x Hx. apply lookup_lt_Some in Hx. lia.
Qed.

(** ** A plan from a text *)

Lemma blank_head c s : is_space c = false -> blank (String c s) = false.
Proof.
  intros H. unfold blank, trim. cbn [trim_start]. rewrite H. cbn [trim_end].
  destruct (trim_end s); [rewrite H|]; done.
Qed.

Lemma pretty_head (n : nat) : exists c s, pretty n = String c s /\ is_space c = false.
Proof.
  change (pretty n) with (pretty (N.of_nat n)). pose proof (Interrupts.read_pretty_N (N.of_nat n)) as H.
  destruct (pretty (N.of_nat n)) as [|c s] eqn:E.
  - destruct (N.of_nat n) as [|p] eqn:En; [done|]. by destruct (Interrupts.pretty_nonempty (Z.pos p)).
  - exists c, s. split; [done|]. cbn in H. destruct (Interrupts.read_digit c) as [d|] eqn:Ed; [|done].
    by eapply digit_plain.
Qed.

Lemma numbered_blank (n : nat) rest : blank (pretty n +:+ rest) = false /\ blank (pretty n) = false.
Proof. destruct (pretty_head n) as (c & s & -> & H). split; by apply blank_head. Qed.

(** A packet made from a line is never refused for its scope or verification. *)
Lemma line_packet_clean fpm title goal id taskId ctx ev :
  blank title = false -> blank goal = false -> blank id = false ->
  packet_errors (buildPacketFromLine fpm title goal id taskId ctx ev) = [].
Proof.
  intros Ht Hg Hi. unfold packet_errors, validateTaskPacket.
  set (p := buildPacketFromLine _ _ _ _ _ _ _).
  assert (pk_scope p <> []) as Hs by (subst p; cbn [pk_scope buildPacketFromLine]; by case_match).
  assert (pk_verification p <> []) as Hv by (subst p; cbn [pk_verification buildPacketFromLine]; by case_match).
  change (pk_title p) with title. change (pk_goal p) with goal. change (pk_nodeId p) with id.
  rewrite Ht, Hg, Hi. destruct (pk_scope p) as [|item scope] eqn:Es; [done|].
  destruct (pk_verification p) as [|v vs] eqn:Ev; [done|]. cbn [issue app].
  apply filter_nil_iff. intros i Hin.
  repeat (apply elem_of_app in Hin as [Hin|Hin]);
    first [ apply list_elem_of_bind in Hin as (x & Hin & _) | idtac ];
    unfold issue in Hin; match type of Hin with _ ∈ (if ?b then _ else _) => destruct b | _ => idtac end;
    first [ by apply elem_of_nil in Hin | by apply list_elem_of_singleton in Hin as -> ].
Qed.

(** The node of the [i]th title. *)
Record fresh_node (i : nat) (title : string) (n : PlanNode) : Prop := {
  fn_id : pn_id n = pretty (S i);
  fn_title : pn_title n = title;
  fn_status : pn_status n = if (i =? 0)%nat then ns_active else ns_pending;
  fn_deps : pn_dependsOn n = [] }.

Lemma titled_node_ok fpm goal intent ctx i title :
  blank goal = false -> blank title = false ->
  exists n, titled_node fpm goal intent ctx i title = Ok n /\ fresh_node i title n.
Proof.
  intros Hg Ht. unfold titled_node, createPlanNodeFromTitle, createTaskTrackerFromPacket.
  rewrite line_packet_clean by (done || by apply (numbered_blank (S i) "")).
  eexists. split; [reflexivity|]. by split.
Qed.

Lemma titled_nodes_ok fpm goal intent ctx titles : forall i,
  blank goal = false -> Forall (fun t => blank t = false) titles ->
  exists ns, titled_nodes fpm goal intent ctx i titles = Ok ns /\ length ns = length titles /\
    forall j n, ns !! j = Some n -> exists title, titles !! j = Some title /\ fresh_node (i + j) title n.
Proof.
  induction titles as [|title titles IH]; intros i Hg Hts; cbn [titled_nodes].
  { exists []. split_and!; [done|done|]. intros j n H. done. }
  apply Forall_cons in Hts as [Ht Hts].
  destruct (titled_node_ok fpm goal intent ctx i title Hg Ht) as (n & E & Hn). rewrite E.
  destruct (IH (S i) Hg Hts) as (ns & Es & Hl & Hns). cbn. rewrite Es. cbn.
  exists (n :: ns). split_and!; [done|by rewrite <- Hl|]. intros [|j] m Hm; cbn in Hm.
  - injection Hm as <-. exists title. by rewrite Nat.add_0_r.
  - destruct (Hns j m Hm) as (t & H1 & H2). exists t. by rewrite Nat.add_succ_r, <- Nat.add_succ_l.
Qed.

(** *** The dependencies of the text *)

(** Every dependency is the id of an earlier node. *)
Definition backed (nodes : list PlanNode) : Prop :=
  forall i n dep, nodes !! i = Some n -> dep ∈ pn_dependsOn n ->
  exists j m, (j < i)%nat /\ nodes !! j = Some m /\ pn_id m = dep.

Lemma backed_ordered nodes : NoDup (ids_of nodes) -> backed nodes -> ordered nodes.
Proof.
  intros Hnd Hb i j n m Hi Hj Hd. destruct (Hb i n _ Hi Hd) as (j' & m' & Hlt & Hj' & E).
  assert (j = j') as ->; [|done]. pose proof (is_node_at nodes j j' m m' Hnd Hj Hj') as H.
  rewrite (proj2 (is_node_true _ _) (eq_sym E)) in H. by apply Nat.eqb_eq.
Qed.

(** The nodes but for their edges. *)
Definition same_nodes (ns ns' : list PlanNode) : Prop :=
  length ns' = length ns /\
  forall i n, ns !! i = Some n -> exists n', ns' !! i = Some n' /\ pn_id n' = pn_id n /\ pn_title n' = pn_title n
    /\ pn_status n' = pn_status n /\ pn_tracker n' = pn_tracker n /\ pn_packet n' = pn_packet n.

Lemma same_nodes_refl ns : same_nodes ns ns.
Proof. split; [done|]. intros i n H. by exists n. Qed.
Lemma same_nodes_trans a b c : same_nodes a b -> same_nodes b c -> same_nodes a c.
Proof.
  intros [L1 H1] [L2 H2]. split; [congruence|]. intros i n Hi.
  destruct (H1 i n Hi) as (n1 & Hi1 & E1). destruct (H2 i n1 Hi1) as (n2 & Hi2 & E2). exists n2. intuition congruence.
Qed.

(** A node of the altered list is an altered node of the list. *)
Lemma alter_inv {A} (f : A -> A) (l : list A) i j (x : A) :
  alter f i l !! j = Some x -> exists y, l !! j = Some y /\ x = if (j =? i)%nat then f y else y.
Proof.
  destruct (Nat.eqb_spec j i) as [->|Hne].
  - rewrite list_lookup_alter_eq. destruct (l !! i) as [y|]; [|done]. intros [= <-]. eauto.
  - rewrite list_lookup_alter_ne by done. eauto.
Qed.

Lemma alter_same f ns i :
  (forall n, pn_id (f n) = pn_id n /\ pn_title (f n) = pn_title n /\ pn_status (f n) = pn_status n
             /\ pn_tracker (f n) = pn_tracker n /\ pn_packet (f n) = pn_packet n) ->
  same_nodes ns (alter f i ns).
Proof.
  intros Hf. split; [apply length_alter|]. intros j n Hj. destruct (decide (j = i)) as [->|Hne].
  - exists (f n). rewrite list_lookup_alter_eq, Hj. split; [done|apply Hf].
  - exists n. rewrite list_lookup_alter_ne by done. by split_and!.
Qed.

Lemma transfer_dep_ok i d ns : (0 < d <= i)%nat -> backed ns -> same_nodes ns (transfer_dep i ns d) /\ backed (transfer_dep i ns d).
Proof.
  intros Hd Hb. unfold transfer_dep. destruct (ns !! (d - 1)%nat) as [dep|] eqn:Edep; [|by split; [apply same_nodes_refl|]].
  destruct (ns !! i) as [cur|] eqn:Ecur; [|by split; [apply same_nodes_refl|]].
  destruct (_ || _) eqn:E; [by split; [apply same_nodes_refl|]|].
  set (f := fun n => set_edges (pn_dependsOn n ++ [pn_id dep]) (pn_blockedBy n) n).
  set (g := fun n => set_edges (pn_dependsOn n) (pn_blockedBy n ++ [pn_id cur]) n).
  assert (same_nodes ns (alter g (d - 1)%nat (alter f i ns))) as Hsame.
  { eapply same_nodes_trans; [|by apply alter_same]. by apply alter_same. }
  split; [done|]. destruct Hsame as [_ Hsame]. intros j n x Hj Hx.
  apply alter_inv in Hj as (n1 & Hj & ->). apply alter_inv in Hj as (n0 & Hj & ->).
  assert (x ∈ pn_dependsOn (if (j =? i)%nat then f n0 else n0)) as Hx1 by by destruct (j =? d - 1)%nat.
  assert (x ∈ pn_dependsOn n0 \/ (j = i /\ x = pn_id dep)) as [Hx'|[-> ->]].
  { destruct (Nat.eqb_spec j i) as [->|]; [|by left]. cbn in Hx1.
    apply elem_of_app in Hx1 as [H|H%list_elem_of_singleton]; [by left|by right]. }
  - destruct (Hb j n0 x Hj Hx') as (k & m & Hlt & Hk & E'). destruct (Hsame k m Hk) as (m' & Hk' & Ei & _).
    exists k, m'. split_and!; [done|done|congruence].
  - destruct (Hsame (d - 1)%nat dep Edep) as (m' & Hk' & Ei & _). exists (d - 1)%nat, m'. split_and!; [lia|done|done].
Qed.

Lemma transfer_list_ok i ds : forall ns, Forall (fun d => (0 < d <= i)%nat) ds -> backed ns ->
  same_nodes ns (fold_left (transfer_dep i) ds ns) /\ backed (fold_left (transfer_dep i) ds ns).
Proof.
  induction ds as [|d ds IH]; intros ns Hds Hb; cbn [fold_left]; [by split; [apply same_nodes_refl|]|].
  apply Forall_cons in Hds as [Hd Hds]. destruct (transfer_dep_ok i d ns Hd Hb) as [S1 B1].
  destruct (IH _ Hds B1) as [S2 B2]. split; [by eapply same_nodes_trans|done].
Qed.

Lemma transfer_deps_ok parsed ns :
  (forall i ds, parsed !! i = Some ds -> Forall (fun d => (0 < d <= i)%nat) ds) -> backed ns ->
  same_nodes ns (transfer_deps parsed ns) /\ backed (transfer_deps parsed ns).
Proof.
  intros Hp. unfold transfer_deps.
  assert (forall i ds, (i, ds) ∈ zip (seq 0 (length parsed)) parsed -> Forall (fun d => (0 < d <= i)%nat) ds) as Hz.
  { intros i ds Hin. apply elem_of_lookup_zip_with in Hin as (j & x & y & [= -> ->] & Hj & Hy).
    apply lookup_seq in Hj as [-> _]. by apply (Hp j). }
  clear Hp. revert ns. induction (zip _ _) as [|[i ds] l IH]; intros ns Hb; cbn [fold_left]; [by split; [apply same_nodes_refl|]|].
  destruct (transfer_list_ok i ds ns) as [S1 B1]; [apply Hz; left|done|].
  destruct (IH (fun i ds H => Hz i ds (list_elem_of_further _ _ _ H)) _ B1) as [S2 B2].
  split; [by eapply same_nodes_trans|done].
Qed.

(** The items of a text depend on items before them. *)
Lemma nodes_of_lines_ok lines : forall idx,
  (forall j e, nodes_of_lines idx lines !! j = Some e ->
     blank e.1 = false /\ Forall (fun d => (0 < d <= idx + j)%nat) e.2).
Proof.
  induction lines as [|raw lines IH]; intros idx j e H; cbn [nodes_of_lines] in H; [done|].
  destruct (item_text (trim raw)) as [text|]; [|by apply IH].
  destruct (slice120 (trim text) === ""); [by apply IH|].
  destruct j as [|j]; cbn in H.
  - injection H as <-. cbn [fst snd]. split; [apply (numbered_blank (S idx))|].
    destruct (is_integration _); [|constructor]. apply Forall_forall. intros d Hd. apply elem_of_seq in Hd. lia.
  - destruct (IH (S idx) j e H) as [H1 H2]. split; [done|]. eapply Forall_impl; [exact H2|]. cbn. lia.
Qed.

Lemma planned_standing fpm now planText goal ctx :
  blank goal = false -> nodesFromPlanText planText <> [] ->
  exists p, planned fpm now planText goal ctx = Ok p /\ standing 0 p /\
    map pn_title (mp_nodes p) = map fst (nodesFromPlanText planText).
Proof.
  intros Hg Hne. unfold planned. set (parsed := nodesFromPlanText planText) in *.
  assert (match parsed with [] => [if slice120 goal === "" then "主要任务" else slice120 goal] | _ => map fst parsed end
          = map fst parsed) as -> by by destruct parsed.
  assert (forall j e, parsed !! j = Some e -> blank e.1 = false /\ Forall (fun d => (0 < d <= j)%nat) e.2) as Hp.
  { intros j e He. by apply (nodes_of_lines_ok (split_on "010"%char planText) 0 j e). }
  unfold createMasterPlan.
  destruct (titled_nodes_ok fpm goal ti_long_task ctx (map fst parsed) 0 Hg) as (ns & E & Hl & Hns).
  { apply Forall_forall. intros t Ht. apply list_elem_of_fmap in Ht as (e & -> & He).
    apply list_elem_of_lookup_1 in He as [j Hj]. by apply (Hp j). }
  rewrite E. cbn [mbind res_bind]. eexists. split; [done|]. cbn [with_nodes refreshPlanValidation with_validation mp_nodes].
  destruct (transfer_deps_ok (map snd parsed) ns) as [[Hlen Hsame] Hb].
  { intros i ds Hi. rewrite list_lookup_fmap in Hi. destruct (parsed !! i) as [e|] eqn:Ee; [|done].
    injection Hi as <-. by apply (Hp i). }
  { intros i n dep Hi Hd. destruct (Hns i n Hi) as (t & _ & Hf). rewrite (fn_deps _ _ _ Hf) in Hd. set_solver. }
  set (ns' := transfer_deps (map snd parsed) ns) in *.
  assert (forall i n, ns' !! i = Some n -> exists t, map fst parsed !! i = Some t /\
            pn_id n = pretty (S i) /\ pn_title n = t /\ pn_status n = if (i =? 0)%nat then ns_active else ns_pending) as Hat.
  { intros i n Hi. destruct (ns !! i) as [m|] eqn:Em.
    - destruct (Hsame i m Em) as (n' & Hi' & E1 & E2 & E3 & _). simplify_eq.
      destruct (Hns i m Em) as (t & Ht & [F1 F2 F3 _]). cbn [Nat.add] in F1, F3. exists t. split_and!; [done|congruence..]. 
    - apply lookup_ge_None in Em. apply lookup_lt_Some in Hi. lia. }
  assert (NoDup (ids_of ns')) as Hnd.
  { apply NoDup_alt. unfold ids_of. intros i j id Hi Hj. rewrite list_lookup_fmap in Hi, Hj.
    destruct (ns' !! i) as [n|] eqn:Ei; [|done]. destruct (ns' !! j) as [m|] eqn:Ej; [|done].
    destruct (Hat i n Ei) as (_ & _ & E1 & _). destruct (Hat j m Ej) as (_ & _ & E2 & _). cbn in *.
    assert (pretty (S i) = pretty (S j)) as H%(inj pretty) by congruence. lia. }
  split; [split|]; cbn [mp_nodes mp_current].
  - done.
  - by apply backed_ordered.
  - intros i n Hi. destruct (Hat i n Hi) as (_ & _ & _ & _ & ->). by destruct i.
  - intros n Hi. by destruct (Hat 0%nat n Hi) as (_ & _ & -> & _).
  - apply list_eq. intros i. rewrite list_lookup_fmap. destruct (ns' !! i) as [n|] eqn:Ei; cbn.
    + by destruct (Hat i n Ei) as (t & -> & _ & -> & _).
    + symmetry. apply lookup_ge_None. apply lookup_ge_None in Ei. lia.
Qed.

(** The run works on the node of the plan it has reached. *)
Record working (k len : nat) (r : PlanRun) (p : MasterPlan) : Prop := {
  wk_plan : pr_plan r = Some p;
  wk_standing : standing k p;
  wk_length : length (mp_nodes p) = len;
  wk_tracker : (k < len)%nat -> exists n, mp_nodes p !! k = Some n /\ pr_tracker r = tr_node (pn_id n) }.

Lemma working_tracker k len r p : working k len r p -> (k < len)%nat ->
  exists n, mp_nodes p !! k = Some n /\ currentNode p = Some n /\ taskTracker r = Some (pn_tracker n).
Proof.
  intros [Hp Hs Hl Ht] Hk. destruct (Ht Hk) as (n & Hn & Er). exists n.
  pose proof (node_of_elem _ _ (sg_ids _ _ Hs) (list_elem_of_lookup_2 _ _ _ Hn)) as E. split_and!; [done| |].
  - unfold currentNode. by rewrite (sg_current _ _ Hs n Hn).
  - unfold taskTracker. rewrite Er, Hp. cbn. by rewrite E.
Qed.

Lemma standing_complete k p : standing k p -> (k <= length (mp_nodes p))%nat ->
  planComplete p = true <-> k = length (mp_nodes p).
Proof.
  intros Hs Hle. unfold planComplete. split.
  - intros H. destruct (decide (k = length (mp_nodes p))) as [|Hne]; [done|].
    destruct (lookup_lt_is_Some_2 (mp_nodes p) k) as [n Hn]; [lia|].
    pose proof (forallb_elem _ _ _ H (list_elem_of_lookup_2 _ _ _ Hn)) as Hc. unfold closed, in_status in Hc.
    by rewrite (sg_status _ _ Hs k n Hn), Nat.ltb_irrefl, Nat.eqb_refl in Hc.
  - intros ->. apply forallb_forall. intros n Hn%list_elem_of_In. apply list_elem_of_lookup_1 in Hn as [i Hi].
    apply closed_done. rewrite (sg_status _ _ Hs i n Hi). apply lookup_lt_Some in Hi.
    by rewrite (proj2 (Nat.ltb_lt i _) Hi).
Qed.

(** A transition of a run at work. *)
Lemma transition_working now ro te k len r p :
  working k len r p -> (k < len)%nat ->
  working (S k) len (tryNodeTransition now ro te r).1 (moved now p) /\
  ((tryNodeTransition now ro te r).2 = true <-> (S k < len)%nat).
Proof.
  intros Hw Hk. destruct (working_tracker k len r p Hw Hk) as (n & Hn & _ & Et).
  pose proof Hw as [Hp Hs Hl _]. destruct (standing_moved now k p n Hs Hn) as [Hs' Hl'].
  pose proof (transition_plan now ro te r p Hp) as Hp'. rewrite Et in Hp'. specialize (Hp' ltac:(done)).
  assert (planComplete (moved now p) = true <-> S k = len) as Hc.
  { rewrite (standing_complete (S k)); [by rewrite Hl', Hl|done|lia]. }
  revert Hp'. unfold tryNodeTransition. rewrite Hp, Et. fold (finish_current now p).
  pose proof (review_none_left now (finish_current now p)) as Hz.
  assert (forall m, m ∈ mp_nodes (finish_current now p) -> pn_status m <> ns_active) as Hno.
  { intros m [i Hi]%list_elem_of_lookup_1. destruct (finish_standing now k p n Hs Hn) as (_ & _ & Hst).
    destruct (Hst i m Hi) as [_ ->]. by destruct (i <? S k)%nat. }
  specialize (Hz Hno). unfold moved in *.
  destruct (buildNodeReviewGate now (finish_current now p)) as [q rv] eqn:Eg. cbn [fst snd] in *.
  destruct (planComplete (refreshPlanValidation q)) eqn:Eq.
  { cbn [fst snd]. intros Hp'. assert (S k = len) as Ek by by apply Hc. split; [|split; [done|lia]].
    split; [done|done|congruence|lia]. }
  assert ((rv_remaining rv =? 0)%nat = false) as ->.
  { apply Nat.eqb_neq. intros E. apply Hz in E. change (planComplete (refreshPlanValidation q) = true) in E. by rewrite Eq in E. }
  assert (S k < len)%nat as Hlt.
  { destruct (decide (S k = len)) as [E|]; [discriminate (proj2 Hc E)|lia]. }
  destruct (lookup_lt_is_Some_2 (mp_nodes (refreshPlanValidation q)) (S k)) as [m Hm]; [rewrite Hl', Hl; lia|].
  assert (currentNode (refreshPlanValidation q) = Some m) as Ec.
  { unfold currentNode. rewrite (sg_current _ _ Hs' m Hm).
    apply node_of_elem; [apply Hs'|by eapply list_elem_of_lookup_2]. }
  rewrite Ec. cbn [fst snd]. intros Hp'. split; [|done]. split; [done|done|congruence|]. intros _. exists m. split; [done|].
  assert (rv_resume rv = true) as Hr.
  { apply not_false_is_true. intros Hr. pose proof (review_stuck now (finish_current now p)) as Hst.
    rewrite Eg in Hst. cbn [fst snd] in Hst. specialize (Hst Hr). subst q.
    apply (Hno m); [by eapply list_elem_of_lookup_2|].
    rewrite (sg_status _ _ Hs' _ m Hm). by rewrite Nat.ltb_irrefl, Nat.eqb_refl. }
  rewrite Hr. apply sync_work_on.
Qed.

Definition is_transition (a : Moment * PlanAct) : bool := match a.2 with act_transition => true | _ => false end.
Definition no_tool (a : Moment * PlanAct) : Prop := match a.2 with act_tool _ => False | _ => True end.

Lemma track_update_working u k len r p :
  working k len r p -> exists p', working k len (track_update u r) p' /\
    map pn_title (mp_nodes p') = map pn_title (mp_nodes p).
Proof.
  intros [Hp Hs Hl Ht]. unfold track_update. rewrite Hp. destruct (pr_tracker r) as [|id|t] eqn:Er.
  - exists p. split; [|done]. by split; rewrite ?Er.
  - set (g := fun n => set_tracker (updateTaskTrackerAfterTools u (pn_tracker n)) n).
    set (q := with_nodes (on_node id g (mp_nodes p)) p). pose proof Hs as [Hnd Hord Hst Hcur].
    assert (mp_nodes q = map (fun n => if is_node id n then g n else n) (mp_nodes p)) as Hn by by apply on_node_map.
    exists q. split; [|rewrite Hn, map_map; apply map_ext; intros n; by destruct (is_node id n)].
    split; [done| |by rewrite Hn, length_map|].
    + split.
      * unfold q. cbn. by rewrite on_node_ids.
      * rewrite Hn. apply ordered_map; [|done]. intros n. by destruct (is_node id n).
      * intros i n Hi. rewrite Hn, list_lookup_fmap in Hi. destruct (mp_nodes p !! i) as [m|] eqn:Em; [|done].
        injection Hi as <-. rewrite <- (Hst i m Em). by destruct (is_node id m).
      * intros n Hi. rewrite Hn, list_lookup_fmap in Hi. destruct (mp_nodes p !! k) as [m|] eqn:Em; [|done].
        injection Hi as <-. change (mp_current q) with (mp_current p). rewrite (Hcur m eq_refl). by destruct (is_node id m).
    + intros Hk. destruct (Ht Hk) as (n & Hi & E). rewrite Hn, list_lookup_fmap, Hi.
      eexists. split; [done|]. cbn. rewrite Er, E. by destruct (is_node id n).
  - exists p. split; [|done]. split; [done|done|done|]. intros Hk. by destruct (Ht Hk) as (n & _ & E).
Qed.

Lemma acts_working fpm l : forall k len r p,
  working k len r p -> Forall no_tool l -> (k + count_where is_transition l <= len)%nat ->
  exists p', working (k + count_where is_transition l) len (acts fpm l r) p'.
Proof.
  induction l as [|[m a] l IH]; intros k len r p Hw Hl Hc; cbn [acts fold_left].
  { exists p. by rewrite Nat.add_0_r. }
  apply Forall_cons in Hl as [Ha Hl]. rewrite count_where_cons in Hc |- *.
  destruct a as [op| |u]; [done| |]; cbn [is_transition fst snd act Nat.add] in *.
  - destruct (transition_working (mo_now m) (mo_rippleObligations m) (mo_toolErrors m) k len r p Hw) as [Hw' _]; [lia|].
    destruct (IH _ _ _ _ Hw' Hl) as (p' & H); [lia|]. exists p'. by rewrite Nat.add_succ_r, <- Nat.add_succ_l.
  - destruct (track_update_working u k len r p Hw) as (p1 & H1 & _). by apply (IH k len _ p1).
Qed.

(** C33: A plan made from a planning text is carried out: activation succeeds and
    starts the first node; then, however tracker updates and transitions follow
    one another, after [k] transitions exactly the first [k] nodes are done, the
    next one is the only active one and its tracker is the one the run works on;
    the plan is complete iff there were as many transitions as items in the
    text; and a transition says there is a next node iff there is one.  The
    dependencies found in the text point at earlier items, so no node ever
    waits. *)
Theorem plan_runs_to_completion fpm now ro te planText goal ctx r :
  blank goal = false -> nodesFromPlanText planText <> [] ->
  exists r0, activateMasterPlan fpm now ro te planText goal None ctx r = Ok (r0, true) /\
    let len := length (nodesFromPlanText planText) in
    forall l, Forall no_tool l -> (count_where is_transition l <= len)%nat ->
    exists p, pr_plan (acts fpm l r0) = Some p /\ length (mp_nodes p) = len /\
      let k := count_where is_transition l in
      standing k p /\ (planComplete p = true <-> k = len) /\
      ((k < len)%nat ->
        (exists n, mp_nodes p !! k = Some n /\ currentNode p = Some n /\
                   taskTracker (acts fpm l r0) = Some (pn_tracker n)) /\
        forall m, (tryNodeTransition (mo_now m) (mo_rippleObligations m) (mo_toolErrors m) (acts fpm l r0)).2 = true
                  <-> (S k < len)%nat).
Proof.
  intros Hg Hne. destruct (planned_standing fpm now planText goal ctx Hg Hne) as (p & E & Hs & Ht).
  assert (length (mp_nodes p) = length (nodesFromPlanText planText)) as Hlen.
  { rewrite <- (length_map fst (nodesFromPlanText planText)), <- Ht. by rewrite length_map. }
  unfold activateMasterPlan. rewrite E. cbn [mbind res_bind].
  destruct (lookup_lt_is_Some_2 (mp_nodes p) 0) as [n Hn].
  { rewrite Hlen. by destruct (nodesFromPlanText planText); [|cbn; lia]. }
  set (q := refreshPlanValidation p).
  assert (currentNode q = Some n) as ->.
  { unfold currentNode. cbn. rewrite (sg_current _ _ Hs n Hn). apply node_of_elem; [apply Hs|by eapply list_elem_of_lookup_2]. }
  eexists. split; [done|]. cbv zeta. intros l Hl Hc.
  destruct (acts_working fpm l 0 (length (nodesFromPlanText planText))
              (syncModeWithMasterPlan ro te (work_on n (setCurrentPlan q r))) q) as (p' & Hw); [|done|done|].
  { split; [by rewrite sync_plan, work_on_plan|by apply (standing_nodes 0 p)|done|].
    intros _. exists n. split; [done|apply sync_work_on]. }
  cbn [Nat.add] in Hw. exists p'. pose proof Hw as [Hp' Hs' Hl' _]. split_and!; [done|done|done| |].
  - rewrite <- Hl'. apply standing_complete; [done|]. by rewrite Hl'.
  - intros Hk. split; [by eapply working_tracker|]. intros m. by apply (transition_working _ _ _ _ _ _ _ Hw Hk).
Qed.

(** *** The plan of a text, and what becomes of it *)

Definition demo_text : string := "1. store the posts" +:+ String "010" ("2. serve the posts" +:+ String "010" "3. 集成 both").
Definition demo_start : PlanRun := mkPlanRun None 0 tr_none None planner.
Definition demo_run : PlanRun :=
  match activateMasterPlan (fun _ => []) 0 0 0 demo_text "a blog" None None demo_start with
  | Ok (r, _) => r | Throw _ => demo_start end.
Definition demo_moment : Moment := mkMoment 1 0 0.
Definition transitions (n : nat) : list (Moment * PlanAct) := repeat (demo_moment, act_transition) n.

(** What a reader of a plan sees: ids, states, dependencies, the current node. *)
Definition plan_state (r : PlanRun) : option (list (string * NodeStatus * list string) * string) :=
  p ← pr_plan r; Some (map (fun n => (pn_id n, pn_status n, pn_dependsOn n)) (mp_nodes p), mp_current p).

Lemma plan_runs_to_completion_witness :
  blank "a blog" = false /\ nodesFromPlanText demo_text <> [] /\
  exists r0, activateMasterPlan (fun _ => []) 0 0 0 demo_text "a blog" None None demo_start = Ok (r0, true) /\
    exists p, pr_plan (acts (fun _ => []) (transitions 3) r0) = Some p /\ planComplete p = true.
Proof.
  assert (blank "a blog" = false) as H1 by (vm_compute; reflexivity).
  assert (nodesFromPlanText demo_text <> []) as H2 by (vm_compute; discriminate).
  split; [exact H1|split; [exact H2|]].
  destruct (plan_runs_to_completion (fun _ => []) 0 0 0 demo_text "a blog" None demo_start H1 H2) as (r0 & E & H).
  exists r0. split; [exact E|].
  destruct (H (transitions 3)) as (p & Hp & _ & _ & Hc & _).
  - repeat constructor.
  - vm_compute. repeat constructor.
  - exists p. split; [exact Hp|]. apply Hc. vm_compute. reflexivity.
Defined.

Definition demo_acts : list (Moment * PlanAct) :=
  [(demo_moment, act_tool (op_add "document the API" "2")); (demo_moment, act_transition);
   (demo_moment, act_tool (op_skip "2" "not needed")); (demo_moment, act_tool (op_remove "3" "")); (demo_moment, act_transition)].
Definition demo_plan : MasterPlan :=
  match pr_plan demo_run with Some p => p | None => mkPlan "" ti_long_task [] "" 0 0 [] end.

Lemma plan_steps_safe_witness :
  pr_plan demo_run = Some demo_plan /\ sound demo_plan /\
  exists p', pr_plan (acts (fun _ => []) demo_acts demo_run) = Some p' /\ sound p'.
Proof.
  assert (pr_plan demo_run = Some demo_plan) as H1 by (vm_compute; reflexivity).
  assert (sound demo_plan) as H2.
  { split.
    - apply (bool_decide_unpack _). vm_compute. exact I.
    - intros n Hn Ha. vm_compute in Hn. repeat (apply elem_of_cons in Hn as [->|Hn]; [vm_compute in Ha; first [discriminate Ha|reflexivity]|]).
      inversion Hn. }
  split; [exact H1|split; [exact H2|]].
  destruct (plan_steps_safe (fun _ => []) demo_acts demo_run demo_plan H1 H2) as (p' & Hp & Hs & _).
  exists p'. split; [exact Hp|exact Hs].
Defined.

(** ** A plan kept and restored *)

Definition numbered (n : nat) : list string := map (fun i => pretty (S i)) (seq 0 n).

Lemma restored_plan fpm now p :
  blank (mp_goal p) = false -> mp_nodes p <> [] -> Forall (fun n => blank (pn_title n) = false) (mp_nodes p) ->
  exists p', deserializePlanState fpm now (serializePlanState (Some p)) = Ok (Some p') /\
    mp_goal p' = mp_goal p /\ mp_intent p' = mp_intent p /\
    mp_current p' = (if mp_current p === "" then "1" else mp_current p) /\
    length (mp_nodes p') = length (mp_nodes p) /\
    forall i n, mp_nodes p !! i = Some n -> exists n', mp_nodes p' !! i = Some n' /\
      pn_id n' = pretty (S i) /\ pn_title n' = pn_title n /\ pn_status n' = pn_status n /\
      pn_dependsOn n' = pn_dependsOn n /\ pn_blockedBy n' = pn_blockedBy n /\
      pn_evidence n' = pn_evidence n /\ pn_reactCount n' = pn_reactCount n.
Proof.
  intros Hg Hne Ht. unfold deserializePlanState, serializePlanState. cbn [sp_goal sp_nodes sp_intent sp_current].
  assert ((mp_goal p === "") = false) as -> by (apply same_neq; by intros E; rewrite E in Hg).
  assert (empty (map (fun n => mkSerializedNode (pn_id n) (pn_title n) (pn_status n) (pn_dependsOn n) (pn_blockedBy n)
                                 (pn_evidence n) (pn_reactCount n)) (mp_nodes p)) = false) as ->
    by by destruct (mp_nodes p).
  cbn [orb]. rewrite map_map. unfold createMasterPlan.
  change (map (fun x => sn_title _) (mp_nodes p)) with (map pn_title (mp_nodes p)).
  destruct (titled_nodes_ok fpm (mp_goal p) (mp_intent p) None (map pn_title (mp_nodes p)) 0 Hg) as (ns & E & Hl & Hns).
  { by apply Forall_map. }
  rewrite E. cbn [mbind res_bind refreshPlanValidation with_validation mp_nodes mp_goal mp_intent].
  rewrite length_map in Hl. eexists. split; [done|]. cbn [mp_goal mp_intent mp_current mp_nodes with_current with_nodes].
  split_and!; [done|done| | |].
  - destruct (mp_current p === ""); [|done]. destruct (ns !! 0%nat) as [n|] eqn:E0.
    + destruct (Hns 0%nat n E0) as (t & _ & [F _ _ _]). destruct ns; [done|]. cbn in *. injection E0 as ->. by rewrite F.
    + apply lookup_ge_None in E0. rewrite Hl in E0. by destruct (mp_nodes p); [|cbn in E0; lia].
  - rewrite length_zip_with, length_map, Hl. lia.
  - intros i n Hi. destruct (lookup_lt_is_Some_2 ns i) as [m Hm]; [rewrite Hl; by eapply lookup_lt_Some|].
    destruct (Hns i m Hm) as (t & Et & [F1 F2 _ _]). rewrite list_lookup_fmap, Hi in Et. injection Et as <-.
    rewrite lookup_zip_with, list_lookup_fmap, Hi. cbn. rewrite Hm. cbn. eexists. split; [done|]. cbn. by split_and!.
Qed.

(** Restoring a plan whose ids are numbered keeps its nodes and what it was at. *)
Lemma restored_safely fpm now p p' :
  blank (mp_goal p) = false -> mp_nodes p <> [] -> Forall (fun n => blank (pn_title n) = false) (mp_nodes p) ->
  deserializePlanState fpm now (serializePlanState (Some p)) = Ok (Some p') ->
  ids_of (mp_nodes p) = numbered (length (mp_nodes p)) -> mp_current p <> "" ->
  mp_current p' = mp_current p /\ (sound p -> safely p p').
Proof.
  intros Hg Hne Ht E Hids Hcur. destruct (restored_plan fpm now p Hg Hne Ht) as (q & E' & _ & _ & Ec & El & Hn).
  rewrite E' in E. injection E as ->. rewrite (proj2 (same_neq _ _) Hcur) in Ec.
  assert (forall i n, mp_nodes p !! i = Some n -> pn_id n = pretty (S i)) as Hnum.
  { intros i n Hi. assert (ids_of (mp_nodes p) !! i = Some (pn_id n)) as H
      by (unfold ids_of; by rewrite list_lookup_fmap, Hi).
    rewrite Hids in H. unfold numbered in H. rewrite list_lookup_fmap in H.
    rewrite lookup_seq_lt in H by (by eapply lookup_lt_Some). cbn in H. congruence. }
  split; [done|]. intros [Hnd Hact]. split; [split|].
  - replace (ids_of (mp_nodes p')) with (ids_of (mp_nodes p)); [done|].
    apply list_eq. intros i. unfold ids_of. rewrite !list_lookup_fmap. destruct (mp_nodes p !! i) as [n|] eqn:Hi.
    + destruct (Hn i n Hi) as (n' & -> & E0 & _). cbn. rewrite E0. f_equal. by apply Hnum.
    + apply lookup_ge_None in Hi. by rewrite (proj2 (lookup_ge_None (mp_nodes p') i)) by lia.
  - intros n' [i Hi']%list_elem_of_lookup_1 Ha. destruct (lookup_lt_is_Some_2 (mp_nodes p) i) as [n Hi].
    { rewrite <- El. by eapply lookup_lt_Some. }
    destruct (Hn i n Hi) as (m & Hm & E0 & _ & E2 & _). rewrite Hm in Hi'. injection Hi' as ->.
    rewrite E0, <- (Hnum i n Hi), Ec. apply Hact; [by eapply list_elem_of_lookup_2|congruence].
  - intros n [i Hi]%list_elem_of_lookup_1 Hd. destruct (Hn i n Hi) as (m & Hm & E0 & E1 & E2 & _).
    exists m. rewrite E0, (Hnum i n Hi). split_and!; [by eapply list_elem_of_lookup_2|done|done|congruence].
Qed.

(** C37: A plan survives being saved and restored: whenever it has a node and its
    goal and titles are not blank, the plan read back has the same goal and intent
    and, node by node, the same title, status, dependencies, evidence and nudge
    count. Saving it again gives the same state iff the ids were 1, 2, 3, ... in
    order and some node was current, because restoring numbers the nodes afresh
    while dependencies and the current id keep naming the old ids; and in that
    case the same node is current, what was done is done under its own id, and a
    sound plan (distinct ids, nothing active but the current node) is sound again,
    so that what its further steps keep is kept. In the other case a finished node
    can become the current one. *)
Theorem restore_keeps_work fpm now p :
  blank (mp_goal p) = false -> mp_nodes p <> [] -> Forall (fun n => blank (pn_title n) = false) (mp_nodes p) ->
  exists p', deserializePlanState fpm now (serializePlanState (Some p)) = Ok (Some p') /\
    mp_goal p' = mp_goal p /\ mp_intent p' = mp_intent p /\
    map (fun n => (pn_title n, pn_status n, pn_dependsOn n, pn_evidence n, pn_reactCount n)) (mp_nodes p')
    = map (fun n => (pn_title n, pn_status n, pn_dependsOn n, pn_evidence n, pn_reactCount n)) (mp_nodes p) /\
    (serializePlanState (Some p') = serializePlanState (Some p) <->
       ids_of (mp_nodes p) = numbered (length (mp_nodes p)) /\ mp_current p <> "") /\
    (ids_of (mp_nodes p) = numbered (length (mp_nodes p)) /\ mp_current p <> "" ->
       mp_current p' = mp_current p /\ (sound p -> safely p p')).
Proof.
  intros Hg Hne Ht. destruct (restored_plan fpm now p Hg Hne Ht) as (p' & E & Eg & Ei & Ec & El & Hn).
  exists p'. split_and!; [done|done|done| | |intros [Hids Hcur]; by apply (restored_safely fpm now)].
  { apply list_eq. intros i. rewrite !list_lookup_fmap. destruct (mp_nodes p !! i) as [n|] eqn:Hi.
    - destruct (Hn i n Hi) as (n' & -> & _ & E1 & E2 & E3 & _ & E4 & E5). cbn. by rewrite E1, E2, E3, E4, E5.
    - apply lookup_ge_None in Hi. rewrite (proj2 (lookup_ge_None (mp_nodes p') i)); [done|lia]. }
  assert (forall i n, mp_nodes p !! i = Some n ->
            numbered (length (mp_nodes p)) !! i = Some (pretty (S i))) as Hnum.
  { intros i n Hi. unfold numbered. rewrite list_lookup_fmap. rewrite lookup_seq_lt by by eapply lookup_lt_Some. done. }
  unfold serializePlanState. rewrite Eg, Ei, Ec. split.
  - intros H. injection H as Hcur Hnodes. split.
    + apply list_eq. intros i. unfold ids_of. rewrite list_lookup_fmap. destruct (mp_nodes p !! i) as [n|] eqn:Hi; cbn.
      * rewrite (Hnum i n Hi). destruct (Hn i n Hi) as (n' & Hi' & Eid & _).
        assert (map (fun n => mkSerializedNode (pn_id n) (pn_title n) (pn_status n) (pn_dependsOn n) (pn_blockedBy n)
                   (pn_evidence n) (pn_reactCount n)) (mp_nodes p') !! i
                = map (fun n => mkSerializedNode (pn_id n) (pn_title n) (pn_status n) (pn_dependsOn n) (pn_blockedBy n)
                   (pn_evidence n) (pn_reactCount n)) (mp_nodes p) !! i) as H by by rewrite Hnodes.
        rewrite !list_lookup_fmap, Hi, Hi' in H. injection H as H _. by rewrite <- H, Eid.
      * symmetry. apply lookup_ge_None. unfold numbered. rewrite length_map, length_seq. by apply lookup_ge_None.
    + intros Hcc. by rewrite Hcc in Hcur.
  - intros [Hids Hcc]. rewrite (proj2 (same_neq _ _) Hcc). f_equal.
    apply list_eq. intros i. rewrite !list_lookup_fmap. destruct (mp_nodes p !! i) as [n|] eqn:Hi.
    + destruct (Hn i n Hi) as (n' & -> & E0 & E1 & E2 & E3 & E4 & E5 & E6). cbn. rewrite E0, E1, E2, E3, E4, E5, E6.
      pose proof (Hnum i n Hi) as H. rewrite <- Hids in H. unfold ids_of in H. rewrite list_lookup_fmap, Hi in H.
      injection H as H. by rewrite H.
    + apply lookup_ge_None in Hi. rewrite (proj2 (lookup_ge_None (mp_nodes p') i)); [done|lia].
Qed.

Lemma restore_keeps_work_witness :
  blank (mp_goal demo_plan) = false /\ mp_nodes demo_plan <> [] /\
  Forall (fun n => blank (pn_title n) = false) (mp_nodes demo_plan) /\
  exists p', deserializePlanState (fun _ => []) 1 (serializePlanState (Some demo_plan)) = Ok (Some p') /\
    serializePlanState (Some p') = serializePlanState (Some demo_plan) /\ mp_current p' = mp_current demo_plan.
Proof.
  assert (blank (mp_goal demo_plan) = false) as H1 by (vm_compute; reflexivity).
  assert (mp_nodes demo_plan <> []) as H2 by (vm_compute; discriminate).
  assert (Forall (fun n => blank (pn_title n) = false) (mp_nodes demo_plan)) as H3.
  { apply (bool_decide_unpack _). vm_compute. exact I. }
  split; [exact H1|split; [exact H2|split; [exact H3|]]].
  destruct (restore_keeps_work (fun _ => []) 1 demo_plan H1 H2 H3) as (p' & E & _ & _ & _ & H & Hs).
  assert (ids_of (mp_nodes demo_plan) = numbered (length (mp_nodes demo_plan)) /\ mp_current demo_plan <> "") as Hn.
  { split; [vm_compute; reflexivity|vm_compute; discriminate]. }
  exists p'. split; [exact E|]. split; [by apply H|]. apply (Hs Hn).
Defined.

(** ** Behaviour worth knowing *)

(** A node that depends on a later one stops the plan: the review picks the
    first pending node, cannot activate it, and still reports that it moved on;
    the pending node after it, which could start, is never tried. *)
Lemma forward_dependency_stalls :
  let r := acts (fun _ => [])
             [(demo_moment, act_tool (op_skip "3" "")); (demo_moment, act_tool (op_add "deploy" "5"));
              (demo_moment, act_tool (op_add "configure" ""))] demo_run in
  let stuck := acts (fun _ => []) (transitions 2) r in
  plan_state stuck
  = Some ([("1", ns_done, []); ("2", ns_done, []); ("3", ns_skipped, ["1"; "2"]); ("4", ns_pending, ["5"]);
           ("5", ns_pending, [])], "2") /\
  (tryNodeTransition 1 0 0 stuck).2 = true /\ plan_state (tryNodeTransition 1 0 0 stuck).1 = plan_state stuck.
Proof. vm_compute. done. Qed.

(** The id of the last node is given again once it is removed, and a node that
    names the id it is about to get depends on itself. *)
Lemma removed_id_reused :
  plan_state (acts (fun _ => [])
    [(demo_moment, act_tool (op_remove "3" "")); (demo_moment, act_tool (op_add "deploy" "3"))] demo_run)
  = Some ([("1", ns_active, []); ("2", ns_pending, []); ("3", ns_pending, ["3"])], "1").
Proof. vm_compute. done. Qed.

(** Giving up the current node leaves the plan without one when the first
    pending node cannot start: the current id names no active node. *)
Lemma skip_leaves_current :
  plan_state (acts (fun _ => [])
    [(demo_moment, act_tool (op_remove "2" "")); (demo_moment, act_tool (op_add "deploy" "5"));
     (demo_moment, act_tool (op_remove "3" "")); (demo_moment, act_tool (op_add "configure" ""));
     (demo_moment, act_tool (op_remove "1" ""))] demo_run)
  = Some ([("4", ns_pending, ["5"]); ("5", ns_pending, [])], "1").
Proof. vm_compute. done. Qed.

(** Errors of the validator stop nothing: a plan whose only next node depends
    on an unknown node is rejected, and carried out. *)
Lemma rejected_plan_runs :
  let r := acts (fun _ => [])
             [(demo_moment, act_tool (op_remove "2" "")); (demo_moment, act_tool (op_remove "3" ""));
              (demo_moment, act_tool (op_add "deploy" "staging"))] demo_run in
  from_option (fun p => isClean (mp_validation p)) true (pr_plan r) = false /\
  plan_state (acts (fun _ => []) (transitions 2) r)
  = Some ([("1", ns_done, []); ("2", ns_done, ["staging"])], "2") /\
  from_option planComplete false (pr_plan (acts (fun _ => []) (transitions 2) r)) = true.
Proof. vm_compute. done. Qed.

(** Restoring renumbers the nodes, the edges keep the old ids. *)
Lemma restored_ids_shift :
  let r := acts (fun _ => []) [(demo_moment, act_tool (op_remove "1" "")); (demo_moment, act_tool (op_add "deploy" "3"))] demo_run in
  plan_state r = Some ([("2", ns_active, []); ("3", ns_pending, ["1"; "2"]); ("4", ns_pending, ["3"])], "2") /\
  match deserializePlanState (fun _ => []) 1 (serializePlanState (pr_plan r)) with
  | Ok (Some p) =>
      map (fun n => (pn_id n, pn_status n, pn_dependsOn n)) (mp_nodes p)
      = [("1", ns_active, []); ("2", ns_pending, ["1"; "2"]); ("3", ns_pending, ["3"])] /\
      mp_current p = "2" /\ cyclic (mp_nodes p)
  | _ => False
  end.
Proof.
  split; [vm_compute; done|]. vm_compute. split_and!; [done|done|].
  exists "2". apply tc_once. unfold edge. split; vm_compute; [right; left|right; left].
Qed.

(** With a gap in the ids the restored current node can be a finished one, while
    the node that was active is no longer the current one. *)
Lemma restored_done_current :
  let r := acts (fun _ => []) [(demo_moment, act_tool (op_remove "1" "")); (demo_moment, act_tool (op_done "3" "built"))] demo_run in
  plan_state r = Some ([("2", ns_active, []); ("3", ns_done, ["1"; "2"])], "2") /\
  match deserializePlanState (fun _ => []) 1 (serializePlanState (pr_plan r)) with
  | Ok (Some p) =>
      map (fun n => (pn_id n, pn_status n)) (mp_nodes p) = [("1", ns_active); ("2", ns_done)] /\
      option_map (fun n => (pn_id n, pn_status n)) (currentNode p) = Some ("2", ns_done)
  | _ => False
  end.
Proof. vm_compute. done. Qed.

(** A restored node has a tracker made from words, whose steps the rounds of a
    run with a plan never tick off. *)
Lemma restored_tracker_stuck :
  match deserializePlanState (fun _ => []) 1 (serializePlanState (pr_plan demo_run)) with
  | Ok (Some p) =>
      from_option (fun n =>
        let t := run_updates [mkUpdate ["server/posts.json"] true true [] true] (pn_tracker n) in
        (map st_id (tk_steps (pn_tracker n)), map st_status (tk_steps t), taskTrackerComplete (Some t)))
        ([], [], true) (currentNode p)
      = (["plan"; "content"], [ts_running; ts_pending], false)
  | _ => False
  end.
Proof. vm_compute. done. Qed.

(** The edges of an activated plan point both ways: the item depended on gets
    its dependant as [blockedBy].  The plan compiler, which waits for both
    kinds, finds a cycle. *)
Definition plan_like (p : MasterPlan) : GraphCompiler.PlanLike :=
  GraphCompiler.mkPlan (mp_goal p) (Some "long_task")
    (map (fun n => GraphCompiler.mkPlanNode (pn_id n) (pn_title n) (pn_dependsOn n) (Some (pn_blockedBy n))
           (option_map (fun k => GraphCompiler.mkPacket (Some (pk_goal k)) (Some (pk_scope k))) (pn_packet n))) (mp_nodes p)).
Lemma activated_plan_not_compilable :
  map (fun n => (pn_id n, pn_dependsOn n, pn_blockedBy n)) (mp_nodes demo_plan)
  = [("1", [], ["3"]); ("2", [], ["3"]); ("3", ["1"; "2"], [])] /\
  match GraphCompiler.compileMasterPlan (fun t => t) (plan_like demo_plan) with
  | Throw (GraphCompiler.order_failed (EdgeStore.OrderCycle path)) => is_Some path
  | _ => False
  end.
Proof. vm_compute. eauto. Qed.
