(* ===== verification/FileTools.v ===== *)
(** The file tools of the agent.

    Models the writing half of [src/src/tools/file.ts] ([write_file],
    [edit_file], [multi_edit], [edit_symbol], [rollback_transaction]) and the
    path authority of [src/src/tools/path-authority.ts], over the patch
    transactions of [PatchTx.v] and the approvals of [FileState.v].

    The ripple engine, the workspace I/O authority, the bounded reader that a
    tool uses when it has no approved content, and the TypeScript compiler that
    locates a symbol are parameters: their answers may be anything.  The texts
    and metadata of a result are represented by what they report; invalidating
    the ripple engine's cache after a write is left out. *)
From Stdlib Require Import Ascii.
From S2P Require Import Prelude Paths PathPattern Effects Transaction FileState PatchTx.
Open Scope string_scope.
Open Scope list_scope.

(** ** Strings of the language *)

Definition str_tail (n : nat) (s : string) : string := String.substring n (String.length s - n) s.

(** The leftmost, non-overlapping occurrences of a nonempty string, of which
    [skip] units are still to be passed over. *)
Fixpoint occurrences (old : string) (skip : nat) (s : string) : nat :=
  match s with
  | EmptyString => 0
  | String c s' =>
      match skip with
      | S skip => occurrences old skip s'
      | O => if startsWith s old then S (occurrences old (String.length old - 1) s') else occurrences old 0 s'
      end
  end.

(** [content.split(old).length - 1]; the empty separator cuts between units. *)
Definition split_count (old content : string) : Z :=
  if old === "" then (Z.of_nat (String.length content) - 1)%Z else Z.of_nat (occurrences old 0 content).

(** The text before and after the first occurrence. *)
Fixpoint cut_at (old s : string) : option (string * string) :=
  if startsWith s old then Some ("", str_tail (String.length old) s)
  else match s with
       | EmptyString => None
       | String c s => match cut_at old s with Some (pre, suf) => Some (String c pre, suf) | None => None end
       end.

(** [GetSubstitution] without captures: [$$], [$&], [$`] and [$'] in the
    replacement stand for a dollar, the match and what is around it. *)
Fixpoint get_substitution (replacement matched pre suf : string) : string :=
  match replacement with
  | EmptyString => ""
  | String c rest =>
      if c === "$"%char then
        match rest with
        | String d rest' =>
            if d === "$"%char then String "$"%char (get_substitution rest' matched pre suf)
            else if d === "&"%char then matched +:+ get_substitution rest' matched pre suf
            else if d === "`"%char then pre +:+ get_substitution rest' matched pre suf
            else if d === "'"%char then suf +:+ get_substitution rest' matched pre suf
            else String c (get_substitution rest matched pre suf)
        | EmptyString => "$"
        end
      else String c (get_substitution rest matched pre suf)
  end.

(** [content.replace(old, replacement)] with a string pattern. *)
Definition str_replace (content old replacement : string) : string :=
  match cut_at old content with
  | Some (pre, suf) => pre +:+ get_substitution replacement old pre suf +:+ suf
  | None => content
  end.

Lemma substring_full s : String.substring 0 (String.length s) s = s.
Proof. induction s as [|c s IH]; [done|]. cbn. by rewrite IH. Qed.
Lemma str_tail_app p s : str_tail (String.length p) (p +:+ s) = s.
Proof.
  unfold str_tail. rewrite str_length_app.
  replace (String.length p + String.length s - String.length p) with (String.length s) by lia.
  induction p as [|c p IH]; [apply substring_full|exact IH].
Qed.

(** No occurrence of [old] starts within the first part of the text. *)
Definition first_at (old pre rest : string) : Prop :=
  forall p q, p +:+ q = pre -> q <> "" -> startsWith (q +:+ rest) old = false.

Lemma cut_at_spec old s pre suf :
  cut_at old s = Some (pre, suf) -> s = pre +:+ old +:+ suf /\ first_at old pre (old +:+ suf).
Proof.
  revert pre suf. induction s as [|c s IH]; intros pre suf H; cbn [cut_at] in H.
  - destruct (startsWith "" old) eqn:E; [|done]. destruct old as [|d old]; [|done]. injection H as <- <-.
    split; [done|]. intros [|d p] q Hpq Hq; [by destruct Hq|done].
  - destruct (startsWith (String c s) old) eqn:E.
    + apply startsWith_iff in E as [t Ht]. injection H as <- <-. rewrite Ht, str_tail_app. split; [done|].
      intros [|d p] q Hpq Hq; [by destruct Hq|done].
    + destruct (cut_at old s) as [[pre1 suf1]|] eqn:Ec; [|done]. injection H as <- <-.
      destruct (IH _ _ eq_refl) as [Hs Hfirst]. split; [cbn; by rewrite Hs|].
      intros [|d p] q Hpq Hq.
      * change (q = String c pre1) in Hpq. rewrite Hpq.
        change (startsWith (String c (pre1 +:+ old +:+ suf1)) old = false). by rewrite <- Hs.
      * injection Hpq as -> Hpq. by apply (Hfirst p).
Qed.
Lemma cut_at_None old s : cut_at old s = None -> old <> "" /\ occurrences old 0 s = 0.
Proof.
  induction s as [|c s IH]; intros H; cbn [cut_at] in H.
  - destruct (startsWith "" old) eqn:E; [done|]. by destruct old.
  - destruct (startsWith (String c s) old) eqn:E; [done|]. cbn [occurrences]. rewrite E.
    destruct (cut_at old s) as [[]|] eqn:Ec; [done|by apply IH].
Qed.
Lemma occurrences_skip old k s : occurrences old k s = occurrences old 0 (str_tail k s).
Proof.
  revert k. induction s as [|c s IH]; intros [|k]; try done.
  - unfold str_tail. by rewrite Nat.sub_0_r, substring_full.
  - cbn [occurrences]. rewrite IH. done.
Qed.
Lemma occurrences_cut old s pre suf :
  old <> "" -> cut_at old s = Some (pre, suf) -> occurrences old 0 s = S (occurrences old 0 suf).
Proof.
  intros Hne. revert pre suf. induction s as [|c s IH]; intros pre suf H; cbn [cut_at] in H.
  - destruct (startsWith "" old) eqn:E; [by destruct old|done].
  - destruct (startsWith (String c s) old) eqn:E.
    + injection H as <- <-. cbn [occurrences]. rewrite E, occurrences_skip. do 2 f_equal.
      destruct old as [|d old]; [done|]. cbn [String.length]. rewrite Nat.sub_succ, Nat.sub_0_r. done.
    + cbn [occurrences]. rewrite E. destruct (cut_at old s) as [[pre1 suf1]|] eqn:Ec; [|done]. injection H as <- <-. by eapply IH.
Qed.
Lemma substitution_plain replacement matched pre suf :
  has_char "$"%char replacement = false -> get_substitution replacement matched pre suf = replacement.
Proof.
  induction replacement as [|c r IH]; [done|]. cbn [has_char get_substitution].
  intros [Hc Hr]%orb_false_iff. rewrite Hc. by rewrite IH.
Qed.
Lemma cut_at_found old a b : cut_at old (a +:+ old +:+ b) <> None.
Proof.
  induction a as [|c a IH].
  - change (cut_at old (old +:+ b) <> None). pose proof (startsWith_app b old) as H.
    destruct (old +:+ b) as [|d s]; cbn [cut_at]; by rewrite H.
  - change (cut_at old (String c (a +:+ old +:+ b)) <> None). cbn [cut_at].
    destruct (startsWith _ old); [done|]. by destruct (cut_at old (a +:+ old +:+ b)) as [[]|].
Qed.
Lemma occurrences_0 old s a b : old <> "" -> occurrences old 0 s = 0 -> s <> a +:+ old +:+ b.
Proof.
  intros Hne H ->. pose proof (cut_at_found old a b) as Hc.
  destruct (cut_at old (a +:+ old +:+ b)) as [[pre suf]|] eqn:E; [|done].
  apply occurrences_cut in E; [|done]. rewrite E in H. done.
Qed.

(** ** Editing a text *)

Inductive EditFailure := ef_not_found | ef_occurrences (n : Z).

(** The count and the replacement of [edit_file] and [multi_edit]. *)
Definition edit_text (content old replacement : string) : res EditFailure string :=
  let count := split_count old content in
  if (count =? 0)%Z then Throw ef_not_found
  else if (1 <? count)%Z then Throw (ef_occurrences count)
  else Ok (str_replace content old replacement).

(** What an accepted edit is: the text around the first occurrence is kept, no
    further occurrence is in what follows it. *)
Lemma edit_text_Ok content old replacement edited :
  old <> "" -> edit_text content old replacement = Ok edited ->
  exists pre suf, content = pre +:+ old +:+ suf /\ first_at old pre (old +:+ suf) /\
    (forall a b, suf <> a +:+ old +:+ b) /\ edited = pre +:+ get_substitution replacement old pre suf +:+ suf.
Proof.
  intros Hne. unfold edit_text, split_count, str_replace. rewrite (proj2 (same_neq _ _) Hne).
  destruct (_ =? 0)%Z eqn:E0; [done|]. destruct (1 <? _)%Z eqn:E1; [done|]. reflect. intros [= <-].
  destruct (cut_at old content) as [[pre suf]|] eqn:Ec; [|apply cut_at_None in Ec as [_ Ec]; lia].
  destruct (cut_at_spec _ _ _ _ Ec) as [Hs Hfirst]. exists pre, suf. split_and!; [done|done| |done].
  intros a b. apply occurrences_0; [done|]. apply occurrences_cut in Ec; [|done]. lia.
Qed.

(** The lines of a symbol replaced by a new text. *)
Definition splice_symbol (content newText : string) (start stop : nat) : string :=
  let newline := String (ascii_of_nat 10) "" in
  let lines := split_on (ascii_of_nat 10) content in
  let before := js_join newline (take start lines) in
  let after := js_join newline (drop stop lines) in
  before +:+ (if before === "" then "" else newline) +:+ newText +:+ (if after === "" then "" else newline) +:+ after.

(** ** The path authority *)

(** src/src/tools/path-authority.ts # ToolPathAuthority

    With the approval that the preflight put into the context; an empty
    [projectRoot] is a missing one. *)
Record ToolContext := mkToolContext {
  tc_projectRoot : string;
  tc_writableRoots : list string;
  tc_freshness : option ToolFreshnessApproval;
}.

(** Why a path is refused. *)
Inductive PathRefusal := pr_no_authority | pr_cross_project_write | pr_symlink_escape | pr_base_drift (reason : string).

(** What a tool returns. *)
Inductive FileToolResult :=
| ft_ok (files : list (string * string)) (transactionId patchTransactionId : string)
| ft_rolled_back (restored deleted : list string)
| ft_preview (text : string)
| ft_fail (reason : string)
| ft_blocked_path (reason : PathRefusal)
| ft_path_policy (path : string) (reason : ForbiddenReason)
| ft_ripple
| ft_freshness (path : string) (status : FileStateStatus) (reason : string)
| ft_error (e : PatchError).

Section FileTools.
Context (sha256 utf8 : string -> string) (process_cwd : string) (others : nat -> World -> World).
(** The answers of what is not modelled. *)
Context (drift : option string) (bounded_read : World -> string -> res string string)
  (ripple_blocks : string -> string -> string -> bool) (cascade_blocks : list string -> string -> string -> string -> bool)
  (find_symbol : string -> string -> option (nat * nat)).
#[local] Abbreviation Run_ := (Effect Run PatchError).

Definition resolve1 (p : string) : string := path_resolve process_cwd [p].

(** src/src/tools/path-authority.ts # isWithin *)
Definition isWithin (root candidate : string) : bool :=
  if candidate === root then true
  else
    let rel := path_relative process_cwd root candidate in
    negb (rel === "") && negb (startsWith rel "..") && negb (isAbsolute rel).

(** src/src/tools/path-authority.ts # deepestExistingRealpath

    [up] are the segments of the cursor, the last first; the guard of 256 is
    the fuel. *)
Fixpoint deepest_from (guard : nat) (up : list string) : Run_ (option string) :=
  match guard with
  | O => mret None
  | S guard =>
      let current := abs_path (rev up) in
      present ← existsSync others current;
      match present with
      | true => real ← realpathSync others current; mret (match real with Ok r => Some r | Throw _ => None end)
      | false => match up with [] => mret None | _ :: up => deepest_from guard up end
      end
  end.
Definition deepestExistingRealpath (candidate : string) : Run_ (option string) :=
  deepest_from 256 (rev (resolve_segs process_cwd [candidate])).

(** src/src/tools/path-authority.ts # canonicalProjectRoot *)
Definition canonicalProjectRoot (root : string) : Run_ string :=
  real ← deepestExistingRealpath (resolve1 root); mret (nullish real (resolve1 root)).

(** src/src/tools/path-authority.ts # resolveToolPath

    In the mode [write]. *)
Definition resolveToolPath (ctx : ToolContext) (rawPath : string) : Run_ (res PathRefusal string) :=
  let root := tc_projectRoot ctx in
  if (root === "") || (trim rawPath === "") then mret (Throw pr_no_authority)
  else
    let base := resolve1 root in
    baseCanonical ← canonicalProjectRoot root;
    let candidate := if isAbsolute rawPath then path_normalize rawPath else path_resolve process_cwd [base; rawPath] in
    if (candidate === base) || (candidate === baseCanonical) then mret (Ok candidate)
    else
      let allowedRoots := base :: baseCanonical :: tc_writableRoots ctx in
      if negb (existsb (fun root => isWithin root candidate) allowedRoots) then mret (Throw pr_cross_project_write)
      else
        realTarget ← deepestExistingRealpath candidate;
        mret (match realTarget with
              | Some real => if negb (existsb (fun root => isWithin root real) allowedRoots)
                             then Throw pr_symlink_escape else Ok candidate
              | None => Ok candidate
              end).

(** src/src/tools/path-authority.ts # projectRelativePath *)
Definition projectRelativePath (root path : string) : string :=
  let base := resolve1 root in
  let rel := path_relative process_cwd base (resolve1 path) in
  if rel === "" then "."
  else if negb (startsWith rel "..") && negb (isAbsolute rel) then slashes rel
  else slashes (resolve1 path).

(** src/src/tools/file.ts # authoritativePath

    In the mode [write]; [drift] is the answer of the workspace authority. *)
Definition authoritativePath (ctx : ToolContext) (rawPath : string) : Run_ (res PathRefusal string) :=
  match drift with
  | Some reason => mret (Throw (pr_base_drift reason))
  | None => resolveToolPath ctx rawPath
  end.

(** src/src/tools/file.ts # toolRelativePath *)
Definition toolRelativePath (ctx : ToolContext) (p : string) : string :=
  if tc_projectRoot ctx === "" then slashes (resolve1 p) else projectRelativePath (tc_projectRoot ctx) p.

(** src/src/tools/file.ts # safeResultPath *)
Definition safeResultPath (ctx : ToolContext) (path : string) : string :=
  if tc_projectRoot ctx === "" then slashes (resolve1 path) else projectRelativePath (tc_projectRoot ctx) path.

(** ** Approved snapshots *)

(** src/src/tools/file.ts # approvedBaseHash *)
Definition approvedBaseHash (ctx : ToolContext) (path : string) (fallback : option string) : option string :=
  nullish (approval ← tc_freshness ctx; jget (resolve1 path) (ap_expectedBaseHashes approval)) fallback.

(** src/src/tools/file.ts # approvedContent

    Whether a content was found, and the content. *)
Definition approvedContent (ctx : ToolContext) (path : string) : option (option string) :=
  approval ← tc_freshness ctx; jget (resolve1 path) (ap_approvedContents approval).

(** src/src/tools/file.ts # revalidateApprovedSnapshot *)
Definition revalidateApprovedSnapshot (ctx : ToolContext) (path : string) (content : option string)
    : Run_ (option FileToolResult) :=
  let canonicalPath := resolve1 path in
  match approval ← tc_freshness ctx; jget canonicalPath (ap_expectedBaseHashes approval) with
  | None => mret None
  | Some expected =>
      let same_content := match expected, approvedContent ctx path with
                          | Some _, Some snapshot => snapshot === content
                          | _, _ => false end in
      if same_content then mret None
      else
        result ← match expected with
                 | None => check ← checkBaseHash sha256 utf8 others canonicalPath None; mret (hc_match check, hc_actual check)
                 | Some _ => let actual := computeBaseHash sha256 <$> content in mret (actual === expected, actual)
                 end;
        if (result.1 : bool) then mret None
        else
          let display := safeResultPath ctx path in
          mret (Some (match expected, result.2 with
                      | None, _ => ft_freshness display fs_changed "new-file target appeared after freshness approval"
                      | Some _, None => ft_freshness display fs_deleted "file was deleted after freshness approval"
                      | Some _, Some _ => ft_freshness display fs_stale "disk content changed after freshness approval"
                      end))
  end.

(** src/src/tools/file.ts # fileToolFailure *)
Definition fileToolFailure (ctx : ToolContext) (error : PatchError) : FileToolResult :=
  match error with
  | PatchPathConflictError path reason _ _ => ft_path_policy (safeResultPath ctx path) reason
  | PatchFreshnessConflictError path expected _ actualState _ _ =>
      let status := match expected, actualState with
                    | None, _ => fs_changed | _, hs_absent => fs_deleted | _, hs_file => fs_stale | _, _ => fs_changed
                    end in
      let reason := match expected, actualState with
                    | None, _ => "new-file target appeared before commit"
                    | _, hs_absent => "file was deleted before commit"
                    | _, hs_file => "disk content changed before commit"
                    | _, _ => "target became unreadable or stopped being a regular file before commit"
                    end in
      ft_freshness (safeResultPath ctx path) status reason
  | e => ft_error e
  end.

(** [try { .. } catch (e) { return fileToolFailure(e) }]. *)
Definition guarded (ctx : ToolContext) (m : Run_ FileToolResult) : Run_ FileToolResult :=
  r ← attempt m; mret (match r with Ok result => result | Throw e => fileToolFailure ctx e end).

(** The bounded read of [boundedPreRead], taken as its answer. *)
Definition boundedPreRead (p : string) : Run_ (res string string) := sys others (fun w => (bounded_read w p, w)).

(** The content a tool edits: the approved one, or a bounded read of a file that
    exists. *)
Definition content_to_edit (ctx : ToolContext) (p : string) : Run_ (res string string) :=
  match approvedContent ctx p with
  | Some None => mret (Throw "File not found")
  | Some (Some content) => mret (Ok content)
  | None =>
      present ← existsSync others p;
      match present with true => boundedPreRead p | false => mret (Throw "File not found") end
  end.

Definition no_verification (_ : Run) (_ : ManagedPatchTransaction) : res string bool := Ok true.
Definition record_write (now : Z) (p content : string) : Run_ unit :=
  modify (fun r => with_fileState (recordRuntimeFileWrite sha256 process_cwd now p content (rn_fileState r)).2 r).

(** The transaction of a tool that changes one file, and what it records. *)
Definition commit_one (ctx : ToolContext) (now : Z) (ftId txId tool p : string) (oldContent : option string)
    (newContent : string) (baseHash : option string) : Run_ FileToolResult :=
  mpt ← applyAndCommit sha256 utf8 process_cwd others ftId txId
    (mkInit tool [mkInitFile (toolRelativePath ctx p) oldContent newContent (Some baseHash)] None None
       (if tc_projectRoot ctx === "" then process_cwd else tc_projectRoot ctx)) no_verification;
  _ ← record_write now p newContent;
  mret (ft_ok [(p, newContent)] (tx_id (pa_fileTransaction (mp_patch mpt))) (mp_txId mpt)).

(** src/src/tools/file.ts # write_file *)
Definition write_file (ctx : ToolContext) (now : Z) (ftId txId path content : string) : Run_ FileToolResult :=
  guarded ctx (
    resolution ← authoritativePath ctx path;
    match resolution with
    | Throw refusal => mret (ft_blocked_path refusal)
    | Ok p =>
        previous ← match approvedContent ctx p with
                   | Some snapshot => mret (Ok snapshot)
                   | None =>
                       present ← existsSync others p;
                       match present with
                       | true => pre ← boundedPreRead p;
                                 mret (match pre with Ok c => Ok (Some c) | Throw e => Throw e end)
                       | false => mret (Ok None)
                       end
                   end;
        match (previous : res string (option string)) with
        | Throw reason => mret (ft_fail reason)
        | Ok previous =>
            blocked ← revalidateApprovedSnapshot ctx p previous;
            match blocked with
            | Some result => mret result
            | None =>
                let baseHash := approvedBaseHash ctx p (computeBaseHash sha256 <$> previous) in
                if ripple_blocks p (default "" previous) content then mret ft_ripple
                else commit_one ctx now ftId txId "write_file" p previous content baseHash
            end
        end
    end).

(** A tool that edits one existing file: [edit] makes the new content. *)
Definition edit_existing (ctx : ToolContext) (now : Z) (ftId txId tool path : string)
    (edit : string -> FileToolResult + string) : Run_ FileToolResult :=
  guarded ctx (
    resolution ← authoritativePath ctx path;
    match resolution with
    | Throw refusal => mret (ft_blocked_path refusal)
    | Ok p =>
        content ← content_to_edit ctx p;
        match content with
        | Throw reason => mret (ft_fail reason)
        | Ok content =>
            blocked ← revalidateApprovedSnapshot ctx p (Some content);
            match blocked with
            | Some result => mret result
            | None =>
                let baseHash := approvedBaseHash ctx p (Some (computeBaseHash sha256 content)) in
                match edit content with
                | inl result => mret result
                | inr newContent =>
                    if ripple_blocks p content newContent then mret ft_ripple
                    else commit_one ctx now ftId txId tool p (Some content) newContent baseHash
                end
            end
        end
    end).

(** src/src/tools/file.ts # edit_file *)
Definition edit_file (ctx : ToolContext) (now : Z) (ftId txId path old_string new_string : string) : Run_ FileToolResult :=
  edit_existing ctx now ftId txId "edit_file" path (fun content =>
    match edit_text content old_string new_string with
    | Throw ef_not_found => inl (ft_fail "String not found")
    | Throw (ef_occurrences n) => inl (ft_fail "occurrences")
    | Ok newContent => inr newContent
    end).

(** src/src/tools/file.ts # edit_symbol *)
Definition edit_symbol (ctx : ToolContext) (now : Z) (ftId txId path symbol : string) (newText : option string)
    (dryRun : bool) : Run_ FileToolResult :=
  edit_existing ctx now ftId txId "edit_symbol" path (fun content =>
    match find_symbol content symbol with
    | None => inl (ft_fail "Symbol not found")
    | Some (start, stop) =>
        if dryRun then
          inl (ft_preview (js_join (String (ascii_of_nat 10) "")
                 (take (stop - start) (drop start (split_on (ascii_of_nat 10) content)))))
        else match newText with
             | None => inl (ft_fail "edit_symbol requires newText")
             | Some newText => inr (splice_symbol content newText start stop)
             end
    end).

(** ** Several edits *)

Record Edit := mkEdit { ed_path : string; ed_old : string; ed_new : string }.

(** The maps [originals], [proposed] and [baseHashes]. *)
Record EditState := mkEditState {
  es_originals : list (string * string);
  es_proposed : list (string * string);
  es_baseHashes : list (string * option string);
}.

(** The original of a path is read once. *)
Definition with_original (ctx : ToolContext) (p : string) (s : EditState) : Run_ (FileToolResult + EditState) :=
  if jhas p (es_originals s) then mret (inr s)
  else
    content ← content_to_edit ctx p;
    match content with
    | Throw reason => mret (inl (ft_fail reason))
    | Ok original =>
        blocked ← revalidateApprovedSnapshot ctx p (Some original);
        match blocked with
        | Some result => mret (inl result)
        | None =>
            mret (inr (mkEditState (jset p original (es_originals s)) (es_proposed s)
                         (jset p (approvedBaseHash ctx p (Some (computeBaseHash sha256 original))) (es_baseHashes s))))
        end
    end.

Fixpoint propose_edits (ctx : ToolContext) (edits : list Edit) (s : EditState) : Run_ (FileToolResult + EditState) :=
  match edits with
  | [] => mret (inr s)
  | edit :: edits =>
      if (ed_path edit === "") || (ed_old edit === "")
      then mret (inl (ft_fail "Each edit requires path and old_string"))
      else
        resolution ← authoritativePath ctx (ed_path edit);
        match resolution with
        | Throw refusal => mret (inl (ft_blocked_path refusal))
        | Ok p =>
            ready ← with_original ctx p s;
            match ready with
            | inl result => mret (inl result)
            | inr s =>
                let current := nullish (jget p (es_proposed s)) (nullish (jget p (es_originals s)) "") in
                match edit_text current (ed_old edit) (ed_new edit) with
                | Throw ef_not_found => mret (inl (ft_fail "String not found"))
                | Throw (ef_occurrences _) => mret (inl (ft_fail "occurrences"))
                | Ok next =>
                    propose_edits ctx edits
                      (mkEditState (es_originals s) (jset p next (es_proposed s)) (es_baseHashes s))
                end
            end
        end
  end.

Fixpoint record_writes (now : Z) (files : list (string * string)) : Run_ unit :=
  match files with
  | [] => mret tt
  | (p, content) :: files => _ ← record_write now p content; record_writes now files
  end.

(** src/src/tools/file.ts # multi_edit *)
Definition multi_edit (ctx : ToolContext) (now : Z) (ftId txId : string) (edits : list Edit) : Run_ FileToolResult :=
  match edits with
  | [] => mret (ft_fail "edits array is required")
  | _ =>
      guarded ctx (
        proposal ← propose_edits ctx edits (mkEditState [] [] []);
        match proposal with
        | inl result => mret result
        | inr s =>
            let modifiedFiles := map (fun kv => toolRelativePath ctx kv.1) (es_proposed s) in
            let original (p : string) := nullish (jget p (es_originals s)) "" in
            if existsb (fun kv => cascade_blocks modifiedFiles kv.1 (original kv.1) kv.2) (es_proposed s)
            then mret ft_ripple
            else
              let files := map (fun kv => mkInitFile (toolRelativePath ctx kv.1) (Some (original kv.1)) kv.2
                (Some (match jget kv.1 (es_baseHashes s) with
                       | Some (Some hash) => Some hash
                       | _ => Some (computeBaseHash sha256 (original kv.1))
                       end))) (es_proposed s) in
              mpt ← applyAndCommit sha256 utf8 process_cwd others ftId txId
                (mkInit "multi_edit" files None None
                   (if tc_projectRoot ctx === "" then process_cwd else tc_projectRoot ctx)) no_verification;
              _ ← record_writes now (es_proposed s);
              mret (ft_ok (es_proposed s) (tx_id (pa_fileTransaction (mp_patch mpt))) (mp_txId mpt))
        end)
  end.

(** src/src/tools/file.ts # rollback_transaction *)
Definition rollback_transaction (ctx : ToolContext) (transactionId : string) : Run_ FileToolResult :=
  if transactionId === "" then mret (ft_fail "transactionId is required")
  else if tc_projectRoot ctx === "" then mret (ft_blocked_path pr_no_authority)
  else
    r ← attempt (rollbackCommittedTransaction sha256 process_cwd others transactionId);
    mret (match r with
          | Ok result => ft_rolled_back (rb_restored result) (rb_deleted result)
          | Throw e => ft_error e
          end).

(** ** What a tool leaves alone before its transaction *)
Section looking.
Context (x : string) (Hx : left_alone others x).
#[local] Abbreviation Look := (look_at others x Hx).

Ltac keep := repeat (first
  [ apply keeps_ret; exact _ | apply keeps_lift; exact _ | apply keeps_bind; [exact _|..] | progress intros
  | apply (keeps_exists others _ Look) | apply (keeps_realpath others _ Look)
  | apply (keeps_lstat others _ Look) | apply (keeps_readFile utf8 others _ Look) | progress (auto with keeps) | case_match ]).

Lemma keeps_deepest_from guard up : keeps (same (at_path x)) (deepest_from guard up).
Proof. revert up. induction guard as [|guard IH]; intros up; cbn [deepest_from]; keep. Qed.
Lemma keeps_deepest candidate : keeps (same (at_path x)) (deepestExistingRealpath candidate).
Proof. apply keeps_deepest_from. Qed.
Lemma keeps_canonical root : keeps (same (at_path x)) (canonicalProjectRoot root).
Proof. apply keeps_bind; [exact _|apply keeps_deepest|]. intros real. apply keeps_ret; exact _. Qed.
Lemma keeps_authoritative ctx raw : keeps (same (at_path x)) (authoritativePath ctx raw).
Proof.
  unfold authoritativePath, resolveToolPath. destruct drift; [apply keeps_ret; exact _|].
  destruct (_ || _); [apply keeps_ret; exact _|]. apply keeps_bind; [exact _|apply keeps_canonical|]. intros base. cbv zeta.
  destruct (_ || _); [apply keeps_ret; exact _|]. destruct (negb _); [apply keeps_ret; exact _|].
  apply keeps_bind; [exact _|apply keeps_deepest|]. intros real. apply keeps_ret; exact _.
Qed.
Lemma keeps_content ctx p : keeps (same (at_path x)) (content_to_edit ctx p).
Proof.
  assert (keeps (same (at_path x)) (boundedPreRead p)) by by apply Look. unfold content_to_edit. keep.
Qed.
Lemma keeps_revalidate ctx p content : keeps (same (at_path x)) (revalidateApprovedSnapshot ctx p content).
Proof. unfold revalidateApprovedSnapshot. keep. Qed.
End looking.

(** ** A tool that changes one file *)

(** The root of its transaction, and the entry. *)
Definition tool_cwd (ctx : ToolContext) : string := if tc_projectRoot ctx === "" then process_cwd else tc_projectRoot ctx.
Definition one_file (ctx : ToolContext) (tool p : string) (oldContent : option string) (newContent : string)
    (baseHash : option string) : InitManagedTxInput :=
  mkInit tool [mkInitFile (toolRelativePath ctx p) oldContent newContent (Some baseHash)] None None (tool_cwd ctx).
Definition target_of (ctx : ToolContext) (p : string) : string :=
  path_resolve process_cwd [path_resolve process_cwd [tool_cwd ctx]; toolRelativePath ctx p].
Definition scratch_of (ctx : ToolContext) (txId p : string) : string :=
  txTempPath process_cwd txId (slashes (toolRelativePath ctx p)) (path_resolve process_cwd [tool_cwd ctx]).

(** Other processes leave the target, the temporary file and the record of the
    transaction alone, and the temporary file is another one. *)
Record undisturbed (ctx : ToolContext) (ftId txId p : string) : Prop := {
  un_target : left_alone others (target_of ctx p);
  un_scratch : left_alone others (scratch_of ctx txId p);
  un_record : record_kept others ftId;
  un_apart : scratch_of ctx txId p <> target_of ctx p;
  un_below : below (txTempDir process_cwd txId (path_resolve process_cwd [tool_cwd ctx])) (target_of ctx p) = false;
}.

Lemma commit_one_result ctx now ftId txId tool p old new hash r result r' :
  commit_one ctx now ftId txId tool p old new hash r = (Ok result, r') -> exists a b, result = ft_ok [(p, new)] a b.
Proof.
  unfold commit_one. intros (m & r1 & _ & H)%bind_Ok. apply bind_Ok in H as ([] & r2 & _ & [= <- _]). by eexists _, _.
Qed.

Lemma commit_one_Ok ctx now ftId txId tool p old new hash r result r' :
  undisturbed ctx ftId txId p -> run_files r !! target_of ctx p = old ->
  commit_one ctx now ftId txId tool p old new hash r = (Ok result, r') ->
  run_files r' !! target_of ctx p = Some new /\
  record_baseline <$> rf_ledger (rn_fileState r') !! resolve1 p = Some (mkBaseline (sha256 new) range_full false).
Proof.
  intros [U1 U2 U3 U4 U5] Hstart. unfold commit_one. fold (tool_cwd ctx). fold (one_file ctx tool p old new hash).
  intros (m & r1 & Happly & H)%bind_Ok. apply bind_Ok in H as ([] & r2 & [= <-] & [= _ <-]).
  pose proof (applyAndCommit_outcome sha256 utf8 process_cwd others ftId txId (one_file ctx tool p old new hash)
    no_verification (target_of ctx p) r U1) as Hout.
  unfold entries_of, cwd_of, temp_of in Hout. cbn [one_file in_files in_cwd map] in Hout.
  rewrite Happly in Hout. destruct Hout as [[_ Hx]|(_ & (? & ? & ?) & _)]; [..|done].
  - intros e He. apply list_elem_of_singleton in He as ->. exact U2.
  - exact U3.
  - split; cbn [map].
    + apply NoDup_singleton.
    + apply NoDup_singleton.
    + rewrite list_elem_of_singleton. intros E. injection E as E. by apply U4.
    + intros e e' He%list_elem_of_singleton He'%list_elem_of_singleton E. subst e e'. injection E as E. by apply U4.
  - exact U5.
  - intros e He _. apply list_elem_of_singleton in He as ->. by symmetry.
  - split.
    + cbn [with_fileState rn_world]. unfold run_files, new_at in *.
      cbn [find entry_of me_absolutePath if_relativePath] in Hx. unfold target_of in Hx at 2. rewrite same_refl in Hx. exact Hx.
    + cbn [with_fileState rn_fileState recordRuntimeFileWrite recordAgentWrite snd rf_ledger]. by rewrite lookup_insert_eq.
Qed.

Lemma guarded_Ok ctx m r result r' :
  guarded ctx m r = (Ok result, r') ->
  m r = (Ok result, r') \/ exists e, m r = (Throw e, r') /\ result = fileToolFailure ctx e.
Proof.
  unfold guarded. rewrite bind_run. unfold attempt. destruct (m r) as [[a|e] r1]; cbn; intros [= <- <-]; [by left|right; by exists e].
Qed.
Lemma revalidate_not_ok ctx p c r result r' files a b :
  revalidateApprovedSnapshot ctx p c r = (Ok (Some result), r') -> result <> ft_ok files a b.
Proof.
  unfold revalidateApprovedSnapshot. destruct (tc_freshness ctx ≫= _) as [expected|]; [|done].
  cbv zeta. destruct (match expected with Some _ => _ | None => _ end); [done|].
  intros (x & r1 & _ & H)%bind_Ok. destruct x as [[] o]; [done|]. injection H as <- _. by destruct expected, o.
Qed.

(** An edit of an approved content that reports success. *)
Lemma edit_existing_Ok ctx now ftId txId tool path edit r p content new a b r' :
  edit_existing ctx now ftId txId tool path edit r = (Ok (ft_ok [(p, new)] a b), r') ->
  (forall c files a b, edit c <> inl (ft_ok files a b)) ->
  undisturbed ctx ftId txId p -> approvedContent ctx p = Some (Some content) ->
  run_files r !! target_of ctx p = Some content ->
  edit content = inr new /\ run_files r' !! target_of ctx p = Some new /\
  record_baseline <$> rf_ledger (rn_fileState r') !! resolve1 p = Some (mkBaseline (sha256 new) range_full false).
Proof.
  intros H Hedit U Happ Hdisk. unfold edit_existing in H. apply guarded_Ok in H as [H|(e & _ & He)]; [|by destruct e].
  apply bind_Ok in H as (resolution & r1 & H1 & H). destruct resolution as [q|refusal]; [|done].
  apply bind_Ok in H as (c & r2 & H2 & H). destruct c as [c|reason]; [|done].
  apply bind_Ok in H as (blocked & r3 & H3 & H).
  destruct blocked as [result|].
  { exfalso. injection H as -> ->. by apply (revalidate_not_ok _ _ _ _ _ _ [(p, new)] a b H3). }
  destruct (edit c) as [result|new'] eqn:Ee; [injection H as -> ->; by destruct (Hedit c [(p, new)] a b)|].
  destruct (ripple_blocks q c new'); [done|].
  destruct (commit_one_result _ _ _ _ _ _ _ _ _ _ _ _ H) as (a' & b' & [= <- <- _ _]).
  unfold content_to_edit in H2. rewrite Happ in H2. injection H2 as <- <-.
  assert (at_path (target_of ctx p) (rn_world r3) = Some content) as Hr3.
  { pose proof (keeps_authoritative _ (un_target _ _ _ _ U) ctx path r) as K1. rewrite H1 in K1.
    pose proof (keeps_revalidate _ (un_target _ _ _ _ U) ctx p (Some content) r1) as K2. rewrite H3 in K2.
    unfold same in K1, K2. cbn [snd] in K1, K2. by rewrite <- K2, <- K1. }
  split; [done|]. by apply (commit_one_Ok _ _ _ _ _ _ _ _ _ _ _ _ U Hr3 H).
Qed.

(** C19: What an accepted edit does: when edit_file reports success on a file
    whose approved content is what is on disk, other processes leaving that file
    and the transaction's own files alone, the content is one piece of text
    before, the searched text, and one after, no occurrence of the searched text
    starts earlier and none lies in the text after; on disk and in the ledger
    there is then exactly the text before, the replacement, and the text after,
    the replacement being the given text with the dollar patterns of the language
    expanded, so the given text itself when it holds no dollar sign. *)
Theorem edit_replaces_one ctx now ftId txId path old new r p edited a b r' content :
  edit_file ctx now ftId txId path old new r = (Ok (ft_ok [(p, edited)] a b), r') ->
  old <> "" -> undisturbed ctx ftId txId p -> approvedContent ctx p = Some (Some content) ->
  run_files r !! target_of ctx p = Some content ->
  exists pre suf, content = pre +:+ old +:+ suf /\ first_at old pre (old +:+ suf) /\
    (forall u v, suf <> u +:+ old +:+ v) /\
    edited = pre +:+ get_substitution new old pre suf +:+ suf /\
    (has_char "$"%char new = false -> edited = pre +:+ new +:+ suf) /\
    run_files r' !! target_of ctx p = Some edited /\
    record_baseline <$> rf_ledger (rn_fileState r') !! resolve1 p = Some (mkBaseline (sha256 edited) range_full false).
Proof.
  intros H Hne U Happ Hdisk. unfold edit_file in H.
  apply (edit_existing_Ok _ _ _ _ _ _ _ _ p content edited a b) in H as (He & Hx & Hl); [|by intros c ? ? ?; case_match; [|case_match]|done..].
  destruct (edit_text content old new) as [t|[]] eqn:Et; [|done..]. injection He as ->.
  destruct (edit_text_Ok _ _ _ _ Hne Et) as (pre & suf & Hc & Hfirst & Hsuf & Hed). exists pre, suf.
  split_and!; try done. intros Hd. by rewrite Hed, substitution_plain.
Qed.
End FileTools.

(** ** Concrete calls *)

Definition no_drift : option string := None.
Definition no_reader (_ : World) (_ : string) : res string string := Throw "unused".
Definition no_ripple (_ _ _ : string) : bool := false.
Definition approving (approvals : list (string * (option string * option string))) : ToolContext :=
  mkToolContext "/p" ["/q"]
    (Some (mkApproval (map (fun a => (a.1, a.2.1)) approvals) (map (fun a => (a.1, a.2.2)) approvals))).

Definition edit_call (old new content : string) : res PatchError FileToolResult * Run :=
  edit_file id_hash id_hash "/" (fun _ w => w) no_drift no_reader no_ripple
    (approving [("/p/a.ts", (Some (String.substring 0 16 content), Some content))]) 1 "txn_1" "ptxn_1" "a.ts" old new
    (small_run [("/p/a.ts", content)]).

Lemma edit_replaces_one_witness :
  let ctx := approving [("/p/a.ts", (Some "a = X + b", Some "a = X + b"))] in
  (edit_call "X" "Y" "a = X + b").1 = Ok (ft_ok [("/p/a.ts", "a = Y + b")] "txn_1" "ptxn_1") /\
  exists pre suf, "a = X + b" = pre +:+ "X" +:+ suf /\ first_at "X" pre ("X" +:+ suf) /\
    (forall u v, suf <> u +:+ "X" +:+ v) /\
    "a = Y + b" = pre +:+ get_substitution "Y" "X" pre suf +:+ suf /\
    (has_char "$"%char "Y" = false -> "a = Y + b" = pre +:+ "Y" +:+ suf) /\
    run_files (edit_call "X" "Y" "a = X + b").2 !! target_of "/" ctx "/p/a.ts" = Some "a = Y + b" /\
    record_baseline <$> rf_ledger (rn_fileState (edit_call "X" "Y" "a = X + b").2) !! resolve1 "/" "/p/a.ts" =
      Some (mkBaseline (id_hash "a = Y + b") range_full false).
Proof.
  intros ctx.
  assert ((edit_call "X" "Y" "a = X + b").1 = Ok (ft_ok [("/p/a.ts", "a = Y + b")] "txn_1" "ptxn_1")) as Ho
    by (vm_compute; reflexivity).
  split; [exact Ho|].
  apply (edit_replaces_one id_hash id_hash "/" (fun _ w => w) no_drift no_reader no_ripple ctx 1 "txn_1" "ptxn_1"
    "a.ts" "X" "Y" (small_run [("/p/a.ts", "a = X + b")]) "/p/a.ts" "a = Y + b" "txn_1" "ptxn_1").
  - rewrite <- Ho. apply surjective_pairing.
  - done.
  - split; [intros n w; reflexivity|intros n w; reflexivity|intros n w; reflexivity
      |intros E; vm_compute in E; discriminate E|vm_compute; reflexivity].
  - vm_compute. reflexivity.
  - vm_compute. reflexivity.
Defined.

(** The replacement is not taken literally: a price written with a dollar sign
    loses it, and a shell variable named by [$&] becomes the searched text. *)
Lemma dollar_patterns_expand :
  edit_text "cost: X" "X" "$$5" = Ok "cost: $5" /\ edit_text "run X" "X" "echo $&" = Ok "run echo X".
Proof. split; vm_compute; reflexivity. Qed.

(** Occurrences that overlap are counted once: two matches pass as unique. *)
Lemma overlapping_match_accepted : edit_text "aaa" "aa" "b" = Ok "ba".
Proof. vm_compute. reflexivity. Qed.

(** Replacing the last symbol of a file drops the newline the file ends in, and
    replacing a symbol after a blank first line drops that line. *)
Lemma last_symbol_loses_newline :
  let nl := String (ascii_of_nat 10) "" in
  splice_symbol ("function f() {}" +:+ nl) "function g() {}" 0 1 = "function g() {}" /\
  splice_symbol (nl +:+ "a" +:+ nl +:+ "b") "c" 1 2 = "c" +:+ nl +:+ "b".
Proof. split; vm_compute; reflexivity. Qed.

(** A writable root outside of the project passes the path authority and is
    refused by the transaction. *)
Definition with_q : Run :=
  mkRun (mkWorld (mkDisk ∅ ∅) (fun p => if includes ["/"; "/p"; "/q"] p then Ok pk_directory else Throw ENOENT)
           (fun p => Ok p) no_faults (fun _ => false))
    0 ∅ [] emptyCommittedTransactionEvidenceState (createRuntimeFileStateContext ∅) None.
Lemma writable_root_refused :
  (write_file id_hash id_hash "/" (fun _ w => w) no_drift no_reader no_ripple
     (approving [("/q/a.ts", (None, None))]) 1 "txn_1" "ptxn_1" "/q/a.ts" "text" with_q).1 =
  Ok (ft_error (e_forbidden "/q/a.ts" (fb_outside "/q/a.ts"))).
Proof. vm_compute. reflexivity. Qed.

(** The approval hashes the bytes of the file, the commit hashes the decoded
    text: a file that is not valid UTF-8 is never edited, though nobody touched
    it, and the tool reports that it changed on disk. *)
Lemma undecodable_file_never_edited :
  let decode (s : string) := if s === "bytes X" then "text X" else s in
  (edit_file id_hash decode "/" (fun _ w => w) no_drift no_reader no_ripple
     (approving [("/p/a.ts", (Some "bytes X", Some "text X"))]) 1 "txn_1" "ptxn_1" "a.ts" "X" "Y"
     (small_run [("/p/a.ts", "bytes X")])).1 =
  Ok (ft_freshness "/a.ts" fs_stale "disk content changed before commit").
Proof. vm_compute. reflexivity. Qed.

(** A conflict is reported for the path relative to the project, resolved
    against the working directory of the process: the file shown is another one
    unless the two are the same. *)
Lemma conflict_path_follows_cwd :
  let conflict := PatchFreshnessConflictError "a.ts" (Some "x") (Some "y") hs_file 0 1 in
  fileToolFailure "/p" (approving []) conflict = ft_freshness "a.ts" fs_stale "disk content changed before commit" /\
  fileToolFailure "/home" (approving []) conflict = ft_freshness "/home/a.ts" fs_stale "disk content changed before commit".
Proof. split; vm_compute; reflexivity. Qed.

(** Creating a file, rolling the creation back, and asking again: the ledger
    still holds the write, and the file cannot be created any more. *)
Definition create_and_roll_back : Run :=
  (rollback_transaction id_hash "/" (fun _ w => w) (approving []) "txn_1"
     (write_file id_hash id_hash "/" (fun _ w => w) no_drift no_reader no_ripple
        (approving [("/p/n.ts", (None, None))]) 1 "txn_1" "ptxn_1" "n.ts" "text" (small_run [])).2).2.
Lemma rolled_back_creation_blocked :
  run_files create_and_roll_back !! "/p/n.ts" = None /\
  (validateToolContractFreshness id_hash id_hash "/" "/p" 2 sr_fresh_full_baseline_if_existing ["path"]
     (fun _ => Throw ENOENT) (fun _ => mkAnswers (Throw ENOENT) (Throw ENOENT) (Throw ENOENT) (Throw ENOENT))
     (Json.JObj [("path", Json.JStr "n.ts")]) (rf_ledger (rn_fileState create_and_roll_back))).1 =
  refused "n.ts" fs_deleted "file is missing on disk".
Proof. split; vm_compute; reflexivity. Qed.
