(* ===== verification/ApplyPatch.v ===== *)
(** The patch tools.

    Models [src/src/tools/apply-patch.ts]: reading a unified diff, applying its
    hunks, one diff ([apply_patch]) and a set of diffs ([apply_patch_transaction])
    with the keys of the sets already committed.  Files are those of the
    workspace under their normal paths; a read decodes UTF-8 (the parameter
    [utf8]).  Directories, links, failures of the file system and the temporary
    file that is renamed over the target are not represented, and no other
    process writes; numbers in hunk headers are read exactly. *)
From Stdlib Require Import Ascii.
From S2P Require Import Prelude Paths PathPattern ToolPolicy Transaction PatchTx.
Open Scope Z_scope.
Open Scope list_scope.

Definition newline : ascii := "010"%char.
Definition lines_of (text : string) : list string := split_on newline text.
Definition text_of (lines : list string) : string := js_join (String newline "") lines.

(** ** Reading a diff *)

(** src/src/tools/apply-patch.ts # ParsedHunk @30-30 *)
Inductive LineType := lt_context | lt_add | lt_remove.
#[export] Instance line_type_eq_dec : EqDecision LineType.
Proof. solve_decision. Defined.
Definition HunkLine : Type := LineType * string.

(** src/src/tools/apply-patch.ts # ParsedHunk *)
Record ParsedHunk := mkHunk {
  hk_oldStart : Z; hk_oldLines : Z; hk_newStart : Z; hk_newLines : Z; hk_lines : list HunkLine }.

(** src/src/tools/apply-patch.ts # ParsedFilePatch

    The hash of a patch of its own is never set. *)
Record ParsedFilePatch := mkFilePatch { fp_path : string; fp_hunks : list ParsedHunk }.

Inductive DiffError := de_header (line : string) | de_orphan_hunk (line : string) | de_hunk (line : string).

(** src/src/tools/apply-patch.ts # ParsedDiff *)
Record ParsedDiff := mkDiff { df_files : list ParsedFilePatch; df_errors : list DiffError }.

(** [line.replace(/\r$/, "")] *)
Fixpoint chomp (line : string) : string :=
  match line with
  | EmptyString => EmptyString
  | String "013" EmptyString => EmptyString
  | String c line => String c (chomp line)
  end.

Definition starts_space (s : string) : bool := match s with String c _ => is_space c | EmptyString => false end.
Definition last_char (s : string) : option ascii := last (String.list_ascii_of_string s).

(** src/src/tools/apply-patch.ts # HEADER_RE

    The path of a [+++] line.  Of white space alone the last character is the
    path, if there is one more and it is no line end. *)
Definition header_path (line : string) : option string :=
  match after_prefix "+++" line with
  | None => None
  | Some rest =>
      if negb (starts_space rest) then None
      else
        let path := trim_start rest in
        if path === "" then
          match rest, last_char rest with
          | String _ (String _ _), Some c => if c === "013"%char then None else Some (String c "")
          | _, _ => None
          end
        else if has_char "013"%char path then None
        else match after_prefix "b/" path with
             | Some (String c short) => Some (String c short)
             | _ => Some path
             end
  end.

Definition digit_value (c : ascii) : option Z :=
  if in_range 48 57 c then Some (Z.of_nat (nat_of_ascii c) - 48) else None.
(** [(\d+)] from the left, greedily. *)
Fixpoint digits_from (acc : option Z) (s : string) : option (Z * string) :=
  match s with
  | String c s' =>
      match digit_value c with
      | Some d => digits_from (Some (10 * default 0 acc + d)) s'
      | None => (fun n => (n, s)) <$> acc
      end
  | EmptyString => (fun n => (n, s)) <$> acc
  end.
(** [(\d+)(?:,(\d+))?]; without the second number it is one. *)
Definition read_range (s : string) : option (Z * Z * string) :=
  '(n, s) ← digits_from None s;
  match after_prefix "," s ≫= digits_from None with
  | Some (m, s) => Some (n, m, s)
  | None => Some (n, 1, s)
  end.

(** src/src/tools/apply-patch.ts # HUNK_RE *)
Definition hunk_header (line : string) : option (Z * Z * Z * Z) :=
  s ← after_prefix "@@ -" line;
  '(oldStart, oldLines, s) ← read_range s;
  s ← after_prefix " +" s;
  '(newStart, newLines, s) ← read_range s;
  _ ← after_prefix " @@" s;
  Some (oldStart, oldLines, newStart, newLines).

(** What is open while a diff is read: whether there is a current file and a
    current hunk.  The current file is the last one and the current hunk its last
    hunk. *)
Record Parser := mkParser {
  ps_files : list ParsedFilePatch; ps_errors : list DiffError; ps_current : bool; ps_hunk : bool }.

Fixpoint alter_last {A} (f : A -> A) (l : list A) : list A :=
  match l with [] => [] | [x] => [f x] | x :: l => x :: alter_last f l end.
Definition push_hunk (h : ParsedHunk) (p : ParsedFilePatch) : ParsedFilePatch := mkFilePatch (fp_path p) (fp_hunks p ++ [h]).
Definition push_line (l : HunkLine) (h : ParsedHunk) : ParsedHunk :=
  mkHunk (hk_oldStart h) (hk_oldLines h) (hk_newStart h) (hk_newLines h) (hk_lines h ++ [l]).
Definition push_file_line (l : HunkLine) (p : ParsedFilePatch) : ParsedFilePatch :=
  mkFilePatch (fp_path p) (alter_last (push_line l) (fp_hunks p)).

Definition tail_of (line : string) : string := match line with String _ s => s | EmptyString => EmptyString end.
Definition body_line (line : string) : HunkLine :=
  if startsWith line "+" then (lt_add, tail_of line)
  else if startsWith line "-" then (lt_remove, tail_of line)
  else (lt_context, tail_of line).

(** src/src/tools/apply-patch.ts # parseUnifiedDiff @58-98

    One line of the diff. *)
Definition parse_line (s : Parser) (rawLine : string) : Parser :=
  let line := chomp rawLine in
  if startsWith line "+++" then
    match header_path line with
    | None => mkParser (ps_files s) (ps_errors s ++ [de_header line]) false (ps_hunk s)
    | Some path => mkParser (ps_files s ++ [mkFilePatch path []]) (ps_errors s) true false
    end
  else if startsWith line "---" then s
  else if startsWith line "@@" then
    if negb (ps_current s) then mkParser (ps_files s) (ps_errors s ++ [de_orphan_hunk line]) (ps_current s) (ps_hunk s)
    else match hunk_header line with
         | None => mkParser (ps_files s) (ps_errors s ++ [de_hunk line]) (ps_current s) false
         | Some (oldStart, oldLines, newStart, newLines) =>
             mkParser (alter_last (push_hunk (mkHunk oldStart oldLines newStart newLines [])) (ps_files s))
               (ps_errors s) (ps_current s) true
         end
  else if startsWith line "\" then s
  else if ps_hunk s then
    mkParser (alter_last (push_file_line (body_line line)) (ps_files s)) (ps_errors s) (ps_current s) (ps_hunk s)
  else s.

(** src/src/tools/apply-patch.ts # parseUnifiedDiff *)
Definition parseUnifiedDiff (diff : string) : ParsedDiff :=
  let s := fold_left parse_line (lines_of diff) (mkParser [] [] false false) in
  mkDiff (ps_files s) (ps_errors s).

(** ** Applying hunks *)

(** [lines[pos]]; [None] is [undefined]. *)
Definition at_pos (lines : list string) (pos : Z) : option string :=
  if pos <? 0 then None else lines !! Z.to_nat pos.
(** [lines.splice(pos, 0, text)] and [lines.splice(pos, 1)], which count a
    negative position from the end and stop at the ends. *)
Definition splice_at (lines : list string) (pos : Z) : nat :=
  Z.to_nat (if pos <? 0 then Z.max 0 (Z.of_nat (length lines) + pos) else Z.min pos (Z.of_nat (length lines))).
Definition insert_at (lines : list string) (pos : Z) (text : string) : list string :=
  let k := splice_at lines pos in take k lines ++ text :: drop k lines.
Definition delete_at (lines : list string) (pos : Z) : list string :=
  let k := splice_at lines pos in take k lines ++ drop (S k) lines.

(** src/src/tools/apply-patch.ts # applyHunk @109-120 *)
Fixpoint apply_lines (entries : list HunkLine) (pos : Z) (lines : list string) : option (list string) :=
  match entries with
  | [] => Some lines
  | (lt_remove, text) :: entries =>
      if at_pos lines pos === Some text then apply_lines entries pos (delete_at lines pos) else None
  | (lt_context, text) :: entries =>
      if at_pos lines pos === Some text then apply_lines entries (pos + 1) lines else None
  | (lt_add, text) :: entries => apply_lines entries (pos + 1) (insert_at lines pos text)
  end.

(** src/src/tools/apply-patch.ts # applyHunk *)
Definition applyHunk (content : string) (hunk : ParsedHunk) : option string :=
  text_of <$> apply_lines (hk_lines hunk) (hk_oldStart hunk - 1) (lines_of content).

(** ** Files *)

(** src/src/tools/apply-patch.ts # ApplyFileResult *)
Inductive ApplyFileError := ae_outside | ae_hash (path : string) | ae_hunk (oldStart : Z).
(** src/src/tools/apply-patch.ts # ApplyFileResult *)
Record ApplyFileResult := mkFileResult {
  fr_path : string; fr_additions : nat; fr_deletions : nat; fr_error : option ApplyFileError }.
Definition fr_applied (r : ApplyFileResult) : bool := match fr_error r with None => true | Some _ => false end.

(** src/src/tools/apply-patch.ts # ApplyPatchResult *)
Record ApplyPatchResult := mkPatchResult {
  apr_files : list ApplyFileResult; apr_totalAdditions : nat; apr_totalDeletions : nat; apr_dryRun : bool;
  apr_errors : list DiffError }.

Definition of_type (t : LineType) (h : ParsedHunk) : list string :=
  map snd (filter (fun l => fst l = t) (hk_lines h)).

(** The hash a caller declares for a path.  The table is a plain object: a name
    its prototype has yields a function, which equals no hash. *)
Inductive DeclaredHash := dh_hash (h : string) | dh_inherited.
Definition PROTOTYPE_NAMES : list string :=
  ["constructor"; "toString"; "toLocaleString"; "valueOf"; "hasOwnProperty"; "isPrototypeOf"; "propertyIsEnumerable";
   "__proto__"; "__defineGetter__"; "__defineSetter__"; "__lookupGetter__"; "__lookupSetter__"].
Definition declared_for (hashes : option (list (string * string))) (path : string) : option DeclaredHash :=
  match hashes with
  | None => None
  | Some hashes =>
      match jget path hashes with
      | Some h => Some (dh_hash h)
      | None => if includes PROTOTYPE_NAMES path then Some dh_inherited else None
      end
  end.

Section tools.
Context (utf8 sha256 : string -> string) (cwd : string).

(** Where a path of a diff leads, in normal form. *)
Definition target_of (projectRoot path : string) : string :=
  if isAbsolute path then path_normalize path else path_join projectRoot path.

(** The hunks in order: the content and the counts, or where they stopped. *)
Fixpoint apply_hunks (hunks : list ParsedHunk) (content : string) (additions deletions : nat)
  : string * nat * nat + Z * nat * nat :=
  match hunks with
  | [] => inl (content, additions, deletions)
  | h :: hunks =>
      match applyHunk content h with
      | None => inr (hk_oldStart h, additions, deletions)
      | Some content =>
          apply_hunks hunks content (additions + length (of_type lt_add h)) (deletions + length (of_type lt_remove h))
      end
  end.

(** src/src/tools/apply-patch.ts # applyParsedFilePatch

    The result and the files it leaves. *)
Definition applyParsedFilePatch (patch : ParsedFilePatch) (projectRoot : string) (dryRun : bool)
    (expectedBaseHash : option DeclaredHash) (files : Files) : ApplyFileResult * Files :=
  let target := target_of projectRoot (fp_path patch) in
  let failed additions deletions e := (mkFileResult (fp_path patch) additions deletions (Some e), files) in
  let write content := if dryRun then files else <[target := content]> files in
  if negb (checkWritablePath cwd (fp_path patch) projectRoot None) then failed 0%nat 0%nat ae_outside
  else
    match files !! target with
    | None =>
        let content := flat_map (of_type lt_add) (fp_hunks patch) in
        (mkFileResult (fp_path patch) (length content) 0 None, write (text_of content))
    | Some raw =>
        if match expectedBaseHash with
           | None => false
           | Some (dh_hash h) => negb (h === "") && negb (computeBaseHash sha256 (utf8 raw) === h)
           | Some dh_inherited => true
           end then failed 0%nat 0%nat (ae_hash (fp_path patch))
        else match apply_hunks (fp_hunks patch) (utf8 raw) 0 0 with
             | inl (content, additions, deletions) =>
                 (mkFileResult (fp_path patch) additions deletions None, write content)
             | inr (oldStart, additions, deletions) => failed additions deletions (ae_hunk oldStart)
             end
    end.

(** The patches of a diff in order. *)
Fixpoint apply_files (patches : list ParsedFilePatch) (projectRoot : string) (dryRun : bool)
    (hashes : option (list (string * string))) (files : Files) : list ApplyFileResult * Files :=
  match patches with
  | [] => ([], files)
  | p :: patches =>
      let '(r, files) := applyParsedFilePatch p projectRoot dryRun (declared_for hashes (fp_path p)) files in
      let '(rs, files) := apply_files patches projectRoot dryRun hashes files in
      (r :: rs, files)
  end.

(** src/src/tools/apply-patch.ts # applyDiffString *)
Definition applyDiffString (diff projectRoot : string) (dryRun : bool) (hashes : option (list (string * string)))
    (files : Files) : ApplyPatchResult * Files :=
  let parsed := parseUnifiedDiff diff in
  let '(rs, files) := apply_files (df_files parsed) projectRoot dryRun hashes files in
  (mkPatchResult rs (sum_list (fr_additions <$> rs)) (sum_list (fr_deletions <$> rs)) dryRun (df_errors parsed), files).

(** ** The tools *)

(** The result of a tool, without its texts. *)
Inductive ToolOutcome :=
| to_blocked | to_failed (failures : list ApplyFileResult) (errors : list DiffError)
| to_ok (files : list ApplyFileResult) (additions deletions : nat) | to_replay.

(** The workspace, and the keys committed in this process. *)
Record PatchState := mkState { pst_files : Files; pst_keys : gset string }.

(** [baseHash ? { "*": baseHash } : undefined] *)
Definition star_hash (baseHash : option string) : option (list (string * string)) :=
  match baseHash with Some (String _ _ as h) => Some [("*", h)] | _ => None end.
Definition failures_of (rs : list ApplyFileResult) : list ApplyFileResult := filter (fun r => fr_applied r = false) rs.

(** src/src/tools/apply-patch.ts # executeApplyPatch *)
Definition executeApplyPatch (diff : string) (baseHash : option string) (dryRun : bool) (projectRoot : option string)
    (s : PatchState) : ToolOutcome * PatchState :=
  match projectRoot with
  | None | Some EmptyString => (to_blocked, s)
  | Some root =>
      let '(out, files) := applyDiffString diff root dryRun (star_hash baseHash) (pst_files s) in
      let s := mkState files (pst_keys s) in
      match failures_of (apr_files out) with
      | [] => (to_ok (apr_files out) (apr_totalAdditions out) (apr_totalDeletions out), s)
      | failures => (to_failed failures [], s)
      end
  end.

(** One diff of a transaction with the hash declared for it. *)
Definition TxPatch : Type := string * option string.

(** The dry runs of the first phase, each on the files as they are. *)
Definition validate_all (patches : list TxPatch) (root : string) (files : Files) : list ApplyPatchResult :=
  map (fun '(diff, baseHash) => fst (applyDiffString diff root true (star_hash baseHash) files)) patches.

(** The commits of the second phase, up to the first that does not apply. *)
Fixpoint commit_all (patches : list TxPatch) (root : string) (files : Files)
  : (list ApplyPatchResult + list ApplyFileResult) * Files :=
  match patches with
  | [] => (inl [], files)
  | (diff, baseHash) :: patches =>
      let '(out, files) := applyDiffString diff root false (star_hash baseHash) files in
      match failures_of (apr_files out) with
      | [] =>
          let '(rest, files) := commit_all patches root files in
          (match rest with inl outs => inl (out :: outs) | inr failures => inr failures end, files)
      | failures => (inr failures, files)
      end
  end.

Definition mark_key (key : option string) (keys : gset string) : gset string :=
  match key with Some (String _ _ as k) => {[k]} ∪ keys | _ => keys end.

(** src/src/tools/apply-patch.ts # executeApplyPatchTransaction *)
Definition executeApplyPatchTransaction (patches : list TxPatch) (idempotencyKey : option string) (dryRun : bool)
    (projectRoot : option string) (s : PatchState) : ToolOutcome * PatchState :=
  match projectRoot with
  | None | Some EmptyString => (to_blocked, s)
  | Some root =>
      if match idempotencyKey with Some (String _ _ as k) => bool_decide (k ∈ pst_keys s) | _ => false end
      then (to_replay, s)
      else
        let validated := validate_all patches root (pst_files s) in
        match flat_map (fun v => failures_of (apr_files v)) validated, flat_map apr_errors validated with
        | [], [] =>
            let ok outs files :=
              (to_ok (flat_map apr_files outs) (sum_list (apr_totalAdditions <$> outs)) (sum_list (apr_totalDeletions <$> outs)),
               mkState files (mark_key idempotencyKey (pst_keys s))) in
            if dryRun then ok validated (pst_files s)
            else match commit_all patches root (pst_files s) with
                 | (inl outs, files) => ok outs files
                 | (inr failures, files) => (to_failed failures [], mkState files (pst_keys s))
                 end
        | failures, errors => (to_failed failures errors, s)
        end
  end.
End tools.

(** ** What a hunk does *)

Definition old_of (entries : list HunkLine) : list string := map snd (filter (fun l => fst l <> lt_add) entries).
Definition new_of (entries : list HunkLine) : list string := map snd (filter (fun l => fst l <> lt_remove) entries).

Lemma at_pos_app pre rest : at_pos (pre ++ rest) (Z.of_nat (length pre)) = head rest.
Proof.
  unfold at_pos. rewrite (proj2 (Z.ltb_ge _ _)), Nat2Z.id, lookup_app_r, Nat.sub_diag by lia. by destruct rest.
Qed.

Lemma splice_at_app pre rest : splice_at (pre ++ rest) (Z.of_nat (length pre)) = length pre.
Proof. unfold splice_at. rewrite (proj2 (Z.ltb_ge _ _)), length_app by lia. lia. Qed.

Lemma insert_at_app pre rest text : insert_at (pre ++ rest) (Z.of_nat (length pre)) text = pre ++ text :: rest.
Proof. unfold insert_at. by rewrite splice_at_app, take_app_length, drop_app_length. Qed.

Lemma delete_at_app pre x rest : delete_at (pre ++ x :: rest) (Z.of_nat (length pre)) = pre ++ rest.
Proof.
  unfold delete_at. rewrite splice_at_app, take_app_length. change (S (length pre)) with (1 + length pre)%nat.
  rewrite Nat.add_comm, drop_app_add'; done.
Qed.

Lemma apply_lines_iff entries : forall pre rest out,
  apply_lines entries (Z.of_nat (length pre)) (pre ++ rest) = Some out <->
  exists post, rest = old_of entries ++ post /\ out = pre ++ new_of entries ++ post.
Proof.
  induction entries as [|[t text] entries IH]; intros pre rest out.
  { cbn. split; [intros [= <-]; by eexists|by intros (post & -> & ->)]. }
  assert (forall x, Z.of_nat (length pre) + 1 = Z.of_nat (length (pre ++ [x]))) as Hlen
    by (intros x; rewrite length_app; cbn; lia).
  destruct t; cbn [apply_lines].
  - rewrite at_pos_app, (Hlen text). destruct rest as [|x rest]; cbn [head].
    { split; [done|]. by intros (post & ? & _). }
    destruct (Some x === Some text) eqn:E; reflect.
    + injection E as ->. replace (pre ++ text :: rest) with ((pre ++ [text]) ++ rest) by by rewrite <- app_assoc.
      rewrite IH. unfold old_of, new_of. rewrite !filter_cons_True by done. cbn. setoid_rewrite <- app_assoc. cbn.
      split; intros (post & H1 & ->); exists post; [by rewrite H1|by injection H1 as ->].
    + split; [done|]. intros (post & H & _). unfold old_of in H. rewrite filter_cons_True in H by done. cbn in H.
      congruence.
  - rewrite insert_at_app, (Hlen text). replace (pre ++ text :: rest) with ((pre ++ [text]) ++ rest) by by rewrite <- app_assoc.
    rewrite IH. unfold old_of, new_of. rewrite filter_cons_False, filter_cons_True by naive_solver. cbn.
    by setoid_rewrite <- app_assoc.
  - rewrite at_pos_app. destruct rest as [|x rest]; cbn [head].
    { split; [done|]. by intros (post & ? & _). }
    destruct (Some x === Some text) eqn:E; reflect.
    + injection E as ->. rewrite delete_at_app, IH. unfold old_of, new_of.
      rewrite filter_cons_True, filter_cons_False by naive_solver. cbn.
      split; intros (post & H1 & ->); exists post; [by rewrite H1|by injection H1 as ->].
    + split; [done|]. intros (post & H & _). unfold old_of in H. rewrite filter_cons_True in H by done. cbn in H.
      congruence.
Qed.

(** A hunk that starts within the file applies exactly when the lines it
    expects, its context and what it removes, in order and without a gap, are the
    lines of the file from its start on; the result is the file with these lines
    replaced by the context and what it adds, in order, and every line before and
    after untouched. *)
Theorem hunk_applies_exactly content h content' :
  1 <= hk_oldStart h <= Z.of_nat (length (lines_of content)) + 1 ->
  applyHunk content h = Some content' <->
  exists pre post, lines_of content = pre ++ old_of (hk_lines h) ++ post /\
    Z.of_nat (length pre) = hk_oldStart h - 1 /\ content' = text_of (pre ++ new_of (hk_lines h) ++ post).
Proof.
  intros Hs. unfold applyHunk. set (k := Z.to_nat (hk_oldStart h - 1)).
  assert (hk_oldStart h - 1 = Z.of_nat (length (take k (lines_of content)))) as Hk by (rewrite length_take; lia).
  rewrite fmap_Some. split.
  - intros (out & H & ->). rewrite Hk in H. rewrite <- (take_drop k (lines_of content)) in H at 2.
    apply apply_lines_iff in H as (post & H & ->). exists (take k (lines_of content)), post.
    split_and!; [|lia|done]. by rewrite <- H, take_drop.
  - intros (pre & post & H & Hp & ->). exists (pre ++ new_of (hk_lines h) ++ post). split; [|done].
    rewrite H, <- Hp. apply apply_lines_iff. by exists post.
Qed.

(** ** What the tools do *)

Section transactions.
Context (utf8 sha256 : string -> string) (cwd root : string).

(** A file patch with the hash declared for its path. *)
Definition Job : Type := ParsedFilePatch * option DeclaredHash.
Definition jobs_of (p : TxPatch) : list Job :=
  map (fun fp => (fp, declared_for (star_hash p.2) (fp_path fp))) (df_files (parseUnifiedDiff p.1)).
Definition job_target (j : Job) : string := target_of root (fp_path j.1).

(** What the file of a patch is to contain, when it applies: the added lines of a
    new file; otherwise what the hunks make of the file, if its hash is not
    denied. *)
Definition job_content (files : Files) (j : Job) : option string :=
  if negb (checkWritablePath cwd (fp_path j.1) root None) then None
  else match files !! job_target j with
       | None => Some (text_of (flat_map (of_type lt_add) (fp_hunks j.1)))
       | Some raw =>
           if match j.2 with
              | None => false
              | Some (dh_hash h) => negb (h === "") && negb (computeBaseHash sha256 (utf8 raw) === h)
              | Some dh_inherited => true
              end then None
           else match apply_hunks (fp_hunks j.1) (utf8 raw) 0 0 with inl (content, _, _) => Some content | inr _ => None end
       end.

Definition run_job (dryRun : bool) (files : Files) (j : Job) : ApplyFileResult * Files :=
  applyParsedFilePatch utf8 sha256 cwd j.1 root dryRun j.2 files.

(** A patch writes the content of its target, unless it is a dry run, and nothing else. *)
Lemma run_job_spec dryRun files j :
  fr_applied (run_job dryRun files j).1 = match job_content files j with Some _ => true | None => false end /\
  (run_job dryRun files j).2 =
    match job_content files j with
    | Some content => if dryRun then files else <[job_target j := content]> files
    | None => files
    end.
Proof.
  unfold run_job, applyParsedFilePatch, job_content, job_target.
  destruct (negb (checkWritablePath _ _ _ _)); [done|].
  destruct (files !! _) as [raw|]; [|done]. destruct (match j.2 with Some _ => _ | None => _ end); [done|].
  by destruct (apply_hunks _ _ _ _) as [[[c a] d]|[[o a] d]].
Qed.

Lemma job_content_local files files' j :
  files !! job_target j = files' !! job_target j -> job_content files j = job_content files' j.
Proof. unfold job_content. by intros ->. Qed.

(** ** One diff *)

Fixpoint run_jobs (dryRun : bool) (jobs : list Job) (files : Files) : list ApplyFileResult * Files :=
  match jobs with
  | [] => ([], files)
  | j :: jobs =>
      let '(r, files) := run_job dryRun files j in
      let '(rs, files) := run_jobs dryRun jobs files in (r :: rs, files)
  end.

Lemma diff_jobs (p : TxPatch) dryRun files :
  apply_files utf8 sha256 cwd (df_files (parseUnifiedDiff p.1)) root dryRun (star_hash p.2) files =
  run_jobs dryRun (jobs_of p) files.
Proof.
  unfold jobs_of. revert files. induction (df_files (parseUnifiedDiff p.1)) as [|fp fps IH]; intros files; [done|].
  cbn [apply_files map run_jobs]. unfold run_job at 1. cbn [fst snd].
  destruct (applyParsedFilePatch _ _ _ _ _ _ _ _) as [r files']. by rewrite IH.
Qed.

(** A set of patches is ready when each applies to the files as they are. *)
Definition ready (jobs : list Job) (files : Files) : Prop := forall j, j ∈ jobs -> job_content files j <> None.

Lemma dry_jobs jobs files :
  (run_jobs true jobs files).2 = files /\ (failures_of (run_jobs true jobs files).1 = [] <-> ready jobs files).
Proof.
  induction jobs as [|j jobs [IH1 IH2]]; cbn [run_jobs].
  { split; [done|]. split; [|done]. by intros _ j ?%not_elem_of_nil. }
  destruct (run_job_spec true files j) as [H1 H2]. destruct (run_job true files j) as [r files']. cbn [fst snd] in *.
  assert (files' = files) as -> by (rewrite H2; by destruct (job_content files j)).
  destruct (run_jobs true jobs files) as [rs files'']. cbn [fst snd] in *. split; [done|].
  unfold failures_of in *. destruct (job_content files j) as [c|] eqn:Ec.
  - rewrite filter_cons_False by (rewrite H1; done). rewrite IH2. unfold ready. split; intros H j' Hj.
    + apply elem_of_cons in Hj as [->|Hj]; [by rewrite Ec|by apply H].
    + apply H. by right.
  - rewrite filter_cons_True by done. split; [done|]. intros H. exfalso. by apply (H j); [left|].
Qed.

(** What a ready set of patches with targets of their own does. *)
Record committed (jobs : list Job) (files files' : Files) : Prop := {
  cm_done : forall j, j ∈ jobs -> files' !! job_target j = job_content files j;
  cm_other : forall path, (forall j, j ∈ jobs -> job_target j <> path) -> files' !! path = files !! path }.

Lemma ready_insert jobs j files c :
  (forall j', j' ∈ jobs -> job_target j' <> job_target j) -> ready jobs files -> ready jobs (<[job_target j := c]> files).
Proof.
  intros Hd Hr j' Hj'. rewrite (job_content_local _ files); [by apply Hr|]. apply lookup_insert_ne. naive_solver.
Qed.

Lemma commit_jobs jobs : forall files, NoDup (job_target <$> jobs) -> ready jobs files ->
  failures_of (run_jobs false jobs files).1 = [] /\ committed jobs files (run_jobs false jobs files).2.
Proof.
  induction jobs as [|j jobs IH]; intros files Hd Hr; cbn [run_jobs].
  { split; [done|]. split; [by intros j ?%not_elem_of_nil|done]. }
  apply NoDup_cons in Hd as [Hj Hd].
  assert (forall j', j' ∈ jobs -> job_target j' <> job_target j) as Hne.
  { intros j' Hj' E. apply Hj. rewrite <- E. apply list_elem_of_fmap. by exists j'. }
  destruct (run_job_spec false files j) as [H1 H2]. destruct (run_job false files j) as [r files']. cbn [fst snd] in *.
  destruct (job_content files j) as [c|] eqn:Ec; [|by destruct (Hr j); [left|]]. subst files'.
  destruct (IH (<[job_target j := c]> files) Hd) as [Hf [Hc Ho]].
  { apply ready_insert; [done|]. intros j' Hj'. apply Hr. by right. }
  destruct (run_jobs false jobs _) as [rs files'']. cbn [fst snd] in *. split.
  { unfold failures_of in *. by rewrite filter_cons_False by (rewrite H1; done). }
  split.
  - intros j' [->|Hj']%elem_of_cons.
    + rewrite Ho by done. by rewrite Ec, lookup_insert_eq.
    + rewrite Hc by done. apply job_content_local. apply lookup_insert_ne. naive_solver.
  - intros path Hp. rewrite Ho by (intros j' Hj'; apply Hp; by right). apply lookup_insert_ne. apply Hp. by left.
Qed.

(** ** Sets of diffs *)

Definition all_jobs (patches : list TxPatch) : list Job := patches ≫= jobs_of.

Lemma validate_failures patches files :
  flat_map (fun v => failures_of (apr_files v)) (validate_all utf8 sha256 cwd patches root files) = [] <->
  ready (all_jobs patches) files.
Proof.
  unfold validate_all, all_jobs. induction patches as [|[diff h] patches IH]; cbn.
  { split; [|done]. by intros _ j ?%not_elem_of_nil. }
  unfold applyDiffString at 1. change diff with (fst (diff, h)) at 1 2. change h with (snd (diff, h)) at 2.
  rewrite diff_jobs. pose proof (proj2 (dry_jobs (jobs_of (diff, h)) files)) as Hd.
  destruct (run_jobs true _ _) as [rs files']. cbn [fst snd apr_files] in *.
  rewrite app_nil, Hd, IH. unfold ready. setoid_rewrite elem_of_app. naive_solver.
Qed.

Lemma ready_app jobs1 jobs2 files : ready (jobs1 ++ jobs2) files <-> ready jobs1 files /\ ready jobs2 files.
Proof. unfold ready. setoid_rewrite elem_of_app. naive_solver. Qed.

Lemma ready_committed (jobs1 jobs2 : list Job) files files' :
  (forall j1 j2, j1 ∈ jobs1 -> j2 ∈ jobs2 -> job_target j1 <> job_target j2) ->
  committed jobs1 files files' -> forall j, j ∈ jobs2 -> job_content files' j = job_content files j.
Proof. intros Hd [_ Ho] j Hj. apply job_content_local, Ho. naive_solver. Qed.

Lemma commit_patches patches : forall files,
  NoDup (job_target <$> all_jobs patches) -> ready (all_jobs patches) files ->
  exists outs files', commit_all utf8 sha256 cwd patches root files = (inl outs, files') /\
    committed (all_jobs patches) files files'.
Proof.
  induction patches as [|[diff h] patches IH]; intros files Hd Hr; cbn [commit_all].
  { exists [], files. split; [done|]. split; [by intros j ?%not_elem_of_nil|done]. }
  change (all_jobs ((diff, h) :: patches)) with (jobs_of (diff, h) ++ all_jobs patches) in *.
  rewrite fmap_app in Hd. apply NoDup_app in Hd as (Hd1 & Hd12 & Hd2). apply ready_app in Hr as [Hr1 Hr2].
  assert (forall j1 j2, j1 ∈ jobs_of (diff, h) -> j2 ∈ all_jobs patches -> job_target j1 <> job_target j2) as Hne.
  { intros j1 j2 H1 H2 E. apply (Hd12 (job_target j1)); [apply list_elem_of_fmap; by exists j1|].
    rewrite E. apply list_elem_of_fmap. by exists j2. }
  unfold applyDiffString at 1. change diff with (fst (diff, h)) at 1 2. change h with (snd (diff, h)) at 2.
  rewrite diff_jobs. destruct (commit_jobs (jobs_of (diff, h)) files Hd1 Hr1) as [Hf Hc].
  destruct (run_jobs false _ _) as [rs files1]. cbn [fst snd apr_files] in *. rewrite Hf.
  pose proof (ready_committed _ _ _ _ Hne Hc) as Hsame.
  destruct (IH files1 Hd2) as (outs & files' & -> & Hc').
  { intros j Hj. rewrite Hsame by done. by apply Hr2. }
  eexists _, files'. split; [done|]. split.
  - intros j [Hj|Hj]%elem_of_app.
    + rewrite (cm_other _ _ _ Hc') by naive_solver. by apply Hc.
    + rewrite (cm_done _ _ _ Hc') by done. by apply Hsame.
  - intros path Hp. rewrite (cm_other _ _ _ Hc'), (cm_other _ _ _ Hc); [done| |]; intros j Hj; apply Hp;
      apply elem_of_app; auto.
Qed.

(** A patch transaction whose file patches have targets of their own is all or
    nothing: if every diff is well formed and every patch applies to the files as
    they are, it succeeds, each target holds exactly what its patch makes of it,
    no other file changes, and the key is remembered, so that the same key
    afterwards changes nothing; if one line is malformed, or one path, hash or
    hunk does not fit, it fails and no file and no key is touched. *)
Theorem transaction_all_or_nothing patches key s :
  root <> "" -> NoDup (job_target <$> all_jobs patches) -> (forall k, key = Some k -> k ∉ pst_keys s) ->
  let '(out, s') := executeApplyPatchTransaction utf8 sha256 cwd patches key false (Some root) s in
  (ready (all_jobs patches) (pst_files s) /\ (forall p, p ∈ patches -> df_errors (parseUnifiedDiff p.1) = []) ->
    (exists rs additions deletions, out = to_ok rs additions deletions) /\
    committed (all_jobs patches) (pst_files s) (pst_files s') /\
    pst_keys s' = mark_key key (pst_keys s)) /\
  (~ (ready (all_jobs patches) (pst_files s) /\ (forall p, p ∈ patches -> df_errors (parseUnifiedDiff p.1) = [])) ->
    s' = s /\ exists failures errors, out = to_failed failures errors).
Proof.
  intros Hroot Hd Hk. unfold executeApplyPatchTransaction. destruct root as [|c0 root0] eqn:Eroot; [done|]. rewrite <- Eroot in *.
  assert (match key with Some (String _ _ as k) => bool_decide (k ∈ pst_keys s) | _ => false end = false) as ->.
  { destruct key as [[|c k]|]; [done| |done]. apply bool_decide_eq_false. by apply Hk. }
  cbv zeta. pose proof (validate_failures patches (pst_files s)) as Hv.
  assert (flat_map apr_errors (validate_all utf8 sha256 cwd patches root (pst_files s)) = [] <->
          forall p, p ∈ patches -> df_errors (parseUnifiedDiff p.1) = []) as He.
  { unfold validate_all. clear -root. induction patches as [|[diff h] patches IH]; cbn.
    { split; [|done]. by intros _ p ?%not_elem_of_nil. }
    unfold applyDiffString at 1. destruct (apply_files _ _ _ _ _ _ _ _) as [rs files]. cbn [fst apr_errors].
    rewrite app_nil, IH. setoid_rewrite elem_of_cons. naive_solver. }
  destruct (flat_map (fun v => failures_of (apr_files v)) _) as [|f fs] eqn:Ef.
  2: { split; [|by eauto]. intros [H _]. by apply Hv in H. }
  destruct (flat_map apr_errors _) as [|e es] eqn:Ee.
  2: { split; [|by eauto]. intros [_ H]. by apply He in H. }
  assert (ready (all_jobs patches) (pst_files s)) as Hr by by apply Hv.
  destruct (commit_patches patches (pst_files s) Hd Hr) as (outs & files' & -> & Hc).
  split; [by eauto 10|]. intros []. split; [done|]. by apply He.
Qed.
End transactions.

(** ** Witnesses *)

Definition demo_hunk : ParsedHunk := mkHunk 2 2 2 2 [(lt_context, "b"); (lt_remove, "c"); (lt_add, "C")].
Lemma hunk_applies_exactly_witness :
  1 <= hk_oldStart demo_hunk <= Z.of_nat (length (lines_of (text_of ["a"; "b"; "c"; "d"]))) + 1 /\
  applyHunk (text_of ["a"; "b"; "c"; "d"]) demo_hunk = Some (text_of ["a"; "b"; "C"; "d"]).
Proof.
  assert (1 <= hk_oldStart demo_hunk <= Z.of_nat (length (lines_of (text_of ["a"; "b"; "c"; "d"]))) + 1) as H.
  { split; apply Z.leb_le; vm_compute; reflexivity. }
  split; [exact H|]. apply (hunk_applies_exactly _ demo_hunk _ H). exists ["a"], ["d"].
  split; [vm_compute; reflexivity|split; vm_compute; reflexivity].
Defined.

Definition demo_files : Files := {["/w/x" := text_of ["a"; "b"]]}.
Definition demo_state : PatchState := mkState demo_files ∅.
Definition edit_x : string := text_of ["--- a/x"; "+++ b/x"; "@@ -1,2 +1,2 @@"; " a"; "-b"; "+c"].
Definition create_y : string := text_of ["--- /dev/null"; "+++ b/y"; "@@ -0,0 +1 @@"; "+new"].
Definition id_string (s : string) : string := s.
Definition demo_patches : list TxPatch := [(edit_x, None); (create_y, None)].

Lemma transaction_all_or_nothing_witness :
  ("/w" : string) <> "" /\ NoDup (job_target "/w" <$> all_jobs demo_patches) /\
  exists rs additions deletions s',
    executeApplyPatchTransaction id_string id_string "/w" demo_patches (Some "k") false (Some "/w") demo_state =
      (to_ok rs additions deletions, s') /\
    pst_files s' !! "/w/x" = Some (text_of ["a"; "c"]) /\ pst_keys s' = {["k"]} ∪ ∅.
Proof.
  assert (("/w" : string) <> "") as H1 by discriminate.
  assert (NoDup (job_target "/w" <$> all_jobs demo_patches)) as H2.
  { apply (bool_decide_unpack _). vm_compute. exact I. }
  split; [exact H1|split; [exact H2|]].
  pose proof (transaction_all_or_nothing id_string id_string "/w" "/w" demo_patches (Some "k") demo_state H1 H2) as H.
  destruct (executeApplyPatchTransaction id_string id_string "/w" demo_patches (Some "k") false (Some "/w") demo_state)
    as [out s'] eqn:E.
  destruct H as [H _]; [intros k _ Hk; by apply elem_of_empty in Hk|].
  destruct H as ((rs & a & d & ->) & [Hc _] & Hk).
  { split.
    - intros j Hj. apply not_eq_None_Some. revert j Hj. apply Forall_forall. apply (bool_decide_unpack _). vm_compute. exact I.
    - apply (proj1 (Forall_forall _ _)). apply (bool_decide_unpack _). vm_compute. exact I. }
  exists rs, a, d, s'. split; [reflexivity|]. split; [|exact Hk].
  destruct (all_jobs demo_patches) as [|j js] eqn:Ej; [discriminate|].
  assert (j ∈ j :: js) as Hj by left. specialize (Hc j Hj).
  vm_compute in Ej. injection Ej as <- <-. etransitivity; [exact Hc|]. vm_compute. reflexivity.
Defined.

(** ** Behaviour worth knowing *)

Abbreviation run_patch diff baseHash := (executeApplyPatch id_string id_string "/w" diff baseHash false (Some "/w")).
Abbreviation run_transaction patches key dryRun :=
  (executeApplyPatchTransaction id_string id_string "/w" patches key dryRun (Some "/w")).
Definition holding (content : list string) : PatchState := mkState {["/w/x" := text_of content]} ∅.
Definition x_diff (body : list string) : string := text_of ("--- a/x" :: "+++ b/x" :: body).

(** The hash a caller declares is looked up under the path but stored under a
    star: it is never compared. *)
Lemma base_hash_ignored utf8 sha256 cwd diff baseHash dryRun root s :
  Forall (fun p => fp_path p <> "*" /\ fp_path p ∉ PROTOTYPE_NAMES) (df_files (parseUnifiedDiff diff)) ->
  executeApplyPatch utf8 sha256 cwd diff baseHash dryRun root s = executeApplyPatch utf8 sha256 cwd diff None dryRun root s.
Proof.
  intros Hp. unfold executeApplyPatch, applyDiffString. destruct root as [[|c r]|]; [done| |done].
  assert (forall files, apply_files utf8 sha256 cwd (df_files (parseUnifiedDiff diff)) (String c r) dryRun (star_hash baseHash) files =
                        apply_files utf8 sha256 cwd (df_files (parseUnifiedDiff diff)) (String c r) dryRun (star_hash None) files) as H.
  { induction Hp as [|p ps [Hs Hn] _ IH]; intros files; [done|]. cbn [apply_files].
    assert (declared_for (star_hash baseHash) (fp_path p) = declared_for (star_hash None) (fp_path p)) as ->.
    { unfold declared_for, star_hash. destruct baseHash as [[|a h]|]; [done| |done]. cbn [jget].
      assert (("*" === fp_path p) = false) as -> by by apply same_neq.
      assert (includes PROTOTYPE_NAMES (fp_path p) = false) as -> by by apply includes_false.
      done. }
    destruct (applyParsedFilePatch _ _ _ _ _ _ _ _) as [x files']. by rewrite IH. }
  by rewrite H.
Qed.

(** A hunk is looked for at its place in the old file although the hunks before it
    have moved the lines. *)
Lemma later_hunk_displaced :
  (run_patch (x_diff ["@@ -1 +1,2 @@"; " a"; "+new"; "@@ -3 +4 @@"; "-c"; "+C"]) None (holding ["a"; "b"; "c"])).1 =
  to_failed [mkFileResult "x" 1 0 (Some (ae_hunk 3))] [].
Proof. by vm_compute. Qed.

(** The end of line that ends a diff is read as one more line of context. *)
Lemma final_newline_refused :
  (run_patch (x_diff ["@@ -1 +1 @@"; "-a"; "+A"; ""]) None (holding ["a"; "b"])).1 =
  to_failed [mkFileResult "x" 0 0 (Some (ae_hunk 1))] [].
Proof. by vm_compute. Qed.

(** A removed line that begins with two dashes is taken for a file header: it
    stays, and the patch succeeds. *)
Lemma dashed_line_kept :
  let '(out, s) := run_patch (x_diff ["@@ -1,2 +1 @@"; " select 1"; "--- note"]) None (holding ["select 1"; "-- note"]) in
  out = to_ok [mkFileResult "x" 0 0 None] 0 0 /\ s = holding ["select 1"; "-- note"].
Proof. by vm_compute. Qed.

(** Lines added to an empty file come in the wrong order. *)
Lemma empty_file_reordered :
  pst_files (run_patch (x_diff ["@@ -0,0 +1,2 @@"; "+one"; "+two"]) None (holding [""])).2 !! "/w/x" =
  Some (text_of ["two"; "one"; ""]).
Proof. by vm_compute. Qed.

(** A text that is no diff is applied successfully. *)
Lemma no_diff_succeeds s : (run_patch "not a diff" None s) = (to_ok [] 0 0, s).
Proof. by destruct s. Qed.

(** A patch of several files stops at none: the files before and after one that
    fails are written. *)
Lemma failed_patch_half_written :
  let '(out, s) := run_patch (text_of [create_y; "+++ b/x"; "@@ -1 +1 @@"; "-z"; "+Z"]) None (holding ["a"]) in
  out = to_failed [mkFileResult "x" 0 0 (Some (ae_hunk 1))] [] /\ pst_files s !! "/w/y" = Some "new".
Proof. by vm_compute. Qed.

(** Two diffs of a transaction for the same file are validated one by one on the
    file as it is; the second is refused after the first has been written. *)
Lemma transaction_half_written :
  let '(out, s) := run_transaction
    [(x_diff ["@@ -1 +1 @@"; "-a"; "+A"], None); (x_diff ["@@ -1 +1 @@"; "-a"; "+B"], None)] None false (holding ["a"]) in
  out = to_failed [mkFileResult "x" 0 0 (Some (ae_hunk 1))] [] /\ s = holding ["A"].
Proof. by vm_compute. Qed.

(** A dry run records its key: the transaction itself is then taken for a replay. *)
Lemma dry_run_spends_key :
  let '(_, s) := run_transaction demo_patches (Some "k") true demo_state in
  run_transaction demo_patches (Some "k") false s = (to_replay, s) /\ pst_files s = demo_files.
Proof. by vm_compute. Qed.
