(* ===== verification/Merge.v ===== *)
(** Merging the agents' results.

    Models [src/src/workflow/agents/merge-bundle.ts], [conflict-policy.ts],
    [integration-plan.ts], [merge.ts] and [integration-verifier.ts].  Objects
    keyed by file or by agent are in insertion order; no key is an array index.
    A string is a sequence of 8-bit code units. *)
From S2P Require Import Prelude Json Transaction.
From Stdlib Require Import Ascii.

(** ** Bundles *)

(** src/src/workflow/agents/merge-bundle.ts # AgentResultBundle *)
Record AgentResultBundle := mkBundle {
  b_agentId : string;
  b_outputs : list (string * jsval);
  b_patches : list (string * list string);
  b_evidence : list (string * list string);
  b_files : list (string * list string);
}.

(** src/src/workflow/agents/merge-bundle.ts # collectAgentBundle *)
Definition collectAgentBundle (agentId : string) (outputs : option (list (string * jsval))) (files : list string)
    (readFile : string -> option string) (evidenceByFile : option (list (string * list string)))
    : AgentResultBundle :=
  let fs := uniq files in
  mkBundle agentId (nullish outputs [])
    ((fun f => (f, [nullish (readFile f) ""])) <$> fs)
    ((fun f => (f, nullish (evidenceByFile ≫= jget f) [])) <$> fs)
    ((fun f => (f, [agentId])) <$> fs).

(** src/src/workflow/agents/merge-bundle.ts # combineBundles *)
Definition combineBundles (bundles : list AgentResultBundle) : list AgentResultBundle :=
  jsort (key_before b_agentId) bundles.

(** ** Conflicts *)

(** src/src/workflow/agents/conflict-policy.ts # FileConflict *)
Record FileConflict := mkFileConflict { fc_file : string; fc_agents : list string; fc_patches : list string }.
(** src/src/workflow/agents/conflict-policy.ts # SymbolConflict *)
Record SymbolConflict := mkSymbolConflict { sc_symbol : string; sc_file : string; sc_agents : list string }.
(** src/src/workflow/agents/conflict-policy.ts # ContractConflict *)
Record ContractConflict := mkContractConflict { kc_contract : string; kc_agents : list string }.
(** src/src/workflow/agents/conflict-policy.ts # ConflictSet *)
Record ConflictSet := mkConflictSet {
  fileConflicts : list FileConflict;
  symbolConflicts : list SymbolConflict;
  contractConflicts : list ContractConflict;
}.

(** FNV-1a on 32 bits.  The code's [^=] and [Math.imul] work on signed words
    with the same bits; the base-36 text of the unsigned result names it. *)
Definition fnv_step (hash : Z) (c : ascii) : Z :=
  Z.land (Z.lxor hash (Z.of_nat (nat_of_ascii c)) * 16777619) 4294967295.
Fixpoint fnv (hash : Z) (content : string) : Z :=
  match content with
  | EmptyString => hash
  | String c content => fnv (fnv_step hash c) content
  end.
(** src/src/workflow/agents/conflict-policy.ts # patchKey *)
Definition patchKey (content : string) : Z := fnv 2166136261 content.

(** The writers of every file, files in the order they are met. *)
Definition add_writer (agentId : string) (patches : list string) (file : string)
    (byFile : list (string * list (string * list string))) : list (string * list (string * list string)) :=
  jset file (nullish (jget file byFile) [] ++ [(agentId, patches)]) byFile.
Definition collect_writers (byFile : list (string * list (string * list string))) (b : AgentResultBundle)
    : list (string * list (string * list string)) :=
  fold_left (fun acc kv =>
    if includes kv.2 (b_agentId b)
    then add_writer (b_agentId b) (nullish (jget kv.1 (b_patches b)) []) kv.1 acc
    else acc) (b_files b) byFile.
Definition writersByFile (bundles : list AgentResultBundle) : list (string * list (string * list string)) :=
  fold_left collect_writers bundles [].

Definition file_conflict (file : string) (writersRaw : list (string * list string)) : option FileConflict :=
  if (length writersRaw <? 2)%nat then None
  else
    let writers := jsort (key_before fst) writersRaw in
    let distinct := uniq (patchKey <$> mjoin (snd <$> writers)) in
    if (length distinct =? 1)%nat then None
    else Some (mkFileConflict file (fst <$> writers) (uniq (mjoin (snd <$> writers)))).

(** The declared contracts of a bundle. *)
Definition contracts_of (b : AgentResultBundle) : list string :=
  match jget "contracts" (b_outputs b) with
  | Some (JArr vs) => omap (fun v => match v with JStr s => Some s | _ => None end) vs
  | _ => []
  end.
Definition declare (declared : list (string * list string)) (b : AgentResultBundle) : list (string * list string) :=
  fold_left (fun acc c => jset c (set_add (b_agentId b) (nullish (jget c acc) [])) acc) (contracts_of b) declared.

(** src/src/workflow/agents/conflict-policy.ts # buildConflictSet *)
Definition buildConflictSet (bundles : list AgentResultBundle) : ConflictSet :=
  let files := omap (fun kv => file_conflict kv.1 kv.2) (writersByFile bundles) in
  mkConflictSet files
    ((fun c => mkSymbolConflict (fc_file c) (fc_file c) (fc_agents c)) <$> files)
    (omap (fun kv => if (1 <? length kv.2)%nat
                     then Some (mkContractConflict kv.1 (jsort String.ltb kv.2)) else None)
          (fold_left declare bundles [])).

(** src/src/workflow/agents/conflict-policy.ts # hasConflicts *)
Definition hasConflicts (set : ConflictSet) : bool :=
  (0 <? length (fileConflicts set))%nat || (0 <? length (symbolConflicts set))%nat ||
  (0 <? length (contractConflicts set))%nat.

(** ** The plan *)

(** src/src/workflow/agents/integration-plan.ts # IntegrationPlan *)
Record IntegrationPlan := mkPlan {
  ip_automatic : list string;
  ip_conflictSet : ConflictSet;
  ip_bundles : list AgentResultBundle;
  ip_sourceByFile : list (string * string);
}.

(** The files that are not blocked, each with the first agent that has it. *)
Definition plan_step (blocked : list string) (agent : string) (acc : list (string * string)) (file : string)
    : list (string * string) :=
  if includes blocked file || includes (jkeys acc) file then acc else acc ++ [(file, agent)].
Definition sources (blocked : list string) (bundles : list AgentResultBundle) : list (string * string) :=
  fold_left (fun acc b => fold_left (plan_step blocked (b_agentId b)) (jkeys (b_files b)) acc) bundles [].

(** src/src/workflow/agents/integration-plan.ts # buildIntegrationPlan *)
Definition buildIntegrationPlan (bundles : list AgentResultBundle) : IntegrationPlan :=
  let conflictSet := buildConflictSet bundles in
  let sourceByFile := sources (fc_file <$> fileConflicts conflictSet) bundles in
  mkPlan (jsort String.ltb (jkeys sourceByFile)) conflictSet (combineBundles bundles) sourceByFile.

(** src/src/workflow/agents/integration-plan.ts # planBlocked *)
Definition planBlocked (plan : IntegrationPlan) : bool := hasConflicts (ip_conflictSet plan).

(** ** What the plan decides *)

(** What [collectAgentBundle] produces: the agent writes every file of its
    bundle, with one content. *)
Definition collected (b : AgentResultBundle) : Prop :=
  NoDup (jkeys (b_files b)) /\
  forall f, f ∈ jkeys (b_files b) ->
    jget f (b_files b) = Some [b_agentId b] /\ exists p, jget f (b_patches b) = Some [p].
Definition has_file (f : string) (b : AgentResultBundle) : Prop := f ∈ jkeys (b_files b).
(** The content a bundle has for a file. *)
Definition patch_of (b : AgentResultBundle) (f p : string) : Prop := has_file f b /\ jget f (b_patches b) = Some [p].

Lemma jget_tabulate {V} (g : string -> V) (keys : list string) f :
  jget f ((fun k => (k, g k)) <$> keys) = if includes keys f then Some (g f) else None.
Proof.
  unfold includes. induction keys as [|k keys IH]; [done|]. cbn [fmap list_fmap jget existsb].
  destruct (k === f) eqn:E; [by reflect; subst|done].
Qed.
Lemma jkeys_tabulate {V} (g : string -> V) (keys : list string) : jkeys ((fun k => (k, g k)) <$> keys) = keys.
Proof. unfold jkeys. induction keys as [|k keys IH]; [done|]. by rewrite !fmap_cons, IH. Qed.

Lemma collectAgentBundle_collected agentId outputs files readFile ev :
  collected (collectAgentBundle agentId outputs files readFile ev).
Proof.
  unfold collected, collectAgentBundle. simpl. rewrite jkeys_tabulate. split; [auto with orcana|].
  intros f Hf. rewrite !jget_tabulate, (proj2 (includes_true _ _) Hf). eauto.
Qed.

(** The entry a bundle adds to the writers of a file. *)
Definition writer_entry (f : string) (b : AgentResultBundle) : list (string * list string) :=
  if includes (nullish (jget f (b_files b)) []) (b_agentId b)
  then [(b_agentId b, nullish (jget f (b_patches b)) [])] else [].

Lemma collect_writers_get f b acc :
  NoDup (jkeys (b_files b)) ->
  nullish (jget f (collect_writers acc b)) [] = nullish (jget f acc) [] ++ writer_entry f b.
Proof.
  unfold collect_writers, writer_entry. generalize (b_files b) as kvs. intros kvs. revert acc.
  induction kvs as [|[k l] kvs IH]; intros acc Hnd; cbn [fold_left jget fst snd].
  { simpl. by rewrite app_nil_r. }
  apply NoDup_cons in Hnd as [Hk Hnd]. rewrite IH by done. destruct (k === f) eqn:E.
  - reflect. subst k. apply jget_None in Hk. cbn [fst] in Hk. rewrite Hk. simpl. rewrite app_nil_r.
    destruct (includes l (b_agentId b)); [|by rewrite app_nil_r]. unfold add_writer. by rewrite jget_jset_eq.
  - reflect. destruct (includes l (b_agentId b)); [|done]. unfold add_writer. by rewrite jget_jset_ne.
Qed.
Lemma collect_writers_NoDup b acc : NoDup (jkeys acc) -> NoDup (jkeys (collect_writers acc b)).
Proof.
  unfold collect_writers. revert acc. induction (b_files b) as [|[k l] kvs IH]; intros acc Hnd; [done|].
  cbn [fold_left]. apply IH. case_match; [|done]. simpl. unfold add_writer. auto with orcana.
Qed.

Lemma writersByFile_get bundles f :
  Forall collected bundles ->
  NoDup (jkeys (writersByFile bundles)) /\
  nullish (jget f (writersByFile bundles)) [] = mjoin (writer_entry f <$> bundles).
Proof.
  intros Hall. unfold writersByFile. change (mjoin (writer_entry f <$> bundles))
    with (nullish (jget f (@nil (string * list (string * list string)))) [] ++ mjoin (writer_entry f <$> bundles)).
  assert (NoDup (jkeys (@nil (string * list (string * list string))))) as Hnd by constructor.
  revert Hnd. generalize (@nil (string * list (string * list string))) as acc.
  induction Hall as [|b bundles [Hb _] _ IH]; intros acc Hnd; cbn [fold_left].
  { split; [done|]. simpl. by rewrite app_nil_r. }
  destruct (IH (collect_writers acc b)) as [IH1 IH2]; [by apply collect_writers_NoDup|]. split; [done|].
  rewrite IH2, collect_writers_get by done. by rewrite <- app_assoc.
Qed.

(** A file conflicts when the code finds a conflict among its writers. *)
Lemma elem_of_fileConflicts bundles f :
  Forall collected bundles ->
  f ∈ fc_file <$> fileConflicts (buildConflictSet bundles) <->
  is_Some (file_conflict f (mjoin (writer_entry f <$> bundles))).
Proof.
  intros Hall. destruct (writersByFile_get bundles f Hall) as [Hnd Hget].
  rewrite <- Hget. simpl. rewrite list_elem_of_fmap. setoid_rewrite list_elem_of_omap.
  assert (forall k ws c, file_conflict k ws = Some c -> fc_file c = k) as Hfile.
  { intros k ws c. unfold file_conflict. destruct (_ <? 2)%nat; [done|]. destruct (_ =? 1)%nat; [done|]. by intros [= <-]. }
  split.
  - intros (c & -> & [k ws] & Hin & Hc). simpl in Hc. rewrite (Hfile _ _ _ Hc).
    apply jget_NoDup in Hin; [|done]. rewrite Hin. simpl. by rewrite Hc.
  - destruct (jget f (writersByFile bundles)) as [ws|] eqn:E; [|by intros [c Hc]].
    intros [c Hc]. simpl in Hc. exists c. split; [symmetry; by eapply Hfile|]. exists (f, ws).
    split; [by apply jget_elem|done].
Qed.

Lemma length_uniq_1 {A} `{EqDecision A} (l : list A) :
  length (uniq l) = 1 <-> l <> [] /\ forall x y, x ∈ l -> y ∈ l -> x = y.
Proof.
  pose proof (NoDup_uniq l) as Hnd. split.
  - destruct (uniq l) as [|x [|y u]] eqn:E; [done| |done]. intros _. split; [by intros ->|].
    intros y z Hy Hz. apply elem_of_uniq in Hy, Hz. rewrite E in Hy, Hz. set_solver.
  - intros [Hne Heq]. destruct l as [|x l]; [done|].
    assert (x ∈ uniq (x :: l)) as Hx by (apply elem_of_uniq; left).
    destruct (uniq (x :: l)) as [|y [|z u]] eqn:E; [set_solver|done|]. exfalso.
    assert (y = z) as ->.
    { apply Heq; apply elem_of_uniq; rewrite E; [left|right; left]. }
    apply NoDup_cons in Hnd as [Hn _]. destruct Hn. left.
Qed.

Lemma writer_entry_collected f b :
  collected b -> (has_file f b /\ exists p, patch_of b f p /\ writer_entry f b = [(b_agentId b, [p])]) \/
                 (~ has_file f b /\ writer_entry f b = []).
Proof.
  intros [_ H]. unfold writer_entry, patch_of, has_file. destruct (decide (f ∈ jkeys (b_files b))) as [Hf|Hf].
  - left. destruct (H f Hf) as [-> [p Hp]]. split; [done|]. exists p. rewrite Hp. split; [done|].
    by rewrite (proj2 (includes_true _ _)) by left.
  - right. split; [done|]. apply jget_None in Hf. by rewrite Hf.
Qed.

Lemma writers_patches f bundles :
  Forall collected bundles ->
  forall p, p ∈ mjoin (snd <$> mjoin (writer_entry f <$> bundles)) <-> exists b, b ∈ bundles /\ patch_of b f p.
Proof.
  induction 1 as [|b bundles Hb _ IH]; intros p; [set_solver|].
  cbn [fmap list_fmap mjoin list_join]. rewrite fmap_app, join_app, elem_of_app, IH.
  destruct (writer_entry_collected f b Hb) as [(Hf & q & Hq & ->)|[Hf ->]].
  - simpl. rewrite list_elem_of_singleton. split.
    + intros [->|(b' & Hin & Hp)]; [exists b; split; [left|done]|exists b'; split; [by right|done]].
    + intros (b' & [->|Hin]%elem_of_cons & Hp); [left|right; by eauto].
      destruct Hq as [_ Hq], Hp as [_ Hp]. congruence.
  - simpl. split.
    + intros [Hp|(b' & Hin & Hp)]; [by apply elem_of_nil in Hp|exists b'; split; [by right|done]].
    + intros (b' & [->|Hin]%elem_of_cons & Hp); [by destruct Hp|right; by eauto].
Qed.

Lemma jget_app {V} (k : string) (m1 m2 : list (string * V)) :
  jget k (m1 ++ m2) = match jget k m1 with Some v => Some v | None => jget k m2 end.
Proof. induction m1 as [|[k' v] m1 IH]; [done|]. simpl. by destruct (k' === k). Qed.

Lemma plan_steps_get blocked agent keys acc f :
  NoDup (jkeys acc) ->
  NoDup (jkeys (fold_left (plan_step blocked agent) keys acc)) /\
  jget f (fold_left (plan_step blocked agent) keys acc) =
  match jget f acc with
  | Some a => Some a
  | None => if includes blocked f || negb (includes keys f) then None else Some agent
  end.
Proof.
  revert acc. induction keys as [|k keys IH]; intros acc Hnd; cbn [fold_left].
  { split; [done|]. rewrite orb_true_r. by destruct (jget f acc). }
  destruct (IH (plan_step blocked agent acc k)) as [IH1 IH2].
  - unfold plan_step. destruct (includes blocked k || includes (jkeys acc) k) eqn:E; [done|].
    apply orb_false_iff in E as [_ E%includes_false]. unfold jkeys. rewrite fmap_app. apply NoDup_app.
    split_and!; [done| |apply NoDup_singleton]. intros x Hx ->%list_elem_of_singleton. done.
  - split; [done|]. rewrite IH2. clear IH IH1 IH2. unfold plan_step.
    change (includes (k :: keys) f) with ((k === f) || includes keys f). destruct (k === f) eqn:Ek.
    + reflect. subst k. destruct (includes blocked f) eqn:Eb; simpl; [by destruct (jget f acc)|].
      destruct (includes (jkeys acc) f) eqn:Ef.
      * apply includes_true in Ef. destruct (jget f acc) eqn:Eg; [done|]. by apply jget_None in Eg.
      * apply includes_false, jget_None in Ef. rewrite jget_app, Ef. simpl. by rewrite same_refl.
    + simpl. destruct (includes blocked k || includes (jkeys acc) k); [done|].
      rewrite jget_app. simpl. rewrite Ek. by destruct (jget f acc).
Qed.

Lemma sources_get blocked bundles f :
  NoDup (jkeys (sources blocked bundles)) /\
  jget f (sources blocked bundles) =
  if includes blocked f then None else b_agentId <$> find (fun b => includes (jkeys (b_files b)) f) bundles.
Proof.
  unfold sources. assert (NoDup (jkeys (@nil (string * string)))) as Hnd by constructor.
  change (if includes blocked f then None else b_agentId <$> find (fun b => includes (jkeys (b_files b)) f) bundles)
    with (match jget f (@nil (string * string)) with Some a => Some a | None =>
          if includes blocked f then None else b_agentId <$> find (fun b => includes (jkeys (b_files b)) f) bundles end).
  revert Hnd. generalize (@nil (string * string)) as acc.
  induction bundles as [|b bundles IH]; intros acc Hnd; cbn [fold_left].
  { split; [done|]. by destruct (jget f acc), (includes blocked f). }
  destruct (plan_steps_get blocked (b_agentId b) (jkeys (b_files b)) acc f Hnd) as [H1 H2].
  destruct (IH _ H1) as [IH1 IH2]. split; [done|]. rewrite IH2, H2. clear.
  destruct (jget f acc); [done|]. cbn [find]. destruct (includes blocked f); [done|].
  by destruct (includes (jkeys (b_files b)) f).
Qed.

Lemma elem_of_automatic bundles f :
  f ∈ ip_automatic (buildIntegrationPlan bundles) <->
  is_Some (jget f (ip_sourceByFile (buildIntegrationPlan bundles))).
Proof.
  unfold buildIntegrationPlan. simpl. rewrite jsort_perm. set (m := sources _ _). destruct (jget f m) eqn:E.
  - split; [by eexists|]. intros _. eauto with orcana.
  - apply jget_None in E. split; [done|]. by intros [? ?].
Qed.
Lemma automatic_NoDup bundles : NoDup (ip_automatic (buildIntegrationPlan bundles)).
Proof. unfold buildIntegrationPlan. simpl. rewrite jsort_perm. by apply (sources_get _ _ ""). Qed.

Lemma plan_sources bundles :
  ip_sourceByFile (buildIntegrationPlan bundles) = sources (fc_file <$> fileConflicts (buildConflictSet bundles)) bundles.
Proof. done. Qed.
Lemma plan_conflicts bundles : ip_conflictSet (buildIntegrationPlan bundles) = buildConflictSet bundles.
Proof. done. Qed.

(** What a file's writers agree on, given that the keys do not collide. *)
Lemma no_conflict_iff f bundles :
  Forall collected bundles ->
  (forall p q, (exists b, b ∈ bundles /\ patch_of b f p) -> (exists b, b ∈ bundles /\ patch_of b f q) ->
     patchKey p = patchKey q -> p = q) ->
  file_conflict f (mjoin (writer_entry f <$> bundles)) = None <->
  (forall b1 b2 p q, b1 ∈ bundles -> b2 ∈ bundles -> patch_of b1 f p -> patch_of b2 f q -> p = q).
Proof.
  intros Hall Hcol. pose proof (writers_patches f bundles Hall) as Hp.
  set (ws := mjoin (writer_entry f <$> bundles)) in *. unfold file_conflict.
  pose proof (fmap_Permutation snd _ _ (jsort_perm (key_before fst) ws)) as Hs.
  assert (forall p, p ∈ mjoin (snd <$> jsort (key_before fst) ws) <-> exists b, b ∈ bundles /\ patch_of b f p) as Hq.
  { intros p. rewrite <- Hp. rewrite !list_elem_of_join.
    split; intros (l & Hl1 & Hl2); exists l; [by rewrite <- Hs|by rewrite Hs]. }
  destruct (length ws <? 2)%nat eqn:El.
  - split; [|done]. intros _ b1 b2 p q Hb1 Hb2 H1 H2. reflect.
    assert (p ∈ mjoin (snd <$> ws)) as Hip by (apply Hp; eauto).
    assert (q ∈ mjoin (snd <$> ws)) as Hiq by (apply Hp; eauto).
    assert (Forall (fun w => exists x, w.2 = [x]) ws) as Hone.
    { subst ws. clear -Hall. induction Hall as [|b bundles Hb _ IH]; [constructor|].
      cbn [fmap list_fmap mjoin list_join]. apply Forall_app. split; [|done].
      destruct (writer_entry_collected f b Hb) as [(_ & x & _ & ->)|[_ ->]]; repeat constructor. by exists x. }
    destruct ws as [|w [|w' ws]]; simpl in *; [by apply elem_of_nil in Hip| |lia].
    apply Forall_cons in Hone as [[x Hx] _]. rewrite Hx in Hip, Hiq. set_solver.
  - destruct (length (uniq _) =? 1)%nat eqn:Eu; reflect.
    + split; [|done]. intros _ b1 b2 p q Hb1 Hb2 H1 H2. apply length_uniq_1 in Eu as [_ Eu].
      apply Hcol; [by eauto|by eauto|]. apply Eu; apply list_elem_of_fmap_2, Hq; eauto.
    + split; [done|]. intros Hag. exfalso. apply Eu, length_uniq_1. split.
      * intros Hnil%fmap_nil_inv. destruct ws as [|w ws'] eqn:Ew; [simpl in El; lia|].
        assert (exists p, p ∈ mjoin (snd <$> (w :: ws'))) as [p Hip].
        { subst ws. clear -Hall Ew. revert Ew. induction Hall as [|b bundles Hb _ IH]; [done|].
          cbn [fmap list_fmap mjoin list_join]. destruct (writer_entry_collected f b Hb) as [(_ & x & _ & ->)|[_ ->]]; [|done].
          intros [= <- _]. exists x. simpl. left. }
        rewrite Hp in Hip. apply Hq in Hip. rewrite Hnil in Hip. by apply elem_of_nil in Hip.
      * intros x y (p & -> & (b1 & Hb1 & H1)%Hq)%list_elem_of_fmap (q & -> & (b2 & Hb2 & H2)%Hq)%list_elem_of_fmap.
        f_equal. eauto.
Qed.

(** Nothing is silently overwritten: for bundles as the agents' results are
    collected, and unless two different contents of a file collide in the 32-bit
    key, every file an agent wrote is either automatic, taken from the first agent
    that has it, and then all its writers have the same content, or it is reported
    as a conflict and the plan is blocked; and it is reported exactly when two
    writers differ. *)
Theorem integration_plan_sound bundles f :
  Forall collected bundles ->
  (forall p q, (exists b, b ∈ bundles /\ patch_of b f p) -> (exists b, b ∈ bundles /\ patch_of b f q) ->
     patchKey p = patchKey q -> p = q) ->
  (exists b, b ∈ bundles /\ has_file f b) ->
  let plan := buildIntegrationPlan bundles in
  let agree := forall b1 b2 p q, b1 ∈ bundles -> b2 ∈ bundles -> patch_of b1 f p -> patch_of b2 f q -> p = q in
  (f ∈ ip_automatic plan <-> agree) /\
  (f ∈ fc_file <$> fileConflicts (ip_conflictSet plan) <-> ~ agree) /\
  (f ∈ fc_file <$> fileConflicts (ip_conflictSet plan) -> planBlocked plan = true) /\
  (forall a, jget f (ip_sourceByFile plan) = Some a ->
     exists b p, b ∈ bundles /\ b_agentId b = a /\ patch_of b f p).
Proof.
  intros Hall Hcol (b0 & Hb0 & Hf0) plan agree.
  pose proof (no_conflict_iff f bundles Hall Hcol) as Hno. fold agree in Hno.
  pose proof (elem_of_fileConflicts bundles f Hall) as Hel.
  destruct (sources_get (fc_file <$> fileConflicts (buildConflictSet bundles)) bundles f) as [_ Hsrc].
  assert (f ∈ fc_file <$> fileConflicts (ip_conflictSet plan) <-> ~ agree) as Hc.
  { unfold plan. rewrite plan_conflicts, Hel, <- Hno.
    destruct (file_conflict f _); [|by split; [intros [? ?]|]]. split; [done|by eexists]. }
  split_and!; [|done| |].
  - unfold plan. rewrite elem_of_automatic, plan_sources, Hsrc.
    destruct (includes _ f) eqn:Ei.
    + apply includes_true in Ei. unfold plan in Hc. rewrite plan_conflicts in Hc. apply Hc in Ei. split; [by intros [? ?]|done].
    + apply includes_false in Ei. split; [|].
      * intros _. rewrite Hel in Ei. apply (proj1 Hno).
        destruct (file_conflict f (mjoin (writer_entry f <$> bundles))); [|done]. destruct Ei. by eexists.
      * intros _. destruct (find _ bundles) as [b|] eqn:Ef; [by eexists|]. exfalso.
        apply list_elem_of_In in Hb0. eapply find_none in Ef; [|exact Hb0]. by apply includes_false in Ef.
  - intros Hin. unfold planBlocked, hasConflicts.
    destruct (fileConflicts (ip_conflictSet plan)); [by apply elem_of_nil in Hin|done].
  - intros a. unfold plan. rewrite plan_sources, Hsrc.
    destruct (includes _ f); [done|]. destruct (find _ bundles) as [b|] eqn:Ef; [|done]. intros [= <-].
    apply find_some in Ef as [Hin%list_elem_of_In Hh%includes_true]. rewrite Forall_forall in Hall.
    destruct (Hall b Hin) as [_ Hb]. destruct (Hb f Hh) as [_ [p Hp]]. by exists b, p.
Qed.

(** ** Integration *)

(** src/src/workflow/agents/integration-verifier.ts # IntegrationStatus *)
Inductive IntegrationStatus := merged | blocked_conflict | verification_failed.

(** src/src/workflow/agents/integration-verifier.ts # IntegrationResult

    The verification summary and the reason are texts. *)
Record IntegrationResult := mkIntegration {
  ir_status : IntegrationStatus;
  ir_integrated : list string;
  ir_txId : option string;
  ir_passed : option bool;
}.

Section Integrate.
(** What UTF-8 makes of a file's bytes; the paths whose write throws, with
    what it leaves of the file when it had touched it; what the verification
    does to the files and says ([None]: it throws); and what the file system
    refuses while the transaction is created, during the rollback of a rejected
    merge, and during the rollback of the [catch]. *)
Context (utf8 : string -> string) (write_fault : string -> option (option string))
        (verify : Files -> Files * option bool) (io_create io_reject io_catch : IoFaults).

(** The worktree of each agent that has one. *)
Context (worktrees : list (string * Files)).

(** The content a file has in its source's worktree. *)
Definition source_content (sourceByFile : list (string * string)) (file : string) : option string :=
  agent ← jget file sourceByFile;
  root ← jget agent worktrees;
  (root : Files) !! file.

(** One file of the loop: the files after it, and whether it went through. *)
Definition integrate_file (sourceByFile : list (string * string)) (file : string) (files : Files) : Files * bool :=
  match source_content sourceByFile file with
  | None => (files, false)
  | Some content =>
      match write_fault file with
      | None => (<[file := utf8 content]> files, true)
      | Some None => (files, false)
      | Some (Some partial) => (<[file := partial]> files, false)
      end
  end.

(** The loop: the files at its end or at the throw, and whether it threw. *)
Fixpoint integrate_files (sourceByFile : list (string * string)) (todo : list string) (files : Files)
    : Files * bool :=
  match todo with
  | [] => (files, true)
  | file :: todo =>
      match integrate_file sourceByFile file files with
      | (files, true) => integrate_files sourceByFile todo files
      | (files, false) => (files, false)
      end
  end.

(** src/src/workflow/agents/integration-verifier.ts # integrateWithVerification @98-108

    The [catch], on the files the [try] left: its own rollback may throw. *)
Definition integration_caught (txId : string) (d : Disk) : res string IntegrationResult * Disk :=
  match rollbackTransaction io_catch txId d with
  | (Throw e, d) => (Throw e, d)
  | (Ok _, d) => (Ok (mkIntegration verification_failed [] (Some txId) None), d)
  end.

(** src/src/workflow/agents/integration-verifier.ts # integrateWithVerification

    The transaction is created outside the [try]. *)
Definition integrateWithVerification (txId : string) (plan : IntegrationPlan) (d : Disk)
    : res string IntegrationResult * Disk :=
  if planBlocked plan then (Ok (mkIntegration blocked_conflict [] None None), d)
  else match ip_automatic plan with
  | [] => (Ok (mkIntegration merged [] None (Some true)), d)
  | automatic =>
      match createTransaction utf8 io_create txId "merge_agents" automatic [] d with
      | (Throw e, d) => (Throw e, d)
      | (Ok tx, d) =>
          let on files := mkDisk files (dk_transactions d) in
          match integrate_files (ip_sourceByFile plan) automatic (dk_files d) with
          | (files, false) => integration_caught txId (on files)
          | (files, true) =>
              match verify files with
              | (files, None) => integration_caught txId (on files)
              | (files, Some false) =>
                  match rollbackTransaction io_reject txId (on files) with
                  | (Throw _, d) => integration_caught txId d
                  | (Ok _, d) => (Ok (mkIntegration verification_failed [] (Some txId) (Some false)), d)
                  end
              | (files, Some true) => (Ok (mkIntegration merged automatic (Some txId) (Some true)), on files)
              end
          end
      end
  end.

Lemma integrate_file_other src file files f :
  f <> file -> (integrate_file src file files).1 !! f = files !! f.
Proof.
  intros Hf. unfold integrate_file. destruct (source_content src file); [|done].
  destruct (write_fault file) as [[partial|]|]; simpl; by rewrite ?lookup_insert_ne.
Qed.
Lemma integrate_files_other src todo files f :
  f ∉ todo -> (integrate_files src todo files).1 !! f = files !! f.
Proof.
  revert files. induction todo as [|file todo IH]; intros files Hf; [done|]. simpl.
  apply not_elem_of_cons in Hf as [Hf1 Hf2]. pose proof (integrate_file_other src file files f Hf1) as H.
  destruct (integrate_file src file files) as [files' []]; simpl in *; [by rewrite IH|done].
Qed.
Lemma integrate_files_done src todo files files' :
  integrate_files src todo files = (files', true) -> NoDup todo ->
  forall f, f ∈ todo -> files' !! f = utf8 <$> source_content src f /\ is_Some (source_content src f).
Proof.
  revert files. induction todo as [|file todo IH]; intros files; simpl; [set_solver|].
  destruct (integrate_file src file files) as [files1 ok] eqn:E. destruct ok; [|done].
  intros Hi Hnd. apply NoDup_cons in Hnd as [Hf Hnd].
  intros f [->|Hin]%elem_of_cons; [|by eapply IH].
  pose proof (integrate_files_other src todo files1 file Hf) as Ho. rewrite Hi in Ho. simpl in Ho. rewrite Ho.
  unfold integrate_file in E. destruct (source_content src file) as [c|]; [|done].
  destruct (write_fault file) as [[partial|]|]; [done|done|]. injection E as <-.
  rewrite lookup_insert_eq. split; [done|by eexists].
Qed.

(** A rollback of the merge's transaction: it puts back every automatic file or
    throws, and touches no other. *)
Lemma rollback_after io txId automatic d tx d1 files :
  createTransaction utf8 io_create txId "merge_agents" automatic [] d = (Ok tx, d1) ->
  (forall f c, f ∈ automatic -> dk_files d !! f = Some c -> utf8 c = c) ->
  let '(o, d2) := rollbackTransaction io txId (mkDisk files (dk_transactions d1)) in
  dk_transactions d2 = dk_transactions d1 /\
  (forall f, f ∉ automatic -> dk_files d2 !! f = files !! f) /\
  (forall r, o = Ok r -> forall f, f ∈ automatic -> dk_files d2 !! f = dk_files d !! f) /\
  (io = no_faults -> exists r, o = Ok r).
Proof.
  intros Hc Hutf.
  assert (dk_transactions d1 !! txId = Some tx) as Hl.
  { revert Hc. unfold createTransaction. repeat case_match; intros [= <- <-]; try done. cbn. by rewrite lookup_insert_eq. }
  assert (dk_transactions (rollback_of io txId None (mkDisk files (dk_transactions d1))).2 = dk_transactions d1) as Ht.
  { unfold rollback_of. by repeat case_match. }
  pose proof (rollback_restores utf8 io_create io txId "merge_agents" automatic d tx d1 files _ None Hc Hl Hutf) as H.
  unfold rollbackTransaction. destruct (rollback_of _ _ _ _) as [o d2]. cbn in Ht. tauto.
Qed.

(** The [catch] after a merge that left other files as [other] says. *)
Lemma caught_after txId automatic d tx d1 files :
  createTransaction utf8 io_create txId "merge_agents" automatic [] d = (Ok tx, d1) ->
  (forall f c, f ∈ automatic -> dk_files d !! f = Some c -> utf8 c = c) ->
  let '(o, d2) := integration_caught txId (mkDisk files (dk_transactions d1)) in
  (forall f, f ∉ automatic -> dk_files d2 !! f = files !! f) /\
  match o with
  | Ok r => r = mkIntegration verification_failed [] (Some txId) None /\
            forall f, f ∈ automatic -> dk_files d2 !! f = dk_files d !! f
  | Throw _ => io_catch <> no_faults
  end.
Proof.
  intros Hc Hutf. pose proof (rollback_after io_catch txId automatic d tx d1 files Hc Hutf) as H.
  unfold integration_caught. destruct (rollbackTransaction io_catch _ _) as [[r|e] d2]; destruct H as (_ & H1 & H2 & H3).
  - split; [done|]. split; [done|]. by eapply H2.
  - split; [done|]. intros [? ?]%H3. done.
Qed.

(** What a failed integration leaves of the files outside the merge. *)
Definition outside_kept (automatic : list string) (d d' : Disk) : Prop :=
  (forall f, f ∉ automatic -> dk_files d' !! f = dk_files d !! f) \/
  (exists files, forall f, f ∉ automatic -> dk_files d' !! f = (verify files).1 !! f).

(** C9: Integration is all or nothing, for a plan that lists a file once and files
    whose content is valid UTF-8. When the call returns: it touched the workspace
    only if the plan has no conflict; it reports a merge only after the
    verification passed on a workspace where every automatic file has its source's
    content and every other file is as it was; and whenever a source is missing, a
    write throws half-way or the verification fails or throws, every automatic
    file is back to what it was, nothing is reported as integrated, and other
    files are as they were or as the verification left them. The call throws only
    when the transaction cannot be created, nothing being touched, or when the
    rollback of the catch is itself refused, other files still being as said;
    where neither is refused it always returns, even if the rollback of a rejected
    merge threw. *)
Theorem integration_atomic txId plan d :
  NoDup (ip_automatic plan) ->
  (forall f c, f ∈ ip_automatic plan -> dk_files d !! f = Some c -> utf8 c = c) ->
  let '(o, d') := integrateWithVerification txId plan d in
  match o with
  | Ok r =>
      match ir_status r with
      | blocked_conflict => planBlocked plan = true /\ d' = d /\ ir_integrated r = []
      | merged =>
          planBlocked plan = false /\ ir_integrated r = ip_automatic plan /\
          (ip_automatic plan = [] -> d' = d) /\
          (ip_automatic plan <> [] -> exists files, verify files = (dk_files d', Some true) /\
             (forall f, f ∈ ip_automatic plan -> is_Some (files !! f) /\
                        files !! f = utf8 <$> source_content (ip_sourceByFile plan) f) /\
             (forall f, f ∉ ip_automatic plan -> files !! f = dk_files d !! f))
      | verification_failed =>
          ir_integrated r = [] /\
          (forall f, f ∈ ip_automatic plan -> dk_files d' !! f = dk_files d !! f) /\
          outside_kept (ip_automatic plan) d d'
      end
  | Throw _ =>
      planBlocked plan = false /\
      (io_create <> no_faults /\ d' = d \/
       io_catch <> no_faults /\ outside_kept (ip_automatic plan) d d')
  end.
Proof.
  intros Hnd Hutf. unfold integrateWithVerification, outside_kept. destruct (planBlocked plan) eqn:Eb; [done|].
  destruct (ip_automatic plan) as [|a0 rest] eqn:Ea; [by split_and!|]. rewrite <- Ea in *.
  assert (ip_automatic plan <> []) as Hne by (by rewrite Ea). clear Ea.
  destruct (createTransaction utf8 io_create _ _ _ _ d) as [[tx|e] d1] eqn:Ec.
  2: { split; [done|]. left. by eapply create_refused. }
  pose proof (create_files _ _ _ _ _ _ _ _ _ Ec) as Hd1. rewrite Hd1.
  pose proof (fun files => caught_after txId _ d tx d1 files Ec Hutf) as Hcaught.
  pose proof (fun f => integrate_files_other (ip_sourceByFile plan) (ip_automatic plan) (dk_files d) f) as Hoth.
  pose proof (integrate_files_done (ip_sourceByFile plan) (ip_automatic plan) (dk_files d)) as Hdone.
  destruct (integrate_files (ip_sourceByFile plan) (ip_automatic plan) (dk_files d)) as [files []]; cbn [fst] in *.
  - destruct (verify files) as [files' [[]|]] eqn:Ev.
    + cbn. split_and!; [done..|]. intros _. exists files.
      split_and!; [done| |done]. intros f Hf. destruct (Hdone files eq_refl Hnd f Hf) as [-> [c ->]]. eauto.
    + pose proof (rollback_after io_reject txId _ d tx d1 files' Ec Hutf) as H.
      destruct (rollbackTransaction io_reject txId _) as [[r|e] d2]; destruct H as (Ht & H1 & H2 & _); cbn.
      * split_and!; [done|by eapply H2|]. right. exists files. by rewrite Ev.
      * pose proof (Hcaught (dk_files d2)) as H. rewrite <- Ht in H.
        destruct d2 as [f2 t2]; cbn [dk_files dk_transactions] in *.
        destruct (integration_caught _ _) as [[r|e'] d3]; destruct H as [H3 H4].
        -- destruct H4 as [-> H4]. cbn. split_and!; [done..|]. right. exists files. rewrite Ev. cbn.
           intros f Hf. by rewrite H3, H1.
        -- split; [done|]. right. split; [done|]. right. exists files. rewrite Ev. cbn. intros f Hf. by rewrite H3, H1.
    + pose proof (Hcaught files') as H. destruct (integration_caught _ _) as [[r|e'] d3]; destruct H as [H3 H4].
      * destruct H4 as [-> H4]. cbn. split_and!; [done..|]. right. exists files. by rewrite Ev.
      * split; [done|]. right. split; [done|]. right. exists files. by rewrite Ev.
  - pose proof (Hcaught files) as H. destruct (integration_caught _ _) as [[r|e'] d3]; destruct H as [H3 H4].
    + destruct H4 as [-> H4]. cbn. split_and!; [done..|]. left. intros f Hf. by rewrite H3, Hoth.
    + split; [done|]. right. split; [done|]. left. intros f Hf. by rewrite H3, Hoth.
Qed.
End Integrate.

(** ** The structured merge *)

(** src/src/workflow/agents/merge.ts # AgentArtifact *)
Record AgentArtifact := mkArtifact { aa_agentId : string; aa_artifact : jsval; aa_files : list string }.

(** src/src/workflow/agents/merge.ts # MergeResult *)
Record MergeResult := mkMerge {
  mr_merged : list (string * jsval);
  mr_conflicts : list (string * list string);
  mr_valueConflicts : list (string * (list string * list jsval));
}.

Section MergeArtifacts.
(** [JSON.stringify] on a value. *)
Context (VALUE_KEY : jsval -> string).

(** The values of every output key, with the agents that gave them. *)
Definition values_of (acc : list (string * list (string * jsval))) (e : AgentArtifact)
    : list (string * list (string * jsval)) :=
  match aa_artifact e with
  | JObj fields =>
      fold_left (fun acc kv => jset kv.1 (nullish (jget kv.1 acc) [] ++ [(aa_agentId e, kv.2)]) acc) fields acc
  | _ => acc
  end.
Definition distinct_values (items : list (string * jsval)) : list (string * jsval) :=
  fold_left (fun acc it => jset (VALUE_KEY it.2) it.2 acc) items [].

Definition touch (acc : list (string * list string)) (e : AgentArtifact) : list (string * list string) :=
  fold_left (fun acc f => jset f (set_add (aa_agentId e) (nullish (jget f acc) [])) acc) (aa_files e) acc.

(** src/src/workflow/agents/merge.ts # mergeAgentArtifacts *)
Definition mergeAgentArtifacts (input : list AgentArtifact) : MergeResult :=
  let agents := jsort (key_before aa_agentId) input in
  let valuesByKey := fold_left values_of agents [] in
  mkMerge
    (omap (fun kv => if (length (distinct_values kv.2) =? 1)%nat
                     then (fun it => (kv.1, it.2)) <$> head kv.2 else None) valuesByKey)
    (omap (fun kv => if (1 <? length kv.2)%nat then Some (kv.1, jsort String.ltb kv.2) else None)
          (fold_left touch agents []))
    (omap (fun kv => if (length (distinct_values kv.2) =? 1)%nat then None
                     else Some (kv.1, (jsort String.ltb (fst <$> kv.2), snd <$> distinct_values kv.2)))
          valuesByKey).
End MergeArtifacts.

(** Two different contents with one key: the 32-bit key is not injective. *)
Lemma patchKey_collision : patchKey "costarring" = patchKey "liquid".
Proof. vm_compute. reflexivity. Qed.

(** ** Concrete merges *)

Definition content_of (f : string) : option string := Some ("content of " +:+ f).
Definition bundle_a : AgentResultBundle := collectAgentBundle "a" None ["x.ts"; "both.ts"] content_of None.
Definition bundle_b : AgentResultBundle := collectAgentBundle "b" None ["y.ts"; "both.ts"] content_of None.

Lemma integration_plan_sound_witness :
  let bundles := [bundle_a; bundle_b] in
  let f := "both.ts" in
  let plan := buildIntegrationPlan bundles in
  let agree := forall b1 b2 p q, b1 ∈ bundles -> b2 ∈ bundles -> patch_of b1 f p -> patch_of b2 f q -> p = q in
  (f ∈ ip_automatic plan <-> agree) /\
  (f ∈ fc_file <$> fileConflicts (ip_conflictSet plan) <-> ~ agree) /\
  (f ∈ fc_file <$> fileConflicts (ip_conflictSet plan) -> planBlocked plan = true) /\
  (forall a, jget f (ip_sourceByFile plan) = Some a ->
     exists b p, b ∈ bundles /\ b_agentId b = a /\ patch_of b f p).
Proof.
  apply (integration_plan_sound [bundle_a; bundle_b] "both.ts").
  - do 2 (apply Forall_cons; split; [apply collectAgentBundle_collected|]). constructor.
  - assert (forall p, (exists b, b ∈ [bundle_a; bundle_b] /\ patch_of b "both.ts" p) -> p = "content of both.ts") as H.
    { intros p (b & Hb & _ & Hp). apply elem_of_cons in Hb as [->|Hb%list_elem_of_singleton]; [|subst b];
        vm_compute in Hp; by injection Hp as <-. }
    intros p q Hp%H Hq%H _. congruence.
  - exists bundle_a. split; [left|]. unfold has_file. apply (bool_decide_unpack _). vm_compute. exact I.
Defined.

(** The verification rejects the merge: the workspace is as before. *)
Definition worktree_a : Files := {["x.ts" := "new x"; "both.ts" := "content of both.ts"]}.
Definition worktree_b : Files := {["y.ts" := "new y"; "both.ts" := "content of both.ts"]}.
Definition sample_plan : IntegrationPlan := buildIntegrationPlan [bundle_a; bundle_b].
Definition sample_disk : Disk := mkDisk {["x.ts" := "old x"]} ∅.
Definition rejecting (files : Files) : Files * option bool := (files, Some false).

Definition read_only : IoFaults := mkFaults (fun _ => false) (fun _ => Some None) (fun _ => false) false.

Lemma integration_atomic_witness :
  let run := integrateWithVerification (fun s => s) (fun _ => None) rejecting no_faults read_only no_faults
               [("a", worktree_a); ("b", worktree_b)] "txn" sample_plan sample_disk in
  match run.1 with
  | Ok r => ir_status r = verification_failed /\ ir_integrated r = [] /\
            forall f, f ∈ ip_automatic sample_plan -> dk_files run.2 !! f = dk_files sample_disk !! f
  | Throw _ => False
  end.
Proof.
  assert (NoDup (ip_automatic sample_plan)) as Hnd by (apply (bool_decide_unpack _); vm_compute; exact I).
  pose proof (integration_atomic (fun s => s) (fun _ => None) rejecting no_faults read_only no_faults
           [("a", worktree_a); ("b", worktree_b)] "txn" sample_plan sample_disk Hnd (fun _ _ _ _ => eq_refl)) as H.
  cbn zeta. assert (match (integrateWithVerification (fun s => s) (fun _ => None) rejecting no_faults read_only no_faults
               [("a", worktree_a); ("b", worktree_b)] "txn" sample_plan sample_disk).1 with
    | Ok r => ir_status r = verification_failed | Throw _ => False end) as Hs by (vm_compute; reflexivity).
  destruct (integrateWithVerification _ _ _ _ _ _ _ _ _ _) as [[r|e] d']; cbn [fst snd] in *; [|done].
  rewrite Hs in H. destruct H as (H1 & H2 & _). by split_and!.
Defined.

(** A rollback refused in the [catch] throws out of the call, the merge left in
    the workspace. *)
Lemma refused_rollback_escapes :
  let run := integrateWithVerification (fun s => s) (fun _ => None) rejecting no_faults read_only read_only
               [("a", worktree_a); ("b", worktree_b)] "txn" sample_plan sample_disk in
  run.1 = Throw "a file cannot be restored" /\ dk_files run.2 !! "x.ts" = Some "new x".
Proof. split; vm_compute; reflexivity. Qed.
