(* ===== verification/Retry.v ===== *)
(** The retry ledger and the retry authority.

    Models [src/src/runtime/retry-ledger.ts] and the [RetryCoordinator] of
    [src/src/runtime/retry/coordinator.ts].  The external model-call budget is
    an object with a state of its own; observers of decisions only read. *)
From S2P Require Import Prelude.

(** src/src/runtime/retry-ledger.ts # RetryClass *)
Inductive RetryClass := transport | rateLimit | truncation | rc_tool | semanticRepair.

#[export] Instance retry_class_eq_dec : EqDecision RetryClass.
Proof. solve_decision. Defined.

(** src/src/runtime/retry-ledger.ts # RETRY_CLASSES *)
Definition RETRY_CLASSES : list RetryClass := [transport; rateLimit; truncation; rc_tool; semanticRepair].

Definition class_name (c : RetryClass) : string :=
  match c with
  | transport => "transport" | rateLimit => "rateLimit" | truncation => "truncation"
  | rc_tool => "tool" | semanticRepair => "semanticRepair"
  end.

(** src/src/runtime/retry-ledger.ts # RETRY_CLASS_LIMITS *)
Definition RETRY_CLASS_LIMITS (c : RetryClass) : nat :=
  match c with transport => 2 | rateLimit => 3 | truncation => 1 | rc_tool => 1 | semanticRepair => 2 end.

(** src/src/runtime/retry-ledger.ts # createRetryLedger @62-72 *)
Record RetryLedger := mkRetryLedger {
  le_counts : list (string * nat);
  le_classTotals : RetryClass -> nat;
  le_total : nat;
}.
Definition createRetryLedger : RetryLedger := mkRetryLedger [] (fun _ => 0) 0.

Definition keyOf (c : RetryClass) (fingerprint : string) : string := class_name c +:+ ":" +:+ fingerprint.

(** src/src/runtime/retry-ledger.ts # createRetryLedger @85-91 *)
Definition ledger_record (c : RetryClass) (fingerprint : string) (l : RetryLedger) : nat * RetryLedger :=
  let key := keyOf c fingerprint in
  let next := S (nullish (jget key (le_counts l)) 0) in
  (next, mkRetryLedger (jset key next (le_counts l))
           (fun c' => if c' === c then S (le_classTotals l c') else le_classTotals l c') (S (le_total l))).

(** src/src/runtime/retry-ledger.ts # createRetryLedger @93-95 *)
Definition attempts (c : RetryClass) (fingerprint : string) (l : RetryLedger) : nat :=
  nullish (jget (keyOf c fingerprint) (le_counts l)) 0.

(** src/src/runtime/retry-ledger.ts # createRetryLedger @96-98 *)
Definition canRetry (c : RetryClass) (fingerprint : string) (l : RetryLedger) : bool :=
  attempts c fingerprint l <? RETRY_CLASS_LIMITS c.

Lemma str_app_inj (s t u : string) : s +:+ t = s +:+ u -> t = u.
Proof. induction s as [|c s IH]; simpl; [done|]. intros [= H]. auto. Qed.
Lemma keyOf_inj c f c' f' : keyOf c f = keyOf c' f' -> c = c' /\ f = f'.
Proof. destruct c, c'; intros H; try discriminate H; (split; [done|]); by injection H. Qed.

Lemma attempts_record c f l c' f' :
  attempts c' f' (ledger_record c f l).2 =
  (if (c === c') && (f === f') then 1 else 0) + attempts c' f' l.
Proof.
  unfold attempts, ledger_record. simpl. rewrite jget_jset. case_decide as H.
  - apply keyOf_inj in H as [-> ->]. rewrite !same_refl. done.
  - destruct (c === c') eqn:E1, (f === f') eqn:E2; try done. reflect. subst. done.
Qed.

(** ** The coordinator *)

(** src/src/runtime/retry/coordinator.ts # RetryBlockReason *)
Inductive RetryBlockReason := class_exhausted | physical_request_budget | side_effect_boundary | aborted.

#[export] Instance block_reason_eq_dec : EqDecision RetryBlockReason.
Proof. solve_decision. Defined.

(** src/src/runtime/retry/coordinator.ts # RetryPermit

    Allowed, or denied for a reason; the class and fingerprint echo the input. *)
Inductive RetryPermit := Allow | Deny (reason : RetryBlockReason).

(** src/src/runtime/retry/coordinator.ts # RetryAuthorizationInput *)
Record RetryAuthorizationInput := mkRetryInput {
  in_retryClass : option RetryClass;
  in_fingerprint : option string;
  in_sideEffectBoundaryCrossed : bool;
}.

(** src/src/runtime/retry/coordinator.ts # RetryDecisionKind *)
Inductive RetryDecisionKind := provider_initial | provider_retry | dk_tool | dk_semanticRepair.

(** src/src/runtime/retry/coordinator.ts # RetryAuthorityDecision *)
Record RetryAuthorityDecision := mkRetryDecision {
  rd_permit : RetryPermit;
  rd_kind : RetryDecisionKind;
  rd_input : RetryAuthorizationInput;
  rd_physical : nat;
}.

(** src/src/runtime/retry/coordinator.ts # RETRY_AUDIT_HISTORY_LIMIT *)
Definition RETRY_AUDIT_HISTORY_LIMIT : nat := 256.

(** src/src/runtime/retry/coordinator.ts # deriveMaxPhysicalProviderRequests *)
Definition deriveMaxPhysicalProviderRequests (logicalMaxRounds : Z) : Z :=
  Z.max (logicalMaxRounds * 2) (logicalMaxRounds + 8).

Section Coordinator.
(** The external budget: its state, [tryConsume] and the notification. *)
Context {X : Type} (tryConsume : X -> bool * X) (onPhysicalBudgetExhausted : X -> X).

(** src/src/runtime/retry/coordinator.ts # RetryCoordinator @146-152 *)
Record RetryCoordinator := mkCoordinator {
  co_ledger : RetryLedger;
  co_maxPhysical : Z;
  co_external : option X;
  co_history : list RetryAuthorityDecision;
  co_physicalCount : nat;
}.

(** src/src/runtime/retry/coordinator.ts # RetryCoordinator.constructor *)
Definition newRetryCoordinator (ledger : option RetryLedger) (maxPhysical : option Z) (external : option X)
    : RetryCoordinator :=
  mkCoordinator (nullish ledger createRetryLedger) (nullish maxPhysical (deriveMaxPhysicalProviderRequests 50))
    external [] 0.

(** src/src/runtime/retry/coordinator.ts # RetryCoordinator.configureBudgetConsumer *)
Definition configureBudgetConsumer (external : option X) (c : RetryCoordinator) : RetryCoordinator :=
  mkCoordinator (co_ledger c) (co_maxPhysical c) external (co_history c) (co_physicalCount c).

Definition with_external (x : option X) (c : RetryCoordinator) : RetryCoordinator :=
  configureBudgetConsumer x c.
Definition with_ledger (l : RetryLedger) (c : RetryCoordinator) : RetryCoordinator :=
  mkCoordinator l (co_maxPhysical c) (co_external c) (co_history c) (co_physicalCount c).

(** src/src/runtime/retry/coordinator.ts # RetryCoordinator.recordDecision *)
Definition recordDecision (d : RetryAuthorityDecision) (c : RetryCoordinator) : RetryCoordinator :=
  let history := if RETRY_AUDIT_HISTORY_LIMIT <=? length (co_history c) then tail (co_history c) else co_history c in
  mkCoordinator (co_ledger c) (co_maxPhysical c) (co_external c) (history ++ [d]) (co_physicalCount c).

Definition decide_as (permit : RetryPermit) (kind : RetryDecisionKind) (i : RetryAuthorizationInput)
    (c : RetryCoordinator) : RetryPermit * RetryCoordinator :=
  (permit, recordDecision (mkRetryDecision permit kind i (co_physicalCount c)) c).

Definition class_exhausted_for (i : RetryAuthorizationInput) (c : RetryCoordinator) : bool :=
  match in_retryClass i with
  | Some cls => negb (canRetry cls (nullish (in_fingerprint i) "") (co_ledger c))
  | None => false
  end.

(** src/src/runtime/retry/coordinator.ts # RetryCoordinator.authorizeProviderAttempt *)
Definition authorizeProviderAttempt (i : RetryAuthorizationInput) (c : RetryCoordinator)
    : RetryPermit * RetryCoordinator :=
  let kind := match in_retryClass i with Some _ => provider_retry | None => provider_initial end in
  if in_sideEffectBoundaryCrossed i then decide_as (Deny side_effect_boundary) kind i c
  else if class_exhausted_for i c then decide_as (Deny class_exhausted) kind i c
  else if (co_maxPhysical c <=? Z.of_nat (co_physicalCount c))%Z then
    decide_as (Deny physical_request_budget) kind i
      (with_external (onPhysicalBudgetExhausted <$> co_external c) c)
  else
    let '(granted, c) :=
      match co_external c with
      | None => (true, c)
      | Some x => let '(ok, x) := tryConsume x in (ok, with_external (Some x) c)
      end in
    if negb granted then decide_as (Deny physical_request_budget) kind i c
    else
      let c := match in_retryClass i with
        | Some cls => with_ledger (ledger_record cls (nullish (in_fingerprint i) "") (co_ledger c)).2 c
        | None => c
        end in
      decide_as Allow kind i
        (mkCoordinator (co_ledger c) (co_maxPhysical c) (co_external c) (co_history c) (S (co_physicalCount c))).

(** src/src/runtime/retry/coordinator.ts # RetryCoordinator.authorizeRetry *)
Definition authorizeRetry (cls : RetryClass) (fingerprint : string) (crossed : bool) (c : RetryCoordinator)
    : RetryPermit * RetryCoordinator :=
  let i := mkRetryInput (Some cls) (Some fingerprint) crossed in
  let kind := match cls with semanticRepair => dk_semanticRepair | _ => dk_tool end in
  if crossed then decide_as (Deny side_effect_boundary) kind i c
  else if negb (canRetry cls fingerprint (co_ledger c)) then decide_as (Deny class_exhausted) kind i c
  else decide_as Allow kind i (with_ledger (ledger_record cls fingerprint (co_ledger c)).2 c).

(** ** What an authorization charges *)

(** The state without its audit trail. *)
Definition accounts (c : RetryCoordinator) : RetryLedger * Z * option X * nat :=
  (co_ledger c, co_maxPhysical c, co_external c, co_physicalCount c).

Lemma accounts_decide permit kind i c : accounts (decide_as permit kind i c).2 = accounts c.
Proof. done. Qed.

Definition retries_of (i : RetryAuthorizationInput) : list (RetryClass * string) :=
  match in_retryClass i with Some cls => [(cls, nullish (in_fingerprint i) "")] | None => [] end.
Definition charge_retries (rs : list (RetryClass * string)) (l : RetryLedger) : RetryLedger :=
  fold_left (fun l r => (ledger_record r.1 r.2 l).2) rs l.

(** An authorization charges exactly what it allows: a provider attempt is allowed
    if and only if no side effect would be replayed, its retry class has attempts
    left for the fingerprint, the physical cap is not reached and the external
    budget grants a call; then it records the retry, one physical request and the
    external call; a denied attempt records no retry and no physical request, and
    consumes nothing of the external budget unless that budget itself refused (the
    cap only notifies it). *)
Theorem authorize_provider_exact i c :
  let '(permit, c') := authorizeProviderAttempt i c in
  let granted := match co_external c with Some x => (tryConsume x).1 | None => true end in
  let consumed := match co_external c with Some x => Some (tryConsume x).2 | None => None end in
  (permit = Allow <->
     in_sideEffectBoundaryCrossed i = false /\
     Forall (fun r => attempts r.1 r.2 (co_ledger c) < RETRY_CLASS_LIMITS r.1) (retries_of i) /\
     (Z.of_nat (co_physicalCount c) < co_maxPhysical c)%Z /\ granted = true) /\
  match permit with
  | Allow => accounts c' = (charge_retries (retries_of i) (co_ledger c), co_maxPhysical c, consumed,
                            S (co_physicalCount c))
  | Deny reason =>
      co_ledger c' = co_ledger c /\ co_physicalCount c' = co_physicalCount c /\ co_maxPhysical c' = co_maxPhysical c /\
      (co_external c' = co_external c \/
       (reason = physical_request_budget /\
        if (co_maxPhysical c <=? Z.of_nat (co_physicalCount c))%Z
        then co_external c' = onPhysicalBudgetExhausted <$> co_external c
        else granted = false /\ co_external c' = consumed))
  end.
Proof.
  unfold authorizeProviderAttempt, class_exhausted_for, retries_of.
  destruct (in_sideEffectBoundaryCrossed i) eqn:Es; simpl.
  { split; [|by auto]. split; [done|]. by intros [? _]. }
  destruct (match in_retryClass i with Some cls => _ | None => _ end) eqn:Ec; simpl.
  { split; [|by auto]. split; [done|]. intros (_ & Hf & _). exfalso.
    destruct (in_retryClass i) as [cls|]; [|done]. apply Forall_cons in Hf as [Hf _]. unfold canRetry in Ec.
    reflect. simpl in Hf. lia. }
  assert (Forall (fun r => attempts r.1 r.2 (co_ledger c) < RETRY_CLASS_LIMITS r.1)
    (match in_retryClass i with Some cls => [(cls, nullish (in_fingerprint i) "")] | None => [] end)) as Hf.
  { destruct (in_retryClass i) as [cls|]; [|constructor]. unfold canRetry in Ec. reflect. by repeat constructor. }
  destruct (co_maxPhysical c <=? _)%Z eqn:Ep; simpl.
  { split; [|by auto 10]. split; [done|]. intros (_ & _ & ? & _). reflect. lia. }
  reflect. destruct (co_external c) as [x|] eqn:Ex.
  - destruct (tryConsume x) as [[] x'] eqn:Et; simpl.
    + split; [done|]. unfold accounts. by destruct (in_retryClass i).
    + split; [|by auto 10]. split; [done|]. by intros (_ & _ & _ & ?).
  - simpl. split; [done|]. unfold accounts. destruct (in_retryClass i); simpl; by rewrite ?Ex.
Qed.

(** ** Runs *)

Definition granted_if (permit : RetryPermit) {A} (xs : list A) : list A :=
  match permit with Allow => xs | Deny _ => [] end.

(** The retries and the number of provider attempts allowed since [c0]. *)
Inductive coordinator_run (c0 : RetryCoordinator) : RetryCoordinator -> list (RetryClass * string) -> nat -> Prop :=
| cr_start : coordinator_run c0 c0 [] 0
| cr_provider c rs n i : coordinator_run c0 c rs n ->
    coordinator_run c0 (authorizeProviderAttempt i c).2
      (granted_if (authorizeProviderAttempt i c).1 (retries_of i) ++ rs)
      (length (granted_if (authorizeProviderAttempt i c).1 [tt]) + n)
| cr_retry c rs n cls f crossed : coordinator_run c0 c rs n ->
    coordinator_run c0 (authorizeRetry cls f crossed c).2
      (granted_if (authorizeRetry cls f crossed c).1 [(cls, f)] ++ rs) n
| cr_configure c rs n x : coordinator_run c0 c rs n -> coordinator_run c0 (configureBudgetConsumer x c) rs n.

Definition retries_for (cls : RetryClass) (f : string) (rs : list (RetryClass * string)) : nat :=
  count_where (fun r => (r.1 === cls) && (r.2 === f)) rs.

Definition ledger_matches (rs : list (RetryClass * string)) (l : RetryLedger) : Prop :=
  (forall cls f, attempts cls f l = retries_for cls f rs) /\
  (forall cls, le_classTotals l cls = count_where (fun r => r.1 === cls) rs) /\
  le_total l = length rs.

Lemma ledger_matches_record cls f rs l :
  ledger_matches rs l -> ledger_matches ((cls, f) :: rs) (ledger_record cls f l).2.
Proof.
  intros (H1 & H2 & H3). split_and!.
  - intros cls' f'. rewrite attempts_record, H1. unfold retries_for. by rewrite count_where_cons.
  - intros cls'. rewrite count_where_cons. simpl. rewrite H2. destruct (cls' === cls) eqn:E.
    + reflect. subst. by rewrite same_refl.
    + reflect. by rewrite (proj2 (same_neq cls cls')).
  - simpl. by rewrite H3.
Qed.

Definition coordinator_inv (maxPhysical : Z) (c : RetryCoordinator) (rs : list (RetryClass * string)) (n : nat) : Prop :=
  ledger_matches rs (co_ledger c) /\ (forall cls f, retries_for cls f rs <= RETRY_CLASS_LIMITS cls) /\
  co_physicalCount c = n /\ co_maxPhysical c = maxPhysical /\ (Z.of_nat n <= Z.max 0 maxPhysical)%Z /\
  length (co_history c) <= RETRY_AUDIT_HISTORY_LIMIT.

Lemma retries_for_grant cls f rs l :
  ledger_matches rs l -> canRetry cls f l = true -> (forall c' f', retries_for c' f' rs <= RETRY_CLASS_LIMITS c') ->
  forall c' f', retries_for c' f' ((cls, f) :: rs) <= RETRY_CLASS_LIMITS c'.
Proof.
  intros (H1 & _) Hc Hl c' f'. unfold retries_for. rewrite count_where_cons. simpl. fold (retries_for c' f' rs).
  destruct ((cls === c') && (f === f')) eqn:E; [|apply Hl].
  apply andb_true_iff in E as [E1 E2]. reflect. subst. unfold canRetry in Hc. rewrite H1 in Hc. reflect. lia.
Qed.

Lemma decide_as_inv maxPhysical permit kind i c rs n :
  coordinator_inv maxPhysical c rs n -> coordinator_inv maxPhysical (decide_as permit kind i c).2 rs n.
Proof.
  intros (H1 & H2 & H3 & H4 & H5 & H6). split_and!; try done. unfold decide_as, recordDecision.
  cbn [snd co_history]. rewrite length_app. cbn [length].
  destruct (Nat.leb_spec RETRY_AUDIT_HISTORY_LIMIT (length (co_history c))) as [E|E]; [|lia].
  assert (0 < RETRY_AUDIT_HISTORY_LIMIT) by (unfold RETRY_AUDIT_HISTORY_LIMIT; lia).
  destruct (co_history c); cbn [tail length] in *; lia.
Qed.
Lemma with_external_inv maxPhysical x c rs n :
  coordinator_inv maxPhysical c rs n -> coordinator_inv maxPhysical (with_external x c) rs n.
Proof. done. Qed.

Lemma coordinator_run_inv c0 maxPhysical c rs n :
  coordinator_inv maxPhysical c0 [] 0 -> coordinator_run c0 c rs n -> coordinator_inv maxPhysical c rs n.
Proof.
  intros H0. induction 1 as [|c rs n i _ IH|c rs n cls f crossed _ IH|c rs n x _ IH]; [done| | |done].
  - unfold authorizeProviderAttempt.
    destruct (in_sideEffectBoundaryCrossed i); [by apply decide_as_inv|].
    destruct (class_exhausted_for i c) eqn:Ec; [by apply decide_as_inv|].
    destruct (co_maxPhysical c <=? _)%Z eqn:Ep; [by apply decide_as_inv|].
    assert (exists c1 ok, (match co_external c with
      | None => (true, c)
      | Some x => let '(ok, x) := tryConsume x in (ok, with_external (Some x) c)
      end) = (ok, c1) /\ coordinator_inv maxPhysical c1 rs n /\ co_ledger c1 = co_ledger c) as (c1 & ok & -> & IH1 & Hl).
    { destruct (co_external c) as [x|]; [|by eexists _, _]. destruct (tryConsume x) as [ok x']. by eexists _, _. }
    destruct ok; simpl negb; cbn iota; [|by apply decide_as_inv].
    apply decide_as_inv. cbn [decide_as fst granted_if length Nat.add]. destruct IH1 as (H1 & H2 & H3 & H4 & H5 & H6).
    destruct IH as (_ & _ & H3' & H4' & _ & _). reflect. rewrite H3', H4' in Ep.
    unfold retries_of. unfold class_exhausted_for in Ec. rewrite <- Hl in Ec.
    destruct (in_retryClass i) as [cls|]; split_and!; cbn [co_ledger co_maxPhysical co_external co_history co_physicalCount with_ledger app];
      try done; try lia.
    + by apply ledger_matches_record.
    + eapply retries_for_grant; [exact H1|by apply negb_false_iff|done].
  - unfold authorizeRetry. destruct crossed; [by apply decide_as_inv|].
    destruct (negb (canRetry _ _ _)) eqn:Ec; [by apply decide_as_inv|]. reflect.
    apply decide_as_inv. destruct IH as (H1 & H2 & H3 & H4 & H5 & H6). split_and!; try done.
    + by apply ledger_matches_record.
    + by eapply retries_for_grant.
Qed.

(** One retry budget: from a fresh coordinator, under any sequence of provider
    attempts, retries and reconfigurations of the external budget, the allowed
    retries of a class with one fingerprint never exceed the class's limit, the
    allowed provider attempts never exceed the physical cap, and the ledger's
    counts, class totals and total are exactly the allowed retries; the audit
    trail stays within its bound. *)
Theorem retry_budget_bounds maxPhysical external c rs n :
  coordinator_run (newRetryCoordinator None (Some maxPhysical) external) c rs n ->
  (forall cls f, retries_for cls f rs <= RETRY_CLASS_LIMITS cls) /\
  co_physicalCount c = n /\ (Z.of_nat n <= Z.max 0 maxPhysical)%Z /\
  (forall cls f, attempts cls f (co_ledger c) = retries_for cls f rs) /\
  (forall cls, le_classTotals (co_ledger c) cls = count_where (fun r => r.1 === cls) rs) /\
  le_total (co_ledger c) = length rs /\
  length (co_history c) <= RETRY_AUDIT_HISTORY_LIMIT.
Proof.
  intros Hrun. eapply (coordinator_run_inv _ maxPhysical) in Hrun.
  - destruct Hrun as ((H1 & H2 & H3) & H4 & H5 & _ & H6 & H7). by split_and!.
  - split_and!; simpl; [split_and!; done|intros; apply Nat.le_0_l|done|done|change (0 <= Z.max 0 maxPhysical)%Z; lia|apply Nat.le_0_l].
Qed.
End Coordinator.

(** A semantic repair retried to its limit. *)
Definition no_budget : unit -> bool * unit := fun u => (true, u).
Definition repair_retry (c : RetryCoordinator (X := unit)) : RetryPermit * RetryCoordinator :=
  authorizeRetry semanticRepair "w|timeout" false c.
Definition retried (n : nat) : RetryCoordinator :=
  Nat.iter n (fun c => (repair_retry c).2) (newRetryCoordinator None (Some 1%Z) None).
Lemma retry_budget_bounds_witness :
  (repair_retry (retried 1)).1 = Allow /\ (repair_retry (retried 2)).1 = Deny class_exhausted /\
  retries_for semanticRepair "w|timeout" [(semanticRepair, "w|timeout"); (semanticRepair, "w|timeout")]
    <= RETRY_CLASS_LIMITS semanticRepair.
Proof.
  split; [reflexivity|]. split; [reflexivity|].
  apply (retry_budget_bounds no_budget (fun u => u) 1 None (retried 2) _ 0).
  refine (cr_retry no_budget (fun u => u) _ (retried 1) [(semanticRepair, "w|timeout")] 0
            semanticRepair "w|timeout" false _).
  refine (cr_retry no_budget (fun u => u) _ (retried 0) [] 0 semanticRepair "w|timeout" false _).
  apply cr_start.
Defined.
