(* ===== verification/Repair.v ===== *)
(** Failure signatures and the convergent repair loop.

    Models [src/src/workflow/convergence/failure-signature.ts] and
    [repair-loop.ts].  The patterns of the category rules are alternations of
    literals, tested without regard to ASCII case.  A round runs the scheduler
    on the spec the factory gives; that run, which depends on the outside, is
    a parameter and may throw, like the factory, which reads the [seen] and
    [confirmed] collections it is handed. *)
From S2P Require Import Prelude Json WorkflowTypes Completion Retry.
From Stdlib Require Import Ascii.

(** ** Signatures *)

(** src/src/workflow/convergence/failure-signature.ts # ErrorCategory *)
Inductive ErrorCategory :=
| patch_conflict | missing_target | process_failure | permission_denied
| timeout | unknown_handler | missing_evidence | unclassified.

#[export] Instance category_eq_dec : EqDecision ErrorCategory.
Proof. solve_decision. Defined.

(** src/src/workflow/convergence/failure-signature.ts # ERROR_CATEGORIES *)
Definition category_name (c : ErrorCategory) : string :=
  match c with
  | patch_conflict => "patch_conflict" | missing_target => "missing_target"
  | process_failure => "process_failure" | permission_denied => "permission_denied"
  | timeout => "timeout" | unknown_handler => "unknown_handler"
  | missing_evidence => "missing_evidence" | unclassified => "unclassified"
  end.

(** src/src/workflow/convergence/failure-signature.ts # CATEGORY_RULES *)
Definition CATEGORY_RULES : list (list string * ErrorCategory) :=
  [(["did not match"; "do not match"; "transaction rolled back"; "patch rejected"; "patch failed"], patch_conflict);
   (["no such file"; "not found"; "does not exist"; "missing file"], missing_target);
   (["exit code"; "non-zero"; "command failed"; "process failed"; "process exited"], process_failure);
   (["permission"; "not writable"; "read-only"; "EACCES"], permission_denied);
   (["timeout"; "timed out"], timeout);
   (["unknown handler"; "not found in runtime tool set"], unknown_handler);
   (["no evidence"; "blocked_no_evidence"], missing_evidence)].

Definition lower (c : ascii) : ascii :=
  if in_range 65 90 c then ascii_of_nat (nat_of_ascii c + 32) else c.
Fixpoint prefix_ci (p s : string) : bool :=
  match p, s with
  | EmptyString, _ => true
  | String c p, String d s => (lower c === lower d) && prefix_ci p s
  | String _ _, EmptyString => false
  end.
(** [/literal/i.test(s)] *)
Fixpoint contains_ci (p s : string) : bool :=
  prefix_ci p s || match s with EmptyString => false | String _ s => contains_ci p s end.

(** src/src/workflow/convergence/failure-signature.ts # classifyError *)
Definition classifyError (message : option string) : ErrorCategory :=
  match message with
  | None | Some "" => unclassified
  | Some m => nullish (snd <$> find (fun rule => existsb (fun lit => contains_ci lit m) rule.1) CATEGORY_RULES)
                unclassified
  end.

Definition signature (nodeId : string) (c : ErrorCategory) : string := nodeId +:+ "|" +:+ category_name c.

(** src/src/workflow/convergence/failure-signature.ts # fingerprintFailure *)
Definition fingerprintFailure (r : WorkflowNodeResult) : string :=
  signature (r_nodeId r) (classifyError (r_error r)).

(** ** The loop *)

(** src/src/workflow/convergence/repair-loop.ts # RepairOutcome *)
Inductive RepairOutcome := ro_done | ro_dry | ro_max_attempts | ro_budget_exhausted.

#[export] Instance outcome_eq_dec : EqDecision RepairOutcome.
Proof. solve_decision. Defined.

(** src/src/workflow/convergence/repair-loop.ts # RepairAttempt *)
Record RepairAttempt := mkAttempt {
  ra_round : Z;
  ra_run : option WorkflowRunResult;
  ra_newSignatures : list string;
  ra_dry : bool;
}.

(** src/src/workflow/convergence/repair-loop.ts # ConvergenceReport *)
Record ConvergenceReport := mkReport {
  cr_outcome : RepairOutcome;
  cr_attempts : Z;
  cr_dryRounds : Z;
  cr_seen : list string;
  cr_confirmed : list (string * Z);
  cr_blocked : list (string * string * Z);
  cr_rounds : list RepairAttempt;
}.

(** The authority a failed signature asks before it drives another round. *)
Class RepairAuthority (A : Type) := { authorizeRepair : string -> A -> bool * A }.

(** src/src/workflow/convergence/repair-loop.ts # RepairLoop.run @133-139

    The coordinator when there is one, the ledger otherwise, or nothing. *)
Definition coordinator_authorize {X} (sig : string) (c : RetryCoordinator (X := X)) : bool * RetryCoordinator :=
  let '(permit, c) := authorizeRetry semanticRepair sig false c in
  (match permit with Allow => true | Deny _ => false end, c).
Definition ledger_authorize (sig : string) (l : RetryLedger) : bool * RetryLedger :=
  if canRetry semanticRepair sig l then (true, (ledger_record semanticRepair sig l).2) else (false, l).
#[export] Instance coordinator_authority X : RepairAuthority (RetryCoordinator (X := X)) :=
  {| authorizeRepair := coordinator_authorize |}.
#[export] Instance ledger_authority : RepairAuthority RetryLedger := {| authorizeRepair := ledger_authorize |}.
#[export] Instance no_authority : RepairAuthority unit := {| authorizeRepair _ u := (true, u) |}.

Section RepairLoop.
Context {A : Type} `{!RepairAuthority A}.

(** The loop's variables. *)
Record RepairState := mkRepair {
  rp_seen : list string;
  rp_confirmed : list (string * Z);
  rp_nodeAttempts : list (string * Z);
  rp_rounds : list RepairAttempt;
  rp_dryRounds : Z;
  rp_prevPassed : Z;
  rp_prevWriteFailed : Z;
  rp_authority : A;
}.

Definition MAX_SAFE_INTEGER : Z := 9007199254740991.
Definition newRepairState (a : A) : RepairState := mkRepair [] [] [] [] 0 (-1) MAX_SAFE_INTEGER a.

(** What one pass over the failed results accumulates. *)
Record FailureScan := mkScan {
  fs_seen : list string;
  fs_nodeAttempts : list (string * Z);
  fs_newSignatures : list string;
  fs_writeFailed : Z;
  fs_authority : A;
}.

(** src/src/workflow/convergence/repair-loop.ts # RepairLoop.run @125-143

    One failed result. *)
Definition scan_failure (handlerOf : string -> string) (s : FailureScan) (r : WorkflowNodeResult) : FailureScan :=
  if includes VERIFICATION_HANDLERS (handlerOf (r_nodeId r)) then s
  else
    let sig := fingerprintFailure r in
    let nodeAttempts := jset (r_nodeId r) (nullish (jget (r_nodeId r) (fs_nodeAttempts s)) 0 + 1)%Z (fs_nodeAttempts s) in
    let '(allowed, a) := authorizeRepair sig (fs_authority s) in
    if negb allowed || includes (fs_seen s) sig
    then mkScan (fs_seen s) nodeAttempts (fs_newSignatures s) (fs_writeFailed s + 1) a
    else mkScan (fs_seen s ++ [sig]) nodeAttempts (fs_newSignatures s ++ [sig]) (fs_writeFailed s + 1) a.

(** [new Map(spec.nodes.map(n => [n.id, n.handler]))], read with a default. *)
Definition handler_map (spec : WorkflowSpec) (id : string) : string :=
  nullish (jget id (fold_left (fun m n => jset (n_id n) (n_handler n) m) (s_nodes spec) [])) "".

Definition confirm (confirmed : list (string * Z)) (e : EvidenceEntry) : list (string * Z) :=
  let id := nullish (head (ev_writeNodeIds e)) (ev_nodeId e) in
  if includes (fst <$> confirmed) id then confirmed else confirmed ++ [(id, 1%Z)].

Definition passing (run : WorkflowRunResult) : list EvidenceEntry :=
  filter (fun e => ev_passed e = true) (nullish (wrr_evidence run) []).

(** [s.startsWith(p)] *)
Fixpoint starts_with (p s : string) : bool :=
  match p, s with
  | EmptyString, _ => true
  | String c p, String d s => (c === d) && starts_with p s
  | String _ _, EmptyString => false
  end.

(** src/src/workflow/convergence/repair-loop.ts # RepairLoop.finalize *)
Definition finalize (outcome : RepairOutcome) (attempts : Z) (s : RepairState) : ConvergenceReport :=
  let blocked := filter (fun kv => includes (fst <$> rp_confirmed s) kv.1 = false) (rp_nodeAttempts s) in
  mkReport outcome attempts (rp_dryRounds s) (rp_seen s) (rp_confirmed s)
    ((fun kv => (kv.1, nullish (find (starts_with (kv.1 +:+ "|")) (rp_seen s)) (signature kv.1 unclassified), kv.2))
       <$> blocked)
    (rp_rounds s).

Record RepairOptions := mkRepairOptions {
  op_maxAttempts : Z;
  op_maxDryRounds : Z;
  op_budget : option Z;
}.

(** src/src/workflow/convergence/repair-loop.ts # RepairLoop.constructor *)
Definition repairOptions (maxAttempts maxDryRounds budget : option Z) : RepairOptions :=
  mkRepairOptions (nullish maxAttempts 3)%Z (nullish maxDryRounds 2)%Z budget.

Context (specFactory : Z -> list string -> list (string * Z) -> res string (option WorkflowSpec)).
Context (runner : Z -> WorkflowSpec -> res string WorkflowRunResult).
Context (options : RepairOptions).

(** src/src/workflow/convergence/repair-loop.ts # RepairLoop.run @120-164

    A round whose run has returned: the state, and whether the run is done. *)
Definition after_run (round : Z) (spec : WorkflowSpec) (run : WorkflowRunResult) (s : RepairState)
    : bool * RepairState :=
  let failed := filter (fun r => r_status r = st_failed) (wrr_results run) in
  let scan := fold_left (scan_failure (handler_map spec)) failed
    (mkScan (rp_seen s) (rp_nodeAttempts s) [] 0 (rp_authority s)) in
  let passed := Z.of_nat (length (passing run)) in
  let metricGain := (rp_prevPassed s <? passed)%Z || (fs_writeFailed scan <? rp_prevWriteFailed s)%Z in
  let dry := (length (fs_newSignatures scan) =? 0)%nat && negb metricGain in
  let dryRounds := if metricGain then 0%Z else if dry then (rp_dryRounds s + 1)%Z else 0%Z in
  let done := wrr_status run === run_done in
  let confirmed := if done then fold_left confirm (passing run) (rp_confirmed s) else rp_confirmed s in
  (done, mkRepair (fs_seen scan) confirmed (fs_nodeAttempts scan)
           (rp_rounds s ++ [mkAttempt round (Some run) (fs_newSignatures scan) dry]) dryRounds passed
           (fs_writeFailed scan) (fs_authority scan)).

Inductive RoundResult := Finished (r : ConvergenceReport) | Continue (s : RepairState).

(** src/src/workflow/convergence/repair-loop.ts # RepairLoop.run @103-170

    One iteration. *)
Definition repair_round (round : Z) (s : RepairState) : res string RoundResult :=
  if match op_budget options with Some b => (b <? round)%Z | None => false end
  then Ok (Finished (finalize ro_budget_exhausted (round - 1) s))
  else
    spec ← specFactory round (rp_seen s) (rp_confirmed s);
    match spec with
    | None =>
        let s := mkRepair (rp_seen s) (rp_confirmed s) (rp_nodeAttempts s)
                   (rp_rounds s ++ [mkAttempt round None [] true]) (rp_dryRounds s + 1) (rp_prevPassed s)
                   (rp_prevWriteFailed s) (rp_authority s) in
        Ok (if (op_maxDryRounds options <=? rp_dryRounds s)%Z then Finished (finalize ro_dry round s) else Continue s)
    | Some spec =>
        run ← runner round spec;
        let '(done, s) := after_run round spec run s in
        Ok (if done then Finished (finalize ro_done round s)
            else if (op_maxDryRounds options <=? rp_dryRounds s)%Z then Finished (finalize ro_dry round s)
            else Continue s)
    end.

(** The [for] loop, with the number of iterations left. *)
Fixpoint repair_rounds (fuel : nat) (round : Z) (s : RepairState) : res string ConvergenceReport :=
  match fuel with
  | O => Ok (finalize ro_max_attempts (op_maxAttempts options) s)
  | S fuel =>
      out ← repair_round round s;
      match out with
      | Finished r => Ok r
      | Continue s => repair_rounds fuel (round + 1)%Z s
      end
  end.

(** src/src/workflow/convergence/repair-loop.ts # RepairLoop.run *)
Definition repair_run (a : A) : res string ConvergenceReport :=
  repair_rounds (Z.to_nat (op_maxAttempts options)) 1 (newRepairState a).

(** ** What the loop guarantees *)

(** The length of the run of dry rounds at the end of a history. *)
Definition trailing_dry (rounds : list RepairAttempt) : Z :=
  fold_left (fun n a => if ra_dry a then n + 1 else 0)%Z rounds 0%Z.
Lemma trailing_dry_snoc rounds a :
  trailing_dry (rounds ++ [a]) = if ra_dry a then (trailing_dry rounds + 1)%Z else 0%Z.
Proof. unfold trailing_dry. by rewrite fold_left_app. Qed.

Definition attempt_done (a : RepairAttempt) : bool :=
  match ra_run a with Some run => wrr_status run === run_done | None => false end.

(** A history of [n] rounds: numbered from 1, each signature new in one round
    only. *)
Definition history_ok (n : Z) (rounds : list RepairAttempt) (seen : list string) (dryRounds : Z) : Prop :=
  Z.of_nat (length rounds) = n /\
  (forall i a, rounds !! i = Some a -> ra_round a = Z.of_nat i + 1)%Z /\
  seen = mjoin (ra_newSignatures <$> rounds) /\ NoDup seen /\ dryRounds = trailing_dry rounds.

Definition state_ok (n : Z) (s : RepairState) : Prop :=
  history_ok n (rp_rounds s) (rp_seen s) (rp_dryRounds s) /\ forall a, a ∈ rp_rounds s -> attempt_done a = false.

Lemma history_snoc n rounds seen dryRounds a :
  history_ok n rounds seen dryRounds -> ra_round a = (n + 1)%Z -> NoDup (seen ++ ra_newSignatures a) ->
  history_ok (n + 1) (rounds ++ [a]) (seen ++ ra_newSignatures a) (if ra_dry a then dryRounds + 1 else 0)%Z.
Proof.
  intros (H1 & H2 & H3 & H4 & H5) Ha Hnd. split_and!.
  - rewrite length_app. simpl. lia.
  - intros i x [Hx|[Hi Hx]]%lookup_app_Some; [by apply H2|].
    destruct (i - length rounds) as [|k] eqn:E; [|done]. simpl in Hx. injection Hx as <-. rewrite Ha. lia.
  - rewrite fmap_app, join_app, H3. simpl. by rewrite app_nil_r.
  - done.
  - by rewrite trailing_dry_snoc, <- H5.
Qed.

(** The failed results only append signatures that were not seen. *)
Lemma scan_failures_ok handlerOf failed sc :
  NoDup (fs_seen sc) ->
  exists new, fs_seen (fold_left (scan_failure handlerOf) failed sc) = fs_seen sc ++ new /\
    fs_newSignatures (fold_left (scan_failure handlerOf) failed sc) = fs_newSignatures sc ++ new /\
    NoDup (fs_seen sc ++ new).
Proof.
  revert sc. induction failed as [|r failed IH]; intros sc Hnd; cbn [fold_left].
  { exists []. by rewrite !app_nil_r. }
  unfold scan_failure at 2 4. destruct (includes VERIFICATION_HANDLERS _); [by apply IH|].
  destruct (authorizeRepair _ _) as [allowed a]. destruct (negb allowed || _) eqn:E.
  - match goal with |- context [fold_left _ failed ?sc'] => destruct (IH sc') as (new & H1 & H2 & H3) end; [done|].
    by exists new.
  - apply orb_false_iff in E as [_ E%includes_false].
    match goal with |- context [fold_left _ failed ?sc'] => destruct (IH sc') as (new & H1 & H2 & H3) end.
    { simpl. apply NoDup_app. split_and!; [done| |apply NoDup_singleton]. intros x Hx ->%list_elem_of_singleton. done. }
    exists (fingerprintFailure r :: new). simpl in *. rewrite H1, H2, <- !app_assoc in *. by split_and!.
Qed.

Lemma after_run_ok n spec run s done s' :
  state_ok n s -> after_run (n + 1) spec run s = (done, s') ->
  history_ok (n + 1) (rp_rounds s') (rp_seen s') (rp_dryRounds s') /\
  done = (wrr_status run === run_done) /\
  exists a, rp_rounds s' = rp_rounds s ++ [a] /\ ra_run a = Some run /\ attempt_done a = done.
Proof.
  intros [Hh _]. unfold after_run.
  set (sc := fold_left _ _ _). pose proof Hh as (_ & _ & _ & Hnd & _).
  destruct (scan_failures_ok (handler_map spec) (filter (fun r => r_status r = st_failed) (wrr_results run))
    (mkScan (rp_seen s) (rp_nodeAttempts s) [] 0 (rp_authority s)) Hnd) as (new & H1 & H2 & H3).
  fold sc in H1, H2. simpl in H1, H2, H3. intros [= <- <-]. simpl.
  set (gain := (_ || _)%bool). set (a := mkAttempt _ _ _ _).
  split_and!; [|done|by exists a].
  pose proof (history_snoc n _ _ _ a Hh eq_refl) as Hsnoc. simpl in Hsnoc. rewrite H2, <- H1 in Hsnoc.
  specialize (Hsnoc ltac:(by rewrite H1)). subst a. rewrite <- H2 in Hsnoc.
  replace (if gain then 0%Z else if (length (fs_newSignatures sc) =? 0) && negb gain then (rp_dryRounds s + 1)%Z else 0%Z)
    with (if (length (fs_newSignatures sc) =? 0) && negb gain then (rp_dryRounds s + 1)%Z else 0%Z); [exact Hsnoc|].
  destruct gain; simpl; [by rewrite andb_false_r|done].
Qed.

(** What a report says of its rounds. *)
Definition report_ok (rep : ConvergenceReport) : Prop :=
  let n := Z.of_nat (length (cr_rounds rep)) in
  history_ok n (cr_rounds rep) (cr_seen rep) (cr_dryRounds rep) /\
  (n <= Z.max 0 (op_maxAttempts options))%Z /\ (forall b, op_budget options = Some b -> n <= Z.max 0 b)%Z /\
  (forall l a x, cr_rounds rep = l ++ [a] -> x ∈ l -> attempt_done x = false) /\
  (cr_outcome rep = ro_done <-> exists l a, cr_rounds rep = l ++ [a] /\ attempt_done a = true) /\
  match cr_outcome rep with
  | ro_done => cr_attempts rep = n
  | ro_dry => cr_attempts rep = n /\ (op_maxDryRounds options <= trailing_dry (cr_rounds rep))%Z
  | ro_max_attempts => n = Z.max 0 (op_maxAttempts options)
  | ro_budget_exhausted => cr_attempts rep = n /\ exists b, op_budget options = Some b /\ n = Z.max 0 b
  end.

Lemma not_done_last (rounds : list RepairAttempt) :
  (forall a, a ∈ rounds -> attempt_done a = false) -> ~ exists l a, rounds = l ++ [a] /\ attempt_done a = true.
Proof. intros H (l & a & -> & Ha). rewrite H in Ha; [done|]. apply elem_of_app. right. left. Qed.
Lemma init_elem (rounds : list RepairAttempt) (a : RepairAttempt) l b x :
  rounds ++ [a] = l ++ [b] -> x ∈ l -> x ∈ rounds.
Proof. intros [-> _]%app_inj_2; done. Qed.

Lemma finalize_ok outcome attempts n s :
  state_ok n s -> (n <= Z.max 0 (op_maxAttempts options))%Z ->
  (forall b, op_budget options = Some b -> n <= Z.max 0 b)%Z -> outcome <> ro_done ->
  match outcome with
  | ro_done => True
  | ro_dry => attempts = n /\ (op_maxDryRounds options <= rp_dryRounds s)%Z
  | ro_max_attempts => n = Z.max 0 (op_maxAttempts options)
  | ro_budget_exhausted => attempts = n /\ exists b, op_budget options = Some b /\ n = Z.max 0 b
  end -> report_ok (finalize outcome attempts s).
Proof.
  intros [Hh Hnd] H1 H2 Hne Hm. pose proof Hh as (Hlen & _ & _ & _ & Hdry).
  unfold report_ok. cbn [finalize cr_rounds cr_seen cr_dryRounds cr_outcome cr_attempts]. rewrite Hlen.
  split_and!; [done|done|done| | |].
  - intros l a x E Hx. apply Hnd. rewrite E. apply elem_of_app. by left.
  - split; [done|]. intros H. by apply not_done_last in Hnd.
  - destruct outcome; [done| |done|done]. by rewrite <- Hdry.
Qed.

Lemma finalize_done_ok n s s' a :
  state_ok n s -> (n + 1 <= Z.max 0 (op_maxAttempts options))%Z ->
  (forall b, op_budget options = Some b -> n + 1 <= Z.max 0 b)%Z ->
  history_ok (n + 1) (rp_rounds s') (rp_seen s') (rp_dryRounds s') ->
  rp_rounds s' = rp_rounds s ++ [a] -> attempt_done a = true -> report_ok (finalize ro_done (n + 1) s').
Proof.
  intros [_ Hnd] H1 H2 Hh Er Ha. pose proof Hh as (Hlen & _).
  unfold report_ok. cbn [finalize cr_rounds cr_seen cr_dryRounds cr_outcome cr_attempts]. rewrite Hlen.
  split_and!; [done|done|done| |split; [by eauto|done]|done].
  intros l b x E Hx. apply Hnd. rewrite Er in E. by eapply init_elem.
Qed.

Context (factory_total : forall n seen confirmed, exists spec, specFactory n seen confirmed = Ok spec).
Context (runner_total : forall n spec, exists run, runner n spec = Ok run).

Lemma repair_round_ok n s :
  state_ok n s -> (0 <= n)%Z -> (n + 1 <= Z.max 0 (op_maxAttempts options))%Z ->
  (forall b, op_budget options = Some b -> n <= Z.max 0 b)%Z ->
  (exists rep, repair_round (n + 1) s = Ok (Finished rep) /\ report_ok rep) \/
  (exists s', repair_round (n + 1) s = Ok (Continue s') /\ state_ok (n + 1) s' /\
     forall b, op_budget options = Some b -> (n + 1 <= Z.max 0 b)%Z).
Proof.
  intros Hs Hn Hmax Hb. unfold repair_round.
  destruct (match op_budget options with Some b => _ | None => _ end) eqn:Eb.
  { left. eexists. split; [done|]. destruct (op_budget options) as [b|] eqn:Eo; [|done]. reflect.
    apply (finalize_ok _ _ n); [done|lia|by rewrite Eo|done|]. split; [lia|]. exists b. specialize (Hb b eq_refl).
    split; [done|lia]. }
  assert (forall b, op_budget options = Some b -> (n + 1 <= Z.max 0 b)%Z) as Hb'.
  { intros b Eo. rewrite Eo in Eb. reflect. lia. }
  destruct (factory_total (n + 1)%Z (rp_seen s) (rp_confirmed s)) as [[spec|] ->]; cbn [mbind res_bind].
  - destruct (runner_total (n + 1)%Z spec) as [run ->]. cbn [mbind res_bind].
    destruct (after_run (n + 1) spec run s) as [fin s'] eqn:Ea.
    destruct (after_run_ok _ _ _ _ _ _ Hs Ea) as (Hh & Hfin & a & Hr & _ & Had).
    destruct fin.
    + left. eexists. split; [done|]. by eapply finalize_done_ok.
    + assert (state_ok (n + 1) s') as Hs'.
      { split; [done|]. intros x. rewrite Hr, elem_of_app, list_elem_of_singleton. destruct Hs as [_ Hs].
        intros [Hx| ->]; [by apply Hs|done]. }
      destruct (op_maxDryRounds options <=? rp_dryRounds s')%Z eqn:Ed.
      * left. eexists. split; [done|]. reflect. by apply (finalize_ok _ _ (n + 1)).
      * right. by exists s'.
  - set (s' := mkRepair _ _ _ _ _ _ _ _).
    assert (state_ok (n + 1) s') as Hs'.
    { destruct Hs as [Hh Hnd]. split.
      - pose proof Hh as (_ & _ & _ & Hu & _).
        pose proof (history_snoc n _ _ _ (mkAttempt (n + 1) None [] true) Hh eq_refl) as H. simpl in H.
        rewrite app_nil_r in H. by apply H.
      - intros x. simpl. rewrite elem_of_app, list_elem_of_singleton. intros [Hx| ->]; [by apply Hnd|done]. }
    destruct (op_maxDryRounds options <=? rp_dryRounds s')%Z eqn:Ed.
    + left. eexists. split; [done|]. reflect. by apply (finalize_ok _ _ (n + 1)).
    + right. by exists s'.
Qed.

Lemma repair_rounds_ok fuel : forall n s,
  state_ok n s -> (0 <= n)%Z -> (n + Z.of_nat fuel = Z.max 0 (op_maxAttempts options))%Z ->
  (forall b, op_budget options = Some b -> n <= Z.max 0 b)%Z ->
  exists rep, repair_rounds fuel (n + 1) s = Ok rep /\ report_ok rep.
Proof.
  induction fuel as [|fuel IH]; intros n s Hs Hn Hf Hb; cbn [repair_rounds].
  - eexists. split; [done|]. apply (finalize_ok _ _ n); [done|lia|done|done|lia].
  - destruct (repair_round_ok n s Hs Hn ltac:(lia) Hb) as [(rep & -> & Hrep)|(s' & -> & Hs' & Hb')]; simpl.
    + by exists rep.
    + apply IH; [done|lia|lia|done].
Qed.

(** C25: The repair loop converges: when the factory and the runs return, the loop
    always produces a report, after at most [maxAttempts] rounds and within the
    round budget; every failure signature is new in at most one round and the
    report's signatures are exactly those; it stops at the first run that is done
    and says so only then; and otherwise it stops because the last [maxDryRounds]
    rounds were dry, the attempts are used up or the budget is. *)
Theorem repair_loop_converges (a : A) : exists rep, repair_run a = Ok rep /\ report_ok rep.
Proof.
  unfold repair_run. apply (repair_rounds_ok _ 0).
  - split; [|intros x Hx; by apply elem_of_nil in Hx]. split_and!; try done. constructor.
  - lia.
  - lia.
  - intros b _. lia.
Qed.
End RepairLoop.

(** Two rounds that fail the same way: the second is dry, and so is the third. *)
Definition failing_run : WorkflowRunResult :=
  mkRunResult "spec" run_failed [mkResult "w" st_failed JNull (Some "command timed out") None 0 0 0] None None None.
Definition repair_spec : WorkflowSpec := mkSpec v0_1 "spec" [mkNode "w" "tool.edit" JNull [] None None] None None None.

Lemma repair_loop_converges_witness :
  exists rep, repair_run (fun _ _ _ => Ok (Some repair_spec)) (fun _ _ => Ok failing_run)
                (repairOptions (Some 9%Z) None None) tt = Ok rep /\
    report_ok (repairOptions (Some 9%Z) None None) rep.
Proof.
  apply (repair_loop_converges (fun _ _ _ => Ok (Some repair_spec)) (fun _ _ => Ok failing_run)).
  - intros n seen confirmed. by eexists.
  - intros n spec. by eexists.
Defined.

(** The rule for tools that do not exist comes after the more general "not
    found", so its second pattern never decides. *)
Lemma missing_tool_is_missing_target :
  classifyError (Some "tool x not found in runtime tool set") = missing_target.
Proof. vm_compute. reflexivity. Qed.
