(* ===== verification/Frame.v ===== *)
(** The execd wire format: UTF-8, length-prefixed frames, the stream parser.

    Models [src/src/execd/protocol/frame.ts].  A [Buffer] is a list of bytes
    (integers below 256), a JavaScript string the list of its UTF-16 code units
    (integers below 65536).  [Buffer.from(s, "utf8")] and
    [buffer.toString("utf8")] are the two halves of the Encoding standard's
    UTF-8: a lone surrogate is written as U+FFFD, and every maximal ill-formed
    byte sequence is read as U+FFFD.  [JSON.parse] is a parameter. *)
From S2P Require Import Prelude Json Schema.

Open Scope Z_scope.

(** ** UTF-16 and UTF-8 *)

Abbreviation jschars := (list Z).
Abbreviation bytes := (list Z).

Definition is_unit (u : Z) : bool := (0 <=? u) && (u <? 65536).
Definition is_high (u : Z) : bool := (55296 <=? u) && (u <? 56320).
Definition is_low (u : Z) : bool := (56320 <=? u) && (u <? 57344).
Definition replacement : Z := 65533.

(** The code points of a string: a surrogate pair is one, a lone surrogate is
    U+FFFD. *)
Fixpoint code_points (s : jschars) : list Z :=
  match s with
  | [] => []
  | u :: s' =>
      if is_high u then
        match s' with
        | v :: s'' => if is_low v then 65536 + (u - 55296) * 1024 + (v - 56320) :: code_points s''
                      else replacement :: code_points s'
        | [] => [replacement]
        end
      else if is_low u then replacement :: code_points s'
      else u :: code_points s'
  end.

Definition units_of (c : Z) : jschars :=
  if c <? 65536 then [c] else [55296 + (c - 65536) / 1024; 56320 + (c - 65536) mod 1024].

(** [s.toWellFormed()] *)
Definition well_formed (s : jschars) : jschars := code_points s ≫= units_of.

Definition utf8_of (c : Z) : bytes :=
  if c <? 128 then [c]
  else if c <? 2048 then [192 + c / 64; 128 + c mod 64]
  else if c <? 65536 then [224 + c / 4096; 128 + (c / 64) mod 64; 128 + c mod 64]
  else [240 + c / 262144; 128 + (c / 4096) mod 64; 128 + (c / 64) mod 64; 128 + c mod 64].

(** [Buffer.from(s, "utf8")] *)
Definition utf8_encode (s : jschars) : bytes := code_points s ≫= utf8_of.

(** The decoder between two bytes: how many continuation bytes are awaited,
    the value so far, and the range the next byte must be in. *)
Record decoder := mkDecoder { needed : nat; acc : Z; lower : Z; upper : Z }.
Definition fresh : decoder := mkDecoder 0 0 128 191.

(** A byte read between characters: output and next state. *)
Definition lead (b : Z) : jschars * decoder :=
  if b <? 128 then ([b], fresh)
  else if (194 <=? b) && (b <=? 223) then ([], mkDecoder 1 (b - 192) 128 191)
  else if (224 <=? b) && (b <=? 239) then
    ([], mkDecoder 2 (b - 224) (if b =? 224 then 160 else 128) (if b =? 237 then 159 else 191))
  else if (240 <=? b) && (b <=? 244) then
    ([], mkDecoder 3 (b - 240) (if b =? 240 then 144 else 128) (if b =? 244 then 143 else 191))
  else ([replacement], fresh).

(** A byte read in any state; a byte that cannot continue the character is
    read again as the start of the next one. *)
Definition decode_byte (d : decoder) (b : Z) : jschars * decoder :=
  match needed d with
  | O => lead b
  | S n =>
      if (lower d <=? b) && (b <=? upper d) then
        let c := acc d * 64 + (b - 128) in
        match n with
        | O => (units_of c, fresh)
        | S _ => ([], mkDecoder n c 128 191)
        end
      else let '(out, d') := lead b in (replacement :: out, d')
  end.

Fixpoint decode_from (d : decoder) (bs : bytes) : jschars :=
  match bs with
  | [] => match needed d with O => [] | S _ => [replacement] end
  | b :: bs => let '(out, d') := decode_byte d b in out ++ decode_from d' bs
  end.

(** [buffer.toString("utf8")] *)
Definition utf8_decode (bs : bytes) : jschars := decode_from fresh bs.

(** ** Frames *)

(** src/src/execd/protocol/frame.ts # MAX_FRAME_BYTES *)
Definition MAX_FRAME_BYTES : Z := 16 * 1024 * 1024.
(** src/src/execd/protocol/frame.ts # HEADER_BYTES *)
Definition HEADER_BYTES : nat := 4.

Inductive frame_kind := request | response | event.
(** src/src/execd/protocol/frame.ts # Frame *)
Record Frame := mkFrame { kind : frame_kind; payload : jschars }.

#[export] Instance frame_kind_eq_dec : EqDecision frame_kind.
Proof. solve_decision. Defined.
#[export] Instance Frame_eq_dec : EqDecision Frame.
Proof. solve_decision. Defined.

(** The two [RangeError]s. *)
Inductive frame_error := frame_too_large (n : Z) | frame_header_too_large (n : Z).

#[export] Instance frame_error_eq_dec : EqDecision frame_error.
Proof. solve_decision. Defined.

Definition blen (b : bytes) : Z := Z.of_nat (length b).

(** [header.writeUInt32BE(n, 0)] on a fresh 4-byte buffer, and
    [buffer.readUInt32BE(0)] on a buffer of at least 4 bytes. *)
Definition writeUInt32BE (n : Z) : bytes :=
  [n / 16777216 mod 256; n / 65536 mod 256; n / 256 mod 256; n mod 256].
Definition readUInt32BE (b : bytes) : Z :=
  match b with
  | b0 :: b1 :: b2 :: b3 :: _ => b0 * 16777216 + b1 * 65536 + b2 * 256 + b3
  | _ => 0
  end.

(** src/src/execd/protocol/frame.ts # encodeFrame *)
Definition encodeFrame (payload : jschars) : res frame_error bytes :=
  let body := utf8_encode payload in
  if MAX_FRAME_BYTES <? blen body then Throw (frame_too_large (blen body))
  else Ok (writeUInt32BE (blen body) ++ body).

Section Codec.
(** [JSON.parse]; [None] is a [SyntaxError]. *)
Context (JSON_parse : jschars -> option jsval).

(** src/src/execd/protocol/frame.ts # frameKindOf *)
Definition frameKindOf (payload : jschars) : frame_kind :=
  match JSON_parse payload with
  | None => response
  | Some obj =>
      match field "type" obj with
      | JStr "event" => event
      | _ => if negb (falsy (field "method" obj)) then request else response
      end
  end.

(** src/src/execd/protocol/frame.ts # FrameCodec @41-42 *)
Record FrameCodec := mkCodec { buffer : bytes }.
Definition newCodec : FrameCodec := mkCodec [].

(** src/src/execd/protocol/frame.ts # FrameCodec.feed @48-58

    The loop of [feed]: what is left in the buffer, and the frames or the
    error.  Every turn that continues removes a header, so the buffer's length
    bounds the turns. *)
Fixpoint feed_loop (fuel : nat) (buf : bytes) (frames : list Frame) : bytes * res frame_error (list Frame) :=
  match fuel with
  | O => (buf, Ok frames)
  | S fuel =>
      if (length buf <? HEADER_BYTES)%nat then (buf, Ok frames) else
      let len := readUInt32BE buf in
      if MAX_FRAME_BYTES <? len then (buf, Throw (frame_header_too_large len)) else
      if blen buf <? Z.of_nat HEADER_BYTES + len then (buf, Ok frames) else
      let n := Z.to_nat len in
      let payload := utf8_decode (take n (drop HEADER_BYTES buf)) in
      feed_loop fuel (drop (HEADER_BYTES + n) buf) (frames ++ [mkFrame (frameKindOf payload) payload])
  end.

(** src/src/execd/protocol/frame.ts # FrameCodec.feed *)
Definition feed (c : FrameCodec) (chunk : bytes) : FrameCodec * res frame_error (list Frame) :=
  let buf := match buffer c with [] => chunk | b => b ++ chunk end in
  let '(buf', r) := feed_loop (S (length buf)) buf [] in
  (mkCodec buf', r).

(** src/src/execd/protocol/frame.ts # FrameCodec.pendingBytes *)
Definition pendingBytes (c : FrameCodec) : nat := length (buffer c).

(** A connection: the chunks of a socket in order, until one throws. *)
Fixpoint feed_all (c : FrameCodec) (chunks : list bytes) : FrameCodec * res frame_error (list Frame) :=
  match chunks with
  | [] => (c, Ok [])
  | chunk :: chunks =>
      match feed c chunk with
      | (c', Throw e) => (c', Throw e)
      | (c', Ok fs) =>
          match feed_all c' chunks with
          | (c'', Ok fs') => (c'', Ok (fs ++ fs'))
          | (c'', Throw e) => (c'', Throw e)
          end
      end
  end.
End Codec.

(** ** UTF-8 round trip *)

Definition scalar (c : Z) : Prop := 0 <= c < 55296 \/ 57344 <= c < 1114112.
Definition is_byte (b : Z) : Prop := 0 <= b < 256.
(** The code units of a JavaScript string. *)
Definition valid_string (s : jschars) : Prop := Forall (fun u => is_unit u = true) s.

Ltac div_lia := Z.div_mod_to_equations; lia.
(** Decide the [if]s on integer comparisons whose outcome [lia] knows. *)
Ltac decide_ifs :=
  repeat match goal with
  | |- context [?x <? ?y] =>
      first [rewrite (proj2 (Z.ltb_lt x y)) by div_lia | rewrite (proj2 (Z.ltb_ge x y)) by div_lia]
  | |- context [?x <=? ?y] =>
      first [rewrite (proj2 (Z.leb_le x y)) by div_lia | rewrite (proj2 (Z.leb_gt x y)) by div_lia]
  end; cbn [andb].

Lemma decode_lead b bs out d :
  lead b = (out, d) -> decode_from fresh (b :: bs) = out ++ decode_from d bs.
Proof. intros H. cbn [decode_from decode_byte needed fresh]. unfold decode_byte. simpl. by rewrite H. Qed.

Lemma decode_more n a lo hi b bs : lo <= b <= hi ->
  decode_from (mkDecoder (S (S n)) a lo hi) (b :: bs) =
  decode_from (mkDecoder (S n) (a * 64 + (b - 128)) 128 191) bs.
Proof. intros. cbn [decode_from]. unfold decode_byte. cbn [needed acc lower upper]. by decide_ifs. Qed.

Lemma decode_last a lo hi b bs : lo <= b <= hi ->
  decode_from (mkDecoder 1 a lo hi) (b :: bs) = units_of (a * 64 + (b - 128)) ++ decode_from fresh bs.
Proof. intros. cbn [decode_from]. unfold decode_byte. cbn [needed acc lower upper]. by decide_ifs. Qed.

Lemma lead_2 b : 194 <= b <= 223 -> lead b = ([], mkDecoder 1 (b - 192) 128 191).
Proof. intros. unfold lead. by decide_ifs. Qed.
Lemma lead_3 b : 224 <= b <= 239 ->
  lead b = ([], mkDecoder 2 (b - 224) (if b =? 224 then 160 else 128) (if b =? 237 then 159 else 191)).
Proof. intros. unfold lead. by decide_ifs. Qed.
Lemma lead_4 b : 240 <= b <= 244 ->
  lead b = ([], mkDecoder 3 (b - 240) (if b =? 240 then 144 else 128) (if b =? 244 then 143 else 191)).
Proof. intros. unfold lead. by decide_ifs. Qed.

(** Reading one encoded code point back. *)
Lemma decode_utf8_of c bs : scalar c -> decode_from fresh (utf8_of c ++ bs) = units_of c ++ decode_from fresh bs.
Proof.
  intros Hc. unfold utf8_of.
  destruct (Z.ltb_spec c 128); [|destruct (Z.ltb_spec c 2048); [|destruct (Z.ltb_spec c 65536)]];
    unfold scalar in Hc; cbn [app].
  - rewrite (decode_lead _ _ [c] fresh) by (unfold lead; by decide_ifs). unfold units_of. by decide_ifs.
  - erewrite decode_lead by (apply lead_2; div_lia). cbn [app]. rewrite decode_last by div_lia.
    do 2 f_equal. div_lia.
  - erewrite decode_lead by (apply lead_3; div_lia). cbn [app]. rewrite decode_more, decode_last.
    + do 2 f_equal. div_lia.
    + div_lia.
    + destruct (Z.eqb_spec (224 + c / 4096) 224), (Z.eqb_spec (224 + c / 4096) 237); div_lia.
  - erewrite decode_lead by (apply lead_4; div_lia). cbn [app].
    rewrite decode_more, decode_more, decode_last; [|div_lia..|].
    + do 2 f_equal. div_lia.
    + destruct (Z.eqb_spec (240 + c / 262144) 240), (Z.eqb_spec (240 + c / 262144) 244); div_lia.
Qed.

(** Induction along [code_points], which reads one or two units. *)
Lemma string_ind (P : jschars -> Prop) :
  P [] -> (forall u, P [u]) -> (forall u v s, P s -> P (v :: s) -> P (u :: v :: s)) -> forall s, P s.
Proof.
  intros H0 H1 H2. assert (forall s, P s /\ forall u, P (u :: s)) as H; [|intros; apply H].
  induction s as [|v s [IH1 IH2]]; split; auto.
Qed.

Lemma code_points_cons u v s :
  code_points (u :: v :: s) =
  if is_high u then
    if is_low v then 65536 + (u - 55296) * 1024 + (v - 56320) :: code_points s
    else replacement :: code_points (v :: s)
  else if is_low u then replacement :: code_points (v :: s) else u :: code_points (v :: s).
Proof. done. Qed.

Lemma code_points_scalar s : valid_string s -> Forall scalar (code_points s).
Proof.
  unfold valid_string, is_unit, scalar.
  induction s as [|u|u v s IH1 IH2] using string_ind; [constructor| |]; intros Hs; inv Hs.
  - simpl. unfold is_high, is_low, replacement. cases; apply Forall_singleton; reflect; lia.
  - assert (Forall scalar (code_points s)) by (apply IH1; by inv H2).
    rewrite code_points_cons. destruct (is_high u) eqn:Eu; [destruct (is_low v) eqn:Ev|destruct (is_low u) eqn:El].
    + constructor; [|done]. unfold is_high, is_low in *. reflect. lia.
    + constructor; [unfold replacement; lia|auto].
    + constructor; [unfold replacement; lia|auto].
    + constructor; [|auto]. unfold is_high, is_low in *. reflect. lia.
Qed.

Lemma decode_encode_app cs bs :
  Forall scalar cs -> decode_from fresh ((cs ≫= utf8_of) ++ bs) = (cs ≫= units_of) ++ decode_from fresh bs.
Proof. induction 1 as [|c cs Hc _ IH]; [done|]. rewrite !bind_cons, <-!app_assoc, decode_utf8_of, IH; done. Qed.

(** Encoding then decoding is [toWellFormed]. *)
Lemma utf8_roundtrip s : valid_string s -> utf8_decode (utf8_encode s) = well_formed s.
Proof.
  intros Hs%code_points_scalar. unfold utf8_decode, utf8_encode, well_formed.
  rewrite <-(app_nil_r (code_points s ≫= utf8_of)), decode_encode_app by done. apply app_nil_r.
Qed.

(** On a string without lone surrogates that is the string itself. *)
Fixpoint no_lone_surrogate (s : jschars) : bool :=
  match s with
  | [] => true
  | u :: s' =>
      if is_high u then
        match s' with
        | v :: s'' => is_low v && no_lone_surrogate s''
        | [] => false
        end
      else negb (is_low u) && no_lone_surrogate s'
  end.

Lemma well_formed_id s : valid_string s -> no_lone_surrogate s = true -> well_formed s = s.
Proof.
  unfold valid_string, is_unit, well_formed.
  induction s as [|u|u v s IH1 IH2] using string_ind; [done| |]; intros Hs; inv Hs.
  - simpl. unfold is_high, is_low. cases. intros _. unfold units_of. reflect. by decide_ifs.
  - rewrite code_points_cons. cbn [no_lone_surrogate]. fold no_lone_surrogate. inv H2. destruct (is_high u) eqn:Eu.
    + destruct (is_low v) eqn:Ev; [|done]. intros H. rewrite bind_cons, IH1 by done.
      unfold units_of, is_high, is_low in *. reflect. decide_ifs.
      cbn [app]. f_equal; [div_lia|f_equal; div_lia].
    + destruct (is_low u) eqn:El; [done|]. intros H. rewrite bind_cons, IH2; [|by constructor|done].
      unfold units_of. reflect. by decide_ifs.
Qed.

Lemma utf8_bytes c : scalar c -> Forall is_byte (utf8_of c).
Proof. unfold scalar, utf8_of, is_byte. intros. cases; reflect; repeat constructor; div_lia. Qed.

(** ** The header *)

Lemma read_write_UInt32BE n bs : 0 <= n < 4294967296 -> readUInt32BE (writeUInt32BE n ++ bs) = n.
Proof. intros. unfold writeUInt32BE. cbn [app readUInt32BE]. div_lia. Qed.

Lemma encode_bytes s : valid_string s -> Forall is_byte (utf8_encode s).
Proof.
  intros Hs%code_points_scalar. unfold utf8_encode. induction Hs as [|c cs Hc _ IH]; [constructor|].
  rewrite bind_cons, Forall_app. split; [by apply utf8_bytes|done].
Qed.

(** ** The stream parser *)

Section Stream.
Context (JSON_parse : jschars -> option jsval).
Abbreviation frameOf p := (mkFrame (frameKindOf JSON_parse p) p).
Abbreviation loop := (feed_loop JSON_parse).

(** One turn of the loop: stop, refuse the header, or take a frame off. *)
Definition turn (buf : bytes) : option frame_error + jschars * bytes :=
  if (length buf <? HEADER_BYTES)%nat then inl None else
  let len := readUInt32BE buf in
  if MAX_FRAME_BYTES <? len then inl (Some (frame_header_too_large len)) else
  if blen buf <? Z.of_nat HEADER_BYTES + len then inl None else
  inr (utf8_decode (take (Z.to_nat len) (drop HEADER_BYTES buf)), drop (HEADER_BYTES + Z.to_nat len) buf).

Lemma loop_turn n buf fs :
  loop (S n) buf fs =
  match turn buf with
  | inl None => (buf, Ok fs)
  | inl (Some e) => (buf, Throw e)
  | inr (p, rest) => loop n rest (fs ++ [frameOf p])
  end.
Proof. cbn [feed_loop]. unfold turn. by repeat case_match. Qed.

Lemma turn_shorter buf p rest : turn buf = inr (p, rest) -> (length rest < length buf)%nat.
Proof.
  unfold turn, HEADER_BYTES. destruct (_ <? 4)%nat eqn:E; [done|]. cases. intros [= <- <-].
  reflect. rewrite length_drop. lia.
Qed.

(** Enough fuel: more than the bytes there are. *)
Lemma loop_fuel n m buf fs : (length buf < n)%nat -> (length buf < m)%nat -> loop n buf fs = loop m buf fs.
Proof.
  revert m buf fs. induction n as [|n IH]; intros [|m] buf fs Hn Hm; try lia.
  rewrite !loop_turn. destruct (turn buf) as [[e|]|[p rest]] eqn:E; try done.
  apply turn_shorter in E. apply IH; lia.
Qed.

(** Frames taken before are only prepended. *)
Lemma loop_frames n buf fs :
  loop n buf fs = (let '(b, r) := loop n buf [] in (b, (app fs) <$> r)).
Proof.
  revert buf fs. induction n as [|n IH]; intros buf fs.
  - cbn. by rewrite app_nil_r.
  - rewrite !loop_turn. destruct (turn buf) as [[e|]|[p rest]]; [done|cbn; by rewrite app_nil_r|].
    rewrite (IH rest (fs ++ _)), (IH rest ([] ++ _)). destruct (loop n rest []) as [b [fs'|e]]; [|done].
    cbn. by rewrite <-app_assoc.
Qed.

(** Everything a buffer holds. *)
Definition parse (buf : bytes) : bytes * res frame_error (list Frame) := loop (S (length buf)) buf [].

Lemma parse_eq buf :
  parse buf =
  match turn buf with
  | inl None => (buf, Ok [])
  | inl (Some e) => (buf, Throw e)
  | inr (p, rest) => let '(b, r) := parse rest in (b, cons (frameOf p) <$> r)
  end.
Proof.
  unfold parse at 1. rewrite loop_turn. destruct (turn buf) as [[e|]|[p rest]] eqn:E; [done..|].
  rewrite loop_frames. apply turn_shorter in E. unfold parse.
  rewrite (loop_fuel (length buf) (S (length rest))) by lia. by destruct (loop _ rest []) as [b [?|?]].
Qed.

Lemma read_app buf c : (4 <= length buf)%nat -> readUInt32BE (buf ++ c) = readUInt32BE buf.
Proof. destruct buf as [|? [|? [|? [|? ?]]]]; simpl; intros; (lia || done). Qed.

(** More data changes neither a frame taken nor a header refused. *)
Lemma turn_app buf c :
  match turn buf with
  | inl None => True
  | inl (Some e) => turn (buf ++ c) = inl (Some e)
  | inr (p, rest) => turn (buf ++ c) = inr (p, rest ++ c)
  end.
Proof.
  unfold turn, HEADER_BYTES, blen. destruct (length buf <? 4)%nat eqn:E; [done|]. reflect.
  rewrite (read_app buf c) by lia. rewrite length_app.
  rewrite (proj2 (Nat.ltb_ge (length buf + length c) 4)) by lia.
  destruct (MAX_FRAME_BYTES <? _) eqn:Em; [done|].
  destruct (Z.of_nat (length buf) <? _) eqn:El; [done|]. reflect.
  rewrite (proj2 (Z.ltb_ge (Z.of_nat (length buf + length c)) _)) by lia.
  assert (Z.to_nat (readUInt32BE buf) <= length buf - 4)%nat by lia.
  rewrite drop_app_le by lia. rewrite drop_app_le by lia. rewrite take_app_le; [done|].
  rewrite length_drop. lia.
Qed.

(** Induction on a buffer by the frames taken off. *)
Lemma parse_ind (P : bytes -> Prop) :
  (forall buf, (forall p rest, turn buf = inr (p, rest) -> P rest) -> P buf) -> forall buf, P buf.
Proof.
  intros H buf. remember (length buf) as n eqn:Hn. revert buf Hn.
  induction (lt_wf n) as [n _ IH]. intros buf ->. apply H. intros p rest Ht. by eapply IH; [apply (turn_shorter _ p rest)|].
Qed.

(** Reading in two pieces is reading in one. *)
Lemma parse_app buf c b fs :
  parse buf = (b, Ok fs) -> parse (buf ++ c) = (let '(b', r) := parse (b ++ c) in (b', app fs <$> r)).
Proof.
  revert b fs. induction buf as [buf IH] using parse_ind. intros b fs. rewrite (parse_eq buf).
  pose proof (turn_app buf c) as Ht. destruct (turn buf) as [[e|]|[p rest]] eqn:E; [done| |].
  - intros [= <- <-]. by destruct (parse (buf ++ c)) as [b' [?|?]].
  - destruct (parse rest) as [b1 [fs1|e]] eqn:E1; [|done]. intros [= -> <-].
    rewrite (parse_eq (buf ++ c)), Ht, (IH p rest eq_refl b fs1) by done.
    by destruct (parse (b ++ c)) as [b' [?|?]].
Qed.

Lemma feed_parse c chunk :
  feed JSON_parse c chunk = (let '(b, r) := parse (buffer c ++ chunk) in (mkCodec b, r)).
Proof. unfold feed, parse. by destruct (buffer c). Qed.

Lemma parse_app_throw buf c b e :
  parse buf = (b, Throw e) -> exists b', parse (buf ++ c) = (b', Throw e).
Proof.
  revert b. induction buf as [buf IH] using parse_ind. intros b. rewrite (parse_eq buf).
  pose proof (turn_app buf c) as Ht. destruct (turn buf) as [[e'|]|[p rest]] eqn:E; [|done|].
  - intros [= <- <-]. rewrite parse_eq, Ht. eauto.
  - destruct (parse rest) as [b1 [fs1|e1]] eqn:E1; [done|]. intros [= -> ->].
    destruct (IH p rest eq_refl b E1) as [b' Hb]. rewrite parse_eq, Ht, Hb. by eexists.
Qed.

(** What is left cannot be parsed further. *)
Lemma parse_rest buf b fs : parse buf = (b, Ok fs) -> turn b = inl None.
Proof.
  revert b fs. induction buf as [buf IH] using parse_ind. intros b fs. rewrite (parse_eq buf).
  destruct (turn buf) as [[e|]|[p rest]] eqn:E; [done|by intros [= <- <-]|].
  destruct (parse rest) as [b1 [fs1|e1]] eqn:E1; [|done]. intros [= -> <-]. by eapply IH.
Qed.

(** Feeding chunk by chunk is parsing the whole. *)
Lemma feed_all_parse chunks : forall c,
  turn (buffer c) = inl None ->
  (feed_all JSON_parse c chunks).2 = (parse (buffer c ++ concat chunks)).2 /\
  forall fs, (feed_all JSON_parse c chunks).2 = Ok fs ->
    (feed_all JSON_parse c chunks).1 = mkCodec (parse (buffer c ++ concat chunks)).1.
Proof.
  induction chunks as [|chunk chunks IH]; intros [buf] Ht; cbn [feed_all concat buffer] in *.
  { rewrite app_nil_r, parse_eq, Ht. done. }
  rewrite feed_parse, app_assoc. cbn [buffer]. destruct (parse (buf ++ chunk)) as [b [fs|e]] eqn:E.
  - rewrite (parse_app _ _ _ _ E).
    destruct (IH (mkCodec b)) as [IH1 IH2]; [by eapply parse_rest|]. cbn [buffer] in *.
    destruct (feed_all JSON_parse (mkCodec b) chunks) as [c' r], (parse (b ++ concat chunks)) as [b' r'].
    cbn [fst snd] in *. subst r'. destruct r as [fs'|e]; cbn; [|done].
    split; [done|]. intros ? _. by apply (IH2 fs').
  - destruct (parse_app_throw _ (concat chunks) _ _ E) as [b' ->]. done.
Qed.

Lemma turn_frame p bs : valid_string p -> blen (utf8_encode p) <= MAX_FRAME_BYTES ->
  turn (writeUInt32BE (blen (utf8_encode p)) ++ utf8_encode p ++ bs) = inr (well_formed p, bs).
Proof.
  intros Hp Hl. set (body := utf8_encode p) in *. unfold turn. unfold MAX_FRAME_BYTES, blen, HEADER_BYTES in *.
  rewrite read_write_UInt32BE by lia. rewrite !length_app. cbn [length writeUInt32BE].
  rewrite (proj2 (Nat.ltb_ge _ _)) by lia. rewrite (proj2 (Z.ltb_ge _ _)) by lia.
  rewrite (proj2 (Z.ltb_ge _ _)) by lia. rewrite Nat2Z.id.
  change (drop (4 + length body) _) with (drop (length body) (body ++ bs)).
  change (drop 4 _) with (body ++ bs).
  rewrite drop_app_length, take_app_length. unfold body. by rewrite utf8_roundtrip.
Qed.

(** The bytes [encodeFrame] writes for a payload that fits. *)
Lemma encodeFrame_Ok p b : encodeFrame p = Ok b ->
  blen (utf8_encode p) <= MAX_FRAME_BYTES /\ b = writeUInt32BE (blen (utf8_encode p)) ++ utf8_encode p.
Proof. unfold encodeFrame. cbv zeta. case_match; [done|]. intros [= <-]. by reflect. Qed.

Lemma turn_partial p b k : encodeFrame p = Ok b -> (k < length b)%nat -> turn (take k b) = inl None.
Proof.
  intros [Hl ->]%encodeFrame_Ok Hk. unfold turn, blen, HEADER_BYTES, MAX_FRAME_BYTES in *.
  set (body := utf8_encode p) in *. rewrite length_app in Hk. cbn [length writeUInt32BE] in Hk.
  rewrite length_take, length_app. cbn [length writeUInt32BE].
  destruct (_ <? 4)%nat eqn:E; [done|]. reflect.
  rewrite take_app_ge by (cbn [length writeUInt32BE]; lia). rewrite read_write_UInt32BE by lia.
  rewrite (proj2 (Z.ltb_ge _ _)) by lia. by rewrite (proj2 (Z.ltb_lt _ _)) by lia.
Qed.

Lemma parse_frames ps bufs tail :
  Forall valid_string ps -> mapM encodeFrame ps = Ok bufs -> turn tail = inl None ->
  parse (concat bufs ++ tail) = (tail, Ok ((fun p => frameOf (well_formed p)) <$> ps)).
Proof.
  intros Hps. revert bufs. induction Hps as [|p ps Hp _ IH]; intros bufs Hm Ht; cbn [mapM] in Hm.
  - injection Hm as <-. cbn [concat app]. by rewrite parse_eq, Ht.
  - apply res_bind_Ok in Hm as (b & Hb & (bs & Hbs & [= <-])%res_bind_Ok). apply encodeFrame_Ok in Hb as [Hl ->].
    rewrite concat_cons, <-!app_assoc, parse_eq, turn_frame, IH by done. done.
Qed.

(** C15: Frames survive the socket: whatever chunks the concatenated encodings of
    the payloads arrive in, followed by any proper prefix of one more frame, the
    codec never throws, returns exactly one frame per payload, in order and with
    its text, and keeps exactly the bytes of the incomplete frame. *)
Theorem frame_stream_roundtrip ps bufs next nextb k chunks :
  Forall valid_string ps -> mapM encodeFrame ps = Ok bufs ->
  encodeFrame next = Ok nextb -> (k < length nextb)%nat ->
  concat chunks = concat bufs ++ take k nextb ->
  feed_all JSON_parse newCodec chunks =
    (mkCodec (take k nextb), Ok ((fun p => mkFrame (frameKindOf JSON_parse (well_formed p)) (well_formed p)) <$> ps)).
Proof.
  intros Hps Hm Hn Hk Hc. pose proof (turn_partial _ _ _ Hn Hk) as Ht.
  destruct (feed_all_parse chunks newCodec eq_refl) as [H2 H1]. cbn [buffer newCodec app] in *.
  rewrite Hc, (parse_frames _ _ _ Hps Hm Ht) in H1, H2.
  destruct (feed_all JSON_parse newCodec chunks) as [c r]. cbn [fst snd] in *. subst r. f_equal. by eapply H1.
Qed.

(** What stays buffered is less than one maximal frame. *)
Lemma turn_none_bound buf : turn buf = inl None -> blen buf < Z.of_nat HEADER_BYTES + MAX_FRAME_BYTES.
Proof.
  unfold turn, HEADER_BYTES, MAX_FRAME_BYTES, blen. destruct (_ <? 4)%nat eqn:E; cases; intros _; reflect; lia.
Qed.

(** A payload the parser delivers is no longer than its frame allows. *)
Lemma feed_bounded c chunk c' fs :
  feed JSON_parse c chunk = (c', Ok fs) ->
  Z.of_nat (pendingBytes c') < Z.of_nat HEADER_BYTES + MAX_FRAME_BYTES.
Proof.
  rewrite feed_parse. destruct (parse _) as [b r] eqn:E. intros [= <- ->].
  apply parse_rest, turn_none_bound in E. exact E.
Qed.

(** A header above the limit is refused as soon as its four bytes are there,
    whatever follows. *)
Lemma oversized_header_refused bufs ps n chunks :
  Forall valid_string ps -> mapM encodeFrame ps = Ok bufs -> MAX_FRAME_BYTES < n < 4294967296 ->
  (exists rest, concat chunks = concat bufs ++ writeUInt32BE n ++ rest) ->
  (feed_all JSON_parse newCodec chunks).2 = Throw (frame_header_too_large n).
Proof.
  intros Hps Hm Hn [rest Hc]. destruct (feed_all_parse chunks newCodec eq_refl) as [-> _].
  cbn [buffer newCodec app]. rewrite Hc.
  pose proof (parse_frames ps bufs [] Hps Hm eq_refl) as Hp. rewrite app_nil_r in Hp.
  rewrite (parse_app _ _ _ _ Hp), app_nil_l, parse_eq. unfold turn, HEADER_BYTES, MAX_FRAME_BYTES in *.
  rewrite read_write_UInt32BE by lia. rewrite length_app. cbn [length writeUInt32BE].
  rewrite (proj2 (Nat.ltb_ge _ _)) by lia. rewrite (proj2 (Z.ltb_lt _ _)) by lia. done.
Qed.
End Stream.

(** "hé" and "😀" sent in two chunks that split a character, and half of a
    third frame. *)
Lemma frame_stream_roundtrip_witness :
  feed_all (fun _ => None) newCodec [[0;0;0;3;104;195]; [169;0;0;0;4;240;159;152;128;0;0]]
  = (mkCodec [0;0], Ok [mkFrame response [104; 233]; mkFrame response [55357; 56832]]).
Proof.
  apply (frame_stream_roundtrip (fun _ => None) [[104; 233]; [55357; 56832]] [[0;0;0;3;104;195;169]; [0;0;0;4;240;159;152;128]]
           [104] [0;0;0;1;104] 2); [|reflexivity|reflexivity|simpl; lia|reflexivity].
  repeat constructor.
Defined.
