(* ===== verification/ExecdStore.v ===== *)
(** execd's persistent state: the tables, their statements, the guarded state
    transition, and the run leases.

    Models [src/src/execd/state/store.ts] and
    [src/src/execd/lease-manager.ts].  A SQLite table is the list of its rows in
    rowid order, keyed by its primary key; each definition is the statement the
    method runs: [INSERT .. ON CONFLICT DO UPDATE] and [UPDATE] keep the row's
    place, [INSERT OR REPLACE] moves it to the end.  [cell_events] numbers its
    rows by [AUTOINCREMENT]: one more than the greatest number ever used.  [SQL
    NULL] is [None].  A [withTransaction] body commits as a whole, so a
    transaction is the composition of its statements.  The clock is read once
    per call. *)
From S2P Require Import Prelude.
Open Scope string_scope.
Open Scope Z_scope.
Open Scope list_scope.

(** ** Rows *)

(** src/src/execd/state/store.ts # CellState *)
Inductive CellState :=
| ACCEPTED | POLICY_COMPILED | WAITING_RESOURCES | RESERVED | CGROUP_READY | WORKSPACE_READY
| BACKEND_READY | STARTING | RUNNING | EXIT_OBSERVED | RECEIPT_COMMITTED | EVIDENCE_BOUND
| CLEANUP_PENDING | CLEANED
| REJECTED_POLICY | START_FAILED | CANCELLED | TIMED_OUT | OOM_KILLED | OUTPUT_LIMITED | LOST
| SIDE_EFFECT_UNKNOWN | CLEANUP_FAILED.

#[export] Instance CellState_eq_dec : EqDecision CellState.
Proof. solve_decision. Defined.

(** src/src/execd/state/store.ts # TERMINAL_CELL_STATES *)
Definition TERMINAL_CELL_STATES : list CellState :=
  [CLEANED; REJECTED_POLICY; START_FAILED; CANCELLED; TIMED_OUT;
   OOM_KILLED; OUTPUT_LIMITED; LOST; SIDE_EFFECT_UNKNOWN; CLEANUP_FAILED].

Inductive event_kind := k_state | k_stdout | k_stderr | k_exit | k_receipt.

#[export] Instance event_kind_eq_dec : EqDecision event_kind.
Proof. solve_decision. Defined.

(** src/src/execd/state/store.ts # CellEventRow *)
Record CellEventRow := mkEvent {
  eventSequence : Z; ev_cellId : string; ev_attemptId : string; fromState : option CellState;
  toState : CellState; reasonCode : string; actor : string; payloadDigest : string; ev_at : Z;
  ev_kind : event_kind; ev_payload : option (list Z) }.

(** src/src/execd/state/store.ts # CellRecord *)
Record CellRecord := mkCell {
  cellId : string; runId : string; nodeRunId : string; attempt : Z; agentId : option string;
  capabilityId : string; executable : string; argsJson : list Z; cwdRef : option string;
  timeoutMs : option Z; currentState : CellState; createdAt : Z; updatedAt : Z }.

(** src/src/execd/state/store.ts # IdempotencyRecord

    [responseJson] is the serialized submit response ([JSON.stringify] of plain
    data, read back by [JSON.parse]), kept here as the data. *)
Record SubmitResponse := mkResponse { r_cellId : string; r_runId : string; r_rejected : bool }.
Record IdempotencyRecord := mkIdem { idem_method : string; responseJson : SubmitResponse; idem_at : Z }.

(** src/src/execd/state/store.ts # SCHEMA @176-184 *)
Record LeaseRow := mkLease {
  l_runId : string; l_holder : string; l_ttlMs : Z; l_expiresAt : Z; l_createdAt : Z; l_releasedAt : option Z }.

(** src/src/execd/state/store.ts # SCHEMA @224-233 *)
Record HandleRow := mkHandle {
  h_cellId : string; h_runId : string; h_attemptId : string; h_cgroupPath : string;
  h_spawnPid : option Z; h_startedAt : Z; h_takeover : option string }.

(** src/src/execd/state/store.ts # SCHEMA @185-191 *)
Record ReceiptRow := mkReceipt { rc_cellId : string; rc_runId : string; rc_json : list Z; rc_committedAt : Z }.
Record RunRow := mkRun { run_status : string; run_createdAt : Z }.

(** The database. *)
Record Store := mkStore {
  cells : list (string * CellRecord);
  cell_events : list CellEventRow;
  last_sequence : Z;
  runs : list (string * RunRow);
  receipts : list (string * ReceiptRow);
  leases : list (string * LeaseRow);
  execution_handles : list (string * HandleRow);
  log_index : list ((string * string) * (Z * Z));
  idempotency_keys : list (string * IdempotencyRecord) }.

Definition emptyStore : Store := mkStore [] [] 0 [] [] [] [] [] [].

Definition with_cells s v := mkStore v (cell_events s) (last_sequence s) (runs s) (receipts s) (leases s) (execution_handles s) (log_index s) (idempotency_keys s).
Definition with_events s v n := mkStore (cells s) v n (runs s) (receipts s) (leases s) (execution_handles s) (log_index s) (idempotency_keys s).
Definition with_runs s v := mkStore (cells s) (cell_events s) (last_sequence s) v (receipts s) (leases s) (execution_handles s) (log_index s) (idempotency_keys s).
Definition with_receipts s v := mkStore (cells s) (cell_events s) (last_sequence s) (runs s) v (leases s) (execution_handles s) (log_index s) (idempotency_keys s).
Definition with_leases s v := mkStore (cells s) (cell_events s) (last_sequence s) (runs s) (receipts s) v (execution_handles s) (log_index s) (idempotency_keys s).
Definition with_handles s v := mkStore (cells s) (cell_events s) (last_sequence s) (runs s) (receipts s) (leases s) v (log_index s) (idempotency_keys s).
Definition with_log_index s v := mkStore (cells s) (cell_events s) (last_sequence s) (runs s) (receipts s) (leases s) (execution_handles s) v (idempotency_keys s).
Definition with_idempotency s v := mkStore (cells s) (cell_events s) (last_sequence s) (runs s) (receipts s) (leases s) (execution_handles s) (log_index s) v.

(** [INSERT OR REPLACE]: the old row goes, the new one is last. *)
Definition replace_row {K V} `{EqDecision K} (k : K) (v : V) (rows : list (K * V)) : list (K * V) :=
  jdelete k rows ++ [(k, v)].

(** ** Cells *)

Definition set_state (c : CellRecord) (st : CellState) (at_ : Z) : CellRecord :=
  mkCell (cellId c) (runId c) (nodeRunId c) (attempt c) (agentId c) (capabilityId c) (executable c)
    (argsJson c) (cwdRef c) (timeoutMs c) st (createdAt c) at_.

(** src/src/execd/state/store.ts # StateStore.upsertCell *)
Definition upsertCell (s : Store) (c : CellRecord) : Store :=
  with_cells s
    (match jget (cellId c) (cells s) with
     | Some old => jset (cellId c) (set_state old (currentState c) (updatedAt c)) (cells s)
     | None => cells s ++ [(cellId c, c)]
     end).

(** src/src/execd/state/store.ts # StateStore.getCell *)
Definition getCell (s : Store) (id : string) : option CellRecord := jget id (cells s).

Definition created_before (x y : CellRecord) : bool := createdAt x <? createdAt y.

(** src/src/execd/state/store.ts # StateStore.listCellsByRun *)
Definition listCellsByRun (s : Store) (run : string) : list CellRecord :=
  jsort created_before (filter (fun c => runId c = run) (jvalues (cells s))).

Definition is_terminal (st : CellState) : bool := includes TERMINAL_CELL_STATES st.

(** src/src/execd/state/store.ts # StateStore.listNonTerminalCells *)
Definition listNonTerminalCells (s : Store) : list CellRecord :=
  jsort created_before (filter (fun c => is_terminal (currentState c) = false) (jvalues (cells s))).

(** src/src/execd/state/store.ts # StateStore.setCellState *)
Definition setCellState (s : Store) (id : string) (st : CellState) (at_ : Z) : Store :=
  match jget id (cells s) with
  | Some c => with_cells s (jset id (set_state c st at_) (cells s))
  | None => s
  end.

(** ** Events *)

(** src/src/execd/state/store.ts # StateStore.appendCellEvent *)
Definition appendCellEvent (s : Store) (mk : Z -> CellEventRow) : Store * Z :=
  let n := last_sequence s + 1 in
  (with_events s (cell_events s ++ [mk n]) n, n).

Definition kind_name (k : event_kind) : string :=
  match k with k_state => "state" | k_stdout => "stdout" | k_stderr => "stderr" | k_exit => "exit" | k_receipt => "receipt" end.

(** src/src/execd/state/store.ts # StateStore.appendStreamEvent *)
Definition appendStreamEvent (s : Store) (id att : string) (k : event_kind) (payload : list Z) (at_ : Z) : Store * Z :=
  appendCellEvent s (fun n => mkEvent n id att None RUNNING (kind_name k) "execd" "" at_ k (Some payload)).

(** The options of [transition]; [from] is absent or null, or a state. *)
Record transition_opts := mkOpts { o_from : option CellState; o_reason : string; o_actor : string; o_at : Z }.

(** src/src/execd/state/store.ts # StateStore.transition *)
Definition transition (s : Store) (id att : string) (to : CellState) (o : transition_opts) : Store * option Z :=
  match getCell s id with
  | None => (s, None)
  | Some current =>
      if currentState current === CLEANED then (s, None) else
      if is_terminal (currentState current) && negb (to === CLEANED) then (s, None) else
      if match o_from o with None => false | Some f => negb (currentState current === f) end then (s, None) else
      let '(s1, sequence) := appendCellEvent s (fun n =>
        mkEvent n id att (Some (match o_from o with Some f => f | None => currentState current end))
          to (o_reason o) (o_actor o) "" (o_at o) k_state None) in
      (setCellState s1 id to (o_at o), Some sequence)
  end.

(** src/src/execd/state/store.ts # StateStore.eventsForCell *)
Definition eventsForCell (s : Store) (id : string) (after : Z) : list CellEventRow :=
  filter (fun e => ev_cellId e = id /\ after < eventSequence e) (cell_events s).

(** src/src/execd/state/store.ts # StateStore.latestEventSequence *)
Definition latestEventSequence (s : Store) : Z :=
  fold_right (fun e m => Z.max (eventSequence e) m) 0 (cell_events s).

(** ** Runs, receipts, handles, log index, idempotency *)

(** src/src/execd/state/store.ts # StateStore.upsertRun *)
Definition upsertRun (s : Store) (run status : string) (createdAt : Z) : Store :=
  with_runs s (jset run (mkRun status (match jget run (runs s) with Some r => run_createdAt r | None => createdAt end)) (runs s)).

(** src/src/execd/state/store.ts # StateStore.getRun *)
Definition getRun (s : Store) (run : string) : option string := run_status <$> jget run (runs s).

(** src/src/execd/state/store.ts # StateStore.commitReceipt *)
Definition commitReceipt (s : Store) (digest : string) (r : ReceiptRow) : Store :=
  with_receipts s (replace_row digest r (receipts s)).

Definition committed_after (x y : ReceiptRow) : bool := rc_committedAt y <? rc_committedAt x.

(** src/src/execd/state/store.ts # StateStore.receiptForCell *)
Definition receiptForCell (s : Store) (id : string) : option (list Z) :=
  rc_json <$> head (jsort committed_after (filter (fun r => rc_cellId r = id) (jvalues (receipts s)))).

(** src/src/execd/state/store.ts # StateStore.upsertExecutionHandle *)
Definition upsertExecutionHandle (s : Store) (hid : string) (h : HandleRow) : Store :=
  with_handles s (jset hid
    (match jget hid (execution_handles s) with
     | Some old => mkHandle (h_cellId old) (h_runId old) (h_attemptId old) (h_cgroupPath h) (h_spawnPid h) (h_startedAt h) (h_takeover h)
     | None => h
     end) (execution_handles s)).

(** src/src/execd/state/store.ts # StateStore.getExecutionHandle *)
Definition getExecutionHandle (s : Store) (hid : string) : option HandleRow := jget hid (execution_handles s).

Definition started_after (x y : string * HandleRow) : bool := h_startedAt y.2 <? h_startedAt x.2.

(** src/src/execd/state/store.ts # StateStore.listHandlesByCell *)
Definition listHandlesByCell (s : Store) (id : string) : list (string * HandleRow) :=
  jsort started_after (filter (fun h => h_cellId h.2 = id) (execution_handles s)).

(** src/src/execd/state/store.ts # StateStore.deleteExecutionHandle *)
Definition deleteExecutionHandle (s : Store) (hid : string) : Store :=
  with_handles s (jdelete hid (execution_handles s)).

(** src/src/execd/state/store.ts # StateStore.upsertLogIndex *)
Definition upsertLogIndex (s : Store) (id kind : string) (lengthBytes updatedAt : Z) : Store :=
  with_log_index s (jset (id, kind) (lengthBytes, updatedAt) (log_index s)).

(** src/src/execd/state/store.ts # StateStore.getLogIndex *)
Definition getLogIndex (s : Store) (id kind : string) : option (Z * Z) := jget (id, kind) (log_index s).

(** src/src/execd/state/store.ts # StateStore.deleteLogIndex *)
Definition deleteLogIndex (s : Store) (id : string) : Store :=
  with_log_index s (filter (fun r => r.1.1 <> id) (log_index s)).

(** src/src/execd/state/store.ts # StateStore.getIdempotentResponse *)
Definition getIdempotentResponse (s : Store) (key : string) : option IdempotencyRecord := jget key (idempotency_keys s).

(** src/src/execd/state/store.ts # StateStore.putIdempotentResponse *)
Definition putIdempotentResponse (s : Store) (key : string) (r : IdempotencyRecord) : Store :=
  with_idempotency s (replace_row key r (idempotency_keys s)).

(** ** Leases *)

(** src/src/execd/state/store.ts # StateStore.insertLease

    A second row with the same primary key is a constraint error. *)
Definition insertLease (s : Store) (id : string) (l : LeaseRow) : res string Store :=
  match jget id (leases s) with
  | Some _ => Throw "UNIQUE constraint failed: leases.lease_id"
  | None => Ok (with_leases s (leases s ++ [(id, l)]))
  end.

(** src/src/execd/state/store.ts # StateStore.getLease *)
Definition getLease (s : Store) (id : string) : option LeaseRow := jget id (leases s).

Definition update_lease (s : Store) (id : string) (f : LeaseRow -> LeaseRow) : Store :=
  match jget id (leases s) with
  | Some l => with_leases s (jset id (f l) (leases s))
  | None => s
  end.

(** src/src/execd/state/store.ts # StateStore.updateLeaseExpiry *)
Definition updateLeaseExpiry (s : Store) (id : string) (expiresAt : Z) : Store :=
  update_lease s id (fun l => mkLease (l_runId l) (l_holder l) (l_ttlMs l) expiresAt (l_createdAt l) (l_releasedAt l)).

(** src/src/execd/state/store.ts # StateStore.releaseLease *)
Definition store_releaseLease (s : Store) (id : string) (releasedAt : Z) : Store :=
  update_lease s id (fun l => mkLease (l_runId l) (l_holder l) (l_ttlMs l) (l_expiresAt l) (l_createdAt l) (Some releasedAt)).

(** src/src/execd/state/store.ts # StateStore.listActiveLeases *)
Definition listActiveLeases (s : Store) : list (string * LeaseRow) :=
  filter (fun l => l_releasedAt l.2 = None) (leases s).

(** src/src/execd/lease-manager.ts # LeaseManager.acquire

    The generated id is an argument; integers are finite numbers. *)
Definition lease_acquire (s : Store) (fresh_id run : string) (ttlMs now : Z) : res string (Store * Z) :=
  if ttlMs <=? 0 then Throw "invalid ttlMs"
  else
    let expiresAt := now + ttlMs in
    s' ← insertLease s fresh_id (mkLease run "client" ttlMs expiresAt now None);
    Ok (s', expiresAt).

(** src/src/execd/lease-manager.ts # LeaseManager.renew *)
Definition lease_renew (s : Store) (id : string) (ttlMs now : Z) : Store * option Z :=
  match getLease s id with
  | Some l =>
      match l_releasedAt l with
      | None => let expiresAt := now + ttlMs in (updateLeaseExpiry s id expiresAt, Some expiresAt)
      | Some _ => (s, None)
      end
  | None => (s, None)
  end.

(** src/src/execd/lease-manager.ts # LeaseManager.release *)
Definition lease_release (s : Store) (id : string) (now : Z) : Store := store_releaseLease s id now.

Section Sweep.
(** [JSON.stringify] of the expiry notice. *)
Context (expiry_notice : string -> string -> list Z).

(** src/src/execd/execd.ts # createExecd @95-99

    The event a lease's expiry leaves in the log; the live broadcast is the
    second component. *)
Definition onExpired (s : Store) (leaseId run : string) (now : Z) : Store * Z :=
  appendStreamEvent s "" "" k_exit (expiry_notice leaseId run) now.

(** One turn of the sweep's loop. *)
Definition sweep_lease (now : Z) (acc : Store * list (string * string)) (row : string * LeaseRow) :=
  let '(s, expired) := acc in
  let '(id, l) := row in
  if l_expiresAt l <=? now then
    let '(s, _) := onExpired s id (l_runId l) now in
    (store_releaseLease s id now, expired ++ [(id, l_runId l)])
  else (s, expired).

(** src/src/execd/lease-manager.ts # LeaseManager.sweepExpired *)
Definition lease_sweepExpired (s : Store) (now : Z) : Store * list (string * string) :=
  fold_left (sweep_lease now) (listActiveLeases s) (s, []).
End Sweep.

(** ** The guarded transition *)

(** The row a transition writes and the store after it. *)
Definition moved (s : Store) (c : CellRecord) (id att : string) (to : CellState) (o : transition_opts) : Store :=
  mkStore (jset id (set_state c to (o_at o)) (cells s))
    (cell_events s ++
      [mkEvent (last_sequence s + 1) id att (Some (currentState c)) to (o_reason o) (o_actor o) "" (o_at o) k_state None])
    (last_sequence s + 1) (runs s) (receipts s) (leases s) (execution_handles s) (log_index s) (idempotency_keys s).

(** When the guards let a cell in state [f] move to [t]. *)
Definition may_move (f t : CellState) (o : transition_opts) : bool :=
  negb (f === CLEANED) && (negb (is_terminal f) || (t === CLEANED)) &&
  match o_from o with None => true | Some f' => f === f' end.

(** A transition moves the cell and logs the move when its guards hold, and
    does nothing otherwise. *)
Lemma transition_spec s id att to o :
  transition s id att to o =
  match getCell s id with
  | Some c => if may_move (currentState c) to o then (moved s c id att to o, Some (last_sequence s + 1)) else (s, None)
  | None => (s, None)
  end.
Proof.
  unfold transition, may_move. destruct (getCell s id) as [c|] eqn:E; [|done].
  destruct (currentState c === CLEANED); [done|]. cbn [negb andb].
  destruct (is_terminal (currentState c)), (to === CLEANED); cbn [negb andb orb]; try done.
  all: destruct (o_from o) as [f|] eqn:Ef; [destruct (currentState c === f) eqn:E'; [apply same_true in E' as <-|done]|];
    cbn; unfold setCellState, getCell in *; cbn; rewrite E; done.
Qed.

Lemma may_move_from f t o f' : may_move f t o = true -> o_from o = Some f' -> f = f'.
Proof. unfold may_move. intros H Ho. rewrite Ho in H. by reflect. Qed.
Lemma may_move_guards f t o : may_move f t o = true -> f <> CLEANED /\ (is_terminal f = true -> t = CLEANED).
Proof.
  unfold may_move. intros H. reflect. match goal with H : _ \/ _ |- _ => rename H into Ht end. split; [done|].
  intros Hf. destruct Ht as [Ht|Ht]; reflect; congruence.
Qed.

(** ** The log and the materialized state *)

Definition state_events (s : Store) (id : string) : list CellEventRow :=
  filter (fun e => ev_cellId e = id /\ ev_kind e = k_state) (cell_events s).

(** Replaying a cell's log. *)
Definition replay (st : CellState) (es : list CellEventRow) : CellState :=
  fold_left (fun _ e => toState e) es st.

Section Log.
(** The moves the lifecycle allows. *)
Context (edge : CellState -> CellState -> bool) (edge_rejected : forall t, edge REJECTED_POLICY t = false).

Fixpoint chain (st : CellState) (es : list CellEventRow) : Prop :=
  match es with
  | [] => True
  | e :: es => fromState e = Some st /\ edge st (toState e) = true /\ chain (toState e) es
  end.

Lemma chain_snoc st es e :
  chain st (es ++ [e]) <-> chain st es /\ fromState e = Some (replay st es) /\ edge (replay st es) (toState e) = true.
Proof. revert st. induction es as [|x es IH]; intros st; simpl; [tauto|]. rewrite IH. simpl. tauto. Qed.
Lemma replay_snoc st es e : replay st (es ++ [e]) = toState e.
Proof. unfold replay. by rewrite fold_left_app. Qed.

(** A cell's log: empty for a cell refused before it was accepted, otherwise a
    chain of allowed moves from [ACCEPTED] that ends in the stored state. *)
Definition logged (s : Store) (c : CellRecord) : Prop :=
  let es := state_events s (cellId c) in
  (es = [] /\ currentState c = REJECTED_POLICY) \/
  (es <> [] /\ chain ACCEPTED es /\ replay ACCEPTED es = currentState c).

Record log_ok (s : Store) : Prop := mkLogOk {
  lo_keys : NoDup (jkeys (cells s));
  lo_ids : forall id c, getCell s id = Some c -> cellId c = id;
  lo_sorted : StronglySorted Z.lt (eventSequence <$> cell_events s);
  lo_pos : 0 <= last_sequence s;
  lo_range : Forall (fun e => 0 < eventSequence e <= last_sequence s) (cell_events s);
  lo_cell : forall id c, getCell s id = Some c -> logged s c;
  lo_fresh : forall id, getCell s id = None -> state_events s id = [] }.

Lemma sorted_snoc (l : list Z) x : StronglySorted Z.lt l -> Forall (fun y => y < x) l -> StronglySorted Z.lt (l ++ [x]).
Proof.
  induction 1 as [|y l _ IH Hy]; intros Hx; simpl; [repeat constructor|]. inv Hx.
  constructor; [auto|]. apply Forall_app. split; [done|]. by repeat constructor.
Qed.

(** Appending an event keeps the numbering. *)
Lemma sequence_snoc s e : eventSequence e = last_sequence s + 1 ->
  0 <= last_sequence s ->
  StronglySorted Z.lt (eventSequence <$> cell_events s) ->
  Forall (fun e => 0 < eventSequence e <= last_sequence s) (cell_events s) ->
  StronglySorted Z.lt (eventSequence <$> cell_events s ++ [e]) /\
  Forall (fun e => 0 < eventSequence e <= last_sequence s + 1) (cell_events s ++ [e]).
Proof.
  intros He H0 Hs Hr. rewrite fmap_app. split.
  - apply sorted_snoc; [done|]. rewrite Forall_fmap. eapply Forall_impl; [exact Hr|]. simpl. lia.
  - apply Forall_app. split; [eapply Forall_impl; [exact Hr|]; simpl; lia|]. constructor; [lia|constructor].
Qed.

Lemma log_ok_same s s' : cells s' = cells s -> cell_events s' = cell_events s -> last_sequence s' = last_sequence s ->
  log_ok s -> log_ok s'.
Proof.
  intros Hc He Hl [? ? ? ? ? ? ?]. split; unfold getCell, logged, state_events in *; rewrite ?Hc, ?He, ?Hl; done.
Qed.

Lemma state_events_snoc s s' e id : cell_events s' = cell_events s ++ [e] ->
  state_events s' id =
  state_events s id ++ (if decide (ev_cellId e = id /\ ev_kind e = k_state) then [e] else []).
Proof. intros H. unfold state_events. rewrite H, filter_app, filter_cons, filter_nil. done. Qed.

Lemma logged_events s s' c c' :
  cellId c' = cellId c -> currentState c' = currentState c ->
  state_events s' (cellId c) = state_events s (cellId c) -> logged s c -> logged s' c'.
Proof. unfold logged. intros -> -> ->. done. Qed.

(** A stream event is not part of any cell's state log. *)
Lemma log_ok_stream s id att k p now :
  k <> k_state -> log_ok s -> log_ok (appendStreamEvent s id att k p now).1.
Proof.
  intros Hk [Hk1 Hids Hs Hp Hr Hc Hf].
  set (e := mkEvent (last_sequence s + 1) id att None RUNNING (kind_name k) "execd" "" now k (Some p)).
  assert (forall c, state_events (appendStreamEvent s id att k p now).1 c = state_events s c) as Hse.
  { intros c. rewrite (state_events_snoc s _ e c) by done. simpl. rewrite decide_False by tauto. apply app_nil_r. }
  destruct (sequence_snoc s e) as [H1 H2]; try done.
  split; [done..|exact H1|simpl; lia|exact H2| |].
  - intros c r Hg. eapply logged_events; [done..|by rewrite Hse|]. by eapply Hc.
  - intros c Hg. rewrite Hse. by apply Hf.
Qed.

(** A transition whose move is allowed keeps the log. *)
Lemma log_ok_transition s id att to o :
  (forall c, getCell s id = Some c -> may_move (currentState c) to o = true -> edge (currentState c) to = true) ->
  log_ok s -> log_ok (transition s id att to o).1.
Proof.
  intros Hedge Hlog. rewrite transition_spec. destruct (getCell s id) as [c|] eqn:Eg; [|done].
  destruct (may_move (currentState c) to o) eqn:Em; [|done]. specialize (Hedge c eq_refl Em). cbn [fst].
  destruct Hlog as [Hk1 Hids Hs Hp Hr Hc Hf].
  set (e := mkEvent (last_sequence s + 1) id att (Some (currentState c)) to (o_reason o) (o_actor o) "" (o_at o) k_state None).
  destruct (sequence_snoc s e) as [H1 H2]; try done.
  assert (forall i, i <> id -> state_events (moved s c id att to o) i = state_events s i) as Hother.
  { intros i Hi. rewrite (state_events_snoc s _ e i), decide_False by (simpl; naive_solver). apply app_nil_r. }
  assert (state_events (moved s c id att to o) id = state_events s id ++ [e]) as Hsame.
  { by rewrite (state_events_snoc s _ e id), decide_True. }
  unfold getCell in *. split; [by apply NoDup_jset| |exact H1|simpl; lia|exact H2| |]; unfold getCell; simpl.
  - intros i r. rewrite jget_jset. case_decide as E; [|by apply Hids]. intros [= <-]. subst. simpl. by apply Hids.
  - intros i r. rewrite jget_jset. case_decide as E.
    + subst i. intros [= <-]. unfold logged. simpl. rewrite (Hids _ _ Eg), Hsame. right. split; [by destruct (state_events s id)|].
      rewrite chain_snoc, replay_snoc. simpl. split; [|done].
      specialize (Hc _ _ Eg) as Hlog. unfold logged in Hlog. rewrite (Hids _ _ Eg) in Hlog.
      destruct Hlog as [[Hn Hrej]|(_ & Hch & Hrep)]; [|by rewrite Hrep].
      rewrite Hrej, edge_rejected in Hedge. done.
    + intros Hg. eapply logged_events; [done..| |by eapply Hc]. rewrite (Hids _ _ Hg). by apply Hother.
  - intros i. rewrite jget_jset. case_decide; [done|]. intros Hg. rewrite Hother by done. by apply Hf.
Qed.

(** A new cell, with the one event that accepts it, or refused without one. *)
Lemma log_ok_new s s' c es :
  log_ok s -> getCell s (cellId c) = None ->
  cells s' = cells s ++ [(cellId c, c)] -> cell_events s' = cell_events s ++ es ->
  last_sequence s' = last_sequence s + Z.of_nat (length es) ->
  (es = [] /\ currentState c = REJECTED_POLICY) \/
  (edge ACCEPTED ACCEPTED = true /\ currentState c = ACCEPTED /\ exists e, es = [e] /\
    eventSequence e = last_sequence s + 1 /\ ev_cellId e = cellId c /\ ev_kind e = k_state /\
    fromState e = Some ACCEPTED /\ toState e = ACCEPTED) ->
  log_ok s'.
Proof.
  intros [Hk Hids Hs Hp Hr Hc Hf] Hnew Hcells Hev Hlast Hes. unfold getCell in *.
  assert (cellId c ∉ jkeys (cells s)) as Hnk by by apply jget_None.
  rewrite <-jset_fresh in Hcells by done.
  assert (forall i, i <> cellId c -> state_events s' i = state_events s i) as Hother.
  { intros i Hi. destruct Hes as [[-> _]|(_ & _ & e & -> & _ & He & _)].
    - unfold state_events. by rewrite Hev, app_nil_r.
    - rewrite (state_events_snoc s _ e i), decide_False by (done || naive_solver). apply app_nil_r. }
  assert (state_events s' (cellId c) = es) as Hsame.
  { pose proof (Hf _ Hnew) as H0. destruct Hes as [[-> _]|(_ & _ & e & -> & _ & He & Hke & _)].
    - unfold state_events in *. by rewrite Hev, app_nil_r.
    - by rewrite (state_events_snoc s _ e), decide_True, H0 by done. }
  assert (StronglySorted Z.lt (eventSequence <$> cell_events s') /\
          Forall (fun e => 0 < eventSequence e <= last_sequence s') (cell_events s')) as [H1 H2].
  { rewrite Hev, Hlast. destruct Hes as [[-> _]|(_ & _ & e & -> & He & _)]; simpl.
    - rewrite app_nil_r, Z.add_0_r. done.
    - by apply sequence_snoc. }
  split; unfold getCell; rewrite ?Hcells; [by apply NoDup_jset| |done|rewrite Hlast; lia|done| |].
  - intros i r. rewrite jget_jset. case_decide; [|by apply Hids]. by intros [= <-].
  - intros i r. rewrite jget_jset. case_decide as E.
    + intros [= <-]. unfold logged. rewrite Hsame. destruct Hes as [[-> Hrej]|(Hed & Hst & e & -> & _ & _ & _ & Hfr & Hto)]; [by left|].
      right. split; [done|]. simpl. rewrite Hto. done.
    + intros Hg. eapply logged_events; [done..| |by eapply Hc]. rewrite (Hids _ _ Hg). apply Hother. congruence.
  - intros i. rewrite jget_jset. case_decide; [done|]. intros Hg. rewrite Hother by congruence. by apply Hf.
Qed.
End Log.

(** ** Leases *)

Definition expired (now : Z) (l : LeaseRow) : bool := (l_expiresAt l <=? now) && bool_decide (l_releasedAt l = None).
Definition released (now : Z) (l : LeaseRow) : LeaseRow :=
  mkLease (l_runId l) (l_holder l) (l_ttlMs l) (l_expiresAt l) (l_createdAt l) (Some now).

Section Sweep.
Context (notice : string -> string -> list Z).

Lemma sweep_leases now rows : forall s acc,
  NoDup (jkeys rows) -> (forall id l, (id, l) ∈ rows -> getLease s id = Some l) ->
  NoDup (jkeys (leases s)) ->
  let '(s', ex) := fold_left (sweep_lease notice now) rows (s, acc) in
  ex = acc ++ ((fun r => (r.1, l_runId r.2)) <$> filter (fun r => l_expiresAt r.2 <= now) rows) /\
  jkeys (leases s') = jkeys (leases s) /\
  forall id, getLease s' id =
    match jget id rows with
    | Some l => if l_expiresAt l <=? now then Some (released now l) else Some l
    | None => getLease s id
    end.
Proof.
  induction rows as [|[id l] rows IH]; intros s acc Hnd Hin Hk; cbn [fold_left].
  { rewrite filter_nil. cbn. by rewrite app_nil_r. }
  apply NoDup_cons in Hnd as [Hid Hnd].
  assert (getLease s id = Some l) as Hl by (apply Hin; left).
  assert (forall i r, (i, r) ∈ rows -> i <> id) as Hne.
  { intros i r Hir ->. apply Hid. apply list_elem_of_fmap. by exists (id, r). }
  set (s1 := store_releaseLease (onExpired notice s id (l_runId l) now).1 id now).
  change (sweep_lease notice now (s, acc) (id, l)) with
    (if l_expiresAt l <=? now then (s1, acc ++ [(id, l_runId l)]) else (s, acc)).
  destruct (l_expiresAt l <=? now) eqn:E.
  - assert (leases s1 = jset id (released now l) (leases s)) as H1.
    { unfold s1, store_releaseLease, update_lease, getLease in *. simpl. by rewrite Hl. }
    assert (jkeys (leases s1) = jkeys (leases s)) as Hk1.
    { rewrite H1, jkeys_jset, decide_True; [done|]. by eapply jkeys_elem. }
    specialize (IH s1 (acc ++ [(id, l_runId l)]) Hnd).
    destruct (fold_left _ rows _) as [s' ex]. destruct IH as (-> & -> & Hg).
    + intros i r Hir. unfold getLease. rewrite H1, jget_jset_ne by (symmetry; by eapply Hne). apply Hin. by right.
    + by rewrite Hk1.
    + reflect. rewrite filter_cons_True by done. split; [by rewrite <-app_assoc|]. split; [done|].
      intros i. rewrite Hg. simpl. destruct (decide (id = i)) as [<-|Hi].
      * rewrite same_refl, (proj2 (Z.leb_le _ _)) by done.
        destruct (jget id rows) as [r|] eqn:Er; [by apply jget_elem, Hne in Er|].
        unfold getLease. by rewrite H1, jget_jset_eq.
      * rewrite (proj2 (same_neq _ _)) by done. destruct (jget i rows); [done|].
        unfold getLease. by rewrite H1, jget_jset_ne.
  - specialize (IH s acc Hnd). destruct (fold_left _ rows _) as [s' ex]. destruct IH as (-> & -> & Hg); [|done|].
    + intros i r Hir. apply Hin. by right.
    + reflect. rewrite filter_cons_False by (simpl; lia). split_and!; [done|done|].
      intros i. rewrite Hg. simpl. destruct (decide (id = i)) as [<-|Hi].
      * rewrite same_refl, (proj2 (Z.leb_gt _ _)) by done.
        destruct (jget id rows) as [r|] eqn:Er; [by apply jget_elem, Hne in Er|done].
      * by rewrite (proj2 (same_neq _ _)).
Qed.

Lemma active_rows s : NoDup (jkeys (leases s)) ->
  NoDup (jkeys (listActiveLeases s)) /\
  (forall id l, (id, l) ∈ listActiveLeases s <-> getLease s id = Some l /\ l_releasedAt l = None).
Proof.
  intros Hnd. unfold listActiveLeases, getLease. split.
  - unfold jkeys. eapply sublist_NoDup; [exact Hnd|]. apply fmap_sublist, sublist_filter.
  - intros id l. rewrite list_elem_of_filter, jget_NoDup by done. simpl. tauto.
Qed.

(** A sweep expires exactly the leases that are due: it reports, in table order
    and once each, the active leases whose time has passed, marks exactly those
    released, and leaves every other lease alone; a lease it expired can no longer
    be renewed, and sweeping again at the same time finds nothing. *)
Theorem lease_sweep_exact s now :
  NoDup (jkeys (leases s)) ->
  let '(s', ex) := lease_sweepExpired notice s now in
  ex = ((fun r => (r.1, l_runId r.2)) <$> filter (fun r => expired now r.2 = true) (leases s)) /\
  (forall id, getLease s' id = (fun l => if expired now l then released now l else l) <$> getLease s id) /\
  (forall id run ttl t, (id, run) ∈ ex -> lease_renew s' id ttl t = (s', None)) /\
  (lease_sweepExpired notice s' now).2 = [].
Proof.
  intros Hnd. destruct (active_rows s Hnd) as [Hnd' Hin].
  unfold lease_sweepExpired at 1. pose proof (sweep_leases now (listActiveLeases s) s []) as H.
  destruct (fold_left _ (listActiveLeases s) _) as [s' ex]. destruct H as (-> & Hk & Hg); [done|naive_solver|done|].
  assert (forall id, getLease s' id = (fun l => if expired now l then released now l else l) <$> getLease s id) as Hget.
  { intros id. rewrite Hg. destruct (jget id (listActiveLeases s)) as [l|] eqn:E.
    - apply jget_elem, Hin in E as [-> E]. cbn [fmap option_fmap option_map]. unfold expired. rewrite E, bool_decide_true, andb_true_r by done. by destruct (_ <=? _).
    - destruct (getLease s id) as [l|] eqn:El; [|done]. simpl. unfold expired. rewrite bool_decide_false; [by rewrite andb_false_r|].
      intros Hr. assert ((id, l) ∈ listActiveLeases s) as Hl by (by apply Hin). apply jget_NoDup in Hl; [|done]. congruence. }
  split_and!.
  - cbn [app]. f_equal. unfold listActiveLeases. rewrite list_filter_filter. apply list_filter_iff.
    intros [id l]. unfold expired. simpl. rewrite andb_true_iff, Z.leb_le, bool_decide_eq_true. tauto.
  - done.
  - intros id run ttl t Hid. cbn [app] in Hid. apply list_elem_of_fmap in Hid as ([i l] & [= -> ->] & Hf).
    apply list_elem_of_filter in Hf as [Hle Hl]. simpl in Hle. apply Hin in Hl as [Hl Hr].
    unfold lease_renew. rewrite Hget, Hl. simpl. unfold expired. by rewrite Hr, (proj2 (Z.leb_le _ _)), bool_decide_true by done.
  - destruct (active_rows s' ltac:(by rewrite Hk)) as [Hnd2 Hin2].
    unfold lease_sweepExpired. pose proof (sweep_leases now (listActiveLeases s') s' []) as H.
    destruct (fold_left _ (listActiveLeases s') _) as [s2 ex2]. destruct H as (-> & _); [done|naive_solver|by rewrite Hk|].
    cbn [snd app]. rewrite filter_none; [done|]. apply Forall_forall. intros [id l] Hl. simpl.
    apply Hin2 in Hl as [Hl Hr]. rewrite Hget in Hl. destruct (getLease s id) as [l0|]; [|done]. simpl in Hl.
    unfold expired in Hl. destruct (l_expiresAt l0 <=? now) eqn:E1; simpl in Hl.
    + case_bool_decide; injection Hl as <-; done.
    + injection Hl as <-. reflect. lia.
Qed.
End Sweep.

Definition two_leases : Store :=
  with_leases emptyStore [("a", mkLease "r" "client" 5 5 0 None); ("b", mkLease "q" "client" 9 9 0 None)].

Lemma lease_sweep_exact_witness :
  NoDup (jkeys (leases two_leases)) /\
  (lease_sweepExpired (fun _ _ => []) two_leases 7).2 = [("a", "r")] /\
  (lease_sweepExpired (fun _ _ => []) (lease_sweepExpired (fun _ _ => []) two_leases 7).1 7).2 = [].
Proof.
  assert (NoDup (jkeys (leases two_leases))) as H by (apply (bool_decide_unpack _); vm_compute; exact I).
  split; [exact H|]. split; [reflexivity|]. apply (lease_sweep_exact (fun _ _ => []) two_leases 7 H).
Defined.
