(* ===== verification/LogStore.v ===== *)
(** Complete stdout/stderr logs of cells: appended to files, read back from a
    byte offset, indexed in the database.

    Models [src/src/execd/log-store.ts] with its real file system and the index
    that [src/src/execd/execd.ts] wires to the store.  A file is the list of its
    bytes; permissions and I/O errors are not modelled. *)
From S2P Require Import Prelude Json Frame ExecdStore.
From Stdlib Require Import Ascii.
Open Scope string_scope.
Open Scope Z_scope.
Open Scope list_scope.

Inductive log_kind := log_stdout | log_stderr.
Definition log_kind_name (k : log_kind) : string := match k with log_stdout => "stdout" | log_stderr => "stderr" end.

#[export] Instance log_kind_eq_dec : EqDecision log_kind.
Proof. solve_decision. Defined.

Abbreviation files := (list (string * bytes)).

(** ** The file system *)

(** src/src/execd/log-store.ts # REAL_LOG_FS @24-29 *)
Definition fs_append (fs : files) (path : string) (data : jschars) : files :=
  jset path (default [] (jget path fs) ++ utf8_encode data) fs.

(** src/src/execd/log-store.ts # REAL_LOG_FS @42-46

    [while (text ends with U+FFFD) text = text.slice(0, -1)], on the reversed
    text. *)
Fixpoint strip_replacement (rev_text : jschars) : jschars :=
  match rev_text with
  | c :: t => if c =? replacement then strip_replacement t else c :: t
  | [] => []
  end.

(** src/src/execd/log-store.ts # REAL_LOG_FS @33-51 *)
Definition fs_readTail (fs : files) (path : string) (byteOffset : nat) : jschars :=
  let file := default [] (jget path fs) in
  if (length file <=? byteOffset)%nat then []
  else reverse (strip_replacement (reverse (utf8_decode (drop byteOffset file)))).

(** src/src/execd/log-store.ts # REAL_LOG_FS @52-60 *)
Definition fs_stat (fs : files) (path : string) : option nat := length <$> jget path fs.

(** src/src/execd/log-store.ts # REAL_LOG_FS @70-73 *)
Definition fs_remove (fs : files) (path : string) : files := jdelete path fs.

(** ** The log store *)

(** src/src/execd/log-store.ts # AttachChunk *)
Record AttachChunk := mkChunk { chunk_data : jschars; totalBytes : nat; eof : bool }.

Section LogStore.
Context (logRoot : string).

(** src/src/execd/log-store.ts # LogStore.pathOf *)
Definition pathOf (id : string) (k : log_kind) : string :=
  logRoot +:+ "/" +:+ id +:+ "/" +:+ log_kind_name k +:+ ".log".

(** src/src/execd/log-store.ts # LogStore.append *)
Definition log_append (fs : files) (s : Store) (id : string) (k : log_kind) (data : jschars) (now : Z) : files * Store :=
  match data with
  | [] => (fs, s)
  | _ =>
      let existing := getLogIndex s id (log_kind_name k) in
      (fs_append fs (pathOf id k) data,
       upsertLogIndex s id (log_kind_name k)
         (match existing with Some (n, _) => n | None => 0 end + blen (utf8_encode data)) now)
  end.

(** src/src/execd/log-store.ts # LogStore.attach *)
Definition log_attach (fs : files) (id : string) (k : log_kind) (offset : nat) : AttachChunk :=
  let path := pathOf id k in
  match fs_stat fs path with
  | None => mkChunk [] 0 true
  | Some total =>
      if (total <=? offset)%nat then mkChunk [] total true
      else
        let data := fs_readTail fs path offset in
        mkChunk data total (total <=? offset + length (utf8_encode data))%nat
  end.

(** src/src/execd/log-store.ts # LogStore.sizeOf *)
Definition log_sizeOf (fs : files) (id : string) (k : log_kind) : nat := default 0%nat (fs_stat fs (pathOf id k)).

(** src/src/execd/log-store.ts # LogStore.remove *)
Definition log_remove (fs : files) (s : Store) (id : string) : files * Store :=
  (fs_remove (fs_remove fs (pathOf id log_stdout)) (pathOf id log_stderr), deleteLogIndex s id).

(** The chunks of one stream written one after the other, each with its time. *)
Definition log_append_all (fs : files) (s : Store) (id : string) (k : log_kind) (chunks : list (jschars * Z)) : files * Store :=
  fold_left (fun '(fs, s) '(data, now) => log_append fs s id k data now) chunks (fs, s).

(** ** Paths and files *)

Lemma str_app_cancel (a b c d : string) : String.length c = String.length d -> a +:+ c = b +:+ d -> a = b /\ c = d.
Proof.
  intros Hl. revert b. induction a as [|x a IH]; intros [|y b] H.
  - done.
  - apply (f_equal String.length) in H. rewrite !str_length_app in H. simpl in H. lia.
  - apply (f_equal String.length) in H. rewrite !str_length_app in H. simpl in H. lia.
  - injection H as -> H. destruct (IH b H) as [-> ->]. done.
Qed.

Lemma str_app_inj_l (s t u : string) : s +:+ t = s +:+ u -> t = u.
Proof. induction s as [|c s IH]; simpl; [done|]. intros [= H]. auto. Qed.

(** Different streams have different files, whatever the cell id is. *)
Lemma pathOf_inj id k id' k' : pathOf id k = pathOf id' k' -> id = id' /\ k = k'.
Proof.
  unfold pathOf. intros H%str_app_inj_l%(str_app_inj_l "/").
  apply str_app_cancel in H as [-> H]; [|by destruct k, k'].
  split; [done|]. destruct k, k'; (done || discriminate H).
Qed.

Lemma log_append_file fs s id k data now :
  default [] (jget (pathOf id k) (log_append fs s id k data now).1) =
  default [] (jget (pathOf id k) fs) ++ utf8_encode data.
Proof.
  destruct data as [|c data]; simpl; [by rewrite app_nil_r|]. unfold fs_append. by rewrite jget_jset_eq.
Qed.

(** Writing one stream leaves the files of the others alone. *)
Lemma log_append_other fs s id k data now id' k' :
  (id, k) <> (id', k') ->
  jget (pathOf id' k') (log_append fs s id k data now).1 = jget (pathOf id' k') fs.
Proof.
  intros Hne. destruct data as [|c data]; [done|]. simpl. unfold fs_append. apply jget_jset_ne.
  intros [-> ->]%pathOf_inj. done.
Qed.

Abbreviation points := (fun c : jschars * Z => code_points (fst c)).

(** The bytes and the text of chunks written one after the other. *)
Definition chunk_bytes (chunks : list (jschars * Z)) : bytes := chunks ≫= fun c : jschars * Z => utf8_encode c.1.
Definition chunk_text (chunks : list (jschars * Z)) : jschars := chunks ≫= fun c : jschars * Z => well_formed c.1.

Lemma log_append_all_file chunks : forall fs s id k,
  default [] (jget (pathOf id k) (log_append_all fs s id k chunks).1) =
  default [] (jget (pathOf id k) fs) ++ chunk_bytes chunks.
Proof.
  unfold log_append_all, chunk_bytes.
  induction chunks as [|[data now] chunks IH]; intros fs s id k; cbn [fold_left]; [by rewrite app_nil_r|].
  destruct (log_append fs s id k data now) as [fs1 s1] eqn:E. rewrite IH.
  pose proof (log_append_file fs s id k data now) as H. rewrite E in H. cbn [fst] in H.
  by rewrite H, bind_cons, <-app_assoc.
Qed.

(** The index holds the length of the file. *)
Definition indexed (fs : files) (s : Store) (id : string) (k : log_kind) : Prop :=
  (match getLogIndex s id (log_kind_name k) with Some (n, _) => n | None => 0 end) = Z.of_nat (log_sizeOf fs id k).

Lemma log_append_indexed fs s id k data now :
  indexed fs s id k -> indexed (log_append fs s id k data now).1 (log_append fs s id k data now).2 id k.
Proof.
  unfold indexed, log_sizeOf, fs_stat. destruct data as [|c data]; [done|]. simpl.
  unfold getLogIndex, upsertLogIndex, fs_append. simpl. rewrite !jget_jset_eq. simpl. intros ->.
  rewrite length_app. unfold blen. destruct (jget (pathOf id k) fs); simpl; lia.
Qed.

Lemma log_append_all_indexed chunks : forall fs s id k,
  indexed fs s id k ->
  indexed (log_append_all fs s id k chunks).1 (log_append_all fs s id k chunks).2 id k.
Proof.
  unfold log_append_all. induction chunks as [|[data now] chunks IH]; intros fs s id k H; cbn [fold_left]; [done|].
  pose proof (log_append_indexed fs s id k data now H) as H1.
  destruct (log_append fs s id k data now) as [fs1 s1]. by apply IH.
Qed.

(** ** Reading back *)

Lemma code_points_units cs s : Forall scalar cs -> code_points ((cs ≫= units_of) ++ s) = cs ++ code_points s.
Proof.
  induction 1 as [|c cs Hc _ IH]; [done|]. rewrite bind_cons, <-app_assoc.
  unfold units_of at 1. unfold scalar in Hc. destruct (Z.ltb_spec c 65536); cbn [app].
  - rewrite <-IH. cbn [code_points]. destruct (is_high c) eqn:E1; [|destruct (is_low c) eqn:E2; [|done]].
    all: unfold is_high, is_low in *; reflect; lia.
  - rewrite code_points_cons, IH. unfold is_high, is_low. decide_ifs. cbn [app]. f_equal. div_lia.
Qed.

Lemma chunk_text_points chunks :
  chunk_text chunks = (chunks ≫= points) ≫= units_of.
Proof.
  unfold chunk_text. induction chunks as [|c chunks IH]; [done|]. rewrite !bind_cons, bind_app, IH. done.
Qed.
Lemma chunk_bytes_points chunks :
  chunk_bytes chunks = (chunks ≫= points) ≫= utf8_of.
Proof.
  unfold chunk_bytes. induction chunks as [|c chunks IH]; [done|]. rewrite !bind_cons, bind_app, IH. done.
Qed.
Lemma chunk_points_scalar chunks : Forall (fun c => valid_string c.1) chunks ->
  Forall scalar (chunks ≫= points).
Proof.
  induction 1 as [|c chunks Hc _ IH]; [constructor|]. rewrite bind_cons, Forall_app.
  split; [by apply code_points_scalar|done].
Qed.

Lemma decode_chunks chunks : Forall (fun c => valid_string c.1) chunks -> utf8_decode (chunk_bytes chunks) = chunk_text chunks.
Proof.
  intros H%chunk_points_scalar. unfold utf8_decode. rewrite chunk_bytes_points, chunk_text_points.
  rewrite <-(app_nil_r (_ ≫= utf8_of)), decode_encode_app by done. apply app_nil_r.
Qed.
Lemma encode_chunks chunks : Forall (fun c => valid_string c.1) chunks -> utf8_encode (chunk_text chunks) = chunk_bytes chunks.
Proof.
  intros H%chunk_points_scalar. unfold utf8_encode. rewrite chunk_bytes_points, chunk_text_points.
  rewrite <-(app_nil_r (_ ≫= units_of)), code_points_units by done. by rewrite app_nil_r.
Qed.

Lemma strip_last text : last text <> Some replacement -> reverse (strip_replacement (reverse text)) = text.
Proof.
  destruct text as [|c text _] using rev_ind; [done|]. rewrite last_snoc, reverse_snoc. intros H. cbn [strip_replacement].
  rewrite (proj2 (Z.eqb_neq c replacement)) by congruence. by rewrite reverse_cons, reverse_involutive.
Qed.

(** Logs are replayed complete: after any chunks of one stream were appended to a
    fresh log, attaching at the byte offset reached by any prefix of them returns
    exactly the text of the rest (lone surrogates replaced), the full length, and
    end of file, and the database index holds the file's length -- provided that
    text does not end in U+FFFD. *)
Theorem log_attach_roundtrip fs s id k before after :
  jget (pathOf id k) fs = None -> getLogIndex s id (log_kind_name k) = None ->
  Forall (fun c => valid_string c.1) (before ++ after) ->
  last (chunk_text after) <> Some replacement ->
  let '(fs', s') := log_append_all fs s id k (before ++ after) in
  log_attach fs' id k (length (chunk_bytes before)) =
    mkChunk (chunk_text after) (length (chunk_bytes (before ++ after))) true /\
  indexed fs' s' id k.
Proof.
  intros Hf Hi [_ Ha]%Forall_app Hl.
  pose proof (log_append_all_file (before ++ after) fs s id k) as Hfile.
  pose proof (log_append_all_indexed (before ++ after) fs s id k) as Hidx.
  destruct (log_append_all fs s id k (before ++ after)) as [fs' s']. cbn [fst snd] in *.
  split; [|by apply Hidx; unfold indexed, log_sizeOf, fs_stat; rewrite Hi, Hf].
  rewrite Hf in Hfile. cbn [default app] in Hfile.
  assert (chunk_bytes (before ++ after) = chunk_bytes before ++ chunk_bytes after) as Hb by apply bind_app.
  pose proof (decode_chunks _ Ha) as Hdec. pose proof (encode_chunks _ Ha) as Henc.
  assert (chunk_bytes after = [] -> chunk_text after = []) as Hnil.
  { intros E. by rewrite <-Hdec, E. }
  rewrite Hb in *. unfold log_attach, fs_stat, fs_readTail.
  destruct (jget (pathOf id k) fs') as [file|]; cbn [fmap option_fmap option_map default] in *.
  - unfold Datatypes.id in *. subst file. rewrite length_app, drop_app_length, Hdec, strip_last by done.
    destruct (Nat.leb_spec (length (chunk_bytes before) + length (chunk_bytes after)) (length (chunk_bytes before))) as [Hle|Hlt].
    + rewrite Hnil; [done|]. apply length_zero_iff_nil. lia.
    + cbv zeta. rewrite Henc. by rewrite (proj2 (Nat.leb_le _ _)) by lia.
  - symmetry in Hfile. apply app_nil in Hfile as [-> Hn]. by rewrite Hn, Hnil.
Qed.
End LogStore.

(** "a", then "é" and "b": read from the offset after the first chunk. *)
Lemma log_attach_roundtrip_witness :
  let '(fs, s) := log_append_all "/l" [] emptyStore "c" log_stdout ([([97], 1)] ++ [([233], 2); ([98], 3)]) in
  log_attach "/l" fs "c" log_stdout 1 = mkChunk [233; 98] 4 true /\ indexed "/l" fs s "c" log_stdout.
Proof.
  apply (log_attach_roundtrip "/l" [] emptyStore "c" log_stdout [([97], 1)] [([233], 2); ([98], 3)]);
    [reflexivity|reflexivity|repeat constructor|discriminate].
Defined.

(** A stream whose last character really is U+FFFD (a chunk cut inside a
    character decodes to it) never reaches end of file: the read drops it, and
    reading on from the advanced offset returns nothing, without end of file. *)
Lemma trailing_replacement_never_eof :
  let fs := (log_append "/l" [] emptyStore "c" log_stdout [97; replacement] 1).1 in
  log_attach "/l" fs "c" log_stdout 0 = mkChunk [97] 4 false /\
  log_attach "/l" fs "c" log_stdout 1 = mkChunk [] 4 false.
Proof. split; reflexivity. Qed.
