(* ===== verification/Cells.v ===== *)
(** The execd cell manager and the recovery at start-up.

    Models [src/src/execd/cell-manager.ts], [src/src/execd/recovery.ts] and
    [src/src/execd/handle.ts] over the store of [ExecdStore] and the logs of
    [LogStore].  JavaScript runs a method without interruption up to the next
    [await]; such a section is a function from the persistent state to the trace
    of states it commits one after the other, each with what it published.  A
    transaction commits once.  The process may die after any commit: memory
    ([brokerCellIds], the running [runCell] coroutines, the pending
    cancellations) is lost, the committed state stays, and recovery runs at the
    next start.  The broker -- what it compiles, which events it emits, whether
    it proves a termination -- is the environment. *)
From S2P Require Import Prelude Json Frame ExecdStore LogStore.
From stdpp Require Import pretty relations.
From Stdlib Require Import Ascii.
Open Scope string_scope.
Open Scope Z_scope.
Open Scope list_scope.

(** src/src/execd/protocol/messages.ts # SubmitCellPayload *)
Record SubmitCellPayload := mkPayload {
  p_capabilityId : string; p_executable : string; p_args : list string; p_cwdRef : option string;
  p_timeoutMs : option Z; p_env : list (string * string); p_workloadKind : string; p_readonly : bool;
  p_runId : option string; p_nodeRunId : option string; p_attempt : option Z; p_approvalToken : option string }.

(** src/src/execd/cell-manager.ts # SubmitResult *)
Record SubmitResult := mkSubmitResult { sr_cellId : string; sr_runId : string; sr_idempotent : bool; sr_rejected : bool }.

Inductive pub_payload :=
| P_state (state : string)
| P_cancelling
| P_data (data : jschars)
| P_exit (exitCode : option Z) (signal : option string)
| P_receipt (digest : string)
| P_recovery (from : CellState) (to : string) (takeover : option string).

(** What [publish] is called with. *)
Record Publication := mkPub { pub_kind : string; pub_cellId : string; pub_runId : string; pub_body : pub_payload; pub_seq : Z }.

(** The persistent state. *)
Record Disk := mkDisk { db : Store; logs : files }.
Definition with_db (d : Disk) (s : Store) : Disk := mkDisk s (logs d).

(** The states a section commits, in order, with its broadcasts. *)
Abbreviation trace := (list (Disk * list Publication)).
Definition final (d : Disk) (tr : trace) : Disk := default d (fst <$> last tr).
Definition published (tr : trace) : list Publication := tr ≫= snd.

(** [`${cellId}-a${attempt}`] *)
Definition attempt_id (cell : string) (n : Z) : string := cell +:+ "-a" +:+ pretty n.
Definition opt_attempt (p : SubmitCellPayload) : Z := default 1 (p_attempt p).

Section Manager.
(** [JSON.stringify] on stored payloads, and the log root. *)
Context (JSON_stringify : jsval -> jschars) (logRoot : string).

(** src/src/execd/cell-manager.ts # CellManager.record *)
Definition record (cell run node : string) (p : SubmitCellPayload) (st : CellState) (now : Z) : CellRecord :=
  mkCell cell run node (opt_attempt p) None (p_capabilityId p) (p_executable p)
    (JSON_stringify (JArr (JStr <$> p_args p))) (p_cwdRef p) (p_timeoutMs p) st now now.

(** ** Submitting *)

(** src/src/execd/cell-manager.ts # CellManager.submit @126-130 *)
Definition commit_rejected (s : Store) (cell run node att key : string) (p : SubmitCellPayload) (now : Z) : Store :=
  let s := upsertCell s (record cell run node p REJECTED_POLICY now) in
  let s := (transition s cell att REJECTED_POLICY (mkOpts None "compile-failed" "execd" now)).1 in
  putIdempotentResponse s key (mkIdem "SubmitCell" (mkResponse cell run true) now).

(** src/src/execd/cell-manager.ts # CellManager.submit @136-141 *)
Definition commit_accepted (s : Store) (cell run node att key : string) (p : SubmitCellPayload) (now : Z) : Store :=
  let s := upsertCell s (record cell run node p ACCEPTED now) in
  let s := upsertRun s run "active" now in
  let s := (transition s cell att ACCEPTED (mkOpts None "submitted" "execd" now)).1 in
  putIdempotentResponse s key (mkIdem "SubmitCell" (mkResponse cell run false) now).

(** src/src/execd/cell-manager.ts # CellManager.runCell @180-204

    Up to the broker's first event; [cgroup] is the path of the cell's cgroup
    when the broker has a delegated base. *)
Definition runCell_start (d : Disk) (cell att run : string) (cgroup : option string) (now : Z) : trace :=
  let s := (transition (db d) cell att POLICY_COMPILED (mkOpts (Some ACCEPTED) "compiled" "execd" now)).1 in
  let s := (transition s cell att RUNNING (mkOpts (Some POLICY_COMPILED) "executing" "execd" now)).1 in
  let d1 := with_db d s in
  (d1, [mkPub "cell.status" cell run (P_state "RUNNING") (latestEventSequence s)]) ::
  match cgroup with
  | Some path => [(with_db d1 (upsertExecutionHandle s ("h-" +:+ cell) (mkHandle cell run att path None now None)), [])]
  | None => []
  end.

(** src/src/execd/cell-manager.ts # CellManager.submit

    [compiled] is the broker's cell id, or [None] when [compileRequest] throws;
    the generated ids and the clock are arguments.  The result is [None] when
    the error is rethrown. *)
Definition submit (d : Disk) (p : SubmitCellPayload) (key cell fallbackRun : string)
    (compiled cgroup : option string) (now : Z) : trace * option SubmitResult :=
  match getIdempotentResponse (db d) key with
  | Some cached =>
      let first := responseJson cached in
      ([], Some (mkSubmitResult (r_cellId first) (r_runId first) true (r_rejected first)))
  | None =>
      let run := default fallbackRun (p_runId p) in
      let node := default (run +:+ ":n" +:+ pretty (opt_attempt p)) (p_nodeRunId p) in
      let att := attempt_id cell (opt_attempt p) in
      match compiled with
      | None => ([(with_db d (commit_rejected (db d) cell run node att key p now), [])], None)
      | Some _ =>
          let d1 := with_db d (commit_accepted (db d) cell run node att key p now) in
          ((d1, []) :: runCell_start d1 cell att run cgroup now, Some (mkSubmitResult cell run false false))
      end
  end.

(** ** Running *)

Inductive BrokerEvent :=
| BE_status
| BE_out (k : log_kind) (data : jschars)
| BE_exit (exitCode : option Z) (signal : option string)
| BE_receipt (digest : string) (receipt : jsval).

Definition event_kind_of (k : log_kind) : event_kind := match k with log_stdout => k_stdout | log_stderr => k_stderr end.
Definition opt_num (o : option Z) : jsval := match o with Some n => JNum n | None => JNull end.
Definition opt_str (o : option string) : jsval := match o with Some s => JStr s | None => JUndef end.
(** [`exit:${event.exitCode}`] *)
Definition exit_reason (o : option Z) : string := "exit:" +:+ match o with Some n => pretty n | None => "null" end.

(** src/src/execd/cell-manager.ts # CellManager.runCell @209-267 *)
Definition on_event (d : Disk) (cell att run : string) (ev : BrokerEvent) (now : Z) : trace :=
  match ev with
  | BE_status => []
  | BE_out k data =>
      let payload := if (16 * 1024) <? blen data then take (Z.to_nat (16 * 1024)) data else data in
      let '(s, seq) := appendStreamEvent (db d) cell att (event_kind_of k) payload now in
      let '(fs, s') := log_append logRoot (logs d) s cell k data now in
      [(with_db d s, []);
       (mkDisk s' fs, [mkPub ("cell." +:+ log_kind_name k) cell run (P_data data) seq])]
  | BE_exit code sig =>
      let '(s, seq) := appendStreamEvent (db d) cell att k_exit
        (JSON_stringify (JObj [("exitCode", opt_num code); ("signal", opt_str sig)])) now in
      let s' := (transition s cell att EXIT_OBSERVED (mkOpts (Some RUNNING) (exit_reason code) "broker" now)).1 in
      [(with_db d s, []); (with_db d s', [mkPub "cell.exit" cell run (P_exit code sig) seq])]
  | BE_receipt digest receipt =>
      let '(s, seq) := appendStreamEvent (db d) cell att k_receipt
        (JSON_stringify (JObj [("receiptDigest", JStr digest)])) now in
      let s1 := commitReceipt s digest (mkReceipt cell run (JSON_stringify receipt) now) in
      let s' := (transition s1 cell att RECEIPT_COMMITTED (mkOpts (Some EXIT_OBSERVED) "receipt" "execd" now)).1 in
      [(with_db d s, []); (with_db d s', [mkPub "cell.receipt" cell run (P_receipt digest) seq])]
  end.

(** src/src/execd/cell-manager.ts # CellManager.runCell @268-278 *)
Definition on_throw (d : Disk) (cell att run message : string) (now : Z) : trace :=
  match currentState <$> getCell (db d) cell with
  | Some RUNNING =>
      let s := (transition (db d) cell att START_FAILED (mkOpts (Some RUNNING) (String.substring 0 200 message) "execd" now)).1 in
      [(with_db d s, [mkPub "cell.status" cell run (P_state "START_FAILED") (latestEventSequence s)])]
  | _ => []
  end.

(** src/src/execd/cell-manager.ts # CellManager.runCell @282-292 *)
Definition on_end (d : Disk) (cell att run : string) (now : Z) : trace :=
  match currentState <$> getCell (db d) cell with
  | Some RECEIPT_COMMITTED =>
      let s := (transition (db d) cell att EVIDENCE_BOUND (mkOpts (Some RECEIPT_COMMITTED) "receipt-bound" "execd" now)).1 in
      let s1 := (transition s cell att CLEANED (mkOpts (Some EVIDENCE_BOUND) "cleaned" "execd" now)).1 in
      let s2 := deleteExecutionHandle s1 ("h-" +:+ cell) in
      let '(fs, s3) := log_remove logRoot (logs d) s2 cell in
      [(with_db d s1, []); (with_db d s2, []);
       (mkDisk s3 fs, [mkPub "cell.status" cell run (P_state "CLEANED") (latestEventSequence s3)])]
  | _ => []
  end.

(** ** Cancelling and cleaning *)

(** src/src/execd/cell-manager.ts # CellManager.cancelCell @322-335

    From the termination verdict on; [cell] is the row read before the
    [await]s. *)
Definition cancel_finish (d : Disk) (cell : CellRecord) (proven : bool) (now : Z) : trace :=
  let id := cellId cell in
  if negb proven then
    [(d, [mkPub "cell.status" id (runId cell) P_cancelling (latestEventSequence (db d))])]
  else
    let '(s, seq) := transition (db d) id (attempt_id id (attempt cell)) CANCELLED
                       (mkOpts (Some (currentState cell)) "cancelled" "execd" now) in
    [(with_db d (deleteExecutionHandle s ("h-" +:+ id)),
      match seq with Some n => [mkPub "cell.status" id (runId cell) (P_state "CANCELLED") n] | None => [] end)].

(** A loop over rows read beforehand whose turns commit. *)
Fixpoint each (f : Disk -> CellRecord -> trace) (d : Disk) (cs : list CellRecord) : trace :=
  match cs with
  | [] => []
  | c :: cs => let tr := f d c in tr ++ each f (final d tr) cs
  end.

(** src/src/execd/cell-manager.ts # CellManager.cancelRun @402-409

    After the broker was asked to cancel the run. *)
Definition cancelRun (d : Disk) (run : string) (now : Z) : trace :=
  each (fun d cell =>
    if includes [CLEANED; CANCELLED; START_FAILED] (currentState cell) then []
    else [(with_db d (transition (db d) (cellId cell) (attempt_id (cellId cell) (attempt cell)) CANCELLED
                        (mkOpts (Some (currentState cell)) "run-cancelled" "execd" now)).1, [])])
    d (listCellsByRun (db d) run).

(** src/src/execd/cell-manager.ts # CellManager.cleanupRun *)
Definition cleanupRun (d : Disk) (run : string) (now : Z) : trace * Z :=
  let rows := listCellsByRun (db d) run in
  let tr := each (fun d cell =>
    if currentState cell === CANCELLED then
      let '(s, seq) := transition (db d) (cellId cell) (attempt_id (cellId cell) (attempt cell)) CLEANED
                         (mkOpts (Some CANCELLED) "cleaned" "execd" now) in
      [(with_db d s, match seq with Some n => [mkPub "cell.status" (cellId cell) run (P_state "CLEANED") n] | None => [] end)]
    else []) d rows in
  let removed := Z.of_nat (count_where (fun c => currentState c === CANCELLED) rows) in
  let stillActive := existsb (fun c => (currentState c === RUNNING) || (currentState c === CANCELLED)) rows in
  let d1 := final d tr in
  (tr ++ (if stillActive then [] else [(with_db d1 (upsertRun (db d1) run "cleaned" now), [])]), removed).

(** src/src/execd/cell-manager.ts # CellManager.listRecoverableRuns *)
Definition listRecoverableRuns (s : Store) : list (string * Z) :=
  fold_left (fun rs c => jset (runId c) (default 0 (jget (runId c) rs) + 1) rs) (listNonTerminalCells s) [].
End Manager.
