(* ===== verification/Recovery.v ===== *)
(** Start-up recovery of execd.

    Models [src/src/execd/recovery.ts] and [src/src/execd/handle.ts]: every
    non-terminal cell of the store is taken over through its cgroup, or its
    state is settled.  Sections and commits are as in [Cells]. *)
From S2P Require Import Prelude Json Frame ExecdStore LogStore Cells.
From Stdlib Require Import Ascii.
Open Scope string_scope.
Open Scope Z_scope.
Open Scope list_scope.

(** ** Probing a cgroup *)

(** src/src/execd/handle.ts # CgroupProbeFs *)
Record CgroupProbeFs := mkProbe { readCgroupEvents : string -> option string; probe_exists : string -> bool }.

Definition newline : ascii := ascii_of_nat 10.

(** src/src/execd/handle.ts # parsePopulated *)
Definition parsePopulated (events : option string) : option bool :=
  match events with
  | None => None
  | Some text =>
      match List.find (fun line => String.prefix "populated " line) (split_on newline text) with
      | None => None
      | Some line =>
          match split_on " " line !! 1%nat with
          | Some value => if value === "0" then Some false else if value === "1" then Some true else None
          | None => None
          end
      end
  end.

(** src/src/execd/handle.ts # TakeoverVerdict *)
Inductive Takeover := RECOVERED | EXITED | ABSENT | UNKNOWN.

Definition takeover_name (t : Takeover) : string :=
  match t with RECOVERED => "RECOVERED" | EXITED => "EXITED" | ABSENT => "ABSENT" | UNKNOWN => "UNKNOWN" end.

(** src/src/execd/handle.ts # determineTakeover *)
Definition determineTakeover (cgroupPath : string) (fs : CgroupProbeFs) : Takeover :=
  if negb (probe_exists fs cgroupPath) then ABSENT
  else match parsePopulated (readCgroupEvents fs cgroupPath) with
  | None => UNKNOWN
  | Some true => RECOVERED
  | Some false => EXITED
  end.

(** ** Recovering *)

(** src/src/execd/recovery.ts # RecoveryReport *)
Record Recovered := mkRecovered { rv_cellId : string; rv_from : CellState; rv_to : CellState }.

Section Recovery.
Context (JSON_stringify : jsval -> jschars) (probeFs : CgroupProbeFs).

(** src/src/execd/recovery.ts # Recovery.recover @155-167

    The receipt written for an exit nobody reported. *)
Definition recovery_receipt (cell : CellRecord) (now : Z) : jsval :=
  JObj [("schemaVersion", JStr "1.0"); ("backend", JStr "recovery"); ("cellId", JStr (cellId cell));
        ("runId", JStr (runId cell)); ("exitCode", JNull); ("signal", JStr "unknown"); ("timedOut", JBool false);
        ("cancelled", JBool false);
        ("metrics", JObj [("status", JStr "unknown"); ("reason", JStr "execd restarted before receipt")]);
        ("cleanup", JObj [("processesRemaining", JNum (-1)); ("mountsReleased", JBool false); ("cgroupRemoved", JBool false);
                          ("worktreeRetained", JBool false); ("cleanupVerified", JBool false)]);
        ("at", JNum now)].

(** One guarded transition and its broadcast. *)
Definition settle_cell (d : Disk) (cell : CellRecord) (att : string) (to : CellState) (reason : string)
    (pub : option pub_payload) (now : Z) : trace :=
  let s := (transition (db d) (cellId cell) att to (mkOpts (Some (currentState cell)) reason "recovery" now)).1 in
  [(with_db d s,
    match pub with
    | Some p => [mkPub "recovery" (cellId cell) (runId cell) p (latestEventSequence s)]
    | None => []
    end)].

(** src/src/execd/recovery.ts # Recovery.recover @99-144 *)
Definition after_takeover (d : Disk) (cell : CellRecord) (att : string) (t : Takeover) (now : Z) : trace * CellState :=
  match t with
  | RECOVERED => (settle_cell d cell att RUNNING "execd-restart-takeover" (Some (P_recovery RUNNING "RUNNING" (Some "RECOVERED"))) now, RUNNING)
  | EXITED => (settle_cell d cell att EXIT_OBSERVED "cgroup-empty-after-restart" (Some (P_recovery RUNNING "EXIT_OBSERVED" None)) now, EXIT_OBSERVED)
  | ABSENT => (settle_cell d cell att START_FAILED "cgroup-absent-after-restart" (Some (P_recovery RUNNING "START_FAILED" None)) now, START_FAILED)
  | UNKNOWN => (settle_cell d cell att RUNNING "cgroup-events-unreadable-retry" (Some (P_recovery RUNNING "RUNNING" (Some "UNKNOWN"))) now, RUNNING)
  end.

(** src/src/execd/recovery.ts # Recovery.recover *)
Definition recover (d : Disk) (cell : CellRecord) (now : Z) : trace * CellState :=
  let att := attempt_id (cellId cell) (attempt cell) in
  match currentState cell with
  | ACCEPTED => (settle_cell d cell att LOST "execd-restart-untracked" (Some (P_recovery ACCEPTED "LOST" None)) now, LOST)
  | POLICY_COMPILED => (settle_cell d cell att LOST "execd-restart-untracked" (Some (P_recovery POLICY_COMPILED "LOST" None)) now, LOST)
  | RUNNING =>
      match listHandlesByCell (db d) (cellId cell) with
      | [] => (settle_cell d cell att LOST "execd-restart-no-handle" (Some (P_recovery RUNNING "LOST" None)) now, LOST)
      | (hid, h) :: _ =>
          let t := determineTakeover (h_cgroupPath h) probeFs in
          let d1 := with_db d (upsertExecutionHandle (db d) hid
            (mkHandle (cellId cell) (runId cell) att (h_cgroupPath h) None (h_startedAt h) (Some (takeover_name t)))) in
          let '(tr, to) := after_takeover d1 cell att t now in
          ((d1, []) :: tr, to)
      end
  | EXIT_OBSERVED =>
      let digest := "recovery-" +:+ cellId cell +:+ "-" +:+ att in
      let s := commitReceipt (db d) digest
        (mkReceipt (cellId cell) (runId cell) (JSON_stringify (recovery_receipt cell now)) now) in
      (settle_cell (with_db d s) cell att RECEIPT_COMMITTED "recovery-receipt" (Some (P_recovery EXIT_OBSERVED "RECEIPT_COMMITTED" None)) now,
       RECEIPT_COMMITTED)
  | RECEIPT_COMMITTED =>
      ([(d, [mkPub "recovery" (cellId cell) (runId cell) (P_recovery RECEIPT_COMMITTED "rebind-evidence" None) (latestEventSequence (db d))])],
       RECEIPT_COMMITTED)
  | CLEANUP_PENDING => (settle_cell d cell att CLEANED "cleanup-resumed" None now, CLEANED)
  | st => ([], st)
  end.

(** src/src/execd/recovery.ts # Recovery.run @54-58 *)
Fixpoint recover_all (d : Disk) (cells : list CellRecord) (now : Z) : trace * list Recovered :=
  match cells with
  | [] => ([], [])
  | cell :: cells =>
      let '(tr, to) := recover d cell now in
      let '(tr', rs) := recover_all (final d tr) cells now in
      (tr ++ tr', mkRecovered (cellId cell) (currentState cell) to :: rs)
  end.

(** src/src/execd/recovery.ts # Recovery.run *)
Definition recovery_run (d : Disk) (now : Z) : trace * list Recovered :=
  recover_all d (listNonTerminalCells (db d)) now.
End Recovery.
