(* ===== verification/Execd.v ===== *)
(** The execd daemon as a whole: every interleaving of the cell manager's
    sections, every crash between two commits, and the recovery after it.

    The sections are those of [Cells], [Recovery] and the lease sweep of
    [ExecdStore]; the events of [src/src/execd/execd.ts] that run them (a
    request, a broker event, a timer, a start) are the constructors of
    [section].  The theorems state what holds of the database in every
    reachable state: its event log and its materialized states agree and follow
    the cell lifecycle, terminal states are final, a submission is never carried
    out twice, and recovery settles what it reports. *)
From S2P Require Import Prelude Json Frame ExecdStore LogStore Cells Recovery.
From stdpp Require Import relations.
Open Scope string_scope.
Open Scope Z_scope.
Open Scope list_scope.

(** ** The abstract lifecycle *)

(** The moves a cell can make, as the methods name them. *)
Definition edge (f t : CellState) : bool :=
  match t with
  | ACCEPTED | POLICY_COMPILED => f === ACCEPTED
  | RUNNING => (f === POLICY_COMPILED) || (f === RUNNING)
  | EXIT_OBSERVED | START_FAILED => f === RUNNING
  | RECEIPT_COMMITTED => f === EXIT_OBSERVED
  | EVIDENCE_BOUND => f === RECEIPT_COMMITTED
  | CLEANED => includes [EVIDENCE_BOUND; CANCELLED; CLEANUP_PENDING] f
  | LOST => includes [ACCEPTED; POLICY_COMPILED; RUNNING] f
  | CANCELLED => negb (is_terminal f)
  | _ => false
  end.

Lemma edge_rejected t : edge REJECTED_POLICY t = false.
Proof. by destruct t. Qed.
Lemma edge_terminal f t : is_terminal f = true -> edge f t = true -> t = CLEANED /\ f = CANCELLED.
Proof. by destruct f, t. Qed.
Lemma edge_cleaned t : edge CLEANED t = false.
Proof. by destruct t. Qed.
Lemma edge_into_rejected f : edge f REJECTED_POLICY = false.
Proof. by destruct f. Qed.

(** Reachable by moves. *)
Definition leads (f t : CellState) : Prop := rtc (fun f t => edge f t = true) f t.

#[export] Instance leads_preorder : PreOrder leads.
Proof. apply rtc_po. Qed.

Lemma leads_terminal f t : is_terminal f = true -> leads f t -> t = f \/ t = CLEANED.
Proof.
  intros Hf H. induction H as [|f m t He Hm IH]; [by left|].
  destruct (edge_terminal _ _ Hf He) as [-> ->]. right.
  inversion Hm as [|? ? ? He']; [done|]. by rewrite edge_cleaned in He'.
Qed.

(** ** What every commit preserves *)

(** The database grows monotonically: cells move along the lifecycle, logged
    events stay, and recorded responses stay. *)
Record evolves (s s' : Store) : Prop := mkEvolves {
  ev_cells : forall id c, getCell s id = Some c ->
    exists c', getCell s' id = Some c' /\ runId c' = runId c /\ leads (currentState c) (currentState c');
  ev_log : cell_events s `prefix_of` cell_events s';
  ev_idem : forall key r, getIdempotentResponse s key = Some r -> getIdempotentResponse s' key = Some r }.

#[export] Instance evolves_preorder : PreOrder evolves.
Proof.
  split.
  - intros s. split; [|done|done]. intros id c H. exists c. split_and!; [done|done|apply rtc_refl].
  - intros s1 s2 s3 [H1 L1 I1] [H2 L2 I2]. split; [|by etrans|by auto].
    intros id c Hc. destruct (H1 id c Hc) as (c1 & Hc1 & Hr1 & Hl1). destruct (H2 id c1 Hc1) as (c2 & Hc2 & Hr2 & Hl2).
    exists c2. split_and!; [done|congruence|by etrans].
Qed.

(** One response and one cell per idempotency key. *)
Definition paired (s : Store) : Prop :=
  NoDup (jkeys (idempotency_keys s)) /\
  (fun r => r_cellId (responseJson r)) <$> jvalues (idempotency_keys s) = jkeys (cells s).

(** The invariant of the database. *)
Definition store_ok (s : Store) : Prop := log_ok edge s /\ paired s.

(** A commit is good when it keeps the invariant and evolves the store. *)
Definition good (s s' : Store) : Prop := (store_ok s -> store_ok s') /\ (store_ok s -> evolves s s').

Lemma good_refl s : good s s.
Proof. by split. Qed.
Lemma good_trans s1 s2 s3 : good s1 s2 -> good s2 s3 -> good s1 s3.
Proof. intros [H1 E1] [H2 E2]. split; [tauto|]. intros H. etrans; [by apply E1|]. apply E2. auto. Qed.

(** Statements that touch neither the cells, nor the log, nor the responses. *)
Lemma good_same s s' : cells s' = cells s -> cell_events s' = cell_events s -> last_sequence s' = last_sequence s ->
  idempotency_keys s' = idempotency_keys s -> good s s'.
Proof.
  intros Hc He Hl Hi. split.
  - intros [H1 [H2 H3]]. split; [by eapply log_ok_same|]. unfold paired. by rewrite Hi, Hc.
  - intros _. split; unfold getCell, getIdempotentResponse; rewrite ?Hc, ?He, ?Hi; [|done|done].
    intros id c H. exists c. split_and!; [done|done|apply rtc_refl].
Qed.

Lemma good_stream s id att k p now : k <> k_state -> good s (appendStreamEvent s id att k p now).1.
Proof.
  intros Hk. split.
  - intros [H1 H2]. split; [by apply log_ok_stream|done].
  - intros _. split; [|by apply prefix_app_r|done].
    intros i c H. exists c. split_and!; [done|done|apply rtc_refl].
Qed.

(** A guarded transition along the lifecycle. *)
Lemma good_transition s id att to o :
  (forall f, may_move f to o = true -> edge f to = true) -> good s (transition s id att to o).1.
Proof.
  intros Hedge. split.
  - intros [H1 H2]. split; [apply log_ok_transition; [apply edge_rejected|auto|done]|].
    rewrite transition_spec. destruct (getCell s id) as [c|] eqn:Ec; [|done]. destruct (may_move _ _ _); [|done].
    destruct H2 as [Hn Hp]. split; [done|]. cbn [fst moved cells idempotency_keys]. rewrite Hp, jkeys_jset.
    rewrite decide_True; [done|]. by eapply jkeys_elem.
  - intros _. rewrite transition_spec. destruct (getCell s id) as [c|] eqn:Ec; [|done].
    destruct (may_move _ _ _) eqn:Em; [|done]. cbn [fst]. split; [|by apply prefix_app_r|done].
    intros i r. unfold getCell in *. cbn [moved cells]. rewrite jget_jset. case_decide as E; intros Hr.
    + subst i. simplify_eq. eexists. split_and!; [done|done|]. apply rtc_once. by apply Hedge.
    + exists r. split_and!; [done|done|apply rtc_refl].
Qed.

(** The same from a named state. *)
Lemma good_transition_from s id att f to reason actor now :
  edge f to = true -> good s (transition s id att to (mkOpts (Some f) reason actor now)).1.
Proof. intros He. apply good_transition. intros f' Hm. by rewrite (may_move_from _ _ _ f Hm eq_refl). Qed.

(** Cancelling from whatever state was read: the guard refuses terminal ones. *)
Lemma good_cancel s id att f reason actor now :
  good s (transition s id att CANCELLED (mkOpts f reason actor now)).1.
Proof.
  apply good_transition. intros f' Hm. apply may_move_guards in Hm as [_ Hm]. simpl.
  destruct (is_terminal f'); [by specialize (Hm eq_refl)|done].
Qed.

(** ** Traces *)

Fixpoint good_trace (s : Store) (tr : trace) : Prop :=
  match tr with
  | [] => True
  | (d, _) :: tr => good s (db d) /\ good_trace (db d) tr
  end.

Lemma final_cons d x tr : final d (x :: tr) = final x.1 tr.
Proof.
  unfold final. destruct tr as [|y tr]; [done|]. rewrite last_cons_cons.
  destruct (last (y :: tr)) eqn:E; [done|]. by apply last_None in E.
Qed.
Lemma final_app d tr tr' : final d (tr ++ tr') = final (final d tr) tr'.
Proof. revert d. induction tr as [|x tr IH]; intros d; [done|]. simpl. by rewrite !final_cons, IH. Qed.

Lemma good_trace_app d tr tr' :
  good_trace (db d) tr -> good_trace (db (final d tr)) tr' -> good_trace (db d) (tr ++ tr').
Proof.
  revert d. induction tr as [|[d' p] tr IH]; intros d; [done|]. rewrite final_cons. simpl.
  intros [H1 H2] H3. split; [done|by apply IH].
Qed.

(** Whatever prefix of a section was committed. *)
Lemma good_trace_take d tr n : good_trace (db d) tr -> good (db d) (db (final d (take n tr))).
Proof.
  revert d n. induction tr as [|[d' p] tr IH]; intros d [|n]; try (intros; apply good_refl).
  intros [H1 H2]. cbn [take]. rewrite final_cons. eapply good_trans; [exact H1|by apply IH].
Qed.
Lemma good_trace_final d tr : good_trace (db d) tr -> good (db d) (db (final d tr)).
Proof. intros H. rewrite <-(take_ge tr (length tr)) by done. by apply good_trace_take. Qed.

Lemma good_trace_one d d' p : good (db d) (db d') -> good_trace (db d) [(d', p)].
Proof. by split. Qed.

Lemma good_each f d cs : (forall d c, good_trace (db d) (f d c)) -> good_trace (db d) (each f d cs).
Proof. intros Hf. revert d. induction cs as [|c cs IH]; intros d; [done|]. simpl. by apply good_trace_app. Qed.

(** ** Every section is good *)

Section Sections.
Context (JSON_stringify : jsval -> jschars) (logRoot : string).

Lemma replace_row_fresh {K V} `{EqDecision K} (k : K) (v : V) rows :
  jget k rows = None -> replace_row k v rows = rows ++ [(k, v)].
Proof.
  intros H. unfold replace_row. f_equal. induction rows as [|[k' v'] rows IH]; [done|]. simpl in *.
  destruct (k' === k); [done|]. by rewrite IH.
Qed.

(** A submission adds one cell and one response. *)
Lemma paired_new s s' key cell r c :
  paired s -> getCell s cell = None -> getIdempotentResponse s key = None -> r_cellId (responseJson r) = cell ->
  cells s' = cells s ++ [(cell, c)] -> idempotency_keys s' = idempotency_keys s ++ [(key, r)] -> paired s'.
Proof.
  intros [Hn Hp] Hc Hk Hr Hcs His. unfold paired, jkeys, jvalues in *. rewrite His, Hcs, !fmap_app, Hp. split.
  - apply NoDup_app. split_and!; [done| |apply NoDup_singleton]. intros k Hin ->%list_elem_of_singleton.
    by apply jget_None in Hk.
  - simpl. by rewrite Hr.
Qed.

Lemma evolves_new s s' key r x : 
  getCell s x.1 = None -> getIdempotentResponse s key = None ->
  cells s' = cells s ++ [x] -> (cell_events s `prefix_of` cell_events s') ->
  idempotency_keys s' = idempotency_keys s ++ [(key, r)] -> evolves s s'.
Proof.
  intros Hx Hk Hc He Hi. destruct x as [i c0]. unfold getCell, getIdempotentResponse in *. split; [|done|].
  - intros id c H. exists c. split_and!; [|done|apply rtc_refl]. unfold getCell. rewrite Hc, <-jset_fresh by (by apply jget_None).
    rewrite jget_jset. case_decide as E; [|done]. unfold getCell in H. simpl in *. congruence.
  - intros k v H. unfold getIdempotentResponse in *. rewrite Hi, <-jset_fresh by (by apply jget_None). rewrite jget_jset. case_decide; [congruence|done].
Qed.

(** What the two transactions of [submit] write. *)
Lemma accepted_fields s cell run node att key p now :
  getCell s cell = None -> getIdempotentResponse s key = None ->
  let s' := commit_accepted JSON_stringify s cell run node att key p now in
  cells s' = cells s ++ [(cell, set_state (record JSON_stringify cell run node p ACCEPTED now) ACCEPTED now)] /\
  cell_events s' = cell_events s ++
    [mkEvent (last_sequence s + 1) cell att (Some ACCEPTED) ACCEPTED "submitted" "execd" "" now k_state None] /\
  last_sequence s' = last_sequence s + 1 /\
  idempotency_keys s' = idempotency_keys s ++ [(key, mkIdem "SubmitCell" (mkResponse cell run false) now)].
Proof.
  intros Hc Hk. unfold commit_accepted, upsertCell, getCell, getIdempotentResponse in *. cbn [cellId record]. rewrite Hc.
  rewrite transition_spec. unfold getCell. cbn [upsertRun with_runs with_cells cells].
  rewrite <-jset_fresh by (by apply jget_None). rewrite jget_jset_eq. cbn [may_move currentState record].
  change (may_move ACCEPTED ACCEPTED _) with true. cbv iota zeta.
  cbn [fst putIdempotentResponse with_idempotency upsertRun with_runs with_cells cells cell_events last_sequence idempotency_keys moved].
  rewrite replace_row_fresh by done. rewrite jset_jset, jset_fresh by (by apply jget_None). done.
Qed.

Lemma rejected_fields s cell run node att key p now :
  getCell s cell = None -> getIdempotentResponse s key = None ->
  let s' := commit_rejected JSON_stringify s cell run node att key p now in
  cells s' = cells s ++ [(cell, record JSON_stringify cell run node p REJECTED_POLICY now)] /\
  cell_events s' = cell_events s /\ last_sequence s' = last_sequence s /\
  idempotency_keys s' = idempotency_keys s ++ [(key, mkIdem "SubmitCell" (mkResponse cell run true) now)].
Proof.
  intros Hc Hk. unfold commit_rejected, upsertCell, getCell, getIdempotentResponse in *. cbn [cellId record]. rewrite Hc.
  rewrite transition_spec. unfold getCell. cbn [with_cells cells].
  rewrite <-jset_fresh by (by apply jget_None). rewrite jget_jset_eq. cbn [currentState record].
  change (may_move REJECTED_POLICY REJECTED_POLICY _) with false. cbv iota zeta.
  cbn [fst putIdempotentResponse with_idempotency with_cells cells cell_events last_sequence idempotency_keys].
  rewrite replace_row_fresh by done. rewrite jset_fresh by (by apply jget_None). done.
Qed.

Lemma good_accepted s cell run node att key p now :
  getCell s cell = None -> getIdempotentResponse s key = None ->
  good s (commit_accepted JSON_stringify s cell run node att key p now).
Proof.
  intros Hc Hk. destruct (accepted_fields s cell run node att key p now Hc Hk) as (H1 & H2 & H3 & H4). split.
  - intros [Hl Hp]. split; [|by refine (paired_new _ _ _ _ _ _ Hp Hc Hk _ H1 H4)].
    eapply (log_ok_new edge s _ (set_state (record JSON_stringify cell run node p ACCEPTED now) ACCEPTED now));
      [done|done|exact H1|exact H2|done|]. right. split_and!; [done..|]. by eexists.
  - intros _. eapply evolves_new; [|done|exact H1| |exact H4]; [done|]. rewrite H2. by apply prefix_app_r.
Qed.

Lemma good_rejected s cell run node att key p now :
  getCell s cell = None -> getIdempotentResponse s key = None ->
  good s (commit_rejected JSON_stringify s cell run node att key p now).
Proof.
  intros Hc Hk. destruct (rejected_fields s cell run node att key p now Hc Hk) as (H1 & H2 & H3 & H4). split.
  - intros [Hl Hp]. split; [|by refine (paired_new _ _ _ _ _ _ Hp Hc Hk _ H1 H4)].
    eapply (log_ok_new edge s _ (record JSON_stringify cell run node p REJECTED_POLICY now) []);
      [done|done|exact H1|by rewrite app_nil_r|by rewrite Z.add_0_r|by left].
  - intros _. eapply evolves_new; [|done|exact H1| |exact H4]; [done|]. by rewrite H2.
Qed.

Lemma good_runCell_start d cell att run cgroup now : good_trace (db d) (runCell_start d cell att run cgroup now).
Proof.
  unfold runCell_start. set (s1 := (transition (db d) _ _ _ _).1). set (s2 := (transition s1 _ _ _ _).1).
  assert (good (db d) s2) by (apply (good_trans _ s1); by apply good_transition_from).
  destruct cgroup; split; try done. split; [by apply good_same|done].
Qed.

Lemma good_submit d p key cell frun compiled cgroup now :
  getCell (db d) cell = None -> good_trace (db d) (submit JSON_stringify d p key cell frun compiled cgroup now).1.
Proof.
  intros Hc. unfold submit. destruct (getIdempotentResponse (db d) key) eqn:Hk; [done|].
  destruct compiled; simpl; (split; [|done || apply (good_runCell_start (with_db d _))]).
  - by apply good_accepted.
  - by apply good_rejected.
Qed.

Lemma good_log_append d s id k data now fs s' :
  log_append logRoot (logs d) s id k data now = (fs, s') -> good s s'.
Proof. unfold log_append. destruct data; intros [= <- <-]; [apply good_refl|by apply good_same]. Qed.

Lemma good_on_event d cell att run ev now : good_trace (db d) (on_event JSON_stringify logRoot d cell att run ev now).
Proof.
  unfold on_event. destruct ev as [|k data|code sig|digest receipt]; [done| | |].
  - cbv zeta. pose proof (good_stream (db d) cell att (event_kind_of k) (if 16 * 1024 <? blen data then take (Z.to_nat (16 * 1024)) data else data) now) as H.
    destruct (appendStreamEvent _ _ _ _ _ _) as [s seq].
    destruct (log_append _ _ s _ _ _ _) as [fs s'] eqn:E. split; [apply H; by destruct k|]. split; [|done].
    by eapply good_log_append.
  - pose proof (good_stream (db d) cell att k_exit (JSON_stringify (JObj [("exitCode", opt_num code); ("signal", opt_str sig)])) now) as H.
    destruct (appendStreamEvent _ _ _ _ _ _) as [s seq]. split; [by apply H|]. split; [by apply good_transition_from|done].
  - pose proof (good_stream (db d) cell att k_receipt (JSON_stringify (JObj [("receiptDigest", JStr digest)])) now) as H.
    destruct (appendStreamEvent _ _ _ _ _ _) as [s seq]. split; [by apply H|]. split; [|done].
    cbn [with_db db]. eapply good_trans; [|by apply good_transition_from]. by apply good_same.
Qed.

Lemma good_on_throw d cell att run message now : good_trace (db d) (on_throw d cell att run message now).
Proof. unfold on_throw. repeat case_match; try done. apply good_trace_one. by apply good_transition_from. Qed.

Lemma good_on_end d cell att run now : good_trace (db d) (on_end logRoot d cell att run now).
Proof.
  unfold on_end. repeat case_match; try done; simplify_eq.
  split; [|split; [by apply good_same|split; [|done]]].
  - eapply good_trans; [|by apply good_transition_from]. by apply good_transition_from.
  - match goal with H : log_remove _ _ _ _ = _ |- _ => unfold log_remove in H; injection H as <- <- end. by apply good_same.
Qed.

Lemma good_cancel_finish d cell proven now : good_trace (db d) (cancel_finish d cell proven now).
Proof.
  unfold cancel_finish. destruct proven; [|apply good_trace_one, good_refl]. cbv zeta. cbn [negb].
  pose proof (good_cancel (db d) (cellId cell) (attempt_id (cellId cell) (attempt cell)) (Some (currentState cell)) "cancelled" "execd" now) as H.
  destruct (transition _ _ _ _ _) as [s seq]. apply good_trace_one. eapply good_trans; [exact H|]. by apply good_same.
Qed.

Lemma good_cancelRun d run now : good_trace (db d) (cancelRun d run now).
Proof. apply good_each. intros d' c. case_match; [done|]. apply good_trace_one, good_cancel. Qed.

Lemma good_cleanupRun d run now : good_trace (db d) (cleanupRun d run now).1.
Proof.
  unfold cleanupRun. cbn [fst]. apply good_trace_app.
  - apply good_each. intros d' c. case_match; [|done].
    pose proof (good_transition_from (db d') (cellId c) (attempt_id (cellId c) (attempt c)) CANCELLED CLEANED "cleaned" "execd" now eq_refl) as Hg.
    destruct (transition _ _ _ _ _) as [s seq]. by apply good_trace_one; exact Hg.
  - case_match; [done|]. apply good_trace_one. by apply good_same.
Qed.

Lemma good_settle d cell att to reason pub now :
  edge (currentState cell) to = true -> good_trace (db d) (settle_cell d cell att to reason pub now).
Proof. intros He. apply good_trace_one. by apply good_transition_from. Qed.

Lemma good_recover probe d cell now : good_trace (db d) (recover JSON_stringify probe d cell now).1.
Proof.
  unfold recover. destruct (currentState cell) eqn:Es; try done; try (apply good_settle; by rewrite Es).
  - destruct (listHandlesByCell (db d) (cellId cell)) as [|[hid h] hs]; [apply good_settle; by rewrite Es|].
    cbv zeta. set (d1 := with_db d _). assert (good_trace (db d1) (after_takeover d1 cell (attempt_id (cellId cell) (attempt cell))
      (determineTakeover (h_cgroupPath h) probe) now).1) as H.
    { destruct (determineTakeover _ _); apply good_settle; by rewrite Es. }
    destruct (after_takeover _ _ _ _ _) as [tr to]. split; [by apply good_same|exact H].
  - cbv zeta. cbn [fst]. split; [|done]. eapply good_trans; [|by apply good_transition_from; rewrite Es]. by apply good_same.
Qed.

Lemma good_recovery probe d now : good_trace (db d) (recovery_run JSON_stringify probe d now).1.
Proof.
  unfold recovery_run. generalize (listNonTerminalCells (db d)) as rows. intros rows. revert d.
  induction rows as [|c rows IH]; intros d; [done|]. cbn [recover_all].
  pose proof (good_recover probe d c now) as H. destruct (recover _ _ d c now) as [tr to]. cbn [fst] in H.
  specialize (IH (final d tr)). destruct (recover_all _ _ (final d tr) rows now) as [tr' rs]. by apply good_trace_app.
Qed.
End Sections.

(** The commits of a sweep: each due lease's event, then its release. *)
Fixpoint sweep_commits (notice : string -> string -> jschars) (d : Disk) (rows : list (string * LeaseRow)) (now : Z) : trace :=
  match rows with
  | [] => []
  | (id, l) :: rows =>
      if l_expiresAt l <=? now then
        let d1 := with_db d (onExpired notice (db d) id (l_runId l) now).1 in
        let d2 := with_db d (store_releaseLease (db d1) id now) in
        (d1, [mkPub "lease.expired" "" (l_runId l) (P_state id) (last_sequence (db d1))]) :: (d2, []) :: sweep_commits notice d2 rows now
      else sweep_commits notice d rows now
  end.

Lemma sweep_commits_final notice rows now : forall d acc,
  db (final d (sweep_commits notice d rows now)) = (fold_left (sweep_lease notice now) rows (db d, acc)).1.
Proof.
  induction rows as [|[id l] rows IH]; intros d acc; [done|]. cbn [fold_left sweep_commits]. unfold sweep_lease at 2.
  destruct (l_expiresAt l <=? now); [|apply IH]. cbv zeta. rewrite !final_cons. cbn [fst].
  rewrite (IH _ (acc ++ [(id, l_runId l)])). done.
Qed.

Lemma good_sweep notice rows d now : good_trace (db d) (sweep_commits notice d rows now).
Proof.
  revert d. induction rows as [|[id l] rows IH]; intros d; [done|]. cbn [sweep_commits].
  destruct (l_expiresAt l <=? now); [|apply IH]. split; [by apply good_stream|]. split; [|apply IH].
  cbn [with_db db]. unfold store_releaseLease, update_lease. case_match; [by apply good_same|apply good_refl].
Qed.

(** ** The daemon *)

(** A [runCell] in flight. *)
Record Coroutine := mkCoroutine { co_cellId : string; co_attemptId : string; co_runId : string }.
#[export] Instance Coroutine_eq_dec : EqDecision Coroutine.
Proof. solve_decision. Defined.
#[export] Instance CellRecord_eq_dec : EqDecision CellRecord.
Proof. solve_decision. Defined.

(** src/src/execd/cell-manager.ts # CellManager @38-55

    What the manager keeps in memory; [cancelling] are the rows read by the
    [cancelCell]s that await their termination verdict. *)
Record Memory := mkMemory { activeRuns : list Coroutine; brokerCellIds : list (string * string); cancelling : list CellRecord }.
Definition emptyMemory : Memory := mkMemory [] [] [].

Definition remove_one {A} `{EqDecision A} (x : A) (l : list A) : list A := list_difference l [x].

Section Daemon.
Context (JSON_stringify : jsval -> jschars) (logRoot : string) (notice : string -> string -> list Z).

(** src/src/execd/cell-manager.ts # CellManager.submit @145-152

    A submission that starts registers the broker's id and the coroutine. *)
Definition submit_memory (d : Disk) (m : Memory) (p : SubmitCellPayload) (key cell frun : string) (compiled : option string) : Memory :=
  match getIdempotentResponse (db d) key, compiled with
  | None, Some broker =>
      mkMemory (activeRuns m ++ [mkCoroutine cell (attempt_id cell (opt_attempt p)) (default frun (p_runId p))])
        (jset cell broker (brokerCellIds m)) (cancelling m)
  | _, _ => m
  end.

(** [runPromise.finally] *)
Definition run_finally (m : Memory) (r : Coroutine) : Memory :=
  mkMemory (remove_one r (activeRuns m)) (jdelete (co_cellId r) (brokerCellIds m)) (cancelling m).

(** One uninterrupted section: what it commits and the memory after it.  The
    generated cell id is new (the clock and 31 bits of randomness). *)
Inductive section (d : Disk) (m : Memory) : trace -> Memory -> Prop :=
| sec_submit p key cell frun compiled cgroup now :
    getCell (db d) cell = None ->
    section d m (submit JSON_stringify d p key cell frun compiled cgroup now).1 (submit_memory d m p key cell frun compiled)
| sec_event r ev now :
    r ∈ activeRuns m ->
    section d m (on_event JSON_stringify logRoot d (co_cellId r) (co_attemptId r) (co_runId r) ev now) m
| sec_throw r message now :
    r ∈ activeRuns m ->
    section d m (on_throw d (co_cellId r) (co_attemptId r) (co_runId r) message now) (run_finally m r)
| sec_end r now :
    r ∈ activeRuns m ->
    section d m (on_end logRoot d (co_cellId r) (co_attemptId r) (co_runId r) now) (run_finally m r)
| sec_cancel_begin id c :
    getCell (db d) id = Some c ->
    section d m [] (mkMemory (activeRuns m) (brokerCellIds m) (cancelling m ++ [c]))
| sec_cancel_end c proven now :
    c ∈ cancelling m ->
    section d m (cancel_finish d c proven now) (mkMemory (activeRuns m) (brokerCellIds m) (remove_one c (cancelling m)))
| sec_cancelRun run now : section d m (cancelRun d run now) m
| sec_cleanupRun run now : section d m (cleanupRun d run now).1 m
| sec_sweep now : section d m (sweep_commits notice d (listActiveLeases (db d)) now) m.

(** A section runs; or the process dies after some of its commits; or a process
    that just started recovers (and may die doing so). *)
Inductive step : Disk * Memory -> Disk * Memory -> Prop :=
| step_section d m tr m' : section d m tr m' -> step (d, m) (final d tr, m')
| step_crash d m tr m' n : section d m tr m' -> step (d, m) (final d (take n tr), emptyMemory)
| step_recovery d probe now n :
    step (d, emptyMemory) (final d (take n (recovery_run JSON_stringify probe d now).1), emptyMemory).

Definition initial : Disk * Memory := (mkDisk emptyStore [], emptyMemory).
Definition reachable (w : Disk * Memory) : Prop := rtc step initial w.

Lemma section_good d m tr m' : section d m tr m' -> good_trace (db d) tr.
Proof.
  destruct 1; [by apply good_submit|apply good_on_event|apply good_on_throw|apply good_on_end|done
    |apply good_cancel_finish|apply good_cancelRun|apply good_cleanupRun|apply good_sweep].
Qed.

Lemma step_good w w' : step w w' -> good (db w.1) (db w'.1).
Proof.
  destruct 1 as [? ? ? ? H|? ? ? ? ? H|]; simpl.
  - apply good_trace_final. by eapply section_good.
  - apply good_trace_take. by eapply section_good.
  - apply good_trace_take, good_recovery.
Qed.
Lemma steps_good w w' : rtc step w w' -> good (db w.1) (db w'.1).
Proof. induction 1 as [|w w1 w' H _ IH]; [apply good_refl|]. eapply good_trans; [by apply step_good|done]. Qed.

Lemma initial_ok : store_ok emptyStore.
Proof. repeat split; simpl; try constructor; done. Qed.
Lemma reachable_ok w : reachable w -> store_ok (db w.1).
Proof. intros H%steps_good. apply H, initial_ok. Qed.
Lemma steps_evolve w w' : reachable w -> rtc step w w' -> evolves (db w.1) (db w'.1).
Proof. intros Hr H%steps_good. by apply H, reachable_ok. Qed.

Lemma reachable_logged w id c : reachable w -> getCell (db w.1) id = Some c ->
  (state_events (db w.1) id = [] /\ currentState c = REJECTED_POLICY) \/
  (state_events (db w.1) id <> [] /\ chain edge ACCEPTED (state_events (db w.1) id) /\
   replay ACCEPTED (state_events (db w.1) id) = currentState c).
Proof.
  intros [Hl _]%reachable_ok Hc. pose proof (lo_cell _ _ Hl id c Hc) as H. unfold logged in H.
  by rewrite (lo_ids _ _ Hl id c Hc) in H.
Qed.

(** C14: execd's log tells the truth: in every reachable state, whatever
    interleaving of submissions, broker events, cancellations, clean-ups, lease
    sweeps, crashes between commits and recoveries led there, event numbers
    strictly increase, and for every cell the logged state events form a chain of
    lifecycle moves from ACCEPTED that ends in the stored state (a refused cell
    has none). *)
Theorem cell_log_consistent w id c :
  reachable w -> getCell (db w.1) id = Some c ->
  StronglySorted Z.lt (eventSequence <$> cell_events (db w.1)) /\
  ((state_events (db w.1) id = [] /\ currentState c = REJECTED_POLICY) \/
   (chain edge ACCEPTED (state_events (db w.1) id) /\ replay ACCEPTED (state_events (db w.1) id) = currentState c)).
Proof.
  intros Hw Hc. split; [apply (reachable_ok _ Hw)|]. destruct (reachable_logged _ _ _ Hw Hc) as [?|(_ & ? & ?)]; [by left|by right].
Qed.

Lemma state_events_prefix s s' id : cell_events s `prefix_of` cell_events s' ->
  exists new, state_events s' id = state_events s id ++ new.
Proof. intros [k Hk]. unfold state_events. rewrite Hk, filter_app. by eexists. Qed.

Lemma chain_app st es es' : chain edge st (es ++ es') <-> chain edge st es /\ chain edge (replay st es) es'.
Proof. revert st. induction es as [|e es IH]; intros st; simpl; [tauto|]. rewrite IH. tauto. Qed.

Lemma chain_terminal st es : is_terminal st = true -> chain edge st es ->
  es = [] \/ exists e, es = [e] /\ fromState e = Some CANCELLED /\ toState e = CLEANED.
Proof.
  intros Ht. destruct es as [|e es]; [by left|]. intros (Hf & He & Hc). right.
  destruct (edge_terminal _ _ Ht He) as [Hto ->]. rewrite Hto in Hc. exists e. split; [|done].
  destruct es as [|e' es]; [done|]. destruct Hc as (_ & He' & _). by rewrite edge_cleaned in He'.
Qed.

Lemma chain_not_rejected es : es <> [] -> chain edge ACCEPTED es -> replay ACCEPTED es <> REJECTED_POLICY.
Proof.
  destruct es as [|e es _] using rev_ind; [done|]. intros _ (_ & _ & He)%chain_snoc. rewrite replay_snoc.
  intros Hr. by rewrite Hr, edge_into_rejected in He.
Qed.

Lemma leads_rejected t : leads REJECTED_POLICY t -> t = REJECTED_POLICY.
Proof. intros H. inversion H as [|? ? ? He]; [done|]. by rewrite edge_rejected in He. Qed.

Lemma reachable_steps w w' : reachable w -> rtc step w w' -> reachable w'.
Proof. intros H1 H2. unfold reachable. by etrans. Qed.

(** C13: Terminal states are final: once a cell is cancelled, failed, lost,
    refused or cleaned, then in every later state, across concurrent broker
    events, crashes and recoveries, it is still in that state or has been cleaned,
    and the only state event ever logged for it again is the one that cleans a
    cancelled cell -- no success chain follows a cancellation. *)
Theorem terminal_final w w' id c :
  reachable w -> rtc step w w' -> getCell (db w.1) id = Some c -> is_terminal (currentState c) = true ->
  exists c' new, getCell (db w'.1) id = Some c' /\
    (currentState c' = currentState c \/ currentState c' = CLEANED) /\
    state_events (db w'.1) id = state_events (db w.1) id ++ new /\
    (new = [] \/ exists e, new = [e] /\ fromState e = Some CANCELLED /\ toState e = CLEANED).
Proof.
  intros Hr Hs Hc Ht. pose proof (steps_evolve _ _ Hr Hs) as Hev.
  destruct (ev_cells _ _ Hev _ _ Hc) as (c' & Hc' & _ & Hlead). destruct (state_events_prefix _ _ id (ev_log _ _ Hev)) as [new Hnew].
  exists c', new. split_and!; [done|by apply leads_terminal|done|].
  pose proof (reachable_logged _ _ _ (reachable_steps _ _ Hr Hs) Hc') as Hlog'. rewrite Hnew in Hlog'.
  destruct (reachable_logged _ _ _ Hr Hc) as [[Hnil Hrej]|(Hne & Hch & Hrep)].
  - rewrite Hnil in Hlog'. cbn [app] in Hlog'. destruct Hlog' as [[? _]|(Hne & Hch & Hrep)]; [by left|].
    exfalso. apply (chain_not_rejected new Hne Hch). rewrite Hrep. rewrite Hrej in Hlead. by apply leads_rejected in Hlead.
  - destruct Hlog' as [[[? _]%app_nil _]|(_ & Hch' & _)]; [done|].
    apply chain_app in Hch' as [_ Hch']. rewrite Hrep in Hch'. by eapply chain_terminal.
Qed.

(** ** Idempotent submission *)

(** Each cell belongs to one key. *)
Lemma paired_inj s key key' r r' : NoDup (jkeys (cells s)) -> paired s ->
  getIdempotentResponse s key = Some r -> getIdempotentResponse s key' = Some r' ->
  r_cellId (responseJson r) = r_cellId (responseJson r') -> key = key'.
Proof.
  intros Hnd [_ Hp] [i Hi]%jget_elem%list_elem_of_lookup [j Hj]%jget_elem%list_elem_of_lookup Heq.
  assert (i = j) as ->; [|by rewrite Hi in Hj; injection Hj].
  rewrite <-Hp in Hnd. eapply (NoDup_lookup _ _ _ (r_cellId (responseJson r)) Hnd).
  - unfold jvalues. by rewrite !list_lookup_fmap, Hi.
  - unfold jvalues. by rewrite !list_lookup_fmap, Hj, Heq.
Qed.

(** The response a submission records with its first commit. *)
Lemma submit_records d p key cell frun compiled cgroup now :
  getCell (db d) cell = None -> getIdempotentResponse (db d) key = None ->
  exists d1 pub tr, (submit JSON_stringify d p key cell frun compiled cgroup now).1 = (d1, pub) :: tr /\
    responseJson <$> getIdempotentResponse (db d1) key =
      Some (mkResponse cell (default frun (p_runId p)) (bool_decide (compiled = None))).
Proof.
  intros Hc Hk. unfold submit. rewrite Hk. cbv zeta.
  destruct compiled as [b|]; (eexists _, _, _; split; [reflexivity|]); unfold getIdempotentResponse in *; cbn [with_db db].
  - edestruct (accepted_fields JSON_stringify (db d) cell) as (_ & _ & _ & ->); [done..|]. rewrite <-jset_fresh by (by apply jget_None). by rewrite jget_jset_eq.
  - edestruct (rejected_fields JSON_stringify (db d) cell) as (_ & _ & _ & ->); [done..|]. rewrite <-jset_fresh by (by apply jget_None). by rewrite jget_jset_eq.
Qed.

(** C12: A submission is carried out at most once: as soon as its first
    transaction is committed -- even if the daemon dies right after -- every later
    submission with the same idempotency key, in every reachable state, commits
    nothing, starts nothing and answers with the first cell and run, flagged
    idempotent (and rejected, if policy refused the first); no other key ever
    answers with that cell. *)
Theorem submit_once d m p key cell frun compiled cgroup now n m1 w p' cell' frun' compiled' cgroup' now' :
  reachable (d, m) -> getCell (db d) cell = None -> getIdempotentResponse (db d) key = None ->
  step (d, m) (final d (take (S n) (submit JSON_stringify d p key cell frun compiled cgroup now).1), m1) ->
  rtc step (final d (take (S n) (submit JSON_stringify d p key cell frun compiled cgroup now).1), m1) w ->
  submit JSON_stringify w.1 p' key cell' frun' compiled' cgroup' now' =
    ([], Some (mkSubmitResult cell (default frun (p_runId p)) true (bool_decide (compiled = None)))) /\
  forall key' r', getIdempotentResponse (db w.1) key' = Some r' -> r_cellId (responseJson r') = cell -> key' = key.
Proof.
  intros Hr Hc Hk Hstep Hsteps.
  destruct (submit_records d p key cell frun compiled cgroup now Hc Hk) as (d1 & pub & tr & Htr & Hrec).
  pose proof (good_submit JSON_stringify d p key cell frun compiled cgroup now Hc) as Hg. rewrite Htr in *.
  cbn [take] in *. rewrite final_cons in *. destruct Hg as [Hg1 Hg2]. cbn [fst] in *.
  pose proof (reachable_ok _ Hr) as Hok. cbn [fst] in Hok.
  assert (store_ok (db d1)) as Hok1 by (by apply Hg1).
  assert (evolves (db d1) (db w.1)) as Hev.
  { etrans; [by apply (good_trace_take d1 tr n Hg2)|]. apply (steps_good _ _ Hsteps).
    by apply (good_trace_take d1 tr n Hg2). }
  destruct (getIdempotentResponse (db d1) key) as [r|] eqn:Er; [|done]. injection Hrec as Hrec.
  pose proof (ev_idem _ _ Hev _ _ Er) as Hw. unfold submit. rewrite Hw, Hrec. split; [done|].
  intros key' r' Hr' Heq. assert (store_ok (db w.1)) as [Hlw Hpw].
  { apply (reachable_ok w). eapply reachable_steps; [exact Hr|]. eapply rtc_l; [exact Hstep|done]. }
  eapply (paired_inj (db w.1)); [apply Hlw|done|exact Hr'|exact Hw|]. by rewrite Hrec.
Qed.

(** ** Recovery *)

Lemma elem_of_nonterminal s c : log_ok edge s ->
  c ∈ listNonTerminalCells s <-> is_terminal (currentState c) = false /\ getCell s (cellId c) = Some c.
Proof.
  intros Hl. unfold listNonTerminalCells. rewrite (elem_of_Permutation_proper _ _ _ (jsort_perm _ _)), list_elem_of_filter.
  unfold jvalues. rewrite list_elem_of_fmap. split.
  - intros [Ht ([id c'] & -> & Hin)]. simpl in *. split; [done|]. apply jget_NoDup in Hin; [|apply Hl].
    unfold getCell. by rewrite (lo_ids _ _ Hl id c' Hin).
  - intros [Ht Hg]. split; [done|]. exists (cellId c, c). split; [done|]. by apply jget_elem.
Qed.

Lemma nonterminal_ids s : log_ok edge s -> NoDup (cellId <$> listNonTerminalCells s).
Proof.
  intros Hl. unfold listNonTerminalCells. rewrite jsort_perm. eapply sublist_NoDup.
  2: { apply fmap_sublist, sublist_filter. }
  replace (cellId <$> jvalues (cells s)) with (jkeys (cells s)); [apply Hl|].
  unfold jkeys, jvalues. rewrite <-list_fmap_compose. apply list_fmap_ext. intros i [id c] Hi. simpl. symmetry.
  apply (lo_ids _ _ Hl), jget_NoDup; [apply Hl|]. by eapply list_elem_of_lookup_2.
Qed.

(** [d'] is [d] with the row of [c] moved to [to]. *)
Definition settled (d d' : Disk) (c : CellRecord) (to : CellState) : Prop :=
  currentState <$> getCell (db d') (cellId c) = Some to /\
  forall id, id <> cellId c -> getCell (db d') id = getCell (db d) id.

Lemma settle_effect d c att to reason pub now :
  getCell (db d) (cellId c) = Some c -> is_terminal (currentState c) = false ->
  settled d (final d (settle_cell d c att to reason pub now)) c to.
Proof.
  intros Hg Ht. unfold settled, settle_cell, final. cbn [last fmap option_fmap option_map fst default]. unfold Datatypes.id.
  rewrite transition_spec, Hg. unfold may_move. cbn [o_from]. rewrite Ht, same_refl.
  destruct (currentState c === CLEANED) eqn:E; [by apply same_true in E; rewrite E in Ht|].
  cbn [negb andb orb fst with_db db moved]. unfold getCell, moved in *. cbn [cells]. split.
  - by rewrite jget_jset_eq.
  - intros id Hid. by apply jget_jset_ne.
Qed.

(** What recovery may report. *)
Definition report_ok (probe : CgroupProbeFs) (to : CellState) : Prop :=
  to <> ACCEPTED /\ to <> POLICY_COMPILED /\ to <> CLEANUP_PENDING /\
  (to = RUNNING -> exists path, probe_exists probe path = true).

Lemma takeover_exists path probe : determineTakeover path probe = ABSENT \/ probe_exists probe path = true.
Proof. unfold determineTakeover. destruct (probe_exists probe path); [by right|by left]. Qed.

Lemma recover_effect probe d c now :
  getCell (db d) (cellId c) = Some c -> is_terminal (currentState c) = false ->
  let '(tr, to) := recover JSON_stringify probe d c now in
  settled d (final d tr) c to /\ report_ok probe to.
Proof.
  intros Hg Ht. unfold recover.
  assert (forall to, currentState c = to -> settled d d c to) as Hid by (intros to <-; split; [by rewrite Hg|done]).
  destruct (currentState c) eqn:Es; try discriminate Ht.
  all: try (split; [apply settle_effect; by rewrite ?Es|]; by repeat split).
  all: try (split; [by apply Hid|]; by repeat split).
  - destruct (listHandlesByCell (db d) (cellId c)) as [|[hid h] hs].
    { split; [apply settle_effect; by rewrite ?Es|by repeat split]. }
    cbv zeta. set (d1 := with_db d _). destruct (takeover_exists (h_cgroupPath h) probe) as [->|Hex]; [|destruct (determineTakeover _ _)].
    all: cbn [after_takeover]; rewrite final_cons; cbn [fst].
    all: split; [apply (settle_effect d1); by rewrite ?Es|]; repeat split; try done; intros _; by exists (h_cgroupPath h).
  - cbv zeta. split; [|by repeat split]. set (s := commitReceipt _ _ _). change (settled d) with (settled (with_db d s)).
    refine (settle_effect (with_db d s) c _ RECEIPT_COMMITTED "recovery-receipt" (Some (P_recovery EXIT_OBSERVED "RECEIPT_COMMITTED" None)) now Hg _).
    by rewrite Es.
Qed.

Lemma recover_all_effect probe now rows : forall d,
  NoDup (cellId <$> rows) ->
  (forall c, c ∈ rows -> getCell (db d) (cellId c) = Some c /\ is_terminal (currentState c) = false) ->
  let '(tr, rs) := recover_all JSON_stringify probe d rows now in
  rv_cellId <$> rs = cellId <$> rows /\
  (forall r, r ∈ rs -> currentState <$> getCell (db (final d tr)) (rv_cellId r) = Some (rv_to r) /\ report_ok probe (rv_to r)) /\
  (forall id, id ∉ cellId <$> rows -> getCell (db (final d tr)) id = getCell (db d) id).
Proof.
  induction rows as [|c rows IH]; intros d Hnd Hrows; cbn [recover_all].
  { split_and!; [done| |done]. intros r Hr. by apply elem_of_nil in Hr. }
  rewrite fmap_cons in Hnd. apply NoDup_cons in Hnd as [Hc Hnd].
  destruct (Hrows c) as [Hg Ht]; [by left|]. pose proof (recover_effect probe d c now Hg Ht) as H.
  destruct (recover _ _ d c now) as [tr to]. destruct H as [[Hto Hother] Hok].
  specialize (IH (final d tr) Hnd). destruct (recover_all _ _ _ rows now) as [tr' rs].
  destruct IH as (H1 & H2 & H3).
  { intros c' Hc'. rewrite Hother; [by apply Hrows; right|].
    intros Heq. apply Hc. rewrite <-Heq. by apply list_elem_of_fmap_2. }
  rewrite final_app. split_and!.
  - cbn [fmap list_fmap rv_cellId]. by f_equal.
  - intros r [->|Hr]%elem_of_cons; [|by apply H2]. cbn [rv_cellId rv_to]. by rewrite H3.
  - intros id [Hid Hn]%not_elem_of_cons. rewrite H3 by done. by apply Hother.
Qed.

(** Recovery settles what it reports: run to its end in any reachable state, it
    reports every non-terminal cell once, in creation order; each reported cell
    then really is in the reported state; no cell is left accepted, compiled or
    awaiting clean-up, a cell is left running only when a cgroup was found alive
    or unreadable, and terminal cells are untouched. *)
Theorem recovery_settles d m probe now :
  reachable (d, m) ->
  let '(tr, rs) := recovery_run JSON_stringify probe d now in
  rv_cellId <$> rs = cellId <$> listNonTerminalCells (db d) /\
  (forall r, r ∈ rs -> currentState <$> getCell (db (final d tr)) (rv_cellId r) = Some (rv_to r)) /\
  (forall id c, getCell (db (final d tr)) id = Some c -> report_ok probe (currentState c)) /\
  (forall id c, getCell (db d) id = Some c -> is_terminal (currentState c) = true -> getCell (db (final d tr)) id = Some c).
Proof.
  intros [Hl _]%reachable_ok. cbn [fst] in Hl. unfold recovery_run.
  pose proof (recover_all_effect probe now (listNonTerminalCells (db d)) d (nonterminal_ids _ Hl)) as H.
  destruct (recover_all _ _ d _ now) as [tr rs]. destruct H as (H1 & H2 & H3).
  { intros c Hc. apply elem_of_nonterminal in Hc; [|done]. tauto. }
  assert (forall id c, getCell (db d) id = Some c -> is_terminal (currentState c) = true -> id ∉ cellId <$> listNonTerminalCells (db d)) as Hterm.
  { intros id c Hc Ht [c' [-> Hc']]%list_elem_of_fmap. apply elem_of_nonterminal in Hc' as [Ht' Hc']; [|done]. congruence. }
  split_and!; [done|intros r Hr; by apply H2| |].
  - intros id c Hc. destruct (decide (id ∈ cellId <$> listNonTerminalCells (db d))) as [Hin|Hn].
    + rewrite <-H1 in Hin. apply list_elem_of_fmap in Hin as (r & -> & Hr). destruct (H2 r Hr) as [Hs Hok].
      rewrite Hc in Hs. by injection Hs as ->.
    + rewrite H3 in Hc by done. destruct (is_terminal (currentState c)) eqn:Ht.
      * unfold report_ok. by destruct (currentState c).
      * exfalso. apply Hn. apply list_elem_of_fmap. exists c. split; [symmetry; by apply (lo_ids _ _ Hl)|].
        apply elem_of_nonterminal; [done|]. by rewrite (lo_ids _ _ Hl id c Hc).
  - intros id c Hc Ht. rewrite H3 by (by eapply Hterm). done.
Qed.
End Daemon.

(** ** Concrete runs *)

Definition demo_payload : SubmitCellPayload :=
  mkPayload "cap" "ls" [] None None [] "build" true (Some "r1") None None None.
Abbreviation demo_submit d := (submit (fun _ => []) d demo_payload "k" "c1" "run" (Some "b1") (Some "/cg/c1") 5).
Abbreviation demo_step := (step (fun _ => []) "/logs" (fun _ _ => [])).
Abbreviation demo_reachable := (reachable (fun _ => []) "/logs" (fun _ _ => [])).

Definition demo_run : Coroutine := mkCoroutine "c1" "c1-a1" "r1".
Definition demo_cell (st : CellState) (now : Z) : CellRecord :=
  mkCell "c1" "r1" "r1:n1" 1 None "cap" "ls" [] None None st 5 now.

(** Submitted and running; then cancelled with proof; then the exit arrives. *)
Definition disk0 : Disk := mkDisk emptyStore [].
Definition disk1 : Disk := final disk0 (demo_submit disk0).1.
Definition disk3 : Disk := final disk1 (cancel_finish disk1 (demo_cell RUNNING 5) true 7).
Definition disk4 : Disk := final disk3 (on_event (fun _ => []) "/logs" disk3 "c1" "c1-a1" "r1" (BE_exit (Some 0) None) 9).
Definition running_memory (cs : list CellRecord) : Memory := mkMemory [demo_run] [("c1", "b1")] cs.

Lemma demo_step1 : demo_step (disk0, emptyMemory) (disk1, running_memory []).
Proof.
  assert (running_memory [] = submit_memory disk0 emptyMemory demo_payload "k" "c1" "run" (Some "b1")) as -> by (vm_compute; reflexivity).
  apply step_section. by apply sec_submit.
Qed.
Lemma demo_reachable1 : demo_reachable (disk1, running_memory []).
Proof. apply rtc_once, demo_step1. Qed.

Lemma demo_step2 : demo_step (disk1, running_memory []) (disk1, running_memory [demo_cell RUNNING 5]).
Proof.
  refine (step_section _ _ _ disk1 (running_memory []) [] _ (sec_cancel_begin _ _ _ disk1 _ "c1" (demo_cell RUNNING 5) _)).
  vm_compute. reflexivity.
Qed.
Lemma demo_step3 : demo_step (disk1, running_memory [demo_cell RUNNING 5]) (disk3, running_memory []).
Proof.
  assert (running_memory [] = mkMemory [demo_run] [("c1", "b1")] (remove_one (demo_cell RUNNING 5) [demo_cell RUNNING 5])) as ->
    by (vm_compute; reflexivity).
  apply step_section. apply (sec_cancel_end _ _ _ disk1 (running_memory [demo_cell RUNNING 5])). left.
Qed.
Lemma demo_reachable3 : demo_reachable (disk3, running_memory []).
Proof. eapply rtc_r; [eapply rtc_r; [apply demo_reachable1|apply demo_step2]|apply demo_step3]. Qed.
Lemma demo_step4 : demo_step (disk3, running_memory []) (disk4, running_memory []).
Proof. apply step_section. apply (sec_event _ _ _ disk3 (running_memory []) demo_run). left. Qed.

Abbreviation world1 := (disk1, running_memory []).
Abbreviation world3 := (disk3, running_memory []).
Abbreviation world4 := (disk4, running_memory []).

Lemma cell_log_consistent_witness :
  StronglySorted Z.lt (eventSequence <$> cell_events (db world1.1)) /\
  ((state_events (db world1.1) "c1" = [] /\ currentState (demo_cell RUNNING 5) = REJECTED_POLICY) \/
   (chain edge ACCEPTED (state_events (db world1.1) "c1") /\
    replay ACCEPTED (state_events (db world1.1) "c1") = currentState (demo_cell RUNNING 5))).
Proof.
  refine (cell_log_consistent (fun _ => []) "/logs" (fun _ _ => []) world1 "c1" (demo_cell RUNNING 5) demo_reachable1 _).
  vm_compute. reflexivity.
Defined.

(** The exit that arrives after the cancellation is logged but moves nothing. *)
Lemma terminal_final_witness :
  exists c' new, getCell (db world4.1) "c1" = Some c' /\
    (currentState c' = currentState (demo_cell CANCELLED 7) \/ currentState c' = CLEANED) /\
    state_events (db world4.1) "c1" = state_events (db world3.1) "c1" ++ new /\
    (new = [] \/ exists e, new = [e] /\ fromState e = Some CANCELLED /\ toState e = CLEANED).
Proof.
  refine (terminal_final (fun _ => []) "/logs" (fun _ _ => []) world3 world4 "c1" (demo_cell CANCELLED 7) demo_reachable3
    (rtc_once _ _ demo_step4) _ eq_refl).
  vm_compute. reflexivity.
Defined.

(** The daemon dies right after the first transaction; the retry is answered. *)
Lemma submit_once_witness :
  let d1 := final disk0 (take 1 (submit (fun _ => []) disk0 demo_payload "k" "c1" "run" (Some "b1") (Some "/cg/c1") 5).1) in
  submit (fun _ => []) d1 demo_payload "k" "c2" "run2" (Some "b2") None 8 = ([], Some (mkSubmitResult "c1" "r1" true false)) /\
  forall key' r', getIdempotentResponse (db d1) key' = Some r' -> r_cellId (responseJson r') = "c1" -> key' = "k".
Proof.
  apply (submit_once (fun _ => []) "/logs" (fun _ _ => []) disk0 emptyMemory demo_payload "k" "c1" "run"
    (Some "b1") (Some "/cg/c1") 5 0 emptyMemory
    (final disk0 (take 1 (submit (fun _ => []) disk0 demo_payload "k" "c1" "run" (Some "b1") (Some "/cg/c1") 5).1), emptyMemory));
    [apply rtc_refl|reflexivity|reflexivity| |apply rtc_refl].
  eapply step_crash. by apply sec_submit.
Defined.

(** A running cell whose cgroup is empty after the restart. *)
Definition demo_probe : CgroupProbeFs :=
  mkProbe (fun _ => Some ("populated 0" +:+ String newline "frozen 0")) (fun _ => true).

Lemma recovery_settles_witness :
  let '(tr, rs) := recovery_run (fun _ => []) demo_probe disk1 9 in
  rv_cellId <$> rs = cellId <$> listNonTerminalCells (db disk1) /\
  (forall r, r ∈ rs -> currentState <$> getCell (db (final disk1 tr)) (rv_cellId r) = Some (rv_to r)) /\
  (forall id c, getCell (db (final disk1 tr)) id = Some c -> report_ok demo_probe (currentState c)) /\
  (forall id c, getCell (db disk1) id = Some c -> is_terminal (currentState c) = true -> getCell (db (final disk1 tr)) id = Some c).
Proof. apply (recovery_settles (fun _ => []) "/logs" (fun _ _ => []) disk1 (running_memory []) demo_probe 9 demo_reachable1). Defined.

Example demo_recovered : (recovery_run (fun _ => []) demo_probe disk1 9).2 = [mkRecovered "c1" RUNNING EXIT_OBSERVED].
Proof. vm_compute. reflexivity. Qed.

(** ** Behaviours the code does not intend *)

(** A refused submission logs no event at all: the row is inserted in its
    terminal state, from which the transition that should log the refusal is
    refused. *)
Lemma rejected_submission_unlogged :
  let d := final disk0 (submit (fun _ => []) disk0 demo_payload "k" "c1" "run" None None 5).1 in
  currentState <$> getCell (db d) "c1" = Some REJECTED_POLICY /\ cell_events (db d) = [].
Proof. split; vm_compute; reflexivity. Qed.

(** Cancelling a cell without a termination proof leaves it running with its
    handle; cancelling its run marks it cancelled with no proof asked. *)
Lemma cancelRun_without_proof :
  let refused := final disk1 (cancel_finish disk1 (demo_cell RUNNING 5) false 7) in
  let d := final disk1 (cancelRun disk1 "r1" 7) in
  currentState <$> getCell (db refused) "c1" = Some RUNNING /\
  currentState <$> getCell (db d) "c1" = Some CANCELLED /\
  is_Some (getExecutionHandle (db d) "h-c1").
Proof. split_and!; [vm_compute; reflexivity|vm_compute; reflexivity|]. vm_compute. by eexists. Qed.

(** Cleaning a run whose only cell is cancelled cleans the cell but not the
    run: the verdict is taken on the rows read before the cleaning.  Only a
    second call marks the run. *)
Lemma cleanupRun_needs_two_calls :
  let d1 := final disk3 (cleanupRun disk3 "r1" 8).1 in
  let d2 := final d1 (cleanupRun d1 "r1" 9).1 in
  currentState <$> getCell (db d1) "c1" = Some CLEANED /\ getRun (db d1) "r1" = Some "active" /\
  getRun (db d2) "r1" = Some "cleaned".
Proof. split_and!; vm_compute; reflexivity. Qed.
