(* ===== verification/EventStream.v ===== *)
(** Bounded live queues of execd's event subscriptions.

    Models [src/src/execd/event-stream.ts].  A subscription object is shared
    between the stream's map and its subscriber; there is one per cell, so the
    map itself is the store of subscriptions and the methods that take a
    subscription take its cell. *)
From S2P Require Import Prelude.
Open Scope string_scope.
Open Scope Z_scope.
Open Scope list_scope.

Section EventStream.
Context {Body : Type}.

(** src/src/execd/protocol/events.ts # ServerEvent

    [body] is the kind, run and payload. *)
Record ServerEvent := mkServerEvent { eventSequence : Z; se_cellId : string; body : Body; se_at : Z }.

(** src/src/execd/event-stream.ts # EventSubscription *)
Record EventSubscription := mkSub {
  lastAcknowledged : Z; live : list ServerEvent; lagged : bool; resumeFromSequence : Z; latestPublished : Z }.

(** src/src/execd/event-stream.ts # EventStream @34-35 *)
Record EventStream := mkStream { subscriptions : list (string * EventSubscription); maxQueued : nat }.

(** src/src/execd/event-stream.ts # EventStream.constructor *)
Definition newEventStream (maxQueued : option Z) : res string EventStream :=
  let n := default 4096 maxQueued in
  if n <=? 0 then Throw "maxQueued must be > 0" else Ok (mkStream [] (Z.to_nat n)).

(** src/src/execd/event-stream.ts # EventStream.subscribe *)
Definition subscribe (s : EventStream) (cell : string) (since : Z) : EventStream * EventSubscription :=
  match jget cell (subscriptions s) with
  | Some sub => (s, sub)
  | None =>
      let sub := mkSub since [] false since since in
      (mkStream (jset cell sub (subscriptions s)) (maxQueued s), sub)
  end.

(** src/src/execd/event-stream.ts # EventStream.unsubscribe *)
Definition unsubscribe (s : EventStream) (cell : string) : EventStream :=
  mkStream (jdelete cell (subscriptions s)) (maxQueued s).

(** src/src/execd/event-stream.ts # EventStream.publish @68-79

    One subscription's turn. *)
Definition offer (limit : nat) (sub : EventSubscription) (full : ServerEvent) : EventSubscription :=
  let sequence := eventSequence full in
  let latest := if latestPublished sub <? sequence then sequence else latestPublished sub in
  if (lastAcknowledged sub <? sequence) && negb (lagged sub) then
    if (limit <=? length (live sub))%nat
    then mkSub (lastAcknowledged sub) [] true (lastAcknowledged sub + 1) latest
    else mkSub (lastAcknowledged sub) (live sub ++ [full]) (lagged sub) (resumeFromSequence sub) latest
  else mkSub (lastAcknowledged sub) (live sub) (lagged sub) (resumeFromSequence sub) latest.

(** src/src/execd/event-stream.ts # EventStream.publish *)
Definition publish (s : EventStream) (full : ServerEvent) : EventStream :=
  mkStream ((fun '(cell, sub) => (cell, if cell === se_cellId full then offer (maxQueued s) sub full else sub)) <$> subscriptions s)
    (maxQueued s).

(** src/src/execd/event-stream.ts # EventStream.acknowledge *)
Definition acknowledge (sub : EventSubscription) (sequence : Z) : EventSubscription :=
  if lagged sub && (lastAcknowledged sub + 1 <? sequence) && (sequence <=? latestPublished sub) then sub else
  let ack := if lastAcknowledged sub <? sequence then sequence else lastAcknowledged sub in
  let live' := filter (fun e => sequence < eventSequence e) (live sub) in
  if lagged sub && (latestPublished sub <=? ack)
  then mkSub ack live' false (ack + 1) (latestPublished sub)
  else mkSub ack live' (lagged sub) (resumeFromSequence sub) (latestPublished sub).

(** src/src/execd/event-stream.ts # EventStream.drain *)
Definition drain (sub : EventSubscription) : EventSubscription * (list ServerEvent * bool * Z) :=
  (mkSub (lastAcknowledged sub) [] (lagged sub) (resumeFromSequence sub) (latestPublished sub),
   (live sub, lagged sub, resumeFromSequence sub)).

(** ** One subscription over time *)

(** What happens to a subscription: an event of its cell is published, the
    subscriber acknowledges or drains. *)
Inductive sub_action := S_publish (e : ServerEvent) | S_ack (sequence : Z) | S_drain.

(** The subscription, with the events handed to the subscriber so far. *)
Definition sub_step (limit : nat) (st : EventSubscription * list ServerEvent) (a : sub_action) :
    EventSubscription * list ServerEvent :=
  let '(sub, got) := st in
  match a with
  | S_publish e => (offer limit sub e, got)
  | S_ack n => (acknowledge sub n, got)
  | S_drain => let '(sub', (es, _, _)) := drain sub in (sub', got ++ es)
  end.
Definition sub_run (limit : nat) (since : Z) (acts : list sub_action) : EventSubscription * list ServerEvent :=
  fold_left (sub_step limit) acts (mkSub since [] false since since, []).

Definition published (acts : list sub_action) : list ServerEvent :=
  omap (fun a => match a with S_publish e => Some e | _ => None end) acts.

(** The queue never holds more than its limit; while the subscription has not
    lagged, every event published after what was acknowledged is queued or was
    handed out; once it has lagged, the events to be fetched from the log start
    right after the last acknowledgement. *)
Definition sub_inv (limit : nat) (since : Z) (pub : list ServerEvent) (st : EventSubscription * list ServerEvent) : Prop :=
  let '(sub, got) := st in
  (length (live sub) <= limit)%nat /\
  since <= lastAcknowledged sub /\
  (forall e, e ∈ pub -> eventSequence e <= latestPublished sub) /\
  (lagged sub = true -> live sub = [] /\ resumeFromSequence sub <= lastAcknowledged sub + 1) /\
  (lagged sub = false -> forall e, e ∈ pub -> lastAcknowledged sub < eventSequence e -> e ∈ live sub \/ e ∈ got).

Lemma offer_inv limit since pub sub got e : (0 < limit)%nat ->
  sub_inv limit since pub (sub, got) -> sub_inv limit since (pub ++ [e]) (offer limit sub e, got).
Proof.
  intros Hl (Hlen & Hs & Hlat & Hlag & Hnot). unfold offer. cbv zeta.
  set (latest := if latestPublished sub <? eventSequence e then _ else _).
  assert (forall x, x ∈ pub ++ [e] -> eventSequence x <= latest) as Hlat'.
  { intros x [Hx%Hlat | ->%list_elem_of_singleton]%elem_of_app; unfold latest; case_match; reflect; lia. }
  destruct (lastAcknowledged sub <? eventSequence e) eqn:Ea; cbn [andb].
  2: { split_and!; simpl; try done. intros Hf x [Hx | ->%list_elem_of_singleton]%elem_of_app Hgt; [by apply Hnot|]. reflect. lia. }
  destruct (lagged sub) eqn:Eg; cbn [negb].
  { split_and!; simpl; try done. }
  destruct (limit <=? length (live sub))%nat eqn:El; reflect; unfold sub_inv; simpl; split_and!; try done; try lia.
  - rewrite length_app. simpl. lia.
  - intros _ x [Hx | ->%list_elem_of_singleton]%elem_of_app Hgt.
    + destruct (Hnot eq_refl x Hx Hgt); [left; apply elem_of_app; by left|by right].
    + left. apply elem_of_app. right. by apply list_elem_of_singleton.
Qed.

Lemma acknowledge_inv limit since pub sub got n :
  sub_inv limit since pub (sub, got) -> sub_inv limit since pub (acknowledge sub n, got).
Proof.
  intros (Hlen & Hs & Hlat & Hlag & Hnot). unfold acknowledge. cbv zeta.
  destruct (lagged sub && _ && _)%bool; [done|].
  set (ack := if lastAcknowledged sub <? n then n else _).
  assert (lastAcknowledged sub <= ack /\ n <= ack) as [Ha1 Ha2] by (unfold ack; case_match; reflect; lia).
  assert (length (filter (fun e => (n < eventSequence e)%Z) (live sub)) <= length (live sub))%nat as Hf by apply length_filter.
  destruct (lagged sub) eqn:Eg; [destruct (latestPublished sub <=? ack) eqn:El|]; cbn [andb]; reflect; unfold sub_inv; simpl; split_and!; try done; try lia.
  - intros _ e He Hgt. apply Hlat in He. lia.
  - destruct (Hlag eq_refl) as [Hl0 Hr]. intros _. rewrite Hl0. split; [done|lia].
  - intros _ e He Hgt. destruct (Hnot eq_refl e He) as [Hin|Hin]; [lia| |by right].
    left. apply list_elem_of_filter. split; [lia|done].
Qed.

Lemma drain_inv limit since pub sub got :
  sub_inv limit since pub (sub, got) -> sub_inv limit since pub (sub_step limit (sub, got) S_drain).
Proof.
  intros (Hlen & Hs & Hlat & Hlag & Hnot). unfold sub_inv. simpl. split_and!; try done; [lia| |].
  - intros Hg. by destruct (Hlag Hg).
  - intros Hg e He Hgt. right. apply elem_of_app. destruct (Hnot Hg e He Hgt); [by right|by left].
Qed.

Lemma sub_run_inv limit since acts : (0 < limit)%nat -> sub_inv limit since (published acts) (sub_run limit since acts).
Proof.
  intros Hl. unfold sub_run, published. induction acts as [|a acts IH] using rev_ind.
  { unfold sub_inv. simpl. split_and!; try done; try lia; [intros e He|intros _ e He]; by apply elem_of_nil in He. }
  rewrite fold_left_app, omap_app. simpl. destruct (fold_left _ acts _) as [sub got].
  destruct a as [e|n|]; rewrite ?app_nil_r; [by apply offer_inv|by apply acknowledge_inv|by apply drain_inv].
Qed.

(** The live queue is bounded and never loses an event silently: after any
    sequence of publications, acknowledgements and drains, the queue holds at most
    the limit; either the subscription is not lagged, and every published event
    past the acknowledged sequence is still queued or was handed out, or it is
    flagged lagged with an empty queue and a resume position no later than the
    first unacknowledged event, from which the stored log can be read. *)
Theorem event_stream_no_silent_loss limit since acts :
  (0 < limit)%nat ->
  let '(sub, got) := sub_run limit since acts in
  (length (live sub) <= limit)%nat /\
  ((lagged sub = false /\
     forall e, e ∈ published acts -> lastAcknowledged sub < eventSequence e -> e ∈ live sub \/ e ∈ got) \/
   (lagged sub = true /\ live sub = [] /\ resumeFromSequence sub <= lastAcknowledged sub + 1)).
Proof.
  intros Hl. pose proof (sub_run_inv limit since acts Hl) as H. destruct (sub_run limit since acts) as [sub got].
  destruct H as (Hlen & _ & _ & Hlag & Hnot). split; [done|]. destruct (lagged sub); [right|left]; split; auto.
Qed.

(** A lagged subscriber cannot acknowledge its next event unless that event
    has the very next number -- but all cells draw their numbers from one
    sequence.  Every acknowledgement up to the latest publication is ignored,
    so the lag never ends. *)
Lemma lagged_acknowledgement_ignored sub n :
  lagged sub = true -> lastAcknowledged sub + 1 < n <= latestPublished sub -> acknowledge sub n = sub.
Proof.
  intros Hg [H1 H2]. unfold acknowledge. rewrite Hg, (proj2 (Z.ltb_lt _ _)), (proj2 (Z.leb_le _ _)) by done. done.
Qed.

(** Whereas an acknowledgement beyond everything published ends the lag with
    the window unread. *)
Lemma beyond_latest_clears_lag sub n :
  lagged sub = true -> lastAcknowledged sub < n -> latestPublished sub < n ->
  lagged (acknowledge sub n) = false /\ lastAcknowledged (acknowledge sub n) = n.
Proof.
  intros Hg H1 H2. unfold acknowledge. rewrite Hg, (proj2 (Z.leb_gt n _)), andb_false_r by done.
  rewrite (proj2 (Z.ltb_lt _ _)) by done. by rewrite (proj2 (Z.leb_le _ _)) by lia.
Qed.
End EventStream.

(** Three events into a queue of two, the first one acknowledged late. *)
Lemma event_stream_no_silent_loss_witness :
  let ev n := mkServerEvent (Body := unit) n "c" tt 0 in
  let '(sub, got) := sub_run 2 0 [S_publish (ev 3); S_publish (ev 5); S_publish (ev 9); S_ack 3] in
  (length (live sub) <= 2)%nat /\
  ((lagged sub = false /\
     forall e, e ∈ published [S_publish (ev 3); S_publish (ev 5); S_publish (ev 9); S_ack 3] ->
       lastAcknowledged sub < eventSequence e -> e ∈ live sub \/ e ∈ got) \/
   (lagged sub = true /\ live sub = [] /\ resumeFromSequence sub <= lastAcknowledged sub + 1)).
Proof.
  apply (event_stream_no_silent_loss 2 0 [S_publish (mkServerEvent 3 "c" tt 0); S_publish (mkServerEvent 5 "c" tt 0);
    S_publish (mkServerEvent 9 "c" tt 0); S_ack 3]). lia.
Defined.
