(* ===== verification/Server.v ===== *)
(** The execd server: frames to requests, authentication, routing, event push.

    Models [src/src/execd/server.ts], [src/src/execd/approval.ts] and
    [src/src/execd/session-manager.ts].  What the daemon does is behind the class
    [ExecdDeps], the code's interface of the same name, over any daemon state;
    one of its methods runs to its end before the next frame is handled.  Sockets
    are the list of what was written to them; SO_PEERCRED, [/proc], sha256 and
    [JSON.parse] are parameters. *)
From S2P Require Import Prelude Json Frame ExecdStore LogStore Cells.
Open Scope string_scope.
Open Scope Z_scope.
Open Scope list_scope.

(** src/src/execd/protocol/messages.ts # PROTOCOL_VERSION *)
Definition PROTOCOL_VERSION : Z := 1.

(** src/src/execd/protocol/messages.ts # RequestBase *)
Record RequestBase := mkBase {
  protocolVersion : Z; requestId : string; idempotencyKey : string; sessionId : string; sequence : Z;
  approvalToken : option string }.

Inductive CapacityMethod :=
| CapacityReserve (request : jsval)
| CapacityReleaseRequest (claimId ownerToken : string)
| CapacityPhase (claimId ownerToken phase : string) (spawn : jsval)
| CapacityReconcile
| CapacityStatus.

(** src/src/execd/protocol/messages.ts # Request *)
Inductive Method :=
| Hello
| SubmitCell (payload : SubmitCellPayload)
| WatchCell (cellId : string) (sinceSequence : option Z)
| GetCell (cellId : string)
| CancelCell (cellId : string)
| CancelAgent (agentId : string)
| CancelRun (runId : string)
| CleanupRun (runId : string)
| AcquireLease (runId : string) (ttlMs : Z)
| RenewLease (leaseId : string) (ttlMs : Z)
| ReleaseLease (leaseId : string)
| AttachLogs (cellId : string) (kind : option log_kind) (offset : option Z)
| ListRecoverableRuns
| Capacity (m : CapacityMethod) (clientInstanceId : option string)
| UnknownMethod (name : string).
Record Request := mkRequest { base : RequestBase; method : Method }.

(** src/src/execd/protocol/messages.ts # EXECD_ERROR_CODES *)
Inductive ErrorCode :=
| BAD_FRAME | BAD_REQUEST | PROTOCOL_VERSION_MISMATCH | UNKNOWN_METHOD | UNAUTHENTICATED | UNAUTHORIZED_APPROVAL
| UNKNOWN_CELL | UNKNOWN_RUN | CELL_NOT_OWNED | LEASE_INVALID | LEASE_EXPIRED | SESSION_UNKNOWN | INTERNAL
| INVALID_CLAIM_PHASE.

#[export] Instance ErrorCode_eq_dec : EqDecision ErrorCode.
Proof. solve_decision. Defined.

(** What an event frame carries. *)
Inductive event_body :=
| stored_event (e : CellEventRow)
| live_event (p : Publication).
Definition event_number (b : event_body) : Z := match b with stored_event e => eventSequence e | live_event p => pub_seq p end.

(** ** Approval *)

Section Approval.
(** sha256 of a token's bytes. *)
Context (digest : string -> list Z).

(** src/src/execd/approval.ts # fixedApprovalTokenProvider @29-38 *)
Definition isValid (tokens : list string) (token : option string) : bool :=
  match token with
  | None => false
  | Some t =>
      if t === "" then false else
      if (length tokens =? 0)%nat then false else
      existsb (fun known => digest t === known) (digest <$> tokens)
  end.

(** src/src/execd/approval.ts # checkApproval

    [None] is approval, [Some operation] the refusal of that operation. *)
Definition checkApproval (tokens : list string) (token : option string) (operation : string) : option string :=
  if isValid tokens token then None else Some operation.
End Approval.

(** ** The daemon behind the server *)

(** src/src/execd/server.ts # ExecdServerDeps

    [R] is the type of results, which the server passes on unread. *)
Class ExecdDeps (D R : Type) := mkDeps {
  dep_store : D -> Store;
  submitCell : SubmitCellPayload -> string -> string -> D -> D * res string R;
  getCell_ : string -> D -> option R;
  cancelCell : string -> D -> D * res string ();
  cancelAgent : string -> D -> D * res string ();
  cancelRun_ : string -> D -> D * res string ();
  cleanupRun_ : string -> D -> D * res string R;
  acquireLease : string -> Z -> D -> D * res string R;
  renewLease : string -> Z -> D -> D * res string (option R);
  releaseLease_ : string -> D -> D * res string ();
  listRecoverable : D -> R;
  attachLogs : string -> log_kind -> Z -> D -> res string R;
  (** [None] is the principal of the server's own call. *)
  capacity : CapacityMethod -> string -> (Z * Z * Z * string) -> D -> D * res string R }.

Section Server.
Context {D R : Type} `{!ExecdDeps D R}.

Inductive ok_result :=
| R_hello (sessionId : string) (peerUid : option Z)
| R_dep (r : R)
| R_id (id : string)
| R_watch (cellId : string) (resumedFrom : Z).

(** One message written to a socket. *)
Inductive Message :=
| M_ok (requestId : string) (r : ok_result)
| M_error (requestId : string) (code : ErrorCode)
| M_event (b : event_body).

Record Watching := mkWatching { w_cellId : string; lastAcknowledged : Z; lagged : bool }.

(** src/src/execd/server.ts # Connection *)
Record Connection := mkConnection {
  codec : FrameCodec; conn_sessionId : option string; peerUid : option Z; peerPid : option Z;
  watchingCell : option Watching; written : list Message; destroyed : bool }.

Definition with_codec c v := mkConnection v (conn_sessionId c) (peerUid c) (peerPid c) (watchingCell c) (written c) (destroyed c).
Definition with_session c v := mkConnection (codec c) v (peerUid c) (peerPid c) (watchingCell c) (written c) (destroyed c).
Definition with_watching c v := mkConnection (codec c) (conn_sessionId c) (peerUid c) (peerPid c) v (written c) (destroyed c).
Definition destroy c := mkConnection (codec c) (conn_sessionId c) (peerUid c) (peerPid c) (watchingCell c) (written c) true.

(** src/src/execd/server.ts # ExecdServer.send

    Every message fits in a frame; writing to a destroyed socket is lost. *)
Definition send (c : Connection) (m : Message) : Connection :=
  if destroyed c then c
  else mkConnection (codec c) (conn_sessionId c) (peerUid c) (peerPid c) (watchingCell c) (written c ++ [m]) (destroyed c).

(** The configuration: accepted tokens, the process's uid, the generated session
    id, process start times. *)
Context (digest : string -> list Z) (tokens : list string) (own_uid : Z) (fresh_session : string)
        (readProcessStartticks : Z -> option Z).

(** The frame of [case "CancelCell"] and its siblings: refuse without approval,
    otherwise run and answer. *)
Definition approved (operation : string) (c : Connection) (b : RequestBase) (d : D) (run : D -> D * res string ok_result) :
    D * Connection * res string (option Message) :=
  match checkApproval digest tokens (approvalToken b) operation with
  | Some _ => (d, c, Ok (Some (M_error (requestId b) UNAUTHORIZED_APPROVAL)))
  | None =>
      match run d with
      | (d', Ok r) => (d', c, Ok (Some (M_ok (requestId b) r)))
      | (d', Throw e) => (d', c, Throw e)
      end
  end.

Definition answer {A} (f : A -> ok_result) (x : D * res string A) : D * res string ok_result :=
  (x.1, f <$> x.2).

(** src/src/execd/server.ts # ExecdServer.route @269-288

    The reply, the stored history after [since], then the live position. *)
Definition watch (c : Connection) (b : RequestBase) (d : D) (cell : string) (since : Z) : Connection :=
  let events := eventsForCell (dep_store d) cell since in
  let last_ := match last events with Some e => eventSequence e | None => since end in
  let c := send c (M_ok (requestId b) (R_watch cell last_)) in
  let c := fold_left (fun c e => send c (M_event (stored_event e))) events c in
  with_watching c (Some (mkWatching cell last_ false)).

Definition client_phases : list string := ["RESERVED"; "PRE_SPAWN"; "SPAWN_ATTEMPTING"; "SPAWN_IDENTITY_COMMITTED"; "EXECUTING"].

(** src/src/execd/server.ts # ExecdServer.route *)
Definition route (c : Connection) (q : Request) (d : D) : D * Connection * res string (option Message) :=
  let b := base q in
  let ok r := Ok (Some (M_ok (requestId b) r)) in
  let fail code := Ok (Some (M_error (requestId b) code)) in
  let run {A} (x : D * res string A) (f : A -> ok_result) :=
    match answer f x with (d', Ok r) => (d', c, ok r) | (d', Throw e) => (d', c, Throw e) end in
  match method q with
  | Hello =>
      let sid := default fresh_session (conn_sessionId c) in
      (d, with_session c (Some sid), ok (R_hello sid (peerUid c)))
  | GetCell id => (d, c, match getCell_ id d with Some r => ok (R_dep r) | None => fail UNKNOWN_CELL end)
  | SubmitCell p => approved "SubmitCell" c b d (fun d => answer R_dep (submitCell p (idempotencyKey b) (default "anon" (conn_sessionId c)) d))
  | CancelCell id => approved "CancelCell" c b d (fun d => answer (fun _ => R_id id) (cancelCell id d))
  | CancelAgent id => approved "CancelAgent" c b d (fun d => answer (fun _ => R_id id) (cancelAgent id d))
  | CancelRun id => approved "CancelRun" c b d (fun d => answer (fun _ => R_id id) (cancelRun_ id d))
  | CleanupRun id => approved "CleanupRun" c b d (fun d => answer R_dep (cleanupRun_ id d))
  | AcquireLease id ttl => run (acquireLease id ttl d) R_dep
  | RenewLease id ttl =>
      match renewLease id ttl d with
      | (d', Ok (Some r)) => (d', c, ok (R_dep r))
      | (d', Ok None) => (d', c, fail LEASE_INVALID)
      | (d', Throw e) => (d', c, Throw e)
      end
  | ReleaseLease id => run (releaseLease_ id d) (fun _ => R_id id)
  | ListRecoverableRuns => (d, c, ok (R_dep (listRecoverable d)))
  | WatchCell id since =>
      match getCell (dep_store d) id with
      | None => (d, c, fail UNKNOWN_CELL)
      | Some _ => (d, watch c b d id (default 0 since), Ok None)
      end
  | AttachLogs id kind offset =>
      match getCell (dep_store d) id with
      | None => (d, c, fail UNKNOWN_CELL)
      | Some _ =>
          (d, c, (fun r => Some (M_ok (requestId b) (R_dep r))) <$> attachLogs id (default log_stdout kind) (default 0 offset) d)
      end
  | Capacity m client =>
      match peerUid c, peerPid c with
      | Some uid, Some pid =>
          if negb (uid =? own_uid) then (d, c, fail UNAUTHENTICATED) else
          let principal := (uid, pid, default 0 (readProcessStartticks pid), default "anon" client) in
          match m with
          | CapacityPhase claimId _ phase _ =>
              if includes client_phases phase then run (capacity m (idempotencyKey b) principal d) (fun _ => R_id claimId)
              else (d, c, fail INVALID_CLAIM_PHASE)
          | _ => run (capacity m (idempotencyKey b) principal d) R_dep
          end
      | _, _ => (d, c, fail UNAUTHENTICATED)
      end
  | UnknownMethod _ => (d, c, fail UNKNOWN_METHOD)
  end.

(** src/src/execd/server.ts # ExecdServer.dispatch *)
Definition dispatch (c : Connection) (q : Request) (d : D) : D * Connection :=
  match route c q d with
  | (d', c', Ok (Some m)) => (d', send c' m)
  | (d', c', Ok None) => (d', c')
  | (d', c', Throw _) => (d', send c' (M_error (requestId (base q)) INTERNAL))
  end.

(** src/src/execd/server.ts # ExecdServer.handleFrame *)
Definition handleFrame (parse : jschars -> option Request) (c : Connection) (payload : jschars) (d : D) : D * Connection :=
  match parse payload with
  | None => (d, send c (M_error "" BAD_REQUEST))
  | Some q =>
      if negb (protocolVersion (base q) =? PROTOCOL_VERSION)
      then (d, send c (M_error (requestId (base q)) PROTOCOL_VERSION_MISMATCH))
      else if match peerUid c with Some uid => negb (uid =? own_uid) | None => false end
      then (d, destroy (send c (M_error (requestId (base q)) UNAUTHENTICATED)))
      else dispatch c q d
  end.

(** src/src/execd/server.ts # ExecdServer.handleConnection @139-147 *)
Definition on_data (parse : jschars -> option Request) (JSON_parse : jschars -> option jsval) (c : Connection) (chunk : bytes) (d : D) : D * Connection :=
  match feed JSON_parse (codec c) chunk with
  | (codec', Ok frames) =>
      fold_left (fun '(d, c) f => handleFrame parse c (payload f) d) frames (d, with_codec c codec')
  | (codec', Throw _) => (d, destroy (send (with_codec c codec') (M_error "" BAD_FRAME)))
  end.

(** src/src/execd/server.ts # ExecdServer.publishEvent @115-128

    One connection's turn; [blocked] is a socket whose buffer is not empty and
    refuses a write. *)
Definition push (c : Connection) (p : Publication) (blocked : bool) : Connection :=
  match watchingCell c with
  | None => c
  | Some w =>
      if negb (w_cellId w === pub_cellId p) then c else
      if lagged w then c else
      if lastAcknowledged w <? pub_seq p then
        if blocked then with_watching c (Some (mkWatching (w_cellId w) (lastAcknowledged w) true))
        else with_watching (send c (M_event (live_event p))) (Some (mkWatching (w_cellId w) (pub_seq p) (lagged w)))
      else c
  end.

(** ** Authorisation *)

(** The methods that need an approval token, and those that need the kernel's
    credentials. *)
Definition privileged (m : Method) : bool :=
  match m with SubmitCell _ | CancelCell _ | CancelAgent _ | CancelRun _ | CleanupRun _ => true | _ => false end.
Definition hard_authority (m : Method) : bool := match m with Capacity _ _ => true | _ => false end.

Definition peer_is_owner (c : Connection) : bool := match peerUid c with Some uid => uid =? own_uid | None => false end.

(** What the protocol demands of a request before it may touch the daemon. *)
Definition authorized (c : Connection) (q : Request) : bool :=
  (protocolVersion (base q) =? PROTOCOL_VERSION) &&
  match peerUid c with Some uid => uid =? own_uid | None => true end &&
  (negb (privileged (method q)) || isValid digest tokens (approvalToken (base q))) &&
  (negb (hard_authority (method q)) || (peer_is_owner c && bool_decide (is_Some (peerPid c)))).

(** The connection differs only in one more error message, or is destroyed. *)
Definition refused (c c' : Connection) (id : string) (code : ErrorCode) : Prop :=
  written c' = written c ++ [M_error id code] /\ conn_sessionId c' = conn_sessionId c /\
  watchingCell c' = watchingCell c /\ codec c' = codec c.

Lemma refused_send c id code : destroyed c = false -> refused c (send c (M_error id code)) id code.
Proof. unfold send, refused. by intros ->. Qed.

Lemma route_unapproved c q d :
  privileged (method q) = true -> isValid digest tokens (approvalToken (base q)) = false ->
  route c q d = (d, c, Ok (Some (M_error (requestId (base q)) UNAUTHORIZED_APPROVAL))).
Proof. destruct q as [b m]. intros Hp Hv. destruct m; try discriminate Hp; cbn; unfold approved, checkApproval; cbn in Hv; by rewrite Hv. Qed.

Lemma route_no_credentials c q d :
  hard_authority (method q) = true -> peer_is_owner c && bool_decide (is_Some (peerPid c)) = false ->
  route c q d = (d, c, Ok (Some (M_error (requestId (base q)) UNAUTHENTICATED))).
Proof.
  destruct q as [b m]. unfold peer_is_owner. intros Hp Hv. destruct m; try discriminate Hp. cbn.
  destruct (peerUid c) as [uid|]; [|done]. destruct (peerPid c) as [pid|]; [|done].
  rewrite bool_decide_true in Hv by eauto. rewrite andb_true_r in Hv. by rewrite Hv.
Qed.

(** Nothing unauthenticated or unapproved reaches the daemon: a frame whose
    request has the wrong protocol version, comes from a peer of another user,
    lacks a valid approval token for submitting, cancelling or cleaning, or asks
    for capacity without kernel credentials, leaves the daemon exactly as it was
    and is answered by one error with the matching code, and nothing else about
    the connection changes. *)
Theorem unauthorized_refused parse c payload q d :
  parse payload = Some q -> destroyed c = false -> authorized c q = false ->
  exists c' code, handleFrame parse c payload d = (d, c') /\ refused c c' (requestId (base q)) code /\
    code ∈ [PROTOCOL_VERSION_MISMATCH; UNAUTHENTICATED; UNAUTHORIZED_APPROVAL].
Proof.
  intros Hq Hd Hauth. unfold handleFrame. rewrite Hq. unfold authorized in Hauth.
  destruct (protocolVersion (base q) =? PROTOCOL_VERSION); cbn [negb andb] in *.
  2: { eexists _, _. split; [done|]. split; [by apply refused_send|left]. }
  assert (match peerUid c with Some uid => negb (uid =? own_uid) | None => false end =
          negb (match peerUid c with Some uid => uid =? own_uid | None => true end)) as -> by (by destruct (peerUid c)).
  destruct (match peerUid c with Some uid => uid =? own_uid | None => true end); cbn [negb andb] in *.
  2: { eexists _, _. split; [done|]. split; [|right; left]. unfold destroy, send, refused. by rewrite Hd. }
  unfold dispatch. apply andb_false_iff in Hauth as [[Hp Hv]%orb_false_iff|[Hp Hv]%orb_false_iff]; apply negb_false_iff in Hp.
  - rewrite route_unapproved by done. eexists _, _. split; [done|]. split; [by apply refused_send|right; right; left].
  - rewrite route_no_credentials by done. eexists _, _. split; [done|]. split; [by apply refused_send|right; left].
Qed.

(** ** Watching *)

Lemma send_all c ms : destroyed c = false ->
  fold_left (fun c e => send c (M_event (stored_event e))) ms c =
  mkConnection (codec c) (conn_sessionId c) (peerUid c) (peerPid c) (watchingCell c)
    (written c ++ ((fun e => M_event (stored_event e)) <$> ms)) (destroyed c).
Proof.
  revert c. induction ms as [|e ms IH]; intros c Hd; cbn [fold_left].
  - cbn. rewrite app_nil_r. by destruct c.
  - unfold send at 2. rewrite Hd, IH by done. cbn. by rewrite <-app_assoc.
Qed.

Lemma push_watching c w p blocked : watchingCell c = Some w ->
  push c p blocked =
  if negb (w_cellId w === pub_cellId p) || lagged w || negb (lastAcknowledged w <? pub_seq p) then c
  else if blocked then with_watching c (Some (mkWatching (w_cellId w) (lastAcknowledged w) true))
  else with_watching (send c (M_event (live_event p))) (Some (mkWatching (w_cellId w) (pub_seq p) (lagged w))).
Proof.
  intros Hw. unfold push. rewrite Hw. destruct (w_cellId w === pub_cellId p); [|done]. destruct (lagged w); [done|].
  by destruct (lastAcknowledged w <? pub_seq p).
Qed.

(** The position [watch] reaches, and the connection after it. *)
Definition watch_position (d : D) (id : string) (since : Z) : Z :=
  match last (eventsForCell (dep_store d) id since) with Some e => eventSequence e | None => since end.

Lemma watch_eq c b d id since : destroyed c = false ->
  watch c b d id since =
  mkConnection (codec c) (conn_sessionId c) (peerUid c) (peerPid c)
    (Some (mkWatching id (watch_position d id since) false))
    (written c ++ M_ok (requestId b) (R_watch id (watch_position d id since)) ::
      ((fun e => M_event (stored_event e)) <$> eventsForCell (dep_store d) id since)) false.
Proof.
  intros Hd. unfold watch. cbv zeta. rewrite send_all by (unfold send; by rewrite Hd). unfold send. rewrite Hd. cbn.
  by rewrite <-app_assoc.
Qed.

(** Pushes after a subscription: only publications of the cell past the last
    number sent, in increasing order. *)
Lemma push_all c w pubs : destroyed c = false -> watchingCell c = Some w ->
  let c' := fold_left (fun c '(p, blocked) => push c p blocked) pubs c in
  destroyed c' = false /\
  exists lives, written c' = written c ++ ((fun p => M_event (live_event p)) <$> lives) /\
    StronglySorted Z.lt (lastAcknowledged w :: (pub_seq <$> lives)) /\
    (forall p, p ∈ lives -> p ∈ pubs.*1 /\ pub_cellId p = w_cellId w).
Proof.
  revert c w. induction pubs as [|[p blocked] pubs IH]; intros c w Hd Hw; cbn [fold_left].
  { split; [done|]. exists []. split_and!; [by rewrite app_nil_r|repeat constructor|]. intros p Hp. by apply elem_of_nil in Hp. }
  assert (forall c1 w1, destroyed c1 = false -> watchingCell c1 = Some w1 -> written c1 = written c ->
            lastAcknowledged w1 = lastAcknowledged w -> w_cellId w1 = w_cellId w ->
    let c' := fold_left (fun c '(p, blocked) => push c p blocked) pubs c1 in
    destroyed c' = false /\
    exists lives, written c' = written c ++ ((fun p => M_event (live_event p)) <$> lives) /\
      StronglySorted Z.lt (lastAcknowledged w :: (pub_seq <$> lives)) /\
      (forall x, x ∈ lives -> x ∈ ((p, blocked) :: pubs).*1 /\ pub_cellId x = w_cellId w)) as Hskip.
  { intros c1 w1 Hd1 Hw1 Hwr Hack Hcell. destruct (IH c1 w1 Hd1 Hw1) as [H1 (lives & H2 & H3 & H4)].
    split; [done|]. exists lives. split_and!; [congruence|congruence|]. intros x Hx. destruct (H4 x Hx) as [? ?].
    split; [right; done|congruence]. }
  rewrite (push_watching c w) by done. destruct (negb _ || lagged w || negb _)%bool eqn:Eskip; [by apply (Hskip c w)|].
  apply orb_false_iff in Eskip as [[Ecell El]%orb_false_iff Eseq]. rewrite El. apply negb_false_iff in Ecell, Eseq.
  destruct blocked.
  - by apply (Hskip _ (mkWatching (w_cellId w) (lastAcknowledged w) true)).
  - clear Hskip. unfold send. rewrite Hd. reflect.
    edestruct (IH (with_watching (mkConnection (codec c) (conn_sessionId c) (peerUid c) (peerPid c) (watchingCell c)
      (written c ++ [M_event (live_event p)]) false) (Some (mkWatching (w_cellId w) (pub_seq p) false)))) as [H1 (lives & H2 & H3 & H4)]; [done..|].
    split; [exact H1|]. exists (p :: lives). cbn [written with_watching lastAcknowledged w_cellId] in *. split_and!.
    + rewrite H2. cbn. by rewrite <-app_assoc.
    + cbn [fmap list_fmap]. constructor; [exact H3|]. constructor; [done|].
      apply StronglySorted_inv in H3 as [_ H3]. eapply Forall_impl; [exact H3|]. simpl. lia.
    + intros x [->|Hx]%elem_of_cons; [split; [left|done]|]. destruct (H4 x Hx). split; [by right|done].
Qed.

Lemma eventsForCell_sorted s id since :
  StronglySorted Z.lt (eventSequence <$> cell_events s) ->
  StronglySorted Z.lt (since :: (eventSequence <$> eventsForCell s id since)).
Proof.
  intros Hs. unfold eventsForCell. constructor.
  - eapply StronglySorted_sublist; [|exact Hs]. apply fmap_sublist, sublist_filter.
  - rewrite Forall_fmap, Forall_forall. intros e. rewrite list_elem_of_filter. simpl. tauto.
Qed.

Lemma sorted_join (x : Z) l1 l2 :
  StronglySorted Z.lt (x :: l1) -> StronglySorted Z.lt (default x (last l1) :: l2) -> StronglySorted Z.lt (x :: l1 ++ l2).
Proof.
  revert x. induction l1 as [|y l1 IH]; intros x H1 H2; [done|]. cbn [app].
  apply StronglySorted_inv in H1 as [H1 Hx]. assert (StronglySorted Z.lt (y :: l1 ++ l2)) as H.
  { apply IH; [done|]. destruct l1 as [|z l1]; [exact H2|]. rewrite last_cons_cons in H2.
    destruct (last (z :: l1)) eqn:E; [exact H2|]. by apply last_None in E. }
  constructor; [done|]. apply StronglySorted_inv in H as [_ Hy]. inv Hx. constructor; [done|].
  eapply Forall_impl; [exact Hy|]. simpl. lia.
Qed.

(** Watching resumes without loss, repetition or reordering: on a live connection,
    a WatchCell of a known cell is answered by the position reached, then by every
    stored event of the cell after the requested sequence, in order; whatever is
    published afterwards, the live events that follow belong to the cell, and the
    numbers of all event frames strictly increase from the requested sequence on. *)
Theorem watch_in_order c b d id since cell pubs :
  destroyed c = false -> getCell (dep_store d) id = Some cell ->
  StronglySorted Z.lt (eventSequence <$> cell_events (dep_store d)) ->
  let '(d', c1) := dispatch c (mkRequest b (WatchCell id (Some since))) d in
  let c2 := fold_left (fun c '(p, blocked) => push c p blocked) pubs c1 in
  let stored := eventsForCell (dep_store d) id since in
  d' = d /\
  exists reached lives,
    written c2 = written c ++ M_ok (requestId b) (R_watch id reached) ::
      ((fun e => M_event (stored_event e)) <$> stored) ++ ((fun p => M_event (live_event p)) <$> lives) /\
    (forall p, p ∈ lives -> p ∈ pubs.*1 /\ pub_cellId p = id) /\
    StronglySorted Z.lt (since :: (eventSequence <$> stored) ++ (pub_seq <$> lives)).
Proof.
  intros Hd Hc Hs. unfold dispatch, route. cbn [method base default]. rewrite Hc, watch_eq by done.
  unfold Datatypes.id. cbv zeta. set (stored := eventsForCell (dep_store d) id since). set (reached := watch_position d id since).
  match goal with |- context [fold_left _ pubs ?c1] =>
    destruct (push_all c1 (mkWatching id reached false) pubs eq_refl eq_refl) as [_ (lives & H1 & H2 & H3)] end.
  split; [done|]. exists reached, lives. split_and!.
  - rewrite H1. cbn [written]. by rewrite <-!app_assoc.
  - exact H3.
  - apply sorted_join; [by apply eventsForCell_sorted|]. cbn [lastAcknowledged] in H2.
    replace (default since (last (eventSequence <$> stored))) with reached; [done|].
    unfold reached, watch_position. fold stored. rewrite fmap_last. by destruct (last stored).
Qed.
End Server.

(** ** The daemon's own operations behind the server *)

Section Wiring.
(** The environment of one process: generated ids, the clock, what the broker
    compiles and proves, the capacity authority's answers. *)
Context (JSON_stringify : jsval -> jschars) (logRoot : string) (fresh_cell fresh_run fresh_lease : Store -> string)
        (now : Store -> Z) (compiled : SubmitCellPayload -> option string) (cgroup : string -> option string)
        (terminated : Store -> string -> bool) (capacity_answer : CapacityMethod -> res string jsval).

Inductive Answer :=
| A_submit (r : SubmitResult) | A_cell (c : CellRecord) | A_removed (n : Z) | A_lease (id : string) (expiresAt : Z)
| A_renewed (expiresAt : Z) | A_runs (rs : list (string * Z)) | A_logs (c : AttachChunk) | A_capacity (v : jsval).

(** [cancelCell] with the verdict the environment gives. *)
Definition cancel_now (id : string) (d : Disk) : Disk * res string () :=
  match getCell (db d) id with
  | None => (d, Throw "unknown cell")
  | Some cell => (final d (cancel_finish d cell (terminated (db d) id) (now (db d))), Ok ())
  end.

(** src/src/execd/cell-manager.ts # CellManager.cancelAgent *)
Fixpoint cancel_each (cells : list CellRecord) (d : Disk) : Disk * res string () :=
  match cells with
  | [] => (d, Ok ())
  | cell :: cells =>
      if includes [CLEANED; CANCELLED; START_FAILED] (currentState cell) then cancel_each cells d
      else match cancel_now (cellId cell) d with
      | (d', Ok _) => cancel_each cells d'
      | (d', Throw e) => (d', Throw e)
      end
  end.

(** src/src/execd/execd.ts # createExecd @108-125 *)
#[export] Instance daemon_deps : ExecdDeps Disk Answer := {|
  dep_store := db;
  submitCell p key session d :=
    match submit JSON_stringify d p key (fresh_cell (db d)) (fresh_run (db d)) (compiled p) (cgroup (fresh_cell (db d))) (now (db d)) with
    | (tr, Some r) => (final d tr, Ok (A_submit r))
    | (tr, None) => (final d tr, Throw "policy compilation failed")
    end;
  getCell_ id d := A_cell <$> getCell (db d) id;
  cancelCell := cancel_now;
  cancelAgent id d := cancel_each (listCellsByRun (db d) id) d;
  cancelRun_ id d := (final d (cancelRun d id (now (db d))), Ok ());
  cleanupRun_ id d := let '(tr, n) := cleanupRun d id (now (db d)) in (final d tr, Ok (A_removed n));
  acquireLease run ttl d :=
    let id := fresh_lease (db d) in
    match lease_acquire (db d) id run ttl (now (db d)) with
    | Ok (s, e) => (with_db d s, Ok (A_lease id e))
    | Throw e => (d, Throw e)
    end;
  renewLease id ttl d := let '(s, e) := lease_renew (db d) id ttl (now (db d)) in (with_db d s, Ok (A_renewed <$> e));
  releaseLease_ id d := (with_db d (lease_release (db d) id (now (db d))), Ok ());
  listRecoverable d := A_runs (listRecoverableRuns (db d));
  attachLogs id kind offset d := Ok (A_logs (log_attach logRoot (logs d) id kind (Z.to_nat offset)));
  capacity m key principal d := (d, A_capacity <$> capacity_answer m)
|}.
End Wiring.

(** A daemon with one running cell, and a client that is not approved. *)
Definition demo_deps : ExecdDeps Disk Answer :=
  daemon_deps (fun _ => []) "/logs" (fun _ => "c1") (fun _ => "r1") (fun _ => "l1") (fun _ => 5) (fun _ => Some "b1") (fun _ => None)
    (fun _ _ => true) (fun _ => Ok JNull).
Definition demo_disk : Disk :=
  (@submitCell Disk Answer demo_deps (mkPayload "cap" "ls" [] None None [] "build" true None None None None) "k" "s" (mkDisk emptyStore [])).1.
Definition demo_connection : Connection (R := Answer) := mkConnection newCodec (Some "s") (Some 1000) (Some 7) None [] false.
Definition demo_request (m : Method) (token : option string) : Request := mkRequest (mkBase 1 "q1" "k1" "s" 1 token) m.

Lemma unauthorized_refused_witness :
  exists c' code,
    handleFrame (D := Disk) (ExecdDeps0 := demo_deps) (fun _ => [1]) ["secret"] 1000 "s2" (fun _ => None)
      (fun _ => Some (demo_request (CancelCell "c1") None)) demo_connection [] demo_disk = (demo_disk, c') /\
    refused demo_connection c' "q1" code /\ code ∈ [PROTOCOL_VERSION_MISMATCH; UNAUTHENTICATED; UNAUTHORIZED_APPROVAL].
Proof.
  apply (unauthorized_refused (ExecdDeps0 := demo_deps) (fun _ => [1]) ["secret"] 1000 "s2" (fun _ => None)
    (fun _ => Some (demo_request (CancelCell "c1") None)) demo_connection [] (demo_request (CancelCell "c1") None) demo_disk);
    reflexivity.
Defined.

Lemma watch_in_order_witness :
  let '(d', c1) := dispatch (D := Disk) (ExecdDeps0 := demo_deps) (fun _ => [1]) ["secret"] 1000 "s2" (fun _ => None)
    demo_connection (mkRequest (mkBase 1 "q1" "k1" "s" 1 None) (WatchCell "c1" (Some 1))) demo_disk in
  let c2 := fold_left (fun c '(p, blocked) => push c p blocked)
    [(mkPub "cell.status" "c1" "r1" (P_state "RUNNING") 3, false); (mkPub "cell.exit" "c1" "r1" (P_exit (Some 0) None) 4, false)] c1 in
  let stored := eventsForCell (dep_store (ExecdDeps := demo_deps) demo_disk) "c1" 1 in
  d' = demo_disk /\
  exists reached lives,
    written c2 = written demo_connection ++ M_ok "q1" (R_watch "c1" reached) ::
      ((fun e => M_event (stored_event e)) <$> stored) ++ ((fun p => M_event (live_event p)) <$> lives) /\
    (forall p, p ∈ lives ->
      p ∈ [(mkPub "cell.status" "c1" "r1" (P_state "RUNNING") 3, false); (mkPub "cell.exit" "c1" "r1" (P_exit (Some 0) None) 4, false)].*1 /\
      pub_cellId p = "c1") /\
    StronglySorted Z.lt (1 :: (eventSequence <$> stored) ++ (pub_seq <$> lives)).
Proof.
  refine (watch_in_order (ExecdDeps0 := demo_deps) (fun _ => [1]) ["secret"] 1000 "s2" (fun _ => None) demo_connection
    (mkBase 1 "q1" "k1" "s" 1 None) demo_disk "c1" 1 (mkCell "c1" "r1" "r1:n1" 1 None "cap" "ls" [] None None RUNNING 5 5)
    [(mkPub "cell.status" "c1" "r1" (P_state "RUNNING") 3, false); (mkPub "cell.exit" "c1" "r1" (P_exit (Some 0) None) 4, false)] eq_refl _ _).
  - vm_compute. reflexivity.
  - vm_compute. repeat constructor.
Defined.
