(* ===== verification/HarnessTypes.v ===== *)
(** The harness contracts.

    Models the data of [src/src/harness/contracts]: errors, budgets, run
    statuses, outcomes, interrupts, inputs and events.  An error value of type
    [unknown] is its message; ids, timestamps and the schema version of an
    event are not represented, its sequence number is. *)
From S2P Require Import Prelude Json Schema.
Open Scope string_scope.
Open Scope Z_scope.
Open Scope list_scope.

(** ** Errors *)

(** src/src/harness/contracts/errors.ts # HarnessErrorKind *)
Inductive HarnessErrorKind :=
| session_not_found | run_not_found | run_already_active | invalid_state_transition
| invalid_interrupt_response | interrupt_expired | interrupt_not_pending | workspace_changed
| snapshot_corrupt | storage_failure | budget_exhausted | capability_not_found
| capability_already_registered | internal.

#[export] Instance harness_error_kind_eq_dec : EqDecision HarnessErrorKind.
Proof. solve_decision. Defined.

(** src/src/harness/contracts/errors.ts # HarnessError *)
Record HarnessError := mkError {
  he_kind : HarnessErrorKind;
  he_message : string;
}.

#[export] Instance harness_error_eq_dec : EqDecision HarnessError.
Proof. solve_decision. Defined.

(** ** Budgets *)

(** src/src/harness/contracts/budget.ts # RunBudget *)
Record RunBudget := mkBudget {
  maxWallTimeMs : Z;
  maxModelCalls : Z;
  maxToolCalls : Z;
  maxInputTokens : Z;
  maxOutputTokens : Z;
  maxCacheMissTokens : Z;
  maxWrites : Z;
  maxExternalActions : Z;
  maxRepairCycles : Z;
}.

(** src/src/harness/contracts/budget.ts # BudgetUsage *)
Record BudgetUsage := mkUsage {
  wallTimeMs : Z;
  modelCalls : Z;
  toolCalls : Z;
  inputTokens : Z;
  outputTokens : Z;
  cacheMissTokens : Z;
  writes : Z;
  externalActions : Z;
  repairCycles : Z;
}.

(** src/src/harness/contracts/budget.ts # BudgetExhaustionReason *)
Inductive BudgetExhaustionReason :=
| model_call_budget | tool_call_budget | token_budget | wall_time_budget | write_budget
| external_action_budget | repair_budget.

(** src/src/harness/contracts/budget.ts # BudgetRequest

    The kind; the estimated tokens are never read. *)
Inductive BudgetKind := model_call | tool_call | write | external_action | repair.

#[export] Instance budget_kind_eq_dec : EqDecision BudgetKind.
Proof. solve_decision. Defined.
#[export] Instance exhaustion_reason_eq_dec : EqDecision BudgetExhaustionReason.
Proof. solve_decision. Defined.

(** ** Runs *)

(** src/src/harness/contracts/run.ts # RunStatus *)
Inductive RunStatus :=
| created | initializing | running | waiting | pausing | paused | resuming | blocked
| completed | failed | cancelled | restart_required.

#[export] Instance run_status_eq_dec : EqDecision RunStatus.
Proof. solve_decision. Defined.

(** A status as it is printed. *)
Definition status_text (s : RunStatus) : string :=
  match s with
  | created => "created" | initializing => "initializing" | running => "running" | waiting => "waiting"
  | pausing => "pausing" | paused => "paused" | resuming => "resuming" | blocked => "blocked"
  | completed => "completed" | failed => "failed" | cancelled => "cancelled"
  | restart_required => "restart_required"
  end.

(** src/src/harness/contracts/run.ts # TERMINAL_RUN_STATUSES *)
Definition TERMINAL_RUN_STATUSES : list RunStatus := [completed; failed; cancelled; restart_required].

(** src/src/harness/contracts/run.ts # isTerminalRunStatus *)
Definition isTerminalRunStatus (status : RunStatus) : bool := includes TERMINAL_RUN_STATUSES status.

(** src/src/harness/contracts/run.ts # STOPPED_RUN_STATUSES *)
Definition STOPPED_RUN_STATUSES : list RunStatus := [blocked; waiting; paused].

(** src/src/harness/contracts/run.ts # isStoppedRunStatus *)
Definition isStoppedRunStatus (status : RunStatus) : bool :=
  isTerminalRunStatus status || includes STOPPED_RUN_STATUSES status.

(** [Partial<RunBudget>]: the fields that are given. *)
Record PartialBudget := mkPartial {
  pb_maxWallTimeMs : option Z;
  pb_maxModelCalls : option Z;
  pb_maxToolCalls : option Z;
  pb_maxInputTokens : option Z;
  pb_maxOutputTokens : option Z;
  pb_maxCacheMissTokens : option Z;
  pb_maxWrites : option Z;
  pb_maxExternalActions : option Z;
  pb_maxRepairCycles : option Z;
}.

(** src/src/harness/contracts/run.ts # AgentRunInput

    The tool selection is only read by the loop. *)
Record AgentRunInput := mkInput {
  in_prompt : string;
  in_maxRounds : option Z;
  in_budget : option PartialBudget;
  in_metadata : option (list (string * jsval));
}.

(** ** Interrupts *)

(** src/src/harness/contracts/interrupt.ts # InterruptKind *)
Inductive InterruptKind :=
| plan_approval | clarification | tool_approval | credential_required | conflict_resolution
| manual_verification.

(** src/src/harness/contracts/interrupt.ts # InterruptStatus *)
Inductive InterruptStatus := i_pending | i_answered | i_rejected | i_expired.

#[export] Instance interrupt_status_eq_dec : EqDecision InterruptStatus.
Proof. solve_decision. Defined.

Definition interrupt_status_text (s : InterruptStatus) : string :=
  match s with
  | i_pending => "pending" | i_answered => "answered" | i_rejected => "rejected" | i_expired => "expired"
  end.

(** src/src/harness/contracts/interrupt.ts # HarnessInterrupt *)
Record HarnessInterrupt := mkHarnessInterrupt {
  hi_interruptId : string;
  hi_runId : string;
  hi_kind : InterruptKind;
  hi_prompt : string;
  hi_responseSchema : JsonSchema;
  hi_checkpointId : string;
  hi_createdAt : Z;
  hi_status : InterruptStatus;
}.

(** src/src/harness/contracts/interrupt.ts # InterruptResponse *)
Record InterruptResponse := mkResponseTo {
  ir_interruptId : string;
  ir_payload : jsval;
  ir_accepted : bool;
}.

(** ** Outcomes *)

(** src/src/harness/contracts/outcome.ts # RunBlocker *)
Record RunBlocker := mkBlocker { bk_gate : string; bk_reason : string; bk_blockCount : Z }.

(** src/src/harness/contracts/outcome.ts # RunFailure *)
Record RunFailure := mkFailure { fl_kind : string; fl_message : string; fl_retryable : bool }.

(** src/src/harness/contracts/outcome.ts # RunOutcome *)
Inductive RunOutcome :=
| o_completed (reportArtifactId : string) (evidenceIds : list string)
| o_waiting (interruptId checkpointId : string)
| o_paused (checkpointId reason : string)
| o_blocked (blocker : RunBlocker)
| o_cancelled (reason : string)
| o_failed (failure : RunFailure)
| o_restart_required (files verificationEvidenceIds : list string).

(** The status an outcome belongs to (the kinds are spelt as the statuses). *)
Definition outcome_status (o : RunOutcome) : RunStatus :=
  match o with
  | o_completed _ _ => completed | o_waiting _ _ => waiting | o_paused _ _ => paused
  | o_blocked _ => blocked | o_cancelled _ => cancelled | o_failed _ => failed
  | o_restart_required _ _ => restart_required
  end.

(** ** Events *)

(** src/src/harness/contracts/capability.ts # SideEffect *)
Inductive SideEffect := se_none | se_read | se_write | se_external.

#[export] Instance side_effect_eq_dec : EqDecision SideEffect.
Proof. solve_decision. Defined.

(** src/src/harness/runtime/budget-guard.ts # UsagePayload *)
Record UsagePayload := mkUsagePayload {
  up_round : option Z;
  up_cacheSource : option string;
  up_inputTokens : option Z;
  up_outputTokens : option Z;
  up_cacheMissInputTokens : option Z;
}.

(** The extra fields of a lifecycle event. *)
Record LifecycleExtra := mkExtra { ex_checkpointId : option string; ex_reason : option string }.

(** src/src/harness/contracts/events.ts # HarnessEvent

    The payloads the runtime tells apart; the variants it only forwards carry
    their data as one value. *)
Inductive HarnessPayload :=
| P_status (status : RunStatus) (extra : option LifecycleExtra)
| P_usage (usage : UsagePayload)
| P_toolCall (id name : string) (input : jsval) (sideEffect : option SideEffect)
| P_interrupt (interrupt : HarnessInterrupt)
| P_other (data : jsval).

(** src/src/harness/contracts/events.ts # EventEnvelope *)
Record HarnessEvent := mkEvent {
  ev_sequence : Z;
  ev_runId : string;
  ev_sessionId : string;
  ev_type : string;
  ev_payload : HarnessPayload;
}.
