(* ===== verification/RunBudget.v ===== *)
(** The budget of a run: the ledger and its guard.

    Models [src/src/harness/runtime/budget-ledger.ts] and [budget-guard.ts].
    The ledger's [used] record is shared with the guard, which writes token
    counts into it; the abort controller the guard fires is part of its state:
    the reason of the first [abort], later ones change nothing. *)
From S2P Require Import Prelude Json Schema HarnessTypes Retry.
Open Scope string_scope.
Open Scope Z_scope.
Open Scope list_scope.

(** [Number.MAX_SAFE_INTEGER] *)
Definition MAX_SAFE_INTEGER : Z := 9007199254740991.

(** src/src/harness/runtime/budget-ledger.ts # defaultRunBudget *)
Definition defaultRunBudget : RunBudget :=
  mkBudget MAX_SAFE_INTEGER MAX_SAFE_INTEGER MAX_SAFE_INTEGER MAX_SAFE_INTEGER MAX_SAFE_INTEGER
    MAX_SAFE_INTEGER MAX_SAFE_INTEGER MAX_SAFE_INTEGER MAX_SAFE_INTEGER.

(** src/src/harness/runtime/budget-ledger.ts # mergeRunBudget *)
Definition mergeRunBudget (overrides : option PartialBudget) : RunBudget :=
  let base := defaultRunBudget in
  match overrides with
  | None => base
  | Some o =>
      mkBudget (nullish (pb_maxWallTimeMs o) (maxWallTimeMs base)) (nullish (pb_maxModelCalls o) (maxModelCalls base))
        (nullish (pb_maxToolCalls o) (maxToolCalls base)) (nullish (pb_maxInputTokens o) (maxInputTokens base))
        (nullish (pb_maxOutputTokens o) (maxOutputTokens base))
        (nullish (pb_maxCacheMissTokens o) (maxCacheMissTokens base))
        (nullish (pb_maxWrites o) (maxWrites base)) (nullish (pb_maxExternalActions o) (maxExternalActions base))
        (nullish (pb_maxRepairCycles o) (maxRepairCycles base))
  end.

(** src/src/harness/runtime/budget-ledger.ts # zeroUsage *)
Definition zeroUsage : BudgetUsage := mkUsage 0 0 0 0 0 0 0 0 0.

(** src/src/harness/runtime/budget-ledger.ts # kindReason *)
Definition kindReason (kind : BudgetKind) : BudgetExhaustionReason :=
  match kind with
  | model_call => model_call_budget
  | tool_call => tool_call_budget
  | write => write_budget
  | external_action => external_action_budget
  | repair => repair_budget
  end.

Definition reason_text (r : BudgetExhaustionReason) : string :=
  match r with
  | model_call_budget => "model_call_budget" | tool_call_budget => "tool_call_budget"
  | token_budget => "token_budget" | wall_time_budget => "wall_time_budget"
  | write_budget => "write_budget" | external_action_budget => "external_action_budget"
  | repair_budget => "repair_budget"
  end.

(** src/src/harness/runtime/budget-ledger.ts # usedKind *)
Definition usedKind (used : BudgetUsage) (kind : BudgetKind) : Z :=
  match kind with
  | model_call => modelCalls used
  | tool_call => toolCalls used
  | write => writes used
  | external_action => externalActions used
  | repair => repairCycles used
  end.

(** src/src/harness/runtime/budget-ledger.ts # maxKind *)
Definition maxKind (limits : RunBudget) (kind : BudgetKind) : Z :=
  match kind with
  | model_call => maxModelCalls limits
  | tool_call => maxToolCalls limits
  | write => maxWrites limits
  | external_action => maxExternalActions limits
  | repair => maxRepairCycles limits
  end.

(** ** The ledger *)

(** src/src/harness/runtime/budget-ledger.ts # createBudgetLedger @90-92 *)
Record BudgetLedger := mkLedger {
  bl_limits : RunBudget;
  bl_used : BudgetUsage;
  bl_reservations : list (string * BudgetKind);
}.

(** src/src/harness/runtime/budget-ledger.ts # createBudgetLedger @90-111 *)
Definition createBudgetLedger (limits : RunBudget) : BudgetLedger := mkLedger limits zeroUsage [].

Definition with_used (u : BudgetUsage) (l : BudgetLedger) : BudgetLedger :=
  mkLedger (bl_limits l) u (bl_reservations l).
Definition with_reservations (rs : list (string * BudgetKind)) (l : BudgetLedger) : BudgetLedger :=
  mkLedger (bl_limits l) (bl_used l) rs.

(** src/src/harness/runtime/budget-ledger.ts # createBudgetLedger @94-106 *)
Definition remaining (l : BudgetLedger) : BudgetUsage :=
  let m := bl_limits l in let u := bl_used l in
  mkUsage (Z.max 0 (maxWallTimeMs m - wallTimeMs u)) (Z.max 0 (maxModelCalls m - modelCalls u))
    (Z.max 0 (maxToolCalls m - toolCalls u)) (Z.max 0 (maxInputTokens m - inputTokens u))
    (Z.max 0 (maxOutputTokens m - outputTokens u)) (Z.max 0 (maxCacheMissTokens m - cacheMissTokens u))
    (Z.max 0 (maxWrites m - writes u)) (Z.max 0 (maxExternalActions m - externalActions u))
    (Z.max 0 (maxRepairCycles m - repairCycles u)).

Definition pending (l : BudgetLedger) (kind : BudgetKind) : Z :=
  Z.of_nat (count_where (fun k => k === kind) (jvalues (bl_reservations l))).

Definition exhausted_message (r : string) : string := "Budget exhausted: " +:+ r.

(** src/src/harness/runtime/budget-ledger.ts # createBudgetLedger @112-126 *)
Definition budget_reserve (id : string) (kind : BudgetKind) (l : BudgetLedger) : res HarnessError BudgetLedger :=
  if maxKind (bl_limits l) kind <=? usedKind (bl_used l) kind + pending l kind then
    Throw (mkError budget_exhausted (exhausted_message (reason_text (kindReason kind))))
  else Ok (with_reservations (jset id kind (bl_reservations l)) l).

(** Counting one unit of a kind. *)
Definition count_unit (kind : BudgetKind) (u : BudgetUsage) : BudgetUsage :=
  let one k := if kind === k then 1 else 0 in
  mkUsage (wallTimeMs u) (modelCalls u + one model_call) (toolCalls u + one tool_call) (inputTokens u)
    (outputTokens u) (cacheMissTokens u) (writes u + one write) (externalActions u + one external_action)
    (repairCycles u + one repair).
Definition add_actual (actual u : BudgetUsage) : BudgetUsage :=
  mkUsage (Z.max (wallTimeMs u) (wallTimeMs actual)) (modelCalls u) (toolCalls u)
    (inputTokens u + inputTokens actual) (outputTokens u + outputTokens actual)
    (cacheMissTokens u + cacheMissTokens actual) (writes u) (externalActions u) (repairCycles u).

(** src/src/harness/runtime/budget-ledger.ts # createBudgetLedger @128-157

    The usage is recorded before the limits are checked: the state changes also
    when the call throws. *)
Definition budget_commit (id : string) (actual : BudgetUsage) (l : BudgetLedger)
    : option HarnessError * BudgetLedger :=
  match jget id (bl_reservations l) with
  | None => (None, l)
  | Some kind =>
      let u := add_actual actual (count_unit kind (bl_used l)) in
      let m := bl_limits l in
      let exhausted r := Some (mkError budget_exhausted (exhausted_message r)) in
      ( if maxInputTokens m <? inputTokens u then exhausted "token_budget (input)"
        else if maxOutputTokens m <? outputTokens u then exhausted "token_budget (output)"
        else if maxCacheMissTokens m <? cacheMissTokens u then exhausted "token_budget (cache miss)"
        else if maxWallTimeMs m <? wallTimeMs u then exhausted "wall_time_budget"
        else None,
        mkLedger m u (jdelete id (bl_reservations l)) )
  end.

(** src/src/harness/runtime/budget-ledger.ts # createBudgetLedger @159-161 *)
Definition budget_release (id : string) (l : BudgetLedger) : BudgetLedger :=
  with_reservations (jdelete id (bl_reservations l)) l.

(** ** The guard *)

(** src/src/harness/runtime/budget-guard.ts # BudgetGuardOptions *)
Inductive ModelCallAuthority := by_event | by_source.

#[export] Instance authority_eq_dec : EqDecision ModelCallAuthority.
Proof. solve_decision. Defined.

(** src/src/harness/runtime/budget-guard.ts # BudgetGuard @44-63

    [bg_aborted] is the controller behind the [abort] callback. *)
Record BudgetGuard := mkGuard {
  bg_ledger : BudgetLedger;
  bg_seenRounds : list Z;
  bg_lastInputTokens : Z;
  bg_lastOutputTokens : Z;
  bg_lastCacheMissTokens : Z;
  bg_modelCallAuthority : ModelCallAuthority;
  bg_aborted : option string;
}.

Definition newBudgetGuard (ledger : BudgetLedger) (authority : option ModelCallAuthority) (controller : option string)
    : BudgetGuard :=
  mkGuard ledger [] 0 0 0 (nullish authority by_event) controller.

Definition guard_with_ledger (l : BudgetLedger) (g : BudgetGuard) : BudgetGuard :=
  mkGuard l (bg_seenRounds g) (bg_lastInputTokens g) (bg_lastOutputTokens g) (bg_lastCacheMissTokens g)
    (bg_modelCallAuthority g) (bg_aborted g).

(** [controller.abort(reason)]: only the first reason is kept. *)
Definition controller_abort (reason : string) (controller : option string) : option string :=
  Some (nullish controller reason).
Definition guard_abort (reason : string) (g : BudgetGuard) : BudgetGuard :=
  mkGuard (bg_ledger g) (bg_seenRounds g) (bg_lastInputTokens g) (bg_lastOutputTokens g)
    (bg_lastCacheMissTokens g) (bg_modelCallAuthority g) (controller_abort reason (bg_aborted g)).

(** src/src/harness/runtime/budget-guard.ts # budgetReasonFromMessage *)
Definition budgetReasonFromMessage (message : string) : BudgetExhaustionReason :=
  default model_call_budget
    (List.find (fun r => str_includes (reason_text r) message)
      [model_call_budget; tool_call_budget; token_budget; wall_time_budget; write_budget;
       external_action_budget; repair_budget]).

Section Guard.
(** [randomUUID()] for a reservation; nothing is assumed of it. *)
Context (newId : BudgetLedger -> string).

(** src/src/harness/runtime/budget-guard.ts # BudgetGuard.consume

    The ledger throws nothing but [budget_exhausted]. *)
Definition consume (kind : BudgetKind) (g : BudgetGuard) : bool * BudgetGuard :=
  let id := newId (bg_ledger g) in
  match budget_reserve id kind (bg_ledger g) with
  | Throw e => (false, guard_abort (reason_text (budgetReasonFromMessage (he_message e))) g)
  | Ok l =>
      match budget_commit id zeroUsage l with
      | (None, l) => (true, guard_with_ledger l g)
      | (Some e, l) =>
          (false, guard_abort (reason_text (budgetReasonFromMessage (he_message e))) (guard_with_ledger l g))
      end
  end.

(** src/src/harness/runtime/budget-guard.ts # BudgetGuard.tryConsumeModelCall *)
Definition tryConsumeModelCall (g : BudgetGuard) : bool * BudgetGuard :=
  if negb (bg_modelCallAuthority g === by_source) then (true, g) else consume model_call g.

(** src/src/harness/runtime/budget-guard.ts # BudgetGuard.observeTokens @123-134 *)
Definition add_snapshot (usage : UsagePayload) (g : BudgetGuard) : BudgetGuard :=
  let u := bl_used (bg_ledger g) in
  let input := nullish (up_inputTokens usage) 0 in
  let output := nullish (up_outputTokens usage) 0 in
  let cacheMiss := nullish (up_cacheMissInputTokens usage) 0 in
  let u := mkUsage (wallTimeMs u) (modelCalls u) (toolCalls u)
    (inputTokens u + Z.max 0 (input - bg_lastInputTokens g))
    (outputTokens u + Z.max 0 (output - bg_lastOutputTokens g))
    (cacheMissTokens u + Z.max 0 (cacheMiss - bg_lastCacheMissTokens g))
    (writes u) (externalActions u) (repairCycles u) in
  mkGuard (with_used u (bg_ledger g)) (bg_seenRounds g) (Z.max (bg_lastInputTokens g) input)
    (Z.max (bg_lastOutputTokens g) output) (Z.max (bg_lastCacheMissTokens g) cacheMiss)
    (bg_modelCallAuthority g) (bg_aborted g).

(** src/src/harness/runtime/budget-guard.ts # BudgetGuard.observeTokens *)
Definition observeTokens (usage : UsagePayload) (g : BudgetGuard) : bool * BudgetGuard :=
  if negb (up_cacheSource usage === Some "provider"%string) then (true, g) else
  let g := add_snapshot usage g in
  let u := bl_used (bg_ledger g) in
  let m := bl_limits (bg_ledger g) in
  if (maxInputTokens m <? inputTokens u) || (maxOutputTokens m <? outputTokens u)
     || (maxCacheMissTokens m <? cacheMissTokens u)
  then (false, guard_abort "token_budget" g)
  else (true, g).

(** src/src/harness/runtime/budget-guard.ts # BudgetGuard.observeUsage *)
Definition observeUsage (usage : UsagePayload) (g : BudgetGuard) : bool * BudgetGuard :=
  if bg_modelCallAuthority g === by_source then observeTokens usage g else
  match up_round usage with
  | None => observeTokens usage g
  | Some round =>
      if includes (bg_seenRounds g) round then observeTokens usage g
      else
        let g := mkGuard (bg_ledger g) (set_add round (bg_seenRounds g)) (bg_lastInputTokens g)
          (bg_lastOutputTokens g) (bg_lastCacheMissTokens g) (bg_modelCallAuthority g) (bg_aborted g) in
        match consume model_call g with
        | (false, g) => (false, g)
        | (true, g) => observeTokens usage g
        end
  end.

(** src/src/harness/runtime/budget-guard.ts # BudgetGuard.observe *)
Definition observe (payload : HarnessPayload) (g : BudgetGuard) : bool * BudgetGuard :=
  match payload with
  | P_usage usage => observeUsage usage g
  | P_toolCall _ _ _ sideEffect =>
      match consume tool_call g with
      | (false, g) => (false, g)
      | (true, g) =>
          if sideEffect === Some se_write then consume write g
          else if sideEffect === Some se_external then consume external_action g
          else (true, g)
      end
  | _ => (true, g)
  end.

(** ** Units

    Reservations and units of a kind never pass its limit (or what was already
    used when the ledger was made). *)

Lemma count_jset_le (p : BudgetKind -> bool) (id : string) k rs :
  (count_where p (jvalues (jset id k rs)) <= count_where p (jvalues rs) + if p k then 1 else 0)%nat.
Proof.
  unfold jvalues. induction rs as [|[i k'] rs IH]; cbn [jset].
  - rewrite !fmap_cons, count_where_cons. cbn. destruct (p k); lia.
  - destruct (i === id); rewrite !fmap_cons, !count_where_cons; cbn [snd].
    + destruct (p k), (p k'); lia.
    + lia.
Qed.
Lemma count_jdelete (p : BudgetKind -> bool) (id : string) k rs : jget id rs = Some k ->
  count_where p (jvalues rs) = (count_where p (jvalues (jdelete id rs)) + if p k then 1 else 0)%nat.
Proof.
  unfold jvalues. induction rs as [|[i k'] rs IH]; cbn [jget jdelete]; [done|].
  destruct (i === id); rewrite !fmap_cons, !count_where_cons; cbn [snd].
  - intros [= ->]. destruct (p k); lia.
  - intros ->%IH. lia.
Qed.
Lemma count_jdelete_le (p : BudgetKind -> bool) (id : string) rs :
  (count_where p (jvalues (jdelete id rs)) <= count_where p (jvalues rs))%nat.
Proof.
  unfold jvalues. induction rs as [|[i k'] rs IH]; cbn [jdelete]; [done|].
  destruct (i === id); rewrite !fmap_cons, !count_where_cons; cbn [snd]; lia.
Qed.

Definition one_if (b : bool) : Z := if b then 1 else 0.

Lemma usedKind_count kind u k : usedKind (count_unit kind u) k = usedKind u k + one_if (kind === k).
Proof. by destruct kind, k. Qed.
Lemma usedKind_actual a u k : usedKind (add_actual a u) k = usedKind u k.
Proof. by destruct k. Qed.

(** What a ledger holds of a kind: used and reserved. *)
Definition held (l : BudgetLedger) (k : BudgetKind) : Z := usedKind (bl_used l) k + pending l k.

Lemma reserve_held id kind l l' k : budget_reserve id kind l = Ok l' ->
  bl_limits l' = bl_limits l /\ bl_used l' = bl_used l /\
  held l' k <= held l k + one_if (kind === k) /\ held l kind < maxKind (bl_limits l) kind.
Proof.
  unfold budget_reserve. case_match eqn:E; [done|]. intros [= <-]. reflect.
  split_and!; [done..| |exact E]. unfold held, pending. cbn [bl_used bl_reservations with_reservations].
  pose proof (count_jset_le (fun k' => k' === k) id kind (bl_reservations l)) as H. cbn beta in H.
  unfold one_if. destruct (kind === k); lia.
Qed.
Lemma commit_held id actual l e l' k : budget_commit id actual l = (e, l') ->
  bl_limits l' = bl_limits l /\ held l' k = held l k.
Proof.
  unfold budget_commit. destruct (jget id (bl_reservations l)) as [kind|] eqn:E; [|by intros [= _ <-]].
  intros [= _ <-]. split; [done|]. unfold held, pending. cbn [bl_used bl_reservations].
  rewrite usedKind_actual, usedKind_count, (count_jdelete _ _ _ _ E). unfold one_if.
  destruct (kind === k); lia.
Qed.
Lemma release_held id l k : held (budget_release id l) k <= held l k.
Proof.
  unfold held, pending, budget_release. cbn [bl_used bl_reservations with_reservations].
  pose proof (count_jdelete_le (fun k' => k' === k) id (bl_reservations l)). lia.
Qed.

(** A ledger within its limits, but for what [u0] had used already. *)
Definition within (u0 : BudgetUsage) (limits : RunBudget) (l : BudgetLedger) : Prop :=
  bl_limits l = limits /\ forall k, held l k <= Z.max (usedKind u0 k) (maxKind limits k).

Lemma reserve_within u0 m id kind l l' : budget_reserve id kind l = Ok l' -> within u0 m l -> within u0 m l'.
Proof.
  intros H [Hm Hh]. split; [by destruct (reserve_held _ _ _ _ kind H) as [-> _]|].
  intros k. destruct (reserve_held _ _ _ _ k H) as (_ & _ & Hk & Hlt). specialize (Hh k).
  rewrite Hm in Hlt. unfold one_if in Hk. destruct (kind === k) eqn:E; reflect; subst; lia.
Qed.
Lemma commit_within u0 m id a l e l' : budget_commit id a l = (e, l') -> within u0 m l -> within u0 m l'.
Proof.
  intros H [Hm Hh]. split; [by destruct (commit_held _ _ _ _ _ model_call H) as [-> _]|].
  intros k. destruct (commit_held _ _ _ _ _ k H) as [_ ->]. done.
Qed.
Lemma release_within u0 m id l : within u0 m l -> within u0 m (budget_release id l).
Proof. intros [Hm Hh]. split; [done|]. intros k. pose proof (release_held id l k). specialize (Hh k). lia. Qed.

(** What [consume] does: refused when the kind is exhausted, otherwise the unit
    is counted, and the verdict says whether the tokens are still within. *)
Definition counted (kind : BudgetKind) (l : BudgetLedger) : BudgetLedger :=
  mkLedger (bl_limits l) (add_actual zeroUsage (count_unit kind (bl_used l)))
    (jdelete (newId l) (jset (newId l) kind (bl_reservations l))).

Lemma reason_of_kind kind :
  budgetReasonFromMessage (exhausted_message (reason_text (kindReason kind))) = kindReason kind.
Proof. by destruct kind. Qed.

Lemma consume_cases kind g :
  (maxKind (bl_limits (bg_ledger g)) kind <= held (bg_ledger g) kind /\
   consume kind g = (false, guard_abort (reason_text (kindReason kind)) g)) \/
  (held (bg_ledger g) kind < maxKind (bl_limits (bg_ledger g)) kind /\
   (consume kind g = (true, guard_with_ledger (counted kind (bg_ledger g)) g) \/
    exists r, (r = token_budget \/ r = wall_time_budget) /\
      consume kind g = (false, guard_abort (reason_text r) (guard_with_ledger (counted kind (bg_ledger g)) g)))).
Proof.
  unfold consume, budget_reserve. fold (held (bg_ledger g) kind).
  destruct (_ <=? held (bg_ledger g) kind) eqn:E; reflect.
  - left. split; [done|]. cbn [he_message]. by rewrite reason_of_kind.
  - right. split; [done|]. unfold budget_commit. cbn [bl_reservations with_reservations bl_used bl_limits].
    rewrite jget_jset_eq. fold (counted kind (bg_ledger g)).
    repeat case_match; simplify_eq; try (by left); right;
      eexists; (split; [|cbn [he_message]; reflexivity]); vm_compute; auto.
Qed.

Lemma counted_held kind l k : held (counted kind l) k = held (with_reservations (jset (newId l) kind (bl_reservations l)) l) k.
Proof.
  unfold held, pending, counted. cbn [bl_used bl_reservations with_reservations].
  rewrite usedKind_actual, usedKind_count, (count_jdelete _ (newId l) kind (jset _ _ _) (jget_jset_eq _ _ _)).
  unfold one_if. destruct (kind === k); lia.
Qed.
Lemma counted_within u0 m kind l :
  held l kind < maxKind (bl_limits l) kind -> within u0 m l -> within u0 m (counted kind l).
Proof.
  intros Hlt Hw. destruct (reserve_within u0 m (newId l) kind l
    (with_reservations (jset (newId l) kind (bl_reservations l)) l)) as [Hm Hh]; [|done|].
  - unfold budget_reserve. fold (held l kind). by rewrite (proj2 (Z.leb_gt _ _) Hlt).
  - split; [done|]. intros k. rewrite counted_held. apply Hh.
Qed.
End Guard.
