(* ===== verification/Metering.v ===== *)
(** Metering a run: the guard behind the retry coordinator.

    In [src/src/harness/runtime/run-controller.ts] the coordinator of
    [Retry] asks the guard of [RunBudget] before every provider request, and
    the guard watches the events of the run.  This file composes the two: the
    guard is the coordinator's external budget, and every interleaving of
    provider attempts, retries, events and aborts is metered. *)
From S2P Require Import Prelude Json Schema HarnessTypes Retry RunBudget.
Open Scope string_scope.
Open Scope Z_scope.
Open Scope list_scope.

(** ** Token accounting

    Usage events carry totals of the whole run; the reference is the largest
    total seen. *)
Definition provider_usage (p : HarnessPayload) : option UsagePayload :=
  match p with
  | P_usage u => if up_cacheSource u === Some "provider"%string then Some u else None
  | _ => None
  end.
Definition snapshot_max (proj : UsagePayload -> option Z) (ps : list HarnessPayload) : Z :=
  fold_left (fun m u => Z.max m (nullish (proj u) 0)) (omap provider_usage ps) 0.

Lemma snapshot_max_snoc proj ps p :
  snapshot_max proj (ps ++ [p]) =
  match provider_usage p with
  | Some u => Z.max (snapshot_max proj ps) (nullish (proj u) 0)
  | None => snapshot_max proj ps
  end.
Proof.
  unfold snapshot_max. rewrite omap_app, fold_left_app. cbn [omap list_omap].
  by destruct (provider_usage p).
Qed.

(** The three token counters, with the guard's last snapshots. *)
Record meter := mkMeter { mt_used : Z; mt_last : Z }.
Definition input_meter (g : BudgetGuard) : meter :=
  mkMeter (inputTokens (bl_used (bg_ledger g))) (bg_lastInputTokens g).
Definition output_meter (g : BudgetGuard) : meter :=
  mkMeter (outputTokens (bl_used (bg_ledger g))) (bg_lastOutputTokens g).
Definition miss_meter (g : BudgetGuard) : meter :=
  mkMeter (cacheMissTokens (bl_used (bg_ledger g))) (bg_lastCacheMissTokens g).

(** A counter reads its start plus the largest snapshot. *)
Definition reads (m : meter) (start largest : Z) : Prop := mt_used m = start + largest /\ mt_last m = largest.

Definition tokens_read (u0 : BudgetUsage) (ps : list HarnessPayload) (g : BudgetGuard) : Prop :=
  reads (input_meter g) (inputTokens u0) (snapshot_max up_inputTokens ps) /\
  reads (output_meter g) (outputTokens u0) (snapshot_max up_outputTokens ps) /\
  reads (miss_meter g) (cacheMissTokens u0) (snapshot_max up_cacheMissInputTokens ps).

Definition within_tokens (m : RunBudget) (u : BudgetUsage) : bool :=
  (inputTokens u <=? maxInputTokens m) && (outputTokens u <=? maxOutputTokens m)
  && (cacheMissTokens u <=? maxCacheMissTokens m).

(** What [observeTokens] leaves alone. *)
Definition same_units (g g' : BudgetGuard) : Prop :=
  bl_limits (bg_ledger g') = bl_limits (bg_ledger g) /\
  bl_reservations (bg_ledger g') = bl_reservations (bg_ledger g) /\
  (forall k, usedKind (bl_used (bg_ledger g')) k = usedKind (bl_used (bg_ledger g)) k) /\
  bg_modelCallAuthority g' = bg_modelCallAuthority g.

Lemma observeTokens_reads u0 ps u g ok g' :
  observeTokens u g = (ok, g') -> tokens_read u0 ps g ->
  tokens_read u0 (ps ++ [P_usage u]) g' /\ same_units g g' /\
  (up_cacheSource u = Some "provider"%string ->
     ok = within_tokens (bl_limits (bg_ledger g)) (bl_used (bg_ledger g'))) /\
  bg_aborted g' = if ok then bg_aborted g else controller_abort "token_budget" (bg_aborted g).
Proof.
  unfold observeTokens, tokens_read, reads. rewrite !snapshot_max_snoc. unfold provider_usage.
  destruct (up_cacheSource u === Some "provider"%string) eqn:E; cbn [negb].
  - intros Hobs ((Hi1 & Hi2) & (Ho1 & Ho2) & (Hm1 & Hm2)).
    assert (ok = within_tokens (bl_limits (bg_ledger g)) (bl_used (bg_ledger (add_snapshot u g))) /\
      g' = if ok then add_snapshot u g else guard_abort "token_budget" (add_snapshot u g)) as [Hok ->].
    { unfold within_tokens. rewrite <- (negb_involutive (_ && _)), !negb_andb, <- !Z.ltb_antisym.
      cbn [bl_limits with_used bg_ledger add_snapshot] in Hobs |- *. by case_match; simplify_eq. }
    clear Hobs. cbn [mt_used mt_last input_meter output_meter miss_meter] in *.
    split_and!; try (destruct ok; cbn; lia).
    + destruct ok; (split_and!; [done..| |done]); intros k; by destruct k.
    + intros _. rewrite Hok at 1. by destruct ok.
    + by destruct ok.
  - intros [= <- <-] H. split_and!; try apply H; try done. reflect. by intros.
Qed.

(** ** Units *)

Definition charges (k : BudgetKind) (p : HarnessPayload) : bool :=
  match k, p with
  | tool_call, P_toolCall _ _ _ _ => true
  | write, P_toolCall _ _ _ se => se === Some se_write
  | external_action, P_toolCall _ _ _ se => se === Some se_external
  | _, _ => false
  end.
(** The units of a kind that [n] provider requests and the events stand for. *)
Definition charged (k : BudgetKind) (n : nat) (ps : list HarnessPayload) : Z :=
  match k with
  | model_call => Z.of_nat n
  | _ => Z.of_nat (count_where (charges k) ps)
  end.

Lemma charged_snoc k n ps p : charged k n (ps ++ [p]) = charged k n ps + one_if (charges k p).
Proof.
  destruct k; unfold charged; [by rewrite Z.add_0_r|..]; rewrite count_where_app, count_where_cons, Nat2Z.inj_add;
    f_equal; change (count_where _ []) with 0%nat; unfold one_if; by case_match.
Qed.

Section Metering.
Context (newId : BudgetLedger -> string).
Abbreviation Coord := (RetryCoordinator (X := BudgetGuard)).

(** What consuming one unit does to a guard. *)
Definition consumed (kind : BudgetKind) (ok : bool) (g g' : BudgetGuard) : Prop :=
  (forall u0 m, within u0 m (bg_ledger g) -> within u0 m (bg_ledger g')) /\
  (forall u0 ps, tokens_read u0 ps g -> tokens_read u0 ps g') /\
  bg_modelCallAuthority g' = bg_modelCallAuthority g /\
  (bl_reservations (bg_ledger g) = [] -> bl_reservations (bg_ledger g') = []) /\
  (forall k, usedKind (bl_used (bg_ledger g)) k <= usedKind (bl_used (bg_ledger g')) k) /\
  (ok = true -> bg_aborted g' = bg_aborted g /\
     forall k, usedKind (bl_used (bg_ledger g')) k = usedKind (bl_used (bg_ledger g)) k + one_if (kind === k)) /\
  (ok = false -> bg_aborted g' <> None).

Lemma consume_consumed kind g ok g' : consume newId kind g = (ok, g') -> consumed kind ok g g'.
Proof.
  assert (forall u0 ps, tokens_read u0 ps g ->
    tokens_read u0 ps (guard_with_ledger (counted newId kind (bg_ledger g)) g)) as Htok.
  { intros u0 ps. unfold tokens_read, reads. cbn. rewrite !Z.add_0_r. done. }
  assert (forall k, usedKind (bl_used (counted newId kind (bg_ledger g))) k =
    usedKind (bl_used (bg_ledger g)) k + one_if (kind === k)) as Hk.
  { intros k. cbn [counted bl_used]. by rewrite usedKind_actual, usedKind_count. }
  assert (forall k, 0 <= one_if (kind === k)) as Hone by (intros k; unfold one_if; case_match; lia).
  destruct (consume_cases newId kind g) as [[_ ->]|[Hlt [->|(r & _ & ->)]]]; intros [= <- <-];
    split_and!; try done; try (by intros; apply counted_within);
    try (by cbn; intros ->; cbn; rewrite same_refl);
    intros k; cbn [bg_ledger guard_with_ledger guard_abort]; rewrite ?Hk; specialize (Hone k); lia.
Qed.

(** The guard of a metered run: the kinds' limits, the tokens read, and, unless
    it has aborted the run, the exact units; [extra] is what the event being
    observed has been charged so far. *)
Definition metered_with (u0 : BudgetUsage) (m : RunBudget) (n : nat) (ps : list HarnessPayload)
    (extra : BudgetKind -> Z) (g : BudgetGuard) : Prop :=
  bg_modelCallAuthority g = by_source /\
  (within u0 m (bg_ledger g) /\ bl_reservations (bg_ledger g) = []) /\ tokens_read u0 ps g /\
  modelCalls u0 + Z.of_nat n <= modelCalls (bl_used (bg_ledger g)) /\
  (bg_aborted g = None ->
     forall k, usedKind (bl_used (bg_ledger g)) k = usedKind u0 k + charged k n ps + extra k).
Definition metered_guard u0 m n ps g : Prop := metered_with u0 m n ps (fun _ => 0) g.

Lemma metered_ext u0 m n ps e e' g : (forall k, e k = e' k) -> metered_with u0 m n ps e g -> metered_with u0 m n ps e' g.
Proof. intros He (H1 & [H2 H2'] & H3 & H4 & H5). split_and!; try done. intros Hn k. by rewrite <- He, H5. Qed.
Lemma guard_abort_metered u0 m n ps e r g : metered_with u0 m n ps e g -> metered_with u0 m n ps e (guard_abort r g).
Proof. intros (H1 & [H2 H2'] & H3 & H4 & _). by split_and!. Qed.
Lemma consume_metered u0 m n ps e kind ok g g' : consume newId kind g = (ok, g') ->
  metered_with u0 m n ps e g -> metered_with u0 m n ps (fun k => e k + one_if (kind === k)) g'.
Proof.
  intros Hc%consume_consumed (H1 & [H2 H2'] & H3 & H4 & H5). destruct Hc as (Hw & Ht & Ha & Hr & Hmono & Hok & Hno).
  split_and!; [congruence|auto|auto|auto| |].
  - specialize (Hmono model_call). cbn [usedKind] in Hmono. lia.
  - destruct ok; [|by intros ?%(Hno eq_refl)]. destruct (Hok eq_refl) as [-> Hk]. intros Hn k.
    rewrite Hk, (H5 Hn k). lia.
Qed.

(** The guard lets no event fall without aborting the run. *)
Lemma observe_refused p g g' : observe newId p g = (false, g') -> bg_aborted g' <> None.
Proof.
  assert (forall kind g g', consume newId kind g = (false, g') -> bg_aborted g' <> None) as Hc.
  { intros kind g1 g1' (_ & _ & _ & _ & _ & _ & H)%consume_consumed. auto. }
  assert (forall u g g', observeTokens u g = (false, g') -> bg_aborted g' <> None) as Ht.
  { intros u g1 g1'. unfold observeTokens. repeat case_match; try done. by intros [= <-]. }
  destruct p as [st ex|u|id nm inp se|it|d]; cbn [observe]; try done.
  - unfold observeUsage. repeat case_match; intros; simplify_eq; eauto.
  - repeat case_match; intros; simplify_eq; eauto.
Qed.

(** A provider request asked of the guard. *)
Lemma tryConsume_metered u0 m n ps g ok g' :
  tryConsumeModelCall newId g = (ok, g') -> metered_guard u0 m n ps g ->
  metered_guard u0 m (if ok then S n else n) ps g' /\ (ok = false -> bg_aborted g' <> None).
Proof.
  intros Htry Hg. unfold tryConsumeModelCall in Htry. rewrite (proj1 Hg), same_refl in Htry. cbn [negb] in Htry.
  pose proof (consume_metered _ _ _ _ _ _ _ _ _ Htry Hg) as (H1 & [H2 H2'] & H3 & H4 & H5).
  destruct (consume_consumed _ _ _ _ Htry) as (_ & _ & _ & _ & _ & Hok & Hno). split; [|done].
  assert (forall k, one_if (model_call === k) = match k with model_call => 1 | _ => 0 end) as Hone by (by intros []).
  destruct ok.
  - destruct (Hok eq_refl) as [_ Hk]. split_and!; try done.
    + destruct Hg as (_ & _ & _ & Hlo & _). specialize (Hk model_call). rewrite Hone in Hk. cbn [usedKind] in Hk. lia.
    + intros Hn k. rewrite (H5 Hn k), Hone. unfold charged. destruct k; lia.
  - split_and!; try done. by intros ?%(Hno eq_refl).
Qed.

(** An observed event. *)
Lemma metered_event u0 m n ps p g : provider_usage p = None ->
  metered_with u0 m n ps (fun k => one_if (charges k p)) g -> metered_guard u0 m n (ps ++ [p]) g.
Proof.
  intros Hp (H1 & [H2 H2'] & H3 & H4 & H5). split_and!; try done.
  - unfold tokens_read. by rewrite !snapshot_max_snoc, Hp.
  - intros Hn k. rewrite charged_snoc, (H5 Hn k). lia.
Qed.
Lemma metered_free u0 m n ps p g : provider_usage p = None -> (forall k, charges k p = false) ->
  metered_guard u0 m n ps g -> metered_guard u0 m n (ps ++ [p]) g.
Proof. intros Hp Hc Hg. apply metered_event; [done|]. eapply metered_ext; [|exact Hg]. intros k. by rewrite Hc. Qed.

Lemma observeUsage_metered u0 m n ps u g ok g' :
  observeUsage newId u g = (ok, g') -> metered_guard u0 m n ps g -> metered_guard u0 m n (ps ++ [P_usage u]) g'.
Proof.
  intros Hobs (H1 & [H2 H2'] & H3 & H4 & H5). unfold observeUsage in Hobs. rewrite H1, same_refl in Hobs.
  destruct (observeTokens_reads u0 ps u g ok g' Hobs H3) as (Ht & (Hl & Hr & Hk & Ha) & _ & Hab).
  split_and!; [congruence| |congruence|done| |].
  - destruct H2 as [Hm Hh]. split; [congruence|]. intros k. specialize (Hh k).
    unfold held, pending in *. by rewrite Hr, Hk.
  - specialize (Hk model_call). cbn [usedKind] in Hk. lia.
  - rewrite Hab. intros Hn k. rewrite charged_snoc, Hk. destruct ok; [|done].
    rewrite (H5 Hn k). unfold one_if. destruct k; cbn [charges]; lia.
Qed.

Lemma observe_metered u0 m n ps p g ok g' :
  observe newId p g = (ok, g') -> metered_guard u0 m n ps g -> metered_guard u0 m n (ps ++ [p]) g'.
Proof.
  intros Hobs Hg. destruct p as [st ex|u|id nm inp se|it|d]; cbn [observe] in Hobs.
  1, 4, 5: injection Hobs as <- <-; apply metered_free; try done; by intros [].
  - by eapply observeUsage_metered.
  - apply metered_event; [done|]. destruct (consume newId tool_call g) as [ok1 g1] eqn:E1.
    pose proof (consume_metered _ _ _ _ _ _ _ _ _ E1 Hg) as Hg1. destruct ok1.
    + destruct se as [[]|];
        repeat match type of Hobs with context [if ?b then _ else _] =>
          let v := eval vm_compute in b in change b with v in Hobs; cbn iota in Hobs end;
        [injection Hobs as <- <-|injection Hobs as <- <-
        |pose proof (consume_metered _ _ _ _ _ _ _ _ _ Hobs Hg1) as Hg2; clear Hg1
        |pose proof (consume_metered _ _ _ _ _ _ _ _ _ Hobs Hg1) as Hg2; clear Hg1|injection Hobs as <- <-];
        (eapply metered_ext; [|eassumption]); intros []; reflexivity.
    + injection Hobs as <- <-. destruct Hg1 as (H1 & [H2 H2'] & H3 & H4 & _). split_and!; try done.
      destruct (consume_consumed _ _ _ _ E1) as (_ & _ & _ & _ & _ & _ & Hno). by intros ?%(Hno eq_refl).
Qed.

(** ** Runs *)

(** src/src/harness/runtime/run-controller.ts # runControlledRun @55-59 *)
Definition provider_attempt (i : RetryAuthorizationInput) (c : Coord) : RetryPermit * Coord :=
  authorizeProviderAttempt (tryConsumeModelCall newId) (guard_abort "model_call_budget") i c.

(** Everything that happens to the coordinator and its guard while the loop
    runs: the number of provider requests allowed and the events observed. *)
Inductive metered_run (c0 : Coord) : Coord -> nat -> list HarnessPayload -> Prop :=
| mr_start : metered_run c0 c0 0 []
| mr_attempt c n ps i : metered_run c0 c n ps ->
    metered_run c0 (provider_attempt i c).2
      (match (provider_attempt i c).1 with Allow => S n | Deny _ => n end) ps
| mr_retry c n ps cls f crossed : metered_run c0 c n ps -> metered_run c0 (authorizeRetry cls f crossed c).2 n ps
| mr_observe c n ps p g : metered_run c0 c n ps -> co_external c = Some g ->
    metered_run c0 (with_external (Some (observe newId p g).2) c) n (ps ++ [p])
| mr_abort c n ps r g : metered_run c0 c n ps -> co_external c = Some g ->
    metered_run c0 (with_external (Some (guard_abort r g)) c) n ps.

Definition metered_coord (u0 : BudgetUsage) (m : RunBudget) (start n : nat) (ps : list HarnessPayload) (c : Coord) : Prop :=
  co_physicalCount c = (start + n)%nat /\ exists g, co_external c = Some g /\ metered_guard u0 m n ps g.

Lemma provider_attempt_metered u0 m start n ps i c : metered_coord u0 m start n ps c ->
  metered_coord u0 m start (match (provider_attempt i c).1 with Allow => S n | Deny _ => n end) ps
    (provider_attempt i c).2.
Proof.
  intros (Hc & g & Hg & Hm).
  pose proof (authorize_provider_exact (tryConsumeModelCall newId) (guard_abort "model_call_budget") i c) as Ha.
  fold (provider_attempt i c) in Ha. destruct (provider_attempt i c) as [permit c'] eqn:E. cbn [fst snd].
  rewrite Hg in Ha. cbn zeta in Ha. destruct Ha as [Hiff Ha].
  destruct (tryConsumeModelCall newId g) as [ok g'] eqn:Et.
  destruct (tryConsume_metered _ _ _ _ _ _ _ Et Hm) as [Hm' _]. cbn [fst snd] in *. destruct permit.
  - destruct (proj1 Hiff eq_refl) as (_ & _ & _ & ->). unfold accounts in Ha. injection Ha as _ _ He Hp.
    split; [lia|]. by exists g'.
  - destruct Ha as (_ & Hp & _ & He). split; [lia|]. destruct He as [He|[_ He]]; [by exists g; rewrite He|].
    destruct (_ <=? _); [|by destruct He as [-> He]; exists g'].
    exists (guard_abort "model_call_budget" g). split; [done|]. by apply guard_abort_metered.
Qed.
Lemma authorizeRetry_external cls f crossed (c : Coord) :
  co_external (authorizeRetry cls f crossed c).2 = co_external c /\
  co_physicalCount (authorizeRetry cls f crossed c).2 = co_physicalCount c.
Proof. unfold authorizeRetry. by repeat case_match. Qed.

Lemma metered_run_inv c0 u0 m c n ps : metered_coord u0 m (co_physicalCount c0) 0 [] c0 ->
  metered_run c0 c n ps -> metered_coord u0 m (co_physicalCount c0) n ps c.
Proof.
  intros H0. induction 1 as [|c n ps i _ IH|c n ps cls f crossed _ IH|c n ps p g _ IH Hg|c n ps r g _ IH Hg];
    [done|by apply provider_attempt_metered| | |].
  - destruct IH as (Hc & g & Hg & Hm). destruct (authorizeRetry_external cls f crossed c) as [He Hp].
    split; [congruence|]. exists g. by rewrite He.
  - destruct IH as (Hc & g' & Hg' & Hm). rewrite Hg in Hg'. injection Hg' as <-. split; [done|].
    destruct (observe newId p g) as [ok g'] eqn:E. exists g'. split; [done|]. by eapply observe_metered.
  - destruct IH as (Hc & g' & Hg' & Hm). rewrite Hg in Hg'. injection Hg' as <-. split; [done|].
    eexists. split; [done|]. by apply guard_abort_metered.
Qed.

Lemma metered_guard_start l controller : bl_reservations l = [] ->
  metered_guard (bl_used l) (bl_limits l) 0 [] (newBudgetGuard l (Some by_source) controller).
Proof.
  intros Hr. split_and!; try done; [|by split_and!; split; cbn; lia..|cbn; lia|].
  - split; [done|]. intros k. unfold held, pending. cbn [bg_ledger newBudgetGuard]. rewrite Hr. cbn. lia.
  - intros _ k. unfold charged. destruct k; cbn; lia.
Qed.
Lemma held_used l k : usedKind (bl_used l) k <= held l k.
Proof. unfold held, pending. lia. Qed.

(** A metered run: whatever sequence of provider attempts, retries, events and
    aborts a run goes through, no kind of work is used beyond its limit (or what
    an earlier part of the run had used); the provider requests allowed are never
    more than the model calls counted; as long as the run is not aborted every
    counter reads exactly the allowed requests, the tool calls, the writes and the
    external actions observed; and the token counters always read what they
    started from plus the largest cumulative snapshot. *)
Theorem run_metering c0 l0 controller c n ps :
  co_external c0 = Some (newBudgetGuard l0 (Some by_source) controller) -> bl_reservations l0 = [] ->
  metered_run c0 c n ps ->
  exists g, co_external c = Some g /\
    let used := bl_used (bg_ledger g) in let u0 := bl_used l0 in
    co_physicalCount c = (co_physicalCount c0 + n)%nat /\
    modelCalls u0 + Z.of_nat n <= modelCalls used /\
    (forall k, usedKind used k <= Z.max (usedKind u0 k) (maxKind (bl_limits l0) k)) /\
    (bg_aborted g = None -> forall k, usedKind used k = usedKind u0 k + charged k n ps) /\
    inputTokens used = inputTokens u0 + snapshot_max up_inputTokens ps /\
    outputTokens used = outputTokens u0 + snapshot_max up_outputTokens ps /\
    cacheMissTokens used = cacheMissTokens u0 + snapshot_max up_cacheMissInputTokens ps.
Proof.
  intros Hc0 Hr Hrun. apply (metered_run_inv _ (bl_used l0) (bl_limits l0)) in Hrun.
  - destruct Hrun as (Hp & g & Hg & H1 & [[Hm Hh] _] & (Hi & Ho & Hx) & H4 & H5). exists g. split; [done|]. cbn zeta.
    split_and!; [done..| | |apply Hi|apply Ho|apply Hx].
    + intros k. etrans; [apply held_used|apply Hh].
    + intros Hn k. rewrite (H5 Hn k). lia.
  - split; [by rewrite Nat.add_0_r|]. eexists. split; [exact Hc0|]. by apply metered_guard_start.
Qed.

(** Token verdicts: a provider's usage event is let through if and only if the
    three totals (what the run started from plus the largest cumulative snapshot,
    this one included) are within the limits of the budget; otherwise the run is
    aborted, with the reason token_budget unless it was aborted before. *)
Theorem token_verdict_exact u0 m n ps u g :
  metered_guard u0 m n ps g -> up_cacheSource u = Some "provider"%string ->
  let ps' := ps ++ [P_usage u] in
  let fits := (inputTokens u0 + snapshot_max up_inputTokens ps' <=? maxInputTokens m)
    && (outputTokens u0 + snapshot_max up_outputTokens ps' <=? maxOutputTokens m)
    && (cacheMissTokens u0 + snapshot_max up_cacheMissInputTokens ps' <=? maxCacheMissTokens m) in
  (observe newId (P_usage u) g).1 = fits /\
  bg_aborted (observe newId (P_usage u) g).2 =
    if fits then bg_aborted g else controller_abort "token_budget" (bg_aborted g).
Proof.
  intros (Ha & [[Hm _] _] & Ht & _) Hu. cbn zeta. cbn [observe]. unfold observeUsage. rewrite Ha, same_refl.
  destruct (observeTokens u g) as [ok g'] eqn:E. cbn [fst snd].
  destruct (observeTokens_reads u0 ps u g ok g' E Ht) as ((Hi & Ho & Hx) & _ & Hok & Hab).
  specialize (Hok Hu). rewrite Hm in Hok. unfold within_tokens in Hok.
  rewrite <- (proj1 Hi), <- (proj1 Ho), <- (proj1 Hx). cbn [mt_used input_meter output_meter miss_meter].
  rewrite <- Hok. by split.
Qed.
End Metering.

(** ** A run metered

    One provider request, a tool call that writes, and two cumulative usage
    events. *)
Definition sample_id : BudgetLedger -> string := fun _ => "r".
Definition sample_limits : RunBudget := mkBudget 1000 2 5 100 50 100 1 0 0.
Definition sample_ledger : BudgetLedger := createBudgetLedger sample_limits.
Definition usage_of (round input output : Z) : UsagePayload :=
  mkUsagePayload (Some round) (Some "provider") (Some input) (Some output) None.
Definition sample_write : HarnessPayload := P_toolCall "t1" "write_file" JNull (Some se_write).
Definition sample_coord : RetryCoordinator (X := BudgetGuard) :=
  newRetryCoordinator None (Some 2) (Some (newBudgetGuard sample_ledger (Some by_source) None)).
Definition first_attempt : RetryAuthorizationInput := mkRetryInput None None false.

Definition see (p : HarnessPayload) (c : RetryCoordinator (X := BudgetGuard)) : RetryCoordinator (X := BudgetGuard) :=
  match co_external c with
  | Some g => with_external (Some (observe sample_id p g).2) c
  | None => c
  end.
Definition sample_run : RetryCoordinator (X := BudgetGuard) :=
  see (P_usage (usage_of 2 90 20)) (see sample_write (see (P_usage (usage_of 1 40 10))
    (provider_attempt sample_id first_attempt sample_coord).2)).

Lemma run_metering_witness :
  exists g, co_external sample_run = Some g /\
    modelCalls (bl_used (bg_ledger g)) = 1 /\ writes (bl_used (bg_ledger g)) = 1 /\
    inputTokens (bl_used (bg_ledger g)) = 90 /\ usedKind (bl_used (bg_ledger g)) write <= 1.
Proof.
  destruct (run_metering sample_id sample_coord sample_ledger None sample_run 1
    [P_usage (usage_of 1 40 10); sample_write; P_usage (usage_of 2 90 20)]) as (g & Hg & H).
  - reflexivity.
  - reflexivity.
  - refine (mr_observe sample_id _ (see sample_write (see (P_usage (usage_of 1 40 10))
      (provider_attempt sample_id first_attempt sample_coord).2)) 1 [P_usage (usage_of 1 40 10); sample_write] _ _ _ _);
      [|vm_compute; reflexivity].
    refine (mr_observe sample_id _ (see (P_usage (usage_of 1 40 10))
      (provider_attempt sample_id first_attempt sample_coord).2) 1 [P_usage (usage_of 1 40 10)] _ _ _ _);
      [|vm_compute; reflexivity].
    refine (mr_observe sample_id _ (provider_attempt sample_id first_attempt sample_coord).2 1 [] _ _ _ _);
      [|vm_compute; reflexivity].
    refine (mr_attempt sample_id _ sample_coord 0 [] first_attempt _). apply mr_start.
  - exists g. split; [exact Hg|]. destruct H as (_ & _ & Hle & _).
    vm_compute in Hg. injection Hg as <-. split_and!; [reflexivity..|apply (Hle write)].
Defined.

Lemma token_verdict_exact_witness :
  let g := newBudgetGuard sample_ledger (Some by_source) None in
  (observe sample_id (P_usage (usage_of 1 100 50)) g).1 = true /\
  (observe sample_id (P_usage (usage_of 1 101 50)) g).1 = false.
Proof.
  split.
  - apply (token_verdict_exact sample_id zeroUsage sample_limits 0 [] (usage_of 1 100 50)
      (newBudgetGuard sample_ledger (Some by_source) None)); [|reflexivity].
    exact (metered_guard_start sample_ledger None eq_refl).
  - apply (token_verdict_exact sample_id zeroUsage sample_limits 0 [] (usage_of 1 101 50)
      (newBudgetGuard sample_ledger (Some by_source) None)); [|reflexivity].
    exact (metered_guard_start sample_ledger None eq_refl).
Defined.

(** ** What the accounting does not intend *)

(** A provider request that is refused because the tokens are used up is counted
    as a model call all the same: [commit] records the unit before it throws. *)
Lemma refused_call_is_counted :
  let g := newBudgetGuard (with_used (mkUsage 0 0 0 101 0 0 0 0 0) sample_ledger) (Some by_source) None in
  (tryConsumeModelCall sample_id g).1 = false /\
  modelCalls (bl_used (bg_ledger (tryConsumeModelCall sample_id g).2)) = 1.
Proof. by vm_compute. Qed.

(** A provider that reports each round on its own is undercounted: two rounds of
    30 tokens are 30 tokens used. *)
Lemma per_round_values_undercounted :
  forall g, co_external (see (P_usage (usage_of 2 30 5)) (see (P_usage (usage_of 1 30 5)) sample_coord)) = Some g ->
  inputTokens (bl_used (bg_ledger g)) = 30.
Proof. intros g. vm_compute. by intros [= <-]. Qed.
