(* ===== verification/Lifecycle.v ===== *)
(** The life of a run: its state machine and how a run's end is classified.

    Models [src/src/harness/contracts/lifecycle.ts],
    [src/src/harness/runtime/lifecycle-machine.ts] and
    [src/src/harness/runtime/outcome-mapper.ts] over the loop decisions of
    [src/src/agent/kernel/types.ts]. *)
From S2P Require Import Prelude Json Schema HarnessTypes Retry RunBudget Metering.
Open Scope string_scope.
Open Scope Z_scope.
Open Scope list_scope.

(** ** Legal transitions *)

(** src/src/harness/contracts/lifecycle.ts # LEGAL_TRANSITIONS *)
Definition LEGAL_TRANSITIONS (from : RunStatus) : list RunStatus :=
  match from with
  | created => [initializing; failed; cancelled]
  | initializing => [failed; running; cancelled]
  | running => [waiting; pausing; blocked; completed; failed; cancelled; restart_required]
  | waiting => [resuming; cancelled; failed]
  | resuming => [running; failed]
  | pausing => [paused]
  | paused => [resuming; cancelled]
  | blocked => [cancelled; failed; running]
  | completed | failed | cancelled | restart_required => []
  end.

(** src/src/harness/contracts/lifecycle.ts # canTransition *)
Definition canTransition (from to : RunStatus) : bool :=
  if from === to then true
  else if isTerminalRunStatus from then false
  else includes (LEGAL_TRANSITIONS from) to.

(** ** The run record *)

(** src/src/harness/contracts/run.ts # AgentRun

    Of the scope, the retry coordinator is represented; while a loop runs, the
    coordinator's external budget is the guard that shares [ar_budget]. *)
Record AgentRun := mkRun {
  ar_runId : string;
  ar_sessionId : string;
  ar_status : RunStatus;
  ar_input : AgentRunInput;
  ar_coordinator : RetryCoordinator (X := BudgetGuard);
  ar_budget : BudgetLedger;
  ar_createdAt : Z;
  ar_startedAt : option Z;
  ar_finishedAt : option Z;
  ar_interrupt : option HarnessInterrupt;
  ar_outcome : option RunOutcome;
  ar_eventSequence : Z;
}.

Definition set_status (s : RunStatus) (startedAt finishedAt : option Z) (r : AgentRun) : AgentRun :=
  mkRun (ar_runId r) (ar_sessionId r) s (ar_input r) (ar_coordinator r) (ar_budget r) (ar_createdAt r)
    startedAt finishedAt (ar_interrupt r) (ar_outcome r) (ar_eventSequence r).
Definition set_sequence (n : Z) (r : AgentRun) : AgentRun :=
  mkRun (ar_runId r) (ar_sessionId r) (ar_status r) (ar_input r) (ar_coordinator r) (ar_budget r) (ar_createdAt r)
    (ar_startedAt r) (ar_finishedAt r) (ar_interrupt r) (ar_outcome r) n.
Definition set_interrupt (i : option HarnessInterrupt) (r : AgentRun) : AgentRun :=
  mkRun (ar_runId r) (ar_sessionId r) (ar_status r) (ar_input r) (ar_coordinator r) (ar_budget r) (ar_createdAt r)
    (ar_startedAt r) (ar_finishedAt r) i (ar_outcome r) (ar_eventSequence r).
Definition set_outcome (o : RunOutcome) (r : AgentRun) : AgentRun :=
  mkRun (ar_runId r) (ar_sessionId r) (ar_status r) (ar_input r) (ar_coordinator r) (ar_budget r) (ar_createdAt r)
    (ar_startedAt r) (ar_finishedAt r) (ar_interrupt r) (Some o) (ar_eventSequence r).
Definition set_coordinator (c : RetryCoordinator (X := BudgetGuard)) (b : BudgetLedger) (r : AgentRun) : AgentRun :=
  mkRun (ar_runId r) (ar_sessionId r) (ar_status r) (ar_input r) c b (ar_createdAt r)
    (ar_startedAt r) (ar_finishedAt r) (ar_interrupt r) (ar_outcome r) (ar_eventSequence r).

(** ** The machine *)

(** src/src/harness/runtime/lifecycle-machine.ts # isTerminal *)
Definition isTerminal (status : RunStatus) : bool :=
  (status === completed) || (status === failed) || (status === cancelled) || (status === restart_required).

(** src/src/harness/runtime/lifecycle-machine.ts # lifecycleEventName *)
Definition lifecycleEventName (status : RunStatus) : string :=
  match status with
  | initializing => "run.initializing"
  | running => "run.started"
  | waiting => "run.waiting"
  | resuming => "run.resumed"
  | pausing => "run.pausing"
  | paused => "run.paused"
  | blocked => "run.blocked"
  | completed => "run.completed"
  | failed => "run.failed"
  | cancelled => "run.cancelled"
  | created | restart_required => "run.created"
  end.

(** An event with the next number of the run, in whose count it is taken. *)
Definition emit (type : string) (payload : HarnessPayload) (r : AgentRun) : AgentRun * HarnessEvent :=
  let n := ar_eventSequence r + 1 in
  (set_sequence n r, mkEvent n (ar_runId r) (ar_sessionId r) type payload).

(** src/src/harness/runtime/lifecycle-machine.ts # lifecycleEvent *)
Definition lifecycleEvent (status : RunStatus) (extra : option LifecycleExtra) (r : AgentRun)
    : AgentRun * HarnessEvent :=
  emit (lifecycleEventName status) (P_status status extra) r.

(** src/src/harness/contracts/errors.ts # InvalidStateTransitionError *)
Definition InvalidStateTransitionError (from to : RunStatus) : HarnessError :=
  mkError invalid_state_transition ("Illegal run transition " +:+ status_text from +:+ " → " +:+ status_text to).

(** src/src/harness/runtime/lifecycle-machine.ts # RunLifecycleMachine.transition *)
Definition transition (to : RunStatus) (extra : option LifecycleExtra) (now : Z) (r : AgentRun)
    : res HarnessError (AgentRun * list HarnessEvent) :=
  if ar_status r === to then Ok (r, [])
  else if negb (canTransition (ar_status r) to) then Throw (InvalidStateTransitionError (ar_status r) to)
  else
    let startedAt := if to === running then Some (nullish (ar_startedAt r) now) else ar_startedAt r in
    let finishedAt := if isTerminal to then Some (nullish (ar_finishedAt r) now) else ar_finishedAt r in
    let '(r, e) := lifecycleEvent to extra (set_status to startedAt finishedAt r) in
    Ok (r, [e]).

(** src/src/harness/runtime/lifecycle-machine.ts # RunLifecycleMachine.transitionTo

    The event of the first step has been emitted when the second one throws. *)
Definition transitionTo (to : RunStatus) (extra : option LifecycleExtra) (now : Z) (r : AgentRun)
    : res HarnessError (AgentRun * list HarnessEvent) :=
  if (to === paused) && (ar_status r === running) then
    '(r, es) ← transition pausing None now r;
    '(r, es') ← transition to extra now r;
    Ok (r, es ++ es')
  else transition to extra now r.

(** ** How a run ends *)

(** src/src/agent/kernel/types.ts # LoopDecision @64-77 *)
Inductive BreakReason :=
| round_budget | context_budget | provider_failure | orchestrator_plan_ready | orchestrator_blocked
| orchestrator_done | empty_round | self_edit | verified_write | progress_stalled.

(** src/src/agent/kernel/types.ts # LoopDecision @78-86 *)
Inductive ReturnReason := r_aborted | prompt_blocked | r_clarification | tool_batch_aborted.

(** src/src/agent/kernel/types.ts # LoopDecision *)
Inductive LoopDecision :=
| d_continue
| d_break (reason : BreakReason) (checkpointId : option string)
| d_return (reason : ReturnReason) (blockReason : option string).

(** src/src/harness/runtime/outcome-mapper.ts # MappedOutcome *)
Record MappedOutcome := mkMapped { mp_status : RunStatus; mp_outcome : RunOutcome }.

(** src/src/harness/runtime/outcome-mapper.ts # paused *)
Definition paused_outcome (reason checkpointId : string) : MappedOutcome :=
  mkMapped paused (o_paused checkpointId reason).

(** src/src/harness/runtime/outcome-mapper.ts # blocked *)
Definition blocked_outcome (gate reason : string) : MappedOutcome :=
  mkMapped blocked (o_blocked (mkBlocker gate reason 1)).

(** src/src/harness/runtime/outcome-mapper.ts # mapDecisionToOutcome

    The union is closed, so the defensive end is not reached. *)
Definition mapDecisionToOutcome (decision : LoopDecision) (error abortReason : option string) : MappedOutcome :=
  match decision with
  | d_continue => paused_outcome "round_budget" ""
  | d_break reason checkpointId =>
      match reason with
      | orchestrator_done | verified_write | self_edit => mkMapped completed (o_completed "" [])
      | orchestrator_plan_ready => mkMapped waiting (o_waiting "plan-approval" "")
      | round_budget => paused_outcome "round_budget" (nullish checkpointId "")
      | context_budget => blocked_outcome "context_budget" "Context budget hard block"
      | orchestrator_blocked => blocked_outcome "completion" "Completion gate blocked"
      | progress_stalled => blocked_outcome "progress_stalled" "No progress for 4 consecutive rounds"
      | empty_round => blocked_outcome "empty_round" "No tool calls and no final text"
      | provider_failure => mkMapped failed (o_failed (mkFailure "provider_failure" "Provider failure" false))
      end
  | d_return reason blockReason =>
      match reason with
      | r_clarification => mkMapped waiting (o_waiting "clarification" "")
      | prompt_blocked => blocked_outcome "prompt_blocked" (nullish blockReason "Prompt blocked by hook")
      | r_aborted => mkMapped cancelled (o_cancelled (nullish abortReason (nullish error "aborted")))
      | tool_batch_aborted => mkMapped cancelled (o_cancelled "tool batch aborted")
      end
  end.

(** src/src/harness/runtime/outcome-mapper.ts # failureOutcome *)
Definition failureOutcome (message : string) : MappedOutcome :=
  mkMapped failed (o_failed (mkFailure "exception" message false)).

(** ** Lemmas *)

Lemma isTerminal_contract s : isTerminal s = isTerminalRunStatus s.
Proof. by destruct s. Qed.

(** The table and the terminal statuses agree: no way out of a terminal one. *)
Lemma terminal_no_exit from to : isTerminal from = true -> canTransition from to = true -> to = from.
Proof. destruct from; try done; by destruct to. Qed.

(** The machine either changes nothing, or makes one legal step with one event. *)
Lemma transition_cases to extra now r :
  (ar_status r = to /\ transition to extra now r = Ok (r, [])) \/
  (ar_status r <> to /\ canTransition (ar_status r) to = false /\
   transition to extra now r = Throw (InvalidStateTransitionError (ar_status r) to)) \/
  (ar_status r <> to /\ canTransition (ar_status r) to = true /\
   exists r', transition to extra now r = Ok (r', [mkEvent (ar_eventSequence r + 1) (ar_runId r) (ar_sessionId r)
                                                  (lifecycleEventName to) (P_status to extra)]) /\
     ar_status r' = to /\ ar_eventSequence r' = ar_eventSequence r + 1 /\
     ar_interrupt r' = ar_interrupt r /\ ar_outcome r' = ar_outcome r /\ ar_coordinator r' = ar_coordinator r /\
     ar_budget r' = ar_budget r /\ ar_runId r' = ar_runId r /\ ar_sessionId r' = ar_sessionId r /\
     ar_input r' = ar_input r /\ (isTerminal to = true -> ar_finishedAt r' <> None)).
Proof.
  unfold transition. destruct (ar_status r === to) eqn:E; reflect; [by left|right].
  destruct (canTransition (ar_status r) to) eqn:Ec; cbn [negb]; [right|by left].
  split_and!; [done..|]. eexists. split; [reflexivity|]. cbn. split_and!; try done. by intros ->.
Qed.

(** Every decision of the loop is classified: its status fits its outcome, is
    one in which the run has stopped, and can be reached from [running]. *)
Lemma mapped_status decision error abortReason :
  let m := mapDecisionToOutcome decision error abortReason in
  outcome_status (mp_outcome m) = mp_status m /\ isStoppedRunStatus (mp_status m) = true /\
  (canTransition running (mp_status m) = true \/ mp_status m = paused) /\ mp_status m <> running.
Proof. destruct decision as [|[] ?|[] ?]; split_and!; try done; vm_compute; auto. Qed.

(** A restart has no event of its own: the machine would call it "run.created". *)
Lemma restart_event_is_created :
  canTransition running restart_required = true /\
  lifecycleEventName restart_required = lifecycleEventName created.
Proof. done. Qed.
