(* ===== verification/RunController.v ===== *)
(** One controlled run, from its first event to its clean-up.

    Models [src/src/harness/runtime/run-controller.ts], [cleanup.ts],
    [cancellation.ts], the event bridge of [legacy-loop-adapter.ts] and the
    interrupts of [src/src/harness/interrupts].

    The agent loop is the environment: a script of what it does (provider
    attempts, retries, stream events) and how it ends, in which an abort from
    outside (a [cancel], the wall-time watchdog) may occur anywhere.  A consumer
    takes as many events as it has room for and then closes the generator;
    [None] takes them all.  Every delivered event has just been appended to the
    trace, so the delivered events are the trace. *)
From S2P Require Import Prelude Json Schema HarnessTypes Retry RunBudget Metering Lifecycle.
Open Scope string_scope.
Open Scope Z_scope.
Open Scope list_scope.

(** ** Interrupts *)

(** src/src/harness/interrupts/plan-approval.ts # PLAN_APPROVAL_SCHEMA *)
Definition PLAN_APPROVAL_SCHEMA : JsonSchema :=
  record_of [("accepted", tschema ty_boolean); ("planText", tschema ty_string)] ["accepted"].

(** src/src/harness/interrupts/clarification.ts # CLARIFICATION_SCHEMA *)
Definition CLARIFICATION_SCHEMA : JsonSchema := record_of [("answers", tschema ty_array)] ["answers"].

(** src/src/harness/interrupts/plan-approval.ts # createPlanApprovalInterrupt *)
Definition createPlanApprovalInterrupt (runId prompt interruptId : string) (createdAt : Z) : HarnessInterrupt :=
  mkHarnessInterrupt interruptId runId plan_approval prompt PLAN_APPROVAL_SCHEMA "" createdAt i_pending.

(** src/src/harness/interrupts/clarification.ts # createClarificationInterrupt *)
Definition createClarificationInterrupt (runId prompt interruptId : string) (createdAt : Z) : HarnessInterrupt :=
  mkHarnessInterrupt interruptId runId clarification prompt CLARIFICATION_SCHEMA "" createdAt i_pending.

(** src/src/harness/interrupts/interrupt-manager.ts # createInterruptForDecision

    Whether the decision is a clarification; the prompts are in the user's
    language. *)
Definition createInterruptForDecision (runId : string) (clarify : bool) (interruptId : string) (now : Z)
    : HarnessInterrupt :=
  let prompt := if clarify then "请回答澄清问题（answers: [{questionId, answer}]）"
    else "请审核并批准执行计划（approved: true 批准；planText 携带计划文本）" in
  if clarify then createClarificationInterrupt runId prompt interruptId now
  else createPlanApprovalInterrupt runId prompt interruptId now.

(** ** The event bridge *)

(** The events of the agent loop. *)
Inductive StreamEvent :=
| sv_text (data : option string)
| sv_display (kind : string) (data : jsval)
| sv_tool_call (id name : string) (input : jsval)
| sv_tool_result (id name : string) (success : bool) (content : string)
| sv_token_usage (usage : UsagePayload)
| sv_error (data : option string)
| sv_plan_ready (plan : jsval)
| sv_clarification_ready (questions : jsval)
| sv_done
| sv_truncated.

(** What the loop does between two events of interest, and how it ends. *)
Inductive KernelStep :=
| K_attempt (i : RetryAuthorizationInput)
| K_retry (cls : RetryClass) (fingerprint : string) (crossed : bool)
| K_stream (event : StreamEvent)
| K_abort (reason : string).
Inductive KernelEnd := K_done (decision : LoopDecision) | K_throw (message : string).

Inductive LoopExit := L_decision (decision : LoopDecision) | L_threw (message : string) | L_closed.
Inductive RunExit := X_finished | X_threw (message : string) | X_closed.

(** ** Delivery *)

(** The consumer takes the events it has room for. *)
Definition deliver (es : list HarnessEvent) (room : option nat) : list HarnessEvent * option nat :=
  match room with
  | None => (es, None)
  | Some n => (take n es, Some (n - length es)%nat)
  end.
Definition is_closed (room : option nat) : bool := room === Some 0%nat.

(** The state of the generator. *)
Record RunState := mkRunState {
  rs_run : AgentRun;
  rs_out : list HarnessEvent;
  rs_room : option nat;
}.

Definition guard_of (r : AgentRun) : option BudgetGuard := co_external (ar_coordinator r).
Definition set_guard (g : BudgetGuard) (r : AgentRun) : AgentRun :=
  set_coordinator (with_external (Some g) (ar_coordinator r)) (ar_budget r) r.

(** src/src/harness/runtime/run-controller.ts # traceAndYield *)
Definition traceAndYield (es : list HarnessEvent) (s : RunState) : RunState :=
  let '(got, room) := deliver es (rs_room s) in mkRunState (rs_run s) (rs_out s ++ got) room.

Section RunController.
Context (newId : BudgetLedger -> string) (classifyToolSideEffect : string -> SideEffect).

(** src/src/harness/runtime/legacy-loop-adapter.ts # translateStreamEvent *)
Definition translateStreamEvent (event : StreamEvent) : option (string * HarnessPayload) :=
  match event with
  | sv_text data => Some ("text.emitted", P_other (JObj [("text", JStr (nullish data ""))]))
  | sv_display kind data =>
      Some ("display.changed", P_other (JObj [("display", JObj [("kind", JStr kind); ("data", data)])]))
  | sv_tool_call id name input =>
      Some ("tool.call.requested", P_toolCall id name input (Some (classifyToolSideEffect name)))
  | sv_tool_result id name success content =>
      Some ("tool.call.completed",
        P_other (JObj [("toolName", JStr name); ("toolCallId", JStr id); ("success", JBool success);
                       ("content", JStr content)]))
  | sv_token_usage usage => Some ("model.usage", P_usage usage)
  | sv_error data => Some ("error.raised", P_other (JObj [("error", JStr (nullish data ""))]))
  | sv_plan_ready plan => Some ("plan.ready", P_other (JObj [("planReady", JObj [("plan", plan)])]))
  | sv_clarification_ready questions =>
      Some ("clarification.ready", P_other (JObj [("clarification", JObj [("questions", questions)])]))
  | sv_done | sv_truncated => None
  end.

(** One step of the loop that is no event of the bridge. *)
Definition quiet_step (k : KernelStep) (r : AgentRun) : AgentRun :=
  match k with
  | K_attempt i => set_coordinator (provider_attempt newId i (ar_coordinator r)).2 (ar_budget r) r
  | K_retry cls fingerprint crossed =>
      set_coordinator (authorizeRetry cls fingerprint crossed (ar_coordinator r)).2 (ar_budget r) r
  | K_abort reason =>
      match guard_of r with Some g => set_guard (guard_abort reason g) r | None => r end
  | K_stream _ => r
  end.

(** src/src/harness/runtime/run-controller.ts # runGuardedLoop

    The bridge numbers an event before the guard sees it. *)
Fixpoint runGuardedLoop (steps : list KernelStep) (fin : KernelEnd) (s : RunState) : RunState * LoopExit :=
  match steps with
  | [] => (s, match fin with K_done d => L_decision d | K_throw m => L_threw m end)
  | K_stream event :: steps =>
      match translateStreamEvent event, guard_of (rs_run s) with
      | Some (type, payload), Some g =>
          let '(r, e) := emit type payload (rs_run s) in
          let '(ok, g) := observe newId payload g in
          let s := mkRunState (set_guard g r) (rs_out s) (rs_room s) in
          if negb ok then (s, L_decision (d_return r_aborted None))
          else
            let s := traceAndYield [e] s in
            if is_closed (rs_room s) then (s, L_closed) else runGuardedLoop steps fin s
      | _, _ => runGuardedLoop steps fin s
      end
  | k :: steps => runGuardedLoop steps fin (mkRunState (quiet_step k (rs_run s)) (rs_out s) (rs_room s))
  end.

(** src/src/harness/runtime/run-controller.ts # lifecycleExtra *)
Definition lifecycleExtra (m : MappedOutcome) : option LifecycleExtra :=
  match mp_outcome m with
  | o_paused checkpointId reason => Some (mkExtra (Some checkpointId) (Some reason))
  | o_blocked b => Some (mkExtra None (Some (bk_reason b)))
  | o_waiting interruptId checkpointId => Some (mkExtra (Some checkpointId) (Some interruptId))
  | _ => None
  end.

(** src/src/harness/runtime/run-controller.ts # runControlledRun @46-59

    The guard, behind the coordinator. *)
Definition configure_guard (controller : option string) (r : AgentRun) : AgentRun :=
  let guard := newBudgetGuard (ar_budget r) (Some by_source) controller in
  set_coordinator (configureBudgetConsumer (Some guard) (ar_coordinator r)) (ar_budget r) r.

(** src/src/harness/runtime/run-controller.ts # runControlledRun @61-69

    When the first transition is legal, so is the second. *)
Definition begin_run (resuming_run : bool) (now : Z) (r : AgentRun)
    : res HarnessError (AgentRun * list HarnessEvent) :=
  '(r, es) ← transition (if resuming_run then resuming else initializing) None now r;
  '(r, es') ← transition running None now r;
  Ok (r, es ++ es').

(** src/src/harness/runtime/run-controller.ts # runControlledRun @78-97 *)
Definition attach_interrupt (decision : LoopDecision) (m : MappedOutcome) (interruptId : string) (now : Z)
    (r : AgentRun) : AgentRun * list HarnessEvent * MappedOutcome :=
  if mp_status m === waiting then
    let clarify := match decision with d_return r_clarification _ => true | _ => false end in
    let i := createInterruptForDecision (ar_runId r) clarify interruptId now in
    let m := match mp_outcome m with
      | o_waiting _ checkpointId => mkMapped (mp_status m) (o_waiting (hi_interruptId i) checkpointId)
      | _ => m
      end in
    let '(r, e) := emit "interrupt.created" (P_interrupt i) (set_interrupt (Some i) r) in
    (r, [e], m)
  else (r, [], m).

(** src/src/harness/runtime/run-controller.ts # runControlledRun @106-111 *)
Definition fail_run (message : string) (pending : list HarnessEvent) (now : Z) (s : RunState) : RunState * RunExit :=
  let m := failureOutcome message in
  match transitionTo (mp_status m) None now (rs_run s) with
  | Throw e => (s, X_threw (he_message e))
  | Ok (r, es) =>
      let s := traceAndYield (pending ++ es) (mkRunState (set_outcome (mp_outcome m) r) (rs_out s) (rs_room s)) in
      (s, if is_closed (rs_room s) then X_closed else X_threw message)
  end.

(** src/src/harness/runtime/run-controller.ts # runControlledRun @73-111 *)
Definition conclude_run (exit : LoopExit) (interruptId : string) (now : Z) (s : RunState) : RunState * RunExit :=
  match exit with
  | L_closed => (s, X_closed)
  | L_threw message => fail_run message [] now s
  | L_decision decision =>
      let abortReason := match guard_of (rs_run s) with Some g => bg_aborted g | None => None end in
      let m := mapDecisionToOutcome decision None abortReason in
      let '(r, pending, m) := attach_interrupt decision m interruptId now (rs_run s) in
      match transitionTo (mp_status m) (lifecycleExtra m) now r with
      | Throw e => fail_run (he_message e) pending now (mkRunState r (rs_out s) (rs_room s))
      | Ok (r, es) =>
          let s := traceAndYield (pending ++ es)
            (mkRunState (set_outcome (mp_outcome m) r) (rs_out s) (rs_room s)) in
          (s, if is_closed (rs_room s) then X_closed else X_finished)
      end
  end.

(** src/src/harness/runtime/cleanup.ts # cleanupRun *)
Definition cleanupRun (runId : string) (activeRunIds : list string) (controller : option string)
    : list string * option string :=
  (filter (fun id => negb (id === runId) = true) activeRunIds, controller_abort "run finished" controller).

(** What a controlled run leaves: the run, its session, its controller. *)
Record RunResult := mkRunResult {
  rr_run : AgentRun;
  rr_out : list HarnessEvent;
  rr_activeRunIds : list string;
  rr_controller : option string;
  rr_exit : RunExit;
}.

(** The ledger is shared: the run's budget is what the guard left. *)
Definition sync_budget (r : AgentRun) : AgentRun :=
  match guard_of r with Some g => set_coordinator (ar_coordinator r) (bg_ledger g) r | None => r end.

(** src/src/harness/runtime/run-controller.ts # runControlledRun

    The first transitions and their events come before the [try]: a throw or a
    close there skips the clean-up. *)
Definition runControlledRun (resuming_run : bool) (steps : list KernelStep) (fin : KernelEnd)
    (interruptId : string) (now : Z) (room : option nat) (activeRunIds : list string)
    (controller : option string) (r : AgentRun) : RunResult :=
  let r := configure_guard controller r in
  match begin_run resuming_run now r with
  | Throw e => mkRunResult r [] activeRunIds controller (X_threw (he_message e))
  | Ok (r, es) =>
      let s := traceAndYield es (mkRunState r [] room) in
      if is_closed (rs_room s) then mkRunResult r (rs_out s) activeRunIds controller X_closed
      else
        let '(s, exit) := runGuardedLoop steps fin s in
        let '(s, exit) := conclude_run exit interruptId now s in
        let controller := match guard_of (rs_run s) with Some g => bg_aborted g | None => controller end in
        let '(activeRunIds, controller) := cleanupRun (ar_runId (rs_run s)) activeRunIds controller in
        mkRunResult (sync_budget (rs_run s)) (rs_out s) activeRunIds controller exit
  end.

(** ** The event log of a run *)

Definition event_status (e : HarnessEvent) : option RunStatus :=
  match ev_payload e with P_status s _ => Some s | _ => None end.
(** The statuses a list of events announces. *)
Definition statuses (es : list HarnessEvent) : list RunStatus := omap event_status es.

(** Every status is a legal move from the one before it. *)
Fixpoint legal_path (from : RunStatus) (sts : list RunStatus) : bool :=
  match sts with
  | [] => true
  | s :: sts => negb (from === s) && canTransition from s && legal_path s sts
  end.

(** The events lead from one state of the run to another: their statuses are a
    legal path between the statuses, their numbers increase strictly and lie
    between the two counts. *)
Definition leads (r : AgentRun) (es : list HarnessEvent) (r' : AgentRun) : Prop :=
  legal_path (ar_status r) (statuses es) = true /\ List.last (statuses es) (ar_status r) = ar_status r' /\
  StronglySorted Z.lt (ev_sequence <$> es) /\
  Forall (fun e => ar_eventSequence r < ev_sequence e <= ar_eventSequence r') es /\
  ar_eventSequence r <= ar_eventSequence r' /\ ar_runId r' = ar_runId r.

Lemma legal_path_app from sts sts' :
  legal_path from (sts ++ sts') = legal_path from sts && legal_path (List.last sts from) sts'.
Proof.
  revert from. induction sts as [|s sts IH]; intros from; [done|]. cbn [app legal_path]. rewrite IH.
  assert (List.last (s :: sts) from = List.last sts s) as ->.
  { clear. revert s from. induction sts as [|t sts IH]; intros s from; [done|]. cbn [List.last] in *.
    destruct sts; [done|]. by rewrite (IH t from). }
  by rewrite !andb_assoc.
Qed.
Lemma last_app {A} (l l' : list A) d : List.last (l ++ l') d = List.last l' (List.last l d).
Proof.
  revert d. induction l' as [|x l' IH] using rev_ind; intros d; [by rewrite app_nil_r|].
  by rewrite app_assoc, !List.last_last.
Qed.

Lemma leads_refl r : leads r [] r.
Proof. split_and!; try done; constructor. Qed.
(** A change that keeps status and count. *)
Lemma leads_same r r' : ar_status r' = ar_status r -> ar_eventSequence r' = ar_eventSequence r ->
  ar_runId r' = ar_runId r -> leads r [] r'.
Proof. intros Hs Hq Hi. split_and!; try done; try constructor; lia. Qed.
Lemma leads_trans r1 es r2 es' r3 : leads r1 es r2 -> leads r2 es' r3 -> leads r1 (es ++ es') r3.
Proof.
  intros (H1 & H2 & H3 & H4 & H5 & H6) (K1 & K2 & K3 & K4 & K5 & K6). unfold leads, statuses in *.
  rewrite omap_app, fmap_app, legal_path_app, last_app, H1, H2. split_and!; try done; try lia; [| |congruence].
  - apply StronglySorted_app_2; [|done..]. intros x y (e & -> & He)%list_elem_of_fmap (e' & -> & He')%list_elem_of_fmap.
    rewrite Forall_forall in H4, K4. specialize (H4 _ He). specialize (K4 _ He'). lia.
  - apply Forall_app. split; (eapply Forall_impl; [eassumption|]); cbn; intros; lia.
Qed.
Lemma leads_event st type payload r r' :
  ar_status r' = default (ar_status r) st -> ar_eventSequence r' = ar_eventSequence r + 1 -> ar_runId r' = ar_runId r ->
  event_status (mkEvent (ar_eventSequence r + 1) (ar_runId r) (ar_sessionId r) type payload) = st ->
  (forall s, st = Some s -> ar_status r <> s /\ canTransition (ar_status r) s = true) ->
  leads r [mkEvent (ar_eventSequence r + 1) (ar_runId r) (ar_sessionId r) type payload] r'.
Proof.
  intros Hs Hq Hi He Hst. unfold leads, statuses. cbn [omap list_omap]. rewrite He. destruct st as [s|].
  - destruct (Hst s eq_refl) as [Hne Hc]. cbn [legal_path List.last]. rewrite (proj2 (same_neq _ _) Hne), Hc.
    split_and!; try done; try (by repeat constructor); try lia. repeat constructor; cbn [ev_sequence]; lia.
  - split_and!; try done; try (by repeat constructor); try lia. repeat constructor; cbn [ev_sequence]; lia.
Qed.
Lemma leads_emit type payload r : event_status (mkEvent 0 "" "" type payload) = None ->
  leads r [(emit type payload r).2] (emit type payload r).1.
Proof. intros Hp. by apply (leads_event None). Qed.

(** What the run machinery never touches while the loop runs. *)
Definition same_run (r r' : AgentRun) : Prop :=
  ar_runId r' = ar_runId r /\ ar_interrupt r' = ar_interrupt r /\ ar_outcome r' = ar_outcome r /\
  ar_input r' = ar_input r.

Lemma same_run_trans r1 r2 r3 : same_run r1 r2 -> same_run r2 r3 -> same_run r1 r3.
Proof. unfold same_run. intuition congruence. Qed.

Lemma transition_leads to extra now r r' es : transition to extra now r = Ok (r', es) ->
  leads r es r' /\ ar_status r' = to /\ same_run r r' /\ ar_coordinator r' = ar_coordinator r /\ ar_budget r' = ar_budget r.
Proof.
  intros H. destruct (transition_cases to extra now r) as [[Hs E]|[(Hn & Hc & E)|(Hn & Hc & r1 & E & H1)]];
    rewrite E in H; simplify_eq; [by split_and!; try apply leads_refl|].
  destruct H1 as (H1 & H2 & H3 & H4 & H5 & H6 & H7 & H8 & H9 & _). split_and!; try done.
  by apply (leads_event (Some to)); try done; intros s [= <-].
Qed.
Lemma transitionTo_ok to extra now r : ar_status r = running ->
  canTransition running to = true \/ to = paused ->
  exists r' es, transitionTo to extra now r = Ok (r', es) /\ leads r es r' /\ ar_status r' = to /\ same_run r r' /\
    ar_coordinator r' = ar_coordinator r /\ ar_budget r' = ar_budget r.
Proof.
  intros Hr Hto. unfold transitionTo. rewrite Hr, same_refl, andb_true_r.
  assert (forall to extra r, canTransition (ar_status r) to = true ->
    exists r' es, transition to extra now r = Ok (r', es)) as Hok.
  { intros t ex r0 Hc. destruct (transition_cases t ex now r0) as [[_ E]|[(_ & Hc' & _)|(_ & _ & r1 & E & _)]];
      [by rewrite E; eauto|congruence|by rewrite E; eauto]. }
  destruct (to === paused) eqn:E; reflect.
  - subst. destruct (Hok pausing None r) as (r1 & es1 & E1); [by rewrite Hr|]. rewrite E1. cbn [mbind res_bind].
    apply transition_leads in E1 as (L1 & S1 & F1 & C1 & B1).
    destruct (Hok paused extra r1) as (r2 & es2 & E2); [by rewrite S1|]. rewrite E2. cbn [mbind res_bind].
    apply transition_leads in E2 as (L2 & S2 & F2 & C2 & B2). exists r2, (es1 ++ es2).
    split_and!; [done|by eapply leads_trans|done|by eapply same_run_trans|congruence|congruence].
  - destruct Hto as [Hc|?]; [|done]. destruct (Hok to extra r) as (r1 & es1 & E1); [by rewrite Hr|].
    exists r1, es1. apply transition_leads in E1 as H. split; [done|]. tauto.
Qed.

(** The loop of a consumer that reads everything. *)
Lemma translate_no_status event type payload : translateStreamEvent event = Some (type, payload) ->
  event_status (mkEvent 0 "" "" type payload) = None.
Proof. by destruct event; intros [= <- <-]. Qed.

Definition loop_leads (s s' : RunState) : Prop :=
  exists es, rs_out s' = rs_out s ++ es /\ rs_room s' = None /\ leads (rs_run s) es (rs_run s') /\
    statuses es = [] /\ guard_of (rs_run s') <> None /\ same_run (rs_run s) (rs_run s').

Lemma loop_leads_trans s1 s2 s3 : loop_leads s1 s2 -> loop_leads s2 s3 -> loop_leads s1 s3.
Proof.
  intros (es & H1 & H2 & H3 & H4 & H5 & H6) (es' & K1 & K2 & K3 & K4 & K5 & K6). exists (es ++ es').
  split_and!; [by rewrite K1, H1, app_assoc|done|by eapply leads_trans| |done|by eapply same_run_trans].
  unfold statuses in *. by rewrite omap_app, H4, K4.
Qed.
Lemma quiet_step_leads k r out : guard_of r <> None ->
  loop_leads (mkRunState r out None) (mkRunState (quiet_step k r) out None).
Proof.
  intros Hg. exists []. cbn [rs_out rs_room rs_run]. rewrite app_nil_r.
  assert (leads r [] (quiet_step k r) /\ same_run r (quiet_step k r)) as [? ?].
  { destruct k; cbn [quiet_step]; try case_match; split; try done; by apply leads_same. }
  split_and!; try done. unfold guard_of in *. destruct (co_external (ar_coordinator r)) as [g|] eqn:E; [|done].
  destruct k as [i|cls f x|ev|reason]; cbn [quiet_step ar_coordinator set_coordinator]; [| |by rewrite E|].
  - pose proof (authorize_provider_exact (tryConsumeModelCall newId) (guard_abort "model_call_budget") i
      (ar_coordinator r)) as Ha.
    fold (provider_attempt newId i (ar_coordinator r)) in Ha.
    destruct (provider_attempt newId i (ar_coordinator r)) as [permit c']. rewrite E in Ha. cbn zeta in Ha.
    destruct Ha as [_ Ha]. destruct permit; cbn [snd].
    + unfold accounts in Ha. by injection Ha as _ _ -> _.
    + destruct Ha as (_ & _ & _ & [->|[_ Ha]]); [done|]. destruct (_ <=? _); [by rewrite Ha|by destruct Ha as [_ ->]].
  - by rewrite (proj1 (authorizeRetry_external cls f x (ar_coordinator r))), E.
  - unfold guard_of. rewrite E. by cbn.
Qed.

Lemma emit_step_leads type payload g r out : event_status (mkEvent 0 "" "" type payload) = None ->
  loop_leads (mkRunState r out None)
    (mkRunState (set_guard g (emit type payload r).1) (out ++ [(emit type payload r).2]) None).
Proof.
  intros Hp. exists [(emit type payload r).2]. cbn [rs_out rs_room rs_run].
  split_and!; [done|done| | |done|done].
  - pose proof (leads_emit type payload r Hp) as H. eapply (leads_trans _ _ (emit type payload r).1 []) in H.
    + rewrite app_nil_r in H. exact H.
    + by apply leads_same.
  - unfold statuses. cbn [omap list_omap]. unfold emit. cbn [snd]. unfold event_status in *.
    cbn [ev_payload] in *. by rewrite Hp.
Qed.
(** An event the guard lets fall is numbered, but not delivered. *)
Lemma refused_step_leads type payload g r out :
  loop_leads (mkRunState r out None) (mkRunState (set_guard g (emit type payload r).1) out None).
Proof.
  exists []. cbn [rs_out rs_room rs_run]. rewrite app_nil_r. split_and!; try done.
  split_and!; try done; try constructor. cbn. lia.
Qed.

(** The decision of the loop is the kernel's, or an abort the guard has made. *)
Definition loop_exit_ok (fin : KernelEnd) (s : RunState) (exit : LoopExit) : Prop :=
  match exit with
  | L_closed => False
  | L_threw m => fin = K_throw m
  | L_decision d =>
      fin = K_done d \/
      (d = d_return r_aborted None /\ exists g, guard_of (rs_run s) = Some g /\ bg_aborted g <> None)
  end.

Lemma guarded_loop_ok steps fin s s' exit : rs_room s = None -> guard_of (rs_run s) <> None ->
  runGuardedLoop steps fin s = (s', exit) -> loop_leads s s' /\ loop_exit_ok fin s' exit.
Proof.
  revert s. induction steps as [|k steps IH]; intros [r out room] Hroom Hg; cbn [rs_room rs_run] in *; subst room.
  { cbn [runGuardedLoop]. intros [= <- <-]. split; [|by destruct fin; [left|]].
    exists []. rewrite app_nil_r. split_and!; try done. apply leads_refl. }
  assert (forall s1, loop_leads (mkRunState r out None) s1 -> runGuardedLoop steps fin s1 = (s', exit) ->
    loop_leads (mkRunState r out None) s' /\ loop_exit_ok fin s' exit) as Hnext.
  { intros s1 H1 Hrun. destruct H1 as (es & Ho & Hr & Hl & Hs & Hg1 & Hf).
    destruct (IH s1 Hr Hg1 Hrun) as [H2 Hx]. split; [|done]. eapply loop_leads_trans; [|exact H2].
    exists es. by split_and!. }
  destruct k as [i|cls f x|ev|reason]; cbn [runGuardedLoop rs_run rs_out rs_room];
    [by apply Hnext, quiet_step_leads|by apply Hnext, quiet_step_leads| |by apply Hnext, quiet_step_leads].
  destruct (guard_of r) as [g|] eqn:Eg; [|done].
  destruct (translateStreamEvent ev) as [[type payload]|] eqn:Et.
  - apply translate_no_status in Et. destruct (emit type payload r) as [r1 e] eqn:Ee.
    assert (r1 = (emit type payload r).1) as -> by (by rewrite Ee). assert (e = (emit type payload r).2) as -> by (by rewrite Ee).
    clear Ee. destruct (observe newId payload g) as [ok g'] eqn:Eo. destruct ok; cbn [negb].
    + exact (Hnext _ (emit_step_leads type payload g' r out Et)).
    + intros [= <- <-]. split; [apply (refused_step_leads type payload)|]. right. split; [done|].
      exists g'. split; [done|]. by eapply observe_refused.
  - apply Hnext. exists []. cbn [rs_out rs_room rs_run]. rewrite app_nil_r. split_and!; try done; [apply leads_refl|by rewrite Eg].
Qed.

(** The end of a run that was still running. *)
Lemma fail_run_ok message pending now s : rs_room s = None -> ar_status (rs_run s) = running ->
  exists s', fail_run message pending now s = (s', X_threw message) /\
    exists es, rs_out s' = rs_out s ++ pending ++ es /\ leads (rs_run s) es (rs_run s') /\
      ar_status (rs_run s') = failed /\ ar_outcome (rs_run s') = Some (mp_outcome (failureOutcome message)) /\
      ar_interrupt (rs_run s') = ar_interrupt (rs_run s) /\ ar_runId (rs_run s') = ar_runId (rs_run s) /\
      ar_coordinator (rs_run s') = ar_coordinator (rs_run s).
Proof.
  destruct s as [r out room]. cbn [rs_room rs_run rs_out]. intros -> Hr. unfold fail_run. cbn [mp_status failureOutcome rs_run].
  destruct (transitionTo_ok failed None now r Hr ltac:(by left)) as (r' & es & -> & L & S & F & C & B).
  eexists. split; [reflexivity|]. exists es. cbn [rs_out rs_run].
  split_and!; try done; apply F.
Qed.

Lemma attach_interrupt_ok decision m iid now r :
  outcome_status (mp_outcome m) = mp_status m ->
  let '(r', pending, m') := attach_interrupt decision m iid now r in
  leads r pending r' /\ ar_status r' = ar_status r /\ mp_status m' = mp_status m /\
  outcome_status (mp_outcome m') = mp_status m /\ ar_runId r' = ar_runId r /\
  ar_coordinator r' = ar_coordinator r /\ statuses pending = [] /\
  (if mp_status m === waiting
   then exists i e, ar_interrupt r' = Some i /\ hi_status i = i_pending /\ hi_interruptId i = iid /\
        pending = [e] /\ ev_payload e = P_interrupt i /\ exists cp, mp_outcome m' = o_waiting iid cp
   else ar_interrupt r' = ar_interrupt r /\ m' = m).
Proof.
  intros Hm. unfold attach_interrupt. destruct (mp_status m === waiting) eqn:E; reflect.
  - set (i := createInterruptForDecision _ _ _ _).
    assert (hi_status i = i_pending /\ hi_interruptId i = iid) as [Hp Hi].
    { unfold i, createInterruptForDecision. by case_match. }
    cbn [emit]. rewrite E in Hm.
    assert (leads r [mkEvent (ar_eventSequence r + 1) (ar_runId r) (ar_sessionId r) "interrupt.created" (P_interrupt i)]
      (set_sequence (ar_eventSequence r + 1) (set_interrupt (Some i) r))) as HL by (by apply (leads_event None)).
    destruct (mp_outcome m) eqn:Eo; try discriminate Hm. cbn [mp_status mp_outcome]. rewrite Hi.
    split_and!; try done. exists i. eexists. split_and!; try done. by eexists.
  - split_and!; try done. apply leads_refl.
Qed.

(** What a run leaves when its consumer read to the end. *)
Lemma conclude_run_ok exit fin iid now s :
  rs_room s = None -> ar_status (rs_run s) = running -> guard_of (rs_run s) <> None -> loop_exit_ok fin s exit ->
  exists s' x, conclude_run exit iid now s = (s', x) /\
    match x with
    | X_finished => exists d, exit = L_decision d /\
        ar_status (rs_run s') = mp_status (mapDecisionToOutcome d None None)
    | X_threw m => fin = K_throw m /\ ar_status (rs_run s') = failed
    | X_closed => False
    end /\
    exists es o, rs_out s' = rs_out s ++ es /\ leads (rs_run s) es (rs_run s') /\
      ar_outcome (rs_run s') = Some o /\ outcome_status o = ar_status (rs_run s') /\
      isStoppedRunStatus (ar_status (rs_run s')) = true /\
      ar_runId (rs_run s') = ar_runId (rs_run s) /\ ar_coordinator (rs_run s') = ar_coordinator (rs_run s) /\
      (if ar_status (rs_run s') === waiting
       then exists i e, ar_interrupt (rs_run s') = Some i /\ hi_status i = i_pending /\ hi_interruptId i = iid /\
         e ∈ es /\ ev_payload e = P_interrupt i /\ exists cp, o = o_waiting iid cp
       else ar_interrupt (rs_run s') = ar_interrupt (rs_run s)).
Proof.
  destruct s as [r out room]. cbn [rs_room rs_run rs_out]. intros -> Hr Hg Hx. destruct exit as [d|m|]; [| |done].
  - cbn [conclude_run rs_run]. set (ab := match guard_of r with Some g => _ | None => _ end).
    destruct (mapped_status d None ab) as (Ho & Hst & Hcan & _). cbn zeta in *.
    assert (mp_status (mapDecisionToOutcome d None ab) = mp_status (mapDecisionToOutcome d None None)) as Hsame
      by (by destruct d as [|[] ?|[] ?]).
    set (m := mapDecisionToOutcome d None ab) in *. clearbody m ab.
    pose proof (attach_interrupt_ok d m iid now r Ho) as Ha.
    destruct (attach_interrupt d m iid now r) as [[r1 pending] m1]. destruct Ha as (L1 & S1 & M1 & O1 & I1 & C1 & _ & Hi).
    destruct (transitionTo_ok (mp_status m1) (lifecycleExtra m1) now r1) as (r2 & es & E & L2 & S2 & F2 & C2 & B2);
      [congruence|by rewrite M1|]. rewrite E. eexists _, X_finished. split; [reflexivity|].
    split; [exists d; split; [done|]; cbn [rs_run traceAndYield deliver rs_room ar_status set_outcome]; congruence|].
    exists (pending ++ es), (mp_outcome m1). cbn [rs_run rs_out traceAndYield deliver rs_room ar_status set_outcome ar_outcome
      ar_runId ar_coordinator ar_interrupt].
    rewrite S2, M1. destruct F2 as (F2 & F2' & _).
    split_and!; try done; [exact (leads_trans _ _ _ _ _ L1 L2)|congruence|congruence|].
    destruct (mp_status m === waiting) eqn:Ew.
    + destruct Hi as (i & e & Hi1 & Hi2 & Hi3 & -> & Hi4 & Hi5). exists i, e. split_and!; try done; [congruence|set_solver].
    + destruct Hi as [Hi ->]. congruence.
  - cbn [conclude_run]. destruct (fail_run_ok m [] now (mkRunState r out None) eq_refl Hr) as (s' & -> & es & H).
    destruct H as (H1 & H2 & H3 & H4 & H5 & H6 & H7). exists s', (X_threw m). split; [done|].
    split; [done|]. exists es, (mp_outcome (failureOutcome m)). cbn [rs_run rs_out app] in *.
    rewrite H3. by split_and!.
Qed.

Lemma begin_run_ok (resuming_run : bool) now r :
  ar_status r = (if resuming_run then waiting else created) ->
  exists r' es, begin_run resuming_run now r = Ok (r', es) /\ leads r es r' /\ ar_status r' = running /\
    same_run r r' /\ ar_coordinator r' = ar_coordinator r /\ ar_budget r' = ar_budget r.
Proof.
  intros Hr. unfold begin_run.
  destruct (transition_cases (if resuming_run then resuming else initializing) None now r)
    as [[E _]|[(_ & E & _)|(_ & _ & r1 & E1 & _)]]; [rewrite Hr in E; by destruct resuming_run
    |rewrite Hr in E; by destruct resuming_run|].
  rewrite E1. cbn [mbind res_bind]. apply transition_leads in E1 as (L1 & S1 & F1 & C1 & B1).
  destruct (transition_cases running None now r1) as [[E _]|[(_ & E & _)|(_ & _ & r2 & E2 & _)]];
    [rewrite S1 in E; by destruct resuming_run|rewrite S1 in E; by destruct resuming_run|].
  rewrite E2. cbn [mbind res_bind]. apply transition_leads in E2 as (L2 & S2 & F2 & C2 & B2).
  eexists _, _. split; [reflexivity|]. split_and!; [by eapply leads_trans|done|by eapply same_run_trans|congruence|congruence].
Qed.

(** A controlled run settles: started from a created run, or from a waiting one
    that is resumed, and read to the end by its consumer, it never attempts an
    illegal transition whatever the agent loop does; it ends in a stopped status
    with an outcome of that status; it throws only what the loop threw, as a
    failed run, and otherwise ends as the loop's decision (or the abort of the
    budget guard) is classified; a run ends waiting exactly with a new pending
    interrupt, delivered as an event and named by the outcome; the session no
    longer lists the run and its controller is aborted; and the delivered events
    announce a legal path of statuses with strictly increasing numbers. *)
Theorem controlled_run_settles (resuming_run : bool) steps fin iid now active controller r :
  ar_status r = (if resuming_run then waiting else created) ->
  let x := runControlledRun resuming_run steps fin iid now None active controller r in
  let r' := rr_run x in
  isStoppedRunStatus (ar_status r') = true /\
  (exists o, ar_outcome r' = Some o /\ outcome_status o = ar_status r' /\
     if ar_status r' === waiting
     then exists i e cp, ar_interrupt r' = Some i /\ hi_status i = i_pending /\ e ∈ rr_out x /\
       ev_payload e = P_interrupt i /\ o = o_waiting (hi_interruptId i) cp
     else ar_interrupt r' = ar_interrupt r) /\
  (match rr_exit x with
  | X_finished => exists d, ar_status r' = mp_status (mapDecisionToOutcome d None None) /\
      (fin = K_done d \/ d = d_return r_aborted None)
  | X_threw m => fin = K_throw m /\ ar_status r' = failed
  | X_closed => False
  end) /\
  (ar_runId r ∉ rr_activeRunIds x) /\ rr_controller x <> None /\
  legal_path (ar_status r) (statuses (rr_out x)) = true /\
  List.last (statuses (rr_out x)) (ar_status r) = ar_status r' /\
  StronglySorted Z.lt (ev_sequence <$> rr_out x) /\
  Forall (fun e => ar_eventSequence r < ev_sequence e <= ar_eventSequence r') (rr_out x).
Proof.
  intros Hr. cbn zeta. unfold runControlledRun.
  destruct (begin_run_ok resuming_run now (configure_guard controller r) Hr) as (r1 & es1 & -> & L1 & S1 & F1 & C1 & _).
  change (is_closed (rs_room (traceAndYield es1 (mkRunState r1 [] None)))) with false.
  destruct (runGuardedLoop steps fin _) as [s2 exit] eqn:E2.
  apply guarded_loop_ok in E2 as [(es2 & O2 & R2 & L2 & N2 & G2 & F2) X2]; [|done|unfold guard_of; cbn; by rewrite C1].
  assert (ar_status (rs_run s2) = running) as S2.
  { destruct L2 as (_ & L2 & _). rewrite N2 in L2. cbn in L2. by rewrite <- L2. }
  destruct (conclude_run_ok exit fin iid now s2 R2 S2 G2 X2)
    as (s3 & x & -> & Hx & es3 & o & O3 & L3 & Ho1 & Ho2 & Hst & Hid & Hc & Hi).
  destruct (cleanupRun _ active _) as [active' controller'] eqn:Ecl.
  cbn [rr_run rr_out rr_exit rr_activeRunIds rr_controller].
  assert (forall r, ar_status (sync_budget r) = ar_status r /\ ar_outcome (sync_budget r) = ar_outcome r /\
    ar_interrupt (sync_budget r) = ar_interrupt r /\ ar_eventSequence (sync_budget r) = ar_eventSequence r)
    as Hsync by (intros r0; unfold sync_budget; destruct (guard_of r0); by split_and!).
  destruct (Hsync (rs_run s3)) as (-> & -> & -> & ->). clear Hsync.
  assert (leads (configure_guard controller r) (rs_out s3) (rs_run s3)) as (P1 & P2 & P3 & P4 & P5 & P6).
  { rewrite O3, O2. by eapply leads_trans; [eapply leads_trans|]. }
  cbn [configure_guard ar_status set_coordinator ar_eventSequence ar_runId] in *.
  unfold cleanupRun in Ecl. injection Ecl as <- <-. split_and!; try done.
  - exists o. split_and!; try done. destruct (ar_status (rs_run s3) === waiting).
    + destruct Hi as (i & e & Hi1 & Hi2 & Hi3 & Hi4 & Hi5 & cp & Hi6). exists i, e, cp.
      split_and!; try done; [rewrite O3; set_solver|congruence].
    + destruct F1 as (_ & F1 & _). destruct F2 as (_ & F2 & _). cbn in F1, F2. congruence.
  - destruct x as [|m|]; [|done|done]. destruct Hx as (d & -> & Hd). exists d. split; [done|].
    destruct X2 as [?|[? _]]; auto.
  - rewrite P6. intros [Hin _]%list_elem_of_filter. by rewrite same_refl in Hin.
Qed.

(** The metering of a controlled run. *)
Lemma guarded_loop_metered steps fin s s' exit c0 n ps : metered_run newId c0 (ar_coordinator (rs_run s)) n ps ->
  runGuardedLoop steps fin s = (s', exit) ->
  exists n' ps', metered_run newId c0 (ar_coordinator (rs_run s')) n' ps'.
Proof.
  revert s n ps. induction steps as [|k steps IH]; intros [r out room] n ps Hm; [intros [= <- _]; eauto|].
  assert (forall r1 out1 room1 n1 ps1, metered_run newId c0 (ar_coordinator r1) n1 ps1 ->
    runGuardedLoop steps fin (mkRunState r1 out1 room1) = (s', exit) ->
    exists n' ps', metered_run newId c0 (ar_coordinator (rs_run s')) n' ps') as Hnext
    by (intros; eapply (IH (mkRunState _ _ _)); eassumption).
  destruct k as [i|cls f x|ev|reason]; cbn [runGuardedLoop rs_run rs_out rs_room].
  - eapply Hnext. by apply mr_attempt.
  - eapply Hnext. by apply mr_retry.
  - destruct (translateStreamEvent ev) as [[type payload]|]; [|by eapply Hnext].
    destruct (guard_of r) as [g|] eqn:Eg; [|by eapply Hnext].
    cbn [emit]. pose proof (mr_observe newId c0 _ n ps payload g Hm Eg) as Ho.
    destruct (observe newId payload g) as [[] g']; cbn [negb]; [|by intros [= <- _]; eauto].
    unfold traceAndYield. cbn [rs_room rs_run rs_out]. destruct (deliver _ room) as [got room'].
    cbn [rs_room]. case_match; [by intros [= <- _]; eauto|by eapply Hnext].
  - cbn [quiet_step]. destruct (guard_of r) as [g|] eqn:Eg; [|by eapply Hnext].
    eapply Hnext. by eapply mr_abort.
Qed.

(** A run's budget is what its guard left, and only the guard wrote it. *)
Lemma conclude_run_coordinator exit iid now s s' x : conclude_run exit iid now s = (s', x) ->
  ar_coordinator (rs_run s') = ar_coordinator (rs_run s).
Proof.
  assert (forall to ex r r' es, transitionTo to ex now r = Ok (r', es) -> ar_coordinator r' = ar_coordinator r) as Ht.
  { intros to ex r r' es. unfold transitionTo. case_match.
    - destruct (transition pausing None now r) as [[r1 es1]|] eqn:E1; [|done]. cbn [mbind res_bind].
      destruct (transition to ex now r1) as [[r2 es2]|] eqn:E2; [|done]. cbn [mbind res_bind]. intros [= <- _].
      apply transition_leads in E1 as (_ & _ & _ & E1 & _), E2 as (_ & _ & _ & E2 & _). congruence.
    - intros E. by apply transition_leads in E as (_ & _ & _ & E & _). }
  assert (forall m pending s s' x, fail_run m pending now s = (s', x) ->
    ar_coordinator (rs_run s') = ar_coordinator (rs_run s)) as Hf.
  { intros m pending s1 s1' x1. unfold fail_run. destruct (transitionTo _ _ _ _) as [[r es]|e] eqn:E; [|by intros [= <- _]].
    apply Ht in E. unfold traceAndYield. cbn [rs_room rs_run rs_out].
    destruct (deliver _ _) as [got room]. intros [= <- _]. cbn. done. }
  destruct exit as [d|m|]; cbn [conclude_run]; [|by apply Hf|by intros [= <- _]].
  set (m := mapDecisionToOutcome _ _ _). clearbody m.
  assert (ar_coordinator (attach_interrupt d m iid now (rs_run s)).1.1 = ar_coordinator (rs_run s)) as Ha.
  { unfold attach_interrupt. case_match; [by destruct m as [? []]|done]. }
  destruct (attach_interrupt d m iid now (rs_run s)) as [[r pending] m1]. cbn [fst] in Ha.
  destruct (transitionTo _ _ _ r) as [[r' es]|e] eqn:E; [|intros H; apply Hf in H; cbn [rs_run] in H; congruence].
  apply Ht in E. unfold traceAndYield. cbn [rs_room rs_run rs_out]. destruct (deliver _ _) as [got room].
  intros [= <- _]. cbn. congruence.
Qed.

(** A controlled run stays within its budget, whatever the agent loop does,
    whatever room the consumer has and however the run ends. *)
Definition requests (r : AgentRun) : nat := co_physicalCount (ar_coordinator r).
Lemma begin_run_coordinator resuming_run now r r' es : begin_run resuming_run now r = Ok (r', es) ->
  ar_coordinator r' = ar_coordinator r /\ ar_budget r' = ar_budget r /\ ar_interrupt r' = ar_interrupt r.
Proof.
  unfold begin_run. destruct (transition (if resuming_run then resuming else initializing) None now r)
    as [[r2 es2]|] eqn:E2; [|done]. cbn [mbind res_bind].
  destruct (transition running None now r2) as [[r3 es3]|] eqn:E3; [|done]. cbn [mbind res_bind].
  intros [= <- _]. apply transition_leads in E2 as (_ & _ & (_ & I2 & _) & E2 & B2), E3 as (_ & _ & (_ & I3 & _) & E3 & B3).
  split_and!; congruence.
Qed.
Lemma controlled_run_within_budget resuming_run steps fin iid now room active controller r :
  bl_reservations (ar_budget r) = [] ->
  let r' := rr_run (runControlledRun resuming_run steps fin iid now room active controller r) in
  let b := ar_budget r in let b' := ar_budget r' in
  bl_limits b' = bl_limits b /\ bl_reservations b' = [] /\
  (requests r <= requests r')%nat /\
  modelCalls (bl_used b) + Z.of_nat (requests r' - requests r) <= modelCalls (bl_used b') /\
  forall k, usedKind (bl_used b') k <= Z.max (usedKind (bl_used b) k) (maxKind (bl_limits b) k).
Proof.
  intros Hr. cbn zeta. unfold runControlledRun. set (r0 := configure_guard controller r).
  assert (forall r', ar_budget r' = ar_budget r -> requests r' = requests r ->
    bl_limits (ar_budget r') = bl_limits (ar_budget r) /\ bl_reservations (ar_budget r') = [] /\
    (requests r <= requests r')%nat /\
    modelCalls (bl_used (ar_budget r)) + Z.of_nat (requests r' - requests r) <= modelCalls (bl_used (ar_budget r')) /\
    forall k, usedKind (bl_used (ar_budget r')) k <= Z.max (usedKind (bl_used (ar_budget r)) k)
      (maxKind (bl_limits (ar_budget r)) k)) as Hsame
    by (intros r' -> ->; split_and!; [done..|lia|lia|intros; lia]).
  destruct (begin_run resuming_run now r0) as [[r1 es]|e] eqn:E1; [|by apply Hsame].
  apply begin_run_coordinator in E1 as (C1 & B1 & _).
  case_match; [by apply Hsame; cbn [rr_run]; [rewrite B1|unfold requests; rewrite C1]|].
  destruct (runGuardedLoop _ _ _) as [s2 exit] eqn:E2.
  destruct (conclude_run exit iid now s2) as [s3 x] eqn:E3. apply conclude_run_coordinator in E3.
  destruct (cleanupRun _ _ _) as [active' controller']. cbn [rr_run].
  eapply (guarded_loop_metered _ _ _ _ _ (ar_coordinator r0) 0 []) in E2 as (n & ps & Hrun).
  - apply (metered_run_inv _ _ (bl_used (ar_budget r)) (bl_limits (ar_budget r))) in Hrun.
    + destruct Hrun as (Hn & g & Hg & _ & [[Hm Hh] Hres] & _ & Hlo & _).
      assert (requests (sync_budget (rs_run s3)) = (requests r + n)%nat) as ->.
      { unfold sync_budget, requests. transitivity (co_physicalCount (ar_coordinator (rs_run s3)));
          [by destruct (guard_of _)|]. rewrite E3. exact Hn. }
      unfold sync_budget, guard_of. rewrite E3, Hg. cbn [ar_budget set_coordinator]. split_and!; [done..|lia| |].
      * by replace (requests r + n - requests r)%nat with n by lia.
      * intros k. etrans; [apply held_used|apply Hh].
    + split; [by rewrite Nat.add_0_r|]. eexists. split; [reflexivity|]. by apply metered_guard_start.
  - unfold traceAndYield. cbn [rs_room]. destruct (deliver es room) as [got room']. cbn [rs_run]. rewrite C1. constructor.
Qed.

(** The loop leaves the run's interrupt alone, and its end either does too or
    attaches a new one. *)
Lemma guarded_loop_interrupt steps fin s :
  ar_interrupt (rs_run (runGuardedLoop steps fin s).1) = ar_interrupt (rs_run s).
Proof.
  revert s. induction steps as [|k steps IH]; intros [r out room]; [done|].
  destruct k as [i|cls f x|ev|reason]; cbn [runGuardedLoop rs_run rs_out rs_room]; try (by rewrite IH).
  - destruct (translateStreamEvent ev) as [[type payload]|], (guard_of r) as [g|]; try (by rewrite IH).
    cbn [emit]. destruct (observe newId payload g) as [[] g']; cbn [negb]; [|done].
    unfold traceAndYield. cbn [rs_room rs_run rs_out]. destruct (deliver _ room) as [got room'].
    cbn [rs_room]. case_match; [done|by rewrite IH].
  - rewrite IH. cbn [rs_run quiet_step]. by destruct (guard_of r).
Qed.
Lemma transitionTo_interrupt to ex now r r' es : transitionTo to ex now r = Ok (r', es) -> ar_interrupt r' = ar_interrupt r.
Proof.
  unfold transitionTo. case_match.
  - destruct (transition pausing None now r) as [[r1 es1]|] eqn:E1; [|done]. cbn [mbind res_bind].
    destruct (transition to ex now r1) as [[r2 es2]|] eqn:E2; [|done]. cbn [mbind res_bind]. intros [= <- _].
    apply transition_leads in E1 as (_ & _ & (_ & E1 & _) & _), E2 as (_ & _ & (_ & E2 & _) & _). congruence.
  - intros E. by apply transition_leads in E as (_ & _ & (_ & E & _) & _).
Qed.
Lemma conclude_run_interrupt exit iid now s :
  let i' := ar_interrupt (rs_run (conclude_run exit iid now s).1) in
  i' = ar_interrupt (rs_run s) \/ exists i, i' = Some i /\ hi_interruptId i = iid.
Proof.
  assert (forall m pending s, ar_interrupt (rs_run (fail_run m pending now s).1) = ar_interrupt (rs_run s)) as Hf.
  { intros m pending s1. unfold fail_run. destruct (transitionTo _ _ _ _) as [[r es]|e] eqn:E; [|done].
    apply transitionTo_interrupt in E. unfold traceAndYield. cbn [rs_room rs_run rs_out].
    by destruct (deliver _ _). }
  destruct exit as [d|m|]; cbn [conclude_run]; [|by left|by left].
  set (m := mapDecisionToOutcome _ _ _). clearbody m.
  assert (let i' := ar_interrupt (attach_interrupt d m iid now (rs_run s)).1.1 in
    i' = ar_interrupt (rs_run s) \/ exists i, i' = Some i /\ hi_interruptId i = iid) as Ha.
  { unfold attach_interrupt. case_match; [|by left]. right. cbn [emit fst ar_interrupt set_sequence set_interrupt].
    eexists. split; [done|]. unfold createInterruptForDecision. by case_match. }
  destruct (attach_interrupt d m iid now (rs_run s)) as [[r pending] m1]. cbn zeta in *. cbn [fst] in Ha.
  destruct (transitionTo _ _ _ r) as [[r' es]|e] eqn:E; [|by rewrite Hf].
  apply transitionTo_interrupt in E. unfold traceAndYield. cbn [rs_room rs_run rs_out]. destruct (deliver _ _) as [got room].
  cbn [fst rs_run ar_interrupt set_outcome]. by rewrite E.
Qed.
End RunController.

(** ** A run, its end, and its loose ends *)

Definition sample_input : AgentRunInput := mkInput "fix it" None None None.
Definition sample_agent_run (status : RunStatus) : AgentRun :=
  mkRun "run-1" "s" status sample_input (newRetryCoordinator None (Some 2) None) sample_ledger 0 None None None None 0.
Definition no_side_effect : string -> SideEffect := fun _ => se_none.
Definition sample_script : list KernelStep :=
  [K_attempt first_attempt; K_stream (sv_text (Some "planning")); K_stream (sv_token_usage (usage_of 1 40 10))].
Definition plan_ready : KernelEnd := K_done (d_break orchestrator_plan_ready None).
Definition controlled (fin : KernelEnd) (room : option nat) : RunResult :=
  runControlledRun sample_id no_side_effect false sample_script fin "i-1" 7 room ["run-0"; "run-1"] None
    (sample_agent_run created).

Lemma controlled_run_settles_witness :
  ar_status (rr_run (controlled plan_ready None)) = waiting /\
  statuses (rr_out (controlled plan_ready None)) = [initializing; running; waiting] /\
  "run-1" ∉ rr_activeRunIds (controlled plan_ready None).
Proof.
  split; [reflexivity|]. split; [reflexivity|].
  exact (proj1 (proj2 (proj2 (proj2 (controlled_run_settles sample_id no_side_effect false sample_script plan_ready "i-1" 7
    ["run-0"; "run-1"] None (sample_agent_run created) eq_refl))))).
Defined.

(** A consumer that closes after the first event leaves the run listed in its
    session, its controller armed, and its status [running]: the [try] whose
    [finally] cleans up has not been entered. *)
Lemma closed_early_not_cleaned :
  let x := controlled plan_ready (Some 1%nat) in
  rr_exit x = X_closed /\ rr_activeRunIds x = ["run-0"; "run-1"] /\ rr_controller x = None /\
  ar_status (rr_run x) = running.
Proof. by vm_compute. Qed.

(** One that closes later is cleaned up, but the run stays [running], without an
    outcome. *)
Lemma closed_run_has_no_outcome :
  let x := controlled plan_ready (Some 3%nat) in
  rr_exit x = X_closed /\ rr_activeRunIds x = ["run-0"] /\ rr_controller x = Some "run finished" /\
  ar_status (rr_run x) = running /\ ar_outcome (rr_run x) = None.
Proof. by vm_compute. Qed.
