(* ===== verification/Capability.v ===== *)
(** Capabilities and their executor.

    Models [src/src/harness/capabilities/]: descriptors and the registry, the
    projection of a tool's contract ([tool-adapter.ts], with
    [projectToolContract] of [src/src/tools/tool-contract.ts]), the feature flag,
    the output limit, and the chain of steps of [executeCapability].

    A run of the chain is an [Effect] on an [Invocation]: the budget ledger, the
    ids of the reservations it holds, the retry authority, and the steps taken so
    far.  Handlers, tools, the artifact store and the artifact tracker are given;
    each may throw. *)
From S2P Require Import Prelude Json Schema HarnessTypes RunBudget Retry ToolTypes Permission ModeContract ToolPolicy Hooks Effects.
Open Scope string_scope.
Open Scope Z_scope.
Open Scope list_scope.

(** ** Descriptors *)

(** src/src/harness/contracts/capability.ts # CapabilityKind *)
Inductive CapabilityKind := ck_tool | ck_model | ck_skill | ck_worker | ck_verifier | ck_human | ck_external_service.
#[export] Instance capability_kind_eq_dec : EqDecision CapabilityKind.
Proof. solve_decision. Defined.

Definition kind_name (k : CapabilityKind) : string :=
  match k with
  | ck_tool => "tool" | ck_model => "model" | ck_skill => "skill" | ck_worker => "worker"
  | ck_verifier => "verifier" | ck_human => "human" | ck_external_service => "external_service"
  end.

Inductive CapabilitySource := src_legacy | src_native.

(** src/src/harness/contracts/capability.ts # CapabilityDescriptor *)
Record CapabilityDescriptor := mkDescriptor {
  cd_id : string; cd_kind : CapabilityKind;
  cd_inputSchema : JsonSchema; cd_outputSchema : JsonSchema;
  cd_sideEffect : SideEffect; cd_concurrencyGroup : string;
  cd_permissions : list string; cd_riskLevel : Z;
  cd_retryable : bool; cd_idempotent : bool; cd_cancellable : bool; cd_producesEvidence : bool;
  cd_source : option CapabilitySource; cd_maxOutputBytes : option Z;
}.

(** src/src/harness/capabilities/descriptor.ts # TOOL_OUTPUT_SCHEMA *)
Definition TOOL_OUTPUT_SCHEMA : JsonSchema :=
  record_of [("success", tschema ty_boolean); ("content", tschema ty_string)] ["success"; "content"].

(** src/src/harness/capabilities/descriptor.ts # CapabilityDescriptorPartial *)
Record CapabilityDescriptorPartial := mkDescriptorPartial {
  cp_id : string; cp_kind : CapabilityKind; cp_inputSchema : JsonSchema;
  cp_outputSchema : option JsonSchema; cp_sideEffect : option SideEffect; cp_concurrencyGroup : option string;
  cp_permissions : option (list string); cp_riskLevel : option Z;
  cp_retryable : option bool; cp_idempotent : option bool; cp_cancellable : option bool; cp_producesEvidence : option bool;
  cp_source : option CapabilitySource; cp_maxOutputBytes : option Z;
}.

(** src/src/harness/capabilities/descriptor.ts # createCapabilityDescriptor *)
Definition createCapabilityDescriptor (p : CapabilityDescriptorPartial) : CapabilityDescriptor :=
  mkDescriptor (cp_id p) (cp_kind p) (cp_inputSchema p) (nullish (cp_outputSchema p) TOOL_OUTPUT_SCHEMA)
    (nullish (cp_sideEffect p) se_none)
    (nullish (cp_concurrencyGroup p) ("capability:" +:+ kind_name (cp_kind p)))
    (nullish (cp_permissions p) []) (nullish (cp_riskLevel p) 0)
    (nullish (cp_retryable p) false) (nullish (cp_idempotent p) false) (nullish (cp_cancellable p) true)
    (nullish (cp_producesEvidence p) false) (cp_source p) (cp_maxOutputBytes p).

(** src/src/harness/capabilities/descriptor.ts # budgetKindsFor *)
Definition budgetKindsFor (sideEffect : SideEffect) : list BudgetKind :=
  tool_call :: match sideEffect with
               | se_write => [write]
               | se_external => [external_action]
               | se_none | se_read => []
               end.

(** ** Handlers and the registry *)

(** The answer of a handler; an absent output is [JUndef]. *)
Record Response := mkResponse { rp_ok : bool; rp_output : jsval; rp_error : option string }.

(** src/src/harness/contracts/capability.ts # CapabilityHandler

    A handler may answer each attempt differently, or throw a message. *)
Definition CapabilityHandler : Type := nat -> jsval -> res string Response.

(** src/src/harness/contracts/capability.ts # RegisteredCapability *)
Record RegisteredCapability := mkRegistered { rg_descriptor : CapabilityDescriptor; rg_handler : CapabilityHandler }.

Definition CapabilityRegistry : Type := list (string * RegisteredCapability).

(** src/src/harness/capabilities/registry.ts # createCapabilityRegistry @19-27 *)
Definition register (d : CapabilityDescriptor) (h : CapabilityHandler) (r : CapabilityRegistry)
    : res HarnessError CapabilityRegistry :=
  if jhas (cd_id d) r then
    Throw (mkError capability_already_registered ("Capability already registered: " +:+ cd_id d))
  else Ok (jset (cd_id d) (mkRegistered d h) r).

(** src/src/harness/capabilities/registry.ts # createCapabilityRegistry @29-35 *)
Definition resolve (id : string) (r : CapabilityRegistry) : res HarnessError RegisteredCapability :=
  match jget id r with
  | Some c => Ok c
  | None => Throw (mkError capability_not_found ("Capability not found: " +:+ id))
  end.

(** src/src/harness/contracts/capability.ts # CapabilityFilter *)
Record CapabilityFilter := mkFilter {
  fl_kind_is : option CapabilityKind; fl_sideEffect_is : option SideEffect; fl_group_is : option string;
}.
Definition matches {A} `{EqDecision A} (wanted : option A) (x : A) : bool :=
  match wanted with None => true | Some w => x === w end.

(** src/src/harness/capabilities/registry.ts # createCapabilityRegistry @37-46 *)
Definition list_capabilities (f : option CapabilityFilter) (r : CapabilityRegistry) : list RegisteredCapability :=
  match f with
  | None => jvalues r
  | Some f =>
      List.filter (fun e => matches (fl_kind_is f) (cd_kind (rg_descriptor e))
                    && matches (fl_sideEffect_is f) (cd_sideEffect (rg_descriptor e))
                    && matches (fl_group_is f) (cd_concurrencyGroup (rg_descriptor e))) (jvalues r)
  end.

(** ** Tools as capabilities *)

(** src/src/tools/tool-contract.ts # ToolContract

    Without the texts, the paths, the state requirement and the result budget. *)
Record ToolContract := mkContract {
  tc_name : string; tc_provenance : ToolProvenance; tc_category : ToolCategory; tc_readonly : bool;
  tc_concurrencySafe : bool; tc_permission : option PermissionLevel;
  tc_confirmationDeclared : bool; tc_requiredByBaseRisk : bool;
  tc_baseLevel : Z; tc_maxLevel : Z; tc_invocationSensitive : bool; tc_sessionAllowableAtBase : bool;
  tc_sideEffects : list ToolSideEffect; tc_updates : list ToolStateUpdate;
  tc_streaming : bool; tc_cooperativeCancellation : bool;
}.

(** src/src/tools/tool-contract.ts # defaultSideEffects *)
Definition defaultSideEffects (category : ToolCategory) (readonly : bool) (provenance : ToolProvenance) : list ToolSideEffect :=
  if provenance === prov_mcp then [eff_network; eff_external_process]
  else if category === network then [eff_network]
  else if category === shell then [eff_shell; eff_external_process]
  else if (category === file) || negb readonly then [eff_workspace_write]
  else [eff_none].

(** src/src/tools/tool-contract.ts # projectToolContract *)
Definition projectToolContract (defn : ToolDef) : ToolContract :=
  let category := inferToolCategory (td_name defn) (Some defn) in
  let runtimeRisk := getToolRisk (td_name defn) (JObj []) (Some defn) in
  let metadata := td_contract defn in
  let provenance := nullish (cm_provenance metadata) prov_local in
  let unverifiedExternal := provenance === prov_mcp in
  let baseLevel := if unverifiedExternal then 4 else rp_level runtimeRisk in
  let invocationSensitive := unverifiedExternal || isToolRiskInvocationSensitive (td_name defn) in
  mkContract (td_name defn) provenance category (td_isReadonly defn)
    (nullish (td_isConcurrencySafe defn) true) (td_permission defn)
    (nullish (td_requiresConfirmation defn) false)
    (if unverifiedExternal then true else rp_requiresConfirmation runtimeRisk)
    baseLevel (if invocationSensitive then 5 else baseLevel) invocationSensitive
    (if unverifiedExternal then false else rp_sessionAllowable runtimeRisk)
    (nullish (cm_sideEffects metadata) (defaultSideEffects category (td_isReadonly defn) provenance))
    (nullish (cm_stateUpdates metadata) [])
    (td_streaming defn) (nullish (cm_cooperativeCancellation metadata) false).

(** src/src/harness/capabilities/tool-adapter.ts # sideEffectFromContract *)
Definition sideEffectFromContract (effects : list ToolSideEffect) : SideEffect :=
  if existsb (fun e => (e === eff_shell) || (e === eff_external_process) || (e === eff_network)) effects then se_external
  else if existsb (fun e => e === eff_workspace_write) effects then se_write
  else se_none.

(** src/src/tools/registry.ts # ToolDescriptor

    The definition, its contract when one was attached, the schema of its
    parameters, and what running it does: [executeSingleTool] without hooks. *)
Record ToolDescriptor := mkToolDescriptor {
  tl_defn : ToolDef; tl_contract : option ToolContract; tl_inputSchema : JsonSchema;
  tl_execute : nat -> jsval -> res string ToolResult;
}.

(** src/src/harness/capabilities/tool-adapter.ts # classifyToolSideEffect *)
Definition classifyToolSideEffect (name : string) (tools : list ToolDescriptor) : SideEffect :=
  let tool := List.find (fun t => td_name (tl_defn t) === name) tools in
  match tool ≫= tl_contract with
  | Some contract => sideEffectFromContract (tc_sideEffects contract)
  | None =>
      match nullish (tool ≫= td_category ∘ tl_defn) (inferToolCategory name (tl_defn <$> tool)) with
      | file => se_write
      | shell | network => se_external
      | safe | git => se_none
      end
  end.

Definition permission_text (p : option PermissionLevel) : string :=
  match p with Some allow => "allow" | Some ask => "ask" | Some deny => "deny" | None => "category_default" end.

(** src/src/harness/capabilities/tool-adapter.ts # projectCapabilityDescriptor *)
Definition projectCapabilityDescriptor (tool : ToolDescriptor) : CapabilityDescriptor :=
  let contract := nullish (tl_contract tool) (projectToolContract (tl_defn tool)) in
  let baseLevel := tc_baseLevel contract in
  createCapabilityDescriptor (mkDescriptorPartial
    (tc_name contract) ck_tool (tl_inputSchema tool) (Some TOOL_OUTPUT_SCHEMA)
    (Some (sideEffectFromContract (tc_sideEffects contract)))
    (Some (if tc_concurrencySafe contract then "tool:" +:+ category_name (tc_category contract)
           else "tool:" +:+ tc_name contract))
    (Some ["category:" +:+ category_name (tc_category contract); "permission:" +:+ permission_text (tc_permission contract)])
    (Some baseLevel) (Some ((baseLevel <=? 2) && negb (tc_streaming contract))) (Some (tc_readonly contract))
    (Some (negb (tc_cooperativeCancellation contract))) (Some (includes (tc_updates contract) upd_evidence))
    (Some src_legacy) None).

(** src/src/harness/capabilities/tool-adapter.ts # toolCapabilityHandler

    [startedAt] is the clock's reading. *)
Definition toolCapabilityHandler (startedAt : Z) (tool : ToolDescriptor) : CapabilityHandler := fun n input =>
  match tl_execute tool n (match input with JUndef | JNull => JObj [] | _ => input end) with
  | Ok result =>
      let fields := match result_value result with JObj fs => fs | _ => [] end in
      Ok (mkResponse (tr_success result) (JObj (jset "startedAt" (JNum startedAt) fields)) None)
  | Throw message => Ok (mkResponse false JUndef (Some message))
  end.

(** src/src/harness/capabilities/tool-adapter.ts # FIRST_BATCH_TOOL_NAMES *)
Definition FIRST_BATCH_TOOL_NAMES : list string :=
  ["read_file"; "find_symbol"; "find_references"; "write_file"; "edit_file"; "shell"; "typecheck"].

(** src/src/harness/capabilities/tool-adapter.ts # registerToolCapabilities

    A name given twice stops the registration with the first ones kept. *)
Fixpoint registerToolCapabilities (startedAt : Z) (tools : list ToolDescriptor)
    : Effect CapabilityRegistry HarnessError unit :=
  match tools with
  | [] => mret ()
  | t :: tools =>
      (if includes FIRST_BATCH_TOOL_NAMES (td_name (tl_defn t)) then
         fun r => match register (projectCapabilityDescriptor t) (toolCapabilityHandler startedAt t) r with
                  | Ok r => (Ok (), r)
                  | Throw e => (Throw e, r)
                  end
       else mret ());;
      registerToolCapabilities startedAt tools
  end.

(** ** The feature flag and the output limit *)

(** src/src/harness/capabilities/flags.ts # CapabilityMode *)
Inductive CapabilityMode := cm_legacy | cm_shadow | cm_enabled.
#[export] Instance capability_mode_eq_dec : EqDecision CapabilityMode.
Proof. solve_decision. Defined.

(** src/src/harness/capabilities/flags.ts # getCapabilityMode

    From the value of [ORCANA_CAPABILITIES_MODE]. *)
Definition getCapabilityMode (raw : option string) : CapabilityMode :=
  match raw with
  | Some "shadow" => cm_shadow
  | Some "enabled" => cm_enabled
  | _ => cm_legacy
  end.
(** src/src/harness/capabilities/flags.ts # isShadowMode *)
Definition isShadowMode (m : CapabilityMode) : bool := (m === cm_shadow) || (m === cm_enabled).
(** src/src/harness/capabilities/flags.ts # isEnabledMode *)
Definition isEnabledMode (m : CapabilityMode) : bool := m === cm_enabled.

(** src/src/harness/capabilities/output-limiter.ts # DEFAULT_MAX_OUTPUT_BYTES *)
Definition DEFAULT_MAX_OUTPUT_BYTES : Z := 8000.

Definition str_length (s : string) : Z := Z.of_nat (String.length s).
(** [s.slice(0, n)]: a negative [n] counts from the end. *)
Definition slice_head (n : Z) (s : string) : string :=
  String.substring 0 (Z.to_nat (if n <? 0 then str_length s + n else n)) s.

(** src/src/harness/capabilities/output-limiter.ts # LimitedOutput *)
Record LimitedOutput := mkLimited { lo_preview : string; lo_truncated : bool; lo_artifactId : option string }.

(** The artifact store: it keeps the content, then the artifact of that id; each
    may throw. *)
Record ArtifactStore := mkStore {
  as_storeContent : string -> res string string;
  as_put : string -> string -> res string unit;
}.

(** src/src/harness/capabilities/output-limiter.ts # limitOutput *)
Definition limitOutput (sha256_hex : string -> string) (content : string) (maxBytes : Z) (runId : string)
    (store : option ArtifactStore) : res string LimitedOutput :=
  if str_length content <=? maxBytes then Ok (mkLimited content false None) else
  let preview := slice_head maxBytes content in
  match store with
  | None => Ok (mkLimited preview true None)
  | Some st =>
      contentRef ← as_storeContent st content;
      let artifactId := "out_" +:+ slice_head 8 runId +:+ "_" +:+ slice_head 12 (sha256_hex content) in
      _ ← as_put st artifactId contentRef;
      Ok (mkLimited preview true (Some artifactId))
  end.

(** ** One invocation *)

(** src/src/harness/capabilities/executor.ts # CapabilityArtifactTracker *)
Record CapabilityArtifactTracker := mkTracker {
  at_beforeExecute : jsval -> res string jsval;
  at_afterExecute : jsval -> jsval -> ToolResult -> res string unit;
}.

(** src/src/agent/tool-execution/single-executor.ts # ParallelToolResult *)
Record ParallelToolResult := mkParallel { pl_success : bool; pl_content : string; pl_metadata : option jsval }.

(** src/src/agent/tool-execution/single-executor.ts # toToolResult *)
Definition toToolResult (r : ParallelToolResult) : ToolResult :=
  let metadata := Some (default JUndef (pl_metadata r)) in
  if pl_success r then mkToolResult true (Some (pl_content r)) None metadata
  else mkToolResult false (Some (pl_content r)) (Some (pl_content r)) metadata.

(** What the executor reads of the execution context. *)
Record ContextView := mkContextView { cv_runId : string; cv_artifactStore : option ArtifactStore }.

(** The events emitted, without the names they repeat. *)
Inductive CapabilityEvent :=
| ev_call_started
| ev_call_completed
| ev_call_failed (error : string) (retry : bool)
| ev_policy_blocked (by_gate : ToolPolicyResult)
| ev_shadow_mismatch (errors : list string).

(** The steps of a run that others see, oldest first. *)
Inductive CapabilityStep :=
| st_call (params : jsval)
| st_snapshot
| st_limit (content : string)
| st_record (result : ToolResult)
| st_emit (e : CapabilityEvent).

(** src/src/harness/capabilities/executor.ts # CapabilityExecuteInput

    The budget and the retry authority are in the state; events are recorded
    whether or not somebody listens. *)
Record CapabilityExecuteInput := mkExecute {
  ei_capabilityId : string; ei_params : jsval;
  ei_tool : option ToolDescriptor; ei_hooks : option HookSystem;
  ei_parallelResult : option ParallelToolResult; ei_policyDecision : option ToolPolicyResult;
  ei_policyContext : option NodePolicyContext;
  ei_tracker : option CapabilityArtifactTracker; ei_context : option ContextView;
}.

(** src/src/harness/capabilities/executor.ts # blockedResult *)
Definition blockedResult (message : string) : ToolResult :=
  mkToolResult false (Some ("[blocked] " +:+ message)) (Some message) (Some (JObj [("blocked", JBool true)])).
(** [{ success: false, content: message, error: message }] *)
Definition failedResult (message : string) : ToolResult := mkToolResult false (Some message) (Some message) None.

(** src/src/harness/capabilities/executor.ts # resolveCapability *)
Definition resolveCapability (startedAt : Z) (registry : CapabilityRegistry) (i : CapabilityExecuteInput)
    : res HarnessError RegisteredCapability :=
  match resolve (ei_capabilityId i) registry with
  | Ok c => Ok c
  | Throw e =>
      match ei_tool i with
      | Some tool =>
          if he_kind e === capability_not_found then
            Ok (mkRegistered (projectCapabilityDescriptor tool) (toolCapabilityHandler startedAt tool))
          else Throw e
      | None => Throw e
      end
  end.

Section executor.
Context `{HostRegExp} {X : Type}.
(** [process.cwd()], the environment's two switches, a fresh reservation id,
    [sha256] in hexadecimal and the text of a policy refusal. *)
Variable cwd : string.
Variable evalMode : bool.
Variable mode : CapabilityMode.
Variable newId : BudgetLedger -> string.
Variable sha256_hex : string -> string.
Variable blockMessage : ToolPolicyResult -> string.

Record Invocation := mkInvocation {
  iv_budget : option BudgetLedger;
  iv_reservations : list string;
  iv_retryLedger : option RetryLedger;
  iv_retryCoordinator : option (RetryCoordinator (X := X));
  iv_steps : list CapabilityStep;
}.
Definition with_budget (b : option BudgetLedger) (ids : list string) (v : Invocation) : Invocation :=
  mkInvocation b ids (iv_retryLedger v) (iv_retryCoordinator v) (iv_steps v).
Definition with_retries (l : option RetryLedger) (c : option (RetryCoordinator (X := X))) (v : Invocation) : Invocation :=
  mkInvocation (iv_budget v) (iv_reservations v) l c (iv_steps v).
Definition with_step (st : CapabilityStep) (v : Invocation) : Invocation :=
  mkInvocation (iv_budget v) (iv_reservations v) (iv_retryLedger v) (iv_retryCoordinator v) (iv_steps v ++ [st]).

#[local] Abbreviation Run := (Effect Invocation string).
Definition step (st : CapabilityStep) : Run unit := modify (with_step st).
Definition emit (e : CapabilityEvent) : Run unit := step (st_emit e).

(** src/src/harness/capabilities/executor.ts # executeCapability @145-149 *)
Definition releaseReservations : Run unit := modify (fun v =>
  match iv_budget v with
  | None => v
  | Some l => with_budget (Some (fold_left (fun l id => budget_release id l) (iv_reservations v) l)) [] v
  end).

(** src/src/harness/capabilities/executor.ts # executeCapability @151-162

    The message of the refusal, after the release. *)
Fixpoint reserve_kinds (kinds : list BudgetKind) : Run (option string) := fun v =>
  match kinds, iv_budget v with
  | [], _ | _, None => (Ok None, v)
  | kind :: kinds, Some l =>
      match budget_reserve (newId l) kind l with
      | Throw e => let '(_, v) := releaseReservations v in (Ok (Some (he_message e)), v)
      | Ok l' => reserve_kinds kinds (with_budget (Some l') (iv_reservations v ++ [newId l]) v)
      end
  end.

(** src/src/harness/capabilities/executor.ts # executeCapability @170-173 *)
Definition policyDecision (i : CapabilityExecuteInput) : res string ToolPolicyResult :=
  match ei_policyDecision i with
  | Some d => Ok d
  | None =>
      evaluateToolPolicy cwd evalMode (buildNodePolicyInput
        (nullish (ei_policyContext i)
           (createDefaultNodePolicyContext (ei_params i) (tl_defn <$> ei_tool i) (Some (ei_capabilityId i)))))
  end.

Definition before_hooks (d : CapabilityDescriptor) (i : CapabilityExecuteInput)
    : option ToolResult * list string * option jsval :=
  match ei_parallelResult i with
  | Some _ => (None, [], None)
  | None => runToolBeforeHook (ei_hooks i) (cd_id d) (ei_params i)
  end.

(** src/src/harness/capabilities/executor.ts # executeCapability @229-230 *)
Definition autoRetryAllowed (d : CapabilityDescriptor) : bool :=
  cd_retryable d && ((cd_sideEffect d === se_none) || (cd_sideEffect d === se_read)).

(** src/src/harness/capabilities/executor.ts # executeCapability @243-249 *)
Definition authorize_again (fingerprint : string) : Run bool := fun v =>
  match iv_retryCoordinator v, iv_retryLedger v with
  | Some c, l =>
      let '(permit, c) := authorizeRetry rc_tool fingerprint false c in
      (Ok (match permit with Allow => true | Deny _ => false end), with_retries l (Some c) v)
  | None, Some l =>
      if canRetry rc_tool fingerprint l
      then (Ok true, with_retries (Some (ledger_record rc_tool fingerprint l).2) None v)
      else (Ok false, v)
  | None, None => (Ok false, v)
  end.

(** src/src/harness/capabilities/executor.ts # executeCapability @234-252

    [retries] attempts are left after the one that starts; [n] came before. *)
Fixpoint attempt_loop (d : CapabilityDescriptor) (h : CapabilityHandler) (params : jsval) (retries n : nat) : Run Response :=
  emit ev_call_started;;
  step (st_call params);;
  response ← lift (h n params);
  if rp_ok response then mret response
  else match retries with
       | O => mret response
       | S retries =>
           again ← authorize_again ("tool:" +:+ cd_id d);
           match again with
           | true =>
               emit (ev_call_failed (nullish (rp_error response) "capability execution failed") true);;
               attempt_loop d h params retries (S n)
           | false => mret response
           end
       end.

Definition is_some {A} (o : option A) : bool := match o with Some _ => true | None => false end.

(** src/src/harness/capabilities/executor.ts # executeCapability @253-280 *)
Definition response_result (response : Response) : Run ToolResult :=
  if negb (rp_ok response) then
    let message := nullish (rp_error response) "capability execution failed" in
    emit (ev_call_failed message false);;
    mret (failedResult message)
  else
    let content := match rp_output response with JStr s => Some s | v => json_stringify v end in
    let metadata := match rp_output response with
                    | JObj _ => match field "metadata" (rp_output response) with
                                | (JObj _ | JArr _) as m => m
                                | _ => JUndef
                                end
                    | _ => JUndef
                    end in
    emit ev_call_completed;;
    mret (mkToolResult true content None (Some metadata)).

(** src/src/harness/capabilities/executor.ts # executeCapability @206-281 *)
Definition run_handler (c : RegisteredCapability) (i : CapabilityExecuteInput) (params : jsval) : Run ToolResult :=
  match ei_tool i with
  | Some tool =>
      match ei_parallelResult i with
      | Some r => mret (toToolResult r)
      | None => step (st_call params);; lift (tl_execute tool 0%nat params)
      end
  | None =>
      v ← read;
      let maxRetries := if autoRetryAllowed (rg_descriptor c)
                           && (is_some (iv_retryLedger v) || is_some (iv_retryCoordinator v)) then 1%nat else 0%nat in
      response ← attempt_loop (rg_descriptor c) (rg_handler c) params maxRetries 0;
      response_result response
  end.

(** src/src/harness/capabilities/executor.ts # executeCapability @288-292 *)
Definition after_hooks (d : CapabilityDescriptor) (i : CapabilityExecuteInput) (params : jsval) (warnings : list string)
    (r : ToolResult) : ToolResult :=
  match ei_parallelResult i with
  | Some _ => r
  | None => let '(r, warnings') := runToolAfterHook (ei_hooks i) (cd_id d) params r in
            appendHookWarnings r (warnings ++ warnings')
  end.

(** src/src/harness/capabilities/executor.ts # executeCapability @300-312 *)
Definition validate_result (d : CapabilityDescriptor) (r : ToolResult) : Run ToolResult :=
  match validateJsonSchema (result_value r) (cd_outputSchema d) with
  | [] => mret r
  | errors =>
      if mode === cm_shadow then emit (ev_shadow_mismatch errors);; mret r
      else mret (failedResult ("result failed schema validation: " +:+ js_join "; " errors))
  end.

(** U+2026 *)
Definition ellipsis : string := "…".

(** src/src/harness/capabilities/executor.ts # executeCapability @316-332 *)
Definition limit_result (d : CapabilityDescriptor) (i : CapabilityExecuteInput) (r : ToolResult) : Run ToolResult :=
  let maxBytes := nullish (cd_maxOutputBytes d) DEFAULT_MAX_OUTPUT_BYTES in
  match tr_success r, ei_context i, ei_context i ≫= cv_artifactStore, tr_content r with
  | true, Some ctx, Some store, Some content =>
      if maxBytes <? str_length content then
        step (st_limit content);;
        limited ← lift (limitOutput sha256_hex content maxBytes (cv_runId ctx) (Some store));
        mret (match truthy (lo_artifactId limited) with
              | Some artifactId =>
                  mkToolResult (tr_success r)
                    (Some (lo_preview limited +:+ newline +:+ newline +:+ ellipsis +:+
                           " [output truncated: full content in artifact " +:+ artifactId +:+ "]"))
                    (tr_error r) (tr_metadata r)
              | None => r
              end)
      else mret r
  | _, _, _, _ => mret r
  end.

(** src/src/harness/capabilities/executor.ts # executeCapability @335-337 *)
Definition record_artifact (i : CapabilityExecuteInput) (snapshot : jsval) (r : ToolResult) : Run unit :=
  match ei_tracker i with
  | Some t => when (tr_success r) (step (st_record r);; lift (at_afterExecute t (ei_params i) snapshot r))
  | None => mret ()
  end.

(** src/src/harness/capabilities/executor.ts # executeCapability @339-343

    A throw leaves the reservations after it in the ledger. *)
Fixpoint commit_each (ids : list string) : Run unit := fun v =>
  match ids, iv_budget v with
  | [], _ | _, None => (Ok (), v)
  | id :: ids, Some l =>
      match budget_commit id zeroUsage l with
      | (None, l) => commit_each ids (with_budget (Some l) (iv_reservations v) v)
      | (Some e, l) => (Throw (he_message e), with_budget (Some l) (iv_reservations v) v)
      end
  end.
Definition commit_reservations : Run unit :=
  v ← read;
  commit_each (iv_reservations v);;
  modify (fun v => match iv_budget v with Some l => with_budget (Some l) [] v | None => v end).

(** src/src/harness/capabilities/executor.ts # executeCapability @288-345 *)
Definition finish (d : CapabilityDescriptor) (i : CapabilityExecuteInput) (params snapshot : jsval) (warnings : list string)
    (r : ToolResult) : Run ToolResult :=
  r ← validate_result d (after_hooks d i params warnings r);
  r ← limit_result d i r;
  record_artifact i snapshot r;;
  commit_reservations;;
  mret r.

(** src/src/harness/capabilities/executor.ts # executeCapability @198-201 *)
Definition take_snapshot (d : CapabilityDescriptor) (i : CapabilityExecuteInput) : Run jsval :=
  match ei_tracker i with
  | Some t => if cd_sideEffect d === se_write then step st_snapshot;; lift (at_beforeExecute t (ei_params i))
              else mret JUndef
  | None => mret JUndef
  end.

(** Steps 3 to 8. *)
Definition execute_allowed (c : RegisteredCapability) (i : CapabilityExecuteInput) : Run ToolResult :=
  let d := rg_descriptor c in
  match before_hooks d i with
  | (Some stop, warnings, _) => releaseReservations;; mret (appendHookWarnings stop warnings)
  | (None, warnings, replaceParams) =>
      let effectiveParams := default (ei_params i) replaceParams in
      snapshot ← take_snapshot d i;
      outcome ← attempt (run_handler c i effectiveParams);
      match outcome with
      | Throw message => releaseReservations;; mret (failedResult message)
      | Ok r => finish d i effectiveParams snapshot warnings r
      end
  end.

(** src/src/harness/capabilities/executor.ts # executeCapability

    An unknown capability throws before anything is done. *)
Definition executeCapability (startedAt : Z) (registry : CapabilityRegistry) (i : CapabilityExecuteInput) : Run ToolResult :=
  match resolveCapability startedAt registry i with
  | Throw e => lift (Throw (he_message e))
  | Ok c =>
      refused ← reserve_kinds (budgetKindsFor (cd_sideEffect (rg_descriptor c)));
      match refused with
      | Some message => mret (blockedResult message)
      | None =>
          decision ← lift (policyDecision i);
          match policy_allowed decision with
          | false =>
              releaseReservations;;
              emit (ev_policy_blocked decision);;
              mret (blockedResult (blockMessage decision))
          | true => execute_allowed c i
          end
      end
  end.

(** ** What the steps leave alone *)

(** The parameters the handler was called with. *)
Definition calls (v : Invocation) : list jsval :=
  omap (fun st => match st with st_call p => Some p | _ => None end) (iv_steps v).

(** Money and reservations unchanged. *)
Definition same_money : relation Invocation := fun v v' =>
  iv_budget v' = iv_budget v /\ iv_reservations v' = iv_reservations v.
(** The retry authority and the calls unchanged, too. *)
Definition quiet : relation Invocation := fun v v' =>
  same_money v v' /\ iv_retryLedger v' = iv_retryLedger v /\ iv_retryCoordinator v' = iv_retryCoordinator v /\
  calls v' = calls v.

#[local] Instance same_money_preorder : PreOrder same_money.
Proof. split; [done|]. intros x y z [? ?] [? ?]. split; congruence. Qed.
#[local] Instance quiet_preorder : PreOrder quiet.
Proof.
  split; [done|]. intros x y z (? & ? & ? & ?) (? & ? & ? & ?). split_and!; try congruence. by etrans.
Qed.
Lemma quiet_money v v' : quiet v v' -> same_money v v'.
Proof. by intros [? _]. Qed.

Definition is_call (st : CapabilityStep) : bool := match st with st_call _ => true | _ => false end.

Lemma calls_step st v : calls (with_step st v) = calls v ++ match st with st_call p => [p] | _ => [] end.
Proof. unfold calls. cbn [iv_steps with_step]. rewrite omap_app. by destruct st. Qed.
Lemma step_quiet st : is_call st = false -> keeps quiet (step st).
Proof.
  intros Hst. apply keeps_modify. intros v. split; [done|]. split_and!; [done..|].
  rewrite calls_step. destruct st; try done; by rewrite app_nil_r.
Qed.
Lemma emit_quiet e : keeps quiet (emit e).
Proof. by apply step_quiet. Qed.
#[local] Hint Resolve emit_quiet : keeps.
#[local] Hint Extern 2 (keeps quiet (step _)) => apply step_quiet; reflexivity : keeps.

Lemma validate_quiet d r : keeps quiet (validate_result d r).
Proof. unfold validate_result. repeat case_match; auto with keeps typeclass_instances. Qed.
Lemma limit_quiet d i r : keeps quiet (limit_result d i r).
Proof. unfold limit_result. repeat case_match; auto 10 with keeps typeclass_instances. Qed.
Lemma record_quiet i s r : keeps quiet (record_artifact i s r).
Proof. unfold record_artifact. case_match; auto 10 with keeps typeclass_instances. Qed.
Lemma snapshot_quiet d i : keeps quiet (take_snapshot d i).
Proof. unfold take_snapshot. repeat case_match; auto 10 with keeps typeclass_instances. Qed.
Lemma response_quiet r : keeps quiet (response_result r).
Proof. unfold response_result. case_match; auto 10 with keeps typeclass_instances. Qed.

(** ** The handler *)

(** The authority would let the capability's call be repeated. *)
Definition may_retry (id : string) (v : Invocation) : bool :=
  match iv_retryCoordinator v, iv_retryLedger v with
  | Some c, _ => canRetry rc_tool ("tool:" +:+ id) (co_ledger c)
  | None, Some l => canRetry rc_tool ("tool:" +:+ id) l
  | None, None => false
  end.

Lemma authorize_again_spec id v : exists v',
  authorize_again ("tool:" +:+ id) v = (Ok (may_retry id v), v') /\ same_money v v' /\ calls v' = calls v.
Proof.
  unfold authorize_again, may_retry.
  destruct (iv_retryCoordinator v) as [c|]; [unfold authorizeRetry|destruct (iv_retryLedger v) as [l|]].
  - destruct (canRetry rc_tool ("tool:" +:+ id) (co_ledger c)) eqn:E; cbn; rewrite ?E; eexists; done.
  - destruct (canRetry _ _ _) eqn:E; rewrite ?E; eexists; done.
  - by eexists.
Qed.

Lemma calls_emit e v : calls (emit e v).2 = calls v.
Proof. by destruct (emit_quiet e v) as (_ & _ & _ & ->). Qed.
Lemma emit_run e v : emit e v = (Ok (), with_step (st_emit e) v).
Proof. done. Qed.
Lemma may_retry_step id st v : may_retry id (with_step st v) = may_retry id v.
Proof. done. Qed.

(** The state after the start of an attempt. *)
Definition called (params : jsval) (v : Invocation) : Invocation :=
  with_step (st_call params) (with_step (st_emit ev_call_started) v).
Definition answered (r : Response) (v : Invocation) : res string Response * Invocation := (Ok r, v).

Lemma attempt_loop_unfold d h params retries n v :
  attempt_loop d h params retries n v =
  match h n params with
  | Throw e => (Throw e, called params v)
  | Ok r =>
      if rp_ok r then answered r (called params v)
      else match retries with
           | O => answered r (called params v)
           | S retries =>
               match authorize_again ("tool:" +:+ cd_id d) (called params v) with
               | (Throw e, v) => (Throw e, v)
               | (Ok true, v) =>
                   attempt_loop d h params retries (S n)
                     (with_step (st_emit (ev_call_failed (nullish (rp_error r) "capability execution failed") true)) v)
               | (Ok false, v) => answered r v
               end
           end
  end.
Proof.
  destruct retries; cbn [attempt_loop]; rewrite bind_run, emit_run; cbv beta iota;
    rewrite bind_run; cbn [step modify]; cbv beta iota; rewrite bind_run; unfold lift;
    (destruct (h n params) as [r|e]; [cbv beta iota|done]); destruct (rp_ok r); try done.
  rewrite bind_run. unfold called. by destruct (authorize_again _ _) as [[[]|e] v1].
Qed.

(** One call, or two of the same parameters when the authority grants the second. *)
Lemma attempt_loop_spec d h params retries : forall n v,
  exists m, calls (attempt_loop d h params retries n v).2 = calls v ++ replicate (S m) params /\
    same_money v (attempt_loop d h params retries n v).2 /\ (m <= retries)%nat /\
    ((0 < m)%nat -> may_retry (cd_id d) v = true).
Proof.
  assert (forall v, calls (called params v) = calls v ++ [params]) as Hcalled.
  { intros v. unfold called. by rewrite !calls_step, app_nil_r. }
  induction retries as [|retries IH]; intros n v; rewrite attempt_loop_unfold;
    (destruct (h n params) as [r|e]; [destruct (rp_ok r)|]).
  all: try (exists 0%nat; cbn [snd answered]; split_and!; [apply Hcalled|done|lia|lia]).
  destruct (authorize_again_spec (cd_id d) (called params v)) as (v2 & -> & [Hb Hr] & Hc).
  rewrite Hcalled in Hc. destruct (may_retry (cd_id d) (called params v)) eqn:E.
  - destruct (IH (S n) (with_step (st_emit (ev_call_failed (nullish (rp_error r) "capability execution failed") true)) v2))
      as (m & -> & [Hb' Hr'] & Hm & _).
    exists (S m). split_and!.
    + by rewrite calls_step, app_nil_r, Hc, <-app_assoc.
    + split; [rewrite Hb'; exact Hb|rewrite Hr'; exact Hr].
    + lia.
    + intros _. exact E.
  - exists 0%nat. cbn [snd answered]. split_and!; [exact Hc|split; [exact Hb|exact Hr]|lia|lia].
Qed.

Lemma run_handler_spec c i params v :
  let v' := (run_handler c i params v).2 in
  same_money v v' /\
  exists m, calls v' = calls v ++ replicate m params /\ (m <= 2)%nat /\
    ((1 < m)%nat -> ei_tool i = None /\ autoRetryAllowed (rg_descriptor c) = true /\
                  may_retry (cd_id (rg_descriptor c)) v = true) /\
    (m = 0%nat -> is_some (ei_parallelResult i) = true).
Proof.
  intros v'. unfold v', run_handler. destruct (ei_tool i) as [tool|].
  { destruct (ei_parallelResult i) as [r|].
    - split; [done|]. exists 0%nat. cbn. rewrite app_nil_r. split_and!; [done|lia|lia|done].
    - rewrite bind_run; cbn [step modify]; cbv beta iota. split; [done|]. exists 1%nat. cbn [lift snd].
      split_and!; [by rewrite calls_step|lia|lia|done]. }
  rewrite bind_run; cbn [read]; cbv beta iota.
  set (retries := if autoRetryAllowed _ && _ then _ else _). rewrite bind_run.
  destruct (attempt_loop_spec (rg_descriptor c) (rg_handler c) params retries 0 v) as (m & Hc & Hs & Hm & Hr).
  assert ((m <= 1)%nat /\ ((0 < m)%nat -> autoRetryAllowed (rg_descriptor c) = true)) as [Hm1 Hm2].
  { unfold retries in Hm. destruct (autoRetryAllowed _); cbn [andb] in Hm; [|lia].
    destruct (is_some _ || is_some _); (split; [lia|done]). }
  assert (forall v1, quiet (attempt_loop (rg_descriptor c) (rg_handler c) params retries 0 v).2 v1 ->
    same_money v v1 /\ exists k, calls v1 = calls v ++ replicate k params /\ (k <= 2)%nat /\
      ((1 < k)%nat -> @None ToolDescriptor = None /\ autoRetryAllowed (rg_descriptor c) = true /\
        may_retry (cd_id (rg_descriptor c)) v = true) /\ (k = 0%nat -> is_some (ei_parallelResult i) = true)) as Hall.
  { intros v1 (Hq & _ & _ & Hq'). split; [by etrans|]. exists (S m). rewrite Hq'.
    split_and!; [exact Hc|lia| |lia]. intros ?. split_and!; [done|apply Hm2; lia|apply Hr; lia]. }
  destruct (attempt_loop _ _ _ _ _ v) as [[r|e] v1]; cbn [snd] in *; apply Hall; [apply response_quiet|done].
Qed.

(** ** Money *)

Definition units (kinds : list BudgetKind) (k : BudgetKind) : Z := Z.of_nat (count_where (fun k' => k' === k) kinds).

Definition reserved (rs : list (string * BudgetKind)) (l : BudgetLedger) : BudgetLedger :=
  with_reservations (bl_reservations l ++ rs) l.
Definition not_held (l : BudgetLedger) (rs : list (string * BudgetKind)) : Prop :=
  Forall (fun r => r.1 ∉ jkeys (bl_reservations l)) rs.

Lemma reserved_nil l : reserved [] l = l.
Proof. unfold reserved. rewrite app_nil_r. by destruct l. Qed.

Lemma jdelete_app_fresh {V} (id : string) (x : V) m rs : id ∉ jkeys m -> jdelete id (m ++ (id, x) :: rs) = m ++ rs.
Proof.
  induction m as [|[id' x'] m IH]; cbn [app jdelete]; intros Hid; [by rewrite same_refl|].
  destruct (id' === id) eqn:E; reflect; [set_solver|]. rewrite IH; [done|set_solver].
Qed.
Lemma jget_app_fresh {V} (id : string) (x : V) m rs : id ∉ jkeys m -> jget id (m ++ (id, x) :: rs) = Some x.
Proof.
  induction m as [|[id' x'] m IH]; cbn [app jget]; intros Hid; [by rewrite same_refl|].
  destruct (id' === id) eqn:E; reflect; [set_solver|]. apply IH. set_solver.
Qed.

Lemma release_all l rs : not_held l rs -> fold_left (fun l id => budget_release id l) rs.*1 (reserved rs l) = l.
Proof.
  induction rs as [|[id k] rs IH]; intros Hrs; [apply reserved_nil|].
  apply Forall_cons in Hrs as [Hid Hrs]. cbn [fmap list_fmap fold_left fst].
  unfold budget_release at 2. cbn [bl_reservations reserved with_reservations]. cbn [fst] in Hid.
  rewrite jdelete_app_fresh by exact Hid. exact (IH Hrs).
Qed.

Lemma held_reserved l rs k : held l k <= held (reserved rs l) k.
Proof.
  unfold held, pending, reserved, jvalues. cbn [bl_used bl_reservations with_reservations].
  rewrite fmap_app, count_where_app. lia.
Qed.

(** The state of a run that holds the reservations [rs] on the ledger [l]. *)
Definition holding (l : BudgetLedger) (rs : list (string * BudgetKind)) (v : Invocation) : Prop :=
  iv_budget v = Some (reserved rs l) /\ iv_reservations v = rs.*1 /\ not_held l rs.

Lemma release_spec l rs v : holding l rs v ->
  releaseReservations v = (Ok (), with_budget (Some l) [] v).
Proof.
  intros (Hb & Hi & Hn). unfold releaseReservations, modify. rewrite Hb, Hi, release_all by done. done.
Qed.

Lemma commit_each_spec l rs : not_held l rs -> forall v, iv_budget v = Some (reserved rs l) ->
  match commit_each rs.*1 v with
  | (Ok _, v') => exists u, v' = with_budget (Some (mkLedger (bl_limits l) u (bl_reservations l))) (iv_reservations v) v /\
      forall k, usedKind u k = usedKind (bl_used l) k + units rs.*2 k
  | (Throw _, v') => exists u rs', v' = with_budget (Some (mkLedger (bl_limits l) u (bl_reservations l ++ rs'))) (iv_reservations v) v /\
      rs' `suffix_of` rs /\ forall k, usedKind (bl_used l) k <= usedKind u k
  end.
Proof.
  revert l. induction rs as [|[id kind] rs IH]; intros l Hn v Hv.
  { cbn [fmap list_fmap commit_each]. exists (bl_used l). split; [|intros k; unfold units; cbn; lia].
    rewrite reserved_nil in Hv. destruct l as [m u r], v as [b ids rl rc st]. cbn in *. by subst. }
  apply Forall_cons in Hn as [Hid Hn]. cbn [fst] in Hid. cbn [fmap list_fmap fst commit_each]. rewrite Hv.
  unfold budget_commit. cbn [bl_reservations reserved with_reservations bl_used bl_limits].
  rewrite jget_app_fresh, jdelete_app_fresh by done.
  set (u := add_actual zeroUsage (count_unit kind (bl_used l))).
  set (l1 := mkLedger (bl_limits l) u (bl_reservations l)).
  assert (forall k, usedKind u k = usedKind (bl_used l) k + one_if (kind === k)) as Hu.
  { intros k. unfold u. by rewrite usedKind_actual, usedKind_count. }
  match goal with |- context [if ?b1 then _ else if ?b2 then _ else if ?b3 then _ else if ?b4 then _ else None] =>
    destruct (if b1 then Some (mkError budget_exhausted (exhausted_message "token_budget (input)"))
      else if b2 then Some (mkError budget_exhausted (exhausted_message "token_budget (output)"))
      else if b3 then Some (mkError budget_exhausted (exhausted_message "token_budget (cache miss)"))
      else if b4 then Some (mkError budget_exhausted (exhausted_message "wall_time_budget")) else None) as [e|] end.
  - exists u, rs. split_and!; [done|by apply suffix_cons_r|]. intros k. rewrite Hu. unfold one_if. destruct (_ === _); lia.
  - specialize (IH l1 Hn (with_budget (Some (reserved rs l1)) (iv_reservations v) v) eq_refl).
    change (mkLedger (bl_limits l) u (bl_reservations l ++ rs)) with (reserved rs l1).
    destruct (commit_each _ _) as [[?|e] v'].
    + destruct IH as (u' & -> & Hu'). exists u'. split; [done|]. intros k. rewrite Hu'.
      unfold l1, units. cbn [bl_used]. rewrite Hu. cbn [fmap list_fmap snd]. rewrite count_where_cons. unfold one_if.
      destruct (kind === k); lia.
    + destruct IH as (u' & rs' & -> & Hs & Hu'). exists u', rs'. split_and!; [done|by apply suffix_cons_r|].
      intros k. etrans; [|apply Hu']. unfold l1. cbn [bl_used]. rewrite Hu. unfold one_if. destruct (kind === k); lia.
Qed.

(** A ledger with room for one more of each kind. *)
Definition has_room (l : BudgetLedger) (kinds : list BudgetKind) : Prop :=
  Forall (fun k => held l k < maxKind (bl_limits l) k) kinds.

Lemma reserve_kinds_none kinds v : iv_budget v = None -> reserve_kinds kinds v = (Ok None, v).
Proof. intros Hv. destruct kinds; cbn [reserve_kinds]; [done|by rewrite Hv]. Qed.

Lemma reserve_room l rs kind l' :
  budget_reserve (newId (reserved rs l)) kind (reserved rs l) = Ok l' -> held l kind < maxKind (bl_limits l) kind.
Proof.
  intros H'. destruct (reserve_held _ _ _ _ kind H') as (_ & _ & _ & Hlt).
  pose proof (held_reserved l rs kind). cbn [bl_limits reserved with_reservations] in Hlt. lia.
Qed.

Section fresh.
(** [randomUUID()] gives an id no pending reservation has. *)
Hypothesis newId_fresh : forall l, newId l ∉ jkeys (bl_reservations l).

Lemma reserve_kinds_spec l kinds : forall rs v, holding l rs v ->
  match reserve_kinds kinds v with
  | (Ok None, v') => exists rs', rs'.*2 = kinds /\ holding l (rs ++ rs') v' /\ has_room l kinds /\
      v' = with_budget (iv_budget v') (iv_reservations v') v
  | (Ok (Some _), v') => v' = with_budget (Some l) [] v
  | (Throw _, _) => False
  end.
Proof.
  induction kinds as [|kind kinds IH]; intros rs v Hv; cbn [reserve_kinds].
  { exists []. rewrite app_nil_r. split_and!; [done..|constructor|by destruct v]. }
  pose proof Hv as (Hb & Hi & Hn). rewrite Hb. set (l1 := reserved rs l).
  destruct (budget_reserve (newId l1) kind l1) as [l2|e] eqn:E.
  - pose proof (reserve_room l rs kind l2 E) as Hroom. pose proof (newId_fresh l1) as Hfresh.
    assert (l2 = reserved (rs ++ [(newId l1, kind)]) l) as ->.
    { revert E. unfold budget_reserve. case_match; [done|]. intros [= <-].
      rewrite jset_fresh by done. unfold l1, reserved, with_reservations. cbn. by rewrite app_assoc. }
    assert (holding l (rs ++ [(newId l1, kind)])
              (with_budget (Some (reserved (rs ++ [(newId l1, kind)]) l)) (iv_reservations v ++ [newId l1]) v)) as Hh.
    { split_and!; [done|cbn [iv_reservations with_budget]; rewrite Hi, fmap_app; done|].
      apply Forall_app. split; [done|]. constructor; [|constructor]. cbn [fst].
      intros Hin. apply Hfresh. unfold l1, reserved, jkeys. cbn [bl_reservations with_reservations].
      rewrite fmap_app. apply elem_of_app. by left. }
    specialize (IH _ _ Hh). destruct (reserve_kinds kinds _) as [[[m|]|?] v']; [done| |done].
    destruct IH as (rs' & Hk & Hh' & Hr & Hv'). exists ((newId l1, kind) :: rs'). split_and!.
    + cbn [fmap list_fmap snd]. by rewrite Hk.
    + by rewrite <-app_assoc in Hh'.
    + by constructor.
    + rewrite Hv'. done.
  - rewrite (release_spec l rs v Hv). done.
Qed.

(** The reservations of a run that stops are given back. *)
Lemma released_money l rs v : holding l rs v ->
  iv_budget (releaseReservations v).2 = Some l /\ iv_reservations (releaseReservations v).2 = [].
Proof. intros Hv. by rewrite (release_spec l rs v Hv). Qed.

Lemma holding_quiet l rs v v' : same_money v v' -> holding l rs v -> holding l rs v'.
Proof. intros [Hb Hi] (H1 & H2 & H3). split_and!; congruence. Qed.

(** What a run that returned has charged. *)
Definition charged (l l' : BudgetLedger) (kinds : list BudgetKind) : Prop :=
  bl_limits l' = bl_limits l /\ bl_reservations l' = bl_reservations l /\
  forall k, usedKind (bl_used l') k = usedKind (bl_used l) k + units kinds k.
(** What one that threw on the way has left: its reservations from some point on
    are still in the ledger. *)
Definition leaked (l l' : BudgetLedger) (rs : list (string * BudgetKind)) : Prop :=
  bl_limits l' = bl_limits l /\ (exists rs', rs' `suffix_of` rs /\ bl_reservations l' = bl_reservations l ++ rs') /\
  forall k, usedKind (bl_used l) k <= usedKind (bl_used l') k.

Lemma leaked_self l rs v : holding l rs v -> exists l', iv_budget v = Some l' /\ leaked l l' rs.
Proof. intros (Hb & _). exists (reserved rs l). split; [done|]. split_and!; [done|by exists rs|done]. Qed.

Lemma commit_spec l rs v : holding l rs v ->
  match commit_reservations v with
  | (Ok _, v') => iv_reservations v' = [] /\ exists l', iv_budget v' = Some l' /\ charged l l' rs.*2
  | (Throw _, v') => exists l', iv_budget v' = Some l' /\ leaked l l' rs
  end.
Proof.
  intros (Hb & Hi & Hn). unfold commit_reservations. rewrite bind_run. cbn [read]. cbv beta iota.
  rewrite bind_run, Hi. pose proof (commit_each_spec l rs Hn v Hb) as Hc.
  destruct (commit_each rs.*1 v) as [[?|e] v'].
  - destruct Hc as (u & -> & Hu). cbn. split; [done|]. eexists. split; [done|]. by split_and!.
  - destruct Hc as (u & rs' & -> & Hs & Hu). cbn. eexists. split; [done|]. split_and!; [done|by exists rs'|done].
Qed.

(** Only the money moves. *)
Definition same_trace : relation Invocation := fun v v' =>
  iv_steps v' = iv_steps v /\ iv_retryLedger v' = iv_retryLedger v /\ iv_retryCoordinator v' = iv_retryCoordinator v.
#[local] Instance same_trace_preorder : PreOrder same_trace.
Proof. split; [done|]. intros x y z (? & ? & ?) (? & ? & ?). split_and!; congruence. Qed.

Lemma release_trace : keeps same_trace releaseReservations.
Proof. apply keeps_modify. intros v. by destruct (iv_budget v). Qed.
Lemma reserve_trace kinds : keeps same_trace (reserve_kinds kinds).
Proof.
  induction kinds as [|kind kinds IH]; intros v; cbn [reserve_kinds]; [done|].
  destruct (iv_budget v) as [l|]; [|done]. destruct (budget_reserve _ _ l) as [l'|e].
  - etrans; [|apply IH]. done.
  - pose proof (release_trace v) as Hr. by destruct (releaseReservations v).
Qed.
Lemma commit_each_trace ids : keeps same_trace (commit_each ids).
Proof.
  induction ids as [|id ids IH]; intros v; cbn [commit_each]; [done|].
  destruct (iv_budget v) as [l|]; [|done]. destruct (budget_commit id zeroUsage l) as [[e|] l']; [done|].
  etrans; [|apply IH]. done.
Qed.
Lemma commit_trace : keeps same_trace commit_reservations.
Proof.
  apply keeps_bind; [typeclasses eauto|apply keeps_read; typeclasses eauto|]. intros v0.
  apply keeps_bind; [typeclasses eauto|apply commit_each_trace|]. intros _.
  apply keeps_modify. intros v. by destruct (iv_budget v).
Qed.
Lemma same_trace_calls v v' : same_trace v v' -> calls v' = calls v.
Proof. intros (H' & _). unfold calls. by rewrite H'. Qed.

(** What a run may end in, from a state that holds [rs] on [l]. *)
Definition ends_well (l : BudgetLedger) (rs : list (string * BudgetKind)) (out : res string ToolResult * Invocation) : Prop :=
  match out with
  | (Ok r, v') => iv_reservations v' = [] /\ exists l', iv_budget v' = Some l' /\
      ((l' = l /\ tr_success r = false) \/ charged l l' rs.*2)
  | (Throw _, v') => exists l', iv_budget v' = Some l' /\ leaked l l' rs
  end.

Lemma finish_spec d i params snapshot warnings r l rs v : holding l rs v ->
  ends_well l rs (finish d i params snapshot warnings r v).
Proof.
  intros Hv. unfold finish.
  assert (forall e v', quiet v v' -> ends_well l rs (Throw e, v')) as Hthrow.
  { intros e v' [Hq _]. exact (leaked_self l rs v' (holding_quiet l rs v v' Hq Hv)). }
  apply (keeps_then quiet); [apply validate_quiet| |exact Hthrow]. intros r1 v1 Q1.
  apply (keeps_then quiet); [apply limit_quiet| |intros e v' ?; apply (Hthrow e); by etrans]. intros r2 v2 Q2.
  apply (keeps_then quiet); [apply record_quiet| |intros e v' ?; apply (Hthrow e); etrans; [done|by etrans]].
  intros [] v3 Q3. assert (quiet v v3) as [Q _] by (etrans; [exact Q1|by etrans]).
  pose proof (commit_spec l rs v3 (holding_quiet l rs v v3 Q Hv)) as Hc. rewrite bind_run.
  destruct (commit_reservations v3) as [[?|e] v4]; [|exact Hc].
  destruct Hc as (Hi & l' & Hb & Hl). cbn. split; [done|]. exists l'. auto.
Qed.

Lemma finish_calls d i params snapshot warnings r v : calls (finish d i params snapshot warnings r v).2 = calls v.
Proof.
  assert (keeps (fun v v' => calls v' = calls v) (finish d i params snapshot warnings r)) as Hk; [|exact (Hk v)].
  assert (PreOrder (fun v v' : Invocation => calls v' = calls v)) by (split; [done|intros ??? ??; congruence]).
  assert (forall A (m : Run A), keeps quiet m -> keeps (fun v v' => calls v' = calls v) m) as Hq.
  { intros A m Hm s. by destruct (Hm s) as (_ & _ & _ & ->). }
  unfold finish.
  apply keeps_bind; [done|apply Hq, validate_quiet|]. intros r1.
  apply keeps_bind; [done|apply Hq, limit_quiet|]. intros r2.
  apply keeps_bind; [done|apply Hq, record_quiet|]. intros [].
  apply keeps_bind; [done|intros s; apply same_trace_calls, commit_trace|]. intros [].
  by apply keeps_ret.
Qed.

Definition hooks_let_through (d : CapabilityDescriptor) (i : CapabilityExecuteInput) (p : jsval) : Prop :=
  match ei_parallelResult i, ei_hooks i with
  | None, Some hk => hooks_agree (cd_id d) (hk_before hk) (ei_params i) p
  | _, _ => p = ei_params i
  end.

Lemma before_hooks_spec d i :
  match before_hooks d i with
  | (None, _, replaced) => hooks_let_through d i (default (ei_params i) replaced)
  | (Some stop, _, _) => tr_success stop = false
  end.
Proof.
  unfold before_hooks, hooks_let_through. destruct (ei_parallelResult i); [done|].
  pose proof (runToolBeforeHook_spec (ei_hooks i) (cd_id d) (ei_params i)) as Hs.
  destruct (runToolBeforeHook _ _ _) as [[[stop|] ws] replaced]; [by destruct Hs|exact Hs].
Qed.
Lemma appendHookWarnings_success r ws : tr_success (appendHookWarnings r ws) = tr_success r.
Proof. by destruct ws. Qed.

Lemma stopped_ends_well l rs v (r : ToolResult) : holding l rs v -> tr_success r = false ->
  ends_well l rs ((releaseReservations;; mret r) v).
Proof. intros Hv Hr. rewrite bind_run, (release_spec l rs v Hv). cbn. split; [done|]. exists l. auto. Qed.

Lemma execute_allowed_spec c i l rs v : holding l rs v -> ends_well l rs (execute_allowed c i v).
Proof.
  intros Hv. unfold execute_allowed. pose proof (before_hooks_spec (rg_descriptor c) i) as Hh.
  destruct (before_hooks (rg_descriptor c) i) as [[[stop|] warnings] replaced].
  { apply stopped_ends_well; [done|]. by rewrite appendHookWarnings_success. }
  apply (keeps_then quiet); [apply snapshot_quiet| |].
  2: { intros e v' [Hq _]. exact (leaked_self l rs v' (holding_quiet l rs v v' Hq Hv)). }
  intros snapshot v1 [Q1 _]. pose proof (holding_quiet l rs v v1 Q1 Hv) as Hv1. rewrite bind_run. unfold attempt.
  pose proof (run_handler_spec c i (default (ei_params i) replaced) v1) as [Hm _].
  destruct (run_handler _ _ _ v1) as [[r|e] v2]; cbn [snd] in Hm; pose proof (holding_quiet l rs v1 v2 Hm Hv1) as Hv2.
  - by apply finish_spec.
  - by apply stopped_ends_well.
Qed.

(** The calls an allowed invocation makes. *)
Definition governed_calls (c : RegisteredCapability) (i : CapabilityExecuteInput) (v v' : Invocation) : Prop :=
  exists m p, calls v' = calls v ++ replicate m p /\ (m <= 2)%nat /\
    ((0 < m)%nat -> hooks_let_through (rg_descriptor c) i p) /\
    ((1 < m)%nat -> ei_tool i = None /\ cd_retryable (rg_descriptor c) = true /\
       (cd_sideEffect (rg_descriptor c) = se_none \/ cd_sideEffect (rg_descriptor c) = se_read) /\
       may_retry (cd_id (rg_descriptor c)) v = true).

Lemma autoRetry_only d : autoRetryAllowed d = true -> cd_retryable d = true /\ (cd_sideEffect d = se_none \/ cd_sideEffect d = se_read).
Proof. unfold autoRetryAllowed. intros [? [Hd|Hd]%orb_true_iff]%andb_true_iff; apply same_true in Hd; auto. Qed.
Lemma governed_none c i v v' : calls v' = calls v -> governed_calls c i v v'.
Proof. intros Hc. exists 0%nat, JUndef. rewrite Hc, app_nil_r. split_and!; [done|lia..]. Qed.
Lemma may_retry_quiet id v v' : quiet v v' -> may_retry id v' = may_retry id v.
Proof. intros (_ & Hl & Hc & _). unfold may_retry. by rewrite Hl, Hc. Qed.

Lemma execute_allowed_calls c i v : governed_calls c i v (execute_allowed c i v).2.
Proof.
  unfold execute_allowed. pose proof (before_hooks_spec (rg_descriptor c) i) as Hh.
  destruct (before_hooks (rg_descriptor c) i) as [[[stop|] warnings] replaced].
  { apply governed_none. rewrite bind_run. cbn. apply same_trace_calls, release_trace. }
  apply (keeps_then quiet _ _ (fun out => governed_calls c i v out.2)); [apply snapshot_quiet| |].
  2: { intros e v' (_ & _ & _ & Hc). by apply governed_none. }
  intros snapshot v1 Q1. pose proof Q1 as (_ & _ & _ & Hc1). rewrite bind_run. unfold attempt.
  pose proof (run_handler_spec c i (default (ei_params i) replaced) v1) as (_ & m & Hc & Hm & Hm2 & _).
  rewrite Hc1, (may_retry_quiet _ v v1 Q1) in *.
  destruct (run_handler _ _ _ v1) as [[r|e] v2]; cbn [snd] in Hc;
    exists m, (default (ei_params i) replaced);
    (split_and!; [|exact Hm|by intros _|intros Hlt; destruct (Hm2 Hlt) as (? & [? ?]%autoRetry_only & ?); auto]).
  - by rewrite finish_calls.
  - rewrite bind_run. cbn. rewrite <-Hc. apply same_trace_calls, release_trace.
Qed.

(** However an invocation of a capability that has a budget ends, the ledger is
    accounted for, given that reservation ids are fresh.  If it returns, none of
    its reservations is left in the ledger, and either exactly one unit of each
    kind the capability consumes (a tool call, and a write or an external action
    for those side effects) has been counted, or nothing has and the result is a
    failure: a successful result is always charged.  If it throws, either the
    capability was unknown and nothing was touched, or the reservations it still
    held stay in the ledger. *)
Theorem capability_settles_budget startedAt registry i v l o v' :
  iv_budget v = Some l -> iv_reservations v = [] ->
  executeCapability startedAt registry i v = (o, v') ->
  match resolveCapability startedAt registry i with
  | Throw e => o = Throw (he_message e) /\ v' = v
  | Ok c =>
      let kinds := budgetKindsFor (cd_sideEffect (rg_descriptor c)) in
      match o with
      | Ok r => iv_reservations v' = [] /\ exists l', iv_budget v' = Some l' /\
          ((l' = l /\ tr_success r = false) \/ charged l l' kinds)
      | Throw _ => exists l' rs, iv_budget v' = Some l' /\ rs.*2 = kinds /\ leaked l l' rs
      end
  end.
Proof.
  intros Hb Hi E. unfold executeCapability in E.
  destruct (resolveCapability startedAt registry i) as [c|e]; [|by injection E as <- <-].
  set (kinds := budgetKindsFor _) in *.
  assert (holding l [] v) as Hv0.
  { split_and!; [by rewrite reserved_nil|done|by constructor]. }
  pose proof (reserve_kinds_spec l kinds [] v Hv0) as Hr. rewrite bind_run in E.
  destruct (reserve_kinds kinds v) as [[[m|]|?] v1]; [| |done].
  { subst v1. injection E as <- <-. cbn. split; [done|]. exists l. auto. }
  destruct Hr as (rs & Hk & Hv1 & _ & _). cbn [app] in Hv1.
  assert (ends_well l rs (o, v')) as Hw.
  { rewrite <-E. rewrite bind_run. unfold lift. destruct (policyDecision i) as [d|e]; [|by apply leaked_self].
    cbv beta iota. destruct (policy_allowed d); [by apply execute_allowed_spec|].
    rewrite bind_run, (release_spec l rs v1 Hv1). cbn. split; [done|]. exists l. auto. }
  destruct o as [r|e]; cbn in Hw.
  - rewrite Hk in Hw. exact Hw.
  - destruct Hw as (l' & ? & ?). by exists l', rs.
Qed.

Lemma governed_after c i v0 v v' : same_trace v0 v -> governed_calls c i v v' -> governed_calls c i v0 v'.
Proof.
  intros Ht (m & p & Hc & Hm & Hh & Hr). exists m, p. rewrite <-(same_trace_calls v0 v Ht).
  assert (may_retry (cd_id (rg_descriptor c)) v0 = may_retry (cd_id (rg_descriptor c)) v) as ->; [|done].
  destruct Ht as (_ & Hl & Hco). unfold may_retry. by rewrite Hl, Hco.
Qed.

(** C20: A capability's handler (or the tool itself) is called only when every
    gate let the invocation through: the capability is known, its budget had room
    for each kind it consumes, the policy allowed it, and the before-hooks, in
    order, agreed; it is called with the parameters the last hook left.  It is
    called at most twice, with the same parameters, and twice only outside the
    loop, for a retryable capability without side effects or only reading, while
    the retry authority had an attempt left for it. *)
Theorem capability_calls_governed startedAt registry i v o v' :
  executeCapability startedAt registry i v = (o, v') ->
  calls v' = calls v \/
  exists c, resolveCapability startedAt registry i = Ok c /\
    (forall l, iv_budget v = Some l -> iv_reservations v = [] -> has_room l (budgetKindsFor (cd_sideEffect (rg_descriptor c)))) /\
    (exists category, policyDecision i = Ok (PolicyAllowed category)) /\
    governed_calls c i v v'.
Proof.
  intros E. unfold executeCapability in E.
  destruct (resolveCapability startedAt registry i) as [c|e]; [|injection E as _ <-; by left].
  pose proof (reserve_trace (budgetKindsFor (cd_sideEffect (rg_descriptor c))) v) as Ht.
  assert (forall l v1, iv_budget v = Some l -> iv_reservations v = [] ->
    reserve_kinds (budgetKindsFor (cd_sideEffect (rg_descriptor c))) v = (Ok None, v1) ->
    has_room l (budgetKindsFor (cd_sideEffect (rg_descriptor c)))) as Hroom.
  { intros l v1 Hb Hi Er. pose proof (reserve_kinds_spec l (budgetKindsFor (cd_sideEffect (rg_descriptor c))) [] v) as Hs.
    rewrite Er in Hs. destruct Hs as (? & _ & _ & ? & _); [|done]. split_and!; [by rewrite reserved_nil|done|by constructor]. }
  rewrite bind_run in E. destruct (reserve_kinds _ v) as [[[m|]|e] v1]; cbn [snd] in Ht;
    [injection E as _ <-; left; by apply same_trace_calls| |injection E as _ <-; left; by apply same_trace_calls].
  rewrite bind_run in E. unfold lift in E. destruct (policyDecision i) as [d|e];
    [|injection E as _ <-; left; by apply same_trace_calls].
  destruct d as [category|category b]; cbn [policy_allowed] in E.
  - right. exists c. split_and!; [done| |by exists category|].
    + intros l Hb Hi. by eapply Hroom.
    + apply (governed_after _ _ _ v1 _ Ht). pose proof (execute_allowed_calls c i v1) as Hg. by rewrite E in Hg.
  - left. rewrite bind_run in E. pose proof (release_trace v1) as Hrel.
    destruct (releaseReservations v1) as [[?|e] v2]; cbn [snd] in Hrel.
    + rewrite bind_run, emit_run in E. injection E as _ <-. rewrite calls_step, app_nil_r.
      apply same_trace_calls. by etrans.
    + injection E as _ <-. apply same_trace_calls. by etrans.
Qed.
End fresh.
End executor.

(** ** Witnesses and what the code does not intend *)

(** An id longer than every one in use. *)
Fixpoint all_ids (ids : list string) : string :=
  match ids with [] => "r" | id :: ids => id +:+ all_ids ids end.
Definition longer_id (l : BudgetLedger) : string := all_ids (jkeys (bl_reservations l)).

Lemma all_ids_longer ids :
  (0 < String.length (all_ids ids))%nat /\
  forall id, id ∈ ids -> (String.length id < String.length (all_ids ids))%nat.
Proof.
  induction ids as [|x ids [IH0 IH]]; cbn [all_ids].
  - split; [cbn; lia|]. intros id Hin. by apply elem_of_nil in Hin.
  - rewrite str_length_app. split; [lia|]. intros id [->|Hin]%elem_of_cons; [lia|]. specialize (IH _ Hin). lia.
Qed.
Lemma longer_id_fresh l : longer_id l ∉ jkeys (bl_reservations l).
Proof. intros Hin. pose proof (proj2 (all_ids_longer _) _ Hin). unfold longer_id in *. lia. Qed.

Definition sample_capability (effect : SideEffect) (h : CapabilityHandler) : CapabilityRegistry :=
  [("probe", mkRegistered
     (createCapabilityDescriptor (mkDescriptorPartial "probe" ck_tool (record_of [] []) None (Some effect) None None
        (Some 1) (Some true) None None None None None)) h)].
(** A handler that fails once. *)
Definition flaky : CapabilityHandler := fun n _ =>
  match n with
  | O => Ok (mkResponse false JUndef (Some "busy"))
  | _ => Ok (mkResponse true (JStr "found") None)
  end.
Definition sample_call (ctx : option ContextView) : CapabilityExecuteInput :=
  mkExecute "probe" (JObj [("path", JStr "a.ts")]) None None None (Some (PolicyAllowed safe)) None None ctx.
Definition sample_ledger : BudgetLedger := createBudgetLedger defaultRunBudget.
Definition sample_start (l : BudgetLedger) : Invocation (X := unit) :=
  mkInvocation (Some l) [] (Some createRetryLedger) None [].
Definition sample_run (m : CapabilityMode) (i : CapabilityExecuteInput) (r : CapabilityRegistry) (v : Invocation (X := unit)) :
    res string ToolResult * Invocation (X := unit) :=
  executeCapability (H := no_foreign) "/w" false m longer_id (fun s => s) (fun _ => "refused") 0 r i v.

Lemma capability_settles_budget_witness :
  let out := sample_run cm_enabled (sample_call None) (sample_capability se_read flaky) (sample_start sample_ledger) in
  exists l', iv_budget out.2 = Some l' /\
    ((l' = sample_ledger /\ false = true) \/ charged sample_ledger l' [tool_call]).
Proof.
  pose proof (capability_settles_budget (H := no_foreign) (X := unit) "/w" false cm_enabled longer_id (fun s => s)
    (fun _ => "refused") longer_id_fresh 0 (sample_capability se_read flaky) (sample_call None) (sample_start sample_ledger)
    sample_ledger _ _ eq_refl eq_refl (surjective_pairing _)) as Hs.
  cbn -[sample_run] in Hs. destruct Hs as (_ & l' & Hb & Hc). exists l'. split; [exact Hb|].
  destruct Hc as [[-> Hf]|Hc]; [|by right]. vm_compute in Hf. discriminate.
Defined.

Lemma capability_calls_governed_witness :
  let out := sample_run cm_enabled (sample_call None) (sample_capability se_read flaky) (sample_start sample_ledger) in
  calls out.2 = calls (sample_start sample_ledger) \/
  exists c, resolveCapability 0 (sample_capability se_read flaky) (sample_call None) = Ok c /\
    governed_calls c (sample_call None) (sample_start sample_ledger) out.2.
Proof.
  destruct (capability_calls_governed (H := no_foreign) (X := unit) "/w" false cm_enabled longer_id (fun s => s)
    (fun _ => "refused") longer_id_fresh 0 (sample_capability se_read flaky) (sample_call None) (sample_start sample_ledger)
    _ _ (surjective_pairing _)) as [Hc|(c & Hr & _ & _ & Hg)]; [by left|right; exists c; split; [exact Hr|exact Hg]].
Defined.

(** The second attempt is made, and its result returned. *)
Example flaky_twice :
  let out := sample_run cm_enabled (sample_call None) (sample_capability se_read flaky) (sample_start sample_ledger) in
  length (calls out.2) = 2%nat /\ out.1 = Ok (mkToolResult true (Some "found") None (Some JUndef)).
Proof. by vm_compute. Qed.
Example no_blind_repeat :
  let out := sample_run cm_enabled (sample_call None) (sample_capability se_write flaky) (sample_start sample_ledger) in
  length (calls out.2) = 1%nat /\ out.1 = Ok (failedResult "busy").
Proof. by vm_compute. Qed.

(** A ledger whose input tokens have passed their limit: [observeTokens] puts it there. *)
Definition overrun_ledger : BudgetLedger :=
  mkLedger (mkBudget 1000 10 10 5 100 100 10 10 10) (mkUsage 0 0 0 6 0 0 0 0 0) [].
Definition steady : CapabilityHandler := fun _ _ => Ok (mkResponse true (JStr "written") None).

(** When the commit throws, the write has been done but its result is lost, and
    the reservation after the one committed stays in the ledger. *)
Lemma failed_commit_loses_result :
  let out := sample_run cm_enabled (sample_call None) (sample_capability se_write steady) (sample_start overrun_ledger) in
  out.1 = Throw "Budget exhausted: token_budget (input)" /\ length (calls out.2) = 1%nat /\
  (jvalues ∘ bl_reservations <$> iv_budget out.2) = Some [write].
Proof. by vm_compute. Qed.

Definition broken_store : ContextView :=
  mkContextView "run" (Some (mkStore (fun _ => Throw "disk full") (fun _ _ => Ok ()))).
Definition long_answer : CapabilityHandler := fun _ _ => Ok (mkResponse true (JStr (js_join "" (repeat "0123456789" 801))) None).

(** So it is when the artifact store cannot take a long result: the call has
    been made, the result is lost and both reservations stay. *)
Lemma failed_store_leaks :
  let out := sample_run cm_enabled (sample_call (Some broken_store)) (sample_capability se_write long_answer) (sample_start sample_ledger) in
  out.1 = Throw "disk full" /\ length (calls out.2) = 1%nat /\
  (jvalues ∘ bl_reservations <$> iv_budget out.2) = Some [tool_call; write].
Proof. by vm_compute. Qed.

(** A handler that answers without an output fails the validation of its result,
    also in legacy mode. *)
Lemma silent_handler_fails :
  let silent : CapabilityHandler := fun _ _ => Ok (mkResponse true JUndef None) in
  (sample_run (getCapabilityMode None) (sample_call None) (sample_capability se_none silent) (sample_start sample_ledger)).1 =
  Ok (failedResult "result failed schema validation: $.content: expected string, got undefined").
Proof. by vm_compute. Qed.

(** In node mode the message of a failing tool is replaced by a general one. *)
Lemma tool_failure_message_lost :
  let tool := mkToolDescriptor (plain_tool "probe" true (Some safe)) None (record_of [] [])
                (fun _ _ => Ok (failedResult "ENOENT: a.ts")) in
  let registry := [("probe", mkRegistered (projectCapabilityDescriptor tool) (toolCapabilityHandler 0 tool))] in
  (sample_run cm_enabled (sample_call None) registry (sample_start sample_ledger)).1 =
  Ok (failedResult "capability execution failed").
Proof. by vm_compute. Qed.

(** A before-hook redirects a write the policy had judged to be inside the
    project; the handler gets the path outside. *)
Definition redirecting : HookSystem :=
  mkHooks [fun _ => Ok (mkHookOutput false (Some (JObj [("path", JStr "/etc/hosts")])) None None None None None)] [].
Definition sample_writer : ToolDescriptor :=
  mkToolDescriptor (plain_tool "probe" false (Some git)) None (record_of [] []) (fun _ _ => Ok (failedResult "x")).
Definition confined (params : jsval) : NodePolicyContext :=
  mkNodePolicy newPermissionGate (Some strict) None (Some (tl_defn sample_writer)) params (Some "probe") (Some "/w") (Some ["/w"]).

Lemma redirected_write_unjudged :
  let inside := JObj [("path", JStr "a.ts")] in
  let outside := JObj [("path", JStr "/etc/hosts")] in
  let i p := mkExecute "probe" p None (Some redirecting) None None (Some (confined p)) None None in
  let run p := sample_run cm_enabled (i p) (sample_capability se_write steady) (sample_start sample_ledger) in
  calls (run inside).2 = [outside] /\ calls (run outside).2 = [].
Proof. by vm_compute. Qed.
