(* ===== verification/Progress.v ===== *)
(** The liveness of an agent run.

    Models, of [src/src/agent]: the state machine ([state-machine.ts]), and of
    [kernel]: observation fingerprints ([progress-fingerprint.ts]), commitments
    ([progress-commitment.ts]), phases ([progress-phase.ts]), the governor that
    scores each round ([progress-governor.ts]) and the supervisor that decides
    whether another round may start ([loop-supervisor.ts]).  Reading a commitment
    out of a text (patterns over natural language) is arbitrary; the reasons and
    reports shown to the user are not represented.  Letters are folded to lower
    case in ASCII only. *)
From S2P Require Import Prelude Json Paths RunBudget Evidence ToolBatch.
Open Scope string_scope.
Open Scope Z_scope.
Open Scope list_scope.

(** ** The state machine *)

(** src/src/agent/state-machine.ts # AgentState @19-49 *)
Inductive AgentState :=
| as_idle | as_understand | as_search | as_plan | as_code | as_verify | as_repair | as_done | as_blocked | as_stalled.
#[export] Instance agent_state_eq_dec : EqDecision AgentState.
Proof. solve_decision. Defined.

(** src/src/agent/state-machine.ts # ALLOWED_TRANSITIONS *)
Definition ALLOWED_TRANSITIONS (from : AgentState) : list AgentState :=
  match from with
  | as_idle => [as_understand]
  | as_understand => [as_search; as_plan; as_code; as_repair; as_done; as_blocked; as_stalled]
  | as_search => [as_search; as_plan; as_code; as_understand; as_repair; as_done; as_blocked; as_stalled]
  | as_plan => [as_code; as_search; as_done; as_blocked; as_stalled]
  | as_code => [as_verify; as_code; as_search; as_repair; as_done; as_blocked; as_stalled]
  | as_verify => [as_done; as_repair; as_blocked; as_stalled]
  | as_repair => [as_code; as_search; as_verify; as_done; as_blocked; as_stalled]
  | as_done => [as_stalled]
  | as_blocked | as_stalled => []
  end.

(** src/src/agent/state-machine.ts # StateMachine

    The current state and the history of its transitions. *)
Record StateMachine := mkMachine { sm_state : AgentState; sm_history : list (AgentState * AgentState) }.
Definition newStateMachine : StateMachine := mkMachine as_idle [].

(** src/src/agent/state-machine.ts # StateMachine.canTransition *)
Definition sm_canTransition (to : AgentState) (m : StateMachine) : bool := includes (ALLOWED_TRANSITIONS (sm_state m)) to.

(** src/src/agent/state-machine.ts # StateMachine.transition *)
Definition sm_transition (to : AgentState) (m : StateMachine) : res string StateMachine :=
  if negb (includes (ALLOWED_TRANSITIONS (sm_state m)) to) then Throw "[StateMachine] Invalid transition"
  else Ok (mkMachine to (sm_history m ++ [(sm_state m, to)])).

(** src/src/agent/state-machine.ts # StateMachine.forceState *)
Definition sm_forceState (to : AgentState) (m : StateMachine) : StateMachine :=
  mkMachine to (sm_history m ++ [(sm_state m, to)]).

(** ** Phases *)

(** src/src/agent/kernel/progress-phase.ts # ProgressPhase *)
Inductive ProgressPhase := ph_recon | ph_diagnose | ph_plan | ph_implement | ph_verify | ph_finalize | ph_recover.
#[export] Instance progress_phase_eq_dec : EqDecision ProgressPhase.
Proof. solve_decision. Defined.

(** src/src/agent/kernel/progress-phase.ts # PhaseRule *)
Record PhaseRule := mkRule { pr_execution : bool; pr_evidence : bool; pr_epistemic : bool; pr_control : bool }.

(** src/src/agent/kernel/progress-phase.ts # PHASE_RULES *)
Definition PHASE_RULES (p : ProgressPhase) : PhaseRule :=
  match p with
  | ph_recon | ph_diagnose | ph_recover => mkRule true true true true
  | ph_plan | ph_implement => mkRule true false false true
  | ph_verify => mkRule true true false true
  | ph_finalize => mkRule false true false true
  end.

(** src/src/agent/kernel/progress-phase.ts # derivePhase *)
Definition derivePhase (s : AgentState) (failedThisRound : bool) : ProgressPhase :=
  match s with
  | as_understand | as_search | as_idle => ph_recon
  | as_plan => ph_plan
  | as_code => ph_implement
  | as_verify => if failedThisRound then ph_diagnose else ph_verify
  | as_repair => ph_recover
  | as_done | as_blocked | as_stalled => ph_finalize
  end.

(** ** Fingerprints *)

(** src/src/agent/kernel/progress-fingerprint.ts # canonicalStringify

    The keys of a record are distinct, so sorting the rendered fields by key is
    sorting the keys. *)
Fixpoint canonicalStringify (v : jsval) : string :=
  match v with
  | JArr vs => "[" +:+ js_join "," (map canonicalStringify vs) +:+ "]"
  | JObj fs =>
      let parts := map (fun kv => match kv.2 with
                                  | JUndef => []
                                  | _ => [(kv.1, canonicalStringify kv.2)]
                                  end) fs in
      "{" +:+ js_join "," (map (fun kv => json_quote kv.1 +:+ ":" +:+ kv.2) (jsort (key_before fst) (concat parts))) +:+ "}"
  | _ => nullish (json_stringify v) "null"
  end.

(** src/src/agent/kernel/progress-fingerprint.ts # outputTextOf *)
Definition outputTextOf (result : jsval) : string :=
  match result with
  | JObj _ =>
      match field "content" result, field "output" result with
      | JStr s, _ => s
      | _, JStr s => s
      | JUndef, _ => ""
      | c, _ => nullish (json_stringify c) ""
      end
  | _ => ""
  end.

(** src/src/agent/kernel/progress-fingerprint.ts # FingerprintLedger

    The ids in order; the map [seen] has the same keys.  [fl_cap] is the bound,
    [fl_verdicts] the last verdict of each command. *)
Record FingerprintLedger := mkFingerprints {
  fl_order : list string; fl_cap : Z; fl_repeats : Z; fl_verdicts : list (string * bool);
}.
Definition with_order (o : list string) (l : FingerprintLedger) : FingerprintLedger :=
  mkFingerprints o (fl_cap l) (fl_repeats l) (fl_verdicts l).

(** src/src/agent/kernel/progress-fingerprint.ts # FingerprintLedger.evictOldest *)
Definition evictOldest (count : Z) (order : list string) : list string := drop (Z.to_nat count) order.

(** src/src/agent/kernel/progress-fingerprint.ts # FingerprintLedger.note

    [Math.ceil(cap * 0.25)] is [(cap + 3) / 4]. *)
Definition note (id : string) (l : FingerprintLedger) : bool * FingerprintLedger :=
  if includes (fl_order l) id then (false, l)
  else
    let order := fl_order l ++ [id] in
    (true, with_order (if fl_cap l <? Z.of_nat (length order) then evictOldest ((fl_cap l + 3) / 4) order else order) l).

(** src/src/agent/kernel/progress-fingerprint.ts # FingerprintLedger.noteRepeat *)
Definition noteRepeat (l : FingerprintLedger) : FingerprintLedger :=
  mkFingerprints (fl_order l) (fl_cap l) (fl_repeats l + 1) (fl_verdicts l).

Section fingerprints.
(** [sha256(text).hex.slice(0, 16)] *)
Variable digest16 : string -> string.

(** src/src/agent/kernel/progress-fingerprint.ts # stableDigest *)
Definition stableDigest (parts : list string) : string := digest16 (js_join "" parts).

(** src/src/agent/kernel/progress-fingerprint.ts # FingerprintLedger.noteRead *)
Definition noteRead (name : string) (input output : jsval) (l : FingerprintLedger) : bool * FingerprintLedger :=
  note (stableDigest ["read"; name; canonicalStringify input; outputTextOf output]) l.

(** src/src/agent/kernel/progress-fingerprint.ts # FingerprintLedger.noteCommand *)
Definition noteCommand (name : string) (input output : jsval) (l : FingerprintLedger) : bool * bool * FingerprintLedger :=
  let '(cmdNovel, l) := note (stableDigest ["cmd"; name; canonicalStringify input]) l in
  let '(outNovel, l) := note (stableDigest ["out"; name; canonicalStringify input; outputTextOf output]) l in
  (cmdNovel, outNovel, l).

(** src/src/agent/kernel/progress-fingerprint.ts # FingerprintLedger.noteVerification *)
Definition noteVerification (kind command : string) (passed : bool) (l : FingerprintLedger) : bool * bool * FingerprintLedger :=
  let '(resultNovel, l) := note (stableDigest ["verify"; kind; command; if passed then "true" else "false"]) l in
  let verdictChanged := match jget command (fl_verdicts l) with Some prev => negb (prev === passed) | None => false end in
  (resultNovel, verdictChanged, mkFingerprints (fl_order l) (fl_cap l) (fl_repeats l) (jset command passed (fl_verdicts l))).
End fingerprints.

(** src/src/agent/kernel/progress-fingerprint.ts # ReconBudget *)
Record ReconBudget := mkRecon { rb_used : Z; rb_limit : Z }.
Definition recon_exhausted (b : ReconBudget) : bool := rb_limit b <=? rb_used b.
(** src/src/agent/kernel/progress-fingerprint.ts # ReconBudget.trySpend *)
Definition trySpend (b : ReconBudget) : bool * ReconBudget :=
  if recon_exhausted b then (false, b) else (true, mkRecon (rb_used b + 1) (rb_limit b)).
(** src/src/agent/kernel/progress-fingerprint.ts # ReconBudget.reset *)
Definition recon_reset (b : ReconBudget) : ReconBudget := mkRecon 0 (rb_limit b).

(** ** Commitments *)

(** src/src/agent/kernel/progress-commitment.ts # ActionClass *)
Inductive ActionClass := ac_inspect | ac_write | ac_verify | ac_execute | ac_delete | ac_service | ac_external.
#[export] Instance action_class_eq_dec : EqDecision ActionClass.
Proof. solve_decision. Defined.

(** src/src/agent/kernel/progress-commitment.ts # ActionTarget *)
Inductive TargetKind := tk_file | tk_command | tk_test_suite | tk_service | tk_workspace.
Record ActionTarget := mkTarget { at_kind : TargetKind; at_value : option string }.

(** src/src/agent/kernel/progress-commitment.ts # ActionCommitment *)
Record ActionCommitment := mkCommitment {
  ac_class : ActionClass; ac_target : option ActionTarget; ac_createdRound : Z; ac_text : string;
}.

Definition INSPECT_TOOLS : list string :=
  ["read_file"; "read_definition"; "find_symbol"; "find_references"; "project_structure"; "glob"; "grep"; "search";
   "web_search"; "git_status"; "git_diff"; "git_log"; "git_blame"; "read_related_files"; "list_dir"].
Definition WRITING_TOOLS : list string :=
  ["write_file"; "edit_file"; "edit_fim"; "apply_patch"; "multi_edit"; "create_file"].
Definition DELETE_TOOLS : list string := ["delete_file"; "remove_file"; "delete"; "rm"].
Definition SERVICE_TOOLS : list string := ["service_start"; "service_stop"; "service_restart"; "service"; "start_service"].
Definition EXTERNAL_TOOLS : list string := ["webfetch"; "web_fetch"; "fetch_url"].
Definition COMMAND_TOOLS : list string :=
  ["terminal"; "shell"; "executeProcess"; "run_command"; "run_process"; "bash"; "sh"].

(** src/src/agent/kernel/progress-commitment.ts # VERIFY_KEYWORDS *)
Definition VERIFY_KEYWORDS : list string :=
  ["bun test"; "npm test"; "npx tsc"; "tsc"; "typecheck"; "pytest"; "go test"; "jest"; "vitest"; "bun run build"; "npm run build"].

(** src/src/agent/kernel/progress-commitment.ts # toolActionClass *)
Definition toolActionClass (name inputText : string) : ActionClass :=
  if includes INSPECT_TOOLS name then ac_inspect
  else if includes WRITING_TOOLS name then ac_write
  else if includes DELETE_TOOLS name then ac_delete
  else if includes SERVICE_TOOLS name then ac_service
  else if includes EXTERNAL_TOOLS name then ac_external
  else if includes COMMAND_TOOLS name then
    if existsb (fun k => str_includes k inputText) VERIFY_KEYWORDS then ac_verify else ac_execute
  else ac_execute.

Definition call_text (tc : RoundToolCall) : string := nullish (json_stringify (tc_input tc)) "undefined".
Definition call_class (tc : RoundToolCall) : ActionClass := toolActionClass (tc_name tc) (call_text tc).

(** The pieces between separators; empty ones are dropped by [tokenize] anyway. *)
Definition token_separator (c : Ascii.ascii) : bool := has_char c "\/._- :'" || has_char c dquote.
Fixpoint pieces (s acc : string) : list string :=
  match s with
  | EmptyString => [acc]
  | String c s => if token_separator c then acc :: pieces s "" else pieces s (acc +:+ String c "")
  end.

(** src/src/agent/kernel/progress-commitment.ts # tokenize *)
Definition tokenize (text : string) : list string :=
  omap (fun raw => let t := trim raw in if (2 <=? String.length t)%nat then Some (lower t) else None) (pieces text "").

(** src/src/agent/kernel/progress-commitment.ts # targetCompatible *)
Definition targetCompatible (target : option ActionTarget) (tc : RoundToolCall) : bool :=
  match target ≫= at_value with
  | None | Some "" => true
  | Some value => let inputTokens := tokenize (call_text tc) in existsb (includes inputTokens) (tokenize value)
  end.

(** src/src/agent/kernel/progress-commitment.ts # CommitmentRegistry *)
Record CommitmentRegistry := mkRegistry {
  cr_debt : Z; cr_audit : list ActionCommitment; cr_active : option ActionCommitment; cr_debtCap : Z;
}.

Definition shift3 {A} (xs : list A) : list A := if (3 <? length xs)%nat then tail xs else xs.

(** src/src/agent/kernel/progress-commitment.ts # CommitmentRegistry.register *)
Definition register_commitment (c : ActionCommitment) (r : CommitmentRegistry) : CommitmentRegistry :=
  let audit := match cr_active r with Some a => cr_audit r ++ [a] | None => cr_audit r end in
  mkRegistry (cr_debt r) (shift3 audit) (Some c) (cr_debtCap r).

(** src/src/agent/kernel/progress-commitment.ts # CommitmentRegistry.discharges *)
Definition discharges (c : ActionCommitment) (tc : RoundToolCall) : bool :=
  (call_class tc === ac_class c) && targetCompatible (ac_target c) tc.

Inductive CommitmentStatus := cs_ok | cs_action_required | cs_stalled.
#[export] Instance commitment_status_eq_dec : EqDecision CommitmentStatus.
Proof. solve_decision. Defined.

(** src/src/agent/kernel/progress-commitment.ts # CommitmentRegistry.tickRound *)
Definition tickRound (calls : list RoundToolCall) (r : CommitmentRegistry) : CommitmentStatus * CommitmentRegistry :=
  match cr_active r with
  | None => (cs_ok, r)
  | Some a =>
      if existsb (discharges a) calls then (cs_ok, mkRegistry 0 (shift3 (cr_audit r ++ [a])) None (cr_debtCap r))
      else
        let debt := cr_debt r + 1 in
        ( if cr_debtCap r <? debt then cs_stalled else if cr_debtCap r <=? debt then cs_action_required else cs_ok,
          mkRegistry debt (cr_audit r) (Some a) (cr_debtCap r) )
  end.

(** ** The governor *)

(** src/src/agent/kernel/progress-governor.ts # ProgressConfig *)
Record ProgressConfig := mkProgressConfig { pc_stallRounds : Z; pc_reconBudget : Z; pc_commitmentDebt : Z; pc_seenCap : Z }.

(** src/src/agent/kernel/progress-governor.ts # PROGRESS_DEFAULTS *)
Definition PROGRESS_DEFAULTS : ProgressConfig := mkProgressConfig 4 20 2 1024.

(** src/src/agent/kernel/progress-governor.ts # RoundProgressInput

    [vr_kind] of a verification is its text [verification_kind_text]. *)
Record RoundProgressInput := mkRound {
  ri_round : Z; ri_agentState : AgentState; ri_finalText : string;
  ri_committedToolCalls : list RoundToolCall; ri_toolResults : list jsval;
  ri_verificationResults : list VerificationResult;
  ri_fileCount : Z; ri_completedNodes : Z; ri_completedSteps : Z; ri_currentNode : string; ri_evidenceEntries : Z;
}.

Definition verification_kind_text (k : VerificationKind) : string :=
  match k with
  | v_typecheck => "typecheck" | v_test => "test" | v_build => "build" | v_lint => "lint" | v_smoke => "smoke"
  | v_unknown => "unknown"
  end.

(** src/src/agent/kernel/progress-governor.ts # ProgressDelta *)
Record ProgressDelta := mkDelta {
  pd_round : Z; pd_phase : ProgressPhase;
  pd_execution : Z; pd_evidence : Z; pd_epistemic : Z; pd_control : Z;
  pd_novelCount : Z; pd_exhausted : bool;
  pd_commitment : option ActionCommitment; pd_effective : bool;
}.

(** src/src/agent/kernel/progress-governor.ts # GovernorDecision *)
Inductive StallCause := stall_streak | stall_commitment.
Inductive GovernorDecision :=
| gd_proceed | gd_action_first | gd_replan_once | gd_action_required (c : ActionCommitment) | gd_stalled (cause : StallCause).

#[export] Instance stall_cause_eq_dec : EqDecision StallCause.
Proof. solve_decision. Defined.

(** src/src/agent/kernel/progress-governor.ts # READONLY_TOOL_NAMES *)
Definition READONLY_TOOL_NAMES : list string :=
  ["read_file"; "find_symbol"; "find_references"; "project_structure"; "read_definition"; "web_search"; "git_status";
   "git_diff"; "git_log"; "git_blame"; "request_deeper_thinking"].

(** src/src/agent/kernel/progress-governor.ts # isWriteClassTool *)
Definition isWriteClassTool (name : string) : bool := negb (includes READONLY_TOOL_NAMES name).

(** src/src/agent/kernel/progress-governor.ts # obligationDigest *)
Definition obligationDigest (pendingSteps pendingNodes : list string) : string :=
  js_join "|" (take 8 (pendingSteps ++ pendingNodes)).

(** src/src/agent/kernel/progress-governor.ts # ProgressGovernor @147-164 *)
Record ProgressGovernor := mkGovernor {
  pg_config : ProgressConfig; pg_ledger : FingerprintLedger; pg_recon : ReconBudget; pg_commitments : CommitmentRegistry;
  pg_last : option RoundProgressInput; pg_lastPhase : option ProgressPhase;
  pg_streak : Z; pg_totalToolCalls : Z; pg_totalWriteTools : Z;
  pg_deltaHistory : list ProgressDelta; pg_phaseChanges : Z;
}.

(** src/src/agent/kernel/progress-governor.ts # ProgressGovernor.constructor *)
Definition newProgressGovernor (c : ProgressConfig) : ProgressGovernor :=
  mkGovernor c (mkFingerprints [] (pc_seenCap c) 0 []) (mkRecon 0 (pc_reconBudget c)) (mkRegistry 0 [] None (pc_commitmentDebt c))
    None None 0 0 0 [] 0.

(** src/src/agent/kernel/progress-governor.ts # ProgressGovernor.resultFor *)
Definition resultFor (toolResults : list jsval) (toolCallId : string) : jsval :=
  if toolCallId === "" then JUndef
  else nullish (List.find (fun r => match field "tool_use_id" r with JStr id => id === toolCallId | _ => false end) toolResults) JUndef.

(** What a round has scored so far. *)
Record Score := mkScore {
  sc_ledger : FingerprintLedger; sc_recon : ReconBudget;
  sc_execution : Z; sc_evidence : Z; sc_epistemic : Z; sc_control : Z; sc_novel : Z;
}.
Definition no_score (l : FingerprintLedger) (b : ReconBudget) : Score := mkScore l b 0 0 0 0 0.
Definition add_execution (n : Z) (s : Score) : Score :=
  mkScore (sc_ledger s) (sc_recon s) (sc_execution s + n) (sc_evidence s) (sc_epistemic s) (sc_control s) (sc_novel s).
Definition add_evidence (n : Z) (s : Score) : Score :=
  mkScore (sc_ledger s) (sc_recon s) (sc_execution s) (sc_evidence s + n) (sc_epistemic s) (sc_control s) (sc_novel s).
Definition add_control (n : Z) (s : Score) : Score :=
  mkScore (sc_ledger s) (sc_recon s) (sc_execution s) (sc_evidence s) (sc_epistemic s) (sc_control s + n) (sc_novel s).
Definition score_ledger (l : FingerprintLedger) (s : Score) : Score :=
  mkScore l (sc_recon s) (sc_execution s) (sc_evidence s) (sc_epistemic s) (sc_control s) (sc_novel s).
(** A new observation, paid from the budget. *)
Definition score_observation (s : Score) : Score :=
  let '(paid, recon) := trySpend (sc_recon s) in
  mkScore (sc_ledger s) recon (sc_execution s) (sc_evidence s) (sc_epistemic s + if paid then 1 else 0) (sc_control s) (sc_novel s + 1).

Section governor.
(** [sha256(text).hex.slice(0, 16)], and the commitment a text makes. *)
Variable digest16 : string -> string.
Variable detectCommitment : string -> Z -> option ActionCommitment.

(** src/src/agent/kernel/progress-governor.ts # ProgressGovernor.computeDelta @270-278

    The evidence of the round is still zero at this point. *)
Definition score_phase (lastPhase : option ProgressPhase) (phase : ProgressPhase) (s : Score) : Score * bool :=
  match lastPhase with
  | None => (s, false)
  | Some old =>
      if phase === old then (s, false)
      else
        let finalizeWithoutEvidence := (phase === ph_finalize) && (sc_evidence s =? 0) in
        let s' := if negb finalizeWithoutEvidence then add_control 1 s else s in
        (mkScore (sc_ledger s') (recon_reset (sc_recon s')) (sc_execution s') (sc_evidence s') (sc_epistemic s')
           (sc_control s') (sc_novel s'), negb finalizeWithoutEvidence)
  end.

(** src/src/agent/kernel/progress-governor.ts # ProgressGovernor.computeDelta @282-318 *)
Definition score_call (toolResults : list jsval) (s : Score) (tc : RoundToolCall) : Score :=
  let result := resultFor toolResults (tc_id tc) in
  match call_class tc with
  | ac_inspect =>
      let '(novel, l) := noteRead digest16 (tc_name tc) (tc_input tc) result (sc_ledger s) in
      if (novel : bool) then score_observation (score_ledger l s) else score_ledger (noteRepeat l) s
  | ac_execute | ac_verify =>
      let '(cmdNovel, outNovel, l) := noteCommand digest16 (tc_name tc) (tc_input tc) result (sc_ledger s) in
      if cmdNovel || outNovel then add_execution 1 (score_ledger l s) else score_ledger (noteRepeat l) s
  | ac_write | ac_delete | ac_service | ac_external => add_execution 1 s
  end.

(** src/src/agent/kernel/progress-governor.ts # ProgressGovernor.computeDelta @321-331 *)
Definition score_verification (s : Score) (v : VerificationResult) : Score :=
  let '(resultNovel, verdictChanged, l) :=
    noteVerification digest16 (verification_kind_text (vr_kind v)) (vr_command v) (vr_passed v) (sc_ledger s) in
  if resultNovel || verdictChanged then add_evidence (if (verdictChanged : bool) then 2 else 1) (score_ledger l s)
  else score_ledger (noteRepeat l) s.

(** src/src/agent/kernel/progress-governor.ts # ProgressGovernor.computeDelta @334-351 *)
Definition score_changes (last : option RoundProgressInput) (i : RoundProgressInput) (s : Score) : Score :=
  match last with
  | None => s
  | Some l =>
      let s := if ri_fileCount i =? ri_fileCount l then s else add_execution 1 s in
      let s := if ri_evidenceEntries i =? ri_evidenceEntries l then s else add_evidence 1 s in
      let s := if (ri_completedNodes i =? ri_completedNodes l) && (ri_completedSteps i =? ri_completedSteps l) then s
               else add_control 1 s in
      if ri_currentNode i === ri_currentNode l then s else add_control 1 s
  end.

Definition mask (b : bool) (n : Z) : Z := if b then n else 0.

(** The phase of a round. *)
Definition round_phase (i : RoundProgressInput) : ProgressPhase :=
  derivePhase (ri_agentState i) (existsb (fun r => negb (vr_passed r)) (ri_verificationResults i)).

(** The score of a round, before the phase masks it, and whether the phase counted. *)
Definition round_score (i : RoundProgressInput) (g : ProgressGovernor) : Score * bool :=
  let '(s, changed) := score_phase (pg_lastPhase g) (round_phase i) (no_score (pg_ledger g) (pg_recon g)) in
  let s := fold_left (score_call (ri_toolResults i)) (ri_committedToolCalls i) s in
  let s := fold_left score_verification (ri_verificationResults i) s in
  (score_changes (pg_last g) i s, changed).

(** src/src/agent/kernel/progress-governor.ts # ProgressGovernor.computeDelta *)
Definition computeDelta (i : RoundProgressInput) (g : ProgressGovernor) : ProgressDelta * ProgressGovernor :=
  let phase := round_phase i in
  let '(s, changed) := round_score i g in
  let rule := PHASE_RULES phase in
  let execution := mask (pr_execution rule) (sc_execution s) in
  let evidence := mask (pr_evidence rule) (sc_evidence s) in
  let epistemic := mask (pr_epistemic rule) (sc_epistemic s) in
  let control := mask (pr_control rule) (sc_control s) in
  let effective := (0 <? execution) || (0 <? evidence) || (0 <? epistemic) || (0 <? control) in
  (mkDelta (ri_round i) phase execution evidence epistemic control (sc_novel s) (recon_exhausted (sc_recon s))
     (cr_active (pg_commitments g)) effective,
   mkGovernor (pg_config g) (sc_ledger s) (sc_recon s) (pg_commitments g) (pg_last g) (Some phase) (pg_streak g)
     (pg_totalToolCalls g) (pg_totalWriteTools g) (pg_deltaHistory g)
     (if (changed : bool) then pg_phaseChanges g + 1 else pg_phaseChanges g)).

(** src/src/agent/kernel/progress-governor.ts # ProgressGovernor.evaluate @184-194 *)
Definition tick_commitment (i : RoundProgressInput) (r : CommitmentRegistry) : CommitmentStatus * CommitmentRegistry :=
  match ri_committedToolCalls i with
  | [] =>
      match detectCommitment (ri_finalText i) (ri_round i) with
      | Some c => (cs_ok, register_commitment c r)
      | None => tickRound [] r
      end
  | calls => tickRound calls r
  end.

Definition last4 {A} (xs : list A) : list A := if (4 <? length xs)%nat then tail xs else xs.

(** src/src/agent/kernel/progress-governor.ts # ProgressGovernor.evaluate @224-249 *)
Definition decide_governor (status : CommitmentStatus) (delta : ProgressDelta) (g : ProgressGovernor) : GovernorDecision :=
  let stall := pc_stallRounds (pg_config g) in
  if (status === cs_stalled) && negb (pd_effective delta) then gd_stalled stall_commitment
  else if stall <=? pg_streak g then gd_stalled stall_streak
  else
    let otherwise :=
      if pg_streak g =? stall - 1 then gd_replan_once
      else if pg_streak g =? stall - 2 then gd_action_first else gd_proceed in
    match status, cr_active (pg_commitments g) with
    | cs_action_required, Some c => gd_action_required c
    | _, _ => otherwise
    end.

(** src/src/agent/kernel/progress-governor.ts # ProgressGovernor.evaluate *)
Definition evaluate (i : RoundProgressInput) (g : ProgressGovernor) : GovernorDecision * ProgressDelta * ProgressGovernor :=
  let '(delta, g) := computeDelta i g in
  let '(status, commitments) := tick_commitment i (pg_commitments g) in
  let delta := mkDelta (pd_round delta) (pd_phase delta) (pd_execution delta) (pd_evidence delta) (pd_epistemic delta)
                 (pd_control delta) (pd_novelCount delta) (pd_exhausted delta) (cr_active commitments) (pd_effective delta) in
  let streak := match pg_last g with
                | Some _ => if pd_effective delta then 0 else pg_streak g + 1
                | None => pg_streak g
                end in
  let calls := ri_committedToolCalls i in
  let g := mkGovernor (pg_config g) (pg_ledger g) (pg_recon g) commitments (Some i) (pg_lastPhase g) streak
             (pg_totalToolCalls g + Z.of_nat (length calls))
             (pg_totalWriteTools g + Z.of_nat (count_where (fun tc => isWriteClassTool (tc_name tc)) calls))
             (last4 (pg_deltaHistory g ++ [delta])) (pg_phaseChanges g) in
  (decide_governor status delta g, delta, g).

(** ** The supervisor *)

(** src/src/agent/kernel/loop-supervisor.ts # LoopRecoveryMode *)
Inductive LoopRecoveryMode := rm_normal | rm_lower_thinking | rm_action_first.

(** src/src/agent/kernel/loop-supervisor.ts # LIVENESS_THINKING_CAP_TOKENS *)
Definition LIVENESS_THINKING_CAP_TOKENS : Z := 2048.
(** src/src/agent/kernel/loop-supervisor.ts # policyFor *)
Definition policyFor (m : LoopRecoveryMode) : LoopRecoveryMode * option Z :=
  (m, match m with rm_normal => None | _ => Some LIVENESS_THINKING_CAP_TOKENS end).

(** src/src/agent/kernel/loop-supervisor.ts # LoopSupervisorObservation

    The finish reason when it is one of the two that cut a round short before an
    action, another one, or none. *)
Inductive FinishReason := fr_truncated_before_action | fr_truncated_partial_tool | fr_other.
Record LoopSupervisorObservation := mkObservation {
  ob_round : Z; ob_finishReason : option FinishReason; ob_executableToolCallCount : Z; ob_progressInput : RoundProgressInput;
}.

(** src/src/agent/kernel/loop-supervisor.ts # LoopStallReason *)
Inductive LoopStallReason := ls_progress | ls_commitment | ls_truncation.
(** src/src/agent/kernel/loop-supervisor.ts # LoopSupervisorDecision *)
Inductive SupervisorAction :=
| sa_proceed | sa_lower_thinking | sa_action_first | sa_replan_once | sa_action_required | sa_stalled (reason : LoopStallReason).

Definition policy_of (a : SupervisorAction) : LoopRecoveryMode * option Z :=
  match a with
  | sa_lower_thinking => policyFor rm_lower_thinking
  | sa_action_first => policyFor rm_action_first
  | _ => policyFor rm_normal
  end.

(** src/src/agent/kernel/loop-supervisor.ts # LoopSupervisor @100-111 *)
Record LoopSupervisor := mkSupervisor {
  su_governor : ProgressGovernor; su_ladderLimit : Z; su_truncationStreak : Z; su_lastEvaluatedRound : Z;
  su_lastPolicy : LoopRecoveryMode * option Z;
}.
Definition newLoopSupervisor (g : ProgressGovernor) : LoopSupervisor := mkSupervisor g 3 0 (-1) (policyFor rm_normal).

(** src/src/agent/kernel/loop-supervisor.ts # LoopSupervisor.beforeRound

    [true] starts the round, [false] is the exhausted round budget. *)
Definition beforeRound (round maxRounds : Z) : bool := negb (maxRounds <=? round).

(** src/src/agent/kernel/loop-supervisor.ts # LoopSupervisor.decide *)
Definition decide_supervisor (limit truncation : Z) (d : GovernorDecision) : SupervisorAction :=
  match d with
  | gd_stalled stall_commitment => sa_stalled ls_commitment
  | _ =>
      if limit <=? truncation then sa_stalled ls_truncation
      else match d with
           | gd_stalled _ => sa_stalled ls_progress
           | gd_action_required _ => sa_action_required
           | _ =>
               if truncation =? 2 then sa_action_first
               else match d with
                    | gd_replan_once => sa_replan_once
                    | gd_action_first => sa_action_first
                    | _ => if truncation =? 1 then sa_lower_thinking else sa_proceed
                    end
           end
  end.

Definition noActionTruncation (o : LoopSupervisorObservation) : bool :=
  match ob_finishReason o with
  | Some fr_truncated_before_action => true
  | Some fr_truncated_partial_tool => ob_executableToolCallCount o =? 0
  | _ => false
  end.
(** src/src/agent/kernel/loop-supervisor.ts # LoopSupervisor.afterRound @150-159 *)
Definition next_truncation (o : LoopSupervisorObservation) (effective : bool) (streak : Z) : Z :=
  if effective then 0
  else if noActionTruncation o then streak + 1
  else match ob_finishReason o with Some _ => 0 | None => streak end.

(** src/src/agent/kernel/loop-supervisor.ts # LoopSupervisor.afterRound

    A second evaluation of the same round throws. *)
Definition afterRound (o : LoopSupervisorObservation) (s : LoopSupervisor) : res string (SupervisorAction * ProgressDelta * LoopSupervisor) :=
  if su_lastEvaluatedRound s =? ob_round o then Throw "LoopSupervisor: double progress evaluation"
  else
    let '(d, delta, g) := evaluate (ob_progressInput o) (su_governor s) in
    let truncation := next_truncation o (pd_effective delta) (su_truncationStreak s) in
    let a := decide_supervisor (su_ladderLimit s) truncation d in
    Ok (a, delta, mkSupervisor g (su_ladderLimit s) truncation (ob_round o) (policy_of a)).

(** ** A supervised run

    The loop stops at the first decision to stall. *)
Definition is_stalled (a : SupervisorAction) : bool := match a with sa_stalled _ => true | _ => false end.
Definition Step : Type := LoopSupervisorObservation * SupervisorAction * ProgressDelta.
Definition step_effective (st : Step) : bool := pd_effective st.2.

Fixpoint supervise (os : list LoopSupervisorObservation) (s : LoopSupervisor) : res string (list Step * LoopSupervisor) :=
  match os with
  | [] => Ok ([], s)
  | o :: os =>
      match afterRound o s with
      | Throw e => Throw e
      | Ok (a, delta, s) =>
          if is_stalled a then Ok ([(o, a, delta)], s)
          else match supervise os s with
               | Ok (steps, s) => Ok ((o, a, delta) :: steps, s)
               | Throw e => Throw e
               end
      end
  end.

(** ** One round *)

Lemma evaluate_delta i g :
  pd_effective (evaluate i g).1.2 = pd_effective (computeDelta i g).1 /\
  pg_streak (evaluate i g).2 =
    match pg_last g with Some _ => if pd_effective (computeDelta i g).1 then 0 else pg_streak g + 1 | None => pg_streak g end /\
  pg_last (evaluate i g).2 = Some i /\ pg_config (evaluate i g).2 = pg_config g /\
  pg_lastPhase (evaluate i g).2 = Some (round_phase i) /\ pg_recon (evaluate i g).2 = sc_recon (round_score i g).1.
Proof.
  unfold evaluate, computeDelta. destruct (round_score i g) as [s changed].
  destruct (tick_commitment i _) as [status r]. by split_and!.
Qed.

(** The commitment is overdue at the end of a round: the registry's clock ran in
    it and has passed the cap. *)
Definition overdue (i : RoundProgressInput) (g : ProgressGovernor) : bool :=
  (tick_commitment i (pg_commitments g)).1 === cs_stalled.

Lemma decide_governor_stalled status delta g :
  (exists cause, decide_governor status delta g = gd_stalled cause) <->
  (status = cs_stalled /\ pd_effective delta = false) \/ pc_stallRounds (pg_config g) <= pg_streak g.
Proof.
  unfold decide_governor. destruct ((status === cs_stalled) && negb (pd_effective delta)) eqn:E.
  - reflect. split; [intros _; by left|by eexists].
  - destruct (pc_stallRounds (pg_config g) <=? pg_streak g) eqn:E2; reflect.
    + split; [auto|by eexists].
    + split.
      * intros [cause Hc]. exfalso. revert Hc.
        repeat case_match; done.
      * intros [[-> Hd]|?]; [|lia]. rewrite same_refl, Hd in E. by destruct E.
Qed.

Lemma decide_supervisor_stalled limit truncation d :
  is_stalled (decide_supervisor limit truncation d) = true <->
  (exists cause, d = gd_stalled cause) \/ limit <= truncation.
Proof.
  unfold decide_supervisor.
  destruct d as [| | |c|[]], (limit <=? truncation) eqn:E, (truncation =? 2), (truncation =? 1); reflect; cbn;
    split; try done; try (by intros [[? [=]]|?]; lia); try (intros _; first [left; by eexists|by right]).
Qed.

(** A round is followed by a stall exactly when a commitment is overdue and the
    round has had no effect, or one of the two streaks is full. *)
Lemma afterRound_spec o s a delta s' : afterRound o s = Ok (a, delta, s') ->
  let i := ob_progressInput o in let g := su_governor s in
  delta.(pd_effective) = pd_effective (computeDelta i g).1 /\
  su_governor s' = (evaluate i g).2 /\ su_ladderLimit s' = su_ladderLimit s /\
  su_truncationStreak s' = next_truncation o (pd_effective delta) (su_truncationStreak s) /\
  su_lastEvaluatedRound s' = ob_round o /\
  (is_stalled a = true <->
     (overdue i g = true /\ pd_effective delta = false) \/
     pc_stallRounds (pg_config g) <= pg_streak (su_governor s') \/ su_ladderLimit s <= su_truncationStreak s').
Proof.
  unfold afterRound. destruct (_ =? ob_round o); [done|].
  pose proof (evaluate_delta (ob_progressInput o) (su_governor s)) as (He & _ & _ & Hc & _).
  destruct (evaluate (ob_progressInput o) (su_governor s)) as [[d delta0] g'] eqn:E. cbn [fst snd] in *.
  intros [= <- <- <-]. cbn [su_governor su_ladderLimit su_truncationStreak su_lastEvaluatedRound].
  split_and!; [done..|]. rewrite decide_supervisor_stalled.
  assert ((exists cause, d = gd_stalled cause) <->
    (overdue (ob_progressInput o) (su_governor s) = true /\ pd_effective delta0 = false) \/
    pc_stallRounds (pg_config (su_governor s)) <= pg_streak g') as ->; [|tauto].
  rewrite <-Hc. revert E. unfold evaluate, overdue.
  destruct (computeDelta _ _) as [delta1 g1] eqn:Ed.
  assert (pg_commitments g1 = pg_commitments (su_governor s)) as ->.
  { revert Ed. unfold computeDelta. destruct (round_score _ _). by intros [= _ <-]. }
  destruct (tick_commitment _ _) as [status r]. intros [= <- <- <-]. rewrite decide_governor_stalled.
  cbn [pg_config pg_streak pd_effective fst]. by rewrite same_eq.
Qed.

(** ** Streaks *)

(** How many rounds at the end had no effect. *)
Fixpoint leading_idle (effects : list bool) : nat :=
  match effects with false :: effects => S (leading_idle effects) | _ => 0 end.
Definition idle_tail (effects : list bool) : Z := Z.of_nat (leading_idle (rev effects)).

(** How many rounds at the end were cut short before an action; a round without
    a finish reason does not count and does not interrupt. *)
Fixpoint leading_cut (steps : list Step) : Z :=
  match steps with
  | [] => 0
  | st :: steps =>
      if step_effective st then 0
      else if noActionTruncation st.1.1 then leading_cut steps + 1
      else match ob_finishReason st.1.1 with Some _ => 0 | None => leading_cut steps end
  end.
Definition cut_tail (steps : list Step) : Z := leading_cut (rev steps).

Lemma idle_tail_snoc effects b : idle_tail (effects ++ [b]) = if b then 0 else idle_tail effects + 1.
Proof.
  unfold idle_tail. rewrite rev_app_distr. cbn [rev app]. destruct b; cbn [leading_idle]; lia.
Qed.
Lemma idle_tail_effect effects : idle_tail (tail (effects ++ [true])) = 0.
Proof. destruct effects as [|e es]; cbn [app tail]; [done|]. by rewrite idle_tail_snoc. Qed.
Lemma cut_tail_snoc steps o a delta :
  cut_tail (steps ++ [(o, a, delta)]) = next_truncation o (pd_effective delta) (cut_tail steps).
Proof. unfold cut_tail. rewrite rev_app_distr. done. Qed.

Definition effects (steps : list Step) : list bool := map step_effective steps.

Definition fresh_supervisor (c : ProgressConfig) : LoopSupervisor := newLoopSupervisor (newProgressGovernor c).

(** What the supervisor remembers of the steps it has taken: the first round is
    the base line and does not count as idle. *)
Definition remembers (c : ProgressConfig) (steps : list Step) (s : LoopSupervisor) : Prop :=
  pg_config (su_governor s) = c /\ su_ladderLimit s = 3 /\
  pg_streak (su_governor s) = idle_tail (tail (effects steps)) /\
  (pg_last (su_governor s) = None <-> steps = []) /\
  su_truncationStreak s = cut_tail steps.

Lemma remembers_after c steps s o a delta s' : remembers c steps s -> afterRound o s = Ok (a, delta, s') ->
  remembers c (steps ++ [(o, a, delta)]) s'.
Proof.
  intros (Hc & Hl & Hs & Hf & Ht) E. destruct (afterRound_spec _ _ _ _ _ E) as (Hd & Hg & Hl' & Ht' & _ & _).
  destruct (evaluate_delta (ob_progressInput o) (su_governor s)) as (_ & Hst & Hla & Hco & _ & _).
  unfold remembers. rewrite Hg, Hl', Ht', Hla, Hco, Hst, cut_tail_snoc, Ht, <-Hd. split_and!; [done|done| | |done].
  - unfold effects. rewrite map_app. destruct steps as [|st steps].
    + rewrite (proj2 Hf eq_refl). exact Hs.
    + destruct (pg_last (su_governor s)) eqn:E1; [|by pose proof (proj1 Hf eq_refl)].
      cbn [map app tail]. change (step_effective (o, a, delta)) with (pd_effective delta).
      rewrite idle_tail_snoc, Hs. done.
  - split; [done|]. intros Hx. by destruct steps.
Qed.

(** The rounds of a run that has not stalled before the last. *)
Inductive supervised (s0 : LoopSupervisor) : list Step -> LoopSupervisor -> Prop :=
| sv_start : supervised s0 [] s0
| sv_round steps s o a delta s' : supervised s0 steps s -> Forall (fun st : Step => is_stalled st.1.2 = false) steps ->
    afterRound o s = Ok (a, delta, s') -> supervised s0 (steps ++ [(o, a, delta)]) s'.

Lemma supervise_supervised s0 os : forall hist s steps s',
  supervised s0 hist s -> Forall (fun st : Step => is_stalled st.1.2 = false) hist ->
  supervise os s = Ok (steps, s') -> supervised s0 (hist ++ steps) s'.
Proof.
  induction os as [|o os IH]; intros hist s steps s' Hs Hf E; cbn [supervise] in E.
  { injection E as <- <-. by rewrite app_nil_r. }
  destruct (afterRound o s) as [[[a delta] s1]|] eqn:E1; [|done].
  pose proof (sv_round s0 hist s o a delta s1 Hs Hf E1) as H1. destruct (is_stalled a) eqn:Ea.
  - by injection E as <- <-.
  - destruct (supervise os s1) as [[steps1 s2]|] eqn:E2; [|done]. injection E as <- <-.
    change ((o, a, delta) :: steps1) with ([(o, a, delta)] ++ steps1). rewrite app_assoc. eapply IH; [exact H1| |exact E2].
    apply Forall_app. by split; [|repeat constructor].
Qed.

Lemma supervised_remembers c steps s : supervised (fresh_supervisor c) steps s -> remembers c steps s.
Proof. induction 1 as [|steps s o a delta s' _ IH _ E]; [by split_and!|by eapply remembers_after]. Qed.

Lemma supervised_last s0 steps o a delta s' : supervised s0 (steps ++ [(o, a, delta)]) s' ->
  exists s, supervised s0 steps s /\ afterRound o s = Ok (a, delta, s').
Proof.
  inversion 1 as [E|steps1 s o1 a1 delta1 s1 Hs _ E Hx]; [by destruct steps|].
  apply app_inj_tail in Hx as [-> [= -> -> ->]]. by exists s.
Qed.

(** A run is stopped for want of progress exactly when it makes none: after any
    round but one that had an effect, and only then, the supervisor decides to
    stall if a commitment is overdue (its clock ran in this round and passed the
    cap), or as many rounds as configured in a row, the first of the run not
    counted, had no effect, or three rounds in a row without effect were cut short
    before an action.  In particular a round with an effect is never followed by a
    stall. *)
Theorem supervisor_stalls_exactly c os steps o a delta s' :
  0 < pc_stallRounds c ->
  supervise os (fresh_supervisor c) = Ok (steps ++ [(o, a, delta)], s') ->
  exists s, supervised (fresh_supervisor c) steps s /\
    (is_stalled a = true <->
     pd_effective delta = false /\
     (overdue (ob_progressInput o) (su_governor s) = true \/
      pc_stallRounds c <= idle_tail (tail (effects (steps ++ [(o, a, delta)]))) \/
      3 <= cut_tail (steps ++ [(o, a, delta)]))).
Proof.
  intros Hc E. apply (supervise_supervised (fresh_supervisor c) os [] _ _ _ (sv_start _)) in E; [|constructor].
  cbn [app] in E. destruct (supervised_last _ _ _ _ _ _ E) as (s & Hs & Ea). exists s. split; [exact Hs|].
  pose proof (supervised_remembers _ _ _ Hs) as (Hcfg & Hlad & _).
  pose proof (supervised_remembers _ _ _ E) as (_ & _ & Hst & _ & Htr).
  destruct (afterRound_spec _ _ _ _ _ Ea) as (_ & _ & _ & _ & _ & ->).
  rewrite Hcfg, Hlad, <-Hst, <-Htr, Hst, Htr. destruct (pd_effective delta) eqn:Ed; [|tauto].
  split; [|by intros [[=] _]]. unfold effects. rewrite map_app. cbn [map].
  change (step_effective (o, a, delta)) with (pd_effective delta). rewrite Ed, cut_tail_snoc, Ed. cbn [next_truncation].
  intros [[_ [=]]|[H|H]]; [|unfold next_truncation in H; lia].
  rewrite idle_tail_effect in H. lia.
Qed.

(** ** Reading without end *)

(** The round [i] does nothing but read, compared with [base]: it stays in the
    phase, calls inspecting tools only, verifies nothing, and neither files nor
    evidence nor the plan move. *)
Definition only_reads (base i : RoundProgressInput) : Prop :=
  round_phase i = round_phase base /\ Forall (fun tc => call_class tc = ac_inspect) (ri_committedToolCalls i) /\
  ri_verificationResults i = [] /\ ri_fileCount i = ri_fileCount base /\ ri_evidenceEntries i = ri_evidenceEntries base /\
  ri_completedNodes i = ri_completedNodes base /\ ri_completedSteps i = ri_completedSteps base /\
  ri_currentNode i = ri_currentNode base.

Lemma only_reads_again base i j : only_reads base i -> only_reads base j -> only_reads i j.
Proof.
  intros (? & _ & _ & ? & ? & ? & ? & ?) (? & ? & ? & ? & ? & ? & ? & ?). split_and!; congruence.
Qed.

(** Reading pays for what it scores from the budget. *)
Definition pays (s s' : Score) : Prop :=
  sc_execution s' = sc_execution s /\ sc_evidence s' = sc_evidence s /\ sc_control s' = sc_control s /\
  rb_limit (sc_recon s') = rb_limit (sc_recon s) /\
  sc_epistemic s' - sc_epistemic s = rb_used (sc_recon s') - rb_used (sc_recon s) /\
  rb_used (sc_recon s) <= rb_used (sc_recon s') /\
  (rb_used (sc_recon s) <= rb_limit (sc_recon s) -> rb_used (sc_recon s') <= rb_limit (sc_recon s)).

Lemma pays_refl s : pays s s.
Proof. split_and!; try done; lia. Qed.
Lemma pays_trans s s1 s2 : pays s s1 -> pays s1 s2 -> pays s s2.
Proof. intros (? & ? & ? & ? & ? & ? & ?) (? & ? & ? & ? & ? & ? & ?). split_and!; try congruence; lia. Qed.

Lemma observation_pays s : pays s (score_observation s).
Proof.
  unfold score_observation, trySpend, recon_exhausted. destruct (rb_limit (sc_recon s) <=? rb_used (sc_recon s)) eqn:E;
    reflect; split_and!; cbn [sc_execution sc_evidence sc_control sc_epistemic sc_recon rb_limit rb_used]; lia.
Qed.
Lemma inspect_pays rs s tc : call_class tc = ac_inspect -> pays s (score_call rs s tc).
Proof.
  intros Hc. unfold score_call. rewrite Hc. unfold noteRead, note.
  destruct (includes _ _); [exact (pays_refl s)|].
  set (l := with_order _ _). exact (observation_pays (score_ledger l s)).
Qed.
Lemma inspections_pay rs calls : Forall (fun tc => call_class tc = ac_inspect) calls ->
  forall s, pays s (fold_left (score_call rs) calls s).
Proof.
  induction 1 as [|tc calls Hc _ IH]; intros s; [apply pays_refl|]. cbn [fold_left].
  eapply pays_trans; [by apply inspect_pays|apply IH].
Qed.

Lemma only_reads_score i g base : pg_last g = Some base -> pg_lastPhase g = Some (round_phase base) -> only_reads base i ->
  pays (no_score (pg_ledger g) (pg_recon g)) (round_score i g).1.
Proof.
  intros Hl Hp (Hph & Hc & Hv & Hf & He & Hn & Hs & Hcur). unfold round_score, score_phase. rewrite Hp, Hph, same_refl, Hv.
  cbn [fold_left fst]. unfold score_changes. rewrite Hl, Hf, He, Hn, Hs, Hcur, !Z.eqb_refl, same_refl.
  by apply inspections_pay.
Qed.

(** A round that only reads has an effect only if it spends from the budget. *)
Lemma only_reads_effect i g base : pg_last g = Some base -> pg_lastPhase g = Some (round_phase base) -> only_reads base i ->
  pd_effective (computeDelta i g).1 = true -> rb_used (pg_recon g) + 1 <= rb_used (sc_recon (round_score i g).1).
Proof.
  intros Hl Hp Hr. pose proof (only_reads_score i g base Hl Hp Hr) as (He & Hv & Hc & _ & Hep & _ & _).
  unfold computeDelta. destruct (round_score i g) as [s changed]. cbn [fst pd_effective] in *.
  cbn [no_score sc_execution sc_evidence sc_control sc_epistemic sc_recon] in *. rewrite He, Hv, Hc. unfold mask.
  destruct (PHASE_RULES (round_phase i)) as [[] [] [] []]; cbn [pr_execution pr_evidence pr_epistemic pr_control];
    rewrite ?Z.ltb_irrefl; cbn [orb]; intros H; rewrite ?orb_false_r in H; try done; reflect; lia.
Qed.

(** [n] rounds after the first, what they have spent accounts for all that were
    not idle at the end. *)
Definition reading_state (c : ProgressConfig) (base : RoundProgressInput) (n : Z) (s : LoopSupervisor) : Prop :=
  let g := su_governor s in
  pg_config g = c /\ pg_last g = Some base /\ pg_lastPhase g = Some (round_phase base) /\
  rb_limit (pg_recon g) = pc_reconBudget c /\ 0 <= rb_used (pg_recon g) <= pc_reconBudget c /\
  n <= rb_used (pg_recon g) * pc_stallRounds c + pg_streak g.

Lemma reading_step c base n s o a delta s' : 0 < pc_stallRounds c -> reading_state c base n s ->
  pg_streak (su_governor s) < pc_stallRounds c ->
  only_reads base (ob_progressInput o) -> afterRound o s = Ok (a, delta, s') -> is_stalled a = false ->
  reading_state c (ob_progressInput o) (n + 1) s' /\ pg_streak (su_governor s') < pc_stallRounds c.
Proof.
  intros Hk (Hc & Hl & Hp & Hlim & Hu & Hn) Hsk Hr E Ha.
  destruct (afterRound_spec _ _ _ _ _ E) as (Hd & Hg & _ & _ & _ & Hs).
  destruct (evaluate_delta (ob_progressInput o) (su_governor s)) as (_ & Hst & Hla & Hco & Hlp & Hre).
  assert (pg_streak (su_governor s') < pc_stallRounds c) as Hlt.
  { rewrite <-Hc. apply Z.nle_gt. intros Hle. rewrite (proj2 Hs) in Ha; [done|]. auto. }
  split; [|exact Hlt]. pose proof (only_reads_score _ _ _ Hl Hp Hr) as (_ & _ & _ & Hlim' & _ & Hu1 & Hu2).
  pose proof (only_reads_effect _ _ _ Hl Hp Hr) as Heff. cbn [no_score sc_recon] in *.
  unfold reading_state. rewrite Hg in Hlt |- *. rewrite Hla, Hco, Hlp, Hre, Hlim'. rewrite Hst, Hl in Hlt |- *.
  split_and!; [done..|lia|lia|].
  destruct (pd_effective (computeDelta (ob_progressInput o) (su_governor s)).1); [specialize (Heff eq_refl)|]; nia.
Qed.

Definition recon_within (b : ReconBudget) : Prop := 0 <= rb_used b <= rb_limit b.
Definition same_limit (s s' : Score) : Prop :=
  rb_limit (sc_recon s') = rb_limit (sc_recon s) /\ (recon_within (sc_recon s) -> recon_within (sc_recon s')).

Lemma call_limit rs s tc : same_limit s (score_call rs s tc).
Proof.
  destruct (call_class tc) eqn:E.
  1: destruct (inspect_pays rs s tc E) as (_ & _ & _ & Hl & _ & Hu1 & Hu2); unfold same_limit, recon_within; split; [done|lia].
  all: unfold score_call; rewrite E; repeat case_match; by split.
Qed.
Lemma calls_limit rs calls : forall s, same_limit s (fold_left (score_call rs) calls s).
Proof.
  induction calls as [|tc calls IH]; intros s; cbn [fold_left]; [by split|].
  destruct (call_limit rs s tc) as [H1 H2], (IH (score_call rs s tc)) as [H3 H4]. split; [congruence|auto].
Qed.
Lemma verifications_recon vs : forall s, sc_recon (fold_left score_verification vs s) = sc_recon s.
Proof.
  induction vs as [|v vs IH]; intros s; cbn [fold_left]; [done|]. rewrite IH. unfold score_verification.
  repeat case_match; done.
Qed.
Lemma changes_recon last i s : sc_recon (score_changes last i s) = sc_recon s.
Proof. unfold score_changes. repeat case_match; done. Qed.

Definition all_numbered : Z -> list LoopSupervisorObservation -> Prop :=
  fix go r os := match os with [] => True | o :: os => ob_round o = r /\ go (r + 1) os end.

Definition ends_stalled (steps : list Step) : Prop :=
  exists o reason delta, last steps = Some (o, sa_stalled reason, delta).

Lemma afterRound_ok o s r : su_lastEvaluatedRound s < r -> ob_round o = r ->
  exists a delta s', afterRound o s = Ok (a, delta, s') /\ su_lastEvaluatedRound s' < r + 1.
Proof.
  intros Hlt <-. unfold afterRound. destruct (_ =? ob_round o) eqn:E; reflect; [lia|].
  destruct (evaluate _ _) as [[d delta] g]. eexists _, _, _. split; [done|]. cbn [su_lastEvaluatedRound]. lia.
Qed.
Lemma is_stalled_inv a : is_stalled a = true -> exists reason, a = sa_stalled reason.
Proof. destruct a; try done. by eexists. Qed.

Lemma reading_stalls c os : 0 < pc_stallRounds c -> forall base n s r,
  reading_state c base n s -> pg_streak (su_governor s) < pc_stallRounds c ->
  su_lastEvaluatedRound s < r -> all_numbered r os -> Forall (fun o => only_reads base (ob_progressInput o)) os ->
  (pc_reconBudget c + 1) * pc_stallRounds c <= n + Z.of_nat (length os) ->
  exists steps s', supervise os s = Ok (steps, s') /\ ends_stalled steps /\
    n + Z.of_nat (length steps) <= (pc_reconBudget c + 1) * pc_stallRounds c.
Proof.
  intros Hk. induction os as [|o os IH]; intros base n s r Hst Hsk Hev Hnum Hf Hlen;
    pose proof Hst as (_ & _ & _ & _ & Hu & Hn).
  { cbn [length] in Hlen. exfalso. nia. }
  apply Forall_cons in Hf as [Hr Hf]. destruct Hnum as [Hro Hnum]. cbn [supervise].
  destruct (afterRound_ok o s r Hev Hro) as (a & delta & s1 & E & Hev1). rewrite E.
  destruct (is_stalled a) eqn:Ea.
  - destruct (is_stalled_inv a Ea) as [reason ->]. eexists _, _. split; [done|]. split; [by eexists _, _, _|].
    cbn [length]. nia.
  - destruct (reading_step c base n s o a delta s1 Hk Hst Hsk Hr E Ea) as [Hst1 Hsk1].
    destruct (IH (ob_progressInput o) (n + 1) s1 (r + 1) Hst1 Hsk1 Hev1 Hnum) as (steps & s' & -> & (o' & re & d & Hlast) & Hle).
    + eapply Forall_impl; [exact Hf|]. intros o' Ho'. by eapply only_reads_again.
    + cbn [length] in Hlen. lia.
    + eexists _, _. split; [done|]. split.
      * exists o', re, d. by destruct steps.
      * cbn [length]. lia.
Qed.

Lemma first_reading_state c o a delta s : 0 < pc_stallRounds c -> 0 <= pc_reconBudget c ->
  afterRound o (fresh_supervisor c) = Ok (a, delta, s) ->
  reading_state c (ob_progressInput o) 0 s /\ pg_streak (su_governor s) = 0.
Proof.
  intros Hk Hb E. destruct (afterRound_spec _ _ _ _ _ E) as (_ & Hg & _).
  destruct (evaluate_delta (ob_progressInput o) (su_governor (fresh_supervisor c))) as (_ & Hst & Hla & Hco & Hlp & Hre).
  unfold reading_state. rewrite Hg, Hla, Hco, Hlp, Hre, Hst. cbn [fresh_supervisor newLoopSupervisor su_governor newProgressGovernor pg_last pg_streak pg_config].
  unfold round_score, score_phase. cbn [pg_lastPhase pg_ledger pg_recon pg_last newProgressGovernor fst].
  rewrite changes_recon, verifications_recon.
  destruct (calls_limit (ri_toolResults (ob_progressInput o)) (ri_committedToolCalls (ob_progressInput o))
    (no_score (mkFingerprints [] (pc_seenCap c) 0 []) (mkRecon 0 (pc_reconBudget c)))) as [Hlim Hw].
  cbn [no_score sc_recon rb_limit] in *. unfold recon_within in Hw. cbn [rb_used rb_limit] in Hw.
  rewrite Hlim in *. specialize (Hw ltac:(lia)). split_and!; try done; nia.
Qed.

(** C21: Reading alone does not keep a run alive: when every round after the first
    stays in its phase, calls inspecting tools only, verifies nothing and moves
    neither files, evidence nor plan, then, whatever it reads and says, the
    supervisor stops the run: after the first, no more rounds are made than the
    stall window times one more than the observation budget. *)
Theorem reading_run_stalls c o os :
  0 < pc_stallRounds c -> 0 <= pc_reconBudget c -> 0 <= ob_round o ->
  all_numbered (ob_round o) (o :: os) ->
  Forall (fun o' => only_reads (ob_progressInput o) (ob_progressInput o')) os ->
  (pc_reconBudget c + 1) * pc_stallRounds c <= Z.of_nat (length os) ->
  exists steps s, supervise (o :: os) (fresh_supervisor c) = Ok (steps, s) /\ ends_stalled steps /\
    Z.of_nat (length steps) <= (pc_reconBudget c + 1) * pc_stallRounds c + 1.
Proof.
  intros Hk Hb Hro [_ Hnum] Hf Hlen. cbn [supervise].
  destruct (afterRound_ok o (fresh_supervisor c) (ob_round o)) as (a & delta & s1 & E & Hev);
    [cbn [fresh_supervisor newLoopSupervisor su_lastEvaluatedRound]; lia|done|]. rewrite E.
  destruct (is_stalled a) eqn:Ea.
  - destruct (is_stalled_inv a Ea) as [reason ->]. eexists _, _. split; [done|]. split; [by eexists _, _, _|].
    cbn [length]. nia.
  - destruct (first_reading_state c o a delta s1 Hk Hb E) as [Hst Hsk].
    destruct (reading_stalls c os Hk (ob_progressInput o) 0 s1 (ob_round o + 1)) as (steps & s' & -> & (o' & re & d & Hlast) & Hle);
      [done|lia|done|done|done|lia|].
    eexists _, _. split; [done|]. split; [exists o', re, d; by destruct steps|]. cbn [length]. lia.
Qed.
End governor.

(** ** Witnesses and what the code does not intend *)

Definition no_commitment : string -> Z -> option ActionCommitment := fun _ _ => None.
Definition plain_text (s : string) : string := s.

Definition sample_round (n : Z) (st : AgentState) (calls : list RoundToolCall) : RoundProgressInput :=
  mkRound n st "" calls [] [] 0 0 0 "" 0.
Definition observe_round (n : Z) (st : AgentState) (calls : list RoundToolCall) : LoopSupervisorObservation :=
  mkObservation n None (Z.of_nat (length calls)) (sample_round n st calls).
Definition read_of (path : string) : list RoundToolCall := [mkCall "c" "read_file" (JObj [("path", JStr path)])].

(** One paid observation, a stall window of two. *)
Definition tight : ProgressConfig := mkProgressConfig 2 1 2 16.
Definition reader_rounds : list LoopSupervisorObservation :=
  [observe_round 1 as_search (read_of "b"); observe_round 2 as_search (read_of "c");
   observe_round 3 as_search (read_of "d"); observe_round 4 as_search (read_of "e")].

Lemma reading_run_stalls_witness :
  exists steps s, supervise plain_text no_commitment (observe_round 0 as_search [] :: reader_rounds) (fresh_supervisor tight) = Ok (steps, s) /\
    ends_stalled steps /\ Z.of_nat (length steps) <= 5.
Proof.
  apply (reading_run_stalls plain_text no_commitment tight (observe_round 0 as_search []) reader_rounds); try done.
  unfold reader_rounds. repeat constructor.
Defined.

Definition idle_rounds : list LoopSupervisorObservation :=
  [observe_round 0 as_search []; observe_round 1 as_search []; observe_round 2 as_search []].
Definition idle_steps : list Step :=
  match supervise plain_text no_commitment (take 2 idle_rounds) (fresh_supervisor tight) with Ok (steps, _) => steps | Throw _ => [] end.
Definition idle_delta : ProgressDelta := mkDelta 2 ph_recon 0 0 0 0 0 false None false.

Lemma supervisor_stalls_exactly_witness :
  exists s, supervised plain_text no_commitment (fresh_supervisor tight) idle_steps s /\
    (is_stalled (sa_stalled ls_progress) = true <->
     pd_effective idle_delta = false /\
     (overdue no_commitment (sample_round 2 as_search []) (su_governor s) = true \/
      2 <= idle_tail (tail (effects (idle_steps ++ [(observe_round 2 as_search [], sa_stalled ls_progress, idle_delta)]))) \/
      3 <= cut_tail (idle_steps ++ [(observe_round 2 as_search [], sa_stalled ls_progress, idle_delta)]))).
Proof.
  refine (supervisor_stalls_exactly plain_text no_commitment tight idle_rounds idle_steps (observe_round 2 as_search [])
    (sa_stalled ls_progress) idle_delta
    (match supervise plain_text no_commitment idle_rounds (fresh_supervisor tight) with Ok (_, s) => s | Throw _ => fresh_supervisor tight end)
    _ _); [done|]. vm_compute. reflexivity.
Defined.

(** A run that does nothing but change its phase is never stopped. *)
Definition oscillating (n : nat) : list LoopSupervisorObservation :=
  map (fun k => observe_round (Z.of_nat k) (if Nat.even k then as_search else as_code) []) (seq 0 n).

Lemma oscillation_never_stalls :
  match supervise plain_text no_commitment (oscillating 60) (fresh_supervisor PROGRESS_DEFAULTS) with
  | Ok (steps, _) => length steps = 60%nat /\ forallb (fun st : Step => negb (is_stalled st.1.2)) steps = true
  | Throw _ => False
  end.
Proof. by vm_compute. Qed.

(** Entering the final phase never counts: the evidence it asks for is counted
    only afterwards. *)
Lemma finalizing_never_counts old l b : old <> ph_finalize ->
  (score_phase (Some old) ph_finalize (no_score l b)).2 = false /\
  sc_control (score_phase (Some old) ph_finalize (no_score l b)).1 = 0.
Proof. intros Hold. by destruct old. Qed.

(** A round without calls whose text makes a commitment never ticks the clock of
    the one before, so a promise repeated in every round is never due. *)
Lemma repeated_promise_never_due detect i r c : ri_committedToolCalls i = [] -> detect (ri_finalText i) (ri_round i) = Some c ->
  tick_commitment detect i r = (cs_ok, register_commitment c r) /\ cr_debt (register_commitment c r) = cr_debt r.
Proof. intros Hc Hd. unfold tick_commitment. by rewrite Hc, Hd. Qed.

(** A promise to write, replaced in a text by a promise to look, is paid off by
    reading. *)
Lemma reading_pays_replaced_promise :
  let to_write := mkCommitment ac_write None 1 "write it" in
  let to_look := mkCommitment ac_inspect None 2 "look first" in
  let r := mkRegistry 1 [] (Some to_write) 2 in
  let r' := (tickRound (read_of "a.ts") (register_commitment to_look r)).2 in
  (tickRound (read_of "a.ts") r).1 = cs_action_required /\ cr_active r' = None /\ cr_debt r' = 0.
Proof. by vm_compute. Qed.
