(* ===== verification/Harness.v ===== *)
(** The harness: registry, persistence and resumption.

    Models [src/src/harness/runtime/agent-harness.ts] and [run-registry.ts],
    the validation of [src/src/harness/interrupts] and what
    [src/src/harness/persistence/serialization.ts] keeps of a run.

    Run objects live in a heap, the registry maps a run id to the object last
    registered for it, as two restorations of one run make two objects.  [resume]
    awaits the store between its look-up and its validation, so it is split
    there; from the validation to the first event it is one synchronous section.
    Plans, modes, evidence and artifacts of a run's scope are not represented,
    nor is what the store does to JSON. *)
From S2P Require Import Prelude Json Schema HarnessTypes Retry RunBudget Metering Lifecycle RunController.
From stdpp Require Import pretty.
Open Scope string_scope.
Open Scope Z_scope.
Open Scope list_scope.

(** ** Validating a response *)

(** src/src/harness/contracts/errors.ts # InvalidInterruptResponseError *)
Definition InvalidInterruptResponseError (message : string) : HarnessError :=
  mkError invalid_interrupt_response ("Interrupt response rejected: " +:+ message).

(** src/src/harness/interrupts/interrupt-manager.ts # validateResume *)
Definition validateResume (run : AgentRun) (response : InterruptResponse)
    (savedWorkspaceHash currentWorkspaceHash : option string) : res HarnessError HarnessInterrupt :=
  if negb (ar_status run === waiting) then
    Throw (mkError invalid_state_transition ("resume requires a waiting run, got " +:+ status_text (ar_status run)))
  else
    match ar_interrupt run with
    | None => Throw (mkError interrupt_not_pending "run has no pending interrupt")
    | Some interrupt =>
        if negb (hi_status interrupt === i_pending) then
          Throw (mkError interrupt_not_pending
            ("interrupt " +:+ hi_interruptId interrupt +:+ " is " +:+ interrupt_status_text (hi_status interrupt)))
        else if negb (ir_interruptId response === hi_interruptId interrupt) then
          Throw (InvalidInterruptResponseError "interruptId mismatch")
        else
          let schemaErrors := validateJsonSchema (ir_payload response) (hi_responseSchema interrupt) in
          if (0 <? length schemaErrors)%nat then Throw (InvalidInterruptResponseError (js_join "; " schemaErrors))
          else
            match savedWorkspaceHash, currentWorkspaceHash with
            | Some saved, Some current =>
                if negb (current === saved) then
                  Throw (mkError workspace_changed "workspace changed since the run paused")
                else Ok interrupt
            | _, _ => Ok interrupt
            end
    end.

(** src/src/harness/interrupts/interrupt-manager.ts # markInterruptAnswered *)
Definition markInterruptAnswered (accepted : bool) (i : HarnessInterrupt) : HarnessInterrupt :=
  mkHarnessInterrupt (hi_interruptId i) (hi_runId i) (hi_kind i) (hi_prompt i) (hi_responseSchema i)
    (hi_checkpointId i) (hi_createdAt i) (if accepted then i_answered else i_rejected).

(** ** The continuation input *)

Definition LEGACY_CONVERSATION_HISTORY : string := "legacy.conversationHistory".
Definition LEGACY_INITIAL_PLAN_STATE : string := "legacy.initialPlanState".
Definition LEGACY_PLAN_TEXT : string := "legacy.planText".

Definition with_metadata (m : list (string * jsval)) (input : AgentRunInput) : AgentRunInput :=
  mkInput (in_prompt input) (in_maxRounds input) (in_budget input) (Some m).

(** src/src/harness/interrupts/plan-approval.ts # applyPlanApprovalResponse *)
Definition applyPlanApprovalResponse (accepted planText : jsval) (input : AgentRunInput) : AgentRunInput :=
  let metadata := nullish (in_metadata input) [] in
  let metadata :=
    if falsy accepted then metadata
    else
      let metadata := jset LEGACY_INITIAL_PLAN_STATE (JStr "approved") metadata in
      if falsy planText then metadata else jset LEGACY_PLAN_TEXT planText metadata in
  with_metadata metadata input.

(** [String(x)], as [join] applies it. *)
Fixpoint js_text (v : jsval) : string :=
  match v with
  | JUndef | JNull => ""
  | JBool b => if b then "true" else "false"
  | JNum n => pretty n
  | JStr s => s
  | JArr vs => js_join "," (js_text <$> vs)
  | JObj _ => "[object Object]"
  end.

Definition type_error (what : string) : string := "TypeError: " +:+ what.

(** [a.answer]: undefined and null have no properties. *)
Definition read_answer (a : jsval) : res string jsval :=
  match a with
  | JUndef | JNull => Throw (type_error "a.answer")
  | _ => Ok (field "answer" a)
  end.
Fixpoint read_answers (answers : list jsval) : res string (list jsval) :=
  match answers with
  | [] => Ok []
  | a :: answers => v ← read_answer a; vs ← read_answers answers; Ok (v :: vs)
  end.

Definition message (role content : string) : jsval := JObj [("role", JStr role); ("content", JStr content)].
Definition newline : string := String (Ascii.ascii_of_nat 10) "".

(** src/src/harness/interrupts/clarification.ts # applyClarificationResponse

    A history that is not an array cannot be spread. *)
Definition applyClarificationResponse (answers : jsval) (input : AgentRunInput) : res string AgentRunInput :=
  let metadata := nullish (in_metadata input) [] in
  let history := match jget LEGACY_CONVERSATION_HISTORY metadata with
    | None | Some JUndef | Some JNull => JArr []
    | Some h => h
    end in
  match answers with
  | JArr vs =>
      vs ← read_answers vs;
      let answerText := js_join newline (js_text <$> filter (fun v => negb (falsy v) = true) vs) in
      if answerText === "" then Ok (with_metadata (jset LEGACY_CONVERSATION_HISTORY history metadata) input)
      else
        match history with
        | JArr h =>
            let continuation := h ++ [message "user" (in_prompt input);
              message "assistant" "[clarification-gate] answered";
              message "user" ("用户回答：" +:+ newline +:+ answerText)] in
            Ok (with_metadata (jset LEGACY_CONVERSATION_HISTORY (JArr continuation) metadata) input)
        | _ => Throw (type_error "history")
        end
  | _ => Throw (type_error "payload.answers.map")
  end.

(** src/src/harness/runtime/agent-harness.ts # applyResponseToInput *)
Definition applyResponseToInput (kind : InterruptKind) (payload : jsval) (input : AgentRunInput)
    : res string AgentRunInput :=
  match kind with
  | plan_approval => Ok (applyPlanApprovalResponse (field "accepted" payload) (field "planText" payload) input)
  | clarification =>
      let answers := match field "answers" payload with JUndef | JNull => JArr [] | a => a end in
      applyClarificationResponse answers input
  | _ => Ok input
  end.

(** ** Saving and restoring *)

(** src/src/harness/persistence/harness-store.ts # SerializableRun *)
Record SerializableRun := mkSerializable {
  sz_runId : string;
  sz_sessionId : string;
  sz_status : RunStatus;
  sz_input : AgentRunInput;
  sz_outcome : option RunOutcome;
  sz_interrupt : option HarnessInterrupt;
  sz_eventSequence : Z;
  sz_createdAt : Z;
  sz_startedAt : option Z;
  sz_finishedAt : option Z;
  sz_limits : RunBudget;
  sz_used : BudgetUsage;
  sz_workspaceHash : option string;
}.

(** src/src/harness/persistence/serialization.ts # serializeRun *)
Definition serializeRun (run : AgentRun) (workspaceHash : option string) : SerializableRun :=
  mkSerializable (ar_runId run) (ar_sessionId run) (ar_status run) (ar_input run) (ar_outcome run)
    (ar_interrupt run) (ar_eventSequence run) (ar_createdAt run) (ar_startedAt run) (ar_finishedAt run)
    (bl_limits (ar_budget run)) (bl_used (ar_budget run)) workspaceHash.

(** src/src/harness/persistence/serialization.ts # restoreAgentRun

    The scope is assembled anew: its coordinator starts from zero, with the
    budget's cap; what was used comes back with the ledger. *)
Definition restoreAgentRun (s : SerializableRun) : AgentRun :=
  mkRun (sz_runId s) (sz_sessionId s) (sz_status s) (sz_input s)
    (newRetryCoordinator None (Some (maxModelCalls (sz_limits s))) None)
    (with_used (sz_used s) (createBudgetLedger (sz_limits s)))
    (sz_createdAt s) (sz_startedAt s) (sz_finishedAt s) (sz_interrupt s) (sz_outcome s) (sz_eventSequence s).

(** src/src/agent/round/helpers.ts # resolveMaxRounds

    The environment variable as the finite number it denotes, if any. *)
Definition resolveMaxRounds (explicit envValue : option Z) : Z :=
  match explicit with
  | Some n => if 0 <? n then n else match envValue with Some c => if 0 <? c then c else 50 | None => 50 end
  | None => match envValue with Some c => if 0 <? c then c else 50 | None => 50 end
  end.

(** src/src/harness/runtime/run-registry.ts # RunRegistry.create @37-77 *)
Definition create_run (runId sessionId : string) (input : AgentRunInput) (envPhysical envMaxRounds : option Z)
    (now : Z) : AgentRun :=
  let budget := mergeRunBudget (in_budget input) in
  let explicit := match in_budget input with Some o => pb_maxModelCalls o | None => None end in
  let derived := match envPhysical with
    | Some e => if 0 <? e then e else deriveMaxPhysicalProviderRequests (resolveMaxRounds (in_maxRounds input) envMaxRounds)
    | None => deriveMaxPhysicalProviderRequests (resolveMaxRounds (in_maxRounds input) envMaxRounds)
    end in
  let budget := match explicit with
    | Some _ => budget
    | None => mkBudget (maxWallTimeMs budget) derived (maxToolCalls budget) (maxInputTokens budget)
        (maxOutputTokens budget) (maxCacheMissTokens budget) (maxWrites budget) (maxExternalActions budget)
        (maxRepairCycles budget)
    end in
  mkRun runId sessionId created input (newRetryCoordinator None (Some (maxModelCalls budget)) None)
    (createBudgetLedger budget) now None None None None 0.

(** ** Answering a run *)

Definition set_cancelled (now : Z) (r : AgentRun) : AgentRun :=
  set_outcome (o_cancelled "interrupt_rejected")
    (set_status cancelled (ar_startedAt r) (Some (nullish (ar_finishedAt r) now)) r).

Inductive Answer :=
| A_refused (error : HarnessError)
| A_rejected
| A_threw (message : string)
| A_resumed (input : AgentRunInput).

(** src/src/harness/runtime/agent-harness.ts # createAgentHarness @171-200

    The synchronous section between two awaits, on the run object; a rejection
    sets the status without the machine. *)
Definition answer_run (response : InterruptResponse) (savedWorkspaceHash currentWorkspaceHash : option string)
    (now : Z) (run : AgentRun) : Answer * AgentRun :=
  match validateResume run response savedWorkspaceHash currentWorkspaceHash with
  | Throw e => (A_refused e, run)
  | Ok interrupt =>
      let payload := ir_payload response in
      if negb (ir_accepted response) || strict_eq_prim (JBool false) (field "accepted" payload) then
        (A_rejected, set_cancelled now (set_interrupt (Some (markInterruptAnswered false interrupt)) run))
      else
        let run := set_interrupt (Some (markInterruptAnswered true interrupt)) run in
        match applyResponseToInput (hi_kind interrupt) payload (ar_input run) with
        | Throw m => (A_threw m, run)
        | Ok input => (A_resumed input, run)
        end
  end.

(** ** The harness *)

(** src/src/harness/runtime/agent-harness.ts # createAgentHarness @69-83

    The run objects; the registry; the active runs of each session; the store,
    if one is configured. *)
Record HarnessState := mkHarness {
  hs_heap : list AgentRun;
  hs_registry : gmap string nat;
  hs_active : gmap string (list string);
  hs_store : option (gmap string SerializableRun);
}.

Definition write_run (ref : nat) (r : AgentRun) (st : HarnessState) : HarnessState :=
  mkHarness (<[ref := r]> (hs_heap st)) (hs_registry st) (hs_active st) (hs_store st).
Definition write_active (sessionId : string) (ids : list string) (st : HarnessState) : HarnessState :=
  mkHarness (hs_heap st) (hs_registry st) (<[sessionId := ids]> (hs_active st)) (hs_store st).

(** A new run object, registered under its id. *)
Definition register_run (r : AgentRun) (st : HarnessState) : nat * HarnessState :=
  (length (hs_heap st),
   mkHarness (hs_heap st ++ [r]) (<[ar_runId r := length (hs_heap st)]> (hs_registry st)) (hs_active st) (hs_store st)).

(** [store.saveRun(...).catch(() => {})]: saving may fail, silently. *)
Definition save_run (saved : bool) (r : AgentRun) (hash : option string) (st : HarnessState) : HarnessState :=
  match hs_store st with
  | Some runs => if saved then mkHarness (hs_heap st) (hs_registry st) (hs_active st)
                                (Some (<[ar_runId r := serializeRun r hash]> runs)) else st
  | None => st
  end.

(** src/src/harness/runtime/agent-harness.ts # createAgentHarness @85-98 *)
Definition session_runs (sessionId : string) (st : HarnessState) : list string :=
  nullish (hs_active st !! sessionId) [].

Inductive Found :=
| F_run (ref : nat) (savedWorkspaceHash : option string)
| F_load
| F_missing
| F_nothing.

(** src/src/harness/runtime/agent-harness.ts # createAgentHarness @152-156 *)
Definition resume_lookup (runId : string) (st : HarnessState) : Found :=
  match hs_registry st !! runId with
  | Some ref => F_run ref None
  | None => match hs_store st with Some _ => F_load | None => F_missing end
  end.

(** src/src/harness/runtime/agent-harness.ts # createAgentHarness @156-168

    After the store has answered.  A run that the store does not have is
    reported missing, unless it has been registered in the meantime. *)
Definition resume_load (runId : string) (st : HarnessState) : Found * HarnessState :=
  match hs_store st ≫= (fun runs => runs !! runId) with
  | Some s =>
      let '(ref, st) := register_run (restoreAgentRun s) st in
      (F_run ref (sz_workspaceHash s), st)
  | None => (match hs_registry st !! runId with Some _ => F_nothing | None => F_missing end, st)
  end.

(** src/src/harness/runtime/agent-harness.ts # createAgentHarness @171-208

    [workspaceHash] is what the provider computes now. *)
Definition resume_answer (response : InterruptResponse) (workspaceHash : option string) (saved : bool) (now : Z)
    (ref : nat) (savedWorkspaceHash : option string) (st : HarnessState) : option Answer * HarnessState :=
  match hs_heap st !! ref with
  | None => (None, st)
  | Some run =>
      let currentHash := match savedWorkspaceHash with Some _ => workspaceHash | None => None end in
      let '(a, run') := answer_run response savedWorkspaceHash currentHash now run in
      let st := write_run ref run' st in
      (Some a,
       match a with
       | A_refused _ | A_threw _ => st
       | A_rejected => save_run saved run' currentHash st
       | A_resumed _ => write_active (ar_sessionId run') (session_runs (ar_sessionId run') st ++ [ar_runId run']) st
       end)
  end.

Section Harness.
Context (newId : BudgetLedger -> string) (classifyToolSideEffect : string -> SideEffect).

(** What the agent loop makes of an input. *)
Context (execute : AgentRunInput -> list KernelStep * KernelEnd).

(** src/src/harness/runtime/agent-harness.ts # createAgentHarness @210-226

    The controlled run of a registered object with a fresh controller, and the
    save that follows it. *)
Definition run_segment (resuming_run : bool) (input : AgentRunInput) (interruptId : string) (now : Z)
    (room : option nat) (hash : option string) (saved : bool) (ref : nat) (st : HarnessState)
    : option RunExit * HarnessState :=
  match hs_heap st !! ref with
  | None => (None, st)
  | Some run =>
      let '(steps, fin) := execute input in
      let x := runControlledRun newId classifyToolSideEffect resuming_run steps fin interruptId now room
        (session_runs (ar_sessionId run) st) None run in
      let st := write_active (ar_sessionId run) (rr_activeRunIds x) (write_run ref (rr_run x) st) in
      (Some (rr_exit x), save_run saved (rr_run x) hash st)
  end.

(** src/src/harness/runtime/agent-harness.ts # createAgentHarness @113-148 *)
Definition harness_run (sessionId : string) (input : AgentRunInput) (runId : string) (envPhysical envMaxRounds : option Z)
    (interruptId : string) (now : Z) (room : option nat) (hash : option string) (saved : bool) (st : HarnessState)
    : option RunExit * HarnessState :=
  let '(ref, st) := register_run (create_run runId sessionId input envPhysical envMaxRounds now) st in
  let st := write_active sessionId (session_runs sessionId st ++ [runId]) st in
  run_segment false input interruptId now room hash saved ref st.

Inductive ResumeResult :=
| R_answer (a : Answer)
| R_ran (exit : RunExit)
| R_not_found (error : HarnessError)
| R_nothing.

(** src/src/harness/contracts/errors.ts # RunNotFoundError *)
Definition RunNotFoundError (runId : string) : HarnessError :=
  mkError run_not_found ("Harness run not found: " +:+ runId).

(** src/src/harness/runtime/agent-harness.ts # createAgentHarness @150-227

    When nothing else happens at its awaits. *)
Definition harness_resume (runId : string) (response : InterruptResponse) (interruptId : string) (now : Z)
    (room : option nat) (hash : option string) (saved : bool) (st : HarnessState) : ResumeResult * HarnessState :=
  let '(found, st) := match resume_lookup runId st with F_load => resume_load runId st | f => (f, st) end in
  match found with
  | F_run ref savedHash =>
      match resume_answer response hash saved now ref savedHash st with
      | (Some (A_resumed input), st) =>
          match run_segment true input interruptId now room hash saved ref st with
          | (Some exit, st) => (R_ran exit, st)
          | (None, st) => (R_nothing, st)
          end
      | (Some a, st) => (R_answer a, st)
      | (None, st) => (R_nothing, st)
      end
  | F_missing => (R_not_found (RunNotFoundError runId), st)
  | F_load | F_nothing => (R_nothing, st)
  end.
End Harness.

(** ** Saving and restoring a run *)

(** What is kept comes back: the restored run serializes to the same record, and
    differs from the run only in its coordinator and pending reservations. *)
Lemma serialize_restore r hash :
  serializeRun (restoreAgentRun (serializeRun r hash)) hash = serializeRun r hash /\
  bl_reservations (ar_budget (restoreAgentRun (serializeRun r hash))) = [] /\
  co_physicalCount (ar_coordinator (restoreAgentRun (serializeRun r hash))) = 0%nat.
Proof. by destruct r as [? ? ? ? ? [? ? ?]]. Qed.

(** ** The life of a run object

    Answers may arrive at any time; a segment of the run begins, runs its loop
    and ends, and answers may fall between these. *)
Section Life.
Context (newId : BudgetLedger -> string) (classifyToolSideEffect : string -> SideEffect).

(** The ids of the interrupts answered and of those created, newest first. *)
Inductive object_life (r0 : AgentRun) : AgentRun -> list string -> list string -> Prop :=
| ol_start : object_life r0 r0 [] []
| ol_answer r ans ids response saved current now : object_life r0 r ans ids ->
    object_life r0 (answer_run response saved current now r).2
      (match (answer_run response saved current now r).1 with
       | A_refused _ => ans
       | _ => ir_interruptId response :: ans
       end) ids
| ol_begin r ans ids resuming_run controller now r' es : object_life r0 r ans ids ->
    begin_run resuming_run now (configure_guard controller r) = Ok (r', es) -> object_life r0 r' ans ids
| ol_loop r ans ids steps fin out room : object_life r0 r ans ids ->
    object_life r0 (rs_run (runGuardedLoop newId classifyToolSideEffect steps fin (mkRunState r out room)).1) ans ids
| ol_end r ans ids exit iid now out room : object_life r0 r ans ids ->
    (iid ∉ ids) -> (forall i, ar_interrupt r0 = Some i -> hi_interruptId i <> iid) ->
    object_life r0 (rs_run (conclude_run exit iid now (mkRunState r out room)).1) ans (iid :: ids).

Definition known (r0 : AgentRun) (ids : list string) (id : string) : Prop :=
  id ∈ ids \/ exists i, ar_interrupt r0 = Some i /\ hi_interruptId i = id.

(** Every answered interrupt is known and was answered once; a pending one has
    not been answered. *)
Definition answers_ok (r0 r : AgentRun) (ans ids : list string) : Prop :=
  NoDup ans /\ (forall id, id ∈ ans -> known r0 ids id) /\
  forall i, ar_interrupt r = Some i -> known r0 ids (hi_interruptId i) /\
    (hi_status i = i_pending -> hi_interruptId i ∉ ans).

Lemma answers_ok_same r0 r r' ans ids : ar_interrupt r' = ar_interrupt r -> answers_ok r0 r ans ids -> answers_ok r0 r' ans ids.
Proof. intros E (H1 & H2 & H3). split_and!; try done. by rewrite E. Qed.

(** When a response is accepted, and what becomes of the interrupt. *)
Lemma validateResume_ok r response saved current i :
  validateResume r response saved current = Ok i <->
  ar_status r = waiting /\ ar_interrupt r = Some i /\ hi_status i = i_pending /\
  ir_interruptId response = hi_interruptId i /\
  validateJsonSchema (ir_payload response) (hi_responseSchema i) = [] /\
  (forall h h', saved = Some h -> current = Some h' -> h' = h).
Proof.
  unfold validateResume. destruct (ar_status r === waiting) eqn:Es; cbn [negb]; reflect; [|by split; [|intros [? _]]].
  destruct (ar_interrupt r) as [j|]; [|by split; [|intros (_ & ? & _)]].
  destruct (hi_status j === i_pending) eqn:Ep; cbn [negb]; reflect;
    [|by split; [|intros (_ & [= ->] & ? & _)]].
  destruct (ir_interruptId response === hi_interruptId j) eqn:Ei; cbn [negb]; reflect;
    [|by split; [|intros (_ & [= ->] & _ & ? & _)]].
  destruct (validateJsonSchema _ _) as [|e es] eqn:Ev; cbn [length Nat.ltb Nat.leb].
  2: { split; [done|]. intros (_ & [= ->] & _ & _ & Hv & _). congruence. }
  destruct saved as [h|], current as [h'|]; try (split;
    [intros [= ->]; split_and!; try done; by intros ??? [=]|by intros (_ & [= ->] & _)]).
  destruct (h' === h) eqn:Eh; cbn [negb]; reflect.
  - split; [intros [= ->]; split_and!; try done; by intros ?? [= <-] [= <-]|by intros (_ & [= ->] & _)].
  - split; [done|]. intros (_ & _ & _ & _ & _ & H). by destruct Eh; apply H.
Qed.

Lemma answer_run_cases response saved current now r :
  (exists e, answer_run response saved current now r = (A_refused e, r)) \/
  exists i ok, validateResume r response saved current = Ok i /\
    ar_interrupt (answer_run response saved current now r).2 = Some (markInterruptAnswered ok i) /\
    forall e, (answer_run response saved current now r).1 <> A_refused e.
Proof.
  unfold answer_run. destruct (validateResume r response saved current) as [i|e]; [right|left; by eexists].
  destruct (negb _ || _); [by exists i, false|]. exists i, true. split; [done|].
  by destruct (applyResponseToInput _ _ _).
Qed.

Lemma answer_ok r0 r ans ids response saved current now : answers_ok r0 r ans ids ->
  answers_ok r0 (answer_run response saved current now r).2
    (match (answer_run response saved current now r).1 with
     | A_refused _ => ans
     | _ => ir_interruptId response :: ans
     end) ids.
Proof.
  intros Hok. destruct (answer_run_cases response saved current now r) as [(e & ->)|(i & ok & Hv & Hi & Hne)]; [done|].
  apply validateResume_ok in Hv as (_ & Hr & Hp & Hid & _). destruct Hok as (H1 & H2 & H3).
  destruct (H3 i Hr) as [Hk Hn]. specialize (Hn Hp).
  assert (answers_ok r0 (answer_run response saved current now r).2 (ir_interruptId response :: ans) ids) as H.
  { rewrite Hid. split_and!.
    - by constructor.
    - intros id [->|Hin]%elem_of_cons; auto.
    - rewrite Hi. intros j [= <-]. split; [done|]. by destruct ok. }
  destruct (answer_run response saved current now r) as [[e| | |] r']; cbn [fst snd] in *; try exact H.
  by destruct (Hne e).
Qed.

Lemma object_life_ok r0 r ans ids : object_life r0 r ans ids -> answers_ok r0 r ans ids.
Proof.
  induction 1 as [|r ans ids response saved current now _ IH|r ans ids b ctl now r' es _ IH Hb
    |r ans ids steps fin out room _ IH|r ans ids exit iid now out room _ IH Hnew Hnew0].
  - split_and!; [constructor|set_solver|]. intros i Hi. split; [right; eauto|]. intros _. apply not_elem_of_nil.
  - by apply answer_ok.
  - apply begin_run_coordinator in Hb as (_ & _ & Hi). by eapply answers_ok_same.
  - eapply answers_ok_same; [|exact IH]. by rewrite guarded_loop_interrupt.
  - destruct IH as (H1 & H2 & H3).
    assert (forall id, known r0 ids id -> known r0 (iid :: ids) id) as Hmono.
    { intros id [?|?]; [left; by right|by right]. }
    split_and!; [done|auto|]. intros i Hi.
    destruct (conclude_run_interrupt exit iid now (mkRunState r out room)) as [Hs|(j & Hj & Hji)].
    + rewrite Hs in Hi. cbn [rs_run] in Hi. destruct (H3 i Hi). auto.
    + rewrite Hj in Hi. injection Hi as <-. rewrite Hji. split; [left; by left|]. intros _ Hin.
      destruct (H2 _ Hin) as [?|(k & Hk & <-)]; [done|]. by apply (Hnew0 k).
Qed.

(** An interrupt is answered at most once: whatever answers reach a run object, in
    whatever order with the beginnings, loops and ends of its segments, no
    interrupt is accepted or rejected twice (ids of new interrupts being new); and
    an answer gets through exactly when the run is waiting on a pending interrupt
    of that id, the payload satisfies the interrupt's schema, and the workspace
    has not changed as far as both hashes are known. *)
Theorem interrupt_answered_once r0 r ans ids response saved current now :
  object_life r0 r ans ids ->
  NoDup ans /\
  ((forall e, (answer_run response saved current now r).1 <> A_refused e) <->
   exists i, ar_status r = waiting /\ ar_interrupt r = Some i /\ hi_status i = i_pending /\
     ir_interruptId response = hi_interruptId i /\
     validateJsonSchema (ir_payload response) (hi_responseSchema i) = [] /\
     (forall h h', saved = Some h -> current = Some h' -> h' = h)).
Proof.
  intros Hlife. split; [apply (object_life_ok _ _ _ _ Hlife)|]. split.
  - intros Hne. destruct (answer_run_cases response saved current now r) as [(e & He)|(i & ok & Hv & _)].
    + exfalso. apply (Hne e). by rewrite He.
    + exists i. by apply validateResume_ok in Hv.
  - intros (i & Hi). assert (validateResume r response saved current = Ok i) as Hv by (by apply validateResume_ok).
    destruct (answer_run_cases response saved current now r) as [(e & He)|(j & ok & _ & _ & Hne)]; [|done].
    unfold answer_run in He. rewrite Hv in He. destruct (negb _ || _); [done|].
    by destruct (applyResponseToInput _ _ _).
Qed.

(** ** The budget over the whole life of a run *)

(** Every object that stands for a run, in whatever process, each with the
    provider requests of its line: those made on it and, before, on what it was
    restored from.  [fm_saves] is every record ever saved, with the requests of
    its line, and [fm_total] the requests made in all. *)
Record Family := mkFamily {
  fm_objects : list (AgentRun * nat);
  fm_saves : list (SerializableRun * nat);
  fm_total : nat;
}.

(** Segments and answers on any object, between which it may be saved or not;
    any record may be restored, the latest or a stale one, any number of times. *)
Inductive budget_life (r0 : AgentRun) : Family -> Prop :=
| bu_start : budget_life r0 (mkFamily [(r0, 0%nat)] [] 0)
| bu_segment F i r n resuming_run steps fin iid now room active controller :
    budget_life r0 F -> fm_objects F !! i = Some (r, n) ->
    let r' := rr_run (runControlledRun newId classifyToolSideEffect resuming_run steps fin iid now room active controller r) in
    let made := (requests r' - requests r)%nat in
    budget_life r0 (mkFamily (<[i := (r', n + made)%nat]> (fm_objects F)) (fm_saves F) (fm_total F + made))
| bu_answer F i r n response saved current now :
    budget_life r0 F -> fm_objects F !! i = Some (r, n) ->
    budget_life r0 (mkFamily (<[i := ((answer_run response saved current now r).2, n)]> (fm_objects F)) (fm_saves F) (fm_total F))
| bu_save F i r n hash :
    budget_life r0 F -> fm_objects F !! i = Some (r, n) ->
    budget_life r0 (mkFamily (fm_objects F) (fm_saves F ++ [(serializeRun r hash, n)]) (fm_total F))
| bu_restore F j saved n :
    budget_life r0 F -> fm_saves F !! j = Some (saved, n) ->
    budget_life r0 (mkFamily (fm_objects F ++ [(restoreAgentRun saved, n)]) (fm_saves F) (fm_total F)).

Lemma answer_run_budget response saved current now r :
  ar_budget (answer_run response saved current now r).2 = ar_budget r.
Proof. unfold answer_run. by repeat case_match. Qed.

(** A run within the limits of [r0] whose line has made [n] requests. *)
Definition within (r0 r : AgentRun) (n : nat) : Prop :=
  bl_limits (ar_budget r) = bl_limits (ar_budget r0) /\ bl_reservations (ar_budget r) = [] /\
  Z.of_nat n <= modelCalls (bl_used (ar_budget r)) /\
  forall k, usedKind (bl_used (ar_budget r)) k <= Z.max 0 (maxKind (bl_limits (ar_budget r0)) k).

Lemma within_calls r0 r n : within r0 r n -> Z.of_nat n <= Z.max 0 (maxModelCalls (bl_limits (ar_budget r0))).
Proof. intros (_ & _ & H3 & H4). specialize (H4 model_call). cbn [usedKind maxKind] in H4. lia. Qed.

Lemma within_segment r0 r n resuming_run steps fin iid now room active controller : within r0 r n ->
  let r' := rr_run (runControlledRun newId classifyToolSideEffect resuming_run steps fin iid now room active controller r) in
  within r0 r' (n + (requests r' - requests r)).
Proof.
  intros (H1 & H2 & H3 & H4) r'.
  destruct (controlled_run_within_budget newId classifyToolSideEffect resuming_run steps fin iid now room active controller r H2)
    as (K1 & K2 & K3 & K4 & K5). fold r' in K1, K2, K3, K4, K5.
  split_and!; [congruence|done|lia|]. intros k. specialize (K5 k). specialize (H4 k). rewrite H1 in K5. lia.
Qed.

Fixpoint requests_of (l : list (AgentRun * nat)) : nat :=
  match l with [] => 0%nat | (_, n) :: l => (n + requests_of l)%nat end.
Lemma requests_of_insert l i r n r' n' : l !! i = Some (r, n) -> (n <= n')%nat ->
  requests_of (<[i := (r', n')]> l) = (requests_of l + (n' - n))%nat.
Proof.
  intros Hi Hle. revert i Hi. induction l as [|[r1 n1] l IH]; intros [|i] Hi; [done|done| |].
  - injection Hi as -> ->. cbn. lia.
  - change (n1 + requests_of (<[i := (r', n')]> l) = n1 + requests_of l + (n' - n))%nat. rewrite (IH i Hi). lia.
Qed.

Lemma requests_of_app l1 l2 : requests_of (l1 ++ l2) = (requests_of l1 + requests_of l2)%nat.
Proof. induction l1 as [|[r1 n1] l1 IH]; cbn; [done|]. rewrite IH. lia. Qed.

Lemma elem_of_update {A} (l : list A) i x y : y ∈ <[i := x]> l -> y ∈ l \/ y = x.
Proof.
  intros [j Hj]%list_elem_of_lookup. apply list_lookup_insert_Some in Hj as [(_ & -> & _)|[_ Hj]]; [by right|].
  left. by eapply list_elem_of_lookup_2.
Qed.

Lemma budget_life_inv r0 F : ar_budget r0 = createBudgetLedger (bl_limits (ar_budget r0)) -> budget_life r0 F ->
  (forall r n, (r, n) ∈ fm_objects F -> within r0 r n) /\
  (forall saved n, (saved, n) ∈ fm_saves F -> exists r hash, saved = serializeRun r hash /\ within r0 r n) /\
  (fm_total F <= requests_of (fm_objects F))%nat.
Proof.
  intros H0. induction 1 as [|F i r n b steps fin iid now room active ctl _ IH Hi r' made|F i r n resp sv cur now _ IH Hi
    |F i r n hash _ IH Hi|F j saved n _ IH Hj]; cbn [fm_objects fm_saves fm_total].
  - split_and!; [|intros ? ? []%not_elem_of_nil|done]. intros r n [= -> ->]%list_elem_of_singleton.
    unfold within. rewrite H0. split_and!; try done. intros []; cbn; lia.
  - destruct IH as (H1 & H2 & H3). pose proof (H1 r n (list_elem_of_lookup_2 _ _ _ Hi)) as Hw. split_and!; [|done|].
    + intros r1 n1 [?|[= -> ->]]%elem_of_update; [by apply H1|]. by apply within_segment.
    + rewrite (requests_of_insert _ i r n) by (done || lia). lia.
  - destruct IH as (H1 & H2 & H3). pose proof (H1 r n (list_elem_of_lookup_2 _ _ _ Hi)) as Hw. split_and!; [|done|].
    + intros r1 n1 [?|[= -> ->]]%elem_of_update; [by apply H1|]. unfold within. by rewrite answer_run_budget.
    + rewrite (requests_of_insert _ i r n) by done. lia.
  - destruct IH as (H1 & H2 & H3). split_and!; [done| |done].
    intros s1 n1 [?|[= -> ->]%list_elem_of_singleton]%elem_of_app; [by apply H2|].
    exists r, hash. split; [done|]. apply H1. by eapply list_elem_of_lookup_2.
  - destruct IH as (H1 & H2 & H3). split_and!; [|done|].
    + intros r1 n1 [?|[= -> ->]%list_elem_of_singleton]%elem_of_app; [by apply H1|].
      destruct (H2 saved n (list_elem_of_lookup_2 _ _ _ Hj)) as (r & hash & -> & K1 & K2 & K3 & K4). by split_and!.
    + pose proof (requests_of_app (fm_objects F) [(restoreAgentRun saved, n)]). lia.
Qed.

(** C16: A budget holds along every line of a run: whatever records of it are
    saved between its segments, best effort, and whichever of them are restored,
    stale or latest, once or often, in any process, each object is within the
    limits fixed at creation; along the line from the creation to any object, over
    all its segments (whatever their loops do), pauses, answers and restorations,
    no more provider requests are made than the object counts as model calls, and
    no kind of work exceeds its limit. What the limits do not bound is the number
    of lines: two restorations of one record count apart, so that all objects
    together stay only within the limit times the number of objects. *)
Theorem budget_over_a_life runId sessionId input envPhysical envMaxRounds now F :
  let r0 := create_run runId sessionId input envPhysical envMaxRounds now in
  budget_life r0 F ->
  let limits := bl_limits (ar_budget r0) in
  (forall r n, (r, n) ∈ fm_objects F ->
     bl_limits (ar_budget r) = limits /\
     Z.of_nat n <= modelCalls (bl_used (ar_budget r)) /\
     Z.of_nat n <= Z.max 0 (maxModelCalls limits) /\
     forall k, usedKind (bl_used (ar_budget r)) k <= Z.max 0 (maxKind limits k)) /\
  Z.of_nat (fm_total F) <= Z.of_nat (length (fm_objects F)) * Z.max 0 (maxModelCalls limits).
Proof.
  intros r0 Hlife. cbn zeta. apply budget_life_inv in Hlife as (H1 & _ & H3); [|done]. split.
  - intros r n Hin. pose proof (within_calls _ _ _ (H1 r n Hin)). destruct (H1 r n Hin) as (? & _ & ? & ?). by split_and!.
  - assert (forall l, (forall r n, (r, n) ∈ l -> within r0 r n) ->
      Z.of_nat (requests_of l) <= Z.of_nat (length l) * Z.max 0 (maxModelCalls (bl_limits (ar_budget r0)))) as Hsum.
    { intros l. induction l as [|[r n] l IH]; intros Hl; [done|]. cbn [requests_of length].
      pose proof (within_calls _ _ _ (Hl r n ltac:(left))). specialize (IH (fun r n H => Hl r n ltac:(by right))). lia. }
    specialize (Hsum _ H1). lia.
Qed.
End Life.

(** ** A plan approved, and what goes wrong around an answer *)

Definition ask_plan : AgentRunInput -> list KernelStep * KernelEnd := fun _ => (sample_script, plan_ready).
Definition waiting_run : AgentRun := rr_run (controlled plan_ready None).
Definition approve : InterruptResponse := mkResponseTo "i-1" (JObj [("accepted", JBool true)]) true.

(** The life of the object: begun, run, waiting on its first interrupt, answered. *)
Definition begun_run : AgentRun :=
  match begin_run false 7 (configure_guard None (sample_agent_run created)) with
  | Ok (r, _) => r
  | Throw _ => sample_agent_run created
  end.
Definition looped_run : AgentRun :=
  rs_run (runGuardedLoop sample_id no_side_effect sample_script plan_ready (mkRunState begun_run [] None)).1.
Definition paused_run : AgentRun :=
  rs_run (conclude_run (L_decision (d_break orchestrator_plan_ready None)) "i-1" 7 (mkRunState looped_run [] None)).1.
Definition answered_run : AgentRun := (answer_run approve None None 8 paused_run).2.

Lemma interrupt_answered_once_witness :
  (answer_run approve None None 8 paused_run).1 <> A_refused (mkError interrupt_not_pending "") /\
  NoDup ["i-1"] /\
  ~ (forall e, (answer_run approve None None 9 answered_run).1 <> A_refused e).
Proof.
  assert (object_life sample_id no_side_effect (sample_agent_run created) paused_run [] ["i-1"]) as Hp.
  { refine (ol_end _ _ _ looped_run [] [] (L_decision (d_break orchestrator_plan_ready None)) "i-1" 7 [] None _
      (not_elem_of_nil _) _); [|by intros].
    refine (ol_loop _ _ _ begun_run [] [] sample_script plan_ready [] None _).
    refine (ol_begin _ _ _ (sample_agent_run created) [] [] false None 7 begun_run _ _ _); [apply ol_start|].
    vm_compute; reflexivity. }
  assert (object_life sample_id no_side_effect (sample_agent_run created) answered_run ["i-1"] ["i-1"]) as Ha.
  { exact (ol_answer _ _ _ paused_run [] ["i-1"] approve None None 8 Hp). }
  destruct (interrupt_answered_once _ _ _ _ _ _ approve None None 9 Ha) as [Hnd Hiff].
  split; [by vm_compute|]. split; [exact Hnd|]. intros H. apply Hiff in H as (i & _ & Hi & Hst & _).
  vm_compute in Hi. injection Hi as <-. vm_compute in Hst. discriminate Hst.
Defined.

(** A run allowed two requests makes one and waits for approval; its record is
    restored twice, both objects are answered, and each makes its second
    request: no line exceeds the limit, the two together do. *)
Definition fresh_run : AgentRun := create_run "run-1" "s" sample_input (Some 2) (Some 1) 0.
Definition segment_of (resuming_run : bool) (r : AgentRun) : AgentRun :=
  rr_run (runControlledRun sample_id no_side_effect resuming_run sample_script plan_ready "i-1" 7 None ["run-1"] None r).
Definition waiting_record : SerializableRun := serializeRun (segment_of false fresh_run) None.
Definition approved_run : AgentRun := (answer_run approve None None 8 (restoreAgentRun waiting_record)).2.
Definition twice_restored : Family :=
  mkFamily [(segment_of false fresh_run, 1%nat); (segment_of true approved_run, 2%nat); (segment_of true approved_run, 2%nat)]
    [(waiting_record, 1%nat)] 3.
Lemma twice_restored_life : budget_life sample_id no_side_effect fresh_run twice_restored.
Proof.
  pose proof (bu_start sample_id no_side_effect fresh_run) as H.
  apply (bu_segment _ _ _ _ 0 fresh_run 0 false sample_script plan_ready "i-1" 7 None ["run-1"] None) in H; [|vm_compute; reflexivity].
  apply (bu_save _ _ _ _ 0 (segment_of false fresh_run) 1 None) in H; [|vm_compute; reflexivity].
  do 2 (apply (bu_restore _ _ _ _ 0 waiting_record 1) in H; [|vm_compute; reflexivity]).
  apply (bu_answer _ _ _ _ 1 (restoreAgentRun waiting_record) 1 approve None None 8) in H; [|vm_compute; reflexivity].
  apply (bu_answer _ _ _ _ 2 (restoreAgentRun waiting_record) 1 approve None None 8) in H; [|vm_compute; reflexivity].
  apply (bu_segment _ _ _ _ 1 approved_run 1 true sample_script plan_ready "i-1" 7 None ["run-1"] None) in H; [|vm_compute; reflexivity].
  apply (bu_segment _ _ _ _ 2 approved_run 1 true sample_script plan_ready "i-1" 7 None ["run-1"] None) in H; [|vm_compute; reflexivity].
  vm_compute in H |- *. exact H.
Qed.
Lemma budget_over_a_life_witness :
  (exists r, (r, 2%nat) ∈ fm_objects twice_restored /\ (2 <= modelCalls (bl_used (ar_budget r)))%Z) /\
  (Z.of_nat (fm_total twice_restored) <= 3 * Z.max 0 (maxModelCalls (bl_limits (ar_budget fresh_run))))%Z.
Proof.
  destruct (budget_over_a_life sample_id no_side_effect "run-1" "s" sample_input (Some 2) (Some 1) 0 twice_restored
    twice_restored_life) as [H1 H2]. split; [|exact H2].
  exists (segment_of true approved_run). assert ((segment_of true approved_run, 2%nat) ∈ fm_objects twice_restored) as Hin by (right; left).
  split; [exact Hin|]. exact (proj1 (proj2 (H1 (segment_of true approved_run) 2%nat Hin))).
Defined.

(** A run of at most two model calls, saved after its first call and restored
    twice, makes three. *)
Lemma restorations_exceed_limit :
  maxModelCalls (bl_limits (ar_budget fresh_run)) = 2 /\ fm_total twice_restored = 3%nat.
Proof. split; vm_compute; reflexivity. Qed.

(** The store of another process, in which the run waits for approval. *)
Definition stored : HarnessState :=
  mkHarness [] ∅ ∅ (Some {["run-1" := serializeRun waiting_run (Some "hash-1")]}).
Definition resume_now (response : InterruptResponse) (hash : string) (st : HarnessState) : ResumeResult * HarnessState :=
  harness_resume sample_id no_side_effect ask_plan "run-1" response "i-2" 9 None (Some hash) true st.

(** The workspace is compared once only: a resume refused because it changed has
    registered the run, and the next one finds it in the registry, where no hash
    is saved. *)
Lemma workspace_checked_once :
  (resume_now approve "hash-2" stored).1 =
    R_answer (A_refused (mkError workspace_changed "workspace changed since the run paused")) /\
  (resume_now approve "hash-2" (resume_now approve "hash-2" stored).2).1 = R_ran X_finished.
Proof. by vm_compute. Qed.

(** Two resumes that both miss the registry restore two objects of one run, and
    both answers get through. *)
Lemma concurrent_restores_answer_twice :
  let '(f1, st) := resume_load "run-1" stored in
  let '(f2, st) := resume_load "run-1" st in
  match f1, f2 with
  | F_run ref1 h1, F_run ref2 h2 =>
      let '(a1, st) := resume_answer approve (Some "hash-1") true 9 ref1 h1 st in
      let '(a2, _) := resume_answer approve (Some "hash-1") true 9 ref2 h2 st in
      a1 = Some (A_resumed (with_metadata [(LEGACY_INITIAL_PLAN_STATE, JStr "approved")] sample_input)) /\ a2 = a1
  | _, _ => False
  end.
Proof. by vm_compute. Qed.

(** A clarification answer that is no object passes the schema and then throws:
    the run stays waiting on an interrupt that counts as answered, and no later
    answer gets through. *)
Definition asking_run : AgentRun :=
  rr_run (controlled (K_done (d_return r_clarification None)) None).
Definition answer_with (answers : list jsval) : InterruptResponse :=
  mkResponseTo "i-1" (JObj [("answers", JArr answers)]) true.
Lemma malformed_answer_strands_run :
  let '(a1, r1) := answer_run (answer_with [JNull]) None None 9 asking_run in
  let '(a2, r2) := answer_run (answer_with [JObj [("answer", JStr "yes")]]) None None 9 r1 in
  a1 = A_threw (type_error "a.answer") /\ ar_status r1 = waiting /\
  a2 = A_refused (mkError interrupt_not_pending "interrupt i-1 is answered") /\ r2 = r1.
Proof. by vm_compute. Qed.

(** A rejection ends the run without an event. *)
Lemma rejection_without_event :
  let r := (answer_run (mkResponseTo "i-1" (JObj [("accepted", JBool false)]) true) None None 9 waiting_run).2 in
  ar_status r = cancelled /\ ar_eventSequence r = ar_eventSequence waiting_run.
Proof. by vm_compute. Qed.
